(* ===== verification/_CoqProject ===== *)
-Q . S2P
Prelude.v
Endian.v
Bytearray.v
Serial.v
Iovec.v
Stream.v
Zlib.v
Protocol.v
Timer.v
Iomanager.v
Util.v
Httpmap.v
Http.v
Servlet.v
Fiber.v
Scheduler.v
Fdmanager.v
Hook.v
Eventloop.v
Address.v
Sockets.v
Tcpserver.v
Cstring.v
Ragel.v
Regex.v
Http11machine.v
Httpclientmachine.v
Urimachine.v
Http11.v
Httptext.v
Http11text.v
Httpclient.v
Httpclienttext.v
Httpparser.v
Httpresponse.v
Httpsession.v
Httpconnection.v
Http11grammar.v
Clientgrammar.v
Uri.v
Urigrammar.v
Httppool.v
Logformat.v
Log.v
Yaml.v
Logconf.v
Config.v
Worker.v
Jsonutil.v
Fsutil.v
Yamljson.v
Servlets.v
Utilmisc.v
Pbjson.v
Tcpconf.v
Locks.v
Lifecycle.v
Rockstream.v
Schedstop.v
