(* ===== verification/Prelude.v ===== *)
(** * bobliew: a verified model of the Bobliew-Server C++ library

    Bobliew-Server is a C++ server framework: fibers on ucontext, a scheduler
    that runs fibers and callbacks on worker threads, an epoll event manager
    with timers, hooked system calls that suspend the calling fiber, addresses
    and sockets, a chunked byte buffer with a binary serialisation, streams over
    sockets and zlib, the "rock" message protocol, URI and HTTP parsers generated
    by Ragel, an HTTP server with servlets, an HTTP client with a connection pool,
    a logger and a YAML configuration.  This library models those parts in Rocq
    and proves what makes them correct.  All sources named below are under
    src/bobliew/.

    ** How code is modelled

    A member function of a class is a computation over a record of the class's
    members.  Where it can throw or crash it lives in the monad [Effect.M] of
    this file: [Ret] a result, [Throw] an exception with the object as it was
    left, or [UB] for undefined behaviour and failed [BOBLIEW_ASSERT]s, which
    abort.  Pure functions are Rocq functions.  Machine integers are [Z] with
    their wrap-around written out ([wrap], [swrap]); bytes are [ascii], a
    [std::string] or a [char] buffer is a list of them.  Objects reached through
    several [shared_ptr]s (timers, fibers, descriptor contexts, sockets of a
    server, connections of a pool, loggers, variables) live in a heap by address.
    Code under a mutex is one atomic step; code between locks is cut into steps
    that other threads can come between.  Libraries that are not in the
    repository are type classes with their laws: the kernel's calls ([Sys],
    [SysLaws], [Net], [NetLaws]), zlib ([Codec]), yaml-cpp ([Yaml], [YamlLaws]),
    jsoncpp ([Json], [JsonBuild], [JsonShape]), protobuf reflection ([Protobuf]),
    the file system ([FileSystem], [FileSystemLaws]), epoll ([Epoll]), the time
    functions ([Libc]); each has an instance that the witnesses run on.
    Everything is executable, and the examples and witnesses are evaluated.

    ** Files

    Foundations
    - Prelude.v: the effect monad, machine integers, bytes, buffers, the hint
      databases [preserve] and [range].
    - Endian.v (endian.h): byte swapping and host/network order.
    - Util.v, Modules [StdString], [StringUtil], [Util] (util.{h,cc}): the members
      of std::string used, URL coding, trimming, paths, binary search.
    - Cstring.v: character classes, buffers, [strtol] and [atoi].
    - Fsutil.v, Module [FSUtil] (util.cc): listing, making, removing, moving and
      opening files; Module [TreeFs]: a tree of nodes that has the laws.
    - Utilmisc.v, Modules [StreamUtil], [SysUtil] (util.{h,cc}): transfers of a
      fixed size, with a speed limit, [Slice]; time, interfaces, locales, texts.
    - Locks.v, Modules [Guards], [Semaphore], [Threads] (mutex.{h,cc},
      thread.{h,cc}): lock classes and scoped locks, threads as a step relation.

    Buffers, streams, messages
    - Bytearray.v, Module [ByteArray] (bytearray.{h,cc}): the list of nodes, the
      cursor, capacity growth, reads, writes, file input and output, views.  The
      abstract state is a flat byte string with a position; [trace_refines] shows
      that every sequence of operations behaves as on that string.
    - Serial.v, Module [Serial] (bytearray.cc): fixed-width integers, zigzag,
      varints, floats and the string formats.
    - Iovec.v: scatter/gather vectors.
    - Stream.v (stream.{h,cc}, streams/socket_stream.{h,cc}, the transfer
      functions of socket.cc): class [Stream] is the C++ interface, [StreamLaws]
      what its users rely on, [Net]/[NetLaws] the kernel's socket calls; the
      fixed-size transfers are proved against the laws, and the socket stream is
      an instance of them.
    - Zlib.v, Module [ZlibStream] (streams/zlib_stream.{h,cc}).
    - Protocol.v, Module [Protocol] (protocol.{h,cc}, rock/rock_protocol.{h,cc}):
      message bodies, the frame header, the decoder and the encoder.
    - Rockstream.v, Module [RockStream] (rock/rock_stream.{h,cc}): requests,
      contexts and handlers over the class [AsyncStream], whose operations have no
      implementation in the sources.

    Fibers, events, system calls
    - Timer.v, Module [Timer] (timer.{h,cc}): timers by address, the ordered set.
    - Iomanager.v, Module [IOManager] (iomanager.{h,cc}): the event table, the
      epoll interest list, registration, cancellation, wake-ups.
    - Fiber.v, Module [Fiber] (fiber.{h,cc}): fiber objects, the thread-local
      pointers and the contexts the machine switches between.
    - Scheduler.v, Module [Scheduler] (scheduler.{h,cc}): the task queue and the
      worker threads as a step relation; Schedstop.v, Module [SchedStop]: the loop on
      the thread of the caller and the joins of [stop].
    - Worker.v, Modules [FiberSemaphore], [WorkerGroup], [WorkerManager] (mutex.cc,
      worker.{h,cc}): the semaphore of fibers, groups of tasks as a step relation,
      named schedulers.
    - Fdmanager.v, Module [FdManager] (fd_manager.{h,cc}): the descriptor table.
    - Hook.v, Module [Hook] (hook.cc): the hooked calls, cut where they suspend:
      [do_io], timeouts, sleeping, connecting, socket options and flags.
    - Eventloop.v, Module [EventLoop] (iomanager.cc, hook.cc): the idle loop over
      Timer.v, Iomanager.v and Hook.v as one step relation over all of them.
    - Lifecycle.v, Modules [SchedulerLife], [IOManagerLife], [StreamAddress]
      (scheduler.cc, iomanager.cc, streams/socket_stream.cc): construction and
      destruction with the descriptors taken, the address getters of a stream.

    Addresses, sockets, servers
    - Address.v, Module [Address] (address.{h,cc}): addresses, their order, text,
      masks, resolution and interfaces over an abstract resolver.
    - Sockets.v, Module [Sockets] (socket.{h,cc}): Socket and SSLSocket over the
      class [Sys]; the world in which sockets are made, used and destroyed.
    - Tcpserver.v, Module [TcpServer] (tcp_server.{h,cc}): binding, the accept
      loop, starting and stopping.
    - Tcpconf.v, Module [TcpConf] (tcp_server.{h,cc}): the configuration of a
      server from YAML, the text of a server.

    URI and HTTP
    - Ragel.v: the runtime of a generated machine, over any table and actions;
      Regex.v: regular expressions with derivatives and a checked search for a
      bisimulation between an expression and a machine.
    - Http11machine.v, Httpclientmachine.v, Urimachine.v: the state tables of
      http/http11_parser.rl.cc, http/httpclient_parser.rl.cc and uri.rl.cc.
    - Http11.v, Httptext.v, Http11text.v, Httpclient.v, Httpclienttext.v: the
      actions and entry points of the two HTTP machines, and what they do on the
      text of a request or a response.
    - Httpmap.v, Http.v (http/http.{h,cc}): the case-insensitive maps; methods,
      status codes, requests with lazily parsed parameters, responses, printing.
    - Httpparser.v, Httpresponse.v (http/http_parser.{h,cc}): the two parsers with
      their callbacks.
    - Httpsession.v, Httpconnection.v, Httppool.v (http/http_session.{h,cc},
      http/http_connection.{h,cc}): receiving requests and responses over any
      stream, building requests, the pool of connections.
    - Servlet.v, Module [Servlet] (http/servlet.{h,cc}): servlets and their
      dispatcher.
    - Servlets.v, Modules [ConfigServlet], [StatusServlet], [HttpServer]
      (http/servlets/, http/http_server.{h,cc}): the configuration page over
      Config.v and Yamljson.v, durations, the server with its dispatcher and the
      client loop over the session of Httpsession.v.
    - Uri.v, Module [Uri] (uri.h, uri.rl, uri.rl.cc): the actions, [Create], the
      getters and printing.
    - Http11grammar.v, Clientgrammar.v, Urigrammar.v: the grammars of the .rl
      files as regular expressions, and their equivalence with the tables.

    Logging and configuration
    - Logformat.v (log.{h,cc}): levels, events, the pattern formatter.
    - Log.v, Module [Log]: appenders with their files, loggers, the manager.
    - Yaml.v: the interface of yaml-cpp and a small implementation of its laws.
    - Logconf.v, Module [LogConf]: the logs of the configuration, their YAML
      conversions and the listener that applies a change to Log.v.
    - Jsonutil.v, Module [JsonUtil] (util/json_util.{h,cc}): escaping and accessors.
    - Config.v, Modules [Cast], [Config] (config.{h,cc}): container conversions,
      variables with listeners, the table of variables, loading a document.
    - Yamljson.v, Module [YamlJson] (util.cc): conversions between YAML and JSON;
      Pbjson.v, Module [PbJson] (util.cc): protobuf messages as JSON.

    The components meet as in the code: the event table hands tasks to a
    scheduler, expired timers give callbacks, hooked calls register events and
    timers and suspend, and Eventloop.v runs them together; streams read and
    write byte arrays through Iovec.v; the protocol decodes from a stream into a
    byte array; sessions and connections drive the parsers from a [Stream], of
    which the sockets of Sockets.v are an instance ([socket_net]); servers and
    pools own sockets; the configuration calls the listener of the logs.

    ** What the theorems show

    - Equivalence of the generated parsers with their grammars: [Create_grammar],
      [execute_grammar], [response_grammar].
    - Round trips: printed requests, responses and URIs are parsed back
      ([request_dump_parses], [response_dump_parses], [toString_roundtrip]), what
      a client builds is what a server reads ([request_seen]), messages, query
      strings, logger definitions, containers as YAML, JSON as YAML and back
      ([json_yaml_roundtrip]).
    - Refinement to an abstract state: byte arrays to flat strings, header maps
      to case-insensitive partial maps, servlet tables to their history.
    - Types and invariants of all reachable states: the heap of loggers and
      appenders ([log_world_typed]), timers, pending events with epoll interest
      and waiting tasks, fibers and contexts, tasks of the scheduler in every
      interleaving, fibers suspended in hooked calls ([woken_exactly_once]),
      descriptors owned by sockets ([descriptors_owned]), the counters of a pool,
      the permits of a group of tasks ([group_bounded], [waitAll_waits]), holders of
      the locks that lock ([guards_exclusive]), threads that start, statement by
      statement ([thread_start_safe]).
    - Termination with the result: receiving a request or a response whose head
      comes with the first read, however its body arrives, fixed-size transfers, the
      client loop on a stream with finitely many bytes to come, the pattern
      formatter on every pattern, loading a document.
    - Functional behaviour with error branches: delivery of log records, what a
      log file holds, a change of the configuration, binding all addresses or
      none, expiry of timers, waking on events, timeouts, the files below a
      directory ([ListAllFile_correct]), stopping a scheduler, which leaves behind
      at most tasks pinned to a worker that has gone ([stop_leaves_pinned_only]),
      removal of a tree ([Rm_correct]), the configuration page
      ([config_page_correct]).
    - Errors: hostile input never crashes the parsers (outside a query string) or
      the decoder of frames that are not requests within the stated bounds, and a
      number of behaviours the code does not intend are stated and proved as what
      they are ([doRecv_never_answers] among them).
    - Concurrency: the scheduler, the groups of tasks, locks and threads are step
      relations over all interleavings; the event loop is that of a manager with one
      worker thread ([woken_exactly_once], [timeout_ends_wait]), and
      [timeout_lost_by_race] shows what a second worker can do to it.

    ** Bounds and fuel

    Loops that are not structural take fuel: the byte-array loops one unit per
    node and one more, [PARSE_PARAM] one per character and one more, varint
    reading one per byte of the longest encoding and one more, the binary search
    one per element and one more, the client loop one per byte to come and one more,
    the receive loops of sessions and connections one per read and one more, the
    loops of the pattern formatter one per byte and one more, [Logger::log] two
    (a logger and the root), [ListAllMember] and the conversions of documents and
    messages the depth and one more, [Rm] and [ListAllFile] the depth of the tree
    and one more; running out counts as not returning, and the theorems show it
    does not happen.  The searches for bisimulations run at most 10000 rounds and are
    checked to have ended.  [fits] bounds strings by max_size, 2^63;
    [BinarySearch] needs at most 2^30 elements because its midpoint is computed in
    [int]; counters of threads are [size_t] and the theorems assume fewer than
    2^64 threads.

    ** What is not modelled

    http11_parser.cc and httpclient_parser.cc are older copies of the generated
    parsers that the build does not use.  OpenSSL's handshakes are results of
    [Sys].  Getting a connection of a pool and giving it back are each one step.  The
    kernel's own removal of closed descriptors from the epoll list is left out, and a
    null servlet creator cannot be registered in the model.  What a file stream has buffered counts as written.  Listeners of the
    configuration do not call back into it, and its locks are left out.
    [StatusServlet::handle] is commented out in the source;
    [AsyncSocketStream], load_balance and rock_server have no implementation, and
    hash_util and crypto_util are empty; application, module, environment and the
    database and ZooKeeper clients are stubs or declarations; singleton.h,
    noncopyable.h and macro.h have no logic of their own. *)

From stdpp Require Export base tactics list strings gmap.
From Stdlib Require Export ZArith Ascii Lia.

(** Strings and lists of bytes both use [++]; the list one is the default. *)
#[global] Open Scope list_scope.
#[global] Open Scope Z_scope.

(** ** Effects: a state monad with C++ exceptions and undefined behaviour

    A member function of a C++ class becomes a computation over the state of
    the object.  It returns normally, leaves through an exception (the object
    keeps whatever was already written to it), or does not come back at all:
    undefined behaviour (null dereference, out-of-bounds [memcpy], division by
    zero) and failed assertions, which abort the process. *)
Module Effect.

Inductive exn :=
| out_of_range
| invalid_argument
| logic_error
| bad_function_call.

#[export] Instance exn_eq_dec : EqDecision exn.
Proof. solve_decision. Defined.

Inductive outcome (S A : Type) :=
| Ret (a : A) (s : S)
| Throw (e : exn) (s : S)
| UB.
#[global] Arguments Ret {S A} a s.
#[global] Arguments Throw {S A} e s.
#[global] Arguments UB {S A}.

Definition M (S A : Type) : Type := S → outcome S A.

Definition ret {S A} (a : A) : M S A := λ s, Ret a s.
Definition bind {S A B} (m : M S A) (k : A → M S B) : M S B :=
  λ s, match m s with
       | Ret a s' => k a s'
       | Throw e s' => Throw e s'
       | UB => UB
       end.
Definition get {S} : M S S := λ s, Ret s s.
Definition put {S} (s : S) : M S unit := λ _, Ret tt s.
Definition throw {S A} (e : exn) : M S A := λ s, Throw e s.
Definition ub {S A} : M S A := λ _, UB.

(** A pure partial step ([None]: undefined behaviour) inside a computation. *)
Definition lift {S A} (o : option A) : M S A :=
  match o with Some a => ret a | None => ub end.

(** A library call that throws [e] ([None]) instead of returning. *)
Definition or_throw {S A} (e : exn) (o : option A) : M S A :=
  match o with Some a => ret a | None => throw e end.

(** A C++ [try] block whose [catch(...)] runs [h]. *)
Definition try_catch {S A} (m : M S A) (h : M S A) : M S A :=
  λ s, match m s with
       | Throw _ s' => h s'
       | r => r
       end.

Declare Scope effect_scope.
Delimit Scope effect_scope with effect.
Notation "'let!' x ':=' m 'in' k" := (bind m (λ x, k))
  (at level 10, x pattern, m at level 100, k at level 200)
  : effect_scope.
Notation "m ';!' k" := (bind m (λ _, k))
  (at level 199, right associativity) : effect_scope.

Section laws.
Context {S A B : Type}.

Lemma bind_Ret (m : M S A) (k : A → M S B) s a s' :
  m s = Ret a s' → bind m k s = k a s'.
Proof. unfold bind. intros ->. done. Qed.

Lemma bind_Throw (m : M S A) (k : A → M S B) s e s' :
  m s = Throw e s' → bind m k s = Throw e s'.
Proof. unfold bind. intros ->. done. Qed.

Lemma bind_UB (m : M S A) (k : A → M S B) s :
  m s = UB → bind m k s = UB.
Proof. unfold bind. intros ->. done. Qed.

Lemma bind_inv (m : M S A) (k : A → M S B) s b s'' :
  bind m k s = Ret b s'' → ∃ a s', m s = Ret a s' ∧ k a s' = Ret b s''.
Proof. unfold bind. destruct (m s); naive_solver. Qed.

Lemma bind_get (k : S → M S B) s : bind get k s = k s s.
Proof. done. Qed.

End laws.

(** [m] never reaches undefined behaviour from a state satisfying [P], and
    keeps [P] whether it returns or throws. *)
Definition preserves {S A} (P : S → Prop) (m : M S A) : Prop :=
  ∀ s, P s → match m s with
             | Ret _ s' => P s'
             | Throw _ s' => P s'
             | UB => False
             end.

Section preserves.
Context {S A B : Type} (P : S → Prop).

Lemma preserves_ret (a : A) : preserves P (ret a).
Proof. intros s Hs. done. Qed.

Lemma preserves_throw e : preserves P (throw (A:=A) e).
Proof. intros s Hs. done. Qed.

Lemma preserves_bind (m : M S A) (k : A → M S B) :
  preserves P m → (∀ a, preserves P (k a)) → preserves P (bind m k).
Proof.
  intros Hm Hk s Hs. specialize (Hm s Hs). unfold bind.
  destruct (m s) as [a s'|e s'|]; [by apply Hk|done|done].
Qed.

Lemma preserves_try (m h : M S A) :
  preserves P m → preserves P h → preserves P (try_catch m h).
Proof.
  intros Hm Hh s Hs. specialize (Hm s Hs). unfold try_catch.
  destruct (m s) as [a s'|e s'|]; [done|by apply Hh|done].
Qed.

End preserves.

End Effect.
Export Effect.
#[global] Open Scope effect_scope.

(** ** Hint databases of the development *)

(** Invariant-preservation lemmas, applied by [auto with preserve]. *)
Create HintDb preserve.
#[export] Hint Resolve preserves_ret preserves_throw preserves_bind
  preserves_try : preserve.

(** Range facts about machine integers, applied by [auto with range]. *)
Create HintDb range.

(** ** Machine integers *)

(** [wrap w z] is [z] stored in an unsigned integer of [w] bits; [swrap] the
    two's complement reading of the same bits. *)
Definition wrap (w z : Z) : Z := z mod 2 ^ w.
Definition swrap (w z : Z) : Z :=
  let u := z mod 2 ^ w in if u <? 2 ^ (w - 1) then u else u - 2 ^ w.

Definition in_u (w z : Z) : Prop := 0 ≤ z < 2 ^ w.
Definition in_s (w z : Z) : Prop := - 2 ^ (w - 1) ≤ z < 2 ^ (w - 1).

#[export] Instance in_u_dec w z : Decision (in_u w z).
Proof. unfold in_u. apply _. Defined.
#[export] Instance in_s_dec w z : Decision (in_s w z).
Proof. unfold in_s. apply _. Defined.

Lemma wrap_range w z : 0 ≤ w → in_u w (wrap w z).
Proof. intros. apply Z.mod_pos_bound. lia. Qed.

Lemma wrap_small w z : in_u w z → wrap w z = z.
Proof. apply Z.mod_small. Qed.

Lemma pow2_half w : 0 < w → 2 ^ w = 2 * 2 ^ (w - 1).
Proof. intros. replace w with (1 + (w - 1)) at 1 by lia. rewrite Z.pow_add_r; lia. Qed.

Lemma swrap_range w z : 0 < w → in_s w (swrap w z).
Proof.
  intros Hw. unfold in_s, swrap. pose proof (pow2_half w Hw).
  pose proof (Z.mod_pos_bound z (2 ^ w)). case_match; lia.
Qed.

Lemma swrap_small w z : 0 < w → in_s w z → swrap w z = z.
Proof.
  intros Hw [Hl Hu]. unfold swrap. pose proof (pow2_half w Hw) as Hp.
  destruct (decide (0 ≤ z)) as [Hz|Hz].
  - rewrite Z.mod_small by lia. rewrite (proj2 (Z.ltb_lt _ _)); lia.
  - replace (z mod 2 ^ w) with (z + 2 ^ w)
      by (rewrite <- (Z.mod_add z 1) by lia; rewrite Z.mul_1_l, Z.mod_small; lia).
    rewrite (proj2 (Z.ltb_ge _ _)); lia.
Qed.

Lemma swrap_wrap w z : 0 < w → swrap w (wrap w z) = swrap w z.
Proof. intros. unfold swrap, wrap. by rewrite Z.mod_mod by lia. Qed.

Lemma wrap_swrap w z : 0 < w → wrap w (swrap w z) = wrap w z.
Proof.
  intros Hw. unfold swrap, wrap. case_match.
  - by rewrite Z.mod_mod by lia.
  - replace (z mod 2 ^ w - 2 ^ w) with (z mod 2 ^ w + (-1) * 2 ^ w) by lia.
    rewrite Z.mod_add by lia. by rewrite Z.mod_mod by lia.
Qed.

#[export] Hint Resolve wrap_range swrap_range : range.

(** ** Bytes

    A byte of memory is an [ascii]; a [char] buffer is a [list ascii]. *)
Definition b2z (a : ascii) : Z := Z.of_N (N_of_ascii a).
Definition z2b (z : Z) : ascii := ascii_of_N (Z.to_N (z mod 256)).

Lemma b2z_range a : 0 ≤ b2z a < 256.
Proof.
  unfold b2z. destruct a as [[] [] [] [] [] [] [] []]; simpl; lia.
Qed.

Lemma b2z_z2b z : b2z (z2b z) = z mod 256.
Proof.
  unfold b2z, z2b. pose proof (Z.mod_pos_bound z 256).
  rewrite N_ascii_embedding by lia. lia.
Qed.

Lemma z2b_b2z a : z2b (b2z a) = a.
Proof.
  unfold z2b. rewrite Z.mod_small by apply b2z_range.
  unfold b2z. rewrite N2Z.id. apply ascii_N_embedding.
Qed.

#[export] Hint Resolve b2z_range : range.

(** All 256 bytes, to decide facts about tables indexed by a byte by computation. *)
Definition all_bytes : list ascii := (z2b ∘ Z.of_nat) <$> seq 0 256.

Lemma forall_bytes (p : ascii → bool) : forallb p all_bytes = true → ∀ c, p c = true.
Proof.
  intros H c. rewrite forallb_forall in H. apply H. unfold all_bytes.
  apply list_elem_of_In, list_elem_of_fmap. exists (Z.to_nat (b2z c)).
  pose proof (b2z_range c). split; [|apply elem_of_seq; lia].
  cbn. by rewrite Z2Nat.id, z2b_b2z by lia.
Qed.

(** ** Lists *)

(** Nested appends to the right, with the elements consed on. *)
Ltac app_right := repeat (progress (rewrite <- ?(assoc_L (++)); cbn [app])).
Ltac app_right_in H := repeat (progress (rewrite <- ?(assoc_L (++)) in H; cbn [app] in H)).

(** [splice i new l]: the buffer [l] after [memcpy(l + i, new, |new|)]. *)
Definition splice {A} (i : nat) (new l : list A) : list A :=
  take i l ++ new ++ drop (i + length new) l.

Section lists.
Context {A : Type}.
Implicit Types l new : list A.

Lemma length_splice i new l :
  (i + length new ≤ length l)%nat → length (splice i new l) = length l.
Proof.
  intros. unfold splice. rewrite !length_app, length_take, length_drop. lia.
Qed.

Lemma splice_app_l i new l1 l2 :
  (i + length new ≤ length l1)%nat →
  splice i new (l1 ++ l2) = splice i new l1 ++ l2.
Proof.
  intros. unfold splice. rewrite take_app_le, drop_app_le by lia.
  by rewrite <- !(assoc_L (++)).
Qed.

Lemma splice_app_r i new l1 l2 :
  splice (length l1 + i) new (l1 ++ l2) = l1 ++ splice i new l2.
Proof.
  unfold splice. rewrite take_app_add, <- (assoc_L (++)). do 2 f_equal.
  f_equal. replace (length l1 + i + length new)%nat with (length l1 + (i + length new))%nat by lia.
  by rewrite drop_app_add.
Qed.

Lemma splice_splice i new1 new2 l :
  (i ≤ length l)%nat →
  splice (i + length new1) new2 (splice i new1 l) = splice i (new1 ++ new2) l.
Proof.
  intros Hl. unfold splice at 2 3.
  assert (length (take i l ++ new1) = (i + length new1)%nat) as Ht
    by (rewrite length_app, length_take; lia).
  rewrite (assoc_L (++)). rewrite <- Ht at 1.
  rewrite <- (Nat.add_0_r (length _)), splice_app_r. unfold splice.
  rewrite take_0, drop_drop, length_app. cbn [app].
  rewrite <- !(assoc_L (++)). do 3 f_equal. f_equal. lia.
Qed.

Lemma take_drop_splice i new l :
  (i + length new ≤ length l)%nat →
  take (length new) (drop i (splice i new l)) = new.
Proof.
  intros. unfold splice.
  rewrite drop_app_length' by (rewrite length_take; lia).
  by rewrite take_app_length.
Qed.

Lemma take_drop_split p a n l :
  (a ≤ n)%nat →
  take n (drop p l) = take a (drop p l) ++ take (n - a) (drop (p + a) l).
Proof.
  intros. rewrite <- drop_drop. rewrite <- (take_drop a (drop p l)) at 1.
  destruct (decide (a ≤ length (drop p l)))%nat.
  - rewrite take_app_ge by (rewrite length_take; lia). rewrite length_take.
    do 3 f_equal. lia.
  - rewrite (drop_ge (drop p l)) by lia. rewrite !take_nil, !app_nil_r.
    rewrite !take_ge by (rewrite ?length_take; lia). done.
Qed.

(** Writing past the first [n] elements of [l] extends them. *)
Lemma take_splice i n new l extra :
  (i ≤ n ≤ length l)%nat → (i + length new ≤ length l + length extra)%nat →
  take (n `max` (i + length new)) (splice i new (l ++ extra)) = splice i new (take n l).
Proof.
  intros Hi Hl. unfold splice. rewrite take_take, (take_app_le l extra i) by lia.
  rewrite Nat.min_l by lia. assert (length (take i l) = i) as Ht by (rewrite length_take; lia).
  rewrite take_app_ge by lia. f_equal. rewrite take_app_ge by lia. f_equal. rewrite Ht.
  rewrite take_drop_commute.
  destruct (decide (n ≤ i + length new)%nat).
  - rewrite !drop_ge; [done|rewrite length_take; lia..].
  - replace (i + length new + (n `max` (i + length new) - i - length new))%nat with n by lia.
    by rewrite take_app_le by lia.
Qed.

(** A list split into what satisfies [P] and what does not. *)
Lemma filter_split (P : A → Prop) `{∀ x, Decision (P x)} l1 l2 :
  Forall P l1 → Forall (λ x, ¬ P x) l2 → filter P (l1 ++ l2) = l1.
Proof.
  intros H1 H2. rewrite filter_app.
  assert (filter P l2 = []) as ->.
  { induction H2; [done|]. by rewrite filter_cons_False. }
  rewrite app_nil_r. induction H1 as [|x l1 Hx H1 IH]; [done|].
  by rewrite filter_cons_True, IH.
Qed.

Lemma splice_end i new l :
  (i ≤ length l)%nat → (length l ≤ i + length new)%nat →
  splice i new l = take i l ++ new.
Proof. intros. unfold splice. by rewrite drop_ge, app_nil_r by lia. Qed.

End lists.
