(* ===== verification/Endian.v ===== *)
(** * Byte order (src/bobliew/endian.h) and the memory image of integers

    [le_bytes n z] is what [memcpy] sees when it copies an [n]-byte integer of
    value [z] on the little-endian machine the library is built for
    ([BOBLIEW_BYTE_ORDER] expands to [BOBLIEW_LITTLE_ENDIAN], see endian.h:35);
    [of_le] is the value of an unsigned integer filled by [memcpy].  The
    [byteswap] overloads are the glibc [bswap_*] macros between two casts. *)

From S2P Require Import Prelude.

(** ** Constants of endian.h *)
Definition BOBLIEW_LITTLE_ENDIAN : Z := 1.
Definition BOBLIEW_BIG_ENDIAN : Z := 2.
Definition BOBLIEW_BYTE_ORDER : Z := BOBLIEW_LITTLE_ENDIAN.

(** ** glibc's byte-swapping macros *)
Definition bswap_16 (x : Z) : Z :=
  wrap 16 (Z.lor (Z.land (Z.shiftr x 8) 0xff) (Z.shiftl (Z.land x 0xff) 8)).

Definition bswap_32 (x : Z) : Z :=
  Z.lor (Z.shiftr (Z.land x 0xff000000) 24)
    (Z.lor (Z.shiftr (Z.land x 0x00ff0000) 8)
       (Z.lor (Z.shiftl (Z.land x 0x0000ff00) 8)
          (Z.shiftl (Z.land x 0x000000ff) 24))).

Definition bswap_64 (x : Z) : Z :=
  Z.lor (Z.shiftr (Z.land x 0xff00000000000000) 56)
    (Z.lor (Z.shiftr (Z.land x 0x00ff000000000000) 40)
       (Z.lor (Z.shiftr (Z.land x 0x0000ff0000000000) 24)
          (Z.lor (Z.shiftr (Z.land x 0x000000ff00000000) 8)
             (Z.lor (Z.shiftl (Z.land x 0x00000000ff000000) 8)
                (Z.lor (Z.shiftl (Z.land x 0x0000000000ff0000) 24)
                   (Z.lor (Z.shiftl (Z.land x 0x000000000000ff00) 40)
                      (Z.shiftl (Z.land x 0x00000000000000ff) 56))))))).

(** An integer type of the sources: its width in bytes and its signedness. *)
Record ity := Ity { ity_bytes : nat; ity_signed : bool }.
Definition int8_t := Ity 1 true.
Definition uint8_t := Ity 1 false.
Definition int16_t := Ity 2 true.
Definition uint16_t := Ity 2 false.
Definition int32_t := Ity 4 true.
Definition uint32_t := Ity 4 false.
Definition int64_t := Ity 8 true.
Definition uint64_t := Ity 8 false.

Definition bits (T : ity) : Z := 8 * Z.of_nat (ity_bytes T).
Definition cast (T : ity) (z : Z) : Z :=
  if ity_signed T then swrap (bits T) z else wrap (bits T) z.
Definition in_range (T : ity) (z : Z) : Prop :=
  if ity_signed T then in_s (bits T) z else in_u (bits T) z.

(** [byteswap<T>] of endian.h: the overload is chosen by [sizeof(T)]; there is
    none for one-byte types ([None]: the call does not compile). *)
Definition byteswap (T : ity) (value : Z) : option Z :=
  match ity_bytes T with
  | 8%nat => Some (cast T (bswap_64 (wrap 64 value)))
  | 4%nat => Some (cast T (bswap_32 (wrap 32 value)))
  | 2%nat => Some (cast T (bswap_16 (wrap 16 value)))
  | _ => None
  end.

(** On the little-endian target, [byteswapOnLittleEndian] swaps and
    [byteswapOnBigEndian] is the identity. *)
Definition byteswapOnLittleEndian (T : ity) (t : Z) : option Z := byteswap T t.
Definition byteswapOnBigEndian (T : ity) (t : Z) : Z := t.

(** ** Memory image *)
Fixpoint le_bytes (n : nat) (z : Z) : list ascii :=
  match n with
  | O => []
  | S n => z2b z :: le_bytes n (z / 256)
  end.

Fixpoint of_le (bs : list ascii) : Z :=
  match bs with
  | [] => 0
  | b :: bs => b2z b + 256 * of_le bs
  end.

Definition be_bytes (n : nat) (z : Z) : list ascii := reverse (le_bytes n z).

Section image.
Implicit Types (bs : list ascii) (z : Z).

Lemma length_le_bytes n z : length (le_bytes n z) = n.
Proof. revert z. induction n; intros; simpl; auto. Qed.

Lemma length_be_bytes n z : length (be_bytes n z) = n.
Proof. unfold be_bytes. by rewrite length_reverse, length_le_bytes. Qed.

Lemma of_le_range bs : 0 ≤ of_le bs < 256 ^ Z.of_nat (length bs).
Proof.
  induction bs as [|b bs IH]; [done|]. simpl of_le. simpl length.
  pose proof (b2z_range b). rewrite Nat2Z.inj_succ, Z.pow_succ_r by lia. lia.
Qed.

Lemma of_le_le_bytes n z : of_le (le_bytes n z) = z mod 256 ^ Z.of_nat n.
Proof.
  revert z. induction n as [|n IH]; intros z.
  - by rewrite Z.mod_1_r.
  - cbn [le_bytes of_le]. rewrite IH, b2z_z2b, Nat2Z.inj_succ, Z.pow_succ_r by lia.
    rewrite Z.rem_mul_r by lia. done.
Qed.

Lemma le_bytes_of_le bs : le_bytes (length bs) (of_le bs) = bs.
Proof.
  induction bs as [|b bs IH]; [done|]. simpl. pose proof (b2z_range b).
  replace ((b2z b + 256 * of_le bs) / 256) with (of_le bs)
    by (Z.to_euclidean_division_equations; lia).
  rewrite IH. f_equal. rewrite <- (z2b_b2z b) at 2. unfold z2b. f_equal.
  by rewrite (Z.mul_comm 256), Z.mod_add by lia.
Qed.

Lemma le_bytes_inj n z1 z2 :
  in_u (8 * Z.of_nat n) z1 → in_u (8 * Z.of_nat n) z2 →
  le_bytes n z1 = le_bytes n z2 → z1 = z2.
Proof.
  unfold in_u. replace (2 ^ (8 * Z.of_nat n)) with (256 ^ Z.of_nat n)
    by (rewrite Z.pow_mul_r by lia; done).
  intros H1 H2 Heq. apply (f_equal of_le) in Heq.
  rewrite !of_le_le_bytes, !Z.mod_small in Heq by lia. done.
Qed.

Lemma le_bytes_mod n z : le_bytes n (z mod 256 ^ Z.of_nat n) = le_bytes n z.
Proof.
  rewrite <- of_le_le_bytes. rewrite <- (length_le_bytes n z) at 1.
  apply le_bytes_of_le.
Qed.

End image.

Lemma pow256 n : 256 ^ Z.of_nat n = 2 ^ (8 * Z.of_nat n).
Proof. rewrite Z.pow_mul_r by lia. done. Qed.

(** ** The swap macros reverse the memory image *)

Lemma land_byte_mask x k :
  0 ≤ k → Z.land x (Z.shiftl 255 k) = Z.shiftl (Z.shiftr x k mod 256) k.
Proof.
  intros Hk. change 256 with (2 ^ 8). rewrite <- Z.land_ones by lia.
  rewrite Z.shiftl_land. apply Z.bits_inj'. intros i Hi.
  rewrite !Z.land_spec. destruct (decide (i < k)) as [Hlt|Hge].
  - rewrite !(Z.shiftl_spec_low _ _ i) by lia. by rewrite andb_false_r.
  - rewrite !Z.shiftl_spec_high, Z.shiftr_spec by lia. do 2 f_equal; lia.
Qed.

Lemma lor_disjoint a b k :
  0 ≤ k → 0 ≤ a < 2 ^ k → Z.lor a (Z.shiftl b k) = a + b * 2 ^ k.
Proof.
  intros Hk Ha. rewrite <- Z.shiftl_mul_pow2 by lia.
  rewrite Z.add_nocarry_lxor; [symmetry; apply Z.lxor_lor|];
    apply Z.bits_inj'; intros i Hi; rewrite Z.land_spec, Z.bits_0;
    (destruct (decide (i < k)) as [Hlt|Hge];
     [rewrite (Z.shiftl_spec_low _ _ i) by lia; apply andb_false_r|
      rewrite <- (Z.mod_small a (2 ^ k)), Z.mod_pow2_bits_high by lia; done]).
Qed.

(** The [k]-th byte of the memory image of [x]. *)
Definition byte_at (x k : Z) : Z := Z.shiftr x (8 * k) mod 256.

Lemma byte_at_range x k : 0 ≤ byte_at x k < 256.
Proof. apply Z.mod_pos_bound. lia. Qed.

Lemma byte_at_wrap w x k :
  0 ≤ k → 8 * k + 8 ≤ w → byte_at (wrap w x) k = byte_at x k.
Proof.
  intros. unfold byte_at, wrap. change 256 with (2 ^ 8).
  rewrite <- !Z.land_ones by lia. apply Z.bits_inj'. intros i Hi.
  rewrite !Z.land_spec, !Z.shiftr_spec, Z.land_spec by lia.
  destruct (decide (i < 8)) as [Hlt|Hge].
  - rewrite (Z.ones_spec_low w) by lia. by rewrite andb_true_r.
  - rewrite (Z.ones_spec_high 8) by lia. by rewrite !andb_false_r.
Qed.

(** Normal form of a swapped word: masks become [byte_at]s, and the [lor]s of
    disjoint bytes become sums. *)
Lemma mask_down x m k j :
  m = Z.shiftl 255 (8 * k) → 0 ≤ j ≤ 8 * k →
  Z.shiftr (Z.land x m) j = Z.shiftl (byte_at x k) (8 * k - j).
Proof.
  intros -> Hj. rewrite land_byte_mask by lia.
  rewrite Z.shiftr_shiftl_l by lia. done.
Qed.

Lemma mask_up x m k j :
  m = Z.shiftl 255 (8 * k) → 0 ≤ j → 0 ≤ k →
  Z.shiftl (Z.land x m) j = Z.shiftl (byte_at x k) (8 * k + j).
Proof.
  intros -> Hj Hk. rewrite land_byte_mask, Z.shiftl_shiftl by lia. done.
Qed.

Lemma bswap_32_sum x :
  bswap_32 x = byte_at x 3 + byte_at x 2 * 2 ^ 8 + byte_at x 1 * 2 ^ 16
               + byte_at x 0 * 2 ^ 24.
Proof.
  unfold bswap_32.
  rewrite (mask_down x _ 3 24), (mask_down x _ 2 8), (mask_up x _ 1 8),
    (mask_up x _ 0 24) by (reflexivity || lia).
  pose proof (byte_at_range x 0). pose proof (byte_at_range x 1).
  pose proof (byte_at_range x 2). pose proof (byte_at_range x 3).
  simpl Z.sub; simpl Z.add. rewrite !Z.lor_assoc, Z.shiftl_0_r.
  rewrite (lor_disjoint _ _ 8), (lor_disjoint _ _ 16), (lor_disjoint _ _ 24) by lia.
  lia.
Qed.

Lemma bswap_64_sum x :
  bswap_64 x = byte_at x 7 + byte_at x 6 * 2 ^ 8 + byte_at x 5 * 2 ^ 16
               + byte_at x 4 * 2 ^ 24 + byte_at x 3 * 2 ^ 32
               + byte_at x 2 * 2 ^ 40 + byte_at x 1 * 2 ^ 48
               + byte_at x 0 * 2 ^ 56.
Proof.
  unfold bswap_64.
  rewrite (mask_down x _ 7 56), (mask_down x _ 6 40), (mask_down x _ 5 24),
    (mask_down x _ 4 8), (mask_up x _ 3 8), (mask_up x _ 2 24),
    (mask_up x _ 1 40), (mask_up x _ 0 56) by (reflexivity || lia).
  pose proof (byte_at_range x 0). pose proof (byte_at_range x 1).
  pose proof (byte_at_range x 2). pose proof (byte_at_range x 3).
  pose proof (byte_at_range x 4). pose proof (byte_at_range x 5).
  pose proof (byte_at_range x 6). pose proof (byte_at_range x 7).
  simpl Z.sub; simpl Z.add. rewrite !Z.lor_assoc, Z.shiftl_0_r.
  rewrite (lor_disjoint _ _ 8), (lor_disjoint _ _ 16), (lor_disjoint _ _ 24),
    (lor_disjoint _ _ 32), (lor_disjoint _ _ 40), (lor_disjoint _ _ 48),
    (lor_disjoint _ _ 56) by lia.
  lia.
Qed.

Lemma bswap_16_sum x :
  bswap_16 x = byte_at x 1 + byte_at x 0 * 2 ^ 8.
Proof.
  unfold bswap_16. change 0xff with (Z.ones 8). rewrite !Z.land_ones by lia.
  change (Z.shiftr x 8 mod 2 ^ 8) with (byte_at x 1).
  change (x mod 2 ^ 8) with (byte_at x 0).
  pose proof (byte_at_range x 0). pose proof (byte_at_range x 1).
  rewrite lor_disjoint by lia. apply wrap_small. unfold in_u. lia.
Qed.

(** Evaluates the powers of two and the products of literals. *)
Ltac reduce_pow :=
  repeat match goal with
  | |- context [2 ^ ?e] =>
      let v := eval compute in (2 ^ e) in change (2 ^ e) with v
  | |- context [Zpos ?a * Zpos ?b] =>
      let v := eval compute in (Zpos a * Zpos b) in
      change (Zpos a * Zpos b) with v
  end.

Lemma of_le_be_2 x : of_le (be_bytes 2 x) = bswap_16 x.
Proof.
  rewrite bswap_16_sum. unfold be_bytes, byte_at.
  cbn [le_bytes reverse rev_append of_le].
  rewrite !Z.shiftr_div_pow2, !b2z_z2b, ?Z.div_div by lia.
  change (2 ^ (8 * 0)) with 1. rewrite Z.div_1_r. reduce_pow. lia.
Qed.

Lemma of_le_be_4 x : of_le (be_bytes 4 x) = bswap_32 x.
Proof.
  rewrite bswap_32_sum. unfold be_bytes, byte_at.
  cbn [le_bytes reverse rev_append of_le].
  rewrite !Z.shiftr_div_pow2, !b2z_z2b, ?Z.div_div by lia.
  change (2 ^ (8 * 0)) with 1. rewrite Z.div_1_r. reduce_pow. lia.
Qed.

Lemma of_le_be_8 x : of_le (be_bytes 8 x) = bswap_64 x.
Proof.
  rewrite bswap_64_sum. unfold be_bytes, byte_at.
  cbn [le_bytes reverse rev_append of_le].
  rewrite !Z.shiftr_div_pow2, !b2z_z2b, ?Z.div_div by lia.
  change (2 ^ (8 * 0)) with 1. rewrite Z.div_1_r. reduce_pow. lia.
Qed.

Lemma le_bytes_wrap n z : le_bytes n (wrap (8 * Z.of_nat n) z) = le_bytes n z.
Proof. unfold wrap. rewrite <- pow256. apply le_bytes_mod. Qed.

Lemma le_bytes_cast T z : le_bytes (ity_bytes T) (cast T z) = le_bytes (ity_bytes T) z.
Proof.
  destruct (decide (ity_bytes T = 0%nat)) as [->|Hn]; [done|].
  unfold cast. case_match; [|apply le_bytes_wrap].
  rewrite <- (le_bytes_wrap _ (swrap _ _)). unfold bits.
  rewrite wrap_swrap by lia. apply le_bytes_wrap.
Qed.

(** Casting the unsigned value of an integer's memory image back to its type
    gives the integer. *)
Lemma cast_of_le T z :
  (0 < ity_bytes T)%nat → cast T (of_le (le_bytes (ity_bytes T) z)) = cast T z.
Proof.
  intros. rewrite of_le_le_bytes, pow256. fold (bits T). fold (wrap (bits T) z).
  unfold cast. case_match; [apply swrap_wrap; unfold bits; lia|].
  apply wrap_small, wrap_range. unfold bits. lia.
Qed.

Lemma cast_small T z : (0 < ity_bytes T)%nat → in_range T z → cast T z = z.
Proof.
  unfold in_range, cast. intros Hn. case_match.
  - apply swrap_small. unfold bits. lia.
  - apply wrap_small.
Qed.

Lemma cast_in_range T z : (0 < ity_bytes T)%nat → in_range T (cast T z).
Proof.
  intros. unfold in_range, cast, bits. case_match; [apply swrap_range|apply wrap_range]; lia.
Qed.

#[export] Hint Resolve cast_in_range : range.

Lemma in_range_int64 z : - 2 ^ 63 ≤ z < 2 ^ 63 → in_range int64_t z.
Proof. done. Qed.

(** The width has a [byteswap] overload. *)
Definition swappable (T : ity) : Prop :=
  ity_bytes T = 2%nat ∨ ity_bytes T = 4%nat ∨ ity_bytes T = 8%nat.

(** [byteswap] reverses the bytes in memory. *)
Lemma byteswap_image T z :
  swappable T →
  ∃ v, byteswap T z = Some v ∧ in_range T v ∧
       le_bytes (ity_bytes T) v = be_bytes (ity_bytes T) z.
Proof.
  intros HT. unfold byteswap.
  assert (∀ v, v = of_le (be_bytes (ity_bytes T) z) →
    in_range T (cast T v) ∧
    le_bytes (ity_bytes T) (cast T v) = be_bytes (ity_bytes T) z) as Hgen.
  { intros v ->. split; [apply cast_in_range; destruct HT as [->|[->| ->]]; lia|].
    rewrite le_bytes_cast. rewrite <- (length_be_bytes (ity_bytes T) z) at 1.
    apply le_bytes_of_le. }
  destruct HT as [HT|[HT|HT]]; rewrite HT in *; eexists; (split; [done|]);
    apply Hgen.
  - unfold be_bytes. rewrite <- (le_bytes_wrap 2). symmetry. apply of_le_be_2.
  - unfold be_bytes. rewrite <- (le_bytes_wrap 4). symmetry. apply of_le_be_4.
  - unfold be_bytes. rewrite <- (le_bytes_wrap 8). symmetry. apply of_le_be_8.
Qed.
