(* ===== verification/Bytearray.v ===== *)
(** * ByteArray: the chunked byte buffer (src/bobliew/bytearray.{h,cc})

    State and memory operations.  The linked list of [Node]s from [m_root] is
    the list [m_nodes] of the nodes' buffers (a node's [size] is the length of
    its buffer, and nodes are only ever appended or dropped together), and the
    pointer [m_curr] is the index of a node, [None] for [nullptr].  Counters of
    type [size_t] are [Z]s; subtractions, the only place where they can wrap,
    wrap at 64 bits.  Following a null pointer or copying outside a buffer is
    [UB].

    The second half states what the class promises: a flat buffer with a
    cursor ([content], [m_position], [m_size]), the invariant [wf] that ties
    [m_curr] to the cursor, and that every operation refines the flat one. *)

From S2P Require Import Prelude Endian.

(** What [new char[s]] leaves in the [k]-th node of an array: indeterminate
    bytes, so every statement holds for all of them. *)
Class Alloc := fresh : nat → nat → ascii.

Module ByteArray.

Record t := mk {
  m_position : Z;
  m_baseSize : Z;
  m_size : Z;
  m_capacity : Z;
  m_endian : Z;
  m_nodes : list (list ascii);
  m_curr : option nat
}.

(** A [struct iovec]: [iov_base] as a node and an offset in it, [iov_len]. *)
Record iovec := Iov { iov_node : nat; iov_off : Z; iov_len : Z }.

Definition set_position (v : Z) (ba : t) : t :=
  mk v (m_baseSize ba) (m_size ba) (m_capacity ba) (m_endian ba) (m_nodes ba) (m_curr ba).
Definition set_size (v : Z) (ba : t) : t :=
  mk (m_position ba) (m_baseSize ba) v (m_capacity ba) (m_endian ba) (m_nodes ba) (m_curr ba).
Definition set_curr (c : option nat) (ba : t) : t :=
  mk (m_position ba) (m_baseSize ba) (m_size ba) (m_capacity ba) (m_endian ba) (m_nodes ba) c.
Definition set_nodes (ns : list (list ascii)) (ba : t) : t :=
  mk (m_position ba) (m_baseSize ba) (m_size ba) (m_capacity ba) (m_endian ba) ns (m_curr ba).
Definition set_capacity (v : Z) (ba : t) : t :=
  mk (m_position ba) (m_baseSize ba) (m_size ba) v (m_endian ba) (m_nodes ba) (m_curr ba).

(** [p->next]. *)
Definition next (ba : t) (p : nat) : option nat :=
  if decide (S p < length (m_nodes ba))%nat then Some (S p) else None.

(** The buffer [p->ptr]; [None] when [p] is null. *)
Definition node_at (ba : t) (p : option nat) : option (list ascii) :=
  match p with Some c => m_nodes ba !! c | None => None end.

(** [memcpy(dst + doff, src + soff, n)], defined when both ranges exist. *)
Definition memcpy (dst : list ascii) (doff : Z) (src : list ascii) (soff n : Z)
    : option (list ascii) :=
  if decide (0 ≤ doff ∧ 0 ≤ soff ∧ 0 ≤ n ∧ doff + n ≤ Z.of_nat (length dst)
             ∧ soff + n ≤ Z.of_nat (length src))
  then Some (splice (Z.to_nat doff) (take (Z.to_nat n) (drop (Z.to_nat soff) src)) dst)
  else None.

(** [n] bytes read at [off] of a buffer. *)
Definition peek (src : list ascii) (off n : Z) : option (list ascii) :=
  if decide (0 ≤ off ∧ 0 ≤ n ∧ off + n ≤ Z.of_nat (length src))
  then Some (take (Z.to_nat n) (drop (Z.to_nat off) src))
  else None.

Section operations.
Context `{Alloc}.

(** [Node::Node(size_t s)] for the [k]-th node. *)
Definition new_node (k : nat) (s : Z) : list ascii := fresh k <$> seq 0 (Z.to_nat s).

(** Constructor. *)
Definition new (base_size : Z) : t :=
  mk 0 base_size 0 base_size BOBLIEW_BIG_ENDIAN [new_node 0 base_size] (Some 0%nat).

Definition getReadSize (ba : t) : Z := wrap 64 (m_size ba - m_position ba).
Definition getCapacity (ba : t) : Z := wrap 64 (m_capacity ba - m_position ba).
Definition isLittleEndian (ba : t) : bool := m_endian ba =? BOBLIEW_LITTLE_ENDIAN.
Definition setIsLittleEndian (val : bool) (ba : t) : t := ba.

(** [for(i = 0; i < count; ++i) { tmp->next = new Node(m_baseSize); ... }] *)
Fixpoint append_nodes (count : nat) (ba : t) : t :=
  match count with
  | O => ba
  | S count =>
      append_nodes count
        (set_capacity (m_capacity ba + m_baseSize ba)
           (set_nodes (m_nodes ba ++ [new_node (length (m_nodes ba)) (m_baseSize ba)]) ba))
  end.

(** [ceil(1.0 * size / m_baseSize)]: the double division is exact enough to
    give the integer ceiling as long as [size < 2^53]. *)
Definition ceil_div (size base : Z) : Z := (size + base - 1) / base.

Definition addCapacity (size : Z) (ba : t) : t :=
  if size =? 0 then ba
  else
    let old_cap := getCapacity ba in
    if size <=? old_cap then ba
    else
      let size := size - old_cap in
      let count := ceil_div size (m_baseSize ba) in
      let first := Some (length (m_nodes ba)) in
      let ba := append_nodes (Z.to_nat count) ba in
      if old_cap =? 0 then set_curr first ba else ba.

(** The loop of [ByteArray::write].  Each round but the last moves [m_curr] to
    the next node, so the number of nodes bounds the rounds; [fuel] is one
    more than that. *)
Fixpoint write_loop (fuel : nat) (buf : list ascii) (npos ncap bpos size : Z)
    (ba : t) : outcome t unit :=
  match fuel with
  | O => UB
  | S fuel =>
      if negb (0 <? size) then Ret tt ba
      else
        match m_curr ba, node_at ba (m_curr ba) with
        | Some c, Some node =>
            if size <=? ncap then
              match memcpy node npos buf bpos size with
              | None => UB
              | Some node' =>
                  let ba := set_nodes (<[c := node']> (m_nodes ba)) ba in
                  let ba := if Z.of_nat (length node) =? npos + size
                            then set_curr (next ba c) ba else ba in
                  let ba := set_position (m_position ba + size) ba in
                  write_loop fuel buf npos ncap (bpos + size) 0 ba
              end
            else
              match memcpy node npos buf bpos ncap with
              | None => UB
              | Some node' =>
                  let ba := set_nodes (<[c := node']> (m_nodes ba)) ba in
                  let ba := set_position (m_position ba + ncap) ba in
                  let ba := set_curr (next ba c) ba in
                  match node_at ba (m_curr ba) with
                  | None => UB
                  | Some node2 =>
                      write_loop fuel buf 0 (Z.of_nat (length node2))
                        (bpos + ncap) (size - ncap) ba
                  end
              end
        | _, _ => UB
        end
  end.

(** [ByteArray::write(buf, size)] with [size] the length of [buf]. *)
Definition write (buf : list ascii) : M t unit := λ ba,
  let size := Z.of_nat (length buf) in
  if size =? 0 then Ret tt ba
  else
    let ba := addCapacity size ba in
    if m_baseSize ba =? 0 then UB
    else
      let npos := m_position ba mod m_baseSize ba in
      match node_at ba (m_curr ba) with
      | None => UB
      | Some node =>
          let ncap := wrap 64 (Z.of_nat (length node) - npos) in
          match write_loop (S (S (length (m_nodes ba)))) buf npos ncap 0 size ba with
          | Ret _ ba' =>
              Ret tt (if m_size ba' <? m_position ba'
                      then set_size (m_position ba') ba' else ba')
          | r => r
          end
      end.

(** The loop of [ByteArray::read(buf, size)]; [acc] is what is already in
    [buf]. *)
Fixpoint read_loop (fuel : nat) (npos ncap size : Z) (acc : list ascii)
    (ba : t) : outcome t (list ascii) :=
  match fuel with
  | O => UB
  | S fuel =>
      if negb (0 <? size) then Ret acc ba
      else
        match m_curr ba, node_at ba (m_curr ba) with
        | Some c, Some node =>
            if size <=? ncap then
              match peek node npos size with
              | None => UB
              | Some bs =>
                  let ba := if Z.of_nat (length node) =? npos + size
                            then set_curr (next ba c) ba else ba in
                  let ba := set_position (m_position ba + size) ba in
                  read_loop fuel npos ncap 0 (acc ++ bs) ba
              end
            else
              match peek node npos ncap with
              | None => UB
              | Some bs =>
                  let ba := set_position (m_position ba + ncap) ba in
                  let ba := set_curr (next ba c) ba in
                  match node_at ba (m_curr ba) with
                  | None => UB
                  | Some node2 =>
                      read_loop fuel 0 (Z.of_nat (length node2)) (size - ncap)
                        (acc ++ bs) ba
                  end
              end
        | _, _ => UB
        end
  end.

Definition read (size : Z) : M t (list ascii) := λ ba,
  if getReadSize ba <? size then Throw out_of_range ba
  else if m_baseSize ba =? 0 then UB
  else
    let npos := m_position ba mod m_baseSize ba in
    match node_at ba (m_curr ba) with
    | None => UB
    | Some node =>
        let ncap := wrap 64 (Z.of_nat (length node) - npos) in
        read_loop (S (S (length (m_nodes ba)))) npos ncap size [] ba
    end.

(** The loop of [read(buf, size, position) const]: the cursor is the local
    [cur], started at [m_curr]. *)
Fixpoint read_at_loop (fuel : nat) (cur : option nat) (npos ncap size : Z)
    (acc : list ascii) (ba : t) : outcome t (list ascii) :=
  match fuel with
  | O => UB
  | S fuel =>
      if negb (0 <? size) then Ret acc ba
      else
        match cur, node_at ba cur with
        | Some c, Some node =>
            if size <=? ncap then
              match peek node npos size with
              | None => UB
              | Some bs =>
                  let cur := if Z.of_nat (length node) =? npos + size
                             then next ba c else cur in
                  read_at_loop fuel cur npos ncap 0 (acc ++ bs) ba
              end
            else
              match peek node npos ncap with
              | None => UB
              | Some bs =>
                  match node_at ba (next ba c) with
                  | None => UB
                  | Some node2 =>
                      read_at_loop fuel (next ba c) 0 (Z.of_nat (length node2))
                        (size - ncap) (acc ++ bs) ba
                  end
              end
        | _, _ => UB
        end
  end.

Definition read_at (size position : Z) : M t (list ascii) := λ ba,
  if wrap 64 (m_size ba - position) <? size then Throw out_of_range ba
  else if m_baseSize ba =? 0 then UB
  else
    let npos := position mod m_baseSize ba in
    match node_at ba (m_curr ba) with
    | None => UB
    | Some node =>
        let ncap := wrap 64 (Z.of_nat (length node) - npos) in
        read_at_loop (S (S (length (m_nodes ba)))) (m_curr ba) npos ncap size [] ba
    end.

(** [while(v > m_curr->size) {...}] of [setPosition] from the node [cur]. *)
Fixpoint seek (fuel : nat) (v : Z) (cur : option nat) (ba : t) : option (option nat) :=
  match fuel with
  | O => None
  | S fuel =>
      match cur, node_at ba cur with
      | Some c, Some node =>
          let sz := Z.of_nat (length node) in
          if sz <? v then seek fuel (v - sz) (next ba c) ba
          else Some (if v =? sz then next ba c else cur)
      | _, _ => None
      end
  end.

Definition setPosition (v : Z) : M t unit := λ ba,
  if m_capacity ba <? v then Throw out_of_range ba
  else
    let ba := set_position v ba in
    let ba := if m_size ba <? m_position ba then set_size (m_position ba) ba else ba in
    match seek (S (length (m_nodes ba))) v (Some 0%nat) ba with
    | None => UB
    | Some cur => Ret tt (set_curr cur ba)
    end.

(** [clear]: every node but the root is deleted. *)
Definition clear (ba : t) : t :=
  mk 0 (m_baseSize ba) 0 (m_baseSize ba) (m_endian ba) (take 1 (m_nodes ba)) (Some 0%nat).

(** The loop shared by the three [get*Buffers] functions. *)
Fixpoint buffers_loop (fuel : nat) (cur : option nat) (npos ncap len : Z)
    (buffers : list iovec) (ba : t) : option (list iovec) :=
  match fuel with
  | O => None
  | S fuel =>
      if negb (0 <? len) then Some buffers
      else
        match cur with
        | None => None
        | Some c =>
            if len <=? ncap then
              buffers_loop fuel cur npos ncap 0 (buffers ++ [Iov c npos len]) ba
            else
              match node_at ba (next ba c) with
              | None => None
              | Some node2 =>
                  buffers_loop fuel (next ba c) 0 (Z.of_nat (length node2))
                    (len - ncap) (buffers ++ [Iov c npos ncap]) ba
              end
        end
  end.

(** [getReadBuffers(buffers, len)]: the pushed buffers and the returned size. *)
Definition getReadBuffers (len : Z) (ba : t) : option (list iovec * Z) :=
  let len := if getReadSize ba <? len then getReadSize ba else len in
  if len =? 0 then Some ([], 0)
  else if m_baseSize ba =? 0 then None
  else
    let npos := m_position ba mod m_baseSize ba in
    match node_at ba (m_curr ba) with
    | None => None
    | Some node =>
        let ncap := wrap 64 (Z.of_nat (length node) - npos) in
        bufs ← buffers_loop (S (S (length (m_nodes ba)))) (m_curr ba) npos ncap len [] ba;
        Some (bufs, len)
    end.

(** [getReadBuffers(buffers, len, position)]: starts [position / m_baseSize]
    nodes after the root. *)
Definition getReadBuffers_at (len position : Z) (ba : t) : option (list iovec * Z) :=
  let len := if getReadSize ba <? len then getReadSize ba else len in
  if len =? 0 then Some ([], 0)
  else if m_baseSize ba =? 0 then None
  else
    let npos := position mod m_baseSize ba in
    let cur := Some (Z.to_nat (position / m_baseSize ba)) in
    match node_at ba cur with
    | None => None
    | Some node =>
        let ncap := wrap 64 (Z.of_nat (length node) - npos) in
        bufs ← buffers_loop (S (S (length (m_nodes ba)))) cur npos ncap len [] ba;
        Some (bufs, len)
    end.

Definition getWriteBuffers (len : Z) : M t (list iovec * Z) := λ ba,
  if len =? 0 then Ret ([], 0) ba
  else
    let ba := addCapacity len ba in
    if m_baseSize ba =? 0 then UB
    else
      let npos := m_position ba mod m_baseSize ba in
      match node_at ba (m_curr ba) with
      | None => UB
      | Some node =>
          let ncap := wrap 64 (Z.of_nat (length node) - npos) in
          match buffers_loop (S (S (length (m_nodes ba)))) (m_curr ba) npos ncap len [] ba with
          | None => UB
          | Some bufs => Ret (bufs, len) ba
          end
      end.

(** [toString]: the readable bytes, the cursor unmoved. *)
Definition toString : M t (list ascii) := λ ba,
  let n := getReadSize ba in
  if n =? 0 then Ret [] ba else read_at n (m_position ba) ba.

(** [writeToFile]: the bytes written to the stream.  [cur] moves to the next
    node each round and a null [cur] is [UB], which bounds the rounds; a
    negative count for [ofs.write] is undefined too. *)
Fixpoint file_loop (fuel : nat) (cur : option nat) (pos read_size : Z)
    (out : list ascii) (ba : t) : option (list ascii) :=
  match fuel with
  | O => None
  | S fuel =>
      if negb (0 <? read_size) then Some out
      else if m_baseSize ba =? 0 then None
      else
        match cur, node_at ba cur with
        | Some c, Some node =>
            let diff := cast int32_t (wrap 64 pos mod m_baseSize ba) in
            let len := (if m_baseSize ba <? read_size then m_baseSize ba else read_size) - diff in
            match peek node diff len with
            | None => None
            | Some bs => file_loop fuel (next ba c) (pos + len) (read_size - len) (out ++ bs) ba
            end
        | _, _ => None
        end
  end.

(** The returned [bool] and, when the file could be opened ([ofs_ok]), what
    ends up in it. *)
Definition writeToFile (ofs_ok : bool) (ba : t) : option (bool * list ascii) :=
  if negb ofs_ok then Some (false, [])
  else
    let read_size := cast int64_t (getReadSize ba) in
    let pos := cast int64_t (m_position ba) in
    out ← file_loop (S (S (length (m_nodes ba)))) (m_curr ba) pos read_size [] ba;
    Some (true, out).

(** [readFromFile]: [file] is cut in chunks of [m_baseSize] bytes, each
    written at the cursor; the read that meets the end of the file is short
    (possibly empty) and stops the loop. *)
Fixpoint readFromFile_loop (fuel : nat) (file : list ascii) : M t unit := λ ba,
  match fuel with
  | O => UB
  | S fuel =>
      let n := Z.to_nat (m_baseSize ba) in
      (write (take n file);!
       if decide (length file < n)%nat then ret tt
       else readFromFile_loop fuel (drop n file)) ba
  end.

(** [ifs] is [None] when the file cannot be opened. *)
Definition readFromFile (ifs : option (list ascii)) : M t bool :=
  match ifs with
  | None => ret false
  | Some file => readFromFile_loop (S (length file)) file;! ret true
  end.

(** [toHexString]: two hex digits and a blank per byte, a line per 32. *)
Definition hex_digit (d : Z) : ascii := z2b (if d <? 10 then 48 + d else 87 + d).

Definition hex_byte (i : nat) (c : ascii) : list ascii :=
  (if (0 <? i)%nat && (i mod 32 =? 0)%nat then ["010"%char] else []) ++
  [hex_digit (b2z c / 16); hex_digit (b2z c mod 16); " "%char].

Definition toHexString : M t (list ascii) :=
  let! str := toString in ret (concat (imap hex_byte str)).

End operations.

(** ** The flat buffer behind the nodes *)

Definition content (ba : t) : list ascii := concat (m_nodes ba).

(** Where [m_curr] must point for a cursor at [p]. *)
Definition curr_at (ba : t) (p : Z) : option nat :=
  let c := Z.to_nat (p / m_baseSize ba) in
  if decide (c < length (m_nodes ba))%nat then Some c else None.

(** Arrays are kept below [2^53] bytes: far above any memory, and the bound up
    to which the double division of [addCapacity] is exact. *)
Definition max_bytes : Z := 2 ^ 53.

Record wf (ba : t) : Prop := {
  wf_base : 0 < m_baseSize ba;
  wf_nodes : Forall (λ nd, Z.of_nat (length nd) = m_baseSize ba) (m_nodes ba);
  wf_root : (0 < length (m_nodes ba))%nat;
  wf_cap : m_capacity ba = m_baseSize ba * Z.of_nat (length (m_nodes ba));
  wf_bound : m_capacity ba < max_bytes;
  wf_pos : 0 ≤ m_position ba ≤ m_size ba;
  wf_size : m_size ba ≤ m_capacity ba;
  wf_curr : m_curr ba = curr_at ba (m_position ba)
}.

(** The bytes still to be read. *)
Definition readable (ba : t) : list ascii :=
  take (Z.to_nat (m_size ba - m_position ba)) (drop (Z.to_nat (m_position ba)) (content ba)).

Section chunks.
Context (B : nat) (nodes : list (list ascii)).
Context (HB : Forall (λ nd, length nd = B) nodes).

Lemma length_concat_chunks : length (concat nodes) = (B * length nodes)%nat.
Proof using HB.
  induction HB as [|nd l Hnd Hl IH]; simpl; [lia|].
  rewrite length_app, IH by done. lia.
Qed.

End chunks.

Lemma chunks_split B nodes c node :
  Forall (λ nd : list ascii, length nd = B) nodes → nodes !! c = Some node →
  ∃ pre post, concat nodes = pre ++ node ++ post ∧ length pre = (c * B)%nat ∧
    length node = B ∧ ∀ node', concat (<[c := node']> nodes) = pre ++ node' ++ post.
Proof.
  intros HB Hc. exists (concat (take c nodes)), (concat (drop (S c) nodes)).
  pose proof (lookup_lt_Some _ _ _ Hc).
  split_and!.
  - rewrite <- (take_drop_middle nodes c node) at 1 by done.
    by rewrite concat_app.
  - rewrite (length_concat_chunks B) by by apply Forall_take.
    rewrite length_take. lia.
  - by apply (Forall_lookup_1 _ _ _ _ HB Hc).
  - intros node'. rewrite insert_take_drop by done. by rewrite concat_app.
Qed.

Lemma chunks_write B nodes c node i d :
  Forall (λ nd : list ascii, length nd = B) nodes → nodes !! c = Some node →
  (i + length d ≤ B)%nat →
  concat (<[c := splice i d node]> nodes) = splice (c * B + i) d (concat nodes) ∧
  Forall (λ nd, length nd = B) (<[c := splice i d node]> nodes).
Proof.
  intros HB Hc Hi. destruct (chunks_split B nodes c node) as (pre & post & Hs & Hpre & Hn & Hins);
    [done..|]. split.
  - rewrite Hins, Hs, <- Hpre, splice_app_r. f_equal. rewrite splice_app_l; [done|lia].
  - apply Forall_insert; [done|]. rewrite length_splice; lia.
Qed.

Lemma chunks_read B nodes c node i n :
  Forall (λ nd : list ascii, length nd = B) nodes → nodes !! c = Some node →
  (i + n ≤ B)%nat →
  take n (drop (c * B + i) (concat nodes)) = take n (drop i node).
Proof.
  intros HB Hc Hi. destruct (chunks_split B nodes c node) as (pre & post & Hs & Hpre & Hn & _);
    [done..|].
  rewrite Hs, <- Hpre, drop_app_add, drop_app_le, take_app_le by (rewrite ?length_drop; lia).
  done.
Qed.

(** ** The loops on a chunked buffer of [n] nodes of [B] bytes *)

(** The node index for position [p] of [n] nodes of [B] bytes. *)
Definition slot (B n p : nat) : option nat :=
  if decide (p / B < n)%nat then Some (p / B)%nat else None.

Lemma slot_in B n c i :
  (i < B)%nat → (c < n)%nat → slot B n (c * B + i) = Some c.
Proof.
  intros. unfold slot. rewrite Nat.div_add_l, Nat.div_small by lia.
  rewrite Nat.add_0_r, decide_True by lia. done.
Qed.

Lemma slot_next ba B c i :
  (0 < B)%nat → (i = B)%nat →
  slot B (length (m_nodes ba)) (c * B + i) = next ba c.
Proof.
  intros HB ->. unfold slot, next. replace (c * B + B)%nat with (S c * B)%nat by lia.
  rewrite Nat.div_mul by lia. done.
Qed.

Lemma next_lt ba c : (S c < length (m_nodes ba))%nat → next ba c = Some (S c).
Proof. intros. unfold next. by rewrite decide_True. Qed.

Lemma memcpy_ok dst i src j n :
  (i + n ≤ length dst)%nat → (j + n ≤ length src)%nat →
  memcpy dst (Z.of_nat i) src (Z.of_nat j) (Z.of_nat n)
  = Some (splice i (take n (drop j src)) dst).
Proof. intros. unfold memcpy. rewrite decide_True by lia. by rewrite !Nat2Z.id. Qed.

Lemma peek_ok src i n :
  (i + n ≤ length src)%nat →
  peek src (Z.of_nat i) (Z.of_nat n) = Some (take n (drop i src)).
Proof. intros. unfold peek. rewrite decide_True by lia. by rewrite !Nat2Z.id. Qed.

Section loops.
Context (B : nat) (HB : (0 < B)%nat).

Lemma write_loop_spec fuel buf ba c i j :
  Forall (λ nd, length nd = B) (m_nodes ba) →
  m_curr ba = Some c → (c < length (m_nodes ba))%nat → (i < B)%nat →
  (j < length buf)%nat →
  (c * B + i + (length buf - j) ≤ B * length (m_nodes ba))%nat →
  (length (m_nodes ba) - c < fuel)%nat →
  ∃ nodes',
    write_loop fuel buf (Z.of_nat i) (Z.of_nat (B - i)) (Z.of_nat j)
      (Z.of_nat (length buf - j)) ba
    = Ret tt (set_curr (slot B (length (m_nodes ba)) (c * B + i + (length buf - j)))
        (set_position (m_position ba + Z.of_nat (length buf - j)) (set_nodes nodes' ba))) ∧
    Forall (λ nd, length nd = B) nodes' ∧
    length nodes' = length (m_nodes ba) ∧
    concat nodes' = splice (c * B + i) (drop j buf) (concat (m_nodes ba)).
Proof using HB.
  revert ba c i j. induction fuel as [|fuel IH]; intros ba c i j HF Hc Hcn Hi Hj Hroom Hfuel;
    [lia|].
  destruct (lookup_lt_is_Some_2 (m_nodes ba) c) as [node Hnode]; [lia|].
  assert (length node = B) as Hlen by by apply (Forall_lookup_1 _ _ _ _ HF Hnode).
  cbn [write_loop]. rewrite (proj2 (Z.ltb_lt 0 _)) by lia. cbn [negb node_at].
  rewrite Hc. cbn [node_at]. rewrite Hnode.
  destruct (Z.leb_spec (Z.of_nat (length buf - j)) (Z.of_nat (B - i))) as [Hle|Hgt].
  - rewrite memcpy_ok by lia. rewrite take_ge by (rewrite length_drop; lia).
    destruct (chunks_write B (m_nodes ba) c node i (drop j buf)) as [Hcat HF']; [done..| |].
    { rewrite length_drop. lia. }
    eexists. split_and!; [|exact HF'|by rewrite length_insert|exact Hcat].
    destruct fuel as [|fuel]; [lia|]. cbn [write_loop negb Z.ltb Z.compare].
    f_equal. rewrite <- Nat.add_assoc. destruct (Z.eqb_spec (Z.of_nat (length node))
      (Z.of_nat i + Z.of_nat (length buf - j))) as [He|Hne].
    + rewrite (slot_next ba) by lia. unfold set_curr, set_position, set_nodes, next; simpl.
      by rewrite length_insert.
    + rewrite slot_in by lia. unfold set_curr, set_position, set_nodes; simpl. by rewrite Hc.
  - rewrite memcpy_ok by lia.
    set (d := take (B - i) (drop j buf)).
    assert (length d = (B - i)%nat) as Hd
      by (unfold d; rewrite length_take, length_drop; lia).
    destruct (chunks_write B (m_nodes ba) c node i d) as [Hcat HF']; [done..|lia|].
    assert (S c < length (m_nodes ba))%nat as HS by nia.
    set (nodes1 := <[c := splice i d node]> (m_nodes ba)) in *.
    set (ba1 := set_curr (Some (S c)) (set_position (m_position ba + Z.of_nat (B - i))
      (set_nodes nodes1 ba))).
    assert (length nodes1 = length (m_nodes ba)) as Hl1 by apply length_insert.
    destruct (lookup_lt_is_Some_2 nodes1 (S c)) as [node2 Hnode2]; [lia|].
    assert (length node2 = B) as Hlen2 by by apply (Forall_lookup_1 _ _ _ _ HF' Hnode2).
    rewrite next_lt by (cbn; lia).
    cbn [m_curr set_curr node_at m_nodes set_nodes set_position]. rewrite Hnode2.
    fold ba1. destruct (IH ba1 (S c) 0%nat (j + (B - i))%nat) as (nodes' & Heq & HF2 & Hl2 & Hc2);
      cbn [ba1 m_nodes m_curr set_curr set_position set_nodes]; [done|done|lia|lia|lia|nia|lia|].
    exists nodes'. split_and!; [|done|cbn in *; lia|].
    + etrans; [etrans; [|exact Heq]|]; [f_equal; lia|]. f_equal.
      unfold set_curr, set_position, set_nodes; simpl. rewrite Hl1.
      f_equal; [lia|]. f_equal. nia.
    + rewrite Hc2. cbn [ba1 m_nodes set_nodes set_position set_curr]. rewrite Hcat.
      replace (S c * B + 0)%nat with (c * B + i + length d)%nat by lia.
      rewrite splice_splice; [f_equal|].
      * unfold d. rewrite <- (take_drop (B - i) (drop j buf)) at 2.
        rewrite drop_drop. done.
      * rewrite (length_concat_chunks B) by done. lia.
Qed.

Lemma read_loop_spec fuel ba c i n acc :
  Forall (λ nd, length nd = B) (m_nodes ba) →
  m_curr ba = Some c → (c < length (m_nodes ba))%nat → (i < B)%nat → (0 < n)%nat →
  (c * B + i + n ≤ B * length (m_nodes ba))%nat →
  (length (m_nodes ba) - c < fuel)%nat →
  read_loop fuel (Z.of_nat i) (Z.of_nat (B - i)) (Z.of_nat n) acc ba
  = Ret (acc ++ take n (drop (c * B + i) (concat (m_nodes ba))))
      (set_curr (slot B (length (m_nodes ba)) (c * B + i + n))
        (set_position (m_position ba + Z.of_nat n) ba)).
Proof using HB.
  revert ba c i n acc. induction fuel as [|fuel IH]; intros ba c i n acc HF Hc Hcn Hi Hn Hroom Hfuel;
    [lia|].
  destruct (lookup_lt_is_Some_2 (m_nodes ba) c) as [node Hnode]; [lia|].
  assert (length node = B) as Hlen by by apply (Forall_lookup_1 _ _ _ _ HF Hnode).
  cbn [read_loop]. rewrite (proj2 (Z.ltb_lt 0 _)) by lia. cbn [negb].
  rewrite Hc. cbn [node_at]. rewrite Hnode.
  destruct (Z.leb_spec (Z.of_nat n) (Z.of_nat (B - i))) as [Hle|Hgt].
  - rewrite peek_ok by lia. destruct fuel as [|fuel]; [lia|].
    cbn [read_loop negb Z.ltb Z.compare].
    rewrite (chunks_read B _ c node) by (done || lia). f_equal. rewrite <- Nat.add_assoc.
    destruct (Z.eqb_spec (Z.of_nat (length node)) (Z.of_nat i + Z.of_nat n)) as [He|Hne].
    + by rewrite (slot_next ba) by lia.
    + rewrite slot_in by lia. unfold set_curr, set_position; simpl. by rewrite Hc.
  - rewrite peek_ok by lia.
    assert (S c < length (m_nodes ba))%nat as HS by nia.
    rewrite next_lt by (cbn; lia). cbn [m_curr set_curr node_at m_nodes set_position].
    destruct (lookup_lt_is_Some_2 (m_nodes ba) (S c)) as [node2 Hnode2]; [lia|].
    assert (length node2 = B) as Hlen2 by by apply (Forall_lookup_1 _ _ _ _ HF Hnode2).
    rewrite Hnode2. set (ba1 := set_curr (Some (S c)) (set_position (m_position ba + Z.of_nat (B - i)) ba)).
    etrans; [etrans; [|apply (IH ba1 (S c) 0%nat (n - (B - i))%nat
      (acc ++ take (B - i) (drop i node)))]|];
      [f_equal; lia|done|done|cbn; lia|lia|lia|cbn; nia|cbn; lia|].
    cbn [ba1 m_nodes set_curr set_position].
    rewrite (take_drop_split (c * B + i) (B - i) n), (chunks_read B _ c node) by (done || lia).
    rewrite (assoc_L (++)). replace (S c * B + 0)%nat with (c * B + i + (B - i))%nat by lia.
    f_equal. unfold set_curr, set_position; simpl. f_equal; [lia|]. f_equal. lia.
Qed.

Lemma read_at_loop_spec fuel ba c i n acc :
  Forall (λ nd, length nd = B) (m_nodes ba) →
  (c < length (m_nodes ba))%nat → (i < B)%nat → (0 < n)%nat →
  (c * B + i + n ≤ B * length (m_nodes ba))%nat →
  (length (m_nodes ba) - c < fuel)%nat →
  read_at_loop fuel (Some c) (Z.of_nat i) (Z.of_nat (B - i)) (Z.of_nat n) acc ba
  = Ret (acc ++ take n (drop (c * B + i) (concat (m_nodes ba)))) ba.
Proof using HB.
  intros HF. revert c i n acc. induction fuel as [|fuel IH]; intros c i n acc Hcn Hi Hn Hroom Hfuel;
    [lia|].
  destruct (lookup_lt_is_Some_2 (m_nodes ba) c) as [node Hnode]; [lia|].
  assert (length node = B) as Hlen by by apply (Forall_lookup_1 _ _ _ _ HF Hnode).
  cbn [read_at_loop node_at]. rewrite (proj2 (Z.ltb_lt 0 _)) by lia. cbn [negb].
  rewrite Hnode. destruct (Z.leb_spec (Z.of_nat n) (Z.of_nat (B - i))) as [Hle|Hgt].
  - rewrite peek_ok by lia. destruct fuel as [|fuel]; [lia|].
    cbn [read_at_loop negb Z.ltb Z.compare].
    by rewrite (chunks_read B _ c node) by (done || lia).
  - rewrite peek_ok by lia.
    assert (S c < length (m_nodes ba))%nat as HS by nia.
    rewrite next_lt by lia. cbn [node_at].
    destruct (lookup_lt_is_Some_2 (m_nodes ba) (S c)) as [node2 Hnode2]; [lia|].
    assert (length node2 = B) as Hlen2 by by apply (Forall_lookup_1 _ _ _ _ HF Hnode2).
    rewrite Hnode2. etrans; [etrans; [|apply (IH (S c) 0%nat (n - (B - i))%nat
      (acc ++ take (B - i) (drop i node)))]|];
      [f_equal; lia|lia|lia|lia|nia|lia|].
    rewrite (take_drop_split (c * B + i) (B - i) n), (chunks_read B _ c node) by (done || lia).
    rewrite (assoc_L (++)). by replace (S c * B + 0)%nat with (c * B + i + (B - i))%nat by lia.
Qed.

(** The bytes an [iovec] array designates. *)
Definition iov_bytes (ba : t) (v : iovec) : list ascii :=
  match m_nodes ba !! iov_node v with
  | Some node => take (Z.to_nat (iov_len v)) (drop (Z.to_nat (iov_off v)) node)
  | None => []
  end.

Lemma buffers_loop_spec fuel ba c i n acc :
  Forall (λ nd, length nd = B) (m_nodes ba) →
  (c < length (m_nodes ba))%nat → (i < B)%nat → (0 < n)%nat →
  (c * B + i + n ≤ B * length (m_nodes ba))%nat →
  (length (m_nodes ba) - c < fuel)%nat →
  ∃ vs,
    buffers_loop fuel (Some c) (Z.of_nat i) (Z.of_nat (B - i)) (Z.of_nat n) acc ba
    = Some (acc ++ vs) ∧
    concat (iov_bytes ba <$> vs) = take n (drop (c * B + i) (concat (m_nodes ba))).
Proof using HB.
  intros HF. revert c i n acc. induction fuel as [|fuel IH]; intros c i n acc Hcn Hi Hn Hroom Hfuel;
    [lia|].
  destruct (lookup_lt_is_Some_2 (m_nodes ba) c) as [node Hnode]; [lia|].
  cbn [buffers_loop]. rewrite (proj2 (Z.ltb_lt 0 _)) by lia. cbn [negb].
  destruct (Z.leb_spec (Z.of_nat n) (Z.of_nat (B - i))) as [Hle|Hgt].
  - destruct fuel as [|fuel]; [lia|]. cbn [buffers_loop negb Z.ltb Z.compare].
    eexists. split; [done|]. cbn. rewrite app_nil_r. unfold iov_bytes; cbn.
    by rewrite Hnode, !Nat2Z.id, (chunks_read B _ c node) by (done || lia).
  - assert (S c < length (m_nodes ba))%nat as HS by nia.
    rewrite next_lt by lia. cbn [node_at].
    destruct (lookup_lt_is_Some_2 (m_nodes ba) (S c)) as [node2 Hnode2]; [lia|].
    assert (length node2 = B) as Hlen2 by by apply (Forall_lookup_1 _ _ _ _ HF Hnode2).
    rewrite Hnode2.
    destruct (IH (S c) 0%nat (n - (B - i))%nat
      (acc ++ [Iov c (Z.of_nat i) (Z.of_nat (B - i))])) as (vs & Heq & Hvs); [lia|lia|lia|nia|lia|].
    exists (Iov c (Z.of_nat i) (Z.of_nat (B - i)) :: vs). split.
    + etrans; [etrans; [|exact Heq]|]; [f_equal; lia|]. by rewrite <- (assoc_L (++)).
    + cbn [fmap list_fmap concat]. rewrite Hvs. unfold iov_bytes at 1; cbn.
      rewrite Hnode, !Nat2Z.id.
      rewrite (take_drop_split (c * B + i) (B - i) n), (chunks_read B _ c node) by (done || lia).
      f_equal. do 2 f_equal. lia.
Qed.

End loops.

(** ** Specification: a flat buffer with a cursor *)

(** [data] holds the [m_size] bytes of the array; the cursor never exceeds its
    length. *)
Record flat := Flat { f_pos : nat; f_data : list ascii }.

Definition flat_write (buf : list ascii) (f : flat) : flat :=
  Flat (f_pos f + length buf) (splice (f_pos f) buf (f_data f)).
Definition flat_read (n : nat) (f : flat) : option (list ascii * flat) :=
  if decide (f_pos f + n ≤ length (f_data f))%nat
  then Some (take n (drop (f_pos f) (f_data f)), Flat (f_pos f + n) (f_data f))
  else None.
Definition flat_seek (p : nat) (f : flat) : flat := Flat p (f_data f).

Definition abs (ba : t) : flat :=
  Flat (Z.to_nat (m_position ba)) (take (Z.to_nat (m_size ba)) (content ba)).

(** [ba] implements the flat buffer [f]. *)
Definition repr (ba : t) (f : flat) : Prop := wf ba ∧ abs ba = f.

(** [n] more bytes at the cursor keep the array below [max_bytes]. *)
Definition fits (ba : t) (n : nat) : Prop :=
  m_position ba + Z.of_nat n + m_baseSize ba < max_bytes.

(** Operations leave the chunk size and the byte order alone. *)
Definition same_config (ba ba' : t) : Prop :=
  m_baseSize ba' = m_baseSize ba ∧ m_endian ba' = m_endian ba.

Section wf_facts.
Context (ba : t) (Hwf : wf ba).

Lemma wf_chunks : ∃ B : nat, (0 < B)%nat ∧ m_baseSize ba = Z.of_nat B ∧
  Forall (λ nd, length nd = B) (m_nodes ba) ∧
  length (content ba) = (B * length (m_nodes ba))%nat ∧
  m_capacity ba = Z.of_nat (length (content ba)).
Proof using Hwf.
  destruct Hwf as [Hb HF Hr Hc _ _ _ _]. exists (Z.to_nat (m_baseSize ba)).
  assert (Forall (λ nd, length nd = Z.to_nat (m_baseSize ba)) (m_nodes ba)) as HF'
    by (eapply Forall_impl; [exact HF|]; simpl; lia).
  unfold content. rewrite (length_concat_chunks (Z.to_nat (m_baseSize ba))) by done.
  split_and!; [lia|lia|done|done|lia].
Qed.

Lemma wf_content : m_capacity ba = Z.of_nat (length (content ba)).
Proof using Hwf. by destruct wf_chunks as (B & _ & _ & _ & _ & ?). Qed.

Lemma wf_getReadSize : getReadSize ba = m_size ba - m_position ba.
Proof using Hwf.
  destruct Hwf. unfold getReadSize, max_bytes in *. apply wrap_small. unfold in_u. lia.
Qed.

Lemma wf_getCapacity : getCapacity ba = m_capacity ba - m_position ba.
Proof using Hwf.
  destruct Hwf. unfold getCapacity, max_bytes in *. apply wrap_small. unfold in_u. lia.
Qed.

End wf_facts.

Lemma curr_at_slot ba B p :
  (0 < B)%nat → m_baseSize ba = Z.of_nat B →
  curr_at ba (Z.of_nat p) = slot B (length (m_nodes ba)) p.
Proof.
  intros HB Hb. unfold curr_at, slot. rewrite Hb, <- Nat2Z.inj_div, Nat2Z.id. done.
Qed.

(** Everything a loop needs to start at a cursor below the capacity. *)
Lemma wf_cursor ba p :
  wf ba → m_position ba = Z.of_nat p → (p < length (content ba))%nat →
  ∃ (B c i : nat) node, (0 < B)%nat ∧ m_baseSize ba = Z.of_nat B ∧
    Forall (λ nd, length nd = B) (m_nodes ba) ∧
    length (content ba) = (B * length (m_nodes ba))%nat ∧
    m_curr ba = Some c ∧ node_at ba (m_curr ba) = Some node ∧ (c < length (m_nodes ba))%nat ∧
    (i < B)%nat ∧ p = (c * B + i)%nat ∧
    m_position ba mod m_baseSize ba = Z.of_nat i ∧
    wrap 64 (Z.of_nat (length node) - m_position ba mod m_baseSize ba) = Z.of_nat (B - i).
Proof.
  intros Hwf Hp Hlt. destruct (wf_chunks ba Hwf) as (B & HB & Hb & HF & Hlen & Hcap).
  pose proof (wf_bound ba Hwf) as Hbd.
  pose proof (Nat.div_mod_eq p B). pose proof (Nat.mod_upper_bound p B).
  assert (p / B < length (m_nodes ba))%nat as Hc by (apply Nat.Div0.div_lt_upper_bound; lia).
  assert (m_curr ba = Some (p / B)%nat) as Hcurr.
  { rewrite (wf_curr ba Hwf), Hp, (curr_at_slot ba B) by done. unfold slot.
    by rewrite decide_True. }
  destruct (lookup_lt_is_Some_2 (m_nodes ba) _ Hc) as [node Hnode].
  assert (length node = B) as Hl by by apply (Forall_lookup_1 _ _ _ _ HF Hnode).
  assert (m_position ba mod m_baseSize ba = Z.of_nat (p mod B)) as Hmod
    by (rewrite Hp, Hb; symmetry; apply Nat2Z.inj_mod).
  exists B, (p / B)%nat, (p mod B)%nat, node. split_and!; try done; [|lia..|].
  - rewrite Hcurr. exact Hnode.
  - rewrite Hmod, Hl. rewrite wrap_small; [lia|]. unfold in_u, max_bytes in *. nia.
Qed.

(** ** Refinement lemmas, one per operation *)

Section refinement.
Context `{Alloc}.

Lemma length_new_node k s : 0 ≤ s → Z.of_nat (length (new_node k s)) = s.
Proof. intros. unfold new_node. rewrite length_fmap, length_seq. lia. Qed.

Lemma append_nodes_spec k ba :
  0 ≤ m_baseSize ba →
  ∃ l, append_nodes k ba
       = set_capacity (m_capacity ba + Z.of_nat k * m_baseSize ba)
           (set_nodes (m_nodes ba ++ l) ba) ∧
    length l = k ∧ Forall (λ nd, Z.of_nat (length nd) = m_baseSize ba) l.
Proof.
  revert ba. induction k as [|k IH]; intros ba Hb; cbn [append_nodes].
  - exists []. rewrite app_nil_r, Z.mul_0_l, Z.add_0_r. by destruct ba.
  - edestruct IH as (l & -> & Hl & HF); [done|]. cbn in *.
    eexists (_ :: l). rewrite <- (assoc_L (++)). split_and!.
    + unfold set_capacity, set_nodes; simpl. f_equal. lia.
    + simpl. lia.
    + constructor; [|done]. by apply length_new_node.
Qed.

Lemma wf_grow ba l :
  wf ba → Forall (λ nd, Z.of_nat (length nd) = m_baseSize ba) l →
  m_capacity ba + Z.of_nat (length l) * m_baseSize ba < max_bytes →
  let ba' := set_capacity (m_capacity ba + Z.of_nat (length l) * m_baseSize ba)
               (set_nodes (m_nodes ba ++ l) ba) in
  wf (set_curr (curr_at ba' (m_position ba)) ba').
Proof.
  intros Hwf HF Hmax ba'. destruct Hwf. split; cbn; try done.
  - by apply Forall_app.
  - rewrite length_app. lia.
  - rewrite length_app. lia.
  - lia.
Qed.

(** Growing keeps the cursor's node unless the cursor was at the end, where
    the null [m_curr] becomes the first new node. *)
Lemma curr_at_grow ba l :
  wf ba → m_position ba < m_capacity ba →
  curr_at (set_nodes (m_nodes ba ++ l) ba) (m_position ba) = m_curr ba.
Proof.
  intros Hwf Hlt. rewrite (wf_curr ba Hwf). unfold curr_at; cbn.
  destruct Hwf. assert (m_position ba / m_baseSize ba < Z.of_nat (length (m_nodes ba)))
    by (apply Z.div_lt_upper_bound; lia).
  assert (0 ≤ m_position ba / m_baseSize ba) by (apply Z.div_pos; lia).
  rewrite length_app, !decide_True by lia. done.
Qed.

Lemma curr_at_end ba l :
  wf ba → m_position ba = m_capacity ba → (0 < length l)%nat →
  curr_at (set_nodes (m_nodes ba ++ l) ba) (m_position ba) = Some (length (m_nodes ba)).
Proof.
  intros Hwf Heq Hl. unfold curr_at; cbn. destruct Hwf.
  rewrite Heq, wf_cap0, Z.mul_comm, Z.div_mul, Nat2Z.id, length_app, decide_True by lia.
  done.
Qed.

Lemma ceil_div_spec size base :
  0 < base → 0 < size →
  0 < ceil_div size base ∧ size ≤ ceil_div size base * base < size + base.
Proof.
  intros. unfold ceil_div. pose proof (Z.mod_pos_bound (size + base - 1) base).
  pose proof (Z.div_mod (size + base - 1) base).
  assert (0 < (size + base - 1) / base) by (apply Z.div_str_pos; lia). lia.
Qed.

Lemma addCapacity_spec n ba :
  wf ba → (0 < n)%nat → fits ba n →
  ∃ extra, wf (addCapacity (Z.of_nat n) ba) ∧
    content (addCapacity (Z.of_nat n) ba) = content ba ++ extra ∧
    m_position ba + Z.of_nat n ≤ m_capacity (addCapacity (Z.of_nat n) ba) ∧
    m_position (addCapacity (Z.of_nat n) ba) = m_position ba ∧
    m_size (addCapacity (Z.of_nat n) ba) = m_size ba ∧
    same_config ba (addCapacity (Z.of_nat n) ba) ∧
    m_capacity (addCapacity (Z.of_nat n) ba) ≤ m_capacity ba + Z.of_nat n + m_baseSize ba.
Proof.
  intros Hwf Hn Hfits. pose proof (wf_base ba Hwf). unfold addCapacity. rewrite (proj2 (Z.eqb_neq _ _)) by lia.
  rewrite wf_getCapacity by done.
  destruct (Z.leb_spec (Z.of_nat n) (m_capacity ba - m_position ba)) as [Hle|Hgt].
  { exists []. rewrite app_nil_r. split_and!; try done; lia. }
  pose proof (wf_pos ba Hwf). pose proof (wf_size ba Hwf).
  set (need := Z.of_nat n - (m_capacity ba - m_position ba)) in *.
  destruct (ceil_div_spec need (m_baseSize ba)) as (Hc0 & Hc1 & Hc2); [lia|lia|].
  set (count := ceil_div need (m_baseSize ba)) in *.
  destruct (append_nodes_spec (Z.to_nat count) ba) as (l & Happ & Hl & HF); [lia|].
  rewrite Z2Nat.id in Happ by lia. rewrite Happ. rewrite <- (Z2Nat.id count), <- Hl by lia.
  unfold fits in Hfits.
  assert (m_capacity ba + Z.of_nat (length l) * m_baseSize ba < max_bytes) as Hmax
    by (rewrite Hl, Z2Nat.id; lia).
  pose proof (wf_grow ba l Hwf HF Hmax) as Hw. cbv zeta in Hw.
  exists (concat l). split.
  - destruct (Z.eqb_spec (m_capacity ba - m_position ba) 0) as [He|Hne].
    + rewrite <- (curr_at_end ba l) by (done || lia). exact Hw.
    + match type of Hw with wf (set_curr ?c ?b) =>
        replace b with (set_curr c b); [exact Hw|] end.
      change (curr_at _ _) with (curr_at (set_nodes (m_nodes ba ++ l) ba) (m_position ba)).
      rewrite curr_at_grow by (done || lia). by destruct ba.
  - case_match; (split_and!; [unfold content; cbn; by rewrite concat_app|cbn; lia|done|done|done|
      cbn; lia]).
Qed.

Lemma write_refines ba f buf :
  repr ba f → fits ba (length buf) →
  ∃ ba', write buf ba = Ret tt ba' ∧ repr ba' (flat_write buf f) ∧ same_config ba ba' ∧
    m_position ba' = m_position ba + Z.of_nat (length buf) ∧
    m_capacity ba' ≤ m_capacity ba + Z.of_nat (length buf) + m_baseSize ba.
Proof.
  intros [Hwf <-] Hfits. unfold write. pose proof (wf_base ba Hwf).
  destruct (Z.eqb_spec (Z.of_nat (length buf)) 0) as [Hz|Hnz].
  { destruct buf; [|done]. exists ba. split_and!; try done; [|cbn; lia..]. split; [done|].
    unfold flat_write, splice; cbn. rewrite !Nat.add_0_r, take_drop. done. }
  destruct (addCapacity_spec (length buf) ba) as (extra & Hw & Hc & Hcap & Hp & Hs & Hcf & Hgrow);
    [done|lia|done|].
  set (ba1 := addCapacity (Z.of_nat (length buf)) ba) in *.
  pose proof (wf_content ba1 Hw) as Hcont. pose proof (wf_pos ba1 Hw). pose proof (wf_size ba1 Hw).
  destruct (wf_cursor ba1 (Z.to_nat (m_position ba1)) Hw)
    as (B & c & i & node & HB & Hb & HF & Hlen & Hcur & Hnd & Hcn & Hi & Hpos & Hmod & Hncap);
    [lia|lia|].
  rewrite (proj2 (Z.eqb_neq _ _)) by lia. rewrite Hnd, Hmod. rewrite Hmod in Hncap. rewrite Hncap.
  destruct (write_loop_spec B HB (S (S (length (m_nodes ba1)))) buf ba1 c i 0)
    as (nodes' & Heq & HF' & Hl' & Hcat); [done|done|done|done|lia|lia|lia|].
  rewrite Nat.sub_0_r in Heq. change (Z.of_nat 0) with 0 in Heq. rewrite Heq. cbn [m_size m_position set_curr set_position set_nodes].
  eexists. split; [done|]. rewrite Hp, Hs in *.
  assert (content ba1 = concat (m_nodes ba1)) as Hcd by done. rewrite <- Hcd, drop_0 in Hcat.
  rewrite <- Hpos in *.
  pose proof (wf_content ba Hwf). pose proof (wf_size ba Hwf).
  assert (curr_at ba1 (m_position ba + Z.of_nat (length buf))
    = slot B (length (m_nodes ba1)) (Z.to_nat (m_position ba) + length buf)) as Hslot.
  { rewrite <- (curr_at_slot ba1 B) by done. f_equal. lia. }
  destruct Hw as [Hw1 Hw2 Hw3 Hw4 Hw5 Hw6 Hw7 Hw8]. destruct Hcf as [Hcf1 Hcf2].
  split_and!; [split| | |].
  - rewrite Hcf1 in *.
    split; destruct (Z.ltb_spec (m_size ba) (m_position ba + Z.of_nat (length buf))); cbn;
      rewrite ?Hl', ?Hcf1; try done; try lia;
      try (eapply Forall_impl; [exact HF'|]; cbn; lia);
      rewrite <- Hslot; unfold curr_at; cbn; rewrite ?Hl'; done.
  - rewrite Hc, length_app in Hcont. unfold abs, flat_write. simpl.
    rewrite <- (take_splice _ _ _ _ extra) by lia.
    destruct (Z.ltb_spec (m_size ba) (m_position ba + Z.of_nat (length buf))); simpl;
      unfold content at 1; simpl; rewrite Hcat, Hc; f_equal; try lia; f_equal; lia.
  - split; case_match; cbn; done.
  - case_match; done.
  - case_match; cbn; lia.
Qed.

Lemma repr_length ba f :
  repr ba f → length (f_data f) = Z.to_nat (m_size ba) ∧ f_pos f = Z.to_nat (m_position ba) ∧
    (f_pos f ≤ length (f_data f) ≤ length (content ba))%nat.
Proof.
  intros [Hwf <-]. unfold abs; cbn. pose proof (wf_content ba Hwf).
  destruct Hwf. rewrite length_take. lia.
Qed.

Lemma take_drop_data ba p n :
  wf ba → (p + n ≤ Z.to_nat (m_size ba))%nat →
  take n (drop p (f_data (abs ba))) = take n (drop p (content ba)).
Proof.
  intros Hwf Hle. unfold abs; cbn. rewrite !take_drop_commute, take_take.
  do 2 f_equal. lia.
Qed.

Lemma read_refines ba f n bs f' :
  repr ba f → flat_read n f = Some (bs, f') → (0 < n)%nat →
  ∃ ba', read (Z.of_nat n) ba = Ret bs ba' ∧ repr ba' f' ∧ same_config ba ba' ∧
    m_capacity ba' = m_capacity ba.
Proof.
  intros Hr Hread Hn. destruct (repr_length ba f Hr) as (Hlf & Hpf & Hle).
  destruct Hr as [Hwf Hf]. unfold flat_read in Hread. case_decide as Hd; [|done].
  injection Hread as <- <-. unfold read.
  pose proof (wf_pos ba Hwf). pose proof (wf_size ba Hwf). pose proof (wf_content ba Hwf).
  rewrite wf_getReadSize, (proj2 (Z.ltb_ge _ _)) by (done || lia).
  destruct (wf_cursor ba (Z.to_nat (m_position ba)) Hwf)
    as (B & c & i & node & HB & Hb & HF & Hlen & Hcur & Hnd & Hcn & Hi & Hpos & Hmod & Hncap);
    [lia|lia|].
  rewrite (proj2 (Z.eqb_neq _ _)) by lia. rewrite Hnd, Hmod. rewrite Hmod in Hncap. rewrite Hncap.
  rewrite (read_loop_spec B HB _ ba c i n) by (done || lia). cbn [app].
  rewrite <- Hpos, Hpf. fold (content ba).
  rewrite <- take_drop_data, <- Hf by (done || lia).
  eexists. split_and!; [done| |done|done]. split.
  - destruct Hwf as [? ? ? ? ? ? ? Hcurr]. split; cbn; try done; [lia|].
    rewrite <- (curr_at_slot ba B) by done. unfold curr_at; cbn.
    by replace (Z.of_nat (Z.to_nat (m_position ba) + n)) with (m_position ba + Z.of_nat n) by lia.
  - unfold abs; cbn. f_equal. lia.
Qed.

Lemma read_throws ba f n :
  repr ba f → flat_read n f = None → read (Z.of_nat n) ba = Throw out_of_range ba.
Proof.
  intros Hr Hread. destruct (repr_length ba f Hr) as (Hlf & Hpf & Hle).
  destruct Hr as [Hwf Hf]. unfold flat_read in Hread. case_decide as Hd; [done|].
  unfold read. pose proof (wf_pos ba Hwf).
  by rewrite wf_getReadSize, (proj2 (Z.ltb_lt _ _)) by (done || lia).
Qed.

Lemma seek_spec B fuel ba c v :
  (0 < B)%nat → Forall (λ nd, length nd = B) (m_nodes ba) →
  (c < length (m_nodes ba))%nat → (c * B + v ≤ B * length (m_nodes ba))%nat →
  (length (m_nodes ba) - c ≤ fuel)%nat →
  seek fuel (Z.of_nat v) (Some c) ba = Some (slot B (length (m_nodes ba)) (c * B + v)).
Proof.
  intros HB HF. revert c v. induction fuel as [|fuel IH]; intros c v Hc Hv Hfuel; [lia|].
  destruct (lookup_lt_is_Some_2 (m_nodes ba) c Hc) as [node Hnode].
  assert (length node = B) as Hlen by by apply (Forall_lookup_1 _ _ _ _ HF Hnode).
  cbn [seek node_at]. rewrite Hnode, Hlen.
  destruct (Z.ltb_spec (Z.of_nat B) (Z.of_nat v)).
  - rewrite next_lt by nia. replace (Z.of_nat v - Z.of_nat B) with (Z.of_nat (v - B)) by lia.
    rewrite IH by nia. do 2 f_equal. nia.
  - destruct (Z.eqb_spec (Z.of_nat v) (Z.of_nat B)).
    + by rewrite <- (slot_next ba B c v) by lia.
    + by rewrite slot_in by lia.
Qed.

(** [setPosition]; past [m_size] the array grows over indeterminate bytes. *)
Lemma setPosition_refines ba f v :
  repr ba f → Z.of_nat v ≤ m_capacity ba →
  ∃ ba' ext, setPosition (Z.of_nat v) ba = Ret tt ba' ∧
    repr ba' (Flat v (f_data f ++ ext)) ∧ same_config ba ba' ∧
    length ext = (v - length (f_data f))%nat ∧ m_capacity ba' = m_capacity ba ∧
    f_data f ++ ext = take (length (f_data f) `max` v) (content ba).
Proof.
  intros Hr Hv. destruct (repr_length ba f Hr) as (Hlf & Hpf & Hle). destruct Hr as [Hwf Hf].
  destruct (wf_chunks ba Hwf) as (B & HB & Hb & HF & Hlen & Hcap).
  unfold setPosition. rewrite (proj2 (Z.ltb_ge _ _)) by lia. cbn [m_size m_position set_position].
  pose proof (wf_pos ba Hwf). pose proof (wf_size ba Hwf). pose proof (wf_root ba Hwf).
  match goal with |- context [seek _ _ _ ?b] => set (ba1 := b) end.
  assert (m_nodes ba1 = m_nodes ba) as Hn by (unfold ba1; case_match; done).
  rewrite (seek_spec B _ ba1 0 v) by (rewrite ?Hn; done || lia).
  eexists _, (take (v - Z.to_nat (m_size ba)) (drop (Z.to_nat (m_size ba)) (content ba))).
  split; [done|]. rewrite Hn. split_and!; [split| | | |].
  - destruct Hwf as [? ? ? ? ? ? ? Hcurr].
    split; cbn; rewrite ?Hn; unfold ba1 in *; case_match; cbn in *; try done; try lia;
      rewrite <- (curr_at_slot ba B) by done; unfold curr_at; cbn; rewrite ?Nat2Z.id; done.
  - rewrite <- Hf. unfold abs, content in *; cbn; rewrite Hn. unfold ba1.
    destruct (Z.ltb_spec (m_size ba) (Z.of_nat v)); cbn; rewrite ?Nat2Z.id; f_equal.
    + apply (take_drop_split 0). lia.
    + rewrite (proj2 (Nat.sub_0_le _ _)), take_0, app_nil_r by lia. done.
  - unfold same_config, ba1. case_match; done.
  - rewrite length_take, length_drop, Hlf. unfold content in *. lia.
  - unfold ba1. case_match; done.
  - rewrite Hlf, <- Hf. unfold abs; cbn [f_data].
    destruct (decide (v ≤ Z.to_nat (m_size ba))%nat).
    + rewrite (proj2 (Nat.sub_0_le _ _)), take_0, app_nil_r, Nat.max_l by lia. done.
    + rewrite Nat.max_r by lia. symmetry. apply (take_drop_split 0). lia.
Qed.

Lemma setPosition_throws ba v :
  m_capacity ba < v → setPosition v ba = Throw out_of_range ba.
Proof. intros. unfold setPosition. by rewrite (proj2 (Z.ltb_lt _ _)). Qed.

(** *** Construction and [clear] *)

Lemma new_repr base : 0 < base < max_bytes → repr (new base) (Flat 0 []).
Proof.
  intros [Hb Hm]. split; [|done].
  split; cbn; try lia; [|unfold curr_at; cbn; by rewrite Z.div_0_l by lia].
  repeat constructor. apply length_new_node. lia.
Qed.

Lemma clear_repr ba : wf ba → repr (clear ba) (Flat 0 []) ∧ same_config ba (clear ba).
Proof.
  intros [Hb HF Hr Hc Hbd Hp Hs Hcu]. split; [|done]. split; [|done].
  assert (length (take 1 (m_nodes ba)) = 1%nat) as Hl by (rewrite length_take; lia).
  split; cbn; rewrite ?Hl; try lia; [by apply Forall_take|nia|].
  unfold curr_at; cbn. by rewrite Z.div_0_l, Hl by lia.
Qed.

(** *** Scatter/gather buffers *)

Lemma buffers_cursor ba n :
  wf ba → (0 < n)%nat → m_position ba + Z.of_nat n ≤ m_capacity ba →
  ∃ node vs, node_at ba (m_curr ba) = Some node ∧
    buffers_loop (S (S (length (m_nodes ba)))) (m_curr ba) (m_position ba mod m_baseSize ba)
      (wrap 64 (Z.of_nat (length node) - m_position ba mod m_baseSize ba)) (Z.of_nat n) [] ba
    = Some vs ∧
    concat (iov_bytes ba <$> vs) = take n (drop (Z.to_nat (m_position ba)) (content ba)).
Proof.
  intros Hwf Hn Hroom. pose proof (wf_pos ba Hwf). pose proof (wf_content ba Hwf).
  destruct (wf_cursor ba (Z.to_nat (m_position ba)) Hwf)
    as (B & c & i & node & HB & Hb & HF & Hlen & Hcur & Hnd & Hcn & Hi & Hpos & Hmod & Hncap);
    [lia|lia|].
  destruct (buffers_loop_spec B HB (S (S (length (m_nodes ba)))) ba c i n [])
    as (vs & Heq & Hvs); [done|done|done|done|lia|lia|].
  exists node, vs. split; [done|]. rewrite Hncap, Hcur, Hmod. split; [done|].
  by rewrite Hvs, Hpos.
Qed.

Lemma getReadBuffers_spec ba len :
  wf ba → 0 ≤ len →
  ∃ vs, getReadBuffers len ba = Some (vs, len `min` (m_size ba - m_position ba)) ∧
    concat (iov_bytes ba <$> vs) = take (Z.to_nat len) (readable ba).
Proof.
  intros Hwf Hlen. unfold getReadBuffers. rewrite wf_getReadSize by done.
  pose proof (wf_pos ba Hwf). pose proof (wf_size ba Hwf). pose proof (wf_base ba Hwf).
  replace (if _ <? _ then _ else _) with (len `min` (m_size ba - m_position ba))
    by (case_match eqn:E; [apply Z.ltb_lt in E|apply Z.ltb_ge in E]; lia).
  unfold readable. rewrite take_take.
  destruct (Z.eqb_spec (len `min` (m_size ba - m_position ba)) 0) as [Hz|Hnz].
  { exists []. rewrite Hz. split; [done|].
    by replace (Z.to_nat len `min` _)%nat with 0%nat by lia. }
  rewrite (proj2 (Z.eqb_neq _ _)) by lia.
  destruct (buffers_cursor ba (Z.to_nat (len `min` (m_size ba - m_position ba))))
    as (node & vs & Hnd & Heq & Hvs); [done|lia|lia|].
  rewrite Z2Nat.id in Heq by lia. rewrite Hnd, Heq. exists vs. split; [done|].
  rewrite Hvs. f_equal. lia.
Qed.

Lemma getWriteBuffers_spec ba n :
  wf ba → (0 < n)%nat → fits ba n →
  ∃ ba' vs extra, getWriteBuffers (Z.of_nat n) ba = Ret (vs, Z.of_nat n) ba' ∧ wf ba' ∧
    content ba' = content ba ++ extra ∧ abs ba' = abs ba ∧ same_config ba ba' ∧
    (Z.to_nat (m_position ba) + n ≤ length (content ba'))%nat ∧
    concat (iov_bytes ba' <$> vs) = take n (drop (Z.to_nat (m_position ba)) (content ba')).
Proof.
  intros Hwf Hn Hfits. unfold getWriteBuffers. rewrite (proj2 (Z.eqb_neq _ _)) by lia.
  destruct (addCapacity_spec n ba) as (extra & Hw & Hc & Hcap & Hp & Hs & Hcf & Hgrow); [done..|].
  set (ba1 := addCapacity (Z.of_nat n) ba) in *. pose proof (wf_base ba1 Hw).
  rewrite (proj2 (Z.eqb_neq _ _)) by lia.
  destruct (buffers_cursor ba1 n) as (node & vs & Hnd & Heq & Hvs); [done|lia|lia|].
  rewrite Hnd, Heq. exists ba1, vs, extra. pose proof (wf_content ba1 Hw).
  pose proof (wf_content ba Hwf). pose proof (wf_pos ba Hwf). pose proof (wf_size ba Hwf).
  split_and!; try done; [|lia|by rewrite Hvs, Hp].
  unfold abs. rewrite Hc, Hp, Hs, take_app_le by lia. done.
Qed.

Lemma getReadBuffers_at_spec ba len position :
  wf ba → 0 ≤ len → 0 ≤ position →
  position + len `min` (m_size ba - m_position ba) ≤ m_size ba →
  ∃ vs, getReadBuffers_at len position ba = Some (vs, len `min` (m_size ba - m_position ba)) ∧
    concat (iov_bytes ba <$> vs)
    = take (Z.to_nat (len `min` (m_size ba - m_position ba)))
        (drop (Z.to_nat position) (content ba)).
Proof.
  intros Hwf Hlen Hp Hroom. unfold getReadBuffers_at. rewrite wf_getReadSize by done.
  pose proof (wf_pos ba Hwf). pose proof (wf_size ba Hwf). pose proof (wf_content ba Hwf).
  replace (if _ <? _ then _ else _) with (len `min` (m_size ba - m_position ba))
    by (case_match eqn:E; [apply Z.ltb_lt in E|apply Z.ltb_ge in E]; lia).
  set (n := len `min` (m_size ba - m_position ba)) in *.
  destruct (Z.eqb_spec n 0) as [Hz|Hnz]; [rewrite Hz; by exists []|].
  destruct (wf_chunks ba Hwf) as (B & HB & Hb & HF & Hcl & _).
  pose proof (Nat.div_mod_eq (Z.to_nat position) B).
  pose proof (Nat.mod_upper_bound (Z.to_nat position) B).
  rewrite (proj2 (Z.eqb_neq _ _)) by lia.
  set (c := (Z.to_nat position / B)%nat) in *. set (i := (Z.to_nat position mod B)%nat) in *.
  assert (Z.to_nat (position / m_baseSize ba) = c) as ->
    by (rewrite Hb, Z2Nat.inj_div, Nat2Z.id by lia; done).
  assert (position mod m_baseSize ba = Z.of_nat i) as ->
    by (rewrite Hb; unfold i; rewrite Nat2Z.inj_mod, Z2Nat.id by lia; done).
  assert (c < length (m_nodes ba))%nat as Hc by nia.
  destruct (lookup_lt_is_Some_2 _ _ Hc) as [node Hnode]. cbn [node_at]. rewrite Hnode.
  rewrite (Forall_lookup_1 _ _ _ _ HF Hnode). pose proof (wf_bound ba Hwf).
  rewrite wrap_small by (unfold in_u, max_bytes in *; nia).
  destruct (buffers_loop_spec B HB (S (S (length (m_nodes ba)))) ba c i (Z.to_nat n) [])
    as (vs & Heq & Hvs); [done|done|lia|lia|lia|lia|].
  rewrite Z2Nat.id, Nat2Z.inj_sub in Heq by lia. rewrite Heq. exists vs. split; [done|].
  rewrite Hvs. do 2 f_equal. lia.
Qed.

(** *** The readable bytes as one string or one file *)

Lemma length_readable ba :
  wf ba → length (readable ba) = Z.to_nat (m_size ba - m_position ba).
Proof.
  intros Hwf. unfold readable. pose proof (wf_content ba Hwf).
  pose proof (wf_pos ba Hwf). pose proof (wf_size ba Hwf).
  rewrite length_take, length_drop. lia.
Qed.

(** The [const] read is right from the cursor's own node. *)
Lemma read_at_cursor ba n :
  wf ba → (0 < n)%nat → m_position ba + Z.of_nat n ≤ m_size ba →
  read_at (Z.of_nat n) (m_position ba) ba
  = Ret (take n (drop (Z.to_nat (m_position ba)) (content ba))) ba.
Proof.
  intros Hwf Hn Hroom. pose proof (wf_pos ba Hwf). pose proof (wf_content ba Hwf).
  pose proof (wf_size ba Hwf). unfold read_at. fold (getReadSize ba).
  rewrite wf_getReadSize, (proj2 (Z.ltb_ge _ _)) by (done || lia).
  destruct (wf_cursor ba (Z.to_nat (m_position ba)) Hwf)
    as (B & c & i & node & HB & Hb & HF & Hlen & Hcur & Hnd & Hcn & Hi & Hpos & Hmod & Hncap);
    [lia|lia|].
  rewrite (proj2 (Z.eqb_neq _ _)) by lia. rewrite Hnd, Hncap, Hcur, Hmod.
  rewrite (read_at_loop_spec B HB) by (done || lia). by rewrite Hpos.
Qed.

Lemma toString_readable ba : wf ba → toString ba = Ret (readable ba) ba.
Proof.
  intros Hwf. unfold toString, readable. rewrite wf_getReadSize by done.
  pose proof (wf_pos ba Hwf). pose proof (wf_size ba Hwf).
  destruct (Z.eqb_spec (m_size ba - m_position ba) 0) as [->|Hnz]; [done|].
  rewrite <- (Z2Nat.id (m_size ba - m_position ba)) at 1 by lia.
  by rewrite read_at_cursor by (done || lia).
Qed.

(** The file loop from the start of a node. *)
Lemma file_loop_spec B fuel ba c p n out :
  (0 < B)%nat → m_baseSize ba = Z.of_nat B → Z.of_nat B < 2 ^ 31 →
  Forall (λ nd, length nd = B) (m_nodes ba) →
  p = (c * B)%nat → (p + n ≤ B * length (m_nodes ba))%nat →
  Z.of_nat (B * length (m_nodes ba)) < max_bytes →
  (length (m_nodes ba) - c < fuel)%nat →
  file_loop fuel (slot B (length (m_nodes ba)) p) (Z.of_nat p) (Z.of_nat n) out ba
  = Some (out ++ take n (drop p (concat (m_nodes ba)))).
Proof.
  intros HB Hb H31 HF. revert c p n out.
  induction fuel as [|fuel IH]; intros c p n out Hp Hroom Hmax Hfuel; [lia|].
  cbn [file_loop]. destruct (Z.ltb_spec 0 (Z.of_nat n)) as [Hn|Hn]; cbn [negb].
  2: { replace n with 0%nat by lia. by rewrite take_0, app_nil_r. }
  rewrite (proj2 (Z.eqb_neq _ _)) by lia.
  assert (c < length (m_nodes ba))%nat as Hc by nia.
  replace p with (c * B + 0)%nat at 1 by lia. rewrite slot_in by lia. cbn [node_at].
  destruct (lookup_lt_is_Some_2 _ _ Hc) as [node Hnode]. rewrite Hnode.
  assert (length node = B) as Hlen by by apply (Forall_lookup_1 _ _ _ _ HF Hnode).
  rewrite wrap_small by (unfold in_u, max_bytes in *; lia).
  assert (Z.of_nat p mod m_baseSize ba = 0) as ->
    by (rewrite Hb, Hp, Nat2Z.inj_mul, Z.mod_mul by lia; done).
  change (cast int32_t 0) with (Z.of_nat 0).
  replace ((if m_baseSize ba <? Z.of_nat n then _ else _) - Z.of_nat 0)
    with (Z.of_nat (n `min` B))
    by (rewrite Hb; case_match eqn:E; [apply Z.ltb_lt in E|apply Z.ltb_ge in E]; lia).
  rewrite peek_ok by lia. rewrite <- (slot_next ba B c B) by lia.
  replace (c * B + B)%nat with (p + B)%nat by lia.
  rewrite (take_drop_split p (n `min` B) n), (assoc_L (++)) by lia.
  replace p with (c * B + 0)%nat at 3 by lia. rewrite (chunks_read B _ c node) by (done || lia).
  destruct (decide (B < n)%nat) as [Hlt|Hge].
  - rewrite Nat.min_r by lia. replace (Z.of_nat n - Z.of_nat B) with (Z.of_nat (n - B)) by lia.
    replace (Z.of_nat p + Z.of_nat B) with (Z.of_nat (p + B)) by lia.
    by rewrite (IH (S c)) by lia.
  - rewrite Nat.min_l, Z.sub_diag, Nat.sub_diag, take_0, app_nil_r by lia.
    destruct fuel; [lia|]. done.
Qed.

Lemma writeToFile_aligned ba :
  wf ba → m_baseSize ba < 2 ^ 31 → m_position ba mod m_baseSize ba = 0 →
  writeToFile true ba = Some (true, readable ba).
Proof.
  intros Hwf H31 Hal. destruct (wf_chunks ba Hwf) as (B & HB & Hb & HF & Hlen & Hcap).
  pose proof (wf_pos ba Hwf). pose proof (wf_size ba Hwf). pose proof (wf_bound ba Hwf) as Hbd.
  unfold writeToFile. rewrite wf_getReadSize by done. cbn [negb].
  assert (∀ z, 0 ≤ z ≤ m_capacity ba → cast int64_t z = z) as Hcast.
  { intros. apply cast_small; [cbn; lia|]. apply in_range_int64. unfold max_bytes in *. lia. }
  rewrite !Hcast by lia.
  rewrite (wf_curr ba Hwf).
  replace (m_position ba) with (Z.of_nat (Z.to_nat (m_position ba))) at 1 2 by lia.
  rewrite (curr_at_slot ba B) by done.
  replace (m_size ba - m_position ba)
    with (Z.of_nat (Z.to_nat (m_size ba - m_position ba))) at 1 by lia.
  erewrite (file_loop_spec B _ ba (Z.to_nat (m_position ba) / B)%nat _ _ []); [done|..];
    try done; try lia.
  pose proof (Nat.div_mod_eq (Z.to_nat (m_position ba)) B).
  assert (Z.of_nat (Z.to_nat (m_position ba) mod B) = 0); [|lia].
  rewrite Nat2Z.inj_mod, Z2Nat.id, <- Hb by lia. done.
Qed.

Lemma flat_write_app b1 b2 f :
  (f_pos f ≤ length (f_data f))%nat →
  flat_write b2 (flat_write b1 f) = flat_write (b1 ++ b2) f.
Proof.
  intros. unfold flat_write; simpl. rewrite length_app, splice_splice by done.
  f_equal. lia.
Qed.

Lemma readFromFile_loop_refines fuel file ba f :
  repr ba f → fits ba (length file) → (length file < fuel)%nat →
  ∃ ba', readFromFile_loop fuel file ba = Ret tt ba' ∧
    repr ba' (flat_write file f) ∧ same_config ba ba'.
Proof.
  revert file ba f. induction fuel as [|fuel IH]; intros file ba f Hr Hfits Hfuel; [lia|].
  pose proof (wf_base ba (proj1 Hr)). destruct (repr_length ba f Hr) as (_ & _ & Hpos & _).
  set (n := Z.to_nat (m_baseSize ba)). cbn [readFromFile_loop].
  change (Z.to_nat (m_baseSize ba)) with n.
  destruct (write_refines ba f (take n file) Hr) as (ba1 & Hw & Hr1 & Hcf & Hp1 & _).
  { unfold fits in *. rewrite length_take. lia. }
  rewrite (bind_Ret _ _ _ _ _ Hw). case_decide as Hd.
  - exists ba1. rewrite take_ge in Hr1 by lia. done.
  - destruct (IH (drop n file) ba1 _ Hr1) as (ba2 & Hl & Hr2 & Hcf2).
    + destruct Hcf as [Hcf _]. unfold fits in *.
      rewrite Hp1, Hcf, length_take, length_drop. lia.
    + rewrite length_drop. lia.
    + exists ba2. split; [done|].
      rewrite flat_write_app, take_drop in Hr2 by done. split; [done|].
      destruct Hcf, Hcf2. split; congruence.
Qed.

Lemma readFromFile_refines file ba f :
  repr ba f → fits ba (length file) →
  ∃ ba', readFromFile (Some file) ba = Ret true ba' ∧
    repr ba' (flat_write file f) ∧ same_config ba ba'.
Proof.
  intros Hr Hfits.
  destruct (readFromFile_loop_refines (S (length file)) file ba f) as (ba' & Hl & Hr' & Hcf);
    [done|done|lia|].
  exists ba'. split; [|done]. unfold readFromFile. by rewrite (bind_Ret _ _ _ _ _ Hl).
Qed.

End refinement.

(** ** Traces of operations against the flat buffer *)

Inductive op :=
| Write (buf : list ascii)
| Read (n : nat)
| SetPosition (v : nat)
| Clear.

Inductive reply :=
| Done
| Bytes (bs : list ascii)
| Failed (e : exn).

(** The contract, one rule per behaviour.  Moving the cursor past the end
    either fails or extends the data with unspecified bytes. *)
Inductive flat_step : flat → op → reply → flat → Prop :=
| step_write f buf : flat_step f (Write buf) Done (flat_write buf f)
| step_read f n bs f' :
    flat_read n f = Some (bs, f') → flat_step f (Read n) (Bytes bs) f'
| step_read_fail f n :
    flat_read n f = None → flat_step f (Read n) (Failed out_of_range) f
| step_seek f v ext :
    length ext = (v - length (f_data f))%nat →
    flat_step f (SetPosition v) Done (Flat v (f_data f ++ ext))
| step_seek_fail f v :
    (length (f_data f) < v)%nat → flat_step f (SetPosition v) (Failed out_of_range) f
| step_clear f : flat_step f Clear Done (Flat 0 []).

Inductive flat_steps : flat → list op → list reply → flat → Prop :=
| steps_nil f : flat_steps f [] [] f
| steps_cons f o r f1 os rs f2 :
    flat_step f o r f1 → flat_steps f1 os rs f2 → flat_steps f (o :: os) (r :: rs) f2.

(** The most a write can add to the capacity. *)
Definition cost (base : Z) (o : op) : Z :=
  match o with Write buf => Z.of_nat (length buf) + base | _ => 0 end.
Definition costs (base : Z) (os : list op) : Z := foldr (λ o z, cost base o + z) 0 os.

(** Reads of no byte at all are left out: see [read_zero_at_capacity]. *)
Definition op_ok (o : op) : bool :=
  match o with Read n => (0 <? n)%nat | _ => true end.

Section traces.
Context `{Alloc}.

Definition reply_of {A} (r : A → reply) (m : outcome t A) : option (reply * t) :=
  match m with
  | Ret a ba => Some (r a, ba)
  | Throw e ba => Some (Failed e, ba)
  | UB => None
  end.

Definition run (o : op) (ba : t) : option (reply * t) :=
  match o with
  | Write buf => reply_of (λ _, Done) (write buf ba)
  | Read n => reply_of Bytes (read (Z.of_nat n) ba)
  | SetPosition v => reply_of (λ _, Done) (setPosition (Z.of_nat v) ba)
  | Clear => Some (Done, clear ba)
  end.

Fixpoint runs (os : list op) (ba : t) : option (list reply * t) :=
  match os with
  | [] => Some ([], ba)
  | o :: os =>
      '(r, ba) ← run o ba; '(rs, ba) ← runs os ba; Some (r :: rs, ba)
  end.

Lemma run_simulates o ba :
  wf ba → op_ok o → m_capacity ba + cost (m_baseSize ba) o < max_bytes →
  ∃ r ba', run o ba = Some (r, ba') ∧ wf ba' ∧ flat_step (abs ba) o r (abs ba') ∧
    m_baseSize ba' = m_baseSize ba ∧
    m_capacity ba' ≤ m_capacity ba + cost (m_baseSize ba) o.
Proof.
  intros Hwf Hok Hcost. assert (repr ba (abs ba)) as Hr by done.
  pose proof (wf_pos ba Hwf). pose proof (wf_size ba Hwf). pose proof (wf_base ba Hwf).
  pose proof (wf_root ba Hwf). pose proof (wf_cap ba Hwf).
  destruct o as [buf|n|v|]; cbn [run cost op_ok] in *.
  - destruct (write_refines ba (abs ba) buf Hr) as (ba' & -> & [Hw Ha] & [Hb _] & _ & Hc);
      [unfold fits; lia|].
    eexists _, ba'. split_and!; [done|done|rewrite Ha; constructor|done|lia].
  - apply Is_true_true, Nat.ltb_lt in Hok.
    destruct (flat_read n (abs ba)) as [[bs f']|] eqn:Hf.
    + destruct (read_refines ba (abs ba) n bs f' Hr Hf Hok) as (ba' & -> & [Hw <-] & [Hb _] & Hc).
      eexists _, ba'. split_and!; [done|done|by constructor|done|lia].
    + rewrite (read_throws ba (abs ba)) by done.
      eexists _, ba. split_and!; [done|done|by constructor|done|lia].
  - destruct (Z.leb_spec (Z.of_nat v) (m_capacity ba)).
    + destruct (setPosition_refines ba (abs ba) v Hr) as (ba' & ext & -> & [Hw Ha] & [Hb _] & Hl & Hc & _);
        [done|].
      eexists _, ba'. split_and!; [done|done|rewrite Ha; by constructor|done|lia].
    + rewrite setPosition_throws by done.
      eexists _, ba. split_and!; [done|done| |done|lia]. constructor.
      destruct (repr_length ba _ Hr) as (-> & _). lia.
  - destruct (clear_repr ba Hwf) as [[Hw Ha] [Hb _]].
    eexists _, _. split_and!; [done|done|rewrite Ha; constructor|done|cbn; nia].
Qed.

Lemma costs_nonneg base os : 0 ≤ base → 0 ≤ costs base os.
Proof.
  intros Hb. induction os as [|o os IH]; [done|].
  change (costs base (o :: os)) with (cost base o + costs base os).
  destruct o; cbn [cost]; lia.
Qed.

Lemma runs_simulate os ba :
  wf ba → Forall op_ok os → m_capacity ba + costs (m_baseSize ba) os < max_bytes →
  ∃ rs ba', runs os ba = Some (rs, ba') ∧ wf ba' ∧ flat_steps (abs ba) os rs (abs ba').
Proof.
  intros Hwf Hos. revert ba Hwf. induction Hos as [|o os Ho Hos IH]; intros ba Hwf Hc.
  { eexists _, ba. split_and!; [done|done|constructor]. }
  change (costs _ _) with (cost (m_baseSize ba) o + costs (m_baseSize ba) os) in Hc.
  pose proof (wf_base ba Hwf). pose proof (costs_nonneg (m_baseSize ba) os).
  destruct (run_simulates o ba) as (r & ba1 & Hrun & Hw1 & Hs1 & Hb1 & Hc1); [done|done|lia|].
  destruct (IH ba1 Hw1) as (rs & ba2 & Hruns & Hw2 & Hs2); [rewrite Hb1; lia|].
  exists (r :: rs), ba2. cbn [runs]. rewrite Hrun. cbn. rewrite Hruns. cbn.
  split_and!; [done|done|by econstructor].
Qed.

End traces.

(** ** Branches outside the flat contract *)

Section edges.
Context `{Alloc}.

Lemma wf_curr_none ba : wf ba → m_position ba = m_capacity ba → m_curr ba = None.
Proof.
  intros Hwf Hp. rewrite (wf_curr ba Hwf). unfold curr_at. destruct Hwf.
  rewrite Hp, wf_cap0, Z.mul_comm, Z.div_mul, Nat2Z.id, decide_False by lia. done.
Qed.

(** The first round of the file loop when the cursor is inside a node. *)
Lemma file_loop_negative ba :
  wf ba → m_baseSize ba < 2 ^ 31 → 0 < m_size ba - m_position ba →
  m_size ba - m_position ba < m_position ba mod m_baseSize ba →
  file_loop (S (S (length (m_nodes ba)))) (m_curr ba) (m_position ba)
    (m_size ba - m_position ba) [] ba = None.
Proof.
  intros Hwf H31 Hpos Hlt. pose proof (wf_pos ba Hwf). pose proof (wf_size ba Hwf).
  pose proof (wf_bound ba Hwf). pose proof (wf_base ba Hwf).
  pose proof (Z.mod_pos_bound (m_position ba) (m_baseSize ba)).
  cbn [file_loop]. rewrite (proj2 (Z.ltb_lt 0 _)), (proj2 (Z.eqb_neq _ _)) by lia. cbn [negb].
  destruct (m_curr ba) as [c|]; [|done]. destruct (node_at ba (Some c)) as [node|]; [|done].
  rewrite wrap_small by (unfold in_u, max_bytes in *; lia).
  assert (cast int32_t (m_position ba mod m_baseSize ba) = m_position ba mod m_baseSize ba) as ->.
  { apply cast_small; [cbn; lia|].
    change (- 2 ^ 31 ≤ m_position ba mod m_baseSize ba < 2 ^ 31). lia. }
  rewrite (proj2 (Z.ltb_ge (m_baseSize ba) _)) by lia.
  unfold peek. rewrite decide_False by lia. done.
Qed.

End edges.

(** ** Properties *)

(** Indeterminate memory that happens to be zero, for concrete runs. *)
Definition zeroed : Alloc := λ _ _, "000"%char.

(** C10. Every sequence of writes, (non-empty) reads, cursor moves and clears on
    a fresh array behaves like the flat buffer: no undefined behaviour, the
    same replies, and a final state that represents the flat buffer's, as long
    as the data stays below 2^53 bytes. *)
Theorem trace_refines `{Alloc} (base : Z) (os : list op) :
  0 < base → Forall op_ok os → base + costs base os < max_bytes →
  ∃ rs ba', runs os (new base) = Some (rs, ba') ∧ wf ba' ∧
    flat_steps (Flat 0 []) os rs (abs ba').
Proof.
  intros Hb Hos Hc. pose proof (costs_nonneg base os).
  destruct (new_repr base) as [Hwf Habs]; [lia|]. rewrite <- Habs. by apply runs_simulate.
Qed.

Definition demo_trace : list op :=
  [Write (String.list_ascii_of_string "hello"); SetPosition 1; Read 3; Read 9; Clear].

Lemma trace_refines_witness : ∃ rs ba',
  runs (H:=zeroed) demo_trace (new (H:=zeroed) 4) = Some (rs, ba') ∧ wf ba' ∧
  flat_steps (Flat 0 []) demo_trace rs (abs ba').
Proof.
  apply (trace_refines (H:=zeroed) 4 demo_trace).
  - lia.
  - repeat constructor.
  - vm_compute. reflexivity.
Defined.

(** A file read into a fresh array and written back from its start is the
    same file, whatever the chunk size. *)
Theorem file_roundtrip `{Alloc} (base : Z) (file : list ascii) :
  0 < base < 2 ^ 31 → Z.of_nat (length file) + 2 * base < max_bytes →
  ∃ ba1 ba2, readFromFile (Some file) (new base) = Ret true ba1 ∧
    setPosition 0 ba1 = Ret tt ba2 ∧ writeToFile true ba2 = Some (true, file).
Proof.
  intros Hb Hl. destruct (readFromFile_refines file (new base) (Flat 0 []))
    as (ba1 & Hm1 & Hr1 & Hcf1 & _); [apply new_repr; lia|unfold fits; cbn; lia|].
  destruct (setPosition_refines ba1 _ 0 Hr1) as (ba2 & ext & Hm2 & [Hwf2 Ha2] & [Hcf2 _] & Hext & _).
  { pose proof (wf_pos ba1 (proj1 Hr1)). pose proof (wf_size ba1 (proj1 Hr1)). lia. }
  exists ba1, ba2. split; [done|]. split; [done|].
  pose proof (wf_pos ba2 Hwf2). unfold abs in Ha2. injection Ha2 as Hp2 Hd2.
  assert (m_position ba2 = 0) as Hp0 by lia.
  destruct ext; [|simpl in Hext; lia].
  rewrite writeToFile_aligned; [|done|rewrite Hcf2, Hcf1; cbn; lia|by rewrite Hp0].
  do 2 f_equal. unfold readable. rewrite Hp0, Z.sub_0_r, drop_0, Hd2, app_nil_r.
  unfold splice. cbn. by rewrite drop_nil, app_nil_r.
Qed.

Lemma file_roundtrip_witness : ∃ ba1 ba2,
  readFromFile (H:=zeroed) (Some (String.list_ascii_of_string "0123456789")) (new (H:=zeroed) 4)
    = Ret true ba1 ∧
  setPosition 0 ba1 = Ret tt ba2 ∧
  writeToFile true ba2 = Some (true, String.list_ascii_of_string "0123456789").
Proof.
  apply (file_roundtrip (H:=zeroed) 4 (String.list_ascii_of_string "0123456789")).
  - lia.
  - vm_compute. reflexivity.
Defined.

(** [toString] returns exactly the bytes between the cursor and the end,
    and [getReadBuffers] designates a prefix of them of the length it returns;
    neither moves the cursor. *)
Theorem views_readable (ba : t) (len : Z) :
  wf ba → 0 ≤ len →
  toString ba = Ret (readable ba) ba ∧
  ∃ vs n, getReadBuffers len ba = Some (vs, n) ∧
    n = len `min` Z.of_nat (length (readable ba)) ∧
    concat (iov_bytes ba <$> vs) = take (Z.to_nat n) (readable ba).
Proof.
  intros Hwf Hl. split; [by apply toString_readable|].
  destruct (getReadBuffers_spec ba len Hwf Hl) as (vs & Heq & Hvs).
  pose proof (wf_pos ba Hwf). rewrite length_readable by done.
  exists vs, (len `min` (m_size ba - m_position ba)). split; [done|]. split; [lia|].
  rewrite Hvs, <- (take_ge (readable ba) (Z.to_nat (m_size ba - m_position ba))) at 1
    by (rewrite length_readable by done; lia).
  rewrite take_take. f_equal. lia.
Qed.

Definition sample_array : t :=
  mk 1 4 6 8 BOBLIEW_BIG_ENDIAN
    [String.list_ascii_of_string "abcd"; String.list_ascii_of_string "efgh"] (Some 0%nat).

Lemma sample_array_wf : wf sample_array.
Proof. split; try (vm_compute; intuition congruence). all: repeat constructor. Qed.

Lemma views_readable_witness :
  toString sample_array = Ret (readable sample_array) sample_array ∧
  ∃ vs n, getReadBuffers 4 sample_array = Some (vs, n) ∧
    n = 4 `min` Z.of_nat (length (readable sample_array)) ∧
    concat (iov_bytes sample_array <$> vs) = take (Z.to_nat n) (readable sample_array).
Proof.
  apply (views_readable sample_array 4); [exact sample_array_wf|lia].
Defined.

(** A read of zero bytes with the cursor at the capacity dereferences the
    null [m_curr]; every shorter non-empty read there throws instead. *)
Theorem read_zero_at_capacity (ba : t) (n : nat) :
  wf ba → m_position ba = m_capacity ba →
  read 0 ba = UB ∧ ((0 < n)%nat → read (Z.of_nat n) ba = Throw out_of_range ba).
Proof.
  intros Hwf Hp. pose proof (wf_size ba Hwf). pose proof (wf_pos ba Hwf).
  pose proof (wf_base ba Hwf). unfold read. rewrite wf_getReadSize by done. split.
  - rewrite (proj2 (Z.ltb_ge _ _)), (proj2 (Z.eqb_neq _ _)) by lia.
    by rewrite (wf_curr_none ba).
  - intros Hn. by rewrite (proj2 (Z.ltb_lt _ _)) by lia.
Qed.

Definition full_array : t :=
  mk 4 4 4 4 BOBLIEW_BIG_ENDIAN [String.list_ascii_of_string "abcd"] None.

Lemma full_array_wf : wf full_array.
Proof. split; try (vm_compute; intuition congruence). all: repeat constructor. Qed.

Lemma read_zero_at_capacity_witness :
  read 0 full_array = UB ∧
  ((0 < 3)%nat → read 3 full_array = Throw out_of_range full_array).
Proof.
  apply (read_zero_at_capacity full_array 3); [exact full_array_wf|reflexivity].
Defined.

(** [writeToFile] from a cursor inside a node whose offset exceeds what is
    left to read asks for a negative count: the call is undefined. *)
Theorem writeToFile_unaligned (ba : t) :
  wf ba → m_baseSize ba < 2 ^ 31 → 0 < m_size ba - m_position ba →
  m_size ba - m_position ba < m_position ba mod m_baseSize ba →
  writeToFile true ba = None.
Proof.
  intros Hwf H31 Hpos Hlt. unfold writeToFile. rewrite wf_getReadSize by done. cbn [negb].
  pose proof (wf_pos ba Hwf). pose proof (wf_size ba Hwf). pose proof (wf_bound ba Hwf).
  assert (∀ z, 0 ≤ z ≤ m_capacity ba → cast int64_t z = z) as Hcast.
  { intros. apply cast_small; [cbn; lia|]. apply in_range_int64. unfold max_bytes in *. lia. }
  rewrite !Hcast by lia. by rewrite file_loop_negative.
Qed.

Definition unaligned_array : t :=
  mk 3 4 4 4 BOBLIEW_BIG_ENDIAN [String.list_ascii_of_string "abcd"] (Some 0%nat).

Lemma writeToFile_unaligned_witness : writeToFile true unaligned_array = None.
Proof.
  apply (writeToFile_unaligned unaligned_array).
  - split; try (vm_compute; intuition congruence). all: repeat constructor.
  - vm_compute. reflexivity.
  - vm_compute. reflexivity.
  - vm_compute. reflexivity.
Defined.

End ByteArray.
