(* ===== verification/Serial.v ===== *)
(** * ByteArray serialisation (src/bobliew/bytearray.cc, lines 56-308)

    The typed writers and readers on top of [ByteArray.write] and
    [ByteArray.read]: fixed-width integers in the array's byte order,
    protobuf-style varints with zigzag for signed values, floats as their bit
    patterns, and length-prefixed strings.

    [writes m bs] and [reads m bs a] specify a writer and a reader by the bytes
    on the wire, so a round trip is the composition of the two. *)

From S2P Require Import Prelude Endian Bytearray.
Import ByteArray.

Module Serial.

(** ** Operations *)

Section operations.
Context `{Alloc}.

(** The byte order test of the multi-byte writers. *)
Definition to_wire (T : ity) (value : Z) : M t Z := λ ba,
  if negb (m_endian ba =? BOBLIEW_BYTE_ORDER) then lift (byteswap T value) ba
  else Ret value ba.

Definition writeFix (T : ity) (value : Z) : M t unit :=
  let! value := to_wire T value in write (le_bytes (ity_bytes T) value).

Definition writeFint8 (value : Z) : M t unit := write (le_bytes 1 value).
Definition writeFuint8 (value : Z) : M t unit := write (le_bytes 1 value).
Definition writeFint16 : Z → M t unit := writeFix int16_t.
Definition writeFuint16 : Z → M t unit := writeFix uint16_t.
Definition writeFint32 : Z → M t unit := writeFix int32_t.
Definition writeFuint32 : Z → M t unit := writeFix uint32_t.
Definition writeFint64 : Z → M t unit := writeFix int64_t.
Definition writeFuint64 : Z → M t unit := writeFix uint64_t.

(** The macro [XX(type)] of the multi-byte readers. *)
Definition readFix (T : ity) : M t Z :=
  let! bs := read (Z.of_nat (ity_bytes T)) in
  let v := cast T (of_le bs) in
  let! ba := get in
  if m_endian ba =? BOBLIEW_BYTE_ORDER then ret v else lift (byteswap T v).

Definition readFint8 : M t Z := let! bs := read 1 in ret (cast int8_t (of_le bs)).
Definition readFuint8 : M t Z := let! bs := read 1 in ret (cast uint8_t (of_le bs)).
Definition readFint16 : M t Z := readFix int16_t.
Definition readFuint16 : M t Z := readFix uint16_t.
Definition readFint32 : M t Z := readFix int32_t.
Definition readFuint32 : M t Z := readFix uint32_t.
Definition readFint64 : M t Z := readFix int64_t.
Definition readFuint64 : M t Z := readFix uint64_t.

(** Zigzag.  [-v] and [v*2] are computed in the signed type; an overflow there
    is undefined ([None]). *)
Definition EncodeZigzag (w : Z) (v : Z) : option Z :=
  if v <? 0 then
    if decide (in_s w (- v)) then Some (wrap w (wrap w (- v) * 2 - 1)) else None
  else
    if decide (in_s w (v * 2)) then Some (wrap w (v * 2)) else None.
Definition EncodeZigzag32 : Z → option Z := EncodeZigzag 32.
Definition EncodeZigzag64 : Z → option Z := EncodeZigzag 64.

Definition DecodeZigzag (w : Z) (v : Z) : Z :=
  swrap w (Z.lxor (Z.shiftr v 1) (wrap w (- Z.land v 1))).
Definition DecodeZigzag32 : Z → Z := DecodeZigzag 32.
Definition DecodeZigzag64 : Z → Z := DecodeZigzag 64.

(** The bytes put in [tmp]; [room] is what is left of the array, writing past
    it is undefined. *)
Fixpoint varint_loop (room : nat) (value : Z) : option (list ascii) :=
  match room with
  | O => None
  | S room =>
      if 0x80 <=? value then
        tmp ← varint_loop room (Z.shiftr value 7);
        Some (z2b (Z.lor (Z.land value 0x7F) 0x80) :: tmp)
      else Some [z2b value]
  end.

Definition writeUint32 (value : Z) : M t unit :=
  let! tmp := lift (varint_loop 5 value) in write tmp.
Definition writeUint64 (value : Z) : M t unit :=
  let! tmp := lift (varint_loop 10 value) in write tmp.
Definition writeInt32 (value : Z) : M t unit :=
  let! z := lift (EncodeZigzag32 value) in writeUint32 z.
Definition writeInt64 (value : Z) : M t unit :=
  let! z := lift (EncodeZigzag64 value) in writeUint64 z.

(** [for(int i = 0; i < w; i += 7)]; at most [w / 7 + 1] rounds, [fuel] is one
    more. *)
Fixpoint read_varint_loop (w : Z) (fuel : nat) (i result : Z) : M t Z :=
  match fuel with
  | O => ub
  | S fuel =>
      if negb (i <? w) then ret result
      else
        let! b := readFuint8 in
        if b <? 0x80 then ret (Z.lor result (wrap w (Z.shiftl b i)))
        else read_varint_loop w fuel (i + 7)
               (Z.lor result (wrap w (Z.shiftl (Z.land b 0x7f) i)))
  end.

Definition readUint32 : M t Z := read_varint_loop 32 6 0 0.
Definition readUint64 : M t Z := read_varint_loop 64 11 0 0.
Definition readInt32 : M t Z := let! v := readUint32 in ret (DecodeZigzag32 v).
Definition readInt64 : M t Z := let! v := readUint64 in ret (DecodeZigzag64 v).

(** A [float] or a [double] is its bit pattern. *)
Definition writeFloat (value : Z) : M t unit := writeFuint32 value.
Definition writeDouble (value : Z) : M t unit := writeFuint64 value.
Definition readFloat : M t Z := readFuint32.
Definition readDouble : M t Z := readFuint64.

(** Strings; the length is converted to the type of the prefix. *)
Definition size_of (value : list ascii) : Z := Z.of_nat (length value).

Definition writeStringF16 (value : list ascii) : M t unit :=
  writeFuint16 (wrap 16 (size_of value));! write value.
Definition writeStringF32 (value : list ascii) : M t unit :=
  writeFuint32 (wrap 32 (size_of value));! write value.
Definition writeStringF64 (value : list ascii) : M t unit :=
  writeFuint64 (size_of value);! write value.
Definition writeStringVint (value : list ascii) : M t unit :=
  writeUint64 (size_of value);! write value.
Definition writeStringWithoutLength (value : list ascii) : M t unit := write value.

Definition readStringF16 : M t (list ascii) := let! len := readFuint16 in read len.
Definition readStringF32 : M t (list ascii) := let! len := readFuint16 in read len.
Definition readStringF64 : M t (list ascii) := let! len := readFuint16 in read len.
Definition readStringVint : M t (list ascii) := let! len := readFuint16 in read len.

End operations.

(** ** Wire specifications *)

Section wire.
Context `{Alloc}.

(** [m] appends exactly [bs] at the cursor of an array of byte order [e]. *)
Definition writes (e : Z) (m : M t unit) (bs : list ascii) : Prop :=
  ∀ ba f, repr ba f → m_endian ba = e → fits ba (length bs) →
  ∃ ba', m ba = Ret tt ba' ∧ repr ba' (flat_write bs f) ∧ same_config ba ba' ∧
    m_position ba' = m_position ba + Z.of_nat (length bs).

(** With [bs] next to be read, [m] consumes exactly [bs] and returns [a]. *)
Definition reads {A} (e : Z) (m : M t A) (bs : list ascii) (a : A) : Prop :=
  ∀ ba f, repr ba f → m_endian ba = e → bs `prefix_of` drop (f_pos f) (f_data f) →
  ∃ ba', m ba = Ret a ba' ∧ repr ba' (Flat (f_pos f + length bs) (f_data f)) ∧
    same_config ba ba'.

Lemma writes_write e buf : writes e (write buf) buf.
Proof.
  intros ba f Hr _ Hfits.
  destruct (write_refines ba f buf Hr Hfits) as (ba' & ? & ? & ? & ? & _). by exists ba'.
Qed.

Lemma writes_bind e m1 m2 bs1 bs2 :
  writes e m1 bs1 → writes e m2 bs2 → writes e (m1;! m2) (bs1 ++ bs2).
Proof.
  intros H1 H2 ba f Hr He Hfits. rewrite length_app in *. unfold fits in Hfits.
  destruct (H1 ba f Hr He) as (ba1 & Hm1 & Hr1 & [Hb1 He1] & Hp1); [unfold fits; lia|].
  destruct (H2 ba1 _ Hr1) as (ba2 & Hm2 & Hr2 & [Hb2 He2] & Hp2);
    [congruence|unfold fits; rewrite Hb1; lia|].
  exists ba2. rewrite (bind_Ret _ _ _ _ _ Hm1). split; [done|].
  destruct (repr_length ba f Hr) as (_ & _ & Hle & _).
  rewrite flat_write_app in Hr2 by done. split; [done|].
  split; [split; congruence|lia].
Qed.

Lemma writes_lift {A} e (o : option A) a k bs :
  o = Some a → writes e (k a) bs → writes e (let! x := lift o in k x) bs.
Proof. intros -> Hk ba f. apply Hk. Qed.

Lemma prefix_take_drop {A} (bs l : list A) p :
  bs `prefix_of` drop p l →
  (p + length bs ≤ length l ∨ bs = [])%nat ∧ take (length bs) (drop p l) = bs.
Proof.
  intros [k Hk]. split.
  - destruct bs as [|b bs]; [by right|left]. apply (f_equal length) in Hk.
    rewrite length_drop, length_app in Hk. simpl in *. lia.
  - by rewrite Hk, take_app_length.
Qed.

Lemma reads_read e bs : bs ≠ [] → reads e (read (size_of bs)) bs bs.
Proof.
  intros Hne ba f Hr He Hpre. apply prefix_take_drop in Hpre as [[Hl|?] Ht]; [|done].
  destruct (read_refines ba f (length bs) bs (Flat (f_pos f + length bs) (f_data f)))
    as (ba' & Hm & Hr' & Hc & _); [done| |destruct bs; [done|simpl; lia]|by exists ba'].
  unfold flat_read. rewrite decide_True by done. by rewrite Ht.
Qed.

Lemma reads_bind {A B} e (m : M t A) (k : A → M t B) bs1 bs2 a b :
  reads e m bs1 a → reads e (k a) bs2 b → reads e (let! x := m in k x) (bs1 ++ bs2) b.
Proof.
  intros H1 H2 ba f Hr He Hpre.
  destruct (H1 ba f Hr He) as (ba1 & Hm1 & Hr1 & Hc1 & He1).
  { etrans; [|exact Hpre]. by apply prefix_app_r. }
  destruct (H2 ba1 _ Hr1) as (ba2 & Hm2 & Hr2 & Hc2 & He2); [congruence| |].
  { cbn. rewrite <- drop_drop. destruct Hpre as [k' Hk]. rewrite Hk.
    rewrite <- (assoc_L (++)), drop_app_length. by apply prefix_app_r. }
  exists ba2. rewrite (bind_Ret _ _ _ _ _ Hm1). split; [done|].
  cbn in Hr2. rewrite length_app, Nat.add_assoc. split; [done|split; congruence].
Qed.

(** The last step of a reader is pure. *)
Lemma reads_ret {A B} e (m : M t A) (g : A → B) bs a b :
  reads e m bs a → b = g a → reads e (let! x := m in ret (g x)) bs b.
Proof.
  intros H1 -> ba f Hr He Hpre.
  destruct (H1 ba f Hr He Hpre) as (ba1 & Hm1 & Hr1 & Hc1).
  exists ba1. by rewrite (bind_Ret _ _ _ _ _ Hm1).
Qed.

(** ** Fixed-width integers *)

Definition fix_bytes (e : Z) (T : ity) (v : Z) : list ascii :=
  if e =? BOBLIEW_BYTE_ORDER then le_bytes (ity_bytes T) v else be_bytes (ity_bytes T) v.

Lemma length_fix_bytes e T v : length (fix_bytes e T v) = ity_bytes T.
Proof. unfold fix_bytes. case_match; [apply length_le_bytes|apply length_be_bytes]. Qed.

Lemma writes_Fix e T v : swappable T → writes e (writeFix T v) (fix_bytes e T v).
Proof.
  intros HT ba f Hr He Hfits. destruct (byteswap_image T v HT) as (v' & Hs & _ & Hi).
  unfold writeFix, fix_bytes in *. unfold bind, to_wire. rewrite He, Hs.
  destruct (e =? BOBLIEW_BYTE_ORDER); cbn [negb lift ret]; [|rewrite Hi];
    by eapply writes_write.
Qed.

Lemma in_range_inj T v1 v2 :
  (0 < ity_bytes T)%nat → in_range T v1 → in_range T v2 →
  le_bytes (ity_bytes T) v1 = le_bytes (ity_bytes T) v2 → v1 = v2.
Proof.
  intros Hn H1 H2 Heq. rewrite <- (cast_small T v1), <- (cast_small T v2) by done.
  rewrite <- (cast_of_le T v1), <- (cast_of_le T v2) by done. by rewrite Heq.
Qed.

(** Swapping the value read from a big-endian image gives the integer. *)
Lemma byteswap_be T v :
  swappable T → in_range T v →
  byteswap T (cast T (of_le (be_bytes (ity_bytes T) v))) = Some v.
Proof.
  intros HT Hv. set (v' := cast T _).
  assert (0 < ity_bytes T)%nat as Hn by (destruct HT as [|[|]]; lia).
  destruct (byteswap_image T v' HT) as (v'' & -> & Hr & Hi). f_equal.
  apply (in_range_inj T); [done..|]. rewrite Hi. unfold be_bytes at 1, v'.
  rewrite le_bytes_cast. rewrite <- (length_be_bytes (ity_bytes T) v) at 1.
  rewrite le_bytes_of_le. unfold be_bytes. apply reverse_involutive.
Qed.

Lemma reads_Fix e T v :
  swappable T → in_range T v → reads e (readFix T) (fix_bytes e T v) v.
Proof.
  intros HT Hv ba f Hr He Hpre.
  assert (0 < ity_bytes T)%nat as Hn by (destruct HT as [|[|]]; lia).
  pose proof (length_fix_bytes e T v) as Hl.
  destruct (reads_read e (fix_bytes e T v)) with (ba:=ba) (f:=f)
    as (ba1 & Hm & Hr1 & Hb & He1); [intros E; rewrite E in Hl; simpl in Hl; lia|done..|].
  unfold size_of in Hm. rewrite Hl in Hm. exists ba1. split; [|done].
  unfold readFix. rewrite (bind_Ret _ _ _ _ _ Hm). unfold bind, get. rewrite He1, He.
  unfold fix_bytes. destruct (e =? BOBLIEW_BYTE_ORDER).
  - by rewrite cast_of_le, cast_small by done.
  - by rewrite byteswap_be by done.
Qed.

Lemma reads_Fuint8 e b : reads e readFuint8 [b] (b2z b).
Proof.
  unfold readFuint8. apply reads_ret with (a := [b]).
  - by apply (reads_read e [b]).
  - cbn [of_le]. pose proof (b2z_range b). rewrite cast_small; [lia|cbn; lia|].
    change (0 ≤ b2z b + 256 * 0 < 256). lia.
Qed.

Lemma reads_Fint8 e v : in_range int8_t v → reads e readFint8 (le_bytes 1 v) v.
Proof.
  intros Hv. unfold readFint8. apply reads_ret with (a := le_bytes 1 v).
  - by apply (reads_read e (le_bytes 1 v)).
  - symmetry. etrans; [apply (cast_of_le int8_t); cbn; lia|]. apply cast_small; [cbn; lia|done].
Qed.

(** ** Varints *)

Lemma varint_loop_spec room v :
  0 ≤ v < 2 ^ (7 * Z.of_nat room) → (0 < room)%nat →
  ∃ bs, varint_loop room v = Some bs ∧ (0 < length bs ≤ room)%nat.
Proof.
  revert v. induction room as [|room IH]; intros v Hv Hr; [lia|]. cbn [varint_loop].
  destruct (Z.leb_spec 0x80 v) as [Hge|Hlt]; [|eexists; split; [done|simpl; lia]].
  destruct room as [|room]; [cbn in Hv; lia|].
  destruct (IH (Z.shiftr v 7)) as (bs & -> & Hl); [|lia|].
  - rewrite Z.shiftr_div_pow2 by lia. split; [apply Z.div_pos; lia|].
    apply Z.div_lt_upper_bound; [lia|]. rewrite <- Z.pow_add_r by lia.
    replace (7 + 7 * Z.of_nat (S room)) with (7 * Z.of_nat (S (S room))); lia.
  - eexists. split; [done|]. simpl. lia.
Qed.

(** A continuation byte carries seven bits and the top bit. *)
Lemma continuation_byte v :
  b2z (z2b (Z.lor (Z.land v 0x7F) 0x80)) = v mod 128 + 128.
Proof.
  rewrite b2z_z2b. change 0x7F with (Z.ones 7). rewrite Z.land_ones by lia.
  change (Z.lor ?a 0x80) with (Z.lor a (Z.shiftl 1 7)). rewrite lor_disjoint by (try lia; apply Z.mod_pos_bound; lia).
  change (2 ^ 7) with 128. pose proof (Z.mod_pos_bound v 128). rewrite Z.mod_small; lia.
Qed.

Lemma reads_varint_loop e w room fuel v bs i acc :
  varint_loop room v = Some bs → 0 ≤ v → 0 ≤ i → i + 7 * (Z.of_nat room - 1) < w →
  (room < fuel)%nat → acc + v * 2 ^ i < 2 ^ w → 0 ≤ acc < 2 ^ i →
  reads e (read_varint_loop w fuel i acc) bs (acc + v * 2 ^ i).
Proof.
  revert fuel v bs i acc. induction room as [|room IH]; intros fuel v bs i acc Hbs Hv Hi Hw Hf Hlt Hacc;
    [done|].
  destruct fuel as [|fuel]; [lia|]. cbn [varint_loop read_varint_loop] in *.
  rewrite (proj2 (Z.ltb_lt i w)) by lia. cbn [negb].
  destruct (Z.leb_spec 0x80 v) as [Hge|Hsmall].
  - destruct (varint_loop room (Z.shiftr v 7)) as [tmp|] eqn:Htmp; [|done].
    injection Hbs as <-. change (?b :: tmp) with ([b] ++ tmp).
    eapply reads_bind; [apply reads_Fuint8|]. rewrite continuation_byte.
    pose proof (Z.mod_pos_bound v 128). rewrite (proj2 (Z.ltb_ge _ 0x80)) by lia.
    change 0x7f with (Z.ones 7). rewrite Z.land_ones by lia.
    change (2 ^ 7) with 128. replace ((v mod 128 + 128) mod 128) with (v mod 128)
      by (rewrite <- (Z.mul_1_l 128) at 3; by rewrite Z.mod_add, Z.mod_mod by lia).
    rewrite Z.shiftr_div_pow2 in Htmp by lia. change (2 ^ 7) with 128 in Htmp.
    pose proof (Z.div_mod v 128). pose proof (Z.div_pos v 128).
    assert (v * 2 ^ i = v mod 128 * 2 ^ i + v / 128 * 2 ^ (i + 7)) as Hsplit.
    { rewrite Z.pow_add_r by lia. change (2 ^ 7) with 128. nia. }
    rewrite wrap_small, lor_disjoint by (try lia;
      unfold in_u; rewrite Z.shiftl_mul_pow2 by lia; split; nia).
    rewrite Hsplit, Z.add_assoc. apply (IH fuel); try lia; [done|].
    rewrite Z.pow_add_r by lia. change (2 ^ 7) with 128. nia.
  - injection Hbs as <-. rewrite <- (app_nil_r [z2b v]).
    eapply reads_bind; [apply reads_Fuint8|]. rewrite b2z_z2b, Z.mod_small by lia.
    rewrite (proj2 (Z.ltb_lt v 0x80)) by lia.
    rewrite wrap_small, lor_disjoint by (try lia;
      unfold in_u; rewrite Z.shiftl_mul_pow2 by lia; split; nia).
    intros ba f Hr He _. exists ba. rewrite Nat.add_0_r. split; [done|]. by destruct f.
Qed.

Lemma writes_reads_Uint32 e v :
  in_u 32 v → ∃ bs, (0 < length bs ≤ 5)%nat ∧
    writes e (writeUint32 v) bs ∧ reads e readUint32 bs v.
Proof.
  intros Hv. unfold in_u in Hv. destruct (varint_loop_spec 5 v) as (bs & Hbs & Hl); [cbn; lia|lia|].
  exists bs. split; [done|]. split.
  - eapply writes_lift; [done|]. apply writes_write.
  - pose proof (reads_varint_loop e 32 5 6 v bs 0 0 Hbs) as Hr.
    rewrite Z.mul_1_r, Z.add_0_l in Hr. apply Hr; lia.
Qed.

Lemma writes_reads_Uint64 e v :
  in_u 64 v → ∃ bs, (0 < length bs ≤ 10)%nat ∧
    writes e (writeUint64 v) bs ∧ reads e readUint64 bs v.
Proof.
  intros Hv. unfold in_u in Hv. destruct (varint_loop_spec 10 v) as (bs & Hbs & Hl); [cbn; lia|lia|].
  exists bs. split; [done|]. split.
  - eapply writes_lift; [done|]. apply writes_write.
  - pose proof (reads_varint_loop e 64 10 11 v bs 0 0 Hbs) as Hr.
    rewrite Z.mul_1_r, Z.add_0_l in Hr. apply Hr; lia.
Qed.

(** ** Zigzag *)

Lemma lxor_ones a w : 0 ≤ w → 0 ≤ a < 2 ^ w → Z.lxor a (Z.ones w) = 2 ^ w - 1 - a.
Proof.
  intros Hw Ha. rewrite Z.sub_1_r, <- Z.ones_equiv.
  assert (∀ i, w ≤ i → Z.testbit a i = false) as Hhigh.
  { intros i Hi. rewrite <- (Z.mod_small a (2 ^ w)) by done. apply Z.mod_pow2_bits_high. lia. }
  rewrite Z.sub_nocarry_ldiff; apply Z.bits_inj'; intros i Hi;
    rewrite ?Z.lxor_spec, !Z.ldiff_spec, ?Z.bits_0;
    (destruct (decide (i < w)); [rewrite Z.ones_spec_low by lia; by destruct (Z.testbit a i)|
       rewrite Z.ones_spec_high, Hhigh by lia; done]).
Qed.

Lemma zigzag_roundtrip w v z :
  1 < w → in_s w v → EncodeZigzag w v = Some z → in_u w z ∧ DecodeZigzag w z = v.
Proof.
  intros Hw Hv Henc. unfold EncodeZigzag, in_s in *. pose proof (pow2_half w).
  unfold DecodeZigzag. destruct (Z.ltb_spec v 0) as [Hneg|Hpos]; case_decide as Hd; try done;
    injection Henc as <-.
  - rewrite (wrap_small w (- v)) by (unfold in_u; lia).
    rewrite wrap_small by (unfold in_u; lia). split; [unfold in_u; lia|].
    rewrite Z.shiftr_div_pow2 by lia. change (2 ^ 1) with 2.
    replace ((- v * 2 - 1) / 2) with (- v - 1) by (Z.to_euclidean_division_equations; lia).
    change (Z.land ?a 1) with (Z.land a (Z.ones 1)). rewrite Z.land_ones by lia. change (2 ^ 1) with 2.
    replace ((- v * 2 - 1) mod 2) with 1 by (Z.to_euclidean_division_equations; lia).
    assert (wrap w (Z.opp 1) = Z.ones w) as ->.
    { unfold wrap. rewrite Z.ones_equiv.
      rewrite Z.mod_opp_l_nz; rewrite ?Z.mod_small; lia. }
    rewrite lxor_ones by lia. replace (2 ^ w - 1 - (- v - 1)) with (v + 1 * 2 ^ w) by lia.
    unfold swrap. rewrite Z.mod_add by lia. by apply (swrap_small w v); [lia|].
  - rewrite wrap_small by (unfold in_u; lia). split; [unfold in_u; lia|].
    rewrite Z.shiftr_div_pow2 by lia. change (2 ^ 1) with 2. rewrite Z.div_mul by lia.
    change (Z.land ?a 1) with (Z.land a (Z.ones 1)). rewrite Z.land_ones by lia. change (2 ^ 1) with 2.
    rewrite Z.mod_mul by lia. unfold wrap. cbn [Z.opp]. rewrite Z.mod_0_l, Z.lxor_0_r by lia.
    by apply swrap_small; [lia|].
Qed.

Lemma zigzag_overflow w v :
  1 < w → in_s w v →
  EncodeZigzag w v = None ↔ v = - 2 ^ (w - 1) ∨ 2 ^ (w - 2) ≤ v.
Proof.
  intros Hw Hv. unfold EncodeZigzag, in_s in *.
  pose proof (pow2_half (w - 1)) as Hp. replace (w - 1 - 1) with (w - 2) in Hp by lia.
  destruct (Z.ltb_spec v 0); case_decide; split; intros; try done; lia.
Qed.

Lemma writes_reads_Int32 e v :
  in_s 32 v → - 2 ^ 31 < v < 2 ^ 30 → ∃ bs, (0 < length bs ≤ 5)%nat ∧
    writes e (writeInt32 v) bs ∧ reads e readInt32 bs v.
Proof.
  intros Hv Hr. destruct (EncodeZigzag 32 v) as [z|] eqn:Hz.
  2: { apply zigzag_overflow in Hz; [|done..]. lia. }
  destruct (zigzag_roundtrip 32 v z) as [Hu Hd]; [done..|].
  destruct (writes_reads_Uint32 e z Hu) as (bs & Hl & Hw & Hrd). exists bs.
  split; [done|]. split; [by eapply writes_lift|]. by eapply reads_ret.
Qed.

Lemma writes_reads_Int64 e v :
  in_s 64 v → - 2 ^ 63 < v < 2 ^ 62 → ∃ bs, (0 < length bs ≤ 10)%nat ∧
    writes e (writeInt64 v) bs ∧ reads e readInt64 bs v.
Proof.
  intros Hv Hr. destruct (EncodeZigzag 64 v) as [z|] eqn:Hz.
  2: { apply zigzag_overflow in Hz; [|done..]. lia. }
  destruct (zigzag_roundtrip 64 v z) as [Hu Hd]; [done..|].
  destruct (writes_reads_Uint64 e z Hu) as (bs & Hl & Hw & Hrd). exists bs.
  split; [done|]. split; [by eapply writes_lift|]. by eapply reads_ret.
Qed.

(** ** Strings *)

Definition string16_bytes (e : Z) (s : list ascii) : list ascii :=
  fix_bytes e uint16_t (wrap 16 (size_of s)) ++ s.

Lemma swappable_uint16 : swappable uint16_t. Proof. by left. Qed.
Lemma swappable_uint32 : swappable uint32_t. Proof. by right; left. Qed.
Lemma swappable_uint64 : swappable uint64_t. Proof. by right; right. Qed.

Lemma writes_StringF16 e s : writes e (writeStringF16 s) (string16_bytes e s).
Proof. apply writes_bind; [apply writes_Fix, swappable_uint16|apply writes_write]. Qed.

Lemma reads_StringF16 e s :
  (0 < length s)%nat → size_of s < 2 ^ 16 → reads e readStringF16 (string16_bytes e s) s.
Proof.
  intros Hs Hl. assert (in_u 16 (size_of s)) by (unfold in_u, size_of in *; lia).
  unfold string16_bytes. rewrite wrap_small by done.
  eapply reads_bind; [by apply reads_Fix; [apply swappable_uint16|]|].
  apply reads_read. by destruct s; [simpl in Hs; lia|].
Qed.

End wire.

(** ** Messages: sequences of typed fields *)

Inductive kind :=
| Kint8 | Kuint8 | Kfix (T : ity) | Kint32 | Kuint32 | Kint64 | Kuint64
| Kfloat | Kdouble | KstringF16.

(** A field: a number for the numeric kinds, a string for the last. *)
Record value := Value { v_kind : kind; v_num : Z; v_str : list ascii }.

Section messages.
Context `{Alloc}.

Definition writeValue (v : value) : M t unit :=
  match v_kind v with
  | Kint8 => writeFint8 (v_num v)
  | Kuint8 => writeFuint8 (v_num v)
  | Kfix T => writeFix T (v_num v)
  | Kint32 => writeInt32 (v_num v)
  | Kuint32 => writeUint32 (v_num v)
  | Kint64 => writeInt64 (v_num v)
  | Kuint64 => writeUint64 (v_num v)
  | Kfloat => writeFloat (v_num v)
  | Kdouble => writeDouble (v_num v)
  | KstringF16 => writeStringF16 (v_str v)
  end.

Definition number (k : kind) (m : M t Z) : M t value := let! z := m in ret (Value k z []).

Definition readValue (k : kind) : M t value :=
  match k with
  | Kint8 => number k readFint8
  | Kuint8 => number k readFuint8
  | Kfix T => number k (readFix T)
  | Kint32 => number k readInt32
  | Kuint32 => number k readUint32
  | Kint64 => number k readInt64
  | Kuint64 => number k readUint64
  | Kfloat => number k readFloat
  | Kdouble => number k readDouble
  | KstringF16 => let! s := readStringF16 in ret (Value k 0 s)
  end.

Fixpoint writeAll (vs : list value) : M t unit :=
  match vs with
  | [] => ret tt
  | v :: vs => writeValue v;! writeAll vs
  end.

Fixpoint readAll (ks : list kind) : M t (list value) :=
  match ks with
  | [] => ret []
  | k :: ks => let! v := readValue k in let! vs := readAll ks in ret (v :: vs)
  end.

(** What a field may hold: the numbers of its type (minus the zigzag overflows)
    and the non-empty strings whose length fits the 16-bit prefix. *)
Definition value_ok (v : value) : Prop :=
  match v_kind v with
  | Kint8 => in_range int8_t (v_num v) ∧ v_str v = []
  | Kuint8 => in_u 8 (v_num v) ∧ v_str v = []
  | Kfix T => swappable T ∧ in_range T (v_num v) ∧ v_str v = []
  | Kint32 => - 2 ^ 31 < v_num v < 2 ^ 30 ∧ v_str v = []
  | Kuint32 | Kfloat => in_u 32 (v_num v) ∧ v_str v = []
  | Kint64 => - 2 ^ 63 < v_num v < 2 ^ 62 ∧ v_str v = []
  | Kuint64 | Kdouble => in_u 64 (v_num v) ∧ v_str v = []
  | KstringF16 => v_num v = 0 ∧ (0 < length (v_str v))%nat ∧ size_of (v_str v) < 2 ^ 16
  end.

(** An upper bound of the bytes a field takes. *)
Definition value_size (v : value) : nat := 10 + length (v_str v).
Definition sizes (vs : list value) : nat := list_sum (value_size <$> vs).

(** [v] is written as some [bs] that [readValue] turns back into [v]. *)
Definition on_wire (e : Z) (v : value) : Prop :=
  ∃ bs, (length bs ≤ value_size v)%nat ∧ writes e (writeValue v) bs ∧
    reads e (readValue (v_kind v)) bs v.

Lemma number_on_wire e k z (m : M t Z) w bs :
  (length bs ≤ 10)%nat → writes e w bs → reads e m bs z →
  writeValue (Value k z []) = w → readValue k = number k m → on_wire e (Value k z []).
Proof.
  intros Hl Hw Hr Ew Er. exists bs. cbn [v_kind]. rewrite Ew, Er. unfold value_size; cbn.
  split; [lia|]. split; [done|]. by eapply reads_ret.
Qed.

Lemma value_on_wire e v : value_ok v → on_wire e v.
Proof.
  destruct v as [k z s]. unfold value_ok; cbn [v_kind v_num v_str].
  destruct k as [| |T| | | | | | |].
  - intros [Hz ->]. eapply (number_on_wire e Kint8 z readFint8 _ (le_bytes 1 z));
      [simpl; lia|apply writes_write|by apply reads_Fint8|done..].
  - intros [Hz ->]. eapply (number_on_wire e Kuint8 z readFuint8 _ (le_bytes 1 z));
      [simpl; lia|apply writes_write| |done..]. cbn [le_bytes].
    pose proof (reads_Fuint8 e (z2b z)) as Hr. by rewrite b2z_z2b, Z.mod_small in Hr.
  - intros (HT & Hz & ->). eapply (number_on_wire e (Kfix T) z (readFix T) _ (fix_bytes e T z));
      [|by apply writes_Fix|by apply reads_Fix|done..].
    rewrite length_fix_bytes. destruct HT as [->|[->| ->]]; lia.
  - intros [Hz ->]. destruct (writes_reads_Int32 e z) as (bs & Hl & Hw & Hr); [unfold in_s; lia|done|].
    eapply (number_on_wire e Kint32 z readInt32 _ bs); [lia|done..].
  - intros [Hz ->]. destruct (writes_reads_Uint32 e z) as (bs & Hl & Hw & Hr); [done|].
    eapply (number_on_wire e Kuint32 z readUint32 _ bs); [lia|done..].
  - intros [Hz ->]. destruct (writes_reads_Int64 e z) as (bs & Hl & Hw & Hr); [unfold in_s; lia|done|].
    eapply (number_on_wire e Kint64 z readInt64 _ bs); [lia|done..].
  - intros [Hz ->]. destruct (writes_reads_Uint64 e z) as (bs & Hl & Hw & Hr); [done|].
    eapply (number_on_wire e Kuint64 z readUint64 _ bs); [lia|done..].
  - intros [Hz ->]. eapply (number_on_wire e Kfloat z readFloat _ (fix_bytes e uint32_t z));
      [by rewrite length_fix_bytes; simpl; lia|apply writes_Fix, swappable_uint32|
       by apply reads_Fix; [apply swappable_uint32|]|done..].
  - intros [Hz ->]. eapply (number_on_wire e Kdouble z readDouble _ (fix_bytes e uint64_t z));
      [by rewrite length_fix_bytes; simpl; lia|apply writes_Fix, swappable_uint64|
       by apply reads_Fix; [apply swappable_uint64|]|done..].
  - intros (-> & Hs & Hl). exists (string16_bytes e s). split.
    { unfold string16_bytes, value_size. rewrite length_app, length_fix_bytes. simpl. lia. }
    split; [apply writes_StringF16|]. by eapply reads_ret; [apply reads_StringF16|].
Qed.

Lemma message_on_wire e vs :
  Forall value_ok vs →
  ∃ bs, (length bs ≤ sizes vs)%nat ∧ writes e (writeAll vs) bs ∧
    reads e (readAll (v_kind <$> vs)) bs vs.
Proof.
  induction 1 as [|v vs Hv Hvs (bs2 & Hl2 & Hw2 & Hr2)].
  - exists []. split; [simpl; lia|]. split.
    + intros ba f Hr He _. exists ba. split_and!; try done; [|simpl; lia].
      unfold flat_write, splice; cbn. rewrite !Nat.add_0_r, take_drop. by destruct f.
    + intros ba f Hr He _. exists ba. rewrite Nat.add_0_r. split; [done|]. by destruct f.
  - destruct (value_on_wire e v Hv) as (bs1 & Hl1 & Hw1 & Hr1).
    exists (bs1 ++ bs2).
    change (sizes (v :: vs)) with (value_size v + sizes vs)%nat.
    split; [rewrite length_app; lia|].
    split; [by apply writes_bind|]. cbn [fmap list_fmap readAll].
    eapply reads_bind; [done|]. by eapply reads_ret.
Qed.

(** Back at the position it wrote at, [w]'s bytes are next to be read. *)
Lemma rewound e w bs ba f :
  writes e w bs → repr ba f → m_endian ba = e → fits ba (length bs) →
  ∃ ba1 ba2, w ba = Ret tt ba1 ∧ setPosition (m_position ba) ba1 = Ret tt ba2 ∧
    wf ba1 ∧ m_position ba1 = m_position ba + Z.of_nat (length bs) ∧
    repr ba2 (Flat (f_pos f) (f_data (flat_write bs f))) ∧ m_endian ba2 = e ∧
    bs `prefix_of` drop (f_pos f) (f_data (flat_write bs f)).
Proof.
  intros Hw Hr He Hfits. destruct (Hw ba f Hr He Hfits) as (ba1 & Hm1 & Hr1 & Hcf1 & Hp1).
  destruct (repr_length ba f Hr) as (_ & Hp & Hle & _).
  destruct (repr_length ba1 _ Hr1) as (Hl1 & Hp1' & Hle1 & _). simpl in Hp1', Hle1.
  pose proof (wf_size ba1 (proj1 Hr1)). pose proof (wf_pos ba1 (proj1 Hr1)).
  pose proof (wf_pos ba (proj1 Hr)).
  destruct (setPosition_refines ba1 _ (f_pos f) Hr1) as (ba2 & ext & Hm2 & Hr2 & Hcf2 & Hext & _);
    [lia|].
  replace ext with (@nil ascii) in Hr2 by (destruct ext; [done|simpl in *; lia]).
  rewrite app_nil_r in Hr2. exists ba1, ba2.
  replace (m_position ba) with (Z.of_nat (f_pos f)) at 1 by lia.
  split_and!; [done|done|apply Hr1|done|done|destruct Hcf1, Hcf2; congruence|].
  cbn. unfold splice. rewrite drop_app_length' by (rewrite length_take; lia).
  by apply prefix_app_r.
Qed.

Lemma rewind {A} e w r bs (a : A) ba f :
  writes e w bs → reads e r bs a → repr ba f → m_endian ba = e → fits ba (length bs) →
  ∃ ba1 ba2, w ba = Ret tt ba1 ∧ (setPosition (m_position ba);! r) ba1 = Ret a ba2 ∧
    wf ba1 ∧ repr ba2 (flat_write bs f) ∧ m_position ba2 = m_position ba1.
Proof.
  intros Hw Hrd Hr He Hfits.
  destruct (rewound e w bs ba f) as (ba1 & ba2 & Hm1 & Hm2 & Hw1 & Hp1 & Hr2 & He2 & Hpre);
    [done..|].
  destruct (Hrd ba2 _ Hr2 He2 Hpre) as (ba3 & Hm3 & Hr3 & _).
  exists ba1, ba3. rewrite (bind_Ret _ _ _ _ _ Hm2). split_and!; [done|done|done|done|].
  destruct (repr_length ba3 _ Hr3) as (_ & Hp3 & _). destruct (repr_length ba f Hr) as (_ & Hp & _).
  pose proof (wf_pos ba3 (proj1 Hr3)). pose proof (wf_pos ba (proj1 Hr)). simpl in Hp3. lia.
Qed.

(** *** The readers of the other string formats *)

Lemma le_bytes_app n m z : le_bytes (n + m) z = le_bytes n z ++ le_bytes m (z / 256 ^ Z.of_nat n).
Proof.
  revert z. induction n as [|n IH]; intros z; [by rewrite Z.div_1_r|].
  cbn [le_bytes Nat.add app]. rewrite IH, Nat2Z.inj_succ, Z.pow_succ_r, Z.div_div by lia. done.
Qed.

(** The two leading bytes of a big-endian 4-byte length below [2^16] are 0. *)
Lemma be_bytes_small z : in_u 16 z → be_bytes 4 z = ["000"%char; "000"%char] ++ be_bytes 2 z.
Proof.
  intros [H0 H1]. unfold be_bytes. rewrite (le_bytes_app 2 2 z : le_bytes 4 z = _), reverse_app.
  f_equal. change (256 ^ Z.of_nat 2) with 65536. change (2 ^ 16) with 65536 in H1.
  rewrite Z.div_small by lia. done.
Qed.

Lemma readStringF32_zero s ba f :
  repr ba f → m_endian ba = BOBLIEW_BIG_ENDIAN → (0 < length s)%nat → size_of s < 2 ^ 16 →
  fix_bytes BOBLIEW_BIG_ENDIAN uint32_t (size_of s) ++ s `prefix_of` drop (f_pos f) (f_data f) →
  ∃ ba', readStringF32 ba = Ret [] ba' ∧ m_position ba' = m_position ba + 2.
Proof.
  intros Hr He Hs Hl Hpre.
  assert (in_u 16 (size_of s)) as Hbe%be_bytes_small by (unfold in_u, size_of in *; lia).
  change (fix_bytes BOBLIEW_BIG_ENDIAN uint32_t (size_of s)) with (be_bytes 4 (size_of s)) in Hpre.
  rewrite Hbe in Hpre.
  destruct (reads_Fix BOBLIEW_BIG_ENDIAN uint16_t 0 swappable_uint16) with (ba:=ba) (f:=f)
    as (ba1 & Hm & Hr1 & _); [done|done|done| |].
  { etrans; [|exact Hpre]. rewrite <- (assoc_L (++)). by apply prefix_app_r. }
  destruct (repr_length ba f Hr) as (_ & Hp & Hle & _).
  destruct (repr_length ba1 _ Hr1) as (Hl1 & Hp1 & Hle1 & _).
  cbn [f_pos f_data] in Hl1, Hp1, Hle1. rewrite length_fix_bytes in Hp1, Hle1.
  pose proof (wf_pos ba (proj1 Hr)). pose proof (wf_pos ba1 (proj1 Hr1)).
  pose proof (wf_size ba1 (proj1 Hr1)). pose proof (wf_base ba1 (proj1 Hr1)).
  pose proof (wf_content ba1 (proj1 Hr1)).
  apply prefix_take_drop in Hpre as [[Hlen|Hnil] _].
  2: { apply (f_equal length) in Hnil. rewrite !length_app in Hnil. simpl in Hnil. lia. }
  rewrite !length_app, length_be_bytes in Hlen. cbn [length] in Hlen.
  exists ba1. unfold readStringF32, readFuint16. rewrite (bind_Ret _ _ _ _ _ Hm).
  split; [|cbn in Hp1; lia]. unfold read. rewrite wf_getReadSize by apply Hr1.
  cbn in Hp1.
  rewrite (proj2 (Z.ltb_ge _ _)), (proj2 (Z.eqb_neq _ _)) by lia.
  destruct (wf_cursor ba1 (Z.to_nat (m_position ba1)) (proj1 Hr1))
    as (B & c & i & node & _ & _ & _ & _ & _ & Hnd & _); [lia|lia|].
  by rewrite Hnd.
Qed.

End messages.

(** ** Properties *)

(** C30. Any sequence of the fields the readers can read - fixed-width integers and
    varints of every value, zigzag varints except the values for which the encoding
    overflows a signed integer (from 2^30 or 2^62 on, and the most negative one:
    [zigzag_overflow]), floats, and non-empty strings of less than 2^16 bytes with a
    16-bit prefix - written to an array and read back from the position it was
    written at, with the readers of the same kinds, comes back unchanged, in either
    byte order and across any chunk boundary.  An empty string is left out because
    reading no bytes at the end of the capacity fails, strings with the other
    prefixes because their readers expect a 16-bit one
    ([readStringF32_mismatch]). *)
Theorem message_roundtrip `{Alloc} (vs : list value) (ba : t) :
  wf ba → Forall value_ok vs → fits ba (sizes vs) →
  ∃ ba1 ba2, writeAll vs ba = Ret tt ba1 ∧
    (setPosition (m_position ba);! readAll (v_kind <$> vs)) ba1 = Ret vs ba2 ∧
    wf ba2 ∧ m_position ba2 = m_position ba1.
Proof.
  intros Hwf Hvs Hfits.
  destruct (message_on_wire (m_endian ba) vs Hvs) as (bs & Hl & Hw & Hr).
  destruct (rewind _ _ _ bs vs ba (abs ba) Hw Hr) as (ba1 & ba2 & H1 & H2 & Hw1 & Hr2 & Hp);
    [done|done|unfold fits in *; lia|].
  exists ba1, ba2. split_and!; [done|done|apply Hr2|done].
Qed.

Definition demo_fields : list value :=
  [Value (Kfix int32_t) (-5) []; Value Kuint64 300 []; Value Kint32 (-70000) [];
   Value Kint8 (-1) []; Value KstringF16 0 (String.list_ascii_of_string "hello")].

Lemma message_roundtrip_witness : ∃ ba1 ba2,
  writeAll (H:=zeroed) demo_fields full_array = Ret tt ba1 ∧
  (setPosition 4;! readAll (v_kind <$> demo_fields)) ba1 = Ret demo_fields ba2 ∧
  wf ba2 ∧ m_position ba2 = m_position ba1.
Proof.
  apply (message_roundtrip (H:=zeroed) demo_fields full_array).
  - exact full_array_wf.
  - repeat (apply Forall_cons; split); try apply Forall_nil;
      vm_compute; intuition (congruence || lia).
  - vm_compute. reflexivity.
Defined.

(** The varint of a 32-bit (64-bit) number never overruns the 5 (10) bytes
    of its buffer and is at least one byte. *)
Theorem varint_fits (v : Z) :
  (in_u 32 v → ∃ bs, varint_loop 5 v = Some bs ∧ (0 < length bs ≤ 5)%nat) ∧
  (in_u 64 v → ∃ bs, varint_loop 10 v = Some bs ∧ (0 < length bs ≤ 10)%nat).
Proof.
  split; intros [H0 H1]; apply varint_loop_spec; (lia || (cbn; lia)).
Qed.

Lemma varint_fits_witness :
  (in_u 32 4294967295 →
   ∃ bs, varint_loop 5 4294967295 = Some bs ∧ (0 < length bs ≤ 5)%nat) ∧
  (in_u 64 4294967295 →
   ∃ bs, varint_loop 10 4294967295 = Some bs ∧ (0 < length bs ≤ 10)%nat).
Proof. apply (varint_fits 4294967295). Defined.

(** Zigzag: encoding is undefined exactly for the most negative number and
    for the upper half of the positive ones, and otherwise decodes back. *)
Theorem zigzag_total (w v : Z) :
  w = 32 ∨ w = 64 → in_s w v →
  (EncodeZigzag w v = None ↔ v = - 2 ^ (w - 1) ∨ 2 ^ (w - 2) ≤ v) ∧
  ∀ z, EncodeZigzag w v = Some z → in_u w z ∧ DecodeZigzag w z = v.
Proof.
  intros Hw Hv. split; [apply zigzag_overflow; [lia|done]|].
  intros z. apply zigzag_roundtrip; [lia|done].
Qed.

Lemma zigzag_total_witness :
  (EncodeZigzag 32 (-3) = None ↔ -3 = - 2 ^ (32 - 1) ∨ 2 ^ (32 - 2) ≤ -3) ∧
  ∀ z, EncodeZigzag 32 (-3) = Some z → in_u 32 z ∧ DecodeZigzag 32 z = -3.
Proof.
  apply (zigzag_total 32 (-3)); [by left|]. vm_compute. split; congruence.
Defined.

(** [readStringF32] takes a 16-bit length: of a non-empty string shorter
    than 2^16 written by [writeStringF32] it returns the empty string and stops
    two bytes further, in the middle of the length. *)
Theorem readStringF32_mismatch `{Alloc} (s : list ascii) (ba : t) :
  wf ba → m_endian ba = BOBLIEW_BIG_ENDIAN → (0 < length s)%nat → size_of s < 2 ^ 16 →
  fits ba (4 + length s) →
  ∃ ba1 ba2, writeStringF32 s ba = Ret tt ba1 ∧
    (setPosition (m_position ba);! readStringF32) ba1 = Ret [] ba2 ∧
    m_position ba2 = m_position ba + 2.
Proof.
  intros Hwf He Hs Hl Hfits. set (bs := fix_bytes BOBLIEW_BIG_ENDIAN uint32_t (size_of s) ++ s).
  assert (writes BOBLIEW_BIG_ENDIAN (writeStringF32 s) bs) as Hw.
  { apply writes_bind; [|apply writes_write]. unfold writeFuint32.
    rewrite wrap_small by (unfold in_u, size_of in *; lia).
    apply writes_Fix, swappable_uint32. }
  destruct (rewound _ _ bs ba (abs ba) Hw) as (ba1 & ba2 & Hm1 & Hm2 & Hw1 & Hp1 & Hr2 & He2 & Hpre);
    [done|done|unfold bs; by rewrite length_app, length_fix_bytes|].
  destruct (readStringF32_zero s ba2 _ Hr2 He2 Hs Hl Hpre) as (ba3 & Hm3 & Hp3).
  exists ba1, ba3. rewrite (bind_Ret _ _ _ _ _ Hm2). split_and!; [done|done|].
  destruct (repr_length ba2 _ Hr2) as (_ & Hp2 & _). pose proof (wf_pos ba2 (proj1 Hr2)).
  pose proof (wf_pos ba Hwf). simpl in Hp2. lia.
Qed.

Lemma readStringF32_mismatch_witness : ∃ ba1 ba2,
  writeStringF32 (H:=zeroed) (String.list_ascii_of_string "abc") full_array = Ret tt ba1 ∧
  (setPosition 4;! readStringF32) ba1 = Ret [] ba2 ∧ m_position ba2 = 4 + 2.
Proof.
  apply (readStringF32_mismatch (H:=zeroed) (String.list_ascii_of_string "abc") full_array).
  - exact full_array_wf.
  - reflexivity.
  - vm_compute. lia.
  - vm_compute. reflexivity.
  - vm_compute. reflexivity.
Defined.

End Serial.
