(* ===== verification/Iovec.v ===== *)
(** * Scatter/gather I/O on a ByteArray

    [getWriteBuffers] and [getReadBuffers] (src/bobliew/bytearray.cc:508-603)
    hand out [iovec] arrays that the kernel fills or drains in order.  [scatter]
    is the kernel's side of [recvmsg]/[readv]; the buffers the two functions
    return cover a contiguous range of the flat buffer, so filling them and
    moving the cursor is a [flat_write]. *)

From S2P Require Import Prelude Endian Bytearray.
Import ByteArray.

Module Iovec.

(** The kernel stores [bs] in the buffers, in order; what does not fit is not
    stored. *)
Fixpoint scatter (vs : list iovec) (bs : list ascii) (nodes : list (list ascii))
    : list (list ascii) :=
  match vs with
  | [] => nodes
  | v :: vs =>
      let n := Z.to_nat (iov_len v) in
      scatter vs (drop n bs)
        (alter (splice (Z.to_nat (iov_off v)) (take n bs)) (iov_node v) nodes)
  end.

(** [vs] designates the [n] bytes from position [p] of nodes of [B] bytes. *)
Fixpoint contig (B p n : nat) (vs : list iovec) : Prop :=
  match vs with
  | [] => n = 0%nat
  | v :: vs =>
      ∃ c i l, v = Iov c (Z.of_nat i) (Z.of_nat l) ∧ p = (c * B + i)%nat ∧
        (0 < l ≤ B - i)%nat ∧ (l ≤ n)%nat ∧ contig B (p + l) (n - l) vs
  end.

Lemma buffers_loop_contig B fuel ba c i n acc :
  (0 < B)%nat → Forall (λ nd, length nd = B) (m_nodes ba) →
  (c < length (m_nodes ba))%nat → (i < B)%nat → (0 < n)%nat →
  (c * B + i + n ≤ B * length (m_nodes ba))%nat →
  (length (m_nodes ba) - c < fuel)%nat →
  ∃ vs,
    buffers_loop fuel (Some c) (Z.of_nat i) (Z.of_nat (B - i)) (Z.of_nat n) acc ba
    = Some (acc ++ vs) ∧ vs ≠ [] ∧ contig B (c * B + i) n vs.
Proof.
  intros HB HF. revert c i n acc.
  induction fuel as [|fuel IH]; intros c i n acc Hcn Hi Hn Hroom Hfuel; [lia|].
  cbn [buffers_loop]. rewrite (proj2 (Z.ltb_lt 0 _)) by lia. cbn [negb].
  destruct (Z.leb_spec (Z.of_nat n) (Z.of_nat (B - i))) as [Hle|Hgt].
  - destruct fuel as [|fuel]; [lia|]. cbn [buffers_loop negb Z.ltb Z.compare].
    eexists. split_and!; [done|done|]. exists c, i, n. split_and!; try done; cbn [contig]; lia.
  - assert (S c < length (m_nodes ba))%nat as HS by nia.
    rewrite next_lt by lia. cbn [node_at].
    destruct (lookup_lt_is_Some_2 (m_nodes ba) (S c)) as [node2 Hnode2]; [lia|].
    assert (length node2 = B) as Hlen2 by by apply (Forall_lookup_1 _ _ _ _ HF Hnode2).
    rewrite Hnode2.
    destruct (IH (S c) 0%nat (n - (B - i))%nat
      (acc ++ [Iov c (Z.of_nat i) (Z.of_nat (B - i))])) as (vs & Heq & _ & Hvs);
      [lia|lia|lia|nia|lia|].
    exists (Iov c (Z.of_nat i) (Z.of_nat (B - i)) :: vs). split_and!; [|done|].
    + etrans; [etrans; [|exact Heq]|]; [f_equal; lia|]. by rewrite <- (assoc_L (++)).
    + exists c, i, (B - i)%nat. split_and!; [done|done|lia|lia|lia|].
      by replace (c * B + i + (B - i))%nat with (S c * B + 0)%nat by lia.
Qed.

Lemma scatter_spec B p n vs bs nodes :
  (0 < B)%nat → contig B p n vs → (length bs ≤ n)%nat →
  Forall (λ nd, length nd = B) nodes → (p + n ≤ B * length nodes)%nat →
  concat (scatter vs bs nodes) = splice p bs (concat nodes) ∧
  Forall (λ nd, length nd = B) (scatter vs bs nodes) ∧
  length (scatter vs bs nodes) = length nodes.
Proof.
  intros HB. revert p n bs nodes.
  induction vs as [|v vs IH]; intros p n bs nodes Hc Hbs HF Hroom; cbn [contig scatter] in *.
  - destruct bs; [|simpl in *; lia]. split; [|done].
    unfold splice; simpl. by rewrite Nat.add_0_r, take_drop.
  - destruct Hc as (c & i & l & -> & -> & Hl & Hln & Hc). cbn [iov_node iov_off iov_len].
    rewrite !Nat2Z.id.
    destruct (lookup_lt_is_Some_2 nodes c) as [node Hnode]; [nia|].
    assert (alter (splice i (take l bs)) c nodes = <[c := splice i (take l bs) node]> nodes) as ->.
    { rewrite list_insert_alter. apply list_alter_ext; [|done].
      intros x Hx. by simplify_eq. }
    destruct (chunks_write B nodes c node i (take l bs)) as [Hcat HF']; [done|done| |].
    { rewrite length_take. lia. }
    set (nodes1 := <[c := splice i (take l bs) node]> nodes) in *.
    assert (length nodes1 = length nodes) as Hl1 by apply length_insert.
    destruct (IH (c * B + i + l)%nat (n - l)%nat (drop l bs) nodes1) as (H1 & H2 & H3);
      [done|rewrite length_drop; lia|done|lia|].
    split_and!; [|done|lia]. rewrite H1, Hcat.
    assert (c * B + i ≤ length (concat nodes))%nat
      by (rewrite (length_concat_chunks B) by done; lia).
    destruct (decide (l ≤ length bs)%nat) as [Hlb|Hlb].
    + rewrite <- (take_drop l bs) at 3. rewrite <- (splice_splice (c * B + i)) by done.
      do 2 f_equal. rewrite length_take. lia.
    + rewrite (drop_ge bs), (take_ge bs) by lia. unfold splice at 1. simpl.
      by rewrite Nat.add_0_r, take_drop.
Qed.

Lemma splice_nil {A} i (l : list A) : splice i [] l = l.
Proof. unfold splice; simpl. by rewrite Nat.add_0_r, take_drop. Qed.

Lemma scatter_nil vs nodes : scatter vs [] nodes = nodes.
Proof.
  revert nodes. induction vs as [|v vs IH]; intros nodes; [done|]. cbn [scatter].
  rewrite drop_nil, take_nil, IH. apply list_alter_id. intros. apply splice_nil.
Qed.

Section recv.
Context `{Alloc}.

(** [getWriteBuffers] hands out [n] contiguous bytes at the cursor. *)
Lemma getWriteBuffers_contig ba n :
  wf ba → (0 < n)%nat → fits ba n →
  ∃ B ba' vs, getWriteBuffers (Z.of_nat n) ba = Ret (vs, Z.of_nat n) ba' ∧ vs ≠ [] ∧
    wf ba' ∧ abs ba' = abs ba ∧ same_config ba ba' ∧ m_position ba' = m_position ba ∧
    m_baseSize ba' = Z.of_nat B ∧ (0 < B)%nat ∧ Forall (λ nd, length nd = B) (m_nodes ba') ∧
    (Z.to_nat (m_position ba) + n ≤ B * length (m_nodes ba'))%nat ∧
    contig B (Z.to_nat (m_position ba)) n vs.
Proof.
  intros Hwf Hn Hfits. unfold getWriteBuffers. rewrite (proj2 (Z.eqb_neq _ _)) by lia.
  destruct (addCapacity_spec n ba) as (extra & Hw & Hc & Hcap & Hp & Hs & Hcf & _); [done..|].
  set (ba1 := addCapacity (Z.of_nat n) ba) in *. pose proof (wf_base ba1 Hw).
  pose proof (wf_pos ba1 Hw). pose proof (wf_content ba1 Hw).
  rewrite (proj2 (Z.eqb_neq _ _)) by lia.
  destruct (wf_cursor ba1 (Z.to_nat (m_position ba1)) Hw)
    as (B & c & i & node & HB & Hb & HF & Hlen & Hcur & Hnd & Hcn & Hi & Hpos & Hmod & Hncap);
    [lia|lia|].
  destruct (buffers_loop_contig B (S (S (length (m_nodes ba1)))) ba1 c i n [])
    as (vs & Heq & Hne & Hvs); [done|done|lia|done|done|lia|lia|].
  rewrite Hnd, Hncap, Hcur, Hmod. rewrite Heq. exists B, ba1, vs.
  pose proof (wf_content ba Hwf). pose proof (wf_size ba Hwf). pose proof (wf_pos ba Hwf).
  split_and!; try done; [|lia|by rewrite <- Hp, Hpos].
  unfold abs. rewrite Hc, Hp, Hs, take_app_le by lia. done.
Qed.

(** Filling the handed-out buffers with [bs] and moving the cursor past them
    is a write of [bs]. *)
Lemma recv_refines ba f n bs :
  repr ba f → (0 < n)%nat → fits ba n → (length bs ≤ n)%nat →
  ∃ ba1 vs ba', getWriteBuffers (Z.of_nat n) ba = Ret (vs, Z.of_nat n) ba1 ∧ vs ≠ [] ∧
    m_position ba1 = m_position ba ∧
    setPosition (m_position ba + Z.of_nat (length bs))
      (set_nodes (scatter vs bs (m_nodes ba1)) ba1) = Ret tt ba' ∧
    repr ba' (flat_write bs f) ∧ same_config ba ba' ∧
    m_position ba' = m_position ba + Z.of_nat (length bs).
Proof.
  intros [Hwf <-] Hn Hfits Hbs.
  destruct (getWriteBuffers_contig ba n) as
    (B & ba1 & vs & Heq & Hne & Hw1 & Ha1 & Hcf1 & Hp1 & Hb1 & HB & HF & Hroom & Hc); [done..|].
  destruct (scatter_spec B _ n vs bs (m_nodes ba1) HB Hc Hbs HF Hroom) as (Hcat & HF' & Hl').
  set (ba2 := set_nodes (scatter vs bs (m_nodes ba1)) ba1).
  assert (wf ba2) as Hw2.
  { destruct Hw1. split; unfold ba2, curr_at in *; cbn in *; rewrite ?Hl'; try done.
    eapply Forall_impl; [exact HF'|]. cbn. lia. }
  pose proof (wf_pos ba Hwf). pose proof (wf_size ba Hwf). pose proof (wf_content ba1 Hw1) as Hcap.
  pose proof (wf_pos ba1 Hw1). pose proof (wf_size ba1 Hw1).
  assert (length (content ba1) = (B * length (m_nodes ba1))%nat) as Hcl
    by (apply length_concat_chunks; done).
  destruct (setPosition_refines ba2 (abs ba2) (Z.to_nat (m_position ba) + length bs))
    as (ba' & ext & Hm & [Hw3 Ha3] & [Hcf3 Hcf3'] & Hext & _ & Hdata3); [done|cbn; lia|].
  exists ba1, vs, ba'. split_and!; try done.
  - etrans; [|exact Hm]. f_equal. lia.
  - split; [done|]. rewrite Ha3, Hdata3. injection Ha1 as _ Hdata.
    assert (m_size ba1 = m_size ba) as Hs1.
    { pose proof (f_equal length Hdata) as Hl. rewrite !length_take in Hl.
      pose proof (wf_content ba Hwf). lia. }
    unfold flat_write, abs; cbn [f_pos f_data]. f_equal. rewrite <- Hdata, Hs1.
    rewrite <- (take_splice _ (Z.to_nat (m_size ba)) bs (content ba1) []) by (simpl; lia).
    rewrite app_nil_r. change (content ba2) with (concat (scatter vs bs (m_nodes ba1))).
    rewrite Hcat. f_equal. fold (content ba1). rewrite length_take, length_splice by lia. change (m_size ba2) with (m_size ba1). rewrite Hs1. lia.
  - destruct Hcf1. split; cbn in *; congruence.
  - apply (f_equal f_pos) in Ha3. cbn in Ha3. pose proof (wf_pos ba' Hw3). lia.
Qed.

(** [getReadBuffers] designates the readable bytes; the kernel may take any
    number of them, and moving the cursor past those is a flat read. *)
Lemma send_refines ba f k :
  repr ba f → (k ≤ length (f_data f) - f_pos f)%nat →
  ∃ ba', setPosition (m_position ba + Z.of_nat k) ba = Ret tt ba' ∧
    repr ba' (Flat (f_pos f + k) (f_data f)) ∧ same_config ba ba' ∧
    m_position ba' = m_position ba + Z.of_nat k.
Proof.
  intros Hr Hk. destruct (repr_length ba f Hr) as (Hl & Hp & Hle & _).
  pose proof (wf_pos ba (proj1 Hr)). pose proof (wf_size ba (proj1 Hr)).
  destruct (setPosition_refines ba f (f_pos f + k) Hr) as (ba' & ext & Hm & Hr' & Hcf & Hext & _);
    [lia|].
  exists ba'. destruct ext; [|simpl in Hext; lia]. rewrite app_nil_r in Hr'.
  split_and!; [|done|done|].
  - etrans; [|exact Hm]. f_equal. lia.
  - destruct (repr_length ba' _ Hr') as (_ & Hp' & _). pose proof (wf_pos ba' (proj1 Hr')).
    simpl in Hp'. lia.
Qed.

End recv.

End Iovec.
