(* ===== verification/Stream.v ===== *)
(** * Streams (src/bobliew/stream.{h,cc}, src/bobliew/streams/socket_stream.cc)

    [Stream] is the abstract class: what a stream can do, as operations on the
    state [W] of the stream and of the peer behind it.  [StreamLaws] is the
    contract the comments of stream.h state (a positive result is the number of
    bytes moved, in order; zero means closed; negative an error).  The loops of
    stream.cc are proved against that contract, and [SocketStream] implements
    it over any socket layer that delivers bytes in order. *)

From S2P Require Import Prelude Endian Bytearray Iovec.

(** [read(buf, n)] returns its result and the bytes stored in [buf]; [write]
    takes the bytes; the [_ba] versions move bytes from and to a ByteArray. *)
Class Stream (W : Type) := {
  s_read : Z → M W (Z * list ascii);
  s_read_ba : Z → M (W * ByteArray.t) Z;
  s_write : list ascii → M W Z;
  s_write_ba : Z → M (W * ByteArray.t) Z;
  s_close : M W unit
}.

(** What a peer sees: the bytes still to arrive and the bytes already sent. *)
Class StreamLaws (W : Type) `{Stream W} := {
  incoming : W → list ascii;
  outgoing : W → list ascii;
  read_law n w : 0 < n → ∃ rt bs w', s_read n w = Ret (rt, bs) w' ∧ rt ≤ n ∧
    length bs = Z.to_nat rt ∧ incoming w = bs ++ incoming w' ∧ outgoing w' = outgoing w;
  read_ba_law n w ba f : (0 < n)%nat → ByteArray.repr ba f → ByteArray.fits ba n →
    ∃ rt bs w' ba', s_read_ba (Z.of_nat n) (w, ba) = Ret rt (w', ba') ∧ rt ≤ Z.of_nat n ∧
      length bs = Z.to_nat rt ∧ incoming w = bs ++ incoming w' ∧ outgoing w' = outgoing w ∧
      ByteArray.repr ba' (ByteArray.flat_write bs f) ∧ ByteArray.same_config ba ba' ∧
      ByteArray.m_position ba' = ByteArray.m_position ba + Z.of_nat (length bs);
  write_law bs w : bs ≠ [] → ∃ rt w', s_write bs w = Ret rt w' ∧
    rt ≤ Z.of_nat (length bs) ∧ incoming w' = incoming w ∧
    outgoing w' = outgoing w ++ take (Z.to_nat rt) bs
}.

Module StreamOps.

Section operations.
Context {W : Type} `{Stream W}.

(** [Stream::readFixSize(void*, size_t)]: each round of the loop moves at
    least one byte, so [length] rounds are enough. *)
Fixpoint readFixSize_loop (fuel : nat) (length left : Z) (acc : list ascii)
    : M W (Z * list ascii) :=
  match fuel with
  | O => ub
  | S fuel =>
      if negb (0 <? left) then ret (cast int32_t length, acc)
      else
        let! (len, bs) := s_read left in
        if len <=? 0 then ret (len, acc ++ bs)
        else readFixSize_loop fuel length (left - len) (acc ++ bs)
  end.

Definition readFixSize (length : Z) : M W (Z * list ascii) :=
  readFixSize_loop (S (Z.to_nat length)) length (cast int64_t length) [].

(** [Stream::readFixSize(ByteArray::ptr, size_t)]. *)
Fixpoint readFixSize_ba_loop (fuel : nat) (length left : Z) : M (W * ByteArray.t) Z :=
  match fuel with
  | O => ub
  | S fuel =>
      if negb (0 <? left) then ret (cast int32_t length)
      else
        let! len := s_read_ba left in
        if len <=? 0 then ret len
        else readFixSize_ba_loop fuel length (left - len)
  end.

Definition readFixSize_ba (length : Z) : M (W * ByteArray.t) Z :=
  readFixSize_ba_loop (S (Z.to_nat length)) length (cast int64_t length).

(** [Stream::writeFixSize(const void*, size_t)], [length] that of [buffer]. *)
Fixpoint writeFixSize_loop (fuel : nat) (buffer : list ascii) (offset : nat) (left : Z)
    : M W Z :=
  match fuel with
  | O => ub
  | S fuel =>
      if negb (0 <? left) then ret (cast int32_t (Z.of_nat (length buffer)))
      else
        let! len := s_write (take (Z.to_nat left) (drop offset buffer)) in
        if len <=? 0 then ret len
        else writeFixSize_loop fuel buffer (offset + Z.to_nat len) (left - len)
  end.

Definition writeFixSize (buffer : list ascii) : M W Z :=
  writeFixSize_loop (S (length buffer)) buffer 0 (cast int64_t (Z.of_nat (length buffer))).

(** [Stream::writeFixSize(ByteArray::ptr, size_t)]: the loop runs while [left]
    is negative; with the result of a [write] subtracted each round it ends
    when [left] is no longer negative. *)
Fixpoint writeFixSize_ba_loop (fuel : nat) (length left : Z) : M (W * ByteArray.t) Z :=
  match fuel with
  | O => ub
  | S fuel =>
      if negb (left <? 0) then ret (cast int32_t length)
      else
        let! len := s_write_ba left in
        if len <=? 0 then ret len
        else writeFixSize_ba_loop fuel length (left - len)
  end.

Definition writeFixSize_ba (fuel : nat) (length : Z) : M (W * ByteArray.t) Z :=
  writeFixSize_ba_loop fuel length (cast int64_t length).

End operations.

(** ** The loops against the contract *)

Section laws.
Context {W : Type} `{StreamLaws W}.

(** Reads of at most [n] bytes together, each of which brings some: they bring [bs]. *)
Inductive arrived : Z → W → list ascii → W → Prop :=
| arrived_none n w : arrived n w [] w
| arrived_more n w rt bs w1 bs' w2 : 0 < rt → s_read n w = Ret (rt, bs) w1 →
    arrived (n - rt) w1 bs' w2 → arrived n w (bs ++ bs') w2.

(** Of [n] bytes asked for [bs] have come, then a read of the rest fails or meets
    the end of the stream. *)
Definition cut_short (n : Z) (w : W) (bs : list ascii) (w' : W) : Prop :=
  ∃ w1 rt bs', arrived n w bs w1 ∧ 0 < n - Z.of_nat (length bs) ∧
    s_read (n - Z.of_nat (length bs)) w1 = Ret (rt, bs') w' ∧ rt ≤ 0.

(** The outcome of a fixed-size transfer of [n] bytes of which [k] moved. *)
Definition all_or_stopped (n : Z) (k : nat) (rt : Z) : Prop :=
  (rt = n ∧ Z.of_nat k = n) ∨ (rt ≤ 0 ∧ Z.of_nat k < n).

Lemma readFixSize_loop_spec fuel n left acc w :
  Z.of_nat (length acc) + left = n → 0 ≤ left → 0 ≤ n < 2 ^ 31 → (Z.to_nat left < fuel)%nat →
  ∃ rt bs w', readFixSize_loop fuel n left acc w = Ret (rt, acc ++ bs) w' ∧
    incoming w = bs ++ incoming w' ∧ outgoing w' = outgoing w ∧
    all_or_stopped n (length (acc ++ bs)) rt.
Proof.
  revert left acc w. induction fuel as [|fuel IH]; intros left acc w Hsum Hl Hn Hf; [lia|].
  cbn [readFixSize_loop]. destruct (Z.ltb_spec 0 left) as [Hlt|Hge]; cbn [negb].
  - destruct (read_law left w Hlt) as (rt & bs & w1 & Hm & Hrt & Hlen & Hin & Hout).
    rewrite (bind_Ret _ _ _ _ _ Hm). destruct (Z.leb_spec rt 0) as [Hle|Hgt].
    + exists rt, bs, w1. split_and!; [done|done|done|]. right. rewrite length_app. lia.
    + destruct (IH (left - rt) (acc ++ bs) w1) as (rt' & bs' & w2 & Hm2 & Hin2 & Hout2 & Hall);
        [rewrite length_app; lia|lia|lia|lia|].
      exists rt', (bs ++ bs'), w2. rewrite Hm2, Hin, Hin2, !(assoc_L (++)).
      split_and!; [done|done|congruence|done].
  - exists n, [], w. rewrite app_nil_r. split_and!; [|done|done|left; lia].
    unfold ret. do 2 f_equal. apply cast_small; [cbn; lia|].
    change (- 2 ^ 31 ≤ n < 2 ^ 31). lia.
Qed.

(** A fixed-size read that does not bring everything was cut short. *)
Lemma readFixSize_loop_cut fuel n left acc w rt out w' :
  readFixSize_loop fuel n left acc w = Ret (rt, out) w' → 0 ≤ n < 2 ^ 31 → rt ≤ 0 → 0 < n →
  ∃ bs, out = acc ++ bs ∧ cut_short left w bs w'.
Proof.
  revert left acc w. induction fuel as [|fuel IH]; intros left acc w Hr Hn Hrt Hpos; [done|].
  cbn [readFixSize_loop] in Hr. destruct (Z.ltb_spec 0 left) as [Hlt|Hge]; cbn [negb] in Hr.
  - destruct (read_law left w Hlt) as (len & bs & w1 & Hm & Hlen & Hbs & Hin & Hout).
    rewrite (bind_Ret _ _ _ _ _ Hm) in Hr. destruct (Z.leb_spec len 0) as [Hle|Hgt].
    + injection Hr as <- <- <-. assert (bs = []) as -> by (apply length_zero_iff_nil; lia).
      exists []. split; [done|]. exists w, len, []. cbn. rewrite Z.sub_0_r. split_and!; [constructor|lia|done|lia].
    + destruct (IH _ _ _ Hr Hn Hrt Hpos) as (bs' & -> & w2 & rt2 & bs2 & Ha & Hl & Hread & Hrt2).
      exists (bs ++ bs'). split; [by rewrite (assoc_L (++))|]. exists w2, rt2, bs2. rewrite length_app.
      replace (left - Z.of_nat (length bs + length bs')) with (left - len - Z.of_nat (length bs')) by lia.
      split_and!; [by apply (arrived_more left w len bs w1 bs' w2 Hgt Hm Ha)|lia|done|done].
  - injection Hr as <- <- <-. rewrite cast_small in Hrt; [lia|cbn; lia|]. change (- 2 ^ 31 ≤ n < 2 ^ 31). lia.
Qed.


Lemma readFixSize_ba_loop_spec fuel n left w ba f :
  ByteArray.repr ba f → 0 ≤ left ≤ n → n < 2 ^ 31 → (Z.to_nat left < fuel)%nat →
  ByteArray.fits ba (Z.to_nat left) →
  ∃ rt bs w' ba', readFixSize_ba_loop fuel n left (w, ba) = Ret rt (w', ba') ∧
    incoming w = bs ++ incoming w' ∧ outgoing w' = outgoing w ∧
    ByteArray.repr ba' (ByteArray.flat_write bs f) ∧ ByteArray.same_config ba ba' ∧
    (rt = n ∧ Z.of_nat (length bs) = left ∨ rt ≤ 0 ∧ Z.of_nat (length bs) < left).
Proof.
  revert left w ba f. induction fuel as [|fuel IH]; intros left w ba f Hr Hl Hn Hf Hfits; [lia|].
  cbn [readFixSize_ba_loop]. destruct (Z.ltb_spec 0 left) as [Hlt|Hge]; cbn [negb].
  - destruct (read_ba_law (Z.to_nat left) w ba f) as
      (rt & bs & w1 & ba1 & Hm & Hrt & Hlen & Hin & Hout & Hr1 & [Hb1 He1] & Hp1); [lia|done|done|].
    rewrite Z2Nat.id in Hm by lia. rewrite (bind_Ret _ _ _ _ _ Hm).
    destruct (Z.leb_spec rt 0) as [Hle|Hgt].
    + exists rt, bs, w1, ba1. split_and!; [done|done|done|done|done|]. right. lia.
    + destruct (IH (left - rt) w1 ba1 (ByteArray.flat_write bs f))
        as (rt' & bs' & w2 & ba2 & Hm2 & Hin2 & Hout2 & Hr2 & [Hb2 He2] & Hall);
        [done|lia|lia|lia|unfold ByteArray.fits in *; lia|].
      destruct (ByteArray.repr_length ba f Hr) as (_ & _ & Hpf & _).
      rewrite ByteArray.flat_write_app in Hr2 by done.
      exists rt', (bs ++ bs'), w2, ba2. rewrite Hm2, Hin, Hin2, !(assoc_L (++)), length_app.
      split_and!; [done|done|congruence|done|split; congruence|lia].
  - exists n, [], w, ba. split_and!; [|done|done| |done|left; simpl; lia].
    + unfold ret. f_equal. apply cast_small; [cbn; lia|]. change (- 2 ^ 31 ≤ n < 2 ^ 31). lia.
    + unfold ByteArray.flat_write, splice; cbn. rewrite !Nat.add_0_r, take_drop. by destruct f.
Qed.

Lemma writeFixSize_loop_spec fuel buffer offset left w :
  Z.of_nat offset + left = Z.of_nat (length buffer) → 0 ≤ left →
  Z.of_nat (length buffer) < 2 ^ 31 → (Z.to_nat left < fuel)%nat →
  ∃ rt k w', writeFixSize_loop fuel buffer offset left w = Ret rt w' ∧
    incoming w' = incoming w ∧ outgoing w' = outgoing w ++ take k (drop offset buffer) ∧
    (k ≤ Z.to_nat left)%nat ∧ all_or_stopped (Z.of_nat (length buffer)) (offset + k) rt.
Proof.
  revert offset left w. induction fuel as [|fuel IH]; intros offset left w Hsum Hl Hn Hf; [lia|].
  cbn [writeFixSize_loop]. destruct (Z.ltb_spec 0 left) as [Hlt|Hge]; cbn [negb].
  - rewrite take_ge by (rewrite length_drop; lia).
    destruct (write_law (drop offset buffer) w) as (rt & w1 & Hm & Hrt & Hin & Hout).
    { intros E. apply (f_equal length) in E. rewrite length_drop in E. simpl in E. lia. }
    rewrite length_drop in Hrt.
    rewrite (bind_Ret _ _ _ _ _ Hm). destruct (Z.leb_spec rt 0) as [Hle|Hgt].
    + exists rt, (Z.to_nat rt), w1. split_and!; [done|done|done|lia|]. right. lia.
    + destruct (IH (offset + Z.to_nat rt)%nat (left - rt) w1)
        as (rt' & k & w2 & Hm2 & Hin2 & Hout2 & Hk & Hall); [lia|lia|lia|lia|].
      exists rt', (Z.to_nat rt + k)%nat, w2. split_and!; [done|congruence| |lia|].
      * rewrite Hout2, Hout, <- (assoc_L (++)). f_equal.
        rewrite (take_drop_split offset (Z.to_nat rt) (Z.to_nat rt + k)) by lia.
        do 2 f_equal. lia.
      * by rewrite Nat.add_assoc.
  - exists (Z.of_nat (length buffer)), 0%nat, w. rewrite take_0, app_nil_r, Nat.add_0_r.
    split_and!; [|done|done|lia|left; lia].
    unfold ret. f_equal. apply cast_small; [cbn; lia|].
    change (- 2 ^ 31 ≤ Z.of_nat (length buffer) < 2 ^ 31). lia.
Qed.

Lemma cast_int64_small n : 0 ≤ n < 2 ^ 31 → cast int64_t n = n.
Proof. intros. apply cast_small; [cbn; lia|]. apply in_range_int64. lia. Qed.

End laws.

End StreamOps.

(** ** Sockets as the stream sees them

    [Net] is the socket layer below [Socket::send] and [Socket::recv]: the
    connection flag and the system calls. *)
Class Net (N : Type) := {
  isConnected : N → bool;
  sys_recv : Z → N → Z * list ascii * N;
  sys_send : list ascii → N → Z * N;
  sys_close : N → N
}.

(** The documented behaviour of [recv] and [send] on a stream socket. *)
Class NetLaws (N : Type) `{Net N} := {
  n_incoming : N → list ascii;
  n_outgoing : N → list ascii;
  recv_law len s rt bs s' : 0 < len → sys_recv len s = (rt, bs, s') →
    rt ≤ len ∧ length bs = Z.to_nat rt ∧ n_incoming s = bs ++ n_incoming s' ∧
    n_outgoing s' = n_outgoing s;
  send_law bs s rt s' : bs ≠ [] → sys_send bs s = (rt, s') →
    rt ≤ Z.of_nat (length bs) ∧ n_incoming s' = n_incoming s ∧
    n_outgoing s' = n_outgoing s ++ take (Z.to_nat rt) bs
}.

Module Socket.
Section operations.
Context {N : Type} `{Net N}.

(** [Socket::recv(void*, size_t)] and [Socket::send(const void*, size_t)]. *)
Definition recv (length : Z) (s : N) : Z * list ascii * N :=
  if isConnected s then sys_recv length s else (-1, [], s).
Definition send (buffer : list ascii) (s : N) : Z * N :=
  if isConnected s then sys_send buffer s else (-1, s).

(** [Socket::recv(iovec*, size_t)]: [recvmsg] receives up to the total length
    of the buffers and stores the bytes in them in order. *)
Definition iov_total (vs : list ByteArray.iovec) : Z :=
  foldr (λ v z, ByteArray.iov_len v + z) 0 vs.

Definition recv_iov (buffers : list ByteArray.iovec) (s : N) (ba : ByteArray.t)
    : Z * N * ByteArray.t :=
  if isConnected s then
    let '(rt, bs, s') := sys_recv (iov_total buffers) s in
    (rt, s', ByteArray.set_nodes (Iovec.scatter buffers bs (ByteArray.m_nodes ba)) ba)
  else (-1, s, ba).

(** [Socket::send(const iovec*, size_t)]: [sendmsg] of the gathered bytes. *)
Definition send_iov (buffers : list ByteArray.iovec) (s : N) (ba : ByteArray.t) : Z * N :=
  if isConnected s then sys_send (concat (ByteArray.iov_bytes ba <$> buffers)) s else (-1, s).

End operations.
End Socket.

Module SocketStream.

Record t (N : Type) := mk { m_socket : option N; m_owner : bool }.
#[global] Arguments mk {N} m_socket m_owner.
#[global] Arguments m_socket {N}.
#[global] Arguments m_owner {N}.

Section operations.
Context {N : Type} `{Net N} `{Alloc}.

Definition connected (st : t N) : bool :=
  match m_socket st with Some s => isConnected s | None => false end.

(** Runs [k] on the socket when the stream is connected; otherwise the result
    is [-1] and nothing happens. *)
Definition with_socket {S A} (st : t N) (s : S) (none : A) (k : N → outcome S A) : outcome S A :=
  match m_socket st with
  | Some n => if isConnected n then k n else Ret none s
  | None => Ret none s
  end.

Definition read (length : Z) : M (t N) (Z * list ascii) := λ st,
  with_socket st st (-1, []) (λ n,
    let '(rt, bs, n') := Socket.recv length n in
    Ret (rt, bs) (mk (Some n') (m_owner st))).

Definition write (buffer : list ascii) : M (t N) Z := λ st,
  with_socket st st (-1) (λ n,
    let '(rt, n') := Socket.send buffer n in
    Ret rt (mk (Some n') (m_owner st))).

(** [&iovs[0]] of an empty vector is undefined. *)
Definition read_ba (length : Z) : M (t N * ByteArray.t) Z := λ '(st, ba),
  with_socket st (st, ba) (-1) (λ n,
    match ByteArray.getWriteBuffers length ba with
    | Ret ([], _) _ | UB => UB
    | Throw e ba => Throw e (st, ba)
    | Ret (iovs, _) ba =>
        let '(rt, n', ba) := Socket.recv_iov iovs n ba in
        let st := mk (Some n') (m_owner st) in
        if 0 <? rt then
          match ByteArray.setPosition (ByteArray.m_position ba + rt) ba with
          | Ret _ ba => Ret rt (st, ba)
          | Throw e ba => Throw e (st, ba)
          | UB => UB
          end
        else Ret rt (st, ba)
    end).

Definition write_ba (length : Z) : M (t N * ByteArray.t) Z := λ '(st, ba),
  with_socket st (st, ba) (-1) (λ n,
    match ByteArray.getReadBuffers length ba with
    | None | Some ([], _) => UB
    | Some (iovs, _) =>
        let '(rt, n') := Socket.send_iov iovs n ba in
        let st := mk (Some n') (m_owner st) in
        if 0 <? rt then
          match ByteArray.setPosition (ByteArray.m_position ba + rt) ba with
          | Ret _ ba => Ret rt (st, ba)
          | Throw e ba => Throw e (st, ba)
          | UB => UB
          end
        else Ret rt (st, ba)
    end).

Definition close : M (t N) unit := λ st,
  match m_socket st with
  | Some n => Ret tt (mk (Some (sys_close n)) (m_owner st))
  | None => Ret tt st
  end.

(** [~SocketStream]. *)
Definition destroy (st : t N) : t N :=
  match m_socket st with
  | Some n => if m_owner st then mk (Some (sys_close n)) true else st
  | None => st
  end.

#[export] Instance socket_stream : Stream (t N) := {
  s_read := read; s_read_ba := read_ba; s_write := write; s_write_ba := write_ba;
  s_close := close
}.

End operations.

Section laws.
Context {N : Type} `{NetLaws N} `{Alloc}.

Definition in_of (st : t N) : list ascii :=
  match m_socket st with Some n => n_incoming n | None => [] end.
Definition out_of (st : t N) : list ascii :=
  match m_socket st with Some n => n_outgoing n | None => [] end.

Lemma iov_total_contig B p n vs : Iovec.contig B p n vs → Socket.iov_total vs = Z.of_nat n.
Proof.
  revert p n. induction vs as [|v vs IH]; intros p n Hc; [by cbn in *; subst|].
  destruct Hc as (c & i & l & -> & _ & _ & Hl & Hc). apply IH in Hc.
  unfold Socket.iov_total in *. simpl. lia.
Qed.

Lemma read_socket n st :
  0 < n → ∃ rt bs st', read n st = Ret (rt, bs) st' ∧ rt ≤ n ∧ length bs = Z.to_nat rt ∧
    in_of st = bs ++ in_of st' ∧ out_of st' = out_of st.
Proof.
  intros Hn. unfold read, with_socket, Socket.recv, in_of, out_of.
  destruct (m_socket st) as [s|] eqn:Hs;
    [|eexists _, _, st; rewrite Hs; split_and!; done || lia].
  destruct (isConnected s) eqn:Hc; [|eexists _, _, st; rewrite Hs; split_and!; done || lia].
  destruct (sys_recv n s) as [[rt bs] s'] eqn:Hr.
  destruct (recv_law n s rt bs s' Hn Hr) as (H1' & H2' & H3' & H4'). by eexists rt, bs, _.
Qed.

Lemma write_socket bs st :
  bs ≠ [] → ∃ rt st', write bs st = Ret rt st' ∧ rt ≤ Z.of_nat (length bs) ∧
    in_of st' = in_of st ∧ out_of st' = out_of st ++ take (Z.to_nat rt) bs.
Proof.
  intros Hb. unfold write, with_socket, Socket.send, in_of, out_of.
  destruct (m_socket st) as [s|] eqn:Hs;
    [|eexists _, st; rewrite Hs; split_and!; done || lia].
  destruct (isConnected s) eqn:Hc;
    [|eexists _, st; rewrite Hs; split_and!; [done|lia|done|by rewrite app_nil_r]].
  destruct (sys_send bs s) as [rt s'] eqn:Hr.
  destruct (send_law bs s rt s' Hb Hr) as (H1' & H2' & H3'). by eexists rt, _.
Qed.

Lemma read_ba_socket n st ba f :
  (0 < n)%nat → ByteArray.repr ba f → ByteArray.fits ba n →
  ∃ rt bs st' ba', read_ba (Z.of_nat n) (st, ba) = Ret rt (st', ba') ∧ rt ≤ Z.of_nat n ∧
    length bs = Z.to_nat rt ∧ in_of st = bs ++ in_of st' ∧ out_of st' = out_of st ∧
    ByteArray.repr ba' (ByteArray.flat_write bs f) ∧ ByteArray.same_config ba ba' ∧
    ByteArray.m_position ba' = ByteArray.m_position ba + Z.of_nat (length bs).
Proof.
  intros Hn Hr Hfits. unfold read_ba, with_socket, in_of, out_of.
  assert (ByteArray.flat_write [] f = f) as Hnil.
  { unfold ByteArray.flat_write, splice; cbn. rewrite !Nat.add_0_r, take_drop. by destruct f. }
  destruct (m_socket st) as [s|] eqn:Hs;
    [|eexists _, [], st, ba; rewrite Hs, Hnil; split_and!; try done; simpl; lia].
  destruct (isConnected s) eqn:Hc;
    [|eexists _, [], st, ba; rewrite Hs, Hnil; split_and!; try done; simpl; lia].
  destruct (sys_recv (Z.of_nat n) s) as [[rt bs] s'] eqn:Hrecv.
  destruct (recv_law (Z.of_nat n) s rt bs s' ltac:(lia) Hrecv) as (H1' & H2' & H3' & H4').
  destruct (Iovec.recv_refines ba f n bs) as
    (ba1 & vs & ba' & Hw & Hne & Hp1 & Hset & Hr' & Hcf & Hp'); [done|done|done|lia|].
  destruct (Iovec.getWriteBuffers_contig ba n) as
    (B & ba1' & vs' & Hw' & _ & Hw1 & Ha1 & Hcf1 & Hp1' & _ & _ & _ & _ & Hcon);
    [apply Hr|done|done|].
  rewrite Hw in Hw'. injection Hw' as <- <-. rewrite Hw.
  pose proof (iov_total_contig _ _ _ _ Hcon) as Htot.
  destruct vs as [|v vs]; [done|]. unfold Socket.recv_iov. rewrite Hc, Htot, Hrecv.
  cbn [ByteArray.m_position ByteArray.set_nodes].
  destruct (Z.ltb_spec 0 rt) as [Hpos|Hneg].
  - assert (Z.of_nat (length bs) = rt) as Hbl by lia. rewrite Hbl in Hset, Hp'.
    rewrite Hp1, Hset. eexists rt, bs, _, ba'. by rewrite Hbl.
  - destruct bs; [|simpl in *; lia].
    eexists rt, [], _, _. rewrite Hnil. split_and!; try done; [|simpl; lia].
    rewrite Iovec.scatter_nil. split; [by destruct ba1|]. rewrite <- (proj2 Hr), <- Ha1.
    by destruct ba1.
Qed.

#[export] Instance socket_stream_laws : StreamLaws (t N) := {
  incoming := in_of; outgoing := out_of; read_law := read_socket;
  read_ba_law := read_ba_socket; write_law := write_socket
}.

(** What [write_ba] sends is a prefix of the readable bytes, and the cursor
    moves past exactly that prefix. *)
Lemma write_ba_socket n st ba f :
  0 < n → ByteArray.repr ba f → (ByteArray.f_pos f < length (ByteArray.f_data f))%nat →
  ∃ rt k st' ba', write_ba n (st, ba) = Ret rt (st', ba') ∧ k = Z.to_nat rt ∧
    Z.of_nat k ≤ n ∧ in_of st' = in_of st ∧
    out_of st' = out_of st ++ take k (drop (ByteArray.f_pos f) (ByteArray.f_data f)) ∧
    ByteArray.repr ba' (ByteArray.Flat (ByteArray.f_pos f + k) (ByteArray.f_data f)).
Proof.
  intros Hn Hr Hlt. unfold write_ba, with_socket, in_of, out_of.
  assert (∃ rt k st' ba', @Ret (t N * ByteArray.t) Z (-1) (st, ba) = Ret rt (st', ba') ∧
    k = Z.to_nat rt ∧ Z.of_nat k ≤ n ∧ in_of st' = in_of st ∧
    out_of st' = out_of st ++ take k (drop (ByteArray.f_pos f) (ByteArray.f_data f)) ∧
    ByteArray.repr ba' (ByteArray.Flat (ByteArray.f_pos f + k) (ByteArray.f_data f))) as Hfail.
  { exists (-1), 0%nat, st, ba. rewrite take_0, app_nil_r, Nat.add_0_r.
    split_and!; try done; [lia|]. by destruct f. }
  unfold in_of, out_of in Hfail.
  destruct (m_socket st) as [s|] eqn:Hs; [|exact Hfail].
  destruct (isConnected s) eqn:Hc; [|exact Hfail]. clear Hfail.
  destruct (ByteArray.getReadBuffers_spec ba n) as (vs & Hvs & Hbytes); [apply Hr|lia|].
  rewrite Hvs. destruct (ByteArray.repr_length ba f Hr) as (Hl & Hp & Hle & _).
  assert (ByteArray.readable ba = drop (ByteArray.f_pos f) (ByteArray.f_data f)) as Hrd.
  { destruct Hr as [Hwf <-]. pose proof (ByteArray.wf_pos ba Hwf). unfold ByteArray.readable; cbn.
    rewrite take_drop_commute. do 2 f_equal. lia. }
  rewrite Hrd in Hbytes.
  assert (concat (ByteArray.iov_bytes ba <$> vs) ≠ []) as Hne.
  { rewrite Hbytes. intros E. apply (f_equal length) in E.
    rewrite length_take, length_drop in E. simpl in E. lia. }
  destruct vs as [|v vs']; [done|]. unfold Socket.send_iov. rewrite Hc.
  destruct (sys_send (concat (ByteArray.iov_bytes ba <$> v :: vs')) s) as [rt s'] eqn:Hsend.
  destruct (send_law _ s rt s' Hne Hsend) as (H1' & H2' & H3').
  rewrite Hbytes, length_take, length_drop in H1'. rewrite Hbytes, take_take in H3'.
  destruct (Z.ltb_spec 0 rt) as [Hpos|Hneg].
  - destruct (Iovec.send_refines ba f (Z.to_nat rt) Hr) as (ba' & Hset & Hr' & _); [lia|].
    rewrite Z2Nat.id in Hset by lia. rewrite Hset.
    eexists rt, _, _, ba'. split_and!; [done|done|lia|done| |done]. cbn.
    rewrite H3'. do 2 f_equal. lia.
  - eexists rt, _, _, ba. split_and!; [done|done|lia|done| |].
    + cbn. rewrite H3'. do 2 f_equal. lia.
    + replace (Z.to_nat rt) with 0%nat by lia. rewrite Nat.add_0_r. by destruct f.
Qed.

End laws.

End SocketStream.

(** ** A concrete connection: bytes arrive and leave at most [p_chunk] at a
    time *)
Module Pipe.

Record t := mk { p_in : list ascii; p_out : list ascii; p_chunk : nat; p_open : bool }.

Definition recv (len : Z) (p : t) : Z * list ascii * t :=
  let n := ((Z.to_nat len `min` p_chunk p) `min` length (p_in p))%nat in
  (Z.of_nat n, take n (p_in p), mk (drop n (p_in p)) (p_out p) (p_chunk p) (p_open p)).
Definition send (bs : list ascii) (p : t) : Z * t :=
  let n := (p_chunk p `min` length bs)%nat in
  (Z.of_nat n, mk (p_in p) (p_out p ++ take n bs) (p_chunk p) (p_open p)).

#[global] Instance pipe_net : Net t := {
  isConnected := p_open; sys_recv := recv; sys_send := send;
  sys_close p := mk (p_in p) (p_out p) (p_chunk p) false
}.

#[global, refine] Instance pipe_laws : NetLaws t := {
  n_incoming := p_in; n_outgoing := p_out
}.
Proof.
  - intros len s rt bs s' Hlen Hrecv. injection Hrecv as <- <- <-.
    cbn [p_in p_out]. rewrite take_drop, length_take, Nat2Z.id. split_and!; try done; lia.
  - intros bs s rt s' _ Hsend. injection Hsend as <- <-. cbn [p_in p_out].
    rewrite Nat2Z.id. split_and!; try done; lia.
Defined.

Definition demo : SocketStream.t t :=
  SocketStream.mk (Some (mk (String.list_ascii_of_string "hello world") [] 3 true)) true.

End Pipe.

(** ** Properties *)
Module StreamSpec.
Import StreamOps.

(** [readFixSize] always ends: it returns [length] exactly when it stored
    the next [length] bytes of the stream, in order; otherwise a result [<= 0]
    after a strict prefix. *)
Theorem readFixSize_correct {W} `{StreamLaws W} (n : Z) (w : W) :
  0 ≤ n < 2 ^ 31 →
  ∃ rt bs w', readFixSize n w = Ret (rt, bs) w' ∧
    incoming w = bs ++ incoming w' ∧ outgoing w' = outgoing w ∧
    all_or_stopped n (length bs) rt.
Proof.
  intros Hn. unfold readFixSize. rewrite cast_int64_small by done.
  destruct (readFixSize_loop_spec (S (Z.to_nat n)) n n [] w)
    as (rt & bs & w' & Hm & Hin & Hout & Hall); [simpl; lia..|].
  by exists rt, bs, w'.
Qed.

Lemma readFixSize_correct_witness : ∃ rt bs w',
  readFixSize (H:=SocketStream.socket_stream (H0:=ByteArray.zeroed)) 8 Pipe.demo
    = Ret (rt, bs) w' ∧
  SocketStream.in_of Pipe.demo = bs ++ SocketStream.in_of w' ∧
  SocketStream.out_of w' = SocketStream.out_of Pipe.demo ∧
  all_or_stopped 8 (length bs) rt.
Proof.
  apply (readFixSize_correct
    (H0:=SocketStream.socket_stream_laws (H1:=ByteArray.zeroed)) 8 Pipe.demo). lia.
Defined.

(** [readFixSize] into a ByteArray appends the received bytes at the cursor
    as one [write] would, whatever way they arrived split. *)
Theorem readFixSize_ba_correct {W} `{StreamLaws W} (n : Z) (w : W) (ba : ByteArray.t) :
  0 ≤ n < 2 ^ 31 → ByteArray.wf ba → ByteArray.fits ba (Z.to_nat n) →
  ∃ rt bs w' ba', readFixSize_ba n (w, ba) = Ret rt (w', ba') ∧
    incoming w = bs ++ incoming w' ∧ outgoing w' = outgoing w ∧
    ByteArray.wf ba' ∧ ByteArray.abs ba' = ByteArray.flat_write bs (ByteArray.abs ba) ∧
    all_or_stopped n (length bs) rt.
Proof.
  intros Hn Hwf Hfits. unfold readFixSize_ba. rewrite cast_int64_small by done.
  destruct (readFixSize_ba_loop_spec (S (Z.to_nat n)) n n w ba (ByteArray.abs ba))
    as (rt & bs & w' & ba' & Hm & Hin & Hout & [Hwf' Ha'] & _ & Hall); [done|lia|lia|lia|done|].
  exists rt, bs, w', ba'. by split_and!.
Qed.

Lemma readFixSize_ba_correct_witness : ∃ rt bs w' ba',
  readFixSize_ba (H:=SocketStream.socket_stream (H0:=ByteArray.zeroed)) 8
    (Pipe.demo, ByteArray.sample_array) = Ret rt (w', ba') ∧
  SocketStream.in_of Pipe.demo = bs ++ SocketStream.in_of w' ∧
  SocketStream.out_of w' = SocketStream.out_of Pipe.demo ∧
  ByteArray.wf ba' ∧
  ByteArray.abs ba' = ByteArray.flat_write bs (ByteArray.abs ByteArray.sample_array) ∧
  all_or_stopped 8 (length bs) rt.
Proof.
  apply (readFixSize_ba_correct
    (H0:=SocketStream.socket_stream_laws (H1:=ByteArray.zeroed)) 8 Pipe.demo
    ByteArray.sample_array).
  - lia.
  - exact ByteArray.sample_array_wf.
  - vm_compute. reflexivity.
Defined.

(** [writeFixSize] of a buffer sends a prefix of it, all of it exactly when
    it returns the buffer's length. *)
Theorem writeFixSize_correct {W} `{StreamLaws W} (buffer : list ascii) (w : W) :
  Z.of_nat (length buffer) < 2 ^ 31 →
  ∃ rt k w', writeFixSize buffer w = Ret rt w' ∧
    incoming w' = incoming w ∧ outgoing w' = outgoing w ++ take k buffer ∧
    all_or_stopped (Z.of_nat (length buffer)) k rt.
Proof.
  intros Hn. unfold writeFixSize. rewrite cast_int64_small by lia.
  destruct (writeFixSize_loop_spec (S (length buffer)) buffer 0 (Z.of_nat (length buffer)) w)
    as (rt & k & w' & Hm & Hin & Hout & _ & Hall); [lia..|].
  by exists rt, k, w'.
Qed.

Lemma writeFixSize_correct_witness : ∃ rt k w',
  writeFixSize (H:=SocketStream.socket_stream (H0:=ByteArray.zeroed))
    (String.list_ascii_of_string "ping!") Pipe.demo = Ret rt w' ∧
  SocketStream.in_of w' = SocketStream.in_of Pipe.demo ∧
  SocketStream.out_of w'
    = SocketStream.out_of Pipe.demo ++ take k (String.list_ascii_of_string "ping!") ∧
  all_or_stopped 5 k rt.
Proof.
  apply (writeFixSize_correct
    (H0:=SocketStream.socket_stream_laws (H1:=ByteArray.zeroed))
    (String.list_ascii_of_string "ping!") Pipe.demo).
  vm_compute. reflexivity.
Defined.

(** The ByteArray version of [writeFixSize] tests [left < 0]: for every
    length it reports that all bytes were written and writes none. *)
Theorem writeFixSize_ba_writes_nothing {W} `{Stream W} (fuel : nat) (n : Z) (w : W)
    (ba : ByteArray.t) :
  (0 < fuel)%nat → 0 ≤ n < 2 ^ 31 → writeFixSize_ba fuel n (w, ba) = Ret n (w, ba).
Proof.
  intros Hf Hn. destruct fuel as [|fuel]; [lia|]. unfold writeFixSize_ba.
  cbn [writeFixSize_ba_loop]. rewrite cast_int64_small by done.
  rewrite (proj2 (Z.ltb_ge _ _)) by lia. cbn [negb]. unfold ret. f_equal.
  apply cast_small; [cbn; lia|]. change (- 2 ^ 31 ≤ n < 2 ^ 31). lia.
Qed.

Lemma writeFixSize_ba_writes_nothing_witness :
  writeFixSize_ba (H:=SocketStream.socket_stream (H0:=ByteArray.zeroed)) 1 5
    (Pipe.demo, ByteArray.sample_array) = Ret 5 (Pipe.demo, ByteArray.sample_array).
Proof.
  apply (writeFixSize_ba_writes_nothing
    (H:=SocketStream.socket_stream (H0:=ByteArray.zeroed)) 1 5 Pipe.demo
    ByteArray.sample_array); lia.
Defined.

(** [SocketStream::write(ByteArray)] sends a prefix of the readable bytes
    and advances the cursor past exactly what was sent. *)
Theorem socket_write_ba_correct {N} `{NetLaws N} `{Alloc} (n : Z) (st : SocketStream.t N)
    (ba : ByteArray.t) :
  0 < n → ByteArray.wf ba → ByteArray.m_position ba < ByteArray.m_size ba →
  ∃ rt st' ba', SocketStream.write_ba n (st, ba) = Ret rt (st', ba') ∧ rt ≤ n ∧
    SocketStream.in_of st' = SocketStream.in_of st ∧
    SocketStream.out_of st' = SocketStream.out_of st
      ++ take (Z.to_nat rt) (ByteArray.readable ba) ∧
    ByteArray.wf ba' ∧
    ByteArray.f_data (ByteArray.abs ba') = ByteArray.f_data (ByteArray.abs ba) ∧
    ByteArray.m_position ba' = ByteArray.m_position ba + 0 `max` rt.
Proof.
  intros Hn Hwf Hlt. pose proof (ByteArray.wf_pos ba Hwf).
  destruct (ByteArray.repr_length ba (ByteArray.abs ba)) as (Hl & Hp & _); [done|].
  destruct (SocketStream.write_ba_socket n st ba (ByteArray.abs ba))
    as (rt & k & st' & ba' & Hm & -> & Hk & Hin & Hout & [Hwf' Ha']); [done|done|lia|].
  exists rt, st', ba'. split_and!; [done|lia|done| |done|by rewrite Ha'|].
  - rewrite Hout. do 2 f_equal. unfold ByteArray.readable, ByteArray.abs; cbn.
    rewrite take_drop_commute. do 2 f_equal. lia.
  - apply (f_equal ByteArray.f_pos) in Ha'. cbn in Ha'.
    pose proof (ByteArray.wf_pos ba' Hwf'). lia.
Qed.

Lemma socket_write_ba_correct_witness : ∃ rt st' ba',
  SocketStream.write_ba 4 (Pipe.demo, ByteArray.sample_array) = Ret rt (st', ba') ∧ rt ≤ 4 ∧
  SocketStream.in_of st' = SocketStream.in_of Pipe.demo ∧
  SocketStream.out_of st' = SocketStream.out_of Pipe.demo
    ++ take (Z.to_nat rt) (ByteArray.readable ByteArray.sample_array) ∧
  ByteArray.wf ba' ∧
  ByteArray.f_data (ByteArray.abs ba')
    = ByteArray.f_data (ByteArray.abs ByteArray.sample_array) ∧
  ByteArray.m_position ba' = ByteArray.m_position ByteArray.sample_array + 0 `max` rt.
Proof.
  apply (socket_write_ba_correct (H1:=ByteArray.zeroed) 4 Pipe.demo ByteArray.sample_array).
  - lia.
  - exact ByteArray.sample_array_wf.
  - vm_compute. reflexivity.
Defined.

End StreamSpec.
