(* ===== verification/Zlib.v ===== *)
(** * ZlibStream (src/bobliew/streams/zlib_stream.{h,cc})

    The compressing and decompressing stream: a vector of fixed-size output
    buffers filled by zlib.  zlib itself is a parameter ([Codec]): one call of
    [deflate] or [inflate] takes the flush mode, the input left and the room in
    the output buffer, and gives its return code, the bytes stored, the input
    not consumed and its next state.  [CodecLaws] is what zlib.h documents of
    that call. *)

From S2P Require Import Prelude Endian Bytearray.

Class Codec (Zs : Type) := {
  deflate : Z → list ascii → nat → Zs → Z * list ascii * list ascii * Zs;
  inflate : Z → list ascii → nat → Zs → Z * list ascii * list ascii * Zs;
  deflateEnd : Zs → Zs;
  inflateEnd : Zs → Zs
}.

Module ZlibStream.

(** zlib.h *)
Definition Z_OK : Z := 0.
Definition Z_STREAM_ERROR : Z := -2.
Definition Z_NO_FLUSH : Z := 0.
Definition Z_FINISH : Z := 4.

(** An [iovec] of [m_buffs] is its first [iov_len] bytes. *)
Record t (Zs : Type) := mk {
  m_zstream : Zs;
  m_buffSize : nat;
  m_encode : bool;
  m_free : bool;
  m_buffs : list (list ascii)
}.
#[global] Arguments mk {Zs}.
#[global] Arguments m_zstream {Zs}.
#[global] Arguments m_buffSize {Zs}.
#[global] Arguments m_encode {Zs}.
#[global] Arguments m_free {Zs}.
#[global] Arguments m_buffs {Zs}.

Section operations.
Context {Zs : Type} `{Codec Zs}.

Definition set_zstream (z : Zs) (st : t Zs) : t Zs :=
  mk z (m_buffSize st) (m_encode st) (m_free st) (m_buffs st).
Definition set_buffs (bs : list (list ascii)) (st : t Zs) : t Zs :=
  mk (m_zstream st) (m_buffSize st) (m_encode st) (m_free st) bs.

(** A fresh stream around an initialised [z_stream]. *)
Definition new (z : Zs) (encode : bool) (buff_size : nat) : t Zs :=
  mk z buff_size encode true [].

(** The buffer to write to: the last one unless it is full, else a new one. *)
Definition pick_buffer (st : t Zs) : list (list ascii) * list ascii :=
  match last (m_buffs st) with
  | Some b =>
      if decide (length b = m_buffSize st) then (m_buffs st, [])
      else (take (length (m_buffs st) - 1) (m_buffs st), b)
  | None => (m_buffs st, [])
  end.

(** The [do ... while(avail_out == 0)] loop for one input buffer; [None] in the
    result is [Z_OK] so far, [Some ret] an early return. *)
Fixpoint out_loop (fuel : nat) (f : list ascii → nat → Zs → Z * list ascii * list ascii * Zs)
    (inp : list ascii) (st : t Zs) : option (option Z * t Zs) :=
  match fuel with
  | O => None
  | S fuel =>
      let '(full, ivc) := pick_buffer st in
      let room := (m_buffSize st - length ivc)%nat in
      let '(ret, out, rest, z) := f inp room (m_zstream st) in
      let st := set_zstream z st in
      if ret =? Z_STREAM_ERROR then Some (Some ret, set_buffs (full ++ [ivc]) st)
      else
        let st := set_buffs (full ++ [ivc ++ out]) st in
        if decide (length out = room) then out_loop fuel f rest st
        else Some (None, st)
  end.

(** [encode] and [decode] differ only in the zlib functions they call. *)
Definition code (fuel : nat) (f : Z → list ascii → nat → Zs → Z * list ascii * list ascii * Zs)
    (fin : Zs → Zs) (finish : bool) : list (list ascii) → t Zs → option (Z * t Zs) :=
  fix go v st :=
    match v with
    | [] => Some (Z_OK, st)
    | inp :: v =>
        let flush := if finish then (match v with [] => Z_FINISH | _ => Z_NO_FLUSH end)
                     else Z_NO_FLUSH in
        '(r, st) ← out_loop fuel (f flush) inp st;
        match r with
        | Some ret => Some (ret, st)
        | None =>
            match v with
            | [] => Some (Z_OK, if flush =? Z_FINISH then set_zstream (fin (m_zstream st)) st else st)
            | _ => go v st
            end
        end
    end.

Definition encode (fuel : nat) (v : list (list ascii)) (finish : bool) (st : t Zs) :=
  code fuel deflate deflateEnd finish v st.
Definition decode (fuel : nat) (v : list (list ascii)) (finish : bool) (st : t Zs) :=
  code fuel inflate inflateEnd finish v st.

Definition run (fuel : nat) (v : list (list ascii)) (finish : bool) (st : t Zs)
    : option (Z * t Zs) :=
  if m_encode st then encode fuel v finish st else decode fuel v finish st.

(** [write(const void*, size_t)]. *)
Definition write (fuel : nat) (buffer : list ascii) (st : t Zs) : option (Z * t Zs) :=
  run fuel [buffer] false st.

(** [write(ByteArray::ptr, size_t)]: the buffers [getReadBuffers] designates;
    [&buffers[0]] of none is undefined. *)
Definition write_ba (fuel : nat) (ba : ByteArray.t) (length : Z) (st : t Zs)
    : option (Z * t Zs) :=
  '(buffers, _) ← ByteArray.getReadBuffers length ba;
  match buffers with
  | [] => None
  | _ => run fuel (ByteArray.iov_bytes ba <$> buffers) false st
  end.

(** [read] of either kind. *)
Definition read : M (t Zs) Z := throw logic_error.

Definition flush (fuel : nat) (st : t Zs) : option (Z * t Zs) := run fuel [[]] true st.
Definition close (fuel : nat) (st : t Zs) : option (t Zs) := '(_, st) ← flush fuel st; Some st.

Definition getResult (st : t Zs) : list ascii := concat (m_buffs st).

Fixpoint write_buffs `{Alloc} (bufs : list (list ascii)) : M ByteArray.t unit :=
  match bufs with
  | [] => ret tt
  | b :: bufs => ByteArray.write b;! write_buffs bufs
  end.

(** [getByteArray]: the default ByteArray holds 4096 bytes per node. *)
Definition getByteArray `{Alloc} (st : t Zs) : outcome ByteArray.t unit :=
  (write_buffs (m_buffs st);! ByteArray.setPosition 0) (ByteArray.new 4096).

End operations.

(** What zlib.h says of one call: it stores at most [room] bytes; after
    [Z_STREAM_ERROR] it has stored none; and a stream that keeps filling its
    output buffers makes progress ([todo] bounds what is left to output). *)
Class CodecLaws (Zs : Type) `{Codec Zs} := {
  emitted : Zs → list ascii;
  todo : Zs → Z → list ascii → nat;
  call_law (enc : bool) fl inp room z ret out rest z' :
    (if enc then deflate else inflate) fl inp room z = (ret, out, rest, z') →
    (length out ≤ room)%nat ∧ emitted z' = emitted z ++ out ∧
    (ret = Z_STREAM_ERROR → out = []) ∧
    (room ≠ 0%nat → length out = room → (todo z' fl rest < todo z fl inp)%nat);
  end_law z : emitted (deflateEnd z) = emitted z ∧ emitted (inflateEnd z) = emitted z
}.

Section laws.
Context {Zs : Type} `{CodecLaws Zs}.

(** Every buffer but the last is full, none is overfull. *)
Definition packed (n : nat) (bufs : list (list ascii)) : Prop :=
  Forall (λ b, length b ≤ n)%nat bufs ∧
  Forall (λ b, length b = n) (take (length bufs - 1) bufs).

(** The invariant: the buffers are packed and hold what zlib has emitted. *)
Definition ok (st : t Zs) : Prop :=
  (0 < m_buffSize st)%nat ∧ packed (m_buffSize st) (m_buffs st) ∧
  getResult st = emitted (m_zstream st).

Lemma packed_snoc n full b :
  Forall (λ b', length b' = n) full → (length b ≤ n)%nat → packed n (full ++ [b]).
Proof.
  intros Hf Hb. unfold packed. rewrite length_app. cbn.
  replace (length full + 1 - 1)%nat with (length full) by lia. rewrite take_app_length. split.
  - apply Forall_app. split; [eapply Forall_impl; [exact Hf|]; simpl; lia|]. by constructor.
  - done.
Qed.

Lemma pick_buffer_spec (st : t Zs) full ivc :
  (0 < m_buffSize st)%nat → packed (m_buffSize st) (m_buffs st) → pick_buffer st = (full, ivc) →
  Forall (λ b, length b = m_buffSize st) full ∧ (length ivc < m_buffSize st)%nat ∧
  concat full ++ ivc = getResult st.
Proof.
  intros Hn [Hle Hfull]. unfold pick_buffer, getResult.
  destruct (last (m_buffs st)) as [b|] eqn:Hlast.
  - apply last_Some in Hlast as [l Hl]. rewrite Hl in *. rewrite length_app in *. cbn in *.
    replace (length l + 1 - 1)%nat with (length l) in * by lia. rewrite take_app_length in *.
    apply Forall_app in Hle as [_ Hb]. apply Forall_cons in Hb as [Hb _].
    case_decide; intros E; injection E as <- <-.
    + split_and!; [|cbn; lia|by rewrite app_nil_r]. apply Forall_app. split; [done|].
      by constructor.
    + rewrite concat_app. cbn. rewrite app_nil_r. split_and!; [done|simpl in Hb; lia|done].
  - apply last_None in Hlast. rewrite Hlast. intros E; injection E as <- <-.
    split_and!; [done|cbn; lia|done].
Qed.

Lemma out_loop_spec enc fl fuel inp st :
  ok st → (todo (m_zstream st) fl inp < fuel)%nat →
  ∃ r st', out_loop fuel ((if enc : bool then deflate else inflate) fl) inp st = Some (r, st') ∧
    ok st' ∧ (r = None ∨ r = Some Z_STREAM_ERROR) ∧
    m_buffSize st' = m_buffSize st ∧ m_encode st' = m_encode st.
Proof.
  revert inp st. induction fuel as [|fuel IH]; intros inp st (Hn & Hp & Hres) Hf; [lia|].
  cbn [out_loop]. destruct (pick_buffer st) as [full ivc] eqn:Hpick.
  destruct (pick_buffer_spec st full ivc Hn Hp Hpick) as (Hfull & Hivc & Hcat).
  destruct ((if enc then deflate else inflate) fl inp (m_buffSize st - length ivc)%nat (m_zstream st))
    as [[[ret out] rest] z'] eqn:Hcall.
  destruct (call_law enc _ _ _ _ _ _ _ _ Hcall) as (Hroom & Hem & Herr & Hprog).
  destruct (Z.eqb_spec ret Z_STREAM_ERROR) as [Hr|Hr].
  - rewrite (Herr Hr), app_nil_r in Hem. eexists _, _. split_and!; [done| |right; by rewrite Hr|done|done].
    split_and!; cbn; [done|apply packed_snoc; [done|lia]|].
    unfold getResult; cbn. rewrite concat_app; cbn. by rewrite app_nil_r, Hcat, Hres.
  - set (st1 := set_buffs (full ++ [ivc ++ out]) (set_zstream z' st)).
    assert (ok st1) as Hok1.
    { split_and!; cbn; [done|apply packed_snoc; [done|rewrite length_app; lia]|].
      unfold getResult; cbn. rewrite concat_app; cbn.
      by rewrite app_nil_r, (assoc_L (++)), Hcat, Hres, Hem. }
    case_decide as Hd.
    + destruct (IH rest st1 Hok1) as (r & st2 & Hl & Hok2 & Hr2 & Hb2 & He2).
      { cbn. specialize (Hprog ltac:(lia) Hd). lia. }
      exists r, st2. by rewrite Hl.
    + eexists _, st1. split_and!; [done|done|by left|done|done].
Qed.

Lemma code_spec enc fuel finish v st :
  ok st → (∀ z fl inp, inp ∈ v → todo z fl inp < fuel)%nat →
  ∃ r st', code fuel (if enc : bool then deflate else inflate)
      (if enc then deflateEnd else inflateEnd) finish v st = Some (r, st') ∧
    ok st' ∧ (r = Z_OK ∨ r = Z_STREAM_ERROR) ∧ m_buffSize st' = m_buffSize st ∧
    m_encode st' = m_encode st.
Proof.
  revert st. induction v as [|inp v IH]; intros st Hok Hfuel.
  { eexists _, st. split_and!; [done|done|by left|done|done]. }
  cbn [code]. set (flush := if finish then _ else _).
  destruct (out_loop_spec enc flush fuel inp st Hok) as (r & st1 & Hl & Hok1 & Hr & Hb & He).
  { apply Hfuel. left. }
  rewrite Hl. cbn.
  destruct Hr as [-> | ->].
  2: { eexists _, st1. split_and!; [done|done|by right|done|done]. }
  destruct v as [|inp2 v].
  - eexists _, _. split_and!; [done| |by left| |]; [|destruct (_ =? _); done|destruct (_ =? _); done].
    destruct (_ =? _); [|done]. destruct Hok1 as (Hn1 & Hp1 & Hres1). split_and!; [done|done|].
    cbn. destruct (end_law (m_zstream st1)) as [E1 E2].
    unfold getResult in *; cbn. rewrite Hres1. destruct enc; congruence.
  - destruct (IH st1 Hok1) as (r2 & st2 & Hc & Hok2 & Hr2 & Hb2 & He2).
    { intros. apply Hfuel. by right. }
    exists r2, st2. split_and!; [exact Hc|done|done|congruence|congruence].
Qed.

Lemma run_spec fuel finish v st :
  ok st → (∀ z fl inp, inp ∈ v → todo z fl inp < fuel)%nat →
  ∃ r st', run fuel v finish st = Some (r, st') ∧ ok st' ∧
    (r = Z_OK ∨ r = Z_STREAM_ERROR) ∧ m_buffSize st' = m_buffSize st ∧ m_encode st' = m_encode st.
Proof.
  intros Hok Hf. unfold run. destruct (m_encode st) eqn:He.
  - destruct (code_spec true fuel finish v st Hok Hf) as (r & st' & Hc & ? & ? & ? & ?).
    exists r, st'. split_and!; try done. congruence.
  - destruct (code_spec false fuel finish v st Hok Hf) as (r & st' & Hc & ? & ? & ? & ?).
    exists r, st'. split_and!; try done. congruence.
Qed.

Section bytearray.
Context `{Alloc}.

Lemma write_buffs_spec bufs ba f :
  ByteArray.repr ba f → ByteArray.fits ba (length (concat bufs)) →
  ∃ ba', write_buffs bufs ba = Ret tt ba' ∧
    ByteArray.repr ba' (ByteArray.flat_write (concat bufs) f).
Proof.
  revert ba f. induction bufs as [|b bufs IH]; intros ba f Hr Hfits.
  - exists ba. split; [done|]. unfold ByteArray.flat_write, splice; cbn.
    rewrite !Nat.add_0_r, take_drop. by destruct f.
  - cbn [write_buffs concat] in *. rewrite length_app in Hfits. unfold ByteArray.fits in Hfits.
    destruct (ByteArray.write_refines ba f b Hr) as (ba1 & Hw & Hr1 & [Hb1 _] & Hp1 & _);
      [unfold ByteArray.fits; lia|].
    destruct (IH ba1 _ Hr1) as (ba2 & Hw2 & Hr2); [unfold ByteArray.fits; lia|].
    exists ba2. rewrite (bind_Ret _ _ _ _ _ Hw). split; [done|].
    destruct (ByteArray.repr_length ba f Hr) as (_ & _ & Hle & _).
    by rewrite ByteArray.flat_write_app in Hr2.
Qed.

Lemma getByteArray_spec (st : t Zs) :
  Z.of_nat (length (getResult st)) + 8192 < ByteArray.max_bytes →
  ∃ ba, getByteArray st = Ret tt ba ∧ ByteArray.repr ba (ByteArray.Flat 0 (getResult st)).
Proof.
  intros Hl. unfold getByteArray, getResult in *.
  destruct (write_buffs_spec (m_buffs st) (ByteArray.new 4096) (ByteArray.Flat 0 []))
    as (ba1 & Hw & Hr1); [apply ByteArray.new_repr; split; [lia|vm_compute; done]|
                          unfold ByteArray.fits; cbn; lia|].
  destruct (ByteArray.setPosition_refines ba1 _ 0 Hr1) as (ba2 & ext & Hs & Hr2 & _ & Hext & _).
  { pose proof (ByteArray.wf_pos ba1 (proj1 Hr1)). pose proof (ByteArray.wf_size ba1 (proj1 Hr1)). lia. }
  exists ba2. rewrite (bind_Ret _ _ _ _ _ Hw). split; [done|].
  destruct ext; [|simpl in Hext; lia]. rewrite app_nil_r in Hr2.
  unfold ByteArray.flat_write, splice in Hr2. cbn in Hr2. by rewrite drop_nil, app_nil_r in Hr2.
Qed.

End bytearray.
End laws.

(** A codec that stores its input, for concrete runs. *)
Definition stored := list ascii.
Definition store_call (fl : Z) (inp : list ascii) (room : nat) (z : stored)
    : Z * list ascii * list ascii * stored :=
  (Z_OK, take room inp, drop room inp, z ++ take room inp).
#[global] Instance store_codec : Codec stored := {
  deflate := store_call; inflate := store_call; deflateEnd z := z; inflateEnd z := z
}.
#[global, refine] Instance store_laws : CodecLaws stored := {
  emitted z := z; todo _ _ inp := length inp
}.
Proof.
  - intros enc fl inp room z ret out rest z' Hc.
    replace ((if enc then deflate else inflate) fl inp room z) with (store_call fl inp room z)
      in Hc by by destruct enc.
    injection Hc as <- <- <- <-. rewrite length_take, length_drop. split_and!; [lia|done|done|lia].
  - done.
Defined.

(** ** Properties *)

(** Writing to a ZlibStream and flushing it terminate and keep the output
    buffers packed (all but the last full) and equal, in order, to what zlib
    emitted; the result is [Z_OK] or [Z_STREAM_ERROR], which adds no output. *)
Theorem write_flush_ok {Zs} `{CodecLaws Zs} (fuel : nat) (buffer : list ascii) (st : t Zs) :
  ok st → (∀ z fl, todo z fl buffer < fuel ∧ todo z fl [] < fuel)%nat →
  ∃ r1 st1 r2 st2, write fuel buffer st = Some (r1, st1) ∧ ok st1 ∧
    flush fuel st1 = Some (r2, st2) ∧ ok st2 ∧
    (r1 = Z_OK ∨ r1 = Z_STREAM_ERROR) ∧ (r2 = Z_OK ∨ r2 = Z_STREAM_ERROR).
Proof.
  intros Hok Hf.
  destruct (run_spec fuel false [buffer] st Hok) as (r1 & st1 & Hw & Hok1 & Hr1 & _ & _).
  { intros z fl inp Hin. apply list_elem_of_singleton in Hin as ->. apply Hf. }
  destruct (run_spec fuel true [[]] st1 Hok1) as (r2 & st2 & Hfl & Hok2 & Hr2 & _ & _).
  { intros z fl inp Hin. apply list_elem_of_singleton in Hin as ->. apply Hf. }
  by exists r1, st1, r2, st2.
Qed.

Lemma write_flush_ok_witness :
  let st := new ([] : stored) true 4 in
  ∃ r1 st1 r2 st2, write 20 (String.list_ascii_of_string "hello world") st = Some (r1, st1) ∧
    ok st1 ∧ flush 20 st1 = Some (r2, st2) ∧ ok st2 ∧
    (r1 = Z_OK ∨ r1 = Z_STREAM_ERROR) ∧ (r2 = Z_OK ∨ r2 = Z_STREAM_ERROR).
Proof.
  intros st. apply (write_flush_ok 20 (String.list_ascii_of_string "hello world") st).
  - split; [cbn; lia|]. split; [|reflexivity]. split; constructor.
  - intros z fl. cbn. lia.
Defined.

(** [getByteArray] hands over exactly the bytes of [getResult], with the
    cursor at the start. *)
Theorem getByteArray_result {Zs} `{Alloc} (st : t Zs) :
  Z.of_nat (length (getResult st)) + 8192 < ByteArray.max_bytes →
  ∃ ba, getByteArray st = Ret tt ba ∧ ByteArray.wf ba ∧
    ByteArray.readable ba = getResult st ∧ ByteArray.m_position ba = 0.
Proof.
  intros Hl. destruct (getByteArray_spec st Hl) as (ba & Hg & Hwf & Ha).
  exists ba. injection Ha as Hp Hd. pose proof (ByteArray.wf_pos ba Hwf).
  assert (ByteArray.m_position ba = 0) as Hp0 by lia. split_and!; try done.
  unfold ByteArray.readable. by rewrite Hp0, Z.sub_0_r, drop_0.
Qed.

Lemma getByteArray_result_witness :
  let st := mk ([] : stored) 4 true true [String.list_ascii_of_string "abcd";
                                          String.list_ascii_of_string "ef"] in
  ∃ ba, getByteArray (H0:=ByteArray.zeroed) st = Ret tt ba ∧ ByteArray.wf ba ∧
    ByteArray.readable ba = getResult st ∧ ByteArray.m_position ba = 0.
Proof.
  intros st. apply (getByteArray_result (H:=ByteArray.zeroed) st). vm_compute. reflexivity.
Defined.

End ZlibStream.
