(* ===== verification/Protocol.v ===== *)
(** * Messages and the Rock protocol (src/bobliew/protocol.{h,cc},
      src/bobliew/rock/rock_protocol.{h,cc})

    Requests, responses and notifications as records, their serialisation with
    the ByteArray writers, and [RockMessageDecoder], which frames a message with
    an 8-byte header on a stream.  The gzip branch runs [ZlibStream].

    [RockRequest::parserFromByteArray] is declared in the header and has no
    body in the sources: it is the parameter [RockRequest_parse]. *)

From S2P Require Import Prelude Endian Bytearray Serial Iovec Stream Zlib.
Import ByteArray Serial.

Module Protocol.

(** ** Messages *)

(** [Message::MessageType] *)
Definition REQUEST : Z := 1.
Definition RESPONSE : Z := 2.
Definition NOTIFY : Z := 3.

Record RockRequest := mkRequest { rq_sn : Z; rq_cmd : Z; rq_body : list ascii }.
Record RockResponse := mkResponse {
  rs_sn : Z; rs_cmd : Z; rs_result : Z; rs_resultStr : list ascii; rs_body : list ascii
}.
Record RockNotify := mkNotify { nt_notify : Z; nt_body : list ascii }.

Inductive message :=
| MRequest (m : RockRequest)
| MResponse (m : RockResponse)
| MNotify (m : RockNotify).

(** The constructors. *)
Definition new_RockRequest : RockRequest := mkRequest 0 0 [].
Definition new_RockResponse : RockResponse :=
  mkResponse 0 0 404 (String.list_ascii_of_string "unhandle") [].
Definition new_RockNotify : RockNotify := mkNotify 0 [].

Definition getType (msg : message) : Z :=
  match msg with MRequest _ => REQUEST | MResponse _ => RESPONSE | MNotify _ => NOTIFY end.

Definition createResponse (r : RockRequest) : RockResponse :=
  let rt := new_RockResponse in
  mkResponse (rq_sn r) (rq_cmd r) (rs_result rt) (rs_resultStr rt) (rs_body rt).

Section serialisation.
Context `{Alloc}.

Definition Request_serialize (type sn cmd : Z) : M t bool :=
  writeFuint8 type;! writeUint32 sn;! writeUint32 cmd;! ret true.
Definition Response_serialize (type sn cmd result : Z) (resultStr : list ascii) : M t bool :=
  writeFuint8 type;! writeUint32 sn;! writeUint32 cmd;! writeUint32 result;!
  writeStringVint resultStr;! ret true.
Definition Notify_serialize (type notify : Z) : M t bool :=
  writeFuint8 type;! writeUint32 notify;! ret true.
Definition RockBody_serialize (body : list ascii) : M t bool :=
  writeStringVint body;! ret true.

(** The two halves of a Rock message inside [try { ... } catch(...)]. *)
Definition both {S} (m1 m2 : M S bool) : M S bool :=
  try_catch (let! v1 := m1 in let! v2 := m2 in ret (v1 && v2)) (ret false).

Definition RockRequest_serialize (r : RockRequest) : M t bool :=
  both (Request_serialize REQUEST (rq_sn r) (rq_cmd r)) (RockBody_serialize (rq_body r)).
Definition RockResponse_serialize (r : RockResponse) : M t bool :=
  both (Response_serialize RESPONSE (rs_sn r) (rs_cmd r) (rs_result r) (rs_resultStr r))
       (RockBody_serialize (rs_body r)).
Definition RockNotify_serialize (r : RockNotify) : M t bool :=
  both (Notify_serialize NOTIFY (nt_notify r)) (RockBody_serialize (nt_body r)).

Definition serializeToByteArray (msg : message) : M t bool :=
  match msg with
  | MRequest r => RockRequest_serialize r
  | MResponse r => RockResponse_serialize r
  | MNotify r => RockNotify_serialize r
  end.

(** [Message::toByteArray]; [None] is [nullptr]. *)
Definition toByteArray (msg : message) : outcome unit (option t) :=
  match serializeToByteArray msg (new 4096) with
  | Ret true ba => Ret (Some ba) tt
  | Ret false _ => Ret None tt
  | Throw e _ => Throw e tt
  | UB => UB
  end.

(** *** Parsing: the state is the message being filled and the array *)

Definition on_ba {R A} (m : M t A) : M (R * t) A := λ '(r, ba),
  match m ba with
  | Ret a ba => Ret a (r, ba)
  | Throw e ba => Throw e (r, ba)
  | UB => UB
  end.
Definition modify {R} (f : R → R) : M (R * t) unit := λ '(r, ba), Ret tt (f r, ba).

Definition Response_parse : M (RockResponse * t) bool :=
  let! sn := on_ba readUint32 in
  modify (λ r, mkResponse sn (rs_cmd r) (rs_result r) (rs_resultStr r) (rs_body r));!
  let! cmd := on_ba readUint32 in
  modify (λ r, mkResponse (rs_sn r) cmd (rs_result r) (rs_resultStr r) (rs_body r));!
  let! result := on_ba readUint32 in
  modify (λ r, mkResponse (rs_sn r) (rs_cmd r) result (rs_resultStr r) (rs_body r));!
  let! str := on_ba readStringVint in
  modify (λ r, mkResponse (rs_sn r) (rs_cmd r) (rs_result r) str (rs_body r));!
  ret true.

Definition Notify_parse : M (RockNotify * t) bool :=
  let! n := on_ba readUint32 in
  modify (λ r, mkNotify n (nt_body r));! ret true.

(** [RockBody::parserFromByteArray] for the message classes that inherit it. *)
Definition RockBody_parse {R} (set_body : list ascii → R → R) : M (R * t) bool :=
  let! body := on_ba readStringVint in modify (set_body body);! ret true.

Definition response_body (b : list ascii) (r : RockResponse) : RockResponse :=
  mkResponse (rs_sn r) (rs_cmd r) (rs_result r) (rs_resultStr r) b.
Definition notify_body (b : list ascii) (r : RockNotify) : RockNotify :=
  mkNotify (nt_notify r) b.

(** The [try] block computes [v] and does not return it: control reaches the
    final [return false] on both paths. *)
Definition RockResponse_parse : M (RockResponse * t) bool :=
  try_catch
    (let! v1 := Response_parse in let! v2 := RockBody_parse response_body in
     let v := v1 && v2 in ret tt)
    (ret tt);!
  ret false.

Definition RockNotify_parse : M (RockNotify * t) bool :=
  both Notify_parse (RockBody_parse notify_body).

End serialisation.

(** ** The frame header *)

Definition s_rock_magic : list ascii := [z2b 0xab; z2b 0xcd].

Record RockMsgHeader := mkHeader {
  magic : list ascii; version : Z; flag : Z; length_ : Z
}.
Definition new_header : RockMsgHeader := mkHeader s_rock_magic 1 0 0.

(** The 8 bytes of the struct in memory, and the struct they fill. *)
Definition header_bytes (h : RockMsgHeader) : list ascii :=
  magic h ++ [z2b (version h); z2b (flag h)] ++ le_bytes 4 (length_ h).
Definition header_of (bs : list ascii) : RockMsgHeader :=
  mkHeader (take 2 bs) (of_le (take 1 (drop 2 bs))) (of_le (take 1 (drop 3 bs)))
    (cast int32_t (of_le (take 4 (drop 4 bs)))).

Section decoder.
Context `{Alloc} {Zs : Type} `{Codec Zs} {W : Type} `{Stream W}.

(** [deflateInit2]/[inflateInit2] in gzip mode ([None]: it failed), and a bound
    on the rounds of zlib's output loop. *)
Context (gzip_init : bool → option Zs) (zfuel : nat).
Context (RockRequest_parse : M (RockRequest * t) bool).
(** The two configuration variables. *)
Context (max_length gzip_min_length : Z).

(** [zstream->write(ba, -1)], [flush()] and [getByteArray()] of both sides; the
    error code tells which step failed. *)
Definition through_zlib (encode : bool) (ba : t) : outcome unit (Z + t) :=
  match gzip_init encode with
  | None => UB
  | Some z =>
      match ZlibStream.write_ba zfuel ba (2 ^ 64 - 1) (ZlibStream.new z encode 4096) with
      | None => UB
      | Some (r1, st1) =>
          if negb (r1 =? ZlibStream.Z_OK) then Ret (inl (-1)) tt
          else
            match ZlibStream.flush zfuel st1 with
            | None => UB
            | Some (r2, st2) =>
                if negb (r2 =? ZlibStream.Z_OK) then Ret (inl (-2)) tt
                else
                  match ZlibStream.getByteArray st2 with
                  | Ret _ ba => Ret (inr ba) tt
                  | Throw e _ => Throw e tt
                  | UB => UB
                  end
            end
      end
  end.

(** From [uint8_t type = ba->readFuint8()] on. *)
Definition parse_as {R} (r0 : R) (mk_msg : R → message) (parse : M (R * t) bool) (ba : t)
    : outcome t (option message) :=
  match parse (r0, ba) with
  | Ret true (r, ba) => Ret (Some (mk_msg r)) ba
  | Ret false (_, ba) => Ret None ba
  | Throw e (_, ba) => Throw e ba
  | UB => UB
  end.

Definition parse_body : M t (option message) :=
  let! type := readFuint8 in
  if type =? REQUEST then parse_as new_RockRequest MRequest RockRequest_parse
  else if type =? RESPONSE then parse_as new_RockResponse MResponse RockResponse_parse
  else if type =? NOTIFY then parse_as new_RockNotify MNotify RockNotify_parse
  else ret None.

(** The body of the [try] block; [None] is [nullptr]. *)
Definition decode : M W (option message) :=
  let! (rt, bs) := StreamOps.readFixSize 8 in
  if rt <=? 0 then ret None
  else
    let header := header_of bs in
    if negb (bool_decide (magic header = s_rock_magic)) then ret None
    else if negb (version header =? 1) then ret None
    else
      let! len := lift (byteswapOnLittleEndian int32_t (length_ header)) in
      if max_length <=? wrap 32 len then ret None
      else λ w,
        match StreamOps.readFixSize_ba (wrap 64 len) (w, new 4096) with
        | UB => UB
        | Throw e (w, _) => Throw e w
        | Ret rt (w, ba) =>
            if rt <=? 0 then Ret None w
            else
              match setPosition 0 ba with
              | UB => UB
              | Throw e _ => Throw e w
              | Ret _ ba =>
                  let ba' := if Z.land (flag header) 1 =? 1 then through_zlib false ba
                             else Ret (inr ba) tt in
                  match ba' with
                  | UB => UB
                  | Throw e _ => Throw e w
                  | Ret (inl _) _ => Ret None w
                  | Ret (inr ba) _ =>
                      match parse_body ba with
                      | Ret msg _ => Ret msg w
                      | Throw e _ => Throw e w
                      | UB => UB
                      end
                  end
              end
        end.

Definition parserFrom : M W (option message) := try_catch decode (ret None).

Definition serializeTo (msg : message) : M W Z := λ w,
  match toByteArray msg with
  | Ret (Some ba) _ =>
      match setPosition 0 ba with
      | Ret _ ba =>
          let len := cast int32_t (m_size ba) in
          let packed :=
            if gzip_min_length <=? wrap 32 len then
              match through_zlib true ba with
              | Ret (inr ba) _ => Ret (inr (ba, Z.lor 0 1, cast int32_t (m_size ba))) tt
              | Ret (inl e) _ => Ret (inl e) tt
              | Throw e _ => Throw e tt
              | UB => UB
              end
            else Ret (inr (ba, 0, len)) tt in
          match packed with
          | Ret (inl e) _ => Ret e w
          | Throw e _ => Throw e w
          | UB => UB
          | Ret (inr (ba, fl, len)) _ =>
              match byteswapOnLittleEndian int32_t len with
              | None => UB
              | Some len =>
                  let header := mkHeader s_rock_magic 1 fl len in
                  (let! rt := StreamOps.writeFixSize (header_bytes header) in
                   if rt <=? 0 then ret (-3)
                   else λ w,
                     match StreamOps.writeFixSize_ba 1 (getReadSize ba) (w, ba) with
                     | Ret rt (w, ba) =>
                         if rt <=? 0 then Ret (-4) w else Ret (cast int32_t (8 + m_size ba)) w
                     | Throw e (w, _) => Throw e w
                     | UB => UB
                     end) w
              end
          end
      | Throw e _ => Throw e w
      | UB => UB
      end
  | Ret None _ => UB
  | Throw e _ => Throw e w
  | UB => UB
  end.

End decoder.

(** ** Parsing hostile bytes

    [roomy]: the array is well formed and its data does not fill its capacity,
    so the cursor never reaches the null [m_curr]. *)
Definition roomy (ba : t) : Prop := wf ba ∧ m_size ba < m_capacity ba.

Section safety.
Context `{Alloc}.

Lemma read_roomy n : preserves roomy (read n).
Proof.
  intros ba [Hwf Hlt]. pose proof (wf_pos ba Hwf). pose proof (wf_content ba Hwf).
  destruct (decide (n ≤ 0)) as [Hn|Hn].
  - unfold read. rewrite wf_getReadSize, (proj2 (Z.ltb_ge _ _)) by (done || lia).
    destruct (wf_cursor ba (Z.to_nat (m_position ba)) Hwf)
      as (B & c & i & node & HB & Hb & _ & _ & _ & Hnd & _); [lia|lia|].
    rewrite (proj2 (Z.eqb_neq _ _)), Hnd by lia. cbn [read_loop].
    by rewrite (proj2 (Z.ltb_ge 0 n)) by lia.
  - rewrite <- (Z2Nat.id n) by lia. set (k := Z.to_nat n).
    destruct (flat_read k (abs ba)) as [[bs f']|] eqn:Hf.
    + destruct (read_refines ba (abs ba) k bs f') as (ba' & -> & Hr' & _ & Hcap); [done|done|lia|].
      split; [apply Hr'|]. destruct (repr_length ba' f' Hr') as (Hl & _).
      destruct (repr_length ba (abs ba)) as (Hl0 & _); [done|].
      unfold flat_read in Hf. case_decide; [|done]. injection Hf as _ <-. cbn in Hl, Hl0.
      pose proof (wf_pos ba' (proj1 Hr')). lia.
    + by rewrite (read_throws ba (abs ba)).
Qed.

Lemma readFuint8_roomy : preserves roomy readFuint8.
Proof. apply preserves_bind; [apply read_roomy|]. intros. apply preserves_ret. Qed.

Lemma readFix_roomy T : swappable T → preserves roomy (readFix T).
Proof.
  intros HT. apply preserves_bind; [apply read_roomy|]. intros bs ba Hr. unfold bind, get.
  destruct (m_endian ba =? BOBLIEW_BYTE_ORDER); [done|].
  destruct (byteswap_image T (cast T (of_le bs)) HT) as (v & -> & _). done.
Qed.

Lemma read_varint_roomy w fuel i acc :
  (0 < fuel)%nat → w - i ≤ 7 * (Z.of_nat fuel - 1) → preserves roomy (read_varint_loop w fuel i acc).
Proof.
  revert i acc. induction fuel as [|fuel IH]; intros i acc Hf Hw; [lia|]. cbn [read_varint_loop].
  destruct (Z.ltb_spec i w); cbn [negb]; [|apply preserves_ret].
  apply preserves_bind; [apply readFuint8_roomy|]. intros b.
  destruct (b <? 128); [apply preserves_ret|]. apply IH; lia.
Qed.

Lemma readUint32_roomy : preserves roomy readUint32.
Proof. apply read_varint_roomy; lia. Qed.

Lemma readStringVint_roomy : preserves roomy readStringVint.
Proof.
  apply preserves_bind; [apply readFix_roomy, swappable_uint16|]. intros. apply read_roomy.
Qed.

(** The same for a message being filled. *)
Definition roomy2 {R} (s : R * t) : Prop := roomy (snd s).

Lemma on_ba_roomy {R A} (m : M t A) : preserves roomy m → preserves (@roomy2 R) (on_ba m).
Proof.
  intros Hm [r ba] Hr. specialize (Hm ba Hr). unfold on_ba.
  destruct (m ba); done.
Qed.

Lemma modify_roomy {R} (f : R → R) : preserves roomy2 (modify f).
Proof. intros [r ba] Hr. done. Qed.

#[local] Hint Resolve read_roomy readFuint8_roomy readUint32_roomy readStringVint_roomy
  on_ba_roomy modify_roomy : preserve.

Lemma RockBody_roomy {R} (set_body : list ascii → R → R) : preserves roomy2 (RockBody_parse set_body).
Proof. unfold RockBody_parse. auto 10 with preserve. Qed.

Lemma Response_roomy : preserves roomy2 Response_parse.
Proof. unfold Response_parse. auto 20 with preserve. Qed.

Lemma Notify_roomy : preserves roomy2 Notify_parse.
Proof. unfold Notify_parse. auto 10 with preserve. Qed.

#[local] Hint Resolve RockBody_roomy Response_roomy Notify_roomy : preserve.

Lemma RockResponse_roomy : preserves roomy2 RockResponse_parse.
Proof. unfold RockResponse_parse. auto 10 with preserve. Qed.

Lemma RockNotify_roomy : preserves roomy2 RockNotify_parse.
Proof. unfold RockNotify_parse, both. auto 10 with preserve. Qed.

Lemma parse_as_roomy {R} (r0 : R) mk_msg (parse : M (R * t) bool) :
  preserves roomy2 parse → preserves roomy (parse_as r0 mk_msg parse).
Proof.
  intros Hp ba Hr. specialize (Hp (r0, ba) Hr). unfold parse_as.
  destruct (parse (r0, ba)) as [[] [r ba']|e [r ba']|]; done.
Qed.

(** A body that is not a request: a notification or nothing. *)
Lemma parse_body_other RockRequest_parse ba b bs :
  roomy ba → repr ba (Flat 0 (b :: bs)) → b2z b ≠ REQUEST →
  match parse_body RockRequest_parse ba with
  | Ret msg _ => msg = None ∨ ∃ r, msg = Some (MNotify r)
  | Throw _ _ => True
  | UB => False
  end.
Proof.
  intros Hroomy Hr Hb. unfold parse_body.
  destruct (reads_Fuint8 (m_endian ba) b ba _ Hr eq_refl) as (ba1 & Hm & Hr1 & Hc1);
    [cbn [f_pos f_data]; rewrite drop_0; by apply (prefix_app_r [b] [b] bs)|].
  pose proof (readFuint8_roomy ba Hroomy) as Hroomy1. rewrite Hm in Hroomy1.
  rewrite (bind_Ret _ _ _ _ _ Hm), (proj2 (Z.eqb_neq _ _) Hb).
  destruct (b2z b =? RESPONSE).
  { pose proof (RockResponse_roomy (new_RockResponse, ba1) Hroomy1) as Hp. unfold parse_as.
    destruct (RockResponse_parse (new_RockResponse, ba1)) as [v [x ba2]|e [x ba2]|] eqn:E; [|done|done].
    assert (v = false) as ->; [|by left]. unfold RockResponse_parse, bind at 1, ret in E.
    destruct (try_catch _ _ (new_RockResponse, ba1)); by simplify_eq. }
  destruct (b2z b =? NOTIFY); [|by left].
  pose proof (RockNotify_roomy (new_RockNotify, ba1) Hroomy1) as Hp. unfold parse_as.
  destruct (RockNotify_parse (new_RockNotify, ba1)) as [[] [x ba2]|e [x ba2]|]; [right; by exists x|by left|done|done].
Qed.

End safety.

(** ** The decoder *)

Section decoder_facts.
Context `{Alloc} {Zs : Type} `{Codec Zs} {W : Type} `{StreamLaws W}.
Context (gzip_init : bool → option Zs) (zfuel : nat).
Context (RockRequest_parse : M (RockRequest * t) bool).
Context (max_length gzip_min_length : Z).

(** The frame length announced by the next 8 bytes. *)
Definition announced (bs : list ascii) : option Z :=
  byteswapOnLittleEndian int32_t (length_ (header_of bs)).

Lemma byteswap_int32 z : ∃ v, byteswapOnLittleEndian int32_t z = Some v ∧ - 2 ^ 31 ≤ v < 2 ^ 31.
Proof.
  destruct (byteswap_image int32_t z) as (v & Hv & Hr & _); [by right; left|].
  exists v. split; [done|]. exact Hr.
Qed.

(** The body of an accepted, uncompressed frame, read into a fresh array. *)
Lemma frame_read n w :
  0 ≤ n < 2 ^ 31 →
  ∃ rt w' ba, StreamOps.readFixSize_ba n (w, new 4096) = Ret rt (w', ba) ∧
    (rt ≤ 0 ∨ ∃ ba2 bs, setPosition 0 ba = Ret tt ba2 ∧ wf ba2 ∧ m_size ba2 = n ∧
       m_baseSize ba2 = 4096 ∧ incoming w = bs ++ incoming w' ∧ Z.of_nat (length bs) = n ∧ repr ba2 (Flat 0 bs)).
Proof.
  intros Hn. unfold StreamOps.readFixSize_ba. rewrite StreamOps.cast_int64_small by done.
  destruct (StreamOps.readFixSize_ba_loop_spec (S (Z.to_nat n)) n n w (new 4096) (Flat 0 []))
    as (rt & bs & w' & ba & Hm & Hin & _ & Hr & [Hb _] & Hall).
  { apply new_repr. split; [lia|]. vm_compute. done. }
  { lia. } { lia. } { lia. }
  { unfold fits, max_bytes; cbn. lia. }
  exists rt, w', ba. split; [done|]. destruct Hall as [[-> Hl]|[Hle _]]; [right|by left].
  destruct (setPosition_refines ba _ 0 Hr) as (ba2 & ext & Hs & Hr2 & [Hb2 _] & Hext & _).
  { pose proof (wf_pos ba (proj1 Hr)). pose proof (wf_size ba (proj1 Hr)). lia. }
  exists ba2, bs. split; [done|]. split; [apply Hr2|].
  destruct ext; [|simpl in Hext; lia]. cbn [f_data flat_write f_pos] in Hr2. rewrite app_nil_r in Hr2. unfold splice in Hr2.
  cbn [f_pos f_data take drop app] in Hr2. rewrite drop_nil, app_nil_r in Hr2. destruct (repr_length ba2 _ Hr2) as (Hsz & _).
  cbn [f_data] in Hsz. pose proof (wf_pos ba2 (proj1 Hr2)). split_and!; [lia|cbn in Hb; congruence|done|lia|done].
Qed.

Lemma roomy_unaligned ba : wf ba → m_baseSize ba = 4096 → m_size ba mod 4096 ≠ 0 → roomy ba.
Proof.
  intros Hwf Hb Hmod. split; [done|]. pose proof (wf_size ba Hwf). pose proof (wf_cap ba Hwf) as Hc.
  destruct (decide (m_size ba = m_capacity ba)) as [He|Hne]; [|lia].
  rewrite He, Hc, Hb, Z.mul_comm, Z.mod_mul in Hmod by lia. done.
Qed.

Lemma decode_total w :
  0 ≤ max_length ≤ 2 ^ 31 → incoming w !! 8%nat ≠ Some (z2b REQUEST) →
  Z.land (flag (header_of (take 8 (incoming w)))) 1 = 0 →
  (∀ n, announced (take 8 (incoming w)) = Some n → n mod 4096 ≠ 0) →
  match decode gzip_init zfuel RockRequest_parse max_length w with
  | Ret msg _ => msg = None ∨ ∃ r, msg = Some (MNotify r)
  | Throw _ _ => True
  | UB => False
  end.
Proof.
  intros Hmax Hq Hflag Hlen. unfold decode, StreamOps.readFixSize.
  rewrite StreamOps.cast_int64_small by lia.
  destruct (StreamOps.readFixSize_loop_spec (S (Z.to_nat 8)) 8 8 [] w)
    as (rt & bs & w1 & Hm & Hin & _ & Hall); [simpl; lia..|].
  rewrite (bind_Ret _ _ _ _ _ Hm). cbn [app] in Hall.
  destruct (Z.leb_spec rt 0) as [Hle|Hgt]; [by left|].
  destruct Hall as [[-> Hbs]|[? _]]; [|lia].
  assert (take 8 (incoming w) = bs) as Hh by (rewrite Hin; apply take_app_length'; lia).
  rewrite Hh in *. cbn [app]. destruct (negb (bool_decide _)); [by left|].
  destruct (negb (version _ =? 1)); [by left|].
  destruct (byteswap_int32 (length_ (header_of bs))) as (n & Hn & Hr). rewrite Hn.
  unfold announced in Hlen. specialize (Hlen n Hn). unfold bind at 1. cbn [lift ret].
  destruct (Z.leb_spec max_length (wrap 32 n)) as [Hbig|Hsmall]; [by left|].
  assert (0 ≤ n) as Hn0.
  { destruct (decide (0 ≤ n)); [done|]. assert (wrap 32 n = n + 2 ^ 32); [|lia].
    unfold wrap. rewrite <- (Z.mod_add n 1) by lia. rewrite Z.mod_small; lia. }
  rewrite (wrap_small 64) by (unfold in_u; lia).
  destruct (frame_read n w1) as (rt2 & w2 & ba & -> & Hcase); [lia|].
  destruct (Z.leb_spec rt2 0) as [Hle2|Hgt2]; [by left|].
  destruct Hcase as [?|(ba2 & body & -> & Hwf2 & Hs2 & Hb2 & Hin2 & Hl2 & Hr2)]; [lia|].
  rewrite Hflag. change (0 =? 1) with false. cbn match.
  assert (roomy ba2) as Hroomy by (apply roomy_unaligned; [done|done|by rewrite Hs2]).
  destruct body as [|b body]; [cbn in Hl2; rewrite <- Hl2 in Hlen; by destruct Hlen|].
  assert (incoming w !! 8%nat = Some b) as H8.
  { rewrite Hin, Hin2, lookup_app_r by lia. replace (8 - length bs)%nat with 0%nat by lia. done. }
  pose proof (parse_body_other RockRequest_parse ba2 b body Hroomy Hr2) as Hp.
  assert (b2z b ≠ REQUEST) as Hb.
  { intros E. apply Hq. rewrite H8, <- E. f_equal. symmetry. apply z2b_b2z. }
  specialize (Hp Hb). by destruct (parse_body RockRequest_parse ba2).
Qed.

(** The header survives the trip through memory. *)
Lemma header_of_bytes h :
  length (magic h) = 2%nat → in_u 8 (version h) → in_u 8 (flag h) → in_range int32_t (length_ h) →
  header_of (header_bytes h) = h.
Proof.
  intros Hm Hv Hf Hl. destruct h as [mg v f l]. cbn in *.
  destruct mg as [|m1 [|m2 [|]]]; try done. unfold header_of, header_bytes; cbn [magic version flag length_ app take drop].
  assert (∀ z, in_u 8 z → of_le [z2b z] = z) as Hbyte.
  { intros z Hz. cbn [of_le]. rewrite b2z_z2b. unfold in_u in Hz. change (2 ^ 8) with 256 in Hz.
    rewrite Z.mod_small; lia. }
  rewrite !Hbyte by done. f_equal.
  etrans; [apply (cast_of_le int32_t); cbn; lia|]. apply cast_small; [cbn; lia|done].
Qed.

End decoder_facts.

(** ** What a serialised message looks like *)

Section wire.
Context `{Alloc}.

(** [m] appends [bs] and returns [true]. *)
Definition emits (m : M t bool) (bs : list ascii) : Prop :=
  writes BOBLIEW_BIG_ENDIAN (λ ba, match m ba with
    | Ret true ba' => Ret tt ba' | Ret false _ => UB | Throw e ba' => Throw e ba' | UB => UB end) bs.

Lemma emits_inv m bs ba f :
  emits m bs → repr ba f → m_endian ba = BOBLIEW_BIG_ENDIAN → fits ba (length bs) →
  ∃ ba', m ba = Ret true ba' ∧ repr ba' (flat_write bs f) ∧ same_config ba ba' ∧
    m_position ba' = m_position ba + Z.of_nat (length bs).
Proof.
  intros Hm Hr He Hfits. destruct (Hm ba f Hr He Hfits) as (ba' & Hm' & Hrest).
  destruct (m ba) as [[] ba1|e ba1|]; try done. injection Hm' as ->. by exists ba'.
Qed.

Lemma emits_intro m bs :
  (∀ ba f, repr ba f → m_endian ba = BOBLIEW_BIG_ENDIAN → fits ba (length bs) →
   ∃ ba', m ba = Ret true ba' ∧ repr ba' (flat_write bs f) ∧ same_config ba ba' ∧
     m_position ba' = m_position ba + Z.of_nat (length bs)) → emits m bs.
Proof.
  intros Hm ba f Hr He Hfits. destruct (Hm ba f Hr He Hfits) as (ba' & -> & Hrest). by exists ba'.
Qed.

Lemma emits_last m bs : writes BOBLIEW_BIG_ENDIAN m bs → emits (m;! ret true) bs.
Proof.
  intros Hm. apply emits_intro. intros ba f Hr He Hfits.
  destruct (Hm ba f Hr He Hfits) as (ba' & Hm' & Hrest). exists ba'.
  by rewrite (bind_Ret _ _ _ _ _ Hm').
Qed.

Lemma emits_seq m k b1 b2 :
  writes BOBLIEW_BIG_ENDIAN m b1 → emits k b2 → emits (m;! k) (b1 ++ b2).
Proof.
  intros Hm Hk. pose proof (writes_bind _ _ _ _ _ Hm Hk) as Hw. intros ba f Hr He Hfits.
  destruct (Hw ba f Hr He Hfits) as (ba' & Hm' & Hrest). exists ba'. split; [|done].
  rewrite <- Hm'. unfold bind. by destruct (m ba).
Qed.

Lemma emits_both m1 m2 b1 b2 : emits m1 b1 → emits m2 b2 → emits (both m1 m2) (b1 ++ b2).
Proof.
  intros H1 H2. pose proof (writes_bind _ _ _ _ _ H1 H2) as Hw. apply emits_intro.
  intros ba f Hr He Hfits. destruct (Hw ba f Hr He Hfits) as (ba' & Hm' & Hrest). exists ba'.
  split; [|done]. unfold both, try_catch, bind in *.
  destruct (m1 ba) as [[] ba1|e ba1|]; try done.
  destruct (m2 ba1) as [[] ba2|e ba2|]; try done. by injection Hm' as ->.
Qed.

(** A string whose length fits one varint byte. *)
Lemma writes_StringVint_short e s :
  (length s < 128)%nat → writes e (writeStringVint s) (z2b (size_of s) :: s).
Proof.
  intros Hs. change (z2b (size_of s) :: s) with ([z2b (size_of s)] ++ s).
  apply writes_bind; [|apply writes_write].
  eapply writes_lift; [|apply writes_write]. cbn [varint_loop].
  unfold size_of. rewrite (proj2 (Z.leb_gt _ _)) by lia. done.
Qed.

Lemma notify_emits (r : RockNotify) :
  in_u 32 (nt_notify r) → (length (nt_body r) < 128)%nat →
  ∃ vb, reads BOBLIEW_BIG_ENDIAN readUint32 vb (nt_notify r) ∧ (length vb ≤ 5)%nat ∧
    emits (RockNotify_serialize r)
      ([z2b NOTIFY] ++ vb ++ (z2b (size_of (nt_body r)) :: nt_body r)).
Proof.
  intros Hn Hb. destruct (writes_reads_Uint32 BOBLIEW_BIG_ENDIAN (nt_notify r) Hn)
    as (vb & Hl & Hw & Hr).
  exists vb. split_and!; [done|lia|]. rewrite (assoc_L (++)). apply emits_both.
  - apply emits_seq; [apply writes_write|]. by apply emits_last.
  - by apply emits_last, writes_StringVint_short.
Qed.

(** A fresh array that received [bs], rewound to the start. *)
Lemma serialized_rewound msg bs :
  emits (serializeToByteArray msg) bs → Z.of_nat (length bs) + 8192 < max_bytes →
  ∃ ba ba0, toByteArray msg = Ret (Some ba) tt ∧ m_size ba = Z.of_nat (length bs) ∧
    setPosition 0 ba = Ret tt ba0 ∧ repr ba0 (Flat 0 bs) ∧ m_endian ba0 = BOBLIEW_BIG_ENDIAN.
Proof.
  intros Hem Hl.
  destruct (emits_inv _ _ (new 4096) (Flat 0 []) Hem) as (ba & Hm & Hr & [_ He] & Hp);
    [apply new_repr; split; [lia|by vm_compute]|done|unfold fits; cbn; lia|].
  unfold toByteArray. rewrite Hm.
  destruct (setPosition_refines ba _ 0 Hr) as (ba0 & ext & Hs & Hr0 & [_ He0] & Hext & _).
  { pose proof (wf_pos ba (proj1 Hr)). pose proof (wf_size ba (proj1 Hr)). lia. }
  destruct ext; [|simpl in Hext; lia]. rewrite app_nil_r in Hr0.
  unfold flat_write, splice in Hr, Hr0. cbn [f_pos f_data take drop app Nat.add] in Hr, Hr0.
  rewrite drop_nil, app_nil_r in Hr, Hr0.
  destruct (repr_length ba _ Hr) as (Hsz & _). cbn [f_data] in Hsz.
  pose proof (wf_pos ba (proj1 Hr)).
  exists ba, ba0. split_and!; [done|lia|done|done|cbn in He; congruence].
Qed.

Lemma be_bytes_2 a b : be_bytes 2 (b2z a * 256 + b2z b) = [a; b].
Proof.
  pose proof (b2z_range a). pose proof (b2z_range b). unfold be_bytes. cbn [le_bytes].
  assert ((b2z a * 256 + b2z b) / 256 = b2z a) as ->
    by (Z.to_euclidean_division_equations; lia).
  rewrite z2b_b2z. replace (z2b (b2z a * 256 + b2z b)) with b; [done|].
  rewrite <- (z2b_b2z b) at 1. unfold z2b. f_equal. by rewrite Z.add_comm, Z.mod_add by lia.
Qed.

(** [readStringVint] takes the length byte and the first body byte for a 16-bit
    length, which exceeds what is left. *)
Lemma readStringVint_throws s ba f :
  repr ba f → m_endian ba = BOBLIEW_BIG_ENDIAN → (length s < 128)%nat →
  drop (f_pos f) (f_data f) = z2b (size_of s) :: s →
  ∃ e ba', readStringVint ba = Throw e ba'.
Proof.
  intros Hr He Hs Hrest. destruct (repr_length ba f Hr) as (_ & _ & Hle & _).
  pose proof (f_equal length Hrest) as Hlen. rewrite length_drop in Hlen. cbn in Hlen.
  unfold readStringVint, readFuint16. destruct s as [|b s].
  - eexists _, ba. apply bind_Throw. unfold readFix. apply bind_Throw.
    apply (read_throws ba f 2 Hr). unfold flat_read. rewrite decide_False; [done|]. cbn in Hlen. lia.
  - set (n := size_of (b :: s)) in *. assert (0 < n < 128) as Hn by (unfold n, size_of; cbn in *; lia).
    destruct (reads_Fix BOBLIEW_BIG_ENDIAN uint16_t (b2z (z2b n) * 256 + b2z b) swappable_uint16)
      with (ba:=ba) (f:=f) as (ba1 & Hm & Hr1 & _).
    { pose proof (b2z_range (z2b n)). pose proof (b2z_range b).
      change (0 ≤ b2z (z2b n) * 256 + b2z b < 65536). lia. }
    { done. } { done. }
    { change (fix_bytes BOBLIEW_BIG_ENDIAN uint16_t (b2z (z2b n) * 256 + b2z b))
        with (be_bytes 2 (b2z (z2b n) * 256 + b2z b)).
      rewrite be_bytes_2, Hrest. by exists s. }
    rewrite length_fix_bytes in Hr1.
    eexists _, ba1. rewrite (bind_Ret _ _ _ _ _ Hm).
    rewrite b2z_z2b, (Z.mod_small n) by lia. pose proof (b2z_range b).
    rewrite <- (Z2Nat.id (n * 256 + b2z b)) by lia. apply (read_throws ba1 _ _ Hr1).
    unfold flat_read. cbn [f_pos f_data ity_bytes uint16_t]. rewrite decide_False; [done|].
    unfold n, size_of in *. cbn in *. lia.
Qed.

Lemma notify_parse_fails r ba f vb :
  repr ba f → m_endian ba = BOBLIEW_BIG_ENDIAN → (length (nt_body r) < 128)%nat →
  reads BOBLIEW_BIG_ENDIAN readUint32 vb (nt_notify r) →
  drop (f_pos f) (f_data f) = vb ++ (z2b (size_of (nt_body r)) :: nt_body r) →
  ∃ r' ba', RockNotify_parse (new_RockNotify, ba) = Ret false (r', ba').
Proof.
  intros Hr He Hb Hrd Hrest.
  destruct (Hrd ba f Hr He) as (ba1 & Hm1 & Hr1 & _ & He1); [rewrite Hrest; by apply prefix_app_r|].
  destruct (readStringVint_throws (nt_body r) ba1 _ Hr1) as (e & ba2 & Hm2); [congruence|done| |].
  { cbn [f_pos f_data]. rewrite <- drop_drop, Hrest. by rewrite drop_app_length. }
  unfold RockNotify_parse, both, Notify_parse, RockBody_parse, try_catch, bind, on_ba, modify.
  cbv beta iota. rewrite Hm1. cbv beta iota. unfold ret. cbv beta iota. rewrite Hm2. by eexists _, _.
Qed.

End wire.

(** ** Sending *)

Section sending.
Context `{Alloc} {Zs : Type} `{Codec Zs} {W : Type} `{StreamLaws W}.
Context (gzip_init : bool → option Zs) (zfuel : nat) (gzip_min_length : Z).

Lemma length_header_bytes h : length (magic h) = 2%nat → length (header_bytes h) = 8%nat.
Proof. intros Hm. unfold header_bytes. rewrite length_app, Hm. reflexivity. Qed.

(** An uncompressed message: the header goes out, the body does not. *)
Lemma serializeTo_header_only msg bs w :
  emits (serializeToByteArray msg) bs → (0 < length bs)%nat →
  Z.of_nat (length bs) < gzip_min_length → Z.of_nat (length bs) < 2 ^ 31 - 8 →
  ∃ h rt k w', length h = 8%nat ∧ serializeTo gzip_init zfuel gzip_min_length msg w = Ret rt w' ∧
    incoming w' = incoming w ∧ outgoing w' = outgoing w ++ take k h ∧
    (rt = 8 + Z.of_nat (length bs) ∧ k = 8%nat ∨ rt = -3 ∧ (k < 8)%nat).
Proof.
  intros Hem H0' Hgz Hl. unfold serializeTo.
  destruct (serialized_rewound msg bs Hem) as (ba & ba0 & -> & Hsz & -> & Hr0 & _);
    [unfold max_bytes; lia|].
  destruct (repr_length ba0 _ Hr0) as (Hs0 & Hp0 & _). cbn [f_data f_pos] in Hs0, Hp0.
  pose proof (wf_pos ba0 (proj1 Hr0)).
  assert (m_size ba0 = Z.of_nat (length bs)) as Hs1 by lia.
  assert (∀ z, 0 ≤ z < 2 ^ 31 → cast int32_t z = z) as Hcast.
  { intros z Hz. apply cast_small; [cbn; lia|]. change (- 2 ^ 31 ≤ z < 2 ^ 31). lia. }
  rewrite Hs1, Hcast, wrap_small by (unfold in_u; lia).
  rewrite (proj2 (Z.leb_gt _ _)) by lia.
  destruct (byteswap_int32 (Z.of_nat (length bs))) as (len & -> & _).
  set (h := header_bytes _). assert (length h = 8%nat) as Hh by by apply length_header_bytes.
  destruct (StreamOps.writeFixSize_loop_spec 9 h 0 8 w)
    as (rt & k & w' & Hm & Hin & Hout & Hk & Hall); [lia..|].
  unfold StreamOps.writeFixSize, bind. rewrite Hh, StreamOps.cast_int64_small by lia.
  change (Z.of_nat 8) with 8. rewrite Hm. rewrite drop_0, Hh in *. cbn [Nat.add] in Hall.
  exists h. destruct Hall as [[-> Hk8]|[Hrt Hk8]].
  - cbn [Z.leb Z.compare]. exists (8 + Z.of_nat (length bs)), k, w'.
    change (8 <=? 0) with false. cbn match. unfold StreamOps.writeFixSize_ba.
    cbn [StreamOps.writeFixSize_ba_loop].
    rewrite wf_getReadSize by apply Hr0.
    rewrite StreamOps.cast_int64_small by lia. rewrite (proj2 (Z.ltb_ge _ _)) by lia.
    cbn [negb ret]. rewrite !Hcast by lia. rewrite (proj2 (Z.leb_gt (m_size ba0 - m_position ba0) 0)) by lia.
    split_and!; [done|by rewrite Hs1|done|done|left; lia].
  - exists (-3), k, w'. rewrite (proj2 (Z.leb_le _ _)) by lia. cbn [ret].
    split_and!; [done|done|done|done|right; lia].
Qed.

End sending.

(** ** Properties *)

(** C38. Whatever bytes a peer sends, decoding a frame that is not compressed, does not
    announce a length that is a multiple of the 4096-byte node size, and is not a
    request (the parser of requests has no body in the sources) returns null or a
    notification: no exception leaves [parserFrom] and nothing is undefined. *)
Theorem parserFrom_safe `{Alloc} {Zs} `{Codec Zs} {W} `{StreamLaws W}
    (gzip_init : bool → option Zs) (zfuel : nat)
    (RockRequest_parse : M (RockRequest * t) bool) (max_length : Z) (w : W) :
  0 ≤ max_length ≤ 2 ^ 31 → incoming w !! 8%nat ≠ Some (z2b REQUEST) →
  Z.land (flag (header_of (take 8 (incoming w)))) 1 = 0 →
  (∀ n, announced (take 8 (incoming w)) = Some n → n mod 4096 ≠ 0) →
  ∃ msg w', parserFrom gzip_init zfuel RockRequest_parse max_length w = Ret msg w' ∧
    (msg = None ∨ ∃ r, msg = Some (MNotify r)).
Proof.
  intros Hmax Hq Hflag Hlen. unfold parserFrom, try_catch.
  pose proof (decode_total gzip_init zfuel RockRequest_parse max_length w Hmax Hq Hflag Hlen).
  destruct (decode _ _ _ _ w) as [msg w'|e w'|]; [by eexists _, _|by eexists _, _; split; [|left]|done].
Qed.

(** A peer that sends a well-framed notification. *)
Definition demo_peer : SocketStream.t Pipe.t :=
  SocketStream.mk (Some (Pipe.mk (header_bytes (mkHeader s_rock_magic 1 0 0x05000000)
    ++ [z2b 3; z2b 7; z2b 0; z2b 1; z2b 65]) [] 3 true)) true.

Lemma parserFrom_safe_witness : ∃ msg w',
  parserFrom (H:=zeroed) (H1:=SocketStream.socket_stream (H0:=zeroed))
    (λ _, Some ([] : ZlibStream.stored)) 10 ub (64 * 1024 * 1024) demo_peer
  = Ret msg w' ∧ (msg = None ∨ ∃ r, msg = Some (MNotify r)).
Proof.
  apply (parserFrom_safe (H:=zeroed) (H2:=SocketStream.socket_stream_laws (H1:=zeroed))
    (λ _, Some ([] : ZlibStream.stored)) 10 ub (64 * 1024 * 1024) demo_peer).
  - lia.
  - by vm_compute.
  - vm_compute. reflexivity.
  - intros n Hn. vm_compute in Hn. injection Hn as <-. vm_compute. discriminate.
Defined.

(** A notification with a body shorter than 128 bytes, serialised by this
    library, is never parsed back by it: the decoder answers null. *)
Theorem notify_never_parses `{Alloc} (RockRequest_parse : M (RockRequest * t) bool)
    (r : RockNotify) :
  in_u 32 (nt_notify r) → (length (nt_body r) < 128)%nat →
  ∃ ba ba0 ba1, toByteArray (MNotify r) = Ret (Some ba) tt ∧ setPosition 0 ba = Ret tt ba0 ∧
    parse_body RockRequest_parse ba0 = Ret None ba1.
Proof.
  intros Hn Hb. destruct (notify_emits r Hn Hb) as (vb & Hrd & Hvb & Hem).
  destruct (serialized_rewound (MNotify r) _ Hem) as (ba & ba0 & Ht & _ & Hs & Hr0 & He0).
  { rewrite !length_app. simpl. unfold max_bytes. lia. }
  destruct (reads_Fuint8 BOBLIEW_BIG_ENDIAN (z2b NOTIFY) ba0 _ Hr0 He0)
    as (ba1 & Hm1 & Hr1 & _ & He1); [cbn [f_pos f_data]; rewrite drop_0; by apply prefix_app_r|].
  destruct (notify_parse_fails r ba1 _ vb Hr1) as (r' & ba2 & Hp); [congruence|done|done|done|].
  exists ba, ba0, ba2. split_and!; [done|done|].
  unfold parse_body. rewrite (bind_Ret _ _ _ _ _ Hm1).
  change (b2z (z2b NOTIFY)) with 3. change (3 =? REQUEST) with false.
  change (3 =? RESPONSE) with false. change (3 =? NOTIFY) with true. cbn match.
  unfold parse_as. by rewrite Hp.
Qed.

Lemma notify_never_parses_witness : ∃ ba ba0 ba1,
  toByteArray (H:=zeroed) (MNotify (mkNotify 7 (String.list_ascii_of_string "hi"))) = Ret (Some ba) tt ∧
  setPosition 0 ba = Ret tt ba0 ∧ parse_body (ret false) ba0 = Ret None ba1.
Proof.
  apply (notify_never_parses (H:=zeroed) (ret false)
    (mkNotify 7 (String.list_ascii_of_string "hi"))).
  - vm_compute. split; [discriminate|reflexivity].
  - vm_compute. lia.
Defined.

(** [RockResponse::parserFromByteArray] reports failure on every input,
    valid ones included. *)
Theorem response_parse_never_true (r : RockResponse) (ba : t) b s' :
  RockResponse_parse (r, ba) = Ret b s' → b = false.
Proof.
  unfold RockResponse_parse, bind at 1. unfold ret.
  destruct (try_catch _ _ (r, ba)); intros; by simplify_eq.
Qed.

Definition response_frame : t :=
  mk 0 4 8 12 BOBLIEW_BIG_ENDIAN
    [[z2b 1; z2b 2; z2b 0; z2b 0]; [z2b 1; z2b 65; z2b 0; z2b 0];
     [z2b 0; z2b 0; z2b 0; z2b 0]] (Some 0%nat).

Lemma response_parse_never_true_witness :
  ∃ s', RockResponse_parse (new_RockResponse, response_frame) = Ret false s' ∧
    ∀ b s'', RockResponse_parse (new_RockResponse, response_frame) = Ret b s'' → b = false.
Proof.
  eexists. split; [vm_compute; reflexivity|].
  intros b s''. apply (response_parse_never_true new_RockResponse response_frame b s'').
Defined.

(** The frame header written by [serializeTo] is the header [parserFrom]
    reads back. *)
Theorem header_roundtrip (h : RockMsgHeader) :
  length (magic h) = 2%nat → in_u 8 (version h) → in_u 8 (flag h) → in_range int32_t (length_ h) →
  header_of (header_bytes h) = h ∧ length (header_bytes h) = 8%nat.
Proof. intros. split; [by apply header_of_bytes|by apply length_header_bytes]. Qed.

Lemma header_roundtrip_witness :
  header_of (header_bytes (mkHeader s_rock_magic 1 1 (-77))) = mkHeader s_rock_magic 1 1 (-77) ∧
  length (header_bytes (mkHeader s_rock_magic 1 1 (-77))) = 8%nat.
Proof.
  apply (header_roundtrip (mkHeader s_rock_magic 1 1 (-77))).
  - reflexivity.
  - vm_compute. split; [discriminate|reflexivity].
  - vm_compute. split; [discriminate|reflexivity].
  - vm_compute. split; [discriminate|reflexivity].
Defined.

(** Sending a notification below the gzip threshold puts at most its 8-byte
    header on the stream, although the result counts the body as sent. *)
Theorem serializeTo_drops_body `{Alloc} {Zs} `{Codec Zs} {W} `{StreamLaws W}
    (gzip_init : bool → option Zs) (zfuel : nat) (gzip_min_length : Z) (r : RockNotify) (w : W) :
  in_u 32 (nt_notify r) → (length (nt_body r) < 128)%nat → 256 ≤ gzip_min_length →
  ∃ h rt k w', length h = 8%nat ∧
    serializeTo gzip_init zfuel gzip_min_length (MNotify r) w = Ret rt w' ∧
    outgoing w' = outgoing w ++ take k h ∧ (8 < rt ∧ k = 8%nat ∨ rt = -3 ∧ (k < 8)%nat).
Proof.
  intros Hn Hb Hgz. destruct (notify_emits r Hn Hb) as (vb & Hrd & Hvb & Hem).
  destruct (serializeTo_header_only gzip_init zfuel gzip_min_length (MNotify r) _ w Hem)
    as (h & rt & k & w' & Hh & Hm & _ & Hout & Hcase);
    [rewrite !length_app; simpl; lia..|].
  exists h, rt, k, w'. split_and!; [done|done|done|].
  rewrite !length_app in Hcase. simpl in Hcase. destruct Hcase as [[-> ->]|[-> ?]]; [left|right]; lia.
Qed.

Lemma serializeTo_drops_body_witness : ∃ h rt k w', length h = 8%nat ∧
  serializeTo (H:=zeroed) (H1:=SocketStream.socket_stream (H0:=zeroed))
    (λ _, Some ([] : ZlibStream.stored)) 10 4096
    (MNotify (mkNotify 7 (String.list_ascii_of_string "hi"))) Pipe.demo = Ret rt w' ∧
  SocketStream.out_of w' = SocketStream.out_of Pipe.demo ++ take k h ∧
  (8 < rt ∧ k = 8%nat ∨ rt = -3 ∧ (k < 8)%nat).
Proof.
  apply (serializeTo_drops_body (H:=zeroed) (H2:=SocketStream.socket_stream_laws (H1:=zeroed))
    (λ _, Some ([] : ZlibStream.stored)) 10 4096
    (mkNotify 7 (String.list_ascii_of_string "hi")) Pipe.demo).
  - vm_compute. split; [discriminate|reflexivity].
  - vm_compute. lia.
  - lia.
Defined.

(** A response frame of exactly 4096 bytes that ends in an empty body. *)
Definition full_frame : list ascii :=
  [z2b RESPONSE; z2b 1; z2b 2; z2b 0] ++ be_bytes 2 4088 ++ replicate 4088 (z2b 65)
  ++ [z2b 0; z2b 0].
Definition hostile_peer : SocketStream.t Pipe.t :=
  SocketStream.mk (Some (Pipe.mk (header_bytes (mkHeader s_rock_magic 1 0 (bswap_32 4096))
    ++ full_frame) [] 4096 true)) true.

(** A peer can crash the decoder: a response frame that fills its 4096-byte
    node and ends in an empty body makes [readStringVint] read through the null
    [m_curr]. *)
Theorem full_frame_crashes :
  length full_frame = 4096%nat ∧
  parserFrom (H:=zeroed) (H1:=SocketStream.socket_stream (H0:=zeroed))
    (λ _, Some ([] : ZlibStream.stored)) 10 (ret false) (64 * 1024 * 1024) hostile_peer = UB.
Proof. split; vm_compute; reflexivity. Qed.

End Protocol.
