(* ===== verification/Timer.v ===== *)
(** * Timers (src/bobliew/timer.{h,cc})

    A [Timer] is an object in a store addressed by its pointer; the manager's
    [std::set<Timer::ptr, Comparator>] is the list of those pointers in the
    order of the comparator, with the set's search by [lower_bound].  The
    comparator reads [m_next] through the pointers, so an operation that changed
    [m_next] of a timer in the set would break the order: the invariant [wf]
    shows none does.  The clock is an argument [now] of the operations that call
    [GetCurrentMS], and a new object's address an argument too. *)

From stdpp Require Import sorting.
From S2P Require Import Prelude.

Module Timer.

(** The order of the set *)

(** [Timer::Comparator], on ([m_next], address) pairs. *)
Definition Comparator (lhs rhs : Z * Z) : bool :=
  if (fst lhs =? 0) && (fst rhs =? 0) then false
  else if fst lhs =? 0 then true
  else if fst rhs =? 0 then false
  else if fst lhs <? fst rhs then true
  else if fst rhs <? fst lhs then false
  else snd lhs <? snd rhs.

(** The longest prefix satisfying [p], and the rest. *)
Fixpoint span {A} (p : A → bool) (l : list A) : list A * list A :=
  match l with
  | [] => ([], [])
  | x :: l' => if p x then let '(a, b) := span p l' in (x :: a, b) else ([], l)
  end.

Section set_operations.
Context (key : Z → Z * Z).

(** [std::set::lower_bound]: splits at the first element not less than [k]. *)
Definition lower_bound (k : Z * Z) (l : list Z) : list Z * list Z :=
  span (λ y, Comparator (key y) k) l.

(** [std::set::insert]: nothing when an equivalent element is there. *)
Definition set_insert (a : Z) (l : list Z) : list Z :=
  let '(pre, suf) := lower_bound (key a) l in
  match suf with
  | y :: _ => if Comparator (key a) (key y) then pre ++ a :: suf else l
  | [] => pre ++ [a]
  end.

(** [std::set::find] and [erase]: [None] when no equivalent element is there. *)
Definition set_erase (a : Z) (l : list Z) : option (list Z) :=
  let '(pre, suf) := lower_bound (key a) l in
  match suf with
  | y :: suf' => if Comparator (key a) (key y) then None else Some (pre ++ suf')
  | [] => None
  end.

End set_operations.

Section manager.
(** The callbacks. *)
Context {C : Type}.

Record timer := mk { m_recurring : bool; m_ms : Z; m_next : Z; m_cb : option C }.

Record manager := Mgr {
  store : gmap Z timer;
  m_timers : list Z;
  m_tickled : bool;
  m_previousTime : Z
}.

Definition next_of (s : gmap Z timer) (a : Z) : Z :=
  match s !! a with Some t => m_next t | None => 0 end.
Definition key_of (s : gmap Z timer) (a : Z) : Z * Z := (next_of s a, a).

Definition set_next (t : timer) (v : Z) : timer := mk (m_recurring t) (m_ms t) v (m_cb t).
Definition clear_cb (t : timer) : timer := mk (m_recurring t) (m_ms t) (m_next t) None.

Definition new_manager : manager := Mgr ∅ [] false 0.

(** [addTimer(Timer::ptr, lock)]: the second result tells whether
    [onTimerInsertedAtFront] is called. *)
Definition addTimer_ptr (a : Z) (st : manager) : manager * bool :=
  let l := set_insert (key_of (store st)) a (m_timers st) in
  (* [insert(val).first]: the inserted element or the equivalent one *)
  let it_is_begin :=
    match l with
    | y :: _ => negb (Comparator (key_of (store st) y) (key_of (store st) a))
    | [] => false
    end in
  let at_front := it_is_begin && negb (m_tickled st) in
  (Mgr (store st) l (if at_front then true else m_tickled st) (m_previousTime st), at_front).

(** [addTimer(ms, cb, recurring)], the new object at address [a]. *)
Definition addTimer (now a ms : Z) (cb : C) (recurring : bool) (st : manager) : manager * bool :=
  let t := mk recurring ms (wrap 64 (now + ms)) (Some cb) in
  addTimer_ptr a (Mgr (<[a := t]> (store st)) (m_timers st) (m_tickled st) (m_previousTime st)).

Definition getNextTimer (now : Z) (st : manager) : manager * Z :=
  let st := Mgr (store st) (m_timers st) false (m_previousTime st) in
  match m_timers st with
  | [] => (st, 2 ^ 64 - 1)
  | a :: _ =>
      let nxt := next_of (store st) a in
      (st, if nxt <=? now then 0 else wrap 64 (nxt - now))
  end.

Definition detectClockRollover (now : Z) (st : manager) : manager * bool :=
  let rollover := (now <? m_previousTime st)
                  && (now <? wrap 64 (m_previousTime st - 60 * 60 * 1000)) in
  (Mgr (store st) (m_timers st) (m_tickled st) now, rollover).

(** The elements before [it]: [lower_bound(now_timer)], then past those due
    exactly now; [a0] is the address of [now_timer]. *)
Definition split_expired (a0 now : Z) (s : gmap Z timer) (l : list Z) : list Z * list Z :=
  let '(p, q) := lower_bound (key_of s) (now, a0) l in
  let '(p2, q2) := span (λ y, next_of s y =? now) q in
  (p ++ p2, q2).

(** The loop over [expired]; [None] if a pointer dangles. *)
Fixpoint fire (now : Z) (expired : list Z) (s : gmap Z timer) (l : list Z)
    : option (gmap Z timer * list Z * list (option C)) :=
  match expired with
  | [] => Some (s, l, [])
  | a :: expired =>
      t ← s !! a;
      let '(s, l) :=
        if m_recurring t then
          let s := <[a := set_next t (wrap 64 (now + m_ms t))]> s in
          (s, set_insert (key_of s) a l)
        else (<[a := clear_cb t]> s, l) in
      '(s, l, cbs) ← fire now expired s l;
      Some (s, l, m_cb t :: cbs)
  end.

(** [listExpireCb]: the callbacks pushed.  The debug line reads [expired[0]],
    undefined when nothing expired. *)
Definition listExpireCb (now a0 : Z) (st : manager) : option (manager * list (option C)) :=
  match m_timers st with
  | [] => Some (st, [])
  | first :: _ =>
      let '(st, rollover) := detectClockRollover now st in
      if negb rollover && (now <? next_of (store st) first) then Some (st, [])
      else
        let '(expired, rest) :=
          if rollover then (m_timers st, []) else split_expired a0 now (store st) (m_timers st) in
        match expired with
        | [] => None
        | _ =>
            '(s, l, cbs) ← fire now expired (store st) rest;
            Some (Mgr s l (m_tickled st) (m_previousTime st), cbs)
        end
  end.

(** [Timer::cancel]: erasing the end iterator is undefined. *)
Definition cancel (a : Z) (st : manager) : option (manager * bool) :=
  t ← store st !! a;
  match m_cb t with
  | Some _ =>
      let s := <[a := clear_cb t]> (store st) in
      l ← set_erase (key_of s) a (m_timers st);
      Some (Mgr s l (m_tickled st) (m_previousTime st), true)
  | None => Some (st, false)
  end.

(** [Timer::reset]; the third result is the call of [onTimerInsertedAtFront]. *)
Definition reset (now a ms : Z) (from_now : bool) (st : manager)
    : option (manager * bool * bool) :=
  t ← store st !! a;
  if (ms =? m_ms t) && negb from_now then Some (st, true, false)
  else
    match m_cb t with
    | None => Some (st, false, false)
    | Some _ =>
        match set_erase (key_of (store st)) a (m_timers st) with
        | None => Some (st, false, false)
        | Some l =>
            let start := if from_now then now else wrap 64 (m_next t - m_ms t) in
            let t := mk (m_recurring t) ms (wrap 64 (start + ms)) (m_cb t) in
            let '(st, front) :=
              addTimer_ptr a (Mgr (<[a := t]> (store st)) l (m_tickled st) (m_previousTime st)) in
            Some (st, true, front)
        end
    end.

Definition refresh (now a : Z) (st : manager) : option (manager * bool) :=
  t ← store st !! a;
  match m_cb t with
  | None => Some (st, false)
  | Some _ =>
      match set_erase (key_of (store st)) a (m_timers st) with
      | None => Some (st, false)
      | Some l =>
          let s := <[a := set_next t (wrap 64 (now + m_ms t))]> (store st) in
          Some (Mgr s (set_insert (key_of s) a l) (m_tickled st) (m_previousTime st), true)
      end
  end.

Definition hasTimer (st : manager) : bool :=
  match m_timers st with [] => false | _ => true end.

End manager.

#[global] Arguments timer : clear implicits.
#[global] Arguments manager : clear implicits.

(** ** Condition timers *)

(** What a timer calls: a plain callback, or [OnTimer] bound to a weak pointer
    (by the address of what it observes) and a callback. *)
Inductive bound (C : Type) := Plain (cb : C) | OnTimer (weak_cond : Z) (cb : C).
#[global] Arguments Plain {C} cb.
#[global] Arguments OnTimer {C} weak_cond cb.

(** What is called in the end, [alive] telling which [weak_ptr]s can be locked. *)
Definition run_bound {C} (alive : Z → bool) (b : bound C) : option C :=
  match b with
  | Plain cb => Some cb
  | OnTimer weak_cond cb => if alive weak_cond then Some cb else None
  end.

(** [addConditionTimer] *)
Definition addConditionTimer {C} (now a ms : Z) (cb : C) (weak_cond : Z) (recurring : bool)
    (st : manager (bound C)) : manager (bound C) * bool :=
  addTimer now a ms (OnTimer weak_cond cb) recurring st.

(** ** The set operations on a sorted list *)

Lemma span_spec {A} (p : A → bool) l :
  ∃ a b, span p l = (a, b) ∧ l = a ++ b ∧ Forall p a ∧
    (∀ x, head b = Some x → p x = false).
Proof.
  induction l as [|x l (a & b & Hs & Hl & Ha & Hb)]; [by exists [], []|]. simpl.
  destruct (p x) eqn:Hp.
  - rewrite Hs. exists (x :: a), b. split_and!; [done|by rewrite Hl|constructor; [by rewrite Hp|done]|done].
  - exists [], (x :: l). split_and!; [done|done|done|]. intros y [= <-]. done.
Qed.

Section set_facts.
Context (nx : Z → Z).
Abbreviation key := (λ a, (nx a, a)).

(** The strict order the comparator gives timers whose [m_next] is not 0. *)
Definition before (x y : Z) : Prop := nx x < nx y ∨ nx x = nx y ∧ x < y.
Definition armed (a : Z) : Prop := 0 < nx a.

Lemma Comparator_spec n1 a1 n2 a2 :
  0 < n1 → 0 < n2 →
  Comparator (n1, a1) (n2, a2) = true ↔ n1 < n2 ∨ n1 = n2 ∧ a1 < a2.
Proof.
  intros H1 H2. unfold Comparator; cbn.
  rewrite (proj2 (Z.eqb_neq n1 0)), (proj2 (Z.eqb_neq n2 0)) by lia. cbn.
  destruct (Z.ltb_spec n1 n2); [split; [|lia]; (done || lia)|].
  destruct (Z.ltb_spec n2 n1); [split; [|lia]; (done || lia)|]. rewrite Z.ltb_lt. lia.
Qed.

Lemma Comparator_before x y : armed x → armed y → Comparator (key x) (key y) = true ↔ before x y.
Proof. apply Comparator_spec. Qed.

Lemma before_trans x y z : before x y → before y z → before x z.
Proof. unfold before. lia. Qed.

Lemma before_total x y : x ≠ y → before x y ∨ before y x.
Proof. unfold before. lia. Qed.

Lemma before_irrefl x : ¬ before x x.
Proof. unfold before. lia. Qed.

(** Splitting at a key [k] that belongs to an element [a] or to none. *)
Lemma lower_bound_spec a l :
  StronglySorted before l → Forall armed l → armed a →
  ∃ pre suf, lower_bound key (key a) l = (pre, suf) ∧ l = pre ++ suf ∧
    Forall (λ y, before y a) pre ∧ Forall (λ y, y = a ∨ before a y) suf.
Proof.
  intros Hs Ha Haa. unfold lower_bound.
  destruct (span_spec (λ y, Comparator (key y) (key a)) l) as (pre & suf & -> & Hl & Hpre & Hsuf).
  exists pre, suf. rewrite Hl in Hs, Ha. apply Forall_app in Ha as [Hap Has].
  split_and!; [done|done| |].
  - rewrite Forall_forall in Hpre, Hap |- *. intros y Hy.
    apply Comparator_before; [by apply Hap|done|]. apply Is_true_true, Hpre, Hy.
  - destruct suf as [|y suf]; [done|]. specialize (Hsuf y eq_refl).
    apply StronglySorted_app_1_r in Hs. apply StronglySorted_cons in Hs as [Hy _].
    apply Forall_cons in Has as [Hay _].
    assert (y = a ∨ before a y) as Hhead.
    { destruct (decide (y = a)); [by left|right]. destruct (before_total y a) as [Hb|]; [done| |done].
      apply (Comparator_before y a Hay Haa) in Hb. congruence. }
    constructor; [done|]. eapply Forall_impl; [exact Hy|]. intros z Hz. right.
    destruct Hhead as [->|Hh]; [done|by eapply before_trans].
Qed.

Lemma set_insert_spec a l :
  StronglySorted before l → Forall armed l → armed a → a ∉ l →
  set_insert key a l ≡ₚ a :: l ∧ StronglySorted before (set_insert key a l).
Proof.
  intros Hs Ha Haa Hni. unfold set_insert.
  destruct (lower_bound_spec a l Hs Ha Haa) as (pre & suf & -> & Hl & Hpre & Hsuf).
  assert (Forall (before a) suf) as Hsuf'.
  { rewrite Forall_forall in Hsuf |- *. intros y Hy. destruct (Hsuf y Hy) as [->|]; [|done].
    destruct Hni. rewrite Hl. set_solver. }
  assert (StronglySorted before (pre ++ a :: suf)) as Hsort.
  { rewrite Hl in Hs. apply StronglySorted_app in Hs as (Hx & H1 & H2).
    apply StronglySorted_app. split_and!; [|done|by constructor].
    intros x1 x2 Hx1 Hx2. rewrite Forall_forall in Hpre.
    apply elem_of_cons in Hx2 as [->|Hx2]; [by apply Hpre|by apply Hx]. }
  assert (pre ++ a :: suf ≡ₚ a :: l) as Hperm by (rewrite Hl; by rewrite <- Permutation_middle).
  destruct suf as [|y suf]; [done|].
  apply Forall_cons in Hsuf' as [Hay _]. rewrite Hl in Ha. apply Forall_app in Ha as [_ Has].
  apply Forall_cons in Has as [Hya _].
  apply (Comparator_before a y Haa Hya) in Hay. by rewrite Hay.
Qed.

Lemma set_erase_spec a l :
  StronglySorted before l → Forall armed l → a ∈ l →
  ∃ pre post, set_erase key a l = Some (pre ++ post) ∧ l = pre ++ a :: post.
Proof.
  intros Hs Ha Hin. assert (armed a) as Haa by (rewrite Forall_forall in Ha; by apply Ha).
  unfold set_erase. destruct (lower_bound_spec a l Hs Ha Haa) as (pre & suf & -> & Hl & Hpre & Hsuf).
  assert (a ∈ suf) as Hsuf_a.
  { rewrite Hl in Hin. apply elem_of_app in Hin as [Hin|]; [|done].
    rewrite Forall_forall in Hpre. by destruct (before_irrefl a (Hpre a Hin)). }
  destruct suf as [|y suf]; [by apply not_elem_of_nil in Hsuf_a|].
  assert (y = a) as ->.
  { apply Forall_cons in Hsuf as [[->|Hay] _]; [done|].
    apply elem_of_cons in Hsuf_a as [->|Hin']; [done|].
    rewrite Hl in Hs. apply StronglySorted_app_1_r, StronglySorted_cons in Hs as [Hy _].
    rewrite Forall_forall in Hy. pose proof (before_trans _ _ _ Hay (Hy a Hin')) as Hc.
    by destruct (before_irrefl a). }
  assert (Comparator (key a) (key a) = false) as Hf.
  { apply not_true_is_false. rewrite Comparator_before by done. apply before_irrefl. }
  rewrite Hf. by exists pre, suf.
Qed.

Lemma set_erase_none a l :
  StronglySorted before l → Forall armed l → armed a → a ∉ l → set_erase key a l = None.
Proof.
  intros Hs Ha Haa Hni. unfold set_erase.
  destruct (lower_bound_spec a l Hs Ha Haa) as (pre & suf & -> & Hl & Hpre & Hsuf).
  destruct suf as [|y suf]; [done|]. apply Forall_cons in Hsuf as [[->|Hay] _].
  - destruct Hni. rewrite Hl. set_solver.
  - assert (armed y) by (rewrite Hl, Forall_app in Ha; by destruct Ha as [_ [? _]%Forall_cons]).
    apply (Comparator_before a y) in Hay; [by rewrite Hay|done|done].
Qed.

(** Everything due at [now] sits at the front, and [lower_bound] of any timer
    with deadline [now], followed by the equality loop, finds where it ends. *)
Lemma due_prefix now l :
  StronglySorted before l →
  ∃ due rest, l = due ++ rest ∧ Forall (λ y, nx y ≤ now) due ∧ Forall (λ y, now < nx y) rest.
Proof.
  intros Hs. destruct (span_spec (λ y, nx y <=? now) l) as (due & rest & _ & Hl & Hd & Hr).
  exists due, rest. split_and!; [done| |].
  - eapply Forall_impl; [exact Hd|]. intros y Hy%Is_true_true%Z.leb_le. done.
  - destruct rest as [|y rest]; [done|]. specialize (Hr y eq_refl). apply Z.leb_gt in Hr.
    rewrite Hl in Hs. apply StronglySorted_app_1_r, StronglySorted_cons in Hs as [Hy _].
    constructor; [done|]. eapply Forall_impl; [exact Hy|]. unfold before. lia.
Qed.

Lemma span_app {A} (p : A → bool) l1 l2 :
  Forall p l1 → (∀ x, head l2 = Some x → p x = false) → span p (l1 ++ l2) = (l1, l2).
Proof.
  intros H1 H2. induction H1 as [|x l1 Hx H1 IH]; simpl.
  - destruct l2 as [|y l2]; [done|]. simpl. by rewrite (H2 y eq_refl).
  - apply Is_true_true in Hx. by rewrite Hx, IH.
Qed.

End set_facts.

Lemma span_ext {A} (p q : A → bool) l : (∀ x, p x = q x) → span p l = span q l.
Proof. intros He. induction l as [|x l IH]; [done|]. simpl. by rewrite He, IH. Qed.

Lemma set_erase_ext key1 key2 a l :
  (∀ b, key1 b = key2 b) → set_erase key1 a l = set_erase key2 a l.
Proof.
  intros He. unfold set_erase, lower_bound.
  rewrite (span_ext _ (λ y, Comparator (key2 y) (key2 a))) by (intros; by rewrite !He).
  destruct (span _ _) as [pre [|y suf]]; [done|]. by rewrite !He.
Qed.

(** ** The manager's invariant *)

Section invariant.
Context {C : Type}.
Implicit Types (s : gmap Z (timer C)) (l : list Z) (a b now : Z).

(** A timer that still has its callback. *)
Definition live s a : Prop := ∃ t, s !! a = Some t ∧ is_Some (m_cb t).

(** The deadline is a past start plus the period, in 64 bits. *)
Definition good (t : timer C) : Prop := 0 ≤ m_ms t < m_next t ∧ m_next t < 2 ^ 64.

Record wf_sl s l : Prop := {
  sl_sorted : StronglySorted (before (next_of s)) l;
  sl_live : ∀ a, a ∈ l ↔ live s a;
  sl_good : ∀ a t, s !! a = Some t → is_Some (m_cb t) → good t
}.

Definition wf (st : manager C) : Prop := wf_sl (store st) (m_timers st).

(** The same with the timer [a] taken out of the set. *)
Record wf_hole s l a : Prop := {
  hole_sorted : StronglySorted (before (next_of s)) l;
  hole_live : ∀ b, b ∈ l ↔ live s b ∧ b ≠ a;
  hole_good : ∀ b t, b ≠ a → s !! b = Some t → is_Some (m_cb t) → good t
}.

Lemma next_of_insert_ne s a b t : a ≠ b → next_of (<[a := t]> s) b = next_of s b.
Proof. intros. unfold next_of. by rewrite lookup_insert_ne. Qed.

Lemma next_of_insert s a t : next_of (<[a := t]> s) a = m_next t.
Proof. unfold next_of. by rewrite lookup_insert_eq. Qed.

Lemma sorted_ext nx1 nx2 l :
  (∀ b, b ∈ l → nx1 b = nx2 b) → StronglySorted (before nx1) l → StronglySorted (before nx2) l.
Proof.
  intros Hext Hs. induction Hs as [|x l Hs IH Hx]; constructor.
  - apply IH. intros. apply Hext. by right.
  - rewrite Forall_forall in Hx |- *. intros y Hy. specialize (Hx y Hy).
    unfold before in *. rewrite <- !Hext; [done|by right|by left].
Qed.

Lemma armed_all s l :
  (∀ b, b ∈ l → live s b) → (∀ b t, b ∈ l → s !! b = Some t → is_Some (m_cb t) → good t) →
  Forall (armed (next_of s)) l.
Proof.
  intros Hl Hg. apply Forall_forall. intros b Hb. destruct (Hl b Hb) as (t & Ht & Hcb).
  unfold armed, next_of. rewrite Ht. destruct (Hg b t Hb Ht Hcb). lia.
Qed.

Lemma wf_armed s l : wf_sl s l → Forall (armed (next_of s)) l.
Proof.
  intros Hwf. apply armed_all.
  - intros b Hb. by apply (sl_live s l Hwf).
  - intros b t _. by apply (sl_good s l Hwf).
Qed.

Lemma erase_hole s l a :
  wf_sl s l → a ∈ l → ∃ l', set_erase (key_of s) a l = Some l' ∧ wf_hole s l' a.
Proof.
  intros Hwf Ha. destruct (set_erase_spec (next_of s) a l) as (pre & post & Hl' & Hl);
    [apply Hwf|by apply wf_armed|done|].
  exists (pre ++ post). split; [exact Hl'|].
  pose proof (sl_sorted s l Hwf) as Hs. rewrite Hl in Hs.
  apply StronglySorted_app in Hs as (Hx & H1 & H2). apply StronglySorted_cons in H2 as [Hpost H2].
  split.
  - apply StronglySorted_app. split_and!; [|done|done]. intros x1 x2 ??. apply Hx; [done|by right].
  - intros b. rewrite <- (sl_live s l Hwf b), Hl, !elem_of_app, elem_of_cons. split.
    + intros [Hb|Hb]; (split; [tauto|]); intros ->.
      * by destruct (before_irrefl (next_of s) a); apply Hx; [|left].
      * rewrite Forall_forall in Hpost. by destruct (before_irrefl (next_of s) a); apply Hpost.
    + tauto.
  - intros b t _. apply (sl_good s l Hwf).
Qed.

(** Storing a live timer at the hole and inserting it fills the hole. *)
Lemma insert_fills s l a t :
  wf_hole s l a → is_Some (m_cb t) → good t →
  wf_sl (<[a := t]> s) (set_insert (key_of (<[a := t]> s)) a l).
Proof.
  intros [Hs Hl Hg] Hcb Ht. set (s' := <[a := t]> s).
  assert (a ∉ l) as Hni by (rewrite Hl; tauto).
  assert (∀ b, b ∈ l → next_of s b = next_of s' b) as Hext.
  { intros b Hb. symmetry. apply next_of_insert_ne. intros ->. done. }
  assert (live s' a) as Hlive by (exists t; unfold s'; by rewrite lookup_insert_eq).
  assert (∀ b, b ≠ a → s' !! b = s !! b) as Hne by (intros b Hb; by apply lookup_insert_ne).
  destruct (set_insert_spec (next_of s') a l) as [Hperm Hsort].
  - by eapply sorted_ext.
  - apply armed_all.
    + intros b Hb. destruct (proj1 (Hl b) Hb) as [(t' & Ht' & Hcb') Hba].
      exists t'. by rewrite Hne.
    + intros b t' Hb Hb' Hcb'. rewrite Hne in Hb' by (apply Hl in Hb; tauto).
      apply (Hg b); [|done|done]. apply Hl in Hb. tauto.
  - unfold armed, s'. rewrite next_of_insert. destruct Ht. lia.
  - done.
  - change (λ a0, (next_of s' a0, a0)) with (key_of s') in *. split; [done| |].
    + intros b. rewrite Hperm, elem_of_cons, Hl. split.
      * intros [->|[(t' & Ht' & Hcb') Hba]]; [done|]. exists t'. by rewrite Hne.
      * intros (t' & Ht' & Hcb'). destruct (decide (b = a)) as [|Hba]; [by left|right].
        split; [|done]. exists t'. by rewrite <- Hne.
    + intros b t' Ht' Hcb'. destruct (decide (b = a)) as [->|Hba].
      * unfold s' in Ht'. rewrite lookup_insert_eq in Ht'. by simplify_eq.
      * rewrite Hne in Ht' by done. by apply (Hg b).
Qed.

(** Storing a dead timer at the hole leaves the set right. *)
Lemma drop_fills s l a t : wf_hole s l a → m_cb t = None → wf_sl (<[a := t]> s) l.
Proof.
  intros [Hs Hl Hg] Hcb. assert (a ∉ l) as Hni by (rewrite Hl; tauto). split.
  - eapply sorted_ext; [|exact Hs]. intros b Hb. symmetry. apply next_of_insert_ne. by intros ->.
  - intros b. rewrite Hl. unfold live. destruct (decide (b = a)) as [->|Hba].
    + rewrite lookup_insert_eq. split; [tauto|]. intros (t' & [= <-] & Hc). rewrite Hcb in Hc.
      by destruct Hc.
    + rewrite lookup_insert_ne by done. tauto.
  - intros b t' Ht' Hcb'. destruct (decide (b = a)) as [->|Hba].
    + rewrite lookup_insert_eq in Ht'. simplify_eq. rewrite Hcb in Hcb'. by destruct Hcb'.
    + rewrite lookup_insert_ne in Ht' by done. by apply (Hg b).
Qed.

(** A fresh address is a hole. *)
Lemma fresh_hole s l a : wf_sl s l → s !! a = None → wf_hole s l a.
Proof.
  intros Hwf Ha. split; [apply Hwf| |].
  - intros b. rewrite (sl_live s l Hwf b). split; [|tauto]. intros Hb. split; [done|].
    intros ->. destruct Hb as (t & Ht & _). congruence.
  - intros b t _. apply (sl_good s l Hwf).
Qed.

(** *** Firing *)

(** Every timer can be re-armed at [now] without overflow. *)
Definition rearmable now s : Prop :=
  ∀ a t, s !! a = Some t → 0 ≤ m_ms t ∧ now + m_ms t < 2 ^ 64.

(** What firing does to an expired timer. *)
Definition fired now (t : timer C) : timer C :=
  if m_recurring t then set_next t (now + m_ms t) else clear_cb t.

(** The set while the timers [ex] are out of it. *)
Record wf_out s l (ex : list Z) : Prop := {
  out_sorted : StronglySorted (before (next_of s)) l;
  out_live : ∀ b, live s b ↔ b ∈ l ∨ b ∈ ex;
  out_disj : ∀ b, b ∈ l → b ∉ ex;
  out_good : ∀ a t, s !! a = Some t → is_Some (m_cb t) → good t
}.

Lemma fired_good now t : 0 < now → 0 ≤ m_ms t ∧ now + m_ms t < 2 ^ 64 →
  is_Some (m_cb (fired now t)) → good (fired now t).
Proof.
  intros Hnow Hms Hcb. unfold fired, good in *. case_match; [cbn; lia|by destruct Hcb].
Qed.

Lemma insert_rearmable now a t s :
  rearmable now s → s !! a = Some t → rearmable now (<[a := fired now t]> s).
Proof.
  intros Hre Ht b tb Hb. destruct (decide (b = a)) as [->|Hba].
  - rewrite lookup_insert_eq in Hb. injection Hb as <-. unfold fired. case_match; exact (Hre a t Ht).
  - rewrite lookup_insert_ne in Hb by done. by apply (Hre b).
Qed.

(** One round of the loop moves [a] from the expired timers to its place. *)
Lemma fired_out now a ex s l t :
  0 < now → a ∉ ex → wf_out s l (a :: ex) → rearmable now s → s !! a = Some t →
  let s1 := <[a := fired now t]> s in
  wf_out s1 (if m_recurring t then set_insert (key_of s1) a l else l) ex.
Proof.
  intros Hnow Hna [Hs Hlv Hdj Hg] Hre Ht s1.
  assert (∀ b, b ≠ a → s1 !! b = s !! b) as Hne by (intros; by apply lookup_insert_ne).
  assert (s1 !! a = Some (fired now t)) as Heq by apply lookup_insert_eq.
  assert (a ∉ l) as Hnl by (intros Hin; apply (Hdj a Hin); left).
  assert (∀ b, b ∈ l → next_of s b = next_of s1 b) as Hext.
  { intros b Hb. unfold next_of. rewrite Hne; [done|]. by intros ->. }
  assert (StronglySorted (before (next_of s1)) l) as Hs1 by by eapply sorted_ext.
  assert (∀ b tb, s1 !! b = Some tb → is_Some (m_cb tb) → good tb) as Hg1.
  { intros b tb Hb Hcb. destruct (decide (b = a)) as [->|Hba].
    - rewrite Heq in Hb. injection Hb as <-. apply fired_good; [done|by apply (Hre a)|done].
    - rewrite Hne in Hb by done. by apply (Hg b). }
  assert (∀ b, b ≠ a → live s1 b ↔ b ∈ l ∨ b ∈ ex) as Hlv1.
  { intros b Hb. unfold live. rewrite Hne by done. fold (live s b).
    rewrite Hlv, elem_of_cons. tauto. }
  destruct (m_recurring t) eqn:Hrec.
  - destruct (set_insert_spec (next_of s1) a l) as [Hperm Hsort]; [done| | |done|].
    + apply armed_all.
      * intros b Hb. apply Hlv1; [by intros ->|by left].
      * intros b tb _. apply Hg1.
    + unfold armed, next_of. rewrite Heq. unfold fired. rewrite Hrec. cbn.
      destruct (Hre a t Ht). lia.
    + change (λ a0, (next_of s1 a0, a0)) with (key_of s1) in *. split; [done| | |done].
      * intros b. rewrite Hperm, elem_of_cons. destruct (decide (b = a)) as [->|Hba].
        -- split; [tauto|]. intros _. exists (fired now t). split; [done|].
           unfold fired. rewrite Hrec. cbn. destruct (proj2 (Hlv a)) as (t' & Ht' & Hcb'); [right; left|].
           by simplify_eq.
        -- rewrite Hlv1 by done. tauto.
      * intros b. rewrite Hperm, elem_of_cons. intros [->|Hb]; [done|]. intros Hin.
        apply (Hdj b Hb). by right.
  - split; [done| | |done].
    + intros b. destruct (decide (b = a)) as [->|Hba]; [|by apply Hlv1].
      split; [|tauto]. intros (tb & Htb & Hcb). rewrite Heq in Htb. injection Htb as <-.
      unfold fired in Hcb. rewrite Hrec in Hcb. by destruct Hcb.
    + intros b Hb Hin. apply (Hdj b Hb). by right.
Qed.

Lemma fire_spec now ex s l :
  0 < now → NoDup ex → wf_out s l ex → rearmable now s →
  ∃ s' l' cbs, fire now ex s l = Some (s', l', cbs) ∧ wf_sl s' l' ∧
    cbs = (λ a, s !! a ≫= m_cb) <$> ex ∧
    ∀ a, s' !! a = if decide (a ∈ ex) then fired now <$> s !! a else s !! a.
Proof.
  intros Hnow. revert s l. induction ex as [|a ex IH]; intros s l Hnd Hout Hre.
  { destruct Hout as [Hs Hlv Hdj Hg]. exists s, l, []. split_and!; [done| |done|done].
    split; [done| |done]. intros b. rewrite Hlv, elem_of_nil. tauto. }
  apply NoDup_cons in Hnd as [Hna Hnd]. cbn [fire].
  destruct (proj2 (out_live _ _ _ Hout a)) as (t & Ht & Hcb); [right; left|]. rewrite Ht. cbn.
  rewrite wrap_small by (unfold in_u; destruct (Hre a t Ht); lia).
  destruct (IH _ _ Hnd (fired_out now a ex s l t Hnow Hna Hout Hre Ht)
    (insert_rearmable now a t s Hre Ht)) as (s2 & l2 & cbs & Hf & Hwf & Hcbs & Hst).
  exists s2, l2, (m_cb t :: cbs). split_and!; [|done| |].
  - unfold fired in Hf. destruct (m_recurring t); by rewrite Hf.
  - rewrite Hcbs. simpl. rewrite Ht. simpl. f_equal. apply list_fmap_ext. intros i b Hb.
    rewrite lookup_insert_ne; [done|]. intros <-. apply Hna. by eapply list_elem_of_lookup_2.
  - intros b. rewrite Hst. destruct (decide (b = a)) as [->|Hba].
    + rewrite decide_False, decide_True by (done || by left). by rewrite lookup_insert_eq, Ht.
    + rewrite lookup_insert_ne by done. destruct (decide (b ∈ ex)).
      * by rewrite decide_True by by right.
      * rewrite decide_False; [done|]. rewrite elem_of_cons. tauto.
Qed.

(** *** Where the expired timers end *)

Lemma split_expired_spec a0 now s l :
  0 < now → wf_sl s l →
  ∃ due rest, split_expired a0 now s l = (due, rest) ∧ l = due ++ rest ∧
    Forall (λ y, next_of s y ≤ now) due ∧ Forall (λ y, now < next_of s y) rest.
Proof.
  intros Hnow Hwf. unfold split_expired, lower_bound.
  destruct (span_spec (λ y, Comparator (key_of s y) (now, a0)) l) as (p & q & -> & Hl & Hp & Hq).
  destruct (span_spec (λ y, next_of s y =? now) q) as (p2 & q2 & -> & Hq2 & Hp2 & Hh2).
  pose proof (wf_armed s l Hwf) as Harm. pose proof (sl_sorted s l Hwf) as Hs.
  rewrite Hl in Hs, Harm. apply Forall_app in Harm as [Hap Haq].
  apply StronglySorted_app_1_r in Hs.
  exists (p ++ p2), q2. split_and!; [done|by rewrite Hl, Hq2, (assoc_L (++))| |].
  - apply Forall_app. split.
    + rewrite Forall_forall in Hp, Hap |- *. intros y Hy. specialize (Hp y Hy). specialize (Hap y Hy).
      apply Is_true_true, Comparator_spec in Hp; [lia|done|done].
    + eapply Forall_impl; [exact Hp2|]. intros y Hy%Is_true_true%Z.eqb_eq. lia.
  - assert (∀ y, head q = Some y → now ≤ next_of s y) as Hhead.
    { intros y Hy. specialize (Hq y Hy). destruct q as [|y' q']; [done|]. injection Hy as ->.
      apply Forall_cons in Haq as [Hay _]. unfold armed in Hay.
      destruct (decide (now ≤ next_of s y)); [done|].
      assert (Comparator (next_of s y, y) (now, a0) = true) as Hc by (apply Comparator_spec; lia).
      unfold key_of in Hq. congruence. }
    assert (Forall (λ y, now ≤ next_of s y) q) as Hall.
    { destruct q as [|y q']; [done|]. specialize (Hhead y eq_refl).
      apply StronglySorted_cons in Hs as [Hy _]. constructor; [done|].
      eapply Forall_impl; [exact Hy|]. unfold before. lia. }
    destruct q2 as [|y q2]; [done|]. specialize (Hh2 y eq_refl). apply Z.eqb_neq in Hh2.
    rewrite Hq2 in Hs, Hall. apply StronglySorted_app_1_r, StronglySorted_cons in Hs as [Hy _].
    apply Forall_app in Hall as [_ [Hnow_y _]%Forall_cons].
    constructor; [lia|]. eapply Forall_impl; [exact Hy|]. unfold before. lia.
Qed.

Lemma sorted_NoDup nx l : StronglySorted (before nx) l → NoDup l.
Proof.
  induction 1 as [|x l Hs IH Hx]; constructor; [|done].
  intros Hin. rewrite Forall_forall in Hx. by apply (before_irrefl nx x), Hx.
Qed.

Lemma wf_out_split s l due rest : wf_sl s l → l = due ++ rest → wf_out s rest due.
Proof.
  intros Hwf Hl. pose proof (sl_sorted s l Hwf) as Hs. pose proof (sorted_NoDup _ _ Hs) as Hnd.
  rewrite Hl in Hs, Hnd. apply NoDup_app in Hnd as (_ & Hdj & _). split.
  - by apply StronglySorted_app_1_r in Hs.
  - intros b. rewrite <- (sl_live s l Hwf b), Hl, elem_of_app. tauto.
  - intros b Hb Hin. by apply (Hdj b).
  - apply (sl_good s l Hwf).
Qed.

End invariant.

(** ** Each operation keeps the invariant *)

Section operations_facts.
Context {C : Type}.
Implicit Types (st : manager C) (a now ms : Z).

Lemma addTimer_wf now a ms cb rec st :
  wf st → store st !! a = None → 0 < now → 0 ≤ ms → now + ms < 2 ^ 64 →
  wf (fst (addTimer now a ms cb rec st)).
Proof.
  intros Hwf Ha Hnow Hms Hfit. unfold addTimer. rewrite wrap_small by (unfold in_u; lia).
  apply insert_fills; [by apply fresh_hole|done|]. unfold good; cbn. lia.
Qed.

Lemma cancel_spec a t st :
  wf st → store st !! a = Some t →
  ∃ st' r, cancel a st = Some (st', r) ∧ wf st' ∧ (r = true ↔ is_Some (m_cb t)) ∧
    (∀ b, live (store st') b ↔ live (store st) b ∧ b ≠ a).
Proof.
  intros Hwf Ha. unfold cancel. rewrite Ha. cbn. destruct (m_cb t) as [c|] eqn:Hcb.
  2: { exists st, false. split_and!; [done|done|split; [done|by intros []]|].
       intros b. split; [|tauto]. intros Hb. split; [done|]. intros ->.
       destruct Hb as (t' & Ht' & Hc'). simplify_eq. rewrite Hcb in Hc'. by destruct Hc'. }
  assert (a ∈ m_timers st) as Hin.
  { apply (sl_live _ _ Hwf). exists t. split; [done|]. rewrite Hcb. by eexists. }
  destruct (erase_hole _ _ a Hwf Hin) as (l' & He & Hhole).
  assert (set_erase (key_of (<[a := clear_cb t]> (store st))) a (m_timers st) = Some l') as ->.
  { rewrite <- He. apply set_erase_ext. intros b. unfold key_of. f_equal.
    destruct (decide (a = b)) as [<-|Hne]; [|by apply next_of_insert_ne].
    rewrite next_of_insert. unfold next_of. by rewrite Ha. }
  eexists _, true. cbn. split_and!; [done|by apply drop_fills|split; [by eexists|done]|].
  intros b. cbn. rewrite <- (hole_live _ _ _ Hhole b).
  rewrite <- (sl_live _ _ (drop_fills _ _ _ (clear_cb t) Hhole eq_refl) b). done.
Qed.

Lemma refresh_spec now a t st :
  wf st → store st !! a = Some t → 0 < now → 0 ≤ m_ms t → now + m_ms t < 2 ^ 64 →
  ∃ st' r, refresh now a st = Some (st', r) ∧ wf st' ∧ (r = true ↔ is_Some (m_cb t)) ∧
    (r = true → next_of (store st') a = now + m_ms t).
Proof.
  intros Hwf Ha Hnow Hms Hfit. unfold refresh. rewrite Ha. cbn. destruct (m_cb t) as [c|] eqn:Hcb.
  2: { exists st, false. split_and!; [done|done|split; [done|by intros []]|done]. }
  assert (a ∈ m_timers st) as Hin.
  { apply (sl_live _ _ Hwf). exists t. split; [done|]. rewrite Hcb. by eexists. }
  destruct (erase_hole _ _ a Hwf Hin) as (l' & -> & Hhole).
  rewrite wrap_small by (unfold in_u; lia). eexists _, true. split_and!; [done| |split; [by eexists|done]|].
  - apply insert_fills; [done|cbn; rewrite Hcb; by eexists|]. unfold good; cbn. lia.
  - intros _. cbn. by rewrite next_of_insert.
Qed.

Lemma reset_spec now a ms from_now t st :
  wf st → store st !! a = Some t → 0 < now → 0 ≤ ms →
  now + ms < 2 ^ 64 → m_next t - m_ms t + ms < 2 ^ 64 →
  ∃ st' r front, reset now a ms from_now st = Some (st', r, front) ∧ wf st' ∧
    (r = true → is_Some (m_cb t) → ms ≠ m_ms t ∨ from_now = true →
     next_of (store st') a = (if from_now then now else m_next t - m_ms t) + ms).
Proof.
  intros Hwf Ha Hnow Hms Hfit Hfit2. unfold reset. rewrite Ha. cbn.
  destruct ((ms =? m_ms t) && negb from_now) eqn:Hsame.
  { exists st, true, false. split_and!; [done|done|]. apply andb_true_iff in Hsame as [He Hf].
    apply Z.eqb_eq in He. destruct from_now; [done|]. intros _ _ [?|?]; done. }
  destruct (m_cb t) as [c|] eqn:Hcb; [|by exists st, false, false].
  assert (a ∈ m_timers st) as Hin.
  { apply (sl_live _ _ Hwf). exists t. split; [done|]. rewrite Hcb. by eexists. }
  destruct (sl_good _ _ Hwf a t Ha ltac:(rewrite Hcb; by eexists)) as [Hg1 Hg2].
  destruct (erase_hole _ _ a Hwf Hin) as (l' & -> & Hhole).
  set (start := if from_now then now else m_next t - m_ms t).
  assert ((if from_now then now else wrap 64 (m_next t - m_ms t)) = start) as ->
    by (unfold start; destruct from_now; [done|]; apply wrap_small; unfold in_u; lia).
  assert (0 < start ∧ start + ms < 2 ^ 64) as [Hst0 Hst1] by (unfold start; case_match; lia).
  rewrite wrap_small by (unfold in_u; lia). cbn.
  eexists _, true, _. split_and!; [done| |].
  - apply insert_fills; [done|cbn; by eexists|]. unfold good; cbn. lia.
  - intros _ _ _. cbn. by rewrite next_of_insert.
Qed.

Lemma expire_spec now a0 st :
  wf st → 0 < now → rearmable now (store st) →
  let due := if snd (detectClockRollover now st) then m_timers st
             else filter (λ a, next_of (store st) a ≤ now) (m_timers st) in
  ∃ st' cbs, listExpireCb now a0 st = Some (st', cbs) ∧ wf st' ∧
    cbs = (λ a, store st !! a ≫= m_cb) <$> due ∧
    ∀ a, store st' !! a
      = if decide (a ∈ due) then fired now <$> store st !! a else store st !! a.
Proof.
  intros Hwf Hnow Hre due. unfold listExpireCb.
  assert (∀ st', wf st' → store st' = store st → due = [] →
    ∃ st2 cbs, Some (st', []) = Some (st2, cbs) ∧ wf st2 ∧
      cbs = (λ a, store st !! a ≫= m_cb) <$> due ∧
      ∀ a, store st2 !! a = if decide (a ∈ due) then fired now <$> store st !! a
                            else store st !! a) as Hnone.
  { intros st' Hwf' Hst ->. exists st', []. split_and!; [done|done|done|]. intros a.
    rewrite decide_False by apply not_elem_of_nil. by rewrite Hst. }
  destruct (m_timers st) as [|first tl] eqn:Hl.
  { apply Hnone; [done|done|]. unfold due. by destruct (snd _). }
  cbn [detectClockRollover fst snd store m_timers m_tickled m_previousTime] in *.
  set (roll := (now <? m_previousTime st) && _) in *. rewrite Hl.
  destruct (split_expired_spec a0 now (store st) (first :: tl) Hnow)
    as (d & rest & Hsplit & Hdr & Hd & Hr); [unfold wf in Hwf; by rewrite Hl in Hwf|].
  assert (filter (λ a, next_of (store st) a ≤ now) (first :: tl) = d) as Hfilter.
  { rewrite Hdr. apply filter_split; [done|]. eapply Forall_impl; [exact Hr|]. cbn. lia. }
  unfold wf in Hwf. rewrite Hl in Hwf.
  assert (∀ ex rs, first :: tl = ex ++ rs → ex ≠ [] → due = ex →
    ∃ st2 cbs, match ex with [] => None | _ =>
        '(s, l, cbs) ← fire now ex (store st) rs; Some (Mgr s l (m_tickled st) now, cbs) end
      = Some (st2, cbs) ∧ wf st2 ∧ cbs = (λ a, store st !! a ≫= m_cb) <$> due ∧
      ∀ a, store st2 !! a = if decide (a ∈ due) then fired now <$> store st !! a
                            else store st !! a) as Hsome.
  { intros ex rs Hex Hne ->. pose proof (sorted_NoDup _ _ (sl_sorted _ _ Hwf)) as Hnd.
    rewrite Hex in Hnd. apply NoDup_app in Hnd as (Hnd & _ & _).
    destruct (fire_spec now ex (store st) rs Hnow Hnd) as (s' & l' & cbs & Hf & Hwf' & Hcbs & Hst);
      [by eapply wf_out_split|done|].
    rewrite Hf. destruct ex; [done|]. by eexists _, _. }
  destruct roll; cbn [negb andb].
  - apply (Hsome (first :: tl) []); [by rewrite app_nil_r|done|done].
  - rewrite Hsplit. destruct (Z.ltb_spec now (next_of (store st) first)) as [Hlt|Hge].
    + apply Hnone; [exact Hwf|done|]. unfold due. rewrite Hfilter.
      destruct d as [|x d]; [done|]. injection Hdr as -> _.
      apply Forall_cons in Hd as [? _]. lia.
    + apply Hsome; [done| |by unfold due; rewrite Hfilter].
      intros ->. destruct rest as [|x rest]; [done|]. injection Hdr as -> _.
      apply Forall_cons in Hr as [? _]. lia.
Qed.

End operations_facts.

(** The least time left. *)
Lemma next_timer_spec {C} (now : Z) (st : manager C) :
  wf st → 0 ≤ now →
  (m_timers st = [] → snd (getNextTimer now st) = 2 ^ 64 - 1) ∧
  (m_timers st ≠ [] →
   (∃ a, a ∈ m_timers st ∧ snd (getNextTimer now st) = 0 `max` (next_of (store st) a - now)) ∧
   ∀ a, a ∈ m_timers st → snd (getNextTimer now st) ≤ 0 `max` (next_of (store st) a - now)).
Proof.
  intros Hwf Hnow. unfold getNextTimer; cbn.
  destruct (m_timers st) as [|a l] eqn:Hl; [done|]. split; [done|]. intros _. cbn.
  unfold wf in Hwf. rewrite Hl in Hwf. pose proof (sl_sorted _ _ Hwf) as Hs.
  destruct (proj1 (sl_live _ _ Hwf a)) as (t & Ht & Hcb); [left|].
  destruct (sl_good _ _ Hwf a t Ht Hcb) as [Hg1 Hg2].
  assert (next_of (store st) a = m_next t) as Hna by (unfold next_of; by rewrite Ht).
  assert ((if next_of (store st) a <=? now then 0 else wrap 64 (next_of (store st) a - now))
    = 0 `max` (next_of (store st) a - now)) as ->.
  { destruct (Z.leb_spec (next_of (store st) a) now); [lia|].
    rewrite wrap_small by (unfold in_u; lia). lia. }
  split; [exists a; split; [left|done]|]. intros b Hb. apply elem_of_cons in Hb as [->|Hb]; [done|].
  apply StronglySorted_cons in Hs as [Hab _]. rewrite Forall_forall in Hab.
  specialize (Hab b Hb). unfold before in Hab. lia.
Qed.

(** ** The manager as a transition system *)

(** One call of the public interface at a time [now] on a machine whose clock
    is far from 2^64 ms. *)
Inductive step {C} : manager C → manager C → Prop :=
| step_add now a ms cb rec st :
    store st !! a = None → 0 < now → 0 ≤ ms → now + ms < 2 ^ 64 →
    step st (fst (addTimer now a ms cb rec st))
| step_next now st : step st (fst (getNextTimer now st))
| step_expire now a0 st st' cbs :
    0 < now → rearmable now (store st) → listExpireCb now a0 st = Some (st', cbs) → step st st'
| step_cancel a st st' r : cancel a st = Some (st', r) → step st st'
| step_refresh now a t st st' r :
    store st !! a = Some t → 0 < now → 0 ≤ m_ms t → now + m_ms t < 2 ^ 64 →
    refresh now a st = Some (st', r) → step st st'
| step_reset now a t ms from_now st st' r front :
    store st !! a = Some t → 0 < now → 0 ≤ ms → now + ms < 2 ^ 64 →
    m_next t - m_ms t + ms < 2 ^ 64 →
    reset now a ms from_now st = Some (st', r, front) → step st st'.

Definition reachable {C} (st : manager C) : Prop := rtc step new_manager st.

Lemma new_manager_wf {C} : wf (new_manager (C:=C)).
Proof.
  split; cbn; [constructor| |].
  - intros a. rewrite elem_of_nil. unfold live. split; [done|]. intros (t & Ht & _).
    by rewrite lookup_empty in Ht.
  - intros a t Ht. by rewrite lookup_empty in Ht.
Qed.

Lemma step_wf {C} (st st' : manager C) : step st st' → wf st → wf st'.
Proof.
  intros Hstep Hwf. destruct Hstep as [| |now a0 st st' cbs Hn Hre He|a st st' r Hc|
    now a t st st' r Ht Hn Hms Hf Hr|now a t ms fn st st' r front Ht Hn Hms Hf Hf2 Hr].
  - by apply addTimer_wf.
  - unfold getNextTimer. cbn. by destruct (m_timers st) eqn:Hl; unfold wf in *; cbn; rewrite <- Hl.
  - destruct (expire_spec now a0 st Hwf Hn Hre) as (st2 & cbs2 & He2 & Hwf2 & _). congruence.
  - destruct (store st !! a) as [t|] eqn:Ht; [|unfold cancel in Hc; by rewrite Ht in Hc].
    destruct (cancel_spec a t st Hwf Ht) as (st2 & r2 & Hc2 & Hwf2 & _). congruence.
  - destruct (refresh_spec now a t st) as (st2 & r2 & Hr2 & Hwf2 & _); [done..|]. congruence.
  - destruct (reset_spec now a ms fn t st) as (st2 & r2 & f2 & Hr2 & Hwf2 & _); [done..|]. congruence.
Qed.

Lemma reachable_wf {C} (st : manager C) : reachable st → wf st.
Proof.
  intros Hr. unfold reachable in Hr. remember new_manager as st0 eqn:E.
  assert (wf st0) as Hwf by (rewrite E; apply new_manager_wf). clear E.
  induction Hr as [st|st st1 st2 Hs Hr IH]; [done|]. by apply IH, (step_wf st).
Qed.

(** ** Properties *)

(** A manager with three timers, for concrete runs: 10 and 40 ms one-shot and a
    recurring one of 20 ms, armed at time 1000. *)
Definition demo_manager : manager Z :=
  fst (addTimer 1000 300 20 77 true
    (fst (addTimer 1000 200 40 88 false
      (fst (addTimer 1000 100 10 99 false new_manager))))).

Lemma demo_manager_reachable : reachable demo_manager.
Proof.
  unfold reachable, demo_manager. repeat (eapply rtc_r; [|apply step_add; done || lia]).
  apply rtc_refl.
Qed.

(** C35. In every reachable manager the timer set is strictly ordered by deadline
    and address and contains exactly the timers that still have a callback. *)
Theorem timers_invariant {C} (st : manager C) :
  reachable st →
  StronglySorted (before (next_of (store st))) (m_timers st) ∧
  ∀ a, a ∈ m_timers st ↔ ∃ t, store st !! a = Some t ∧ is_Some (m_cb t).
Proof. intros Hwf%reachable_wf. split; [apply Hwf|]. apply (sl_live _ _ Hwf). Qed.

Lemma timers_invariant_witness :
  StronglySorted (before (next_of (store demo_manager))) (m_timers demo_manager) ∧
  ∀ a, a ∈ m_timers demo_manager ↔
    ∃ t, store demo_manager !! a = Some t ∧ is_Some (m_cb t).
Proof. apply (timers_invariant demo_manager). exact demo_manager_reachable. Defined.

(** C29. [listExpireCb] collects, in deadline order, exactly the callbacks of the
    timers due at [now] (of all timers after a clock rollover), re-arms the
    recurring ones at [now + m_ms], disarms the others, leaves the rest alone,
    and never reads [expired[0]] of an empty vector. *)
Theorem listExpireCb_correct {C} (now a0 : Z) (st : manager C) :
  reachable st → 0 < now → rearmable now (store st) →
  let due := if snd (detectClockRollover now st) then m_timers st
             else filter (λ a, next_of (store st) a ≤ now) (m_timers st) in
  ∃ st' cbs, listExpireCb now a0 st = Some (st', cbs) ∧
    cbs = (λ a, store st !! a ≫= m_cb) <$> due ∧
    (∀ a, store st' !! a
      = if decide (a ∈ due) then fired now <$> store st !! a else store st !! a) ∧
    (∀ a, a ∈ m_timers st' ↔ live (store st') a).
Proof.
  intros Hwf%reachable_wf Hnow Hre due.
  destruct (expire_spec now a0 st Hwf Hnow Hre) as (st' & cbs & He & Hwf' & Hcbs & Hst).
  exists st', cbs. split_and!; [done|done|done|apply (sl_live _ _ Hwf')].
Qed.

Lemma demo_rearmable : rearmable 1020 (store demo_manager).
Proof.
  intros a t Ht. unfold demo_manager in Ht. cbn in Ht.
  rewrite !lookup_insert_Some, lookup_empty in Ht.
  destruct Ht as [[_ <-]|[_ [[_ <-]|[_ [[_ <-]|[_ ?]]]]]]; cbn; [lia..|done].
Qed.

Lemma listExpireCb_correct_witness :
  let due := if snd (detectClockRollover 1020 demo_manager) then m_timers demo_manager
             else filter (λ a, next_of (store demo_manager) a ≤ 1020) (m_timers demo_manager) in
  ∃ st' cbs, listExpireCb 1020 5 demo_manager = Some (st', cbs) ∧
    cbs = (λ a, store demo_manager !! a ≫= m_cb) <$> due ∧
    (∀ a, store st' !! a = if decide (a ∈ due) then fired 1020 <$> store demo_manager !! a
                           else store demo_manager !! a) ∧
    (∀ a, a ∈ m_timers st' ↔ live (store st') a).
Proof.
  apply (listExpireCb_correct 1020 5 demo_manager).
  - exact demo_manager_reachable.
  - lia.
  - exact demo_rearmable.
Defined.

(** [getNextTimer] is the least time left of all timers: 0 when one is due,
    2^64 - 1 when there is none. *)
Theorem getNextTimer_correct {C} (now : Z) (st : manager C) :
  reachable st → 0 ≤ now →
  (m_timers st = [] → snd (getNextTimer now st) = 2 ^ 64 - 1) ∧
  (m_timers st ≠ [] →
   (∃ a, a ∈ m_timers st ∧ snd (getNextTimer now st) = 0 `max` (next_of (store st) a - now)) ∧
   ∀ a, a ∈ m_timers st → snd (getNextTimer now st) ≤ 0 `max` (next_of (store st) a - now)).
Proof. intros Hwf%reachable_wf Hnow. by apply next_timer_spec. Qed.

Lemma getNextTimer_correct_witness :
  (m_timers demo_manager = [] → snd (getNextTimer 1005 demo_manager) = 2 ^ 64 - 1) ∧
  (m_timers demo_manager ≠ [] →
   (∃ a, a ∈ m_timers demo_manager ∧
      snd (getNextTimer 1005 demo_manager) = 0 `max` (next_of (store demo_manager) a - 1005)) ∧
   ∀ a, a ∈ m_timers demo_manager →
      snd (getNextTimer 1005 demo_manager) ≤ 0 `max` (next_of (store demo_manager) a - 1005)).
Proof.
  apply (getNextTimer_correct 1005 demo_manager); [exact demo_manager_reachable|lia].
Defined.

(** Cancelling a timer of a reachable manager never erases the end iterator;
    it returns true exactly when the timer was armed, and afterwards exactly
    that timer is no longer armed. *)
Theorem cancel_correct {C} (a : Z) (t : timer C) (st : manager C) :
  reachable st → store st !! a = Some t →
  ∃ st' r, cancel a st = Some (st', r) ∧ (r = true ↔ is_Some (m_cb t)) ∧
    ∀ b, b ∈ m_timers st' ↔ b ∈ m_timers st ∧ b ≠ a.
Proof.
  intros Hwf%reachable_wf Ha.
  destruct (cancel_spec a t st Hwf Ha) as (st' & r & Hc & Hwf' & Hr & Hlive).
  exists st', r. split_and!; [done|done|].
  intros b. rewrite (sl_live _ _ Hwf' b), (sl_live _ _ Hwf b). apply Hlive.
Qed.

Lemma cancel_correct_witness : ∃ st' r,
  cancel 200 demo_manager = Some (st', r) ∧
  (r = true ↔ is_Some (m_cb (mk false 40 1040 (Some 88)))) ∧
  ∀ b, b ∈ m_timers st' ↔ b ∈ m_timers demo_manager ∧ b ≠ 200.
Proof.
  apply (cancel_correct 200 (mk false 40 1040 (Some 88)) demo_manager).
  - exact demo_manager_reachable.
  - vm_compute. reflexivity.
Defined.

(** [addTimer] adds in 64 bits: a period that passes 2^64 from now gives a
    deadline in the past, so the timer fires at once. *)
Theorem addTimer_wraps {C} (now a ms : Z) (cb : C) (rec : bool) (st : manager C) :
  0 ≤ now → 0 ≤ ms < 2 ^ 64 → 2 ^ 64 ≤ now + ms < 2 ^ 65 →
  next_of (store (fst (addTimer now a ms cb rec st))) a = now + ms - 2 ^ 64 ∧
  now + ms - 2 ^ 64 < now.
Proof.
  intros Hn Hms Hov. split; [|lia]. unfold addTimer; cbn. rewrite next_of_insert. cbn.
  unfold wrap. rewrite <- (Z.mod_add _ (-1)) by lia. rewrite Z.mod_small; lia.
Qed.

Lemma addTimer_wraps_witness :
  next_of (store (fst (addTimer 1700000000000 1 (2 ^ 64 - 1) 7 false (new_manager (C:=Z))))) 1
    = 1700000000000 + (2 ^ 64 - 1) - 2 ^ 64 ∧
  1700000000000 + (2 ^ 64 - 1) - 2 ^ 64 < 1700000000000.
Proof.
  apply (addTimer_wraps 1700000000000 1 (2 ^ 64 - 1) 7 false (new_manager (C:=Z))); lia.
Defined.

End Timer.
