(* ===== verification/Iomanager.v ===== *)
(** * IOManager: the event table over epoll (src/bobliew/iomanager.{h,cc})

    Which fiber or callback waits for which event of which descriptor.  The
    state is the vector of [FdContext]s, the count of pending events, what is
    registered with the kernel ([epoll], descriptor to mask) and the tasks handed
    to a scheduler, in order.  Each function holds the descriptor's mutex, so
    it is one atomic step.  [epoll_ctl] fails when the kernel's table does not
    match the operation; it may also fail for reasons of its own, which the
    argument [ctl] decides.  A failed [BOBLIEW_ASSERT] aborts the process: it is
    [UB] here, like a dereference outside the vector. *)

From S2P Require Import Prelude.

Module IOManager.

(** [IOManager::Event], the epoll masks and operations. *)
Definition NONE : Z := 0.
Definition READ : Z := 1.
Definition WRITE : Z := 4.
Definition EPOLLIN : Z := 1.
Definition EPOLLOUT : Z := 4.
Definition EPOLLERR : Z := 8.
Definition EPOLLHUP : Z := 16.
Definition EPOLLET : Z := 2 ^ 31.

Inductive epoll_op := EPOLL_CTL_ADD | EPOLL_CTL_MOD | EPOLL_CTL_DEL.

Section iomanager.
(** The callbacks; schedulers and fibers are named by their addresses. *)
Context {C : Type}.

Record EventContext := Ctx { scheduler : option Z; fiber : option Z; cb : option C }.
Record FdContext := FdCtx { read : EventContext; write : EventContext; events : Z }.

(** A task given to a scheduler: the fiber to resume or the callback to run. *)
Record task := Task { t_scheduler : Z; t_fiber : option Z; t_cb : option C }.

Record io := Io {
  m_fdContexts : list FdContext;
  m_pendingEventCount : Z;
  epoll : gmap nat Z;
  scheduled : list task
}.

Definition empty_ctx : EventContext := Ctx None None None.
Definition new_fdctx : FdContext := FdCtx empty_ctx empty_ctx NONE.

Definition set_ctxs (l : list FdContext) (st : io) : io :=
  Io l (m_pendingEventCount st) (epoll st) (scheduled st).
Definition set_pending (n : Z) (st : io) : io :=
  Io (m_fdContexts st) n (epoll st) (scheduled st).

(** [getContext]: any other event is a failed assertion. *)
Definition getContext (event : Z) (c : FdContext) : option EventContext :=
  if event =? READ then Some (read c) else if event =? WRITE then Some (write c) else None.
Definition setContext (event : Z) (e : EventContext) (c : FdContext) : FdContext :=
  if event =? READ then FdCtx e (write c) (events c) else FdCtx (read c) e (events c).
Definition set_events (v : Z) (c : FdContext) : FdContext := FdCtx (read c) (write c) v.

Definition resetContext (e : EventContext) : EventContext := empty_ctx.

(** [contextResize]: [resize], then a context for every null slot. *)
Definition contextResize (size : nat) (l : list FdContext) : list FdContext :=
  take size l ++ replicate (size - length l) new_fdctx.

(** [triggerEvent]: [schedule(&ctx.cb)] and [schedule(&ctx.fiber)] swap the
    waiter out of the context. *)
Definition triggerEvent (event : Z) (c : FdContext) : option (FdContext * task) :=
  if Z.land (events c) event =? 0 then None
  else
    let c := set_events (Z.ldiff (events c) event) c in
    ctx ← getContext event c;
    s ← scheduler ctx;
    match cb ctx with
    | Some f => Some (setContext event (Ctx None (fiber ctx) None) c, Task s None (Some f))
    | None => Some (setContext event (Ctx None None (cb ctx)) c, Task s (fiber ctx) None)
    end.

(** Whether [epoll_ctl] would succeed as far as the kernel's table goes. *)
Definition ctl_matches (op : epoll_op) (fd : nat) (st : io) : bool :=
  match op, epoll st !! fd with
  | EPOLL_CTL_ADD, None => true
  | EPOLL_CTL_MOD, Some _ | EPOLL_CTL_DEL, Some _ => true
  | _, _ => false
  end.

Definition epoll_ctl (ctl : bool) (op : epoll_op) (fd : nat) (mask : Z) (st : io) : option io :=
  if ctl && ctl_matches op fd st then
    Some (Io (m_fdContexts st) (m_pendingEventCount st)
            (match op with EPOLL_CTL_DEL => delete fd (epoll st) | _ => <[fd := mask]> (epoll st) end)
            (scheduled st))
  else None.

(** The vector's element, [None] outside it. *)
Definition ctx_at (fd : Z) (st : io) : option FdContext :=
  if fd <? 0 then None else m_fdContexts st !! Z.to_nat fd.

Definition put_ctx (fd : Z) (c : FdContext) (st : io) : io :=
  set_ctxs (<[Z.to_nat fd := c]> (m_fdContexts st)) st.

Definition size (st : io) : Z := Z.of_nat (length (m_fdContexts st)).

(** [addEvent]: [this_s] and [this_f] are [Scheduler::GetThis()] and
    [Fiber::Getthis()] of the caller. *)
Definition addEvent (ctl : bool) (this_s this_f : Z) (fd event : Z) (f : option C) : M io Z := λ st,
  let st := if fd <? size st then st
            else set_ctxs (contextResize (Z.to_nat (fd * 3 / 2)) (m_fdContexts st)) st in
  match ctx_at fd st with
  | None => UB
  | Some c =>
      if negb (Z.land (events c) event =? 0) then UB
      else
        let op := if events c =? 0 then EPOLL_CTL_ADD else EPOLL_CTL_MOD in
        match epoll_ctl ctl op (Z.to_nat fd) (Z.lor EPOLLET (Z.lor (events c) event)) st with
        | None => Ret (-1) st
        | Some st =>
            let st := set_pending (m_pendingEventCount st + 1) st in
            let c := set_events (Z.lor (events c) event) c in
            match getContext event c with
            | None => UB
            | Some ectx =>
                match scheduler ectx, fiber ectx, cb ectx with
                | None, None, None =>
                    let ectx := match f with
                                | Some f => Ctx (Some this_s) None (Some f)
                                | None => Ctx (Some this_s) (Some this_f) None
                                end in
                    Ret 0 (put_ctx fd (setContext event ectx c) st)
                | _, _, _ => UB
                end
            end
        end
  end.

(** [delEvent]: the bound test is [size < fd]. *)
Definition delEvent (ctl : bool) (fd event : Z) : M io bool := λ st,
  if size st <? fd then Ret false st
  else
    match ctx_at fd st with
    | None => UB
    | Some c =>
        if Z.land (events c) event =? 0 then Ret false st
        else
          let new_events := Z.ldiff (events c) event in
          let op := if new_events =? 0 then EPOLL_CTL_DEL else EPOLL_CTL_MOD in
          match epoll_ctl ctl op (Z.to_nat fd) (Z.lor EPOLLET new_events) st with
          | None => Ret false st
          | Some st =>
              let st := set_pending (m_pendingEventCount st - 1) st in
              let c := set_events new_events c in
              match getContext event c with
              | None => UB
              | Some ectx => Ret true (put_ctx fd (setContext event (resetContext ectx) c) st)
              end
          end
    end.

(** [triggerEvent] on the table, and the decrement that follows it. *)
Definition trigger (fd event : Z) (c : FdContext) (st : io) : option (FdContext * io) :=
  '(c, t) ← triggerEvent event c;
  Some (c, Io (<[Z.to_nat fd := c]> (m_fdContexts st)) (m_pendingEventCount st - 1) (epoll st)
             (scheduled st ++ [t])).

Definition cancelEvent (ctl : bool) (fd event : Z) : M io bool := λ st,
  if size st <? fd then Ret false st
  else
    match ctx_at fd st with
    | None => UB
    | Some c =>
        if Z.land (events c) event =? 0 then Ret false st
        else
          let new_events := Z.ldiff (events c) event in
          let op := if new_events =? 0 then EPOLL_CTL_DEL else EPOLL_CTL_MOD in
          match epoll_ctl ctl op (Z.to_nat fd) (Z.lor EPOLLET new_events) st with
          | None => Ret false st
          | Some st =>
              match trigger fd event c st with
              | None => UB
              | Some (_, st) => Ret true st
              end
          end
    end.

(** The two conditional triggers at the end of [cancelAll] and of the loop of
    [idle]. *)
Definition trigger_if (mask fd event : Z) (c : FdContext) (st : io) : option (FdContext * io) :=
  if Z.land mask event =? 0 then Some (c, st) else trigger fd event c st.

Definition cancelAll (ctl : bool) (fd : Z) : M io bool := λ st,
  if size st <? fd then Ret false st
  else
    match ctx_at fd st with
    | None => UB
    | Some c =>
        if events c =? 0 then Ret false st
        else
          match epoll_ctl ctl EPOLL_CTL_DEL (Z.to_nat fd) 0 st with
          | None => Ret false st
          | Some st =>
              match trigger_if (events c) fd READ c st with
              | None => UB
              | Some (c, st) =>
                  match trigger_if (events c) fd WRITE c st with
                  | None => UB
                  | Some (c, st) => if events c =? 0 then Ret true st else UB
                  end
              end
          end
    end.

(** The events of a wake-up, [evs], as READ and WRITE; an error or a hang-up
    stands for every registered event. *)
Definition real_events_of (evs registered : Z) : Z :=
  let evs := if Z.land evs (Z.lor EPOLLERR EPOLLHUP) =? 0 then evs
             else Z.lor evs (Z.land (Z.lor EPOLLIN EPOLLOUT) registered) in
  Z.lor (if Z.land evs EPOLLIN =? 0 then NONE else READ)
        (if Z.land evs EPOLLOUT =? 0 then NONE else WRITE).

(** One [epoll_event] of [idle] that is not the tickle pipe: [evs] is
    [event.events] for descriptor [fd]. *)
Definition handle_event (ctl : bool) (fd evs : Z) : M io unit := λ st,
  match ctx_at fd st with
  | None => UB
  | Some c =>
      let real_events := real_events_of evs (events c) in
      if Z.land (events c) real_events =? NONE then Ret tt st
      else
        let left_events := Z.ldiff (events c) real_events in
        let op := if left_events =? 0 then EPOLL_CTL_DEL else EPOLL_CTL_MOD in
        match epoll_ctl ctl op (Z.to_nat fd) (Z.lor EPOLLET left_events) st with
        | None => Ret tt st
        | Some st =>
            match trigger_if real_events fd READ c st with
            | None => UB
            | Some (c, st) =>
                match trigger_if real_events fd WRITE c st with
                | None => UB
                | Some (_, st) => Ret tt st
                end
            end
        end
  end.

(** [stopping(timeout)], with the timer part and [Scheduler::stopping()] given. *)
Definition stopping (next_timer : Z) (scheduler_stopping : bool) (st : io) : bool :=
  (next_timer =? 2 ^ 64 - 1) && (m_pendingEventCount st =? 0) && scheduler_stopping.

(** The wait of [idle]: the milliseconds passed to [epoll_wait]. *)
Definition wait_ms (next_timeout : Z) : Z :=
  if next_timeout =? 2 ^ 64 - 1 then 3000
  else swrap 32 (if 3000 <? swrap 32 next_timeout then 3000 else next_timeout).

(** The table after the constructor. *)
Definition new_io : io := Io (contextResize 32 []) 0 ∅ [].

End iomanager.

#[global] Arguments io : clear implicits.
#[global] Arguments FdContext : clear implicits.
#[global] Arguments EventContext : clear implicits.
#[global] Arguments task : clear implicits.

(** ** The invariant *)

Section invariant.
Context {C : Type}.
Implicit Types (c : FdContext C) (st : io C) (e : EventContext C).

Definition is_event (event : Z) : Prop := event = READ ∨ event = WRITE.
Definition has (c : FdContext C) (event : Z) : bool := negb (Z.land (events c) event =? 0).

(** A registered event has exactly one waiter and its scheduler; an
    unregistered one has an empty context. *)
Definition slot_ok (registered : bool) e : Prop :=
  match registered, scheduler e, fiber e, cb e with
  | true, Some _, Some _, None | true, Some _, None, Some _ => True
  | false, None, None, None => True
  | _, _, _, _ => False
  end.

Record ctx_ok c : Prop := {
  ok_events : events c = 0 ∨ events c = 1 ∨ events c = 4 ∨ events c = 5;
  ok_read : slot_ok (has c READ) (read c);
  ok_write : slot_ok (has c WRITE) (write c)
}.

Definition count c : Z := (if has c READ then 1 else 0) + (if has c WRITE then 1 else 0).
Definition total (l : list (FdContext C)) : Z := foldr (λ c z, count c + z) 0 l.

(** What the kernel should have registered for a context. *)
Definition mask_of c : option Z :=
  if events c =? 0 then None else Some (Z.lor EPOLLET (events c)).

Record inv st : Prop := {
  inv_ctx : Forall ctx_ok (m_fdContexts st);
  inv_count : m_pendingEventCount st = total (m_fdContexts st);
  inv_epoll : ∀ fd, epoll st !! fd = m_fdContexts st !! fd ≫= mask_of;
  inv_size : (32 ≤ length (m_fdContexts st))%nat
}.

Lemma new_fdctx_ok : ctx_ok (new_fdctx (C:=C)).
Proof. split; [by left|done|done]. Qed.

Lemma total_insert l fd c c' :
  l !! fd = Some c → total (<[fd := c']> l) = total l - count c + count c'.
Proof.
  revert fd. induction l as [|x l IH]; intros [|fd] Hl; try done.
  - injection Hl as ->. unfold total. simpl. lia.
  - simpl in Hl. specialize (IH fd Hl). unfold total in *. simpl. lia.
Qed.

Lemma total_app l1 l2 : total (l1 ++ l2) = total l1 + total l2.
Proof. unfold total. induction l1 as [|x l1 IH]; simpl in *; lia. Qed.

Lemma total_fresh n : total (replicate n new_fdctx) = 0.
Proof. induction n as [|n IH]; [done|]. unfold total in *. simpl. by rewrite IH. Qed.

(** Changing one context, the count and the kernel's entry together. *)
Lemma inv_update st fd c c' (ep : gmap nat Z) sch :
  inv st → m_fdContexts st !! fd = Some c → ctx_ok c' →
  ep !! fd = mask_of c' → (∀ k, k ≠ fd → ep !! k = epoll st !! k) →
  inv (Io (<[fd := c']> (m_fdContexts st)) (m_pendingEventCount st - count c + count c') ep sch).
Proof.
  intros [Hc Hn He Hs] Hfd Hok Hep Hne.
  split; cbn [m_fdContexts m_pendingEventCount epoll].
  - by apply Forall_insert.
  - rewrite (total_insert _ fd c c' Hfd). lia.
  - intros k. destruct (decide (k = fd)) as [->|Hk].
    + rewrite list_lookup_insert_eq by by eapply lookup_lt_Some. done.
    + by rewrite list_lookup_insert_ne, Hne, He.
  - by rewrite length_insert.
Qed.

(** Growing the vector adds empty contexts only. *)
Lemma inv_resize st n :
  inv st → (length (m_fdContexts st) ≤ n)%nat →
  inv (set_ctxs (contextResize n (m_fdContexts st)) st) ∧
  length (contextResize n (m_fdContexts st)) = n.
Proof.
  intros [Hc Hn He Hs] Hle. unfold contextResize. rewrite take_ge by done.
  split; [|rewrite length_app, length_replicate; lia].
  split; cbn [m_fdContexts m_pendingEventCount epoll set_ctxs].
  - apply Forall_app. split; [done|]. apply Forall_replicate. apply new_fdctx_ok.
  - by rewrite total_app, total_fresh, Z.add_0_r.
  - intros k. rewrite He. destruct (decide (k < length (m_fdContexts st))%nat).
    + by rewrite lookup_app_l by done.
    + rewrite lookup_ge_None_2, lookup_app_r by lia. cbn.
      destruct (replicate _ _ !! _) eqn:Hr; [|done]. apply lookup_replicate in Hr as [-> _]. done.
  - rewrite length_app. lia.
Qed.

Lemma ctl_spec ctl st fd c op mask :
  inv st → m_fdContexts st !! fd = Some c →
  (op = EPOLL_CTL_ADD ↔ events c = 0) →
  epoll_ctl ctl op fd mask st =
    if ctl then Some (Io (m_fdContexts st) (m_pendingEventCount st)
      (match op with EPOLL_CTL_DEL => delete fd (epoll st) | _ => <[fd := mask]> (epoll st) end)
      (scheduled st)) else None.
Proof.
  intros Hinv Hfd Hop. unfold epoll_ctl, ctl_matches. rewrite (inv_epoll st Hinv fd), Hfd. cbn.
  unfold mask_of. destruct (Z.eqb_spec (events c) 0) as [He|He].
  - rewrite (proj2 Hop He). by destruct ctl.
  - destruct op; [by destruct He; apply Hop|by destruct ctl..].
Qed.

(** The task that an event of a context would schedule. *)
Definition waiting_ctx c (event : Z) : option (task C) :=
  if has c event then
    e ← getContext event c; s ← scheduler e; Some (Task s (fiber e) (cb e))
  else None.

Definition waiting st (fd event : Z) : option (task C) :=
  c ← ctx_at fd st; waiting_ctx c event.

Lemma triggerEvent_spec event c :
  is_event event → ctx_ok c → has c event = true →
  ∃ c' t, triggerEvent event c = Some (c', t) ∧ ctx_ok c' ∧
    events c' = Z.ldiff (events c) event ∧ count c' = count c - 1 ∧
    waiting_ctx c event = Some t ∧
    ∀ other, is_event other →
      waiting_ctx c' other = if other =? event then None else waiting_ctx c other.
Proof.
  intros Hev Hok Hhas. unfold triggerEvent.
  destruct (Z.land (events c) event =? 0) eqn:Hz; [unfold has in Hhas; by rewrite Hz in Hhas|].
  destruct c as [r w ev]. destruct Hok as [Hevs Hr Hw]. unfold waiting_ctx, count, has in *. cbn in *.
  destruct Hevs as [->|[->|[->| ->]]]; destruct Hev as [->| ->]; try done; cbn in *;
    (destruct r as [[sr|] [fr|] [cr|]]; try done); (destruct w as [[sw|] [fw|] [cw|]]; try done);
    (eexists _, _; split_and!; [reflexivity|split; cbn; eauto|done|done|done|]);
    intros other [->| ->]; done.
Qed.

(** Registering, and forgetting, an event of a context. *)
Lemma register_spec event c e :
  is_event event → ctx_ok c → has c event = false → slot_ok true e →
  let c' := setContext event e (set_events (Z.lor (events c) event) c) in
  getContext event (set_events (Z.lor (events c) event) c) = Some empty_ctx ∧
  ctx_ok c' ∧ events c' = Z.lor (events c) event ∧ events c' ≠ 0 ∧ count c' = count c + 1 ∧
  (∀ s, scheduler e = Some s → waiting_ctx c' event = Some (Task s (fiber e) (cb e))) ∧
  ∀ other, is_event other → other ≠ event → waiting_ctx c' other = waiting_ctx c other.
Proof.
  intros Hev Hok Hhas He. destruct c as [r w ev]. destruct Hok as [Hevs Hr Hw].
  unfold waiting_ctx, count, has in *. cbn in *.
  destruct Hevs as [->|[->|[->| ->]]]; destruct Hev as [->| ->]; try done; cbn in *;
    (destruct r as [[sr|] [fr|] [cr|]]; try done); (destruct w as [[sw|] [fw|] [cw|]]; try done);
    (split_and!; [done|split; cbn; eauto|done|done|done|intros s ->; done|]);
    intros other [->| ->]; done.
Qed.

Lemma forget_spec event c :
  is_event event → ctx_ok c → has c event = true →
  let c' := setContext event empty_ctx (set_events (Z.ldiff (events c) event) c) in
  is_Some (getContext event (set_events (Z.ldiff (events c) event) c)) ∧
  ctx_ok c' ∧ events c' = Z.ldiff (events c) event ∧ count c' = count c - 1 ∧
  ∀ other, is_event other →
    waiting_ctx c' other = if other =? event then None else waiting_ctx c other.
Proof.
  intros Hev Hok Hhas. destruct c as [r w ev]. destruct Hok as [Hevs Hr Hw].
  unfold waiting_ctx, count, has in *. cbn in *.
  destruct Hevs as [->|[->|[->| ->]]]; destruct Hev as [->| ->]; try done; cbn in *;
    (destruct r as [[sr|] [fr|] [cr|]]; try done); (destruct w as [[sw|] [fw|] [cw|]]; try done);
    (split_and!; [by eexists|split; cbn; eauto|done|done|]);
    intros other [->| ->]; done.
Qed.

Lemma has_waiting event c :
  is_event event → ctx_ok c → has c event = true ↔ is_Some (waiting_ctx c event).
Proof.
  intros Hev Hok. unfold waiting_ctx. destruct c as [r w ev]. destruct Hok as [Hevs Hr Hw].
  unfold has in *. cbn in *.
  destruct Hevs as [->|[->|[->| ->]]]; destruct Hev as [->| ->]; cbn in *;
    (destruct r as [[sr|] [fr|] [cr|]]; try done); (destruct w as [[sw|] [fw|] [cw|]]; try done);
    (split; [try done; intros _; by eexists|try done; by intros []]).
Qed.

Lemma ctx_at_lookup fd st : 0 ≤ fd → ctx_at fd st = m_fdContexts st !! Z.to_nat fd.
Proof. intros. unfold ctx_at. by rewrite (proj2 (Z.ltb_ge _ _)) by lia. Qed.

(** What waits after one context changed. *)
Lemma waiting_update st fd c c' n ep sch k event :
  0 ≤ fd → 0 ≤ k → m_fdContexts st !! Z.to_nat fd = Some c →
  waiting (Io (<[Z.to_nat fd := c']> (m_fdContexts st)) n ep sch) k event
  = if decide (k = fd) then waiting_ctx c' event else waiting st k event.
Proof.
  intros Hfd Hk Hc. unfold waiting. rewrite !ctx_at_lookup by done. cbn [m_fdContexts].
  case_decide as Hd.
  - subst. by rewrite list_lookup_insert_eq by by eapply lookup_lt_Some.
  - by rewrite list_lookup_insert_ne by lia.
Qed.

(** The contexts of a table that satisfies the invariant. *)
Lemma ctx_of st fd :
  inv st → 0 ≤ fd < size st →
  ∃ c, ctx_at fd st = Some c ∧ m_fdContexts st !! Z.to_nat fd = Some c ∧ ctx_ok c.
Proof.
  intros Hinv Hfd. unfold size in Hfd.
  destruct (lookup_lt_is_Some_2 (m_fdContexts st) (Z.to_nat fd)) as [c Hc]; [lia|].
  exists c. rewrite ctx_at_lookup by lia. split_and!; [done|done|].
  by apply (Forall_lookup_1 _ _ _ _ (inv_ctx st Hinv) Hc).
Qed.

(** [epoll_ctl] after removing events from a context. *)
Definition epoll_without (fd : nat) (left_ : Z) (ep : gmap nat Z) : gmap nat Z :=
  if left_ =? 0 then delete fd ep else <[fd := Z.lor EPOLLET left_]> ep.

Lemma ctl_remove ctl st fd c left_ :
  inv st → m_fdContexts st !! fd = Some c → events c ≠ 0 →
  epoll_ctl ctl (if left_ =? 0 then EPOLL_CTL_DEL else EPOLL_CTL_MOD) fd (Z.lor EPOLLET left_) st
  = if ctl then Some (Io (m_fdContexts st) (m_pendingEventCount st)
      (epoll_without fd left_ (epoll st)) (scheduled st)) else None.
Proof.
  intros Hinv Hc Hne. rewrite (ctl_spec ctl st fd c) by (done || by case_match).
  unfold epoll_without. by destruct (left_ =? 0).
Qed.

Lemma epoll_without_spec fd c ep :
  epoll_without fd (events c) ep !! fd = mask_of c ∧
  ∀ k, k ≠ fd → epoll_without fd (events c) ep !! k = ep !! k.
Proof.
  unfold epoll_without, mask_of. destruct (events c =? 0); split; intros;
    by rewrite ?lookup_delete_eq, ?lookup_insert_eq, ?lookup_delete_ne, ?lookup_insert_ne.
Qed.

Lemma addEvent_spec ctl this_s this_f fd event f st :
  inv st → 0 ≤ fd → is_event event → waiting st fd event = None →
  ∃ rt st', addEvent ctl this_s this_f fd event f st = Ret rt st' ∧ inv st' ∧
    scheduled st' = scheduled st ∧ rt = (if ctl then 0 else -1) ∧
    ∀ k ev, 0 ≤ k → is_event ev → waiting st' k ev =
      if ctl && bool_decide (k = fd ∧ ev = event)
      then Some (Task this_s (match f with None => Some this_f | _ => None end) f)
      else waiting st k ev.
Proof.
  intros Hinv Hfd Hev Hw. unfold addEvent.
  set (st1 := if fd <? size st then st else _).
  assert (inv st1 ∧ fd < size st1 ∧ scheduled st1 = scheduled st ∧
    ∀ k ev, 0 ≤ k → waiting st1 k ev = waiting st k ev) as (Hinv1 & Hsz & Hsch & Hwt).
  { unfold st1. destruct (Z.ltb_spec fd (size st)) as [Hlt|Hge]; [done|].
    pose proof (inv_size st Hinv) as H32. unfold size in *.
    assert (fd + 1 ≤ fd * 3 / 2) as Hgrow by (apply Z.div_le_lower_bound; lia).
    destruct (inv_resize st (Z.to_nat (fd * 3 / 2)) Hinv) as [Hi Hl]; [lia|].
    split_and!; [done|cbn; lia|done|]. intros k ev Hk. unfold waiting.
    rewrite !ctx_at_lookup by done. cbn. unfold contextResize. rewrite take_ge by lia.
    destruct (decide (Z.to_nat k < length (m_fdContexts st))%nat).
    - by rewrite lookup_app_l by done.
    - rewrite (lookup_ge_None_2 (m_fdContexts st)), lookup_app_r by lia. cbn.
      destruct (replicate _ _ !! _) eqn:Hr; [|done]. by apply lookup_replicate in Hr as [-> _]. }
  destruct (ctx_of st1 fd Hinv1) as (c & -> & Hc & Hok); [lia|].
  assert (has c event = false) as Hhas.
  { destruct (has c event) eqn:Hh; [|done]. apply (has_waiting event c Hev Hok) in Hh as [t Ht].
    rewrite <- Hwt in Hw by done. unfold waiting in Hw. rewrite ctx_at_lookup, Hc in Hw by done.
    cbn in Hw. congruence. }
  unfold has in Hhas. apply negb_false_iff in Hhas. rewrite Hhas. cbn [negb].
  rewrite (ctl_spec ctl st1 _ c) by (done || (destruct (Z.eqb_spec (events c) 0); split; done)).
  set (e := match f with Some g => Ctx (Some this_s) None (Some g)
                       | None => Ctx (Some this_s) (Some this_f) None end).
  destruct (register_spec event c e Hev Hok) as (Hg & Hok' & He' & Hne & Hcnt & Hwe & Hwo);
    [unfold has; by rewrite Hhas|by destruct f|].
  destruct ctl; cbn [andb].
  2: { eexists _, st1. split_and!; [done|done|done|done|by intros; rewrite Hwt]. }
  rewrite Hg. cbn [empty_ctx scheduler fiber cb]. eexists _, _. split_and!; [done| |done|done|].
  - unfold put_ctx, set_ctxs, set_pending; cbn [m_fdContexts m_pendingEventCount epoll scheduled].
    replace (m_pendingEventCount st1 + 1) with (m_pendingEventCount st1 - count c
      + count (setContext event e (set_events (Z.lor (events c) event) c))) by lia.
    apply inv_update; [done|done|done| |].
    + unfold mask_of. rewrite (proj2 (Z.eqb_neq _ _) Hne), He'.
      destruct (events c =? 0); by rewrite lookup_insert_eq.
    + intros k Hk. destruct (events c =? 0); by rewrite lookup_insert_ne.
  - intros k ev Hk Hev'. unfold put_ctx, set_ctxs; cbn [m_fdContexts m_pendingEventCount epoll scheduled set_pending].
    rewrite (waiting_update st1 fd c) by done. rewrite <- Hwt by done.
    destruct (decide (k = fd)) as [->|Hkf].
    + destruct (decide (ev = event)) as [->|Hee].
      * rewrite bool_decide_eq_true_2 by done. rewrite (Hwe this_s) by by destruct f.
        by destruct f.
      * rewrite bool_decide_eq_false_2 by tauto. rewrite Hwo by done.
        unfold waiting. by rewrite ctx_at_lookup, Hc by done.
    + by rewrite bool_decide_eq_false_2 by tauto.
Qed.

Lemma waiting_at st fd c event :
  0 ≤ fd → m_fdContexts st !! Z.to_nat fd = Some c → waiting st fd event = waiting_ctx c event.
Proof. intros Hfd Hc. unfold waiting. by rewrite ctx_at_lookup, Hc. Qed.

Lemma has_land c event : has c event = negb (Z.land (events c) event =? 0).
Proof. done. Qed.

Lemma ldiff_has_events c event : ctx_ok c → is_event event → has c event = true → events c ≠ 0.
Proof.
  intros _ Hev Hh He. unfold has in Hh. rewrite He in Hh. by destruct Hev as [->| ->].
Qed.

(** Removing one event, with ([sch] longer) or without scheduling its waiter. *)
Lemma remove_one st fd c c' event sch :
  inv st → 0 ≤ fd → is_event event → m_fdContexts st !! Z.to_nat fd = Some c → ctx_ok c' →
  events c' = Z.ldiff (events c) event → count c' = count c - 1 →
  (∀ other, is_event other →
     waiting_ctx c' other = if other =? event then None else waiting_ctx c other) →
  let st' := Io (<[Z.to_nat fd := c']> (m_fdContexts st)) (m_pendingEventCount st - 1)
               (epoll_without (Z.to_nat fd) (Z.ldiff (events c) event) (epoll st)) sch in
  inv st' ∧ ∀ k ev, 0 ≤ k → is_event ev →
    waiting st' k ev = if bool_decide (k = fd ∧ ev = event) then None else waiting st k ev.
Proof.
  intros Hinv Hfd Hev Hc Hok' He' Hcnt Hwt st'. destruct (epoll_without_spec (Z.to_nat fd) c' (epoll st)) as [Hm Hk].
  rewrite He' in Hm, Hk. split.
  - unfold st'. replace (m_pendingEventCount st - 1)
      with (m_pendingEventCount st - count c + count c') by lia.
    by apply inv_update.
  - intros k ev Hk0 Hev'. unfold st'. rewrite (waiting_update st fd c) by done.
    destruct (decide (k = fd)) as [->|Hne].
    + rewrite Hwt, (waiting_at st fd c) by done.
      destruct (Z.eqb_spec ev event) as [->|Hee];
        [by rewrite bool_decide_eq_true_2|by rewrite bool_decide_eq_false_2 by tauto].
    + by rewrite bool_decide_eq_false_2 by tauto.
Qed.

Lemma delEvent_spec ctl fd event st :
  inv st → 0 ≤ fd < size st → is_event event →
  ∃ st', delEvent ctl fd event st
      = Ret (ctl && bool_decide (is_Some (waiting st fd event))) st' ∧ inv st' ∧
    scheduled st' = scheduled st ∧
    ∀ k ev, 0 ≤ k → is_event ev → waiting st' k ev =
      if ctl && bool_decide (k = fd ∧ ev = event) then None else waiting st k ev.
Proof.
  intros Hinv Hfd Hev. unfold delEvent. rewrite (proj2 (Z.ltb_ge _ _)) by lia.
  destruct (ctx_of st fd Hinv Hfd) as (c & -> & Hc & Hok).
  rewrite (waiting_at st fd c) by (done || lia). pose proof (has_waiting event c Hev Hok) as Hhw.
  destruct (has c event) eqn:Hh; pose proof Hh as Hh'; rewrite has_land in Hh'.
  2: { apply negb_false_iff in Hh'. rewrite Hh'.
       assert (waiting_ctx c event = None) as Hn
         by (apply eq_None_not_Some; intros Hs; by apply Hhw in Hs).
       rewrite Hn, bool_decide_eq_false_2, andb_false_r by by intros [].
       exists st. split_and!; [done|done|done|]. intros k ev Hk Hev'.
       destruct (ctl && _) eqn:Hb; [|done]. apply andb_true_iff in Hb as [_ Hb].
       apply bool_decide_eq_true in Hb as [-> ->]. by rewrite (waiting_at st fd c) by (done || lia). }
  apply negb_true_iff in Hh'. rewrite Hh'.
  rewrite (ctl_remove ctl st _ c) by (done || by eapply ldiff_has_events).
  rewrite bool_decide_eq_true_2, andb_true_r by by apply Hhw.
  destruct ctl; [|by exists st].
  destruct (forget_spec event c Hev Hok Hh) as ([e ->] & Hok' & He' & Hcnt & Hwt).
  destruct (remove_one st fd c _ event (scheduled st) Hinv ltac:(lia) Hev Hc Hok' He' Hcnt Hwt) as [Hi Hw].
  eexists. split_and!; [done|exact Hi|done|exact Hw].
Qed.

Lemma cancelEvent_spec ctl fd event st :
  inv st → 0 ≤ fd < size st → is_event event →
  ∃ st', cancelEvent ctl fd event st
      = Ret (ctl && bool_decide (is_Some (waiting st fd event))) st' ∧ inv st' ∧
    scheduled st' = scheduled st ++ (if ctl then option_list (waiting st fd event) else []) ∧
    ∀ k ev, 0 ≤ k → is_event ev → waiting st' k ev =
      if ctl && bool_decide (k = fd ∧ ev = event) then None else waiting st k ev.
Proof.
  intros Hinv Hfd Hev. unfold cancelEvent. rewrite (proj2 (Z.ltb_ge _ _)) by lia.
  destruct (ctx_of st fd Hinv Hfd) as (c & -> & Hc & Hok).
  rewrite (waiting_at st fd c) by (done || lia). pose proof (has_waiting event c Hev Hok) as Hhw.
  destruct (has c event) eqn:Hh; pose proof Hh as Hh'; rewrite has_land in Hh'.
  2: { apply negb_false_iff in Hh'. rewrite Hh'.
       assert (waiting_ctx c event = None) as Hn
         by (apply eq_None_not_Some; intros Hs; by apply Hhw in Hs).
       rewrite Hn, bool_decide_eq_false_2, andb_false_r by by intros [].
       exists st. split_and!; [done|done|by destruct ctl; rewrite app_nil_r|]. intros k ev Hk Hev'.
       destruct (ctl && _) eqn:Hb; [|done]. apply andb_true_iff in Hb as [_ Hb].
       apply bool_decide_eq_true in Hb as [-> ->]. by rewrite (waiting_at st fd c) by (done || lia). }
  apply negb_true_iff in Hh'. rewrite Hh'.
  rewrite (ctl_remove ctl st _ c) by (done || by eapply ldiff_has_events).
  rewrite bool_decide_eq_true_2, andb_true_r by by apply Hhw.
  destruct ctl; [|exists st; by rewrite app_nil_r].
  destruct (triggerEvent_spec event c Hev Hok Hh) as (c' & t & Ht & Hok' & He' & Hcnt & -> & Hwt).
  unfold trigger. rewrite Ht. cbn [mbind option_bind option_list].
  destruct (remove_one st fd c c' event (scheduled st ++ [t]) Hinv ltac:(lia) Hev Hc Hok' He' Hcnt Hwt) as [Hi Hw].
  eexists. split_and!; [done|exact Hi|done|exact Hw].
Qed.

(** Both conditional triggers of a mask [m] of registered events. *)
Lemma trigger_both m fd c st :
  0 ≤ fd → ctx_ok c → m_fdContexts st !! Z.to_nat fd = Some c →
  m = 0 ∨ m = 1 ∨ m = 4 ∨ m = 5 → Z.land m (events c) = m →
  ∃ c1 st1 c2 st2, trigger_if m fd READ c st = Some (c1, st1) ∧
    trigger_if m fd WRITE c1 st1 = Some (c2, st2) ∧
    Z.land (events c1) WRITE = Z.land (events c) WRITE ∧
    <[Z.to_nat fd := c2]> (m_fdContexts st) = m_fdContexts st2 ∧
    m_pendingEventCount st2 = m_pendingEventCount st - count c + count c2 ∧
    epoll st2 = epoll st ∧
    scheduled st2 = scheduled st
      ++ (if Z.land m READ =? 0 then [] else option_list (waiting_ctx c READ))
      ++ (if Z.land m WRITE =? 0 then [] else option_list (waiting_ctx c WRITE)) ∧
    ctx_ok c2 ∧ events c2 = Z.ldiff (events c) m ∧
    ∀ ev, is_event ev → waiting_ctx c2 ev = if Z.land m ev =? 0 then waiting_ctx c ev else None.
Proof.
  intros Hfd Hok Hc Hmm Hm. destruct c as [r w ev]. destruct Hok as [Hevs Hr Hw].
  unfold trigger_if, trigger, triggerEvent, waiting_ctx, count, has in *. cbn in *.
  destruct Hevs as [->|[->|[->| ->]]]; destruct Hmm as [->|[->|[->| ->]]]; try done; cbn in *;
    (destruct r as [[sr|] [fr|] [cr|]]; try done); (destruct w as [[sw|] [fw|] [cw|]]; try done);
    (eexists _, _, _, _; split_and!;
     [reflexivity|reflexivity|reflexivity| | |reflexivity| |split; cbn; eauto|reflexivity|];
     cbn; rewrite ?list_insert_insert_eq, ?(list_insert_id (m_fdContexts st) _ _ Hc), ?app_nil_r,
       <- ?(assoc_L (++)); try done; try lia);
    try (intros other [->| ->]; done); unfold READ, WRITE; simpl; lia.
Qed.

(** Removing the events of a mask. *)
Lemma remove_mask m st fd c c2 st2 ep :
  inv st → 0 ≤ fd → m_fdContexts st !! Z.to_nat fd = Some c → ctx_ok c2 →
  events c2 = Z.ldiff (events c) m →
  <[Z.to_nat fd := c2]> (m_fdContexts st) = m_fdContexts st2 →
  m_pendingEventCount st2 = m_pendingEventCount st - count c + count c2 →
  ep = epoll_without (Z.to_nat fd) (events c2) (epoll st) → epoll st2 = ep →
  (∀ ev, is_event ev → waiting_ctx c2 ev = if Z.land m ev =? 0 then waiting_ctx c ev else None) →
  inv st2 ∧ ∀ k ev, 0 ≤ k → is_event ev →
    waiting st2 k ev = if bool_decide (k = fd) && negb (Z.land m ev =? 0) then None
                       else waiting st k ev.
Proof.
  intros Hinv Hfd Hc Hok He Hl Hn -> Hep Hw. destruct st2 as [l n ep sch]. cbn in *. subst l n ep.
  destruct (epoll_without_spec (Z.to_nat fd) c2 (epoll st)) as [Hm Hk]. split; [by apply inv_update|].
  intros k ev Hk0 Hev. rewrite (waiting_update st fd c) by done.
  destruct (decide (k = fd)) as [->|Hne].
  - rewrite bool_decide_eq_true_2, Hw, (waiting_at st fd c) by done. cbn. by case_match.
  - by rewrite bool_decide_eq_false_2.
Qed.

Lemma cancelAll_spec ctl fd st :
  inv st → 0 ≤ fd < size st →
  ∃ st' rt, cancelAll ctl fd st = Ret rt st' ∧ inv st' ∧
    scheduled st' = scheduled st ++ (if ctl then option_list (waiting st fd READ)
                                       ++ option_list (waiting st fd WRITE) else []) ∧
    ∀ k ev, 0 ≤ k → is_event ev →
      waiting st' k ev = if ctl && bool_decide (k = fd) then None else waiting st k ev.
Proof.
  intros Hinv Hfd. unfold cancelAll. rewrite (proj2 (Z.ltb_ge _ _)) by lia.
  destruct (ctx_of st fd Hinv Hfd) as (c & -> & Hc & Hok).
  rewrite !(waiting_at st fd c) by (done || lia). pose proof (ok_events c Hok) as Hevs.
  assert (∀ ev, is_event ev → (Z.land (events c) ev =? 0) = true → waiting_ctx c ev = None) as Hnone.
  { intros ev _ Hz. unfold waiting_ctx, has. by rewrite Hz. }
  destruct (Z.eqb_spec (events c) 0) as [He|He].
  { eexists st, _. split_and!; [done|done| |].
    - rewrite !Hnone by (try (by left); try (by right); by rewrite He).
      by destruct ctl; rewrite app_nil_r.
    - intros k ev Hk Hev. destruct (ctl && _) eqn:Hb; [|done].
      apply andb_true_iff in Hb as [_ Hb]. apply bool_decide_eq_true in Hb as ->.
      rewrite (waiting_at st fd c) by (done || lia). apply Hnone; [done|by rewrite He]. }
  rewrite (ctl_spec ctl st _ c) by done. destruct ctl.
  2: { eexists st, _. by rewrite app_nil_r. }
  set (st0 := Io _ _ _ _).
  destruct (trigger_both (events c) fd c st0) as
    (c1 & st1 & c2 & st2 & -> & Ht2 & Hw1 & Hl & Hn & Hep & Hsch & Hok2 & He2 & Hwt);
    [lia|done|done|done|by rewrite Z.land_diag|].
  replace (trigger_if (events c1) fd WRITE c1 st1) with (Some (c2, st2))
    by (rewrite <- Ht2; unfold trigger_if; by rewrite Hw1).
  rewrite Z.ldiff_diag in He2. rewrite He2.
  destruct (remove_mask (events c) st fd c c2 st2 (delete (Z.to_nat fd) (epoll st)))
    as [Hi Hw]; try done; [lia|by rewrite Z.ldiff_diag|unfold epoll_without; by rewrite He2|].
  eexists st2, _. split_and!; [done|done| |].
  - rewrite Hsch. cbn [st0 scheduled]. do 2 f_equal.
    + destruct (Z.land (events c) READ =? 0) eqn:Hz; [|done]. by rewrite Hnone by (done || by left).
    + destruct (Z.land (events c) WRITE =? 0) eqn:Hz; [|done]. by rewrite Hnone by (done || by right).
  - intros k ev Hk Hev. rewrite Hw by done. destruct (bool_decide_reflect (k = fd)) as [->|]; [|done].
    cbn. destruct (Z.land (events c) ev =? 0) eqn:Hz; [|done]. cbn.
    rewrite (waiting_at st fd c) by (done || lia). by apply Hnone.
Qed.

(** The bits a wake-up reports for registered events. *)
Lemma real_events_cases evs r :
  real_events_of evs r = 0 ∨ real_events_of evs r = 1 ∨ real_events_of evs r = 4 ∨
  real_events_of evs r = 5.
Proof.
  unfold real_events_of. destruct (Z.land evs _ =? 0);
    destruct (Z.land _ EPOLLIN =? 0), (Z.land _ EPOLLOUT =? 0); vm_compute; tauto.
Qed.

Lemma handle_event_spec (ctl : bool) fd evs st c :
  inv st → 0 ≤ fd → ctx_at fd st = Some c →
  Z.land (real_events_of evs (events c)) (events c) = real_events_of evs (events c) →
  let m := if ctl then real_events_of evs (events c) else 0 in
  ∃ st', handle_event ctl fd evs st = Ret tt st' ∧ inv st' ∧
    scheduled st' = scheduled st
      ++ (if Z.land m READ =? 0 then [] else option_list (waiting st fd READ))
      ++ (if Z.land m WRITE =? 0 then [] else option_list (waiting st fd WRITE)) ∧
    ∀ k ev, 0 ≤ k → is_event ev → waiting st' k ev =
      if bool_decide (k = fd) && negb (Z.land m ev =? 0) then None else waiting st k ev.
Proof.
  intros Hinv Hfd Hc Hsub m. pose proof Hc as Hc'. rewrite ctx_at_lookup in Hc' by done.
  pose proof (Forall_lookup_1 _ _ _ _ (inv_ctx st Hinv) Hc') as Hok.
  unfold handle_event. rewrite Hc. unfold m. clear m. set (r := real_events_of evs (events c)) in *.
  pose proof (real_events_cases evs (events c)) as Hr. fold r in Hr.
  assert (∀ b : bool, r = 0 ∨ b = false → ∃ st' : io C, Ret tt st = @Ret (io C) unit tt st' ∧ inv st' ∧
    scheduled st' = scheduled st
      ++ (if Z.land (if b then r else 0) READ =? 0 then [] else option_list (waiting st fd READ))
      ++ (if Z.land (if b then r else 0) WRITE =? 0 then [] else option_list (waiting st fd WRITE)) ∧
    ∀ k ev, 0 ≤ k → is_event ev → waiting st' k ev =
      if bool_decide (k = fd) && negb (Z.land (if b then r else 0) ev =? 0) then None
      else waiting st k ev) as Hstay.
  { intros b Hb. assert ((if b then r else 0) = 0) as -> by (destruct b; destruct Hb; done || congruence).
    exists st. cbn. rewrite app_nil_r. split_and!; [done|done|done|]. intros. by rewrite andb_false_r. }
  rewrite (Z.land_comm (events c)), Hsub. destruct (Z.eqb_spec r NONE) as [Hz|Hnz].
  { apply Hstay. by left. }
  assert (events c ≠ 0) as He by (intros E; rewrite E, Z.land_0_r in Hsub; done).
  rewrite (ctl_remove ctl st _ c) by done. destruct ctl; [|apply (Hstay false); by right].
  set (st0 := Io _ _ _ _).
  destruct (trigger_both r fd c st0) as
    (c1 & st1 & c2 & st2 & -> & -> & _ & Hl & Hn & Hep & Hsch & Hok2 & He2 & Hwt); [done..|].
  destruct (remove_mask r st fd c c2 st2 (epoll_without (Z.to_nat fd) (Z.ldiff (events c) r) (epoll st)))
    as [Hi Hw]; try done; [by rewrite He2|].
  exists st2. split_and!; [done|done| |done]. by rewrite Hsch, !(waiting_at st fd c).
Qed.

End invariant.

(** ** The size of the table *)

Section sizes.
Context {C : Type}.
Implicit Types (st : io C) (fd event : Z).

Lemma waiting_lt st fd event t : 0 ≤ fd → waiting st fd event = Some t → fd < size st.
Proof.
  intros Hfd Hw. unfold waiting in Hw. rewrite ctx_at_lookup in Hw by done. unfold size.
  destruct (m_fdContexts st !! Z.to_nat fd) eqn:Hc; [|done]. apply lookup_lt_Some in Hc. lia.
Qed.

Lemma epoll_ctl_ctxs ctl op (fd : nat) mask st st' :
  epoll_ctl ctl op fd mask st = Some st' → m_fdContexts st' = m_fdContexts st.
Proof. unfold epoll_ctl. case_match; [|done]. by intros [= <-]. Qed.

Lemma trigger_if_size mask fd event c st c' st' :
  trigger_if mask fd event c st = Some (c', st') → size st' = size st.
Proof.
  unfold trigger_if, trigger. case_match; [by intros [= <- <-]|].
  destruct (triggerEvent event c) as [[c1 t]|]; cbn; [|done]. intros [= <- <-].
  unfold size. cbn. by rewrite length_insert.
Qed.

Lemma addEvent_size ctl s f fd event (g : option C) st rt st' :
  inv st → addEvent ctl s f fd event g st = Ret rt st' → size st ≤ size st'.
Proof.
  intros Hinv. unfold addEvent. set (st1 := if fd <? size st then st else _).
  assert (size st ≤ size st1) as Hle.
  { unfold st1. destruct (Z.ltb_spec fd (size st)) as [Hlt|Hge]; [done|].
    pose proof (inv_size st Hinv) as H32. unfold size in *.
    assert (fd + 1 ≤ fd * 3 / 2) as Hgrow by (apply Z.div_le_lower_bound; lia).
    destruct (inv_resize st (Z.to_nat (fd * 3 / 2)) Hinv) as [_ Hl]; [lia|]. cbn. lia. }
  destruct (ctx_at fd st1) as [c|]; [|done]. case_match; [done|].
  destruct (epoll_ctl _ _ _ _ st1) as [st2|] eqn:He; [|by intros [= _ <-]].
  apply epoll_ctl_ctxs in He. destruct (getContext _ _) as [e|]; [|done].
  destruct (scheduler e), (fiber e), (cb e); try done. intros [= _ <-].
  unfold put_ctx, size. cbn. rewrite length_insert, He. exact Hle.
Qed.

Lemma addEvent_scheduled ctl s f fd event (g : option C) st rt st' :
  addEvent ctl s f fd event g st = Ret rt st' → scheduled st' = scheduled st.
Proof.
  unfold addEvent. set (st1 := if fd <? size st then st else _).
  assert (scheduled st1 = scheduled st) as <- by (unfold st1; by destruct (fd <? size st)).
  destruct (ctx_at fd st1) as [c|]; [|done]. case_match; [done|].
  destruct (epoll_ctl _ _ _ _ st1) as [st2|] eqn:He; [|by intros [= _ <-]].
  assert (scheduled st2 = scheduled st1) as <- by (unfold epoll_ctl in He; by case_match; simplify_eq).
  destruct (getContext _ _) as [e|]; [|done]. destruct (scheduler e), (fiber e), (cb e); try done. by intros [= _ <-].
Qed.

Lemma cancelEvent_size ctl fd event st r st' : cancelEvent ctl fd event st = Ret r st' → size st' = size st.
Proof.
  unfold cancelEvent. case_match; [by intros [= _ <-]|]. destruct (ctx_at fd st) as [c|]; [|done].
  case_match; [by intros [= _ <-]|]. destruct (epoll_ctl _ _ _ _ st) as [st2|] eqn:He; [|by intros [= _ <-]].
  apply epoll_ctl_ctxs in He. unfold trigger. destruct (triggerEvent event c) as [[c1 t]|]; cbn; [|done].
  intros [= _ <-]. unfold size. cbn. by rewrite length_insert, He.
Qed.

Lemma cancelAll_size ctl fd st r st' : cancelAll ctl fd st = Ret r st' → size st' = size st.
Proof.
  unfold cancelAll. case_match; [by intros [= _ <-]|]. destruct (ctx_at fd st) as [c|]; [|done].
  case_match; [by intros [= _ <-]|]. destruct (epoll_ctl _ _ _ _ st) as [st2|] eqn:He; [|by intros [= _ <-]].
  apply epoll_ctl_ctxs in He.
  destruct (trigger_if _ _ _ c st2) as [[c1 st3]|] eqn:H1; [|done].
  destruct (trigger_if _ _ _ c1 st3) as [[c2 st4]|] eqn:H2; [|done].
  apply trigger_if_size in H1, H2. case_match; [|done]. intros [= _ <-].
  rewrite H2, H1. unfold size. by rewrite He.
Qed.

Lemma handle_event_size ctl fd evs st r st' : handle_event ctl fd evs st = Ret r st' → size st' = size st.
Proof.
  unfold handle_event. destruct (ctx_at fd st) as [c|]; [|done].
  case_match; [by intros [= _ <-]|]. destruct (epoll_ctl _ _ _ _ st) as [st2|] eqn:He; [|by intros [= _ <-]].
  apply epoll_ctl_ctxs in He.
  destruct (trigger_if _ _ _ c st2) as [[c1 st3]|] eqn:H1; [|done].
  destruct (trigger_if _ _ _ c1 st3) as [[c2 st4]|] eqn:H2; [|done].
  apply trigger_if_size in H1, H2. intros [= _ <-]. rewrite H2, H1. unfold size. by rewrite He.
Qed.

End sizes.

(** ** The table as a transition system *)

Inductive step {C} : io C → io C → Prop :=
| step_add ctl s f fd event g st st' rt :
    0 ≤ fd → is_event event → waiting st fd event = None →
    addEvent ctl s f fd event g st = Ret rt st' → step st st'
| step_del ctl fd event st st' rt :
    0 ≤ fd < size st → is_event event → delEvent ctl fd event st = Ret rt st' → step st st'
| step_cancel ctl fd event st st' rt :
    0 ≤ fd < size st → is_event event → cancelEvent ctl fd event st = Ret rt st' → step st st'
| step_cancel_all ctl fd st st' rt :
    0 ≤ fd < size st → cancelAll ctl fd st = Ret rt st' → step st st'
| step_event ctl fd evs c st st' :
    0 ≤ fd → ctx_at fd st = Some c →
    Z.land (real_events_of evs (events c)) (events c) = real_events_of evs (events c) →
    handle_event ctl fd evs st = Ret tt st' → step st st'.

Definition reachable {C} (st : io C) : Prop := rtc step new_io st.

Lemma new_io_inv {C} : inv (new_io (C:=C)).
Proof.
  unfold new_io, contextResize. cbn [take length Nat.sub app].
  split; cbn [m_fdContexts m_pendingEventCount epoll].
  - apply Forall_replicate, new_fdctx_ok.
  - by rewrite total_fresh.
  - intros fd. rewrite lookup_empty. destruct (replicate _ _ !! fd) eqn:Hr; [|done].
    by apply lookup_replicate in Hr as [-> _].
  - rewrite length_replicate. lia.
Qed.

Lemma step_inv {C} (st st' : io C) : step st st' → inv st → inv st'.
Proof.
  intros Hstep Hinv. destruct Hstep as [ctl s f fd event g st st' rt Hfd Hev Hw Hm|
    ctl fd event st st' rt Hfd Hev Hm|ctl fd event st st' rt Hfd Hev Hm|ctl fd st st' rt Hfd Hm|
    ctl fd evs c st st' Hfd Hc Hsub Hm].
  - destruct (addEvent_spec ctl s f fd event g st Hinv Hfd Hev Hw) as (? & ? & Hm' & ? & _). congruence.
  - destruct (delEvent_spec ctl fd event st Hinv Hfd Hev) as (? & Hm' & ? & _). congruence.
  - destruct (cancelEvent_spec ctl fd event st Hinv Hfd Hev) as (? & Hm' & ? & _). congruence.
  - destruct (cancelAll_spec ctl fd st Hinv Hfd) as (? & ? & Hm' & ? & _). congruence.
  - destruct (handle_event_spec ctl fd evs st c Hinv Hfd Hc Hsub) as (? & Hm' & ? & _). congruence.
Qed.

Lemma io_reachable_inv {C} (st : io C) : reachable st → inv st.
Proof.
  intros Hr. unfold reachable in Hr. remember new_io as st0 eqn:E.
  assert (inv st0) as Hi by (rewrite E; apply new_io_inv). clear E.
  induction Hr as [st|st st1 st2 Hs Hr IH]; [done|]. by apply IH, (step_inv st).
Qed.

(** ** Properties *)

(** A table where fiber 7 reads descriptor 5 and a callback waits to write it. *)
Definition demo_io : io Z :=
  match addEvent true 1 7 5 READ None new_io with
  | Ret _ st => match addEvent true 1 7 5 WRITE (Some 42) st with Ret _ st => st | _ => st end
  | _ => new_io
  end.

Lemma demo_io_reachable : reachable demo_io.
Proof.
  eapply rtc_l; [eapply (step_add true 1 7 5 READ None new_io); [lia|by left|reflexivity|reflexivity]|].
  eapply rtc_l; [eapply (step_add true 1 7 5 WRITE (Some 42)); [lia|by right|reflexivity|reflexivity]|].
  apply rtc_refl.
Qed.

(** C32. In every reachable event table the pending count is the number of
    registered events, the kernel's interest list mirrors the table exactly,
    and an event is registered exactly when one task waits for it. *)
Theorem table_invariant {C} (st : io C) :
  reachable st →
  m_pendingEventCount st = total (m_fdContexts st) ∧
  (∀ fd, epoll st !! fd = m_fdContexts st !! fd ≫= mask_of) ∧
  ∀ fd c event, m_fdContexts st !! fd = Some c → is_event event →
    has c event = true ↔ is_Some (waiting_ctx c event).
Proof.
  intros Hinv%io_reachable_inv. split_and!; [apply Hinv|apply Hinv|].
  intros fd c event Hc Hev. apply has_waiting; [done|].
  by apply (Forall_lookup_1 _ _ _ _ (inv_ctx st Hinv) Hc).
Qed.

Lemma table_invariant_witness :
  m_pendingEventCount demo_io = total (m_fdContexts demo_io) ∧
  (∀ fd, epoll demo_io !! fd = m_fdContexts demo_io !! fd ≫= mask_of) ∧
  ∀ fd c event, m_fdContexts demo_io !! fd = Some c → is_event event →
    has c event = true ↔ is_Some (waiting_ctx c event).
Proof. apply (table_invariant demo_io). exact demo_io_reachable. Defined.

(** A wake-up of a reachable table for registered events schedules exactly
    the tasks waiting for them, readers before writers, each once, and
    unregisters exactly those events; when [epoll_ctl] fails nothing changes. *)
Theorem wakeup_exactly_once {C} (ctl : bool) (fd evs : Z) (st : io C) (c : FdContext C) :
  reachable st → 0 ≤ fd → ctx_at fd st = Some c →
  Z.land (real_events_of evs (events c)) (events c) = real_events_of evs (events c) →
  let m := if ctl then real_events_of evs (events c) else 0 in
  ∃ st', handle_event ctl fd evs st = Ret tt st' ∧
    scheduled st' = scheduled st
      ++ (if Z.land m READ =? 0 then [] else option_list (waiting st fd READ))
      ++ (if Z.land m WRITE =? 0 then [] else option_list (waiting st fd WRITE)) ∧
    ∀ k ev, 0 ≤ k → is_event ev → waiting st' k ev =
      if bool_decide (k = fd) && negb (Z.land m ev =? 0) then None else waiting st k ev.
Proof.
  intros Hinv%io_reachable_inv Hfd Hc Hsub m.
  destruct (handle_event_spec ctl fd evs st c Hinv Hfd Hc Hsub) as (st' & Hm & _ & Hs & Hw).
  by exists st'.
Qed.

Definition demo_ctx : FdContext Z :=
  FdCtx (Ctx (Some 1) (Some 7) None) (Ctx (Some 1) None (Some 42)) 5.

Lemma wakeup_exactly_once_witness :
  let m := real_events_of EPOLLHUP (events demo_ctx) in
  ∃ st', handle_event true 5 EPOLLHUP demo_io = Ret tt st' ∧
    scheduled st' = scheduled demo_io
      ++ (if Z.land m READ =? 0 then [] else option_list (waiting demo_io 5 READ))
      ++ (if Z.land m WRITE =? 0 then [] else option_list (waiting demo_io 5 WRITE)) ∧
    ∀ k ev, 0 ≤ k → is_event ev → waiting st' k ev =
      if bool_decide (k = 5) && negb (Z.land m ev =? 0) then None else waiting demo_io k ev.
Proof.
  apply (wakeup_exactly_once true 5 EPOLLHUP demo_io demo_ctx).
  - exact demo_io_reachable.
  - lia.
  - reflexivity.
  - reflexivity.
Defined.

(** [cancelAll] hands every task waiting on the descriptor to its scheduler,
    the reader first, and leaves none waiting; other descriptors keep theirs. *)
Theorem cancelAll_correct {C} (fd : Z) (st : io C) :
  reachable st → 0 ≤ fd < size st →
  ∃ st' rt, cancelAll true fd st = Ret rt st' ∧
    scheduled st' = scheduled st ++ option_list (waiting st fd READ)
                                 ++ option_list (waiting st fd WRITE) ∧
    ∀ k ev, 0 ≤ k → is_event ev →
      waiting st' k ev = if bool_decide (k = fd) then None else waiting st k ev.
Proof.
  intros Hinv%io_reachable_inv Hfd.
  destruct (cancelAll_spec true fd st Hinv Hfd) as (st' & rt & Hm & _ & Hs & Hw).
  by exists st', rt.
Qed.

Lemma cancelAll_correct_witness : ∃ st' rt, cancelAll true 5 demo_io = Ret rt st' ∧
  scheduled st' = scheduled demo_io ++ option_list (waiting demo_io 5 READ)
                                    ++ option_list (waiting demo_io 5 WRITE) ∧
  ∀ k ev, 0 ≤ k → is_event ev →
    waiting st' k ev = if bool_decide (k = 5) then None else waiting demo_io k ev.
Proof.
  apply (cancelAll_correct 5 demo_io); [exact demo_io_reachable|]. vm_compute. split; congruence.
Defined.

(** [delEvent], [cancelEvent] and [cancelAll] let the descriptor equal to the
    size of the context vector through their bound test and index past its end. *)
Theorem size_off_by_one {C} (ctl : bool) (event : Z) (st : io C) :
  delEvent ctl (size st) event st = UB ∧ cancelEvent ctl (size st) event st = UB ∧
  cancelAll ctl (size st) st = UB.
Proof.
  assert (ctx_at (size st) st = None) as Hn.
  { unfold ctx_at, size. case_match; [done|]. apply lookup_ge_None_2. lia. }
  unfold delEvent, cancelEvent, cancelAll. rewrite Z.ltb_irrefl, Hn. done.
Qed.

(** A wake-up that reports an event no longer registered, together with one
    that is, fails the assertion of [triggerEvent]: the loop of [idle] does not
    mask the reported events with the registered ones. *)
Theorem stale_event_aborts {C} (fd evs : Z) (st : io C) (c : FdContext C) :
  reachable st → 0 ≤ fd → ctx_at fd st = Some c →
  Z.land evs (Z.lor EPOLLERR EPOLLHUP) = 0 →
  events c = READ → Z.land evs EPOLLIN ≠ 0 → Z.land evs EPOLLOUT ≠ 0 →
  handle_event true fd evs st = UB.
Proof.
  intros Hinv%io_reachable_inv Hfd Hc He Hr Hin Hout. unfold handle_event. rewrite Hc.
  assert (real_events_of evs (events c) = 5) as ->.
  { unfold real_events_of. rewrite He. cbn [Z.eqb].
    by rewrite (proj2 (Z.eqb_neq _ _) Hin), (proj2 (Z.eqb_neq _ _) Hout). }
  pose proof Hc as Hc'. rewrite ctx_at_lookup in Hc' by done.
  pose proof (Forall_lookup_1 _ _ _ _ (inv_ctx st Hinv) Hc') as Hok.
  rewrite Hr. change (Z.land READ 5 =? NONE) with false. cbn match.
  rewrite (ctl_remove true st _ c _ Hinv Hc') by (by rewrite Hr).
  unfold trigger_if. change (Z.land 5 READ =? 0) with false. change (Z.land 5 WRITE =? 0) with false.
  cbn match. destruct (triggerEvent_spec READ c) as (c' & t & Ht & _ & He' & _);
    [by left|done|unfold has; by rewrite Hr|].
  unfold trigger at 1. rewrite Ht. cbn. unfold trigger, triggerEvent. rewrite He', Hr. done.
Qed.

Definition reader_io : io Z :=
  match addEvent true 1 7 5 READ None new_io with Ret _ st => st | _ => new_io end.

Lemma reader_io_reachable : reachable reader_io.
Proof.
  eapply rtc_l; [eapply (step_add true 1 7 5 READ None new_io); [lia|by left|reflexivity|reflexivity]|].
  apply rtc_refl.
Qed.

Lemma stale_event_aborts_witness :
  handle_event true 5 (Z.lor EPOLLIN EPOLLOUT) reader_io = UB.
Proof.
  apply (stale_event_aborts 5 (Z.lor EPOLLIN EPOLLOUT) reader_io
    (FdCtx (Ctx (Some 1) (Some 7) None) empty_ctx READ)).
  - exact reader_io_reachable.
  - lia.
  - reflexivity.
  - reflexivity.
  - reflexivity.
  - vm_compute. congruence.
  - vm_compute. congruence.
Defined.

End IOManager.
