(* ===== verification/Util.v ===== *)
(** * util: std::string searching, URL coding, trimming, paths, binary search

    Models the parts of src/bobliew/util.cc and src/bobliew/util.h that compute:
    [StringUtil], [ToUpper]/[ToLower], [FSUtil::Dirname]/[Basename], [Join] and
    [BinarySearch], over [std::string] as a list of bytes.  The members of
    [std::string] they call are given first, with positions kept as [size_t]
    numbers and [npos] as its largest value. *)

From S2P Require Import Prelude.

(** ** The members of std::string the library uses *)
Module StdString.

Definition npos : Z := 2 ^ 64 - 1.

(** [std::string::max_size]: every string in memory is shorter. *)
Definition fits (s : list ascii) : Prop := Z.of_nat (length s) < 2 ^ 63.

#[export] Instance fits_dec s : Decision (fits s).
Proof. unfold fits. apply _. Defined.

Definition of_lit (s : string) : list ascii := String.list_ascii_of_string s.

(** Position of the first byte that satisfies [p]. *)
Fixpoint index_of (p : ascii → bool) (s : list ascii) : option nat :=
  match s with
  | [] => None
  | c :: s' => if p c then Some 0%nat else S <$> index_of p s'
  end.

(** Position of the last byte that satisfies [p]. *)
Fixpoint last_index_of (p : ascii → bool) (s : list ascii) : option nat :=
  match s with
  | [] => None
  | c :: s' =>
      match last_index_of p s' with
      | Some i => Some (S i)
      | None => if p c then Some 0%nat else None
      end
  end.

Definition pos_of (o : option nat) : Z := from_option Z.of_nat npos o.

(** [s.find(c, pos)] *)
Definition find (s : list ascii) (c : ascii) (pos : Z) : Z :=
  match index_of (Ascii.eqb c) (drop (Z.to_nat pos) s) with
  | Some i => pos + Z.of_nat i
  | None => npos
  end.

(** [s.rfind(c)] *)
Definition rfind (s : list ascii) (c : ascii) : Z := pos_of (last_index_of (Ascii.eqb c) s).

Definition one_of (set : list ascii) (c : ascii) : bool := existsb (Ascii.eqb c) set.

Definition find_first_not_of (s set : list ascii) : Z :=
  pos_of (index_of (λ c, negb (one_of set c)) s).
Definition find_last_not_of (s set : list ascii) : Z :=
  pos_of (last_index_of (λ c, negb (one_of set c)) s).

(** [s.substr(pos, n)]: at most [n] bytes from [pos]; [None] is the
    [std::out_of_range] thrown when [pos] is past the end. *)
Definition substr (s : list ascii) (pos n : Z) : option (list ascii) :=
  if Z.of_nat (length s) <? pos then None
  else Some (take (Z.to_nat (Z.min n (Z.of_nat (length s)))) (drop (Z.to_nat pos) s)).

(** *** Lemmas *)

Lemma one_of_spec set c : one_of set c = true ↔ c ∈ set.
Proof.
  unfold one_of. rewrite existsb_exists. split.
  - intros (x & Hx & He). apply Ascii.eqb_eq in He as ->. by apply list_elem_of_In.
  - intros Hc. exists c. rewrite <- list_elem_of_In. split; [done|]. apply Ascii.eqb_refl.
Qed.

Lemma one_of_false set c : one_of set c = false ↔ c ∉ set.
Proof. rewrite <- one_of_spec. by destruct (one_of set c). Qed.

Section index_of.
Context (p : ascii → bool).

Lemma index_of_Some s i :
  index_of p s = Some i ↔
  ∃ s1 c s2, s = s1 ++ c :: s2 ∧ length s1 = i ∧ p c = true ∧ Forall (λ x, p x = false) s1.
Proof.
  revert i. induction s as [|c s IH]; intros i; simpl.
  - split; [done|]. by intros ([] & ? & ? & ? & _).
  - destruct (p c) eqn:Hc.
    + split.
      * intros [= <-]. by exists [], c, s.
      * intros (s1 & c' & s2 & Heq & Hl & Hp & Hall). destruct s1 as [|x s1]; simplify_eq/=; [done|].
        apply Forall_cons in Hall as [? _]. congruence.
    + destruct (index_of p s) as [j|] eqn:Hj; simpl.
      * destruct (proj1 (IH j) eq_refl) as (s1 & c' & s2 & -> & <- & Hp & Hall). split.
        -- intros [= <-]. exists (c :: s1), c', s2. repeat split; auto.
        -- intros (t1 & d & t2 & Heq & <- & Hd & Hd1). destruct t1 as [|x t1]; simplify_eq/=; [congruence|].
           apply Forall_cons in Hd1 as [_ Hd1].
           f_equal. f_equal.
           assert (Some (length s1) = Some (length t1)) as [=]; [|done].
           apply IH. eauto 10.
      * split; [done|]. intros (t1 & d & t2 & Heq & <- & Hd & Hd1).
        destruct t1 as [|x t1]; simplify_eq/=; [congruence|].
        apply Forall_cons in Hd1 as [_ Hd1].
        assert (None = Some (length t1)) as [=]. apply IH. eauto 10.
Qed.

Lemma index_of_None s : index_of p s = None ↔ Forall (λ x, p x = false) s.
Proof.
  induction s as [|c s IH]; simpl; [done|]. rewrite Forall_cons, <- IH.
  destruct (p c), (index_of p s); simpl; intuition congruence.
Qed.

Lemma index_of_lt s i : index_of p s = Some i → (i < length s)%nat.
Proof. rewrite index_of_Some. intros (s1 & c & s2 & -> & <- & _). rewrite length_app. simpl. lia. Qed.

Lemma last_index_of_Some s i :
  last_index_of p s = Some i →
  ∃ s1 c s2, s = s1 ++ c :: s2 ∧ length s1 = i ∧ p c = true ∧ Forall (λ x, p x = false) s2.
Proof.
  revert i. induction s as [|c s IH]; intros i; simpl; [done|].
  destruct (last_index_of p s) as [j|] eqn:Hj.
  - intros [= <-]. destruct (IH j eq_refl) as (s1 & d & s2 & -> & <- & ? & ?).
    by exists (c :: s1), d, s2.
  - destruct (p c) eqn:Hc; [|done]. intros [= <-]. exists [], c, s. repeat split; [done|].
    clear IH. revert Hj. induction s as [|x s IH]; simpl; [done|].
    destruct (last_index_of p s); [done|]. destruct (p x) eqn:?; [done|]. auto.
Qed.

Lemma last_index_of_app s1 c s2 :
  p c = true → Forall (λ x, p x = false) s2 →
  last_index_of p (s1 ++ c :: s2) = Some (length s1).
Proof.
  intros Hc H2. assert (last_index_of p s2 = None) as Hn.
  { induction H2 as [|x s2 Hx _ IH]; simpl; [done|]. by rewrite IH, Hx. }
  induction s1 as [|x s1 IH]; simpl; [by rewrite Hn, Hc|]. by rewrite IH.
Qed.

Lemma last_index_of_None s : last_index_of p s = None ↔ Forall (λ x, p x = false) s.
Proof.
  induction s as [|c s IH]; simpl; [done|]. rewrite Forall_cons, <- IH.
  destruct (last_index_of p s); [intuition congruence|]. destruct (p c); intuition congruence.
Qed.

End index_of.

Lemma eqb_false_notin c s : Forall (λ x, Ascii.eqb c x = false) s ↔ c ∉ s.
Proof.
  induction s as [|x s IH]; [split; [set_solver|done]|].
  rewrite Forall_cons, IH, elem_of_cons. destruct (Ascii.eqb_spec c x); intuition congruence.
Qed.

Lemma not_one_of_all set s : Forall (λ x, negb (one_of set x) = false) s ↔ Forall (.∈ set) s.
Proof.
  induction s as [|x s IH]; [done|]. rewrite !Forall_cons, IH.
  rewrite negb_false_iff, one_of_spec. done.
Qed.

Lemma find_app s1 c s2 pre pos :
  Z.of_nat (length pre) = pos → c ∉ s1 →
  find (pre ++ s1 ++ c :: s2) c pos = pos + Z.of_nat (length s1).
Proof.
  intros <- Hc. unfold find. rewrite Nat2Z.id, drop_app_length.
  rewrite (proj2 (index_of_Some _ _ (length s1))); [done|].
  exists s1, c, s2. repeat split; [apply Ascii.eqb_refl|]. by apply eqb_false_notin.
Qed.

Lemma find_notin s c pre pos :
  Z.of_nat (length pre) = pos → c ∉ s → find (pre ++ s) c pos = npos.
Proof.
  intros <- Hc. unfold find. rewrite Nat2Z.id, drop_app_length.
  by rewrite (proj2 (index_of_None _ _)) by by apply eqb_false_notin.
Qed.

Lemma substr_app pre mid post pos n :
  Z.of_nat (length pre) = pos → n = Z.of_nat (length mid) →
  substr (pre ++ mid ++ post) pos n = Some mid.
Proof.
  intros <- ->. unfold substr. rewrite (proj2 (Z.ltb_ge _ _)) by (rewrite length_app; lia).
  rewrite <- Nat2Z.inj_min, !Nat2Z.id, drop_app_length, Nat.min_l by (rewrite !length_app; lia).
  by rewrite take_app_length.
Qed.

Lemma substr_rest pre post pos n :
  Z.of_nat (length pre) = pos → Z.of_nat (length post) ≤ n →
  substr (pre ++ post) pos n = Some post.
Proof.
  intros <- Hn. unfold substr. rewrite (proj2 (Z.ltb_ge _ _)) by (rewrite length_app; lia).
  by rewrite Nat2Z.id, drop_app_length, take_ge by (rewrite length_app; lia).
Qed.

Lemma fits_app s1 s2 : fits (s1 ++ s2) → fits s1 ∧ fits s2.
Proof. unfold fits. rewrite length_app. lia. Qed.

Lemma fits_npos s : fits s → Z.of_nat (length s) < npos.
Proof. unfold fits, npos. lia. Qed.

End StdString.
Import StdString.

(** ** StringUtil *)
Module StringUtil.

(** The table [uri_chars], row by row. *)
Definition uri_chars : list Z :=
  (replicate 45 0 ++ [1; 1; 0]) ++
  [1; 1; 1; 1; 1; 1; 1; 1;  1; 1; 0; 0; 0; 1; 0; 0] ++
  [0; 1; 1; 1; 1; 1; 1; 1;  1; 1; 1; 1; 1; 1; 1; 1] ++
  [1; 1; 1; 1; 1; 1; 1; 1;  1; 1; 1; 0; 0; 0; 0; 1] ++
  [0; 1; 1; 1; 1; 1; 1; 1;  1; 1; 1; 1; 1; 1; 1; 1] ++
  [1; 1; 1; 1; 1; 1; 1; 1;  1; 1; 1; 0; 0; 0; 1; 0] ++
  replicate 128 0.

(** The table [xdigit_chars], row by row. *)
Definition xdigit_chars : list Z :=
  replicate 48 0 ++
  [0; 1; 2; 3; 4; 5; 6; 7; 8; 9; 0; 0; 0; 0; 0; 0] ++
  [0; 10; 11; 12; 13; 14; 15; 0; 0; 0; 0; 0; 0; 0; 0; 0] ++
  replicate 16 0 ++
  [0; 10; 11; 12; 13; 14; 15; 0; 0; 0; 0; 0; 0; 0; 0; 0] ++
  replicate 144 0.

Definition table (t : list Z) (c : ascii) : Z := nth (Z.to_nat (b2z c)) t 0.

Definition CHAR_IS_UNRESERVED (c : ascii) : bool := negb (table uri_chars c =? 0).

Definition hexdigits : list ascii := of_lit "0123456789ABCDEF".

(** [isxdigit] of the C locale. *)
Definition isxdigit (c : ascii) : bool :=
  let z := b2z c in
  ((48 <=? z) && (z <=? 57)) || ((65 <=? z) && (z <=? 70)) || ((97 <=? z) && (z <=? 102)).

(** What one byte of the input appends to a started output. *)
Definition encode_char (space_as_plus : bool) (c : ascii) : list ascii :=
  if negb (CHAR_IS_UNRESERVED c) then
    if Ascii.eqb c " " && space_as_plus then ["+"%char]
    else ["%"%char; nth (Z.to_nat (Z.shiftr (b2z c) 4)) hexdigits zero;
          nth (Z.to_nat (Z.land (b2z c) 15)) hexdigits zero]
  else [c].

(** The loop: [seen] is what lies before [c], [ss] the output, allocated (with
    a copy of [seen]) at the first byte that needs escaping. *)
Fixpoint encode_loop (space_as_plus : bool) (seen : list ascii)
    (ss : option (list ascii)) (rest : list ascii) : option (list ascii) :=
  match rest with
  | [] => ss
  | c :: rest' =>
      let ss' :=
        if negb (CHAR_IS_UNRESERVED c) then
          Some (default seen ss ++ encode_char space_as_plus c)
        else (.++ encode_char space_as_plus c) <$> ss in
      encode_loop space_as_plus (seen ++ [c]) ss' rest'
  end.

Definition UrlEncode (str : list ascii) (space_as_plus : bool) : list ascii :=
  default str (encode_loop space_as_plus [] None str).

Fixpoint decode_loop (space_as_plus : bool) (seen : list ascii)
    (ss : option (list ascii)) (rest : list ascii) : option (list ascii) :=
  match rest with
  | [] => ss
  | c :: rest' =>
      let plain := decode_loop space_as_plus (seen ++ [c]) ((.++ [c]) <$> ss) rest' in
      if Ascii.eqb c "+" && space_as_plus then
        decode_loop space_as_plus (seen ++ [c]) (Some (default seen ss ++ [" "%char])) rest'
      else if Ascii.eqb c "%" then
        match rest' with
        | h :: l :: rest'' =>
            if isxdigit h && isxdigit l then
              decode_loop space_as_plus (seen ++ [c; h; l])
                (Some (default seen ss ++
                  [z2b (Z.lor (Z.shiftl (table xdigit_chars h) 4) (table xdigit_chars l))]))
                rest''
            else plain
        | _ => plain
        end
      else plain
  end.

Definition UrlDecode (str : list ascii) (space_as_plus : bool) : list ascii :=
  default str (decode_loop space_as_plus [] None str).

(** [None]: [substr] threw. *)
Definition Trim (str delimit : list ascii) : option (list ascii) :=
  let begin := find_first_not_of str delimit in
  if begin =? npos then Some []
  else
    let end_ := find_last_not_of str delimit in
    substr str begin (wrap 64 (end_ - begin + 1)).

Definition TrimLeft (str delimit : list ascii) : option (list ascii) :=
  let begin := find_first_not_of str delimit in
  if begin =? npos then Some [] else substr str begin npos.

Definition TrimRight (str delimit : list ascii) : option (list ascii) :=
  let end_ := find_last_not_of str delimit in
  if end_ =? npos then Some [] else substr str 0 end_.

(** The default delimiters: space, tab, CR, LF. *)
Definition blanks : list ascii := [" "%char; "009"%char; "013"%char; "010"%char].

(** *** URL coding *)

Definition url_ref (space_as_plus : bool) (s : list ascii) : list ascii :=
  flat_map (encode_char space_as_plus) s.

Lemma encode_loop_ref plus rest seen ss :
  default (seen ++ rest) (encode_loop plus seen ss rest)
  = default seen ss ++ url_ref plus rest.
Proof.
  revert seen ss. induction rest as [|c rest IH]; intros seen ss; simpl.
  { by rewrite !app_nil_r. }
  replace (seen ++ c :: rest) with ((seen ++ [c]) ++ rest) by by rewrite <- (assoc_L (++)).
  rewrite IH. destruct (negb (CHAR_IS_UNRESERVED c)) eqn:Hc; simpl.
  - by rewrite <- (assoc_L (++)).
  - assert (encode_char plus c = [c]) as Hid by (unfold encode_char; by rewrite Hc).
    rewrite Hid. destruct ss; simpl; by rewrite <- (assoc_L (++)).
Qed.

Lemma UrlEncode_ref plus s : UrlEncode s plus = url_ref plus s.
Proof. unfold UrlEncode. exact (encode_loop_ref plus s [] None). Qed.

(** Decoding over lists, the output built from the front. *)
Fixpoint decode_ref (plus : bool) (rest : list ascii) : list ascii :=
  match rest with
  | [] => []
  | c :: rest' =>
      if Ascii.eqb c "+" && plus then " "%char :: decode_ref plus rest'
      else if Ascii.eqb c "%" then
        match rest' with
        | h :: l :: rest'' =>
            if isxdigit h && isxdigit l then
              z2b (Z.lor (Z.shiftl (table xdigit_chars h) 4) (table xdigit_chars l))
                :: decode_ref plus rest''
            else c :: decode_ref plus rest'
        | _ => c :: decode_ref plus rest'
        end
      else c :: decode_ref plus rest'
  end.

Lemma decode_loop_ref plus n rest seen ss :
  (length rest ≤ n)%nat →
  default (seen ++ rest) (decode_loop plus seen ss rest)
  = default seen ss ++ decode_ref plus rest.
Proof.
  revert rest seen ss. induction n as [|n IH]; intros rest seen ss Hn.
  { destruct rest; [|simpl in Hn; lia]. simpl. by rewrite !app_nil_r. }
  destruct rest as [|c rest]; simpl; [by rewrite !app_nil_r|]. simpl in Hn.
  assert (∀ ss' out, default (seen ++ [c]) ss' = default seen ss ++ out →
    default (seen ++ c :: rest) (decode_loop plus (seen ++ [c]) ss' rest)
    = default seen ss ++ out ++ decode_ref plus rest) as Hstep.
  { intros ss' out Ho. replace (seen ++ c :: rest) with ((seen ++ [c]) ++ rest)
      by by rewrite <- (assoc_L (++)).
    rewrite IH by lia. rewrite Ho. by rewrite <- (assoc_L (++)). }
  assert (default (seen ++ [c]) ((.++ [c]) <$> ss) = default seen ss ++ [c]) as Hpl by by destruct ss.
  destruct (Ascii.eqb c "+" && plus); [by apply (Hstep _ [" "%char])|].
  destruct (Ascii.eqb c "%"); [|by apply (Hstep _ [c])].
  destruct rest as [|h [|l rest]]; [by apply (Hstep _ [c])..|].
  destruct (isxdigit h && isxdigit l); [|by apply (Hstep _ [c])].
  replace (seen ++ c :: h :: l :: rest) with ((seen ++ [c; h; l]) ++ rest)
    by by rewrite <- (assoc_L (++)).
  rewrite IH by (simpl in Hn; lia). simpl. by rewrite <- (assoc_L (++)).
Qed.

Lemma UrlDecode_ref plus s : UrlDecode s plus = decode_ref plus s.
Proof. unfold UrlDecode. by apply (decode_loop_ref plus (length s) s [] None). Qed.

(** One encoded byte decodes to itself, whatever follows. *)
Lemma decode_encode_char plus c rest :
  decode_ref plus (encode_char plus c ++ rest) = c :: decode_ref plus rest.
Proof.
  set (code := λ p c, match encode_char p c with
    | [d] => (Ascii.eqb d "+" && p && Ascii.eqb c " ")
             || (negb (Ascii.eqb d "+" && p) && negb (Ascii.eqb d "%") && Ascii.eqb c d)
    | [d; h; l] => Ascii.eqb d "%" && isxdigit h && isxdigit l &&
        Ascii.eqb c (z2b (Z.lor (Z.shiftl (table xdigit_chars h) 4) (table xdigit_chars l)))
    | _ => false end).
  assert (code plus c = true) as Hc.
  { destruct plus; apply (forall_bytes (code _)); by vm_compute. }
  subst code. cbv beta in Hc.
  destruct (encode_char plus c) as [|d [|h [|l [|]]]]; try done.
  - apply orb_true_iff in Hc as [Hc|Hc].
    + apply andb_true_iff in Hc as [Hd Hs]. apply Ascii.eqb_eq in Hs as ->.
      simpl. by rewrite Hd.
    + apply andb_true_iff in Hc as [[Hp Hq]%andb_true_iff Hr].
      apply Ascii.eqb_eq in Hr as <-. simpl.
      by rewrite (proj1 (negb_true_iff _) Hp), (proj1 (negb_true_iff _) Hq).
  - apply andb_true_iff in Hc as [[[Hd Hh]%andb_true_iff Hl]%andb_true_iff Hr].
    apply Ascii.eqb_eq in Hd as ->. apply Ascii.eqb_eq in Hr.
    simpl. rewrite Hh, Hl. simpl. by rewrite Hr.
Qed.

Lemma decode_encode plus s : decode_ref plus (url_ref plus s) = s.
Proof.
  induction s as [|c s IH]; [done|]. unfold url_ref in *. simpl.
  by rewrite decode_encode_char, IH.
Qed.

(** An encoded string holds unreserved bytes, '%' and '+' only. *)
Lemma UrlEncode_chars plus s x :
  x ∈ UrlEncode s plus → CHAR_IS_UNRESERVED x = true ∨ x = "%"%char ∨ x = "+"%char.
Proof.
  rewrite UrlEncode_ref. unfold url_ref. intros Hx%list_elem_of_In.
  apply in_flat_map in Hx as (c & Hc & Hx).
  set (ok := λ x, CHAR_IS_UNRESERVED x || Ascii.eqb x "%" || Ascii.eqb x "+").
  assert (ok x = true) as Hok.
  { assert (∀ c, forallb ok (encode_char plus c) = true) as Hall.
    { destruct plus; apply (forall_bytes (λ c, forallb ok (encode_char _ c))); by vm_compute. }
    specialize (Hall c). rewrite forallb_forall in Hall. by apply Hall. }
  unfold ok in Hok. apply orb_true_iff in Hok as [Hok|Hok].
  - apply orb_true_iff in Hok as [?|?]; [by left|]. right; left. by apply Ascii.eqb_eq.
  - right; right. by apply Ascii.eqb_eq.
Qed.

(** URL decoding inverts URL encoding on every byte string, in both modes
    of treating the space; in the encoded string only unreserved bytes, '%' and
    '+' occur, so none of it collides with the separators of a query string. *)
Theorem url_roundtrip plus s :
  UrlDecode (UrlEncode s plus) plus = s ∧
  ("&"%char ∉ UrlEncode s plus) ∧ (";"%char ∉ UrlEncode s plus).
Proof.
  split; [by rewrite UrlDecode_ref, UrlEncode_ref, decode_encode|].
  split; intros [H|[H|H]]%UrlEncode_chars; by vm_compute in H.
Qed.

(** *** Trimming *)

Lemma find_first_not_of_app l c r d :
  Forall (.∈ d) l → c ∉ d → find_first_not_of (l ++ c :: r) d = Z.of_nat (length l).
Proof.
  intros Hl Hc. unfold find_first_not_of.
  rewrite (proj2 (index_of_Some _ _ (length l))); [done|].
  exists l, c, r. repeat split; [|by apply not_one_of_all].
  by rewrite negb_true_iff, one_of_false.
Qed.

Lemma find_last_not_of_app l c r d :
  Forall (.∈ d) r → c ∉ d → find_last_not_of (l ++ c :: r) d = Z.of_nat (length l).
Proof.
  intros Hl Hc. unfold find_last_not_of.
  rewrite last_index_of_app; [done|by rewrite negb_true_iff, one_of_false|].
  by apply not_one_of_all.
Qed.

Lemma find_not_of_all s d :
  Forall (.∈ d) s → find_first_not_of s d = npos ∧ find_last_not_of s d = npos.
Proof.
  intros Hs%not_one_of_all. unfold find_first_not_of, find_last_not_of.
  by rewrite (proj2 (index_of_None _ _) Hs), (proj2 (last_index_of_None _ _) Hs).
Qed.

(** [r] is [str] without its leading and trailing delimiters. *)
Definition trimmed (d str r : list ascii) : Prop :=
  ∃ l t, str = l ++ r ++ t ∧ Forall (.∈ d) l ∧ Forall (.∈ d) t ∧
    (∀ c, head r = Some c → c ∉ d) ∧ (∀ c, last r = Some c → c ∉ d).

Lemma first_last_split (d str : list ascii) :
  Forall (.∈ d) str ∨
  ∃ l c m, str = l ++ c :: m ∧ Forall (.∈ d) l ∧ (c ∉ d) ∧
    ∃ l' e t, str = l' ++ e :: t ∧ Forall (.∈ d) t ∧ (e ∉ d) ∧ (length l ≤ length l')%nat.
Proof.
  destruct (index_of (λ c, negb (one_of d c)) str) as [i|] eqn:Hi.
  - right. pose proof (proj1 (index_of_Some _ _ _) Hi) as (l & c & m & -> & Hl & Hc & Hall).
    exists l, c, m. split; [done|]. split; [by apply not_one_of_all|].
    rewrite negb_true_iff, one_of_false in Hc. split; [done|].
    destruct (last_index_of (λ c, negb (one_of d c)) (l ++ c :: m)) as [j|] eqn:Hj.
    + pose proof (last_index_of_Some _ _ _ Hj) as (l' & e & t & Heq & Hl' & He & Ht).
      exists l', e, t. split; [done|]. split; [by apply not_one_of_all|].
      split; [by rewrite negb_true_iff, one_of_false in He|].
      destruct (decide (length l ≤ length l')%nat); [done|].
      exfalso. assert (e ∈ l) as Hin.
      { apply (list_elem_of_lookup_2 _ (length l')).
        rewrite <- (lookup_app_l l (c :: m)) by lia. rewrite Heq. by apply list_lookup_middle. }
      rewrite Forall_forall in Hall. specialize (Hall e Hin). congruence.
    + apply last_index_of_None, Forall_app in Hj as [_ Hj]. apply Forall_cons in Hj as [Hj _].
      rewrite negb_false_iff, one_of_spec in Hj. done.
  - left. by apply not_one_of_all, index_of_None.
Qed.

Lemma Trim_spec str d :
  fits str → ∃ r, Trim str d = Some r ∧ trimmed d str r ∧ (r = [] ↔ Forall (.∈ d) str).
Proof.
  intros Hf. unfold Trim. destruct (first_last_split d str) as [Hall|Hs].
  { destruct (find_not_of_all str d Hall) as [-> _]. exists []. split; [done|].
    split; [|done]. exists str, []. rewrite app_nil_r. done. }
  destruct Hs as (l & c & m & Heq & Hl & Hc & l' & e & t & Heq' & Ht & He & Hle).
  assert (find_first_not_of str d = Z.of_nat (length l)) as ->
    by (rewrite Heq; by apply find_first_not_of_app).
  assert (find_last_not_of str d = Z.of_nat (length l')) as ->
    by (rewrite Heq'; by apply find_last_not_of_app).
  apply fits_npos in Hf as Hn. unfold fits in Hf.
  assert (length str = length l' + S (length t))%nat as Hlen
    by (rewrite Heq', length_app; simpl; lia).
  rewrite (proj2 (Z.eqb_neq _ _)) by lia.
  rewrite wrap_small by (unfold in_u; lia). rewrite Heq.
  exists (drop (length l) (l' ++ [e])).
  assert (drop (length l) (l' ++ [e]) ++ t = c :: m) as Hmid.
  { rewrite <- drop_app_le by (rewrite length_app; simpl; lia).
    rewrite <- (assoc_L (++)). simpl. rewrite <- Heq', Heq. by rewrite drop_app_length. }
  assert (head (drop (length l) (l' ++ [e])) = Some c) as Hh.
  { destruct (drop _ _) as [|x r] eqn:E; [|by injection Hmid as -> _].
    apply (f_equal length) in E. rewrite length_drop, length_app in E. simpl in E. lia. }
  split; [|split].
  - rewrite <- Hmid. apply substr_app; [done|].
    rewrite length_drop, length_app. simpl. lia.
  - exists l, t. rewrite <- Hmid. repeat split; [done|done| |].
    + intros x Hx. congruence.
    + intros x. rewrite drop_app_le by done. rewrite last_app. simpl. congruence.
  - split; [intros E; by rewrite E in Hh|]. intros [_ Hx]%Forall_app.
    by apply Forall_cons in Hx as [? _].
Qed.

(** [Trim] never throws: it returns the input without its leading and
    trailing delimiters, which is empty exactly when nothing else is there. *)
Theorem trim_correct str d :
  fits str → ∃ r, Trim str d = Some r ∧ trimmed d str r ∧ (r = [] ↔ Forall (.∈ d) str).
Proof. apply Trim_spec. Qed.

(** Trimming a padded cookie name. *)
Lemma trim_correct_witness :
  fits (of_lit "  id ") ∧ Trim (of_lit "  id ") blanks = Some (of_lit "id") ∧
  ∃ r, Trim (of_lit "  id ") blanks = Some r ∧ trimmed blanks (of_lit "  id ") r ∧
    (r = [] ↔ Forall (.∈ blanks) (of_lit "  id ")).
Proof.
  assert (fits (of_lit "  id ")) as Hf by by vm_compute.
  split; [done|]. split; [by vm_compute|]. by apply trim_correct.
Defined.

(** [TrimLeft] drops exactly the leading delimiters. *)
Lemma TrimLeft_correct l c r d :
  fits (l ++ c :: r) → Forall (.∈ d) l → c ∉ d → TrimLeft (l ++ c :: r) d = Some (c :: r).
Proof.
  intros Hf Hl Hc. unfold TrimLeft. rewrite find_first_not_of_app by done.
  apply fits_npos in Hf. rewrite length_app in Hf. simpl in Hf.
  rewrite (proj2 (Z.eqb_neq _ _)) by lia. apply substr_rest; [done|]. simpl. lia.
Qed.

(** [substr(0, end)] stops before the last byte to keep: [TrimRight] of a
    string that is not all delimiters loses its last byte. *)
Lemma TrimRight_drops_last l c t d :
  fits (l ++ c :: t) → Forall (.∈ d) t → c ∉ d → TrimRight (l ++ c :: t) d = Some l.
Proof.
  intros Hf Hl Hc. unfold TrimRight. rewrite find_last_not_of_app by done.
  apply fits_npos in Hf. rewrite length_app in Hf. simpl in Hf.
  rewrite (proj2 (Z.eqb_neq _ _)) by lia. by apply (substr_app []).
Qed.

End StringUtil.

(** ** Character case, paths, Join *)
Module Util.

(** [toupper] and [tolower] of the C locale. *)
Definition toupper (c : ascii) : ascii :=
  if (97 <=? b2z c) && (b2z c <=? 122) then z2b (b2z c - 32) else c.
Definition tolower (c : ascii) : ascii :=
  if (65 <=? b2z c) && (b2z c <=? 90) then z2b (b2z c + 32) else c.

Definition ToUpper (name : list ascii) : list ascii := toupper <$> name.
Definition ToLower (name : list ascii) : list ascii := tolower <$> name.

Definition Dirname (filename : list ascii) : option (list ascii) :=
  match filename with
  | [] => Some (of_lit ".")
  | _ =>
      let pos := rfind filename "/" in
      if pos =? 0 then Some (of_lit "/")
      else if pos =? npos then Some (of_lit ".")
      else substr filename 0 pos
  end.

Definition Basename (filename : list ascii) : option (list ascii) :=
  match filename with
  | [] => Some filename
  | _ =>
      let pos := rfind filename "/" in
      if pos =? npos then Some filename
      else substr filename (pos + 1) npos
  end.

Fixpoint Join (items : list (list ascii)) (tag : list ascii) : list ascii :=
  match items with
  | [] => []
  | [x] => x
  | x :: rest => x ++ tag ++ Join rest tag
  end.

Lemma rfind_app d b : "/"%char ∉ b → rfind (d ++ "/"%char :: b) "/" = Z.of_nat (length d).
Proof.
  intros Hb. unfold rfind. rewrite last_index_of_app; [done|done|]. by apply eqb_false_notin.
Qed.

(** A path splits into directory, '/' and base name. *)
Lemma Dirname_Basename d b :
  fits (d ++ "/"%char :: b) → "/"%char ∉ b → d ≠ [] →
  Dirname (d ++ "/"%char :: b) = Some d ∧ Basename (d ++ "/"%char :: b) = Some b.
Proof.
  intros Hf Hb Hd. apply fits_npos in Hf. rewrite length_app in Hf. simpl in Hf.
  destruct d as [|x d]; [done|]. unfold Dirname, Basename. simpl app.
  change (x :: d ++ "/"%char :: b) with ((x :: d) ++ "/"%char :: b).
  rewrite rfind_app by done. simpl length in *.
  rewrite !(proj2 (Z.eqb_neq _ _)) by lia. split.
  - by apply (substr_app [] (x :: d)).
  - change (substr ((x :: d) ++ "/"%char :: b) (Z.of_nat (S (length d)) + 1) npos = Some b).
    replace ((x :: d) ++ "/"%char :: b) with (((x :: d) ++ ["/"%char]) ++ b)
      by by rewrite <- (assoc_L (++)).
    apply substr_rest; [rewrite length_app; simpl; lia|lia].
Qed.

Lemma tolower_idemp c : tolower (tolower c) = tolower c.
Proof.
  apply Ascii.eqb_eq. apply (forall_bytes (λ c, Ascii.eqb (tolower (tolower c)) (tolower c))).
  by vm_compute.
Qed.

(** *** BinarySearch *)
Section BinarySearch.
Context {T : Type} (ltb : T → T → bool).

(** One call of the loop body per unit of fuel.  [None]: the sum of the bounds
    overflows [int], or the array is read outside its bounds. *)
Fixpoint search_loop (fuel : nat) (arr : list T) (v : T) (begin end_ : Z) : option Z :=
  match fuel with
  | O => None
  | S fuel' =>
      if begin <=? end_ then
        if bool_decide (in_s 32 (begin + end_)) then
          let m := Z.quot (begin + end_) 2 in
          match arr !! Z.to_nat m with
          | None => None
          | Some x =>
              if ltb v x then search_loop fuel' arr v begin (m - 1)
              else if ltb x v then search_loop fuel' arr v (m + 1) end_
              else Some m
          end
        else None
      else Some (- begin - 1)
  end.

Definition BinarySearch (arr : list T) (length_ : Z) (v : T) : option Z :=
  search_loop (S (Z.to_nat length_)) arr v 0 (length_ - 1).

(** [ltb] is co-transitive, as every strict weak order is. *)
Hypothesis cotrans : ∀ a b c, ltb a c = true → ltb a b = true ∨ ltb b c = true.

Definition sorted_arr (arr : list T) : Prop :=
  ∀ i j x y, (i < j)%nat → arr !! i = Some x → arr !! j = Some y → ltb y x = false.

(** The result encodes either an index of an element equivalent to [v], or
    the insertion point of [v] as [-(index + 1)]. *)
Definition search_result (arr : list T) (v : T) (r : Z) : Prop :=
  if decide (0 ≤ r) then
    ∃ x, arr !! Z.to_nat r = Some x ∧ ltb v x = false ∧ ltb x v = false
  else
    let i := Z.to_nat (- r - 1) in
    (i ≤ length arr)%nat ∧
    (∀ j x, (j < i)%nat → arr !! j = Some x → ltb x v = true) ∧
    (∀ j x, (i ≤ j)%nat → arr !! j = Some x → ltb v x = true).

Lemma search_loop_correct arr v fuel begin end_ :
  sorted_arr arr → Z.of_nat (length arr) ≤ 2 ^ 30 →
  0 ≤ begin ≤ end_ + 1 → end_ < Z.of_nat (length arr) →
  (∀ j x, Z.of_nat j < begin → arr !! j = Some x → ltb x v = true) →
  (∀ j x, end_ < Z.of_nat j → arr !! j = Some x → ltb v x = true) →
  end_ - begin + 1 < Z.of_nat fuel →
  ∃ r, search_loop fuel arr v begin end_ = Some r ∧ search_result arr v r.
Proof.
  intros Hs Hlen. revert begin end_.
  induction fuel as [|fuel IH]; intros begin end_ Hb He Hlo Hhi Hf; [lia|]. cbn [search_loop].
  destruct (Z.leb_spec begin end_) as [Hle|Hgt]; cycle 1.
  { eexists; split; [done|]. unfold search_result. rewrite decide_False by lia.
    replace (- (- begin - 1) - 1) with begin by lia. repeat split; [lia|..].
    - intros j x Hj. apply Hlo. lia.
    - intros j x Hj. apply Hhi. lia. }
  rewrite bool_decide_eq_true_2 by (unfold in_s; lia).
  rewrite Z.quot_div_nonneg by lia. set (m := (begin + end_) / 2).
  assert (begin ≤ m ≤ end_) as Hm by (unfold m; split;
    [apply Z.div_le_lower_bound; lia|apply Z.div_le_upper_bound; lia]).
  destruct (arr !! Z.to_nat m) as [x|] eqn:Hx; cycle 1.
  { apply lookup_ge_None in Hx. lia. }
  destruct (ltb v x) eqn:Hvx; [|destruct (ltb x v) eqn:Hxv].
  - apply IH; [lia|lia|done| |lia]. intros j y Hj Hy.
    destruct (decide (j = Z.to_nat m)) as [->|]; [congruence|].
    destruct (cotrans v y x Hvx) as [|Hyx]; [done|].
    rewrite (Hs (Z.to_nat m) j x y) in Hyx by (done || lia). done.
  - apply IH; [lia|lia| |done|lia]. intros j y Hj Hy.
    destruct (decide (j = Z.to_nat m)) as [->|]; [congruence|].
    destruct (cotrans x y v Hxv) as [Hyx|]; [|done].
    rewrite (Hs j (Z.to_nat m) y x) in Hyx by (done || lia). done.
  - exists m. split; [done|]. unfold search_result. rewrite decide_True by lia. eauto.
Qed.

(** On a sorted array of at most 2^30 elements [BinarySearch] returns: a
    non-negative result is the index of an element equal to the key, a negative
    one is [-(i + 1)] for the insertion point [i]. *)
Theorem BinarySearch_correct arr v :
  sorted_arr arr → Z.of_nat (length arr) ≤ 2 ^ 30 →
  ∃ r, BinarySearch arr (Z.of_nat (length arr)) v = Some r ∧ search_result arr v r.
Proof.
  intros Hs Hlen. unfold BinarySearch. apply search_loop_correct; try done; try lia.
  intros j x Hj Hx. apply lookup_lt_Some in Hx. lia.
Qed.

End BinarySearch.

Lemma BinarySearch_correct_witness :
  BinarySearch Z.ltb [2; 5; 9] 3 9 = Some 2 ∧ BinarySearch Z.ltb [2; 5; 9] 3 6 = Some (-3) ∧
  ∃ r, BinarySearch Z.ltb [2; 5; 9] (Z.of_nat (length [2; 5; 9])) 6 = Some r ∧
    search_result Z.ltb [2; 5; 9] 6 r.
Proof.
  split; [done|]. split; [done|]. apply BinarySearch_correct.
  - intros a b c. rewrite !Z.ltb_lt. lia.
  - intros i j x y Hij Hi Hj. apply Z.ltb_ge.
    destruct i as [|[|[|]]], j as [|[|[|]]]; simplify_eq/=; try lia; done.
  - simpl. lia.
Defined.

End Util.
