(* ===== verification/Httpmap.v ===== *)
(** * http: case-insensitive maps

    [std::map<std::string, std::string, CaseInsensitiveLess>], the type of the
    header, parameter and cookie maps of src/bobliew/http/http.h.  The map is the
    list of its nodes in iteration order; the operations follow [std::map]:
    they search with the comparison only, [operator[]] and [insert] keep the key
    that is already stored, [insert] keeps its value too. *)

From S2P Require Import Prelude Util.
Import StdString.
From Stdlib Require Import Sorted.

Module HttpMap.

(** [strcasecmp] on two C strings; a list ends in an implicit NUL. *)
Fixpoint strcasecmp (a b : list ascii) : Z :=
  let c1 := b2z (Util.tolower (hd zero a)) in
  let c2 := b2z (Util.tolower (hd zero b)) in
  if negb (c1 =? c2) then c1 - c2
  else if c1 =? 0 then 0
  else match a with [] => 0 | _ :: a' => strcasecmp a' (tl b) end.

(** [CaseInsensitiveLess::operator()] *)
Definition CaseInsensitiveLess (lhs rhs : list ascii) : bool := strcasecmp lhs rhs <? 0.

Definition MapType := list (list ascii * list ascii).

(** [std::map::find] *)
Fixpoint find (key : list ascii) (m : MapType) : option (list ascii) :=
  match m with
  | [] => None
  | (k, v) :: m' =>
      if CaseInsensitiveLess k key then find key m'
      else if CaseInsensitiveLess key k then None
      else Some v
  end.

(** [std::map::insert]: does nothing when the key is there. *)
Fixpoint insert (key val : list ascii) (m : MapType) : MapType :=
  match m with
  | [] => [(key, val)]
  | (k, v) :: m' =>
      if CaseInsensitiveLess k key then (k, v) :: insert key val m'
      else if CaseInsensitiveLess key k then (key, val) :: m
      else m
  end.

(** [m[key] = val] *)
Fixpoint assign (key val : list ascii) (m : MapType) : MapType :=
  match m with
  | [] => [(key, val)]
  | (k, v) :: m' =>
      if CaseInsensitiveLess k key then (k, v) :: assign key val m'
      else if CaseInsensitiveLess key k then (key, val) :: m
      else (k, val) :: m'
  end.

(** [std::map::erase(key)] *)
Fixpoint erase (key : list ascii) (m : MapType) : MapType :=
  match m with
  | [] => []
  | (k, v) :: m' =>
      if CaseInsensitiveLess k key then (k, v) :: erase key m'
      else if CaseInsensitiveLess key k then m
      else m'
  end.

(** *** The order

    A key counts by its bytes in lower case up to the first NUL. *)
Fixpoint ci_key (s : list ascii) : list Z :=
  match s with
  | [] => []
  | c :: s' =>
      let z := b2z (Util.tolower c) in
      if z =? 0 then [] else z :: ci_key s'
  end.

Fixpoint cmpZ (a b : list Z) : Z :=
  match a, b with
  | [], [] => 0
  | [], y :: _ => - y
  | x :: _, [] => x
  | x :: a', y :: b' => if x =? y then cmpZ a' b' else x - y
  end.

Lemma ci_key_pos s : Forall (λ z, 0 < z) (ci_key s).
Proof.
  induction s as [|c s IH]; simpl; [done|].
  pose proof (b2z_range (Util.tolower c)). destruct (Z.eqb_spec (b2z (Util.tolower c)) 0); [done|].
  constructor; [lia|done].
Qed.

Lemma strcasecmp_key a b : strcasecmp a b = cmpZ (ci_key a) (ci_key b).
Proof.
  assert (b2z (Util.tolower zero) = 0) as H0 by done.
  revert b. induction a as [|x a IH]; intros [|y b]; cbn [strcasecmp hd tl ci_key cmpZ];
    rewrite ?H0; [done| | |].
  - pose proof (b2z_range (Util.tolower y)).
    destruct (Z.eqb_spec 0 (b2z (Util.tolower y))) as [E|E], (Z.eqb_spec (b2z (Util.tolower y)) 0);
      simpl; lia.
  - destruct (Z.eqb_spec (b2z (Util.tolower x)) 0) as [E|E]; simpl; lia.
  - rewrite IH.
    destruct (Z.eqb_spec (b2z (Util.tolower x)) 0) as [Ex|Ex],
      (Z.eqb_spec (b2z (Util.tolower y)) 0) as [Ey|Ey]; simpl.
    + by rewrite Ex, Ey.
    + rewrite Ex. rewrite (proj2 (Z.eqb_neq 0 _)) by lia. simpl. lia.
    + rewrite Ey. rewrite (proj2 (Z.eqb_neq _ 0)) by lia. simpl. lia.
    + by destruct (Z.eqb_spec (b2z (Util.tolower x)) (b2z (Util.tolower y))).
Qed.

Lemma cmpZ_opp a b : cmpZ b a = - cmpZ a b.
Proof.
  revert b. induction a as [|x a IH]; intros [|y b]; simpl; [lia..|].
  destruct (Z.eqb_spec x y), (Z.eqb_spec y x); try lia. apply IH.
Qed.

Lemma cmpZ_zero a b :
  Forall (λ z, 0 < z) a → Forall (λ z, 0 < z) b → cmpZ a b = 0 ↔ a = b.
Proof.
  revert b. induction a as [|x a IH]; intros [|y b] Ha Hb; simpl; [done| | |];
    repeat match goal with H : Forall _ (_ :: _) |- _ => apply Forall_cons in H as [??] end.
  - split; [lia|done].
  - split; [lia|done].
  - destruct (Z.eqb_spec x y) as [->|].
    + rewrite IH by done. split; [by intros ->|by intros [= ->]].
    + split; [lia|]. intros [=]. done.
Qed.

Lemma cmpZ_trans a b c :
  Forall (λ z, 0 < z) a → Forall (λ z, 0 < z) b → Forall (λ z, 0 < z) c →
  cmpZ a b < 0 → cmpZ b c < 0 → cmpZ a c < 0.
Proof.
  revert b c. induction a as [|x a IH]; intros [|y b] [|z c] Ha Hb Hc; simpl; try lia;
    repeat match goal with H : Forall _ (_ :: _) |- _ => apply Forall_cons in H as [??] end;
    try lia.
  destruct (Z.eqb_spec x y), (Z.eqb_spec y z), (Z.eqb_spec x z); try lia. by apply IH.
Qed.

(** Keys the map cannot tell apart. *)
Definition ci_eq (a b : list ascii) : Prop := ci_key a = ci_key b.

#[global] Instance ci_eq_dec a b : Decision (ci_eq a b).
Proof. unfold ci_eq. apply _. Defined.

#[global] Instance ci_eq_equiv : Equivalence ci_eq.
Proof. unfold ci_eq. split; [by intros ?|by intros ???|intros ??? -> ->; done]. Qed.

#[global] Instance strcasecmp_proper : Proper (ci_eq ==> ci_eq ==> eq) strcasecmp.
Proof. intros a b Hab c d Hcd. by rewrite !strcasecmp_key, Hab, Hcd. Qed.

#[global] Instance less_proper : Proper (ci_eq ==> ci_eq ==> eq) CaseInsensitiveLess.
Proof. intros a b Hab c d Hcd. unfold CaseInsensitiveLess. by rewrite Hab, Hcd. Qed.

Definition lt (a b : list ascii) : Prop := strcasecmp a b < 0.

Lemma lt_trans a b c : lt a b → lt b c → lt a c.
Proof. unfold lt. rewrite !strcasecmp_key. apply cmpZ_trans; apply ci_key_pos. Qed.

Lemma strcasecmp_zero a b : strcasecmp a b = 0 ↔ ci_eq a b.
Proof. rewrite strcasecmp_key. apply cmpZ_zero; apply ci_key_pos. Qed.

(** The three outcomes of the two comparisons the map makes. *)
Inductive compared (a b : list ascii) : bool → bool → Prop :=
| cmp_lt : lt a b → ¬ ci_eq a b → compared a b true false
| cmp_gt : lt b a → ¬ ci_eq a b → compared a b false true
| cmp_eq : ci_eq a b → compared a b false false.

Lemma compare_spec a b : compared a b (CaseInsensitiveLess a b) (CaseInsensitiveLess b a).
Proof.
  unfold CaseInsensitiveLess. pose proof (strcasecmp_zero a b) as Hz.
  assert (strcasecmp b a = - strcasecmp a b) as Ho by by rewrite !strcasecmp_key, cmpZ_opp.
  destruct (Z.ltb_spec (strcasecmp a b) 0), (Z.ltb_spec (strcasecmp b a) 0); try lia.
  - apply cmp_lt; [done|]. rewrite <- Hz. lia.
  - apply cmp_gt; [done|]. rewrite <- Hz. lia.
  - apply cmp_eq. apply Hz. lia.
Qed.

Lemma lt_irrefl a b : ci_eq a b → ¬ lt a b.
Proof. intros H%strcasecmp_zero. unfold lt. lia. Qed.

Lemma lt_asym a b : lt a b → ¬ lt b a.
Proof. intros H1 H2. by apply (lt_irrefl a a); [|eapply lt_trans]. Qed.

Lemma less_lt a b : lt a b → CaseInsensitiveLess a b = true.
Proof. apply Z.ltb_lt. Qed.

Lemma less_gt a b : lt b a → CaseInsensitiveLess a b = false.
Proof. intros H. destruct (compare_spec a b); [|done..]. by apply lt_asym in H. Qed.

Lemma less_eq a b : ci_eq a b → CaseInsensitiveLess a b = false.
Proof. intros H%strcasecmp_zero. unfold CaseInsensitiveLess. by rewrite H. Qed.

#[global] Instance lt_proper : Proper (ci_eq ==> ci_eq ==> iff) lt.
Proof. intros a b Hab c d Hcd. unfold lt. by rewrite Hab, Hcd. Qed.

(** *** The invariant: nodes in strictly increasing key order *)
Definition sorted (m : MapType) : Prop := StronglySorted (λ p q, lt p.1 q.1) m.

Lemma insert_forall (P : list ascii * list ascii → Prop) key val m :
  P (key, val) → Forall P m → Forall P (insert key val m).
Proof.
  intros Hk Hm. induction Hm as [|[k v] m Hp Hm IH]; simpl; [by constructor|].
  repeat case_match; by repeat constructor.
Qed.

Lemma assign_forall (P : list ascii * list ascii → Prop) key val m :
  P (key, val) → (∀ k v, P (k, v) → P (k, val)) → Forall P m → Forall P (assign key val m).
Proof.
  intros Hk Hv Hm. induction Hm as [|[k v] m Hp Hm IH]; simpl; [by constructor|].
  repeat case_match; repeat constructor; eauto.
Qed.

Lemma erase_forall (P : list ascii * list ascii → Prop) key m :
  Forall P m → Forall P (erase key m).
Proof.
  intros Hm. induction Hm as [|[k v] m Hp Hm IH]; simpl; [by constructor|].
  repeat case_match; by repeat constructor.
Qed.

Lemma forall_lt_trans a b (m : MapType) :
  lt a b → Forall (λ q, lt b q.1) m → Forall (λ q, lt a q.1) m.
Proof. intros Hab Hm. eapply Forall_impl; [done|]. intros q. by apply lt_trans. Qed.

Ltac sorted_cons :=
  match goal with
  | H : sorted (_ :: _) |- _ => apply StronglySorted_inv in H as [? ?]
  end.

Lemma insert_sorted key val m : sorted m → sorted (insert key val m).
Proof.
  induction m as [|[k v] m IH]; intros Hm; simpl; [repeat constructor|].
  destruct (compare_spec k key); [| |done].
  - sorted_cons. constructor; [by apply IH|]. by apply insert_forall.
  - pose proof Hm. sorted_cons. constructor; [done|]. constructor; [done|].
    by eapply forall_lt_trans.
Qed.

Lemma assign_sorted key val m : sorted m → sorted (assign key val m).
Proof.
  induction m as [|[k v] m IH]; intros Hm; simpl; [repeat constructor|].
  destruct (compare_spec k key).
  - sorted_cons. constructor; [by apply IH|]. by apply assign_forall.
  - pose proof Hm. sorted_cons. constructor; [done|]. constructor; [done|].
    by eapply forall_lt_trans.
  - sorted_cons. by constructor.
Qed.

Lemma erase_sorted key m : sorted m → sorted (erase key m).
Proof.
  induction m as [|[k v] m IH]; intros Hm; simpl; [repeat constructor|].
  destruct (compare_spec k key); [|done|].
  - sorted_cons. constructor; [by apply IH|]. by apply erase_forall.
  - by sorted_cons.
Qed.

#[global] Instance find_proper : Proper (ci_eq ==> eq ==> eq) find.
Proof.
  intros a b Hab m ? <-. induction m as [|[k v] m IH]; simpl; [done|].
  assert (CaseInsensitiveLess k a = CaseInsensitiveLess k b) as -> by by rewrite Hab.
  assert (CaseInsensitiveLess a k = CaseInsensitiveLess b k) as -> by by rewrite Hab.
  by rewrite IH.
Qed.

(** What a lookup sees at the first node. *)
Lemma find_lt key k v m : lt k key → find key ((k, v) :: m) = find key m.
Proof. intros H. simpl. by rewrite less_lt. Qed.

Lemma find_gt key k v m : lt key k → find key ((k, v) :: m) = None.
Proof. intros H. simpl. by rewrite less_gt, less_lt. Qed.

Lemma find_eq key k v m : ci_eq k key → find key ((k, v) :: m) = Some v.
Proof. intros H. simpl. by rewrite !less_eq by done || by symmetry. Qed.

(** A key below every node of the map is not found. *)
Lemma find_below key m : Forall (λ q, lt key q.1) m → find key m = None.
Proof.
  intros Hm. destruct m as [|[k v] m]; [done|]. apply Forall_cons in Hm as [Hk _].
  by apply find_gt.
Qed.

(** *** What a lookup sees after an update *)
Lemma find_insert key val m k' :
  sorted m →
  find k' (insert key val m) =
  if decide (ci_eq key k') then Some (default val (find key m)) else find k' m.
Proof.
  induction m as [|[k v] m IH]; intros Hm; cbn [insert].
  - simpl. destruct (compare_spec key k'); case_decide; done.
  - destruct (compare_spec k key) as [Hlt Hne|Hlt Hne|Heq].
    + sorted_cons. rewrite (find_lt key) by done.
      destruct (compare_spec k k') as [H1 H2|H1 H2|H1].
      * rewrite !find_lt by done. by apply IH.
      * rewrite !find_gt by done. case_decide as Hk'; [|done].
        rewrite <- Hk' in H1. by apply lt_asym in H1.
      * rewrite !find_eq by done. case_decide as Hk'; [|done]. by rewrite <- Hk' in H1.
    + rewrite (find_gt key) by done. destruct (compare_spec key k') as [H1 H2|H1 H2|H1].
      * rewrite find_lt by done. by rewrite decide_False.
      * rewrite find_gt by done. rewrite decide_False by done.
        by rewrite find_gt by by eapply lt_trans.
      * rewrite find_eq by done. by rewrite decide_True.
    + rewrite (find_eq key) by done. case_decide as Hk'; [|done].
      by rewrite <- Hk', find_eq.
Qed.

Lemma find_assign key val m k' :
  sorted m →
  find k' (assign key val m) = if decide (ci_eq key k') then Some val else find k' m.
Proof.
  induction m as [|[k v] m IH]; intros Hm; cbn [assign].
  - simpl. destruct (compare_spec key k'); case_decide; done.
  - destruct (compare_spec k key) as [Hlt Hne|Hlt Hne|Heq].
    + sorted_cons. destruct (compare_spec k k') as [H1 H2|H1 H2|H1].
      * rewrite !find_lt by done. by apply IH.
      * rewrite !find_gt by done. case_decide as Hk'; [|done].
        rewrite <- Hk' in H1. by apply lt_asym in H1.
      * rewrite !find_eq by done. case_decide as Hk'; [|done]. by rewrite <- Hk' in H1.
    + pose proof (find_insert key val ((k, v) :: m) k' Hm) as Hi. cbn [insert] in Hi.
      rewrite less_gt, less_lt in Hi by done. rewrite Hi, (find_gt key) by done. done.
    + case_decide as Hk'; [by rewrite find_eq by by rewrite Heq|].
      destruct (compare_spec k k') as [H1 H2|H1 H2|H1];
        [by rewrite !find_lt|by rewrite !find_gt|]. by rewrite Heq in H1.
Qed.

Lemma find_erase key m k' :
  sorted m → find k' (erase key m) = if decide (ci_eq key k') then None else find k' m.
Proof.
  induction m as [|[k v] m IH]; intros Hm; cbn [erase]; [by case_decide|].
  destruct (compare_spec k key) as [Hlt Hne|Hlt Hne|Heq].
  - sorted_cons. destruct (compare_spec k k') as [H1 H2|H1 H2|H1].
    + rewrite !find_lt by done. by apply IH.
    + rewrite !find_gt by done. by case_decide.
    + rewrite !find_eq by done. case_decide as Hk'; [|done]. by rewrite <- Hk' in H1.
  - case_decide as Hk'; [|done]. by rewrite <- Hk', find_gt.
  - sorted_cons. case_decide as Hk'.
    + rewrite <- Hk', <- Heq. by apply find_below.
    + rewrite <- Heq in Hk'. destruct (compare_spec k k') as [H1 H2|H1 H2|H1]; [| |done].
      * by rewrite find_lt.
      * rewrite find_gt by done. apply find_below. by eapply forall_lt_trans.
Qed.

(** *** Reachable maps *)
Inductive op :=
| Assign (k v : list ascii)
| Insert (k v : list ascii)
| Erase (k : list ascii).

Definition apply_op (m : MapType) (o : op) : MapType :=
  match o with
  | Assign k v => assign k v m
  | Insert k v => insert k v m
  | Erase k => erase k m
  end.

Definition run_ops (ops : list op) : MapType := foldl apply_op [] ops.

(** The abstract map: a partial function on keys up to case. *)
Definition spec_op (f : list ascii → option (list ascii)) (o : op)
    : list ascii → option (list ascii) :=
  match o with
  | Assign k v => λ k', if decide (ci_eq k k') then Some v else f k'
  | Insert k v => λ k', if decide (ci_eq k k') then Some (default v (f k)) else f k'
  | Erase k => λ k', if decide (ci_eq k k') then None else f k'
  end.

Lemma apply_op_sorted m o : sorted m → sorted (apply_op m o).
Proof. destruct o; [apply assign_sorted|apply insert_sorted|apply erase_sorted]. Qed.

Lemma apply_op_refines m f o :
  sorted m → (∀ k, find k m = f k) → ∀ k, find k (apply_op m o) = spec_op f o k.
Proof.
  intros Hm Hf k. destruct o; simpl.
  - rewrite find_assign by done. by case_decide.
  - rewrite find_insert by done. rewrite Hf. by case_decide.
  - rewrite find_erase by done. by case_decide.
Qed.

(** However a header, parameter or cookie map was built, its nodes are in
    strictly increasing order of the case-folded keys, and every lookup is that
    of the abstract map from case-insensitive keys to values on which
    assignment overwrites, insertion keeps a present value and erasure removes;
    lookups of keys that differ in case only agree. *)
Theorem header_map_refines ops k k' :
  sorted (run_ops ops) ∧
  find k (run_ops ops) = foldl spec_op (λ _, None) ops k ∧
  (strcasecmp k k' = 0 → find k (run_ops ops) = find k' (run_ops ops)).
Proof.
  assert (∀ m f, sorted m → (∀ k, find k m = f k) →
    sorted (foldl apply_op m ops) ∧ ∀ k, find k (foldl apply_op m ops) = foldl spec_op f ops k)
    as H.
  { induction ops as [|o ops IH]; intros m f Hm Hf; [done|]. simpl.
    apply IH; [by apply apply_op_sorted|by apply apply_op_refines]. }
  destruct (H [] (λ _, None)) as [H1 H2]; [constructor|done|].
  split; [done|]. split; [apply H2|]. rewrite strcasecmp_zero. by intros ->.
Qed.

(** A header set twice in different case: one node, the first spelling. *)
Lemma header_map_refines_witness :
  run_ops [Assign (of_lit "Host") (of_lit "a"); Assign (of_lit "HOST") (of_lit "b")]
  = [(of_lit "Host", of_lit "b")] ∧
  find (of_lit "host") (run_ops [Assign (of_lit "Host") (of_lit "a")])
  = find (of_lit "Host") (run_ops [Assign (of_lit "Host") (of_lit "a")]).
Proof.
  split; [by vm_compute|].
  apply (header_map_refines [Assign (of_lit "Host") (of_lit "a")]). by vm_compute.
Defined.

End HttpMap.
