(* ===== verification/Http.v ===== *)
(** * http: requests and responses

    Models src/bobliew/http/http.h and http.cc: the method and status tables,
    [HttpRequest] with its lazily parsed query, body and cookie parameters,
    [HttpResponse], and what both print on the wire. *)

From S2P Require Import Prelude Util Httpmap.
Import StdString.
From stdpp Require Import pretty.
#[local] Open Scope list_scope.
#[local] Open Scope Z_scope.

Module Http.

Definition CR : ascii := "013".
Definition LF : ascii := "010".
Definition CRLF : list ascii := [CR; LF].

(** ** Methods *)
Inductive HttpMethod :=
| DELETE
| GET
| HEAD
| POST
| PUT
| CONNECT
| OPTIONS
| TRACE
| COPY
| LOCK
| MKCOL
| MOVE
| PROPFIND
| PROPPATCH
| SEARCH
| UNLOCK
| BIND
| REBIND
| UNBIND
| ACL
| REPORT
| MKACTIVITY
| CHECKOUT
| MERGE
| MSEARCH
| NOTIFY
| SUBSCRIBE
| UNSUBSCRIBE
| PATCH
| PURGE
| MKCALENDAR
| LINK
| UNLINK
| SOURCE
| INVALID_METHOD.

#[export] Instance HttpMethod_eq_dec : EqDecision HttpMethod.
Proof. solve_decision. Defined.

(** [HTTP_METHOD_MAP]: number, enumerator, spelling. *)
Definition HTTP_METHOD_MAP : list (Z * HttpMethod * list ascii) :=
  [(0, DELETE, of_lit "DELETE");
   (1, GET, of_lit "GET");
   (2, HEAD, of_lit "HEAD");
   (3, POST, of_lit "POST");
   (4, PUT, of_lit "PUT");
   (5, CONNECT, of_lit "CONNECT");
   (6, OPTIONS, of_lit "OPTIONS");
   (7, TRACE, of_lit "TRACE");
   (8, COPY, of_lit "COPY");
   (9, LOCK, of_lit "LOCK");
   (10, MKCOL, of_lit "MKCOL");
   (11, MOVE, of_lit "MOVE");
   (12, PROPFIND, of_lit "PROPFIND");
   (13, PROPPATCH, of_lit "PROPPATCH");
   (14, SEARCH, of_lit "SEARCH");
   (15, UNLOCK, of_lit "UNLOCK");
   (16, BIND, of_lit "BIND");
   (17, REBIND, of_lit "REBIND");
   (18, UNBIND, of_lit "UNBIND");
   (19, ACL, of_lit "ACL");
   (20, REPORT, of_lit "REPORT");
   (21, MKACTIVITY, of_lit "MKACTIVITY");
   (22, CHECKOUT, of_lit "CHECKOUT");
   (23, MERGE, of_lit "MERGE");
   (24, MSEARCH, of_lit "M-SEARCH");
   (25, NOTIFY, of_lit "NOTIFY");
   (26, SUBSCRIBE, of_lit "SUBSCRIBE");
   (27, UNSUBSCRIBE, of_lit "UNSUBSCRIBE");
   (28, PATCH, of_lit "PATCH");
   (29, PURGE, of_lit "PURGE");
   (30, MKCALENDAR, of_lit "MKCALENDAR");
   (31, LINK, of_lit "LINK");
   (32, UNLINK, of_lit "UNLINK");
   (33, SOURCE, of_lit "SOURCE")].

(** The value of an enumerator. *)
Definition method_value (m : HttpMethod) : Z :=
  match List.find (λ e, bool_decide (e.1.2 = m)) HTTP_METHOD_MAP with
  | Some (n, _, _) => n
  | None => 34
  end.

(** The C string a [std::string] starts with. *)
Fixpoint c_str (s : list ascii) : list ascii :=
  match s with
  | [] => []
  | c :: s' => if Ascii.eqb c zero then [] else c :: c_str s'
  end.

Definition eqb (a b : list ascii) : bool := bool_decide (a = b).

(** [strncmp(p, s, strlen(p)) == 0] for a literal [p] *)
Fixpoint starts_with (p s : list ascii) : bool :=
  match p, s with
  | [], _ => true
  | x :: p', y :: s' => Ascii.eqb x y && starts_with p' s'
  | _, [] => false
  end.

Definition StringToHttpMethod (m : list ascii) : HttpMethod :=
  match List.find (λ e, eqb e.2 (c_str m)) HTTP_METHOD_MAP with
  | Some (_, name, _) => name
  | None => INVALID_METHOD
  end.

(** [strncmp] compares at most the name's length and stops at a difference or at a
    terminator: [m] is the readable text from the pointer on.  A text that ends in
    the middle of a name without a terminator, where the source reads on, is taken as
    no match. *)
Definition CharsToHttpMethod (m : list ascii) : HttpMethod :=
  match List.find (λ e, starts_with e.2 (c_str m)) HTTP_METHOD_MAP with
  | Some (_, name, _) => name
  | None => INVALID_METHOD
  end.

Definition s_method_string : list (list ascii) := HTTP_METHOD_MAP.*2.

Definition HttpMethodToString (m : HttpMethod) : list ascii :=
  let idx := wrap 32 (method_value m) in
  if Z.of_nat (length s_method_string) <=? idx then of_lit "<unknown>"
  else nth (Z.to_nat idx) s_method_string [].

(** ** Status codes

    A status is the [int] an [enum class] holds: the response parser casts
    whatever number it read. *)
Definition HttpStatus := Z.

(** [HTTP_STATUS_MAP]: code, enumerator, message. *)
Definition HTTP_STATUS_MAP : list (HttpStatus * list ascii * list ascii) :=
  [(100, of_lit "CONTINUE", of_lit "Continue");
   (101, of_lit "SWITCHING_PROTOCOLS", of_lit "Switching Protocols");
   (102, of_lit "PROCESSING", of_lit "Processing");
   (200, of_lit "OK", of_lit "OK");
   (201, of_lit "CREATED", of_lit "Created");
   (202, of_lit "ACCEPTED", of_lit "Accepted");
   (203, of_lit "NON_AUTHORITATIVE_INFORMATION", of_lit "Non-Authoritative Information");
   (204, of_lit "NO_CONTENT", of_lit "No Content");
   (205, of_lit "RESET_CONTENT", of_lit "Reset Content");
   (206, of_lit "PARTIAL_CONTENT", of_lit "Partial Content");
   (207, of_lit "MULTI_STATUS", of_lit "Multi-Status");
   (208, of_lit "ALREADY_REPORTED", of_lit "Already Reported");
   (226, of_lit "IM_USED", of_lit "IM Used");
   (300, of_lit "MULTIPLE_CHOICES", of_lit "Multiple Choices");
   (301, of_lit "MOVED_PERMANENTLY", of_lit "Moved Permanently");
   (302, of_lit "FOUND", of_lit "Found");
   (303, of_lit "SEE_OTHER", of_lit "See Other");
   (304, of_lit "NOT_MODIFIED", of_lit "Not Modified");
   (305, of_lit "USE_PROXY", of_lit "Use Proxy");
   (307, of_lit "TEMPORARY_REDIRECT", of_lit "Temporary Redicrect");
   (308, of_lit "PERMANENT_REDIRECT", of_lit "Permanent Redirect");
   (400, of_lit "BAD_REQUEST", of_lit "Bad Request");
   (401, of_lit "UNAUTHORIZED", of_lit "Unauthorized");
   (402, of_lit "PAYMENT_REQUIRED", of_lit "Payment Required");
   (403, of_lit "FORBIDDEN", of_lit "Forbidden");
   (404, of_lit "NOT_FOUND", of_lit "Not Found");
   (405, of_lit "METHOD_NOT_ALLOWED", of_lit "Method Not Allowed");
   (406, of_lit "NOT_ACCEPTABLE", of_lit "Not Acceptable");
   (408, of_lit "PROXY_AUTHENTICATION_REQUIRED", of_lit "Proxy Authentication Required");
   (409, of_lit "CONFLICT", of_lit "Conflict");
   (410, of_lit "GONE", of_lit "Gone");
   (411, of_lit "LENGTH_REQUIRED", of_lit "Length Required");
   (412, of_lit "PRECONDITION_FAILED", of_lit "Precondition Failed");
   (413, of_lit "PAYLOAD_TOO_LARGE", of_lit "Payload Too Large");
   (414, of_lit "URI_TOO_LONG", of_lit "URI Too Long");
   (415, of_lit "UNSUPPORTED_MEDIA_TYPE", of_lit "Unsupported Media Type");
   (416, of_lit "RANGE_NOT_SATISFIABLE", of_lit "Range Not Satisfiable");
   (417, of_lit "EXPECTATION_FAILED", of_lit "Expectation Failed");
   (421, of_lit "MISDIRECTED_REQUEST", of_lit "Misdirected Request");
   (422, of_lit "UNPROCESSABLE_ENTITY", of_lit "Unprocessable Entity");
   (423, of_lit "LOCKED", of_lit "Locked");
   (424, of_lit "FAILED_DEPENDENCY", of_lit "Failed Dependency");
   (426, of_lit "UPGRADE_REQUIRED", of_lit "Upgrade Required");
   (428, of_lit "PRECONDITION_REQUIRED", of_lit "Precondition Required");
   (429, of_lit "TOO_MANY_REQUESTS", of_lit "Too Many Requests");
   (431, of_lit "REQUEST_HEADER_FIELDS_TOO_LARGE", of_lit "Request Header Fields Too Large");
   (451, of_lit "UNAVAILABLE_FOR_LEGAL_RESONS", of_lit "Unavailable For Legal Reason");
   (500, of_lit "INTERNAL_SERVER_ERROR", of_lit "Internal Server Error");
   (501, of_lit "NOT_IMPLEMENTED", of_lit "Not Implemented");
   (502, of_lit "BAD_GATEWAY", of_lit "Bad Gateway");
   (503, of_lit "SERVICE_UNAVAILABLE", of_lit "Service Unavailable");
   (504, of_lit "GATEWAY_TIMEOUT", of_lit "Gateway Timeout");
   (505, of_lit "HTTP_VERSION_NOT_SUPPORTED", of_lit "Http Version Not Supported");
   (506, of_lit "VARIANT_ALSO_NEGOTIATES", of_lit "Variant Also Negotiates");
   (507, of_lit "INSUFFICIENT_STORAGE", of_lit "Insufficient Storage");
   (508, of_lit "LOOP_DETECTED", of_lit "Loop Detected");
   (510, of_lit "NOT_EXTENDED", of_lit "Not Extended");
   (511, of_lit "NETWORK_AUTHENTICATION_REQUIRED", of_lit "Network Authentication required")].

Definition OK : HttpStatus := 200.
Definition FOUND : HttpStatus := 302.
Definition NOT_FOUND : HttpStatus := 404.

Definition HttpStatusToString (s : HttpStatus) : list ascii :=
  match List.find (λ e, e.1.1 =? s) HTTP_STATUS_MAP with
  | Some (_, _, msg) => msg
  | None => of_lit "<unknown>"
  end.

(** Every method's printed name is read back as that method, from a
    [std::string] and from a character buffer alike, and every string that reads
    as a method is its name. *)
Theorem method_roundtrip m s :
  (m ≠ INVALID_METHOD →
     StringToHttpMethod (HttpMethodToString m) = m ∧
     CharsToHttpMethod (HttpMethodToString m) = m) ∧
  (StringToHttpMethod s = m → m ≠ INVALID_METHOD → HttpMethodToString m = c_str s).
Proof.
  split.
  { intros Hm. by destruct m; first [by destruct Hm|by vm_compute]. }
  unfold StringToHttpMethod. destruct (List.find _ _) as [[[n name] str]|] eqn:Hf; [|by intros <-].
  apply find_some in Hf as [Hin He]. simpl in He. apply bool_decide_eq_true in He as <-.
  intros <- _.
  assert (Forall (λ e, HttpMethodToString e.1.2 = e.2) HTTP_METHOD_MAP) as Hall
    by (repeat constructor).
  rewrite Forall_forall in Hall. by apply (Hall (n, name, str)), list_elem_of_In.
Qed.

(** Reading a method name, and a buffer that only starts with one. *)
Lemma method_roundtrip_witness :
  HttpMethodToString MSEARCH = of_lit "M-SEARCH" ∧
  CharsToHttpMethod (of_lit "GETTY") = GET ∧
  StringToHttpMethod (HttpMethodToString MSEARCH) = MSEARCH.
Proof.
  split; [by vm_compute|]. split; [by vm_compute|]. by apply (method_roundtrip MSEARCH []).
Defined.

(** ** Typed access to a map

    [boost::lexical_cast] is a parameter: [None] is [bad_lexical_cast]. *)
Section getAs.
Context {T : Type} (lexical_cast : list ascii → option T).

(** The success flag and what [val] holds afterwards. *)
Definition checkGetAs (m : HttpMap.MapType) (key : list ascii) (def : T) : bool * T :=
  match HttpMap.find key m with
  | None => (false, def)
  | Some s =>
      match lexical_cast s with
      | Some v => (true, v)
      | None => (false, def)
      end
  end.

Definition getAs (m : HttpMap.MapType) (key : list ascii) (def : T) : T :=
  match HttpMap.find key m with
  | None => def
  | Some s => default def (lexical_cast s)
  end.

End getAs.

(** ** HttpRequest *)
Record HttpRequest := {
  m_method : HttpMethod;
  m_version : Z;
  m_close : bool;
  m_websocket : bool;
  m_parserParamFlag : Z;
  m_path : list ascii;
  m_query : list ascii;
  m_fragment : list ascii;
  m_body : list ascii;
  m_headers : HttpMap.MapType;
  m_params : HttpMap.MapType;
  m_cookies : HttpMap.MapType;
}.

Definition new_HttpRequest (version : Z) (close : bool) : HttpRequest :=
  {| m_method := GET; m_version := version; m_close := close; m_websocket := false;
     m_parserParamFlag := 0; m_path := of_lit "/"; m_query := []; m_fragment := [];
     m_body := []; m_headers := []; m_params := []; m_cookies := [] |}.

Definition setMethod (v : HttpMethod) (r : HttpRequest) : HttpRequest :=
  {| m_method := v; m_version := m_version r; m_close := m_close r;
     m_websocket := m_websocket r; m_parserParamFlag := m_parserParamFlag r;
     m_path := m_path r; m_query := m_query r; m_fragment := m_fragment r;
     m_body := m_body r; m_headers := m_headers r; m_params := m_params r;
     m_cookies := m_cookies r |}.

Definition setVersion (v : Z) (r : HttpRequest) : HttpRequest :=
  {| m_method := m_method r; m_version := v; m_close := m_close r;
     m_websocket := m_websocket r; m_parserParamFlag := m_parserParamFlag r;
     m_path := m_path r; m_query := m_query r; m_fragment := m_fragment r;
     m_body := m_body r; m_headers := m_headers r; m_params := m_params r;
     m_cookies := m_cookies r |}.

Definition setClose (v : bool) (r : HttpRequest) : HttpRequest :=
  {| m_method := m_method r; m_version := m_version r; m_close := v;
     m_websocket := m_websocket r; m_parserParamFlag := m_parserParamFlag r;
     m_path := m_path r; m_query := m_query r; m_fragment := m_fragment r;
     m_body := m_body r; m_headers := m_headers r; m_params := m_params r;
     m_cookies := m_cookies r |}.

Definition setWebsocket (v : bool) (r : HttpRequest) : HttpRequest :=
  {| m_method := m_method r; m_version := m_version r; m_close := m_close r;
     m_websocket := v; m_parserParamFlag := m_parserParamFlag r;
     m_path := m_path r; m_query := m_query r; m_fragment := m_fragment r;
     m_body := m_body r; m_headers := m_headers r; m_params := m_params r;
     m_cookies := m_cookies r |}.

(** [m_parserParamFlag |= v] *)
Definition set_flag (v : Z) (r : HttpRequest) : HttpRequest :=
  {| m_method := m_method r; m_version := m_version r; m_close := m_close r;
     m_websocket := m_websocket r;
     m_parserParamFlag := wrap 8 (Z.lor (m_parserParamFlag r) v);
     m_path := m_path r; m_query := m_query r; m_fragment := m_fragment r;
     m_body := m_body r; m_headers := m_headers r; m_params := m_params r;
     m_cookies := m_cookies r |}.

Definition setPath (v : list ascii) (r : HttpRequest) : HttpRequest :=
  {| m_method := m_method r; m_version := m_version r; m_close := m_close r;
     m_websocket := m_websocket r; m_parserParamFlag := m_parserParamFlag r;
     m_path := v; m_query := m_query r; m_fragment := m_fragment r;
     m_body := m_body r; m_headers := m_headers r; m_params := m_params r;
     m_cookies := m_cookies r |}.

Definition setQuery (v : list ascii) (r : HttpRequest) : HttpRequest :=
  {| m_method := m_method r; m_version := m_version r; m_close := m_close r;
     m_websocket := m_websocket r; m_parserParamFlag := m_parserParamFlag r;
     m_path := m_path r; m_query := v; m_fragment := m_fragment r;
     m_body := m_body r; m_headers := m_headers r; m_params := m_params r;
     m_cookies := m_cookies r |}.

Definition setFragment (v : list ascii) (r : HttpRequest) : HttpRequest :=
  {| m_method := m_method r; m_version := m_version r; m_close := m_close r;
     m_websocket := m_websocket r; m_parserParamFlag := m_parserParamFlag r;
     m_path := m_path r; m_query := m_query r; m_fragment := v;
     m_body := m_body r; m_headers := m_headers r; m_params := m_params r;
     m_cookies := m_cookies r |}.

Definition setBody (v : list ascii) (r : HttpRequest) : HttpRequest :=
  {| m_method := m_method r; m_version := m_version r; m_close := m_close r;
     m_websocket := m_websocket r; m_parserParamFlag := m_parserParamFlag r;
     m_path := m_path r; m_query := m_query r; m_fragment := m_fragment r;
     m_body := v; m_headers := m_headers r; m_params := m_params r;
     m_cookies := m_cookies r |}.

Definition setHeaders (v : HttpMap.MapType) (r : HttpRequest) : HttpRequest :=
  {| m_method := m_method r; m_version := m_version r; m_close := m_close r;
     m_websocket := m_websocket r; m_parserParamFlag := m_parserParamFlag r;
     m_path := m_path r; m_query := m_query r; m_fragment := m_fragment r;
     m_body := m_body r; m_headers := v; m_params := m_params r;
     m_cookies := m_cookies r |}.

Definition setParams (v : HttpMap.MapType) (r : HttpRequest) : HttpRequest :=
  {| m_method := m_method r; m_version := m_version r; m_close := m_close r;
     m_websocket := m_websocket r; m_parserParamFlag := m_parserParamFlag r;
     m_path := m_path r; m_query := m_query r; m_fragment := m_fragment r;
     m_body := m_body r; m_headers := m_headers r; m_params := v;
     m_cookies := m_cookies r |}.

Definition setCookies (v : HttpMap.MapType) (r : HttpRequest) : HttpRequest :=
  {| m_method := m_method r; m_version := m_version r; m_close := m_close r;
     m_websocket := m_websocket r; m_parserParamFlag := m_parserParamFlag r;
     m_path := m_path r; m_query := m_query r; m_fragment := m_fragment r;
     m_body := m_body r; m_headers := m_headers r; m_params := m_params r;
     m_cookies := v |}.

Definition getHeader (key def : list ascii) (r : HttpRequest) : list ascii :=
  default def (HttpMap.find key (m_headers r)).

Definition setHeader (key val : list ascii) (r : HttpRequest) : HttpRequest :=
  setHeaders (HttpMap.assign key val (m_headers r)) r.
Definition setParam (key val : list ascii) (r : HttpRequest) : HttpRequest :=
  setParams (HttpMap.assign key val (m_params r)) r.
Definition setCookie (key val : list ascii) (r : HttpRequest) : HttpRequest :=
  setCookies (HttpMap.assign key val (m_cookies r)) r.
Definition delHeader (key : list ascii) (r : HttpRequest) : HttpRequest :=
  setHeaders (HttpMap.erase key (m_headers r)) r.
Definition delParam (key : list ascii) (r : HttpRequest) : HttpRequest :=
  setParams (HttpMap.erase key (m_params r)) r.
Definition delCookie (key : list ascii) (r : HttpRequest) : HttpRequest :=
  setCookies (HttpMap.erase key (m_cookies r)) r.

(** Whether the key is there, and what a non-null [val] receives. *)
Definition hasHeader (key : list ascii) (r : HttpRequest) : bool * option (list ascii) :=
  let it := HttpMap.find key (m_headers r) in (bool_decide (is_Some it), it).

Definition init (r : HttpRequest) : HttpRequest :=
  let conn := getHeader (of_lit "Connection") [] r in
  match conn with
  | [] => r
  | _ =>
      if HttpMap.strcasecmp conn (of_lit "keep-alive") =? 0 then setClose false r
      else setClose true r
  end.

(** [PARSE_PARAM(str, m, flag, trim)]; the fuel bounds the [do] loop, and a
    loop that outlives it counts as not returning. *)
Fixpoint PARSE_PARAM (fuel : nat) (str : list ascii) (flag : ascii)
    (trim : list ascii → option (list ascii)) (pos : Z) : M HttpMap.MapType unit :=
  match fuel with
  | O => ub
  | S fuel' =>
      let last := pos in
      let pos := StdString.find str "=" pos in
      if pos =? npos then ret tt
      else
        let key := pos in
        let pos := StdString.find str flag pos in
        let! k := or_throw out_of_range (substr str last (wrap 64 (key - last))) in
        let! k := or_throw out_of_range (trim k) in
        let! v := or_throw out_of_range (substr str (key + 1) (wrap 64 (pos - key - 1))) in
        let! m := get in
        put (HttpMap.insert k (StringUtil.UrlDecode v true) m) ;!
        if pos =? npos then ret tt
        else PARSE_PARAM fuel' str flag trim (pos + 1)
  end.

(** Enough for every string: an iteration consumes its '=' at least. *)
Definition loops (str : list ascii) : nat := S (length str).

(** A computation on one of the maps of a request. *)
Definition on_params (m : M HttpMap.MapType unit) : M HttpRequest unit :=
  λ r, match m (m_params r) with
       | Ret _ p => Ret tt (setParams p r)
       | Throw e p => Throw e (setParams p r)
       | UB => UB
       end.
Definition on_cookies (m : M HttpMap.MapType unit) : M HttpRequest unit :=
  λ r, match m (m_cookies r) with
       | Ret _ p => Ret tt (setCookies p r)
       | Throw e p => Throw e (setCookies p r)
       | UB => UB
       end.
Definition modify (f : HttpRequest → HttpRequest) : M HttpRequest unit := λ r, Ret tt (f r).

Definition has_flag (v : Z) (r : HttpRequest) : bool :=
  negb (Z.land (m_parserParamFlag r) v =? 0).

Definition initQueryParam : M HttpRequest unit :=
  let! r := get in
  if has_flag 1 r then ret tt
  else
    on_params (PARSE_PARAM (loops (m_query r)) (m_query r) "&" Some 0) ;!
    modify (set_flag 1).

(** [strcasestr(hay, needle) != nullptr] for a literal needle *)
Fixpoint ci_starts (p s : list ascii) : bool :=
  match p, s with
  | [], _ => true
  | x :: p', y :: s' => Ascii.eqb (Util.tolower x) (Util.tolower y) && ci_starts p' s'
  | _, [] => false
  end.
Fixpoint strcasestr (hay needle : list ascii) : bool :=
  ci_starts needle hay || match hay with [] => false | _ :: hay' => strcasestr hay' needle end.

Definition is_form (r : HttpRequest) : bool :=
  strcasestr (c_str (getHeader (of_lit "content-type") [] r))
    (of_lit "application/x-www-form-urlencoded").

Definition initBodyParam : M HttpRequest unit :=
  let! r := get in
  if has_flag 2 r then ret tt
  else if negb (is_form r) then modify (set_flag 2)
  else
    on_params (PARSE_PARAM (loops (m_body r)) (m_body r) "&" Some 0) ;!
    modify (set_flag 2).

Definition initCookies : M HttpRequest unit :=
  let! r := get in
  if has_flag 4 r then ret tt
  else
    let cookie := getHeader (of_lit "cookie") [] r in
    match cookie with
    | [] => modify (set_flag 4)
    | _ =>
        on_cookies (PARSE_PARAM (loops cookie) cookie ";"
          (λ s, StringUtil.Trim s StringUtil.blanks) 0) ;!
        modify (set_flag 4)
    end.

Definition initParam : M HttpRequest unit :=
  initQueryParam ;! initBodyParam ;! initCookies.

Definition getParam (key def : list ascii) : M HttpRequest (list ascii) :=
  initQueryParam ;! initBodyParam ;!
  let! r := get in ret (default def (HttpMap.find key (m_params r))).

Definition getCookie (key def : list ascii) : M HttpRequest (list ascii) :=
  initCookies ;!
  let! r := get in ret (default def (HttpMap.find key (m_cookies r))).

Definition hasParam (key : list ascii) : M HttpRequest (bool * option (list ascii)) :=
  initQueryParam ;! initBodyParam ;!
  let! r := get in
  let it := HttpMap.find key (m_params r) in ret (bool_decide (is_Some it), it).

Definition hasCookie (key : list ascii) : M HttpRequest (bool * option (list ascii)) :=
  initCookies ;!
  let! r := get in
  let it := HttpMap.find key (m_cookies r) in ret (bool_decide (is_Some it), it).

Section typed.
Context {T : Type} (lexical_cast : list ascii → option T).

Definition getHeaderAs (key : list ascii) (def : T) (r : HttpRequest) : T :=
  getAs lexical_cast (m_headers r) key def.

Definition checkGetParamAs (key : list ascii) (def : T) : M HttpRequest (bool * T) :=
  initQueryParam ;! initBodyParam ;!
  let! r := get in ret (checkGetAs lexical_cast (m_params r) key def).

Definition getParamAs (key : list ascii) (def : T) : M HttpRequest T :=
  initQueryParam ;! initBodyParam ;!
  let! r := get in ret (getAs lexical_cast (m_params r) key def).

End typed.

(** The cookie forms for an integer type: [checkGetCookieAs] returns its flag
    converted to the type, [getCookieAs] the value converted to [bool]. *)
Definition checkGetCookieAs (lexical_cast : list ascii → option Z) (key : list ascii) (def : Z)
    : M HttpRequest (Z * Z) :=
  initCookies ;!
  let! r := get in
  let (ok, val) := checkGetAs lexical_cast (m_cookies r) key def in ret (Z.b2z ok, val).

Definition getCookieAs (lexical_cast : list ascii → option Z) (key : list ascii) (def : Z)
    : M HttpRequest bool :=
  initCookies ;!
  let! r := get in ret (negb (getAs lexical_cast (m_cookies r) key def =? 0)).

(** [os << n] for an unsigned number *)
Definition show (n : Z) : list ascii := of_lit (pretty (Z.to_N n)).

Definition print_headers (m_websocket : bool) (headers : HttpMap.MapType) (sep : list ascii) : list ascii :=
  flat_map (λ i : list ascii * list ascii,
    if negb m_websocket && (HttpMap.strcasecmp i.1 (of_lit "connection") =? 0) then []
    else i.1 ++ sep ++ i.2 ++ CRLF) headers.

(** [HttpRequest::dump] *)
Definition dump (r : HttpRequest) : list ascii :=
  HttpMethodToString (m_method r) ++ of_lit " " ++ m_path r ++
  (match m_query r with [] => [] | _ => of_lit "?" end) ++ m_query r ++
  (match m_fragment r with [] => [] | _ => of_lit "#" end) ++ m_fragment r ++
  of_lit " HTTP/" ++ show (Z.shiftr (m_version r) 4) ++ of_lit "." ++
  show (Z.land (m_version r) 15) ++ CRLF ++
  (if negb (m_websocket r) then
     of_lit "connection:" ++ of_lit (if m_close r then "close" else "keep-alive") ++ CRLF
   else []) ++
  print_headers (m_websocket r) (m_headers r) (of_lit ":") ++
  (match m_body r with
   | [] => CRLF
   | b => of_lit "content-length: " ++ show (Z.of_nat (length b)) ++ CRLF ++ CRLF ++ b
   end).

(** ** HttpResponse *)
Record HttpResponse := {
  rs_status : HttpStatus;
  rs_version : Z;
  rs_close : bool;
  rs_websocket : bool;
  rs_body : list ascii;
  rs_reason : list ascii;
  rs_headers : HttpMap.MapType;
  rs_cookies : list (list ascii);
}.

(** The constructor ignores [close]. *)
Definition new_HttpResponse (version : Z) (close : bool) : HttpResponse :=
  {| rs_status := OK; rs_version := version; rs_close := false; rs_websocket := false;
     rs_body := []; rs_reason := []; rs_headers := []; rs_cookies := [] |}.

Definition createResponse (r : HttpRequest) : HttpResponse :=
  new_HttpResponse (m_version r) (m_close r).

Definition rs_setHeaders (v : HttpMap.MapType) (r : HttpResponse) : HttpResponse :=
  {| rs_status := rs_status r; rs_version := rs_version r; rs_close := rs_close r;
     rs_websocket := rs_websocket r; rs_body := rs_body r; rs_reason := rs_reason r;
     rs_headers := v; rs_cookies := rs_cookies r |}.

Definition rs_setStatus (v : HttpStatus) (r : HttpResponse) : HttpResponse :=
  {| rs_status := v; rs_version := rs_version r; rs_close := rs_close r;
     rs_websocket := rs_websocket r; rs_body := rs_body r; rs_reason := rs_reason r;
     rs_headers := rs_headers r; rs_cookies := rs_cookies r |}.

Definition rs_setVersion (v : Z) (r : HttpResponse) : HttpResponse :=
  {| rs_status := rs_status r; rs_version := v; rs_close := rs_close r;
     rs_websocket := rs_websocket r; rs_body := rs_body r; rs_reason := rs_reason r;
     rs_headers := rs_headers r; rs_cookies := rs_cookies r |}.

Definition rs_setBody (v : list ascii) (r : HttpResponse) : HttpResponse :=
  {| rs_status := rs_status r; rs_version := rs_version r; rs_close := rs_close r;
     rs_websocket := rs_websocket r; rs_body := v; rs_reason := rs_reason r;
     rs_headers := rs_headers r; rs_cookies := rs_cookies r |}.

Definition rs_setReason (v : list ascii) (r : HttpResponse) : HttpResponse :=
  {| rs_status := rs_status r; rs_version := rs_version r; rs_close := rs_close r;
     rs_websocket := rs_websocket r; rs_body := rs_body r; rs_reason := v;
     rs_headers := rs_headers r; rs_cookies := rs_cookies r |}.

Definition rs_setClose (v : bool) (r : HttpResponse) : HttpResponse :=
  {| rs_status := rs_status r; rs_version := rs_version r; rs_close := v;
     rs_websocket := rs_websocket r; rs_body := rs_body r; rs_reason := rs_reason r;
     rs_headers := rs_headers r; rs_cookies := rs_cookies r |}.

Definition rs_setWebsocket (v : bool) (r : HttpResponse) : HttpResponse :=
  {| rs_status := rs_status r; rs_version := rs_version r; rs_close := rs_close r;
     rs_websocket := v; rs_body := rs_body r; rs_reason := rs_reason r;
     rs_headers := rs_headers r; rs_cookies := rs_cookies r |}.

Definition rs_getHeader (key def : list ascii) (r : HttpResponse) : list ascii :=
  default def (HttpMap.find key (rs_headers r)).
Definition rs_setHeader (key val : list ascii) (r : HttpResponse) : HttpResponse :=
  rs_setHeaders (HttpMap.assign key val (rs_headers r)) r.
Definition rs_delHeader (key : list ascii) (r : HttpResponse) : HttpResponse :=
  rs_setHeaders (HttpMap.erase key (rs_headers r)) r.

Definition setRedirect (uri : list ascii) (r : HttpResponse) : HttpResponse :=
  rs_setHeader (of_lit "Location") uri (rs_setStatus FOUND r).

(** [Time2Str] ([localtime_r] and [strftime]) is a parameter. *)
Definition rs_setCookie (Time2Str : Z → list ascii → list ascii)
    (key val : list ascii) (expired : Z) (path domain : list ascii) (secure : bool)
    (r : HttpResponse) : HttpResponse :=
  let ss :=
    key ++ of_lit "=" ++ val ++
    (if 0 <? expired then
       of_lit ";expires=" ++ Time2Str expired (of_lit "%a, %d %b %Y %H:%M:%S") ++ of_lit " GMT"
     else []) ++
    (match domain with [] => [] | _ => of_lit ";domain=" ++ path end) ++
    (match path with [] => [] | _ => of_lit ";path=" ++ path end) ++
    (if secure then of_lit ";secure" else []) in
  {| rs_status := rs_status r; rs_version := rs_version r; rs_close := rs_close r;
     rs_websocket := rs_websocket r; rs_body := rs_body r; rs_reason := rs_reason r;
     rs_headers := rs_headers r; rs_cookies := rs_cookies r ++ [ss] |}.

(** [HttpResponse::dump] *)
Definition rs_dump (r : HttpResponse) : list ascii :=
  of_lit "HTTP/" ++ show (Z.shiftr (rs_version r) 4) ++ of_lit "." ++
  show (Z.land (rs_version r) 15) ++ of_lit " " ++
  show (wrap 32 (rs_status r)) ++ of_lit " " ++
  (match rs_reason r with [] => HttpStatusToString (rs_status r) | s => s end) ++ CRLF ++
  print_headers (rs_websocket r) (rs_headers r) (of_lit ": ") ++
  flat_map (λ i, of_lit "Set_Cookie: " ++ i ++ CRLF) (rs_cookies r) ++
  (if negb (rs_websocket r) then
     of_lit "connection: " ++ of_lit (if rs_close r then "close" else "keep-alive") ++ CRLF
   else []) ++
  (match rs_body r with
   | [] => CRLF
   | b => of_lit "content-length: " ++ show (Z.of_nat (length b)) ++ CRLF ++ CRLF ++ b
   end).

(** ** What PARSE_PARAM reads

    A string is a sequence of [key=value] fields separated by [flag]; a value
    ends at the first separator, a key at the first '=', and what follows the
    last field without an '=' is ignored. *)
Inductive fields (flag : ascii) : list ascii → list (list ascii * list ascii) → Prop :=
| fields_none s : "="%char ∉ s → fields flag s []
| fields_last k v :
    "="%char ∉ k → flag ∉ v → fields flag (k ++ "="%char :: v) [(k, v)]
| fields_more k v s kvs :
    "="%char ∉ k → flag ∉ v → fields flag s kvs →
    fields flag (k ++ "="%char :: v ++ flag :: s) ((k, v) :: kvs).

Lemma split_at (c : ascii) s : c ∉ s ∨ ∃ s1 s2, s = s1 ++ c :: s2 ∧ c ∉ s1.
Proof.
  destruct (index_of (Ascii.eqb c) s) as [i|] eqn:Hi.
  - right. apply index_of_Some in Hi as (s1 & c' & s2 & -> & _ & He & Hall).
    apply Ascii.eqb_eq in He as <-. exists s1, s2. split; [done|]. by apply eqb_false_notin.
  - left. by apply eqb_false_notin, index_of_None.
Qed.

Lemma fields_total_le flag n s : (length s ≤ n)%nat → ∃ kvs, fields flag s kvs.
Proof.
  revert s. induction n as [|n IH]; intros s Hn.
  { destruct s; [|simpl in Hn; lia]. exists []. apply fields_none. set_solver. }
  destruct (split_at "=" s) as [Hs|(k & r & -> & Hk)].
  { exists []. by apply fields_none. }
  rewrite length_app in Hn. simpl in Hn.
  destruct (split_at flag r) as [Hr|(v & t & -> & Hv)].
  { exists [(k, r)]. by apply fields_last. }
  rewrite length_app in Hn. simpl in Hn.
  destruct (IH t) as [kvs Ht]; [lia|]. exists ((k, v) :: kvs). by apply fields_more.
Qed.

(** What the fields do to the map. *)
Definition insert_fields (tf : list ascii → list ascii)
    (kvs : list (list ascii * list ascii)) (m : HttpMap.MapType) : HttpMap.MapType :=
  foldl (λ m kv, HttpMap.insert (tf kv.1) (StringUtil.UrlDecode kv.2 true) m) m kvs.

Section PARSE_PARAM.
Context (flag : ascii) (trim : list ascii → option (list ascii)) (tf : list ascii → list ascii).
Context (str : list ascii) (Hfits : fits str) (Hflag : flag ≠ "="%char).
Context (Htrim : ∀ s, fits s → trim s = Some (tf s)).

(** One iteration at the start of a field. *)
Lemma PARSE_PARAM_field fuel pre k v rest m :
  str = pre ++ k ++ "="%char :: v ++ rest →
  "="%char ∉ k → flag ∉ v → (rest = [] ∨ ∃ t, rest = flag :: t) →
  PARSE_PARAM (S fuel) str flag trim (Z.of_nat (length pre)) m =
  let m' := HttpMap.insert (tf k) (StringUtil.UrlDecode v true) m in
  match rest with
  | [] => Ret tt m'
  | _ :: _ => PARSE_PARAM fuel str flag trim
                (Z.of_nat (length (pre ++ k ++ "="%char :: v ++ [flag]))) m'
  end.
Proof.
  intros Hstr Hk Hv Hrest. pose proof (fits_npos _ Hfits) as Hn.
  assert (length str = length pre + (length k + S (length v + length rest)))%nat as Hlen
    by (rewrite Hstr, !length_app; simpl; rewrite length_app; done).
  assert (fits k) as Hfk by (unfold fits in *; lia). unfold fits in Hfits.
  set (key := Z.of_nat (length pre) + Z.of_nat (length k)).
  assert (StdString.find str "=" (Z.of_nat (length pre)) = key) as Hkey
    by (rewrite Hstr; by apply find_app).
  assert (Z.of_nat (length (pre ++ k)) = key) as Hpk by (rewrite length_app; lia).
  assert (str = (pre ++ k) ++ ("="%char :: v) ++ rest) as Hstr2
    by (rewrite Hstr; simpl; by rewrite <- (assoc_L (++))).
  assert (flag ∉ "="%char :: v) as Hfv by (rewrite elem_of_cons; intros [?|?]; done).
  assert (substr str (Z.of_nat (length pre)) (wrap 64 (key - Z.of_nat (length pre))) = Some k) as Hs1.
  { rewrite wrap_small by (unfold in_u; lia). rewrite Hstr. apply substr_app; lia. }
  assert (Z.of_nat (length ((pre ++ k) ++ ["="%char])) = key + 1) as Hpk1
    by (rewrite length_app; simpl; lia).
  assert (str = ((pre ++ k) ++ ["="%char]) ++ v ++ rest) as Hstr3
    by (rewrite Hstr2, <- (assoc_L (++) (pre ++ k)); done).
  cbn [PARSE_PARAM]. rewrite Hkey, (proj2 (Z.eqb_neq key npos)) by lia. rewrite Hs1.
  unfold or_throw at 1. unfold bind, ret. rewrite Htrim by done. cbn [or_throw].
  destruct Hrest as [->|[t ->]].
  - assert (StdString.find str flag key = npos) as ->.
    { rewrite Hstr2, app_nil_r. by apply find_notin. }
    assert (substr str (key + 1) (wrap 64 (npos - key - 1)) = Some v) as ->; [|done].
    rewrite wrap_small by (unfold in_u, npos in *; lia). rewrite Hstr3, app_nil_r.
    apply substr_rest; [done|]. unfold npos. lia.
  - simpl in Hlen. assert (StdString.find str flag key = key + Z.of_nat (S (length v))) as ->.
    { rewrite Hstr2. by apply find_app. }
    assert (substr str (key + 1) (wrap 64 (key + Z.of_nat (S (length v)) - key - 1)) = Some v) as ->.
    { rewrite wrap_small by (unfold in_u; lia). rewrite Hstr3. apply substr_app; [done|lia]. }
    cbn. rewrite (proj2 (Z.eqb_neq _ npos)) by lia.
    f_equal. rewrite !length_app. simpl. rewrite length_app. simpl. lia.
Qed.

Lemma PARSE_PARAM_fields s kvs :
  fields flag s kvs → ∀ fuel pre m,
  str = pre ++ s → (length s < fuel)%nat →
  PARSE_PARAM fuel str flag trim (Z.of_nat (length pre)) m = Ret tt (insert_fields tf kvs m).
Proof.
  induction 1 as [s Hs|k v Hk Hv|k v s kvs Hk Hv Hs IH]; intros fuel pre m Hstr Hfuel;
    (destruct fuel as [|fuel]; [lia|]).
  - assert (StdString.find str "=" (Z.of_nat (length pre)) = npos) as Hf
      by (rewrite Hstr; by apply find_notin).
    cbn [PARSE_PARAM]. by rewrite Hf.
  - rewrite (PARSE_PARAM_field fuel pre k v []); [done| |done..|by left].
    by rewrite app_nil_r.
  - rewrite (PARSE_PARAM_field fuel pre k v (flag :: s)); [|done..|right; eauto].
    cbv zeta. rewrite IH; [done| |].
    + rewrite Hstr. by rewrite <- !(assoc_L (++)), <- !app_comm_cons, <- (assoc_L (++)).
    + rewrite length_app in Hfuel. simpl in Hfuel. rewrite length_app in Hfuel. simpl in Hfuel. lia.
Qed.

End PARSE_PARAM.

Lemma fields_total flag s : ∃ kvs, fields flag s kvs.
Proof. by apply (fields_total_le flag (length s)). Qed.

Definition trim_key (s : list ascii) : list ascii :=
  default [] (StringUtil.Trim s StringUtil.blanks).

Lemma initQueryParam_run r q :
  has_flag 1 r = false → fits (m_query r) → fields "&" (m_query r) q →
  initQueryParam r = Ret tt (set_flag 1 (setParams (insert_fields id q (m_params r)) r)).
Proof.
  intros Hf Hfit Hq. unfold initQueryParam, bind, get, on_params. rewrite Hf.
  rewrite (PARSE_PARAM_fields "&" Some id (m_query r) Hfit) with (s := m_query r)
    (pre := []) (kvs := q); [done|done|done|done|done|unfold loops; lia].
Qed.

Lemma initBodyParam_run r b :
  has_flag 2 r = false → fits (m_body r) → fields "&" (m_body r) b →
  initBodyParam r =
  Ret tt (set_flag 2 (setParams (insert_fields id (if is_form r then b else []) (m_params r)) r)).
Proof.
  intros Hf Hfit Hq. unfold initBodyParam, bind, get, on_params. rewrite Hf.
  destruct (is_form r); cbn [negb]; [|by destruct r].
  rewrite (PARSE_PARAM_fields "&" Some id (m_body r) Hfit) with (s := m_body r)
    (pre := []) (kvs := b); [done|done|done|done|done|unfold loops; lia].
Qed.

Lemma initCookies_run r c :
  has_flag 4 r = false → fits (getHeader (of_lit "cookie") [] r) →
  fields ";" (getHeader (of_lit "cookie") [] r) c →
  initCookies r = Ret tt (set_flag 4 (setCookies (insert_fields trim_key c (m_cookies r)) r)).
Proof.
  intros Hf Hfit Hc. unfold initCookies, bind, get, on_cookies. rewrite Hf.
  destruct (getHeader (of_lit "cookie") [] r) as [|x s] eqn:Hg.
  { inversion Hc as [| |]; subst; simpl.
    - by destruct r.
    - by destruct k.
    - by destruct k. }
  rewrite (PARSE_PARAM_fields ";" (λ s, StringUtil.Trim s StringUtil.blanks) trim_key (x :: s) Hfit)
    with (s := x :: s) (pre := []) (kvs := c); [done|done| |done|done|unfold loops; lia].
  intros s' Hs'. destruct (StringUtil.Trim_spec s' StringUtil.blanks Hs') as (t & Ht & _).
  unfold trim_key. by rewrite Ht.
Qed.

Lemma initParam_again r : m_parserParamFlag r = 7 → initParam r = Ret tt r.
Proof.
  intros H7. assert (has_flag 1 r = true ∧ has_flag 2 r = true ∧ has_flag 4 r = true) as (H1 & H2 & H4)
    by (unfold has_flag; by rewrite H7).
  assert (initQueryParam r = Ret tt r) as Hq
    by (unfold initQueryParam, bind, get; by rewrite H1).
  assert (initBodyParam r = Ret tt r) as Hb
    by (unfold initBodyParam, bind, get; by rewrite H2).
  unfold initParam. do 2 (erewrite bind_Ret by done).
  unfold initCookies, bind, get. by rewrite H4.
Qed.

(** Parsing the parameters of a fresh request returns: the fields of the
    query string and, for a form, of the body enter the parameter map, those of
    the cookie header, keys trimmed, the cookie map, earlier fields and entries
    already present winning, values URL-decoded; a second call changes nothing. *)
Theorem initParam_correct r :
  m_parserParamFlag r = 0 →
  fits (m_query r) → fits (m_body r) → fits (getHeader (of_lit "cookie") [] r) →
  ∃ q b c r',
    fields "&" (m_query r) q ∧ fields "&" (m_body r) b ∧
    fields ";" (getHeader (of_lit "cookie") [] r) c ∧
    initParam r = Ret tt r' ∧ initParam r' = Ret tt r' ∧
    m_params r' = insert_fields id (q ++ if is_form r then b else []) (m_params r) ∧
    m_cookies r' = insert_fields trim_key c (m_cookies r) ∧
    m_headers r' = m_headers r ∧ m_query r' = m_query r ∧ m_body r' = m_body r.
Proof.
  intros H0 Hq Hb Hc.
  destruct (fields_total "&" (m_query r)) as [q Fq].
  destruct (fields_total "&" (m_body r)) as [b Fb].
  destruct (fields_total ";" (getHeader (of_lit "cookie") [] r)) as [c Fc].
  eexists q, b, c, _. do 3 (split; [done|]).
  assert (∀ v, has_flag v r = false) as Hflag by (intros v; unfold has_flag; by rewrite H0).
  split.
  { unfold initParam. erewrite bind_Ret by by apply initQueryParam_run.
    erewrite bind_Ret by
      (apply initBodyParam_run; [unfold has_flag; simpl; by rewrite H0|done|done]).
    apply initCookies_run; [unfold has_flag; simpl; by rewrite H0|done|done]. }
  split; [apply initParam_again; simpl; by rewrite H0|].
  unfold insert_fields. rewrite foldl_app. split_and!; reflexivity.
Qed.

Lemma fresh_fits r :
  (length (m_query r) + length (m_body r) +
   length (getHeader (of_lit "cookie") [] r) < 1000)%nat →
  fits (m_query r) ∧ fits (m_body r) ∧ fits (getHeader (of_lit "cookie") [] r).
Proof. unfold fits. lia. Qed.

Definition sample_request : HttpRequest :=
  setHeader (of_lit "Cookie") (of_lit "sid=7; user=bob")
    (setQuery (of_lit "a=1&b=x%20y&a=2&tail") (new_HttpRequest 17 true)).

Lemma initParam_correct_witness :
  match initParam sample_request with
  | Ret _ r' =>
      m_params r' = [(of_lit "a", of_lit "1"); (of_lit "b", of_lit "x y")] ∧
      m_cookies r' = [(of_lit "sid", of_lit "7"); (of_lit "user", of_lit "bob")]
  | _ => False
  end ∧
  ∃ q b c r',
    fields "&" (m_query sample_request) q ∧ fields "&" (m_body sample_request) b ∧
    fields ";" (getHeader (of_lit "cookie") [] sample_request) c ∧
    initParam sample_request = Ret tt r' ∧ initParam r' = Ret tt r' ∧
    m_params r' =
      insert_fields id (q ++ if is_form sample_request then b else []) (m_params sample_request) ∧
    m_cookies r' = insert_fields trim_key c (m_cookies sample_request) ∧
    m_headers r' = m_headers sample_request ∧ m_query r' = m_query sample_request ∧
    m_body r' = m_body sample_request.
Proof.
  destruct (fresh_fits sample_request) as (H1 & H2 & H3); [by vm_compute; lia|].
  split; [by vm_compute|]. apply (initParam_correct sample_request eq_refl H1 H2 H3).
Defined.

(** ** Query strings *)

(** A client's query string: fields joined by '&', values URL-encoded. *)
Definition render_query (kvs : list (list ascii * list ascii)) : list ascii :=
  Util.Join ((λ kv, kv.1 ++ "="%char :: StringUtil.UrlEncode kv.2 true) <$> kvs) (of_lit "&").

(** The value of the first field whose key is [k] up to case. *)
Fixpoint first_value (k : list ascii) (kvs : list (list ascii * list ascii)) : option (list ascii) :=
  match kvs with
  | [] => None
  | (k', v) :: kvs' => if decide (HttpMap.ci_eq k' k) then Some v else first_value k kvs'
  end.

Lemma encode_no_amp v : "&"%char ∉ StringUtil.UrlEncode v true.
Proof. intros [H|[H|H]]%StringUtil.UrlEncode_chars; by vm_compute in H. Qed.

Lemma render_fields kvs :
  Forall (λ kv, "="%char ∉ kv.1) kvs →
  fields "&" (render_query kvs) ((λ kv, (kv.1, StringUtil.UrlEncode kv.2 true)) <$> kvs).
Proof.
  unfold render_query.
  induction 1 as [|[k v] kvs Hk Hkvs IH]; [apply fields_none; set_solver|].
  destruct kvs as [|[k' v'] kvs]; cbn [fmap list_fmap Util.Join].
  - apply fields_last; [done|apply encode_no_amp].
  - rewrite <- (assoc_L (++)), <- app_comm_cons.
    apply fields_more; [done|apply encode_no_amp|exact IH].
Qed.

Lemma find_insert_fields tf kvs m k :
  HttpMap.sorted m →
  HttpMap.find k (insert_fields tf kvs m) =
  match HttpMap.find k m with
  | Some v => Some v
  | None => first_value k ((λ kv, (tf kv.1, StringUtil.UrlDecode kv.2 true)) <$> kvs)
  end.
Proof.
  unfold insert_fields. revert m.
  induction kvs as [|[k' v] kvs IH]; intros m Hm; cbn [foldl fmap list_fmap first_value fst snd].
  { by destruct (HttpMap.find k m). }
  rewrite IH by by apply HttpMap.insert_sorted. rewrite HttpMap.find_insert by done.
  case_decide as Hk; [|done]. rewrite Hk. by destruct (HttpMap.find k m).
Qed.

(** A request whose query string a client rendered from a list of
    parameters (keys without '=', any values) answers [getParam] with the value
    of the first parameter of that name, up to case, and with the default when
    there is none; it never throws. *)
Theorem query_roundtrip r kvs k def :
  m_parserParamFlag r = 0 → m_params r = [] → is_form r = false →
  m_query r = render_query kvs → fits (m_query r) →
  Forall (λ kv, "="%char ∉ kv.1) kvs →
  ∃ r', getParam k def r = Ret (default def (first_value k kvs)) r'.
Proof.
  intros H0 Hp Hform Hq Hfit Hkeys. pose proof (render_fields kvs Hkeys) as Hf. rewrite <- Hq in Hf.
  assert (∀ v, has_flag v r = false) as Hflag by (intros v; unfold has_flag; by rewrite H0).
  unfold getParam. erewrite bind_Ret by by apply initQueryParam_run.
  set (r1 := set_flag 1 _).
  assert (initBodyParam r1 = Ret tt (set_flag 2 r1)) as Hb.
  { unfold initBodyParam, bind, get. assert (has_flag 2 r1 = false) as ->
      by (unfold has_flag; simpl; by rewrite H0).
    change (is_form r1) with (is_form r). by rewrite Hform. }
  erewrite bind_Ret by done. eexists. unfold bind, get, ret. f_equal. f_equal. simpl.
  rewrite Hp, find_insert_fields by constructor. simpl. rewrite <- list_fmap_compose.
  f_equal. rewrite <- (list_fmap_id kvs) at 2. apply list_fmap_ext. intros i [k' v] _. simpl.
  by rewrite StringUtil.UrlDecode_ref, StringUtil.UrlEncode_ref, StringUtil.decode_encode.
Qed.

Lemma query_roundtrip_witness :
  render_query [(of_lit "q", of_lit "a&b=c d"); (of_lit "Q", of_lit "z")]
  = of_lit "q=a%26b=c+d&Q=z" ∧
  ∃ r', getParam (of_lit "Q") []
    (setQuery (of_lit "q=a%26b=c+d&Q=z") (new_HttpRequest 17 true))
    = Ret (default [] (first_value (of_lit "Q")
        [(of_lit "q", of_lit "a&b=c d"); (of_lit "Q", of_lit "z")])) r'.
Proof.
  split; [by vm_compute|]. apply query_roundtrip; [by vm_compute..| |].
  - by vm_compute.
  - apply (bool_decide_unpack _). by vm_compute.
Defined.

(** ** The wire format

    A message is its lines, each ended by CRLF, an empty line and the body. *)
Definition message (lines : list (list ascii)) (body : list ascii) : list ascii :=
  flat_map (λ l, l ++ CRLF) lines ++ CRLF ++ body.

(** The reader of RFC 7230: cut at the first CRLF, stop at the empty line. *)
Fixpoint cut_crlf (s : list ascii) : option (list ascii * list ascii) :=
  match s with
  | [] => None
  | c :: s' =>
      match s' with
      | d :: s'' =>
          if Ascii.eqb c CR && Ascii.eqb d LF then Some ([], s'')
          else (λ p, (c :: p.1, p.2)) <$> cut_crlf s'
      | [] => None
      end
  end.

Fixpoint read_lines (fuel : nat) (s : list ascii) : option (list (list ascii) * list ascii) :=
  match fuel with
  | O => None
  | S fuel' =>
      match cut_crlf s with
      | None => None
      | Some ([], body) => Some ([], body)
      | Some (l, rest) => (λ p, (l :: p.1, p.2)) <$> read_lines fuel' rest
      end
  end.

Definition read_message (s : list ascii) : option (list (list ascii) * list ascii) :=
  read_lines (S (length s)) s.

(** A header line: the name up to the first ':', then optional blanks. *)
Fixpoint drop_blanks (s : list ascii) : list ascii :=
  match s with
  | c :: s' => if Ascii.eqb c " " then drop_blanks s' else s
  | [] => []
  end.

Fixpoint read_header (l : list ascii) : option (list ascii * list ascii) :=
  match l with
  | [] => None
  | c :: l' =>
      if Ascii.eqb c ":" then Some ([], drop_blanks l')
      else (λ p, (c :: p.1, p.2)) <$> read_header l'
  end.

Lemma cut_crlf_app l rest : CR ∉ l → cut_crlf (l ++ CRLF ++ rest) = Some (l, rest).
Proof.
  induction l as [|c l IH]; intros Hl; [done|].
  apply not_elem_of_cons in Hl as [Hc Hl]. specialize (IH Hl).
  change ((c :: l) ++ CRLF ++ rest) with (c :: (l ++ CRLF ++ rest)).
  assert (Ascii.eqb c CR = false) as Hn by (apply Ascii.eqb_neq; congruence).
  destruct (l ++ CRLF ++ rest) as [|d s] eqn:E; [by destruct l|].
  cbn [cut_crlf]. rewrite Hn. cbn [andb]. cbn [cut_crlf] in IH. by rewrite IH.
Qed.

Lemma read_message_app lines body :
  Forall (λ l, (CR ∉ l) ∧ l ≠ []) lines →
  read_message (message lines body) = Some (lines, body).
Proof.
  intros Hl. unfold read_message. assert (length lines < S (length (message lines body)))%nat as Hf.
  { unfold message. rewrite length_app. clear Hl. induction lines as [|l lines IH]; [simpl; lia|].
    cbn [flat_map]. rewrite !length_app in *. simpl in *. lia. }
  revert Hf. generalize (S (length (message lines body))) as fuel.
  induction Hl as [|l lines [Hcr Hne] _ IH]; intros [|fuel] Hf; try (simpl in Hf; lia).
  - done.
  - cbn [read_lines]. unfold message. cbn [flat_map]. rewrite <- !(assoc_L (++)).
    rewrite cut_crlf_app by done. destruct l as [|x l]; [done|].
    fold (message lines body). rewrite IH by (simpl in Hf; lia). done.
Qed.

Lemma read_header_app k v sep :
  ":"%char ∉ k → head v ≠ Some " "%char →
  sep = of_lit ":" ∨ sep = of_lit ": " →
  read_header (k ++ sep ++ v) = Some (k, v).
Proof.
  intros Hk Hv Hsep. assert (drop_blanks v = v) as Hd.
  { destruct v as [|c v]; [done|]. simpl. destruct (Ascii.eqb_spec c " "); [|done]. by subst. }
  induction k as [|c k IH]; simpl.
  - destruct Hsep as [-> | ->]; simpl; by rewrite Hd.
  - apply not_elem_of_cons in Hk as [Hc Hk]. rewrite (IH Hk).
    destruct (Ascii.eqb_spec c ":"); [|done]. by subst.
Qed.

(** *** Numbers print as digits *)
Lemma pretty_digits n s x :
  x ∈ of_lit (pretty_N_go n s) → x ∈ of_lit "0123456789" ∨ x ∈ of_lit s.
Proof.
  revert s. induction n as [n IH] using (well_founded_ind N.lt_wf_0); intros s.
  destruct (decide (0 < n)%N) as [Hn|Hn].
  - rewrite pretty_N_go_step by done. intros [Hx|Hx]%IH; [by left| |by apply N.div_lt].
    simpl in Hx. apply elem_of_cons in Hx as [->|Hx]; [|by right]. left.
    apply (bool_decide_unpack _). unfold pretty_N_char. by repeat case_match.
  - replace n with 0%N by lia. rewrite pretty_N_go_0. by right.
Qed.

Lemma show_digits n x : x ∈ show n → x ∈ of_lit "0123456789".
Proof.
  unfold show, pretty, pretty_N. case_decide.
  - intros Hx. simpl in Hx. apply list_elem_of_singleton in Hx as ->.
    apply (bool_decide_unpack _). by vm_compute.
  - intros [?|Hx]%pretty_digits; [done|]. simpl in Hx. by apply not_elem_of_nil in Hx.
Qed.

Lemma show_not n x : x ∉ of_lit "0123456789" → x ∉ show n.
Proof. intros Hx Hin. by apply Hx, (show_digits n). Qed.

(** *** The lines of a response *)
Definition kept (websocket : bool) (headers : list (list ascii * list ascii))
    : list (list ascii * list ascii) :=
  filter (λ i, ¬ (websocket = false ∧ HttpMap.strcasecmp i.1 (of_lit "connection") = 0)) headers.

Definition rs_fields (r : HttpResponse) : list (list ascii * list ascii) :=
  kept (rs_websocket r) (rs_headers r) ++
  ((λ c, (of_lit "Set_Cookie", c)) <$> rs_cookies r) ++
  (if rs_websocket r then []
   else [(of_lit "connection", of_lit (if rs_close r then "close" else "keep-alive"))]) ++
  (match rs_body r with
   | [] => []
   | b => [(of_lit "content-length", show (Z.of_nat (length b)))]
   end).

Definition status_line (r : HttpResponse) : list ascii :=
  of_lit "HTTP/" ++ show (Z.shiftr (rs_version r) 4) ++ of_lit "." ++
  show (Z.land (rs_version r) 15) ++ of_lit " " ++ show (wrap 32 (rs_status r)) ++ of_lit " " ++
  (match rs_reason r with [] => HttpStatusToString (rs_status r) | s => s end).

Definition header_line (sep : list ascii) (i : list ascii * list ascii) : list ascii :=
  i.1 ++ sep ++ i.2.

Lemma print_headers_lines ws hs sep :
  print_headers ws hs sep = flat_map (λ l, l ++ CRLF) (header_line sep <$> kept ws hs).
Proof.
  unfold print_headers, kept. induction hs as [|[k v] hs IH]; [done|]. cbn [flat_map fst snd].
  rewrite IH.
  destruct (decide (ws = false ∧ HttpMap.strcasecmp k (of_lit "connection") = 0)) as [[-> E]|Hd].
  - rewrite filter_cons_False by (cbn [fst]; tauto). by rewrite E.
  - rewrite filter_cons_True by done. rewrite (proj2 (andb_false_iff _ _)).
    + cbn [fmap list_fmap flat_map]. unfold header_line at 2. cbn [fst snd].
      by rewrite <- !(assoc_L (++)).
    + destruct ws; [by left|]. right. apply Z.eqb_neq. intros E. by apply Hd.
Qed.

Lemma rs_dump_message r :
  rs_dump r = message (status_line r :: (header_line (of_lit ": ") <$> rs_fields r)) (rs_body r).
Proof.
  unfold rs_dump, message, rs_fields, status_line. rewrite print_headers_lines.
  rewrite !fmap_app. cbn [flat_map]. rewrite !flat_map_app, <- !(assoc_L (++)).
  do 10 apply (f_equal (app _)). apply (f_equal2 app).
  { induction (rs_cookies r) as [|c cs IH]; [done|]. cbn [flat_map fmap list_fmap].
    rewrite IH. unfold header_line at 1. cbn [fst snd]. by rewrite <- !(assoc_L (++)). }
  apply (f_equal2 app); [by destruct (rs_websocket r), (rs_close r)|].
  destruct (rs_body r) as [|x b]; [done|]. cbn [fmap list_fmap flat_map].
  unfold header_line. cbn [fst snd]. by rewrite app_nil_r, <- !(assoc_L (++)).
Qed.

(** A field that survives the wire: no CR, no ':' in the name, no leading blank
    in the value. *)
Definition clean (i : list ascii * list ascii) : Prop :=
  (CR ∉ i.1) ∧ (":"%char ∉ i.1) ∧ (CR ∉ i.2) ∧ head i.2 ≠ Some " "%char.

Lemma status_text_no_cr s : CR ∉ HttpStatusToString s.
Proof.
  unfold HttpStatusToString. destruct (List.find _ _) as [[[c n] msg]|] eqn:Hf;
    [|apply (bool_decide_unpack _); by vm_compute].
  apply find_some in Hf as [Hin _].
  assert (Forall (λ e, CR ∉ e.2) HTTP_STATUS_MAP) as Hall
    by (apply (bool_decide_unpack _); by vm_compute).
  rewrite Forall_forall in Hall. by apply (Hall (c, n, msg)), list_elem_of_In.
Qed.

Lemma no_cr_app a b : CR ∉ a → CR ∉ b → CR ∉ a ++ b.
Proof. rewrite elem_of_app. tauto. Qed.

(** No CR in a literal or a printed number. *)
Ltac no_cr_lit :=
  match goal with
  | |- CR ∉ show _ => apply show_not; no_cr_lit
  | |- _ ∉ of_lit _ => apply (bool_decide_unpack _); by vm_compute
  end.

Lemma status_line_clean r : CR ∉ rs_reason r → (CR ∉ status_line r) ∧ status_line r ≠ [].
Proof.
  intros Hr. split; [|done]. unfold status_line.
  repeat apply no_cr_app; try no_cr_lit.
  destruct (rs_reason r); [apply status_text_no_cr|done].
Qed.

Lemma rs_fields_clean r :
  Forall clean (rs_headers r) → Forall (λ c, clean (of_lit "Set_Cookie", c)) (rs_cookies r) →
  Forall clean (rs_fields r).
Proof.
  intros Hh Hc. unfold rs_fields. repeat apply Forall_app_2.
  - rewrite Forall_forall in Hh |- *. unfold kept. intros i [_ Hi]%list_elem_of_filter. by apply Hh.
  - by apply Forall_fmap.
  - destruct (rs_websocket r); [done|]. repeat constructor;
      destruct (rs_close r); apply (bool_decide_unpack _); by vm_compute.
  - destruct (rs_body r) as [|x b]; [done|]. constructor; [|done].
    split_and!; cbn [fst snd]; [no_cr_lit..|].
    intros Hd. assert (" "%char ∈ show (Z.of_nat (length (x :: b)))) as Hin.
    { destruct (show _) as [|y l]; [done|]. injection Hd as ->. by left. }
    revert Hin. apply show_not. no_cr_lit.
Qed.

Lemma header_line_read i :
  clean i → (CR ∉ header_line (of_lit ": ") i) ∧ header_line (of_lit ": ") i ≠ [] ∧
    read_header (header_line (of_lit ": ") i) = Some i.
Proof.
  intros (H1 & H2 & H3 & H4). destruct i as [k v]. unfold header_line. cbn [fst snd] in *.
  split_and!; [|by destruct k|].
  - repeat apply no_cr_app; [done|no_cr_lit|done].
  - apply read_header_app; auto.
Qed.

(** Whatever response the server prints, a reader that cuts it at CRLF and
    stops at the empty line gets back the status line, exactly the header fields
    other than "connection", the cookies, the connection field and, for a body,
    its length, in that order, and then the body, whatever bytes it holds;
    provided no CR or misplaced separator was put into the fields. *)
Theorem response_roundtrip r :
  CR ∉ rs_reason r → Forall clean (rs_headers r) →
  Forall (λ c, clean (of_lit "Set_Cookie", c)) (rs_cookies r) →
  ∃ lines, read_message (rs_dump r) = Some (status_line r :: lines, rs_body r) ∧
    read_header <$> lines = Some <$> rs_fields r.
Proof.
  intros Hr Hh Hc. exists (header_line (of_lit ": ") <$> rs_fields r).
  pose proof (rs_fields_clean r Hh Hc) as Hf. rewrite rs_dump_message. split.
  - apply read_message_app. constructor; [by apply status_line_clean|].
    apply Forall_fmap. eapply Forall_impl; [done|]. intros i Hi. cbn.
    by destruct (header_line_read i Hi) as (? & ? & _).
  - rewrite <- list_fmap_compose. apply list_fmap_ext. intros n i Hi.
    apply list_elem_of_lookup_2 in Hi. rewrite Forall_forall in Hf.
    by destruct (header_line_read i (Hf i Hi)) as (_ & _ & ?).
Qed.

Definition sample_response : HttpResponse :=
  rs_setBody (of_lit "hello") (rs_setHeader (of_lit "Server") (of_lit "bobliew/1.0.0")
    (new_HttpResponse 17 true)).

Lemma response_roundtrip_witness :
  status_line sample_response = of_lit "HTTP/1.1 200 OK" ∧
  rs_fields sample_response = [(of_lit "Server", of_lit "bobliew/1.0.0");
    (of_lit "connection", of_lit "keep-alive"); (of_lit "content-length", of_lit "5")] ∧
  ∃ lines, read_message (rs_dump sample_response)
      = Some (status_line sample_response :: lines, rs_body sample_response) ∧
    read_header <$> lines = Some <$> rs_fields sample_response.
Proof.
  split; [by vm_compute|]. split; [by vm_compute|]. apply response_roundtrip.
  - apply (bool_decide_unpack _). by vm_compute.
  - repeat constructor; apply (bool_decide_unpack _); by vm_compute.
  - by vm_compute.
Defined.

(** ** Divergences *)

(** The response a request creates never carries the request's close flag:
    it announces keep-alive whatever the request asked for, until [setClose] is
    called on it. *)
Theorem createResponse_ignores_close r :
  createResponse (setClose true r) = createResponse (setClose false r) ∧
  (of_lit "connection", of_lit "keep-alive") ∈ rs_fields (createResponse r).
Proof. split; [done|]. apply elem_of_cons. by left. Qed.

(** [getCookieAs] cannot return the cookie's value, only whether it is not 0. *)
Lemma getCookieAs_two :
  getCookieAs (λ _, Some 2) (of_lit "n") 0
    (set_flag 4 (setCookie (of_lit "n") (of_lit "2") (new_HttpRequest 17 true)))
  = Ret true (set_flag 4 (setCookie (of_lit "n") (of_lit "2") (new_HttpRequest 17 true))).
Proof. by vm_compute. Qed.

(** [setCookie] writes the path where the domain belongs. *)
Lemma setCookie_domain Time2Str r :
  rs_cookies (rs_setCookie Time2Str (of_lit "k") (of_lit "v") 0 (of_lit "/p")
    (of_lit "example.org") false r)
  = rs_cookies r ++ [of_lit "k=v;domain=/p;path=/p"].
Proof. done. Qed.

End Http.
