(* ===== verification/Servlet.v ===== *)
(** * servlet: dispatching requests to handlers

    Models src/bobliew/http/servlet.{h,cc}.  A servlet is what it does to a request and a response (the
    session it also receives is not used by the ones modelled here); a null
    [Servlet::ptr] is [None].  [fnmatch] belongs to the C library and is a
    parameter: whether a pattern matches a path. *)

From S2P Require Import Prelude Util Httpmap Http.
Import StdString.
#[local] Open Scope list_scope.
#[local] Open Scope Z_scope.

Module Servlet.

#[global] Instance ascii_countable : Countable ascii.
Proof. apply (inj_countable' N_of_ascii ascii_of_N). intros c. apply ascii_N_embedding. Defined.

(** What [handle] returns, and the request and response it leaves. *)
Definition handler : Type :=
  Http.HttpRequest → Http.HttpResponse → Z * Http.HttpRequest * Http.HttpResponse.

Inductive Servlet :=
| FunctionServlet (cb : handler)
| NotFoundServlet (content : list ascii)
| OtherServlet (name : list ascii) (handle : handler).

(** [NotFoundServlet::NotFoundServlet] *)
Definition new_NotFoundServlet (name : list ascii) : Servlet :=
  NotFoundServlet (of_lit "<html><head><title>404 Not Found" ++
    of_lit "</title></head><body><center><h1>404 Not Found</h1></center>" ++
    of_lit "<hr><center>" ++ name ++ of_lit "</center></body></html>").

Definition handle_NotFound (content : list ascii) : handler := λ request response,
  (0, request,
   Http.rs_setBody content
     (Http.rs_setHeader (of_lit "Content-Type") (of_lit "text/html")
       (Http.rs_setHeader (of_lit "Server") (of_lit "bobliew/1.0.0")
         (Http.rs_setStatus Http.NOT_FOUND response)))).

(** The virtual call [slt->handle(request, response, session)] *)
Definition handle_servlet (slt : Servlet) : handler :=
  match slt with
  | FunctionServlet cb => cb
  | NotFoundServlet content => handle_NotFound content
  | OtherServlet _ h => h
  end.

(** [IServletCreator] and its two implementations.  A null [IServletCreator::ptr],
    which [addServletCreator] would take and the lookups would dereference, is not
    represented. *)
Inductive creator :=
| HoldServletCreator (m_servlet : option Servlet)
| ServletCreator (make : Servlet).

Definition creator_get (c : creator) : option Servlet :=
  match c with
  | HoldServletCreator s => s
  | ServletCreator make => Some make
  end.

Record ServletDispatch := Dispatch {
  m_datas : gmap (list ascii) creator;
  m_globs : list (list ascii * creator);
  m_default : option Servlet
}.

Definition new_dispatch : ServletDispatch :=
  Dispatch ∅ [] (Some (new_NotFoundServlet (of_lit "bobliew/1.0"))).

Definition addServletCreator (uri : list ascii) (c : creator) (d : ServletDispatch)
    : ServletDispatch :=
  Dispatch (<[uri := c]> (m_datas d)) (m_globs d) (m_default d).
Definition addServlet (uri : list ascii) (slt : option Servlet) (d : ServletDispatch)
    : ServletDispatch :=
  addServletCreator uri (HoldServletCreator slt) d.
Definition addServlet_cb (uri : list ascii) (cb : handler) (d : ServletDispatch)
    : ServletDispatch :=
  addServlet uri (Some (FunctionServlet cb)) d.

(** The loop that erases the first entry of a pattern *)
Fixpoint erase_glob (uri : list ascii) (l : list (list ascii * creator))
    : list (list ascii * creator) :=
  match l with
  | [] => []
  | it :: l' => if bool_decide (it.1 = uri) then l' else it :: erase_glob uri l'
  end.

Definition addGlobServletCreator (uri : list ascii) (c : creator) (d : ServletDispatch)
    : ServletDispatch :=
  Dispatch (m_datas d) (erase_glob uri (m_globs d) ++ [(uri, c)]) (m_default d).
Definition addGlobServlet (uri : list ascii) (slt : option Servlet) (d : ServletDispatch)
    : ServletDispatch :=
  addGlobServletCreator uri (HoldServletCreator slt) d.
Definition addGlobServlet_cb (uri : list ascii) (cb : handler) (d : ServletDispatch)
    : ServletDispatch :=
  addGlobServlet uri (Some (FunctionServlet cb)) d.

Definition delServlet (uri : list ascii) (d : ServletDispatch) : ServletDispatch :=
  Dispatch (delete uri (m_datas d)) (m_globs d) (m_default d).
Definition delGlobServlet (uri : list ascii) (d : ServletDispatch) : ServletDispatch :=
  Dispatch (m_datas d) (erase_glob uri (m_globs d)) (m_default d).
Definition setDefault (v : option Servlet) (d : ServletDispatch) : ServletDispatch :=
  Dispatch (m_datas d) (m_globs d) v.

Definition getServlet (uri : list ascii) (d : ServletDispatch) : option Servlet :=
  match m_datas d !! uri with None => None | Some c => creator_get c end.

Fixpoint find_glob (p : list ascii → bool) (l : list (list ascii * creator)) : option creator :=
  match l with
  | [] => None
  | (pat, c) :: l' => if p pat then Some c else find_glob p l'
  end.

Definition getGlobServlet (uri : list ascii) (d : ServletDispatch) : option Servlet :=
  match find_glob (λ p, bool_decide (p = uri)) (m_globs d) with
  | None => None
  | Some c => creator_get c
  end.

Section dispatch.
(** [fnmatch(pattern, path, 0) == 0] *)
Context (fnmatch : list ascii → list ascii → bool).

Definition getMatchedServlet (uri : list ascii) (d : ServletDispatch) : option Servlet :=
  match m_datas d !! uri with
  | Some c => creator_get c
  | None =>
      match find_glob (λ p, fnmatch (Http.c_str p) (Http.c_str uri)) (m_globs d) with
      | Some c => creator_get c
      | None => m_default d
      end
  end.

(** [ServletDispatch::handle] *)
Definition handle (d : ServletDispatch) : handler := λ request response,
  match getMatchedServlet (Http.m_path request) d with
  | Some slt => let '(_, request, response) := handle_servlet slt request response in
                (0, request, response)
  | None => (0, request, response)
  end.

(** ** The registrations as a history *)
Inductive op :=
| Add (uri : list ascii) (c : creator)
| Del (uri : list ascii)
| AddGlob (uri : list ascii) (c : creator)
| DelGlob (uri : list ascii)
| Default (v : option Servlet).

Definition run_op (d : ServletDispatch) (o : op) : ServletDispatch :=
  match o with
  | Add uri c => addServletCreator uri c d
  | Del uri => delServlet uri d
  | AddGlob uri c => addGlobServletCreator uri c d
  | DelGlob uri => delGlobServlet uri d
  | Default v => setDefault v d
  end.

Definition dispatch_of (ops : list op) : ServletDispatch := foldl run_op new_dispatch ops.

(** The history, newest first.  The last word on an exact path: *)
Fixpoint exact (uri : list ascii) (h : list op) : option creator :=
  match h with
  | [] => None
  | Add u c :: h' => if bool_decide (u = uri) then Some c else exact uri h'
  | Del u :: h' => if bool_decide (u = uri) then None else exact uri h'
  | _ :: h' => exact uri h'
  end.

(** The patterns that are neither deleted nor registered again later ([seen]),
    oldest registration first. *)
Fixpoint live (seen : list (list ascii)) (h : list op) : list (list ascii * creator) :=
  match h with
  | [] => []
  | AddGlob u c :: h' =>
      if bool_decide (u ∈ seen) then live seen h' else live (u :: seen) h' ++ [(u, c)]
  | DelGlob u :: h' => live (u :: seen) h'
  | _ :: h' => live seen h'
  end.

Fixpoint default_of (h : list op) : option Servlet :=
  match h with
  | [] => m_default new_dispatch
  | Default v :: _ => v
  | _ :: h' => default_of h'
  end.

Lemma live_ext seen seen' h :
  (∀ u, u ∈ seen ↔ u ∈ seen') → live seen h = live seen' h.
Proof.
  revert seen seen'. induction h as [|o h IH]; intros seen seen' Hs; [done|].
  destruct o as [u c|u|u c|u|v]; cbn [live]; try by apply IH.
  - rewrite (bool_decide_ext (u ∈ seen) (u ∈ seen')) by apply Hs. case_bool_decide; [by apply IH|].
    f_equal. apply IH. intros x. rewrite !elem_of_cons. by rewrite Hs.
  - apply IH. intros x. rewrite !elem_of_cons. by rewrite Hs.
Qed.

(** One more pattern seen: its entry is gone. *)
Lemma live_filter u seen h :
  live (u :: seen) h = filter (λ it, it.1 ≠ u) (live seen h).
Proof.
  revert seen. induction h as [|o h IH]; intros seen; [done|].
  destruct o as [v c|v|v c|v|x]; cbn [live]; try by apply IH.
  - rewrite (bool_decide_ext (v ∈ u :: seen) (v = u ∨ v ∈ seen)) by apply elem_of_cons.
    destruct (decide (v ∈ seen)) as [Hin|Hout].
    + rewrite !bool_decide_eq_true_2 by auto. apply IH.
    + rewrite (bool_decide_eq_false_2 (v ∈ seen)) by done. rewrite filter_app.
      destruct (decide (v = u)) as [->|Hne].
      * rewrite bool_decide_eq_true_2 by auto. rewrite <- IH.
        rewrite filter_cons_False by (cbn; tauto). rewrite app_nil_r.
        apply live_ext. intros x. rewrite !elem_of_cons. tauto.
      * rewrite bool_decide_eq_false_2 by tauto. rewrite filter_cons_True by done. f_equal.
        rewrite <- IH. apply live_ext. intros x. rewrite !elem_of_cons. tauto.
  - rewrite <- IH. apply live_ext. intros x. rewrite !elem_of_cons. tauto.
Qed.

Lemma live_seen u c seen h : (u, c) ∈ live seen h → u ∉ seen.
Proof.
  revert seen. induction h as [|o h IH]; intros seen; cbn [live]; [by rewrite elem_of_nil|].
  destruct o as [v d|v|v d|v|x]; try apply IH.
  - case_bool_decide as Hv; [apply IH|]. rewrite elem_of_app. intros [H|H].
    + apply IH in H. rewrite elem_of_cons in H. tauto.
    + apply list_elem_of_singleton in H. by simplify_eq.
  - intros H%IH. rewrite elem_of_cons in H. tauto.
Qed.

Lemma live_NoDup seen h : NoDup (live seen h).*1.
Proof.
  revert seen. induction h as [|o h IH]; intros seen; cbn [live]; [constructor|].
  destruct o as [v d|v|v d|v|x]; try apply IH.
  case_bool_decide as Hv; [apply IH|]. rewrite fmap_app. apply NoDup_app.
  split_and!; [apply IH| |apply NoDup_singleton].
  intros x ((y & c) & -> & Hy)%list_elem_of_fmap Hx%list_elem_of_singleton. cbn in Hx. subst y.
  apply live_seen in Hy. rewrite elem_of_cons in Hy. tauto.
Qed.

Lemma erase_glob_filter u l :
  NoDup l.*1 → erase_glob u l = filter (λ it : list ascii * creator, it.1 ≠ u) l.
Proof.
  induction l as [|[v c] l IH]; intros Hn; [done|]. apply NoDup_cons in Hn as [Hv Hn].
  cbn [erase_glob fst]. case_bool_decide as E.
  - subst v. rewrite filter_cons_False by (cbn; tauto). symmetry.
    clear IH Hn. induction l as [|[w e] l IH]; [done|]. cbn in Hv. apply not_elem_of_cons in Hv as [Hw Hv].
    rewrite filter_cons_True by (cbn; congruence). by rewrite IH.
  - rewrite filter_cons_True by done. by rewrite IH.
Qed.

Lemma erase_live u seen h : erase_glob u (live seen h) = live (u :: seen) h.
Proof. rewrite live_filter. apply erase_glob_filter, live_NoDup. Qed.

(** The tables after a history. *)
Lemma dispatch_history ops :
  let d := dispatch_of ops in let h := rev ops in
  (∀ uri, m_datas d !! uri = exact uri h) ∧ m_globs d = live [] h ∧ m_default d = default_of h.
Proof.
  cbv zeta. induction ops as [|o ops IH] using rev_ind; [done|].
  unfold dispatch_of in *. rewrite foldl_app, rev_app_distr. cbn [foldl rev app].
  destruct IH as (He & Hg & Hd). set (d := foldl run_op new_dispatch ops) in *.
  destruct o as [u c|u|u c|u|v]; cbn [run_op exact live default_of]; split_and!; try done; cbn.
  - intros uri. case_bool_decide as E; [subst; apply lookup_insert_eq|].
    by rewrite lookup_insert_ne.
  - intros uri. case_bool_decide as E; [subst; apply lookup_delete_eq|].
    by rewrite lookup_delete_ne.
  - rewrite bool_decide_eq_false_2 by apply not_elem_of_nil. by rewrite Hg, erase_live.
  - by rewrite Hg, erase_live.
Qed.

(** [find_glob] stops at the first pattern that matches. *)
Lemma find_glob_first p l :
  match find_glob p l with
  | Some c => ∃ i pat, l !! i = Some (pat, c) ∧ p pat = true ∧ ∀ j pat' c', (j < i)%nat → l !! j = Some (pat', c') → p pat' = false
  | None => ∀ pat c, (pat, c) ∈ l → p pat = false
  end.
Proof.
  induction l as [|[pat c] l IH]; cbn [find_glob]; [by intros ?? ?%not_elem_of_nil|].
  destruct (p pat) eqn:Hp; [by exists 0%nat, pat; split_and!; [done|done|lia]|].
  destruct (find_glob p l) as [c'|].
  - destruct IH as (i & pat' & Hi & Hm & Hfirst). exists (S i), pat'. split_and!; [done|done|].
    intros [|j] q d Hj Hq; [by injection Hq as <- _|]. eapply Hfirst; [|exact Hq]. lia.
  - intros q d [[= -> ->]|Hin]%elem_of_cons; [done|by eapply IH].
Qed.

(** C37. Whatever was registered, deleted and registered again, a path goes to
    the servlet last registered for exactly this path if it was not deleted
    since; else to the oldest pattern still registered that matches (it matches and
    no older one does), where registering a pattern again makes it the newest; else,
    when no pattern matches, to the default. *)
Theorem dispatch_correct ops uri :
  let matches (pat : list ascii) := fnmatch (Http.c_str pat) (Http.c_str uri) in
  let patterns := live [] (rev ops) in
  NoDup patterns.*1 ∧
  match exact uri (rev ops) with
  | Some c => getMatchedServlet uri (dispatch_of ops) = creator_get c
  | None =>
      (∃ i pat c, patterns !! i = Some (pat, c) ∧ matches pat = true ∧
        (∀ j pat' c', (j < i)%nat → patterns !! j = Some (pat', c') → matches pat' = false) ∧
        getMatchedServlet uri (dispatch_of ops) = creator_get c) ∨
      ((∀ pat c, (pat, c) ∈ patterns → matches pat = false) ∧
        getMatchedServlet uri (dispatch_of ops) = default_of (rev ops))
  end.
Proof.
  intros matches patterns. destruct (dispatch_history ops) as (He & Hg & Hd). split; [apply live_NoDup|].
  unfold getMatchedServlet. rewrite He, Hg, Hd. destruct (exact uri (rev ops)) as [c|]; [done|].
  pose proof (find_glob_first matches patterns) as Hf. fold matches patterns.
  destruct (find_glob matches patterns) as [c|]; [left|by right].
  destruct Hf as (i & pat & Hi & Hm & Hfirst). by exists i, pat, c.
Qed.

End dispatch.

(** ** An example *)

(** Patterns with '*' only. *)
Fixpoint star_match (p s : list ascii) {struct p} : bool :=
  match p with
  | [] => match s with [] => true | _ => false end
  | c :: p' =>
      if Ascii.eqb c "*" then
        (fix skip (s : list ascii) : bool :=
           star_match p' s || match s with [] => false | _ :: s' => skip s' end) s
      else match s with [] => false | x :: s' => Ascii.eqb c x && star_match p' s' end
  end.

Definition says (status : Z) : Servlet :=
  FunctionServlet (λ q r, (0, q, Http.rs_setStatus status r)).

Definition sample_dispatch : ServletDispatch :=
  dispatch_of [AddGlob (of_lit "/a*") (HoldServletCreator (Some (says 201)));
    AddGlob (of_lit "/a/b*") (HoldServletCreator (Some (says 202)));
    Add (of_lit "/a/x") (HoldServletCreator (Some (says 203)));
    AddGlob (of_lit "/a*") (HoldServletCreator (Some (says 204)))].

Definition status_for (path : list ascii) : Z :=
  Http.rs_status (handle star_match sample_dispatch
    (Http.setPath path (Http.new_HttpRequest 17 false)) (Http.new_HttpResponse 17 false)).2.

Example dispatch_example :
  status_for (of_lit "/a/x") = 203 ∧ status_for (of_lit "/a/bc") = 202 ∧
  status_for (of_lit "/a/c") = 204 ∧ status_for (of_lit "/q") = 404.
Proof. by vm_compute. Qed.

End Servlet.
