(* ===== verification/Fiber.v ===== *)
(** * fiber: coroutines on ucontext (src/bobliew/fiber.{h,cc})

    One thread's fibers.  The state holds the fiber objects by address, the
    thread-local pointers [t_fiber], [t_threadFiber] and [t_scheduler_fiber], the
    two process-wide counters, and the machine: which fiber's stack the
    processor runs on and, per [ucontext_t], what resuming it continues.
    [swapcontext] saves the running fiber's continuation and resumes another.  A
    failed [BOBLIEW_ASSERT] aborts: it is [UB] here, like a null dereference.
    What a fiber's callback computes is left open: a trace of steps says when it
    yields, returns or throws. *)

From S2P Require Import Prelude.

Module Fiber.

Inductive State := INIT | HOLD | EXEC | TERM | READY | EXCEPT.

#[global] Instance State_eq_dec : EqDecision State.
Proof. solve_decision. Defined.

(** The function [makecontext] starts. *)
Inductive entry := MainFunc | CallerMainFunc.

(** What a [ucontext_t] resumes: the start of a fiber, the point where the code
    of a fiber was suspended, or the end of its main function, behind which
    stands only a failing assertion. *)
Inductive cont := Entry (e : entry) (a : nat) | Point (a : nat) | Dead (a : nat).

Section fiber.
(** The callbacks, [std::function<void()>]. *)
Context {C : Type}.

Record fiber := MkFiber {
  m_id : Z;
  m_state : State;
  m_ctx : cont;
  m_stack : bool;
  m_cb : option C
}.

Record thread := MkThread {
  heap : gmap nat fiber;
  next : nat;
  t_fiber : option nat;
  t_threadFiber : option nat;
  t_scheduler_fiber : option nat;
  s_fiber_id : Z;
  s_fiber_count : Z;
  running : nat
}.

Definition set_heap (h : gmap nat fiber) (t : thread) : thread :=
  MkThread h (next t) (t_fiber t) (t_threadFiber t) (t_scheduler_fiber t)
    (s_fiber_id t) (s_fiber_count t) (running t).
Definition set_running (a : nat) (t : thread) : thread :=
  MkThread (heap t) (next t) (t_fiber t) (t_threadFiber t) (t_scheduler_fiber t)
    (s_fiber_id t) (s_fiber_count t) a.

Definition set_state (s : State) (f : fiber) : fiber :=
  MkFiber (m_id f) s (m_ctx f) (m_stack f) (m_cb f).
Definition set_ctx (c : cont) (f : fiber) : fiber :=
  MkFiber (m_id f) (m_state f) c (m_stack f) (m_cb f).
Definition set_cb (c : option C) (f : fiber) : fiber :=
  MkFiber (m_id f) (m_state f) (m_ctx f) (m_stack f) c.

(** Dereference of a fiber pointer. *)
Definition deref (a : nat) : M thread fiber := λ t,
  match heap t !! a with Some f => Ret f t | None => UB end.
Definition store (a : nat) (f : fiber) : M thread unit := λ t,
  Ret tt (set_heap (<[a := f]> (heap t)) t).
Definition assert (b : bool) : M thread unit := if b then ret tt else ub.

(** [Fiber::SetThis] *)
Definition SetThis (f : option nat) : M thread unit := λ t,
  Ret tt (MkThread (heap t) (next t) f (t_threadFiber t) (t_scheduler_fiber t)
            (s_fiber_id t) (s_fiber_count t) (running t)).

(** [Fiber::Fiber()]: the thread itself becomes a fiber. *)
Definition new_main : M thread nat := λ t,
  let a := next t in
  Ret a (MkThread (<[a := MkFiber 0 EXEC (Point a) false None]> (heap t)) (S a)
    (Some a) (t_threadFiber t) (t_scheduler_fiber t)
    (s_fiber_id t) (wrap 64 (s_fiber_count t + 1)) a).

(** [Fiber::Fiber(cb, stacksize, use_caller)] *)
Definition new_fiber (cb : option C) (use_caller : bool) : M thread nat := λ t,
  let a := next t in
  let id := wrap 64 (s_fiber_id t + 1) in
  let e := if negb use_caller then MainFunc else CallerMainFunc in
  Ret a (MkThread (<[a := MkFiber id INIT (Entry e a) true cb]> (heap t)) (S a)
    (t_fiber t) (t_threadFiber t) (t_scheduler_fiber t)
    id (wrap 64 (s_fiber_count t + 1)) (running t)).

Definition finished (s : State) : bool :=
  bool_decide (s = TERM ∨ s = EXCEPT ∨ s = INIT).

(** [Fiber::~Fiber()] and the release of the object *)
Definition delete_fiber (a : nat) : M thread unit :=
  let! f := deref a in
  (if m_stack f then assert (finished (m_state f))
   else
     assert (bool_decide (m_cb f = None)) ;!
     assert (bool_decide (m_state f = EXEC)) ;!
     let! t := get in
     if bool_decide (t_fiber t = Some a) then SetThis None else ret tt) ;!
  λ t, Ret tt (MkThread (delete a (heap t)) (next t) (t_fiber t) (t_threadFiber t)
    (t_scheduler_fiber t) (s_fiber_id t) (wrap 64 (s_fiber_count t - 1)) (running t)).

(** [Fiber::reset] *)
Definition reset (a : nat) (cb : option C) : M thread unit :=
  let! f := deref a in
  assert (m_stack f) ;!
  assert (finished (m_state f)) ;!
  store a (MkFiber (m_id f) INIT (Entry MainFunc a) (m_stack f) cb).

(** [swapcontext(&from->m_ctx, &to->m_ctx)], saving the continuation [k]. *)
Definition swapcontext (k : cont) (from to : nat) : M thread unit :=
  let! f := deref from in
  store from (set_ctx k f) ;!
  let! g := deref to in
  match m_ctx g with
  | Entry _ a | Point a => λ t, Ret tt (set_running a t)
  | Dead _ => ub
  end.

(** The continuation of the code that calls. *)
Definition here : M thread cont := λ t, Ret (Point (running t)) t.

(** [Scheduler::GetMainFiber()], then a dereference *)
Definition GetMainFiber : M thread nat := λ t,
  match t_scheduler_fiber t with Some a => Ret a t | None => UB end.

Definition swapIn (a : nat) : M thread unit :=
  SetThis (Some a) ;!
  let! f := deref a in
  assert (negb (bool_decide (m_state f = EXEC))) ;!
  store a (set_state EXEC f) ;!
  let! m := GetMainFiber in
  let! k := here in
  swapcontext k m a.

(** [Fiber::swapOut], saving [k] *)
Definition swapOut (k : cont) (a : nat) : M thread unit :=
  let! m := GetMainFiber in
  SetThis (Some m) ;!
  swapcontext k a m.

Definition threadFiber : M thread nat := λ t,
  match t_threadFiber t with Some a => Ret a t | None => UB end.

Definition call (a : nat) : M thread unit :=
  SetThis (Some a) ;!
  let! f := deref a in
  store a (set_state EXEC f) ;!
  let! m := threadFiber in
  let! k := here in
  swapcontext k m a.

Definition back (k : cont) (a : nat) : M thread unit :=
  let! m := threadFiber in
  SetThis (Some m) ;!
  swapcontext k a m.

(** [Fiber::Getthis]: the running fiber, made from the thread at the first call. *)
Definition Getthis : M thread nat := λ t,
  match t_fiber t with
  | Some a => Ret a t
  | None =>
      (let! a := new_main in
       (λ t, Ret tt (MkThread (heap t) (next t) (t_fiber t) (Some a) (t_scheduler_fiber t)
                 (s_fiber_id t) (s_fiber_count t) (running t))) ;!
       ret a) t
  end.

(** [Fiber::GetFiberId] *)
Definition GetFiberId : M thread Z := λ t,
  match t_fiber t with
  | Some a => (let! f := deref a in ret (m_id f)) t
  | None => Ret 0 t
  end.

Definition yield_to (s : State) : M thread unit :=
  let! cur := Getthis in
  let! f := deref cur in
  store cur (set_state s f) ;!
  let! k := here in
  swapOut k cur.

Definition YieldToReady : M thread unit := yield_to READY.
Definition YieldToHold : M thread unit := yield_to HOLD.

(** [MainFunc] and [CallerMainFunc] from the end of [m_cb()] on: it [returned]
    or threw.  Calling an empty function throws [bad_function_call]. *)
Definition finish (returned : bool) (f : fiber) : fiber :=
  match m_cb f with
  | Some _ => if returned then set_state TERM (set_cb None f) else set_state EXCEPT f
  | None => set_state EXCEPT f
  end.

Definition MainFunc_end (returned : bool) : M thread unit :=
  let! cur := Getthis in
  let! f := deref cur in
  store cur (finish returned f) ;!
  let! t := get in
  swapOut (Dead (running t)) cur.

Definition CallerMainFunc_end (returned : bool) : M thread unit :=
  let! cur := Getthis in
  let! f := deref cur in
  store cur (finish returned f) ;!
  let! t := get in
  back (Dead (running t)) cur.

(** A thread before any of this ran, on its own stack, address 0. *)
Definition fresh_thread : thread := MkThread ∅ 0 None None None 0 0 0.

(** The start of [Scheduler::run] on a worker thread. *)
Definition boot : M thread unit :=
  let! a := Getthis in
  λ t, Ret tt (MkThread (heap t) (next t) (t_fiber t) (t_threadFiber t) (Some a)
         (s_fiber_id t) (s_fiber_count t) (running t)).

End fiber.

#[global] Arguments fiber : clear implicits.
#[global] Arguments thread : clear implicits.

(** ** Traces of a scheduler thread *)
Section traces.
Context {C : Type}.
Implicit Types (t : thread C) (f : fiber C) (a : nat).

(** What the code of the running fiber does next. *)
Inductive op :=
| New (cb : C)                 (* new Fiber(cb) *)
| SwapIn (a : nat)             (* a->swapIn() *)
| Reset (a : nat) (cb : option C)
| Delete (a : nat)             (* the last pointer to a goes away *)
| Ready                        (* Fiber::YieldToReady() *)
| Hold                         (* Fiber::YieldToHold() *)
| Finish (returned : bool).    (* m_cb() returns or throws *)

Definition run_op (o : op) : M (thread C) unit :=
  match o with
  | New cb => new_fiber (Some cb) false ;! ret tt
  | SwapIn a => swapIn a
  | Reset a cb => reset a cb
  | Delete a => delete_fiber a
  | Ready => YieldToReady
  | Hold => YieldToHold
  | Finish r => MainFunc_end r
  end.

(** Who may call: the main fiber of the thread (the scheduling loop) resumes
    fibers that are not finished and resets or drops fibers that are; the other
    fibers yield and finish. *)
Definition allowed (m : nat) (t : thread C) (o : op) : Prop :=
  match o with
  | New _ => s_fiber_id t < 2 ^ 64 - 1
  | SwapIn a => running t = m ∧ a ≠ m ∧
      ∃ f, heap t !! a = Some f ∧ (m_state f = INIT ∨ m_state f = HOLD ∨ m_state f = READY)
  | Reset a _ | Delete a => running t = m ∧ a ≠ m ∧
      ∃ f, heap t !! a = Some f ∧ finished (m_state f) = true
  | Ready | Hold | Finish _ => running t ≠ m
  end.

(** What a suspended fiber's context resumes. *)
Definition suspended (a : nat) (f : fiber C) : Prop :=
  match m_state f with
  | INIT => ∃ e, m_ctx f = Entry e a
  | HOLD | READY => m_ctx f = Point a
  | TERM | EXCEPT => m_ctx f = Dead a
  | EXEC => False
  end.

(** The invariant of a thread whose main fiber is [m]. *)
Record inv (m : nat) (t : thread C) : Prop := MkInv {
  inv_main : ∃ f, heap t !! m = Some f ∧ m_state f = EXEC ∧ m_stack f = false ∧ m_id f = 0 ∧
                  m_ctx f = Point m;
  inv_sched : t_scheduler_fiber t = Some m;
  inv_this : t_fiber t = Some (running t);
  inv_alive : is_Some (heap t !! running t);
  inv_fibers : ∀ a f, heap t !! a = Some f → a ≠ m →
    m_stack f = true ∧ 0 < m_id f ≤ s_fiber_id t ∧
    (if decide (a = running t) then m_state f = EXEC else suspended a f);
  inv_ids : ∀ a b f g, heap t !! a = Some f → heap t !! b = Some g → m_id f = m_id g → a = b;
  inv_next : ∀ a, is_Some (heap t !! a) → (a < next t)%nat;
  inv_id : 0 ≤ s_fiber_id t < 2 ^ 64;
  inv_count : s_fiber_count t = wrap 64 (Z.of_nat (size (heap t)))
}.

Fixpoint trace (m : nat) (t : thread C) (ops : list op) (t' : thread C) : Prop :=
  match ops with
  | [] => t' = t
  | o :: ops => allowed m t o ∧ ∃ t1, run_op o t = Ret tt t1 ∧ trace m t1 ops t'
  end.

Lemma wrap_succ n : wrap 64 (wrap 64 n + 1) = wrap 64 (n + 1).
Proof. unfold wrap. by rewrite Zplus_mod_idemp_l. Qed.
Lemma wrap_pred n : wrap 64 (wrap 64 n - 1) = wrap 64 (n - 1).
Proof. unfold wrap. by rewrite Zminus_mod_idemp_l. Qed.

(** Replacing a live fiber by one with its identity. *)
Lemma ids_insert (h : gmap nat (fiber C)) a f f' :
  h !! a = Some f → m_id f' = m_id f →
  (∀ a b f g, h !! a = Some f → h !! b = Some g → m_id f = m_id g → a = b) →
  ∀ x y f g, <[a := f']> h !! x = Some f → <[a := f']> h !! y = Some g → m_id f = m_id g → x = y.
Proof.
  intros Ha Hid H x y u v. rewrite !lookup_insert_Some.
  intros [[<- <-]|[? Hx]] [[<- <-]|[? Hy]] E; [done| | |eauto].
  - apply (H _ _ f v); [done..|congruence].
  - apply (H _ _ u f); [done..|congruence].
Qed.

Lemma size_insert_live (h : gmap nat (fiber C)) a f f' :
  h !! a = Some f → size (<[a := f']> h) = size h.
Proof. intros Ha. rewrite map_size_insert. by rewrite Ha. Qed.

(** One fiber changes and control goes to it or to the main fiber. *)
Definition switched (t : thread C) (a : nat) (f : fiber C) (r : nat) : thread C :=
  MkThread (<[a := f]> (heap t)) (next t) (Some r) (t_threadFiber t) (t_scheduler_fiber t)
    (s_fiber_id t) (s_fiber_count t) r.

Lemma inv_switched m t a f f' r :
  inv m t → heap t !! a = Some f → a ≠ m → m_id f' = m_id f → m_stack f' = m_stack f →
  (running t = a ∨ running t = m) →
  (r = a ∧ m_state f' = EXEC ∨ r = m ∧ suspended a f') →
  inv m (switched t a f' r).
Proof.
  intros [(fm & Hm & Hm') Hsf Htf Hal Hf Hids Hn Hi Hc] Ha Hne Hid Hst Hrun Hr.
  destruct (Hf a f Ha Hne) as (Hs & Hr' & _).
  split; cbn [switched heap next t_fiber t_scheduler_fiber s_fiber_id s_fiber_count running];
    try done.
  - exists fm. by rewrite lookup_insert_ne.
  - destruct Hr as [[-> _]|[-> _]]; [by rewrite lookup_insert_eq|].
    by rewrite lookup_insert_ne, Hm.
  - intros b g [[<- <-]|[Hab Hb]]%lookup_insert_Some Hbm.
    + split; [congruence|]. split; [lia|].
      destruct Hr as [[-> He]|[-> He]]; [by rewrite decide_True|by rewrite decide_False].
    + destruct (Hf b g Hb Hbm) as (? & ? & Hg). split; [done|]. split; [done|].
      rewrite decide_False in Hg by (destruct Hrun; congruence).
      by rewrite decide_False by (destruct Hr as [[-> _]|[-> _]]; congruence).
  - by eapply ids_insert.
  - intros b. rewrite lookup_insert_is_Some. intros [<-|[_ Hb]]; [apply Hn; by rewrite Ha|auto].
  - by erewrite size_insert_live.
Qed.

Lemma suspended_resumes a f :
  suspended a f → m_state f = INIT ∨ m_state f = HOLD ∨ m_state f = READY →
  (∃ e, m_ctx f = Entry e a) ∨ m_ctx f = Point a.
Proof. unfold suspended. intros H [E|[E|E]]; rewrite E in H; auto. Qed.

(** The main fiber's context is its own: saving it again changes nothing. *)
Lemma main_insert m t f :
  heap t !! m = Some f → m_ctx f = Point m → <[m := set_ctx (Point m) f]> (heap t) = heap t.
Proof. intros Hm Hc. apply insert_id. rewrite Hm. destruct f; simpl in *. by subst. Qed.

Lemma swapIn_run m t a f :
  inv m t → running t = m → a ≠ m → heap t !! a = Some f →
  m_state f = INIT ∨ m_state f = HOLD ∨ m_state f = READY →
  swapIn a t = Ret tt (switched t a (set_state EXEC f) a).
Proof.
  intros Hinv Hrun Hne Ha Hs. destruct Hinv as [(fm & Hm & _ & _ & _ & Hcm) Hsf Htf _ Hf _ _ _ _].
  destruct (Hf a f Ha Hne) as (_ & _ & Hsus). rewrite decide_False in Hsus by congruence.
  pose proof (suspended_resumes a f Hsus Hs) as Hctx.
  unfold swapIn, swapcontext, SetThis, deref, assert, store, GetMainFiber, here, bind, ret.
  cbn. rewrite Ha. rewrite (bool_decide_eq_false_2 (m_state f = EXEC)) by (destruct Hs as [->|[->| ->]]; done).
  cbn. rewrite Hsf. cbn. rewrite lookup_insert_ne by done. rewrite Hm. cbn. rewrite Hrun.
  rewrite lookup_insert_ne by done. rewrite lookup_insert_eq. cbn.
  rewrite (insert_id _ m); [|rewrite lookup_insert_ne by done; rewrite Hm; destruct fm; simpl in *; by subst].
  unfold switched. rewrite Hsf. by destruct Hctx as [[e ->]| ->].
Qed.

(** The running fiber stores its new self and switches to the main fiber. *)
Lemma leave_run m t f f' k :
  inv m t → running t ≠ m → heap t !! running t = Some f →
  (store (running t) f' ;! swapOut k (running t)) t
  = Ret tt (switched t (running t) (set_ctx k f') m).
Proof.
  intros Hinv Hne Ha. destruct Hinv as [(fm & Hm & _ & _ & _ & Hcm) Hsf Htf _ Hf _ _ _ _].
  unfold swapOut, swapcontext, SetThis, deref, GetMainFiber, store, bind, ret. cbn.
  rewrite Hsf. cbn. rewrite lookup_insert_eq. cbn.
  rewrite insert_insert_eq, lookup_insert_ne by done. rewrite Hm, Hcm.
  unfold switched. by rewrite Hsf.
Qed.

Lemma Getthis_running m t : inv m t → Getthis t = Ret (running t) t.
Proof. intros Hinv. unfold Getthis. by rewrite (inv_this m t Hinv). Qed.

Lemma yield_run m t s f :
  inv m t → running t ≠ m → heap t !! running t = Some f →
  yield_to s t = Ret tt (switched t (running t) (set_ctx (Point (running t)) (set_state s f)) m).
Proof.
  intros Hinv Hne Ha. unfold yield_to.
  erewrite bind_Ret by by eapply Getthis_running.
  erewrite bind_Ret by (unfold deref; by rewrite Ha).
  rewrite <- (leave_run m t f _ _ Hinv Hne Ha). done.
Qed.

Lemma finish_run m t r f :
  inv m t → running t ≠ m → heap t !! running t = Some f →
  MainFunc_end r t = Ret tt (switched t (running t) (set_ctx (Dead (running t)) (finish r f)) m).
Proof.
  intros Hinv Hne Ha. unfold MainFunc_end.
  erewrite bind_Ret by by eapply Getthis_running.
  erewrite bind_Ret by (unfold deref; by rewrite Ha).
  rewrite <- (leave_run m t f _ _ Hinv Hne Ha). done.
Qed.

Lemma reset_run m t a f cb :
  inv m t → heap t !! a = Some f → a ≠ m → running t = m → finished (m_state f) = true →
  reset a cb t = Ret tt (switched t a (MkFiber (m_id f) INIT (Entry MainFunc a) true cb) m).
Proof.
  intros Hinv Ha Hne Hrun Hfin. destruct Hinv as [_ _ Htf _ Hf _ _ _ _].
  destruct (Hf a f Ha Hne) as (Hs & _ & _).
  unfold reset, deref, assert, store, bind, ret. rewrite Ha, Hs, Hfin. cbn.
  unfold switched, set_heap. by rewrite Htf, Hrun.
Qed.

Lemma new_inv m t cb :
  inv m t → s_fiber_id t < 2 ^ 64 - 1 →
  ∃ t', run_op (New cb) t = Ret tt t' ∧ inv m t'.
Proof.
  intros [(fm & Hm & Hm') Hsf Htf Hal Hf Hids Hn Hi Hc] Hb. eexists. split; [done|].
  assert (heap t !! next t = None) as Hfresh.
  { apply eq_None_not_Some. intros H%Hn. lia. }
  assert (∀ a g, heap t !! a = Some g → m_id g ≤ s_fiber_id t) as Hle.
  { intros a g Hg. destruct (decide (a = m)) as [->|Hne].
    - rewrite Hm in Hg. simplify_eq. destruct Hm' as (_ & _ & -> & _). lia.
    - by destruct (Hf a g Hg Hne) as (_ & ? & _); lia. }
  assert (wrap 64 (s_fiber_id t + 1) = s_fiber_id t + 1) as Hw by (apply wrap_small; unfold in_u; lia).
  assert (m ≠ next t) as Hmn by (intros ->; congruence).
  split; cbn [heap next t_fiber t_scheduler_fiber s_fiber_id s_fiber_count running]; rewrite ?Hw;
    try done.
  - exists fm. by rewrite lookup_insert_ne.
  - apply lookup_insert_is_Some'. by right.
  - intros b g [[<- <-]|[Hab Hb']]%lookup_insert_Some Hbm; cbn.
    + split; [done|]. split; [lia|]. rewrite decide_False; [by eexists|].
      intros E. rewrite <- E, Hfresh in Hal. by destruct Hal.
    + destruct (Hf b g Hb' Hbm) as (? & ? & Hg). split_and!; [done|lia|lia|done].
  - intros x y u v [[<- <-]|[? Hx]]%lookup_insert_Some [[<- <-]|[? Hy]]%lookup_insert_Some; cbn; intros E.
    + done.
    + apply Hle in Hy. lia.
    + apply Hle in Hx. lia.
    + eauto.
  - intros b. rewrite lookup_insert_is_Some'. intros [<-|Hb']; [lia|]. apply Hn in Hb'. lia.
  - lia.
  - rewrite Hc, wrap_succ. f_equal. rewrite map_size_insert, Hfresh. simpl. lia.
Qed.

Lemma delete_inv m t a f :
  inv m t → running t = m → a ≠ m → heap t !! a = Some f → finished (m_state f) = true →
  ∃ t', delete_fiber a t = Ret tt t' ∧ inv m t'.
Proof.
  intros [(fm & Hm & Hm') Hsf Htf Hal Hf Hids Hn Hi Hc] Hrun Hne Ha Hfin.
  destruct (Hf a f Ha Hne) as (Hs & _ & _).
  eexists. split.
  { unfold delete_fiber, deref, assert, bind, ret. rewrite Ha, Hs, Hfin. done. }
  split; cbn [heap next t_fiber t_scheduler_fiber s_fiber_id s_fiber_count running]; try done.
  - exists fm. by rewrite lookup_delete_ne.
  - rewrite Hrun, lookup_delete_ne by done. by rewrite Hm.
  - intros b g [Hab Hb]%lookup_delete_Some Hbm. eauto.
  - intros x y u v [? Hx]%lookup_delete_Some [? Hy]%lookup_delete_Some. eauto.
  - intros b [g [_ Hb]%lookup_delete_Some]. eauto.
  - rewrite Hc, wrap_pred. f_equal. rewrite map_size_delete, Ha. simpl.
    assert (size (heap t) ≠ 0)%nat; [|lia]. rewrite map_size_ne_0_lookup. eauto.
Qed.

(** Every allowed step returns, no assertion failing, and keeps the invariant. *)
Lemma fiber_step_inv m t o : inv m t → allowed m t o → ∃ t', run_op o t = Ret tt t' ∧ inv m t'.
Proof.
  intros Hinv Ho. destruct (inv_alive m t Hinv) as [fr Hr].
  assert (∀ f k, m_id f = m_id fr → m_stack f = m_stack fr → running t ≠ m →
    suspended (running t) (set_ctx k f) → inv m (switched t (running t) (set_ctx k f) m)) as Hleave.
  { intros f k Hid Hst Hne Hsus. eapply inv_switched; try done; auto. }
  destruct o as [cb|a|a cb|a| | |r]; cbn [run_op allowed] in *.
  - by apply new_inv.
  - destruct Ho as (Hrun & Hne & f & Ha & Hs). eexists. split; [by eapply swapIn_run|].
    eapply inv_switched; try done; auto.
  - destruct Ho as (Hrun & Hne & f & Ha & Hs). eexists. split; [by eapply reset_run|].
    eapply inv_switched; try done; auto.
    + cbn. symmetry. by destruct (inv_fibers m t Hinv a f Ha Hne) as (-> & _).
    + right. split; [done|]. by eexists.
  - destruct Ho as (Hrun & Hne & f & Ha & Hs). by eapply delete_inv.
  - eexists. split; [by eapply yield_run|]. by apply Hleave.
  - eexists. split; [by eapply yield_run|]. by apply Hleave.
  - eexists. split; [by eapply finish_run|]. unfold finish.
    apply Hleave; destruct (m_cb fr), r; done.
Qed.

(** A thread that has become its own main fiber. *)
Definition booted : thread C :=
  MkThread {[ 0%nat := MkFiber 0 EXEC (Point 0) false None ]} 1 (Some 0%nat) (Some 0%nat)
    (Some 0%nat) 0 1 0.

Lemma boot_inv : boot fresh_thread = Ret tt booted ∧ inv 0 booted.
Proof.
  split; [done|].
  split; cbn [booted heap next t_fiber t_scheduler_fiber s_fiber_id s_fiber_count running]; try done.
  - eexists. by rewrite lookup_singleton_eq.
  - intros a f [<- <-]%lookup_singleton_Some Hne. done.
  - intros a b f g [<- <-]%lookup_singleton_Some [<- <-]%lookup_singleton_Some. done.
  - intros a [f [<- _]%lookup_singleton_Some]. lia.
Qed.

Lemma trace_inv m ops t t' : inv m t → trace m t ops t' → inv m t'.
Proof.
  revert t. induction ops as [|o ops IH]; intros t Hinv; cbn [trace].
  { by intros ->. }
  intros (Ho & t1 & Hrun & Htr). destruct (fiber_step_inv m t o Hinv Ho) as (t2 & Hrun2 & Hinv2).
  rewrite Hrun in Hrun2. simplify_eq. by eapply IH.
Qed.

(** C34. However fibers are created, resumed, suspended, finished, reset and
    dropped on a scheduler thread, the machine and the book-keeping agree: the
    current-fiber pointer is the fiber whose stack runs, only that fiber and the
    main one are in state EXEC, every other fiber's context is its own, at its
    start, at its yield point or past its end as its state says, fiber ids are
    distinct, the count is the number of fibers, and no step the scheduling
    loop and the fibers may take fails an assertion. *)
Theorem fibers_invariant (ops : list op) t0 t :
  boot fresh_thread = Ret tt t0 → trace 0 t0 ops t →
  inv 0 t ∧ ∀ o, allowed 0 t o → ∃ t', run_op o t = Ret tt t'.
Proof.
  intros Hb Htr. destruct boot_inv as (Hb1 & Hi). rewrite Hb in Hb1. injection Hb1 as ->.
  pose proof (trace_inv 0 ops _ t Hi Htr) as Hinv. split; [done|].
  intros o Ho. destruct (fiber_step_inv 0 t o Hinv Ho) as (t' & ? & _). eauto.
Qed.

(** Resuming a suspended fiber and letting it yield brings the thread back
    to the scheduling loop exactly where it was: only that fiber has changed,
    it is in the state it yielded with, and its context is its yield point, where
    the next [swapIn] continues it. *)
Theorem switch_roundtrip m t a f :
  inv m t → running t = m → a ≠ m → heap t !! a = Some f →
  m_state f = INIT ∨ m_state f = HOLD ∨ m_state f = READY →
  ∃ t1, swapIn a t = Ret tt t1 ∧ running t1 = a ∧ t_fiber t1 = Some a ∧
    ∀ s, s = READY ∨ s = HOLD → ∃ t2,
      yield_to s t1 = Ret tt t2 ∧
      t2 = set_heap (<[a := MkFiber (m_id f) s (Point a) (m_stack f) (m_cb f)]> (heap t)) t.
Proof.
  intros Hinv Hrun Hne Ha Hs.
  exists (switched t a (set_state EXEC f) a). split; [by eapply swapIn_run|].
  split; [done|]. split; [done|]. intros s Hs'.
  assert (inv m (switched t a (set_state EXEC f) a)) as Hinv1
    by (eapply inv_switched; try done; auto).
  eexists. split.
  - eapply yield_run; [done|done|]. cbn. apply lookup_insert_eq.
  - unfold switched, set_heap. cbn. rewrite insert_insert_eq, Hrun, (inv_this m t Hinv), Hrun. done.
Qed.

End traces.
#[global] Arguments op : clear implicits.

(** A fiber is created, runs until it yields, is resumed, returns, is dropped. *)
Definition sample_ops : list (op Z) :=
  [New 7; SwapIn 1; Hold; SwapIn 1; Finish true; Delete 1].

Definition sample_end : thread Z :=
  match foldl (λ m o, m ;! run_op o) (ret tt) sample_ops booted with
  | Ret _ t => t
  | _ => booted
  end.

Lemma fibers_invariant_witness :
  trace 0 booted sample_ops sample_end ∧ size (heap sample_end) = 1%nat ∧
  inv 0 sample_end ∧ ∀ o, allowed 0 sample_end o → ∃ t', run_op o sample_end = Ret tt t'.
Proof.
  assert (trace 0 booted sample_ops sample_end) as Htr.
  { cbn [trace sample_ops allowed].
    split; [done|]. eexists. split; [vm_compute; reflexivity|].
    split. { split; [done|]. split; [done|]. eexists. split; [vm_compute; reflexivity|by left]. }
    eexists. split; [vm_compute; reflexivity|]. split; [by vm_compute|].
    eexists. split; [vm_compute; reflexivity|].
    split. { split; [done|]. split; [done|]. eexists.
             split; [vm_compute; reflexivity|by right; left]. }
    eexists. split; [vm_compute; reflexivity|]. split; [by vm_compute|].
    eexists. split; [vm_compute; reflexivity|].
    split. { split; [done|]. split; [done|]. eexists.
             split; [vm_compute; reflexivity|by vm_compute]. }
    eexists. split; [vm_compute; reflexivity|]. by vm_compute. }
  split; [exact Htr|]. split; [by vm_compute|].
  exact (fibers_invariant sample_ops booted sample_end (proj1 boot_inv) Htr).
Defined.

Lemma switch_roundtrip_witness :
  let t := set_heap (<[1%nat := MkFiber 1 INIT (Entry MainFunc 1) true (Some 7%Z)]> (heap booted))
             (MkThread (heap booted) 2 (Some 0%nat) (Some 0%nat) (Some 0%nat) 1 2 0) in
  ∃ t1, swapIn 1 t = Ret tt t1 ∧ running t1 = 1%nat ∧ t_fiber t1 = Some 1%nat ∧
    ∀ s, s = READY ∨ s = HOLD → ∃ t2,
      yield_to s t1 = Ret tt t2 ∧
      t2 = set_heap (<[1%nat := MkFiber 1 s (Point 1) true (Some 7%Z)]> (heap t)) t.
Proof.
  cbv zeta. refine (switch_roundtrip 0 _ 1 (MkFiber 1 INIT (Entry MainFunc 1) true (Some 7%Z)) _ _ _ _ _).
  - destruct (new_inv 0 booted 7%Z (proj2 boot_inv)) as (t & Hrun & Hinv); [done|].
    vm_compute in Hrun. injection Hrun as <-. exact Hinv.
  - done.
  - done.
  - done.
  - by left.
Defined.

End Fiber.
