(* ===== verification/Scheduler.v ===== *)
(** * scheduler: the task queue and its worker threads (src/bobliew/scheduler.{h,cc})

    The shared state of a [Scheduler] and, per worker thread, where its [run]
    loop stands.  The loop is cut where another thread can come in between: the
    scan of the queue (one step, it holds the mutex), the switch into the task,
    the task's slice on its fiber (its end is chosen by the trace: it yields,
    returns or throws, see Fiber.v), the decrement of the active count, the
    re-scheduling after it (no lock is held between them), and the same for the
    idle fiber.  A failed [BOBLIEW_ASSERT] aborts: it is [UB] here.  Fibers
    are named by address; what the steps read of them is their [m_state]. *)

From S2P Require Import Prelude Fiber.
From stdpp Require Import list_tactics.
#[local] Open Scope list_scope.
#[local] Open Scope Z_scope.

Module Scheduler.
Import Fiber.

Section scheduler.
(** The callbacks, [std::function<void()>]. *)
Context {C : Type}.

(** [FiberAndThread]; [ft_thread] is -1 for any thread. *)
Record FiberAndThread := Ft {
  ft_fiber : option nat;
  ft_cb : option C;
  ft_thread : Z
}.

(** Where a thread's [run] stands. *)
Inductive phase :=
| Top                               (* at the head of the loop *)
| Picked (ft : FiberAndThread)      (* a task was taken from the queue *)
| InFiber (f : nat)                 (* inside [ft.fiber->swapIn()] *)
| AfterFiber (f : nat)              (* back from it *)
| LeftFiber (f : nat)               (* and no longer counted as active *)
| InCb (f : nat)                    (* inside [cb_fiber->swapIn()] *)
| AfterCb (f : nat)                 (* back from it *)
| LeftCb (f : nat)                  (* and no longer counted as active *)
| NoTask                            (* nothing to take *)
| InIdle                            (* inside [idle_fiber->swapIn()] *)
| AfterIdle                         (* back from it *)
| Exited.                           (* out of the loop *)

(** The locals of [run]: [cb_fiber], and the state of [idle_fiber]. *)
Record worker := Worker {
  w_phase : phase;
  cb_fiber : option nat;
  idle_state : State
}.

Record sched := Sched {
  m_fibers : list FiberAndThread;
  states : gmap nat State;              (* [m_state] of every fiber *)
  next_fiber : nat;
  m_activeThreadCount : Z;
  m_idleThreadCount : Z;
  m_stopping : bool;
  m_autoStop : bool;
  workers : gmap Z worker;              (* by thread id *)
  tickles : nat;                        (* calls of [tickle()] *)
  (* the history, for the statements *)
  scheduled : list FiberAndThread;      (* put into the queue *)
  started : list (Z * FiberAndThread);  (* switched into, and by which thread *)
  dropped : list FiberAndThread         (* taken, their fiber already finished *)
}.

Definition set_fibers (q : list FiberAndThread) (s : sched) : sched :=
  Sched q (states s) (next_fiber s) (m_activeThreadCount s) (m_idleThreadCount s) (m_stopping s)
    (m_autoStop s) (workers s) (tickles s) (scheduled s) (started s) (dropped s).
Definition set_active (n : Z) (s : sched) : sched :=
  Sched (m_fibers s) (states s) (next_fiber s) n (m_idleThreadCount s) (m_stopping s)
    (m_autoStop s) (workers s) (tickles s) (scheduled s) (started s) (dropped s).
Definition set_idle (n : Z) (s : sched) : sched :=
  Sched (m_fibers s) (states s) (next_fiber s) (m_activeThreadCount s) n (m_stopping s)
    (m_autoStop s) (workers s) (tickles s) (scheduled s) (started s) (dropped s).
Definition set_fstate (f : nat) (st : State) (s : sched) : sched :=
  Sched (m_fibers s) (<[f := st]> (states s)) (next_fiber s) (m_activeThreadCount s)
    (m_idleThreadCount s) (m_stopping s) (m_autoStop s) (workers s) (tickles s)
    (scheduled s) (started s) (dropped s).
Definition set_flags (stopping autoStop : bool) (s : sched) : sched :=
  Sched (m_fibers s) (states s) (next_fiber s) (m_activeThreadCount s) (m_idleThreadCount s)
    stopping autoStop (workers s) (tickles s) (scheduled s) (started s) (dropped s).
Definition set_worker (t : Z) (w : worker) (s : sched) : sched :=
  Sched (m_fibers s) (states s) (next_fiber s) (m_activeThreadCount s) (m_idleThreadCount s)
    (m_stopping s) (m_autoStop s) (<[t := w]> (workers s)) (tickles s)
    (scheduled s) (started s) (dropped s).
Definition tickle (s : sched) : sched :=
  Sched (m_fibers s) (states s) (next_fiber s) (m_activeThreadCount s) (m_idleThreadCount s)
    (m_stopping s) (m_autoStop s) (workers s) (S (tickles s)) (scheduled s) (started s) (dropped s).
Definition tickle_if (b : bool) (s : sched) : sched := if b then tickle s else s.
Definition log_scheduled (ft : FiberAndThread) (s : sched) : sched :=
  Sched (m_fibers s) (states s) (next_fiber s) (m_activeThreadCount s) (m_idleThreadCount s)
    (m_stopping s) (m_autoStop s) (workers s) (tickles s)
    (scheduled s ++ [ft]) (started s) (dropped s).
Definition log_started (t : Z) (ft : FiberAndThread) (s : sched) : sched :=
  Sched (m_fibers s) (states s) (next_fiber s) (m_activeThreadCount s) (m_idleThreadCount s)
    (m_stopping s) (m_autoStop s) (workers s) (tickles s)
    (scheduled s) (started s ++ [(t, ft)]) (dropped s).
Definition log_dropped (ft : FiberAndThread) (s : sched) : sched :=
  Sched (m_fibers s) (states s) (next_fiber s) (m_activeThreadCount s) (m_idleThreadCount s)
    (m_stopping s) (m_autoStop s) (workers s) (tickles s)
    (scheduled s) (started s) (dropped s ++ [ft]).

Definition set_phase (t : Z) (p : phase) (w : worker) (s : sched) : sched :=
  set_worker t (Worker p (cb_fiber w) (idle_state w)) s.

(** Whether there is anything to run in a task. *)
Definition nonempty (ft : FiberAndThread) : bool :=
  bool_decide (is_Some (ft_fiber ft)) || bool_decide (is_Some (ft_cb ft)).

(** [scheduleNoLock]: whether the queue was empty, and the new state *)
Definition scheduleNoLock (ft : FiberAndThread) (s : sched) : bool * sched :=
  let need_tickle := bool_decide (m_fibers s = []) in
  (need_tickle,
   if nonempty ft then log_scheduled ft (set_fibers (m_fibers s ++ [ft]) s) else s).

Definition schedule (ft : FiberAndThread) (s : sched) : sched :=
  let (need_tickle, s) := scheduleNoLock ft s in tickle_if need_tickle s.

(** [schedule(begin, end)] *)
Fixpoint schedule_all (fts : list FiberAndThread) (need_tickle : bool) (s : sched)
    : bool * sched :=
  match fts with
  | [] => (need_tickle, s)
  | ft :: fts' =>
      let (b, s) := scheduleNoLock ft s in schedule_all fts' (b || need_tickle) s
  end.
Definition schedule_range (fts : list FiberAndThread) (s : sched) : sched :=
  let (need_tickle, s) := schedule_all fts false s in tickle_if need_tickle s.

(** [Scheduler::stopping] *)
Definition stopping (s : sched) : bool :=
  m_autoStop s && m_stopping s && bool_decide (m_fibers s = []) &&
  (m_activeThreadCount s =? 0).

(** The scan of the queue by thread [t]: the tasks passed over, the task taken,
    the tasks behind it, and [tickle_me].  [None]: a failed assertion. *)
Fixpoint scan (t : Z) (st : gmap nat State) (tickle_me : bool) (skipped q : list FiberAndThread)
    : option (option FiberAndThread * list FiberAndThread * bool) :=
  match q with
  | [] => Some (None, skipped, tickle_me)
  | it :: q' =>
      if negb (ft_thread it =? -1) && negb (ft_thread it =? t) then
        scan t st true (skipped ++ [it]) q'
      else if negb (nonempty it) then None
      else
        match ft_fiber it with
        | Some f =>
            match st !! f with
            | None => None
            | Some EXEC => scan t st tickle_me (skipped ++ [it]) q'
            | Some _ => Some (Some it, skipped ++ q', tickle_me || negb (bool_decide (q' = [])))
            end
        | None => Some (Some it, skipped ++ q', tickle_me || negb (bool_decide (q' = [])))
        end
  end.

(** [run], from the head of the loop to the end of the locked block and the
    [tickle] behind it *)
Definition run_pick (t : Z) (w : worker) : M sched unit := λ s,
  match scan t (states s) false [] (m_fibers s) with
  | None => UB
  | Some (None, q, tickle_me) =>
      Ret tt (set_phase t NoTask w (tickle_if tickle_me (set_fibers q s)))
  | Some (Some ft, q, tickle_me) =>
      Ret tt (set_phase t (Picked ft) w (tickle_if tickle_me
        (set_active (wrap 64 (m_activeThreadCount s + 1)) (set_fibers q s))))
  end.

(** [swapIn] as the loop sees it *)
Definition swap_in (f : nat) : M sched unit := λ s,
  match states s !! f with
  | None | Some EXEC => UB
  | Some _ => Ret tt (set_fstate f EXEC s)
  end.

(** [Fiber::reset] as the loop sees it *)
Definition reset_fiber (f : nat) : M sched unit := λ s,
  match states s !! f with
  | Some TERM | Some EXCEPT | Some INIT => Ret tt (set_fstate f INIT s)
  | _ => UB
  end.

(** [new Fiber(cb)] *)
Definition new_cb_fiber : M sched nat := λ s,
  Ret (next_fiber s)
    (Sched (m_fibers s) (<[next_fiber s := INIT]> (states s)) (S (next_fiber s))
      (m_activeThreadCount s) (m_idleThreadCount s) (m_stopping s) (m_autoStop s)
      (workers s) (tickles s) (scheduled s) (started s) (dropped s)).

Definition is_over (st : State) : bool := bool_decide (st = TERM ∨ st = EXCEPT).

Definition upd (f : sched → sched) : M sched unit := λ s, Ret tt (f s).

(** [run]: the task taken is entered *)
Definition run_start (t : Z) (w : worker) (ft : FiberAndThread) : M sched unit :=
  let! s := get in
  let enter_cb :=
    match ft_cb ft with
    | Some _ =>
        let! f := (match cb_fiber w with
                   | Some f => reset_fiber f ;! ret f
                   | None => new_cb_fiber
                   end) in
        swap_in f ;!
        upd (λ s, log_started t ft (set_worker t (Worker (InCb f) (Some f) (idle_state w)) s))
    | None =>
        upd (λ s, log_dropped ft
          (set_phase t Top w (set_active (wrap 64 (m_activeThreadCount s - 1)) s)))
    end in
  match ft_fiber ft with
  | Some f =>
      match states s !! f with
      | None => ub
      | Some st =>
          if is_over st then enter_cb
          else
            swap_in f ;! upd (λ s, log_started t ft (set_phase t (InFiber f) w s))
      end
  | None => enter_cb
  end.

(** The task's slice ends: its fiber yields with READY or HOLD, or is over. *)
Definition slice_end (t : Z) (w : worker) (f : nat) (how : State) (p : phase) : M sched unit :=
  upd (λ s, set_phase t p w (set_fstate f how s)).

(** [run]: back from [ft.fiber->swapIn()], [--m_activeThreadCount] *)
Definition run_after_fiber (t : Z) (w : worker) (f : nat) : M sched unit := λ s,
  Ret tt (set_phase t (LeftFiber f) w (set_active (wrap 64 (m_activeThreadCount s - 1)) s)).

(** and what is done with the fiber *)
Definition run_left_fiber (t : Z) (w : worker) (f : nat) : M sched unit := λ s,
  match states s !! f with
  | None => UB
  | Some READY => Ret tt (set_phase t Top w (schedule (Ft (Some f) None (-1)) s))
  | Some TERM | Some EXCEPT => Ret tt (set_phase t Top w s)
  | Some _ => Ret tt (set_phase t Top w (set_fstate f HOLD s))
  end.

(** [run]: back from [cb_fiber->swapIn()], [--m_activeThreadCount] *)
Definition run_after_cb (t : Z) (w : worker) (f : nat) : M sched unit := λ s,
  Ret tt (set_phase t (LeftCb f) w (set_active (wrap 64 (m_activeThreadCount s - 1)) s)).

(** and what is done with the fiber; after READY [cb_fiber] is kept *)
Definition run_left_cb (t : Z) (w : worker) (f : nat) : M sched unit := λ s,
  match states s !! f with
  | None => UB
  | Some READY => Ret tt (set_phase t Top w (schedule (Ft (Some f) None (-1)) s))
  | Some TERM | Some EXCEPT => (reset_fiber f ;! upd (set_phase t Top w)) s
  | Some _ => Ret tt (set_worker t (Worker Top None (idle_state w)) (set_fstate f HOLD s))
  end.

(** [run]: nothing to take *)
Definition run_idle (t : Z) (w : worker) : M sched unit := λ s,
  match idle_state w with
  | TERM => Ret tt (set_phase t Exited w s)
  | EXEC => UB
  | _ => Ret tt (set_worker t (Worker InIdle (cb_fiber w) EXEC)
           (set_idle (wrap 64 (m_idleThreadCount s + 1)) s))
  end.

(** [Scheduler::idle]: one round of its loop *)
Definition idle (t : Z) (w : worker) : M sched unit := λ s,
  Ret tt (set_worker t
    (Worker AfterIdle (cb_fiber w) (if stopping s then TERM else HOLD)) s).

(** [run]: back from [idle_fiber->swapIn()] *)
Definition run_after_idle (t : Z) (w : worker) : M sched unit := λ s,
  let st := if is_over (idle_state w) then idle_state w else HOLD in
  Ret tt (set_worker t (Worker Top (cb_fiber w) st)
    (set_idle (wrap 64 (m_idleThreadCount s - 1)) s)).

(** The constructor, without [use_caller], and [start] with the ids of the
    threads it creates *)
Definition new_sched : sched := Sched [] ∅ 0 0 0 true false ∅ 0 [] [] [].
Definition start (ids : list Z) : M sched unit := λ s,
  if negb (m_stopping s) then Ret tt s
  else if bool_decide (workers s = ∅) then
    Ret tt (foldr (λ t s, set_worker t (Worker Top None INIT) s) (set_flags false (m_autoStop s) s) ids)
  else UB.

(** [stop] up to the joins.  [root] is the state of [m_rootFiber], if the
    scheduler was built with [use_caller] (then [m_rootThread] is not -1);
    [own_thread] says whether [GetThis() == this].  The result tells whether the
    root fiber is called to run the loop on this thread. *)
Definition stop (root : option State) (own_thread : bool) : M sched bool := λ s,
  let s := set_flags (m_stopping s) true s in
  let idle_root :=
    match root with
    | Some st => bool_decide (workers s = ∅) && bool_decide (st = TERM ∨ st = INIT)
    | None => false
    end in
  let s := if idle_root then set_flags true true s else s in
  if idle_root && stopping s then Ret false s
  else if negb (eqb own_thread (bool_decide (is_Some root))) then UB
  else
    let n := (size (workers s) + if bool_decide (is_Some root) then 1 else 0)%nat in
    let s := Nat.iter n tickle (set_flags true true s) in
    Ret (negb (stopping s) && bool_decide (is_Some root)) s.

End scheduler.

#[global] Arguments FiberAndThread : clear implicits.
#[global] Arguments sched : clear implicits.
#[global] Arguments worker : clear implicits.
#[global] Arguments phase : clear implicits.

(** ** Executions *)
Section steps.
Context {C : Type}.
Implicit Types (s : sched C) (w : worker C) (ft : FiberAndThread C) (q : list (FiberAndThread C)).

(** The next step of a thread whose loop, or idle fiber, runs. *)
Definition run_step (t : Z) (w : worker C) : M (sched C) unit :=
  match w_phase w with
  | Top => run_pick t w
  | Picked ft => run_start t w ft
  | AfterFiber f => run_after_fiber t w f
  | LeftFiber f => run_left_fiber t w f
  | AfterCb f => run_after_cb t w f
  | LeftCb f => run_left_cb t w f
  | NoTask => run_idle t w
  | InIdle => idle t w
  | AfterIdle => run_after_idle t w
  | InFiber _ | InCb _ | Exited => ub
  end.

(** How a slice can end. *)
Definition outcome_of_slice (how : State) : Prop :=
  how = READY ∨ how = HOLD ∨ how = TERM ∨ how = EXCEPT.

(** The fiber of a task exists. *)
Definition live (s : sched C) (ft : FiberAndThread C) : Prop :=
  ∀ f, ft_fiber ft = Some f → is_Some (states s !! f).

Inductive step (s : sched C) : sched C → Prop :=
| step_run t w s' :
    workers s !! t = Some w → run_step t w s = Ret tt s' → step s s'
| step_fiber_end t w f how s' :
    workers s !! t = Some w → w_phase w = InFiber f → outcome_of_slice how →
    slice_end t w f how (AfterFiber f) s = Ret tt s' → step s s'
| step_cb_end t w f how s' :
    workers s !! t = Some w → w_phase w = InCb f → outcome_of_slice how →
    slice_end t w f how (AfterCb f) s = Ret tt s' → step s s'
| step_spawn t w f ft :
    (* a running task schedules another *)
    workers s !! t = Some w → w_phase w = InFiber f ∨ w_phase w = InCb f → live s ft →
    step s (schedule ft s)
| step_external ft :
    (* so does anyone else, until the scheduler is told to stop *)
    m_autoStop s && m_stopping s = false → live s ft → step s (schedule ft s)
| step_new f s' : new_cb_fiber s = Ret f s' → step s s'
| step_stop b s' : stop None false s = Ret b s' → step s s'.

Definition reachable (ids : list Z) (s : sched C) : Prop :=
  ∃ s0, start ids new_sched = Ret tt s0 ∧ rtc step s0 s.

(** ** What the threads hold *)
Definition gather {A} (f : worker C → list A) (m : gmap Z (worker C)) : list A :=
  flat_map (λ kv, f kv.2) (map_to_list m).

Lemma gather_insert {A} (f : worker C → list A) (m : gmap Z (worker C)) t w w' :
  m !! t = Some w →
  ∃ rest, gather f m ≡ₚ f w ++ rest ∧ gather f (<[t := w']> m) ≡ₚ f w' ++ rest.
Proof.
  intros Ht. exists (gather f (delete t m)). unfold gather. split.
  - rewrite <- (insert_id m t w Ht) at 1. rewrite <- insert_delete_eq.
    rewrite map_to_list_insert by apply lookup_delete_eq. done.
  - rewrite <- insert_delete_eq. rewrite map_to_list_insert by apply lookup_delete_eq. done.
Qed.

(** Between taking a task and giving the thread back. *)
Definition active_of (w : worker C) : list unit :=
  match w_phase w with
  | Picked _ | InFiber _ | AfterFiber _ | InCb _ | AfterCb _ => [tt]
  | _ => []
  end.
(** Inside the idle fiber or just out of it. *)
Definition idle_of (w : worker C) : list unit :=
  match w_phase w with InIdle | AfterIdle => [tt] | _ => [] end.
(** Taken and not yet entered. *)
Definition picked_of (w : worker C) : list (FiberAndThread C) :=
  match w_phase w with Picked ft => [ft] | _ => [] end.

Definition pin_ok (t : Z) (ft : FiberAndThread C) : Prop := ft_thread ft = -1 ∨ ft_thread ft = t.

(** The scheduler has been told to stop. *)
Definition told (s : sched C) : Prop := m_autoStop s = true ∧ m_stopping s = true.

(** Every queued task has something to run, on a fiber that exists. *)
Definition queue_ok (st : gmap nat State) (q : list (FiberAndThread C)) : Prop :=
  Forall (λ ft, nonempty ft = true ∧ ∀ f, ft_fiber ft = Some f → is_Some (st !! f)) q.

Record inv (s : sched C) : Prop := MkInv {
  i_active : m_activeThreadCount s = wrap 64 (Z.of_nat (length (gather active_of (workers s))));
  i_idle : m_idleThreadCount s = wrap 64 (Z.of_nat (length (gather idle_of (workers s))));
  i_tasks : scheduled s ≡ₚ m_fibers s ++ gather picked_of (workers s) ++ (started s).*2 ++ dropped s;
  i_started : Forall (λ p, pin_ok p.1 p.2) (started s);
  i_picked : ∀ t w ft, workers s !! t = Some w → w_phase w = Picked ft → pin_ok t ft;
  i_queue : queue_ok (states s) (m_fibers s);
  i_term : ∀ t w, workers s !! t = Some w → idle_state w = TERM → told s;
  i_exit : ∀ t w, workers s !! t = Some w → w_phase w = Exited → idle_state w = TERM;
  i_size : Z.of_nat (size (workers s)) < 2 ^ 64
}.

(** ** The scan of the queue *)

Definition elsewhere (t : Z) (ft : FiberAndThread C) : bool :=
  negb (ft_thread ft =? -1) && negb (ft_thread ft =? t).

Definition executing (st : gmap nat State) (ft : FiberAndThread C) : bool :=
  match ft_fiber ft with
  | Some f => bool_decide (st !! f = Some EXEC)
  | None => false
  end.

(** A task thread [t] may take. *)
Definition eligible (t : Z) (st : gmap nat State) (ft : FiberAndThread C) : bool :=
  negb (elsewhere t ft) && negb (executing st ft).

(** The result of a scan of [q]. *)
Definition scanned (t : Z) (st : gmap nat State) (q : list (FiberAndThread C))
    (r : option (FiberAndThread C)) (q' : list (FiberAndThread C)) (tickle_me : bool) : Prop :=
  match r with
  | None => Forall (λ ft, eligible t st ft = false) q ∧ q' = q ∧
      tickle_me = existsb (elsewhere t) q
  | Some ft => ∃ pre post, q = pre ++ ft :: post ∧ q' = pre ++ post ∧
      eligible t st ft = true ∧ Forall (λ ft, eligible t st ft = false) pre ∧
      tickle_me = existsb (elsewhere t) pre || negb (bool_decide (post = []))
  end.

Lemma elsewhere_false t ft : elsewhere t ft = false ↔ pin_ok t ft.
Proof.
  unfold elsewhere, pin_ok. rewrite andb_false_iff, !negb_false_iff, !Z.eqb_eq. done.
Qed.

(** One task of the scan. *)
Lemma scan_cons t st tk sk it q :
  (nonempty it = true ∧ ∀ f, ft_fiber it = Some f → is_Some (st !! f)) →
  scan t st tk sk (it :: q) =
  if elsewhere t it then scan t st true (sk ++ [it]) q
  else if executing st it then scan t st tk (sk ++ [it]) q
  else Some (Some it, sk ++ q, tk || negb (bool_decide (q = []))).
Proof.
  intros [Hn Hl]. cbn [scan]. fold (elsewhere t it).
  destruct (elsewhere t it); [done|]. rewrite Hn. cbn [negb]. unfold executing.
  destruct (ft_fiber it) as [f|]; [|done]. destruct (Hl f eq_refl) as [st' Hst]. rewrite Hst.
  by destruct st'.
Qed.

Lemma scan_gen t st q tk sk :
  queue_ok st q →
  ∃ r q' tk', scan t st tk sk q = Some (r, sk ++ q', tk || tk') ∧ scanned t st q r q' tk'.
Proof.
  intros Hq. revert tk sk. induction Hq as [|it q Hit Hq IH]; intros tk sk.
  { exists None, [], false. rewrite app_nil_r, orb_false_r. done. }
  rewrite scan_cons by done.
  assert (∀ tk0 b, eligible t st it = false → elsewhere t it = b → tk0 = tk || b →
    ∃ r q' tk', scan t st tk0 (sk ++ [it]) q = Some (r, sk ++ q', tk || tk') ∧
      scanned t st (it :: q) r q' tk') as Hskip.
  { intros tk0 b Hne Hb ->. destruct (IH (tk || b) (sk ++ [it])) as (r & q' & tk' & Hs & Hr).
    exists r, (it :: q'), (b || tk'). split; [by rewrite Hs, <- (assoc_L (++)), orb_assoc|].
    destruct r as [ft|]; cbn [scanned] in *.
    - destruct Hr as (pre & post & -> & -> & He & Hpre & ->). exists (it :: pre), post.
      split_and!; [done..|by constructor|]. cbn [existsb]. by rewrite Hb, orb_assoc.
    - destruct Hr as (Hall & -> & ->). split_and!; [by constructor|done|]. cbn [existsb]. by rewrite Hb. }
  unfold eligible in Hskip. destruct (elsewhere t it) eqn:He.
  { apply (Hskip true true); [done|done|by rewrite orb_true_r]. }
  destruct (executing st it) eqn:Hx.
  { apply (Hskip tk false); [done|done|by rewrite orb_false_r]. }
  exists (Some it), q, (negb (bool_decide (q = []))). split; [done|].
  exists [], q. split_and!; try done. unfold eligible. by rewrite He, Hx.
Qed.

(** ** One thread moves *)

Lemma wrap_delta a b c : wrap 64 (wrap 64 a + b - c) = wrap 64 (a + b - c).
Proof.
  unfold wrap. rewrite <- !Z.add_sub_assoc. by rewrite Zplus_mod_idemp_l.
Qed.

Lemma length_gather_insert {A} (f : worker C → list A) m t w w' :
  m !! t = Some w →
  Z.of_nat (length (gather f (<[t := w']> m))) =
  Z.of_nat (length (gather f m)) + Z.of_nat (length (f w')) - Z.of_nat (length (f w)).
Proof.
  intros Ht. destruct (gather_insert f m t w w' Ht) as (rest & H1 & H2).
  rewrite H1, H2, !length_app. lia.
Qed.

Lemma worker_update s s' t w w' new :
  inv s → workers s !! t = Some w → workers s' = <[t := w']> (workers s) →
  m_activeThreadCount s' = wrap 64 (m_activeThreadCount s
    + Z.of_nat (length (active_of w')) - Z.of_nat (length (active_of w))) →
  m_idleThreadCount s' = wrap 64 (m_idleThreadCount s
    + Z.of_nat (length (idle_of w')) - Z.of_nat (length (idle_of w))) →
  scheduled s' = scheduled s ++ new →
  m_fibers s' ++ picked_of w' ++ (started s').*2 ++ dropped s' ≡ₚ
    new ++ m_fibers s ++ picked_of w ++ (started s).*2 ++ dropped s →
  Forall (λ p, pin_ok p.1 p.2) (started s') →
  (∀ ft, w_phase w' = Picked ft → pin_ok t ft) →
  queue_ok (states s') (m_fibers s') →
  m_autoStop s' = m_autoStop s → m_stopping s' = m_stopping s →
  (idle_state w' = TERM → idle_state w = TERM ∨ told s) →
  (w_phase w' = Exited → idle_state w' = TERM) →
  inv s'.
Proof.
  intros [Ha Hi Ht Hst Hp Hq Hterm Hex Hsz] Hw Hw' Ea Ei Es Et Hst' Hp' Hq' Efa Efs Hit Hex'.
  assert (told s → told s') as Hdr by (unfold told; by rewrite Efa, Efs).
  split.
  - rewrite Ea, Ha, wrap_delta, Hw'. by rewrite (length_gather_insert _ _ _ _ _ Hw).
  - rewrite Ei, Hi, wrap_delta, Hw'. by rewrite (length_gather_insert _ _ _ _ _ Hw).
  - rewrite Es, Ht, Hw'. destruct (gather_insert picked_of _ t w w' Hw) as (rest & P1 & P2).
    rewrite P1, P2. transitivity (rest ++ (new ++ m_fibers s ++ picked_of w ++ (started s).*2 ++ dropped s));
      [solve_Permutation|]. rewrite <- Et. solve_Permutation.
  - done.
  - intros t' w0 ft. rewrite Hw'. intros [[<- <-]|[_ Hl]]%lookup_insert_Some; [apply Hp'|by apply Hp].
  - done.
  - intros t' w0. rewrite Hw'. intros [[<- <-]|[_ Hl]]%lookup_insert_Some Hidle.
    + apply Hdr. destruct (Hit Hidle); [by eapply Hterm|done].
    + apply Hdr. by eapply Hterm.
  - intros t' w0. rewrite Hw'. intros [[<- <-]|[_ Hl]]%lookup_insert_Some; [done|by eapply Hex].
  - rewrite Hw', map_size_insert, Hw. done.
Qed.

Lemma queue_ok_mono (st st' : gmap nat State) q :
  (∀ f, is_Some (st !! f) → is_Some (st' !! f)) → queue_ok st q → queue_ok st' q.
Proof. intros H Hq. eapply Forall_impl; [exact Hq|]. intros ft [? Hf]. split; [done|]. eauto. Qed.

Lemma states_insert (st : gmap nat State) f x g : is_Some (st !! g) → is_Some (<[f := x]> st !! g).
Proof. intros. apply lookup_insert_is_Some'. by right. Qed.

Lemma inv_schedule s ft : inv s → live s ft → inv (schedule ft s).
Proof.
  intros [Ha Hi Ht Hst Hp Hq Hterm Hex Hsz] Hl. unfold schedule, scheduleNoLock.
  destruct (nonempty ft) eqn:Hn.
  - set (s1 := log_scheduled ft (set_fibers (m_fibers s ++ [ft]) s)).
    assert (inv s1) as H1.
    { split; try done; cbn.
      - rewrite Ht. solve_Permutation.
      - apply Forall_app. split; [done|]. by repeat constructor. }
    unfold tickle_if. case_match; [|done]. by destruct H1.
  - unfold tickle_if. case_match; by split.
Qed.

(** The fields a step leaves alone. *)
Lemma tickle_if_inv b s : inv s → inv (tickle_if b s).
Proof. intros [?????????]. destruct b; by split. Qed.

Lemma phase_tickle t p w b s : set_phase t p w (tickle_if b s) = tickle_if b (set_phase t p w s).
Proof. by destruct b. Qed.

(** A counter a step leaves alone. *)
Lemma active_keep s : inv s → m_activeThreadCount s = wrap 64 (m_activeThreadCount s).
Proof. intros Hinv. rewrite (i_active s Hinv). unfold wrap. by rewrite Z.mod_mod. Qed.
Lemma idle_keep s : inv s → m_idleThreadCount s = wrap 64 (m_idleThreadCount s).
Proof. intros Hinv. rewrite (i_idle s Hinv). unfold wrap. by rewrite Z.mod_mod. Qed.

(** The goals [worker_update] leaves for a step from the phase [Hph] says. *)
Ltac moved Hinv Hph :=
  unfold active_of, idle_of, picked_of, set_phase; cbn; rewrite ?Hph; cbn;
  try first
    [ by destruct Hinv
    | by rewrite app_nil_r
    | rewrite Z.add_0_r, Z.sub_0_r; first [by apply active_keep|by apply idle_keep]
    | rewrite Z.add_simpl_r; first [by apply active_keep|by apply idle_keep]
    | f_equal; lia
    | by auto ].

Lemma pick_inv s t w s' :
  inv s → workers s !! t = Some w → w_phase w = Top → run_pick t w s = Ret tt s' → inv s'.
Proof.
  intros Hinv Hw Hph. unfold run_pick.
  destruct (scan_gen t (states s) (m_fibers s) false [] (i_queue s Hinv)) as (r & q' & tk & Hs & Hr).
  rewrite Hs. cbn [app orb].
  destruct r as [ft|]; intros [= <-]; rewrite phase_tickle; apply tickle_if_inv; cbn [scanned] in Hr.
  - destruct Hr as (pre & post & Hq & -> & He & _ & _).
    apply andb_true_iff in He as [He%negb_true_iff _]. apply elsewhere_false in He.
    eapply (worker_update s _ t w (Worker (Picked ft) (cb_fiber w) (idle_state w)) []); moved Hinv Hph.
    + rewrite Hq. solve_Permutation.
    + by intros ? [= <-].
    + pose proof (i_queue s Hinv) as Hqo. rewrite Hq in Hqo.
      apply Forall_app in Hqo as [? [_ ?]%Forall_cons]. by apply Forall_app.
  - destruct Hr as (_ & -> & _).
    eapply (worker_update s _ t w (Worker NoTask (cb_fiber w) (idle_state w)) []); moved Hinv Hph.
Qed.

Lemma swap_in_states s f s' :
  swap_in f s = Ret tt s' → s' = set_fstate f EXEC s.
Proof. unfold swap_in. repeat case_match; congruence. Qed.

(** Entering a task keeps the rest of the state. *)
Lemma enter_inv s s1 t w w' ft :
  inv s → workers s !! t = Some w → w_phase w = Picked ft →
  idle_state w' = idle_state w →
  (∃ f, w_phase w' = InFiber f ∨ w_phase w' = InCb f) →
  m_fibers s1 = m_fibers s → m_activeThreadCount s1 = m_activeThreadCount s →
  m_idleThreadCount s1 = m_idleThreadCount s → m_stopping s1 = m_stopping s →
  m_autoStop s1 = m_autoStop s → workers s1 = workers s → scheduled s1 = scheduled s →
  started s1 = started s → dropped s1 = dropped s →
  (∀ f, is_Some (states s !! f) → is_Some (states s1 !! f)) →
  inv (log_started t ft (set_worker t w' s1)).
Proof.
  intros Hinv Hw Hph Hid [f Hp'] E1 E2 E3 E4 E5 E6 E7 E8 E9 Hst.
  assert (pin_ok t ft) as Hpin by by eapply (i_picked s Hinv).
  assert (active_of w' = [tt] ∧ idle_of w' = [] ∧ picked_of w' = []) as (A1 & A2 & A3)
    by (unfold active_of, idle_of, picked_of; by destruct Hp' as [-> | ->]).
  eapply (worker_update s _ t w w' []); try done; cbn; rewrite ?A1, ?A2, ?A3.
  - by rewrite E6.
  - rewrite E2. moved Hinv Hph.
  - rewrite E3. moved Hinv Hph.
  - by rewrite E7, app_nil_r.
  - rewrite E1, E8, E9. unfold picked_of. rewrite Hph, fmap_app. cbn. solve_Permutation.
  - rewrite E8. apply Forall_app. split; [by destruct Hinv|]. by apply Forall_singleton.
  - intros ft'. destruct Hp'; congruence.
  - rewrite E1. eapply queue_ok_mono; [done|]. by destruct Hinv.
  - rewrite Hid. by left.
  - destruct Hp'; congruence.
Qed.

Lemma start_inv s t w ft s' :
  inv s → workers s !! t = Some w → w_phase w = Picked ft → run_start t w ft s = Ret tt s' → inv s'.
Proof.
  intros Hinv Hw Hph. unfold run_start. set (enter := match ft_cb ft with Some _ => _ | None => _ end).
  assert (enter s = Ret tt s' → inv s') as Hcb.
  { unfold enter. destruct (ft_cb ft); intros H.
    - apply bind_inv in H as (f & s1 & H1 & ([] & s2 & H2 & [= <-])%bind_inv).
      apply swap_in_states in H2 as ->.
      assert (∃ st g n, s1 = Sched (m_fibers s) (<[g := st]> (states s)) n (m_activeThreadCount s)
        (m_idleThreadCount s) (m_stopping s) (m_autoStop s) (workers s) (tickles s) (scheduled s)
        (started s) (dropped s)) as (st & g & n & ->).
      { destruct (cb_fiber w) as [f0|].
        - apply bind_inv in H1 as ([] & s3 & H3 & [= <- <-]). unfold reset_fiber in H3.
          exists INIT, f0, (next_fiber s). repeat case_match; by simplify_eq/=.
        - injection H1 as <- <-. eauto. }
      eapply enter_inv; try done; [eauto|]. intros x Hx. cbn. by do 2 apply states_insert.
    - injection H as <-.
      eapply (worker_update s _ t w (Worker Top (cb_fiber w) (idle_state w)) []); moved Hinv Hph.
      solve_Permutation. }
  unfold bind at 1, get. destruct (ft_fiber ft) as [f|]; [|done].
  destruct (states s !! f) as [st|]; [|done]. destruct (is_over st); [done|].
  intros ([] & s1 & H1 & [= <-])%bind_inv. apply swap_in_states in H1 as ->.
  eapply enter_inv; try done; [eauto|]. intros x Hx. by apply states_insert.
Qed.

(** A slice ends: only the state of its fiber changes. *)
Lemma slice_inv s t w f how p s' :
  inv s → workers s !! t = Some w → w_phase w = InFiber f ∨ w_phase w = InCb f →
  p = AfterFiber f ∨ p = AfterCb f → slice_end t w f how p s = Ret tt s' → inv s'.
Proof.
  intros Hinv Hw Hph Hp [= <-].
  assert (active_of w = [tt] ∧ idle_of w = [] ∧ picked_of w = []) as (A1 & A2 & A3)
    by (unfold active_of, idle_of, picked_of; by destruct Hph as [-> | ->]).
  eapply (worker_update s _ t w (Worker p (cb_fiber w) (idle_state w)) []); try done; rewrite ?A1, ?A2, ?A3.
  - destruct Hp as [-> | ->]; moved Hinv A1.
  - destruct Hp as [-> | ->]; moved Hinv A1.
  - moved Hinv A1.
  - by destruct Hp as [-> | ->].
  - by destruct Hinv.
  - intros ft. by destruct Hp as [-> | ->].
  - eapply queue_ok_mono; [by intros; apply states_insert|]. by destruct Hinv.
  - by left.
  - by destruct Hp as [-> | ->].
Qed.

(** The thread is no longer counted as active. *)
Lemma run_after_inv s t w f s' :
  inv s → workers s !! t = Some w →
  (w_phase w = AfterFiber f ∧ run_after_fiber t w f s = Ret tt s' ∨
   w_phase w = AfterCb f ∧ run_after_cb t w f s = Ret tt s') → inv s'.
Proof.
  intros Hinv Hw [[Hph [= <-]]|[Hph [= <-]]].
  - eapply (worker_update s _ t w (Worker (LeftFiber f) (cb_fiber w) (idle_state w)) []); moved Hinv Hph.
  - eapply (worker_update s _ t w (Worker (LeftCb f) (cb_fiber w) (idle_state w)) []); moved Hinv Hph.
Qed.

(** Back in the loop, whatever is written to the fiber's state and whatever is
    rescheduled. *)
Lemma left_inv s t w f w' (st : gmap nat State) (re : bool) (b : bool) :
  inv s → workers s !! t = Some w → w_phase w = LeftFiber f ∨ w_phase w = LeftCb f →
  w_phase w' = Top → idle_state w' = idle_state w → is_Some (states s !! f) →
  (∀ g, is_Some (states s !! g) → is_Some (st !! g)) →
  let ft := Ft (Some f) None (-1) in
  inv (tickle_if b (Sched (m_fibers s ++ (if re then [ft] else [])) st (next_fiber s)
    (m_activeThreadCount s) (m_idleThreadCount s) (m_stopping s) (m_autoStop s)
    (<[t := w']> (workers s)) (tickles s) (scheduled s ++ (if re then [ft] else []))
    (started s) (dropped s))).
Proof.
  intros Hinv Hw Hph Hp Hid Hf Hst ft. apply tickle_if_inv.
  assert (active_of w = [] ∧ idle_of w = [] ∧ picked_of w = []) as (A1 & A2 & A3)
    by (unfold active_of, idle_of, picked_of; by destruct Hph as [-> | ->]).
  eapply (worker_update s _ t w w' (if re then [ft] else [])); try done; cbn; rewrite ?A1, ?A2, ?A3.
  - unfold active_of. rewrite Hp. moved Hinv A1.
  - unfold idle_of. rewrite Hp. moved Hinv A1.
  - unfold picked_of. rewrite Hp. solve_Permutation.
  - by destruct Hinv.
  - congruence.
  - apply Forall_app. split; [eapply queue_ok_mono; [done|]; by destruct Hinv|].
    destruct re; [|done]. apply Forall_singleton. split; [done|]. intros g [= <-]. by apply Hst.
  - rewrite Hid. by left.
  - congruence.
Qed.

Lemma run_left_inv s t w f s' :
  inv s → workers s !! t = Some w →
  (w_phase w = LeftFiber f ∧ run_left_fiber t w f s = Ret tt s' ∨
   w_phase w = LeftCb f ∧ run_left_cb t w f s = Ret tt s') → inv s'.
Proof.
  intros Hinv Hw Hrun.
  assert (w_phase w = LeftFiber f ∨ w_phase w = LeftCb f) as Hph by (destruct Hrun as [[? _]|[? _]]; auto).
  assert (∀ x, ∀ g, is_Some (states s !! g) → is_Some (<[f := x]> (states s) !! g)) as Hins
    by (intros; by apply states_insert).
  pose proof (λ w' st re b, left_inv s t w f w' st re b Hinv Hw Hph) as Hafter. clear Hph.
  pose proof (λ w' st b, Hafter w' st true b) as Hre.
  assert (∀ w' st, w_phase w' = Top → idle_state w' = idle_state w → is_Some (states s !! f) →
    (∀ g, is_Some (states s !! g) → is_Some (st !! g)) →
    inv (Sched (m_fibers s) st (next_fiber s) (m_activeThreadCount s)
      (m_idleThreadCount s) (m_stopping s) (m_autoStop s) (<[t := w']> (workers s)) (tickles s)
      (scheduled s) (started s) (dropped s))) as Hno.
  { intros w' st H1 H2 H3 H4. pose proof (Hafter w' st false false H1 H2 H3 H4) as H.
    cbn in H. by rewrite !app_nil_r in H. }
  clear Hafter. set (wt := Worker (C:=C) Top (cb_fiber w) (idle_state w)).
  destruct Hrun as [[_ Hrun]|[_ Hrun]].
  - unfold run_left_fiber in Hrun. cbn in Hrun.
    destruct (states s !! f) as [st|] eqn:Hf; [|done].
    destruct st; injection Hrun as <-;
      try (apply (Hno wt); first [done|apply Hins]).
    unfold schedule, scheduleNoLock. cbn [nonempty]. rewrite phase_tickle.
    by apply (Hre wt).
  - unfold run_left_cb in Hrun. cbn in Hrun.
    destruct (states s !! f) as [st|] eqn:Hf; [|done].
    destruct st; unfold bind, reset_fiber in Hrun; cbn in Hrun; rewrite ?Hf in Hrun;
      injection Hrun as <-;
      try (apply (Hno wt); first [done|apply Hins]);
      try (apply (Hno (Worker (C:=C) Top None (idle_state w))); first [done|apply Hins]).
    unfold schedule, scheduleNoLock. cbn [nonempty]. rewrite phase_tickle.
    by apply (Hre wt).
Qed.

Lemma gather_le (f : worker C → list unit) (m : gmap Z (worker C)) :
  (∀ w, length (f w) ≤ 1)%nat → (length (gather f m) ≤ size m)%nat.
Proof.
  intros Hf. unfold gather. rewrite <- length_map_to_list.
  induction (map_to_list m) as [|[k w] l IH]; [done|]. cbn [flat_map length]. rewrite length_app.
  specialize (Hf w). cbn [snd]. lia.
Qed.

Lemma active_le (m : gmap Z (worker C)) : (length (gather active_of m) ≤ size m)%nat.
Proof. apply gather_le. intros w. unfold active_of. case_match; simpl; lia. Qed.

Lemma idle_le (m : gmap Z (worker C)) : (length (gather idle_of m) ≤ size m)%nat.
Proof. apply gather_le. intros w. unfold idle_of. case_match; simpl; lia. Qed.

Lemma idle_round_inv s t w s' :
  inv s → workers s !! t = Some w →
  (w_phase w = NoTask ∧ run_idle t w s = Ret tt s' ∨
   w_phase w = InIdle ∧ idle t w s = Ret tt s' ∨
   w_phase w = AfterIdle ∧ run_after_idle t w s = Ret tt s') → inv s'.
Proof.
  intros Hinv Hw [[Hph Hrun]|[[Hph Hrun]|[Hph Hrun]]]. all: pose proof (i_size s Hinv) as Hsz.
  - unfold run_idle in Hrun. destruct (idle_state w) eqn:Hid; simplify_eq;
      eapply (worker_update s _ t w _ []); moved Hinv Hph.
  - injection Hrun as <-. eapply (worker_update s _ t w _ []); moved Hinv Hph.
    intros Hterm. destruct (stopping s) eqn:Hst; [|done]. right.
    unfold stopping in Hst. by apply andb_true_iff in Hst as [[[H1 H2]%andb_true_iff _]%andb_true_iff _].
  - injection Hrun as <-. eapply (worker_update s _ t w _ []); moved Hinv Hph.
    case_match eqn:Ho; [by left|done].
Qed.

Lemma sched_step_inv s s' : inv s → step s s' → inv s'.
Proof.
  intros Hinv Hstep.
  destruct Hstep as [t w s' Hw Hrun|t w f how s' Hw Hph _ Hrun|t w f how s' Hw Hph _ Hrun
    |t w f ft Hw Hph Hl|ft Hfl Hl|f s' Hrun|b s' Hrun].
  - unfold run_step in Hrun. destruct (w_phase w) eqn:Hph; try done.
    + by eapply pick_inv.
    + by eapply start_inv.
    + eapply run_after_inv; eauto.
    + eapply run_left_inv; eauto.
    + eapply run_after_inv; eauto.
    + eapply run_left_inv; eauto.
    + eapply idle_round_inv; eauto.
    + eapply idle_round_inv; eauto.
    + eapply idle_round_inv; eauto.
  - by apply (slice_inv s t w f how (AfterFiber f)); auto.
  - by apply (slice_inv s t w f how (AfterCb f)); auto.
  - by apply inv_schedule.
  - by apply inv_schedule.
  - injection Hrun as <- <-. destruct Hinv as [????? Hq ???]. split; try done.
    eapply queue_ok_mono; [|done]. intros g Hg. by apply states_insert.
  - injection Hrun as _ <-. generalize (size (workers s) + 0)%nat as n.
    assert (inv (set_flags true true s)) as H1.
    { destruct Hinv as [?????? Hterm ??]. by split. }
    intros n. induction n as [|n IH]; [done|]. cbn [Nat.iter]. by apply (tickle_if_inv true).
Qed.

Definition fresh_workers (m : gmap Z (worker C)) : Prop :=
  ∀ t w, m !! t = Some w → w = Worker Top None INIT.

Lemma gather_fresh {A} (f : worker C → list A) m :
  fresh_workers m → f (Worker Top None INIT) = [] → gather f m = [].
Proof.
  intros Hm Hf. unfold gather.
  assert (Forall (λ kv : Z * worker C, f kv.2 = []) (map_to_list m)) as Hall.
  { apply Forall_forall. intros [t w] Ht%elem_of_map_to_list. cbn. by rewrite (Hm t w Ht). }
  induction Hall as [|kv l Hkv _ IH]; [done|]. cbn [flat_map]. by rewrite Hkv, IH.
Qed.

Lemma start_state (ids : list Z) :
  ∃ m, start ids new_sched = Ret tt (Sched (C:=C) [] ∅ 0 0 0 false false m 0 [] [] []) ∧
    fresh_workers m ∧ (size m ≤ length ids)%nat ∧ ∀ t, t ∈ ids → is_Some (m !! t).
Proof.
  unfold start, new_sched. cbn. rewrite bool_decide_eq_true_2 by done.
  induction ids as [|t ids (m & IH & Hm & Hsz & Hin)]; cbn.
  - exists ∅. split_and!; [done|intros ??; by rewrite lookup_empty|done|set_solver].
  - injection IH as ->. exists (<[t := Worker Top None INIT]> m). split_and!; [done|..].
    + intros t' w [[<- <-]|[_ Hw]]%lookup_insert_Some; [done|by eapply Hm].
    + rewrite map_size_insert. case_match; unfold id; lia.
    + intros t' [->|Ht]%elem_of_cons; apply lookup_insert_is_Some'; [by left|right; auto].
Qed.

Lemma reachable_inv ids s :
  Z.of_nat (length ids) < 2 ^ 64 → reachable ids s → inv s.
Proof.
  intros Hlen (s0 & Hs0 & Hsteps). destruct (start_state ids) as (m & Hs & Hm & Hsz & _).
  rewrite Hs in Hs0. injection Hs0 as <-.
  assert (inv (Sched (C:=C) [] ∅ 0 0 0 false false m 0 [] [] [])) as Hinv.
  { split; cbn; rewrite ?(gather_fresh _ m Hm) by done; try done.
    - intros t w ft Hw. rewrite (Hm t w Hw). done.
    - constructor.
    - intros t w Hw. rewrite (Hm t w Hw). done.
    - intros t w Hw. rewrite (Hm t w Hw). done.
    - lia. }
  clear Hs Hm Hsz. induction Hsteps as [|x y z Hxy _ IH]; [done|]. apply IH. by eapply sched_step_inv.
Qed.

Lemma picked_le_active (m : gmap Z (worker C)) :
  (length (gather picked_of m) ≤ length (gather active_of m))%nat.
Proof.
  unfold gather. induction (map_to_list m) as [|[t w] l IH]; [done|]. cbn [flat_map].
  rewrite !length_app. cbn [snd].
  assert (length (picked_of w) ≤ length (active_of w))%nat
    by (unfold picked_of, active_of; case_match; simpl; lia). lia.
Qed.

(** ** Executions that can be computed *)
Inductive event :=
| ERun (t : Z)
| EEnd (t : Z) (how : State)
| ESpawn (t : Z) (ft : FiberAndThread C)
| ESchedule (ft : FiberAndThread C)
| ENew
| EStop.

Definition slice_ok (how : State) : bool :=
  bool_decide (how = READY ∨ how = HOLD ∨ how = TERM ∨ how = EXCEPT).
Definition live_b (s : sched C) (ft : FiberAndThread C) : bool :=
  match ft_fiber ft with
  | Some f => bool_decide (is_Some (states s !! f))
  | None => true
  end.
Definition done_state (r : outcome (sched C) unit) : option (sched C) :=
  match r with Ret _ s => Some s | _ => None end.

Definition play1 (e : event) (s : sched C) : option (sched C) :=
  match e with
  | ERun t => w ← workers s !! t; done_state (run_step t w s)
  | EEnd t how =>
      w ← workers s !! t;
      match w_phase w with
      | InFiber f => if slice_ok how then done_state (slice_end t w f how (AfterFiber f) s) else None
      | InCb f => if slice_ok how then done_state (slice_end t w f how (AfterCb f) s) else None
      | _ => None
      end
  | ESpawn t ft =>
      w ← workers s !! t;
      match w_phase w with
      | InFiber _ | InCb _ => if live_b s ft then Some (schedule ft s) else None
      | _ => None
      end
  | ESchedule ft =>
      if negb (m_autoStop s && m_stopping s) && live_b s ft then Some (schedule ft s) else None
  | ENew => match new_cb_fiber s with Ret _ s' => Some s' | _ => None end
  | EStop => match stop None false s with Ret _ s' => Some s' | _ => None end
  end.

Fixpoint play (es : list event) (s : sched C) : option (sched C) :=
  match es with [] => Some s | e :: es => s' ← play1 e s; play es s' end.

Lemma done_state_Ret r s : done_state r = Some s → r = Ret tt s.
Proof. destruct r as [[]| |]; simpl; congruence. Qed.

Lemma live_b_live s ft : live_b s ft = true → live s ft.
Proof. intros Hl f Ef. unfold live_b in Hl. rewrite Ef in Hl. by apply bool_decide_eq_true in Hl. Qed.

Lemma play1_step e s s' : play1 e s = Some s' → step s s'.
Proof.
  destruct e as [t|t how|t ft|ft| |]; cbn [play1].
  - intros (w & Hw & H)%bind_Some. apply done_state_Ret in H. by eapply step_run.
  - intros (w & Hw & H)%bind_Some. destruct (w_phase w) eqn:Hph; try done;
      (destruct (slice_ok how) eqn:Ho; [|done]); apply bool_decide_eq_true in Ho;
      apply done_state_Ret in H; [by eapply step_fiber_end|by eapply step_cb_end].
  - intros (w & Hw & H)%bind_Some. destruct (w_phase w) eqn:Hph; try done;
      (destruct (live_b s ft) eqn:Hl; [|done]); injection H as <-;
      (eapply step_spawn; [done|by eauto|by apply live_b_live]).
  - case_match eqn:Hc; [|done]. intros [= <-]. apply andb_true_iff in Hc as [Hf%negb_true_iff Hl].
    apply step_external; [done|by apply live_b_live].
  - intros [= <-]. by eapply step_new.
  - case_match eqn:Hs; intros [= <-]. by eapply step_stop.
Qed.

Lemma play_steps es s s' : play es s = Some s' → rtc step s s'.
Proof.
  revert s. induction es as [|e es IH]; intros s; cbn [play]; [by intros [= <-]|].
  intros (s1 & H1 & H2)%bind_Some. eapply rtc_l; [by eapply play1_step|by apply IH].
Qed.

(** ** The theorems *)

(** C13. In every execution of a scheduler, whatever its threads, tasks and
    interleavings: the active count is the number of threads between taking a
    task and giving themselves back, the idle count the number of threads in
    the idle fiber; every task ever scheduled is in exactly one place, waiting
    in the queue, taken by a thread, entered once, or discarded because its
    fiber was already over; and a task pinned to a thread only runs there. *)
Theorem tasks_conserved ids s :
  Z.of_nat (length ids) < 2 ^ 64 → reachable ids s →
  m_activeThreadCount s = Z.of_nat (length (gather active_of (workers s))) ∧
  m_idleThreadCount s = Z.of_nat (length (gather idle_of (workers s))) ∧
  scheduled s ≡ₚ m_fibers s ++ gather picked_of (workers s) ++ (started s).*2 ++ dropped s ∧
  Forall (λ p, ft_thread p.2 = -1 ∨ ft_thread p.2 = p.1) (started s).
Proof.
  intros Hlen Hr. pose proof (reachable_inv ids s Hlen Hr) as Hinv.
  pose proof (i_size s Hinv) as Hsz.
  split; [|split; [|split]].
  - rewrite (i_active s Hinv). apply wrap_small. unfold in_u.
    pose proof (active_le (workers s)). lia.
  - rewrite (i_idle s Hinv). apply wrap_small. unfold in_u.
    pose proof (idle_le (workers s)). lia.
  - by destruct Hinv.
  - by destruct Hinv.
Qed.

(** The scan of a well-formed queue never fails its assertion and takes the
    first task this thread may run, neither pinned to another thread nor
    executing, leaving all others in their order; other threads are tickled
    exactly when a task pinned elsewhere was passed over or tasks remain behind
    the one taken. *)
Theorem scan_correct t st q :
  queue_ok st q → ∃ r q' tickle_me,
    scan t st false [] q = Some (r, q', tickle_me) ∧ scanned t st q r q' tickle_me.
Proof.
  intros Hq. destruct (scan_gen t st q false [] Hq) as (r & q' & tk & Hs & Hr). eauto.
Qed.

End steps.

(** ** Computed executions *)
Definition started_sched (ids : list Z) : sched Z :=
  match start ids new_sched with Ret _ s => s | _ => new_sched end.

Definition play_or (es : list (event (C:=Z))) (ids : list Z) : sched Z :=
  default new_sched (play es (started_sched ids)).

Definition a_cb (n thread : Z) : FiberAndThread Z := Ft None (Some n) thread.
Definition a_fiber (f : nat) : FiberAndThread Z := Ft (Some f) None (-1).

Lemma play_reachable es ids s :
  play es (started_sched ids) = Some s → start ids new_sched = Ret tt (started_sched ids) →
  reachable ids s.
Proof. intros Hp Hs. exists (started_sched ids). split; [done|]. by eapply play_steps. Qed.

(** Two callbacks, one pinned to thread 2, run; then the scheduler is stopped
    and thread 1 leaves its loop. *)
Definition two_tasks : list (event (C:=Z)) :=
  [ESchedule (a_cb 10 2); ESchedule (a_cb 20 (-1));
   ERun 1; ERun 1; EEnd 1 TERM; ERun 1; ERun 1; ERun 2; ERun 2; EEnd 2 TERM; ERun 2; ERun 2; EStop;
   ERun 1; ERun 1; ERun 1; ERun 1; ERun 1; ERun 1].

Definition two_tasks_end : sched Z := play_or two_tasks [1; 2].

Lemma tasks_conserved_witness :
  started two_tasks_end = [(1, a_cb 20 (-1)); (2, a_cb 10 2)] ∧
  m_activeThreadCount two_tasks_end = Z.of_nat (length (gather active_of (workers two_tasks_end))) ∧
  m_idleThreadCount two_tasks_end = Z.of_nat (length (gather idle_of (workers two_tasks_end))) ∧
  scheduled two_tasks_end ≡ₚ m_fibers two_tasks_end ++ gather picked_of (workers two_tasks_end)
    ++ (started two_tasks_end).*2 ++ dropped two_tasks_end ∧
  Forall (λ p, ft_thread p.2 = -1 ∨ ft_thread p.2 = p.1) (started two_tasks_end).
Proof.
  split; [by vm_compute|]. apply (tasks_conserved [1; 2]); [done|].
  apply (play_reachable two_tasks); by vm_compute.
Defined.

(** Thread 1 passes over a task pinned to thread 2 and an executing fiber. *)
Lemma scan_correct_witness :
  let st := {[ 5%nat := EXEC ]} in
  let q := [a_cb 10 2; a_fiber 5; a_cb 20 (-1); a_cb 30 (-1)] in
  scan 1 st false [] q = Some (Some (a_cb 20 (-1)), [a_cb 10 2; a_fiber 5; a_cb 30 (-1)], true) ∧
  ∃ r q' tickle_me, scan 1 st false [] q = Some (r, q', tickle_me) ∧ scanned 1 st q r q' tickle_me.
Proof.
  cbv zeta. split; [by vm_compute|]. apply scan_correct.
  repeat apply Forall_cons_2; try apply Forall_nil_2; (split; [done|]); intros f Hf;
    cbn in Hf; simplify_eq; by eexists.
Defined.

(** ** Divergences *)

(** A callback that yields with READY leaves its fiber behind as the
    thread's [cb_fiber]; when the same thread then takes another callback, its
    [cb_fiber->reset(cb)] fails the assertion on the fiber's state and the process
    aborts.  Two callbacks on one thread suffice. *)
Theorem yield_ready_aborts :
  ∃ s w, reachable [1] s ∧ workers s !! 1 = Some w ∧
    w_phase w = Picked (a_cb 20 (-1)) ∧ run_step 1 w s = UB.
Proof.
  set (es := [ESchedule (a_cb 10 (-1)); ESchedule (a_cb 20 (-1));
    ERun 1; ERun 1; EEnd 1 READY; ERun 1; ERun 1; ERun 1]).
  exists (play_or es [1]), (Worker (Picked (a_cb 20 (-1))) (Some 0%nat) INIT).
  split; [apply (play_reachable es); by vm_compute|]. split; [by vm_compute|]. split; [done|].
  by vm_compute.
Qed.

(** One fiber can run on two threads at once.  When a fiber has yielded with
    HOLD it may be scheduled and entered by a second thread before the first one
    is done with it; the first thread then overwrites the state EXEC with HOLD,
    and a third [schedule] of the fiber is taken although it executes. *)
Theorem hold_race :
  ∃ (s : sched Z) w1 w2, reachable [1; 2] s ∧ workers s !! 1 = Some w1 ∧ workers s !! 2 = Some w2 ∧
    w_phase w1 = InFiber 0 ∧ w_phase w2 = InFiber 0.
Proof.
  set (es := [ENew; ESchedule (a_fiber 0); ERun 1; ERun 1; EEnd 1 HOLD;
    ESchedule (a_fiber 0); ERun 2; ERun 2; ERun 1; ERun 1;
    ESchedule (a_fiber 0); ERun 1; ERun 1]).
  exists (play_or es [1; 2]), (Worker (InFiber 0) None INIT), (Worker (InFiber 0) None INIT).
  split; [apply (play_reachable es); by vm_compute|]. split; [by vm_compute|]. split; [by vm_compute|].
  done.
Qed.

End Scheduler.
