(* ===== verification/Fdmanager.v ===== *)
(** * fd_manager: per-descriptor contexts (src/bobliew/fd_manager.{h,cc})

    The table from descriptors to shared [FdCtx] objects that the hooked system
    calls consult.  A context is reached through [shared_ptr]s from the table and
    from its users alike, so the contexts live in a heap and the table holds
    references.  Of the kernel the model keeps what [fstat] and [fcntl] see:
    which descriptors are open, which of them are sockets, and their flags. *)

From S2P Require Import Prelude.

Module FdManager.

Definition O_NONBLOCK : Z := 2048.
Definition SO_RCVTIMEO : Z := 20.
Definition SO_SNDTIMEO : Z := 21.

Record FdCtx := MkCtx {
  m_isInit : bool;
  m_isSocket : bool;
  m_sysNonblock : bool;
  m_isClosed : bool;
  m_userNonblock : bool;
  m_fd : Z;
  m_recvTimeout : Z;
  m_sendTimeout : Z
}.

(** An open descriptor: whether it is a socket, and its status flags. *)
Record kfile := KFile { is_sock : bool; fl : Z }.

Record fds := Fds {
  kernel : gmap Z kfile;
  heap : gmap nat FdCtx;
  next : nat;
  m_datas : list (option nat)
}.

Definition set_kernel (k : gmap Z kfile) (s : fds) : fds := Fds k (heap s) (next s) (m_datas s).
Definition set_heap (h : gmap nat FdCtx) (s : fds) : fds := Fds (kernel s) h (next s) (m_datas s).
Definition set_datas (d : list (option nat)) (s : fds) : fds := Fds (kernel s) (heap s) (next s) d.

(** [fcntl_f(fd, F_GETFL, 0)] and [fcntl_f(fd, F_SETFL, flags)] *)
Definition getfl (fd : Z) (k : gmap Z kfile) : Z := from_option fl (-1) (k !! fd).
Definition setfl (fd v : Z) (k : gmap Z kfile) : gmap Z kfile :=
  match k !! fd with Some f => <[fd := KFile (is_sock f) v]> k | None => k end.

(** [FdCtx::init] *)
Definition init (c : FdCtx) (k : gmap Z kfile) : bool * FdCtx * gmap Z kfile :=
  if m_isInit c then (true, c, k)
  else
    let '(isInit, isSocket) :=
      match k !! m_fd c with
      | None => (false, false)
      | Some f => (true, is_sock f)
      end in
    let '(sysNonblock, k) :=
      if isSocket then
        let flags := getfl (m_fd c) k in
        (true, if Z.land flags O_NONBLOCK =? 0 then setfl (m_fd c) (Z.lor flags O_NONBLOCK) k else k)
      else (false, k) in
    (isInit, MkCtx isInit isSocket sysNonblock false false (m_fd c) (2 ^ 64 - 1) (2 ^ 64 - 1), k).

(** [FdCtx::FdCtx] *)
Definition new_FdCtx (fd : Z) (k : gmap Z kfile) : FdCtx * gmap Z kfile :=
  let '(_, c, k) := init (MkCtx false false false false false fd (2 ^ 64 - 1) (2 ^ 64 - 1)) k in
  (c, k).

Definition ctx_setTimeout (type v : Z) (c : FdCtx) : FdCtx :=
  if type =? SO_RCVTIMEO then
    MkCtx (m_isInit c) (m_isSocket c) (m_sysNonblock c) (m_isClosed c) (m_userNonblock c) (m_fd c)
      v (m_sendTimeout c)
  else
    MkCtx (m_isInit c) (m_isSocket c) (m_sysNonblock c) (m_isClosed c) (m_userNonblock c) (m_fd c)
      (m_recvTimeout c) v.

Definition ctx_getTimeout (type : Z) (c : FdCtx) : Z :=
  if type =? SO_RCVTIMEO then m_recvTimeout c else m_sendTimeout c.

Definition ctx_setUserNonblock (v : bool) (c : FdCtx) : FdCtx :=
  MkCtx (m_isInit c) (m_isSocket c) (m_sysNonblock c) (m_isClosed c) v (m_fd c)
    (m_recvTimeout c) (m_sendTimeout c).

Definition ctx_setSysNonblock (v : bool) (c : FdCtx) : FdCtx :=
  MkCtx (m_isInit c) (m_isSocket c) v (m_isClosed c) (m_userNonblock c) (m_fd c)
    (m_recvTimeout c) (m_sendTimeout c).

(** A member call through a [shared_ptr] *)
Definition on_ctx (r : nat) (f : FdCtx → FdCtx) : M fds unit := λ s,
  match heap s !! r with
  | Some c => Ret tt (set_heap (<[r := f c]> (heap s)) s)
  | None => UB
  end.
Definition setTimeout (r : nat) (type v : Z) : M fds unit := on_ctx r (ctx_setTimeout type v).
Definition setUserNonblock (r : nat) (v : bool) : M fds unit := on_ctx r (ctx_setUserNonblock v).
Definition getTimeout (r : nat) (type : Z) : M fds Z := λ s,
  match heap s !! r with Some c => Ret (ctx_getTimeout type c) s | None => UB end.

(** [FdManager::FdManager] *)
Definition new_fds (k : gmap Z kfile) : fds := Fds k ∅ 0 (replicate 64 None).

Definition size (s : fds) : Z := Z.of_nat (length (m_datas s)).

(** [m_datas.resize(n)] *)
Definition resize_datas (n : Z) (d : list (option nat)) : list (option nat) :=
  resize (Z.to_nat n) None d.

(** The first half of [get], under the read lock: the answer, if there is one
    already.  An index below 0 reads outside the vector. *)
Definition get_read (fd : Z) (auto_create : bool) : M fds (option (option nat)) := λ s,
  if fd =? -1 then Ret (Some None) s
  else if size s <=? fd then Ret (if negb auto_create then Some None else None) s
  else
    match (if fd <? 0 then None else m_datas s !! Z.to_nat fd) with
    | None => UB
    | Some d => Ret (if bool_decide (is_Some d) || negb auto_create then Some d else None) s
    end.

(** The second half, under the write lock; [m_datas[fd] = ctx] past the end is
    out of bounds ([fd * 1.5] is truncated to an integer). *)
Definition get_write (fd : Z) : M fds (option nat) := λ s,
  let '(c, k) := new_FdCtx fd (kernel s) in
  let r := next s in
  let d := if size s <=? fd then resize_datas (fd * 3 / 2) (m_datas s) else m_datas s in
  if (0 <=? fd) && (fd <? Z.of_nat (length d)) then
    Ret (Some r) (Fds k (<[r := c]> (heap s)) (S r) (<[Z.to_nat fd := Some r]> d))
  else UB.

(** [FdManager::get] *)
Definition get (fd : Z) (auto_create : bool) : M fds (option nat) :=
  let! r := get_read fd auto_create in
  match r with
  | Some d => ret d
  | None => get_write fd
  end.

(** [FdManager::del] *)
Definition del (fd : Z) : M fds unit := λ s,
  if size s <=? fd then Ret tt s
  else if fd <? 0 then UB
  else Ret tt (set_datas (<[Z.to_nat fd := None]> (m_datas s)) s).

(** ** Specification *)

(** What the table says of a descriptor. *)
Definition entry (s : fds) (fd : Z) : option nat :=
  if fd <? 0 then None else mjoin (m_datas s !! Z.to_nat fd).

Record inv (s : fds) : Prop := MkInv {
  inv_size : 64 ≤ size s;
  inv_next : ∀ r, is_Some (heap s !! r) → (r < next s)%nat;
  inv_entry : ∀ fd r, entry s fd = Some r → ∃ c, heap s !! r = Some c ∧ m_fd c = fd;
  inv_nonblock : ∀ fd r c, entry s fd = Some r → heap s !! r = Some c → m_isSocket c = true →
    m_sysNonblock c = true
}.

Lemma entry_insert s fd fd' d x :
  0 ≤ fd < Z.of_nat (length d) →
  entry (set_datas (<[Z.to_nat fd := x]> d) s) fd' =
  if decide (fd' = fd) then x else entry (set_datas d s) fd'.
Proof.
  intros Hfd. unfold entry. cbn. case_decide as E.
  - subst. rewrite (proj2 (Z.ltb_ge _ _)) by lia. by rewrite list_lookup_insert_eq by lia.
  - destruct (Z.ltb_spec fd' 0); [done|]. by rewrite list_lookup_insert_ne by lia.
Qed.

Lemma entry_resize s fd n :
  size s ≤ n → entry (set_datas (resize_datas n (m_datas s)) s) fd = entry s fd.
Proof.
  intros Hn. unfold entry, resize_datas, size in *. cbn. destruct (Z.ltb_spec fd 0); [done|].
  destruct (decide (Z.to_nat fd < length (m_datas s))%nat).
  - by rewrite lookup_resize by lia.
  - rewrite (lookup_ge_None_2 (m_datas s)) by lia.
    destruct (decide (Z.to_nat fd < Z.to_nat n)%nat).
    + by rewrite lookup_resize_new by lia.
    + by rewrite lookup_resize_old by lia.
Qed.

(** What a new context records of its descriptor. *)
Lemma new_FdCtx_spec fd k :
  let '(c, k') := new_FdCtx fd k in
  m_fd c = fd ∧ m_isInit c = bool_decide (is_Some (k !! fd)) ∧
  m_isSocket c = from_option is_sock false (k !! fd) ∧ m_sysNonblock c = m_isSocket c ∧
  m_isClosed c = false ∧ m_userNonblock c = false ∧
  m_recvTimeout c = 2 ^ 64 - 1 ∧ m_sendTimeout c = 2 ^ 64 - 1 ∧
  (m_isSocket c = true → Z.testbit (getfl fd k') 11 = true) ∧
  (∀ fd', fd' ≠ fd → k' !! fd' = k !! fd').
Proof.
  unfold new_FdCtx, init. cbn. destruct (k !! fd) as [f|] eqn:Hk; [|done].
  destruct (is_sock f) eqn:Hs; [|done]. split_and!; try done; cbn.
  - intros _. unfold getfl. rewrite Hk. cbn [from_option]. destruct (Z.eqb_spec (Z.land (fl f) O_NONBLOCK) 0) as [E|E].
    + unfold setfl. rewrite Hk, lookup_insert_eq.
      change (Z.testbit (Z.lor (fl f) (2 ^ 11)) 11 = true). by rewrite Z.lor_spec, orb_true_r.
    + rewrite Hk. cbn [from_option]. destruct (Z.testbit (fl f) 11) eqn:Hb; [done|]. destruct E.
      change O_NONBLOCK with (2 ^ 11). apply Z.bits_inj'. intros n Hn.
      rewrite Z.land_spec, Z.bits_0, Z.pow2_bits_eqb by lia.
      destruct (Z.eqb_spec 11 n) as [<-|]; [by rewrite Hb|by rewrite andb_false_r].
  - intros fd' Hne. case_match; [|done]. unfold setfl. rewrite Hk. by rewrite lookup_insert_ne.
Qed.

Lemma get_read_spec fd s :
  inv s → 0 ≤ fd →
  get_read fd false s = Ret (Some (entry s fd)) s ∧
  get_read fd true s = Ret (match entry s fd with Some r => Some (Some r) | None => None end) s.
Proof.
  intros Hinv Hfd. unfold get_read, entry. rewrite (proj2 (Z.eqb_neq _ _)) by lia.
  rewrite (proj2 (Z.ltb_ge _ _)) by lia. unfold size.
  destruct (Z.leb_spec (Z.of_nat (length (m_datas s))) fd).
  - by rewrite lookup_ge_None_2 by lia.
  - destruct (lookup_lt_is_Some_2 (m_datas s) (Z.to_nat fd)) as [d Hd]; [lia|]. rewrite Hd. cbn.
    by destruct d.
Qed.

(** The table [get] writes to is long enough, and only gained empty slots. *)
Definition grown (fd : Z) (s : fds) : list (option nat) :=
  if size s <=? fd then resize_datas (fd * 3 / 2) (m_datas s) else m_datas s.

Lemma grown_spec fd s :
  inv s → 0 ≤ fd →
  fd < Z.of_nat (length (grown fd s)) ∧ size s ≤ Z.of_nat (length (grown fd s)) ∧
  ∀ fd', entry (set_datas (grown fd s) s) fd' = entry s fd'.
Proof.
  intros Hinv Hfd. pose proof (inv_size s Hinv) as Hsz. unfold grown.
  destruct (Z.leb_spec (size s) fd) as [Hle|Hlt].
  - assert (fd + 1 ≤ fd * 3 / 2) by (apply Z.div_le_lower_bound; lia).
    unfold resize_datas at 1 2. rewrite length_resize. split_and!; [lia|lia|].
    intros fd'. apply entry_resize. lia.
  - unfold size in *. split_and!; [lia|lia|]. intros fd'. by destruct s.
Qed.

Lemma get_write_spec fd s :
  inv s → 0 ≤ fd →
  let '(c, k) := new_FdCtx fd (kernel s) in
  get_write fd s = Ret (Some (next s))
    (Fds k (<[next s := c]> (heap s)) (S (next s)) (<[Z.to_nat fd := Some (next s)]> (grown fd s))).
Proof.
  intros Hinv Hfd. destruct (grown_spec fd s Hinv Hfd) as (Hlt & _ & _).
  unfold get_write. fold (grown fd s). destruct (new_FdCtx fd (kernel s)) as [c k].
  rewrite (proj2 (Z.leb_le _ _)), (proj2 (Z.ltb_lt _ _)) by lia. done.
Qed.

Lemma get_write_inv fd s s' r : inv s → 0 ≤ fd → get_write fd s = Ret (Some r) s' → inv s'.
Proof.
  intros Hinv Hfd. pose proof (get_write_spec fd s Hinv Hfd) as Hw.
  pose proof (new_FdCtx_spec fd (kernel s)) as Hc. destruct (new_FdCtx fd (kernel s)) as [c k].
  destruct (grown_spec fd s Hinv Hfd) as (Hlt & Hge & Hentry).
  rewrite Hw. intros [= <- <-]. destruct Hc as (Hcfd & _ & _ & Hnb & _).
  set (s' := Fds k _ _ _). assert (∀ fd', entry s' fd' = if decide (fd' = fd) then Some (next s) else entry s fd')
    as He.
  { intros fd'. rewrite <- Hentry. by apply (entry_insert s fd fd' (grown fd s) (Some (next s))). }
  assert (heap s !! next s = None) as Hfresh.
  { apply eq_None_not_Some. intros H%(inv_next s Hinv). lia. }
  assert (∀ fd' r' c', entry s fd' = Some r' → heap s !! r' = Some c' → heap s' !! r' = Some c') as Hold.
  { intros fd' r' c' _ Hr'. cbn. rewrite lookup_insert_ne by congruence. done. }
  split.
  - unfold size. cbn. rewrite length_insert. pose proof (inv_size s Hinv). lia.
  - intros r'. cbn. rewrite lookup_insert_is_Some'. intros [<-|Hr']; [lia|].
    apply (inv_next s Hinv) in Hr'. lia.
  - intros fd' r'. rewrite He. case_decide as E.
    + intros [= <-]. exists c. cbn. rewrite lookup_insert_eq. by subst.
    + intros Hr'. destruct (inv_entry s Hinv fd' r' Hr') as (c' & Hc' & ?). eauto.
  - intros fd' r' c'. rewrite He. case_decide as E.
    + intros [= <-]. cbn. rewrite lookup_insert_eq. intros [= <-] ?. congruence.
    + intros Hr'. destruct (inv_entry s Hinv fd' r' Hr') as (c0 & Hc0 & _).
      rewrite (Hold fd' r' c0 Hr' Hc0). intros [= <-]. by apply (inv_nonblock s Hinv fd' r').
Qed.

(** Looking a descriptor up in the table: without creation the answer is
    what is recorded and nothing changes; with creation the recorded context if
    there is one, otherwise a new one that records the kind of the descriptor,
    makes a socket non-blocking in the kernel and has infinite timeouts; later
    look-ups return that same context and those of other descriptors are
    unaffected. *)
Theorem get_correct fd s :
  inv s → 0 ≤ fd →
  get fd false s = Ret (entry s fd) s ∧
  ∃ r s', get fd true s = Ret (Some r) s' ∧ inv s' ∧
    (∀ b, get fd b s' = Ret (Some r) s') ∧
    (∀ fd', fd' ≠ fd → entry s' fd' = entry s fd') ∧
    match entry s fd with
    | Some r0 => r = r0 ∧ s' = s
    | None => heap s !! r = None ∧ ∃ c, heap s' !! r = Some c ∧ m_fd c = fd ∧
        m_isSocket c = from_option is_sock false (kernel s !! fd) ∧
        m_recvTimeout c = 2 ^ 64 - 1 ∧ m_sendTimeout c = 2 ^ 64 - 1 ∧
        (m_isSocket c = true → m_sysNonblock c = true ∧ Z.testbit (getfl fd (kernel s')) 11 = true)
    end.
Proof.
  intros Hinv Hfd. destruct (get_read_spec fd s Hinv Hfd) as [Hf Ht].
  split; [unfold get; by rewrite (bind_Ret _ _ _ _ _ Hf)|].
  destruct (entry s fd) as [r|] eqn:He.
  { exists r, s. unfold get. split; [by rewrite (bind_Ret _ _ _ _ _ Ht)|]. split; [done|].
    split; [|done].
    intros []; [by rewrite (bind_Ret _ _ _ _ _ Ht)|by rewrite (bind_Ret _ _ _ _ _ Hf)]. }
  pose proof (get_write_spec fd s Hinv Hfd) as Hw. pose proof (new_FdCtx_spec fd (kernel s)) as Hc.
  destruct (new_FdCtx fd (kernel s)) as [c k].
  exists (next s). eexists. split; [unfold get; by rewrite (bind_Ret _ _ _ _ _ Ht)|].
  set (s' := Fds k _ _ _). pose proof (get_write_inv fd s s' (next s) Hinv Hfd Hw) as Hinv'.
  destruct (grown_spec fd s Hinv Hfd) as (Hlt & _ & Hentry).
  assert (∀ fd', entry s' fd' = if decide (fd' = fd) then Some (next s) else entry s fd') as He'.
  { intros fd'. rewrite <- Hentry. by apply (entry_insert s fd fd' (grown fd s) (Some (next s))). }
  split; [done|]. split; [|split; [|split]].
  - destruct (get_read_spec fd s' Hinv' Hfd) as [Hf' Ht']. rewrite He', decide_True in Hf', Ht' by done.
    intros []; unfold get; [by rewrite (bind_Ret _ _ _ _ _ Ht')|by rewrite (bind_Ret _ _ _ _ _ Hf')].
  - intros fd' Hne. by rewrite He', decide_False.
  - apply eq_None_not_Some. intros H%(inv_next s Hinv). lia.
  - exists c. cbn. rewrite lookup_insert_eq. destruct Hc as (? & _ & ? & -> & _ & _ & ? & ? & ? & _).
    split_and!; try done. auto.
Qed.

(** A manager on a kernel where descriptor 70 is a blocking socket. *)
Definition sample_fds : fds := new_fds {[ 70 := KFile true 2 ]}.

Lemma new_fds_inv k : inv (new_fds k).
Proof.
  assert (∀ fd, entry (new_fds k) fd = None) as He.
  { intros fd. unfold entry. destruct (Z.ltb_spec fd 0); [done|]. cbn [new_fds m_datas].
    destruct (replicate 64 None !! Z.to_nat fd) as [x|] eqn:E; [|done].
    apply lookup_replicate in E as [-> _]. done. }
  split; [done| |intros fd r; by rewrite He|intros fd r c; by rewrite He].
  intros r [c H]. cbn in H. by rewrite lookup_empty in H.
Qed.

Lemma get_correct_witness :
  get 70 false sample_fds = Ret (entry sample_fds 70) sample_fds ∧
  ∃ r s', get 70 true sample_fds = Ret (Some r) s' ∧ inv s' ∧
    (∀ b, get 70 b s' = Ret (Some r) s') ∧
    (∀ fd', fd' ≠ 70 → entry s' fd' = entry sample_fds fd') ∧
    match entry sample_fds 70 with
    | Some r0 => r = r0 ∧ s' = sample_fds
    | None => heap sample_fds !! r = None ∧ ∃ c, heap s' !! r = Some c ∧ m_fd c = 70 ∧
        m_isSocket c = from_option is_sock false (kernel sample_fds !! 70) ∧
        m_recvTimeout c = 2 ^ 64 - 1 ∧ m_sendTimeout c = 2 ^ 64 - 1 ∧
        (m_isSocket c = true → m_sysNonblock c = true ∧ Z.testbit (getfl 70 (kernel s')) 11 = true)
    end.
Proof. apply get_correct; [apply new_fds_inv|done]. Defined.

(** ** Divergences *)

(** The existence check is not repeated under the write lock: when two
    threads look a new descriptor up at the same time, the second one replaces
    the context the first one got, and a timeout set through that is lost. *)
Theorem lost_context fd s t :
  inv s → 0 ≤ fd → entry s fd = None →
  ∃ s1 s2 s3 r1 r2,
    get_read fd true s = Ret None s ∧ get_read fd true s = Ret None s ∧
    get_write fd s = Ret (Some r1) s1 ∧
    setTimeout r1 SO_RCVTIMEO t s1 = Ret tt s2 ∧
    get_write fd s2 = Ret (Some r2) s3 ∧
    r1 ≠ r2 ∧ entry s3 fd = Some r2 ∧ getTimeout r2 SO_RCVTIMEO s3 = Ret (2 ^ 64 - 1) s3.
Proof.
  intros Hinv Hfd He. destruct (get_read_spec fd s Hinv Hfd) as [_ Hr]. rewrite He in Hr.
  pose proof (get_write_spec fd s Hinv Hfd) as Hw1. destruct (new_FdCtx fd (kernel s)) as [c1 k1].
  set (s1 := Fds k1 _ _ _) in Hw1.
  set (s2 := set_heap (<[next s := ctx_setTimeout SO_RCVTIMEO t c1]> (heap s1)) s1).
  assert (setTimeout (next s) SO_RCVTIMEO t s1 = Ret tt s2) as Hset.
  { unfold setTimeout, on_ctx. cbn. by rewrite lookup_insert_eq. }
  pose proof (get_write_inv fd s s1 (next s) Hinv Hfd Hw1) as Hinv1.
  assert (inv s2) as Hinv2.
  { destruct Hinv1 as [H1 H2 H3 H4]. split; [done| | |].
    - intros r. cbn. rewrite lookup_insert_is_Some'. intros [<-|Hs]; [lia|by apply H2].
    - intros fd' r Hr'. change (entry s2 fd') with (entry s1 fd') in Hr'.
      destruct (H3 fd' r Hr') as (c & Hc & Hfd'). unfold s2. cbn. destruct (decide (r = next s)) as [->|].
      + cbn in Hc. rewrite lookup_insert_eq in Hc. injection Hc as <-.
        rewrite lookup_insert_eq. eexists. split; [done|]. exact Hfd'.
      + rewrite lookup_insert_ne by done. eauto.
    - intros fd' r c Hr'. change (entry s2 fd') with (entry s1 fd') in Hr'. unfold s2. cbn.
      destruct (decide (r = next s)) as [->|].
      + rewrite lookup_insert_eq. intros [= <-] Hsock.
        pose proof (H4 fd' (next s) c1 Hr') as H5. cbn in H5. rewrite lookup_insert_eq in H5.
        by apply H5.
      + rewrite lookup_insert_ne by done. by apply (H4 fd'). }
  pose proof (get_write_spec fd s2 Hinv2 Hfd) as Hw2. pose proof (new_FdCtx_spec fd (kernel s2)) as Hc2.
  destruct (new_FdCtx fd (kernel s2)) as [c2 k2]. set (s3 := Fds k2 _ _ _) in Hw2.
  exists s1, s2, s3, (next s), (next s2). split_and!; try done.
  - destruct (grown_spec fd s2 Hinv2 Hfd) as (Hlt & _ & _).
    pose proof (entry_insert s2 fd fd (grown fd s2) (Some (next s2))) as E.
    rewrite decide_True in E by done. apply E. lia.
  - unfold getTimeout. cbn. rewrite lookup_insert_eq. destruct Hc2 as (_ & _ & _ & _ & _ & _ & Ht & _).
    unfold ctx_getTimeout. by rewrite Ht.
Qed.

Lemma lost_context_witness :
  ∃ s1 s2 s3 r1 r2,
    get_read 70 true sample_fds = Ret None sample_fds ∧
    get_read 70 true sample_fds = Ret None sample_fds ∧
    get_write 70 sample_fds = Ret (Some r1) s1 ∧
    setTimeout r1 SO_RCVTIMEO 5000 s1 = Ret tt s2 ∧
    get_write 70 s2 = Ret (Some r2) s3 ∧
    r1 ≠ r2 ∧ entry s3 70 = Some r2 ∧ getTimeout r2 SO_RCVTIMEO s3 = Ret (2 ^ 64 - 1) s3.
Proof. apply lost_context; [apply new_fds_inv|done|by vm_compute]. Defined.

(** [del] of a descriptor that [get] answers with null reads before the table. *)
Lemma del_minus_one k : del (-1) (new_fds k) = UB.
Proof. done. Qed.

End FdManager.
