(* ===== verification/Hook.v ===== *)
(** * The hooked system calls (src/bobliew/hook.{h,cc})

    The C functions the library replaces so that a blocking call of a fiber
    becomes a wait of that fiber only.  A call goes through the descriptor table
    (Fdmanager.v), the timers (Timer.v) and the event table (Iomanager.v), so the
    state here is their composition, with the [timer_info] objects the calls
    share with their timers and with the pipe that wakes an idle thread.

    A call stops where control leaves it: at the original function
    ([Calling], [Passing]), whose answer is an argument of the next piece, and at
    [YieldToHold] ([Waiting], [Sleeping]).  Each piece is one definition; their
    composition along the control flow is the function of hook.cc. *)

From S2P Require Import Prelude Fdmanager Timer Iomanager.

Module Hook.
Import FdManager.

Definition EINTR : Z := 4.
Definition EBADF : Z := 9.
Definition EAGAIN : Z := 11.
Definition ETIMEDOUT : Z := 110.
Definition EINPROGRESS : Z := 115.

(** The functions that go through [do_io]. *)
Inductive io_fun :=
| accept | read | readv | recv | recvfrom | recvmsg
| write | writev | send | sendto | sendmsg.

(** The event and the timeout option each of them passes. *)
Definition io_event (f : io_fun) : Z :=
  match f with
  | accept | read | readv | recv | recvfrom | recvmsg => IOManager.READ
  | write | writev | send | sendto | sendmsg => IOManager.WRITE
  end.
Definition io_timeout_so (f : io_fun) : Z :=
  match f with
  | accept | read | readv | recv | recvfrom | recvmsg => SO_RCVTIMEO
  | write | writev | send | sendto | sendmsg => SO_SNDTIMEO
  end.

(** The callbacks of the hooks: the lambda of the condition timers, with what it
    captures, and the bound [schedule(fiber, -1)] of the sleeping calls. *)
Inductive hook_cb :=
| on_timeout (winfo fd event : Z)
| schedule_fiber (fiber : Z).

#[global] Instance hook_cb_eq_dec : EqDecision hook_cb.
Proof. solve_decision. Defined.
#[global] Instance bound_eq_dec {C} `{EqDecision C} : EqDecision (Timer.bound C).
Proof. solve_decision. Defined.

Abbreviation callback := (Timer.bound hook_cb).

(** The local variables of a [do_io] or [connect_with_timeout] in progress. *)
Record call := Call { c_fd : Z; c_event : Z; c_to : Z; c_tinfo : Z }.

(** Where a call is. The value of [errno] that goes with a returned -1 is [None]
    when it is whatever a failed [epoll_ctl] left. *)
Inductive phase :=
| Passing
| Calling (k : call)
| Waiting (k : call) (timer : option Z)
| Connecting (fd timeout_ms : Z)
| ConnWaiting (k : call) (timer : option Z)
| SockError (k : call)
| Sleeping
| Finished (n : Z) (errno : option Z).

#[global] Instance call_eq_dec : EqDecision call.
Proof. solve_decision. Defined.
#[global] Instance phase_eq_dec : EqDecision phase.
Proof. solve_decision. Defined.

Record hook := Hook {
  t_hook_enable : bool;
  this_iom : bool;             (* IOManager::GetThis() is not null *)
  fdm : fds;
  tim : Timer.manager callback;
  iom : IOManager.io callback;
  tinfos : gmap Z Z;           (* the live timer_info objects: cancelled *)
  clock : Z;
  addr : Z;                    (* fresh addresses start here *)
  idle_threads : Z;
  pipe : nat                   (* bytes in the tickle pipe *)
}.

Definition set_hook_enable (flag : bool) (h : hook) : hook :=
  Hook flag (this_iom h) (fdm h) (tim h) (iom h) (tinfos h) (clock h) (addr h) (idle_threads h) (pipe h).
Definition is_hook_enable (h : hook) : bool := t_hook_enable h.
Definition set_fdm (v : fds) (h : hook) : hook :=
  Hook (t_hook_enable h) (this_iom h) v (tim h) (iom h) (tinfos h) (clock h) (addr h) (idle_threads h) (pipe h).
Definition set_tim (v : Timer.manager callback) (h : hook) : hook :=
  Hook (t_hook_enable h) (this_iom h) (fdm h) v (iom h) (tinfos h) (clock h) (addr h) (idle_threads h) (pipe h).
Definition set_iom (v : IOManager.io callback) (h : hook) : hook :=
  Hook (t_hook_enable h) (this_iom h) (fdm h) (tim h) v (tinfos h) (clock h) (addr h) (idle_threads h) (pipe h).
Definition set_tinfos (v : gmap Z Z) (h : hook) : hook :=
  Hook (t_hook_enable h) (this_iom h) (fdm h) (tim h) (iom h) v (clock h) (addr h) (idle_threads h) (pipe h).
Definition set_clock (v : Z) (h : hook) : hook :=
  Hook (t_hook_enable h) (this_iom h) (fdm h) (tim h) (iom h) (tinfos h) v (addr h) (idle_threads h) (pipe h).
Definition set_addr (v : Z) (h : hook) : hook :=
  Hook (t_hook_enable h) (this_iom h) (fdm h) (tim h) (iom h) (tinfos h) (clock h) v (idle_threads h) (pipe h).
Definition set_pipe (v : nat) (h : hook) : hook :=
  Hook (t_hook_enable h) (this_iom h) (fdm h) (tim h) (iom h) (tinfos h) (clock h) (addr h) (idle_threads h) v.

(** ** The pieces of the state as sub-computations *)

Definition upd (f : hook → hook) : M hook unit := λ h, Ret tt (f h).

Definition on_fdm {A} (m : M fds A) : M hook A := λ h,
  match m (fdm h) with
  | Ret a v => Ret a (set_fdm v h)
  | Throw e v => Throw e (set_fdm v h)
  | UB => UB
  end.

(** [IOManager::tickle]: the pipe is not a descriptor of the table, so the
    hooked [write] passes through. *)
Definition tickle (h : hook) : hook :=
  if idle_threads h =? 0 then h else set_pipe (S (pipe h)) h.

(** A call of the event manager; scheduling into an empty queue tickles. *)
Definition on_iom {A} (m : M (IOManager.io callback) A) : M hook A := λ h,
  match m (iom h) with
  | Ret a v =>
      let woke := bool_decide (IOManager.scheduled (iom h) = [] ∧ IOManager.scheduled v ≠ []) in
      Ret a ((if woke then tickle else id) (set_iom v h))
  | Throw e v => Throw e (set_iom v h)
  | UB => UB
  end.

(** [IOManager::GetThis()->...]: a null pointer outside an event manager. *)
Definition iom_this : M hook unit := λ h, if this_iom h then Ret tt h else UB.

(** [onTimerInsertedAtFront] *)
Definition onTimerInsertedAtFront (h : hook) : hook := tickle h.

(** A new object's address. *)
Definition fresh : M hook Z := λ h, Ret (addr h) (set_addr (addr h + 1) h).

(** [addTimer] and [addConditionTimer] at the current time. *)
Definition add_timer (ms : Z) (cb : callback) : M hook Z :=
  iom_this ;!
  let! a := fresh in λ h,
  let '(v, front) := Timer.addTimer (clock h) a ms cb false (tim h) in
  Ret a ((if front then onTimerInsertedAtFront else id) (set_tim v h)).

(** [if(timer) timer->cancel()] *)
Definition cancel_timer (timer : option Z) : M hook unit := λ h,
  match timer with
  | None => Ret tt h
  | Some a =>
      match Timer.cancel a (tim h) with
      | Some (v, _) => Ret tt (set_tim v h)
      | None => UB
      end
  end.

(** [new timer_info] *)
Definition new_tinfo : M hook Z :=
  let! a := fresh in
  upd (λ h, set_tinfos (<[a := 0]> (tinfos h)) h) ;!
  ret a.

(** Leaving the function destroys the last [shared_ptr] to its [timer_info]. *)
Definition finish (k : call) (n : Z) (errno : option Z) : M hook phase :=
  upd (λ h, set_tinfos (delete (c_tinfo k) (tinfos h)) h) ;!
  ret (Finished n errno).

(** ** [do_io] *)

(** The context of a descriptor, dereferenced. *)
Definition lookup_ctx (fd : Z) : M hook (option FdCtx) :=
  let! r := on_fdm (get fd false) in λ h,
  match r with
  | None => Ret None h
  | Some a => match heap (fdm h) !! a with Some c => Ret (Some c) h | None => UB end
  end.

(** Up to the label [retry]. *)
Definition do_io (f : io_fun) (fd : Z) : M hook phase :=
  let! h := Effect.get in
  if negb (t_hook_enable h) then ret Passing
  else
    let! ctx := lookup_ctx fd in
    match ctx with
    | None => ret Passing
    | Some ctx =>
        if m_isClosed ctx then ret (Finished (-1) (Some EBADF))
        else if negb (m_isSocket ctx) || m_userNonblock ctx then ret Passing
        else
          let! tinfo := new_tinfo in
          ret (Calling (Call fd (io_event f) (ctx_getTimeout (io_timeout_so f) ctx) tinfo))
    end.

(** [if(to != (uint64_t)-1) timer = iom->addConditionTimer(...)] *)
Definition arm_timeout (k : call) : M hook (option Z) :=
  if c_to k =? 2 ^ 64 - 1 then ret None
  else
    let! a := add_timer (c_to k)
      (Timer.OnTimer (c_tinfo k) (on_timeout (c_tinfo k) (c_fd k) (c_event k))) in
    ret (Some a).

Section fiber.
(** The manager's address, the running fiber and whether [epoll_ctl] succeeds. *)
Context (self this_f : Z) (ctl : bool).

(** From [retry] on, the original function having returned [n] with [errno]. *)
Definition do_io_returned (k : call) (n errno : Z) : M hook phase :=
  if (n =? -1) && (errno =? EINTR) then ret (Calling k)
  else if (n =? -1) && (errno =? EAGAIN) then
    iom_this ;!
    let! timer := arm_timeout k in
    let! rt := on_iom (IOManager.addEvent ctl self this_f (c_fd k) (c_event k) None) in
    if negb (rt =? 0) then
      cancel_timer timer ;!
      finish k (-1) None
    else ret (Waiting k timer)
  else finish k n (if n =? -1 then Some errno else None).

(** [tinfo->cancelled] *)
Definition cancelled (k : call) : M hook Z := λ h,
  match tinfos h !! c_tinfo k with Some c => Ret c h | None => UB end.

(** After [YieldToHold]. *)
Definition do_io_resumed (k : call) (timer : option Z) : M hook phase :=
  cancel_timer timer ;!
  let! c := cancelled k in
  if negb (c =? 0) then finish k (-1) (Some c) else ret (Calling k).

(** The lambda of the condition timer. *)
Definition run_on_timeout (winfo fd event : Z) : M hook unit :=
  let! h := Effect.get in
  match tinfos h !! winfo with
  | None => ret tt
  | Some c =>
      if negb (c =? 0) then ret tt
      else
        upd (λ h, set_tinfos (<[winfo := ETIMEDOUT]> (tinfos h)) h) ;!
        on_iom (IOManager.cancelEvent ctl fd event) ;!
        ret tt
  end.

(** [schedule(fiber, -1)] *)
Definition push_task (t : IOManager.task callback) : M (IOManager.io callback) unit := λ st,
  Ret tt (IOManager.Io (IOManager.m_fdContexts st) (IOManager.m_pendingEventCount st)
            (IOManager.epoll st) (IOManager.scheduled st ++ [t])).

Definition run_hook_cb (cb : hook_cb) : M hook unit :=
  match cb with
  | on_timeout winfo fd event => run_on_timeout winfo fd event
  | schedule_fiber f => on_iom (push_task (IOManager.Task self (Some f) None))
  end.

(** A callback task: what a condition timer is bound to runs only while its
    [weak_ptr] can be locked. *)
Definition run_callback (b : callback) : M hook unit :=
  let! h := Effect.get in
  match Timer.run_bound (λ a, bool_decide (is_Some (tinfos h !! a))) b with
  | Some cb => run_hook_cb cb
  | None => ret tt
  end.

(** ** The sleeping calls *)

(** The argument is computed in the type of the parameter: [unsigned], then
    [int] for [nanosleep], before it becomes the [uint64_t] of [addTimer]. *)
Definition sleep_ms (seconds : Z) : Z := wrap 32 (seconds * 1000).
Definition usleep_ms (usec : Z) : Z := usec / 1000.
Definition nanosleep_ms (tv_sec tv_nsec : Z) : Z :=
  wrap 64 (swrap 32 (tv_sec * 1000 + Z.quot (Z.quot tv_nsec 1000) 1000)).

Definition sleep_for (ms : Z) : M hook phase :=
  let! h := Effect.get in
  if negb (t_hook_enable h) then ret Passing
  else
    add_timer ms (Timer.Plain (schedule_fiber this_f)) ;!
    ret Sleeping.

Definition sleep (seconds : Z) : M hook phase := sleep_for (sleep_ms seconds).
Definition usleep (usec : Z) : M hook phase := sleep_for (usleep_ms usec).
Definition nanosleep (tv_sec tv_nsec : Z) : M hook phase := sleep_for (nanosleep_ms tv_sec tv_nsec).

(** ** [connect_with_timeout] *)

Definition connect_with_timeout (fd timeout_ms : Z) : M hook phase :=
  let! h := Effect.get in
  if negb (t_hook_enable h) then ret Passing
  else
    let! ctx := lookup_ctx fd in
    match ctx with
    | None => ret (Finished (-1) (Some EBADF))
    | Some ctx =>
        if m_isClosed ctx then ret (Finished (-1) (Some EBADF))
        else if negb (m_isSocket ctx) then ret Passing
        else if m_userNonblock ctx then ret Passing
        else ret (Connecting fd timeout_ms)
    end.

(** [connect_f] returned [n] with [errno]. *)
Definition connect_returned (fd timeout_ms n errno : Z) : M hook phase :=
  if n =? 0 then ret (Finished 0 None)
  else if negb (n =? -1) || negb (errno =? EINPROGRESS) then
    ret (Finished n (if n =? -1 then Some errno else None))
  else
    iom_this ;!
    let! tinfo := new_tinfo in
    let k := Call fd IOManager.WRITE timeout_ms tinfo in
    let! timer := arm_timeout k in
    let! rt := on_iom (IOManager.addEvent ctl self this_f fd IOManager.WRITE None) in
    if rt =? 0 then ret (ConnWaiting k timer)
    else cancel_timer timer ;! ret (SockError k).

Definition connect_resumed (k : call) (timer : option Z) : M hook phase :=
  cancel_timer timer ;!
  let! c := cancelled k in
  if negb (c =? 0) then finish k (-1) (Some c) else ret (SockError k).

(** [getsockopt] returned [rt] with [errno] and wrote [error]. *)
Definition connect_sockerr (k : call) (rt errno error : Z) : M hook phase :=
  if rt =? -1 then finish k (-1) (Some errno)
  else if error =? 0 then finish k 0 None
  else finish k (-1) (Some error).

End fiber.

(** ** Opening and closing *)

(** The kernel opens and closes a descriptor.  That it also drops a closed descriptor
    from the epoll interest list (epoll(7)) is not modelled: [iom] holds what was last
    asked of [epoll_ctl]. *)
Definition kernel_open (fd : Z) (f : kfile) (h : hook) : hook :=
  set_fdm (set_kernel (<[fd := f]> (kernel (fdm h))) (fdm h)) h.
Definition close_f (fd rt : Z) : M hook Z := λ h,
  Ret rt (set_fdm (set_kernel (delete fd (kernel (fdm h))) (fdm h)) h).

(** [socket], [socket_f] having returned [fd]. *)
Definition socket (fd : Z) : M hook Z :=
  let! h := Effect.get in
  if negb (t_hook_enable h) then ret fd
  else if fd =? -1 then ret fd
  else on_fdm (get fd true) ;! ret fd.

(** [accept], its [do_io] having returned [fd]. *)
Definition accept_done (fd : Z) : M hook Z :=
  (if 0 <=? fd then on_fdm (get fd true) ;! ret tt else ret tt) ;!
  ret fd.

(** [close]; [rt] is what [close_f] returns. *)
Definition close (ctl : bool) (fd rt : Z) : M hook Z :=
  let! h := Effect.get in
  if t_hook_enable h then close_f fd rt
  else
    let! ctx := on_fdm (get fd false) in
    match ctx with
    | None => close_f fd rt
    | Some _ =>
        (if this_iom h then on_iom (IOManager.cancelAll ctl fd) ;! ret tt else ret tt) ;!
        on_fdm (del fd) ;!
        close_f fd rt
    end.

(** ** Options *)

(** The commands of [fcntl] by what follows them: an integer, nothing, or a
    pointer the hook only passes on. *)
Inductive fcntl_cmd :=
| F_SETFL (arg : Z)
| F_GETFL
| fcntl_int (cmd arg : Z)
| fcntl_void (cmd : Z)
| fcntl_ptr (cmd p : Z).

(** [fcntl_f]: the status flags are the kernel's; [other] answers the rest. *)
Definition fcntl_f (other : Z → fcntl_cmd → Z) (fd : Z) (cmd : fcntl_cmd) : M hook Z := λ h,
  match cmd with
  | F_SETFL arg =>
      let k := kernel (fdm h) in
      Ret (if bool_decide (is_Some (k !! fd)) then 0 else -1)
          (set_fdm (set_kernel (setfl fd arg k) (fdm h)) h)
  | F_GETFL => Ret (getfl fd (kernel (fdm h))) h
  | _ => Ret (other fd cmd) h
  end.

(** The reference and the context of a descriptor that is an open socket. *)
Definition lookup_socket (fd : Z) : M hook (option (nat * FdCtx)) :=
  let! r := on_fdm (get fd false) in λ h,
  match r with
  | None => Ret None h
  | Some a =>
      match heap (fdm h) !! a with
      | Some c => Ret (if m_isClosed c || negb (m_isSocket c) then None else Some (a, c)) h
      | None => UB
      end
  end.

Definition fcntl (other : Z → fcntl_cmd → Z) (fd : Z) (cmd : fcntl_cmd) : M hook Z :=
  match cmd with
  | F_SETFL arg =>
      let! ctx := lookup_socket fd in
      match ctx with
      | None => fcntl_f other fd (F_SETFL arg)
      | Some (r, c) =>
          on_fdm (setUserNonblock r (negb (Z.land arg O_NONBLOCK =? 0))) ;!
          fcntl_f other fd
            (F_SETFL (if m_sysNonblock c then Z.lor arg O_NONBLOCK else Z.land arg (- O_NONBLOCK)))
      end
  | F_GETFL =>
      let! arg := fcntl_f other fd F_GETFL in
      let! ctx := lookup_socket fd in
      match ctx with
      | None => ret arg
      | Some (_, c) =>
          ret (if m_userNonblock c then Z.lor arg O_NONBLOCK else Z.land arg (- O_NONBLOCK))
      end
  | _ => fcntl_f other fd cmd
  end.

Definition FIONBIO : Z := 21537.

(** [ioctl_f(FIONBIO, arg)] sets or clears the kernel's flag; [rt] answers every
    other request.  A null pointer is an error. *)
Definition ioctl_f (rt : Z) (d request : Z) (arg : option Z) : M hook Z := λ h,
  if FIONBIO =? request then
    match arg with
    | None => Ret (-1) h
    | Some v =>
        let k := kernel (fdm h) in
        let flags := getfl d k in
        Ret (if bool_decide (is_Some (k !! d)) then 0 else -1)
            (set_fdm (set_kernel (setfl d (if v =? 0 then Z.ldiff flags O_NONBLOCK
                                           else Z.lor flags O_NONBLOCK) k) (fdm h)) h)
    end
  else Ret rt h.

(** [ioctl]: [!!(int* )arg] tests the pointer, not the integer. *)
Definition ioctl (rt : Z) (d request : Z) (arg : option Z) : M hook Z :=
  if FIONBIO =? request then
    let user_nonblock := bool_decide (is_Some arg) in
    let! ctx := lookup_socket d in
    match ctx with
    | None => ioctl_f rt d request arg
    | Some (r, _) => on_fdm (setUserNonblock r user_nonblock) ;! ioctl_f rt d request arg
    end
  else ioctl_f rt d request arg.

Definition SOL_SOCKET : Z := 1.

(** The value of a [timeval] in milliseconds, as [setTimeout] receives it. *)
Definition timeval_ms (tv_sec tv_usec : Z) : Z := wrap 64 (tv_sec * 1000 + Z.quot tv_usec 1000).

(** [setsockopt]; [rt] is what [setsockopt_f] returns, [tv] the option as a
    [timeval]. *)
Definition setsockopt (rt sockfd level optname : Z) (tv : Z * Z) : M hook Z :=
  let! h := Effect.get in
  if negb (t_hook_enable h) then ret rt
  else
    (if (level =? SOL_SOCKET) && ((optname =? SO_RCVTIMEO) || (optname =? SO_SNDTIMEO)) then
       let! ctx := on_fdm (get sockfd false) in
       match ctx with
       | None => ret tt
       | Some r => on_fdm (setTimeout r optname (timeval_ms (fst tv) (snd tv)))
       end
     else ret tt) ;!
    ret rt.

(** [getsockopt] *)
Definition getsockopt (rt : Z) : M hook Z := ret rt.

(** ** The descriptor table under the hooks *)

Section descriptors.
Implicit Types (h : hook) (fd : Z).

Lemma set_fdm_id h : set_fdm (fdm h) h = h.
Proof. by destruct h. Qed.

Lemma get_false_spec fd s : FdManager.inv s → 0 ≤ fd → get fd false s = Ret (entry s fd) s.
Proof.
  intros Hinv Hfd. destruct (get_read_spec fd s Hinv Hfd) as [Hf _].
  unfold get. by rewrite (bind_Ret _ _ _ _ _ Hf).
Qed.

Lemma on_fdm_get h fd :
  FdManager.inv (fdm h) → 0 ≤ fd → on_fdm (get fd false) h = Ret (entry (fdm h) fd) h.
Proof.
  intros Hinv Hfd. unfold on_fdm. rewrite get_false_spec by done. by rewrite set_fdm_id.
Qed.

(** The descriptor is registered, as an open socket. *)
Record socket_at h fd (r : nat) (c : FdCtx) : Prop := SockAt {
  at_entry : entry (fdm h) fd = Some r;
  at_heap : heap (fdm h) !! r = Some c;
  at_open : m_isClosed c = false;
  at_socket : m_isSocket c = true
}.

Lemma lookup_socket_spec h fd r c :
  FdManager.inv (fdm h) → 0 ≤ fd → socket_at h fd r c → lookup_socket fd h = Ret (Some (r, c)) h.
Proof.
  intros Hinv Hfd [He Hh Ho Hs]. unfold lookup_socket.
  rewrite (bind_Ret _ _ _ _ _ (on_fdm_get h fd Hinv Hfd)), He, Hh, Ho, Hs. done.
Qed.

Lemma lookup_ctx_spec h fd r c :
  FdManager.inv (fdm h) → 0 ≤ fd → entry (fdm h) fd = Some r → heap (fdm h) !! r = Some c →
  lookup_ctx fd h = Ret (Some c) h.
Proof.
  intros Hinv Hfd He Hh. unfold lookup_ctx.
  by rewrite (bind_Ret _ _ _ _ _ (on_fdm_get h fd Hinv Hfd)), He, Hh.
Qed.

Lemma set_user_spec h r c v :
  heap (fdm h) !! r = Some c →
  on_fdm (setUserNonblock r v) h
  = Ret tt (set_fdm (set_heap (<[r := ctx_setUserNonblock v c]> (heap (fdm h))) (fdm h)) h).
Proof. intros Hh. unfold on_fdm, setUserNonblock, on_ctx. by rewrite Hh. Qed.

(** The bits of a value from the 12th on. *)
Lemma land_neg_bits v n : 0 ≤ n → Z.testbit (Z.land v (- O_NONBLOCK)) n = Z.testbit v n && (11 <=? n).
Proof.
  intros Hn. change (- O_NONBLOCK) with (Z.lnot (Z.ones 11)).
  rewrite Z.land_spec, Z.lnot_spec by done. f_equal. destruct (Z.leb_spec 11 n).
  - by rewrite Z.ones_spec_high by lia.
  - by rewrite Z.ones_spec_low by lia.
Qed.

Lemma nonblock_bit v n : 0 ≤ n → Z.testbit (Z.lor v O_NONBLOCK) n = Z.testbit v n || (n =? 11).
Proof.
  intros Hn. change O_NONBLOCK with (2 ^ 11).
  by rewrite Z.lor_spec, Z.pow2_bits_eqb, Z.eqb_sym by lia.
Qed.

Lemma nonblock_test v : negb (Z.land v O_NONBLOCK =? 0) = Z.testbit v 11.
Proof.
  change O_NONBLOCK with (2 ^ 11). destruct (Z.testbit v 11) eqn:Hb.
  - apply negb_true_iff, Z.eqb_neq. intros E.
    assert (Z.testbit (Z.land v (2 ^ 11)) 11 = false) as Hx by by rewrite E, Z.bits_0.
    rewrite Z.land_spec, Hb, Z.pow2_bits_true in Hx by lia. done.
  - apply negb_false_iff, Z.eqb_eq, Z.bits_inj'. intros n Hn.
    rewrite Z.land_spec, Z.pow2_bits_eqb, Z.bits_0 by lia.
    destruct (Z.eqb_spec 11 n) as [<-|]; [by rewrite Hb|by rewrite andb_false_r].
Qed.

Lemma fcntl_setfl_spec other h fd r c f arg :
  FdManager.inv (fdm h) → 0 ≤ fd → socket_at h fd r c → kernel (fdm h) !! fd = Some f →
  fcntl other fd (F_SETFL arg) h = Ret 0
    (set_fdm (Fds (<[fd := KFile (is_sock f) (if m_sysNonblock c then Z.lor arg O_NONBLOCK
                                              else Z.land arg (- O_NONBLOCK))]> (kernel (fdm h)))
                  (<[r := ctx_setUserNonblock (Z.testbit arg 11) c]> (heap (fdm h)))
                  (next (fdm h)) (m_datas (fdm h))) h).
Proof.
  intros Hinv Hfd Hat Hk. unfold fcntl.
  rewrite (bind_Ret _ _ _ _ _ (lookup_socket_spec h fd r c Hinv Hfd Hat)).
  rewrite nonblock_test, (bind_Ret _ _ _ _ _ (set_user_spec h r c _ (at_heap _ _ _ _ Hat))).
  unfold fcntl_f. cbn [fdm set_fdm set_heap kernel]. unfold setfl. rewrite Hk.
  by rewrite bool_decide_eq_true_2 by by eexists.
Qed.

Lemma fcntl_getfl_spec other h fd r c :
  FdManager.inv (fdm h) → 0 ≤ fd → socket_at h fd r c →
  fcntl other fd F_GETFL h = Ret (if m_userNonblock c then Z.lor (getfl fd (kernel (fdm h))) O_NONBLOCK
                                  else Z.land (getfl fd (kernel (fdm h))) (- O_NONBLOCK)) h.
Proof.
  intros Hinv Hfd Hat. unfold fcntl, fcntl_f at 1. unfold bind at 1.
  by rewrite (bind_Ret _ _ _ _ _ (lookup_socket_spec h fd r c Hinv Hfd Hat)).
Qed.

(** Changing a context in place, of the same descriptor and kind, keeps the
    table's invariant. *)
Lemma inv_ctx_update (s : fds) r c c' k :
  FdManager.inv s → heap s !! r = Some c → m_fd c' = m_fd c → m_isSocket c' = m_isSocket c →
  m_sysNonblock c' = m_sysNonblock c →
  FdManager.inv (Fds k (<[r := c']> (heap s)) (next s) (m_datas s)).
Proof.
  intros Hinv Hr Hfd Hs Hn. split.
  - apply (FdManager.inv_size s Hinv).
  - intros r'. cbn. rewrite lookup_insert_is_Some'. intros [<-|H]; apply (inv_next s Hinv); [by eexists|done].
  - intros fd r' He. destruct (inv_entry s Hinv fd r' He) as (c0 & Hc0 & <-). cbn.
    destruct (decide (r = r')) as [<-|Hne].
    + exists c'. rewrite lookup_insert_eq. split; [done|]. congruence.
    + exists c0. by rewrite lookup_insert_ne.
  - intros fd r' c0 He. cbn. destruct (decide (r = r')) as [<-|Hne].
    + rewrite lookup_insert_eq. intros [= <-] H. rewrite Hn.
      apply (inv_nonblock s Hinv fd r c He Hr). congruence.
    + rewrite lookup_insert_ne by done. by apply (inv_nonblock s Hinv fd r' c0).
Qed.

End descriptors.

(** ** Properties *)

(** A thread with hooks on whose descriptor 70 is a socket registered by the
    hooked [socket]. *)
Definition sample_hook : hook :=
  let s := match get 70 true sample_fds with Ret _ s => s | _ => sample_fds end in
  Hook true true s Timer.new_manager IOManager.new_io ∅ 1000 1 0 0.

Definition sample_ctx : FdCtx := MkCtx true true true false false 70 (2 ^ 64 - 1) (2 ^ 64 - 1).

Lemma sample_hook_inv : FdManager.inv (fdm sample_hook).
Proof.
  apply (get_write_inv 70 sample_fds _ 0%nat); [apply new_fds_inv|lia|]. by vm_compute.
Qed.

Lemma sample_hook_at : socket_at sample_hook 70 0 sample_ctx.
Proof. by split. Qed.

(** Setting the flags of a registered socket succeeds, keeps the socket
    non-blocking in the kernel whatever is asked, stores the other flags as
    given and remembers what the user asked; a user who asked for [O_NONBLOCK]
    reads back the same flags. *)
Theorem fcntl_setfl_correct other h fd r c f arg :
  FdManager.inv (fdm h) → 0 ≤ fd → socket_at h fd r c → kernel (fdm h) !! fd = Some f →
  ∃ h' c', fcntl other fd (F_SETFL arg) h = Ret 0 h' ∧ FdManager.inv (fdm h') ∧
    socket_at h' fd r c' ∧ m_userNonblock c' = Z.testbit arg 11 ∧
    (∀ n, 0 ≤ n → Z.testbit (getfl fd (kernel (fdm h'))) n = Z.testbit arg n || (n =? 11)) ∧
    (∀ fd', fd' ≠ fd → kernel (fdm h') !! fd' = kernel (fdm h) !! fd') ∧
    (Z.testbit arg 11 = true → fcntl other fd F_GETFL h' = Ret arg h').
Proof.
  intros Hinv Hfd Hat Hk. rewrite (fcntl_setfl_spec other h fd r c f arg) by done.
  pose proof (inv_nonblock _ Hinv fd r c (at_entry _ _ _ _ Hat) (at_heap _ _ _ _ Hat)
                (at_socket _ _ _ _ Hat)) as Hsys. rewrite Hsys.
  eexists _, (ctx_setUserNonblock (Z.testbit arg 11) c). split; [reflexivity|].
  set (h' := set_fdm _ h).
  assert (FdManager.inv (fdm h')) as Hinv'
    by (apply (inv_ctx_update _ r c); try done; apply (at_heap _ _ _ _ Hat)).
  assert (socket_at h' fd r (ctx_setUserNonblock (Z.testbit arg 11) c)) as Hat'.
  { destruct Hat as [He Hh Ho Hs]. split; cbn; try done. by rewrite lookup_insert_eq. }
  assert (getfl fd (kernel (fdm h')) = Z.lor arg O_NONBLOCK) as Hfl.
  { unfold getfl. cbn. by rewrite lookup_insert_eq. }
  split_and!; try done.
  - intros n Hn. by rewrite Hfl, nonblock_bit.
  - intros fd' Hne. cbn. by rewrite lookup_insert_ne.
  - intros Hb. rewrite (fcntl_getfl_spec other h' fd r _ Hinv' Hfd Hat'). cbn [ctx_setUserNonblock m_userNonblock].
    rewrite Hb, Hfl. f_equal. apply Z.bits_inj'. intros n Hn. rewrite !nonblock_bit by done.
    destruct (Z.eqb_spec n 11) as [->|]; [by rewrite Hb|by rewrite !orb_false_r].
Qed.

Lemma fcntl_setfl_correct_witness :
  ∃ h' c', fcntl (λ _ _, 0) 70 (F_SETFL 2050) sample_hook = Ret 0 h' ∧ FdManager.inv (fdm h') ∧
    socket_at h' 70 0 c' ∧ m_userNonblock c' = Z.testbit 2050 11 ∧
    (∀ n, 0 ≤ n → Z.testbit (getfl 70 (kernel (fdm h'))) n = Z.testbit 2050 n || (n =? 11)) ∧
    (∀ fd', fd' ≠ 70 → kernel (fdm h') !! fd' = kernel (fdm sample_hook) !! fd') ∧
    (Z.testbit 2050 11 = true → fcntl (λ _ _, 0) 70 F_GETFL h' = Ret 2050 h').
Proof.
  apply (fcntl_setfl_correct (λ _ _, 0) sample_hook 70 0 sample_ctx (KFile true 2050) 2050).
  - exact sample_hook_inv.
  - lia.
  - exact sample_hook_at.
  - vm_compute. reflexivity.
Defined.

(** A user who asked for a blocking socket reads back wrong flags: the mask
    [-O_NONBLOCK] keeps [O_NONBLOCK], which is set in the kernel, and clears the
    eleven bits below it (the access mode, [O_APPEND]). *)
Theorem getfl_reports_nonblocking other h fd r c f :
  FdManager.inv (fdm h) → 0 ≤ fd → socket_at h fd r c → m_userNonblock c = false →
  kernel (fdm h) !! fd = Some f → Z.testbit (fl f) 11 = true →
  ∃ v, fcntl other fd F_GETFL h = Ret v h ∧ Z.testbit v 11 = true ∧
    ∀ n, 0 ≤ n < 11 → Z.testbit v n = false.
Proof.
  intros Hinv Hfd Hat Hu Hk Hb. rewrite (fcntl_getfl_spec other h fd r c) by done. rewrite Hu.
  eexists. split; [reflexivity|]. unfold getfl. rewrite Hk. cbn [from_option].
  rewrite land_neg_bits, Hb by lia. split; [done|]. intros n Hn. rewrite land_neg_bits by lia.
  rewrite (proj2 (Z.leb_gt _ _)) by lia. apply andb_false_r.
Qed.

Lemma getfl_reports_nonblocking_witness :
  ∃ v, fcntl (λ _ _, 0) 70 F_GETFL sample_hook = Ret v sample_hook ∧ Z.testbit v 11 = true ∧
    ∀ n, 0 ≤ n < 11 → Z.testbit v n = false.
Proof.
  apply (getfl_reports_nonblocking (λ _ _, 0) sample_hook 70 0 sample_ctx (KFile true 2050)).
  - exact sample_hook_inv.
  - lia.
  - exact sample_hook_at.
  - reflexivity.
  - vm_compute. reflexivity.
  - reflexivity.
Defined.

(** How a call on an open registered socket starts: through the wait loop unless
    the user asked for a non-blocking one. *)
Lemma do_io_start h f fd r c :
  FdManager.inv (fdm h) → 0 ≤ fd → t_hook_enable h = true → socket_at h fd r c →
  do_io f fd h =
    if m_userNonblock c then Ret Passing h
    else Ret (Calling (Call fd (io_event f) (ctx_getTimeout (io_timeout_so f) c) (addr h)))
           (set_tinfos (<[addr h := 0]> (tinfos h)) (set_addr (addr h + 1) h)).
Proof.
  intros Hinv Hfd Hon Hat. unfold do_io. unfold bind at 1. cbn. rewrite Hon. cbn [negb].
  rewrite (bind_Ret _ _ _ _ _ (lookup_ctx_spec h fd r c Hinv Hfd (at_entry _ _ _ _ Hat)
    (at_heap _ _ _ _ Hat))).
  rewrite (at_open _ _ _ _ Hat), (at_socket _ _ _ _ Hat). cbn [negb orb].
  by destruct (m_userNonblock c).
Qed.

(** [ioctl(FIONBIO)] with a zero integer, a request for a blocking socket,
    makes the socket blocking in the kernel but records that the user wants it
    non-blocking: the next calls go straight to the blocking system call and
    stop the whole thread. *)
Theorem ioctl_blocks_thread rt h fd r c f :
  FdManager.inv (fdm h) → 0 ≤ fd → t_hook_enable h = true → socket_at h fd r c →
  kernel (fdm h) !! fd = Some f →
  ∃ h', ioctl rt fd FIONBIO (Some 0) h = Ret 0 h' ∧
    Z.testbit (getfl fd (kernel (fdm h'))) 11 = false ∧
    ∀ io, do_io io fd h' = Ret Passing h'.
Proof.
  intros Hinv Hfd Hon Hat Hk. unfold ioctl. cbn [FIONBIO Z.eqb Pos.eqb].
  rewrite (bind_Ret _ _ _ _ _ (lookup_socket_spec h fd r c Hinv Hfd Hat)).
  rewrite (bind_Ret _ _ _ _ _ (set_user_spec h r c _ (at_heap _ _ _ _ Hat))).
  unfold ioctl_f. rewrite Z.eqb_refl.
  cbn [fdm set_fdm set_heap kernel]. rewrite (bool_decide_eq_true_2 (is_Some (kernel _ !! _))) by (rewrite Hk; by eexists).
  eexists. split; [reflexivity|]. set (h' := set_fdm _ _). split.
  - unfold h'. cbn [fdm set_fdm set_kernel set_heap kernel Z.eqb]. unfold setfl. rewrite Hk.
    unfold getfl at 1. rewrite lookup_insert_eq. cbn [from_option fl].
    rewrite Z.ldiff_spec. apply andb_false_r.
  - intros io. erewrite (do_io_start h' io fd r (ctx_setUserNonblock true c)); [done| |done|done|].
    + apply (inv_ctx_update (fdm h) r c); try done. apply (at_heap _ _ _ _ Hat).
    + destruct Hat as [He Hh Ho Hs]. split; cbn; try done. by rewrite lookup_insert_eq.
Qed.

Lemma ioctl_blocks_thread_witness :
  ∃ h', ioctl 0 70 FIONBIO (Some 0) sample_hook = Ret 0 h' ∧
    Z.testbit (getfl 70 (kernel (fdm h'))) 11 = false ∧
    ∀ io, do_io io 70 h' = Ret Passing h'.
Proof.
  apply (ioctl_blocks_thread 0 sample_hook 70 0 sample_ctx (KFile true 2050)).
  - exact sample_hook_inv.
  - lia.
  - reflexivity.
  - exact sample_hook_at.
  - vm_compute. reflexivity.
Defined.

(** The hooked [close] tests the hook flag the wrong way round: with hooks on
    it closes the descriptor without waking the fibers that wait on it or
    removing its context, so the next socket the kernel gives the same number
    gets the old context, is left blocking in the kernel, and starts with the
    old timeouts. *)
Theorem close_keeps_context ctl h fd r c v :
  FdManager.inv (fdm h) → 0 ≤ fd → t_hook_enable h = true → socket_at h fd r c →
  ∃ h1 h2, close ctl fd 0 h = Ret 0 h1 ∧ iom h1 = iom h ∧
    socket fd (kernel_open fd (KFile true v) h1) = Ret fd h2 ∧
    socket_at h2 fd r c ∧ getfl fd (kernel (fdm h2)) = v ∧
    ∀ io, m_userNonblock c = false →
      ∃ h3 k, do_io io fd h2 = Ret (Calling k) h3 ∧ c_to k = ctx_getTimeout (io_timeout_so io) c.
Proof.
  intros Hinv Hfd Hon Hat. unfold close. unfold bind at 1. cbn [Effect.get]. rewrite Hon.
  unfold close_f. set (h1 := set_fdm _ h). set (h2 := kernel_open fd (KFile true v) h1).
  exists h1, h2. split; [reflexivity|]. split; [done|].
  assert (FdManager.inv (fdm h2)) as Hinv2 by (destruct Hinv; by split).
  assert (socket_at h2 fd r c) as Hat2 by (destruct Hat; by split).
  assert (socket fd h2 = Ret fd h2) as Hsock.
  { unfold socket. unfold bind at 1. cbn [Effect.get]. change (t_hook_enable h2) with (t_hook_enable h).
    rewrite Hon. cbn [negb]. rewrite (proj2 (Z.eqb_neq _ _)) by lia.
    destruct (get_read_spec fd (fdm h2) Hinv2 Hfd) as [_ Ht]. rewrite (at_entry _ _ _ _ Hat2) in Ht.
    assert (on_fdm (get fd true) h2 = Ret (Some r) h2) as Hg.
    { unfold on_fdm, get. rewrite (bind_Ret _ _ _ _ _ Ht). unfold ret. by rewrite set_fdm_id. }
    by rewrite (bind_Ret _ _ _ _ _ Hg). }
  split; [exact Hsock|]. split; [done|].
  split; [cbn; by unfold getfl; rewrite lookup_insert_eq|].
  intros io Hu. rewrite (do_io_start h2 io fd r c) by done. rewrite Hu. by eexists _, _.
Qed.

Lemma close_keeps_context_witness :
  ∃ h1 h2, close true 70 0 sample_hook = Ret 0 h1 ∧ iom h1 = iom sample_hook ∧
    socket 70 (kernel_open 70 (KFile true 2) h1) = Ret 70 h2 ∧
    socket_at h2 70 0 sample_ctx ∧ getfl 70 (kernel (fdm h2)) = 2 ∧
    ∀ io, m_userNonblock sample_ctx = false →
      ∃ h3 k, do_io io 70 h2 = Ret (Calling k) h3 ∧ c_to k = ctx_getTimeout (io_timeout_so io) sample_ctx.
Proof.
  apply (close_keeps_context true sample_hook 70 0 sample_ctx 2).
  - exact sample_hook_inv.
  - lia.
  - reflexivity.
  - exact sample_hook_at.
Defined.

(** A timeout set with [setsockopt] is the one the calls of that direction
    use, in milliseconds; the other direction keeps its own.  In particular a
    zero [timeval], which asks for no timeout, gives a timeout of 0 ms. *)
Theorem setsockopt_timeout h fd r c optname sec usec :
  FdManager.inv (fdm h) → 0 ≤ fd → t_hook_enable h = true → socket_at h fd r c →
  m_userNonblock c = false → optname = SO_RCVTIMEO ∨ optname = SO_SNDTIMEO →
  0 ≤ sec → 0 ≤ usec < 1000000 → sec * 1000 + 1000 < 2 ^ 64 →
  ∃ h', setsockopt 0 fd SOL_SOCKET optname (sec, usec) h = Ret 0 h' ∧
    ∀ io, ∃ k h2, do_io io fd h' = Ret (Calling k) h2 ∧
      c_to k = if io_timeout_so io =? optname then sec * 1000 + usec / 1000
               else ctx_getTimeout (io_timeout_so io) c.
Proof.
  intros Hinv Hfd Hon Hat Hu Hopt Hs Hus Hfit. unfold setsockopt. unfold bind at 1. cbn [Effect.get].
  rewrite Hon. cbn [negb]. change (SOL_SOCKET =? SOL_SOCKET) with true.
  assert ((optname =? SO_RCVTIMEO) || (optname =? SO_SNDTIMEO) = true) as ->
    by (destruct Hopt as [->| ->]; done). cbn [andb].
  set (c' := ctx_setTimeout optname (timeval_ms sec usec) c).
  assert (on_fdm (setTimeout r optname (timeval_ms sec usec)) h
    = Ret tt (set_fdm (set_heap (<[r := c']> (heap (fdm h))) (fdm h)) h)) as Hset.
  { unfold on_fdm, setTimeout, on_ctx. by rewrite (at_heap _ _ _ _ Hat). }
  unfold bind at 1. rewrite (bind_Ret _ _ _ _ _ (on_fdm_get h fd Hinv Hfd)), (at_entry _ _ _ _ Hat).
  cbn [fst snd]. rewrite Hset. eexists. split; [reflexivity|]. set (h' := set_fdm _ h). intros io.
  assert (timeval_ms sec usec = sec * 1000 + usec / 1000) as Hms.
  { unfold timeval_ms. rewrite Z.quot_div_nonneg by lia. apply wrap_small. unfold in_u.
    pose proof (Z.div_pos usec 1000). pose proof (Z.div_lt_upper_bound usec 1000 1000). lia. }
  assert (m_fd c' = m_fd c ∧ m_isSocket c' = m_isSocket c ∧ m_sysNonblock c' = m_sysNonblock c ∧
    m_isClosed c' = m_isClosed c ∧ m_userNonblock c' = m_userNonblock c) as (E1 & E2 & E3 & E4 & E5)
    by (unfold c', ctx_setTimeout; by destruct (optname =? SO_RCVTIMEO)).
  erewrite (do_io_start h' io fd r c'); [|by apply (inv_ctx_update _ r c); try done; apply Hat|done|done|].
  2: { destruct Hat as [He Hh Ho Hk]. split; [exact He|cbn; by rewrite lookup_insert_eq|congruence|congruence]. }
  rewrite E5, Hu. eexists _, _. split; [reflexivity|]. cbn [c_to]. rewrite <- Hms.
  unfold c', ctx_setTimeout, ctx_getTimeout. destruct Hopt as [->| ->]; by destruct io.
Qed.

Lemma setsockopt_timeout_witness :
  ∃ h', setsockopt 0 70 SOL_SOCKET SO_RCVTIMEO (2, 500000) sample_hook = Ret 0 h' ∧
    ∀ io, ∃ k h2, do_io io 70 h' = Ret (Calling k) h2 ∧
      c_to k = if io_timeout_so io =? SO_RCVTIMEO then 2 * 1000 + 500000 / 1000
               else ctx_getTimeout (io_timeout_so io) sample_ctx.
Proof.
  apply (setsockopt_timeout sample_hook 70 0 sample_ctx SO_RCVTIMEO 2 500000).
  - exact sample_hook_inv.
  - lia.
  - reflexivity.
  - exact sample_hook_at.
  - reflexivity.
  - left. reflexivity.
  - lia.
  - lia.
  - lia.
Defined.

(** Milliseconds are computed in 32 bits: [sleep] of a longer time wraps, and
    [nanosleep] of more than 2^31 ms becomes a time near 2^64. *)
Lemma sleep_wraps : sleep_ms 4294968 = 704 ∧ nanosleep_ms 2147484 0 = 2 ^ 64 - 2147483296.
Proof. by vm_compute. Qed.

End Hook.
