(* ===== verification/Eventloop.v ===== *)
(** * The event loop (src/bobliew/iomanager.cc [idle], with hook.cc and scheduler.cc)

    Fibers in hooked calls, the event table, the timers and the queue of tasks
    as one system.  A fiber is in a phase of its call (Hook.v); what can wake it
    is in one of three places: the event table, a timer, or the queue.  The loop
    of [idle] moves what is due from the first two to the queue, a worker takes
    tasks from the queue and resumes fibers or runs callbacks.  The theorems say
    that a suspended fiber is in exactly one of those places, that no step is
    undefined, and that a wait with a timeout ends. *)

From S2P Require Import Prelude Fdmanager Timer Iomanager Hook.

Module EventLoop.
Import Hook.

Abbreviation task := (IOManager.task callback).

Record sys := Sys { hk : hook; fibers : gmap Z phase }.

Definition queue (h : hook) : list task := IOManager.scheduled (iom h).

Section loop.
(** The address of the manager. *)
Context (self : Z).

Definition fiber_task (f : Z) : task := IOManager.Task self (Some f) None.
Definition cb_task (b : callback) : task := IOManager.Task self None (Some b).

(** ** The loop of [idle] *)

(** [schedule(cbs.begin(), cbs.end())]: an empty [std::function] is not queued. *)
Definition push_all (cbs : list (option callback)) : M (IOManager.io callback) unit := λ st,
  Ret tt (IOManager.Io (IOManager.m_fdContexts st) (IOManager.m_pendingEventCount st)
    (IOManager.epoll st) (IOManager.scheduled st ++ (cb_task <$> omap id cbs))).

(** [listExpireCb(cbs)] and the scheduling of the callbacks; [a0] is the address
    of [now_timer]. *)
Definition expire (a0 : Z) : M hook unit := λ h,
  match Timer.listExpireCb (clock h) a0 (tim h) with
  | None => UB
  | Some (v, cbs) => on_iom (push_all cbs) (set_tim v h)
  end.

(** One [epoll_event]: the tickle pipe, read empty, or a descriptor. *)
Inductive ready := Tickle | Ready (fd evs : Z).

Definition handle_ready (ctl : bool) (r : ready) : M hook unit :=
  match r with
  | Tickle => upd (set_pipe 0)
  | Ready fd evs => on_iom (IOManager.handle_event ctl fd evs)
  end.

Fixpoint handle_all (ctl : bool) (rs : list ready) : M hook unit :=
  match rs with
  | [] => ret tt
  | r :: rs => handle_ready ctl r ;! handle_all ctl rs
  end.

(** [stopping(next_timeout)] and the wait it leads to, [None] when the loop ends. *)
Definition idle_wait (scheduler_stopping : bool) : M hook (option Z) := λ h,
  let '(v, next_timeout) := Timer.getNextTimer (clock h) (tim h) in
  let h := set_tim v h in
  if IOManager.stopping next_timeout scheduler_stopping (iom h) then Ret None h
  else Ret (Some (IOManager.wait_ms next_timeout)) h.

(** The rest of a round, after [epoll_wait] returned [rs]. *)
Definition idle_round (ctl : bool) (a0 : Z) (rs : list ready) : M hook unit :=
  expire a0 ;! handle_all ctl rs.

(** ** Running a task *)

(** A computation of a fiber's call, which leaves it in a new phase. *)
Definition enter (f : Z) (m : M hook phase) : M sys unit := λ s,
  match m (hk s) with
  | Ret p h => Ret tt (Sys h (<[f := p]> (fibers s)))
  | Throw e h => Throw e (Sys h (fibers s))
  | UB => UB
  end.

(** The fiber continues after its [YieldToHold]. *)
Definition resume (f : Z) : M sys unit := λ s,
  match fibers s !! f with
  | Some (Waiting k timer) => enter f (do_io_resumed k timer) s
  | Some (ConnWaiting k timer) => enter f (connect_resumed k timer) s
  | Some Sleeping => enter f (ret (Finished 0 None)) s
  | _ => UB
  end.

Definition run_task (ctl : bool) (t : task) : M sys unit := λ s,
  match IOManager.t_cb t with
  | Some b =>
      match run_callback self ctl b (hk s) with
      | Ret _ h => Ret tt (Sys h (fibers s))
      | Throw e h => Throw e (Sys h (fibers s))
      | UB => UB
      end
  | None =>
      match IOManager.t_fiber t with
      | Some f => resume f s
      | None => UB
      end
  end.

Definition set_queue (q : list task) (h : hook) : hook :=
  set_iom (IOManager.Io (IOManager.m_fdContexts (iom h)) (IOManager.m_pendingEventCount (iom h))
             (IOManager.epoll (iom h)) q) h.

(** The task at position [i] is taken from the queue and run. *)
Definition take_task (ctl : bool) (i : nat) : M sys unit := λ s,
  match queue (hk s) !! i with
  | Some t => run_task ctl t (Sys (set_queue (take i (queue (hk s)) ++ drop (S i) (queue (hk s))) (hk s))
                                  (fibers s))
  | None => UB
  end.

(** ** The steps of the system *)

(** The fiber is in the middle of a call, on a thread. *)
Definition running (p : phase) : bool :=
  match p with
  | Passing | Calling _ | Connecting _ _ | SockError _ => true
  | _ => false
  end.

Definition suspended (p : phase) : bool :=
  match p with Waiting _ _ | ConnWaiting _ _ | Sleeping => true | _ => false end.

(** The call a phase belongs to, and the wait. *)
Definition call_of (p : phase) : option call :=
  match p with
  | Calling k | Waiting k _ | ConnWaiting k _ | SockError k => Some k
  | _ => None
  end.
Definition wait_of (p : phase) : option (call * option Z) :=
  match p with Waiting k tm | ConnWaiting k tm => Some (k, tm) | _ => None end.

Definition quiet (s : sys) : Prop := ∀ f p, fibers s !! f = Some p → running p = false.

(** No call of the fiber is in progress. *)
Definition at_rest (s : sys) (f : Z) : Prop :=
  match fibers s !! f with None | Some (Finished _ _) => True | _ => False end.

(** A timeout that can be added to the clock. *)
Definition fits (h : hook) (to : Z) : Prop := to = 2 ^ 64 - 1 ∨ 0 ≤ to ∧ clock h + to < 2 ^ 64.

Definition free (h : hook) (fd event : Z) : Prop := IOManager.waiting (iom h) fd event = None.

(** Everything but taking a task: fibers that start calls and get answers from
    the kernel, the kernel's events, other code cancelling events, and time.  The
    kernel's bookkeeping of registered descriptors works ([epoll_ctl] fails only
    when adding); two fibers do not wait for the same event of a descriptor,
    which [addEvent] asserts. *)
Inductive env (s : sys) : sys → Prop :=
| env_call f io fd p h :
    at_rest s f → 0 ≤ fd → do_io io fd (hk s) = Ret p h → env s (Sys h (<[f := p]> (fibers s)))
| env_sleep f ms p h :
    at_rest s f → 0 ≤ ms → clock (hk s) + ms < 2 ^ 64 → sleep_for f ms (hk s) = Ret p h →
    env s (Sys h (<[f := p]> (fibers s)))
| env_connect f fd to p h :
    at_rest s f → 0 ≤ fd → connect_with_timeout fd to (hk s) = Ret p h →
    env s (Sys h (<[f := p]> (fibers s)))
| env_return f k ctl n errno p h :
    fibers s !! f = Some (Calling k) →
    (n = -1 → errno = EAGAIN → fits (hk s) (c_to k) ∧ free (hk s) (c_fd k) (c_event k)) →
    do_io_returned self f ctl k n errno (hk s) = Ret p h → env s (Sys h (<[f := p]> (fibers s)))
| env_connected f fd to ctl n errno p h :
    fibers s !! f = Some (Connecting fd to) →
    (n = -1 → errno = EINPROGRESS → fits (hk s) to ∧ free (hk s) fd IOManager.WRITE) →
    connect_returned self f ctl fd to n errno (hk s) = Ret p h →
    env s (Sys h (<[f := p]> (fibers s)))
| env_sockerr f k rt errno error p h :
    fibers s !! f = Some (SockError k) → connect_sockerr k rt errno error (hk s) = Ret p h →
    env s (Sys h (<[f := p]> (fibers s)))
| env_passed f n errno :
    fibers s !! f = Some Passing → env s (Sys (hk s) (<[f := Finished n errno]> (fibers s)))
| env_ready fd evs c h :
    0 ≤ fd → IOManager.ctx_at fd (iom (hk s)) = Some c →
    Z.land (IOManager.real_events_of evs (IOManager.events c)) (IOManager.events c)
      = IOManager.real_events_of evs (IOManager.events c) →
    handle_ready true (Ready fd evs) (hk s) = Ret tt h → env s (Sys h (fibers s))
| env_tickled : env s (Sys (set_pipe 0 (hk s)) (fibers s))
| env_cancelEvent fd event r h :
    0 ≤ fd < IOManager.size (iom (hk s)) → IOManager.is_event event →
    on_iom (IOManager.cancelEvent true fd event) (hk s) = Ret r h → env s (Sys h (fibers s))
| env_cancelAll fd r h :
    0 ≤ fd < IOManager.size (iom (hk s)) →
    on_iom (IOManager.cancelAll true fd) (hk s) = Ret r h → env s (Sys h (fibers s))
| env_expire a0 h :
    Timer.rearmable (clock (hk s)) (Timer.store (tim (hk s))) →
    expire a0 (hk s) = Ret tt h → env s (Sys h (fibers s))
| env_tick now : 0 < now → env s (Sys (set_clock now (hk s)) (fibers s)).

(** The worker takes a task; it does so when it runs no fiber.  The relation is that
    of a manager with one worker thread, on which no fiber runs then: what a fiber
    does between two suspensions is not interrupted by other tasks. *)
Inductive take_at (s : sys) (i : nat) : sys → Prop :=
| take_run s' : quiet s → take_task true i s = Ret tt s' → take_at s i s'.

Inductive step (s : sys) : sys → Prop :=
| step_env s' : env s s' → step s s'
| step_take i s' : take_at s i s' → step s s'.

(** No fiber, no event, no timer. *)
Definition boot (s : sys) : Prop :=
  iom (hk s) = IOManager.new_io ∧ tim (hk s) = Timer.new_manager ∧ tinfos (hk s) = ∅ ∧
  0 < clock (hk s) ∧ fibers s = ∅.

Definition reachable (s : sys) : Prop := ∃ s0, boot s0 ∧ rtc step s0 s.

(** ** The invariant

    It speaks of the system through a view: what is registered, queued, armed. *)

Record view := View {
  v_fib : Z → option phase;
  v_wait : Z → Z → option task;
  v_q : list task;
  v_cb : Z → option callback;      (* the callback of an armed timer *)
  v_ti : Z → option Z;
  v_addr : Z;
  v_size : Z
}.

Definition timer_cb (h : hook) (a : Z) : option callback := Timer.store (tim h) !! a ≫= Timer.m_cb.

Definition view_of (s : sys) : view :=
  View (λ f, fibers s !! f) (IOManager.waiting (iom (hk s))) (queue (hk s)) (timer_cb (hk s))
    (λ w, tinfos (hk s) !! w) (addr (hk s)) (IOManager.size (iom (hk s))).

(** The tasks that lead to the fiber being resumed, and how many are queued. *)
Definition wakes (f : Z) (t : task) : Prop :=
  t = fiber_task f ∨ t = cb_task (Timer.Plain (schedule_fiber f)).

#[local] Instance task_eq_dec : EqDecision task.
Proof. solve_decision. Defined.
#[local] Instance wakes_dec f t : Decision (wakes f t).
Proof. unfold wakes. apply _. Defined.

Definition nq (f : Z) (q : list task) : nat := length (filter (wakes f) q).
#[local] Arguments nq : simpl never.

(** The callback of the condition timer of a call. *)
Definition timeout_cb (k : call) : callback :=
  Timer.OnTimer (c_tinfo k) (on_timeout (c_tinfo k) (c_fd k) (c_event k)).

Definition cb_ok (v : view) (b : callback) : Prop :=
  match b with
  | Timer.OnTimer w (on_timeout w' fd event) =>
      w' = w ∧ w < v_addr v ∧ 0 ≤ fd < v_size v ∧ IOManager.is_event event ∧
      ∀ f p k, v_fib v f = Some p → call_of p = Some k → c_tinfo k = w → c_fd k = fd ∧ c_event k = event
  | Timer.Plain (schedule_fiber _) => True
  | _ => False
  end.

(** What wakes a fiber in phase [p]: nothing unless it is suspended; exactly one
    thing if it is. *)
Definition wake_ok (v : view) (f : Z) (p : option phase) : Prop :=
  let armed a := v_cb v a = Some (Timer.Plain (schedule_fiber f)) in
  match p with
  | Some (Waiting k _) | Some (ConnWaiting k _) =>
      (∀ a, ¬ armed a) ∧
      (v_wait v (c_fd k) (c_event k) = Some (fiber_task f) ∧ nq f (v_q v) = 0%nat ∨
       v_wait v (c_fd k) (c_event k) ≠ Some (fiber_task f) ∧ nq f (v_q v) = 1%nat)
  | Some Sleeping =>
      (∃ a, armed a ∧ (∀ b, armed b → b = a) ∧ nq f (v_q v) = 0%nat) ∨
      (∀ a, ¬ armed a) ∧ nq f (v_q v) = 1%nat
  | _ => (∀ a, ¬ armed a) ∧ nq f (v_q v) = 0%nat
  end.

(** A wait has its [timer_info]; once that says [ETIMEDOUT] the fiber is on its
    way, and until then a timer that is set is armed or its callback queued. *)
Definition timeout_ok (v : view) (f : Z) (k : call) (tm : option Z) : Prop :=
  ∃ c, v_ti v (c_tinfo k) = Some c ∧
    (c ≠ 0 → c = ETIMEDOUT ∧ nq f (v_q v) = 1%nat) ∧
    (c = 0 → ∀ a, tm = Some a → v_cb v a = Some (timeout_cb k) ∨ cb_task (timeout_cb k) ∈ v_q v).

Record okv (v : view) : Prop := {
  ok_cb : ∀ b, (∃ a, v_cb v a = Some b) ∨ cb_task b ∈ v_q v → cb_ok v b;
  ok_ti : ∀ w, is_Some (v_ti v w) → w < v_addr v;
  ok_call : ∀ f p k, v_fib v f = Some p → call_of p = Some k →
    is_Some (v_ti v (c_tinfo k)) ∧ 0 ≤ c_fd k ∧ IOManager.is_event (c_event k) ∧
    (wait_of p = None → v_ti v (c_tinfo k) = Some 0) ∧
    ∀ f' p' k', v_fib v f' = Some p' → call_of p' = Some k' → c_tinfo k' = c_tinfo k → f' = f;
  ok_conn : ∀ f fd to, v_fib v f = Some (Connecting fd to) → 0 ≤ fd;
  ok_tm : ∀ f p k a, v_fib v f = Some p → wait_of p = Some (k, Some a) →
    a < v_addr v ∧ (∀ b, v_cb v a = Some b → b = timeout_cb k) ∧
    ∀ f' p' k', v_fib v f' = Some p' → wait_of p' = Some (k', Some a) → f' = f;
  ok_q : ∀ t, t ∈ v_q v → (∃ f, t = fiber_task f) ∨ ∃ b, t = cb_task b;
  ok_table : ∀ fd event t, 0 ≤ fd → IOManager.is_event event → v_wait v fd event = Some t →
    fd < v_size v ∧
    ∃ f p k tm, t = fiber_task f ∧ v_fib v f = Some p ∧ wait_of p = Some (k, tm) ∧
      c_fd k = fd ∧ c_event k = event;
  ok_wake : ∀ f, wake_ok v f (v_fib v f);
  ok_timeout : ∀ f p k tm, v_fib v f = Some p → wait_of p = Some (k, tm) → timeout_ok v f k tm
}.

Record ok (s : sys) : Prop := {
  ok_io : IOManager.inv (iom (hk s));
  ok_tim : Timer.wf (tim (hk s));
  ok_clock : 0 < clock (hk s);
  ok_store : ∀ a t, Timer.store (tim (hk s)) !! a = Some t → a < addr (hk s) ∧ Timer.m_recurring t = false;
  ok_timer : ∀ f p k a, fibers s !! f = Some p → wait_of p = Some (k, Some a) →
    is_Some (Timer.store (tim (hk s)) !! a);
  ok_view : okv (view_of s)
}.

(** *** Views up to what they answer *)

Record same (v v' : view) : Prop := {
  same_fib : ∀ f, v_fib v f = v_fib v' f;
  same_wait : ∀ fd event, 0 ≤ fd → IOManager.is_event event → v_wait v fd event = v_wait v' fd event;
  same_q : v_q v = v_q v';
  same_cb : ∀ a, v_cb v a = v_cb v' a;
  same_ti : ∀ w, v_ti v w = v_ti v' w;
  same_addr : v_addr v = v_addr v';
  same_size : v_size v = v_size v'
}.

Lemma wake_ok_ext v v' f p :
  (∀ a, v_cb v a = v_cb v' a) → v_q v = v_q v' →
  (∀ k tm, p ≫= wait_of = Some (k, tm) →
     v_wait v (c_fd k) (c_event k) = v_wait v' (c_fd k) (c_event k)) →
  wake_ok v f p → wake_ok v' f p.
Proof.
  intros Hcb Hq Hw. unfold wake_ok. destruct p as [[|k|k tm| |k tm|k| |]|]; rewrite <- ?Hq;
    try (intros [Ha Hn]; split; [intros a; by rewrite <- Hcb|done]).
  - intros [Ha Hn]. split; [intros a; by rewrite <- Hcb|]. by rewrite <- (Hw k tm).
  - intros [Ha Hn]. split; [intros a; by rewrite <- Hcb|]. by rewrite <- (Hw k tm).
  - intros [(a & Ha & Hu & Hn)|[Ha Hn]].
    + left. exists a. rewrite <- Hcb. split_and!; [done| |done]. intros b. rewrite <- Hcb. apply Hu.
    + right. split; [intros a; by rewrite <- Hcb|done].
Qed.

Lemma okv_ext v v' : same v v' → okv v → okv v'.
Proof.
  intros [Sf Sw Sq Sc St Sa Ss] [H1 H2 H3 H4 H5 H6 H7 H8 H9]. split.
  - intros b Hb. rewrite <- Sq in Hb. setoid_rewrite <- Sc in Hb. specialize (H1 b Hb).
    unfold cb_ok in *. destruct b as [|w []]; try done.
    rewrite <- Sa, <- Ss. destruct H1 as (? & ? & ? & ? & Hf). split_and!; try done; try lia.
    intros f p k. rewrite <- Sf. apply Hf.
  - intros w. rewrite <- St, <- Sa. apply H2.
  - intros f p k. rewrite <- Sf, <- St. intros Hf Hk. destruct (H3 f p k Hf Hk) as (? & ? & ? & ? & Hu).
    split_and!; try done. intros f' p' k'. rewrite <- Sf. apply Hu.
  - intros f fd to. rewrite <- Sf. apply H4.
  - intros f p k a. rewrite <- Sf, <- Sa, <- Sc. intros Hp Hk. destruct (H5 f p k a Hp Hk) as (? & ? & Hu).
    split_and!; try done. intros f' p' k'. rewrite <- Sf. apply Hu.
  - intros t. rewrite <- Sq. apply H6.
  - intros fd event t Hfd Hev. rewrite <- Sw, <- Ss by done. intros Hw.
    destruct (H7 fd event t Hfd Hev Hw) as (? & f & p & k & tm & Ht & Hp & ?).
    split; [done|]. exists f, p, k, tm. by rewrite <- Sf.
  - intros f. rewrite <- Sf. apply (wake_ok_ext v v'); try done. intros k tm Hk.
    destruct (v_fib v f) as [p|] eqn:Hp; [|done]. cbn in Hk.
    assert (call_of p = Some k) as Hc by (by destruct p; simplify_eq/=).
    destruct (H3 f p k Hp Hc) as (_ & ? & ? & _). by apply Sw.
  - intros f p k tm. rewrite <- Sf. intros Hp Hw. destruct (H9 f p k tm Hp Hw) as (c & Hc & Ha & Hb).
    exists c. rewrite <- St, <- Sq. split_and!; try done. intros Hz a Htm. rewrite <- Sc. by apply Hb.
Qed.

#[local] Instance same_equiv : Equivalence same.
Proof.
  split.
  - by intros v.
  - intros v v' [H1 H2 H3 H4 H5 H6 H7]. split; intros; symmetry; auto.
  - intros v1 v2 v3 [H1 H2 H3 H4 H5 H6 H7] [G1 G2 G3 G4 G5 G6 G7].
    split; intros; [rewrite H1|rewrite H2|rewrite H3|rewrite H4|rewrite H5|rewrite H6|rewrite H7]; auto.
Qed.

#[local] Instance okv_proper : Proper (same ==> iff) okv.
Proof. intros v v' H. split; apply okv_ext; [done|by symmetry]. Qed.

(** Updating a function at a point. *)
Definition at_ {A} (x : Z) (y : A) (g : Z → A) : Z → A := λ z, if decide (z = x) then y else g z.
Definition at2 {A} (x1 x2 : Z) (y : A) (g : Z → Z → A) : Z → Z → A :=
  λ z1 z2, if decide (z1 = x1 ∧ z2 = x2) then y else g z1 z2.

Lemma at_Some {A} x (y : A) g z w :
  at_ x (Some y) g z = Some w ↔ z = x ∧ w = y ∨ z ≠ x ∧ g z = Some w.
Proof.
  unfold at_. case_decide as E; split.
  - intros [= <-]. by left.
  - intros [[_ ->]|[? _]]; done.
  - by right.
  - intros [[? _]|[_ ?]]; done.
Qed.

Lemma at_None {A} x (g : Z → option A) z w : at_ x None g z = Some w ↔ z ≠ x ∧ g z = Some w.
Proof. unfold at_. case_decide as E; split; [done|by intros [? _]|done|by intros [_ ?]]. Qed.

Lemma wait_call p k tm : wait_of p = Some (k, tm) → call_of p = Some k ∧ suspended p = true.
Proof. by destruct p; intros; simplify_eq/=. Qed.

(** *** Counting what is queued *)

Lemma nq_app f q1 q2 : nq f (q1 ++ q2) = (nq f q1 + nq f q2)%nat.
Proof. unfold nq. by rewrite filter_app, length_app. Qed.

Lemma nq_fiber f g : nq f [fiber_task g] = if decide (f = g) then 1%nat else 0%nat.
Proof.
  unfold nq. rewrite filter_cons. case_decide as E; case_decide as D; try done.
  - destruct E as [[= ->]|[=]]. done.
  - destruct E. subst. by left.
Qed.

Lemma nq_cb f b :
  nq f [cb_task b] = if decide (b = Timer.Plain (schedule_fiber f)) then 1%nat else 0%nat.
Proof.
  unfold nq. rewrite filter_cons. case_decide as E; case_decide as D; try done.
  - destruct E as [[=]|[= ->]]. done.
  - destruct E. subst. by right.
Qed.

Lemma nq_pop f q1 t q2 : nq f (q1 ++ t :: q2) = (nq f [t] + nq f (q1 ++ q2))%nat.
Proof. change (t :: q2) with ([t] ++ q2). rewrite !nq_app. lia. Qed.

Lemma nq_timeout f w cb : nq f [cb_task (Timer.OnTimer w cb)] = 0%nat.
Proof. by rewrite nq_cb. Qed.

(** *** The moves, on views *)

(** Addresses and the table only grow. *)
Lemma okv_grow v addr' size' :
  okv v → v_addr v ≤ addr' → v_size v ≤ size' →
  okv (View (v_fib v) (v_wait v) (v_q v) (v_cb v) (v_ti v) addr' size').
Proof.
  intros [H1 H2 H3 H4 H5 H6 H7 H8 H9] Ha Hs. split; cbn; try done.
  - intros b Hb. specialize (H1 b Hb). unfold cb_ok in *. destruct b as [|w []]; try done. cbn.
    destruct H1 as (? & ? & ? & ? & ?). split_and!; try done; lia.
  - intros w Hw. specialize (H2 w Hw). lia.
  - intros f p k a Hp Hw. destruct (H5 f p k a Hp Hw) as (? & ? & ?). split_and!; try done. lia.
  - intros fd event t Hfd Hev Hw. destruct (H7 fd event t Hfd Hev Hw) as [? ?]. split; [lia|done].
Qed.

(** A fiber that is not suspended has nothing in the table. *)
Lemma table_not v f fd event :
  okv v → 0 ≤ fd → IOManager.is_event event →
  (∀ p, v_fib v f = Some p → suspended p = false) → v_wait v fd event ≠ Some (fiber_task f).
Proof.
  intros Hok Hfd Hev Hns Hw.
  destruct (ok_table v Hok fd event _ Hfd Hev Hw) as (_ & f' & p & k & tm & Ht & Hp & Hk & _).
  injection Ht as <-. apply wait_call in Hk as [_ Hk]. by rewrite (Hns p Hp) in Hk.
Qed.

(** A fiber that is not suspended goes to a phase with no call; what it had is
    given up ([gone] is its [timer_info]). *)
Lemma okv_drop v f p' ti' :
  okv v → (∀ p, v_fib v f = Some p → suspended p = false) →
  suspended p' = false → call_of p' = None → (∀ fd to, p' = Connecting fd to → 0 ≤ fd) →
  (∀ w, ti' w = v_ti v w ∨ ti' w = None ∧ ∃ p k, v_fib v f = Some p ∧ call_of p = Some k ∧ c_tinfo k = w) →
  okv (View (at_ f (Some p') (v_fib v)) (v_wait v) (v_q v) (v_cb v) ti' (v_addr v) (v_size v)).
Proof.
  intros Hok Hns Hns' Hc' Hconn Hti.
  assert (∀ g p k, g ≠ f → v_fib v g = Some p → call_of p = Some k → ti' (c_tinfo k) = v_ti v (c_tinfo k)) as Hkeep.
  { intros g p k Hg Hp Hk. destruct (Hti (c_tinfo k)) as [?|[_ (p0 & k0 & Hp0 & Hk0 & He)]]; [done|].
    destruct (ok_call v Hok g p k Hp Hk) as (_ & _ & _ & _ & Hu). destruct Hg. symmetry. by eapply Hu. }
  assert (wait_of p' = None) as Hw' by (by destruct p').
  destruct Hok as [H1 H2 H3 H4 H5 H6 H7 H8 H9]. split; cbn; try done.
  - intros b Hb. specialize (H1 b Hb). unfold cb_ok in *. destruct b as [|w []]; try done. cbn.
    destruct H1 as (? & ? & ? & ? & Hf). split_and!; try done; try lia.
    intros g p k Hp Hk. apply at_Some in Hp as [[-> ->]|[Hg Hp]]; [congruence|]. by eapply Hf.
  - intros w Hw. apply H2. destruct (Hti w) as [E|[E _]]; rewrite E in Hw; [done|by destruct Hw].
  - intros g p k Hp Hk. apply at_Some in Hp as [[-> ->]|[Hg Hp]]; [congruence|].
    rewrite (Hkeep g p k) by done. destruct (H3 g p k Hp Hk) as (? & ? & ? & ? & Hu). split_and!; try done.
    intros g' q k' Hq Hk'. apply at_Some in Hq as [[-> ->]|[Hg' Hq]]; [congruence|]. by eapply Hu.
  - intros g fd to Hp. apply at_Some in Hp as [[-> <-]|[Hg Hp]]; [by eapply Hconn|by eapply H4].
  - intros g p k a Hp Hk. apply at_Some in Hp as [[-> ->]|[Hg Hp]]; [congruence|].
    destruct (H5 g p k a Hp Hk) as (? & ? & Hu). split_and!; try done.
    intros g' q k' Hq Hk'. apply at_Some in Hq as [[-> ->]|[Hg' Hq]]; [congruence|by eapply Hu].
  - intros fd event t Hfd Hev Hw. destruct (H7 fd event t Hfd Hev Hw) as (? & g & p & k & tm & Ht & Hp & Hk & ?).
    split; [done|]. exists g, p, k, tm. unfold at_. rewrite decide_False; [done|]. intros ->.
    apply wait_call in Hk as [_ Hk]. by rewrite (Hns p Hp) in Hk.
  - intros g. change (at_ f (Some p') (v_fib v) g) with (if decide (g = f) then Some p' else v_fib v g).
    case_decide as E; [|by apply (wake_ok_ext v)].
    subst. specialize (H8 f). destruct (v_fib v f) as [p|] eqn:Hp.
    + specialize (Hns p eq_refl). by destruct p, p'.
    + by destruct p'.
  - intros g p k tm Hp Hk. apply at_Some in Hp as [[-> ->]|[Hg Hp]]; [congruence|].
    destruct (H9 g p k tm Hp Hk) as (c & Hc & ?). exists c. cbn.
    apply wait_call in Hk as [Hk _]. by rewrite (Hkeep g p k).
Qed.

(** A fiber that is not suspended starts a call with a new [timer_info]. *)
Lemma okv_new v f p' k :
  okv v → (∀ p, v_fib v f = Some p → suspended p = false) →
  suspended p' = false → call_of p' = Some k → c_tinfo k = v_addr v →
  0 ≤ c_fd k → IOManager.is_event (c_event k) →
  okv (View (at_ f (Some p') (v_fib v)) (v_wait v) (v_q v) (v_cb v) (at_ (v_addr v) (Some 0) (v_ti v))
         (v_addr v + 1) (v_size v)).
Proof.
  intros Hok Hns Hns' Hc' Htk Hfd Hev.
  assert (wait_of p' = None ∧ ∀ fd to, p' ≠ Connecting fd to) as [Hw' Hnc] by (by destruct p').
  assert (∀ g p k, v_fib v g = Some p → call_of p = Some k → c_tinfo k ≠ v_addr v) as Hfresh.
  { intros g p k0 Hp Hk0 E. destruct (ok_call v Hok g p k0 Hp Hk0) as (Hs & _).
    apply (ok_ti v Hok) in Hs. lia. }
  assert (∀ w, w ≠ v_addr v → at_ (v_addr v) (Some 0) (v_ti v) w = v_ti v w) as Hti
    by (intros; unfold at_; by rewrite decide_False).
  destruct Hok as [H1 H2 H3 H4 H5 H6 H7 H8 H9]. split; cbn; try done.
  - intros b Hb. specialize (H1 b Hb). unfold cb_ok in *. destruct b as [|w []]; try done. cbn.
    destruct H1 as (? & ? & ? & ? & Hf). split_and!; try done; try lia.
    intros g p k0 Hp Hk. apply at_Some in Hp as [[-> ->]|[Hg Hp]]; [|by eapply Hf].
    simplify_eq. lia.
  - intros w. unfold at_. case_decide; [lia|]. intros Hw%H2. lia.
  - intros g p k0 Hp Hk. apply at_Some in Hp as [[-> ->]|[Hg Hp]].
    + simplify_eq. rewrite Htk. unfold at_ at 1 2. rewrite decide_True by done. split_and!; [by eexists|done|done|done|].
      intros g' q k' Hq Hk'. apply at_Some in Hq as [[-> ->]|[Hg' Hq]]; [done|].
      intros E. by destruct (Hfresh g' q k' Hq Hk').
    + rewrite Hti by by eapply Hfresh. destruct (H3 g p k0 Hp Hk) as (? & ? & ? & ? & Hu). split_and!; try done.
      intros g' q k' Hq Hk'. apply at_Some in Hq as [[-> ->]|[Hg' Hq]]; [|by eapply Hu].
      simplify_eq. intros E. destruct (Hfresh g p k0 Hp Hk). congruence.
  - intros g fd to Hp. apply at_Some in Hp as [[-> <-]|[Hg Hp]]; [by destruct (Hnc fd to)|by eapply H4].
  - intros g p k0 a Hp Hk. apply at_Some in Hp as [[-> ->]|[Hg Hp]]; [congruence|].
    destruct (H5 g p k0 a Hp Hk) as (? & ? & Hu). split_and!; [lia|done|].
    intros g' q k' Hq Hk'. apply at_Some in Hq as [[-> ->]|[Hg' Hq]]; [congruence|by eapply Hu].
  - intros fd event t Hfd' Hev' Hw. destruct (H7 fd event t Hfd' Hev' Hw) as (? & g & p & k0 & tm & Ht & Hp & Hk & ?).
    split; [done|]. exists g, p, k0, tm. unfold at_. rewrite decide_False; [done|]. intros ->.
    apply wait_call in Hk as [_ Hk]. by rewrite (Hns p Hp) in Hk.
  - intros g. change (at_ f (Some p') (v_fib v) g) with (if decide (g = f) then Some p' else v_fib v g).
    case_decide as E; [|by apply (wake_ok_ext v)].
    subst. specialize (H8 f). destruct (v_fib v f) as [p|] eqn:Hp.
    + specialize (Hns p eq_refl). by destruct p, p'.
    + by destruct p'.
  - intros g p k0 tm Hp Hk. apply at_Some in Hp as [[-> ->]|[Hg Hp]]; [congruence|].
    destruct (H9 g p k0 tm Hp Hk) as (c & Hc & ?). exists c. cbn.
    apply wait_call in Hk as [Hk _]. by rewrite Hti by by eapply Hfresh.
Qed.

(** A fiber in a call registers for the event of the call, with its timer armed,
    and is suspended. *)
Lemma okv_suspend v f p p' k tm size' :
  okv v → v_fib v f = Some p → call_of p = Some k → wait_of p = None → wait_of p' = Some (k, tm) →
  v_wait v (c_fd k) (c_event k) = None → v_size v ≤ size' → c_fd k < size' →
  (∀ a, tm = Some a → v_cb v a = None ∧ a < v_addr v ∧
     ∀ g q j, v_fib v g = Some q → wait_of q ≠ Some (j, Some a)) →
  okv (View (at_ f (Some p') (v_fib v)) (at2 (c_fd k) (c_event k) (Some (fiber_task f)) (v_wait v)) (v_q v)
         (match tm with Some a => at_ a (Some (timeout_cb k)) (v_cb v) | None => v_cb v end)
         (v_ti v) (v_addr v) size').
Proof.
  intros Hok Hf Hk Hnw Hw' Hnone Hsz Hlt Htm.
  set (cb' := match tm with Some a => _ | None => _ end).
  assert (∀ a b, cb' a = Some b → v_cb v a = Some b ∨ tm = Some a ∧ b = timeout_cb k) as Hcb.
  { intros a b. unfold cb'. destruct tm as [a'|]; [|by left]. unfold at_. case_decide; [|by left].
    subst. intros [= <-]. by right. }
  assert (∀ a b, v_cb v a = Some b → cb' a = Some b) as Hcb2.
  { intros a b Hb. unfold cb'. destruct tm as [a'|]; [|done]. unfold at_. case_decide; [|done].
    subst. destruct (Htm a' eq_refl). congruence. }
  assert (∀ g, (∀ a, v_cb v a = Some (Timer.Plain (schedule_fiber g)) ↔
                 cb' a = Some (Timer.Plain (schedule_fiber g)))) as Harm.
  { intros g a. split; [apply Hcb2|]. intros H. by apply Hcb in H as [?|[_ ?]]. }
  destruct (ok_call v Hok f p k Hf Hk) as (Hti & Hfd & Hev & Hz & Hu).
  assert (suspended p = false ∧ call_of p' = Some k) as [Hns Hk'] by (by destruct p, p'; simplify_eq/=).
  assert (∀ g q j, at_ f (Some p') (v_fib v) g = Some q → call_of q = Some j →
    ∃ q', v_fib v g = Some q' ∧ call_of q' = Some j ∧ (wait_of q = None → q = q')) as Hback.
  { intros g q j Hq Hj. apply at_Some in Hq as [[-> ->]|[Hg Hq]]; [|eauto].
    exists p. split_and!; [done|congruence|congruence]. }
  assert (wake_ok v f (Some p)) as Hwf by (rewrite <- Hf; apply (ok_wake v Hok)).
  assert ((∀ a, v_cb v a ≠ Some (Timer.Plain (schedule_fiber f))) ∧ nq f (v_q v) = 0%nat) as [Hnarm Hnq]
    by (unfold wake_ok in Hwf; by destruct p).
  assert (∀ g p0 k0 tm0, g ≠ f → v_fib v g = Some p0 → wait_of p0 = Some (k0, tm0) →
    v_wait v (c_fd k0) (c_event k0) = at2 (c_fd k) (c_event k) (Some (fiber_task f)) (v_wait v) (c_fd k0) (c_event k0)
    ∨ c_fd k0 = c_fd k ∧ c_event k0 = c_event k) as Hother.
  { intros g p0 k0 tm0 _ _ _. unfold at2. case_decide; [by right|by left]. }
  destruct Hok as [H1 H2 H3 H4 H5 H6 H7 H8 H9]. split; cbn; try done.
  - intros b Hb.
    assert (cb_ok v b ∨ b = timeout_cb k ∧ ∃ a, tm = Some a) as [Hb'|[-> [a Ha]]].
    { destruct Hb as [[a Ha]|Hb]; [|left; apply H1; by right].
      apply Hcb in Ha as [Ha|[Ha ->]]; [left; apply H1; left; eauto|right; eauto]. }
    + unfold cb_ok in *. destruct b as [|w []]; try done. cbn. destruct Hb' as (? & ? & ? & ? & Hall).
      split_and!; try done; try lia. intros g q j Hq Hj. destruct (Hback g q j Hq Hj) as (q' & ? & ? & _). by eapply Hall.
    + unfold cb_ok, timeout_cb. cbn. split_and!; try done; try lia; [by apply H2|].
      intros g q j Hq Hj E. destruct (Hback g q j Hq Hj) as (q' & Hq' & Hj' & _).
      assert (g = f) as -> by by eapply Hu. rewrite Hf in Hq'. simplify_eq. done.
  - intros g q j Hq Hj. destruct (Hback g q j Hq Hj) as (q' & Hq' & Hj' & Hsame).
    destruct (H3 g q' j Hq' Hj') as (? & ? & ? & Hz' & Hu'). split_and!; try done.
    + intros Hn. apply Hz'. by rewrite <- (Hsame Hn).
    + intros g' r j' Hr Hjr. destruct (Hback g' r j' Hr Hjr) as (r' & Hr' & Hjr' & _). by eapply Hu'.
  - intros g fd to Hq. apply at_Some in Hq as [[-> <-]|[Hg Hq]]; [done|by eapply H4].
  - intros g q j a Hq Hj. apply at_Some in Hq as [[-> ->]|[Hg Hq]].
    + simplify_eq. destruct (Htm a eq_refl) as (Hna & ? & Hne). split_and!; [done| |].
      * intros b Hb. apply Hcb in Hb as [?|[_ ?]]; [congruence|done].
      * intros g' r j' Hr Hj'. apply at_Some in Hr as [[-> ->]|[Hg' Hr]]; [done|by destruct (Hne g' r j')].
    + destruct (H5 g q j a Hq Hj) as (? & Hb & Hu1). split_and!; [done| |].
      * intros b Hb'. apply Hcb in Hb' as [?|[-> _]]; [by apply Hb|].
        destruct (Htm a eq_refl) as (_ & _ & Hne). by destruct (Hne g q j).
      * intros g' r j' Hr Hj'. apply at_Some in Hr as [[-> ->]|[Hg' Hr]]; [|by eapply Hu1].
        simplify_eq. destruct (Htm a eq_refl) as (_ & _ & Hne). by destruct (Hne g q j).
  - intros fd event t Hfd' Hev'. unfold at2. case_decide as E.
    + destruct E as [-> ->]. intros [= <-]. split; [done|]. exists f, p', k, tm. unfold at_.
      by rewrite decide_True.
    + intros Hw. destruct (H7 fd event t Hfd' Hev' Hw) as (? & g & q & j & tm' & Ht & Hq & Hj & ?).
      split; [lia|]. exists g, q, j, tm'. unfold at_. rewrite decide_False; [done|]. intros ->.
      apply wait_call in Hj as [_ Hj]. congruence.
  - intros g. change (at_ f (Some p') (v_fib v) g) with (if decide (g = f) then Some p' else v_fib v g).
    case_decide as E.
    + subst g. assert (at2 (c_fd k) (c_event k) (Some (fiber_task f)) (v_wait v) (c_fd k) (c_event k)
        = Some (fiber_task f)) as Hat2 by (unfold at2; by rewrite decide_True).
      unfold wake_ok. destruct p'; simplify_eq/=; (split; [intros a Ha; apply Harm in Ha; by eapply Hnarm|by left]).
    + specialize (H8 g). unfold wake_ok in *.
      assert (∀ k0 tm0, v_fib v g ≫= wait_of = Some (k0, tm0) →
        at2 (c_fd k) (c_event k) (Some (fiber_task f)) (v_wait v) (c_fd k0) (c_event k0) = Some (fiber_task g)
        ↔ v_wait v (c_fd k0) (c_event k0) = Some (fiber_task g)) as Hiff.
      { intros k0 tm0 _. unfold at2. case_decide as E2; [|done]. destruct E2 as [-> ->]. rewrite Hnone.
        split; intros [=]. congruence. }
      destruct (v_fib v g) as [[|k0|k0 tm0| |k0 tm0|k0| |]|]; cbn;
        try (destruct H8 as [Ha Hn]; split; [intros a Ha'; apply Harm in Ha'; by eapply Ha|];
             rewrite ?(Hiff k0 tm0); done).
      destruct H8 as [(a & Ha & Hua & Hn)|[Ha Hn]].
      * left. exists a. split_and!; [by apply Harm| |done]. intros b Hb. apply Harm in Hb. by apply Hua.
      * right. split; [|done]. intros a Ha'. apply Harm in Ha'. by eapply Ha.
  - intros g q j tm' Hq Hj. apply at_Some in Hq as [[-> ->]|[Hg Hq]].
    + simplify_eq. exists 0. cbn. split_and!; [by apply Hz|done|]. intros _ a ->. left.
      unfold cb', at_. by rewrite decide_True.
    + destruct (H9 g q j tm' Hq Hj) as (c & Hc & Ha & Hb). exists c. cbn. split_and!; try done.
      intros Hc0 a Hta. destruct (Hb Hc0 a Hta) as [?|?]; [left; by apply Hcb2|by right].
Qed.

(** A fiber at rest arms a timer of its own and sleeps. *)
Lemma okv_sleep v f a :
  okv v → (∀ p, v_fib v f = Some p → suspended p = false ∧ call_of p = None) →
  v_cb v a = None → (∀ g q j, v_fib v g = Some q → wait_of q ≠ Some (j, Some a)) →
  okv (View (at_ f (Some Sleeping) (v_fib v)) (v_wait v) (v_q v)
         (at_ a (Some (Timer.Plain (schedule_fiber f))) (v_cb v)) (v_ti v) (v_addr v) (v_size v)).
Proof.
  intros Hok Hf Ha Hnew.
  assert (∀ g x, g ≠ f → at_ a (Some (Timer.Plain (schedule_fiber f))) (v_cb v) x
      = Some (Timer.Plain (schedule_fiber g)) ↔ v_cb v x = Some (Timer.Plain (schedule_fiber g))) as Harm.
  { intros g x Hg. rewrite at_Some. split; [by intros [[_ [= ?]]|[_ ?]]; [congruence|]|].
    intros Hx. right. split; [congruence|done]. }
  assert ((∀ b, v_cb v b ≠ Some (Timer.Plain (schedule_fiber f))) ∧ nq f (v_q v) = 0%nat) as [Hnarm Hnq].
  { pose proof (ok_wake v Hok f) as Hw. unfold wake_ok in Hw. destruct (v_fib v f) as [p|]; [|done].
    destruct (Hf p eq_refl) as [Hs Hc]. by destruct p. }
  destruct Hok as [H1 H2 H3 H4 H5 H6 H7 H8 H9]. split; cbn; try done.
  - intros b Hb.
    assert (cb_ok v b ∨ b = Timer.Plain (schedule_fiber f)) as [Hb'| ->]; [|unfold cb_ok in *|done].
    { destruct Hb as [[x Hx]|Hb]; [|left; apply H1; by right].
      apply at_Some in Hx as [[_ ->]|[_ Hx]]; [by right|left; apply H1; eauto]. }
    destruct b as [|w []]; try done. cbn. destruct Hb' as (? & ? & ? & ? & Hall).
    split_and!; try done; try lia. intros g q j Hq Hj.
    apply at_Some in Hq as [[-> ->]|[Hg Hq]]; [done|by eapply Hall].
  - intros g q j Hq Hj. apply at_Some in Hq as [[-> ->]|[Hg Hq]]; [done|].
    destruct (H3 g q j Hq Hj) as (? & ? & ? & ? & Hu). split_and!; try done.
    intros g' r j' Hr Hjr. apply at_Some in Hr as [[-> ->]|[Hg' Hr]]; [done|by eapply Hu].
  - intros g fd to Hq. apply at_Some in Hq as [[_ ?]|[Hg Hq]]; [done|by eapply H4].
  - intros g q j x Hq Hj. apply at_Some in Hq as [[-> ->]|[Hg Hq]]; [done|].
    destruct (H5 g q j x Hq Hj) as (? & Hb & Hu). split_and!; [done| |].
    + intros b Hb'. apply at_Some in Hb' as [[-> _]|[_ ?]]; [by destruct (Hnew g q j)|by apply Hb].
    + intros g' r j' Hr Hj'. apply at_Some in Hr as [[-> ->]|[Hg' Hr]]; [done|by eapply Hu].
  - intros fd event t Hfd Hev Hw. destruct (H7 fd event t Hfd Hev Hw) as (? & g & q & j & tm & Ht & Hq & Hj & ?).
    split; [done|]. exists g, q, j, tm. unfold at_. rewrite decide_False; [done|]. intros ->.
    apply wait_call in Hj as [_ Hj]. destruct (Hf q Hq). congruence.
  - intros g. change (at_ f (Some Sleeping) (v_fib v) g) with (if decide (g = f) then Some Sleeping else v_fib v g).
    case_decide as E.
    + subst g. left. exists a. cbn. split_and!; [by apply at_Some; left| |done].
      intros b Hb. apply at_Some in Hb as [[? _]|[_ Hb]]; [done|by destruct (Hnarm b)].
    + specialize (H8 g). unfold wake_ok in *. cbn.
      destruct (v_fib v g) as [[|k0|k0 tm0| |k0 tm0|k0| |]|];
        try (destruct H8 as [Hna Hn]; split; [intros x; by rewrite Harm|done]).
      destruct H8 as [(x & Hx & Hux & Hn)|[Hx Hn]].
      * left. exists x. rewrite Harm by done. split_and!; [done| |done]. intros y. rewrite Harm by done. apply Hux.
      * right. split; [|done]. intros y. by rewrite Harm.
  - intros g q j tm Hq Hj. apply at_Some in Hq as [[-> ->]|[Hg Hq]]; [done|].
    destruct (H9 g q j tm Hq Hj) as (c & Hc & Hx & Hb). exists c. cbn. split_and!; try done.
    intros Hc0 x Hta. destruct (Hb Hc0 x Hta) as [Hv|?]; [left|by right].
    apply at_Some. right. split; [congruence|done].
Qed.

(** What waits for an event is moved from the table to the queue. *)
Lemma okv_wake v fd event :
  okv v → 0 ≤ fd → IOManager.is_event event →
  okv (View (v_fib v) (at2 fd event None (v_wait v)) (v_q v ++ option_list (v_wait v fd event))
         (v_cb v) (v_ti v) (v_addr v) (v_size v)).
Proof.
  intros Hok Hfd Hev. destruct (v_wait v fd event) as [t|] eqn:Hw; cbn [option_list].
  2: { rewrite app_nil_r. revert Hok. apply okv_ext. split; try done. intros x y Hx Hy. cbn. unfold at2.
       case_decide as E; [|done]. by destruct E as [-> ->]. }
  destruct (ok_table v Hok fd event t Hfd Hev Hw) as (Hsz & f & p & k & tm & -> & Hp & Hk & Hkf & Hke).
  assert (∀ g b, cb_task b ∈ v_q v ++ [fiber_task g] ↔ cb_task b ∈ v_q v) as Hin.
  { intros g b. rewrite elem_of_app, list_elem_of_singleton. split; [by intros [?|?]|by left]. }
  assert (nq f (v_q v) = 0%nat) as Hnq.
  { pose proof (ok_wake v Hok f) as Hwk. rewrite Hp in Hwk.
    destruct p; simplify_eq/=; by destruct Hwk as [_ [[_ ?]|[? _]]]. }
  assert (∀ g, nq g (v_q v ++ [fiber_task f]) = if decide (g = f) then 1%nat else nq g (v_q v)) as Hnq'.
  { intros g. rewrite nq_app, nq_fiber. case_decide; [subst; lia|lia]. }
  destruct Hok as [H1 H2 H3 H4 H5 H6 H7 H8 H9]. split; cbn; try done.
  - intros b. rewrite Hin. apply H1.
  - intros t. rewrite elem_of_app, list_elem_of_singleton. intros [Ht| ->]; [by apply H6|left; by exists f].
  - intros x y t Hx Hy. unfold at2. case_decide; [done|]. by apply H7.
  - intros g. specialize (H8 g). unfold wake_ok in *. cbn. rewrite Hnq'. case_decide as E.
    + subst g. rewrite Hp in *. destruct p; simplify_eq/=; destruct H8 as [Ha _];
        (split; [done|right; unfold at2; by rewrite decide_True]).
    + destruct (v_fib v g) as [[|k0|k0 tm0| |k0 tm0|k0| |]|] eqn:Hg; try done;
        (destruct H8 as [Ha Hn]; split; [done|]; unfold at2; case_decide as E2; [|done];
         destruct E2 as [E2 E3]; rewrite E2, E3, Hw in Hn;
         destruct Hn as [[[=] _]|[_ Hn]]; [congruence|by right]).
  - intros g q j tm' Hq Hj. destruct (H9 g q j tm' Hq Hj) as (c & Hc & Ha & Hb). exists c. cbn.
    rewrite Hnq'. split_and!; [done| |].
    + intros Hc0. destruct (Ha Hc0) as [? ?]. split; [done|]. case_decide; done.
    + intros Hc0 a Hta. rewrite Hin. by apply Hb.
Qed.

(** An expired timer is disarmed and its callback queued. *)
Lemma okv_fire v a :
  okv v →
  okv (View (v_fib v) (v_wait v) (v_q v ++ option_list (cb_task <$> v_cb v a))
         (at_ a None (v_cb v)) (v_ti v) (v_addr v) (v_size v)).
Proof.
  intros Hok. destruct (v_cb v a) as [b|] eqn:Hb; cbn [option_list fmap option_fmap option_map].
  2: { rewrite app_nil_r. revert Hok. apply okv_ext. split; try done. intros x. cbn. unfold at_.
       case_decide; [congruence|done]. }
  assert (∀ x, cb_task x ∈ v_q v ++ [cb_task b] ↔ cb_task x ∈ v_q v ∨ x = b) as Hin.
  { intros x. rewrite elem_of_app, list_elem_of_singleton. split; (intros [?|E]; [by left|right]); [by injection E|by rewrite E]. }
  destruct Hok as [H1 H2 H3 H4 H5 H6 H7 H8 H9]. split; cbn; try done.
  - intros x. rewrite Hin. intros [[y Hy]|[Hx| ->]].
    + apply at_None in Hy as [_ Hy]. apply H1. eauto.
    + apply H1. by right.
    + apply H1. eauto.
  - intros g q j x Hq Hj. destruct (H5 g q j x Hq Hj) as (? & Hx & ?). split_and!; try done.
    intros y Hy. apply at_None in Hy as [_ Hy]. by apply Hx.
  - intros t. rewrite elem_of_app, list_elem_of_singleton. intros [Ht| ->]; [by apply H6|right; by exists b].
  - intros g. specialize (H8 g). unfold wake_ok in *. cbn. rewrite nq_app, nq_cb.
    destruct (v_fib v g) as [[|k0|k0 tm0| |k0 tm0|k0| |]|] eqn:Hg;
      try (destruct H8 as [Ha Hn]; rewrite decide_False by (intros ->; by apply (Ha a)); rewrite Nat.add_0_r;
           split; [intros x Hx; apply at_None in Hx as [_ Hx]; by apply (Ha x)|done]).
    destruct H8 as [(x & Hx & Hux & Hn)|[Ha Hn]].
    + destruct (decide (x = a)) as [->|Hne].
      * right. rewrite decide_True by congruence. split; [|lia]. intros y Hy. apply at_None in Hy as [Hy Hy'].
        by apply Hy, Hux.
      * left. exists x. rewrite at_None. split_and!; [done|done| |].
        -- intros y Hy. apply at_None in Hy as [_ Hy]. by apply Hux.
        -- rewrite decide_False; [lia|]. intros ->. by apply Hne, eq_sym, Hux.
    + right. rewrite decide_False by (intros ->; by apply (Ha a)). split; [|lia].
      intros y Hy. apply at_None in Hy as [_ Hy]. by apply (Ha y).
  - intros g q j tm Hq Hj. destruct (H9 g q j tm Hq Hj) as (c & Hc & Hx & Hy). exists c. cbn. split_and!; [done| |].
    + intros Hc0. destruct (Hx Hc0) as [? Hn]. split; [done|]. rewrite nq_app, nq_cb.
      rewrite decide_False; [lia|]. intros ->. pose proof (H8 g) as Hw. rewrite Hq in Hw. unfold wake_ok in Hw.
      destruct q; simplify_eq/=; destruct Hw as [Hw _]; by apply (Hw a).
    + intros Hc0 x Htm. rewrite Hin, at_None. destruct (Hy Hc0 x Htm) as [Hv|?]; [|by right; left].
      destruct (decide (x = a)) as [->|]; [right; right; congruence|by left].
Qed.

Lemma elem_pop (t x : task) q1 q2 : x ∈ q1 ++ q2 → x ∈ q1 ++ t :: q2.
Proof. rewrite !elem_of_app, elem_of_cons. tauto. Qed.

Lemma elem_pop_inv (t x : task) q1 q2 : x ∈ q1 ++ t :: q2 → x = t ∨ x ∈ q1 ++ q2.
Proof. rewrite !elem_of_app, elem_of_cons. tauto. Qed.

(** The callback of a condition timer is taken from the queue: whoever still owns
    its [timer_info] is a wait that is on its way with [ETIMEDOUT]. *)
Lemma okv_pop_timeout v w cb q1 q2 ti' :
  okv v → v_q v = q1 ++ cb_task (Timer.OnTimer w cb) :: q2 →
  (∀ x, x ≠ w → ti' x = v_ti v x) → (is_Some (ti' w) ↔ is_Some (v_ti v w)) →
  (∀ f p k, v_fib v f = Some p → call_of p = Some k → c_tinfo k = w →
     ti' w = Some ETIMEDOUT ∧ wait_of p ≠ None ∧ nq f (v_q v) = 1%nat) →
  okv (View (v_fib v) (v_wait v) (q1 ++ q2) (v_cb v) ti' (v_addr v) (v_size v)).
Proof.
  intros Hok Hq Hti Hdom Hown.
  assert (∀ f, nq f (v_q v) = nq f (q1 ++ q2)) as Hnq by (intros; by rewrite Hq, nq_pop, nq_timeout).
  destruct Hok as [H1 H2 H3 H4 H5 H6 H7 H8 H9]. split; cbn; try done.
  - intros b [Hb|Hb]; apply H1; [by left|right; rewrite Hq; by apply elem_pop].
  - intros x. destruct (decide (x = w)) as [->|Hx]; [rewrite Hdom; apply H2|rewrite Hti by done; apply H2].
  - intros f p k Hp Hk. destruct (H3 f p k Hp Hk) as (Hs & ? & ? & Hz & Hu).
    destruct (decide (c_tinfo k = w)) as [<-|Hx].
    + rewrite Hdom. destruct (Hown f p k Hp Hk eq_refl) as (_ & Hw & _). split_and!; done.
    + rewrite Hti by done. split_and!; done.
  - intros t Ht. apply H6. rewrite Hq. by apply elem_pop.
  - intros f. specialize (H8 f). unfold wake_ok in *. cbn. by rewrite <- Hnq.
  - intros f p k tm Hp Hk. pose proof (wait_call p k tm Hk) as [Hc _].
    destruct (decide (c_tinfo k = w)) as [E|Hx].
    + destruct (Hown f p k Hp Hc E) as (Ht & _ & Hn). exists ETIMEDOUT. cbn. rewrite E, <- Hnq.
      split_and!; [done|done|]. intros [=].
    + destruct (H9 f p k tm Hp Hk) as (c & Hcc & Ha & Hb). exists c. cbn. rewrite Hti, <- Hnq by done.
      split_and!; [done|done|]. intros Hc0 a Htm. destruct (Hb Hc0 a Htm) as [?|Hin]; [by left|right].
      rewrite Hq in Hin. apply elem_pop_inv in Hin as [E|?]; [|done]. injection E as E _. done.
Qed.

(** The callback of a sleeping fiber is replaced by the fiber. *)
Lemma okv_pop_schedule v f q1 q2 :
  okv v → v_q v = q1 ++ cb_task (Timer.Plain (schedule_fiber f)) :: q2 →
  okv (View (v_fib v) (v_wait v) ((q1 ++ q2) ++ [fiber_task f]) (v_cb v) (v_ti v) (v_addr v) (v_size v)).
Proof.
  intros Hok Hq.
  assert (∀ g, nq g ((q1 ++ q2) ++ [fiber_task f]) = nq g (v_q v)) as Hnq.
  { intros g. rewrite Hq, nq_app, nq_pop, nq_fiber, nq_cb.
    destruct (decide (g = f)) as [->|Hne]; [rewrite decide_True by done; lia|].
    rewrite decide_False by congruence. lia. }
  assert (∀ b, cb_task b ∈ (q1 ++ q2) ++ [fiber_task f] → cb_task b ∈ v_q v) as Hin.
  { intros b. rewrite elem_of_app, list_elem_of_singleton, Hq. intros [?|?]; [by apply elem_pop|done]. }
  destruct Hok as [H1 H2 H3 H4 H5 H6 H7 H8 H9]. split; cbn; try done.
  - intros b [Hb|Hb]; apply H1; [by left|right; by apply Hin].
  - intros t. rewrite elem_of_app, list_elem_of_singleton. intros [Ht| ->]; [|left; by exists f].
    apply H6. rewrite Hq. by apply elem_pop.
  - intros g. specialize (H8 g). unfold wake_ok in *. cbn. by rewrite Hnq.
  - intros g p k tm Hp Hk. destruct (H9 g p k tm Hp Hk) as (c & Hc & Ha & Hb). exists c. cbn. rewrite Hnq.
    split_and!; try done. intros Hc0 a Htm. destruct (Hb Hc0 a Htm) as [?|Hb']; [by left|right].
    rewrite elem_of_app. left. rewrite Hq in Hb'. by apply elem_pop_inv in Hb' as [?|?].
Qed.

(** The fiber of a task is suspended. *)
Lemma queued_suspended v f q1 q2 :
  okv v → v_q v = q1 ++ fiber_task f :: q2 → ∃ p, v_fib v f = Some p ∧ suspended p = true ∧
    nq f (q1 ++ q2) = 0%nat ∧ (∀ a, v_cb v a ≠ Some (Timer.Plain (schedule_fiber f))) ∧
    ∀ k tm, wait_of p = Some (k, tm) → v_wait v (c_fd k) (c_event k) ≠ Some (fiber_task f).
Proof.
  intros Hok Hq. pose proof (ok_wake v Hok f) as Hw. unfold wake_ok in Hw.
  assert (nq f (v_q v) = S (nq f (q1 ++ q2))) as Hn by (rewrite Hq, nq_pop, nq_fiber, decide_True; done).
  rewrite Hn in Hw. destruct (v_fib v f) as [[|k|k tm| |k tm|k| |]|]; try (by destruct Hw as [_ Hw]).
  - destruct Hw as [Ha [[_ ?]|[Hne ?]]]; [done|]. eexists. split_and!; try done; [lia|]. by intros ?? [= <- <-].
  - destruct Hw as [Ha [[_ ?]|[Hne ?]]]; [done|]. eexists. split_and!; try done; [lia|]. by intros ?? [= <- <-].
  - destruct Hw as [(? & _ & _ & ?)|[Ha ?]]; [done|]. eexists. split_and!; try done. lia.
Qed.

(** The fiber of a task continues: its timer is disarmed and it is in a call
    again, or done with it. *)
Lemma okv_resume v f p p' q1 q2 cb' ti' :
  okv v → v_fib v f = Some p → v_q v = q1 ++ fiber_task f :: q2 →
  suspended p' = false → (∀ fd to, p' ≠ Connecting fd to) →
  (call_of p' = None ∨ ∃ k, call_of p' = Some k ∧ call_of p = Some k ∧ v_ti v (c_tinfo k) = Some 0) →
  (∀ w, ti' w = v_ti v w ∨ ti' w = None ∧ call_of p' = None ∧ ∃ k, call_of p = Some k ∧ c_tinfo k = w) →
  (∀ a, cb' a = v_cb v a ∨ cb' a = None ∧ ∃ k, wait_of p = Some (k, Some a)) →
  okv (View (at_ f (Some p') (v_fib v)) (v_wait v) (q1 ++ q2) cb' ti' (v_addr v) (v_size v)).
Proof.
  intros Hok Hf Hq Hns Hnc Hcall Hti Hcb.
  destruct (queued_suspended v f q1 q2 Hok Hq) as (p0 & Hp0 & Hsus & Hn0 & Harm & Hnt).
  rewrite Hf in Hp0. injection Hp0 as <-.
  assert (∀ g, g ≠ f → nq g (q1 ++ q2) = nq g (v_q v)) as Hnq
    by (intros g Hg; by rewrite Hq, nq_pop, nq_fiber, decide_False).
  assert (∀ g q j, g ≠ f → v_fib v g = Some q → call_of q = Some j → ti' (c_tinfo j) = v_ti v (c_tinfo j)) as Hkeep.
  { intros g q j Hg Hp Hj. destruct (Hti (c_tinfo j)) as [?|[_ (_ & k & Hk & He)]]; [done|].
    destruct (ok_call v Hok g q j Hp Hj) as (_ & _ & _ & _ & Hu). destruct Hg. symmetry. by eapply Hu. }
  assert (∀ g a, cb' a = Some (Timer.Plain (schedule_fiber g)) ↔ v_cb v a = Some (Timer.Plain (schedule_fiber g))) as Hplain.
  { intros g a. destruct (Hcb a) as [->|[-> (k & Hk)]]; [done|]. split; [done|]. intros Hc.
    by apply (ok_tm v Hok f p k a Hf Hk) in Hc. }
  assert (wait_of p' = None) as Hw' by (by destruct p').
  destruct Hok as [H1 H2 H3 H4 H5 H6 H7 H8 H9]. split; cbn; try done.
  - intros b Hb. assert (cb_ok v b) as Hb'.
    { apply H1. destruct Hb as [[a Ha]|Hb]; [left|right; rewrite Hq; by apply elem_pop].
      destruct (Hcb a) as [E|[E _]]; rewrite E in Ha; [eauto|done]. }
    unfold cb_ok in *. destruct b as [|w []]; try done. cbn. destruct Hb' as (? & ? & ? & ? & Hall).
    split_and!; try done; try lia. intros g q j Hp Hj. apply at_Some in Hp as [[-> ->]|[Hg Hp]]; [|by eapply Hall].
    destruct Hcall as [?|(k & Hk & Hk' & _)]; [congruence|]. rewrite Hk in Hj. injection Hj as <-. by eapply Hall.
  - intros w Hw. apply H2. destruct (Hti w) as [E|[E _]]; rewrite E in Hw; [done|by destruct Hw].
  - intros g q j Hp Hj. apply at_Some in Hp as [[-> ->]|[Hg Hp]].
    + destruct Hcall as [?|(k & Hk & Hk' & Hz)]; [congruence|]. rewrite Hk in Hj. injection Hj as <-.
      destruct (H3 f p k Hf Hk') as (? & ? & ? & _ & Hu).
      assert (ti' (c_tinfo k) = v_ti v (c_tinfo k)) as -> by (destruct (Hti (c_tinfo k)) as [?|[_ [? _]]]; congruence).
      split_and!; try done. intros g' r j' Hr Hj'. apply at_Some in Hr as [[-> ->]|[Hg' Hr]]; [done|by eapply Hu].
    + rewrite (Hkeep g q j) by done. destruct (H3 g q j Hp Hj) as (? & ? & ? & ? & Hu). split_and!; try done.
      intros g' r j' Hr Hj'. apply at_Some in Hr as [[-> ->]|[Hg' Hr]]; [|by eapply Hu].
      destruct Hcall as [?|(k & Hk & Hk' & Hz)]; [congruence|]. rewrite Hk in Hj'. injection Hj' as <-. by eapply Hu.
  - intros g fd to Hp. apply at_Some in Hp as [[-> E]|[Hg Hp]]; [by destruct (Hnc fd to)|by eapply H4].
  - intros g q j a Hp Hj. apply at_Some in Hp as [[-> ->]|[Hg Hp]]; [congruence|].
    destruct (H5 g q j a Hp Hj) as (? & Hb & Hu). split_and!; [done| |].
    + intros b Hb'. apply Hb. destruct (Hcb a) as [E|[E _]]; rewrite E in Hb'; done.
    + intros g' r j' Hr Hj'. apply at_Some in Hr as [[-> ->]|[Hg' Hr]]; [congruence|by eapply Hu].
  - intros t Ht. apply H6. rewrite Hq. by apply elem_pop.
  - intros fd event t Hfd Hev Hw. destruct (H7 fd event t Hfd Hev Hw) as (? & g & q & j & tm & -> & Hp & Hj & Hjf & Hje).
    split; [done|]. exists g, q, j, tm. unfold at_. rewrite decide_False; [done|]. intros ->.
    rewrite Hf in Hp. injection Hp as <-. rewrite <- Hjf, <- Hje in Hw. by apply (Hnt j tm Hj).
  - intros g. change (at_ f (Some p') (v_fib v) g) with (if decide (g = f) then Some p' else v_fib v g).
    case_decide as E.
    + subst g. unfold wake_ok. cbn. destruct p'; try done; (split; [intros a Ha; apply Hplain in Ha; by eapply Harm|done]).
    + specialize (H8 g). unfold wake_ok in *. cbn. rewrite Hnq by done.
      destruct (v_fib v g) as [[|k0|k0 tm0| |k0 tm0|k0| |]|];
        try (destruct H8 as [Ha Hn]; split; [intros a; by rewrite Hplain|done]).
      destruct H8 as [(a & Ha & Hua & Hn)|[Ha Hn]].
      * left. exists a. rewrite Hplain. split_and!; [done| |done]. intros b. rewrite Hplain. apply Hua.
      * right. split; [|done]. intros b. by rewrite Hplain.
  - intros g q j tm Hp Hj. apply at_Some in Hp as [[-> ->]|[Hg Hp]]; [congruence|].
    pose proof (wait_call q j tm Hj) as [Hj' _].
    destruct (H9 g q j tm Hp Hj) as (c & Hc & Ha & Hb). exists c. cbn. rewrite (Hkeep g q j), Hnq by done.
    split_and!; [done|done|]. intros Hc0 a Htm. destruct (Hb Hc0 a Htm) as [Hv|Hin].
    + left. destruct (Hcb a) as [E|[E (k & Hk)]]; rewrite E; [done|]. subst tm.
      destruct Hg. symmetry. destruct (H5 g q j a Hp Hj) as (_ & _ & Hu). by eapply Hu.
    + right. rewrite Hq in Hin. by apply elem_pop_inv in Hin as [?|?].
Qed.

(** *** The operations, on the state *)

(** All that the invariant reads. *)
Record agree (h h' : hook) : Prop := {
  agree_iom : iom h' = iom h;
  agree_tim : tim h' = tim h;
  agree_tinfos : tinfos h' = tinfos h;
  agree_clock : clock h' = clock h;
  agree_addr : addr h' = addr h
}.

Lemma agree_tickle h : agree h (tickle h).
Proof. unfold tickle. by destruct (idle_threads h =? 0). Qed.

Lemma agree_tickle_if (b : bool) h : agree h ((if b then tickle else id) h).
Proof. destruct b; [apply agree_tickle|done]. Qed.

Lemma ok_agree h h' fib : agree h h' → ok (Sys h fib) → ok (Sys h' fib).
Proof.
  intros [Hi Ht Hw Hc Ha] [H1 H2 H3 H4 H5 H6]. cbn in *.
  unfold view_of, queue, timer_cb in H6. cbn in H6.
  split; cbn; unfold view_of, queue, timer_cb; cbn; by rewrite ?Hi, ?Ht, ?Hw, ?Hc, ?Ha.
Qed.

Lemma on_iom_inv {A} (m : M (IOManager.io callback) A) h a h' :
  on_iom m h = Ret a h' → ∃ v, m (iom h) = Ret a v ∧ agree (set_iom v h) h'.
Proof.
  unfold on_iom. destruct (m (iom h)) as [x v|e v|]; [|done|done]. intros [= <- <-].
  exists v. split; [done|]. apply agree_tickle_if.
Qed.

Lemma on_iom_Ret {A} (m : M (IOManager.io callback) A) h a v :
  m (iom h) = Ret a v → ∃ h', on_iom m h = Ret a h' ∧ agree (set_iom v h) h'.
Proof. intros Hm. unfold on_iom. rewrite Hm. eexists. split; [done|]. apply agree_tickle_if. Qed.

Lemma add_timer_inv ms cb h a h' :
  add_timer ms cb h = Ret a h' →
  a = addr h ∧
  agree (set_tim (fst (Timer.addTimer (clock h) a ms cb false (tim h))) (set_addr (addr h + 1) h)) h'.
Proof.
  unfold add_timer, iom_this, fresh, bind. destruct (this_iom h); [|done]. cbn.
  destruct (Timer.addTimer (clock h) (addr h) ms cb false (tim h)) as [v front]. intros [= <- <-].
  split; [done|]. unfold onTimerInsertedAtFront. apply agree_tickle_if.
Qed.

Lemma addTimer_store now a ms cb (st : Timer.manager callback) :
  Timer.store (fst (Timer.addTimer now a ms cb false st))
  = <[a := Timer.mk false ms (wrap 64 (now + ms)) (Some cb)]> (Timer.store st).
Proof. done. Qed.

(** The timers of the invariant, and their part of it. *)
Definition timers_ok (h : hook) : Prop :=
  Timer.wf (tim h) ∧ 0 < clock h ∧
  ∀ a t, Timer.store (tim h) !! a = Some t → a < addr h ∧ Timer.m_recurring t = false.

Lemma timers_none h : timers_ok h → Timer.store (tim h) !! addr h = None.
Proof. intros (_ & _ & H). apply eq_None_not_Some. intros [t Ht]. apply H in Ht. lia. Qed.

(** Arming a timer. *)
Lemma add_timer_ok ms cb h a h' :
  timers_ok h → 0 ≤ ms → clock h + ms < 2 ^ 64 → add_timer ms cb h = Ret a h' →
  a = addr h ∧ timers_ok h' ∧ iom h' = iom h ∧ tinfos h' = tinfos h ∧ clock h' = clock h ∧
  addr h' = addr h + 1 ∧ is_Some (Timer.store (tim h') !! a) ∧
  (∀ x, is_Some (Timer.store (tim h) !! x) → is_Some (Timer.store (tim h') !! x)) ∧
  timer_cb h a = None ∧ ∀ x, timer_cb h' x = at_ a (Some cb) (timer_cb h) x.
Proof.
  intros Htim Hms Hfit Hadd. pose proof (timers_none h Htim) as Hnone. destruct Htim as (Hwf & Hc & Hst).
  apply add_timer_inv in Hadd as [-> [Hi Ht Hw Hcl Ha]].
  cbn [iom tim tinfos clock addr set_tim set_addr] in Hi, Ht, Hw, Hcl, Ha.
  split; [done|]. split; [|split_and!; try done].
  - unfold timers_ok. rewrite Ht, Hcl, Ha. split_and!; [by apply Timer.addTimer_wf|done|].
    intros x t. rewrite addTimer_store. intros [[<- <-]|[Hx Hx']]%lookup_insert_Some; [split; [lia|done]|].
    destruct (Hst x t Hx'). split; [lia|done].
  - rewrite Ht, addTimer_store. by rewrite lookup_insert_eq.
  - intros x Hx. rewrite Ht, addTimer_store. apply lookup_insert_is_Some'. by right.
  - unfold timer_cb. by rewrite Hnone.
  - intros x. unfold timer_cb, at_. rewrite Ht, addTimer_store. case_decide as E.
    + subst. by rewrite lookup_insert_eq.
    + by rewrite lookup_insert_ne.
Qed.

(** Cancelling a timer. *)
Lemma cancel_timer_ok h tm :
  timers_ok h → (∀ a, tm = Some a → is_Some (Timer.store (tim h) !! a)) →
  ∃ h', cancel_timer tm h = Ret tt h' ∧ timers_ok h' ∧ iom h' = iom h ∧ tinfos h' = tinfos h ∧
    clock h' = clock h ∧ addr h' = addr h ∧
    (∀ x, is_Some (Timer.store (tim h) !! x) → is_Some (Timer.store (tim h') !! x)) ∧
    ∀ x, timer_cb h' x = if decide (tm = Some x) then None else timer_cb h x.
Proof.
  intros (Hwf & Hc & Hst) Hsome. destruct tm as [a|]; [|by exists h].
  destruct (Hsome a eq_refl) as [t Ht].
  destruct (Timer.cancel_spec a t (tim h) Hwf Ht) as (v & r & Hcan & Hwf' & _).
  exists (set_tim v h). unfold cancel_timer. rewrite Hcan. split; [done|].
  unfold Timer.cancel in Hcan. rewrite Ht in Hcan. cbn in Hcan. destruct (Timer.m_cb t) as [b|] eqn:Hb.
  - destruct (Timer.set_erase _ _ _) as [l|]; cbn in Hcan; [|done]. injection Hcan as <- <-.
    split_and!; try done.
    + split_and!; [done|done|]. cbn. intros x t' [[<- <-]|[Hx Hx']]%lookup_insert_Some; [by apply (Hst a t)|by apply Hst].
    + intros x Hx. cbn. apply lookup_insert_is_Some'. by right.
    + intros x. unfold timer_cb. cbn. case_decide as E.
      * injection E as <-. by rewrite lookup_insert_eq.
      * by rewrite lookup_insert_ne by congruence.
  - injection Hcan as <- <-. split_and!; try done. intros x. unfold timer_cb. cbn. case_decide as E; [|done].
    injection E as <-. by rewrite Ht.
Qed.

(** *** Every step keeps the invariant *)

Lemma insert_at {A} (m : gmap Z A) x y z : <[x := y]> m !! z = at_ x (Some y) (λ z, m !! z) z.
Proof. unfold at_. case_decide; subst; [by rewrite lookup_insert_eq|by rewrite lookup_insert_ne]. Qed.

Lemma delete_at {A} (m : gmap Z A) x z : delete x m !! z = at_ x None (λ z, m !! z) z.
Proof. unfold at_. case_decide; subst; [by rewrite lookup_delete_eq|by rewrite lookup_delete_ne]. Qed.

Lemma ok_timers s : ok s → timers_ok (hk s).
Proof. intros [_ ? ? ? _ _]. done. Qed.

Lemma mk_ok h fib v :
  IOManager.inv (iom h) → timers_ok h →
  (∀ f p k a, fib !! f = Some p → wait_of p = Some (k, Some a) → is_Some (Timer.store (tim h) !! a)) →
  okv v → same v (view_of (Sys h fib)) → ok (Sys h fib).
Proof.
  intros Hi (Hw & Hc & Hs) Ht Hv Hsame. split; try done. by apply (okv_ext v).
Qed.

(** A fiber at rest, or in a call, is not suspended. *)
Lemma at_rest_idle s f p :
  at_rest s f → fibers s !! f = Some p → suspended p = false ∧ call_of p = None.
Proof. unfold at_rest. intros Hr Hp. rewrite Hp in Hr. by destruct p. Qed.

Lemma bind_agree h h' h2 : agree h h' → agree h' h2 → agree h h2.
Proof. intros [] []. split; congruence. Qed.

Lemma lookup_ctx_agree fd h c h' : lookup_ctx fd h = Ret c h' → agree h h'.
Proof.
  unfold lookup_ctx, on_fdm. intros (r & h1 & H1 & H2)%bind_inv.
  destruct (FdManager.get fd false (fdm h)) as [x v|e v|]; [|done|done]. injection H1 as <- <-.
  destruct x as [a|]; [|by injection H2 as <- <-]. by case_match; simplify_eq.
Qed.

Lemma do_io_inv io fd h p h' :
  do_io io fd h = Ret p h' →
  agree h h' ∧ suspended p = false ∧ call_of p = None ∧ (∀ x y, p ≠ Connecting x y) ∨
  ∃ k, p = Calling k ∧ c_tinfo k = addr h ∧ c_fd k = fd ∧ IOManager.is_event (c_event k) ∧
    agree (set_tinfos (<[addr h := 0]> (tinfos h)) (set_addr (addr h + 1) h)) h'.
Proof.
  unfold do_io. intros (h0 & h1 & [= <- <-] & H)%bind_inv.
  destruct (t_hook_enable h); cbn in H; [|left; by injection H as <- <-].
  apply bind_inv in H as (c & h1 & Hc%lookup_ctx_agree & H).
  destruct c as [c|]; [|left; by injection H as <- <-]. destruct (FdManager.m_isClosed c); [left; by injection H as <- <-|].
  destruct (_ || _); [left; by injection H as <- <-|]. right. unfold new_tinfo, fresh, upd, bind in H. cbn in H.
  injection H as <- <-. eexists. split_and!; try done; [apply Hc|destruct io; by (left + right)|].
  destruct Hc as [? ? Ht ? Ha]. split; cbn; congruence.
Qed.

(** A step that leaves the fiber in no call. *)
Lemma ok_drop s f p h :
  ok s → (∀ q, fibers s !! f = Some q → suspended q = false) →
  suspended p = false → call_of p = None → (∀ x y, p = Connecting x y → 0 ≤ x) →
  iom h = iom (hk s) → tim h = tim (hk s) → clock h = clock (hk s) → addr h = addr (hk s) →
  (∀ w, tinfos h !! w = tinfos (hk s) !! w ∨ tinfos h !! w = None ∧
     ∃ q k, fibers s !! f = Some q ∧ call_of q = Some k ∧ c_tinfo k = w) →
  ok (Sys h (<[f := p]> (fibers s))).
Proof.
  intros Hok Hns Hp Hc Hconn Hi Ht Hcl Ha Hti.
  pose proof (okv_drop (view_of s) f p (λ w, tinfos h !! w) (ok_view s Hok) Hns Hp Hc Hconn Hti) as Hv.
  eapply mk_ok; [by rewrite Hi; apply Hok| | |exact Hv|].
  - unfold timers_ok. rewrite Ht, Hcl, Ha. by apply ok_timers.
  - intros g q k a. rewrite insert_at, at_Some, Ht. intros [[_ ->]|[_ Hq]] Hk; [|by eapply (ok_timer s Hok)].
    apply wait_call in Hk as [Hk _]. congruence.
  - split; cbn; unfold queue, timer_cb; try (rewrite ?Hi, ?Ht, ?Ha; done). intros g. by rewrite insert_at.
Qed.

(** A step that starts a call with a new [timer_info]. *)
Lemma ok_new s f p k h :
  ok s → (∀ q, fibers s !! f = Some q → suspended q = false) →
  suspended p = false → call_of p = Some k → c_tinfo k = addr (hk s) → 0 ≤ c_fd k →
  IOManager.is_event (c_event k) →
  agree (set_tinfos (<[addr (hk s) := 0]> (tinfos (hk s))) (set_addr (addr (hk s) + 1) (hk s))) h →
  ok (Sys h (<[f := p]> (fibers s))).
Proof.
  intros Hok Hns Hp Hc Htk Hfd Hev [Hi Ht Hti Hcl Ha]. cbn in *.
  pose proof (okv_new (view_of s) f p k (ok_view s Hok) Hns Hp Hc Htk Hfd Hev) as Hv.
  eapply mk_ok; [by rewrite Hi; apply Hok| | |exact Hv|].
  - destruct (ok_timers s Hok) as (Hw & Hck & Hst). unfold timers_ok. rewrite Ht, Hcl, Ha.
    split_and!; try done. intros a t Hat. destruct (Hst a t Hat). split; [lia|done].
  - intros g q j a. rewrite insert_at, at_Some, Ht. intros [[_ ->]|[_ Hq]] Hk; [|by eapply (ok_timer s Hok)].
    by destruct p.
  - split; cbn; unfold queue, timer_cb; try (rewrite ?Hi, ?Ht, ?Ha; done).
    + intros g. by rewrite insert_at.
    + intros w. by rewrite Hti, insert_at.
Qed.

Lemma arm_timeout_ok k h tm h' :
  timers_ok h → fits h (c_to k) → arm_timeout k h = Ret tm h' →
  timers_ok h' ∧ iom h' = iom h ∧ tinfos h' = tinfos h ∧ clock h' = clock h ∧ addr h ≤ addr h' ∧
  (∀ x, is_Some (Timer.store (tim h) !! x) → is_Some (Timer.store (tim h') !! x)) ∧
  (∀ a, tm = Some a → timer_cb h a = None ∧ addr h ≤ a < addr h' ∧ is_Some (Timer.store (tim h') !! a)) ∧
  ∀ x, timer_cb h' x = match tm with
                       | Some a => at_ a (Some (timeout_cb k)) (timer_cb h) x
                       | None => timer_cb h x
                       end.
Proof.
  intros Htim Hfit. unfold arm_timeout. destruct (Z.eqb_spec (c_to k) (2 ^ 64 - 1)) as [E|E].
  - intros [= <- <-]. split_and!; try done.
  - destruct Hfit as [?|[H0 H1]]; [done|]. intros (a & h1 & Hadd & [= <- <-])%bind_inv.
    destruct (add_timer_ok _ _ _ _ _ Htim H0 H1 Hadd) as (-> & ? & ? & ? & ? & Ha & ? & ? & ? & ?).
    split_and!; try done; [lia|]. intros a [= <-]. split_and!; [done|lia|lia|done].
Qed.

(** Arming the timeout of a call and registering it: the fiber is suspended, or
    nothing but addresses changed once the timer is cancelled again. *)
Lemma ok_register s f p k ctl tm h1 rt h2 :
  ok s → fibers s !! f = Some p → call_of p = Some k → wait_of p = None →
  fits (hk s) (c_to k) → free (hk s) (c_fd k) (c_event k) →
  arm_timeout k (hk s) = Ret tm h1 →
  on_iom (IOManager.addEvent ctl self f (c_fd k) (c_event k) None) h1 = Ret rt h2 →
  (rt = 0 → ∀ p', wait_of p' = Some (k, tm) → ok (Sys h2 (<[f := p']> (fibers s)))) ∧
  (rt ≠ 0 → ∃ h3, cancel_timer tm h2 = Ret tt h3 ∧ ok (Sys h3 (fibers s)) ∧ tinfos h3 = tinfos (hk s)).
Proof.
  intros Hok Hf Hk Hnw Hfit Hfree Harm Hadd.
  destruct (ok_call _ (ok_view s Hok) f p k Hf Hk) as (_ & Hfd & Hev & _).
  destruct (arm_timeout_ok k (hk s) tm h1 (ok_timers s Hok) Hfit Harm)
    as (Ht1 & Hi1 & Hw1 & Hc1 & Ha1 & Hst1 & Htm & Hcb1).
  apply on_iom_inv in Hadd as (v & Hadd & [Hi2 Htm2 Hw2 Hc2 Ha2]). cbn in *. rewrite Hi1 in Hadd.
  destruct (IOManager.addEvent_spec ctl self f (c_fd k) (c_event k) None (iom (hk s)) (ok_io s Hok) Hfd Hev Hfree)
    as (rt' & v' & Hadd' & Hinv & Hsch & Hrt & Hwait).
  pose proof (IOManager.addEvent_size _ _ _ _ _ _ _ _ _ (ok_io s Hok) Hadd) as Hsize.
  rewrite Hadd in Hadd'. injection Hadd' as <- <-.
  assert (timers_ok h2) as Ht2 by (unfold timers_ok in *; by rewrite Htm2, Hc2, Ha2).
  assert (∀ g q j a, v_fib (view_of s) g = Some q → wait_of q = Some (j, Some a) → a < addr (hk s)) as Hold
    by (intros g q j a Hq Hj; by apply (ok_tm _ (ok_view s Hok) g q j a)).
  split.
  - intros -> p' Hp'. assert (ctl = true) as -> by (by destruct ctl).
    assert (c_fd k < IOManager.size v) as Hlt.
    { apply (IOManager.waiting_lt v (c_fd k) (c_event k) (fiber_task f)); [done|].
      rewrite Hwait by done. cbn. by rewrite bool_decide_eq_true_2. }
    pose proof (okv_suspend
      (View (v_fib (view_of s)) (v_wait (view_of s)) (v_q (view_of s)) (v_cb (view_of s)) (v_ti (view_of s))
         (addr h2) (v_size (view_of s))) f p p' k tm (IOManager.size v)) as Hv.
    eapply mk_ok; [by rewrite Hi2|done| |apply Hv; try done|].
    + intros g q j a. rewrite insert_at, at_Some, Htm2. intros [[_ ->]|[_ Hq]] Hj; [|by eapply Hst1, (ok_timer s Hok)].
      rewrite Hp' in Hj. injection Hj as _ ->. by apply Htm.
    + apply okv_grow; [apply Hok|cbn; lia|cbn; lia].
    + intros a Hta. destruct (Htm a Hta) as (Hna & [? ?] & _). split_and!; [done|cbn; lia|].
      intros g q j Hq Hj. specialize (Hold g q j a Hq Hj). lia.
    + split; cbn; unfold queue; rewrite ?Hi2.
      * intros g. by rewrite insert_at.
      * intros fd event Hfd' Hev'. rewrite Hwait by done. unfold at2. cbn. case_decide as E.
        -- by rewrite bool_decide_eq_true_2.
        -- by rewrite bool_decide_eq_false_2.
      * by rewrite Hsch.
      * intros a. unfold timer_cb at 3. rewrite Htm2. fold (timer_cb h1 a). rewrite Hcb1. by destruct tm.
      * intros w. by rewrite Hw2, Hw1.
      * done.
      * done.
  - intros Hne. assert (ctl = false) as -> by (destruct ctl; [by subst|done]).
    destruct (cancel_timer_ok h2 tm Ht2) as (h3 & Hcan & Ht3 & Hi3 & Hw3 & Hc3 & Ha3 & Hst3 & Hcb3).
    { intros a Hta. rewrite Htm2. by apply Htm. }
    exists h3. split; [done|]. split; [|by rewrite Hw3, Hw2, Hw1].
    eapply mk_ok; [by rewrite Hi3, Hi2|done| |apply (okv_grow _ (addr h3) (IOManager.size v) (ok_view s Hok))|].
    + intros g q j a Hq Hj. apply Hst3. rewrite Htm2. by eapply Hst1, (ok_timer s Hok).
    + cbn. lia.
    + cbn. lia.
    + split; cbn; unfold queue; rewrite ?Hi3, ?Hi2; try done.
      * intros fd event Hfd' Hev'. by rewrite Hwait.
      * intros a. rewrite Hcb3. unfold timer_cb at 2. rewrite Htm2. fold (timer_cb h1 a). rewrite Hcb1.
        case_decide as E.
        -- subst tm. destruct (Htm a eq_refl) as (? & _). done.
        -- destruct tm as [x|]; [|done]. unfold at_. rewrite decide_False by congruence. done.
      * intros w. by rewrite Hw3, Hw2, Hw1.
Qed.

(** Leaving the call. *)
Lemma ok_finish s f p k n errno h p' h' :
  ok (Sys h (fibers s)) → fibers s !! f = Some p → call_of p = Some k → wait_of p = None →
  finish k n errno h = Ret p' h' → ok (Sys h' (<[f := p']> (fibers s))).
Proof.
  intros Hok Hf Hk Hw. unfold finish, upd, bind. cbn. intros [= <- <-].
  apply (ok_drop (Sys h (fibers s)) f); try done; cbn.
  - intros q Hq. rewrite Hf in Hq. injection Hq as <-. by destruct p.
  - intros w. rewrite delete_at. unfold at_. case_decide; [|by left]. right. subst. split; [done|]. by exists p, k.
Qed.

Lemma returned_ok s f k ctl n errno p h :
  ok s → fibers s !! f = Some (Calling k) →
  (n = -1 → errno = EAGAIN → fits (hk s) (c_to k) ∧ free (hk s) (c_fd k) (c_event k)) →
  do_io_returned self f ctl k n errno (hk s) = Ret p h → ok (Sys h (<[f := p]> (fibers s))).
Proof.
  intros Hok Hf Hguard. assert (ok (Sys (hk s) (fibers s))) as Hok' by (by destruct s).
  unfold do_io_returned. destruct ((n =? -1) && (errno =? EINTR)).
  { intros [= <- <-]. rewrite insert_id by done. done. }
  destruct ((n =? -1) && (errno =? EAGAIN)) eqn:E; [|by apply (ok_finish s f (Calling k))].
  apply andb_true_iff in E as [Hn%Z.eqb_eq He%Z.eqb_eq]. destruct (Hguard Hn He) as [Hfit Hfree].
  intros (u & h0 & Hthis & H)%bind_inv.
  assert (h0 = hk s) as -> by (unfold iom_this in Hthis; by case_match; simplify_eq).
  apply bind_inv in H as (tm & h1 & Harm & H). apply bind_inv in H as (rt & h2 & Hadd & H).
  destruct (ok_register s f (Calling k) k ctl tm h1 rt h2) as [Hz Hnz]; try done.
  destruct (Z.eqb_spec rt 0) as [Er|Er]; cbn [negb] in H.
  - injection H as <- <-. by apply Hz.
  - destruct (Hnz Er) as (h3 & Hcan & Hok3 & _). rewrite (bind_Ret _ _ _ _ _ Hcan) in H.
    by apply (ok_finish s f (Calling k) k (-1) None h3).
Qed.

Lemma connected_ok s f fd to ctl n errno p h :
  ok s → fibers s !! f = Some (Connecting fd to) →
  (n = -1 → errno = EINPROGRESS → fits (hk s) to ∧ free (hk s) fd IOManager.WRITE) →
  connect_returned self f ctl fd to n errno (hk s) = Ret p h → ok (Sys h (<[f := p]> (fibers s))).
Proof.
  intros Hok Hf Hguard. unfold connect_returned.
  assert (∀ q, fibers s !! f = Some q → suspended q = false) as Hns by (intros q Hq; rewrite Hf in Hq; by simplify_eq).
  destruct (n =? 0).
  { intros [= <- <-]. apply ok_drop; try done. by left. }
  destruct (negb (n =? -1) || negb (errno =? EINPROGRESS)) eqn:E0.
  { intros [= <- <-]. apply ok_drop; try done. by left. }
  apply orb_false_iff in E0 as [Hn%negb_false_iff He%negb_false_iff].
  destruct (Hguard (proj1 (Z.eqb_eq _ _) Hn) (proj1 (Z.eqb_eq _ _) He)) as [Hfit Hfree].
  intros (u & h0 & Hthis & H)%bind_inv.
  assert (h0 = hk s) as -> by (unfold iom_this in Hthis; by case_match; simplify_eq).
  apply bind_inv in H as (w & h1 & Hnew & H). unfold new_tinfo, fresh, upd, bind in Hnew. cbn in Hnew.
  injection Hnew as <- <-. set (k := Call fd IOManager.WRITE to (addr (hk s))) in *.
  set (h1 := set_tinfos _ _) in H.
  assert (ok (Sys h1 (<[f := SockError k]> (fibers s)))) as Hok1.
  { apply (ok_new s f (SockError k) k); try done; [by apply (ok_conn _ (ok_view s Hok) f fd to)|by right]. }
  apply bind_inv in H as (tm & h2 & Harm & H). apply bind_inv in H as (rt & h3 & Hadd & H).
  destruct (ok_register (Sys h1 (<[f := SockError k]> (fibers s))) f (SockError k) k ctl tm h2 rt h3)
    as [Hz Hnz]; try done; [cbn; by rewrite lookup_insert_eq|]. cbn in Hz, Hnz.
  destruct (Z.eqb_spec rt 0) as [E|E].
  - injection H as <- <-. specialize (Hz E (ConnWaiting k tm) eq_refl). by rewrite insert_insert_eq in Hz.
  - destruct (Hnz E) as (h4 & Hcan & Hok4 & _). rewrite (bind_Ret _ _ _ _ _ Hcan) in H.
    by injection H as <- <-.
Qed.

Lemma sockerr_ok s f k rt errno error p h :
  ok s → fibers s !! f = Some (SockError k) → connect_sockerr k rt errno error (hk s) = Ret p h →
  ok (Sys h (<[f := p]> (fibers s))).
Proof.
  intros Hok Hf. assert (ok (Sys (hk s) (fibers s))) as Hok' by (by destruct s). unfold connect_sockerr.
  repeat case_match; by apply (ok_finish s f (SockError k)).
Qed.

Lemma call_ok s f io fd p h :
  ok s → at_rest s f → 0 ≤ fd → do_io io fd (hk s) = Ret p h → ok (Sys h (<[f := p]> (fibers s))).
Proof.
  intros Hok Hrest Hfd H.
  assert (∀ q, fibers s !! f = Some q → suspended q = false) as Hns by (intros q Hq; by eapply at_rest_idle).
  apply do_io_inv in H as [([Hi Ht Hti Hc Ha] & Hs & Hnc & Hcon)|(k & -> & Htk & <- & Hev & Hag)].
  - apply ok_drop; try done; [intros x y E; by destruct (Hcon x y)|]. intros w. left. by rewrite Hti.
  - by apply (ok_new s f (Calling k) k).
Qed.

Lemma connect_ok s f fd to p h :
  ok s → at_rest s f → 0 ≤ fd → connect_with_timeout fd to (hk s) = Ret p h →
  ok (Sys h (<[f := p]> (fibers s))).
Proof.
  intros Hok Hrest Hfd H.
  assert (∀ q, fibers s !! f = Some q → suspended q = false) as Hns by (intros q Hq; by eapply at_rest_idle).
  assert (agree (hk s) h ∧ suspended p = false ∧ call_of p = None ∧ (∀ x y, p = Connecting x y → x = fd))
    as ([Hi Ht Hti Hc Ha] & Hs & Hnc & Hcon).
  { unfold connect_with_timeout in H. apply bind_inv in H as (h0 & h1 & [= <- <-] & H).
    destruct (t_hook_enable (hk s)); cbn in H; [|by injection H as <- <-].
    apply bind_inv in H as (c & h1 & Hag%lookup_ctx_agree & H).
    destruct c as [c|]; [|by injection H as <- <-].
    destruct (FdManager.m_isClosed c); [by injection H as <- <-|].
    destruct (negb _); [by injection H as <- <-|].
    destruct (FdManager.m_userNonblock c); [by injection H as <- <-|]. injection H as <- <-.
    split_and!; try done. by intros x y [= -> _]. }
  apply ok_drop; try done; [intros x y E; by rewrite (Hcon x y E)|]. intros w. left. by rewrite Hti.
Qed.

Lemma sleep_ok s f ms p h :
  ok s → at_rest s f → 0 ≤ ms → clock (hk s) + ms < 2 ^ 64 → sleep_for f ms (hk s) = Ret p h →
  ok (Sys h (<[f := p]> (fibers s))).
Proof.
  intros Hok Hrest Hms Hfit H. unfold sleep_for in H. apply bind_inv in H as (h0 & h1 & [= <- <-] & H).
  destruct (t_hook_enable (hk s)); cbn [negb] in H.
  2: { injection H as <- <-. apply ok_drop; try done; [intros q Hq; by eapply at_rest_idle|by left]. }
  apply bind_inv in H as (a & h1 & Hadd & [= <- <-]).
  destruct (add_timer_ok _ _ _ _ _ (ok_timers s Hok) Hms Hfit Hadd)
    as (-> & Ht & Hi & Hw & Hc & Ha & Hsome & Hst & Hnone & Hcb).
  pose proof (okv_sleep (View (v_fib (view_of s)) (v_wait (view_of s)) (v_q (view_of s)) (v_cb (view_of s))
    (v_ti (view_of s)) (addr h1) (v_size (view_of s))) f (addr (hk s))) as Hv.
  eapply mk_ok; [by rewrite Hi; apply Hok|done| |apply Hv; try done|].
  - intros g q j a. rewrite insert_at, at_Some. intros [[_ ->]|[_ Hq]] Hj; [done|].
    by eapply Hst, (ok_timer s Hok).
  - apply okv_grow; [apply Hok|cbn; lia|done].
  - intros q Hq. by eapply at_rest_idle.
  - intros g q j Hq Hj. pose proof (ok_tm _ (ok_view s Hok) g q j _ Hq Hj) as (Hlt & _). cbn in Hlt. lia.
  - split; cbn; unfold queue; rewrite ?Hi; try done.
    + intros g. by rewrite insert_at.
    + intros w. by rewrite Hw.
Qed.

Lemma okv_wake_if (b : bool) v fd event :
  okv v → 0 ≤ fd → IOManager.is_event event →
  okv (View (v_fib v) (if b then at2 fd event None (v_wait v) else v_wait v)
         (v_q v ++ (if b then option_list (v_wait v fd event) else [])) (v_cb v) (v_ti v) (v_addr v) (v_size v)).
Proof.
  intros Hok Hfd Hev. destruct b; [by apply okv_wake|]. rewrite app_nil_r. by destruct v.
Qed.

(** Waking what waits for the events of one descriptor chosen by [r] and [w]. *)
Lemma ok_wake_events s h (r w : bool) fd st :
  ok s → 0 ≤ fd → agree (set_iom st (hk s)) h → IOManager.inv st →
  IOManager.size st = IOManager.size (iom (hk s)) →
  IOManager.scheduled st = queue (hk s)
    ++ (if r then option_list (IOManager.waiting (iom (hk s)) fd IOManager.READ) else [])
    ++ (if w then option_list (IOManager.waiting (iom (hk s)) fd IOManager.WRITE) else []) →
  (∀ x ev, 0 ≤ x → IOManager.is_event ev → IOManager.waiting st x ev =
     if bool_decide (x = fd) && (if ev =? IOManager.READ then r else w) then None
     else IOManager.waiting (iom (hk s)) x ev) →
  ok (Sys h (fibers s)).
Proof.
  intros Hok Hfd [Hi Ht Hti Hc Ha] Hinv Hsz Hsch Hwait. cbn in *.
  pose proof (okv_wake_if r (view_of s) fd IOManager.READ (ok_view s Hok) Hfd (or_introl eq_refl)) as H1.
  pose proof (okv_wake_if w _ fd IOManager.WRITE H1 Hfd (or_intror eq_refl)) as H2. cbn in H2.
  eapply mk_ok; [by rewrite Hi| | |exact H2|].
  - unfold timers_ok. rewrite Ht, Hc, Ha. by apply ok_timers.
  - intros g q k a Hq Hk. rewrite Ht. by eapply (ok_timer s Hok).
  - split; cbn; unfold queue, timer_cb; rewrite ?Hi, ?Ht, ?Ha; try done.
    + intros x ev Hx Hev. rewrite Hwait by done. destruct Hev as [->| ->], r, w; unfold at2; cbn;
        repeat case_decide; repeat case_bool_decide; destruct_and?; first [done|tauto].
    + rewrite Hsch, app_assoc. f_equal. destruct w; [|done]. destruct r; [|done].
      unfold at2. by rewrite decide_False by by intros [_ [=]].
    + intros x. by rewrite Hti.
Qed.

Lemma ready_ok s fd evs c h :
  ok s → 0 ≤ fd → IOManager.ctx_at fd (iom (hk s)) = Some c →
  Z.land (IOManager.real_events_of evs (IOManager.events c)) (IOManager.events c)
    = IOManager.real_events_of evs (IOManager.events c) →
  handle_ready true (Ready fd evs) (hk s) = Ret tt h → ok (Sys h (fibers s)).
Proof.
  intros Hok Hfd Hc Hsub (st & Hev & Hag)%on_iom_inv.
  pose proof (IOManager.handle_event_size _ _ _ _ _ _ Hev) as Hsz.
  destruct (IOManager.handle_event_spec true fd evs (iom (hk s)) c (ok_io s Hok) Hfd Hc Hsub)
    as (st' & Hev' & Hinv & Hsch & Hwait). cbn in Hsch, Hwait.
  rewrite Hev in Hev'. injection Hev' as <-.
  set (m := IOManager.real_events_of evs (IOManager.events c)) in *.
  apply (ok_wake_events s h (negb (Z.land m IOManager.READ =? 0)) (negb (Z.land m IOManager.WRITE =? 0)) fd st);
    try done.
  - rewrite Hsch. unfold queue. by destruct (Z.land m IOManager.READ =? 0), (Z.land m IOManager.WRITE =? 0).
  - intros x ev Hx Hev'. rewrite Hwait by done. by destruct Hev' as [->| ->].
Qed.

Lemma cancelEvent_ok s fd event r h :
  ok s → 0 ≤ fd < IOManager.size (iom (hk s)) → IOManager.is_event event →
  on_iom (IOManager.cancelEvent true fd event) (hk s) = Ret r h → ok (Sys h (fibers s)).
Proof.
  intros Hok Hfd Hev (st & Hce & Hag)%on_iom_inv.
  pose proof (IOManager.cancelEvent_size _ _ _ _ _ _ Hce) as Hsz.
  destruct (IOManager.cancelEvent_spec true fd event (iom (hk s)) (ok_io s Hok) Hfd Hev)
    as (st' & Hce' & Hinv & Hsch & Hwait). rewrite Hce in Hce'. injection Hce' as _ <-.
  apply (ok_wake_events s h (event =? IOManager.READ) (event =? IOManager.WRITE) fd st); try done; [lia| |].
  - rewrite Hsch. unfold queue. f_equal. destruct Hev as [->| ->]; [by rewrite app_nil_r|done].
  - intros x ev Hx Hev'. rewrite Hwait by done. destruct Hev as [->| ->], Hev' as [->| ->]; cbn;
      repeat case_bool_decide; destruct_and?; try done; exfalso; auto.
Qed.

Lemma cancelAll_ok s fd r h :
  ok s → 0 ≤ fd < IOManager.size (iom (hk s)) →
  on_iom (IOManager.cancelAll true fd) (hk s) = Ret r h → ok (Sys h (fibers s)).
Proof.
  intros Hok Hfd (st & Hce & Hag)%on_iom_inv.
  pose proof (IOManager.cancelAll_size _ _ _ _ _ Hce) as Hsz.
  destruct (IOManager.cancelAll_spec true fd (iom (hk s)) (ok_io s Hok) Hfd)
    as (st' & rt & Hce' & Hinv & Hsch & Hwait). rewrite Hce in Hce'. injection Hce' as _ <-.
  apply (ok_wake_events s h true true fd st); try done; [lia|].
  intros x ev Hx Hev'. rewrite Hwait by done. by destruct Hev' as [->| ->], (bool_decide (x = fd)).
Qed.

(** Several timers fire. *)
Lemma okv_fire_all v l :
  okv v → NoDup l →
  okv (View (v_fib v) (v_wait v) (v_q v ++ (cb_task <$> omap (v_cb v) l))
         (λ a, if decide (a ∈ l) then None else v_cb v a) (v_ti v) (v_addr v) (v_size v)).
Proof.
  intros Hok Hnd. revert v Hok. induction l as [|a l IH]; intros v Hok.
  { cbn. rewrite app_nil_r. by apply (okv_ext v). }
  apply NoDup_cons in Hnd as [Ha Hnd].
  specialize (IH Hnd _ (okv_fire v a Hok)). cbn in IH. revert IH. apply okv_ext. split; try done; cbn.
  - assert (omap (at_ a None (v_cb v)) l = omap (v_cb v) l) as ->.
    { clear -Ha. induction l as [|x l IH]; [done|]. apply not_elem_of_cons in Ha as [Hx Ha]. cbn.
      unfold at_ at 1. rewrite decide_False by done. by rewrite IH. }
    rewrite <- app_assoc. f_equal. by destruct (v_cb v a).
  - intros x. unfold at_. destruct (decide (x ∈ l)) as [Hx|Hx].
    + by rewrite decide_True by (rewrite elem_of_cons; by right).
    + destruct (decide (x = a)) as [->|Hne]; [by rewrite decide_True by (rewrite elem_of_cons; by left)|].
      by rewrite decide_False by (rewrite elem_of_cons; tauto).
Qed.

(** The timers [listExpireCb] takes. *)
Definition due (h : hook) : list Z :=
  if snd (Timer.detectClockRollover (clock h) (tim h)) then Timer.m_timers (tim h)
  else filter (λ a, Timer.next_of (Timer.store (tim h)) a ≤ clock h) (Timer.m_timers (tim h)).

Lemma expire_ok s a0 :
  ok s → Timer.rearmable (clock (hk s)) (Timer.store (tim (hk s))) →
  ∃ h, expire a0 (hk s) = Ret tt h ∧ ok (Sys h (fibers s)) ∧
    queue h = queue (hk s) ++ (cb_task <$> omap (timer_cb (hk s)) (due (hk s))).
Proof.
  intros Hok Hre. set (h := hk s) in *. pose proof (ok_tim s Hok) as Hwf. fold h in Hwf.
  destruct (Timer.expire_spec (clock h) a0 (tim h) Hwf (ok_clock s Hok) Hre) as (v & cbs & Hex & Hwf' & Hcbs & Hst).
  fold (due h) in Hcbs, Hst.
  assert (NoDup (due h)) as Hnd.
  { pose proof (Timer.sorted_NoDup _ _ (Timer.sl_sorted _ _ Hwf)) as Hn. unfold due.
    destruct (snd _); [done|by apply NoDup_filter]. }
  assert (omap id cbs = omap (timer_cb h) (due h)) as Homap.
  { rewrite Hcbs. clear. induction (due h) as [|a l IH]; [done|]. cbn. unfold id, timer_cb in *. by rewrite IH. }
  destruct (on_iom_Ret (push_all cbs) (set_tim v h) tt _ eq_refl) as (h' & Hpush & [Hi Ht Hti Hc Ha]). cbn in *.
  exists h'. unfold expire. rewrite Hex. split; [done|]. unfold queue. rewrite Hi. cbn. rewrite Homap. split; [|done].
  assert (∀ a t, Timer.store v !! a = Some t → ∃ t0, Timer.store (tim h) !! a = Some t0 ∧ Timer.m_recurring t = Timer.m_recurring t0)
    as Hback.
  { intros a t. rewrite Hst. case_decide; [|eauto]. destruct (Timer.store (tim h) !! a) as [t0|] eqn:Ht0; [|done].
    cbn. intros [= <-]. exists t0. split; [done|]. unfold Timer.fired. by destruct (Timer.m_recurring t0) eqn:E; rewrite <- E. }
  eapply mk_ok; [| | |apply (okv_fire_all (view_of s) (due h) (ok_view s Hok) Hnd)|].
  - rewrite Hi. destruct (ok_io s Hok) as [? ? ? ?]. by split.
  - destruct (ok_timers s Hok) as (_ & Hck & Hs). unfold timers_ok. rewrite Ht, Hc, Ha. split_and!; [done|done|].
    intros a t Hat. destruct (Hback a t Hat) as (t0 & Ht0 & ->). by apply Hs.
  - intros g q k a Hq Hk. rewrite Ht. destruct (ok_timer s Hok g q k a Hq Hk) as [t0 Ht0].
    rewrite Hst. fold h in Ht0. rewrite Ht0. case_decide; by eexists.
  - split; cbn; unfold queue; rewrite ?Hi, ?Ha; cbn; try done.
    + by rewrite Homap.
    + intros a. unfold timer_cb at 2. rewrite Ht, Hst. unfold timer_cb. fold h. case_decide; [|done].
      destruct (Timer.store (tim h) !! a) as [t0|] eqn:Ht0; [|done]. cbn. unfold Timer.fired.
      destruct (ok_store s Hok a t0 Ht0) as [_ ->]. done.
    + intros w. by rewrite Hti.
Qed.

Lemma tick_ok s now : ok s → 0 < now → ok (Sys (set_clock now (hk s)) (fibers s)).
Proof. intros [H1 H2 H3 H4 H5 H6] Hnow. by split. Qed.

Lemma env_ok s s' : ok s → env s s' → ok s'.
Proof.
  intros Hok Henv. destruct Henv.
  - by eapply call_ok.
  - by eapply sleep_ok.
  - by eapply connect_ok.
  - by eapply returned_ok.
  - by eapply connected_ok.
  - by eapply sockerr_ok.
  - apply ok_drop; try done; [intros q Hq; by simplify_eq|by left].
  - by eapply ready_ok.
  - by apply (ok_agree (hk s)); [|destruct s].
  - by eapply cancelEvent_ok.
  - by eapply cancelAll_ok.
  - destruct (expire_ok s a0 Hok H) as (h' & He & Hok' & _). congruence.
  - by apply tick_ok.
Qed.

(** *** Taking a task *)

Lemma inv_queue st q :
  IOManager.inv st →
  IOManager.inv (IOManager.Io (IOManager.m_fdContexts st) (IOManager.m_pendingEventCount st)
                   (IOManager.epoll st) q : IOManager.io callback).
Proof. intros [? ? ? ?]. by split. Qed.

(** The callback of a condition timer runs. *)
Lemma take_timeout_ok s w fd event q1 q2 :
  ok s → quiet s → queue (hk s) = q1 ++ cb_task (Timer.OnTimer w (on_timeout w fd event)) :: q2 →
  ∃ h, run_callback self true (Timer.OnTimer w (on_timeout w fd event)) (set_queue (q1 ++ q2) (hk s)) = Ret tt h ∧
    ok (Sys h (fibers s)) ∧ (∃ extra, queue h = (q1 ++ q2) ++ extra) ∧ tinfos h !! w ≠ Some 0.
Proof.
  intros Hok Hquiet Hq. pose proof (ok_view s Hok) as Hv.
  destruct (ok_cb _ Hv (Timer.OnTimer w (on_timeout w fd event))) as (_ & Hw & Hfd & Hev & Hown).
  { right. cbn. rewrite Hq. apply elem_of_app. right. apply elem_of_cons. by left. }
  cbn in Hw, Hfd. set (h1 := set_queue (q1 ++ q2) (hk s)).
  unfold run_callback. unfold bind at 1. cbn [Effect.get]. unfold Timer.run_bound.
  change (tinfos h1) with (tinfos (hk s)).
  assert (∀ c : option Z, tinfos (hk s) !! w = c → c ≠ Some 0 → ok (Sys h1 (fibers s))) as Hstale.
  { intros c Hc Hc0. pose proof (okv_pop_timeout (view_of s) w _ q1 q2 (λ x, tinfos (hk s) !! x) Hv Hq) as Hpop.
    eapply mk_ok; [by apply inv_queue, Hok|by apply (ok_timers s)|apply (ok_timer s Hok)|apply Hpop; try done|done].
    intros f p k Hp Hk <-. destruct (ok_call _ Hv f p k Hp Hk) as ([c' Hc'] & _ & _ & Hz & _). cbn in Hc', Hz.
    destruct (wait_of p) as [[j tm]|] eqn:Hwt; [|rewrite (Hz eq_refl) in Hc; congruence].
    pose proof (wait_call p j tm Hwt) as [Hj _]. rewrite Hk in Hj. injection Hj as <-.
    destruct (ok_timeout _ Hv f p k tm Hp Hwt) as (c2 & Hc2 & Hne & _). cbn in Hc2.
    destruct (Hne) as [-> Hn]; [intros ->; congruence|]. split_and!; done. }
  destruct (tinfos (hk s) !! w) as [c|] eqn:Hc.
  2: { rewrite bool_decide_eq_false_2 by by intros []. exists h1.
       split_and!; [done|by apply (Hstale None)|exists []; by rewrite app_nil_r|]. change (tinfos h1) with (tinfos (hk s)).
       by rewrite Hc. }
  rewrite bool_decide_eq_true_2 by by eexists. cbn [run_hook_cb]. unfold run_on_timeout. unfold bind at 1.
  cbn [Effect.get]. change (tinfos h1) with (tinfos (hk s)). rewrite Hc.
  destruct (Z.eqb_spec c 0) as [->|Hne]; cbn [negb].
  2: { exists h1. split_and!; [done|apply (Hstale (Some c)); congruence|exists []; by rewrite app_nil_r|].
       change (tinfos h1) with (tinfos (hk s)). rewrite Hc. congruence. }
  unfold bind at 1. cbn [upd]. set (h2 := set_tinfos _ h1).
  destruct (IOManager.cancelEvent_spec true fd event (iom h1)) as (st & Hce & Hinv & Hsch & Hwait);
    [by apply inv_queue, Hok|done|done|].
  pose proof (IOManager.cancelEvent_size _ _ _ _ _ _ Hce) as Hsz.
  destruct (on_iom_Ret (IOManager.cancelEvent true fd event) h2 _ st Hce) as (h3 & Hon & [Hi Ht Hti Hcl Ha]). cbn in *.
  rewrite (bind_Ret _ _ _ _ _ Hon). exists h3. split; [done|].
  assert (queue h3 = (q1 ++ q2) ++ option_list (IOManager.waiting (iom (hk s)) fd event)) as Hq3
    by (unfold queue; rewrite Hi; exact Hsch).
  split; [|split; [eauto|by rewrite Hti, lookup_insert_eq]].
  pose proof (okv_wake (view_of s) fd event Hv (proj1 Hfd) Hev) as Hv1.
  set (opt := option_list (IOManager.waiting (iom (hk s)) fd event)) in *.
  pose proof (okv_pop_timeout _ w (on_timeout w fd event) q1 (q2 ++ opt)
    (at_ w (Some ETIMEDOUT) (λ x, tinfos (hk s) !! x)) Hv1) as Hpop. cbn in Hpop.
  eapply mk_ok; [by rewrite Hi| | |apply Hpop|].
  - destruct (ok_timers s Hok) as (? & ? & ?). unfold timers_ok. by rewrite Ht, Hcl, Ha.
  - intros g q k a Hg Hk. rewrite Ht. by eapply (ok_timer s Hok).
  - rewrite Hq. by rewrite <- app_assoc.
  - intros x Hx. unfold at_. by rewrite decide_False.
  - unfold at_. rewrite decide_True, Hc by done. split; by eexists.
  - intros f p k Hp Hk Hkw. destruct (Hown f p k Hp Hk Hkw) as [Hkf Hke]. unfold at_. rewrite decide_True by done.
    destruct (wait_of p) as [[j tm]|] eqn:Hwt.
    2: { specialize (Hquiet f p Hp). by destruct p. }
    split_and!; [done|done|]. pose proof (wait_call p j tm Hwt) as [Hj _]. rewrite Hk in Hj. injection Hj as <-.
    pose proof (ok_wake _ Hv1 f) as Hwk. cbn in Hwk. rewrite Hp in Hwk. unfold wake_ok, at2 in Hwk. cbn in Hwk.
    destruct p; simplify_eq/=; rewrite decide_True in Hwk by done; by destruct Hwk as [_ [[? _]|[_ ?]]].
  - split; cbn; rewrite ?Hq3, ?Hi; try done.
    + intros x ev Hx Hev'. rewrite Hwait by done. unfold at2. cbn. case_decide.
      * by rewrite bool_decide_eq_true_2.
      * by rewrite bool_decide_eq_false_2.
    + by rewrite app_assoc.
    + intros a. unfold timer_cb. by rewrite Ht.
    + intros x. rewrite Hti. by rewrite insert_at.
Qed.

(** A fiber whose wait is over: its timer is cancelled, and either its
    [timer_info] says [ETIMEDOUT] and the call fails, or the call goes on. *)
Definition resumed (k : call) (timer : option Z) (again : phase) : M hook phase :=
  cancel_timer timer ;!
  let! c := cancelled k in
  if negb (c =? 0) then finish k (-1) (Some c) else ret again.

Lemma resumed_ok s f p k tm again q1 q2 :
  ok s → fibers s !! f = Some p → wait_of p = Some (k, tm) →
  queue (hk s) = q1 ++ fiber_task f :: q2 → call_of again = Some k → wait_of again = None →
  ∃ h p', resumed k tm again (set_queue (q1 ++ q2) (hk s)) = Ret p' h ∧ ok (Sys h (<[f := p']> (fibers s))) ∧
    queue h = q1 ++ q2 ∧
    (tinfos (hk s) !! c_tinfo k = Some 0 ∧ p' = again ∨
     tinfos (hk s) !! c_tinfo k = Some ETIMEDOUT ∧ p' = Finished (-1) (Some ETIMEDOUT)).
Proof.
  intros Hok Hf Hw Hq Hag Hagw. pose proof (ok_view s Hok) as Hv. pose proof (wait_call p k tm Hw) as [Hk Hsus].
  set (h1 := set_queue (q1 ++ q2) (hk s)).
  destruct (cancel_timer_ok h1 tm (ok_timers s Hok)) as (h2 & Hcan & Ht2 & Hi2 & Hw2 & Hc2 & Ha2 & Hst2 & Hcb2).
  { intros a ->. by apply (ok_timer s Hok f p k). }
  destruct (ok_timeout _ Hv f p k tm Hf Hw) as (c & Hc & Hne & _). cbn in Hc, Hne.
  unfold resumed. rewrite (bind_Ret _ _ _ _ _ Hcan).
  assert (cancelled k h2 = Ret c h2) as Hcan2 by (unfold cancelled; by rewrite Hw2; cbn; rewrite Hc).
  rewrite (bind_Ret _ _ _ _ _ Hcan2).
  assert (suspended again = false ∧ ∀ x y, again ≠ Connecting x y) as [Hags Hagc] by (by destruct again).
  assert (∀ a, timer_cb h2 a = timer_cb (hk s) a ∨ timer_cb h2 a = None ∧ ∃ j, wait_of p = Some (j, Some a)) as Hcb.
  { intros a. rewrite Hcb2. case_decide as E; [|by left]. right. split; [done|]. exists k. congruence. }
  assert (∀ p' ti' h3, suspended p' = false → (∀ x y, p' ≠ Connecting x y) →
    (call_of p' = None ∨ ∃ j, call_of p' = Some j ∧ call_of p = Some j ∧ tinfos (hk s) !! c_tinfo j = Some 0) →
    (∀ w, ti' !! w = tinfos (hk s) !! w ∨ ti' !! w = None ∧ call_of p' = None ∧
            ∃ j, call_of p = Some j ∧ c_tinfo j = w) →
    h3 = set_tinfos ti' h2 → ok (Sys h3 (<[f := p']> (fibers s)))) as Hbuild.
  { intros p' ti' h3 Hs' Hnc' Hcall' Hti' ->.
    pose proof (okv_resume (view_of s) f p p' q1 q2 (timer_cb h2) (λ w, ti' !! w) Hv Hf Hq Hs' Hnc' Hcall' Hti' Hcb) as Hr.
    eapply mk_ok; [cbn; rewrite Hi2; by apply inv_queue, Hok|exact Ht2| |exact Hr|].
    - intros g q j a. rewrite insert_at, at_Some. cbn. intros [[_ ->]|[_ Hg]] Hj.
      + by destruct p'.
      + by eapply Hst2, (ok_timer s Hok).
    - split; cbn; unfold queue; cbn; rewrite ?Hi2, ?Ha2; try done. intros g. by rewrite insert_at. }
  assert (queue h2 = q1 ++ q2) as Hq2 by (unfold queue; by rewrite Hi2).
  destruct (Z.eqb_spec c 0) as [->|Hc0]; cbn [negb].
  - exists h2, again. split_and!; [done| |done|by left].
    apply (Hbuild again (tinfos (hk s))); try done; [right; by exists k|intros w; by left|].
    destruct h2; cbn in *; by subst.
  - destruct (Hne Hc0) as [-> Hn]. unfold finish, upd, bind. cbn. eexists _, _.
    split_and!; [reflexivity| |done|by right].
    apply (Hbuild (Finished (-1) (Some ETIMEDOUT)) (delete (c_tinfo k) (tinfos (hk s)))); try done; [by left| |].
    + intros w. rewrite delete_at. unfold at_. case_decide; [|by left]. right. split_and!; [done|done|by exists k].
    + by rewrite Hw2.
Qed.

(** Taking any task of the queue, with no fiber running, is defined and keeps the
    invariant: the task of a fiber leaves that fiber running or done, a callback
    only adds to the queue. *)
Definition taken (s s' : sys) (t : task) (q : list task) : Prop :=
  (∃ f p p', t = fiber_task f ∧ fibers s !! f = Some p ∧ suspended p' = false ∧
     fibers s' = <[f := p']> (fibers s) ∧ queue (hk s') = q) ∨
  (∃ b extra, t = cb_task b ∧ fibers s' = fibers s ∧ queue (hk s') = q ++ extra ∧
     (∀ f, b = Timer.Plain (schedule_fiber f) → fiber_task f ∈ extra) ∧
     (∀ k, b = timeout_cb k → tinfos (hk s') !! c_tinfo k ≠ Some 0)).

(** The fiber of the task [t]. *)
Lemma take_fiber_ok s f q1 q2 :
  ok s → queue (hk s) = q1 ++ fiber_task f :: q2 →
  ∃ s', resume f (Sys (set_queue (q1 ++ q2) (hk s)) (fibers s)) = Ret tt s' ∧ ok s' ∧
    taken s s' (fiber_task f) (q1 ++ q2).
Proof.
  intros Hok Hq. pose proof (ok_view s Hok) as Hv.
  destruct (queued_suspended _ f q1 q2 Hv Hq) as (p & Hp & Hsus & _). cbn in Hp.
  assert (∀ k tm again, wait_of p = Some (k, tm) → call_of again = Some k → wait_of again = None →
    ∃ s', enter f (resumed k tm again) (Sys (set_queue (q1 ++ q2) (hk s)) (fibers s)) = Ret tt s' ∧ ok s' ∧
      taken s s' (fiber_task f) (q1 ++ q2)) as Hwait.
  { intros k tm again Hw Hag Hagw.
    destruct (resumed_ok s f p k tm again q1 q2) as (h & p' & Hr & Hok' & Hqh & Hp'); try done.
    unfold enter. cbn [hk fibers]. rewrite Hr. eexists. split_and!; [reflexivity|done|]. left.
    exists f, p, p'. split_and!; try done. destruct Hp' as [[_ ->]|[_ ->]]; [by destruct again|done]. }
  unfold resume. cbn [fibers]. rewrite Hp. destruct p as [|k|k tm| |k tm|k| |]; try done.
  - by apply (Hwait k tm (Calling k)).
  - by apply (Hwait k tm (SockError k)).
  - unfold enter. cbn [hk fibers ret]. eexists. split_and!; [reflexivity| |].
    + pose proof (okv_resume (view_of s) f Sleeping (Finished 0 None) q1 q2 (timer_cb (hk s))
        (λ w, tinfos (hk s) !! w) Hv Hp Hq) as Hr.
      eapply mk_ok; [by apply inv_queue, Hok|by apply (ok_timers s)| |apply Hr; try done|].
      * intros g q j a. rewrite insert_at, at_Some. intros [[_ ->]|[_ Hg]] Hj; [done|by eapply (ok_timer s Hok)].
      * by left.
      * intros w. by left.
      * intros a. by left.
      * split; cbn; try done. intros g. by rewrite insert_at.
    + left. exists f, Sleeping, (Finished 0 None). split_and!; done.
Qed.

Lemma take_ok s i t :
  ok s → quiet s → queue (hk s) !! i = Some t →
  ∃ s', take_task true i s = Ret tt s' ∧ ok s' ∧
    taken s s' t (take i (queue (hk s)) ++ drop (S i) (queue (hk s))).
Proof.
  intros Hok Hquiet Hi. pose proof (ok_view s Hok) as Hv. unfold take_task. rewrite Hi.
  pose proof (eq_sym (take_drop_middle _ _ _ Hi)) as Hq.
  set (q1 := take i (queue (hk s))) in *. set (q2 := drop (S i) (queue (hk s))) in *.
  assert (t ∈ queue (hk s)) as Hin by (rewrite Hq; apply elem_of_app; right; apply elem_of_cons; by left).
  destruct (ok_q _ Hv t Hin) as [[f ->]|[b ->]]; [by apply take_fiber_ok|].
  unfold run_task. cbn [cb_task IOManager.t_cb IOManager.t_fiber hk fibers].
  assert (cb_ok (view_of s) b) as Hcb by (apply (ok_cb _ Hv); by right).
  destruct b as [[|f]|w [w' fd event|]]; try done.
  - unfold run_callback. unfold bind at 1. cbn [Effect.get Timer.run_bound run_hook_cb].
    destruct (on_iom_Ret (push_task (fiber_task f)) (set_queue (q1 ++ q2) (hk s)) tt _ eq_refl)
      as (h & Hon & [Hi2 Ht Hti Hc Ha]). fold (fiber_task f). rewrite Hon. eexists. split; [reflexivity|].
    pose proof (okv_pop_schedule (view_of s) f q1 q2 Hv Hq) as Hp. cbn in *. split.
    + eapply mk_ok; [rewrite Hi2; by apply inv_queue, Hok| | |exact Hp|].
      * destruct (ok_timers s Hok) as (? & ? & ?). unfold timers_ok. by rewrite Ht, Hc, Ha.
      * intros g q k a Hg Hk. rewrite Ht. by eapply (ok_timer s Hok).
      * split; cbn; unfold queue, timer_cb; rewrite ?Hi2, ?Ht, ?Hti, ?Ha; done.
    + right. exists (Timer.Plain (schedule_fiber f)), [fiber_task f]. split_and!; try done.
      * unfold queue. cbn. by rewrite Hi2.
      * intros g [= <-]. by apply list_elem_of_singleton.
  - destruct Hcb as (-> & _).
    destruct (take_timeout_ok s w fd event q1 q2 Hok Hquiet Hq) as (h & Hr & Hok' & [extra Hex] & Hti).
    rewrite Hr. eexists. split_and!; [reflexivity|done|]. right.
    exists (Timer.OnTimer w (on_timeout w fd event)), extra. split_and!; try done. by intros k [= -> _ _].
Qed.

Lemma step_ok s s' : ok s → step s s' → ok s'.
Proof.
  intros Hok [s1 Henv|i s1 [s2 Hquiet Htake]]; [by eapply env_ok|].
  destruct (queue (hk s) !! i) as [t|] eqn:Hi.
  - destruct (take_ok s i t Hok Hquiet Hi) as (s3 & Htake' & Hok' & _). congruence.
  - unfold take_task in Htake. by rewrite Hi in Htake.
Qed.

Lemma boot_ok s : boot s → ok s.
Proof.
  intros (Hi & Ht & Hw & Hc & Hf). split; rewrite ?Hi, ?Ht; try done.
  - apply IOManager.new_io_inv.
  - apply Timer.new_manager_wf.
  - intros f p k a. by rewrite Hf, lookup_empty.
  - assert (∀ fd event, v_wait (view_of s) fd event = None) as Hwait.
    { intros fd event. cbn. rewrite Hi. unfold IOManager.waiting, IOManager.ctx_at.
      destruct (fd <? 0); [done|]. cbn [IOManager.new_io IOManager.m_fdContexts].
      unfold IOManager.contextResize. rewrite take_nil. cbn [app].
      destruct (replicate _ _ !! _) as [c|] eqn:Hr; [|done]. apply lookup_replicate in Hr as [-> _].
      unfold mbind, option_bind, IOManager.waiting_ctx, IOManager.has. cbn [IOManager.new_fdctx IOManager.events].
      by rewrite Z.land_0_l. }
    assert (v_q (view_of s) = []) as Hq by (cbn; unfold queue; by rewrite Hi).
    assert (∀ a, v_cb (view_of s) a = None) as Hcb by (intros a; cbn; unfold timer_cb; by rewrite Ht).
    assert (∀ f, v_fib (view_of s) f = None) as Hfib by (intros f; cbn; by rewrite Hf, lookup_empty).
    split; rewrite ?Hq.
    + intros b [[a Ha]|Hb]; [by rewrite Hcb in Ha|by apply elem_of_nil in Hb].
    + intros w. cbn. rewrite Hw, lookup_empty. by intros [].
    + intros f p k. by rewrite Hfib.
    + intros f fd to. by rewrite Hfib.
    + intros f p k a. by rewrite Hfib.
    + intros t Ht'. by apply elem_of_nil in Ht'.
    + intros fd event t _ _. by rewrite Hwait.
    + intros f. rewrite Hfib. unfold wake_ok. rewrite Hq. split; [|done]. intros a. by rewrite Hcb.
    + intros f p k tm. by rewrite Hfib.
Qed.

Lemma reachable_ok s : reachable s → ok s.
Proof.
  intros (s0 & Hboot & Hsteps). apply boot_ok in Hboot. induction Hsteps as [|s1 s2 s3 Hs _ IH]; [done|].
  apply IH. by eapply step_ok.
Qed.

(** ** Nothing is lost while time passes *)

Definition extends (s s' : sys) : Prop :=
  (∃ extra, queue (hk s') = queue (hk s) ++ extra) ∧
  ∀ f p, fibers s !! f = Some p → suspended p = true → fibers s' !! f = Some p.

Lemma extends_fiber s h f p :
  iom h = iom (hk s) → (∀ q, fibers s !! f = Some q → suspended q = false) →
  extends s (Sys h (<[f := p]> (fibers s))).
Proof.
  intros Hi Hns. split.
  - exists []. unfold queue. cbn. by rewrite Hi, app_nil_r.
  - intros g q Hg Hq. cbn. rewrite lookup_insert_ne; [done|]. intros <-. by rewrite (Hns q Hg) in Hq.
Qed.

Lemma extends_queue s h extra : queue h = queue (hk s) ++ extra → extends s (Sys h (fibers s)).
Proof. intros Hq. split; [by exists extra|done]. Qed.

Lemma finish_iom k n errno h p h' : finish k n errno h = Ret p h' → iom h' = iom h.
Proof. unfold finish, upd, bind. cbn. by intros [= _ <-]. Qed.

Lemma cancel_timer_iom tm h u h' : cancel_timer tm h = Ret u h' → iom h' = iom h.
Proof. unfold cancel_timer. repeat case_match; try done; by intros [= _ <-]. Qed.

Lemma add_timer_iom ms b h a h' : add_timer ms b h = Ret a h' → iom h' = iom h.
Proof. intros [_ Hag]%add_timer_inv. by rewrite (agree_iom _ _ Hag). Qed.

Lemma arm_timeout_iom k h tm h' : arm_timeout k h = Ret tm h' → iom h' = iom h.
Proof.
  unfold arm_timeout. case_match; [by intros [= _ <-]|].
  intros (a & h1 & Hadd%add_timer_iom & [= _ <-])%bind_inv. done.
Qed.

Lemma add_queue ctl f fd event h rt h' :
  on_iom (IOManager.addEvent ctl self f fd event None) h = Ret rt h' → queue h' = queue h.
Proof.
  intros (v & Hadd%IOManager.addEvent_scheduled & Hag)%on_iom_inv. unfold queue.
  by rewrite (agree_iom _ _ Hag).
Qed.

Lemma iom_this_inv h u h' : iom_this h = Ret u h' → h' = h.
Proof. unfold iom_this. case_match; [by intros [= _ <-]|done]. Qed.

Lemma returned_queue f ctl k n errno h p h' :
  do_io_returned self f ctl k n errno h = Ret p h' → queue h' = queue h.
Proof.
  unfold do_io_returned. destruct (_ && (errno =? EINTR)); [by intros [= _ <-]|].
  destruct (_ && _); [|intros H%finish_iom; unfold queue; by rewrite H].
  intros (u & h0 & ->%iom_this_inv & H)%bind_inv. apply bind_inv in H as (tm & h1 & H1%arm_timeout_iom & H).
  apply bind_inv in H as (rt & h2 & H2%add_queue & H).
  assert (queue h2 = queue h) as Hq2 by (rewrite H2; unfold queue; by rewrite H1).
  destruct (negb _); [|by injection H as _ <-].
  apply bind_inv in H as (v & h3 & H3%cancel_timer_iom & H4%finish_iom). rewrite <- Hq2. unfold queue. congruence.
Qed.

Lemma connected_queue f ctl fd to n errno h p h' :
  connect_returned self f ctl fd to n errno h = Ret p h' → queue h' = queue h.
Proof.
  unfold connect_returned. destruct (n =? 0); [by intros [= _ <-]|]. destruct (_ || _); [by intros [= _ <-]|].
  intros (u & h0 & ->%iom_this_inv & H)%bind_inv. apply bind_inv in H as (w & h1 & H0 & H).
  unfold new_tinfo, fresh, upd, bind in H0. cbn in H0. injection H0 as <- <-.
  apply bind_inv in H as (tm & h2 & H1%arm_timeout_iom & H). apply bind_inv in H as (rt & h3 & H2%add_queue & H).
  assert (queue h3 = queue h) as Hq3 by (rewrite H2; unfold queue; by rewrite H1).
  destruct (rt =? 0); [by injection H as _ <-|].
  apply bind_inv in H as (v & h4 & H3%cancel_timer_iom & [= _ <-]). rewrite <- Hq3. unfold queue. congruence.
Qed.

Lemma env_extends s s' : ok s → env s s' → extends s s'.
Proof.
  intros Hok Henv. destruct Henv as
    [f io fd p h Hr _ H|f ms p h Hr _ _ H|f fd to p h Hr _ H|f k ctl n errno p h Hf _ H
    |f fd to ctl n errno p h Hf _ H|f k rt errno error p h Hf H|f n errno Hf|fd evs c h Hfd Hc Hsub H| |fd event r h Hfd Hev H
    |fd r h Hfd H|a0 h Hre H|now].
  - apply extends_fiber; [|intros q Hq; by eapply at_rest_idle].
    by apply do_io_inv in H as [([-> _ _ _ _] & _)|(k & _ & _ & _ & _ & [-> _ _ _ _])].
  - apply extends_fiber; [|intros q Hq; by eapply at_rest_idle].
    unfold sleep_for in H. apply bind_inv in H as (h0 & h1 & [= <- <-] & H).
    destruct (negb _); [by injection H as _ <-|]. by apply bind_inv in H as (a & h1 & Ha%add_timer_iom & [= _ <-]).
  - apply extends_fiber; [|intros q Hq; by eapply at_rest_idle].
    unfold connect_with_timeout in H. apply bind_inv in H as (h0 & h1 & [= <- <-] & H).
    destruct (negb _); [by injection H as _ <-|]. apply bind_inv in H as (c & h1 & Hag%lookup_ctx_agree & H).
    rewrite <- (agree_iom _ _ Hag). destruct c as [c|]; [|by injection H as _ <-].
    repeat case_match; by injection H as _ <-.
  - apply returned_queue in H. split; [exists []; cbn; by rewrite H, app_nil_r|].
    intros g q Hg Hq. cbn. rewrite lookup_insert_ne; [done|]. intros <-. by simplify_eq.
  - apply connected_queue in H. split; [exists []; cbn; by rewrite H, app_nil_r|].
    intros g q Hg Hq. cbn. rewrite lookup_insert_ne; [done|]. intros <-. by simplify_eq.
  - apply extends_fiber; [|intros q Hq; by simplify_eq]. unfold connect_sockerr in H.
    by repeat case_match; apply finish_iom in H.
  - apply extends_fiber; [done|intros q Hq; by simplify_eq].
  - apply on_iom_inv in H as (st & He & Hag).
    destruct (IOManager.handle_event_spec true fd evs (iom (hk s)) c (ok_io s Hok) Hfd Hc Hsub)
      as (st' & He' & _ & Hsch & _). rewrite He in He'. injection He' as <-.
    eapply extends_queue. unfold queue. rewrite (agree_iom _ _ Hag). exact Hsch.
  - eapply (extends_queue _ _ []). by rewrite app_nil_r.
  - apply on_iom_inv in H as (st & He & Hag).
    destruct (IOManager.cancelEvent_spec true fd event (iom (hk s)) (ok_io s Hok) Hfd Hev)
      as (st' & He' & _ & Hsch & _). rewrite He in He'. injection He' as _ <-.
    eapply extends_queue. unfold queue. rewrite (agree_iom _ _ Hag). exact Hsch.
  - apply on_iom_inv in H as (st & He & Hag).
    destruct (IOManager.cancelAll_spec true fd (iom (hk s)) (ok_io s Hok) Hfd) as (st' & rt & He' & _ & Hsch & _).
    rewrite He in He'. injection He' as _ <-.
    eapply extends_queue. unfold queue. rewrite (agree_iom _ _ Hag). exact Hsch.
  - destruct (expire_ok s a0 Hok Hre) as (h' & He & _ & Hq). rewrite H in He. injection He as <-.
    by eapply extends_queue.
  - eapply (extends_queue _ _ []). by rewrite app_nil_r.
Qed.

Lemma envs_extend s s' : ok s → rtc env s s' → ok s' ∧ extends s s'.
Proof.
  intros Hok Hr. induction Hr as [s|s s1 s2 H1 _ IH].
  { split; [done|]. split; [exists []; by rewrite app_nil_r|done]. }
  destruct (env_extends s s1 Hok H1) as [[e1 Hq1] Hf1].
  destruct (IH (env_ok s s1 Hok H1)) as [Hok2 [[e2 Hq2] Hf2]]. split; [done|]. split.
  - exists (e1 ++ e2). by rewrite Hq2, Hq1, app_assoc.
  - intros f p Hp Hs. apply Hf2; [|done]. by apply Hf1.
Qed.

(** ** Waits end *)

(** Anything happens, and then a worker takes the first task of the queue. *)
Inductive round (s s' : sys) : Prop :=
| Round s1 : rtc env s s1 → take_at s1 0 s' → round s s'.

(** [P] holds after finitely many rounds, whatever happens in them; as long as it
    does not, there is a next round. *)
Inductive eventually (P : sys → Prop) (s : sys) : Prop :=
| ev_now : P s → eventually P s
| ev_round : (∃ s', round s s') → (∀ s', round s s' → eventually P s') → eventually P s.

(** What a round does to a suspended fiber and to the queue behind the task it
    takes. *)
Lemma round_shape s s' f p :
  ok s → round s s' → fibers s !! f = Some p → suspended p = true →
  ok s' ∧ ∃ s1 t q, rtc env s s1 ∧ ok s1 ∧ extends s s1 ∧ queue (hk s1) = t :: q ∧ taken s1 s' t q ∧
    (fibers s' !! f ≠ Some p ∨ fibers s' !! f = Some p ∧ t ≠ fiber_task f).
Proof.
  intros Hok [s1 Henv [s2 Hquiet Htake]] Hf Hsus. destruct (envs_extend s s1 Hok Henv) as [Hok1 Hext].
  destruct (queue (hk s1)) as [|t q] eqn:Hq; [unfold take_task in Htake; by rewrite Hq in Htake|].
  destruct (take_ok s1 0 t Hok1 Hquiet) as (s3 & Htake' & Hok3 & Htk); [by rewrite Hq|].
  rewrite Htake in Htake'. injection Htake' as <-. rewrite Hq in Htk. cbn in Htk. split; [done|].
  exists s1, t, q. split_and!; try done. pose proof (proj2 Hext f p Hf Hsus) as Hf1.
  destruct Htk as [(g & p0 & p' & -> & Hg & Hp' & Hfib & _)|(b & extra & -> & Hfib & _)].
  - rewrite Hfib. destruct (decide (g = f)) as [->|Hne].
    + left. rewrite lookup_insert_eq. intros [= ->]. congruence.
    + right. rewrite lookup_insert_ne by done. split; [done|]. intros [= ->]. done.
  - right. rewrite Hfib. done.
Qed.

(** The queue in front of a task gets shorter. *)
Lemma queue_after s s1 t q i x :
  extends s s1 → queue (hk s1) = t :: q → queue (hk s) !! S i = Some x → q !! i = Some x.
Proof.
  intros [[e He] _] Hq Hx. rewrite He in Hq. assert ((t :: q) !! S i = Some x) as H; [|done].
  rewrite <- Hq. by apply lookup_app_l_Some.
Qed.

Lemma queue_head s s1 t q x :
  extends s s1 → queue (hk s1) = t :: q → queue (hk s) !! 0%nat = Some x → t = x.
Proof.
  intros [[e He] _] Hq Hx. rewrite He in Hq. assert ((t :: q) !! 0%nat = Some x) as H; [|by injection H].
  rewrite <- Hq. by apply lookup_app_l_Some.
Qed.

Lemma taken_queue s s' t q i x : taken s s' t q → q !! i = Some x → queue (hk s') !! i = Some x.
Proof.
  intros [(g & p0 & p' & _ & _ & _ & _ & ->)|(b & extra & _ & _ & -> & _)] Hx; [done|].
  by apply lookup_app_l_Some.
Qed.

(** The running fibers. *)
Definition runs (m : gmap Z phase) : gmap Z phase := filter (λ '(_, p), running p = true) m.

Lemma runs_finished m f n errno :
  is_Some (runs m !! f) → (size (runs (<[f := Finished n errno]> m)) < size (runs m))%nat.
Proof.
  intros [p Hp]. unfold runs. rewrite map_filter_insert_False by done. rewrite map_filter_delete.
  fold (runs m). rewrite map_size_delete_Some by (by eexists).
  assert (size (runs m) ≠ 0%nat); [|lia]. intros E. apply map_size_empty_inv in E. by rewrite E in Hp.
Qed.

(** The kernel can answer every call, so the running fibers come to an end. *)
Lemma settle s : ok s → ∃ s1, rtc env s s1 ∧ quiet s1.
Proof.
  remember (size (runs (fibers s))) as n eqn:Hn. revert s Hn.
  induction (lt_wf n) as [n _ IH]. intros s -> Hok.
  destruct (decide (runs (fibers s) = ∅)) as [He|Hne].
  { exists s. split; [apply rtc_refl|]. intros f p Hp. destruct (running p) eqn:Hr; [|done].
    assert (runs (fibers s) !! f = Some p) as H by by apply map_lookup_filter_Some. by rewrite He in H. }
  destruct (map_choose _ Hne) as (f & p & Hp). pose proof Hp as Hp'.
  apply map_lookup_filter_Some in Hp' as [Hf Hr].
  assert (∃ h n errno, env s (Sys h (<[f := Finished n errno]> (fibers s)))) as (h & n & errno & Henv).
  { destruct p; try done.
    - exists (hk s), 0, None. by apply env_passed.
    - eexists _, 0, None. apply (env_return s f k true 0 0); [done|done|]. cbn. reflexivity.
    - exists (hk s), 0, None. apply (env_connected s f fd timeout_ms true 0 0); done.
    - eexists _, 0, None. apply (env_sockerr s f k 0 0 0); [done|]. cbn. reflexivity. }
  destruct (IH _ (runs_finished (fibers s) f n errno (mk_is_Some _ _ Hp))
    (Sys h (<[f := Finished n errno]> (fibers s))) eq_refl (env_ok s _ Hok Henv)) as (s1 & Hs & Hq).
  exists s1. split; [|done]. eapply rtc_l; [exact Henv|exact Hs].
Qed.

(** As long as something is queued there is a next round. *)
Lemma round_exists s i t : ok s → queue (hk s) !! i = Some t → ∃ s', round s s'.
Proof.
  intros Hok Hi. destruct (settle s Hok) as (s1 & Hs & Hquiet).
  destruct (envs_extend s s1 Hok Hs) as [Hok1 [[e He] _]].
  destruct (queue (hk s1)) as [|t1 q] eqn:Hq.
  { apply eq_sym, app_nil in He as [He _]. by rewrite He in Hi. }
  destruct (take_ok s1 0 t1 Hok1 Hquiet) as (s2 & Htake & _); [by rewrite Hq|].
  exists s2. by apply (Round s s2 s1), take_run.
Qed.

Section waits.
Context (f : Z) (p : phase) (Hsus : suspended p = true).

Definition left_wait (s : sys) : Prop := fibers s !! f ≠ Some p.

Lemma queued_fiber_runs i s :
  ok s → queue (hk s) !! i = Some (fiber_task f) → eventually left_wait s.
Proof using Hsus.
  revert s. induction i as [|i IH]; intros s Hok Hi;
    (destruct (decide (fibers s !! f = Some p)) as [Hf|Hf]; [|by apply ev_now]);
    (apply ev_round; [by eapply round_exists|]); intros s' Hr;
    destruct (round_shape s s' f p Hok Hr Hf Hsus) as (Hok' & s1 & t & q & _ & Hok1 & Hext & Hq & Htk & Hcase);
    (destruct Hcase as [Hl|[Hf' Hne]]; [by apply ev_now|]).
  - by destruct Hne, (queue_head s s1 t q (fiber_task f) Hext Hq Hi).
  - apply IH; [done|]. eapply taken_queue; [done|]. by eapply queue_after.
Qed.

Lemma queued_schedule_runs i s :
  ok s → queue (hk s) !! i = Some (cb_task (Timer.Plain (schedule_fiber f))) → eventually left_wait s.
Proof using Hsus.
  revert s. induction i as [|i IH]; intros s Hok Hi;
    (destruct (decide (fibers s !! f = Some p)) as [Hf|Hf]; [|by apply ev_now]);
    (apply ev_round; [by eapply round_exists|]); intros s' Hr;
    destruct (round_shape s s' f p Hok Hr Hf Hsus) as (Hok' & s1 & t & q & _ & Hok1 & Hext & Hq & Htk & _).
  - rewrite (queue_head s s1 t q _ Hext Hq Hi) in Htk.
    destruct Htk as [(g & p0 & p' & E & _)|(b & extra & E & _ & Hq' & Hb & _)]; [done|]. injection E as <-.
    destruct (list_elem_of_lookup_1 _ _ (Hb f eq_refl)) as [j Hj].
    apply (queued_fiber_runs (length q + j)); [done|].
    rewrite Hq', lookup_app_r by lia. by replace (length q + j - length q)%nat with j by lia.
  - apply IH; [done|]. eapply taken_queue; [done|]. by eapply queue_after.
Qed.

(** A fiber with something in the queue runs. *)
Lemma queued_runs s : ok s → (1 ≤ nq f (queue (hk s)))%nat → eventually left_wait s.
Proof using Hsus.
  intros Hok Hn. unfold nq in Hn.
  destruct (filter (wakes f) (queue (hk s))) as [|t l] eqn:Hl; [cbn in Hn; lia|].
  assert (t ∈ filter (wakes f) (queue (hk s))) as Hin by (rewrite Hl; apply elem_of_cons; by left).
  apply list_elem_of_filter in Hin as [Ht Hin]. apply list_elem_of_lookup_1 in Hin as [i Hi].
  destruct Ht as [->| ->]; [by eapply queued_fiber_runs|by eapply queued_schedule_runs].
Qed.

Context (k : call) (tm : option Z) (Hwait : wait_of p = Some (k, tm)).

Lemma queued_timeout_runs i s :
  ok s → queue (hk s) !! i = Some (cb_task (timeout_cb k)) → eventually left_wait s.
Proof using Hsus Hwait.
  revert s. induction i as [|i IH]; intros s Hok Hi;
    (destruct (decide (fibers s !! f = Some p)) as [Hf|Hf]; [|by apply ev_now]);
    (apply ev_round; [by eapply round_exists|]); intros s' Hr;
    destruct (round_shape s s' f p Hok Hr Hf Hsus) as (Hok' & s1 & t & q & _ & Hok1 & Hext & Hq & Htk & Hcase);
    (destruct Hcase as [Hl|[Hf' Hne]]; [by apply ev_now|]).
  - rewrite (queue_head s s1 t q _ Hext Hq Hi) in Htk.
    destruct Htk as [(g & p0 & p' & E & _)|(b & extra & E & _ & Hq' & _ & Hb)]; [done|]. injection E as <-.
    specialize (Hb k eq_refl). destruct (ok_timeout _ (ok_view s' Hok') f p k tm Hf' Hwait) as (c & Hc & Hnz & _).
    cbn in Hc, Hnz. apply queued_runs; [done|]. destruct (Hnz) as [_ Hn]; [intros ->; congruence|lia].
  - apply IH; [done|]. eapply taken_queue; [done|]. by eapply queue_after.
Qed.

End waits.

(** ** Waking exactly once *)

Lemma wake_exactly s f :
  ok s →
  let registered := ∃ fd event, 0 ≤ fd ∧ IOManager.is_event event ∧
    IOManager.waiting (iom (hk s)) fd event = Some (fiber_task f) in
  let armed a := timer_cb (hk s) a = Some (Timer.Plain (schedule_fiber f)) in
  let queued := nq f (queue (hk s)) in
  (∀ p, fibers s !! f = Some p → suspended p = true →
     registered ∧ queued = 0%nat ∧ (∀ a, ¬ armed a) ∨
     ¬ registered ∧ queued = 1%nat ∧ (∀ a, ¬ armed a) ∨
     ¬ registered ∧ queued = 0%nat ∧ ∃ a, armed a ∧ ∀ b, armed b → b = a) ∧
  ((∀ p, fibers s !! f = Some p → suspended p = false) →
     ¬ registered ∧ queued = 0%nat ∧ ∀ a, ¬ armed a).
Proof.
  intros Hok registered armed queued. pose proof (ok_view s Hok) as Hv.
  assert (∀ fd event, 0 ≤ fd → IOManager.is_event event →
    IOManager.waiting (iom (hk s)) fd event = Some (fiber_task f) →
    ∃ p k tm, fibers s !! f = Some p ∧ wait_of p = Some (k, tm) ∧ c_fd k = fd ∧ c_event k = event) as Htab.
  { intros fd event Hfd Hev Hw.
    destruct (ok_table _ Hv fd event _ Hfd Hev Hw) as (_ & g & p & k & tm & [= <-] & Hp & Hk & ? & ?). eauto 10. }
  pose proof (ok_wake _ Hv f) as Hwk. cbn in Hwk. fold queued in Hwk. split.
  - intros p Hp Hsus. rewrite Hp in Hwk.
    assert (∀ k tm, wait_of p = Some (k, tm) → 0 ≤ c_fd k ∧ IOManager.is_event (c_event k)) as Hcall.
    { intros k tm Hk. apply wait_call in Hk as [Hk _]. by destruct (ok_call _ Hv f p k Hp Hk) as (_ & ? & ? & _). }
    destruct p as [|k|k tm| |k tm|k| |]; try done; unfold wake_ok in Hwk; cbn in Hwk.
    1,2: (destruct (Hcall k tm eq_refl) as [Hfd Hev]; destruct Hwk as [Ha [[Hw Hn]|[Hw Hn]]]; [left|right; left];
      (split_and!; [|done|done]); [by exists (c_fd k), (c_event k)|]; intros (fd & event & Hfd' & Hev' & Hw');
      destruct (Htab fd event Hfd' Hev' Hw') as (p' & k' & tm' & Hp' & Hk' & <- & <-); by simplify_eq/=).
    assert (¬ registered) as Hnr.
    { intros (fd & event & Hfd' & Hev' & Hw').
      destruct (Htab fd event Hfd' Hev' Hw') as (p' & k' & tm' & Hp' & Hk' & _); by simplify_eq/=. }
    destruct Hwk as [(a & Ha & Hu & Hn)|[Ha Hn]]; [right; right|right; left]; split_and!; try done. eauto.
  - intros Hns. split.
    { intros (fd & event & Hfd & Hev & Hw). destruct (Htab fd event Hfd Hev Hw) as (p & k & tm & Hp & Hk & _).
      apply wait_call in Hk as [_ Hk]. by rewrite (Hns p Hp) in Hk. }
    unfold wake_ok in Hwk. destruct (fibers s !! f) as [p|]; [|by destruct Hwk].
    specialize (Hns p eq_refl). by destruct p; destruct Hwk.
Qed.

(** After the deadline of a wait the loop queues its timeout, if nothing has
    woken the fiber yet. *)
Lemma expired_queued s f p k a a0 h :
  ok s → fibers s !! f = Some p → wait_of p = Some (k, Some a) →
  Timer.rearmable (clock (hk s)) (Timer.store (tim (hk s))) →
  Timer.next_of (Timer.store (tim (hk s))) a ≤ clock (hk s) → expire a0 (hk s) = Ret tt h →
  (1 ≤ nq f (queue h))%nat ∨ cb_task (timeout_cb k) ∈ queue h.
Proof.
  intros Hok Hf Hw Hre Hdue Hex. destruct (expire_ok s a0 Hok Hre) as (h' & Hex' & _ & Hq).
  rewrite Hex in Hex'. injection Hex' as <-. rewrite Hq.
  destruct (ok_timeout _ (ok_view s Hok) f p k (Some a) Hf Hw) as (c & _ & Hne & Hz). cbn in Hne, Hz.
  destruct (decide (c = 0)) as [->|Hc]; [|left; rewrite nq_app; destruct (Hne Hc); lia].
  right. apply elem_of_app. destruct (Hz eq_refl a eq_refl) as [Hcb|Hin]; [right|by left].
  apply list_elem_of_fmap. exists (timeout_cb k). split; [done|]. apply list_elem_of_omap.
  exists a. split; [|done].
  assert (a ∈ Timer.m_timers (tim (hk s))) as Hin.
  { apply (Timer.sl_live _ _ (ok_tim s Hok)). unfold timer_cb in Hcb.
    destruct (Timer.store (tim (hk s)) !! a) as [t|] eqn:Ht; [|done]. exists t. split; [done|]. cbn in Hcb. by eexists. }
  unfold due. destruct (snd _); [done|]. by apply list_elem_of_filter.
Qed.

End loop.

(** ** Properties *)

(** A run for the witnesses: fiber 7 reads socket 70, which has a receive timeout
    of 2500 ms, the kernel answers [EAGAIN] and the fiber waits. *)
Definition self0 : Z := 9.

Definition after {A} (r : outcome hook A) (h0 : hook) : hook := match r with Ret _ h => h | _ => h0 end.
Definition phase_after (r : outcome hook phase) : phase := match r with Ret p _ => p | _ => Passing end.

Definition demo_hook : hook := after (setsockopt 0 70 SOL_SOCKET FdManager.SO_RCVTIMEO (2, 500000) sample_hook) sample_hook.
Definition demo0 : sys := Sys demo_hook ∅.
Definition demo_call : call := Call 70 IOManager.READ 2500 1.
Definition demo1 : sys := Sys (after (do_io read 70 demo_hook) demo_hook) {[ 7 := Calling demo_call ]}.
Definition demo2 : sys :=
  Sys (after (do_io_returned self0 7 true demo_call (-1) EAGAIN (hk demo1)) demo_hook)
      {[ 7 := Waiting demo_call (Some 2) ]}.
Definition demo3 : sys := Sys (set_clock 3500 (hk demo2)) (fibers demo2).
Definition demo4 : sys := Sys (after (expire self0 500 (hk demo3)) demo_hook) (fibers demo3).

Lemma demo2_reachable : reachable self0 demo2.
Proof.
  exists demo0. split; [by vm_compute|].
  eapply rtc_l; [apply step_env; apply (env_call self0 demo0 7 read 70 (Calling demo_call) (hk demo1))|].
  - done.
  - done.
  - vm_compute. reflexivity.
  - eapply rtc_l; [apply step_env|apply rtc_refl].
    apply (env_return self0 demo1 7 demo_call true (-1) EAGAIN (Waiting demo_call (Some 2)) (hk demo2)).
    + done.
    + intros _ _. split; [right; by vm_compute|by vm_compute].
    + vm_compute. reflexivity.
Qed.

Lemma demo3_reachable : reachable self0 demo3.
Proof.
  destruct demo2_reachable as (s0 & Hb & Hs). exists s0. split; [done|]. eapply rtc_r; [exact Hs|].
  apply step_env. by apply (env_tick self0 demo2 3500).
Qed.

Lemma demo_rearm : Timer.rearmable 3500 (Timer.store (tim (hk demo3))).
Proof.
  intros a t Ht. assert (Timer.store (tim (hk demo3)) = {[ 2 := Timer.mk false 2500 3500 (Some (timeout_cb demo_call)) ]})
    as E by (vm_compute; reflexivity). rewrite E in Ht. apply lookup_singleton_Some in Ht as [_ <-]. cbn. lia.
Qed.

Lemma demo4_expire : expire self0 500 (hk demo3) = Ret tt (hk demo4).
Proof. vm_compute. reflexivity. Qed.

Lemma demo4_reachable : reachable self0 demo4.
Proof.
  destruct demo3_reachable as (s0 & Hb & Hs). exists s0. split; [done|]. eapply rtc_r; [exact Hs|].
  apply step_env. apply (env_expire self0 demo3 500); [exact demo_rearm|exact demo4_expire].
Qed.

(** C11. In every reachable state of the loop, what will wake a suspended fiber is
    in exactly one place, once: registered with the event table, queued, or
    bound to an armed timer; for a fiber that is not suspended there is nothing.
    So no wake-up is lost and no fiber is resumed twice. *)
Theorem woken_exactly_once self s f :
  reachable self s →
  let registered := ∃ fd event, 0 ≤ fd ∧ IOManager.is_event event ∧
    IOManager.waiting (iom (hk s)) fd event = Some (fiber_task self f) in
  let armed a := timer_cb (hk s) a = Some (Timer.Plain (schedule_fiber f)) in
  let queued := nq self f (queue (hk s)) in
  (∀ p, fibers s !! f = Some p → suspended p = true →
     registered ∧ queued = 0%nat ∧ (∀ a, ¬ armed a) ∨
     ¬ registered ∧ queued = 1%nat ∧ (∀ a, ¬ armed a) ∨
     ¬ registered ∧ queued = 0%nat ∧ ∃ a, armed a ∧ ∀ b, armed b → b = a) ∧
  ((∀ p, fibers s !! f = Some p → suspended p = false) →
     ¬ registered ∧ queued = 0%nat ∧ ∀ a, ¬ armed a).
Proof. intros Hr. by apply wake_exactly, reachable_ok. Qed.

Lemma woken_exactly_once_witness :
  let registered := ∃ fd event, 0 ≤ fd ∧ IOManager.is_event event ∧
    IOManager.waiting (iom (hk demo2)) fd event = Some (fiber_task self0 7) in
  let armed a := timer_cb (hk demo2) a = Some (Timer.Plain (schedule_fiber 7)) in
  let queued := nq self0 7 (queue (hk demo2)) in
  (∀ p, fibers demo2 !! 7 = Some p → suspended p = true →
     registered ∧ queued = 0%nat ∧ (∀ a, ¬ armed a) ∨
     ¬ registered ∧ queued = 1%nat ∧ (∀ a, ¬ armed a) ∨
     ¬ registered ∧ queued = 0%nat ∧ ∃ a, armed a ∧ ∀ b, armed b → b = a) ∧
  ((∀ p, fibers demo2 !! 7 = Some p → suspended p = false) →
     ¬ registered ∧ queued = 0%nat ∧ ∀ a, ¬ armed a).
Proof. apply (woken_exactly_once self0 demo2 7). exact demo2_reachable. Defined.

(** When no fiber is running, every task of the queue can be run without
    undefined behaviour: a resumed fiber was suspended and its timer can be
    cancelled, no assertion of the event table fails, and the fiber of the task
    is no longer suspended. *)
Theorem tasks_run self s i t :
  reachable self s → quiet s → queue (hk s) !! i = Some t →
  ∃ s', take_task self true i s = Ret tt s' ∧ reachable self s' ∧
    ∀ f, t = fiber_task self f → ∃ p, fibers s' !! f = Some p ∧ suspended p = false.
Proof.
  intros Hr Hquiet Hi. pose proof (reachable_ok self s Hr) as Hok.
  destruct (take_ok self s i t Hok Hquiet Hi) as (s' & Htake & _ & Htk). exists s'. split_and!; [done| |].
  - destruct Hr as (s0 & Hb & Hs). exists s0. split; [done|]. eapply rtc_r; [exact Hs|].
    by apply (step_take self s i), take_run.
  - intros f ->. destruct Htk as [(g & p & p' & [= <-] & _ & Hp' & -> & _)|(b & extra & [=] & _)].
    exists p'. by rewrite lookup_insert_eq.
Qed.

Lemma demo4_quiet : quiet demo4.
Proof.
  intros f p Hp. unfold demo4, demo3, demo2 in Hp. cbn [fibers] in Hp.
  by apply lookup_singleton_Some in Hp as [_ <-].
Qed.

Lemma tasks_run_witness :
  ∃ s', take_task self0 true 0 demo4 = Ret tt s' ∧ reachable self0 s' ∧
    ∀ f, cb_task self0 (timeout_cb demo_call) = fiber_task self0 f → ∃ p, fibers s' !! f = Some p ∧ suspended p = false.
Proof.
  apply (tasks_run self0 demo4 0 (cb_task self0 (timeout_cb demo_call))).
  - exact demo4_reachable.
  - exact demo4_quiet.
  - vm_compute. reflexivity.
Defined.



Lemma wait_ms_small n : 0 ≤ n < 2 ^ 31 → IOManager.wait_ms n = 3000 `min` n.
Proof.
  intros Hn. unfold IOManager.wait_ms. rewrite (proj2 (Z.eqb_neq _ _)) by lia.
  rewrite (swrap_small 32 n) by (unfold in_s; lia). destruct (Z.ltb_spec 3000 n).
  - rewrite swrap_small by (unfold in_s; lia). lia.
  - rewrite swrap_small by (unfold in_s; lia). lia.
Qed.

(** The wait of the idle loop is never longer than 3 s or than the time left
    to any timer, and never negative, as long as the next deadline is less than
    2^31 ms away; the loop ends only with no timer, no pending event and the
    scheduler stopping. *)
Theorem idle_wait_bounded self s stop r h :
  reachable self s → idle_wait stop (hk s) = Ret r h →
  (∀ a, a ∈ Timer.m_timers (tim (hk s)) → Timer.next_of (Timer.store (tim (hk s))) a - clock (hk s) < 2 ^ 31) →
  match r with
  | Some ms => 0 ≤ ms ≤ 3000 ∧
      ∀ a, a ∈ Timer.m_timers (tim (hk s)) →
        ms ≤ 0 `max` (Timer.next_of (Timer.store (tim (hk s))) a - clock (hk s))
  | None => Timer.m_timers (tim (hk s)) = [] ∧ stop = true ∧
      IOManager.total (IOManager.m_fdContexts (iom (hk s))) = 0
  end.
Proof.
  intros Hr Hw Hnear. pose proof (reachable_ok self s Hr) as Hok. pose proof (ok_clock self s Hok) as Hck.
  destruct (Timer.next_timer_spec (clock (hk s)) (tim (hk s)) (ok_tim self s Hok)) as [Hnone Hsome]; [lia|].
  unfold idle_wait in Hw. destruct (Timer.getNextTimer _ _) as [v next]. cbn in Hnone, Hsome.
  unfold IOManager.stopping in Hw. destruct (decide (Timer.m_timers (tim (hk s)) = [])) as [He|Hne].
  - rewrite (Hnone He) in Hw. change (2 ^ 64 - 1 =? 2 ^ 64 - 1) with true in Hw. cbn [andb] in Hw.
    destruct (_ && stop) eqn:E; injection Hw as <- _.
    + apply andb_true_iff in E as [E%Z.eqb_eq ->]. split_and!; try done.
      by rewrite <- (IOManager.inv_count _ (ok_io self s Hok)).
    + change (IOManager.wait_ms (2 ^ 64 - 1)) with 3000. split; [lia|]. rewrite He. by intros a Ha%elem_of_nil.
  - destruct (Hsome Hne) as [(a & Ha & Hna) Hle]. specialize (Hnear a Ha).
    rewrite (proj2 (Z.eqb_neq _ _)) in Hw by lia. cbn [andb] in Hw. injection Hw as <- _.
    rewrite wait_ms_small by lia. split; [lia|]. intros b Hb. specialize (Hle b Hb). lia.
Qed.

Lemma idle_wait_bounded_witness :
  0 ≤ 2500 ≤ 3000 ∧ ∀ a, a ∈ Timer.m_timers (tim (hk demo2)) →
    2500 ≤ 0 `max` (Timer.next_of (Timer.store (tim (hk demo2))) a - clock (hk demo2)).
Proof.
  apply (idle_wait_bounded self0 demo2 false (Some 2500) (after (idle_wait false (hk demo2)) demo_hook)).
  - exact demo2_reachable.
  - vm_compute. reflexivity.
  - apply Forall_forall. apply (bool_decide_unpack _). by vm_compute.
Defined.

(** A single timer between 2^31 and 2^32 ms away (25 to 49 days) makes the
    wait negative: [(int)next_timeout] is below [MAX_TIMEOUT], and [epoll_wait]
    with a negative timeout does not return for any timer. *)
Theorem idle_wait_negative stop h a t :
  Timer.m_timers (tim h) = [a] → Timer.store (tim h) !! a = Some t →
  2 ^ 31 ≤ Timer.m_next t - clock h < 2 ^ 32 →
  ∃ ms h', idle_wait stop h = Ret (Some ms) h' ∧ ms < 0.
Proof.
  intros Hl Ht Hfar. unfold idle_wait, Timer.getNextTimer. cbn [Timer.m_timers Timer.store]. rewrite Hl.
  unfold Timer.next_of. rewrite Ht. rewrite (proj2 (Z.leb_gt _ _)) by lia. rewrite wrap_small by (unfold in_u; lia).
  unfold IOManager.stopping. rewrite (proj2 (Z.eqb_neq _ (2 ^ 64 - 1))) by lia. cbn [andb].
  eexists _, _. split; [reflexivity|]. unfold IOManager.wait_ms. rewrite (proj2 (Z.eqb_neq _ (2 ^ 64 - 1))) by lia.
  assert (swrap 32 (Timer.m_next t - clock h) = Timer.m_next t - clock h - 2 ^ 32) as E.
  { unfold swrap. rewrite Z.mod_small by lia. change (2 ^ (32 - 1)) with (2 ^ 31).
    by rewrite (proj2 (Z.ltb_ge _ _)) by lia. }
  rewrite E, (proj2 (Z.ltb_ge 3000 _)), E by lia. lia.
Qed.

Definition far_hook : hook :=
  after (sleep 7 2147484 (set_fdm (FdManager.new_fds ∅) demo_hook)) demo_hook.

Lemma idle_wait_negative_witness : ∃ ms h', idle_wait false far_hook = Ret (Some ms) h' ∧ ms < 0.
Proof.
  apply (idle_wait_negative false far_hook 1 (Timer.mk false 2147484000 2147485000 (Some (Timer.Plain (schedule_fiber 7))))).
  - vm_compute. reflexivity.
  - vm_compute. reflexivity.
  - by vm_compute.
Defined.

(** The condition [quiet] is needed: with a second worker the callback of an
    expired timer can run while the fiber it belongs to, woken by an event at the
    same time, is between its wake-up and its next wait.  The [timer_info] is
    shared by all waits of the call, so the next wait can no longer time out:
    here the fiber waits again with a fresh timer, that timer expires and its
    callback runs, and nothing wakes the fiber or ever will but an event. *)
Definition race_events : list (sys → outcome sys unit) :=
  let lift (m : M hook unit) : sys → outcome sys unit := λ s,
    match m (hk s) with Ret _ h => Ret tt (Sys h (fibers s)) | _ => UB end in
  [ lift (expire self0 500);                               (* the timer expires *)
    lift (handle_ready true (Ready 70 IOManager.EPOLLIN)); (* and data arrives *)
    take_task self0 true 1;                                (* one worker resumes the fiber *)
    take_task self0 true 0;                                (* another runs the callback *)
    enter 7 (do_io_returned self0 7 true demo_call (-1) EAGAIN);
    lift (upd (set_clock 7000));
    lift (expire self0 500);                               (* the second timer expires *)
    take_task self0 true 0 ].                              (* its callback does nothing *)

Fixpoint play (ms : list (sys → outcome sys unit)) : sys → outcome sys unit :=
  match ms with [] => ret tt | m :: ms => bind m (λ _, play ms) end.

(** With two workers a timeout can be lost: see [race_events]. *)
Theorem timeout_lost_by_race :
  reachable self0 demo3 ∧
  ∃ s, play race_events demo3 = Ret tt s ∧ fibers s !! 7 = Some (Waiting demo_call (Some 3)) ∧
    queue (hk s) = [] ∧ Timer.m_timers (tim (hk s)) = [] ∧
    IOManager.waiting (iom (hk s)) 70 IOManager.READ = Some (fiber_task self0 7).
Proof.
  split; [exact demo3_reachable|]. eexists. split; [vm_compute; reflexivity|]. split_and!; vm_compute; reflexivity.
Qed.

End EventLoop.
