(* ===== verification/Address.v ===== *)
(** * Socket addresses (src/bobliew/address.{h,cc})

    IPv4, IPv6, Unix and unknown addresses, their masks, ports, order and text,
    the splitting of a host string and the look-ups.  A [sockaddr] is a record of
    its fields as they are stored, in network byte order; [bytes_of] is its
    memory image, which the comparisons read.  [getaddrinfo] and [getifaddrs]
    are parameters. *)

From S2P Require Import Prelude Endian Util Httpmap Http.
From stdpp Require Import pretty.
From Stdlib Require Import Btauto.
#[local] Open Scope list_scope.
#[local] Open Scope Z_scope.

Module Address.
Import StdString.

Definition AF_UNSPEC : Z := 0.
Definition AF_UNIX : Z := 1.
Definition AF_INET : Z := 2.
Definition AF_INET6 : Z := 10.

(** [byteswapOnLittleEndian] at the widths used here. *)
Definition swap16 (v : Z) : Z := wrap 16 (bswap_16 (wrap 16 v)).
Definition swap32 (v : Z) : Z := wrap 32 (bswap_32 (wrap 32 v)).

Lemma swap16_endian v : byteswapOnLittleEndian uint16_t v = Some (swap16 v).
Proof. done. Qed.
Lemma swap32_endian v : byteswapOnLittleEndian uint32_t v = Some (swap32 v).
Proof. done. Qed.

(** ** Masks *)

(** [CreateMask<T>(bits)] for a [T] of [w] bits.  The shift and the subtraction
    are done in [int]: shifting by 32, and [INT_MIN - 1], are undefined. *)
Definition CreateMask (w bits : Z) : option Z :=
  let shift := w - bits in
  if (0 <=? shift) && (shift <? 31) then Some (wrap w (Z.shiftl 1 shift - 1)) else None.

(** [CountBytes]: the loop over the set bits, at most as many as the width. *)
Fixpoint CountBytes_loop (fuel : nat) (value result : Z) : option Z :=
  if value =? 0 then Some result
  else
    match fuel with
    | O => None
    | S fuel => CountBytes_loop fuel (Z.land value (value - 1)) (wrap 32 (result + 1))
    end.
Definition CountBytes (w value : Z) : option Z := CountBytes_loop (Z.to_nat w) value 0.

(** ** The address structures *)

Record sockaddr_in := SockIn { sin_family : Z; sin_port : Z; s_addr : Z; sin_zero : list ascii }.
Record sockaddr_in6 := SockIn6 {
  sin6_family : Z; sin6_port : Z; sin6_flowinfo : Z; s6_addr : list Z; sin6_scope_id : Z
}.
Record sockaddr_un := SockUn { sun_family : Z; sun_path : list ascii }.
Record sockaddr := Sock { sa_family : Z; sa_data : list ascii }.

(** The subclasses of [Address]. *)
Inductive Address :=
| IPV4Address (m_addr : sockaddr_in)
| IPV6Address (m_addr : sockaddr_in6)
| UnixAddress (m_addr : sockaddr_un) (m_length : Z)
| UnknownAddress (m_addr : sockaddr).

Definition zeros (n : nat) : list ascii := replicate n "000"%char.

(** The memory image of [m_addr], and [getAddrLen]. *)
Definition bytes_of (a : Address) : list ascii :=
  match a with
  | IPV4Address m => le_bytes 2 (sin_family m) ++ le_bytes 2 (sin_port m) ++ le_bytes 4 (s_addr m) ++ sin_zero m
  | IPV6Address m =>
      le_bytes 2 (sin6_family m) ++ le_bytes 2 (sin6_port m) ++ le_bytes 4 (sin6_flowinfo m)
      ++ (z2b <$> s6_addr m) ++ le_bytes 4 (sin6_scope_id m)
  | UnixAddress m _ => le_bytes 2 (sun_family m) ++ sun_path m
  | UnknownAddress m => le_bytes 2 (sa_family m) ++ sa_data m
  end.
Definition getAddrLen (a : Address) : Z :=
  match a with
  | IPV4Address _ => 16
  | IPV6Address _ => 28
  | UnixAddress _ m_length => m_length
  | UnknownAddress _ => 16
  end.
Definition getFamily (a : Address) : Z :=
  match a with
  | IPV4Address m => sin_family m
  | IPV6Address m => sin6_family m
  | UnixAddress m _ => sun_family m
  | UnknownAddress m => sa_family m
  end.

(** ** Comparison *)

(** The sign of [memcmp] on two arrays of the same length. *)
Fixpoint memcmp (a b : list ascii) : comparison :=
  match a, b with
  | x :: a, y :: b => match b2z x ?= b2z y with Eq => memcmp a b | c => c end
  | _, _ => Eq
  end.

Definition operator_lt (lhs rhs : Address) : bool :=
  let minlen := Z.to_nat (getAddrLen lhs `min` getAddrLen rhs) in
  match memcmp (take minlen (bytes_of lhs)) (take minlen (bytes_of rhs)) with
  | Lt => true
  | Gt => false
  | Eq => getAddrLen lhs <? getAddrLen rhs
  end.
Definition operator_eq (lhs rhs : Address) : bool :=
  (getAddrLen lhs =? getAddrLen rhs) &&
  match memcmp (take (Z.to_nat (getAddrLen lhs)) (bytes_of lhs))
               (take (Z.to_nat (getAddrLen lhs)) (bytes_of rhs)) with
  | Eq => true
  | _ => false
  end.
Definition operator_ne (lhs rhs : Address) : bool := negb (operator_eq lhs rhs).

(** ** IPv4 *)

Definition new_IPV4 (address port : Z) : sockaddr_in :=
  SockIn AF_INET (swap16 port) (swap32 address) (zeros 8).

(** [IPV4Address::Create]: [inet_pton] fills the network-order address. *)
Definition IPV4_Create (inet_pton : list ascii → option Z) (address : list ascii) (port : Z) : option sockaddr_in :=
  let rt := new_IPV4 0 0 in
  match inet_pton address with
  | Some v => Some (SockIn (sin_family rt) (swap16 port) v (sin_zero rt))
  | None => None
  end.

Definition set_s_addr (v : Z) (m : sockaddr_in) : sockaddr_in :=
  SockIn (sin_family m) (sin_port m) v (sin_zero m).

(** The outer [option] is undefined behaviour, the inner one a null pointer. *)
Definition broadcastAddress4 (prefix_len : Z) (m : sockaddr_in) : option (option sockaddr_in) :=
  if 32 <? prefix_len then Some None
  else
    mask ← CreateMask 32 prefix_len;
    Some (Some (set_s_addr (Z.lor (s_addr m) (swap32 mask)) m)).
Definition networkAddress4 (prefix_len : Z) (m : sockaddr_in) : option (option sockaddr_in) :=
  if 32 <? prefix_len then Some None
  else
    mask ← CreateMask 32 prefix_len;
    Some (Some (set_s_addr (Z.lor (s_addr m) (swap32 mask)) m)).
Definition subnetMask4 (prefix_len : Z) : option sockaddr_in :=
  mask ← CreateMask 32 prefix_len;
  Some (SockIn AF_INET 0 (wrap 32 (Z.lnot (swap32 mask))) (zeros 8)).

Definition getPort4 (m : sockaddr_in) : Z := swap16 (sin_port m).
(** [setPort] swaps the 32-bit parameter and stores the low half. *)
Definition setPort4 (v : Z) (m : sockaddr_in) : sockaddr_in :=
  SockIn (sin_family m) (wrap 16 (swap32 v)) (s_addr m) (sin_zero m).

Definition show (n : Z) : list ascii := Http.show n.

Definition insert4 (m : sockaddr_in) : list ascii :=
  let addr := swap32 (s_addr m) in
  show (Z.land (Z.shiftr addr 24) 0xff) ++ of_lit "." ++
  show (Z.land (Z.shiftr addr 16) 0xff) ++ of_lit "." ++
  show (Z.land (Z.shiftr addr 8) 0xff) ++ of_lit "." ++
  show (Z.land addr 0xff) ++ of_lit ":" ++ show (swap16 (sin_port m)).

(** ** IPv6 *)

Definition new_IPV6 : sockaddr_in6 := SockIn6 AF_INET6 0 0 (replicate 16 0) 0.
Definition new_IPV6_bytes (address : list Z) (port : Z) : sockaddr_in6 :=
  SockIn6 AF_INET6 (swap16 port) 0 address 0.
Definition IPV6_Create (inet_pton : list ascii → option (list Z)) (address : list ascii) (port : Z)
    : option sockaddr_in6 :=
  let rt := new_IPV6 in
  match inet_pton address with
  | Some v => Some (SockIn6 (sin6_family rt) (swap16 port) (sin6_flowinfo rt) v (sin6_scope_id rt))
  | None => None
  end.

Definition set_s6_addr (v : list Z) (m : sockaddr_in6) : sockaddr_in6 :=
  SockIn6 (sin6_family m) (sin6_port m) (sin6_flowinfo m) v (sin6_scope_id m).

(** [for(int i = from; i < 16; ++i) s6_addr[i] = v] *)
Definition fill_from (from : nat) (v : Z) (l : list Z) : list Z :=
  take from l ++ replicate (length l - from) v.

(** [s6_addr[prefix_len / 8]] is outside the array from 128 on. *)
Definition on_boundary (prefix_len : Z) (f : Z → Z → Z) (after : Z) (l : list Z) : option (list Z) :=
  let i := Z.to_nat (prefix_len / 8) in
  b ← l !! i;
  mask ← CreateMask 8 (prefix_len mod 8);
  Some (fill_from (S i) after (<[i := f b mask]> l)).

Definition broadcastAddress6 (prefix_len : Z) (m : sockaddr_in6) : option sockaddr_in6 :=
  l ← on_boundary prefix_len (λ b mask, Z.lor b mask) 0xff (s6_addr m);
  Some (set_s6_addr l m).
Definition networkAddress6 (prefix_len : Z) (m : sockaddr_in6) : option sockaddr_in6 :=
  l ← on_boundary prefix_len (λ b mask, Z.land b mask) 0 (s6_addr m);
  Some (set_s6_addr l m).
(** [-CreateMask<uint8_t>(prefix_len % 8)], stored in a byte. *)
Definition subnetMask6 (prefix_len : Z) : option sockaddr_in6 :=
  let i := Z.to_nat (prefix_len / 8) in
  let l := replicate 16 0 in
  _ ← l !! i;
  mask ← CreateMask 8 (prefix_len mod 8);
  Some (SockIn6 AF_INET6 0 0 (replicate i 0xff ++ wrap 8 (- mask) :: drop (S i) l) 0).

Definition getPort6 (m : sockaddr_in6) : Z := swap16 (sin6_port m).
Definition setPort6 (v : Z) (m : sockaddr_in6) : sockaddr_in6 :=
  SockIn6 (sin6_family m) (wrap 16 (swap32 v)) (sin6_flowinfo m) (s6_addr m) (sin6_scope_id m).

(** [os << std::hex] of an [int]: lower-case digits without leading zeros. *)
Definition hexdigit (d : Z) : ascii := nth (Z.to_nat d) (of_lit "0123456789abcdef") "0"%char.
Fixpoint hex_loop (fuel : nat) (n : Z) (acc : list ascii) : list ascii :=
  match fuel with
  | O => acc
  | S fuel =>
      let acc := hexdigit (n mod 16) :: acc in
      if n / 16 =? 0 then acc else hex_loop fuel (n / 16) acc
  end.
Definition show_hex (n : Z) : list ascii := hex_loop 8 n [].

(** The 16-bit groups, [byteswapOnLittleEndian(addr[i])]; a group is zero when
    [addr[i]] is. *)
Fixpoint groups (l : list Z) : list Z :=
  match l with
  | hi :: lo :: l => (256 * hi + lo) :: groups l
  | _ => []
  end.

(** The loop of [IPV6Address::insert] from index [i] on; [prev] is [addr[i-1]]. *)
Fixpoint insert6_loop (i : nat) (prev : option Z) (used_zeros : bool) (gs : list Z) : list ascii * bool :=
  match gs with
  | [] => ([], used_zeros)
  | g :: gs =>
      if (g =? 0) && negb used_zeros then insert6_loop (S i) (Some g) used_zeros gs
      else
        let gap := bool_decide (prev = Some 0) && negb used_zeros in
        let '(rest, used) := insert6_loop (S i) (Some g) (gap || used_zeros) gs in
        ((if gap then of_lit ":" else []) ++ (match i with O => [] | _ => of_lit ":" end) ++ show_hex g ++ rest, used)
  end.

Definition insert6 (m : sockaddr_in6) : list ascii :=
  let gs := groups (s6_addr m) in
  let '(text, used_zeros) := insert6_loop 0 None false gs in
  of_lit "[" ++ text ++
  (if negb used_zeros && (nth 7 gs 0 =? 0) then of_lit "::" else []) ++
  of_lit "]:" ++ show (swap16 (sin6_port m)).

(** ** Unix *)

Definition sun_path_size : nat := 108.
Definition MAX_PATH_LEN : Z := 107.
Definition sun_offset : Z := 2.

Definition new_Unix : sockaddr_un * Z :=
  (SockUn AF_UNIX (zeros sun_path_size), sun_offset + MAX_PATH_LEN).

(** [UnixAddress(path)]: throws when the path does not fit. *)
Definition new_Unix_path (path : list ascii) : exn + (sockaddr_un * Z) :=
  let m_length := wrap 32 (Z.of_nat (length path) + 1) in
  let m_length :=
    match path with
    | c :: _ => if Ascii.eqb c "000" then wrap 32 (m_length - 1) else m_length
    | [] => m_length
    end in
  if Z.of_nat sun_path_size <? m_length then inl logic_error
  else
    let copied := take (Z.to_nat m_length) (path ++ ["000"%char]) in
    inr (SockUn AF_UNIX (copied ++ zeros (sun_path_size - length copied)), m_length + sun_offset).

Definition setAddrLen (v : Z) (a : sockaddr_un * Z) : sockaddr_un * Z := (fst a, v).

(** A C string in an array of characters; without a terminator the read leaves
    the array. *)
Fixpoint c_string (l : list ascii) : option (list ascii) :=
  match l with
  | [] => None
  | c :: l => if Ascii.eqb c "000" then Some [] else s ← c_string l; Some (c :: s)
  end.

Definition getPath (a : sockaddr_un * Z) : option (list ascii) :=
  let '(m, m_length) := a in
  match sun_path m with
  | c :: p =>
      if (sun_offset <? m_length) && Ascii.eqb c "000" then
        let n := Z.to_nat (m_length - sun_offset - 1) in
        if (n <=? length p)%nat then Some (of_lit "\0" ++ take n p) else None
      else c_string (sun_path m)
  | [] => c_string (sun_path m)
  end.
Definition insert_unix (a : sockaddr_un * Z) : option (list ascii) := getPath a.

(** ** Unknown *)

Definition new_Unknown (family : Z) : sockaddr := Sock family (zeros 14).
Definition insert_unknown (m : sockaddr) : list ascii :=
  of_lit "[UnknownAddress family=" ++ show (sa_family m) ++ of_lit "]".

(** [insert], and [toString]: [None] where a read leaves the object. *)
Definition insert (a : Address) : option (list ascii) :=
  match a with
  | IPV4Address m => Some (insert4 m)
  | IPV6Address m => Some (insert6 m)
  | UnixAddress m l => insert_unix (m, l)
  | UnknownAddress m => Some (insert_unknown m)
  end.
Definition toString (a : Address) : option (list ascii) := insert a.

(** ** Creation from memory *)

Definition sub (i n : nat) (b : list ascii) : list ascii := take n (drop i b).

Definition read_in (b : list ascii) : sockaddr_in :=
  SockIn (of_le (sub 0 2 b)) (of_le (sub 2 2 b)) (of_le (sub 4 4 b)) (sub 8 8 b).
Definition read_in6 (b : list ascii) : sockaddr_in6 :=
  SockIn6 (of_le (sub 0 2 b)) (of_le (sub 2 2 b)) (of_le (sub 4 4 b)) (b2z <$> sub 8 16 b) (of_le (sub 24 4 b)).
Definition read_any (b : list ascii) : sockaddr := Sock (of_le (sub 0 2 b)) (sub 2 14 b).

(** [Address::Create]; the memory behind [addr]. *)
Definition Create (addr : option (list ascii)) : option Address :=
  match addr with
  | None => None
  | Some b =>
      let family := of_le (sub 0 2 b) in
      Some (if family =? AF_INET then IPV4Address (read_in b)
            else if family =? AF_INET6 then IPV6Address (read_in6 b)
            else UnknownAddress (read_any b))
  end.

(** ** Look-ups *)

Definition memchr (c : ascii) (s : list ascii) : option nat := index_of (Ascii.eqb c) s.

(** The node and the service [Lookup] finds in a host string. *)
Definition split_host (host : list ascii) : list ascii * option (list ascii) :=
  let '(node, service) :=
    match host with
    | c :: rest =>
        if Ascii.eqb c "[" then
          match memchr "]" rest with
          | Some e =>
              (take e rest,
               match drop (S e) rest with
               | c :: s => if Ascii.eqb c ":" then Some s else None
               | [] => None
               end)
          | None => ([], None)
          end
        else ([], None)
    | [] => ([], None)
    end in
  let '(node, service) :=
    match node with
    | [] =>
        match memchr ":" host with
        | None => ([], None)
        | Some i =>
            match memchr ":" (drop (S i) host) with
            | None => (take i host, Some (drop (S i) host))
            | Some _ => ([], Some (drop i host))
            end
        end
    | _ => (node, service)
    end in
  (match node with [] => host | _ => node end, service).

Section lookups.
(** [getaddrinfo]: an error, or the addresses in order. *)
Context (getaddrinfo : list ascii → option (list ascii) → Z → Z → Z → option (list (option (list ascii)))).

Definition Lookup (host : list ascii) (family type protocol : Z) : bool * list (option Address) :=
  let '(node, service) := split_host host in
  match getaddrinfo node service family type protocol with
  | None => (false, [])
  | Some rs => (bool_decide (rs ≠ []), Create <$> rs)
  end.

Definition LookupAny (host : list ascii) (family type protocol : Z) : option Address :=
  match Lookup host family type protocol with
  | (true, r :: _) => r
  | _ => None
  end.

Definition is_ip (a : Address) : bool :=
  match a with IPV4Address _ | IPV6Address _ => true | _ => false end.

Fixpoint first_ip (l : list (option Address)) : option Address :=
  match l with
  | [] => None
  | Some a :: l => if is_ip a then Some a else first_ip l
  | None :: l => first_ip l
  end.
Definition LookupAnyIPAddress (host : list ascii) (family type protocol : Z) : option Address :=
  match Lookup host family type protocol with
  | (true, rs) => first_ip rs
  | _ => None
  end.
End lookups.

(** [IPAddress::Create]: a numeric host, then the port; the argument is the first
    result of [getaddrinfo]. *)
Definition IP_Create (first : option (option (list ascii))) (port : Z) : option Address :=
  match first with
  | None => None
  | Some b =>
      match Create b with
      | Some (IPV4Address m) => Some (IPV4Address (setPort4 port m))
      | Some (IPV6Address m) => Some (IPV6Address (setPort6 port m))
      | _ => None
      end
  end.

Record ifaddrs := IfAddrs {
  ifa_name : list ascii; ifa_addr : option (list ascii); ifa_netmask : option (list ascii)
}.

Fixpoint sum_bits (l : list Z) : option Z :=
  match l with
  | [] => Some 0
  | b :: l => n ← CountBytes 8 b; s ← sum_bits l; Some (wrap 32 (n + s))
  end.

(** The loop over the interfaces; [None] is a null dereference. *)
Fixpoint interfaces (family : Z) (l : list ifaddrs) : option (list (list ascii * (Address * Z))) :=
  match l with
  | [] => Some []
  | i :: l =>
      a ← ifa_addr i;
      let fam := of_le (sub 0 2 a) in
      if negb (family =? AF_UNSPEC) && negb (family =? fam) then interfaces family l
      else if fam =? AF_INET then
        m ← ifa_netmask i;
        n ← CountBytes 32 (of_le (sub 4 4 m));
        r ← interfaces family l;
        Some ((ifa_name i, (IPV4Address (read_in a), n)) :: r)
      else if fam =? AF_INET6 then
        m ← ifa_netmask i;
        n ← sum_bits (b2z <$> sub 8 16 m);
        r ← interfaces family l;
        Some ((ifa_name i, (IPV6Address (read_in6 a), n)) :: r)
      else interfaces family l
  end.

(** [GetInterfaceAddresses]: [None] for [getifaddrs] is its failure.  The entries
    of a [multimap] with one key are in insertion order. *)
Definition GetInterfaceAddresses (getifaddrs : option (list ifaddrs)) (family : Z)
    : option (bool * list (list ascii * (Address * Z))) :=
  match getifaddrs with
  | None => Some (false, [])
  | Some l => r ← interfaces family l; Some (bool_decide (r ≠ []), r)
  end.

Definition GetInterfaceAddresses_iface (getifaddrs : option (list ifaddrs)) (iface : list ascii) (family : Z)
    : option (bool * list (Address * Z)) :=
  if bool_decide (iface = []) || bool_decide (iface = of_lit "*") then
    Some (true,
      (if (family =? AF_INET) || (family =? AF_UNSPEC) then [(IPV4Address (new_IPV4 0 0), 0)] else []) ++
      (if (family =? AF_INET6) || (family =? AF_UNSPEC) then [(IPV6Address new_IPV6, 0)] else []))
  else
    '(ok, results) ← GetInterfaceAddresses getifaddrs family;
    if negb ok then Some (false, [])
    else
      let r := (filter (λ e, fst e = iface) results).*2 in
      Some (bool_decide (r ≠ []), r).

(** ** Byte order *)

Lemma bswap_32_range x : in_u 32 (bswap_32 x).
Proof.
  rewrite bswap_32_sum. pose proof (byte_at_range x 0). pose proof (byte_at_range x 1).
  pose proof (byte_at_range x 2). pose proof (byte_at_range x 3). unfold in_u. lia.
Qed.

Lemma swap32_small x : in_u 32 x → swap32 x = bswap_32 x.
Proof. intros H. unfold swap32. by rewrite (wrap_small 32 x H), (wrap_small 32 _ (bswap_32_range x)). Qed.

Lemma bswap_16_range x : in_u 16 (bswap_16 x).
Proof.
  rewrite bswap_16_sum. pose proof (byte_at_range x 0). pose proof (byte_at_range x 1). unfold in_u. lia.
Qed.

Lemma swap16_small x : in_u 16 x → swap16 x = bswap_16 x.
Proof. intros H. unfold swap16. by rewrite (wrap_small 16 x H), (wrap_small 16 _ (bswap_16_range x)). Qed.

Lemma be_bytes_swap n x y : of_le (be_bytes n x) = y → of_le (be_bytes n y) = x mod 256 ^ Z.of_nat n.
Proof.
  intros <-. unfold be_bytes.
  assert (le_bytes n (of_le (reverse (le_bytes n x))) = reverse (le_bytes n x)) as ->.
  { pose proof (le_bytes_of_le (reverse (le_bytes n x))) as H. by rewrite length_reverse, length_le_bytes in H. }
  by rewrite reverse_involutive, of_le_le_bytes.
Qed.

Lemma swap32_swap32 x : in_u 32 x → swap32 (swap32 x) = x.
Proof.
  intros H. rewrite (swap32_small x H), swap32_small by apply bswap_32_range.
  rewrite <- (of_le_be_4 (bswap_32 x)), (be_bytes_swap 4 x) by apply of_le_be_4. by apply Z.mod_small.
Qed.

Lemma swap16_swap16 x : in_u 16 x → swap16 (swap16 x) = x.
Proof.
  intros H. rewrite (swap16_small x H), swap16_small by apply bswap_16_range.
  rewrite <- (of_le_be_2 (bswap_16 x)), (be_bytes_swap 2 x) by apply of_le_be_2. by apply Z.mod_small.
Qed.

Lemma swap32_range x : in_u 32 (swap32 x).
Proof. unfold swap32. apply wrap_range. lia. Qed.

(** Swapping commutes with the bit operations. *)
Lemma bswap_32_lor a b : bswap_32 (Z.lor a b) = Z.lor (bswap_32 a) (bswap_32 b).
Proof.
  unfold bswap_32. rewrite !Z.land_lor_distr_l, !Z.shiftr_lor, !Z.shiftl_lor.
  apply Z.bits_inj'. intros n _. rewrite !Z.lor_spec. btauto.
Qed.

Lemma lor_range w a b : 0 ≤ w → in_u w a → in_u w b → in_u w (Z.lor a b).
Proof.
  intros Hw Ha Hb. unfold in_u. rewrite <- (wrap_small w a Ha), <- (wrap_small w b Hb). unfold wrap.
  rewrite <- !Z.land_ones, <- Z.land_lor_distr_l, Z.land_ones by done. apply Z.mod_pos_bound. lia.
Qed.

Lemma land_range w a b : 0 ≤ w → in_u w a → in_u w (Z.land a b).
Proof.
  intros Hw Ha. unfold in_u. rewrite <- (wrap_small w a Ha). unfold wrap.
  rewrite <- Z.land_ones, <- Z.land_assoc, (Z.land_comm (Z.ones w)), Z.land_assoc, Z.land_ones by done.
  apply Z.mod_pos_bound. lia.
Qed.

Lemma swap32_lor a b : in_u 32 a → in_u 32 b → swap32 (Z.lor a b) = Z.lor (swap32 a) (swap32 b).
Proof.
  intros Ha Hb. rewrite !swap32_small by (try done; by apply lor_range). apply bswap_32_lor.
Qed.

(** ** Counting bits *)

(** The number of bits set below [w]. *)
Definition popcount (w : nat) (v : Z) : nat := length (filter (λ n, Z.testbit v (Z.of_nat n) = true) (seq 0 w)).

(** [v & (v - 1)] clears the lowest set bit. *)
Lemma clear_lowest (p : positive) :
  ∃ k, 0 ≤ k ∧ Z.testbit (Zpos p) k = true ∧
    ∀ n, 0 ≤ n → Z.testbit (Z.land (Zpos p) (Zpos p - 1)) n = Z.testbit (Zpos p) n && negb (n =? k).
Proof.
  induction p as [p _|p IH|].
  - exists 0. split_and!; [lia|done|]. intros n Hn. rewrite Z.land_spec.
    replace (Zpos p~1 - 1) with (2 * Zpos p) by lia. replace (Zpos p~1) with (2 * Zpos p + 1) by lia.
    destruct (Z.eqb_spec n 0) as [->|Hne]; [by rewrite Z.testbit_even_0, Z.testbit_odd_0|].
    replace n with (Z.succ (n - 1)) by lia. rewrite Z.testbit_odd_succ, Z.testbit_even_succ by lia. cbn. btauto.
  - destruct IH as (k & Hk & Hb & Hall). exists (Z.succ k).
    replace (Zpos p~0) with (2 * Zpos p) by lia. split_and!; [lia|by rewrite Z.testbit_even_succ|].
    intros n Hn. replace (2 * Zpos p - 1) with (2 * (Zpos p - 1) + 1) by lia. rewrite Z.land_spec.
    destruct (Z.eq_dec n 0) as [->|Hne]; [by rewrite Z.testbit_even_0|].
    replace n with (Z.succ (n - 1)) by lia. rewrite Z.testbit_odd_succ, Z.testbit_even_succ by lia.
    rewrite <- Z.land_spec, Hall by lia. f_equal. f_equal.
    destruct (Z.eqb_spec (n - 1) k), (Z.eqb_spec (Z.succ (n - 1)) (Z.succ k)); lia.
  - exists 0. split_and!; [lia|done|]. intros n Hn. rewrite Z.bits_0.
    destruct (Z.eqb_spec n 0) as [->|]; [done|]. change 1 with (2 ^ 0). by rewrite Z.pow2_bits_false by lia.
Qed.

Lemma popcount_0 w : popcount w 0 = 0%nat.
Proof.
  unfold popcount. induction (seq 0 w) as [|n l IH]; [done|]. rewrite filter_cons, decide_False; [done|].
  by rewrite Z.bits_0.
Qed.

Lemma popcount_le w v : (popcount w v ≤ w)%nat.
Proof. unfold popcount. rewrite <- (length_seq w 0) at 2. apply length_filter. Qed.

Lemma popcount_clear w v :
  in_u (Z.of_nat w) v → v ≠ 0 → popcount w v = S (popcount w (Z.land v (v - 1))).
Proof.
  intros [Hv0 Hv] Hne. destruct v as [|p|p]; [done| |lia].
  destruct (clear_lowest p) as (k & Hk & Hb & Hall).
  assert (k < Z.of_nat w) as Hkw.
  { destruct (Z.lt_ge_cases k (Z.of_nat w)) as [?|Hge]; [done|]. exfalso.
    assert (Z.testbit (Zpos p) k = false) as H; [|congruence].
    destruct (Z.eq_dec (Zpos p) 0); [done|]. apply Z.bits_above_log2; [lia|].
    apply Z.log2_lt_pow2; [lia|]. eapply Z.lt_le_trans; [exact Hv|]. apply Z.pow_le_mono_r; lia. }
  unfold popcount.
  assert (∀ l, NoDup l → Z.to_nat k ∈ l →
    length (filter (λ n, Z.testbit (Zpos p) (Z.of_nat n) = true) l)
    = S (length (filter (λ n, Z.testbit (Z.land (Zpos p) (Zpos p - 1)) (Z.of_nat n) = true) l))) as Hgen;
    [|apply Hgen; [apply NoDup_seq|apply elem_of_seq; lia]].
  assert (∀ l, Z.to_nat k ∉ l →
    length (filter (λ n, Z.testbit (Zpos p) (Z.of_nat n) = true) l)
    = length (filter (λ n, Z.testbit (Z.land (Zpos p) (Zpos p - 1)) (Z.of_nat n) = true) l)) as Hout.
  { intros l Hl. induction l as [|n l IH]; [done|]. apply not_elem_of_cons in Hl as [Hn Hl]. rewrite !filter_cons, Hall by lia.
    rewrite (proj2 (Z.eqb_neq (Z.of_nat n) k)), andb_true_r by (intros <-; by rewrite Nat2Z.id in Hn).
    case_decide; cbn; [f_equal|]; by apply IH. }
  intros l Hnd Hin. induction l as [|x l IH]; [by apply elem_of_nil in Hin|].
  apply NoDup_cons in Hnd as [Hx Hnd]. rewrite !filter_cons.
  destruct (decide (x = Z.to_nat k)) as [->|Hxk].
  - rewrite Z2Nat.id by done. rewrite decide_True by done. rewrite decide_False.
    + cbn. f_equal. by apply Hout.
    + rewrite Hall by done. rewrite Z.eqb_refl, andb_false_r. done.
  - apply elem_of_cons in Hin as [E|Hin]; [done|]. rewrite Hall by lia.
    rewrite (proj2 (Z.eqb_neq (Z.of_nat x) k)), andb_true_r by (intros <-; rewrite Nat2Z.id in Hxk; done).
    case_decide; cbn; [f_equal|]; by apply IH.
Qed.

Lemma CountBytes_loop_spec w fuel v r :
  in_u (Z.of_nat w) v → (popcount w v ≤ fuel)%nat → 0 ≤ r → r + Z.of_nat (popcount w v) < 2 ^ 32 →
  CountBytes_loop fuel v r = Some (r + Z.of_nat (popcount w v)).
Proof.
  revert v r. induction fuel as [|fuel IH]; intros v r Hv Hf Hr Hfit; cbn [CountBytes_loop];
    destruct (Z.eqb_spec v 0) as [->|Hne].
  - rewrite popcount_0. f_equal. lia.
  - rewrite (popcount_clear w v Hv Hne) in Hf. lia.
  - rewrite popcount_0. f_equal. lia.
  - rewrite (popcount_clear w v Hv Hne) in Hf, Hfit |- *.
    pose proof (land_range (Z.of_nat w) v (v - 1) ltac:(lia) Hv) as Hv'.
    rewrite wrap_small by (unfold in_u; lia). rewrite IH; [f_equal; lia|done|lia|lia|lia].
Qed.

(** ** Properties *)

(** [CountBytes] terminates and is the number of bits set in its argument, for
    every width of the sources. *)
Theorem CountBytes_correct (w : nat) v :
  (w ≤ 64)%nat → in_u (Z.of_nat w) v → CountBytes (Z.of_nat w) v = Some (Z.of_nat (popcount w v)).
Proof.
  intros Hw Hv. unfold CountBytes. rewrite Nat2Z.id. pose proof (popcount_le w v).
  rewrite (CountBytes_loop_spec w) by (done || lia). done.
Qed.

Lemma CountBytes_correct_witness :
  CountBytes (Z.of_nat 32) 0xfff00fff = Some (Z.of_nat (popcount 32 0xfff00fff)).
Proof. apply (CountBytes_correct 32 0xfff00fff); [lia|by vm_compute]. Defined.

(** The mask of the host bits. *)
Lemma CreateMask_32 p : 2 ≤ p ≤ 32 → CreateMask 32 p = Some (Z.ones (32 - p)).
Proof.
  intros Hp. unfold CreateMask. rewrite (proj2 (Z.leb_le _ _)), (proj2 (Z.ltb_lt _ _)) by lia.
  cbn [andb]. f_equal. rewrite Z.shiftl_mul_pow2, Z.mul_1_l by lia. rewrite wrap_small; [by rewrite Z.ones_equiv; lia|].
  assert (0 < 2 ^ (32 - p) ≤ 2 ^ 30); [|unfold in_u; lia]. split; [lia|]. apply Z.pow_le_mono_r; lia.
Qed.

Lemma ones_32_range p : 0 ≤ p ≤ 32 → in_u 32 (Z.ones (32 - p)).
Proof.
  intros Hp. rewrite Z.ones_equiv. assert (0 < 2 ^ (32 - p) ≤ 2 ^ 32); [|unfold in_u; lia].
  split; [lia|]. apply Z.pow_le_mono_r; lia.
Qed.

(** The IPv4 broadcast address keeps the first [prefix_len] bits and sets all
    others; the subnet mask has exactly the first [prefix_len] bits, and
    counting its bits gives the prefix back.  Prefixes above 32 give a null
    pointer. *)
Theorem ipv4_masks p m :
  2 ≤ p ≤ 32 → in_u 32 (s_addr m) →
  (∃ b, broadcastAddress4 p m = Some (Some b) ∧ sin_port b = sin_port m ∧
     ∀ n, 0 ≤ n < 32 → Z.testbit (swap32 (s_addr b)) n = Z.testbit (swap32 (s_addr m)) n || (n <? 32 - p)) ∧
  (∃ s, subnetMask4 p = Some s ∧ CountBytes 32 (s_addr s) = Some p ∧
     ∀ n, 0 ≤ n < 32 → Z.testbit (swap32 (s_addr s)) n = (32 - p <=? n)) ∧
  ∀ q, 32 < q → broadcastAddress4 q m = Some None.
Proof.
  intros Hp Hm. split_and!.
  - unfold broadcastAddress4. rewrite (proj2 (Z.ltb_ge _ _)), CreateMask_32 by lia. cbn.
    eexists. split_and!; [done|done|]. intros n Hn. cbn [s_addr set_s_addr].
    rewrite swap32_lor by (done || apply swap32_range). rewrite swap32_swap32 by (apply ones_32_range; lia).
    rewrite Z.lor_spec. f_equal. destruct (Z.ltb_spec n (32 - p)).
    + by rewrite Z.ones_spec_low by lia.
    + by rewrite Z.ones_spec_high by lia.
  - assert (p = 2 + Z.of_nat (Z.to_nat (p - 2)) ∧ (Z.to_nat (p - 2) < 31)%nat) as [Hpe Hlt] by lia.
    generalize dependent (Z.to_nat (p - 2)). intros k -> Hk.
    assert (Forall (λ k, ∃ s, subnetMask4 (2 + Z.of_nat k) = Some s ∧ CountBytes 32 (s_addr s) = Some (2 + Z.of_nat k) ∧
      Forall (λ n, Z.testbit (swap32 (s_addr s)) (Z.of_nat n) = (32 - (2 + Z.of_nat k) <=? Z.of_nat n)) (seq 0 32))
      (seq 0 31)) as Hall.
    { repeat (apply Forall_cons; split; [eexists; split_and!;
        [vm_compute; reflexivity|vm_compute; reflexivity|apply (bool_decide_unpack _); by vm_compute]|]). by apply Forall_nil. }
    rewrite Forall_forall in Hall. destruct (Hall k) as (s & Hs & Hc & Hb); [apply elem_of_seq; lia|].
    exists s. split_and!; [done|done|]. intros n Hn. rewrite Forall_forall in Hb.
    specialize (Hb (Z.to_nat n)). rewrite Z2Nat.id in Hb by lia. apply Hb. apply elem_of_seq. lia.
  - intros q Hq. unfold broadcastAddress4. by rewrite (proj2 (Z.ltb_lt _ _)).
Qed.

Definition sample_v4 : sockaddr_in := new_IPV4 0xC0A80123 8080.

Lemma ipv4_masks_witness :
  (∃ b, broadcastAddress4 24 sample_v4 = Some (Some b) ∧ sin_port b = sin_port sample_v4 ∧
     ∀ n, 0 ≤ n < 32 → Z.testbit (swap32 (s_addr b)) n = Z.testbit (swap32 (s_addr sample_v4)) n || (n <? 32 - 24)) ∧
  (∃ s, subnetMask4 24 = Some s ∧ CountBytes 32 (s_addr s) = Some 24 ∧
     ∀ n, 0 ≤ n < 32 → Z.testbit (swap32 (s_addr s)) n = (32 - 24 <=? n)) ∧
  ∀ q, 32 < q → broadcastAddress4 q sample_v4 = Some None.
Proof. apply (ipv4_masks 24 sample_v4); [lia|by vm_compute]. Defined.

(** [networkAddress] sets the host bits instead of clearing them: it is the
    broadcast address. *)
Theorem networkAddress4_is_broadcast p m : networkAddress4 p m = broadcastAddress4 p m.
Proof. done. Qed.

(** ** IPv6 masks *)

(** Bit [i] of an address, counted from the first. *)
Definition bit6 (l : list Z) (i : Z) : bool :=
  Z.testbit (nth (Z.to_nat (i / 8)) l 0) (7 - i mod 8).

Lemma CreateMask_8 r : 0 ≤ r < 8 → CreateMask 8 r = Some (Z.ones (8 - r)).
Proof.
  intros Hr. unfold CreateMask. rewrite (proj2 (Z.leb_le _ _)), (proj2 (Z.ltb_lt _ _)) by lia.
  cbn [andb]. f_equal. rewrite Z.shiftl_mul_pow2, Z.mul_1_l by lia. rewrite wrap_small; [by rewrite Z.ones_equiv; lia|].
  assert (0 < 2 ^ (8 - r) ≤ 2 ^ 8); [|unfold in_u; lia]. split; [lia|]. apply Z.pow_le_mono_r; lia.
Qed.

Lemma nth_fill from v l i b :
  (from < length l)%nat → (i < length l)%nat →
  nth i (fill_from (S from) v (<[from := b]> l)) 0 =
    if (i <? from)%nat then nth i l 0 else if (i =? from)%nat then b else v.
Proof.
  intros Hf Hi. unfold fill_from. rewrite length_insert.
  assert (∀ j x (k : list Z), k !! j = Some x → nth j k 0 = x) as Hnth
    by (intros j x k Hk; by apply nth_lookup_Some with (d := 0) in Hk).
  destruct (Nat.ltb_spec i from) as [H1|H1]; [|destruct (Nat.eqb_spec i from) as [->|H2]].
  - destruct (lookup_lt_is_Some_2 l i Hi) as [x Hx]. rewrite (Hnth i x l Hx). apply Hnth.
    rewrite lookup_app_l by (rewrite length_take, length_insert; lia).
    rewrite lookup_take_lt by lia. by rewrite list_lookup_insert_ne by lia.
  - apply Hnth. rewrite lookup_app_l by (rewrite length_take, length_insert; lia).
    rewrite lookup_take_lt by lia. by rewrite list_lookup_insert_eq.
  - apply Hnth. rewrite lookup_app_r by (rewrite length_take, length_insert; lia).
    rewrite length_take, length_insert. apply lookup_replicate. split; [done|lia].
Qed.

(** What an operation at the boundary of a prefix does to each bit. *)
Lemma boundary_bits p f after l :
  0 ≤ p < 128 → length l = 16%nat →
  ∃ l', on_boundary p f after l = Some l' ∧ length l' = 16%nat ∧
    ∀ i, 0 ≤ i < 128 → bit6 l' i =
      if i / 8 <? p / 8 then bit6 l i
      else if i / 8 =? p / 8 then Z.testbit (f (nth (Z.to_nat (p / 8)) l 0) (Z.ones (8 - p mod 8))) (7 - i mod 8)
      else Z.testbit after (7 - i mod 8).
Proof.
  intros Hp Hl. unfold on_boundary. set (k := Z.to_nat (p / 8)).
  assert (0 ≤ p / 8 < 16) as Hk by (split; [apply Z.div_pos; lia|apply Z.div_lt_upper_bound; lia]).
  destruct (lookup_lt_is_Some_2 l k) as [b Hb]; [lia|]. rewrite Hb.
  pose proof (Z.mod_pos_bound p 8). rewrite CreateMask_8 by lia. cbn [mbind option_bind].
  eexists. split; [done|]. split.
  { unfold fill_from. rewrite length_app, length_take, length_replicate, length_insert. lia. }
  intros i Hi. assert (0 ≤ i / 8 < 16) as Hi8 by (split; [apply Z.div_pos; lia|apply Z.div_lt_upper_bound; lia]).
  unfold bit6. rewrite nth_fill by lia.
  assert (nth k l 0 = b) as Hn by (by apply nth_lookup_Some with (d := 0) in Hb). rewrite Hn.
  destruct (Z.ltb_spec (i / 8) (p / 8)).
  - by rewrite (proj2 (Nat.ltb_lt _ _)) by lia.
  - rewrite (proj2 (Nat.ltb_ge _ _)) by lia. destruct (Z.eqb_spec (i / 8) (p / 8)).
    + by rewrite (proj2 (Nat.eqb_eq _ _)) by lia.
    + by rewrite (proj2 (Nat.eqb_neq _ _)) by lia.
Qed.

Lemma ones_low k j : 0 ≤ k → 0 ≤ j → Z.testbit (Z.ones k) j = (j <? k).
Proof.
  intros Hk Hj. destruct (Z.ltb_spec j k); [by apply Z.ones_spec_low|by apply Z.ones_spec_high].
Qed.

(** The IPv6 broadcast address keeps the first [prefix_len] bits and sets all
    others. *)
Theorem broadcastAddress6_correct p m :
  0 ≤ p < 128 → length (s6_addr m) = 16%nat →
  ∃ b, broadcastAddress6 p m = Some b ∧ sin6_port b = sin6_port m ∧
    ∀ i, 0 ≤ i < 128 → bit6 (s6_addr b) i = (p <=? i) || bit6 (s6_addr m) i.
Proof.
  intros Hp Hl. unfold broadcastAddress6.
  destruct (boundary_bits p (λ b mask, Z.lor b mask) 0xff (s6_addr m) Hp Hl) as (l' & -> & _ & Hb).
  eexists. split; [done|]. split; [done|]. intros i Hi. cbn [s6_addr set_s6_addr]. rewrite Hb by done.
  pose proof (Z.mod_pos_bound p 8). pose proof (Z.mod_pos_bound i 8). pose proof (Z.div_mod p 8). pose proof (Z.div_mod i 8).
  destruct (Z.ltb_spec (i / 8) (p / 8)); [|destruct (Z.eqb_spec (i / 8) (p / 8)) as [E|E]].
  - by rewrite (proj2 (Z.leb_gt _ _)) by lia.
  - rewrite Z.lor_spec, ones_low, orb_comm by lia. f_equal; [|by unfold bit6; rewrite E].
    destruct (Z.ltb_spec (7 - i mod 8) (8 - p mod 8)), (Z.leb_spec p i); lia.
  - change 0xff with (Z.ones 8). rewrite ones_low by lia. rewrite (proj2 (Z.leb_le p i)) by lia.
    by rewrite (proj2 (Z.ltb_lt _ _)) by lia.
Qed.

Definition sample_v6 : sockaddr_in6 := new_IPV6_bytes [0x20; 0x01; 0x0d; 0xb8; 0; 0; 0; 0; 0; 0; 0; 0; 0; 0; 0xab; 0x01] 443.

Lemma broadcastAddress6_correct_witness :
  ∃ b, broadcastAddress6 61 sample_v6 = Some b ∧ sin6_port b = sin6_port sample_v6 ∧
    ∀ i, 0 ≤ i < 128 → bit6 (s6_addr b) i = (61 <=? i) || bit6 (s6_addr sample_v6) i.
Proof. apply (broadcastAddress6_correct 61 sample_v6); [lia|reflexivity]. Defined.

(** The IPv6 network address and subnet mask are wrong in the byte of the
    boundary: the network address keeps the host bits of that byte and clears
    its network bits, and the mask, negated instead of complemented, has the
    last bit of that byte set. *)
Theorem ipv6_boundary_byte p m :
  0 ≤ p < 128 → length (s6_addr m) = 16%nat →
  (∃ b, networkAddress6 p m = Some b ∧
     ∀ i, 0 ≤ i < 128 → bit6 (s6_addr b) i =
       if i / 8 =? p / 8 then (p <=? i) && bit6 (s6_addr m) i else (i <? p) && bit6 (s6_addr m) i) ∧
  (∃ s, subnetMask6 p = Some s ∧
     ∀ i, 0 ≤ i < 128 → bit6 (s6_addr s) i = (i <? p) || (i =? 8 * (p / 8) + 7)).
Proof.
  intros Hp Hl. split.
  - unfold networkAddress6.
    destruct (boundary_bits p (λ b mask, Z.land b mask) 0 (s6_addr m) Hp Hl) as (l' & -> & _ & Hb).
    eexists. split; [done|]. intros i Hi. cbn [s6_addr set_s6_addr]. rewrite Hb by done.
    pose proof (Z.mod_pos_bound p 8). pose proof (Z.mod_pos_bound i 8). pose proof (Z.div_mod p 8). pose proof (Z.div_mod i 8).
    destruct (Z.ltb_spec (i / 8) (p / 8)); [|destruct (Z.eqb_spec (i / 8) (p / 8)) as [E|E]].
    + rewrite (proj2 (Z.eqb_neq _ _)), (proj2 (Z.ltb_lt _ _)) by lia. done.
    + rewrite Z.land_spec, ones_low, andb_comm by lia. f_equal; [|by unfold bit6; rewrite E].
      destruct (Z.ltb_spec (7 - i mod 8) (8 - p mod 8)), (Z.leb_spec p i); lia.
    + rewrite Z.bits_0. by rewrite (proj2 (Z.ltb_ge _ _)) by lia.
  - assert (p = Z.of_nat (Z.to_nat p) ∧ (Z.to_nat p < 128)%nat) as [Hpe Hlt] by lia.
    generalize dependent (Z.to_nat p). intros k -> Hk.
    assert (Forall (λ k, from_option (λ s,
      bool_decide (Forall (λ i, bit6 (s6_addr s) (Z.of_nat i) = (Z.of_nat i <? Z.of_nat k) || (Z.of_nat i =? 8 * (Z.of_nat k / 8) + 7)) (seq 0 128)))
      false (subnetMask6 (Z.of_nat k)) = true) (seq 0 128)) as Hall by (apply (bool_decide_unpack _); by vm_compute).
    rewrite Forall_forall in Hall. specialize (Hall k ltac:(apply elem_of_seq; lia)).
    destruct (subnetMask6 (Z.of_nat k)) as [s|]; [|done]. cbn [from_option] in Hall. apply bool_decide_eq_true in Hall.
    exists s. split; [done|]. intros i Hi. rewrite Forall_forall in Hall. specialize (Hall (Z.to_nat i)).
    rewrite Z2Nat.id in Hall by lia. apply Hall. apply elem_of_seq. lia.
Qed.

Lemma ipv6_boundary_byte_witness :
  (∃ b, networkAddress6 61 sample_v6 = Some b ∧
     ∀ i, 0 ≤ i < 128 → bit6 (s6_addr b) i =
       if i / 8 =? 61 / 8 then (61 <=? i) && bit6 (s6_addr sample_v6) i else (i <? 61) && bit6 (s6_addr sample_v6) i) ∧
  (∃ s, subnetMask6 61 = Some s ∧
     ∀ i, 0 ≤ i < 128 → bit6 (s6_addr s) i = (i <? 61) || (i =? 8 * (61 / 8) + 7)).
Proof. apply (ipv6_boundary_byte 61 sample_v6); [lia|reflexivity]. Defined.

(** ** Ports *)

Lemma setPort_value v : in_u 32 v → swap16 (wrap 16 (swap32 v)) = v / 65536.
Proof.
  intros Hv. rewrite (swap32_small v Hv), swap16_small by (apply wrap_range; lia).
  rewrite bswap_16_sum, bswap_32_sum. rewrite !(byte_at_wrap 16) by lia.
  pose proof (byte_at_range v 0). pose proof (byte_at_range v 1). pose proof (byte_at_range v 2). pose proof (byte_at_range v 3).
  assert (v / 65536 = byte_at v 2 + byte_at v 3 * 256) as ->.
  { unfold byte_at. rewrite !Z.shiftr_div_pow2 by lia. unfold in_u in Hv. Z.to_euclidean_division_equations. lia. }
  set (x0 := byte_at v 0) in *. set (x1 := byte_at v 1) in *. set (x2 := byte_at v 2) in *. set (x3 := byte_at v 3) in *.
  unfold byte_at. rewrite !Z.shiftr_div_pow2 by lia. clearbody x0 x1 x2 x3. Z.to_euclidean_division_equations. lia.
Qed.

(** The port given to a constructor is the one [getPort] returns; one set with
    [setPort] comes back shifted right by 16 bits, 0 for every valid port. *)
Theorem ports_of_addresses address port bytes v :
  in_u 16 port → in_u 32 v →
  getPort4 (new_IPV4 address port) = port ∧ getPort6 (new_IPV6_bytes bytes port) = port ∧
  getPort4 (setPort4 v (new_IPV4 address port)) = v / 65536 ∧
  getPort6 (setPort6 v (new_IPV6_bytes bytes port)) = v / 65536.
Proof.
  intros Hp Hv. unfold getPort4, getPort6. cbn. rewrite !swap16_swap16, !setPort_value by done. done.
Qed.

Lemma ports_of_addresses_witness :
  getPort4 (new_IPV4 0 8080) = 8080 ∧ getPort6 (new_IPV6_bytes [] 8080) = 8080 ∧
  getPort4 (setPort4 443 (new_IPV4 0 8080)) = 443 / 65536 ∧
  getPort6 (setPort6 443 (new_IPV6_bytes [] 8080)) = 443 / 65536.
Proof. apply (ports_of_addresses 0 8080 [] 443); by vm_compute. Defined.

(** ** The order of addresses *)

(** The part of the memory image a comparison may read. *)
Definition key (a : Address) : list ascii := take (Z.to_nat (getAddrLen a)) (bytes_of a).

(** The length is within the object. *)
Definition wf (a : Address) : Prop :=
  match a with
  | IPV4Address m => length (sin_zero m) = 8%nat
  | IPV6Address m => length (s6_addr m) = 16%nat
  | UnixAddress m l => length (sun_path m) = sun_path_size ∧ 2 ≤ l ≤ 110
  | UnknownAddress m => length (sa_data m) = 14%nat
  end.

Lemma wf_length a : wf a → Z.of_nat (length (key a)) = getAddrLen a ∧ 0 ≤ getAddrLen a ≤ Z.of_nat (length (bytes_of a)).
Proof.
  intros Hwf. assert (0 ≤ getAddrLen a ≤ Z.of_nat (length (bytes_of a))) as H.
  { destruct a as [m|m|m l|m]; unfold wf, getAddrLen, bytes_of in *;
      rewrite !length_app, ?length_fmap, !length_le_bytes; try (rewrite Hwf; lia).
    destruct Hwf as [-> ?]. unfold sun_path_size. lia. }
  split; [|done]. unfold key. rewrite length_take. lia.
Qed.

(** Strings of bytes in the order of their first difference, a prefix before
    what it is a prefix of. *)
Fixpoint lex (a b : list ascii) : comparison :=
  match a, b with
  | [], [] => Eq
  | [], _ => Lt
  | _, [] => Gt
  | x :: a, y :: b => match b2z x ?= b2z y with Eq => lex a b | c => c end
  end.

Lemma lex_memcmp a b :
  lex a b = match memcmp (take (length a `min` length b) a) (take (length a `min` length b) b) with
            | Eq => Nat.compare (length a) (length b)
            | c => c
            end.
Proof.
  revert b. induction a as [|x a IH]; intros [|y b]; try done. cbn. destruct (b2z x ?= b2z y); [|done|done]. apply IH.
Qed.

Lemma lex_eq a b : lex a b = Eq ↔ a = b.
Proof.
  revert b. induction a as [|x a IH]; intros [|y b]; try done. cbn.
  destruct (Z.compare_spec (b2z x) (b2z y)) as [E|E|E].
  - apply (f_equal z2b) in E. rewrite !z2b_b2z in E. subst. rewrite IH. split; [by intros ->|by intros [= ->]].
  - split; [done|]. intros [= -> ->]. lia.
  - split; [done|]. intros [= -> ->]. lia.
Qed.

Lemma lex_antisym a b : lex b a = CompOpp (lex a b).
Proof.
  revert b. induction a as [|x a IH]; intros [|y b]; try done. cbn. rewrite (Z.compare_antisym (b2z x)).
  destruct (b2z x ?= b2z y); cbn; [apply IH|done|done].
Qed.

Lemma lex_trans a b c : lex a b = Lt → lex b c = Lt → lex a c = Lt.
Proof.
  revert b c. induction a as [|x a IH]; intros [|y b] [|z c]; try done. cbn.
  destruct (Z.compare_spec (b2z x) (b2z y)) as [E|E|E]; [|intros _|done];
    destruct (Z.compare_spec (b2z y) (b2z z)) as [F|F|F]; try done; intros H1;
    destruct (Z.compare_spec (b2z x) (b2z z)) as [G|G|G]; try lia; try done.
  apply IH. done.
Qed.

Lemma operators_lex a b :
  wf a → wf b →
  operator_lt a b = bool_decide (lex (key a) (key b) = Lt) ∧ operator_eq a b = bool_decide (lex (key a) (key b) = Eq).
Proof.
  intros Ha Hb. destruct (wf_length a Ha) as [La Ba]. destruct (wf_length b Hb) as [Lb Bb].
  assert (Z.to_nat (getAddrLen a `min` getAddrLen b) = (length (key a) `min` length (key b))%nat) as Hmin by lia.
  assert (∀ c n, (n ≤ length (key c))%nat → take n (bytes_of c) = take n (key c)) as Htake.
  { intros c n Hn. unfold key. rewrite take_take. f_equal. unfold key in Hn. rewrite length_take in Hn. lia. }
  pose proof (lex_memcmp (key a) (key b)) as Hlex. split.
  - unfold operator_lt. rewrite Hmin, !Htake by lia. rewrite Hlex.
    destruct (memcmp _ _); [|done|done]. rewrite <- La, <- Lb.
    destruct (Nat.compare_spec (length (key a)) (length (key b))), (Z.ltb_spec (Z.of_nat (length (key a))) (Z.of_nat (length (key b))));
      try done; lia.
  - unfold operator_eq. destruct (Z.eqb_spec (getAddrLen a) (getAddrLen b)) as [E|E]; cbn [andb].
    + rewrite Hlex, <- Hmin, E, Z.min_id. rewrite !(Htake _ (Z.to_nat (getAddrLen b))) by lia.
      replace (length (key a)) with (length (key b)) by lia. rewrite Nat.compare_refl.
      by destruct (memcmp (take (Z.to_nat (getAddrLen b)) (key a)) (take (Z.to_nat (getAddrLen b)) (key b))).
    + symmetry. apply bool_decide_eq_false. rewrite lex_eq. intros K. rewrite K in La. lia.
Qed.

(** [operator<] is a strict total order on addresses whose equality is
    [operator==], so addresses can be keys of ordered containers. *)
Theorem address_order a b c :
  wf a → wf b → wf c →
  operator_lt a a = false ∧
  (operator_lt a b = true → operator_lt b c = true → operator_lt a c = true) ∧
  (operator_lt a b = true ∧ operator_eq a b = false ∧ operator_lt b a = false ∨
   operator_lt a b = false ∧ operator_eq a b = true ∧ operator_lt b a = false ∨
   operator_lt a b = false ∧ operator_eq a b = false ∧ operator_lt b a = true) ∧
  (operator_eq a b = true ↔ key a = key b) ∧ operator_ne a b = negb (operator_eq b a).
Proof.
  intros Ha Hb Hc. destruct (operators_lex a b Ha Hb) as [Lab Eab]. destruct (operators_lex b a Hb Ha) as [Lba Eba].
  destruct (operators_lex b c Hb Hc) as [Lbc _]. destruct (operators_lex a c Ha Hc) as [Lac _].
  destruct (operators_lex a a Ha Ha) as [Laa _]. unfold operator_ne.
  rewrite Lab, Lba, Eab, Eba, Lbc, Lac, Laa. rewrite (lex_antisym (key a) (key b)).
  rewrite (proj2 (lex_eq (key a) (key a))) by done. split_and!; [done| | | |].
  - rewrite !bool_decide_eq_true. apply lex_trans.
  - destruct (lex (key a) (key b)); naive_solver.
  - by rewrite bool_decide_eq_true, lex_eq.
  - by destruct (lex (key a) (key b)).
Qed.

Lemma address_order_witness :
  operator_lt (IPV4Address sample_v4) (IPV4Address sample_v4) = false ∧
  (operator_lt (IPV4Address sample_v4) (IPV6Address sample_v6) = true →
   operator_lt (IPV6Address sample_v6) (UnknownAddress (new_Unknown 7)) = true →
   operator_lt (IPV4Address sample_v4) (UnknownAddress (new_Unknown 7)) = true) ∧
  (operator_lt (IPV4Address sample_v4) (IPV6Address sample_v6) = true ∧
   operator_eq (IPV4Address sample_v4) (IPV6Address sample_v6) = false ∧
   operator_lt (IPV6Address sample_v6) (IPV4Address sample_v4) = false ∨
   operator_lt (IPV4Address sample_v4) (IPV6Address sample_v6) = false ∧
   operator_eq (IPV4Address sample_v4) (IPV6Address sample_v6) = true ∧
   operator_lt (IPV6Address sample_v6) (IPV4Address sample_v4) = false ∨
   operator_lt (IPV4Address sample_v4) (IPV6Address sample_v6) = false ∧
   operator_eq (IPV4Address sample_v4) (IPV6Address sample_v6) = false ∧
   operator_lt (IPV6Address sample_v6) (IPV4Address sample_v4) = true) ∧
  (operator_eq (IPV4Address sample_v4) (IPV6Address sample_v6) = true ↔
   key (IPV4Address sample_v4) = key (IPV6Address sample_v6)) ∧
  operator_ne (IPV4Address sample_v4) (IPV6Address sample_v6)
    = negb (operator_eq (IPV6Address sample_v6) (IPV4Address sample_v4)).
Proof.
  apply (address_order (IPV4Address sample_v4) (IPV6Address sample_v6) (UnknownAddress (new_Unknown 7))); reflexivity.
Defined.

(** ** Creation from memory *)

Lemma sub_app i n (a b : list ascii) : length a = i → sub i n (a ++ b) = take n b.
Proof. intros <-. unfold sub. by rewrite drop_app_length. Qed.

Lemma of_le_field n v : in_u (8 * Z.of_nat n) v → of_le (le_bytes n v) = v.
Proof. intros H. rewrite of_le_le_bytes, pow256. by apply Z.mod_small. Qed.

Lemma take_field n v (b : list ascii) : take n (le_bytes n v ++ b) = le_bytes n v.
Proof. rewrite take_app_le by (rewrite length_le_bytes; lia). rewrite take_ge; [done|]. rewrite length_le_bytes. lia. Qed.

(** The fields hold what their types can. *)
Definition fields_ok (a : Address) : Prop :=
  wf a ∧
  match a with
  | IPV4Address m => sin_family m = AF_INET ∧ in_u 16 (sin_port m) ∧ in_u 32 (s_addr m)
  | IPV6Address m => sin6_family m = AF_INET6 ∧ in_u 16 (sin6_port m) ∧ in_u 32 (sin6_flowinfo m) ∧
      in_u 32 (sin6_scope_id m) ∧ Forall (in_u 8) (s6_addr m)
  | UnixAddress _ _ => False
  | UnknownAddress m => in_u 16 (sa_family m) ∧ sa_family m ≠ AF_INET ∧ sa_family m ≠ AF_INET6
  end.

(** [Address::Create] on the memory of an IPv4, IPv6 or unknown address gives
    that address back, and the two compare equal. *)
Theorem Create_roundtrip a :
  fields_ok a → Create (Some (bytes_of a)) = Some a ∧ operator_eq a a = true.
Proof.
  intros [Hwf Hf]. split.
  2: { destruct (operators_lex a a Hwf Hwf) as [_ ->]. apply bool_decide_eq_true. by apply lex_eq. }
  unfold Create. f_equal. destruct a as [m|m|m l|m]; cbn [bytes_of].
  - destruct m as [fam port addr z]. destruct Hf as (Hfam & Hp & Ha).
    cbn [wf sin_family sin_port s_addr sin_zero] in *. subst fam.
    assert (of_le (sub 0 2 (le_bytes 2 AF_INET ++ le_bytes 2 port ++ le_bytes 4 addr ++ z)) = AF_INET) as Efam
      by (unfold sub; rewrite drop_0, take_field; by apply of_le_field).
    rewrite Efam. cbn [Z.eqb AF_INET]. f_equal. unfold read_in. rewrite Efam.
    rewrite (sub_app 2) by apply length_le_bytes. rewrite take_field, (of_le_field 2) by done.
    rewrite (app_assoc (le_bytes 2 _)). rewrite (sub_app 4) by (rewrite length_app, !length_le_bytes; lia).
    rewrite take_field, (of_le_field 4) by done.
    rewrite (app_assoc (_ ++ _)), (sub_app 8) by (rewrite !length_app, !length_le_bytes; lia).
    by rewrite take_ge by lia.
  - destruct m as [fam port flow addr sc]. destruct Hf as (Hfam & Hp & Hfl & Hsc & Hb).
    cbn [wf sin6_family sin6_port sin6_flowinfo s6_addr sin6_scope_id] in *. subst fam.
    set (im := _ ++ _). assert (of_le (sub 0 2 im) = AF_INET6) as Efam
      by (unfold im, sub; rewrite drop_0, take_field; by apply of_le_field).
    rewrite Efam. cbn [Z.eqb AF_INET AF_INET6 Pos.eqb]. f_equal. unfold read_in6. rewrite Efam. unfold im. clear Efam im.
    rewrite (sub_app 2) by apply length_le_bytes. rewrite take_field, (of_le_field 2) by done.
    rewrite (app_assoc (le_bytes 2 _)). rewrite (sub_app 4) by (rewrite length_app, !length_le_bytes; lia).
    rewrite take_field, (of_le_field 4) by done.
    rewrite (app_assoc (_ ++ _)), (sub_app 8) by (rewrite !length_app, !length_le_bytes; lia).
    rewrite take_app_le, take_ge by (rewrite length_fmap; lia).
    rewrite (app_assoc (_ ++ _)), (sub_app 24) by (rewrite !length_app, !length_le_bytes, length_fmap; lia).
    rewrite take_ge, (of_le_field 4) by (done || rewrite length_le_bytes; lia).
    f_equal. rewrite <- list_fmap_compose. rewrite <- (list_fmap_id addr) at 2. apply list_fmap_ext. intros i x Hx.
    cbn. rewrite b2z_z2b. apply Z.mod_small. by apply (Forall_lookup_1 _ _ _ _ Hb Hx).
  - done.
  - destruct m as [fam d]. destruct Hf as (Hfam & H4 & H6).
    cbn [wf sa_family sa_data] in *.
    assert (of_le (sub 0 2 (le_bytes 2 fam ++ d)) = fam) as Efam
      by (unfold sub; rewrite drop_0, take_field; by apply of_le_field).
    rewrite Efam, (proj2 (Z.eqb_neq _ _) H4), (proj2 (Z.eqb_neq _ _) H6). f_equal. unfold read_any.
    rewrite Efam, (sub_app 2) by apply length_le_bytes. by rewrite take_ge by lia.
Qed.

Lemma Create_roundtrip_witness :
  Create (Some (bytes_of (IPV6Address sample_v6))) = Some (IPV6Address sample_v6) ∧
  operator_eq (IPV6Address sample_v6) (IPV6Address sample_v6) = true.
Proof.
  apply (Create_roundtrip (IPV6Address sample_v6)).
  apply (bool_decide_unpack (fields_ok (IPV6Address sample_v6))). vm_compute. exact I.
Defined.

(** ** Unix paths *)

Lemma c_string_app s t : Forall (λ c, c ≠ "000"%char) s → c_string (s ++ "000"%char :: t) = Some s.
Proof.
  induction s as [|c s IH]; intros H; [done|]. apply Forall_cons in H as [Hc Hs]. cbn.
  rewrite (proj2 (Ascii.eqb_neq _ _) Hc), IH by done. done.
Qed.

(** A Unix address returns the path it was made from: a non-empty file name
    without NUL of at most 107 bytes unchanged, a name in the abstract name space of at most
    108 bytes with its leading NUL shown as [\0]; longer paths throw. *)
Theorem unix_path_roundtrip path :
  Z.of_nat (length path) < 2 ^ 31 →
  (path ≠ [] → Forall (λ c, c ≠ "000"%char) path → (length path ≤ 107)%nat →
   ∃ a, new_Unix_path path = inr a ∧ getPath a = Some path) ∧
  (∀ name, path = "000"%char :: name → (length path ≤ 108)%nat →
   ∃ a, new_Unix_path path = inr a ∧ getPath a = Some (of_lit "\0" ++ name)) ∧
  ((length path > 108)%nat → new_Unix_path path = inl logic_error).
Proof.
  intros Hfit. split_and!.
  - intros Hne Hz Hlen. unfold new_Unix_path. rewrite wrap_small by (unfold in_u; lia).
    assert (match path with
            | [] => Z.of_nat (length path) + 1
            | c :: _ => if Ascii.eqb c "000" then wrap 32 (Z.of_nat (length path) + 1 - 1) else Z.of_nat (length path) + 1
            end = Z.of_nat (length path) + 1) as ->.
    { destruct path as [|c path]; [done|]. apply Forall_cons in Hz as [Hc _]. by rewrite (proj2 (Ascii.eqb_neq _ _) Hc). }
    rewrite (proj2 (Z.ltb_ge _ _)) by (unfold sun_path_size; lia). eexists. split; [done|].
    rewrite take_ge by (rewrite length_app; cbn; lia). unfold getPath. cbn [sun_path].
    assert (c_string ((path ++ ["000"%char]) ++ zeros (sun_path_size - length (path ++ ["000"%char]))) = Some path) as Hc
      by (rewrite <- app_assoc; by apply c_string_app).
    destruct path as [|c path]; [done|]. cbn [app] in *. apply Forall_cons in Hz as [Hc0 _].
    by rewrite (proj2 (Ascii.eqb_neq _ _) Hc0), andb_false_r.
  - intros name -> Hlen. unfold new_Unix_path. cbn [length] in *. rewrite (wrap_small 32 (_ + 1)) by (unfold in_u; lia).
    rewrite Ascii.eqb_refl. rewrite wrap_small by (unfold in_u; lia).
    rewrite (proj2 (Z.ltb_ge _ _)) by (unfold sun_path_size; lia). eexists. split; [done|].
    replace (Z.to_nat (Z.of_nat (S (length name)) + 1 - 1)) with (S (length name)) by lia.
    cbn [app take]. rewrite take_app_le, take_ge by lia. unfold getPath. cbn [sun_path app].
    rewrite (proj2 (Z.ltb_lt _ _)) by (unfold sun_offset; lia). rewrite Ascii.eqb_refl. cbn [andb].
    replace (Z.to_nat (Z.of_nat (S (length name)) + 1 - 1 + sun_offset - sun_offset - 1)) with (length name)
      by (unfold sun_offset; lia).
    rewrite (proj2 (Nat.leb_le _ _)) by (rewrite length_app; lia). by rewrite take_app_length.
  - intros Hlen. unfold new_Unix_path. rewrite (wrap_small 32 (_ + 1)) by (unfold in_u; lia).
    rewrite (proj2 (Z.ltb_lt _ _)); [done|]. unfold sun_path_size. destruct path as [|c path]; cbn [length] in *; [lia|].
    case_match; [rewrite wrap_small by (unfold in_u; lia)|]; lia.
Qed.

Lemma unix_path_roundtrip_witness :
  (of_lit "/tmp/s" ≠ [] → Forall (λ c, c ≠ "000"%char) (of_lit "/tmp/s") → (length (of_lit "/tmp/s") ≤ 107)%nat →
   ∃ a, new_Unix_path (of_lit "/tmp/s") = inr a ∧ getPath a = Some (of_lit "/tmp/s")) ∧
  (∀ name, of_lit "/tmp/s" = "000"%char :: name → (length (of_lit "/tmp/s") ≤ 108)%nat →
   ∃ a, new_Unix_path (of_lit "/tmp/s") = inr a ∧ getPath a = Some (of_lit "\0" ++ name)) ∧
  ((length (of_lit "/tmp/s") > 108)%nat → new_Unix_path (of_lit "/tmp/s") = inl logic_error).
Proof. apply (unix_path_roundtrip (of_lit "/tmp/s")). by vm_compute. Defined.

(** ** Host strings *)

Lemma memchr_app c s t : c ∉ s → memchr c (s ++ c :: t) = Some (length s).
Proof.
  unfold memchr. induction s as [|x s IH]; intros Hc; cbn.
  - by rewrite Ascii.eqb_refl.
  - apply not_elem_of_cons in Hc as [Hx Hs]. rewrite (proj2 (Ascii.eqb_neq _ _) Hx).
    cbn. by rewrite IH.
Qed.

Lemma memchr_none c s : c ∉ s → memchr c s = None.
Proof.
  unfold memchr. induction s as [|x s IH]; intros Hc; [done|]. apply not_elem_of_cons in Hc as [Hx Hs]. cbn.
  rewrite (proj2 (Ascii.eqb_neq _ _) Hx). cbn. by rewrite IH.
Qed.

Lemma drop_past {A} (s : list A) x t : drop (S (length s)) (s ++ x :: t) = t.
Proof. induction s as [|y s IH]; [done|]. exact IH. Qed.

(** A host string is split into node and service: [node:port], [node] alone,
    a bracketed IPv6 address with a port and one without. *)
Theorem split_host_correct node port :
  node ≠ [] → ":"%char ∉ port →
  (head node ≠ Some "["%char → ":"%char ∉ node →
   split_host (node ++ ":"%char :: port) = (node, Some port) ∧ split_host node = (node, None)) ∧
  ("]"%char ∉ node →
   split_host ("["%char :: node ++ "]"%char :: ":"%char :: port) = (node, Some port) ∧
   split_host ("["%char :: node ++ ["]"%char]) = (node, None)).
Proof.
  intros Hne Hport. destruct node as [|c node]; [done|]. split.
  - intros Hc Hn. assert (c ≠ "["%char) as Hb by (by intros ->).
    split; unfold split_host; cbn [app]; rewrite (proj2 (Ascii.eqb_neq _ _) Hb).
    + change (c :: node ++ ":"%char :: port) with ((c :: node) ++ ":"%char :: port).
      rewrite memchr_app by done. rewrite drop_past, memchr_none by done.
      by rewrite take_app_length.
    + by rewrite memchr_none.
  - intros Hn. split; unfold split_host; rewrite Ascii.eqb_refl, memchr_app by done.
    + by rewrite take_app_length, drop_past.
    + by rewrite take_app_length, drop_past.
Qed.

Lemma split_host_correct_witness :
  (head (of_lit "www.bob.cn") ≠ Some "["%char → ":"%char ∉ of_lit "www.bob.cn" →
   split_host (of_lit "www.bob.cn" ++ ":"%char :: of_lit "80") = (of_lit "www.bob.cn", Some (of_lit "80")) ∧
   split_host (of_lit "www.bob.cn") = (of_lit "www.bob.cn", None)) ∧
  ("]"%char ∉ of_lit "www.bob.cn" →
   split_host ("["%char :: of_lit "www.bob.cn" ++ "]"%char :: ":"%char :: of_lit "80") = (of_lit "www.bob.cn", Some (of_lit "80")) ∧
   split_host ("["%char :: of_lit "www.bob.cn" ++ ["]"%char]) = (of_lit "www.bob.cn", None)).
Proof.
  apply (split_host_correct (of_lit "www.bob.cn") (of_lit "80")); [done|].
  apply (bool_decide_unpack _). by vm_compute.
Defined.

(** An IPv6 address without brackets keeps a service that starts at its first
    colon, which [getaddrinfo] does not know. *)
Lemma split_host_raw_ipv6 : split_host (of_lit "::1") = (of_lit "::1", Some (of_lit "::1")).
Proof. by vm_compute. Qed.

(** ** The text of an IPv6 address *)

(** Groups separated by colons. *)
Fixpoint colon_groups (gs : list Z) : list ascii :=
  match gs with [] => [] | g :: gs => of_lit ":" ++ show_hex g ++ colon_groups gs end.
#[local] Opaque show_hex.
Definition join6 (gs : list Z) : list ascii :=
  match gs with [] => [] | g :: gs => show_hex g ++ colon_groups gs end.

Lemma loop6_used i prev gs : insert6_loop (S i) prev true gs = (colon_groups gs, true).
Proof.
  revert i prev. induction gs as [|g gs IH]; intros i prev; [done|]. cbn [insert6_loop].
  rewrite andb_false_r. cbn [negb]. rewrite andb_false_r. cbn [orb]. by rewrite IH.
Qed.

Lemma loop6_zeros i prev k gs :
  insert6_loop i prev false (replicate k 0 ++ gs)
  = insert6_loop (k + i) (if decide (k = 0%nat) then prev else Some 0) false gs.
Proof.
  revert i prev. induction k as [|k IH]; intros i prev; [done|]. cbn [replicate app insert6_loop].
  rewrite IH. replace (k + S i)%nat with (S k + i)%nat by lia. f_equal. by case_decide.
Qed.

Lemma loop6_nonzero i prev pre gs :
  Forall (λ g, g ≠ 0) pre → prev ≠ Some 0 →
  ∃ prev', prev' ≠ Some 0 ∧
    insert6_loop i prev false (pre ++ gs)
    = (let '(t, u) := insert6_loop (length pre + i) prev' false gs in
       ((match i with O => join6 pre | _ => colon_groups pre end) ++ t, u)).
Proof.
  revert i prev. induction pre as [|g pre IH]; intros i prev Hpre Hprev.
  { exists prev. split; [done|]. cbn. destruct (insert6_loop i prev false gs). by destruct i. }
  apply Forall_cons in Hpre as [Hg Hpre]. destruct (IH (S i) (Some g) Hpre) as (prev' & Hp' & Heq); [congruence|].
  exists prev'. split; [done|]. cbn [app insert6_loop]. rewrite (proj2 (Z.eqb_neq g 0) Hg). cbn [andb negb].
  rewrite bool_decide_eq_false_2 by done. cbn [andb orb]. rewrite Heq.
  replace (length pre + S i)%nat with (length (g :: pre) + i)%nat by (cbn; lia).
  destruct (insert6_loop (length (g :: pre) + i) prev' false gs) as [t u].
  destruct i; cbn [app join6 colon_groups]; by rewrite <- ?app_assoc.
Qed.

(** The text of an IPv6 address is the standard one: the groups in hexadecimal
    separated by colons, with the first run of zero groups, if there is one,
    replaced by a double colon, in brackets and followed by the port. *)
Theorem insert6_correct m :
  length (s6_addr m) = 16%nat →
  ∃ pre k suf, groups (s6_addr m) = pre ++ replicate k 0 ++ suf ∧ Forall (λ g, g ≠ 0) pre ∧
    head suf ≠ Some 0 ∧ (k = 0%nat → suf = []) ∧
    insert6 m = of_lit "[" ++
      (match k with O => join6 pre | _ => join6 pre ++ of_lit "::" ++ join6 suf end) ++
      of_lit "]:" ++ show (getPort6 m).
Proof.
  intros Hl. assert (length (groups (s6_addr m)) = 8%nat) as H8.
  { remember (s6_addr m) as l eqn:E. clear E. do 17 (destruct l as [|? l]; try done). }
  assert (∀ gs : list Z, ∃ pre k suf, gs = pre ++ replicate k 0 ++ suf ∧ Forall (λ g, g ≠ 0) pre ∧
    head suf ≠ Some 0 ∧ (k = 0%nat → suf = [])) as Hdec.
  { induction gs as [|g gs (pre & k & suf & -> & Hp & Hs & Hk)].
    - exists [], 0%nat, []. done.
    - destruct (decide (g = 0)) as [->|Hg].
      + destruct pre as [|x pre].
        * exists [], (S k), suf. done.
        * exists [], 1%nat, ((x :: pre) ++ replicate k 0 ++ suf). split_and!; try done.
          apply Forall_cons in Hp as [Hx _]. cbn. congruence.
      + exists (g :: pre), k, suf. split_and!; try done. by apply Forall_cons. }
  destruct (Hdec (groups (s6_addr m))) as (pre & k & suf & Hgs & Hp & Hs & Hk).
  exists pre, k, suf. split_and!; try done. unfold insert6. rewrite Hgs in *.
  destruct (loop6_nonzero 0 None pre (replicate k 0 ++ suf) Hp) as (prev' & Hprev & Hloop); [done|].
  rewrite Hloop, loop6_zeros. rewrite !length_app, length_replicate in H8.
  destruct k as [|k].
  - rewrite (Hk eq_refl) in *. cbn [replicate app]. cbn [insert6_loop]. rewrite app_nil_r. cbn [negb andb].
    assert (nth 7 (pre ++ []) 0 ≠ 0) as Hn.
    { rewrite app_nil_r. cbn in H8. destruct (lookup_lt_is_Some_2 pre 7) as [x Hx]; [lia|].
      apply nth_lookup_Some with (d := 0) in Hx as Hx'. rewrite Hx'. by apply (Forall_lookup_1 _ _ _ _ Hp Hx). }
    rewrite (proj2 (Z.eqb_neq _ _) Hn). done.
  - rewrite decide_False by done. destruct suf as [|g suf].
    + cbn [insert6_loop]. rewrite app_nil_r. cbn [negb andb].
      assert (nth 7 (pre ++ replicate (S k) 0 ++ []) 0 = 0) as ->.
      { rewrite app_nil_r. cbn in H8. rewrite app_nth2 by lia. 
        destruct (lookup_lt_is_Some_2 (replicate (S k) 0) (7 - length pre)) as [x Hx]; [rewrite length_replicate; lia|].
        apply nth_lookup_Some with (d := 0) in Hx as Hx'. rewrite Hx'. by apply lookup_replicate in Hx as [-> _]. }
      rewrite Z.eqb_refl. cbn [join6]. by rewrite <- !app_assoc.
    + replace (S k + (length pre + 0))%nat with (S (k + length pre)) by lia. cbn [insert6_loop].
      rewrite (proj2 (Z.eqb_neq g 0)) by (intros ->; done). cbn [andb negb].
      rewrite bool_decide_eq_true_2 by done. cbn [andb orb]. rewrite loop6_used. cbn [negb andb].
      unfold join6 at 3. cbn [app]. rewrite <- !app_assoc. done.
Qed.

Lemma insert6_correct_witness :
  ∃ pre k suf, groups (s6_addr sample_v6) = pre ++ replicate k 0 ++ suf ∧ Forall (λ g, g ≠ 0) pre ∧
    head suf ≠ Some 0 ∧ (k = 0%nat → suf = []) ∧
    insert6 sample_v6 = of_lit "[" ++
      (match k with O => join6 pre | _ => join6 pre ++ of_lit "::" ++ join6 suf end) ++
      of_lit "]:" ++ show (getPort6 sample_v6).
Proof. apply (insert6_correct sample_v6). reflexivity. Defined.

Lemma sample_text : insert6 sample_v6 = of_lit "[2001:db8::ab01]:443" ∧ insert4 sample_v4 = of_lit "192.168.1.35:8080".
Proof. by vm_compute. Qed.

End Address.
