(* ===== verification/Sockets.v ===== *)
(** * Sockets: the Socket and SSLSocket objects (src/bobliew/socket.{h,cc})

    A socket object is a record of its members; its operations run on the object
    and on the system below it.  [Sys] is that system: the calls socket.cc makes
    (the hooked system calls, the descriptor table, the event manager and
    OpenSSL), each a function on the state of the system.  [SysLaws] is what the
    manual pages say of descriptors: [socket] and [accept] return one that was not
    open, [close] closes the one it is given, and no other call opens or closes any.

    [descriptors_owned]: whatever programs do with their sockets, two objects never
    own the same descriptor.  [connect_correct]: each outcome of [connect].
    [socket_net_laws]: a socket is a network as Stream.v asks for one. *)
From S2P Require Import Prelude Endian Bytearray Iovec Stream Util Httpmap Http Fdmanager Hook Address.
Import StdString.
#[local] Open Scope list_scope.
#[local] Open Scope Z_scope.
#[local] Set Warnings "-clear-no-such-hyp".

(** What socket.cc calls.  Addresses cross this interface as bytes. *)
Class Sys (K : Type) := {
  k_socket : Z → Z → Z → K → Z * K;
  k_accept : Z → K → Z * K;
  k_bind : Z → list ascii → Z → K → Z * K;
  k_connect : Z → list ascii → Z → K → Z * K;
  k_connect_with_timeout : Z → list ascii → Z → Z → K → Z * K;
  k_listen : Z → Z → K → Z * K;
  k_close : Z → K → Z * K;
  k_send : Z → list ascii → Z → K → Z * K;
  k_recv : Z → Z → Z → K → Z * list ascii * K;
  k_sendto : Z → list ascii → Z → list ascii → Z → K → Z * K;
  k_recvfrom : Z → Z → Z → Z → K → Z * list ascii * list ascii * K;
  k_getpeername : Z → K → option (list ascii * Z);
  k_getsockname : Z → K → option (list ascii * Z);
  k_getsockopt : Z → Z → Z → K → option Z;
  k_setsockopt : Z → Z → Z → list Z → K → Z * K;
  k_errno : K → Z;
  k_unlink : list ascii → K → Z * K;
  (** [FdMgr::GetInstance()->get(fd)] *)
  k_fdctx : Z → K → option FdManager.FdCtx;
  (** [IOManager::GetThis()]'s [cancelEvent] and [cancelAll] *)
  k_cancelEvent : Z → Z → K → bool * K;
  k_cancelAll : Z → K → bool * K;
  (** OpenSSL; a handle is null when there is none *)
  SSL_CTX_new : bool → K → option Z * K;
  SSL_new : option Z → K → option Z * K;
  SSL_set_fd : Z → Z → K → Z * K;
  SSL_connect : Z → K → Z * K;
  SSL_accept : Z → K → Z * K;
  SSL_read : Z → Z → K → Z * list ascii * K;
  SSL_write : Z → list ascii → K → Z * K;
  SSL_CTX_use_certificate_chain_file : Z → list ascii → K → Z * K;
  SSL_CTX_use_PrivateKey_file : Z → list ascii → K → Z * K;
  SSL_CTX_check_private_key : Z → K → Z * K;
}.

Module Sockets.
Import Address.

(** [Socket::Type] and [Socket::Family], and the options used. *)
Definition TCP : Z := 1.
Definition UDP : Z := 2.
Definition IPv4 : Z := AF_INET.
Definition IPv6 : Z := AF_INET6.
Definition UNIX : Z := AF_UNIX.
Definition SOL_SOCKET : Z := 1.
Definition SO_REUSEADDR : Z := 2.
Definition SO_ERROR : Z := 4.
Definition IPPROTO_TCP : Z := 6.
Definition TCP_NODELAY : Z := 1.
Definition SOMAXCONN : Z := 4096.

(** A [Socket], or an [SSLSocket] when [ssl]: then [m_ctx] and [m_ssl] are members. *)
Record t := Socket {
  ssl : bool;
  m_sock : Z;
  m_family : Z;
  m_type : Z;
  m_protocol : Z;
  m_isConnected : bool;
  m_localAddress : option Address;
  m_remoteAddress : option Address;
  m_ctx : option Z;
  m_ssl : option Z;
}.

Definition new_Socket (family type protocol : Z) : t :=
  Socket false (-1) family type protocol false None None None None.
Definition new_SSLSocket (family type protocol : Z) : t :=
  Socket true (-1) family type protocol false None None None None.

Definition set_sock (v : Z) (s : t) : t :=
  Socket (ssl s) v (m_family s) (m_type s) (m_protocol s) (m_isConnected s) (m_localAddress s)
    (m_remoteAddress s) (m_ctx s) (m_ssl s).
Definition set_isConnected (v : bool) (s : t) : t :=
  Socket (ssl s) (m_sock s) (m_family s) (m_type s) (m_protocol s) v (m_localAddress s)
    (m_remoteAddress s) (m_ctx s) (m_ssl s).
Definition set_localAddress (v : option Address) (s : t) : t :=
  Socket (ssl s) (m_sock s) (m_family s) (m_type s) (m_protocol s) (m_isConnected s) v
    (m_remoteAddress s) (m_ctx s) (m_ssl s).
Definition set_remoteAddress (v : option Address) (s : t) : t :=
  Socket (ssl s) (m_sock s) (m_family s) (m_type s) (m_protocol s) (m_isConnected s)
    (m_localAddress s) v (m_ctx s) (m_ssl s).
Definition set_ctx (v : option Z) (s : t) : t :=
  Socket (ssl s) (m_sock s) (m_family s) (m_type s) (m_protocol s) (m_isConnected s)
    (m_localAddress s) (m_remoteAddress s) v (m_ssl s).
Definition set_ssl (v : option Z) (s : t) : t :=
  Socket (ssl s) (m_sock s) (m_family s) (m_type s) (m_protocol s) (m_isConnected s)
    (m_localAddress s) (m_remoteAddress s) (m_ctx s) v.

Definition isConnected (s : t) : bool := m_isConnected s.
Definition isValid (s : t) : bool := negb (m_sock s =? -1).

Section operations.
Context {K : Type} `{Sys K}.

(** A call of the system; an update of the object; a call on another object. *)
Definition call {A} (f : K → A * K) : M (t * K) A :=
  λ '(s, k), let '(a, k) := f k in Ret a (s, k).
Definition see {A} (f : K → A) : M (t * K) A := λ '(s, k), Ret (f k) (s, k).
Definition upd (f : t → t) : M (t * K) unit := λ '(s, k), Ret tt (f s, k).
Definition this : M (t * K) t := λ '(s, k), Ret s (s, k).
Definition on_object {A} (o : t) (m : M (t * K) A) : M (t * K) (A * t) :=
  λ '(s, k), match m (o, k) with
             | Ret a (o, k) => Ret (a, o) (s, k)
             | Throw e (_, k) => Throw e (s, k)
             | UB => UB
             end.

(** *** Options *)

Definition getOption (level option : Z) : M (t * K) (bool * Z) :=
  let! s := this in
  let! rt := see (k_getsockopt (m_sock s) level option) in
  match rt with Some v => ret (true, v) | None => ret (false, 0) end.

Definition setOption (level option : Z) (value : list Z) : M (t * K) bool :=
  let! s := this in
  let! rt := call (k_setsockopt (m_sock s) level option value) in
  ret (rt =? 0).

Definition getError : M (t * K) Z :=
  let! r := getOption SOL_SOCKET SO_ERROR in
  if r.1 then ret r.2 else see k_errno.

(** [getSendTimeout]; the 64-bit value is returned as a signed one. *)
Definition getSendTimeout : M (t * K) Z :=
  let! s := this in
  let! ctx := see (k_fdctx (m_sock s)) in
  match ctx with
  | Some c => ret (swrap 64 (FdManager.ctx_getTimeout FdManager.SO_RCVTIMEO c))
  | None => ret (-1)
  end.

(** The [timeval] of a number of milliseconds. *)
Definition timeval_of (v : Z) : list Z :=
  [swrap 32 (Z.quot v 1000); swrap 32 (swrap 64 (Z.rem v 1000 * 1000))].
Definition setRecvTimeout (v : Z) : M (t * K) unit :=
  setOption SOL_SOCKET FdManager.SO_RCVTIMEO (timeval_of v) ;! ret tt.

(** *** Addresses *)

(** The object the [switch] allocates. *)
Definition blank (family : Z) : Address :=
  if family =? AF_INET then IPV4Address (new_IPV4 0 0)
  else if family =? AF_INET6 then IPV6Address new_IPV6
  else if family =? AF_UNIX then let '(m, l) := new_Unix in UnixAddress m l
  else UnknownAddress (new_Unknown family).

(** What the call wrote over the memory of the object. *)
Definition filled (a : Address) (bytes : list ascii) (addrlen : Z) : Address :=
  let mem := splice 0 (take (Z.to_nat (getAddrLen a)) bytes) (bytes_of a) in
  match a with
  | IPV4Address _ => IPV4Address (read_in mem)
  | IPV6Address _ => IPV6Address (read_in6 mem)
  | UnixAddress _ _ => UnixAddress (SockUn (of_le (sub 0 2 mem)) (sub 2 sun_path_size mem)) addrlen
  | UnknownAddress _ => UnknownAddress (read_any mem)
  end.

Definition getRemoteAddress : M (t * K) Address :=
  let! s := this in
  match m_remoteAddress s with
  | Some a => ret a
  | None =>
      let! r := see (k_getpeername (m_sock s)) in
      match r with
      | None => ret (UnknownAddress (new_Unknown (m_family s)))
      | Some (bytes, addrlen) =>
          let result := filled (blank (m_family s)) bytes addrlen in
          upd (set_remoteAddress (Some result)) ;! ret result
      end
  end.

Definition getLocalAddress : M (t * K) Address :=
  let! s := this in
  match m_localAddress s with
  | Some a => ret a
  | None =>
      let! r := see (k_getsockname (m_sock s)) in
      match r with
      | None => ret (UnknownAddress (new_Unknown (m_family s)))
      | Some (bytes, addrlen) =>
          let result := filled (blank (m_family s)) bytes addrlen in
          upd (set_localAddress (Some result)) ;! ret result
      end
  end.

(** *** Life of the descriptor *)

Definition initSock : M (t * K) unit :=
  let! s := this in
  setOption SOL_SOCKET SO_REUSEADDR [1] ;!
  if m_type s =? TCP then setOption IPPROTO_TCP TCP_NODELAY [1] ;! ret tt else ret tt.

Definition newSock : M (t * K) unit :=
  let! s := this in
  let! fd := call (k_socket (m_family s) (m_type s) (m_protocol s)) in
  upd (set_sock fd) ;!
  if negb (fd =? -1) then initSock else ret tt.

Definition close : M (t * K) bool :=
  let! s := this in
  if negb (m_isConnected s) && (m_sock s =? -1) then ret true
  else
    upd (set_isConnected false) ;!
    (if negb (m_sock s =? -1) then call (k_close (m_sock s)) ;! upd (set_sock (-1)) else ret tt) ;!
    ret false.

(** [~Socket], and the destruction of a local object. *)
Definition destroy : M (t * K) unit := close ;! ret tt.
Definition drop_object (o : t) : M (t * K) unit := on_object o destroy ;! ret tt.

(** The sockets the static functions make. *)
Definition CreateTCP (address : Address) : t := new_Socket (getFamily address) TCP 0.
Definition CreateTCPSocket : t := new_Socket IPv4 TCP 0.
Definition CreateUnixTCPSocket : t := new_Socket UNIX TCP 0.
Definition CreateUnixUDPSocket : t := new_Socket UNIX UDP 0.
Definition CreateUDP (address : Address) (k : K) : outcome (t * K) unit :=
  (newSock ;! upd (set_isConnected true)) (new_Socket (getFamily address) UDP 0, k).
Definition CreateUDPSocket (k : K) : outcome (t * K) unit :=
  (newSock ;! upd (set_isConnected true)) (new_Socket IPv4 UDP 0, k).
Definition SSL_CreateTCP (address : Address) : t := new_SSLSocket (getFamily address) TCP 0.
Definition SSL_CreateTCPSocket : t := new_SSLSocket IPv4 TCP 0.
Definition SSL_CreateTCPSocket6 : t := new_SSLSocket IPv6 TCP 0.

Definition init_plain (sock : Z) : M (t * K) bool :=
  let! ctx := see (k_fdctx sock) in
  match ctx with
  | Some c =>
      if FdManager.m_isSocket c && negb (FdManager.m_isClosed c) then
        upd (set_sock sock) ;! upd (set_isConnected true) ;!
        initSock ;! getLocalAddress ;! getRemoteAddress ;! ret true
      else ret false
  | None => ret false
  end.

(** [m_ssl.reset(SSL_new(...))] and [SSL_set_fd] on it, which a null handle makes
    undefined. *)
Definition new_ssl : M (t * K) Z :=
  let! s := this in
  let! h := call (SSL_new (m_ctx s)) in
  upd (set_ssl h) ;!
  let! h := lift h in
  call (SSL_set_fd h (m_sock s)) ;! ret h.

Definition init (sock : Z) : M (t * K) bool :=
  let! s := this in
  let! v := init_plain sock in
  if ssl s && v then
    let! h := new_ssl in
    let! rt := call (SSL_accept h) in ret (rt =? 1)
  else ret v.

(** [accept]: the new object, destroyed when null is returned. *)
Definition accept : M (t * K) (option t) :=
  let! s := this in
  let sock := Socket (ssl s) (-1) (m_family s) (m_type s) (m_protocol s) false None None None None in
  let! newsock := call (k_accept (m_sock s)) in
  if newsock =? -1 then drop_object sock ;! ret None
  else
    let sock := if ssl s then set_ctx (m_ctx s) sock else sock in
    let! (b, sock) := on_object sock (init newsock) in
    if b : bool then ret (Some sock) else drop_object sock ;! ret None.

Definition max_timeout : Z := 2 ^ 64 - 1.

Definition connect_plain (addr : Address) (timeout_ms : Z) : M (t * K) bool :=
  upd (set_remoteAddress (Some addr)) ;!
  let! s := this in
  (if negb (isValid s) then newSock else ret tt) ;!
  let! s := this in
  if negb (isValid s) then ret false
  else if negb (getFamily addr =? m_family s) then ret false
  else
    let! rt := if timeout_ms =? max_timeout
      then call (k_connect (m_sock s) (bytes_of addr) (getAddrLen addr))
      else call (k_connect_with_timeout (m_sock s) (bytes_of addr) (getAddrLen addr) timeout_ms) in
    if negb (rt =? 0) then close ;! ret false
    else
      upd (set_isConnected true) ;! getRemoteAddress ;! getLocalAddress ;! ret true.

Definition connect (addr : Address) (timeout_ms : Z) : M (t * K) bool :=
  let! s := this in
  let! v := connect_plain addr timeout_ms in
  if ssl s && v then
    let! ctx := call (SSL_CTX_new false) in
    upd (set_ctx ctx) ;!
    let! h := new_ssl in
    let! rt := call (SSL_connect h) in ret (rt =? 1)
  else ret v.

Definition reconnect (timeout_ms : Z) : M (t * K) bool :=
  let! s := this in
  match m_remoteAddress s with
  | None => ret false
  | Some a => upd (set_localAddress None) ;! connect a timeout_ms
  end.

(** A Unix address somebody listens on cannot be bound; a stale path is removed. *)
Definition probe_unix (addr : Address) : M (t * K) bool :=
  match addr with
  | UnixAddress m l =>
      let! (b, sock) := on_object CreateUnixTCPSocket (connect_plain addr max_timeout) in
      (if b : bool then ret tt
       else let! path := lift (getPath (m, l)) in call (k_unlink path) ;! ret tt) ;!
      drop_object sock ;! ret b
  | _ => ret false
  end.

Definition bind (addr : Address) : M (t * K) bool :=
  let! s := this in
  (if negb (isValid s) then newSock else ret tt) ;!
  let! s := this in
  if negb (isValid s) then ret false
  else if negb (getFamily addr =? m_family s) then ret false
  else
    let! taken := probe_unix addr in
    if taken : bool then ret false
    else
      let! rt := call (k_bind (m_sock s) (bytes_of addr) (getAddrLen addr)) in
      if negb (rt =? 0) then ret false else getLocalAddress ;! ret true.

Definition listen (backlog : Z) : M (t * K) bool :=
  let! s := this in
  if negb (isValid s) then ret false
  else let! rt := call (k_listen (m_sock s) backlog) in ret (rt =? 0).

(** *** Transfer; results are [int]s *)

Definition send_plain (buffer : list ascii) (flags : Z) : M (t * K) Z :=
  let! s := this in
  if isConnected s then let! rt := call (k_send (m_sock s) buffer flags) in ret (swrap 32 rt)
  else ret (-1).
Definition recv_plain (length flags : Z) : M (t * K) (Z * list ascii) :=
  let! s := this in
  if isConnected s then
    let! (rt, bytes) := call (λ k, let '(rt, bytes, k) := k_recv (m_sock s) length flags k in ((rt, bytes), k)) in
    ret (swrap 32 rt, bytes)
  else ret (-1, []).

(** The vector forms gather and scatter one transfer. *)
Definition send_plain_iov (buffers : list (list ascii)) (flags : Z) : M (t * K) Z :=
  send_plain (concat buffers) flags.
Definition recv_plain_iov (lengths : list Z) (flags : Z) : M (t * K) (Z * list ascii) :=
  recv_plain (foldr Z.add 0 lengths) flags.

Definition sendTo_plain (buffer : list ascii) (to : Address) (flags : Z) : M (t * K) Z :=
  let! s := this in
  if isConnected s then
    let! rt := call (k_sendto (m_sock s) buffer flags (bytes_of to) (getAddrLen to)) in ret (swrap 32 rt)
  else ret (-1).
(** The length the call stores is dropped. *)
Definition recvFrom_plain (length : Z) (from : Address) (flags : Z) : M (t * K) (Z * list ascii * Address) :=
  let! s := this in
  if isConnected s then
    let! (rt, bytes, name) := call (λ k,
      let '(rt, bytes, name, k) := k_recvfrom (m_sock s) length flags (getAddrLen from) k in
      ((rt, bytes, name), k)) in
    ret (swrap 32 rt, bytes, filled from name (getAddrLen from))
  else ret (-1, [], from).

(** [SSLSocket]'s: one record per buffer, until one is not moved whole. *)
Definition ssl_write (buffer : list ascii) : M (t * K) Z :=
  let! s := this in
  match m_ssl s with Some h => call (SSL_write h buffer) | None => ret (-1) end.
Definition ssl_read (length : Z) : M (t * K) (Z * list ascii) :=
  let! s := this in
  match m_ssl s with
  | Some h => call (λ k, let '(rt, bytes, k) := SSL_read h (swrap 32 length) k in ((rt, bytes), k))
  | None => ret (-1, [])
  end.
Fixpoint ssl_write_iov (buffers : list (list ascii)) (total : Z) : M (t * K) Z :=
  match buffers with
  | [] => ret total
  | b :: buffers =>
      let! tmp := ssl_write b in
      if tmp <=? 0 then ret tmp
      else
        let total := swrap 32 (total + tmp) in
        if negb (tmp =? swrap 32 (Z.of_nat (length b))) then ret total else ssl_write_iov buffers total
  end.
Fixpoint ssl_read_iov (lengths : list Z) (total : Z) (got : list ascii) : M (t * K) (Z * list ascii) :=
  match lengths with
  | [] => ret (total, got)
  | n :: lengths =>
      let! (tmp, bytes) := ssl_read n in
      if tmp <=? 0 then ret (tmp, got ++ bytes)
      else
        let total := swrap 32 (total + tmp) in
        if negb (tmp =? swrap 32 n) then ret (total, got ++ bytes)
        else ssl_read_iov lengths total (got ++ bytes)
  end.

(** What a call through a [Socket::ptr] runs. *)
Definition send (buffer : list ascii) (flags : Z) : M (t * K) Z :=
  let! s := this in if ssl s then ssl_write buffer else send_plain buffer flags.
Definition recv (length flags : Z) : M (t * K) (Z * list ascii) :=
  let! s := this in if ssl s then ssl_read length else recv_plain length flags.
Definition send_iov (buffers : list (list ascii)) (flags : Z) : M (t * K) Z :=
  let! s := this in
  if ssl s then
    match m_ssl s with Some _ => ssl_write_iov buffers 0 | None => ret (-1) end
  else send_plain_iov buffers flags.
Definition recv_iov (lengths : list Z) (flags : Z) : M (t * K) (Z * list ascii) :=
  let! s := this in
  if ssl s then
    match m_ssl s with Some _ => ssl_read_iov lengths 0 [] | None => ret (-1, []) end
  else recv_plain_iov lengths flags.
(** Datagram calls on an [SSLSocket] fail an assertion. *)
Definition sendTo (buffer : list ascii) (to : Address) (flags : Z) : M (t * K) Z :=
  let! s := this in if ssl s then ub else sendTo_plain buffer to flags.
Definition recvFrom (length : Z) (from : Address) (flags : Z) : M (t * K) (Z * list ascii * Address) :=
  let! s := this in if ssl s then ub else recvFrom_plain length from flags.

Definition loadCertificates (cert_file key_file : list ascii) : M (t * K) bool :=
  let! ctx := call (SSL_CTX_new true) in
  upd (set_ctx ctx) ;!
  let! c := lift ctx in
  let! a := call (SSL_CTX_use_certificate_chain_file c cert_file) in
  if negb (a =? 1) then ret false
  else
    let! a := call (SSL_CTX_use_PrivateKey_file c key_file) in
    if negb (a =? 1) then ret false
    else let! a := call (SSL_CTX_check_private_key c) in ret (a =? 1).

(** *** Events; READ is 1, WRITE is 4 *)

Definition cancelRead : M (t * K) bool := let! s := this in call (k_cancelEvent (m_sock s) 1).
Definition cancelWrite : M (t * K) bool := let! s := this in call (k_cancelEvent (m_sock s) 4).
Definition cancelAccept : M (t * K) bool := let! s := this in call (k_cancelEvent (m_sock s) 1).
Definition cancelAll : M (t * K) bool := let! s := this in call (k_cancelAll (m_sock s)).

End operations.

(** *** Printing *)

(** An [int], and an address that may be missing. *)
Definition show_int (n : Z) : list ascii :=
  if n <? 0 then "-"%char :: Http.show (- n) else Http.show n.
Definition dump_addr (label : string) (a : option Address) : option (list ascii) :=
  match a with
  | None => Some []
  | Some a => s ← Address.toString a; Some (of_lit label ++ s)
  end.
Definition dump (s : t) : option (list ascii) :=
  l ← dump_addr " local_address=" (m_localAddress s);
  r ← dump_addr " remote_address=" (m_remoteAddress s);
  Some (of_lit (if ssl s then "[SSLSocket sock=" else "[Socket sock=") ++ show_int (m_sock s)
    ++ of_lit " is_connected=" ++ of_lit (if m_isConnected s then "1" else "0")
    ++ of_lit " family=" ++ show_int (m_family s)
    ++ of_lit " type=" ++ show_int (m_type s)
    ++ of_lit " protocol=" ++ show_int (m_protocol s) ++ l ++ r ++ of_lit "]").
Definition toString (s : t) : option (list ascii) := dump s.

(** ** Descriptors

    [opened] are the descriptors open in the process. *)
Class SysLaws (K : Type) `{Sys K} := {
  opened : K → gset Z;
  keeps {A} (f : K → A * K) : Prop := ∀ k, opened (f k).2 = opened k;
  socket_law f ty p k : let r := k_socket f ty p k in
    (r.1 = -1 ∧ opened r.2 = opened k) ∨
    (r.1 ≠ -1 ∧ (r.1 ∉ opened k) ∧ opened r.2 = ({[r.1]} ∪ opened k));
  accept_law fd k : let r := k_accept fd k in
    (r.1 = -1 ∧ opened r.2 = opened k) ∨
    (r.1 ≠ -1 ∧ (r.1 ∉ opened k) ∧ opened r.2 = ({[r.1]} ∪ opened k));
  close_law fd k : opened (k_close fd k).2 = opened k ∖ {[fd]};
  bind_keeps fd a l : keeps (k_bind fd a l);
  connect_keeps fd a l : keeps (k_connect fd a l);
  connect_timeout_keeps fd a l v : keeps (k_connect_with_timeout fd a l v);
  listen_keeps fd n : keeps (k_listen fd n);
  send_keeps fd bs fl : keeps (k_send fd bs fl);
  recv_keeps fd n fl : keeps (k_recv fd n fl);
  sendto_keeps fd bs fl a l : keeps (k_sendto fd bs fl a l);
  recvfrom_keeps fd n fl l : keeps (k_recvfrom fd n fl l);
  setsockopt_keeps fd lv o v : keeps (k_setsockopt fd lv o v);
  unlink_keeps p : keeps (k_unlink p);
  cancelEvent_keeps fd e : keeps (k_cancelEvent fd e);
  cancelAll_keeps fd : keeps (k_cancelAll fd);
  CTX_new_keeps b : keeps (SSL_CTX_new b);
  SSL_new_keeps c : keeps (SSL_new c);
  set_fd_keeps h fd : keeps (SSL_set_fd h fd);
  SSL_connect_keeps h : keeps (SSL_connect h);
  SSL_accept_keeps h : keeps (SSL_accept h);
  SSL_read_keeps h n : keeps (SSL_read h n);
  SSL_write_keeps h bs : keeps (SSL_write h bs);
  chain_keeps c p : keeps (SSL_CTX_use_certificate_chain_file c p);
  key_keeps c p : keeps (SSL_CTX_use_PrivateKey_file c p);
  check_keeps c : keeps (SSL_CTX_check_private_key c);
}.

Create HintDb sockets.
#[export] Hint Resolve bind_keeps connect_keeps connect_timeout_keeps listen_keeps send_keeps
  recv_keeps sendto_keeps recvfrom_keeps setsockopt_keeps unlink_keeps cancelEvent_keeps
  cancelAll_keeps CTX_new_keeps SSL_new_keeps set_fd_keeps SSL_connect_keeps SSL_accept_keeps
  SSL_read_keeps SSL_write_keeps chain_keeps key_keeps check_keeps : sockets.

Section descriptors.
Context {K : Type} `{SysLaws K}.

Definition owned (s : t) : gset Z := if m_sock s =? -1 then ∅ else {[m_sock s]}.

(** From [(s, k)], [m] ends in a state satisfying [Q]; it never throws.  What an
    [SSLSocket] does with a null handle is undefined. *)
Definition wp {A} (m : M (t * K) A) (Q : A → t → K → Prop) (s : t) (k : K) : Prop :=
  match m (s, k) with Ret a (s', k') => Q a s' k' | Throw _ _ => False | UB => True end.

(** The descriptors that are not the object's are as they were. *)
Definition frame (s : t) (k : K) (s' : t) (k' : K) : Prop :=
  owned s' ⊆ opened k' ∧ opened k' ∖ owned s' = opened k ∖ owned s.

Lemma frame_refl s k : owned s ⊆ opened k → frame s k s k.
Proof. done. Qed.
Lemma frame_trans s k s1 k1 s2 k2 : frame s k s1 k1 → frame s1 k1 s2 k2 → frame s k s2 k2.
Proof. unfold frame. intros [? E1] [? E2]. by rewrite E2. Qed.

Lemma wp_mono {A} (m : M (t * K) A) (P Q : A → t → K → Prop) s k :
  wp m P s k → (∀ a s' k', P a s' k' → Q a s' k') → wp m Q s k.
Proof. unfold wp. destruct (m (s, k)) as [a [s' k']| |]; auto. Qed.
Lemma wp_bind {A B} (m : M (t * K) A) (f : A → M (t * K) B) Q s k :
  wp m (λ a s' k', wp (f a) Q s' k') s k → wp (Effect.bind m f) Q s k.
Proof. unfold wp, Effect.bind. by destruct (m (s, k)) as [a [s' k']| |]. Qed.
Lemma wp_ret {A} (a : A) (Q : A → t → K → Prop) s k : Q a s k → wp (ret a) Q s k.
Proof. done. Qed.
Lemma wp_this (Q : t → t → K → Prop) s k : Q s s k → wp this Q s k.
Proof. done. Qed.
Lemma wp_see {A} (f : K → A) (Q : A → t → K → Prop) s k : Q (f k) s k → wp (see f) Q s k.
Proof. done. Qed.
Lemma wp_upd f (Q : unit → t → K → Prop) s k : Q tt (f s) k → wp (upd f) Q s k.
Proof. done. Qed.
Lemma wp_ub {A} (Q : A → t → K → Prop) s k : wp ub Q s k.
Proof. done. Qed.
Lemma wp_lift {A} (o : option A) (Q : A → t → K → Prop) s k :
  (∀ a, o = Some a → Q a s k) → wp (lift o) Q s k.
Proof. destruct o; unfold wp; cbn; auto. Qed.
Lemma wp_call {A} (f : K → A * K) (Q : A → t → K → Prop) s k :
  keeps f → (∀ a k', opened k' = opened k → Q a s k') → wp (call f) Q s k.
Proof.
  unfold wp, call. intros Hk HQ. specialize (Hk k). destruct (f k) as [a k']. cbn in *. by apply HQ.
Qed.


(** [call] of a function whose result is a tuple. *)
Lemma wp_call3 {A B} (f : K → A * B * K) (Q : A * B → t → K → Prop) s k :
  keeps f → (∀ a b k', opened k' = opened k → Q (a, b) s k') →
  wp (call (λ k, let '(a, b, k) := f k in ((a, b), k))) Q s k.
Proof.
  unfold wp, call. intros Hk HQ. specialize (Hk k). destruct (f k) as [[a b] k']. cbn in *. by apply HQ.
Qed.

Lemma owned_sock v s : owned (set_sock v s) = if v =? -1 then ∅ else {[v]}.
Proof. done. Qed.
(** A change of the object that leaves [m_sock] and the open descriptors alone. *)
Lemma frame_same s k s' k' :
  owned s ⊆ opened k → m_sock s' = m_sock s → opened k' = opened k → frame s k s' k'.
Proof. unfold frame, owned. intros Ho -> ->. done. Qed.

Definition framed {A} (m : M (t * K) A) : Prop :=
  ∀ s k, owned s ⊆ opened k → wp m (λ _ s' k', frame s k s' k') s k.

Lemma framed_ret {A} (a : A) : framed (ret a).
Proof. intros s k Ho. by apply wp_ret, frame_refl. Qed.
Lemma framed_ub {A} : framed (A:=A) ub.
Proof. by intros s k Ho. Qed.
Lemma framed_lift {A} (o : option A) : framed (lift o).
Proof. destruct o; [apply framed_ret|apply framed_ub]. Qed.
Lemma framed_see {A} (f : K → A) : framed (see f).
Proof. intros s k Ho. by apply wp_see, frame_refl. Qed.
Lemma framed_this : framed this.
Proof. intros s k Ho. by apply wp_this, frame_refl. Qed.
Lemma framed_upd f : (∀ s, m_sock (f s) = m_sock s) → framed (upd f).
Proof. intros Hf s k Ho. apply wp_upd, frame_same; [done|apply Hf|done]. Qed.
Lemma framed_call {A} (f : K → A * K) : keeps f → framed (call f).
Proof. intros Hk s k Ho. apply wp_call; [done|]. intros a k' E. by apply frame_same. Qed.
Lemma framed_call3 {A B} (f : K → A * B * K) :
  keeps f → framed (call (λ k, let '(a, b, k) := f k in ((a, b), k))).
Proof. intros Hk s k Ho. apply wp_call3; [done|]. intros a b k' E. by apply frame_same. Qed.
Lemma framed_bind {A B} (m : M (t * K) A) (f : A → M (t * K) B) :
  framed m → (∀ a, framed (f a)) → framed (Effect.bind m f).
Proof.
  intros Hm Hf s k Ho. apply wp_bind. apply (wp_mono _ _ _ _ _ (Hm s k Ho)). intros a s1 k1 F1.
  apply (wp_mono _ _ _ _ _ (Hf a s1 k1 (proj1 F1))). intros b s2 k2. by apply frame_trans.
Qed.
Hint Resolve framed_ret framed_ub framed_lift framed_see framed_this framed_call framed_call3 : sockets.
Hint Extern 2 (framed (upd _)) => apply framed_upd; by intros [] : sockets.

(** Takes a body apart along its control flow. *)
Ltac framed_tac :=
  repeat first
    [ progress cbn beta iota
    | solve [eauto 2 with sockets]
    | apply framed_bind; [|intros ?]
    | match goal with
      | |- framed (match ?x with _ => _ end) => destruct x
      | |- framed (let '(_, _) := ?x in _) => destruct x
      end ].

Lemma getOption_framed l o : framed (getOption l o).
Proof. unfold getOption. framed_tac. Qed.
Lemma setOption_framed l o v : framed (setOption l o v).
Proof. unfold setOption. framed_tac. Qed.
Hint Resolve getOption_framed setOption_framed : sockets.
Lemma initSock_framed : framed initSock.
Proof. unfold initSock. framed_tac. Qed.
Lemma getRemoteAddress_framed : framed getRemoteAddress.
Proof. unfold getRemoteAddress. framed_tac. Qed.
Lemma getLocalAddress_framed : framed getLocalAddress.
Proof. unfold getLocalAddress. framed_tac. Qed.
Lemma new_ssl_framed : framed new_ssl.
Proof. unfold new_ssl. framed_tac. Qed.
Hint Resolve initSock_framed getRemoteAddress_framed getLocalAddress_framed new_ssl_framed : sockets.

Lemma opened_set (fd : Z) (X : gset Z) :
  fd ∉ X → {[fd]} ⊆ {[fd]} ∪ X ∧ ({[fd]} ∪ X) ∖ {[fd]} = X ∖ ∅.
Proof. set_solver. Qed.
Lemma closed_set (fd : Z) (X : gset Z) : ∅ ⊆ X ∖ {[fd]} ∧ X ∖ {[fd]} ∖ ∅ = X ∖ {[fd]}.
Proof. set_solver. Qed.
Lemma owned_none s (X : gset Z) : m_sock s = -1 → owned s ⊆ X.
Proof. unfold owned. intros ->. cbn. apply empty_subseteq. Qed.

Lemma newSock_frame s k : m_sock s = -1 → wp newSock (λ _ s' k', frame s k s' k') s k.
Proof.
  intros Hs. unfold newSock. apply wp_bind, wp_this, wp_bind. unfold wp at 1, call.
  pose proof (socket_law (m_family s) (m_type s) (m_protocol s) k) as Hl. cbn zeta in Hl.
  destruct (k_socket _ _ _ k) as [fd k1]. cbn [fst snd] in Hl. apply wp_bind, wp_upd.
  destruct Hl as [[-> E]|(Hfd & Hn & E)].
  - apply wp_ret. apply frame_same; [by apply owned_none|done|done].
  - rewrite (proj2 (Z.eqb_neq fd (-1))) by done. cbn [negb].
    assert (frame s k (set_sock fd s) k1) as F.
    { unfold frame. rewrite owned_sock, (proj2 (Z.eqb_neq fd (-1))) by done.
      unfold owned. rewrite Hs, E. by apply opened_set. }
    apply (wp_mono _ _ _ _ _ (initSock_framed _ _ (proj1 F))). intros _ s2 k2. by apply frame_trans.
Qed.

(** [close] always leaves the object without a descriptor. *)
Record closes (s : t) (k : K) (s' : t) (k' : K) : Prop := Closes {
  closes_frame : frame s k s' k';
  closes_sock : m_sock s' = -1;
  closes_conn : m_isConnected s' = false;
  closes_ssl : ssl s' = ssl s;
  closes_local : m_localAddress s' = m_localAddress s;
  closes_remote : m_remoteAddress s' = m_remoteAddress s;
}.

Lemma close_frame s k : owned s ⊆ opened k → wp close (λ _ s' k', closes s k s' k') s k.
Proof.
  intros Ho. unfold close. apply wp_bind, wp_this.
  destruct (Z.eqb_spec (m_sock s) (-1)) as [E|E]; rewrite ?andb_true_r, ?andb_false_r.
  - destruct (m_isConnected s) eqn:Hc; cbn [negb].
    + apply wp_bind, wp_upd, wp_bind, wp_ret, wp_ret. split; [by apply frame_same|done..].
    + apply wp_ret. split; [by apply frame_refl|done..].
  - apply wp_bind, wp_upd, wp_bind, wp_bind. unfold wp at 1, call.
    pose proof (close_law (m_sock s) k) as Hl. destruct (k_close _ k) as [rt k1]. cbn [snd] in Hl.
    apply wp_upd, wp_ret. split; [|done..].
    unfold frame, owned. rewrite (proj2 (Z.eqb_neq (m_sock s) (-1))), Hl by done. apply closed_set.
Qed.

(** What [connect] may leave. *)
Record connected (addr : Address) (s : t) (k : K) (ok : bool) (s' : t) (k' : K) : Prop := Connected {
  cn_frame : frame s k s' k';
  cn_remote : m_remoteAddress s' = Some addr;
  cn_yes : ok = true → m_isConnected s' = true ∧ m_sock s' ≠ -1 ∧ getFamily addr = m_family s;
  cn_no : ok = false → (m_isConnected s = true → m_sock s ≠ -1) →
    (m_sock s' = -1 ∧ m_isConnected s' = false) ∨
    (getFamily addr ≠ m_family s ∧ m_isConnected s' = m_isConnected s);
}.

(** [getOption] and the calls after it change no member but the cached addresses. *)
Definition sticky {X} (a b : option X) : Prop := is_Some a → b = a.
Lemma sticky_trans {X} (a b c : option X) : sticky a b → sticky b c → sticky a c.
Proof. unfold sticky. intros H1 H2 Ha. rewrite H2; [auto|]. by rewrite H1. Qed.
Definition same_members (s s' : t) : Prop :=
  ssl s' = ssl s ∧ m_sock s' = m_sock s ∧ m_family s' = m_family s ∧ m_type s' = m_type s ∧
  m_isConnected s' = m_isConnected s ∧
  sticky (m_remoteAddress s) (m_remoteAddress s') ∧ sticky (m_localAddress s) (m_localAddress s').
Lemma same_members_refl s : same_members s s.
Proof. by split_and!. Qed.
Lemma same_members_trans s s1 s2 : same_members s s1 → same_members s1 s2 → same_members s s2.
Proof.
  unfold same_members. intros (A1 & A2 & A3 & A4 & A5 & A6 & A7) (B1 & B2 & B3 & B4 & B5 & B6 & B7).
  split_and!; [congruence..|by eapply sticky_trans|by eapply sticky_trans].
Qed.

Definition stable {A} (m : M (t * K) A) : Prop :=
  ∀ s k, wp m (λ _ s' k', same_members s s' ∧ opened k' = opened k) s k.
Lemma stable_ret {A} (a : A) : stable (ret a).
Proof. intros s k. apply wp_ret. split; [apply same_members_refl|done]. Qed.
Lemma stable_this : stable this.
Proof. intros s k. apply wp_this. split; [apply same_members_refl|done]. Qed.
Lemma stable_bind {A B} (m : M (t * K) A) (f : A → M (t * K) B) :
  stable m → (∀ a, stable (f a)) → stable (Effect.bind m f).
Proof.
  intros Hm Hf s k. apply wp_bind. apply (wp_mono _ _ _ _ _ (Hm s k)). intros a s1 k1 [S1 E1].
  apply (wp_mono _ _ _ _ _ (Hf a s1 k1)). intros b s2 k2 [S2 E2].
  split; [by apply (same_members_trans _ s1)|congruence].
Qed.
Lemma stable_call {A} (f : K → A * K) : keeps f → stable (call f).
Proof. intros Hf s k. apply wp_call; [done|]. intros a k' E. split; [apply same_members_refl|done]. Qed.
Lemma setOption_stable l o v : stable (setOption l o v).
Proof.
  unfold setOption. apply stable_bind; [apply stable_this|].
  intros s. apply stable_bind; [apply stable_call; auto with sockets|]. intros rt. apply stable_ret.
Qed.
Lemma initSock_stable : stable initSock.
Proof.
  unfold initSock. apply stable_bind; [apply stable_this|].
  intros s. apply stable_bind; [apply setOption_stable|]. intros _.
  destruct (m_type s =? TCP); [|apply stable_ret].
  apply stable_bind; [apply setOption_stable|]. intros _. apply stable_ret.
Qed.
Lemma getLocalAddress_stable : stable getLocalAddress.
Proof.
  intros s k. unfold getLocalAddress. apply wp_bind, wp_this.
  destruct (m_localAddress s) eqn:El; [apply stable_ret|].
  apply wp_bind, wp_see. destruct (k_getsockname _ k) as [[bs l]|]; [|apply stable_ret].
  apply wp_bind, wp_upd, wp_ret. split; [|done]. split_and!; try done.
  rewrite El. by intros [].
Qed.
Lemma getRemoteAddress_stable : stable getRemoteAddress.
Proof.
  intros s k. unfold getRemoteAddress. apply wp_bind, wp_this.
  destruct (m_remoteAddress s) eqn:El; [apply stable_ret|].
  apply wp_bind, wp_see. destruct (k_getpeername _ k) as [[bs l]|]; [|apply stable_ret].
  apply wp_bind, wp_upd, wp_ret. split; [|done]. split_and!; try done.
  rewrite El. by intros [].
Qed.

(** [newSock]: a descriptor nobody had, or none. *)
Lemma newSock_members s k : wp newSock (λ _ s' k', same_members s (set_sock (m_sock s) s')) s k.
Proof.
  unfold newSock. apply wp_bind, wp_this, wp_bind. unfold wp at 1, call.
  destruct (k_socket _ _ _ k) as [fd k1]. apply wp_bind, wp_upd.
  destruct (fd =? -1); cbn [negb]; [apply wp_ret; by split_and!|].
  apply (wp_mono _ _ _ _ _ (initSock_stable _ _)). intros _ s2 k2 [(A1 & A2 & A3 & A4 & A5 & A6 & A7) _].
  by split_and!.
Qed.

Lemma wp_and {A} (m : M (t * K) A) (P Q : A → t → K → Prop) s k :
  wp m P s k → wp m Q s k → wp m (λ a s' k', P a s' k' ∧ Q a s' k') s k.
Proof. unfold wp. destruct (m (s, k)) as [a [s' k']| |]; auto. Qed.

(** A valid object after the first lines of [connect] and [bind]. *)
Lemma ensure_sock s k :
  owned s ⊆ opened k →
  wp (if negb (isValid s) then newSock else ret tt)
    (λ _ s' k', frame s k s' k' ∧ same_members s (set_sock (m_sock s) s') ∧
       (m_sock s ≠ -1 → m_sock s' = m_sock s)) s k.
Proof.
  intros Ho. unfold isValid. destruct (Z.eqb_spec (m_sock s) (-1)) as [E|E]; cbn [negb].
  - apply (wp_mono _ _ _ _ _ (wp_and _ _ _ _ _ (newSock_frame s k E) (newSock_members s k))).
    intros _ s' k' [F S]. split_and!; try done.
  - apply wp_ret. split_and!; [by apply frame_refl|by split_and!|done].
Qed.

Lemma frame_of_stable s k s' k' :
  owned s ⊆ opened k → same_members s s' → opened k' = opened k → frame s k s' k'.
Proof. intros Ho (_ & E & _) Eo. by apply frame_same. Qed.

(** The tail of [connect]: the addresses are looked up. *)
Lemma addresses_spec {A} (a : A) s k :
  wp (getRemoteAddress ;! getLocalAddress ;! ret a)
    (λ b s' k', b = a ∧ same_members s s' ∧ opened k' = opened k) s k.
Proof.
  apply wp_bind. apply (wp_mono _ _ _ _ _ (getRemoteAddress_stable s k)). intros _ s1 k1 [S1 E1].
  apply wp_bind. apply (wp_mono _ _ _ _ _ (getLocalAddress_stable s1 k1)). intros _ s2 k2 [S2 E2].
  apply wp_ret. split_and!; [done|by apply (same_members_trans _ s1)|congruence].
Qed.

Lemma wp_result {A B} (m : M (t * K) A) (b : B) Q s k :
  wp m (λ _ s' k', Q b s' k') s k → wp (m ;! ret b) Q s k.
Proof. intros Hm. by apply wp_bind. Qed.

Lemma connect_plain_spec addr timeout_ms s k :
  owned s ⊆ opened k →
  wp (connect_plain addr timeout_ms) (λ ok s' k', connected addr s k ok s' k' ∧
    sticky (m_localAddress s) (m_localAddress s')) s k.
Proof.
  intros Ho. unfold connect_plain. apply wp_bind, wp_upd, wp_bind, wp_this, wp_bind.
  set (s0 := set_remoteAddress (Some addr) s).
  apply (wp_mono _ _ _ _ _ (ensure_sock s0 k Ho)).
  intros _ s1 k1 (F1 & (A1 & _ & A3 & _ & A5 & A6 & A7) & Hkeep). cbn [set_sock m_sock m_remoteAddress
    m_localAddress m_isConnected m_family] in *. specialize (A6 ltac:(by eexists)).
  change (m_localAddress s0) with (m_localAddress s) in A7.
  apply wp_bind, wp_this. unfold isValid. destruct (Z.eqb_spec (m_sock s1) (-1)) as [E|E]; cbn [negb].
  { apply wp_ret. split; [|done]. split; [done|done|done|]. intros _ Hc. left. split; [done|].
    rewrite A5. change (m_isConnected s0) with (m_isConnected s). destruct (m_isConnected s); [|done].
    change (m_sock s0) with (m_sock s) in Hkeep. rewrite (Hkeep (Hc eq_refl)) in E. by destruct Hc. }
  destruct (Z.eqb_spec (getFamily addr) (m_family s1)) as [Ef|Ef]; cbn [negb].
  2:{ apply wp_ret. split; [|done]. split; [done|done|done|]. intros _ _. right. rewrite A3 in Ef. done. }
  apply wp_bind. set (m := if timeout_ms =? max_timeout then _ else _).
  assert (framed m) as Hm by (unfold m; destruct (timeout_ms =? max_timeout); auto with sockets).
  assert (stable m) as Hst by (unfold m; destruct (timeout_ms =? max_timeout); apply stable_call; auto with sockets).
  apply (wp_mono _ _ _ _ _ (Hst s1 k1)). intros rt s2 k2 [S2 E2].
  pose proof (frame_of_stable _ _ _ _ (proj1 F1) S2 E2) as F2.
  destruct S2 as (B1 & B2 & B3 & B4 & B5 & B6 & B7).
  destruct (rt =? 0); cbn [negb].
  - apply wp_bind, wp_upd. apply (wp_mono _ _ _ _ _ (addresses_spec true _ _)).
    intros ok s3 k3 (-> & S3 & E3).
    assert (frame s2 k2 s3 k3) as F3 by exact (frame_of_stable (set_isConnected true s2) k2 s3 k3 (proj1 F2) S3 E3).
    destruct S3 as (C1 & C2 & C3 & C4 & C5 & C6 & C7).
    cbn [set_isConnected m_sock m_remoteAddress m_localAddress m_isConnected] in *.
    split; [|exact (sticky_trans _ _ _ (sticky_trans _ _ _ A7 B7) C7)].
    split; [exact (frame_trans _ _ _ _ _ _ F1 (frame_trans _ _ _ _ _ _ F2 F3))| | |done].
    + rewrite (sticky_trans _ _ _ B6 C6); [done|by rewrite A6].
    + intros _. split_and!; [done|congruence|]. rewrite Ef, A3. done.
  - apply wp_result. apply (wp_mono _ _ _ _ _ (close_frame s2 k2 (proj1 F2))).
    intros _ s3 k3 [F3 C1 C2 _ C3 C4]. split; [|rewrite C3; exact (sticky_trans _ _ _ A7 B7)].
    split; [exact (frame_trans _ _ _ _ _ _ F1 (frame_trans _ _ _ _ _ _ F2 F3))| |done|by left].
    rewrite C4, B6, A6; [done|by rewrite A6].
Qed.

Lemma connect_plain_framed addr timeout_ms : framed (connect_plain addr timeout_ms).
Proof.
  intros s k Ho. apply (wp_mono _ _ _ _ _ (connect_plain_spec addr timeout_ms s k Ho)).
  intros ok s' k' [[F _ _ _] _]. done.
Qed.
Lemma close_framed : framed close.
Proof. intros s k Ho. apply (wp_mono _ _ _ _ _ (close_frame s k Ho)). by intros _ s' k' []. Qed.
Lemma destroy_closes s k : owned s ⊆ opened k → wp destroy (λ _ s' k', closes s k s' k') s k.
Proof. intros Ho. apply wp_result. by apply close_frame. Qed.
Hint Resolve connect_plain_framed close_framed : sockets.

Lemma connect_framed addr timeout_ms : framed (connect addr timeout_ms).
Proof. unfold connect. framed_tac. Qed.
Hint Resolve connect_framed : sockets.
Lemma reconnect_framed timeout_ms : framed (reconnect timeout_ms).
Proof. unfold reconnect. framed_tac. Qed.
Lemma listen_framed n : framed (listen n).
Proof. unfold listen. framed_tac. Qed.

Lemma listen_keeps_object n s k : wp (listen n) (λ _ s' _, s' = s) s k.
Proof.
  unfold listen. apply wp_bind, wp_this. destruct (negb _); [by apply wp_ret|].
  apply wp_bind, wp_call; [auto with sockets|]. intros. by apply wp_ret.
Qed.

(** A local object, from its construction to its destruction. *)
Lemma wp_on_object {A} (o : t) (m : M (t * K) A) (Q : A * t → t → K → Prop) s k :
  wp m (λ a o' k', Q (a, o') s k') o k → wp (on_object o m) Q s k.
Proof. unfold wp, on_object. by destruct (m (o, k)) as [a [o' k']| |]. Qed.
Lemma drop_spec o s k (Q : unit → t → K → Prop) :
  owned o ⊆ opened k → (∀ k', opened k' = opened k ∖ owned o → Q tt s k') → wp (drop_object o) Q s k.
Proof.
  intros Ho HQ. unfold drop_object. apply wp_result, wp_on_object.
  apply (wp_mono _ _ _ _ _ (destroy_closes o k Ho)). intros _ o' k' [[_ E] Hs _ _ _ _]. apply HQ.
  rewrite <- E. unfold owned at 1. rewrite Hs. cbn. by rewrite difference_empty_L.
Qed.

Lemma probe_unix_framed addr : framed (probe_unix addr).
Proof.
  destruct addr as [|? | m l|]; try apply framed_ret. intros s k Ho. unfold probe_unix.
  apply wp_bind, wp_on_object.
  apply (wp_mono _ _ _ _ _ (connect_plain_framed _ _ CreateUnixTCPSocket k
    (owned_none CreateUnixTCPSocket _ eq_refl))).
  intros b o k1 [Ho1 E1]. change (owned CreateUnixTCPSocket) with (∅ : gset Z) in E1.
  rewrite difference_empty_L in E1.
  apply wp_bind. set (m' := if b then _ else _).
  assert (stable m') as Hm.
  { unfold m'. destruct b; [apply stable_ret|]. apply stable_bind; [|intros p; apply stable_bind;
      [apply stable_call; auto with sockets|intros _; apply stable_ret]].
    destruct (getPath (m, l)); [apply stable_ret|by intros ??]. }
  apply (wp_mono _ _ _ _ _ (Hm s k1)). intros _ s2 k2 [S2 E2]. apply wp_result.
  apply drop_spec; [by rewrite E2|]. intros k3 E3. apply frame_of_stable; [done|done|]. congruence.
Qed.
(** The object itself is not touched. *)
Lemma probe_unix_keeps addr s k : wp (probe_unix addr) (λ _ s' _, s' = s) s k.
Proof.
  destruct addr as [|? | m l|]; try by apply wp_ret. unfold probe_unix.
  apply wp_bind, wp_on_object. unfold wp at 1.
  pose proof (connect_plain_framed (UnixAddress m l) max_timeout CreateUnixTCPSocket k
    (owned_none CreateUnixTCPSocket _ eq_refl)) as Hw. unfold wp in Hw.
  destruct (connect_plain _ _ _) as [b [o k1]| |]; [|done..]. apply wp_bind. destruct b.
  - apply wp_ret, wp_result, drop_spec; [apply Hw|done].
  - destruct (getPath (m, l)) as [p|]; [|done]. cbn [lift]. apply wp_bind, wp_ret, wp_bind.
    apply wp_call; [auto with sockets|]. intros _ k2 E2. apply wp_ret, wp_result, drop_spec; [|done].
    rewrite E2. apply Hw.
Qed.

(** [bind] says true only of an object with a descriptor. *)
Lemma bind_spec addr s k :
  owned s ⊆ opened k → wp (bind addr) (λ b s' k', frame s k s' k' ∧ (b = true → m_sock s' ≠ -1)) s k.
Proof.
  unfold bind. intros Ho. apply wp_bind, wp_this, wp_bind.
  apply (wp_mono _ _ _ _ _ (ensure_sock s k Ho)). intros _ s1 k1 (F1 & _ & _).
  apply wp_bind, wp_this. unfold isValid. destruct (Z.eqb_spec (m_sock s1) (-1)) as [E|E]; cbn [negb]; [by apply wp_ret|].
  destruct (_ =? _); cbn [negb]; [|by apply wp_ret]. apply wp_bind.
  apply (wp_mono _ _ _ _ _ (wp_and _ _ _ _ _ (probe_unix_framed addr s1 k1 (proj1 F1)) (probe_unix_keeps addr s1 k1))).
  intros taken s2 k2 [F2 ->]. pose proof (frame_trans _ _ _ _ _ _ F1 F2) as F12.
  destruct taken; [by apply wp_ret|]. apply wp_bind, wp_call; [auto with sockets|]. intros rt k3 E3.
  pose proof (frame_trans _ _ _ _ _ _ F12 (frame_same s1 k2 s1 k3 (proj1 F2) eq_refl E3)) as F3.
  destruct (rt =? 0); cbn [negb]; [|by apply wp_ret]. apply wp_result.
  apply (wp_mono _ _ _ _ _ (getLocalAddress_stable s1 k3)). intros _ s4 k4 [S4 E4].
  pose proof (frame_of_stable _ _ _ _ (proj1 F3) S4 E4) as F4. split; [by eapply frame_trans|].
  intros _. destruct S4 as (_ & -> & _). done.
Qed.
Lemma bind_framed addr : framed (bind addr).
Proof. intros s k Ho. apply (wp_mono _ _ _ _ _ (bind_spec addr s k Ho)). by intros b s' k' []. Qed.

(** [init] takes over the descriptor it is given, or touches nothing. *)
Lemma init_plain_spec fd s k :
  m_sock s = -1 → fd ≠ -1 → fd ∈ opened k →
  wp (init_plain fd) (λ b s' k', opened k' = opened k ∧
    (if b then m_sock s' = fd ∧ m_isConnected s' = true else s' = s) ∧ ssl s' = ssl s) s k.
Proof.
  intros Hs Hfd Hin. unfold init_plain. apply wp_bind, wp_see.
  destruct (k_fdctx fd k) as [c|]; [|by apply wp_ret]. destruct (_ && _); [|by apply wp_ret].
  apply wp_bind, wp_upd, wp_bind, wp_upd, wp_bind.
  apply (wp_mono _ _ _ _ _ (initSock_stable _ _)). intros _ s1 k1 [S1 E1].
  apply wp_bind. apply (wp_mono _ _ _ _ _ (getLocalAddress_stable _ _)). intros _ s2 k2 [S2 E2].
  apply wp_bind. apply (wp_mono _ _ _ _ _ (getRemoteAddress_stable _ _)). intros _ s3 k3 [S3 E3].
  apply wp_ret. destruct (same_members_trans _ _ _ (same_members_trans _ _ _ S1 S2) S3)
    as (A1 & A2 & _ & _ & A5 & _). split_and!; [congruence|done|done|done].
Qed.

Lemma init_spec fd s k :
  m_sock s = -1 → fd ≠ -1 → fd ∈ opened k →
  wp (init fd) (λ b s' k', opened k' = opened k ∧
    (if b then m_sock s' = fd ∧ m_isConnected s' = true else s' = s ∨ m_sock s' = fd)) s k.
Proof.
  intros Hs Hfd Hin. unfold init. apply wp_bind, wp_this, wp_bind.
  apply (wp_mono _ _ _ _ _ (init_plain_spec fd s k Hs Hfd Hin)).
  intros [] s1 k1 (E1 & Hb & Hssl); [|rewrite andb_false_r; apply wp_ret; auto].
  destruct (ssl s); cbn [andb]; [|apply wp_ret; auto]. destruct Hb as [Hb1 Hb2].
  unfold new_ssl. apply wp_bind, wp_bind, wp_this, wp_bind.
  apply wp_call; [auto with sockets|]. intros h k2 E2. apply wp_bind, wp_upd, wp_bind, wp_lift.
  intros h' ->. apply wp_bind, wp_call; [auto with sockets|]. intros _ k3 E3. apply wp_ret.
  apply wp_bind, wp_call; [auto with sockets|]. intros rt k4 E4. apply wp_ret.
  split; [congruence|]. destruct (rt =? 1); [done|by right].
Qed.

(** [accept] leaves its own object as it is; the one it returns owns a descriptor
    that was not open. *)
Lemma accept_spec s k :
  owned s ⊆ opened k → wp accept (λ r s' k', s' = s ∧ opened k ⊆ opened k' ∧
    match r with
    | Some o => m_sock o ≠ -1 ∧ m_isConnected o = true ∧ (m_sock o ∉ opened k) ∧
        opened k' = ({[m_sock o]} ∪ opened k)
    | None => True
    end) s k.
Proof.
  intros Ho. unfold accept. apply wp_bind, wp_this, wp_bind. unfold wp at 1, call.
  pose proof (accept_law (m_sock s) k) as Hl. cbn zeta in Hl.
  destruct (k_accept _ k) as [fd k1]. cbn [fst snd] in Hl.
  set (o := Socket _ _ _ _ _ _ _ _ _ _). assert (m_sock o = -1) as Hno by done.
  destruct Hl as [[-> E]|(Hfd & Hn & E)].
  { cbn [Z.eqb]. apply wp_result, drop_spec; [by apply owned_none|]. intros k2 E2.
    split_and!; [done| |done]. rewrite E2, E. unfold owned. rewrite Hno. cbn. by rewrite difference_empty_L. }
  rewrite (proj2 (Z.eqb_neq fd (-1))) by done. clearbody o.
  set (o1 := if ssl s then _ else o). assert (m_sock o1 = -1) as Hno1 by (unfold o1; by destruct (ssl s)).
  clearbody o1. apply wp_bind, wp_on_object.
  assert (fd ∈ opened k1) as Hin1 by (rewrite E; set_solver).
  apply (wp_mono _ _ _ _ _ (init_spec fd o1 k1 Hno1 Hfd Hin1)). intros b o2 k2 [E2 Hb]. destruct b.
  - apply wp_ret. destruct Hb as [<- Hc]. split_and!; [done|rewrite E2, E; set_solver|done..|congruence].
  - assert (owned o2 ⊆ opened k2 ∧ (owned o2 = ∅ ∨ owned o2 = {[fd]})) as [Ho2 Hd].
    { rewrite E2. unfold owned. destruct Hb as [-> | ->]; [rewrite Hno1|rewrite (proj2 (Z.eqb_neq fd (-1))) by done];
        cbn; split; set_solver. }
    apply wp_result, drop_spec; [done|]. intros k3 E3. split_and!; [done| |done].
    rewrite E3, E2, E. destruct Hd as [-> | ->]; set_solver.
Qed.

Lemma send_framed bs fl : framed (send bs fl).
Proof. unfold send, ssl_write, send_plain. framed_tac. Qed.
Lemma recv_framed n fl : framed (recv n fl).
Proof. unfold recv, ssl_read, recv_plain. framed_tac. Qed.
Lemma sendTo_framed bs to fl : framed (sendTo bs to fl).
Proof. unfold sendTo, sendTo_plain. framed_tac. Qed.
Lemma recvFrom_framed n from fl : framed (recvFrom n from fl).
Proof.
  unfold recvFrom, recvFrom_plain. framed_tac. intros s k Ho. unfold wp, call.
  pose proof (recvfrom_keeps (m_sock a0) n fl (getAddrLen from) k) as E.
  destruct (k_recvfrom _ _ _ _ k) as [[[rt bs] nm] k1]. by apply frame_same.
Qed.
Lemma getError_framed : framed getError.
Proof. unfold getError. framed_tac. Qed.
Lemma setRecvTimeout_framed v : framed (setRecvTimeout v).
Proof. unfold setRecvTimeout. framed_tac. Qed.
Lemma cancelAll_framed : framed cancelAll.
Proof. unfold cancelAll. framed_tac. Qed.
Lemma loadCertificates_framed c p : framed (loadCertificates c p).
Proof. unfold loadCertificates. framed_tac. Qed.
Lemma write_framed bs : framed (ssl_write bs).
Proof. unfold ssl_write. framed_tac. Qed.
Lemma read_framed n : framed (ssl_read n).
Proof. unfold ssl_read. framed_tac. Qed.
Hint Resolve write_framed read_framed : sockets.
Lemma write_iov_framed bufs n : framed (ssl_write_iov bufs n).
Proof. revert n. induction bufs as [|b bufs IH]; intros n; cbn [ssl_write_iov]; framed_tac; apply IH. Qed.
Lemma read_iov_framed ns n got : framed (ssl_read_iov ns n got).
Proof. revert n got. induction ns as [|b ns IH]; intros n got; cbn [ssl_read_iov]; framed_tac; apply IH. Qed.
Hint Resolve write_iov_framed read_iov_framed : sockets.
Lemma send_iov_framed bufs fl : framed (send_iov bufs fl).
Proof. unfold send_iov, send_plain_iov, send_plain. framed_tac. Qed.
Lemma recv_iov_framed ns fl : framed (recv_iov ns fl).
Proof. unfold recv_iov, recv_plain_iov, recv_plain. framed_tac. Qed.
Hint Resolve send_framed recv_framed sendTo_framed recvFrom_framed getError_framed
  setRecvTimeout_framed cancelAll_framed loadCertificates_framed send_iov_framed recv_iov_framed
  bind_framed reconnect_framed listen_framed : sockets.

(** *** A program with many sockets *)

Inductive op :=
| Bind (addr : Address) | Connect (addr : Address) (timeout_ms : Z) | Reconnect (timeout_ms : Z)
| Listen (backlog : Z) | Close
| Send (buffer : list ascii) (flags : Z) | Recv (length flags : Z)
| SendIov (buffers : list (list ascii)) (flags : Z) | RecvIov (lengths : list Z) (flags : Z)
| SendTo (buffer : list ascii) (to : Address) (flags : Z) | RecvFrom (length : Z) (from : Address) (flags : Z)
| LocalAddress | RemoteAddress | Error | RecvTimeout (v : Z) | CancelAll
| Certificates (cert_file key_file : list ascii).

Definition run_op (o : op) : M (t * K) unit :=
  match o with
  | Bind a => bind a ;! ret tt
  | Connect a v => connect a v ;! ret tt
  | Reconnect v => reconnect v ;! ret tt
  | Listen n => listen n ;! ret tt
  | Close => close ;! ret tt
  | Send bs fl => send bs fl ;! ret tt
  | Recv n fl => recv n fl ;! ret tt
  | SendIov bs fl => send_iov bs fl ;! ret tt
  | RecvIov ns fl => recv_iov ns fl ;! ret tt
  | SendTo bs a fl => sendTo bs a fl ;! ret tt
  | RecvFrom n a fl => recvFrom n a fl ;! ret tt
  | LocalAddress => getLocalAddress ;! ret tt
  | RemoteAddress => getRemoteAddress ;! ret tt
  | Error => getError ;! ret tt
  | RecvTimeout v => setRecvTimeout v
  | CancelAll => cancelAll ;! ret tt
  | Certificates c p => loadCertificates c p ;! ret tt
  end.

Lemma op_framed o : framed (run_op o).
Proof. destruct o; cbn [run_op]; framed_tac. Qed.

(** The objects by name, the system, and the descriptors [accept] got from the
    system and gave to nobody. *)
Record world := World { objs : gmap nat t; sysk : K; lost : gset Z }.

Inductive step : world → world → Prop :=
| Step_new w i o :
    objs w !! i = None → m_sock o = -1 → step w (World (<[i := o]> (objs w)) (sysk w) (lost w))
| Step_udp w i addr o k' :
    objs w !! i = None → CreateUDP addr (sysk w) = Ret tt (o, k') →
    step w (World (<[i := o]> (objs w)) k' (lost w))
| Step_op w i s o s' k' :
    objs w !! i = Some s → run_op o (s, sysk w) = Ret tt (s', k') →
    step w (World (<[i := s']> (objs w)) k' (lost w))
| Step_accept w i j s s' o k' :
    objs w !! i = Some s → objs w !! j = None → accept (s, sysk w) = Ret (Some o) (s', k') →
    step w (World (<[j := o]> (<[i := s']> (objs w))) k' (lost w))
| Step_accept_null w i s s' k' :
    objs w !! i = Some s → accept (s, sysk w) = Ret None (s', k') →
    step w (World (<[i := s']> (objs w)) k' (lost w ∪ (opened k' ∖ opened (sysk w))))
| Step_destroy w i s s' k' :
    objs w !! i = Some s → destroy (s, sysk w) = Ret tt (s', k') →
    step w (World (delete i (objs w)) k' (lost w)).

(** [base] are the descriptors the program had open for other purposes. *)
Record accounted (base : gset Z) (w : world) : Prop := Accounted {
  acc_open i s : objs w !! i = Some s → owned s ⊆ opened (sysk w);
  acc_distinct i j s s' : i ≠ j → objs w !! i = Some s → objs w !! j = Some s' → owned s ## owned s';
  acc_other i s : objs w !! i = Some s → owned s ## base ∪ lost w;
  acc_base : base ∪ lost w ⊆ opened (sysk w);
  acc_all fd : fd ∈ opened (sysk w) → fd ∈ base ∪ lost w ∨ ∃ i s, objs w !! i = Some s ∧ fd ∈ owned s;
}.

Lemma accounted_insert base w i o :
  accounted base w → objs w !! i = None → m_sock o = -1 →
  accounted base (World (<[i := o]> (objs w)) (sysk w) (lost w)).
Proof.
  intros [A1 A2 A3 A4 A5] Hi Ho. assert (owned o = ∅) as He by (unfold owned; by rewrite Ho).
  split; cbn [objs sysk lost].
  - intros j s [[<- <-]|[_ Hs]]%lookup_insert_Some; [rewrite He; apply empty_subseteq|eauto].
  - intros j j' s s' Hne [[<- <-]|[_ Hs]]%lookup_insert_Some [[<- <-]|[_ Hs']]%lookup_insert_Some;
      rewrite ?He; [done|apply disjoint_empty_l|apply disjoint_empty_r|eauto].
  - intros j s [[<- <-]|[_ Hs]]%lookup_insert_Some; [rewrite He; apply disjoint_empty_l|eauto].
  - done.
  - intros fd [?|(j & s & Hs & Hfd)]%A5; [by left|right]. exists j, s. split; [|done].
    rewrite lookup_insert_ne; [done|]. intros ->. congruence.
Qed.

(** An object changed within its frame. *)
Lemma accounted_frame base w i s s' k' :
  accounted base w → objs w !! i = Some s → frame s (sysk w) s' k' →
  accounted base (World (<[i := s']> (objs w)) k' (lost w)).
Proof.
  intros [A1 A2 A3 A4 A5] Hi [F1 F2].
  assert (∀ X, X ⊆ opened (sysk w) → owned s ## X → X ⊆ opened k' ∧ owned s' ## X) as Hmove.
  { intros X HX Hd. assert (X ⊆ opened k' ∖ owned s') by (rewrite F2; set_solver). set_solver. }
  split; cbn [objs sysk lost].
  - intros j o [[<- <-]|[Hne Ho]]%lookup_insert_Some; [done|]. apply Hmove; eauto.
  - intros j j' o o' Hne [[<- <-]|[H1 Hs]]%lookup_insert_Some [[<- <-]|[H2 Hs']]%lookup_insert_Some;
      [done| |symmetry|eauto]; apply Hmove; eauto.
  - intros j o [[<- <-]|[_ Ho]]%lookup_insert_Some; [|eauto]. apply Hmove; eauto.
  - apply Hmove; eauto.
  - intros fd Hfd. destruct (decide (fd ∈ owned s')) as [Hin|Hout].
    { right. exists i, s'. by rewrite lookup_insert_eq. }
    assert (fd ∈ opened (sysk w) ∖ owned s) as [Hold Hns]%elem_of_difference by (rewrite <- F2; set_solver).
    apply A5 in Hold as [?|(j & o & Ho & Hfo)]; [by left|right]. exists j, o. split; [|done].
    rewrite lookup_insert_ne; [done|]. intros ->. congruence.
Qed.

Lemma wp_Ret {A} (m : M (t * K) A) Q s k a s' k' : wp m Q s k → m (s, k) = Ret a (s', k') → Q a s' k'.
Proof. unfold wp. intros Hw E. by rewrite E in Hw. Qed.

Lemma accounted_accept base w i j s s' o k' :
  accounted base w → objs w !! i = Some s → objs w !! j = None →
  accept (s, sysk w) = Ret (Some o) (s', k') →
  accounted base (World (<[j := o]> (<[i := s']> (objs w))) k' (lost w)).
Proof.
  intros Hacc Hi Hj Hr. pose proof Hacc as [A1 A2 A3 A4 A5].
  apply (wp_Ret _ _ _ _ _ _ _ (accept_spec s (sysk w) (A1 i s Hi))) in Hr
    as (-> & Hsub & Ho & _ & Hn & E). rewrite (insert_id (objs w) i s) by done.
  assert (owned o = {[m_sock o]}) as Hown by (unfold owned; by rewrite (proj2 (Z.eqb_neq _ _) Ho)).
  split; cbn [objs sysk lost].
  - intros x p [[<- <-]|[_ Hp]]%lookup_insert_Some; [set_solver|]. specialize (A1 _ _ Hp). set_solver.
  - intros x y p q Hne [[<- <-]|[_ Hp]]%lookup_insert_Some [[<- <-]|[_ Hq]]%lookup_insert_Some;
      [done| | |eauto]; rewrite Hown.
    + specialize (A1 _ _ Hq). set_solver.
    + specialize (A1 _ _ Hp). set_solver.
  - intros x p [[<- <-]|[_ Hp]]%lookup_insert_Some; [|eauto]. rewrite Hown. set_solver.
  - set_solver.
  - intros fd Hfd. rewrite E, elem_of_union, elem_of_singleton in Hfd. destruct Hfd as [-> |Hfd].
    { right. exists j, o. rewrite lookup_insert_eq. set_solver. }
    apply A5 in Hfd as [?|(x & p & Hp & Hfo)]; [by left|right]. exists x, p. split; [|done].
    rewrite lookup_insert_ne; [done|]. intros ->. congruence.
Qed.

Lemma accounted_accept_null base w i s s' k' :
  accounted base w → objs w !! i = Some s → accept (s, sysk w) = Ret None (s', k') →
  accounted base (World (<[i := s']> (objs w)) k' (lost w ∪ (opened k' ∖ opened (sysk w)))).
Proof.
  intros Hacc Hi Hr. pose proof Hacc as [A1 A2 A3 A4 A5].
  apply (wp_Ret _ _ _ _ _ _ _ (accept_spec s (sysk w) (A1 i s Hi))) in Hr as (-> & Hsub & _).
  rewrite (insert_id (objs w) i s) by done. split; cbn [objs sysk lost].
  - intros x p Hp. specialize (A1 _ _ Hp). set_solver.
  - done.
  - intros x p Hp. specialize (A1 _ _ Hp). specialize (A3 _ _ Hp). set_solver.
  - set_solver.
  - intros fd Hfd. destruct (decide (fd ∈ opened (sysk w))) as [Hin|Hout].
    + apply A5 in Hin as [?|?]; [left; set_solver|by right].
    + left. set_solver.
Qed.

Lemma accounted_destroy base w i s s' k' :
  accounted base w → objs w !! i = Some s → destroy (s, sysk w) = Ret tt (s', k') →
  accounted base (World (delete i (objs w)) k' (lost w)).
Proof.
  intros Hacc Hi Hr.
  apply (wp_Ret _ _ _ _ _ _ _ (destroy_closes s (sysk w) (acc_open _ _ Hacc i s Hi))) in Hr as [F Hs _ _ _ _].
  destruct (accounted_frame base w i s s' k' Hacc Hi F) as [A1 A2 A3 A4 A5]. cbn [objs sysk lost] in *.
  assert (∀ j o, delete i (objs w) !! j = Some o → <[i := s']> (objs w) !! j = Some o) as Hd.
  { intros j o [Hne Ho]%lookup_delete_Some. by rewrite lookup_insert_ne. }
  split; cbn [objs sysk lost]; [eauto|eauto 6|eauto|done|].
  intros fd [?|(j & o & Ho & Hfo)]%A5; [by left|]. apply lookup_insert_Some in Ho as [[<- <-]|[Hne Ho]].
  - unfold owned in Hfo. rewrite Hs in Hfo. cbn in Hfo. by apply not_elem_of_empty in Hfo.
  - right. exists j, o. split; [|done]. by rewrite lookup_delete_ne.
Qed.

Lemma step_accounted base w w' : accounted base w → step w w' → accounted base w'.
Proof.
  intros Hacc Hs. destruct Hs as [w i o Hi Ho|w i addr o k' Hi Hr|w i s o s' k' Hi Hr|w i j s s' o k'|w i s s' k'|
    w i s s' k']; eauto using accounted_insert, accounted_accept, accounted_accept_null, accounted_destroy.
  - set (o0 := new_Socket (getFamily addr) UDP 0). pose proof (accounted_insert base w i o0 Hacc Hi eq_refl) as H1.
    assert (wp (newSock ;! upd (set_isConnected true)) (λ _ s' k', frame o0 (sysk w) s' k') o0 (sysk w)) as Hw.
    { apply wp_bind. by apply (wp_mono _ _ _ _ _ (newSock_frame o0 (sysk w) eq_refl)). }
    pose proof (accounted_frame base _ i o0 o k' H1 (lookup_insert_eq _ _ _) (wp_Ret _ _ _ _ _ _ _ Hw Hr)) as H2.
    cbn [objs lost] in H2. by rewrite insert_insert_eq in H2.
  - apply (accounted_frame base w i s); [done|done|].
    exact (wp_Ret _ _ _ _ _ _ _ (op_framed o s (sysk w) (acc_open _ _ Hacc i s Hi)) Hr).
Qed.

(** *** Definedness: without TLS no call runs into a null handle *)

Definition defined {A} (m : M (t * K) A) : Prop := ∀ s k, m (s, k) ≠ UB.

Lemma defined_ret {A} (a : A) : defined (ret a).
Proof. done. Qed.
Lemma defined_see {A} (f : K → A) : defined (see f).
Proof. done. Qed.
Lemma defined_this : defined this.
Proof. done. Qed.
Lemma defined_upd f : defined (upd f).
Proof. done. Qed.
Lemma defined_call {A} (f : K → A * K) : defined (call f).
Proof. intros s k. unfold call. by destruct (f k). Qed.
Lemma defined_bind {A B} (m : M (t * K) A) (f : A → M (t * K) B) :
  defined m → (∀ a, defined (f a)) → defined (Effect.bind m f).
Proof.
  intros Hm Hf s k. unfold Effect.bind. specialize (Hm s k).
  destruct (m (s, k)) as [a [s' k']|e s'|]; [apply Hf|done|done].
Qed.
Hint Resolve defined_ret defined_see defined_this defined_upd defined_call : sockets.
Ltac defined_tac :=
  repeat first
    [ progress cbn beta iota
    | solve [eauto 2 with sockets]
    | apply defined_bind; [|intros ?]
    | match goal with |- defined (match ?x with _ => _ end) => destruct x end ].

Lemma connect_plain_defined addr timeout_ms : defined (connect_plain addr timeout_ms).
Proof.
  unfold connect_plain, close, newSock, initSock, setOption, getRemoteAddress, getLocalAddress. defined_tac.
Qed.

Definition is_unix (addr : Address) : bool := match addr with UnixAddress _ _ => true | _ => false end.
Lemma bind_defined addr : is_unix addr = false → defined (bind addr).
Proof.
  intros Hu. unfold bind, newSock, initSock, setOption, getLocalAddress.
  assert (probe_unix addr = ret false) as -> by (by destruct addr). defined_tac.
Qed.
Lemma listen_defined n : defined (listen n).
Proof. unfold listen. defined_tac. Qed.
Lemma close_defined : defined close.
Proof. unfold close. defined_tac. Qed.

Lemma wp_runs {A} (m : M (t * K) A) Q s k :
  wp m Q s k → defined m → ∃ a s' k', m (s, k) = Ret a (s', k') ∧ Q a s' k'.
Proof.
  unfold wp. intros Hw Hd. specialize (Hd s k). destruct (m (s, k)) as [a [s' k']| |]; [|done..]. eauto.
Qed.

End descriptors.


(** *** A system that keeps track of descriptors and of the bytes behind them *)

(** Every call succeeds; a socket echoes nothing and receives what is in [p_in]. *)
Record sim := Sim { sim_open : gset Z; sim_in : gmap Z (list ascii); sim_out : gmap Z (list ascii) }.
Definition sim_fresh (k : sim) : Z * sim :=
  let fd := 1 + foldr Z.max 2 (elements (sim_open k)) in (fd, Sim ({[fd]} ∪ sim_open k) (sim_in k) (sim_out k)).
Definition sim_ok {A} (a : A) (k : sim) : A * sim := (a, k).
Definition sim_recv (fd n fl : Z) (k : sim) : Z * list ascii * sim :=
  let bs := default [] (sim_in k !! fd) in
  let m := (Z.to_nat (n `min` 0x7ffff000) `min` length bs)%nat in
  (Z.of_nat m, take m bs, Sim (sim_open k) (<[fd := drop m bs]> (sim_in k)) (sim_out k)).
Definition sim_send (fd : Z) (bs : list ascii) (fl : Z) (k : sim) : Z * sim :=
  let m := (Z.to_nat 0x7ffff000 `min` length bs)%nat in
  (Z.of_nat m, Sim (sim_open k) (sim_in k)
     (<[fd := default [] (sim_out k !! fd) ++ take m bs]> (sim_out k))).
(** 127.0.0.1, port 8080 *)
Definition sim_name : list ascii := z2b <$> [2; 0; 31; 144; 127; 0; 0; 1; 0; 0; 0; 0; 0; 0; 0; 0].

#[global] Instance sim_sys : Sys sim := {
  k_socket _ _ _ := sim_fresh; k_accept _ := sim_fresh;
  k_bind _ _ _ := sim_ok 0; k_connect _ _ _ := sim_ok 0; k_connect_with_timeout _ _ _ _ := sim_ok 0;
  k_listen _ _ := sim_ok 0;
  k_close fd k := (0, Sim (sim_open k ∖ {[fd]}) (sim_in k) (sim_out k));
  k_send := sim_send; k_recv := sim_recv;
  k_sendto _ bs _ _ _ := sim_ok (Z.of_nat (length bs)); k_recvfrom _ _ _ _ := sim_ok (0, [], []);
  k_getpeername _ _ := Some (sim_name, 16); k_getsockname _ _ := Some (sim_name, 16);
  k_getsockopt _ _ _ _ := Some 0; k_setsockopt _ _ _ _ := sim_ok 0; k_errno _ := 0;
  k_unlink _ := sim_ok 0;
  k_fdctx fd _ := Some (FdManager.MkCtx true true true false false fd (2 ^ 64 - 1) (2 ^ 64 - 1));
  k_cancelEvent _ _ := sim_ok true; k_cancelAll _ := sim_ok true;
  SSL_CTX_new _ := sim_ok (Some 1); SSL_new _ := sim_ok (Some 1); SSL_set_fd _ _ := sim_ok 1;
  SSL_connect _ := sim_ok 1; SSL_accept _ := sim_ok 1;
  SSL_read _ _ := sim_ok (0, []); SSL_write _ bs := sim_ok (Z.of_nat (length bs));
  SSL_CTX_use_certificate_chain_file _ _ := sim_ok 1; SSL_CTX_use_PrivateKey_file _ _ := sim_ok 1;
  SSL_CTX_check_private_key _ := sim_ok 1;
}.

Lemma foldr_max_le (l : list Z) : 2 ≤ foldr Z.max 2 l ∧ ∀ x, x ∈ l → x ≤ foldr Z.max 2 l.
Proof.
  induction l as [|y l [IH1 IH2]]; cbn; [split; [lia|by intros x ?%not_elem_of_nil]|].
  split; [lia|]. intros x [-> |Hx]%elem_of_cons; [lia|]. specialize (IH2 x Hx). lia.
Qed.
Lemma sim_fresh_law k : let r := sim_fresh k in
  (r.1 = -1 ∧ sim_open r.2 = sim_open k) ∨
  (r.1 ≠ -1 ∧ (r.1 ∉ sim_open k) ∧ sim_open r.2 = ({[r.1]} ∪ sim_open k)).
Proof.
  right. unfold sim_fresh. cbn [fst snd sim_open].
  destruct (foldr_max_le (elements (sim_open k))) as [H1 H2]. split_and!; [lia| |done].
  intros Hin%elem_of_elements%H2. lia.
Qed.

#[global, refine] Instance sim_laws : SysLaws sim := { opened := sim_open }.
Proof. all: try done; try (intros; apply sim_fresh_law). Defined.

(** C14. Descriptors are owned.  However a program creates, connects, binds,
    accepts, uses, closes and destroys sockets, every descriptor a socket object
    holds is open and is held by no other object, no socket ever closes a
    descriptor the program opened for something else, and every open descriptor
    is the program's own, some object's, or one of those [accept] obtained and
    then returned null for. *)
Theorem descriptors_owned {K} `{SysLaws K} (k : K) w :
  rtc step (World ∅ k ∅) w → accounted (opened k) w.
Proof.
  intros Hr. assert (accounted (opened k) (World ∅ k ∅)) as Hi.
  { split; cbn [objs sysk lost]; [by intros ??|by intros ?????|by intros ??|set_solver|].
    intros fd Hfd. left. set_solver. }
  revert Hi. induction Hr as [|w1 w2 w3 Hs _ IH]; [done|]. intros Hi. eauto using step_accounted.
Qed.

Definition boot : sim := Sim {[0; 1; 2]} ∅ ∅.
Definition peer : Address := IPV4Address (new_IPV4 0x7F000001 8080).

(** A socket that has connected. *)
Definition demo_connected : t * sim :=
  match run_op (Connect peer max_timeout) (CreateTCP peer, boot) with
  | Ret _ p => p
  | _ => (CreateTCP peer, boot)
  end.

Lemma demo_runs :
  run_op (Connect peer max_timeout) (CreateTCP peer, boot) = Ret tt (demo_connected.1, demo_connected.2).
Proof. by vm_compute. Qed.

Lemma descriptors_owned_witness :
  m_isConnected demo_connected.1 = true ∧
  accounted (opened boot) (World {[ 0%nat := demo_connected.1 ]} demo_connected.2 ∅).
Proof.
  split; [done|]. apply (descriptors_owned boot).
  set (w1 := World {[ 0%nat := CreateTCP peer ]} boot ∅).
  apply (rtc_l step _ w1); [exact (Step_new (World ∅ boot ∅) 0%nat (CreateTCP peer) eq_refl eq_refl)|].
  apply rtc_once.
  pose proof (Step_op w1 0%nat (CreateTCP peer) (Connect peer max_timeout) demo_connected.1 demo_connected.2
    (lookup_singleton_eq _ _) demo_runs) as Hs.
  unfold w1 in Hs at 2. cbn [objs lost] in Hs. by rewrite insert_singleton_eq in Hs.
Defined.

(** Connecting.  [connect] of a plain socket always returns.  It says true only
    with a descriptor that is open and a peer of the socket's own family; it says
    false when the families differ, leaving the connection state as it was, and
    otherwise with the object closed and no descriptor left behind. *)
Theorem connect_correct {K} `{SysLaws K} addr timeout_ms s (k : K) :
  ssl s = false → owned s ⊆ opened k → (m_isConnected s = true → m_sock s ≠ -1) →
  ∃ ok s' k', connect addr timeout_ms (s, k) = Ret ok (s', k') ∧
    m_remoteAddress s' = Some addr ∧ opened k' ∖ owned s' = opened k ∖ owned s ∧
    if ok then m_isConnected s' = true ∧ m_sock s' ≠ -1 ∧ m_sock s' ∈ opened k' ∧ getFamily addr = m_family s
    else m_sock s' = -1 ∧ m_isConnected s' = false ∨
         getFamily addr ≠ m_family s ∧ m_isConnected s' = m_isConnected s.
Proof.
  intros Hssl Ho Hc.
  destruct (wp_runs _ _ _ _ (connect_plain_spec addr timeout_ms s k Ho) (connect_plain_defined addr timeout_ms))
    as (ok & s' & k' & Hr & [[Hs' Ef] Hrem Hyes Hno] & _).
  exists ok, s', k'. split.
  - unfold connect. rewrite (bind_Ret _ _ (s, k) s (s, k)) by done. rewrite Hssl. cbn [andb].
    by rewrite (bind_Ret _ _ _ _ _ Hr).
  - split_and!; [done|done|]. destruct ok; [|by apply Hno].
    destruct (Hyes eq_refl) as (H1 & H2 & H3). split_and!; [done|done| |done].
    apply Hs'. unfold owned. rewrite (proj2 (Z.eqb_neq _ _) H2). by apply elem_of_singleton.
Qed.

Lemma connect_correct_witness :
  ∃ ok s' k', connect peer 100 (CreateTCP peer, boot) = Ret ok (s', k') ∧
    m_remoteAddress s' = Some peer ∧ opened k' ∖ owned s' = opened boot ∖ owned (CreateTCP peer) ∧
    if ok : bool then m_isConnected s' = true ∧ m_sock s' ≠ -1 ∧ m_sock s' ∈ opened k' ∧ getFamily peer = AF_INET
    else m_sock s' = -1 ∧ m_isConnected s' = false ∨
         getFamily peer ≠ AF_INET ∧ m_isConnected s' = false.
Proof.
  apply (connect_correct peer 100 (CreateTCP peer) boot); [done|by apply owned_none|done].
Defined.

(** *** The cached local address *)

(** The local address goes stale.  [close] keeps the cached local address and
    [connect] does not look it up again, so a socket that is closed and connected
    elsewhere reports the address of its old connection. *)
Theorem stale_local_address {K} `{SysLaws K} addr timeout_ms a s (k : K) :
  ssl s = false → owned s ⊆ opened k → m_localAddress s = Some a →
  ∃ ok s' k', (close ;! connect addr timeout_ms) (s, k) = Ret ok (s', k') ∧
    getLocalAddress (s', k') = Ret a (s', k').
Proof.
  intros Hssl Ho Ha.
  destruct (wp_runs _ _ _ _ (close_frame s k Ho) close_defined)
    as (b & s1 & k1 & Hr1 & [[Hs1 _] _ _ Hssl1 Hl _]).
  destruct (wp_runs _ _ _ _ (connect_plain_spec addr timeout_ms s1 k1 Hs1) (connect_plain_defined addr timeout_ms))
    as (ok & s2 & k2 & Hr2 & _ & Hst). exists ok, s2, k2. split.
  - rewrite (bind_Ret _ _ _ _ _ Hr1). unfold connect.
    rewrite (bind_Ret _ _ (s1, k1) s1 (s1, k1)) by done. rewrite (bind_Ret _ _ _ _ _ Hr2).
    by rewrite Hssl1, Hssl.
  - unfold getLocalAddress. rewrite (bind_Ret _ _ (s2, k2) s2 (s2, k2)) by done.
    rewrite Hst; [|rewrite Hl, Ha; by eexists]. by rewrite Hl, Ha.
Qed.

Lemma demo_owned : owned demo_connected.1 ⊆ opened demo_connected.2.
Proof. apply (bool_decide_eq_true (owned demo_connected.1 ⊆ opened demo_connected.2)). by vm_compute. Qed.

Lemma stale_local_address_witness :
  let a := IPV4Address (read_in sim_name) in
  ∃ ok s' k',
    (close ;! connect (IPV4Address (new_IPV4 0x0A000001 9)) max_timeout)
      (demo_connected.1, demo_connected.2) = Ret ok (s', k') ∧
    getLocalAddress (s', k') = Ret a (s', k').
Proof.
  apply (stale_local_address (IPV4Address (new_IPV4 0x0A000001 9)) max_timeout);
    [by vm_compute|apply demo_owned|by vm_compute].
Defined.

(** *** Sockets carry streams *)

(** What the manual pages say of bytes: [recv] takes from what the peer sent,
    [send] appends to what it gets, and one call moves at most 0x7ffff000 bytes. *)
Class SysBytes (K : Type) `{Sys K} := {
  b_in : Z → K → list ascii;
  b_out : Z → K → list ascii;
  recv_bytes fd n k : 0 < n → let '(rt, bs, k') := k_recv fd n 0 k in
    -1 ≤ rt ≤ n ∧ rt ≤ 0x7ffff000 ∧ length bs = Z.to_nat rt ∧ b_in fd k = bs ++ b_in fd k' ∧
    b_out fd k' = b_out fd k;
  send_bytes fd bs k : bs ≠ [] → let '(rt, k') := k_send fd bs 0 k in
    -1 ≤ rt ≤ Z.of_nat (length bs) ∧ rt ≤ 0x7ffff000 ∧ b_in fd k' = b_in fd k ∧
    b_out fd k' = b_out fd k ++ take (Z.to_nat rt) bs;
}.

Section net.
Context {K : Type} `{Sys K}.

(** A plain socket and the system below it, as the network of a [SocketStream]. *)
#[global] Instance socket_net : Net (t * K) := {
  Stream.isConnected '(s, k) := m_isConnected s;
  sys_recv n '(s, k) := let '(rt, bs, k) := k_recv (m_sock s) n 0 k in (swrap 32 rt, bs, (s, k));
  sys_send bs '(s, k) := let '(rt, k) := k_send (m_sock s) bs 0 k in (swrap 32 rt, (s, k));
  sys_close '(s, k) := match close (s, k) with Ret _ p | Throw _ p => p | UB => (s, k) end;
}.

(** The calls of Stream.v on that network are the calls of the object. *)
Lemma recv_is_recv n s k : ssl s = false →
  recv n 0 (s, k) = let '(rt, bs, p) := Stream.Socket.recv n (s, k) in Ret (rt, bs) p.
Proof.
  intros Hs. unfold recv. rewrite (bind_Ret _ _ (s, k) s (s, k)) by done. rewrite Hs.
  unfold recv_plain. rewrite (bind_Ret _ _ (s, k) s (s, k)) by done.
  unfold Stream.Socket.recv, isConnected. cbn. destruct (m_isConnected s); [|done].
  unfold Effect.bind, call. by destruct (k_recv _ _ _ k) as [[rt bs] k'].
Qed.
Lemma send_is_send bs s k : ssl s = false →
  send bs 0 (s, k) = let '(rt, p) := Stream.Socket.send bs (s, k) in Ret rt p.
Proof.
  intros Hs. unfold send. rewrite (bind_Ret _ _ (s, k) s (s, k)) by done. rewrite Hs.
  unfold send_plain. rewrite (bind_Ret _ _ (s, k) s (s, k)) by done.
  unfold Stream.Socket.send, isConnected. cbn. destruct (m_isConnected s); [|done].
  unfold Effect.bind, call. by destruct (k_send _ _ _ k) as [rt k'].
Qed.
End net.

#[global, refine] Instance socket_net_laws {K} `{SysBytes K} : NetLaws (t * K) := {
  n_incoming '(s, k) := b_in (m_sock s) k;
  n_outgoing '(s, k) := b_out (m_sock s) k;
}.
Proof.
  - intros len [s k] rt bs [s' k'] Hlen Hr. cbn in Hr. pose proof (recv_bytes (m_sock s) len k Hlen) as Hl.
    destruct (k_recv _ _ _ k) as [[rt0 bs0] k0]. destruct Hl as (H1 & H2 & H3 & H4 & H5).
    rewrite swrap_small in Hr by (unfold in_s; lia). injection Hr as <- <- <- <-. split_and!; [lia|done..].
  - intros bs [s k] rt [s' k'] Hbs Hr. cbn in Hr. pose proof (send_bytes (m_sock s) bs k Hbs) as Hl.
    destruct (k_send _ _ _ k) as [rt0 k0]. destruct Hl as (H1 & H2 & H3 & H4).
    rewrite swrap_small in Hr by (unfold in_s; lia). injection Hr as <- <- <-. split_and!; [lia|done..].
Defined.

#[global, refine] Instance sim_bytes : SysBytes sim := {
  b_in fd k := default [] (sim_in k !! fd);
  b_out fd k := default [] (sim_out k !! fd);
}.
Proof.
  - intros fd n k Hn. cbn [k_recv sim_sys]. unfold sim_recv. cbn [sim_in sim_out].
    rewrite lookup_insert_eq. cbn [default from_option]. unfold id. rewrite take_drop, length_take.
    split_and!; [lia|lia|lia|lia|done|done].
  - intros fd bs k Hbs. cbn [k_send sim_sys]. unfold sim_send. cbn [sim_in sim_out].
    rewrite lookup_insert_eq. cbn [default from_option]. unfold id. rewrite Nat2Z.id.
    split_and!; [lia|lia|lia|done|done].
Defined.

(** *** Timeouts *)

(** The descriptor table gets back the milliseconds [setRecvTimeout] was given. *)
Lemma timeval_back v : 0 ≤ v < 2 ^ 31 * 1000 →
  match timeval_of v with [s; us] => Hook.timeval_ms s us = v | _ => False end.
Proof.
  intros Hv. unfold timeval_of, Hook.timeval_ms.
  rewrite Z.quot_div_nonneg, Z.rem_mod_nonneg by lia.
  pose proof (Z.div_mod v 1000 ltac:(lia)). pose proof (Z.mod_pos_bound v 1000 ltac:(lia)).
  assert (0 ≤ v / 1000 < 2 ^ 31) by (split; [apply Z.div_pos; lia|apply Z.div_lt_upper_bound; lia]).
  rewrite !swrap_small by (unfold in_s; rewrite ?swrap_small; unfold in_s; lia).
  rewrite Z.quot_div_nonneg, Z.div_mul by lia. rewrite wrap_small by (unfold in_u; lia). lia.
Qed.

End Sockets.
