(* ===== verification/Tcpserver.v ===== *)
(** * Tcpserver: listening, accepting, stopping (src/bobliew/tcp_server.{h,cc})

    A server keeps shared pointers to its listening sockets; the accept loops it
    schedules on its accept worker keep some too.  [heap] holds the socket objects
    by name, [tasks] the closures the accept worker has (scheduled or running), and
    [clients] the connections handed to [handleClient] on the I/O worker; an object
    is destroyed when the last of these pointers to it is gone.

    [bind_all_or_nothing]: a bind that fails leaves no descriptor open.
    [restart_is_lost]: a server started again before its stop has run stays closed.
    [conf_eq_irreflexive]: the comparison of configurations. *)
From S2P Require Import Prelude Endian Bytearray Iovec Stream Util Httpmap Http Fdmanager Hook Address Sockets.
Import StdString Address.
#[local] Open Scope list_scope.
#[local] Open Scope Z_scope.
#[local] Set Warnings "-clear-no-such-hyp".

Module TcpServer.
Import Sockets.

(** ** Configuration *)

Record TcpServerConf := Conf {
  address : list (list ascii);
  keepalive : Z;
  timeout : Z;
  conf_ssl : Z;
  id : list ascii;
  type : list ascii;
  name : list ascii;
  cert_file : list ascii;
  key_file : list ascii;
  accept_worker : list ascii;
  io_worker : list ascii;
  process_worker : list ascii;
  args : list (list ascii * list ascii);
}.

Definition conf_isValid (c : TcpServerConf) : bool := negb (bool_decide (address c = [])).

Definition conf_eq (c oth : TcpServerConf) : bool :=
  bool_decide (address c = address oth)
  && (keepalive c =? keepalive oth)
  && (timeout c =? timeout oth)
  && bool_decide (name c = name oth)
  && (conf_ssl c =? conf_ssl oth)
  && bool_decide (cert_file c = cert_file oth)
  && bool_decide (key_file c = key_file oth)
  && bool_decide (accept_worker c = io_worker oth)
  && bool_decide (process_worker c = process_worker oth)
  && bool_decide (args c = args oth)
  && bool_decide (id c = id oth)
  && bool_decide (type c = type oth).

(** Configurations are not equal to themselves.  [operator==] compares the
    accept worker of one side with the I/O worker of the other: a configuration
    with different ones is not equal to itself, and two that differ in their
    accept workers can be. *)
Theorem conf_eq_irreflexive c : conf_eq c c = true ↔ accept_worker c = io_worker c.
Proof.
  unfold conf_eq. rewrite !andb_true_iff, !bool_decide_eq_true, !Z.eqb_eq. tauto.
Qed.

(** ** The server *)

Inductive task := StartAccept (sock : nat) | StopSocks.
#[export] Instance task_eq_dec : EqDecision task.
Proof. solve_decision. Defined.

Record server (K : Type) := Server {
  m_socks : list nat;
  m_isStop : bool;
  m_ssl : bool;
  m_recvTimeout : Z;
  heap : gmap nat t;
  next : nat;
  tasks : list task;
  clients : list nat;
  sysk : K;
}.
#[global] Arguments Server {K}.
#[global] Arguments m_socks {K}.
#[global] Arguments m_isStop {K}.
#[global] Arguments m_ssl {K}.
#[global] Arguments m_recvTimeout {K}.
#[global] Arguments heap {K}.
#[global] Arguments next {K}.
#[global] Arguments tasks {K}.
#[global] Arguments clients {K}.
#[global] Arguments sysk {K}.

Section operations.
Context {K : Type} `{Sys K}.

Definition set_socks (v : list nat) (s : server K) : server K :=
  Server v (m_isStop s) (m_ssl s) (m_recvTimeout s) (heap s) (next s) (tasks s) (clients s) (sysk s).
Definition set_isStop (v : bool) (s : server K) : server K :=
  Server (m_socks s) v (m_ssl s) (m_recvTimeout s) (heap s) (next s) (tasks s) (clients s) (sysk s).
Definition set_ssl_flag (v : bool) (s : server K) : server K :=
  Server (m_socks s) (m_isStop s) v (m_recvTimeout s) (heap s) (next s) (tasks s) (clients s) (sysk s).
Definition set_heap (v : gmap nat t) (s : server K) : server K :=
  Server (m_socks s) (m_isStop s) (m_ssl s) (m_recvTimeout s) v (next s) (tasks s) (clients s) (sysk s).
Definition set_next (v : nat) (s : server K) : server K :=
  Server (m_socks s) (m_isStop s) (m_ssl s) (m_recvTimeout s) (heap s) v (tasks s) (clients s) (sysk s).
Definition set_tasks (v : list task) (s : server K) : server K :=
  Server (m_socks s) (m_isStop s) (m_ssl s) (m_recvTimeout s) (heap s) (next s) v (clients s) (sysk s).
Definition set_clients (v : list nat) (s : server K) : server K :=
  Server (m_socks s) (m_isStop s) (m_ssl s) (m_recvTimeout s) (heap s) (next s) (tasks s) v (sysk s).
Definition set_sysk (v : K) (s : server K) : server K :=
  Server (m_socks s) (m_isStop s) (m_ssl s) (m_recvTimeout s) (heap s) (next s) (tasks s) (clients s) v.

(** The constructor: stopped, with the configured read timeout. *)
Definition new_server (read_timeout : Z) (k : K) : server K :=
  Server [] true false read_timeout ∅ 0 [] [] k.

Definition modify (f : server K → server K) : M (server K) unit := λ s, Ret tt (f s).

(** A new object; a call on an object; its destruction. *)
Definition alloc (o : t) : M (server K) nat := λ s,
  Ret (next s) (set_next (S (next s)) (set_heap (<[next s := o]> (heap s)) s)).
Definition on_sock {A} (i : nat) (m : M (t * K) A) : M (server K) A := λ s,
  match heap s !! i with
  | None => UB
  | Some o =>
      match m (o, sysk s) with
      | Ret a (o, k) => Ret a (set_sysk k (set_heap (<[i := o]> (heap s)) s))
      | Throw e (o, k) => Throw e (set_sysk k (set_heap (<[i := o]> (heap s)) s))
      | UB => UB
      end
  end.
Definition delete_sock (i : nat) : M (server K) unit :=
  on_sock i destroy ;! modify (λ s, set_heap (delete i (heap s)) s).

Definition held (i : nat) (s : server K) : bool :=
  bool_decide (i ∈ m_socks s) || bool_decide (StartAccept i ∈ tasks s) || bool_decide (i ∈ clients s).
(** A pointer to [i] has gone. *)
Definition release (i : nat) : M (server K) unit :=
  let! s := get in if held i s then ret tt else delete_sock i.
Fixpoint release_all (ids : list nat) : M (server K) unit :=
  match ids with [] => ret tt | i :: ids => release i ;! release_all ids end.

(** [m_socks.clear()] *)
Definition clear_socks : M (server K) unit :=
  let! s := get in modify (set_socks []) ;! release_all (m_socks s).

Fixpoint close_all (ids : list nat) : M (server K) unit :=
  match ids with [] => ret tt | i :: ids => on_sock i Sockets.close ;! close_all ids end.

(** One round of the loop in [bind]: whether the address failed. *)
Definition bind_one (ssl : bool) (addr : Address) : M (server K) bool :=
  let! sock := alloc (if ssl then SSL_CreateTCP addr else CreateTCP addr) in
  let! b := on_sock sock (Sockets.bind addr) in
  if negb b then delete_sock sock ;! ret true
  else
    let! l := on_sock sock (Sockets.listen SOMAXCONN) in
    if negb l then delete_sock sock ;! ret true
    else modify (λ s, set_socks (m_socks s ++ [sock]) s) ;! ret false.

Fixpoint bind_loop (ssl : bool) (addrs fails : list Address) : M (server K) (list Address) :=
  match addrs with
  | [] => ret fails
  | addr :: addrs =>
      let! failed := bind_one ssl addr in
      bind_loop ssl addrs (if failed then fails ++ [addr] else fails)
  end.

(** [bind(addrs, fails, ssl)]: the result and [fails] afterwards. *)
Definition bind_addrs (addrs fails : list Address) (ssl : bool) : M (server K) (bool * list Address) :=
  modify (set_ssl_flag ssl) ;!
  let! fails := bind_loop ssl addrs fails in
  match fails with
  | [] => ret (true, fails)
  | _ => clear_socks ;! ret (false, fails)
  end.
Definition bind_addr (addr : Address) (ssl : bool) : M (server K) bool :=
  let! r := bind_addrs [addr] [] ssl in ret r.1.

(** One round of [startAccept]; [false] when the loop ends. *)
Definition accept_round (sock : nat) : M (server K) bool :=
  let! s := get in
  if m_isStop s then ret false
  else
    let! client := on_sock sock Sockets.accept in
    match client with
    | Some c =>
        let! i := alloc c in
        on_sock i (Sockets.setRecvTimeout (swrap 64 (m_recvTimeout s))) ;!
        modify (λ s, set_clients (clients s ++ [i]) s) ;! ret true
    | None => ret true
    end.

Definition start : M (server K) bool :=
  let! s := get in
  if negb (m_isStop s) then ret true
  else
    modify (set_isStop false) ;!
    modify (λ s, set_tasks (tasks s ++ (StartAccept <$> m_socks s)) s) ;! ret true.

Definition stop : M (server K) unit :=
  modify (set_isStop true) ;! modify (λ s, set_tasks (tasks s ++ [StopSocks]) s).

(** The closure [stop] schedules. *)
Fixpoint cancel_and_close (ids : list nat) : M (server K) unit :=
  match ids with
  | [] => ret tt
  | i :: ids => on_sock i cancelAll ;! on_sock i Sockets.close ;! cancel_and_close ids
  end.
Definition stop_socks : M (server K) unit :=
  let! s := get in cancel_and_close (m_socks s) ;! clear_socks.

(** [~TcpServer] *)
Definition destroy_server : M (server K) unit :=
  let! s := get in close_all (m_socks s) ;! clear_socks.

Fixpoint load_all (ids : list nat) (cert key : list ascii) : M (server K) bool :=
  match ids with
  | [] => ret true
  | i :: ids =>
      let! s := get in
      match heap s !! i with
      | None => ub
      | Some o =>
          if ssl o then
            let! b := on_sock i (Sockets.loadCertificates cert key) in
            if negb b then ret false else load_all ids cert key
          else load_all ids cert key
      end
  end.
Definition loadCertificates (cert key : list ascii) : M (server K) bool :=
  let! s := get in load_all (m_socks s) cert key.

End operations.

(** ** A server that has not been started *)

Section laws.
Context {K : Type} `{SysLaws K} (base L : gset Z).

(** Its objects are its listening sockets, and the descriptors are accounted for. *)
Record idle (s : server K) : Prop := Idle {
  id_acc : accounted base (World (heap s) (sysk s) L);
  id_heap i : is_Some (heap s !! i) ↔ i ∈ m_socks s;
  id_next i : i ∈ m_socks s → (i < next s)%nat;
  id_nodup : NoDup (m_socks s);
  id_tasks : tasks s = [];
  id_clients : clients s = [];
}.

Lemma on_sock_run {A} (m : M (t * K) A) i o s (P : A → t → Prop) :
  accounted base (World (heap s) (sysk s) L) → heap s !! i = Some o → defined m →
  wp m (λ a o' k', frame o (sysk s) o' k' ∧ P a o') o (sysk s) →
  ∃ a o' k', on_sock i m s = Ret a (set_sysk k' (set_heap (<[i := o']> (heap s)) s)) ∧
    accounted base (World (<[i := o']> (heap s)) k' L) ∧ P a o' ∧ m (o, sysk s) = Ret a (o', k').
Proof.
  intros Hacc Ho Hd Hw. destruct (wp_runs _ _ _ _ Hw Hd) as (a & o' & k' & Hr & F & HP).
  exists a, o', k'. split; [unfold on_sock; by rewrite Ho, Hr|]. split; [|done].
  exact (accounted_frame base (World (heap s) (sysk s) L) i o o' k' Hacc Ho F).
Qed.

Lemma destroy_defined : defined (K:=K) destroy.
Proof. unfold destroy. apply defined_bind; [apply close_defined|]. intros _. apply defined_ret. Qed.

Lemma delete_run i o s :
  accounted base (World (heap s) (sysk s) L) → heap s !! i = Some o →
  ∃ k', delete_sock i s = Ret tt (set_sysk k' (set_heap (delete i (heap s)) s)) ∧
    accounted base (World (delete i (heap s)) k' L) ∧ ∃ o', destroy (o, sysk s) = Ret tt (o', k').
Proof.
  intros Hacc Ho.
  destruct (wp_runs _ _ _ _ (destroy_closes o (sysk s) (acc_open _ _ Hacc i o Ho)) destroy_defined)
    as ([] & o' & k' & Hr & _).
  exists k'. split; [|split; [exact (accounted_destroy base (World (heap s) (sysk s) L) i o o' k' Hacc Ho Hr)|by exists o']].
  unfold delete_sock, on_sock, Effect.bind, modify. rewrite Ho, Hr. unfold set_heap, set_sysk. cbn.
  by rewrite delete_insert_eq.
Qed.

(** What becomes of one address when the system is in the state [k]: a new socket
    that could be bound to it and listens, or one that failed at either and is
    destroyed again. *)
Definition fresh (ssl : bool) (addr : Address) : t := if ssl then SSL_CreateTCP addr else CreateTCP addr.

Inductive attempt (ssl : bool) (addr : Address) (k : K) : option t → K → Prop :=
| attempt_ok o1 k1 o k' : Sockets.bind addr (fresh ssl addr, k) = Ret true (o1, k1) →
    Sockets.listen SOMAXCONN (o1, k1) = Ret true (o, k') → attempt ssl addr k (Some o) k'
| attempt_bind o1 k1 o k' : Sockets.bind addr (fresh ssl addr, k) = Ret false (o1, k1) →
    destroy (o1, k1) = Ret tt (o, k') → attempt ssl addr k None k'
| attempt_listen o1 k1 o2 k2 o k' : Sockets.bind addr (fresh ssl addr, k) = Ret true (o1, k1) →
    Sockets.listen SOMAXCONN (o1, k1) = Ret false (o2, k2) →
    destroy (o2, k2) = Ret tt (o, k') → attempt ssl addr k None k'.

(** One address after the other. *)
Inductive attempts (ssl : bool) : K → list Address → list (option t) → K → Prop :=
| attempts_nil k : attempts ssl k [] [] k
| attempts_cons k addr r k1 addrs rs k2 : attempt ssl addr k r k1 → attempts ssl k1 addrs rs k2 →
    attempts ssl k (addr :: addrs) (r :: rs) k2.

(** The addresses that failed. *)
Fixpoint failed (addrs : list Address) (rs : list (option t)) : list Address :=
  match addrs, rs with
  | addr :: addrs, None :: rs => addr :: failed addrs rs
  | _ :: addrs, Some _ :: rs => failed addrs rs
  | _, _ => []
  end.

(** The system said yes to [bind(2)] of the descriptor of [o] to the bytes of the
    address, and to [listen(2)] on it. *)
Definition listens (addr : Address) (o : t) : Prop :=
  m_sock o ≠ -1 ∧ (∃ k, (k_bind (m_sock o) (bytes_of addr) (getAddrLen addr) k).1 = 0) ∧
  (∃ k, (k_listen (m_sock o) SOMAXCONN k).1 = 0).

Lemma bind_asks addr o k : owned o ⊆ opened k →
  wp (Sockets.bind addr) (λ b o' _, b = true → ∃ k, (k_bind (m_sock o') (bytes_of addr) (getAddrLen addr) k).1 = 0) o k.
Proof.
  unfold Sockets.bind. intros Ho. apply wp_bind, wp_this, wp_bind.
  apply (wp_mono _ _ _ _ _ (ensure_sock o k Ho)). intros _ s1 k1 (F1 & _ & _).
  apply wp_bind, wp_this. destruct (negb _); [by apply wp_ret|]. destruct (negb _); [by apply wp_ret|]. apply wp_bind.
  apply (wp_mono _ _ _ _ _ (probe_unix_keeps addr s1 k1)). intros taken s2 k2 ->.
  destruct taken; [by apply wp_ret|]. apply wp_bind. unfold call, wp at 1.
  destruct (k_bind _ _ _ k2) as [rt k3] eqn:Eb. destruct (Z.eqb_spec rt 0) as [->|]; cbn [negb]; [|by apply wp_ret].
  apply wp_result. apply (wp_mono _ _ _ _ _ (getLocalAddress_stable s1 k3)). intros _ s4 k4 [(_ & -> & _) _] _.
  exists k2. by rewrite Eb.
Qed.

Lemma listen_asks n o k :
  wp (Sockets.listen n) (λ b o' _, o' = o ∧ (b = true → ∃ k, (k_listen (m_sock o) n k).1 = 0)) o k.
Proof.
  unfold Sockets.listen. apply wp_bind, wp_this. destruct (negb _); [by apply wp_ret|]. apply wp_bind. unfold call, wp at 1.
  destruct (k_listen _ _ k) as [rt k3] eqn:Eb. apply wp_ret. split; [done|]. intros ->%Z.eqb_eq. exists k. by rewrite Eb.
Qed.

Lemma attempt_listens ssl addr k o k' : attempt ssl addr k (Some o) k' → listens addr o.
Proof.
  inversion 1 as [o1 k1 ? ? Hb Hl| |]; subst.
  assert (owned (fresh ssl addr) ⊆ opened k) as Ho by (apply owned_none; by destruct ssl).
  pose proof (bind_asks addr _ k Ho) as Hx1. pose proof (bind_spec addr _ k Ho) as Hx2. pose proof (listen_asks SOMAXCONN o1 k1) as Hx3.
  unfold wp in Hx1, Hx2, Hx3. rewrite Hb in Hx1, Hx2. rewrite Hl in Hx3. destruct Hx3 as [-> Hx3]. destruct Hx2 as [_ Hx2].
  split; [by apply Hx2|]. split; [by apply Hx1|by apply Hx3].
Qed.

Lemma Forall2_left {A B} (P : A → Prop) (R : A → B → Prop) l m :
  Forall P l → Forall2 R l m → Forall2 (λ x y, P x ∧ R x y) l m.
Proof. intros Hl. induction 1; constructor; inversion Hl; auto. Qed.

Lemma failed_none ssl k addrs rs k' : attempts ssl k addrs rs k' → failed addrs rs = [] → rs = Some <$> omap (λ r, r) rs.
Proof.
  induction 1 as [|k addr r k1 addrs rs k2 _ _ IH]; [done|]. destruct r as [o|]; cbn; [|done]. intros E. f_equal. by apply IH.
Qed.

Lemma attempts_listen ssl k addrs rs k' :
  attempts ssl k addrs rs k' → Forall2 (λ addr r, ∀ o, r = Some o → listens addr o) addrs rs.
Proof. induction 1; constructor; [|done]. intros o ->. by eapply attempt_listens. Qed.

Lemma bind_one_run ssl addr s :
  idle s → is_unix addr = false →
  ∃ failed s', bind_one ssl addr s = Ret failed s' ∧ idle s' ∧ heap s ⊆ heap s' ∧
    if failed : bool then m_socks s' = m_socks s ∧ attempt ssl addr (sysk s) None (sysk s')
    else m_socks s' = m_socks s ++ [next s] ∧ ∃ o, heap s' !! next s = Some o ∧ attempt ssl addr (sysk s) (Some o) (sysk s').
Proof.
  intros [Hacc Hheap Hnext Hnd Ht Hc] Hu. set (i := next s).
  assert (heap s !! i = None) as Hi.
  { destruct (heap s !! i) eqn:E; [|done]. specialize (Hnext i). rewrite <- Hheap, E in Hnext.
    specialize (Hnext ltac:(by eexists)). unfold i in Hnext. lia. }
  set (o := fresh ssl addr).
  assert (m_sock o = -1) as Hfd by (unfold o, fresh; by destruct ssl).
  pose proof (accounted_insert base (World (heap s) (sysk s) L) i o Hacc Hi Hfd) as H1.
  cbn [objs Sockets.sysk lost] in H1.
  unfold bind_one, alloc. fold (fresh ssl addr). fold o. rewrite (bind_Ret _ _ s i (set_next (S i) (set_heap (<[i := o]> (heap s)) s))) by done.
  set (s1 := set_next _ _).
  destruct (on_sock_run (Sockets.bind addr) i o s1 (λ b o', b = true → m_sock o' ≠ -1))
    as (b & o1 & k1 & Hr1 & H2 & Hb & Hm1); [done|apply lookup_insert_eq|by apply bind_defined| |].
  { by apply bind_spec, owned_none. }
  rewrite (bind_Ret _ _ _ _ _ Hr1). cbn [heap s1 set_next set_heap] in *. rewrite insert_insert_eq in *.
  set (s2 := set_sysk _ _).
  assert (∀ k', accounted base (World (delete i (<[i := o1]> (heap s))) k' L) → idle (set_sysk k' (set_heap (heap s) s2))) as Hback.
  { intros k' Ha. rewrite delete_insert_id in Ha by done. split; [done|done| |done..].
    intros j Hj. cbn. specialize (Hnext j Hj). unfold i. lia. }
  destruct b; cbn [negb].
  2:{ destruct (delete_run i o1 s2) as (k2 & Hr2 & H3 & o' & Hd); [done|apply lookup_insert_eq|].
      rewrite (bind_Ret _ _ _ _ _ Hr2). cbn [heap s2 set_sysk set_heap] in *. eexists true, _. split; [done|].
      split; [rewrite delete_insert_id by done; by apply Hback|]. cbn. rewrite delete_insert_id by done. split_and!; [done|done|]. by eapply attempt_bind. }
  destruct (on_sock_run (Sockets.listen SOMAXCONN) i o1 s2 (λ _ o', m_sock o' ≠ -1))
    as (l & o2 & k2 & Hr2 & H3 & Hl & Hm2); [done|apply lookup_insert_eq|apply listen_defined| |].
  { apply (wp_mono _ _ _ _ _ (wp_and _ _ _ _ _ (listen_framed SOMAXCONN o1 k1 (acc_open _ _ H2 i o1 (lookup_insert_eq _ _ _)))
      (listen_keeps_object SOMAXCONN o1 k1))). intros a s' k' [F ->]. split; [done|by apply Hb]. }
  rewrite (bind_Ret _ _ _ _ _ Hr2). cbn [heap s2 set_sysk set_heap] in *. rewrite insert_insert_eq in *.
  set (s3 := set_sysk _ _). destruct l; cbn [negb].
  - eexists false, _. split; [done|]. split; [|split; [|split; [done|]]].
    + split; [done| | | |done|done].
      * intros j. cbn. rewrite lookup_insert_is_Some, elem_of_app, list_elem_of_singleton, <- Hheap.
        destruct (decide (i = j)) as [->|]; [naive_solver|]. naive_solver.
      * intros j. cbn. rewrite elem_of_app, list_elem_of_singleton. intros [Hj| ->]; [specialize (Hnext j Hj)|]; lia.
      * cbn. apply NoDup_app. split_and!; [done| |apply NoDup_singleton].
        intros j Hj%Hnext ->%list_elem_of_singleton. unfold i in Hj. lia.
    + cbn. by apply insert_subseteq.
    + exists o2. cbn. rewrite lookup_insert_eq. split; [done|]. by eapply attempt_ok.
  - destruct (delete_run i o2 s3) as (k3 & Hr3 & H4 & o' & Hd); [done|apply lookup_insert_eq|].
    rewrite (bind_Ret _ _ _ _ _ Hr3). cbn [heap s3 set_sysk set_heap] in *. rewrite delete_insert_id in * by done.
    eexists true, _. split; [done|]. split; [|split_and!; [done|done|by eapply attempt_listen]]. split; [done|done| |done..].
    intros j Hj. cbn. specialize (Hnext j Hj). unfold i. lia.
Qed.

Lemma bind_loop_run ssl addrs fails s :
  idle s → forallb (negb ∘ is_unix) addrs = true →
  ∃ rs s' new, bind_loop ssl addrs fails s = Ret (fails ++ failed addrs rs) s' ∧ idle s' ∧ heap s ⊆ heap s' ∧
    m_socks s' = m_socks s ++ new ∧ attempts ssl (sysk s) addrs rs (sysk s') ∧
    Forall2 (λ o i, heap s' !! i = Some o) (omap (λ r, r) rs) new.
Proof.
  revert fails s. induction addrs as [|addr addrs IH]; intros fails s Hs Hu.
  { exists [], s, []. rewrite !app_nil_r. split_and!; try done; constructor. }
  cbn [forallb] in Hu. apply andb_prop in Hu as [Hu1 Hu2]. cbn in Hu1. apply negb_true_iff in Hu1.
  destruct (bind_one_run ssl addr s Hs Hu1) as (bad & s1 & Hr & Hs1 & Hsub & Hres).
  cbn [bind_loop]. rewrite (bind_Ret _ _ _ _ _ Hr).
  destruct (IH (if bad then fails ++ [addr] else fails) s1 Hs1 Hu2)
    as (rs & s' & new & Hr' & Hs' & Hsub' & Hm & Hat & Hnew). rewrite Hr'. destruct bad.
  - destruct Hres as [Hm1 Ha]. exists (None :: rs), s', new. cbn [failed omap list_omap]. rewrite <- (assoc_L (++)). rewrite Hm, Hm1.
    split_and!; try done; [by etrans|by econstructor].
  - destruct Hres as [Hm1 (o & Ho & Ha)]. exists (Some o :: rs), s', (next s :: new). cbn [failed omap list_omap].
    rewrite Hm, Hm1, <- (assoc_L (++)). split_and!; try done; [by etrans|by econstructor|].
    constructor; [|done]. by apply (lookup_weaken _ _ _ _ Ho).
Qed.

Lemma release_all_run ids s :
  accounted base (World (heap s) (sysk s) L) → (∀ i, is_Some (heap s !! i) ↔ i ∈ ids) → NoDup ids →
  m_socks s = [] → tasks s = [] → clients s = [] →
  ∃ s', release_all ids s = Ret tt s' ∧ heap s' = ∅ ∧ m_socks s' = [] ∧
    tasks s' = [] ∧ clients s' = [] ∧ accounted base (World ∅ (sysk s') L).
Proof.
  revert s. induction ids as [|i ids IH]; intros s Hacc Hdom Hnd Hm Ht Hc.
  { assert (heap s = ∅) as E.
    { apply map_empty. intros i. apply eq_None_not_Some. rewrite Hdom. apply not_elem_of_nil. }
    exists s. rewrite E in Hacc. done. }
  destruct (proj2 (Hdom i)) as [o Ho]; [apply elem_of_cons; by left|].
  destruct (delete_run i o s Hacc Ho) as (k' & Hr & Hacc' & _). apply NoDup_cons in Hnd as [Hni Hnd].
  cbn [release_all]. unfold release. unfold Effect.bind at 1. rewrite bind_get. unfold held. rewrite Hm, Ht, Hc.
  rewrite !bool_decide_false by apply not_elem_of_nil. cbn [orb]. rewrite Hr.
  apply IH; try done. intros j. cbn. rewrite lookup_delete_is_Some, Hdom, elem_of_cons.
  split; [naive_solver|]. intros Hj. split; [|by right]. by intros ->.
Qed.

Lemma cancelAll_defined : defined (K:=K) cancelAll.
Proof. unfold cancelAll. apply defined_bind; [apply defined_this|]. intros s. apply defined_call. Qed.

(** The closure of [stop]: each socket ends without a descriptor. *)
Lemma cancel_and_close_run ids s :
  accounted base (World (heap s) (sysk s) L) → (∀ i, i ∈ ids → is_Some (heap s !! i)) →
  ∃ h' k', cancel_and_close ids s = Ret tt (set_sysk k' (set_heap h' s)) ∧
    accounted base (World h' k' L) ∧
    (∀ i, is_Some (h' !! i) ↔ is_Some (heap s !! i)) ∧
    (∀ i, i ∈ ids → ∃ o, h' !! i = Some o ∧ m_sock o = -1) ∧
    (∀ i o, heap s !! i = Some o → m_sock o = -1 → ∃ o', h' !! i = Some o' ∧ m_sock o' = -1).
Proof.
  revert s. induction ids as [|i ids IH]; intros s Hacc Hin.
  { exists (heap s), (sysk s). split_and!; [by destruct s|done|done|by intros i ?%not_elem_of_nil|eauto]. }
  destruct (Hin i) as [o Ho]; [apply elem_of_cons; by left|]. cbn [cancel_and_close].
  destruct (on_sock_run cancelAll i o s (λ _ _, True)) as (b & o1 & k1 & Hr1 & H1 & _ & _);
    [done|done|apply cancelAll_defined| |].
  { apply (wp_mono _ _ _ _ _ (cancelAll_framed o (sysk s) (acc_open _ _ Hacc i o Ho))). done. }
  rewrite (bind_Ret _ _ _ _ _ Hr1). set (s1 := set_sysk k1 _).
  destruct (on_sock_run close i o1 s1 (λ _ o', m_sock o' = -1)) as (b2 & o2 & k2 & Hr2 & H2 & Hc & _);
    [done|apply lookup_insert_eq|apply close_defined| |].
  { apply (wp_mono _ _ _ _ _ (close_frame o1 k1 (acc_open _ _ H1 i o1 (lookup_insert_eq _ _ _)))).
    by intros _ s' k' []. }
  rewrite (bind_Ret _ _ _ _ _ Hr2). cbn [heap s1 set_sysk set_heap] in *. rewrite insert_insert_eq in *.
  set (s2 := set_sysk k2 _).
  destruct (IH s2) as (h' & k' & Hr & Hacc' & Hdom & Hall & Hkeep); [done| |].
  { intros j Hj. cbn. rewrite lookup_insert_is_Some. destruct (decide (i = j)); [by left|right].
    split; [done|]. apply Hin, elem_of_cons. by right. }
  exists h', k'. split; [exact Hr|]. split; [done|]. cbn [heap s2 set_sysk set_heap] in *.
  assert (∃ o', h' !! i = Some o' ∧ m_sock o' = -1) as Hi by (apply (Hkeep i o2); [apply lookup_insert_eq|done]).
  split_and!.
  - intros j. rewrite Hdom, lookup_insert_is_Some. destruct (decide (i = j)) as [<-|]; [rewrite Ho|]; naive_solver.
  - intros j [-> |Hj]%elem_of_cons; [done|by apply Hall].
  - intros j p Hp Hs. destruct (decide (i = j)) as [<-|Hne]; [done|]. apply (Hkeep j p); [|done].
    by rewrite lookup_insert_ne.
Qed.

(** Sockets that accept loops still point to survive. *)
Lemma release_held ids (s : server K) :
  (∀ i, i ∈ ids → held i s = true) → release_all ids s = Ret tt s.
Proof.
  induction ids as [|i ids IH]; intros Hh; [done|]. cbn [release_all]. unfold release.
  unfold Effect.bind at 1. rewrite bind_get, (Hh i) by (apply elem_of_cons; by left). cbn [ret].
  apply IH. intros j Hj. apply Hh, elem_of_cons. by right.
Qed.

End laws.

(** C16. Binding is all or nothing.  [bind] of any Internet addresses on a server
    that has not been started returns.  It tries the addresses in order, each with a
    new socket, in the state the system was left in by the one before ([attempts]);
    [fails] is exactly the addresses whose socket could not be bound or could not
    listen.  When there are none it says true and has added one socket per address,
    in order, the one that was bound to that address and listens there
    ([listens]), each with an open descriptor; otherwise it says false and has closed
    everything: the server has no socket left and no descriptor stays open that was
    not open before the server had any. *)
Theorem bind_all_or_nothing {K} `{SysLaws K} base addrs ssl (s : server K) :
  idle base ∅ s → forallb (negb ∘ is_unix) addrs = true →
  ∃ rs k fails s', attempts ssl (sysk s) addrs rs k ∧ fails = failed addrs rs ∧
    bind_addrs addrs [] ssl s = Ret (bool_decide (fails = []), fails) s' ∧ idle base ∅ s' ∧
    if bool_decide (fails = []) then sysk s' = k ∧ ∃ os new, rs = Some <$> os ∧ m_socks s' = m_socks s ++ new ∧
      Forall2 listens addrs os ∧
      Forall2 (λ o i, heap s' !! i = Some o ∧ m_sock o ∈ opened (sysk s')) os new
    else m_socks s' = [] ∧ opened (sysk s') = base.
Proof.
  intros Hs Hu. unfold bind_addrs, modify. unfold Effect.bind at 1.
  assert (idle base ∅ (set_ssl_flag ssl s)) as Hs0 by (destruct Hs; by split).
  destruct (bind_loop_run base ∅ ssl addrs [] _ Hs0 Hu) as (rs & s1 & new & Hr & Hs1 & _ & Hm & Hat & Hnew).
  pose proof (attempts_listen _ _ _ _ _ Hat) as Hli. rewrite (bind_Ret _ _ _ _ _ Hr). cbn [app].
  destruct (failed addrs rs) as [|b bad] eqn:Ef.
  - exists rs, (sysk s1), [], s1. split_and!; [done|done|done|done|]. rewrite bool_decide_eq_true_2 by done. split; [done|].
    exists (omap (λ r, r) rs), new. assert (rs = Some <$> omap (λ r, r) rs) as Hrs by by eapply failed_none.
    split; [done|]. split; [done|]. split.
    + rewrite Hrs in Hli. apply Forall2_fmap_r in Hli. apply (Forall2_impl _ _ _ _ Hli). intros a o Ha. by apply Ha.
    + assert (Forall (λ o, m_sock o ≠ -1) (omap (λ r, r) rs)) as Hval.
      { rewrite Hrs in Hli. apply Forall2_fmap_r in Hli. eapply Forall2_Forall_r; [exact Hli|]. apply Forall_forall.
        intros a _ o Ha. by apply (Ha o). }
      apply (Forall2_impl _ _ _ _ (Forall2_left _ _ _ _ Hval Hnew)).
      intros o i [Hv Ho]. split; [done|].
      apply (acc_open _ _ (id_acc _ _ _ Hs1) i o Ho). unfold owned. rewrite (proj2 (Z.eqb_neq _ _) Hv). by apply elem_of_singleton.
  - unfold clear_socks. unfold Effect.bind at 1. rewrite bind_get. unfold modify. unfold Effect.bind at 1.
    destruct Hs1 as [Hacc Hheap Hnext Hnd Ht Hc].
    destruct (release_all_run base ∅ (m_socks s1) (set_socks [] s1)) as (s2 & Hr2 & Hh2 & Hm2 & Ht2 & Hc2 & Hacc2); try done.
    rewrite Hr2. exists rs, (sysk s1), (b :: bad), s2. split; [done|]. split; [done|]. rewrite bool_decide_eq_false_2 by done.
    split; [done|]. split.
    + rewrite <- Hh2 in Hacc2. split; try done; rewrite ?Hm2.
      * intros i. rewrite Hh2, lookup_empty. split; [by intros []|by intros ?%not_elem_of_nil].
      * by intros i ?%not_elem_of_nil.
      * constructor.
    + split_and!; [done|]. apply set_eq. intros fd. split.
      * intros [?|(i & o & Ho & _)]%(acc_all _ _ Hacc2); [set_solver|]. cbn in Ho. by apply lookup_empty_Some in Ho.
      * intros Hfd. apply (acc_base _ _ Hacc2). set_solver.
Qed.

(** A restart can be lost.  When a server is stopped and started again before
    its accept worker has run what [stop] scheduled, that closure closes the sockets
    of the restarted server and forgets them: the server counts as running, has no
    listening socket, its accept loops work on closed descriptors, and a further
    [start] returns true and changes nothing. *)
Theorem restart_is_lost {K} `{SysLaws K} base (s : server K) :
  idle base ∅ s →
  ∃ s', (stop ;! start ;! stop_socks) s = Ret tt s' ∧ m_isStop s' = false ∧ m_socks s' = [] ∧
    (∀ i, i ∈ m_socks s → StartAccept i ∈ tasks s' ∧ ∃ o, heap s' !! i = Some o ∧ m_sock o = -1) ∧
    start s' = Ret true s'.
Proof.
  intros [Hacc Hheap Hnext Hnd Ht Hc].
  set (s1 := set_tasks (StopSocks :: (StartAccept <$> m_socks s)) (set_isStop false s)).
  assert ((stop ;! start ;! stop_socks) s = stop_socks s1) as ->.
  { unfold stop, start, modify, get. unfold Effect.bind at 1 2 3 4 5 6, ret. cbn. by rewrite Ht. }
  destruct (cancel_and_close_run base ∅ (m_socks s) s1) as (h' & k' & Hr & _ & _ & Hall & _); [done| |].
  { intros i Hi. by apply Hheap. }
  unfold stop_socks. rewrite bind_get. change (m_socks s1) with (m_socks s). rewrite (bind_Ret _ _ _ _ _ Hr).
  unfold clear_socks. rewrite bind_get. unfold modify. unfold Effect.bind at 1.
  change (m_socks (set_sysk k' (set_heap h' s1))) with (m_socks s). rewrite release_held.
  - eexists. split; [done|]. cbn. split_and!; try done.
    intros i Hi. split; [|by apply Hall]. apply elem_of_cons. right. by apply list_elem_of_fmap_2.
  - intros i Hi. unfold held. cbn. rewrite (bool_decide_true (StartAccept i ∈ _)); [by rewrite orb_true_r|].
    apply elem_of_cons. right. by apply list_elem_of_fmap_2.
Qed.

(** A server on one address of the system of Sockets.v. *)
Lemma new_server_idle read_timeout (k : sim) : idle (opened k) ∅ (new_server read_timeout k).
Proof.
  split; cbn; try done.
  - split; cbn; [by intros ??|by intros ?????|by intros ??|set_solver|]. intros fd Hfd. left. set_solver.
  - intros i. rewrite lookup_empty. split; [by intros []|by intros ?%not_elem_of_nil].
  - by intros i ?%not_elem_of_nil.
  - constructor.
Qed.

Lemma bind_all_or_nothing_witness :
  let s := new_server 120000 boot in
  ∃ rs k fails s', attempts false (sysk s) [peer; peer] rs k ∧ fails = failed [peer; peer] rs ∧
    bind_addrs [peer; peer] [] false s = Ret (bool_decide (fails = []), fails) s' ∧ idle (opened boot) ∅ s' ∧
    if bool_decide (fails = []) then sysk s' = k ∧ ∃ os new, rs = Some <$> os ∧ m_socks s' = m_socks s ++ new ∧
      Forall2 listens [peer; peer] os ∧
      Forall2 (λ o i, heap s' !! i = Some o ∧ m_sock o ∈ opened (sysk s')) os new
    else m_socks s' = [] ∧ opened (sysk s') = opened boot.
Proof.
  apply (bind_all_or_nothing (opened boot) [peer; peer] false (new_server 120000 boot));
    [apply new_server_idle|done].
Defined.

(** A server that listens on one address. *)
Definition listening : server sim :=
  match bind_one false peer (new_server 120000 boot) with
  | Ret _ s => s
  | _ => new_server 120000 boot
  end.
Lemma listening_idle : idle (opened boot) ∅ listening.
Proof.
  destruct (bind_one_run (opened boot) ∅ false peer (new_server 120000 boot)) as (b & s' & Hr & Hs & _);
    [apply new_server_idle|done|]. unfold listening. by rewrite Hr.
Qed.

Lemma restart_is_lost_witness :
  m_socks listening = [0%nat] ∧
  ∃ s', (stop ;! start ;! stop_socks) listening = Ret tt s' ∧ m_isStop s' = false ∧ m_socks s' = [] ∧
    (∀ i, i ∈ m_socks listening → StartAccept i ∈ tasks s' ∧ ∃ o, heap s' !! i = Some o ∧ m_sock o = -1) ∧
    start s' = Ret true s'.
Proof.
  split; [by vm_compute|]. apply (restart_is_lost (opened boot) listening), listening_idle.
Defined.

End TcpServer.
