(* ===== verification/Cstring.v ===== *)
(** * Cstring: text in C buffers

    Character classes, and what the parsers use of the C library to read text
    through a pointer into a [char] array: a [std::string] of a pointer and a
    length, [strncmp], [memmove], [strtol] and [atoi]. *)
From S2P Require Import Prelude Util.
Import StdString.
#[local] Open Scope list_scope.
#[local] Open Scope Z_scope.

Module CharClass.

Definition between (l h : Z) (b : ascii) : bool := (l <=? b2z b) && (b2z b <=? h).
Definition upper (b : ascii) : bool := between 65 90 b.
Definition alpha (b : ascii) : bool := upper b || between 97 122 b.
Definition digit (b : ascii) : bool := between 48 57 b.

Abbreviation size l := (Z.of_nat (length l)).

End CharClass.

(** Reading a [char] buffer through a pointer and a length. *)
Module CharBuffer.

Import CharClass.

Definition max_size : Z := 2 ^ 63 - 1.

(** [std::string(at, length)] for a pointer into [buffer]: too long a length
    throws [std::length_error], one past the array is undefined. *)
Definition std_string {S} (buffer : list ascii) (at_ length : Z) : M S (list ascii) :=
  if max_size <? length then throw logic_error
  else if Z.of_nat (List.length buffer) <? at_ + length then ub
  else ret (take (Z.to_nat length) (drop (Z.to_nat at_) buffer)).

(** [strncmp(at, lit, n) == 0] for a literal without NUL; [None] when it reads
    past the array. *)
Fixpoint strncmp_eq (n : nat) (mem lit : list ascii) : option bool :=
  match n with
  | O => Some true
  | S n =>
      match mem, lit with
      | c :: mem, x :: lit => if Ascii.eqb c x then strncmp_eq n mem lit else Some false
      | c :: _, [] => Some (Ascii.eqb c Ascii.zero)
      | [], _ => None
      end
  end.

(** [memmove(data, data + offset, n)] *)
Definition memmove_front (data : list ascii) (offset n : nat) : list ascii :=
  splice 0 (take n (drop offset data)) data.

Lemma std_string_ret {S} buffer at_ n (s : S) :
  0 ≤ n → at_ + n ≤ Z.of_nat (length buffer) → Z.of_nat (length buffer) < 2 ^ 63 → 0 ≤ at_ →
  std_string buffer at_ n s = Ret (take (Z.to_nat n) (drop (Z.to_nat at_) buffer)) s.
Proof.
  intros. unfold std_string, max_size.
  rewrite (proj2 (Z.ltb_ge _ _)) by lia. by rewrite (proj2 (Z.ltb_ge _ _)) by lia.
Qed.

(** Text found again where it was put. *)
Lemma std_string_piece {S} buffer pre x post at_ (s : S) :
  buffer = pre ++ x ++ post → at_ = size pre → size buffer < 2 ^ 31 →
  std_string buffer at_ (size x) s = Ret x s.
Proof.
  intros -> -> Hb. rewrite !length_app in Hb.
  rewrite std_string_ret by (rewrite ?length_app; lia). f_equal.
  rewrite !Nat2Z.id, drop_app_length, take_app_length. done.
Qed.

(** *** [strtol] *)

Definition is_space (b : ascii) : bool :=
  let c := b2z b in ((9 <=? c) && (c <=? 13)) || (c =? 32).

Definition digit_value (b : ascii) : Z :=
  let c := b2z b in
  if (48 <=? c) && (c <=? 57) then c - 48
  else if (97 <=? c) && (c <=? 122) then c - 87
  else if (65 <=? c) && (c <=? 90) then c - 55
  else 99.

(** The digits at the front; [None] when the text runs to the end of the array. *)
Fixpoint digits (base acc : Z) (mem : list ascii) : option Z :=
  match mem with
  | [] => None
  | b :: mem => if digit_value b <? base then digits base (acc * base + digit_value b) mem else Some acc
  end.

(** The prefix a hexadecimal number may have. *)
Definition skip_0x (base : Z) (mem : list ascii) : list ascii :=
  match mem with
  | z :: x :: d :: _ =>
      if (base =? 16) && Ascii.eqb z "0" && (Ascii.eqb x "x" || Ascii.eqb x "X") && (digit_value d <? 16)
      then drop 2 mem else mem
  | _ => mem
  end.

Fixpoint skip_space (mem : list ascii) : list ascii :=
  match mem with b :: mem' => if is_space b then skip_space mem' else mem | [] => [] end.

(** [strtol(p, NULL, base)]: blanks, a sign, digits; held to the range of
    [long]. *)
Definition strtol (base : Z) (mem : list ascii) : option Z :=
  let clamp v := Z.max (- 2 ^ 63) (Z.min (2 ^ 63 - 1) v) in
  match skip_space mem with
  | [] => None
  | b :: rest =>
      if Ascii.eqb b "-" then clamp <$> (Z.opp <$> digits base 0 (skip_0x base rest))
      else if Ascii.eqb b "+" then clamp <$> digits base 0 (skip_0x base rest)
      else clamp <$> digits base 0 (skip_0x base (b :: rest))
  end.

(** Numbers end at the NUL of the text they are read from. *)
Lemma digits_end base acc w : base ≤ 36 → Ascii.zero ∈ w → ∃ v, digits base acc w = Some v.
Proof.
  intros Hb. revert acc. induction w as [|b w IH]; intros acc Hin; [by apply not_elem_of_nil in Hin|].
  cbn [digits]. destruct (digit_value b <? base) eqn:Hd; [|by eexists].
  apply IH. apply elem_of_cons in Hin as [<-|]; [|done]. change (digit_value Ascii.zero) with 99 in Hd. lia.
Qed.

Lemma skip_space_end w : Ascii.zero ∈ w → Ascii.zero ∈ skip_space w.
Proof.
  induction w as [|b w IH]; intros Hin; [done|]. cbn [skip_space].
  destruct (is_space b) eqn:Hs; [|done]. apply elem_of_cons in Hin as [<-|]; [done|by apply IH].
Qed.

Lemma skip_0x_end base w : Ascii.zero ∈ w → Ascii.zero ∈ skip_0x base w.
Proof.
  intros Hin. unfold skip_0x. destruct w as [|z [|x [|d w]]]; try done.
  case_match eqn:Hc; [|done]. rewrite !andb_true_iff, orb_true_iff, !Ascii.eqb_eq in Hc.
  destruct Hc as [[[_ ->] Hx] Hd]. cbn [drop].
  apply elem_of_cons in Hin as [|Hin]; [done|].
  apply elem_of_cons in Hin as [<-|Hin]; [by destruct Hx|done].
Qed.

Lemma strtol_end base w : base ≤ 36 → Ascii.zero ∈ w → ∃ v, strtol base w = Some v.
Proof.
  intros Hb Hin. unfold strtol. pose proof (skip_space_end w Hin) as Hs.
  destruct (skip_space w) as [|b rest] eqn:E; [by apply not_elem_of_nil in Hs|].
  destruct (Ascii.eqb_spec b "-") as [->|].
  { apply elem_of_cons in Hs as [|Hs]; [done|].
    destruct (digits_end base 0 (skip_0x base rest) Hb) as [v ->]; [by apply skip_0x_end|by eexists]. }
  destruct (Ascii.eqb_spec b "+") as [->|].
  { apply elem_of_cons in Hs as [|Hs]; [done|].
    destruct (digits_end base 0 (skip_0x base rest) Hb) as [v ->]; [by apply skip_0x_end|by eexists]. }
  destruct (digits_end base 0 (skip_0x base (b :: rest)) Hb) as [v ->]; [by apply skip_0x_end|by eexists].
Qed.

(** *** Decimal numbers *)

Definition code_value (code : list ascii) : Z := foldl (λ v b, v * 10 + (b2z b - 48)) 0 code.

Lemma digits_code acc code c rest :
  forallb digit code = true → digit c = false →
  10 ≤ digit_value c →
  digits 10 acc (code ++ c :: rest) = Some (foldl (λ v b, v * 10 + (b2z b - 48)) acc code).
Proof.
  intros Hc Hd Hv. revert acc. induction code as [|b code IH]; intros acc; cbn [app digits foldl].
  - by rewrite (proj2 (Z.ltb_ge _ _)).
  - cbn [forallb] in Hc. apply andb_prop in Hc as [Hb Hc].
    unfold digit, between in Hb. apply andb_prop in Hb as [H1 H2].
    unfold digit_value at 1 2. rewrite H1, H2. cbn [andb].
    rewrite (proj2 (Z.ltb_lt _ _)) by lia. by apply IH.
Qed.

Lemma code_bound acc code :
  forallb digit code = true → 0 ≤ acc →
  0 ≤ foldl (λ v b, v * 10 + (b2z b - 48)) acc code < (acc + 1) * 10 ^ size code.
Proof.
  revert acc. induction code as [|b code IH]; intros acc Hc Ha; [cbn; lia|].
  cbn [forallb] in Hc. apply andb_prop in Hc as [Hb Hc].
  unfold digit, between in Hb. cbn [foldl length].
  specialize (IH (acc * 10 + (b2z b - 48)) Hc ltac:(lia)).
  rewrite Nat2Z.inj_succ, Z.pow_succ_r by lia. nia.
Qed.

Lemma strtol_code code c rest :
  forallb digit code = true → code ≠ [] → size code ≤ 9 → digit c = false → 10 ≤ digit_value c →
  strtol 10 (code ++ c :: rest) = Some (code_value code) ∧ 0 ≤ code_value code < 2 ^ 31.
Proof.
  intros Hc Hne Hl Hcd Hcv. pose proof (code_bound 0 code Hc ltac:(lia)) as Hb. fold (code_value code) in Hb.
  assert (10 ^ size code ≤ 10 ^ 9) by (apply Z.pow_le_mono_r; lia).
  split; [|lia]. pose proof (digits_code 0 code c rest Hc Hcd Hcv) as Hd.
  fold (code_value code) in Hd. unfold strtol.
  destruct code as [|b code]; [done|]. cbn [forallb] in Hc. apply andb_prop in Hc as [Hb1 _].
  pose proof (forall_bytes (λ b, implb (digit b)
    (negb (is_space b) && negb (Ascii.eqb b "-") && negb (Ascii.eqb b "+"))) ltac:(by vm_compute) b) as H'.
  cbn beta in H'. rewrite Hb1 in H'. cbn [implb] in H'. rewrite !andb_true_iff, !negb_true_iff in H'.
  destruct H' as [[Hs Hm] Hp]. cbn [app skip_space]. rewrite Hs, Hm, Hp.
  assert (skip_0x 10 (b :: code ++ c :: rest) = b :: code ++ c :: rest) as ->
    by (unfold skip_0x; by destruct (code ++ c :: rest) as [|? [|? ?]]).
  cbn [app] in Hd. rewrite Hd. cbn [fmap option_fmap option_map]. f_equal. lia.
Qed.

End CharBuffer.
