(* ===== verification/Ragel.v ===== *)
(** * Ragel: the machines the parsers are generated from

    http/http11_parser.rl.cc, http/httpclient_parser.rl.cc and uri.rl.cc are the
    goto code (option -G2) Ragel makes of three grammars.  All three have one
    shape: a [switch] on the state [cs], a [case] per state that inspects the
    byte at [p] and jumps to a label, labels [trN] that run actions and then jump
    to a state, labels [stN] that advance [p] and fall into [case N], and a label
    [st0] that stops with [cs = 0].

    [machine] is that shape: [states] are the cases, [transitions] the [trN]
    labels, [fall] the state assigned by the first statement after the switch,
    which is where control falls when no case matches.  [exec] is the code
    between the braces of [%% write exec].  [trace] is what it does without the
    actions: which action runs at which position and where it stops; a parser is
    a replay of its trace. *)
From S2P Require Import Prelude.

Module Ragel.

(** The [char] a byte is read as: signed on the platform of the sources. *)
Definition schar (b : ascii) : Z := swrap 8 (b2z b).

(** A jump: to a state ([goto stN]) or to a transition ([goto trN]). *)
Inductive label :=
| st (n : Z)
| tr (n : Z).

(** [switch(x) { case n: goto l; ... }], continuing with [k] when nothing matches. *)
Fixpoint switch (x : Z) (cases : list (Z * label)) (k : label) : label :=
  match cases with
  | [] => k
  | (n, l) :: cases => if x =? n then l else switch x cases k
  end.

(** The cases of a state, looked up in the groups the source is cut into. *)
Fixpoint first_case (groups : list (Z → option (Z → label))) (cs : Z) : option (Z → label) :=
  match groups with
  | [] => None
  | g :: groups => match g cs with Some f => Some f | None => first_case groups cs end
  end.

Record machine (A : Type) := Machine {
  states : Z → option (Z → label);
  transitions : Z → list A * Z;
  fall : Z;
  (** actions that end in [fbreak] *)
  stops : A → bool;
}.
#[global] Arguments Machine {A}.
#[global] Arguments states {A}.
#[global] Arguments transitions {A}.
#[global] Arguments fall {A}.
#[global] Arguments stops {A}.

Section machine.
Context {A : Type} (m : machine A).

Definition goto (l : label) : list A * Z :=
  match l with
  | st n => ([], n)
  | tr n => transitions m n
  end.

(** The actions run on byte [b] in state [cs] and the state after it; 0 stops
    the machine. *)
Definition on_byte (cs : Z) (b : ascii) : list A * Z :=
  match states m cs with
  | Some f => goto (f (schar b))
  | None => ([], 0)
  end.

Definition next (cs : Z) (b : ascii) : Z := (on_byte cs b).2.

(** The machine as an automaton, without its actions. *)
Definition run (cs : Z) (w : list ascii) : Z := foldl next cs w.

(** *** The code *)

Section exec.
Context {S : Type} (act : A → Z → M S bool).

(** The actions of a label, in order, up to one that breaks. *)
Fixpoint actions (acts : list A) (p : Z) : M S bool :=
  match acts with
  | [] => ret false
  | a :: acts => let! brk := act a p in if brk : bool then ret true else actions acts p
  end.

(** [input] is what lies between [p] and [pe]; the result is [p] and [cs] at the
    end of the code. *)
Fixpoint exec (cs p : Z) (input : list ascii) : M S (Z * Z) :=
  match input with
  | [] => ret (p, cs)
  | b :: input =>
      match states m cs with
      | None => ret (p, fall m)
      | Some f =>
          let '(acts, n) := goto (f (schar b)) in
          if n =? 0 then ret (p, 0)
          else
            let! brk := actions acts p in
            if brk : bool then ret (p + 1, n) else exec n (p + 1) input
      end
  end.

(** The actions of a trace, each at its position. *)
Fixpoint replay (evs : list (A * Z)) : M S unit :=
  match evs with
  | [] => ret tt
  | (a, p) :: evs => let! _ := act a p in replay evs
  end.

End exec.

(** *** The trace *)

(** The actions of a label that run: up to the first that breaks. *)
Fixpoint upto_break (acts : list A) (p : Z) : list (A * Z) * bool :=
  match acts with
  | [] => ([], false)
  | a :: acts =>
      if stops m a then ([(a, p)], true)
      else let '(evs, brk) := upto_break acts p in ((a, p) :: evs, brk)
  end.

Fixpoint trace (cs p : Z) (input : list ascii) : list (A * Z) * (Z * Z) :=
  match input with
  | [] => ([], (p, cs))
  | b :: input =>
      match states m cs with
      | None => ([], (p, fall m))
      | Some f =>
          let '(acts, n) := goto (f (schar b)) in
          if n =? 0 then ([], (p, 0))
          else
            let '(evs, brk) := upto_break acts p in
            if brk : bool then (evs, (p + 1, n))
            else let '(evs', r) := trace n (p + 1) input in (evs ++ evs', r)
      end
  end.

End machine.

(** *** A parser replays its trace *)

Section replay.
Context {A S : Type} (m : machine A) (act : A → Z → M S bool).

(** An action breaks when it is one of those that end in [fbreak]. *)
Hypothesis act_stops : ∀ a p s brk s', act a p s = Ret brk s' → brk = stops m a.

Lemma actions_replay acts p s :
  actions act acts p s =
  (let! _ := replay act (upto_break m acts p).1 in ret (upto_break m acts p).2) s.
Proof.
  revert s. induction acts as [|a acts IH]; intros s; [done|].
  cbn [actions upto_break]. unfold bind in IH |- *.
  destruct (act a p s) as [brk s'|e s'|] eqn:Ha.
  - rewrite (act_stops _ _ _ _ _ Ha). destruct (stops m a); cbn [fst snd replay].
    + unfold bind. by rewrite Ha.
    + rewrite IH. destruct (upto_break m acts p) as [evs b]. cbn [fst snd replay].
      unfold bind. by rewrite Ha.
  - destruct (stops m a); [|destruct (upto_break m acts p)]; cbn [fst snd replay];
      unfold bind; by rewrite Ha.
  - destruct (stops m a); [|destruct (upto_break m acts p)]; cbn [fst snd replay];
      unfold bind; by rewrite Ha.
Qed.

Lemma replay_app evs evs' s :
  replay act (evs ++ evs') s = (let! _ := replay act evs in replay act evs') s.
Proof.
  revert s. induction evs as [|[a p] evs IH]; intros s; [done|].
  cbn [app replay]. unfold bind. destruct (act a p s); [apply IH|done|done].
Qed.

Theorem exec_trace cs p input s :
  exec m act cs p input s =
  (let! _ := replay act (trace m cs p input).1 in ret (trace m cs p input).2) s.
Proof.
  revert cs p s. induction input as [|b input IH]; intros cs p s; [done|].
  cbn [exec trace]. destruct (states m cs) as [f|]; [|done].
  destruct (goto m (f (schar b))) as [acts n]. destruct (n =? 0); [done|].
  unfold bind at 1. rewrite actions_replay.
  destruct (upto_break m acts p) as [evs brk]. cbn [fst snd]. unfold bind at 1.
  destruct brk; [|destruct (trace m n (p + 1) input) as [evs' r] eqn:Ht]; cbn [fst snd].
  - unfold bind. by destruct (replay act evs s).
  - unfold bind at 1. rewrite replay_app. unfold bind at 1.
    destruct (replay act evs s) as [[] s'|e s'|]; [|done|done].
    cbn [ret]. rewrite IH, Ht. done.
Qed.

End replay.

(** *** Where a trace ends, and where its actions are *)

Section trace.
Context {A : Type} (m : machine A).

Lemma upto_break_pos acts p : Forall (λ ev, ev.2 = p) (upto_break m acts p).1.
Proof.
  induction acts as [|a acts IH]; [by constructor|]. cbn [upto_break].
  destruct (stops m a); [by repeat constructor|].
  destruct (upto_break m acts p) as [evs b]. by constructor.
Qed.

Lemma upto_break_none acts p :
  Forall (λ a, stops m a = false) acts → upto_break m acts p = ((λ a, (a, p)) <$> acts, false).
Proof.
  induction 1 as [|a acts Ha _ IH]; [done|]. cbn [upto_break fmap list_fmap].
  by rewrite Ha, IH.
Qed.

Lemma trace_bounds cs p input :
  p ≤ (trace m cs p input).2.1 ≤ p + Z.of_nat (length input) ∧
  Forall (λ ev, p ≤ ev.2 < (trace m cs p input).2.1) (trace m cs p input).1.
Proof.
  revert cs p. induction input as [|b input IH]; intros cs p; [cbn; split; [lia|done]|].
  cbn [trace length]. destruct (states m cs) as [f|]; [|cbn; split; [lia|done]].
  destruct (goto m (f (schar b))) as [acts n]. destruct (n =? 0); [cbn; split; [lia|done]|].
  pose proof (upto_break_pos acts p) as Hpos.
  destruct (upto_break m acts p) as [evs brk]. cbn [fst] in Hpos.
  destruct brk; [cbn; split; [lia|eapply Forall_impl; [done|cbn; intros; lia]]|].
  destruct (IH n (p + 1)) as [Hb He].
  destruct (trace m n (p + 1) input) as [evs' r]. cbn [fst snd] in *.
  split; [lia|]. apply Forall_app. split.
  - eapply Forall_impl; [done|]. cbn. intros. lia.
  - eapply Forall_impl; [done|]. cbn. intros. lia.
Qed.

(** One byte: its actions happen at [p] and the trace goes on. *)
Lemma trace_cons cs p b input acts n :
  on_byte m cs b = (acts, n) → n ≠ 0 → forallb (negb ∘ stops m) acts = true →
  trace m cs p (b :: input) =
  (((λ a, (a, p)) <$> acts) ++ (trace m n (p + 1) input).1, (trace m n (p + 1) input).2).
Proof.
  unfold on_byte. intros Hb Hn Hs. cbn [trace].
  destruct (states m cs) as [f|]; [|congruence]. rewrite Hb.
  rewrite (proj2 (Z.eqb_neq n 0)) by done. rewrite upto_break_none.
  - by destruct (trace m n (p + 1) input).
  - apply Forall_forall. intros a Ha. rewrite forallb_forall in Hs.
    apply negb_true_iff, Hs. by apply list_elem_of_In.
Qed.

(** A byte whose last action breaks ends the trace. *)
Lemma trace_break cs p b input acts a n :
  on_byte m cs b = (acts ++ [a], n) → n ≠ 0 →
  forallb (negb ∘ stops m) acts = true → stops m a = true →
  trace m cs p (b :: input) = ((λ a, (a, p)) <$> (acts ++ [a]), (p + 1, n)).
Proof.
  unfold on_byte. intros Hb Hn Hs Ha. cbn [trace].
  destruct (states m cs) as [f|]; [|congruence]. rewrite Hb.
  rewrite (proj2 (Z.eqb_neq n 0)) by done.
  assert (upto_break m (acts ++ [a]) p = ((λ a, (a, p)) <$> (acts ++ [a]), true)) as ->; [|done].
  clear Hb. induction acts as [|a' acts IH]; cbn [app upto_break].
  - by rewrite Ha.
  - cbn in Hs. apply andb_prop in Hs as [Ha' Hs]. apply negb_true_iff in Ha'.
    rewrite Ha', (IH Hs). done.
Qed.

(** A byte with no way on: the machine stops there in state 0. *)
Lemma trace_error cs p b input acts f :
  states m cs = Some f → on_byte m cs b = (acts, 0) → trace m cs p (b :: input) = ([], (p, 0)).
Proof.
  unfold on_byte. intros Hf Hb. cbn [trace]. rewrite Hf in *. by rewrite Hb.
Qed.

(** All bytes of class [cls] do the same in state [cs]; decided by computation. *)
Definition class_step (cls : ascii → bool) (cs : Z) `{EqDecision A} (acts : list A) (n : Z) : bool :=
  forallb (λ b, implb (cls b) (bool_decide (on_byte m cs b = (acts, n)))) all_bytes.

Lemma class_step_spec cls cs `{EqDecision A} acts n b :
  class_step cls cs acts n = true → cls b = true → on_byte m cs b = (acts, n).
Proof.
  intros H Hb. pose proof (forall_bytes _ H b) as H'. cbn beta in H'. rewrite Hb in H'.
  cbn in H'. by apply bool_decide_eq_true in H'.
Qed.

Lemma trace_class cls cs p b input `{EqDecision A} acts n :
  class_step cls cs acts n = true → cls b = true →
  n ≠ 0 → forallb (negb ∘ stops m) acts = true →
  trace m cs p (b :: input) =
  (((λ a, (a, p)) <$> acts) ++ (trace m n (p + 1) input).1, (trace m n (p + 1) input).2).
Proof. intros Hc Hb. apply trace_cons. by eapply class_step_spec. Qed.

(** Bytes that leave a state unchanged are skipped. *)
Lemma trace_loop cls cs p w input `{EqDecision A} :
  class_step cls cs [] cs = true → cs ≠ 0 → forallb cls w = true →
  trace m cs p (w ++ input) = trace m cs (p + Z.of_nat (length w)) input.
Proof.
  intros Hc Hn. revert p. induction w as [|b w IH]; intros p Hw.
  - cbn. by rewrite Z.add_0_r.
  - cbn in Hw. apply andb_prop in Hw as [Hb Hw]. cbn [app].
    rewrite (trace_class cls _ _ _ _ [] cs) by done. cbn [fmap list_fmap app].
    rewrite (IH (p + 1) Hw). cbn [length].
    replace (p + 1 + Z.of_nat (length w)) with (p + Z.of_nat (S (length w))) by lia.
    by destruct (trace m cs _ input).
Qed.

End trace.

(** *** Running the code over pieces of text *)

Section pieces.
Context {A S : Type} `{!EqDecision A} (m : machine A) (act : A → Z → M S bool).

Lemma exec_cons cs p b input acts n s :
  on_byte m cs b = (acts, n) → n ≠ 0 →
  exec m act cs p (b :: input) s =
  (let! brk := actions act acts p in
   if brk : bool then ret (p + 1, n) else exec m act n (p + 1) input) s.
Proof.
  unfold on_byte. intros Hb Hn. cbn [exec]. destruct (states m cs) as [f|]; [|congruence].
  by rewrite Hb, (proj2 (Z.eqb_neq n 0)).
Qed.

Lemma exec_step cs p b input acts n s s' :
  on_byte m cs b = (acts, n) → n ≠ 0 → actions act acts p s = Ret false s' →
  exec m act cs p (b :: input) s = exec m act n (p + 1) input s'.
Proof. intros Hb Hn Ha. rewrite (exec_cons _ _ _ _ _ _ _ Hb Hn). by rewrite (bind_Ret _ _ _ _ _ Ha). Qed.

Lemma actions_cons a acts p s s' :
  act a p s = Ret false s' → actions act (a :: acts) p s = actions act acts p s'.
Proof. intros Ha. cbn [actions]. by rewrite (bind_Ret _ _ _ _ _ Ha). Qed.

Lemma actions_app acts acts' p s s' :
  actions act acts p s = Ret false s' → actions act (acts ++ acts') p s = actions act acts' p s'.
Proof.
  revert s. induction acts as [|a acts IH]; intros s; [by intros [= ->]|]. cbn [app actions].
  unfold bind. destruct (act a p s) as [[] s1|e s1|]; [done|apply IH|done|done].
Qed.

(** The state after a word no byte of which runs an action. *)
Fixpoint quiet (cs : Z) (w : list ascii) : option Z :=
  match w with
  | [] => Some cs
  | b :: w =>
      match on_byte m cs b with
      | ([], n) => if n =? 0 then None else quiet n w
      | _ => None
      end
  end.

Lemma exec_quiet cs n p w input s :
  quiet cs w = Some n →
  exec m act cs p (w ++ input) s = exec m act n (p + Z.of_nat (length w)) input s.
Proof.
  revert cs p. induction w as [|b w IH]; intros cs p Hq; cbn [quiet] in Hq.
  - injection Hq as <-. cbn. by rewrite Z.add_0_r.
  - destruct (on_byte m cs b) as [[|] n'] eqn:Hb; [|done].
    destruct (Z.eqb_spec n' 0) as [|Hn]; [done|]. cbn [app].
    rewrite (exec_cons _ _ _ _ [] n' _ Hb Hn). cbn [actions]. unfold bind, ret.
    rewrite (IH _ _ Hq). cbn [length]. f_equal. lia.
Qed.

Lemma quiet_loop cls cs w :
  class_step m cls cs [] cs = true → cs ≠ 0 → forallb cls w = true → quiet cs w = Some cs.
Proof.
  intros Hc Hn. induction w as [|b w IH]; [done|]. cbn. intros [Hb Hw]%andb_prop.
  by rewrite (class_step_spec m cls cs [] cs b Hc Hb), (proj2 (Z.eqb_neq cs 0)), IH.
Qed.

(** Text in which percent signs start an escape of two hexadecimal digits and
    everything else is of class [cls]. *)
Definition xdigit (b : ascii) : bool :=
  let c := b2z b in
  ((48 <=? c) && (c <=? 57)) || ((65 <=? c) && (c <=? 70)) || ((97 <=? c) && (c <=? 102)).
Fixpoint pct_text (cls : ascii → bool) (w : list ascii) : bool :=
  match w with
  | [] => true
  | b :: w =>
      if Ascii.eqb b "%" then
        match w with
        | h1 :: h2 :: w => xdigit h1 && xdigit h2 && pct_text cls w
        | _ => false
        end
      else cls b && pct_text cls w
  end.

(** State [cs] reads such text, using [cs1] and [cs2] inside an escape. *)
Definition reads_pct (cls : ascii → bool) (cs cs1 cs2 : Z) : bool :=
  class_step m cls cs [] cs && class_step m (Ascii.eqb "%") cs [] cs1 &&
  class_step m xdigit cs1 [] cs2 && class_step m xdigit cs2 [] cs &&
  negb (cs =? 0) && negb (cs1 =? 0) && negb (cs2 =? 0).

Lemma reads_pct_spec cls cs cs1 cs2 :
  reads_pct cls cs cs1 cs2 = true →
  class_step m cls cs [] cs = true ∧ class_step m (Ascii.eqb "%") cs [] cs1 = true ∧
  class_step m xdigit cs1 [] cs2 = true ∧ class_step m xdigit cs2 [] cs = true ∧
  cs ≠ 0 ∧ cs1 ≠ 0 ∧ cs2 ≠ 0.
Proof.
  unfold reads_pct. rewrite !andb_true_iff, !negb_true_iff, !Z.eqb_neq. tauto.
Qed.

Lemma quiet_pct cls cs cs1 cs2 w :
  reads_pct cls cs cs1 cs2 = true → pct_text cls w = true → quiet cs w = Some cs.
Proof.
  intros Hr. apply reads_pct_spec in Hr as (H1 & H2 & H3 & H4 & N & N1 & N2).
  induction w as [w IH] using (induction_ltof1 _ (@length ascii)). unfold ltof in IH.
  destruct w as [|b w]; [done|].
  cbn [pct_text]. destruct (Ascii.eqb_spec b "%") as [->|].
  - destruct w as [|h1 [|h2 w]]; [done|done|].
    intros [[Hh1 Hh2]%andb_prop Hw]%andb_prop. cbn [quiet].
    rewrite (class_step_spec m _ _ _ _ "%" H2 eq_refl), (proj2 (Z.eqb_neq cs1 0) N1).
    rewrite (class_step_spec m _ _ _ _ _ H3 Hh1), (proj2 (Z.eqb_neq cs2 0) N2).
    rewrite (class_step_spec m _ _ _ _ _ H4 Hh2), (proj2 (Z.eqb_neq cs 0) N).
    apply IH; [cbn; lia|done].
  - intros [Hb Hw]%andb_prop. cbn [quiet].
    rewrite (class_step_spec m _ _ _ _ _ H1 Hb), (proj2 (Z.eqb_neq cs 0) N).
    apply IH; [cbn; lia|done].
Qed.

(** The same when the first byte is read in a state [cs0] that runs [acts]. *)
Lemma exec_pct_entry cls cls0 cs0 acts cs cs1 cs2 p w input s s' :
  reads_pct cls cs cs1 cs2 = true →
  class_step m cls0 cs0 acts cs = true → class_step m (Ascii.eqb "%") cs0 acts cs1 = true →
  pct_text cls w = true → (∃ b w', w = b :: w' ∧ (cls b = true → cls0 b = true)) →
  actions act acts p s = Ret false s' →
  exec m act cs0 p (w ++ input) s = exec m act cs (p + Z.of_nat (length w)) input s'.
Proof.
  intros Hr Hc Hp Hw Hne Ha.
  pose proof (reads_pct_spec _ _ _ _ Hr) as (H1 & H2 & H3 & H4 & N & N1 & N2).
  destruct Hne as (b & w0 & -> & Hb0). rename w0 into w. cbn [pct_text app] in *.
  destruct (Ascii.eqb_spec b "%") as [->|].
  - destruct w as [|h1 [|h2 w]]; [done|done|].
    apply andb_prop in Hw as [[Hh1 Hh2]%andb_prop Hw].
    rewrite (exec_cons _ _ _ _ acts cs1) by (done || by apply (class_step_spec m _ _ _ _ _ Hp)).
    rewrite (bind_Ret _ _ _ _ _ Ha), (exec_quiet _ cs _ (h1 :: h2 :: w)).
    + f_equal. cbn. lia.
    + cbn [quiet]. rewrite (class_step_spec m _ _ _ _ _ H3 Hh1), (proj2 (Z.eqb_neq cs2 0) N2).
      rewrite (class_step_spec m _ _ _ _ _ H4 Hh2), (proj2 (Z.eqb_neq cs 0) N).
      by apply (quiet_pct cls cs cs1 cs2).
  - apply andb_prop in Hw as [Hb Hw].
    rewrite (exec_cons _ _ _ _ acts cs)
      by (done || by apply (class_step_spec m _ _ _ _ _ Hc), Hb0).
    rewrite (bind_Ret _ _ _ _ _ Ha), (exec_quiet _ cs _ w) by (by apply (quiet_pct cls cs cs1 cs2)).
    f_equal. cbn. lia.
Qed.

(** *** Sets of states

    A set of states that a piece of text cannot tell apart. *)

Definition mem (l : list Z) (n : Z) : bool := existsb (Z.eqb n) l.

(** What every byte of class [cls] does in every state of [l], decided by
    computation; none of them stops the machine. *)
Definition all_moves (cls : ascii → bool) (l : list Z) (ok : Z → ascii → list A → Z → bool) : bool :=
  forallb (λ n, forallb (λ b, implb (cls b)
    (let '(acts, n') := on_byte m n b in negb (n' =? 0) && ok n b acts n')) all_bytes) l.

Lemma all_moves_spec cls l ok n b :
  all_moves cls l ok = true → mem l n = true → cls b = true →
  ∃ acts n', on_byte m n b = (acts, n') ∧ n' ≠ 0 ∧ ok n b acts n' = true.
Proof.
  unfold all_moves, mem. rewrite forallb_forall, existsb_exists. intros H (n0 & Hn & ->%Z.eqb_eq) Hb.
  specialize (H n0 Hn). cbn beta in H. pose proof (forall_bytes _ H b) as H'. cbn beta in H'. rewrite Hb in H'. cbn [implb] in H'.
  destruct (on_byte m n0 b) as [acts n']. apply andb_prop in H' as [H0 Hok].
  exists acts, n'. split; [done|]. split; [|done]. intros ->. done.
Qed.

(** The bytes of class [cls] lead from [l] to [l'] and run [acts]. *)
Definition leads (cls : ascii → bool) (l : list Z) (acts : list A) (l' : list Z) : bool :=
  all_moves cls l (λ _ _ acts' n', bool_decide (acts' = acts) && mem l' n').

Lemma exec_leads cls l acts l' n p b input s s' :
  leads cls l acts l' = true → mem l n = true → cls b = true →
  actions act acts p s = Ret false s' →
  ∃ n', mem l' n' = true ∧ exec m act n p (b :: input) s = exec m act n' (p + 1) input s'.
Proof.
  intros Hl Hn Hb Ha. destruct (all_moves_spec _ _ _ n b Hl Hn Hb) as (acts' & n' & Hon & H0 & Hok).
  rewrite andb_true_iff, bool_decide_eq_true in Hok. destruct Hok as [-> Hn'].
  exists n'. split; [done|]. by apply (exec_step _ _ _ _ acts).
Qed.

(** The states of [l] read text of class [cls] with escapes, using [l1] and [l2]
    inside an escape. *)
Definition reads_pct_in (cls : ascii → bool) (l l1 l2 : list Z) : bool :=
  leads cls l [] l && leads (Ascii.eqb "%") l [] l1 && leads xdigit l1 [] l2 && leads xdigit l2 [] l.

Lemma exec_pct_in cls l l1 l2 n p w input s :
  reads_pct_in cls l l1 l2 = true → mem l n = true → pct_text cls w = true →
  ∃ n', mem l n' = true ∧
    exec m act n p (w ++ input) s = exec m act n' (p + Z.of_nat (length w)) input s.
Proof.
  unfold reads_pct_in. rewrite !andb_true_iff. intros [[[Hc Hp] Hx1] Hx2].
  revert n p. induction w as [w IH] using (induction_ltof1 _ (@length ascii)). unfold ltof in IH.
  intros n p Hn Hw. destruct w as [|b w]; [exists n; split; [done|]; cbn; by rewrite Z.add_0_r|].
  cbn [pct_text] in Hw. destruct (Ascii.eqb_spec b "%") as [->|].
  - destruct w as [|h1 [|h2 w]]; [done|done|]. apply andb_prop in Hw as [[Hh1 Hh2]%andb_prop Hw].
    cbn [app]. destruct (exec_leads _ _ _ _ n p "%" (h1 :: h2 :: w ++ input) s s Hp Hn eq_refl eq_refl)
      as (n1 & Hn1 & ->).
    destruct (exec_leads _ _ _ _ n1 (p + 1) h1 (h2 :: w ++ input) s s Hx1 Hn1 Hh1 eq_refl) as (n2 & Hn2 & ->).
    destruct (exec_leads _ _ _ _ n2 (p + 1 + 1) h2 (w ++ input) s s Hx2 Hn2 Hh2 eq_refl) as (n3 & Hn3 & ->).
    destruct (IH w ltac:(cbn; lia) n3 (p + 1 + 1 + 1) Hn3 Hw) as (n' & Hn' & ->).
    exists n'. split; [done|]. f_equal. cbn [length]. lia.
  - apply andb_prop in Hw as [Hb Hw]. cbn [app].
    destruct (exec_leads _ _ _ _ n p b (w ++ input) s s Hc Hn Hb eq_refl) as (n1 & Hn1 & ->).
    destruct (IH w ltac:(cbn; lia) n1 (p + 1) Hn1 Hw) as (n' & Hn' & ->).
    exists n'. split; [done|]. f_equal. cbn [length]. lia.
Qed.

(** The same when the first byte is read in a state of [l0] and runs [acts]. *)
Lemma exec_pct_enter cls l0 acts l l1 l2 n p b w input s s' :
  reads_pct_in cls l l1 l2 = true → leads cls l0 acts l = true → leads (Ascii.eqb "%") l0 acts l1 = true →
  mem l0 n = true → pct_text cls (b :: w) = true → actions act acts p s = Ret false s' →
  ∃ n', mem l n' = true ∧
    exec m act n p (b :: w ++ input) s = exec m act n' (p + Z.of_nat (length (b :: w))) input s'.
Proof.
  intros Hr Hc Hp Hn Hw Ha. pose proof Hr as Hr'. unfold reads_pct_in in Hr'.
  rewrite !andb_true_iff in Hr'. destruct Hr' as [[[_ _] Hx1] Hx2].
  cbn [pct_text] in Hw. destruct (Ascii.eqb_spec b "%") as [->|].
  - destruct w as [|h1 [|h2 w]]; [done|done|]. apply andb_prop in Hw as [[Hh1 Hh2]%andb_prop Hw]. cbn [app].
    destruct (exec_leads _ _ _ _ n p "%" (h1 :: h2 :: w ++ input) s s' Hp Hn eq_refl Ha) as (n1 & Hn1 & ->).
    destruct (exec_leads _ _ _ _ n1 (p + 1) h1 (h2 :: w ++ input) s' s' Hx1 Hn1 Hh1 eq_refl) as (n2 & Hn2 & ->).
    destruct (exec_leads _ _ _ _ n2 (p + 1 + 1) h2 (w ++ input) s' s' Hx2 Hn2 Hh2 eq_refl) as (n3 & Hn3 & ->).
    destruct (exec_pct_in cls l l1 l2 n3 (p + 1 + 1 + 1) w input s' Hr Hn3 Hw) as (n' & Hn' & ->).
    exists n'. split; [done|]. f_equal. cbn [length]. lia.
  - apply andb_prop in Hw as [Hb Hw].
    destruct (exec_leads _ _ _ _ n p b (w ++ input) s s' Hc Hn Hb Ha) as (n1 & Hn1 & ->).
    destruct (exec_pct_in cls l l1 l2 n1 (p + 1) w input s' Hr Hn1 Hw) as (n' & Hn' & ->).
    exists n'. split; [done|]. f_equal. cbn [length]. lia.
Qed.

End pieces.

End Ragel.
