(* ===== verification/Regex.v ===== *)
(** * Regex: machines and grammars

    Regular expressions over bytes, their partial derivatives (Antimirov), and a
    checker that decides whether an automaton accepts exactly the words of an
    expression.  The checker explores the derivatives of the expression together
    with the states of the automaton; [accepts_words] shows that a relation it
    accepts is a bisimulation.  Bytes the expression cannot tell apart are
    explored once, by a representative. *)
From stdpp Require Import gmap pmap.
From S2P Require Import Prelude Util Ragel.
#[local] Open Scope list_scope.
#[local] Open Scope Z_scope.

Module Regex.

(** ** Expressions *)

Inductive regex :=
| Empty
| Eps
| Cls (rs : list (Z * Z))
| Alt (r1 r2 : regex)
| Cat (r1 r2 : regex)
| Star (r : regex).

(** Boolean equality, for the checker. *)
Definition list_eqb {X} (eqb : X → X → bool) : list X → list X → bool :=
  fix go l l' := match l, l' with
  | [], [] => true
  | x :: l, x' :: l' => eqb x x' && go l l'
  | _, _ => false
  end.
Definition range_eqb (r r' : Z * Z) : bool := (r.1 =? r'.1) && (r.2 =? r'.2).

Fixpoint regex_eqb (r r' : regex) : bool :=
  match r, r' with
  | Empty, Empty | Eps, Eps => true
  | Cls rs, Cls rs' => list_eqb range_eqb rs rs'
  | Alt r1 r2, Alt r1' r2' | Cat r1 r2, Cat r1' r2' => regex_eqb r1 r1' && regex_eqb r2 r2'
  | Star r, Star r' => regex_eqb r r'
  | _, _ => false
  end.

Lemma list_eqb_eq {X} (eqb : X → X → bool) l l' :
  (∀ x x', eqb x x' = true → x = x') → list_eqb eqb l l' = true → l = l'.
Proof.
  intros He. revert l'. induction l as [|x l IH]; intros [|x' l']; cbn; try done.
  intros [Hx Hl]%andb_prop. f_equal; [by apply He|by apply IH].
Qed.

Lemma range_eqb_eq r r' : range_eqb r r' = true → r = r'.
Proof.
  destruct r, r'. unfold range_eqb. cbn. rewrite andb_true_iff, !Z.eqb_eq. by intros [-> ->].
Qed.

Lemma regex_eqb_eq r r' : regex_eqb r r' = true → r = r'.
Proof.
  revert r'. induction r; intros []; cbn; try done.
  - intros H. f_equal. by apply (list_eqb_eq range_eqb), H; apply range_eqb_eq.
  - intros [H1 H2]%andb_prop. f_equal; auto.
  - intros [H1 H2]%andb_prop. f_equal; auto.
  - intros H. f_equal; auto.
Qed.

(** A byte in one of the ranges. *)
Definition in_ranges (rs : list (Z * Z)) (b : ascii) : bool :=
  existsb (λ r, (r.1 <=? b2z b) && (b2z b <=? r.2)) rs.

Inductive matches : regex → list ascii → Prop :=
| match_eps : matches Eps []
| match_cls rs b : in_ranges rs b = true → matches (Cls rs) [b]
| match_alt_l r1 r2 w : matches r1 w → matches (Alt r1 r2) w
| match_alt_r r1 r2 w : matches r2 w → matches (Alt r1 r2) w
| match_cat r1 r2 w1 w2 : matches r1 w1 → matches r2 w2 → matches (Cat r1 r2) (w1 ++ w2)
| match_star_nil r : matches (Star r) []
| match_star_app r w1 w2 : matches r w1 → matches (Star r) w2 → matches (Star r) (w1 ++ w2).

(** *** Abbreviations of grammars *)

Definition Opt (r : regex) : regex := Alt Eps r.
Definition Plus (r : regex) : regex := Cat r (Star r).
Fixpoint Times (n : nat) (r : regex) : regex :=
  match n with O => Eps | 1%nat => r | S n => Cat r (Times n r) end.
(** Between one and [n] times. *)
Fixpoint UpTo (n : nat) (r : regex) : regex :=
  match n with O => Eps | 1%nat => r | S n => Cat r (Opt (UpTo n r)) end.
Definition Alts (l : list regex) : regex :=
  match rev l with [] => Empty | r :: l => foldl (λ a x, Alt x a) r l end.
Definition Cats (l : list regex) : regex :=
  match rev l with [] => Eps | r :: l => foldl (λ a x, Cat x a) r l end.
Definition Chr (c : ascii) : regex := Cls [(b2z c, b2z c)].
Definition Chrs (s : list ascii) : regex := Cls ((λ c, (b2z c, b2z c)) <$> s).
Definition Lit (s : list ascii) : regex := Cats (Chr <$> s).

(** ** Partial derivatives *)

Fixpoint nullable (r : regex) : bool :=
  match r with
  | Empty | Cls _ => false
  | Eps | Star _ => true
  | Alt r1 r2 => nullable r1 || nullable r2
  | Cat r1 r2 => nullable r1 && nullable r2
  end.

Definition cat (r1 r2 : regex) : regex := match r1 with Eps => r2 | _ => Cat r1 r2 end.

Fixpoint pd (r : regex) (b : ascii) : list regex :=
  match r with
  | Empty | Eps => []
  | Cls rs => if in_ranges rs b then [Eps] else []
  | Alt r1 r2 => pd r1 b ++ pd r2 b
  | Cat r1 r2 => ((λ r', cat r' r2) <$> pd r1 b) ++ (if nullable r1 then pd r2 b else [])
  | Star r1 => (λ r', cat r' (Star r1)) <$> pd r1 b
  end.

Lemma nullable_spec r : nullable r = true ↔ matches r [].
Proof.
  split.
  - induction r; cbn; intros H; try done; [constructor| | |constructor].
    + apply orb_prop in H as [H|H]; [by apply match_alt_l, IHr1|by apply match_alt_r, IHr2].
    + apply andb_prop in H as [H1 H2]. change [] with (([] : list ascii) ++ []).
      constructor; [by apply IHr1|by apply IHr2].
  - remember [] as w eqn:Hw. induction 1; cbn; try done.
    + rewrite IHmatches by done. done.
    + rewrite IHmatches by done. apply orb_true_r.
    + apply app_nil in Hw as [-> ->]. by rewrite IHmatches1, IHmatches2.
Qed.

Lemma matches_cat_inv r1 r2 w :
  matches (Cat r1 r2) w ↔ ∃ w1 w2, w = w1 ++ w2 ∧ matches r1 w1 ∧ matches r2 w2.
Proof.
  split; [intros H; inversion H; subst; eauto|]. intros (w1 & w2 & -> & H1 & H2). by constructor.
Qed.

Lemma cat_spec r1 r2 w : matches (cat r1 r2) w ↔ matches (Cat r1 r2) w.
Proof.
  destruct r1; try done. cbn [cat]. rewrite matches_cat_inv. split.
  - intros H. exists [], w. split; [done|]. split; [constructor|done].
  - intros (w1 & w2 & -> & H1 & H2). by inversion H1.
Qed.

(** A non-empty word of a star begins with a non-empty word of its body. *)
Lemma star_cons r b w :
  matches (Star r) (b :: w) ↔ ∃ w1 w2, w = w1 ++ w2 ∧ matches r (b :: w1) ∧ matches (Star r) w2.
Proof.
  split.
  - intros H. remember (Star r) as s eqn:Hs. remember (b :: w) as u eqn:Hu.
    revert b w Hu. induction H as [| | | | | |r' w1 w2 H1 _ H2 IH]; intros b' w' Hu; try done.
    injection Hs as ->. destruct w1 as [|a w1]; cbn [app] in Hu; [by apply IH|].
    injection Hu as -> <-. by exists w1, w2.
  - intros (w1 & w2 & -> & H1 & H2). change (b :: w1 ++ w2) with ((b :: w1) ++ w2). by constructor.
Qed.

Lemma pd_spec r b w : matches r (b :: w) ↔ ∃ r', r' ∈ pd r b ∧ matches r' w.
Proof.
  revert w. induction r as [| |rs|r1 IH1 r2 IH2|r1 IH1 r2 IH2|r1 IH1]; intros w; cbn [pd].
  - split; [inversion 1|intros (? & ?%not_elem_of_nil & _); done].
  - split; [inversion 1|intros (? & ?%not_elem_of_nil & _); done].
  - split.
    + inversion 1 as [|? ? Hb| | | | |]; subst. exists Eps. rewrite Hb. split; [by left|constructor].
    + intros (r' & Hr & Hm). destruct (in_ranges rs b) eqn:Hb; [|by apply not_elem_of_nil in Hr].
      apply list_elem_of_singleton in Hr as ->. inversion Hm. by constructor.
  - setoid_rewrite elem_of_app. split.
    + inversion 1 as [| |? ? ? Hm|? ? ? Hm| | |]; subst; [apply IH1 in Hm|apply IH2 in Hm];
        destruct Hm as (r' & Hr & Hm); exists r'; auto.
    + intros (r' & [Hr|Hr] & Hm); [apply match_alt_l, IH1|apply match_alt_r, IH2]; eauto.
  - setoid_rewrite elem_of_app. setoid_rewrite list_elem_of_fmap. rewrite matches_cat_inv. split.
    + intros (w1 & w2 & Hw & H1 & H2). destruct w1 as [|a w1]; cbn [app] in Hw.
      * subst w2. apply nullable_spec in H1. rewrite H1. apply IH2 in H2 as (r' & Hr & Hm). eauto.
      * injection Hw as <- ->. apply IH1 in H1 as (r' & Hr & Hm). exists (cat r' r2).
        split; [eauto|]. apply cat_spec. by constructor.
    + intros (r' & [(r0 & -> & Hr)|Hr] & Hm).
      * apply cat_spec, matches_cat_inv in Hm as (w1 & w2 & -> & H1 & H2).
        exists (b :: w1), w2. split; [done|]. split; [apply IH1; eauto|done].
      * destruct (nullable r1) eqn:Hn; [|by apply not_elem_of_nil in Hr].
        exists [], (b :: w). split; [done|]. split; [by apply nullable_spec|apply IH2; eauto].
  - setoid_rewrite list_elem_of_fmap. rewrite star_cons. split.
    + intros (w1 & w2 & -> & H1 & H2). apply IH1 in H1 as (r' & Hr & Hm). exists (cat r' (Star r1)).
      split; [eauto|]. apply cat_spec. by constructor.
    + intros (r' & (r0 & -> & Hr) & Hm). apply cat_spec, matches_cat_inv in Hm as (w1 & w2 & -> & H1 & H2).
      exists w1, w2. split; [done|]. split; [apply IH1; eauto|done].
Qed.

(** Matching by derivatives. *)
Definition derive (rs : list regex) (b : ascii) : list regex := rs ≫= λ r, pd r b.
Definition matchb (r : regex) (w : list ascii) : bool := existsb nullable (foldl derive [r] w).

Lemma derive_spec w rs :
  existsb nullable (foldl derive rs w) = true ↔ ∃ r, r ∈ rs ∧ matches r w.
Proof.
  revert rs. induction w as [|b w IH]; intros rs; cbn [foldl].
  - rewrite existsb_exists. split; intros (r & Hr & Hm); exists r;
      (split; [by apply list_elem_of_In|by apply nullable_spec]).
  - rewrite IH. unfold derive. setoid_rewrite list_elem_of_bind. split.
    + intros (r' & (r & Hr' & Hr) & Hm). exists r. split; [done|]. apply pd_spec. eauto.
    + intros (r & Hr & (r' & Hr' & Hm)%pd_spec). eauto.
Qed.

Lemma matchb_spec r w : matchb r w = true ↔ matches r w.
Proof.
  unfold matchb. rewrite derive_spec. split.
  - by intros (r' & ->%list_elem_of_singleton & Hm).
  - intros Hm. exists r. split; [by apply list_elem_of_singleton|done].
Qed.

(** ** Bytes an expression cannot tell apart *)

Fixpoint classes (r : regex) : list (list (Z * Z)) :=
  match r with
  | Empty | Eps => []
  | Cls rs => [rs]
  | Alt r1 r2 | Cat r1 r2 => classes r1 ++ classes r2
  | Star r => classes r
  end.

Definition alike (cls : list (list (Z * Z))) (b b' : ascii) : bool :=
  forallb (λ rs, Bool.eqb (in_ranges rs b) (in_ranges rs b')) cls.

Lemma pd_alike cls r b b' :
  (∀ rs, rs ∈ classes r → rs ∈ cls) → alike cls b b' = true → pd r b = pd r b'.
Proof.
  intros Hc Ha. induction r as [| |rs|r1 IH1 r2 IH2|r1 IH1 r2 IH2|r1 IH1]; cbn [pd classes] in *; [done|done|..].
  - unfold alike in Ha. rewrite forallb_forall in Ha. specialize (Ha rs). cbn beta in Ha.
    rewrite (eqb_prop _ _ (Ha (proj1 (list_elem_of_In _ _) (Hc rs ltac:(by left))))). done.
  - rewrite IH1, IH2; [done|intros rs Hrs..]; apply Hc, elem_of_app; auto.
  - rewrite IH1, IH2; [done|intros rs Hrs..]; apply Hc, elem_of_app; auto.
  - by rewrite IH1.
Qed.

Lemma pd_classes r b r' rs : r' ∈ pd r b → rs ∈ classes r' → rs ∈ classes r.
Proof.
  assert (∀ r1 r2, rs ∈ classes (cat r1 r2) → rs ∈ classes r1 ++ classes r2) as Hcat.
  { intros r1 r2. destruct r1; cbn [cat classes]; try done. }
  revert r'. induction r as [| |cs|r1 IH1 r2 IH2|r1 IH1 r2 IH2|r1 IH1]; intros r' Hr Hrs; cbn [pd classes] in *.
  - by apply not_elem_of_nil in Hr.
  - by apply not_elem_of_nil in Hr.
  - destruct (in_ranges cs b); [apply list_elem_of_singleton in Hr as ->|by apply not_elem_of_nil in Hr].
    by apply not_elem_of_nil in Hrs.
  - apply elem_of_app in Hr as [Hr|Hr]; apply elem_of_app; eauto.
  - apply elem_of_app in Hr as [(r0 & -> & Hr)%list_elem_of_fmap|Hr].
    + apply Hcat, elem_of_app in Hrs as [Hrs|Hrs]; apply elem_of_app; eauto.
    + destruct (nullable r1); [|by apply not_elem_of_nil in Hr]. apply elem_of_app; eauto.
  - apply list_elem_of_fmap in Hr as (r0 & -> & Hr). apply Hcat, elem_of_app in Hrs as [Hrs|Hrs]; eauto.
Qed.

(** ** The checker

    The bytes are sorted into kinds, each with a representative in [reps]; the
    derivatives are numbered by [table]; [delta] has the successors of a number by
    the representatives in order; [pairs] relates states of the automaton with
    sets of numbers.  They are found by [explore] and nothing is assumed of them. *)

Record certificate := {
  cls : list (list (Z * Z));
  kinds : list nat;
  reps : list ascii;
  table : Pmap regex;
  delta : Pmap (list (list positive));
  pairs : gmap Z (list (list positive));
}.

Definition kind (c : certificate) (b : ascii) : nat := default 0%nat (kinds c !! Z.to_nat (b2z b)).
Definition rep (c : certificate) (b : ascii) : ascii := default b (reps c !! kind c b).

Fixpoint insert_index (x : positive) (l : list positive) : list positive :=
  match l with
  | [] => [x]
  | y :: l' => match (x ?= y)%positive with Lt => x :: l | Eq => l | Gt => y :: insert_index x l' end
  end.
Definition union_index (l l' : list positive) : list positive := foldr insert_index l' l.

Definition succs (c : certificate) (i : positive) (k : nat) : list positive :=
  default [] (delta c !! i ≫= (.!! k)).
Definition step (c : certificate) (S : list positive) (k : nat) : list positive :=
  foldr (λ i acc, union_index (succs c i k) acc) [] S.

Definition nullable_in (c : certificate) (S : list positive) : bool :=
  existsb (λ i, match table c !! i with Some r => nullable r | None => false end) S.
Definition step_of (first : bool) (c : certificate) (S : list positive) (k : nat) : list positive :=
  if first && nullable_in c S then [] else step c S k.

Definition at_index (c : certificate) (i : positive) : regex := default Empty (table c !! i).

Definition names (c : certificate) (j : positive) (r : regex) : bool :=
  match table c !! j with Some r' => regex_eqb r' r | None => false end.

Definition related (c : certificate) (q : Z) (S : list positive) : bool :=
  existsb (list_eqb Pos.eqb S) (default [] (pairs c !! q)).

(** The numbers of [i]'s successors are those of its derivatives. *)
Definition index_ok (c : certificate) (i : positive) (r : regex) : bool :=
  forallb (λ kb, let js := succs c i kb.1 in let ds := pd r kb.2 in
    forallb (λ r', existsb (λ j, names c j r') js) ds &&
    forallb (λ j, existsb (names c j) ds) js)
    (imap pair (reps c)).

(** *** Finding a certificate *)

Definition dedup {X} (eqb : X → X → bool) (l : list X) : list X :=
  foldr (λ x acc, if existsb (eqb x) acc then acc else x :: acc) [] l.

(** Kinds of bytes: the first byte of each is its representative. *)
Fixpoint sort_bytes (cls : list (list (Z * Z))) (bs reps : list ascii) (kinds : list nat) : list nat * list ascii :=
  match bs with
  | [] => (rev kinds, reps)
  | b :: bs =>
      match list_find (λ b', alike cls b b' = true) reps with
      | Some (k, _) => sort_bytes cls bs reps (k :: kinds)
      | None => sort_bytes cls bs (reps ++ [b]) (length reps :: kinds)
      end
  end.

Record numbering := {
  known : list (regex * positive);
  fresh : positive;
  numbered : Pmap regex;
}.

Definition number (r : regex) (s : numbering) : positive * bool * numbering :=
  match List.find (λ e, regex_eqb e.1 r) (known s) with
  | Some (_, j) => (j, false, s)
  | None => (fresh s, true,
      {| known := (r, fresh s) :: known s; fresh := Pos.succ (fresh s);
         numbered := <[fresh s := r]> (numbered s) |})
  end.

(** Numbers for a list of derivatives, and those that are new. *)
Fixpoint number_all (rs : list regex) (s : numbering) (todo : list (positive * regex))
    : list positive * numbering * list (positive * regex) :=
  match rs with
  | [] => ([], s, todo)
  | r :: rs =>
      let '(j, new, s) := number r s in
      let '(js, s, todo) := number_all rs s (if new : bool then (j, r) :: todo else todo) in
      (insert_index j js, s, todo)
  end.

Fixpoint number_row (r : regex) (bs : list ascii) (s : numbering) (todo : list (positive * regex))
    : list (list positive) * numbering * list (positive * regex) :=
  match bs with
  | [] => ([], s, todo)
  | b :: bs =>
      let '(js, s, todo) := number_all (dedup regex_eqb (pd r b)) s todo in
      let '(row, s, todo) := number_row r bs s todo in (js :: row, s, todo)
  end.

Fixpoint explore_table (fuel : nat) (bs : list ascii) (s : numbering) (delta : Pmap (list (list positive)))
    (todo : list (positive * regex)) : numbering * Pmap (list (list positive)) :=
  match fuel, todo with
  | S fuel, (i, r) :: todo =>
      let '(row, s, todo) := number_row r bs s todo in explore_table fuel bs s (<[i := row]> delta) todo
  | _, _ => (s, delta)
  end.

Fixpoint explore_pairs (first : bool) (next : Z → ascii → Z) (fuel : nat) (c : certificate) (todo : list (Z * list positive))
    : certificate :=
  match fuel, todo with
  | S fuel, (q, X) :: todo =>
      if related c q X then explore_pairs first next fuel c todo
      else
        let c := {| cls := cls c; kinds := kinds c; reps := reps c; table := table c; delta := delta c;
                    pairs := <[q := X :: default [] (pairs c !! q)]> (pairs c) |} in
        explore_pairs first next fuel c
          (foldr (λ kb todo, let q' := next q kb.2 in
             if q' =? 0 then todo else (q', step_of first c X kb.1) :: todo) todo (imap pair (reps c)))
  | _, _ => c
  end.

Definition explore (first : bool) (g : regex) (next : Z → ascii → Z) (start : Z) (fuel : nat) : certificate :=
  let cls := dedup (list_eqb range_eqb) (classes g) in
  let '(kinds, reps) := sort_bytes cls all_bytes [] [] in
  let '(s, delta) := explore_table fuel reps
    {| known := [(g, 1%positive)]; fresh := 2; numbered := {[1%positive := g]} |} ∅ [(1%positive, g)] in
  explore_pairs first next fuel
    {| cls := cls; kinds := kinds; reps := reps; table := numbered s; delta := delta; pairs := ∅ |}
    [(start, [1%positive])].

(** The words of an expression; when [first], only those with no shorter word in
    front of them: a parser that stops as soon as it can accepts these. *)
Definition words (first : bool) (g : regex) (w : list ascii) : Prop :=
  matches g w ∧ (first = true → ∀ u v, w = u ++ v → v ≠ [] → ¬ matches g u).

(** A word has a first word in front of it or is one. *)
Lemma words_first g w : matches g w → ∃ u v, w = u ++ v ∧ words true g u.
Proof.
  induction w as [w IH] using (induction_ltof1 _ (@length ascii)). unfold ltof in IH. intros Hm.
  destruct (existsb (λ n, matchb g (take n w)) (seq 0 (length w))) eqn:E.
  - apply existsb_exists in E as (n & Hn & Hg). apply list_elem_of_In, elem_of_seq in Hn.
    destruct (IH (take n w)) as (u & v & Hu & Hw); [rewrite length_take; lia|by apply matchb_spec|].
    exists u, (v ++ drop n w). split; [|done]. by rewrite (assoc_L (++)), <- Hu, take_drop.
  - exists w, []. split; [by rewrite app_nil_r|]. split; [done|]. intros _ u v Hw Hv Hu.
    assert (existsb (λ n, matchb g (take n w)) (seq 0 (length w)) = true) as E'; [|congruence].
    apply existsb_exists. exists (length u). split.
    + apply list_elem_of_In, elem_of_seq. rewrite Hw, length_app. destruct v; [done|]. cbn. lia.
    + apply matchb_spec. by rewrite Hw, take_app_length.
Qed.

Section checker.
Context (first : bool) (g : regex) (next : Z → ascii → Z) (final : Z → bool) (start : Z) (states : list Z).

Definition pair_ok (c : certificate) (q : Z) (S : list positive) : bool :=
  Bool.eqb (final q) (nullable_in c S) &&
  forallb (λ kb, let q' := next q kb.2 in let S' := step_of first c S kb.1 in
    if q' =? 0 then match S' with [] => true | _ => false end else related c q' S') (imap pair (reps c)).

Definition check (c : certificate) : bool :=
  forallb (λ rs, existsb (list_eqb range_eqb rs) (cls c)) (classes g) &&
  forallb (λ b, (kind c b <? length (reps c))%nat && alike (cls c) b (rep c b)) all_bytes &&
  forallb (λ q, forallb (λ b, next q b =? next q (rep c b)) all_bytes) states &&
  forallb (λ ir, index_ok c ir.1 ir.2) (map_to_list (table c)) &&
  forallb (λ qS, existsb (Z.eqb qS.1) states && forallb (pair_ok c qS.1) qS.2) (map_to_list (pairs c)) &&
  names c 1 g && related c start [1%positive].

Definition accepts (q : Z) (w : list ascii) : bool := final (foldl next q w).

(** *** What a checked certificate shows *)

Lemma insert_index_spec x l i : i ∈ insert_index x l ↔ i = x ∨ i ∈ l.
Proof.
  induction l as [|y l IH]; cbn [insert_index]; [by rewrite elem_of_cons|].
  destruct (x ?= y)%positive eqn:E; rewrite !elem_of_cons; [|done|rewrite IH; tauto].
  apply Pos.compare_eq in E as ->. tauto.
Qed.

Lemma union_index_spec l l' i : i ∈ union_index l l' ↔ i ∈ l ∨ i ∈ l'.
Proof.
  induction l as [|x l IH]; cbn [union_index foldr].
  - split; [by right|]. intros [H|H]; [by apply not_elem_of_nil in H|done].
  - fold (union_index l l'). rewrite insert_index_spec, IH, elem_of_cons. tauto.
Qed.

Lemma step_spec c S k j : j ∈ step c S k ↔ ∃ i, i ∈ S ∧ j ∈ succs c i k.
Proof.
  induction S as [|i S IH]; cbn [step foldr].
  - split; [intros H; by apply not_elem_of_nil in H|intros (i & H & _); by apply not_elem_of_nil in H].
  - fold (step c S k). rewrite union_index_spec, IH. split.
    + intros [Hj|(i' & Hi & Hj)]; [exists i; split; [by left|done]|exists i'; split; [by right|done]].
    + intros (i' & [->|Hi]%elem_of_cons & Hj); [by left|right; eauto].
Qed.

Section sound.
Context (c : certificate) (checked : check c = true).
Hypothesis next_dead : ∀ b, next 0 b = 0.
Hypothesis final_dead : final 0 = false.

Lemma names_spec j r : names c j r = true → table c !! j = Some r.
Proof. unfold names. destruct (table c !! j); [|done]. by intros ->%regex_eqb_eq. Qed.

Lemma checked_parts :
  (∀ rs, rs ∈ classes g → rs ∈ cls c) ∧
  (∀ b, reps c !! kind c b = Some (rep c b) ∧ alike (cls c) b (rep c b) = true) ∧
  (∀ i r, table c !! i = Some r → index_ok c i r = true) ∧
  (∀ q S, related c q S = true → pair_ok c q S = true ∧ ∀ b, next q b = next q (rep c b)) ∧
  table c !! 1%positive = Some g ∧ related c start [1%positive] = true.
Proof.
  pose proof checked as H. unfold check in H. rewrite !andb_true_iff in H.
  destruct H as [[[[[[H1 H2] H3] H4] H5] H6] H7].
  split_and!; [| | | |by apply names_spec|done].
  - intros rs Hrs. rewrite forallb_forall in H1. specialize (H1 rs (proj1 (list_elem_of_In _ _) Hrs)).
    apply existsb_exists in H1 as (rs' & Hin & ->%(list_eqb_eq _ _ _ range_eqb_eq)). by apply list_elem_of_In.
  - intros b. pose proof (forall_bytes _ H2 b) as Hb. cbn beta in Hb. apply andb_prop in Hb as [Hk Ha].
    apply Nat.ltb_lt in Hk. split; [|done]. unfold rep.
    destruct (lookup_lt_is_Some_2 (reps c) (kind c b) Hk) as [b' ->]. done.
  - intros i r Hr. rewrite forallb_forall in H4. apply (H4 (i, r)), list_elem_of_In.
    by apply elem_of_map_to_list.
  - intros q S HS. unfold related in HS. apply existsb_exists in HS as (S' & Hin & ->%(list_eqb_eq _ _ _ (λ x x', proj1 (Pos.eqb_eq x x')))).
    destruct (pairs c !! q) as [Ss|] eqn:Hq; [|done]. cbn in Hin.
    rewrite forallb_forall in H5. specialize (H5 (q, Ss)). cbn [fst snd] in H5.
    apply andb_prop in H5 as [Hst Hp]; [|by apply list_elem_of_In, elem_of_map_to_list].
    rewrite forallb_forall in Hp. split; [by apply Hp|]. intros b.
    apply existsb_exists in Hst as (q' & Hq' & <-%Z.eqb_eq). rewrite forallb_forall in H3.
    specialize (H3 _ Hq'). pose proof (forall_bytes _ H3 b) as Hb. by apply Z.eqb_eq in Hb.
Qed.

(** The successors of a related set are its derivatives. *)
Lemma step_matches S b w :
  (∀ i, i ∈ S → ∃ r, table c !! i = Some r ∧ ∀ rs, rs ∈ classes r → rs ∈ cls c) →
  (∀ j, j ∈ step c S (kind c b) → ∃ r, table c !! j = Some r ∧ ∀ rs, rs ∈ classes r → rs ∈ cls c) ∧
  ((∃ i, i ∈ S ∧ matches (at_index c i) (b :: w)) ↔
   ∃ j, j ∈ step c S (kind c b) ∧ matches (at_index c j) w).
Proof.
  destruct checked_parts as (_ & Hrep & Hidx & _). intros HS.
  destruct (Hrep b) as [Hk Halike].
  assert (∀ i r, i ∈ S → table c !! i = Some r →
    (∀ r', r' ∈ pd r b → ∃ j, j ∈ succs c i (kind c b) ∧ table c !! j = Some r') ∧
    (∀ j, j ∈ succs c i (kind c b) → ∃ r', r' ∈ pd r b ∧ table c !! j = Some r')) as Hsucc.
  { intros i r Hi Hr. destruct (HS i Hi) as (r0 & Hr0 & Hcls). rewrite Hr in Hr0. injection Hr0 as <-.
    rewrite (pd_alike (cls c) r b (rep c b) Hcls Halike).
    pose proof (Hidx i r Hr) as Hok. unfold index_ok in Hok. rewrite forallb_forall in Hok.
    specialize (Hok (kind c b, rep c b)). cbn [fst snd] in Hok. apply andb_prop in Hok as [H1 H2].
    2:{ apply list_elem_of_In, elem_of_lookup_imap. eauto. }
    rewrite forallb_forall in H1, H2. split.
    - intros r' Hr'. specialize (H1 r' (proj1 (list_elem_of_In _ _) Hr')).
      apply existsb_exists in H1 as (j & Hj & Ht%names_spec). exists j. split; [by apply list_elem_of_In|done].
    - intros j Hj. specialize (H2 j (proj1 (list_elem_of_In _ _) Hj)).
      apply existsb_exists in H2 as (r' & Hr' & Ht%names_spec). exists r'.
      split; [by apply list_elem_of_In|done]. }
  split.
  - intros j (i & Hi & Hj)%step_spec. destruct (HS i Hi) as (r & Hr & Hcls).
    destruct (proj2 (Hsucc i r Hi Hr) j Hj) as (r' & Hr' & Hj'). exists r'. split; [done|].
    intros rs Hrs. apply Hcls. by eapply pd_classes.
  - split.
    + intros (i & Hi & Hm). destruct (HS i Hi) as (r & Hr & _). unfold at_index in Hm. rewrite Hr in Hm.
      apply pd_spec in Hm as (r' & Hr' & Hm). destruct (proj1 (Hsucc i r Hi Hr) r' Hr') as (j & Hj & Hj').
      exists j. split; [apply step_spec; eauto|]. unfold at_index. by rewrite Hj'.
    + intros (j & (i & Hi & Hj)%step_spec & Hm). destruct (HS i Hi) as (r & Hr & _).
      destruct (proj2 (Hsucc i r Hi Hr) j Hj) as (r' & Hr' & Hj'). unfold at_index in Hm. rewrite Hj' in Hm.
      exists i. split; [done|]. unfold at_index. rewrite Hr. apply pd_spec. eauto.
Qed.

Lemma accepts_dead w : accepts 0 w = false.
Proof. unfold accepts. induction w as [|b w IH]; cbn [foldl]; [done|]. by rewrite next_dead. Qed.

Definition lang (S : list positive) (w : list ascii) : Prop :=
  ∃ i, i ∈ S ∧ matches (at_index c i) w.
Definition lang_words (S : list positive) (w : list ascii) : Prop :=
  lang S w ∧ (first = true → ∀ u v, w = u ++ v → v ≠ [] → ¬ lang S u).
Definition well_numbered (S : list positive) : Prop :=
  ∀ i, i ∈ S → ∃ r, table c !! i = Some r ∧ ∀ rs, rs ∈ classes r → rs ∈ cls c.

Lemma nullable_lang S : well_numbered S → nullable_in c S = true ↔ lang S [].
Proof.
  intros HS. unfold nullable_in, lang. rewrite existsb_exists. unfold at_index.
  split; intros (i & Hi & Hm); exists i; (split; [by apply list_elem_of_In|]).
  - destruct (table c !! i); [by apply nullable_spec|done].
  - destruct (HS i Hi) as (r & Hr & _). rewrite Hr in *. by apply nullable_spec.
Qed.

(** One byte, from a set that does not stop before it. *)
Lemma lang_words_step S b w :
  well_numbered S → first && nullable_in c S = false →
  lang_words S (b :: w) ↔ lang_words (step c S (kind c b)) w.
Proof.
  intros HS Hgo. assert (∀ u, lang S (b :: u) ↔ lang (step c S (kind c b)) u) as Hst
    by (intros u; apply step_matches, HS).
  unfold lang_words. rewrite Hst. split; intros [Hl Hf]; (split; [done|]); intros Hfirst u v Hw Hv.
  - rewrite <- Hst. apply (Hf Hfirst (b :: u) v); [by rewrite Hw|done].
  - destruct u as [|b' u].
    + rewrite <- nullable_lang by done. rewrite Hfirst in Hgo. cbn in Hgo. by rewrite Hgo.
    + injection Hw as <- ->. rewrite Hst. by apply (Hf Hfirst u v).
Qed.

Lemma related_accepts w q S :
  related c q S = true → well_numbered S → accepts q w = true ↔ lang_words S w.
Proof.
  destruct checked_parts as (_ & Hrep & _ & Hpair & _).
  revert q S. induction w as [|b w IH]; intros q S HqS HS; destruct (Hpair q S HqS) as [Hp Hn];
    unfold pair_ok in Hp; rewrite andb_true_iff in Hp; destruct Hp as [Hfin Hstep].
  - unfold accepts. cbn [foldl]. rewrite (eqb_prop _ _ Hfin), nullable_lang by done. unfold lang_words.
    split; [|by intros [? _]]. intros Hl. split; [done|]. intros _ [|? ?] [|? ?]; done.
  - rewrite forallb_forall in Hstep. specialize (Hstep (kind c b, rep c b)). cbn [fst snd] in Hstep.
    rewrite <- Hn in Hstep. specialize (Hstep (proj1 (list_elem_of_In _ _) (proj2 (elem_of_lookup_imap _ _ _)
      (ex_intro _ (kind c b) (ex_intro _ (rep c b) (conj eq_refl (proj1 (Hrep b)))))))).
    change (accepts q (b :: w)) with (accepts (next q b) w).
    destruct (step_matches S b w HS) as [HS' _]. unfold step_of in Hstep.
    destruct (first && nullable_in c S) eqn:Hgo.
    + apply andb_prop in Hgo as [Hfirst Hnull]. apply nullable_lang in Hnull; [|done].
      assert (¬ lang_words S (b :: w)) as Hno by (intros [_ Hf]; by apply (Hf Hfirst [] (b :: w))).
      split; [|done]. destruct (Z.eqb_spec (next q b) 0) as [->|E]; [by rewrite accepts_dead|].
      intros Ha. apply (IH _ _ Hstep) in Ha as [(i & Hi & _) _]; [by apply not_elem_of_nil in Hi|].
      intros i Hi. by apply not_elem_of_nil in Hi.
    + rewrite lang_words_step by done. destruct (Z.eqb_spec (next q b) 0) as [->|E]; [|by apply IH].
      rewrite accepts_dead. destruct (step c S (kind c b)); [|done].
      split; [done|]. intros [(j & Hj & _) _]. by apply not_elem_of_nil in Hj.
Qed.

(** A checked certificate shows that the automaton accepts the words of the
    expression. *)
Theorem accepts_words w : accepts start w = true ↔ words first g w.
Proof.
  destruct checked_parts as (Hcls & _ & _ & _ & Hone & Hst).
  assert (∀ u, lang [1%positive] u ↔ matches g u) as Hl.
  { intros u. split.
    - intros (i & ->%list_elem_of_singleton & Hm). unfold at_index in Hm. by rewrite Hone in Hm.
    - intros Hm. exists 1%positive. split; [by apply list_elem_of_singleton|]. unfold at_index. by rewrite Hone. }
  rewrite (related_accepts w start [1%positive] Hst).
  - unfold lang_words, words. by setoid_rewrite Hl.
  - intros i ->%list_elem_of_singleton. eauto.
Qed.

End sound.
End checker.

End Regex.

(** ** Machines that stop at a final state

    The actions of two of the generated machines end with [fbreak] when the
    grammar is complete: they stop behind the first word of it. *)
Module FirstMatch.

Import Ragel Regex.

Section first.
Context {X T : Type} (m : machine X) (act : X → Z → M T bool) (first_final last : Z).
Hypothesis act_stops : ∀ a p s brk s', act a p s = Ret brk s' → brk = stops m a.

(** The automaton of such a machine. *)
Definition next_first (q : Z) (b : ascii) : Z := if first_final <=? q then 0 else next m q b.
Definition accepts_first (q : Z) (w : list ascii) : bool := first_final <=? foldl next_first q w.

(** Every state below the final ones has a case, and an action breaks exactly on
    the way into a final state. *)
Definition breaks_ok : bool :=
  forallb (λ q, match states m q with None => false | Some _ => true end &&
    forallb (λ b, let '(acts, n) := on_byte m q b in
      (0 <=? n) && (n <=? last) && ((n =? 0) || Bool.eqb (existsb (stops m) acts) (first_final <=? n))) all_bytes)
    (Z.of_nat <$> seq 1 (Z.to_nat first_final - 1)).
Hypothesis checked : breaks_ok = true.
Hypothesis final_pos : 0 < first_final.

Lemma break_at q b acts n :
  0 < q < first_final → on_byte m q b = (acts, n) → n ≠ 0 →
  states m q ≠ None ∧ 0 < n ∧ existsb (stops m) acts = (first_final <=? n).
Proof.
  intros Hq Hb Hn. pose proof checked as H. unfold breaks_ok in H. rewrite forallb_forall in H.
  specialize (H q). rewrite andb_true_iff in H. destruct H as [Hs H].
  { apply list_elem_of_In, list_elem_of_fmap. exists (Z.to_nat q). split; [lia|]. apply elem_of_seq. lia. }
  pose proof (forall_bytes _ H b) as H'. cbn beta in H'. rewrite Hb in H'.
  rewrite !andb_true_iff, orb_true_iff in H'. destruct H' as [[H1 _] H2].
  split; [by destruct (states m q)|]. split; [lia|]. destruct H2 as [H2|H2]; [lia|by apply eqb_prop].
Qed.

Lemma has_state q : 0 < q < first_final → states m q ≠ None.
Proof.
  intros Hq. pose proof checked as H. unfold breaks_ok in H. rewrite forallb_forall in H.
  specialize (H q). rewrite andb_true_iff in H. destruct H as [Hs _]; [|by destruct (states m q)].
  apply list_elem_of_In, list_elem_of_fmap. exists (Z.to_nat q). split; [lia|]. apply elem_of_seq. lia.
Qed.

Lemma actions_break acts p s brk s' :
  actions act acts p s = Ret brk s' → brk = existsb (stops m) acts.
Proof.
  revert s. induction acts as [|a acts IH]; intros s; cbn [actions existsb]; [by intros [= <- _]|].
  intros (b & s1 & Ha & H)%bind_inv. rewrite (act_stops _ _ _ _ _ Ha) in H.
  destruct (stops m a); [by injection H as <- _|]. by apply IH in H.
Qed.

Hypothesis no_zero : states m 0 = None.

Lemma next_first_dead b : next_first 0 b = 0.
Proof. unfold next_first, next, on_byte. rewrite no_zero. by destruct (first_final <=? 0). Qed.

Lemma accepts_first_dead w : accepts_first 0 w = false.
Proof.
  unfold accepts_first. assert (foldl next_first 0 w = 0) as ->; [|lia].
  induction w as [|b w IH]; cbn [foldl]; [done|]. by rewrite next_first_dead.
Qed.

(** The code ends in a final state exactly behind the first word of the
    automaton. *)
Lemma exec_first input q p s p' n s' :
  0 < q < first_final → exec m act q p input s = Ret (p', n) s' →
  if first_final <=? n
  then p ≤ p' ≤ p + Z.of_nat (length input) ∧ accepts_first q (take (Z.to_nat (p' - p)) input) = true
  else ∀ u v, input = u ++ v → accepts_first q u = false.
Proof.
  revert q p s. induction input as [|b input IH]; intros q p s Hq; cbn [exec].
  - intros [= <- <- _]. rewrite (proj2 (Z.leb_gt _ _)) by lia. intros u v Hu. symmetry in Hu.
    apply app_nil in Hu as [-> _]. unfold accepts_first. cbn [foldl]. lia.
  - pose proof (break_at q b) as Hbr. pose proof (has_state q Hq) as Hst.
    assert (next_first q b = (on_byte m q b).2) as Hnx
      by (unfold next_first, next; by rewrite (proj2 (Z.leb_gt _ _)) by lia).
    assert (accepts_first q [] = false) as Hnil by (unfold accepts_first; cbn [foldl]; lia).
    unfold on_byte in *. destruct (states m q) as [f|]; [|done].
    destruct (goto m (f (schar b))) as [acts n1]. cbn [snd] in Hnx.
    assert (∀ w, accepts_first q (b :: w) = accepts_first n1 w) as Hcons
      by (intros w; unfold accepts_first; cbn [foldl]; by rewrite Hnx).
    destruct (Z.eqb_spec n1 0) as [->|Hn1].
    { intros [= <- <- _]. rewrite (proj2 (Z.leb_gt _ _)) by lia. intros [|b' u] v Hu; [done|].
      injection Hu as <- _. rewrite Hcons. apply accepts_first_dead. }
    destruct (Hbr acts n1 Hq eq_refl Hn1) as (_ & Hpos & Hstop).
    intros (brk & s1 & Ha & H)%bind_inv. rewrite (actions_break _ _ _ _ _ Ha), Hstop in H.
    destruct (Z.leb_spec first_final n1) as [Hfin|Hfin].
    + injection H as <- <- _. rewrite (proj2 (Z.leb_le _ _)) by lia. cbn [length]. split; [lia|].
      replace (Z.to_nat (p + 1 - p)) with 1%nat by lia. cbn [take]. rewrite Hcons.
      rewrite take_0. unfold accepts_first. cbn [foldl]. lia.
    + specialize (IH n1 (p + 1) s1 ltac:(lia) H). destruct (first_final <=? n).
      * destruct IH as [Hp Hacc]. cbn [length]. split; [lia|].
        replace (Z.to_nat (p' - p)) with (S (Z.to_nat (p' - (p + 1)))) by lia.
        cbn [take]. by rewrite Hcons.
      * intros [|b' u] v Hu; [done|]. injection Hu as <- Hu. rewrite Hcons. by apply (IH u v).
Qed.

End first.
End FirstMatch.

(** Rules the grammars share. *)
Module Rules.

Import StdString Regex.

Definition alpha : list (Z * Z) := [(65, 90); (97, 122)].
Definition digit : list (Z * Z) := [(48, 57)].
Definition xdigit : regex := Cls [(48, 57); (65, 70); (97, 102)].
Definition chars (s : string) : list (Z * Z) := (λ c, (b2z c, b2z c)) <$> of_lit s.
Definition lit (s : string) : regex := Lit (of_lit s).

Definition unreserved : list (Z * Z) := alpha ++ digit ++ chars "-._~".
Definition pct_encoded : regex := Cats [lit "%"; xdigit; xdigit].
Definition h16 : regex := UpTo 4 xdigit.
(** [any -- ascii] *)
Definition non_ascii : list (Z * Z) := [(128, 255)].
Definition scheme : regex := Cat (Cls alpha) (Star (Cls (alpha ++ digit ++ chars "+-."))).
Definition port : regex := Star (Cls digit).

End Rules.
