(* ===== verification/Http11machine.v ===== *)
(** * Http11machine: the request parser's machine

    The states and transitions of http/http11_parser.rl.cc, case by case and in
    its order; [c] is [*p] and [relaxed] is [parser->uri_relaxed].  A group of
    cases is one definition.  http/http11_parser.cc is the same code with other
    #line directives. *)
From S2P Require Import Prelude Ragel.
Import Ragel.

Module Http11Machine.

(** The actions of the grammar, by name. *)
Inductive action :=
| mark
| start_field
| write_field
| start_value
| write_value
| request_method
| request_uri
| fragment
| start_query
| query_string
| http_version
| request_path
| done
| xml
| json.

#[export] Instance action_eq_dec : EqDecision action.
Proof. solve_decision. Defined.

(** A byte as the conditional of the grammar ([more_delims when uri_relaxed])
    widens it: the three delimiters of [more_delims] move out of the range of
    [char], by 256 more when the condition holds. *)
Definition widen (relaxed : bool) (c : Z) : Z :=
  let _widec := swrap 16 (128 + (c - -128)) in
  if relaxed then _widec + 256 else _widec.
Definition widec (relaxed : bool) (c : Z) : Z :=
  if c <? 123 then if (94 <=? c) && (c <=? 94) then widen relaxed c else c
  else if c >? 123 then if (125 <=? c) && (c <=? 125) then widen relaxed c else c
  else widen relaxed c.

(** *** The cases of the switch on the state *)

Definition http_cases_1 (relaxed : bool) (cs : Z) : option (Z -> label) :=
  match cs with
  | 1 => Some (fun c =>
      switch c [(60, tr 2); (64, tr 3)]
       (if c >? 57 then if (65 <=? c) && (c <=? 90) then tr 0 else st 0
        else if c >=? 48 then tr 0 else st 0))
  | 2 => Some (fun c =>
      if c =? 32 then tr 4
      else if c >? 57 then if (65 <=? c) && (c <=? 90) then st 175 else st 0
      else if c >=? 48 then st 175 else st 0)
  | 3 => Some (fun c =>
      let _widec := widec relaxed c in
      switch _widec [(32, tr 6); (33, tr 7); (35, tr 8); (37, tr 9); (47, tr 10);
        (59, tr 7); (61, tr 7); (63, tr 11); (64, tr 7); (95, tr 7); (126, tr 7);
        (606, tr 7); (635, tr 7); (637, tr 7)]
       (if _widec <? 65 then if (36 <=? _widec) && (_widec <=? 57) then tr 7 else st 0
        else if _widec >? 90 then if (97 <=? _widec) && (_widec <=? 122) then tr 12 else st 0
        else tr 12))
  | _ => None
  end.

Definition http_cases_2 (relaxed : bool) (cs : Z) : option (Z -> label) :=
  match cs with
  | 4 => Some (fun c => if c =? 72 then tr 13 else st 0)
  | 5 => Some (fun c => if c =? 84 then st 6 else st 0)
  | 6 => Some (fun c => if c =? 84 then st 7 else st 0)
  | 7 => Some (fun c => if c =? 80 then st 8 else st 0)
  | 8 => Some (fun c => if c =? 47 then st 9 else st 0)
  | 9 => Some (fun c => if c =? 49 then st 10 else st 0)
  | 10 => Some (fun c => if c =? 46 then st 11 else st 0)
  | 11 => Some (fun c => if (48 <=? c) && (c <=? 49) then st 12 else st 0)
  | 12 => Some (fun c => switch c [(10, tr 21); (13, tr 22)] (st 0))
  | _ => None
  end.

Definition http_cases_3 (relaxed : bool) (cs : Z) : option (Z -> label) :=
  match cs with
  | 13 => Some (fun c =>
      switch c [(10, tr 24); (13, tr 25); (33, tr 23); (124, tr 23); (126, tr 23)]
       (if c <? 42 then (
          if c <? 11 then if (1 <=? c) && (c <=? 8) then tr 23 else st 0
          else if c >? 31 then if (35 <=? c) && (c <=? 39) then tr 23 else st 0
          else tr 23)
        else if c >? 43 then (
          if c <? 48 then if (45 <=? c) && (c <=? 46) then tr 23 else st 0
          else if c >? 57 then (
            if c >? 90 then if (94 <=? c) && (c <=? 122) then tr 23 else st 0
            else if c >=? 65 then tr 23 else st 0)
          else tr 23)
        else tr 23))
  | 14 => Some (fun c =>
      switch c [(33, st 14); (58, tr 27); (124, st 14); (126, st 14)]
       (if c <? 42 then (
          if c <? 10 then if (1 <=? c) && (c <=? 8) then st 14 else st 0
          else if c >? 31 then if (35 <=? c) && (c <=? 39) then st 14 else st 0
          else st 14)
        else if c >? 43 then (
          if c <? 48 then if (45 <=? c) && (c <=? 46) then st 14 else st 0
          else if c >? 57 then (
            if c >? 90 then if (94 <=? c) && (c <=? 122) then st 14 else st 0
            else if c >=? 65 then st 14 else st 0)
          else st 14)
        else st 14))
  | 15 => Some (fun c =>
      switch c [(0, st 0); (9, tr 29); (10, tr 30); (13, tr 31); (32, tr 29); (127, st 0)] (tr 28))
  | 16 => Some (fun c => switch c [(0, st 0); (10, tr 33); (13, tr 34); (127, st 0)] (st 16))
  | _ => None
  end.

Definition http_cases_4 (relaxed : bool) (cs : Z) : option (Z -> label) :=
  match cs with
  | 17 => Some (fun c => if c =? 10 then st 13 else st 0)
  | 348 => Some (fun c =>
      switch c [(33, st 14); (58, tr 27); (124, st 14); (126, st 14)]
       (if c <? 42 then (
          if c <? 10 then if (1 <=? c) && (c <=? 8) then st 14 else st 0
          else if c >? 31 then if (35 <=? c) && (c <=? 39) then st 14 else st 0
          else st 14)
        else if c >? 43 then (
          if c <? 48 then if (45 <=? c) && (c <=? 46) then st 14 else st 0
          else if c >? 57 then (
            if c >? 90 then if (94 <=? c) && (c <=? 122) then st 14 else st 0
            else if c >=? 65 then st 14 else st 0)
          else st 14)
        else st 14))
  | 18 => Some (fun c =>
      switch c [(10, tr 36); (33, st 14); (58, tr 27); (124, st 14); (126, st 14)]
       (if c <? 42 then (
          if c <? 11 then if (1 <=? c) && (c <=? 8) then st 14 else st 0
          else if c >? 31 then if (35 <=? c) && (c <=? 39) then st 14 else st 0
          else st 14)
        else if c >? 43 then (
          if c <? 48 then if (45 <=? c) && (c <=? 46) then st 14 else st 0
          else if c >? 57 then (
            if c >? 90 then if (94 <=? c) && (c <=? 122) then st 14 else st 0
            else if c >=? 65 then st 14 else st 0)
          else st 14)
        else st 14))
  | _ => None
  end.

Definition http_cases_5 (relaxed : bool) (cs : Z) : option (Z -> label) :=
  match cs with
  | 19 => Some (fun c =>
      let _widec := widec relaxed c in
      switch _widec [(32, tr 37); (33, st 19); (35, tr 39); (37, st 24); (47, st 26);
        (59, st 19); (61, st 19); (63, tr 42); (95, st 19); (126, st 19); (606, st 19);
        (635, st 19); (637, st 19)]
       (if _widec <? 64 then if (36 <=? _widec) && (_widec <=? 57) then st 19 else st 0
        else if _widec >? 90 then if (97 <=? _widec) && (_widec <=? 122) then st 19 else st 0
        else st 19))
  | _ => None
  end.

Definition http_cases_6 (relaxed : bool) (cs : Z) : option (Z -> label) :=
  match cs with
  | 20 => Some (fun c =>
      let _widec := widec relaxed c in
      switch _widec [(32, tr 44); (33, tr 43); (37, tr 45); (61, tr 43); (95, tr 43);
        (126, tr 43); (606, tr 43); (635, tr 43); (637, tr 43)]
       (if _widec <? 36 then if _widec <=? -1 then tr 43 else st 0
        else if _widec >? 59 then (
          if _widec >? 90 then if (97 <=? _widec) && (_widec <=? 122) then tr 43 else st 0
          else if _widec >=? 63 then tr 43 else st 0)
        else tr 43))
  | _ => None
  end.

Definition http_cases_7 (relaxed : bool) (cs : Z) : option (Z -> label) :=
  match cs with
  | 21 => Some (fun c =>
      let _widec := widec relaxed c in
      switch _widec [(32, tr 47); (33, st 21); (37, st 22); (61, st 21); (95, st 21);
        (126, st 21); (606, st 21); (635, st 21); (637, st 21)]
       (if _widec <? 36 then if _widec <=? -1 then st 21 else st 0
        else if _widec >? 59 then (
          if _widec >? 90 then if (97 <=? _widec) && (_widec <=? 122) then st 21 else st 0
          else if _widec >=? 63 then st 21 else st 0)
        else st 21))
  | 22 => Some (fun c =>
      if c <? 65 then if (48 <=? c) && (c <=? 57) then st 23 else st 0
      else if c >? 70 then if (97 <=? c) && (c <=? 102) then st 23 else st 0
      else st 23)
  | 23 => Some (fun c =>
      if c <? 65 then if (48 <=? c) && (c <=? 57) then st 21 else st 0
      else if c >? 70 then if (97 <=? c) && (c <=? 102) then st 21 else st 0
      else st 21)
  | 24 => Some (fun c =>
      if c <? 65 then if (48 <=? c) && (c <=? 57) then st 25 else st 0
      else if c >? 70 then if (97 <=? c) && (c <=? 102) then st 25 else st 0
      else st 25)
  | 25 => Some (fun c =>
      if c <? 65 then if (48 <=? c) && (c <=? 57) then st 19 else st 0
      else if c >? 70 then if (97 <=? c) && (c <=? 102) then st 19 else st 0
      else st 19)
  | _ => None
  end.

Definition http_cases_8 (relaxed : bool) (cs : Z) : option (Z -> label) :=
  match cs with
  | 26 => Some (fun c =>
      let _widec := widec relaxed c in
      switch _widec [(32, tr 37); (33, st 26); (35, tr 39); (37, st 27); (61, st 26);
        (63, tr 42); (95, st 26); (126, st 26); (606, st 26); (635, st 26); (637, st 26)]
       (if _widec <? 36 then if _widec <=? -1 then st 26 else st 0
        else if _widec >? 59 then (
          if _widec >? 90 then if (97 <=? _widec) && (_widec <=? 122) then st 26 else st 0
          else if _widec >=? 64 then st 26 else st 0)
        else st 26))
  | 27 => Some (fun c =>
      if c <? 65 then if (48 <=? c) && (c <=? 57) then st 28 else st 0
      else if c >? 70 then if (97 <=? c) && (c <=? 102) then st 28 else st 0
      else st 28)
  | 28 => Some (fun c =>
      if c <? 65 then if (48 <=? c) && (c <=? 57) then st 26 else st 0
      else if c >? 70 then if (97 <=? c) && (c <=? 102) then st 26 else st 0
      else st 26)
  | _ => None
  end.

Definition http_cases_9 (relaxed : bool) (cs : Z) : option (Z -> label) :=
  match cs with
  | 29 => Some (fun c =>
      let _widec := widec relaxed c in
      switch _widec [(32, tr 54); (33, tr 53); (35, tr 55); (37, tr 56); (61, tr 53);
        (95, tr 53); (126, tr 53); (606, tr 53); (635, tr 53); (637, tr 53)]
       (if _widec <? 36 then if _widec <=? -1 then tr 53 else st 0
        else if _widec >? 59 then (
          if _widec >? 90 then if (97 <=? _widec) && (_widec <=? 122) then tr 53 else st 0
          else if _widec >=? 63 then tr 53 else st 0)
        else tr 53))
  | 30 => Some (fun c =>
      let _widec := widec relaxed c in
      switch _widec [(32, tr 58); (33, st 30); (35, tr 59); (37, st 31); (61, st 30);
        (95, st 30); (126, st 30); (606, st 30); (635, st 30); (637, st 30)]
       (if _widec <? 36 then if _widec <=? -1 then st 30 else st 0
        else if _widec >? 59 then (
          if _widec >? 90 then if (97 <=? _widec) && (_widec <=? 122) then st 30 else st 0
          else if _widec >=? 63 then st 30 else st 0)
        else st 30))
  | 31 => Some (fun c =>
      if c <? 65 then if (48 <=? c) && (c <=? 57) then st 32 else st 0
      else if c >? 70 then if (97 <=? c) && (c <=? 102) then st 32 else st 0
      else st 32)
  | _ => None
  end.

Definition http_cases_10 (relaxed : bool) (cs : Z) : option (Z -> label) :=
  match cs with
  | 32 => Some (fun c =>
      if c <? 65 then if (48 <=? c) && (c <=? 57) then st 30 else st 0
      else if c >? 70 then if (97 <=? c) && (c <=? 102) then st 30 else st 0
      else st 30)
  | 33 => Some (fun c =>
      let _widec := widec relaxed c in
      switch _widec [(32, tr 37); (33, st 26); (35, tr 39); (37, st 27); (47, st 34);
        (61, st 26); (63, tr 42); (95, st 26); (126, st 26); (606, st 26); (635, st 26);
        (637, st 26)]
       (if _widec <? 36 then if _widec <=? -1 then st 26 else st 0
        else if _widec >? 59 then (
          if _widec >? 90 then if (97 <=? _widec) && (_widec <=? 122) then st 26 else st 0
          else if _widec >=? 64 then st 26 else st 0)
        else st 26))
  | 34 => Some (fun c =>
      let _widec := widec relaxed c in
      switch _widec [(32, tr 37); (33, st 35); (35, tr 39); (37, st 36); (47, st 26);
        (58, st 38); (61, st 35); (63, tr 42); (64, st 42); (91, st 47); (95, st 35);
        (126, st 35); (606, st 35); (635, st 35); (637, st 35)]
       (if _widec <? 65 then if (36 <=? _widec) && (_widec <=? 59) then st 35 else st 0
        else if _widec >? 90 then if (97 <=? _widec) && (_widec <=? 122) then st 35 else st 0
        else st 35))
  | _ => None
  end.

Definition http_cases_11 (relaxed : bool) (cs : Z) : option (Z -> label) :=
  match cs with
  | 35 => Some (fun c =>
      let _widec := widec relaxed c in
      switch _widec [(32, tr 37); (33, st 35); (35, tr 39); (37, st 36); (47, st 26);
        (58, st 38); (61, st 35); (63, tr 42); (64, st 42); (95, st 35); (126, st 35);
        (606, st 35); (635, st 35); (637, st 35)]
       (if _widec <? 65 then if (36 <=? _widec) && (_widec <=? 59) then st 35 else st 0
        else if _widec >? 90 then if (97 <=? _widec) && (_widec <=? 122) then st 35 else st 0
        else st 35))
  | 36 => Some (fun c =>
      if c <? 65 then if (48 <=? c) && (c <=? 57) then st 37 else st 0
      else if c >? 70 then if (97 <=? c) && (c <=? 102) then st 37 else st 0
      else st 37)
  | 37 => Some (fun c =>
      if c <? 65 then if (48 <=? c) && (c <=? 57) then st 35 else st 0
      else if c >? 70 then if (97 <=? c) && (c <=? 102) then st 35 else st 0
      else st 35)
  | 38 => Some (fun c =>
      let _widec := widec relaxed c in
      switch _widec [(32, tr 37); (33, st 39); (35, tr 39); (37, st 40); (47, st 26);
        (61, st 39); (63, tr 42); (64, st 42); (95, st 39); (126, st 39); (606, st 39);
        (635, st 39); (637, st 39)]
       (if _widec <? 58 then (
          if _widec >? 46 then if (48 <=? _widec) && (_widec <=? 57) then st 38 else st 0
          else if _widec >=? 36 then st 39 else st 0)
        else if _widec >? 59 then (
          if _widec >? 90 then if (97 <=? _widec) && (_widec <=? 122) then st 39 else st 0
          else if _widec >=? 65 then st 39 else st 0)
        else st 39))
  | _ => None
  end.

Definition http_cases_12 (relaxed : bool) (cs : Z) : option (Z -> label) :=
  match cs with
  | 39 => Some (fun c =>
      let _widec := widec relaxed c in
      switch _widec [(33, st 39); (37, st 40); (61, st 39); (64, st 42); (95, st 39);
        (126, st 39); (606, st 39); (635, st 39); (637, st 39)]
       (if _widec <? 48 then if (36 <=? _widec) && (_widec <=? 46) then st 39 else st 0
        else if _widec >? 59 then (
          if _widec >? 90 then if (97 <=? _widec) && (_widec <=? 122) then st 39 else st 0
          else if _widec >=? 65 then st 39 else st 0)
        else st 39))
  | 40 => Some (fun c =>
      if c <? 65 then if (48 <=? c) && (c <=? 57) then st 41 else st 0
      else if c >? 70 then if (97 <=? c) && (c <=? 102) then st 41 else st 0
      else st 41)
  | 41 => Some (fun c =>
      if c <? 65 then if (48 <=? c) && (c <=? 57) then st 39 else st 0
      else if c >? 70 then if (97 <=? c) && (c <=? 102) then st 39 else st 0
      else st 39)
  | 42 => Some (fun c =>
      let _widec := widec relaxed c in
      switch _widec [(32, tr 37); (33, st 43); (35, tr 39); (37, st 44); (47, st 26);
        (58, st 46); (61, st 43); (63, tr 42); (91, st 47); (95, st 43); (126, st 43);
        (606, st 43); (635, st 43); (637, st 43)]
       (if _widec <? 65 then if (36 <=? _widec) && (_widec <=? 59) then st 43 else st 0
        else if _widec >? 90 then if (97 <=? _widec) && (_widec <=? 122) then st 43 else st 0
        else st 43))
  | _ => None
  end.

Definition http_cases_13 (relaxed : bool) (cs : Z) : option (Z -> label) :=
  match cs with
  | 43 => Some (fun c =>
      let _widec := widec relaxed c in
      switch _widec [(32, tr 37); (33, st 43); (35, tr 39); (37, st 44); (47, st 26);
        (58, st 46); (61, st 43); (63, tr 42); (95, st 43); (126, st 43); (606, st 43);
        (635, st 43); (637, st 43)]
       (if _widec <? 65 then if (36 <=? _widec) && (_widec <=? 59) then st 43 else st 0
        else if _widec >? 90 then if (97 <=? _widec) && (_widec <=? 122) then st 43 else st 0
        else st 43))
  | 44 => Some (fun c =>
      if c <? 65 then if (48 <=? c) && (c <=? 57) then st 45 else st 0
      else if c >? 70 then if (97 <=? c) && (c <=? 102) then st 45 else st 0
      else st 45)
  | 45 => Some (fun c =>
      if c <? 65 then if (48 <=? c) && (c <=? 57) then st 43 else st 0
      else if c >? 70 then if (97 <=? c) && (c <=? 102) then st 43 else st 0
      else st 43)
  | 46 => Some (fun c =>
      switch c [(32, tr 37); (35, tr 39); (47, st 26); (63, tr 42)] (if (48 <=? c) && (c <=? 57) then st 46 else st 0))
  | 47 => Some (fun c =>
      switch c [(6, st 48); (58, st 167); (118, st 169)]
       (if c <? 65 then if (48 <=? c) && (c <=? 57) then st 91 else st 0
        else if c >? 70 then if (97 <=? c) && (c <=? 102) then st 91 else st 0
        else st 91))
  | 48 => Some (fun c =>
      if c <? 65 then if (48 <=? c) && (c <=? 57) then st 49 else st 0
      else if c >? 70 then if (97 <=? c) && (c <=? 102) then st 49 else st 0
      else st 49)
  | 49 => Some (fun c =>
      if c =? 58 then st 53
      else if c <? 65 then if (48 <=? c) && (c <=? 57) then st 50 else st 0
      else if c >? 70 then if (97 <=? c) && (c <=? 102) then st 50 else st 0
      else st 50)
  | 50 => Some (fun c =>
      if c =? 58 then st 53
      else if c <? 65 then if (48 <=? c) && (c <=? 57) then st 51 else st 0
      else if c >? 70 then if (97 <=? c) && (c <=? 102) then st 51 else st 0
      else st 51)
  | _ => None
  end.

Definition http_cases_14 (relaxed : bool) (cs : Z) : option (Z -> label) :=
  match cs with
  | 51 => Some (fun c =>
      if c =? 58 then st 53
      else if c <? 65 then if (48 <=? c) && (c <=? 57) then st 52 else st 0
      else if c >? 70 then if (97 <=? c) && (c <=? 102) then st 52 else st 0
      else st 52)
  | 52 => Some (fun c => if c =? 58 then st 53 else st 0)
  | 53 => Some (fun c =>
      switch c [(49, st 84); (50, st 87)]
       (if c <? 65 then if (48 <=? c) && (c <=? 57) then st 54 else st 0
        else if c >? 70 then if (97 <=? c) && (c <=? 102) then st 90 else st 0
        else st 90))
  | 54 => Some (fun c =>
      switch c [(46, st 55); (58, st 80)]
       (if c <? 65 then if (48 <=? c) && (c <=? 57) then st 77 else st 0
        else if c >? 70 then if (97 <=? c) && (c <=? 102) then st 77 else st 0
        else st 77))
  | 55 => Some (fun c =>
      switch c [(49, st 72); (50, st 74)] (if (48 <=? c) && (c <=? 57) then st 56 else st 0))
  | 56 => Some (fun c => if c =? 46 then st 57 else st 0)
  | 57 => Some (fun c =>
      switch c [(49, st 67); (50, st 69)] (if (48 <=? c) && (c <=? 57) then st 58 else st 0))
  | 58 => Some (fun c => if c =? 46 then st 59 else st 0)
  | 59 => Some (fun c =>
      switch c [(49, st 62); (50, st 64)] (if (48 <=? c) && (c <=? 57) then st 60 else st 0))
  | 60 => Some (fun c => if c =? 93 then st 61 else st 0)
  | 61 => Some (fun c =>
      switch c [(32, tr 37); (35, tr 39); (47, st 26); (58, st 46); (63, tr 42)] (st 0))
  | 62 => Some (fun c =>
      if c =? 93 then st 61
      else if (48 <=? c) && (c <=? 57) then st 63 else st 0)
  | 63 => Some (fun c =>
      if c =? 93 then st 61
      else if (48 <=? c) && (c <=? 57) then st 60 else st 0)
  | 64 => Some (fun c => switch c [(48, st 65); (53, st 66); (93, st 61)] (st 0))
  | _ => None
  end.

Definition http_cases_15 (relaxed : bool) (cs : Z) : option (Z -> label) :=
  match cs with
  | 65 => Some (fun c => if (48 <=? c) && (c <=? 57) then st 60 else st 0)
  | 66 => Some (fun c => if c =? 48 then st 60 else st 0)
  | 67 => Some (fun c =>
      if c =? 46 then st 59
      else if (48 <=? c) && (c <=? 57) then st 68 else st 0)
  | 68 => Some (fun c =>
      if c =? 46 then st 59
      else if (48 <=? c) && (c <=? 57) then st 58 else st 0)
  | 69 => Some (fun c => switch c [(46, st 59); (48, st 70); (53, st 71)] (st 0))
  | 70 => Some (fun c => if (48 <=? c) && (c <=? 57) then st 58 else st 0)
  | 71 => Some (fun c => if c =? 48 then st 58 else st 0)
  | 72 => Some (fun c =>
      if c =? 46 then st 57
      else if (48 <=? c) && (c <=? 57) then st 73 else st 0)
  | 73 => Some (fun c =>
      if c =? 46 then st 57
      else if (48 <=? c) && (c <=? 57) then st 56 else st 0)
  | 74 => Some (fun c => switch c [(46, st 57); (48, st 75); (53, st 76)] (st 0))
  | 75 => Some (fun c => if (48 <=? c) && (c <=? 57) then st 56 else st 0)
  | 76 => Some (fun c => if c =? 48 then st 56 else st 0)
  | 77 => Some (fun c =>
      if c =? 58 then st 80
      else if c <? 65 then if (48 <=? c) && (c <=? 57) then st 78 else st 0
      else if c >? 70 then if (97 <=? c) && (c <=? 102) then st 78 else st 0
      else st 78)
  | 78 => Some (fun c =>
      if c =? 58 then st 80
      else if c <? 65 then if (48 <=? c) && (c <=? 57) then st 79 else st 0
      else if c >? 70 then if (97 <=? c) && (c <=? 102) then st 79 else st 0
      else st 79)
  | 79 => Some (fun c => if c =? 58 then st 80 else st 0)
  | 80 => Some (fun c =>
      if c <? 65 then if (48 <=? c) && (c <=? 57) then st 81 else st 0
      else if c >? 70 then if (97 <=? c) && (c <=? 102) then st 81 else st 0
      else st 81)
  | _ => None
  end.

Definition http_cases_16 (relaxed : bool) (cs : Z) : option (Z -> label) :=
  match cs with
  | 81 => Some (fun c =>
      if c =? 93 then st 61
      else if c <? 65 then if (48 <=? c) && (c <=? 57) then st 82 else st 0
      else if c >? 70 then if (97 <=? c) && (c <=? 102) then st 82 else st 0
      else st 82)
  | 82 => Some (fun c =>
      if c =? 93 then st 61
      else if c <? 65 then if (48 <=? c) && (c <=? 57) then st 83 else st 0
      else if c >? 70 then if (97 <=? c) && (c <=? 102) then st 83 else st 0
      else st 83)
  | 83 => Some (fun c =>
      if c =? 93 then st 61
      else if c <? 65 then if (48 <=? c) && (c <=? 57) then st 60 else st 0
      else if c >? 70 then if (97 <=? c) && (c <=? 102) then st 60 else st 0
      else st 60)
  | 84 => Some (fun c =>
      switch c [(46, st 55); (58, st 80)]
       (if c <? 65 then if (48 <=? c) && (c <=? 57) then st 85 else st 0
        else if c >? 70 then if (97 <=? c) && (c <=? 102) then st 77 else st 0
        else st 77))
  | 85 => Some (fun c =>
      switch c [(46, st 55); (58, st 80)]
       (if c <? 65 then if (48 <=? c) && (c <=? 57) then st 86 else st 0
        else if c >? 70 then if (97 <=? c) && (c <=? 102) then st 78 else st 0
        else st 78))
  | 86 => Some (fun c =>
      switch c [(46, st 55); (58, st 80)]
       (if c <? 65 then if (48 <=? c) && (c <=? 57) then st 79 else st 0
        else if c >? 70 then if (97 <=? c) && (c <=? 102) then st 79 else st 0
        else st 79))
  | 87 => Some (fun c =>
      switch c [(46, st 55); (48, st 88); (53, st 89); (58, st 80)]
       (if c <? 65 then if (49 <=? c) && (c <=? 57) then st 77 else st 0
        else if c >? 70 then if (97 <=? c) && (c <=? 102) then st 77 else st 0
        else st 77))
  | 88 => Some (fun c =>
      if c =? 58 then st 80
      else if c <? 65 then if (48 <=? c) && (c <=? 57) then st 86 else st 0
      else if c >? 70 then if (97 <=? c) && (c <=? 102) then st 78 else st 0
      else st 78)
  | 89 => Some (fun c =>
      switch c [(48, st 86); (58, st 80)]
       (if c <? 65 then if (49 <=? c) && (c <=? 57) then st 78 else st 0
        else if c >? 70 then if (97 <=? c) && (c <=? 102) then st 78 else st 0
        else st 78))
  | _ => None
  end.

Definition http_cases_17 (relaxed : bool) (cs : Z) : option (Z -> label) :=
  match cs with
  | 90 => Some (fun c =>
      if c =? 58 then st 80
      else if c <? 65 then if (48 <=? c) && (c <=? 57) then st 77 else st 0
      else if c >? 70 then if (97 <=? c) && (c <=? 102) then st 77 else st 0
      else st 77)
  | 91 => Some (fun c =>
      if c =? 58 then st 95
      else if c <? 65 then if (48 <=? c) && (c <=? 57) then st 92 else st 0
      else if c >? 70 then if (97 <=? c) && (c <=? 102) then st 92 else st 0
      else st 92)
  | 92 => Some (fun c =>
      if c =? 58 then st 95
      else if c <? 65 then if (48 <=? c) && (c <=? 57) then st 93 else st 0
      else if c >? 70 then if (97 <=? c) && (c <=? 102) then st 93 else st 0
      else st 93)
  | 93 => Some (fun c =>
      if c =? 58 then st 95
      else if c <? 65 then if (48 <=? c) && (c <=? 57) then st 94 else st 0
      else if c >? 70 then if (97 <=? c) && (c <=? 102) then st 94 else st 0
      else st 94)
  | 94 => Some (fun c => if c =? 58 then st 95 else st 0)
  | 95 => Some (fun c =>
      if c =? 58 then st 166
      else if c <? 65 then if (48 <=? c) && (c <=? 57) then st 96 else st 0
      else if c >? 70 then if (97 <=? c) && (c <=? 102) then st 96 else st 0
      else st 96)
  | 96 => Some (fun c =>
      if c =? 58 then st 100
      else if c <? 65 then if (48 <=? c) && (c <=? 57) then st 97 else st 0
      else if c >? 70 then if (97 <=? c) && (c <=? 102) then st 97 else st 0
      else st 97)
  | 97 => Some (fun c =>
      if c =? 58 then st 100
      else if c <? 65 then if (48 <=? c) && (c <=? 57) then st 98 else st 0
      else if c >? 70 then if (97 <=? c) && (c <=? 102) then st 98 else st 0
      else st 98)
  | 98 => Some (fun c =>
      if c =? 58 then st 100
      else if c <? 65 then if (48 <=? c) && (c <=? 57) then st 99 else st 0
      else if c >? 70 then if (97 <=? c) && (c <=? 102) then st 99 else st 0
      else st 99)
  | 99 => Some (fun c => if c =? 58 then st 100 else st 0)
  | 100 => Some (fun c =>
      if c =? 58 then st 165
      else if c <? 65 then if (48 <=? c) && (c <=? 57) then st 101 else st 0
      else if c >? 70 then if (97 <=? c) && (c <=? 102) then st 101 else st 0
      else st 101)
  | _ => None
  end.

Definition http_cases_18 (relaxed : bool) (cs : Z) : option (Z -> label) :=
  match cs with
  | 101 => Some (fun c =>
      if c =? 58 then st 105
      else if c <? 65 then if (48 <=? c) && (c <=? 57) then st 102 else st 0
      else if c >? 70 then if (97 <=? c) && (c <=? 102) then st 102 else st 0
      else st 102)
  | 102 => Some (fun c =>
      if c =? 58 then st 105
      else if c <? 65 then if (48 <=? c) && (c <=? 57) then st 103 else st 0
      else if c >? 70 then if (97 <=? c) && (c <=? 102) then st 103 else st 0
      else st 103)
  | 103 => Some (fun c =>
      if c =? 58 then st 105
      else if c <? 65 then if (48 <=? c) && (c <=? 57) then st 104 else st 0
      else if c >? 70 then if (97 <=? c) && (c <=? 102) then st 104 else st 0
      else st 104)
  | 104 => Some (fun c => if c =? 58 then st 105 else st 0)
  | 105 => Some (fun c =>
      if c =? 58 then st 164
      else if c <? 65 then if (48 <=? c) && (c <=? 57) then st 106 else st 0
      else if c >? 70 then if (97 <=? c) && (c <=? 102) then st 106 else st 0
      else st 106)
  | 106 => Some (fun c =>
      if c =? 58 then st 110
      else if c <? 65 then if (48 <=? c) && (c <=? 57) then st 107 else st 0
      else if c >? 70 then if (97 <=? c) && (c <=? 102) then st 107 else st 0
      else st 107)
  | 107 => Some (fun c =>
      if c =? 58 then st 110
      else if c <? 65 then if (48 <=? c) && (c <=? 57) then st 108 else st 0
      else if c >? 70 then if (97 <=? c) && (c <=? 102) then st 108 else st 0
      else st 108)
  | 108 => Some (fun c =>
      if c =? 58 then st 110
      else if c <? 65 then if (48 <=? c) && (c <=? 57) then st 109 else st 0
      else if c >? 70 then if (97 <=? c) && (c <=? 102) then st 109 else st 0
      else st 109)
  | 109 => Some (fun c => if c =? 58 then st 110 else st 0)
  | 110 => Some (fun c =>
      if c =? 58 then st 163
      else if c <? 65 then if (48 <=? c) && (c <=? 57) then st 111 else st 0
      else if c >? 70 then if (97 <=? c) && (c <=? 102) then st 111 else st 0
      else st 111)
  | 111 => Some (fun c =>
      if c =? 58 then st 115
      else if c <? 65 then if (48 <=? c) && (c <=? 57) then st 112 else st 0
      else if c >? 70 then if (97 <=? c) && (c <=? 102) then st 112 else st 0
      else st 112)
  | _ => None
  end.

Definition http_cases_19 (relaxed : bool) (cs : Z) : option (Z -> label) :=
  match cs with
  | 112 => Some (fun c =>
      if c =? 58 then st 115
      else if c <? 65 then if (48 <=? c) && (c <=? 57) then st 113 else st 0
      else if c >? 70 then if (97 <=? c) && (c <=? 102) then st 113 else st 0
      else st 113)
  | 113 => Some (fun c =>
      if c =? 58 then st 115
      else if c <? 65 then if (48 <=? c) && (c <=? 57) then st 114 else st 0
      else if c >? 70 then if (97 <=? c) && (c <=? 102) then st 114 else st 0
      else st 114)
  | 114 => Some (fun c => if c =? 58 then st 115 else st 0)
  | 115 => Some (fun c =>
      if c =? 58 then st 151
      else if c <? 65 then if (48 <=? c) && (c <=? 57) then st 116 else st 0
      else if c >? 70 then if (97 <=? c) && (c <=? 102) then st 116 else st 0
      else st 116)
  | 116 => Some (fun c =>
      if c =? 58 then st 120
      else if c <? 65 then if (48 <=? c) && (c <=? 57) then st 117 else st 0
      else if c >? 70 then if (97 <=? c) && (c <=? 102) then st 117 else st 0
      else st 117)
  | 117 => Some (fun c =>
      if c =? 58 then st 120
      else if c <? 65 then if (48 <=? c) && (c <=? 57) then st 118 else st 0
      else if c >? 70 then if (97 <=? c) && (c <=? 102) then st 118 else st 0
      else st 118)
  | 118 => Some (fun c =>
      if c =? 58 then st 120
      else if c <? 65 then if (48 <=? c) && (c <=? 57) then st 119 else st 0
      else if c >? 70 then if (97 <=? c) && (c <=? 102) then st 119 else st 0
      else st 119)
  | 119 => Some (fun c => if c =? 58 then st 120 else st 0)
  | 120 => Some (fun c =>
      if c =? 58 then st 150
      else if c <? 65 then if (48 <=? c) && (c <=? 57) then st 121 else st 0
      else if c >? 70 then if (97 <=? c) && (c <=? 102) then st 121 else st 0
      else st 121)
  | 121 => Some (fun c =>
      if c =? 58 then st 125
      else if c <? 65 then if (48 <=? c) && (c <=? 57) then st 122 else st 0
      else if c >? 70 then if (97 <=? c) && (c <=? 102) then st 122 else st 0
      else st 122)
  | 122 => Some (fun c =>
      if c =? 58 then st 125
      else if c <? 65 then if (48 <=? c) && (c <=? 57) then st 123 else st 0
      else if c >? 70 then if (97 <=? c) && (c <=? 102) then st 123 else st 0
      else st 123)
  | _ => None
  end.

Definition http_cases_20 (relaxed : bool) (cs : Z) : option (Z -> label) :=
  match cs with
  | 123 => Some (fun c =>
      if c =? 58 then st 125
      else if c <? 65 then if (48 <=? c) && (c <=? 57) then st 124 else st 0
      else if c >? 70 then if (97 <=? c) && (c <=? 102) then st 124 else st 0
      else st 124)
  | 124 => Some (fun c => if c =? 58 then st 125 else st 0)
  | 125 => Some (fun c =>
      if c =? 58 then st 126
      else if c <? 65 then if (48 <=? c) && (c <=? 57) then st 121 else st 0
      else if c >? 70 then if (97 <=? c) && (c <=? 102) then st 121 else st 0
      else st 121)
  | 126 => Some (fun c =>
      switch c [(49, st 143); (50, st 146); (93, st 61)]
       (if c <? 48 then if (2 <=? c) && (c <=? 3) then st 48 else st 0
        else if c >? 57 then (
          if c >? 70 then if (97 <=? c) && (c <=? 102) then st 149 else st 0
          else if c >=? 65 then st 149 else st 0)
        else st 127))
  | 127 => Some (fun c =>
      switch c [(46, st 55); (58, st 131); (93, st 61)]
       (if c <? 65 then if (48 <=? c) && (c <=? 57) then st 128 else st 0
        else if c >? 70 then if (97 <=? c) && (c <=? 102) then st 128 else st 0
        else st 128))
  | 128 => Some (fun c =>
      switch c [(58, st 131); (93, st 61)]
       (if c <? 65 then if (48 <=? c) && (c <=? 57) then st 129 else st 0
        else if c >? 70 then if (97 <=? c) && (c <=? 102) then st 129 else st 0
        else st 129))
  | 129 => Some (fun c =>
      switch c [(58, st 131); (93, st 61)]
       (if c <? 65 then if (48 <=? c) && (c <=? 57) then st 130 else st 0
        else if c >? 70 then if (97 <=? c) && (c <=? 102) then st 130 else st 0
        else st 130))
  | 130 => Some (fun c => switch c [(58, st 131); (93, st 61)] (st 0))
  | 131 => Some (fun c =>
      switch c [(49, st 136); (50, st 139)]
       (if c <? 65 then if (48 <=? c) && (c <=? 57) then st 132 else st 0
        else if c >? 70 then if (97 <=? c) && (c <=? 102) then st 142 else st 0
        else st 142))
  | _ => None
  end.

Definition http_cases_21 (relaxed : bool) (cs : Z) : option (Z -> label) :=
  match cs with
  | 132 => Some (fun c =>
      switch c [(46, st 55); (58, st 80); (93, st 61)]
       (if c <? 65 then if (48 <=? c) && (c <=? 57) then st 133 else st 0
        else if c >? 70 then if (97 <=? c) && (c <=? 102) then st 133 else st 0
        else st 133))
  | 133 => Some (fun c =>
      switch c [(58, st 80); (93, st 61)]
       (if c <? 65 then if (48 <=? c) && (c <=? 57) then st 134 else st 0
        else if c >? 70 then if (97 <=? c) && (c <=? 102) then st 134 else st 0
        else st 134))
  | 134 => Some (fun c =>
      switch c [(58, st 80); (93, st 61)]
       (if c <? 65 then if (48 <=? c) && (c <=? 57) then st 135 else st 0
        else if c >? 70 then if (97 <=? c) && (c <=? 102) then st 135 else st 0
        else st 135))
  | 135 => Some (fun c => switch c [(58, st 80); (93, st 61)] (st 0))
  | 136 => Some (fun c =>
      switch c [(46, st 55); (58, st 80); (93, st 61)]
       (if c <? 65 then if (48 <=? c) && (c <=? 57) then st 137 else st 0
        else if c >? 70 then if (97 <=? c) && (c <=? 102) then st 133 else st 0
        else st 133))
  | 137 => Some (fun c =>
      switch c [(46, st 55); (58, st 80); (93, st 61)]
       (if c <? 65 then if (48 <=? c) && (c <=? 57) then st 138 else st 0
        else if c >? 70 then if (97 <=? c) && (c <=? 102) then st 134 else st 0
        else st 134))
  | 138 => Some (fun c =>
      switch c [(46, st 55); (58, st 80); (93, st 61)]
       (if c <? 65 then if (48 <=? c) && (c <=? 57) then st 135 else st 0
        else if c >? 70 then if (97 <=? c) && (c <=? 102) then st 135 else st 0
        else st 135))
  | 139 => Some (fun c =>
      switch c [(46, st 55); (48, st 140); (53, st 141); (58, st 80); (93, st 61)]
       (if c <? 65 then if (49 <=? c) && (c <=? 57) then st 133 else st 0
        else if c >? 70 then if (97 <=? c) && (c <=? 102) then st 133 else st 0
        else st 133))
  | _ => None
  end.

Definition http_cases_22 (relaxed : bool) (cs : Z) : option (Z -> label) :=
  match cs with
  | 140 => Some (fun c =>
      switch c [(58, st 80); (93, st 61)]
       (if c <? 65 then if (48 <=? c) && (c <=? 57) then st 138 else st 0
        else if c >? 70 then if (97 <=? c) && (c <=? 102) then st 134 else st 0
        else st 134))
  | 141 => Some (fun c =>
      switch c [(48, st 138); (58, st 80); (93, st 61)]
       (if c <? 65 then if (49 <=? c) && (c <=? 57) then st 134 else st 0
        else if c >? 70 then if (97 <=? c) && (c <=? 102) then st 134 else st 0
        else st 134))
  | 142 => Some (fun c =>
      switch c [(58, st 80); (93, st 61)]
       (if c <? 65 then if (48 <=? c) && (c <=? 57) then st 133 else st 0
        else if c >? 70 then if (97 <=? c) && (c <=? 102) then st 133 else st 0
        else st 133))
  | 143 => Some (fun c =>
      switch c [(46, st 55); (58, st 131); (93, st 61)]
       (if c <? 65 then if (48 <=? c) && (c <=? 57) then st 144 else st 0
        else if c >? 70 then if (97 <=? c) && (c <=? 102) then st 128 else st 0
        else st 128))
  | 144 => Some (fun c =>
      switch c [(46, st 55); (58, st 131); (93, st 61)]
       (if c <? 65 then if (48 <=? c) && (c <=? 57) then st 145 else st 0
        else if c >? 70 then if (97 <=? c) && (c <=? 102) then st 129 else st 0
        else st 129))
  | 145 => Some (fun c =>
      switch c [(46, st 55); (58, st 131); (93, st 61)]
       (if c <? 65 then if (48 <=? c) && (c <=? 57) then st 130 else st 0
        else if c >? 70 then if (97 <=? c) && (c <=? 102) then st 130 else st 0
        else st 130))
  | 146 => Some (fun c =>
      switch c [(46, st 55); (48, st 147); (53, st 148); (58, st 131); (93, st 61)]
       (if c <? 65 then if (49 <=? c) && (c <=? 57) then st 128 else st 0
        else if c >? 70 then if (97 <=? c) && (c <=? 102) then st 128 else st 0
        else st 128))
  | 147 => Some (fun c =>
      switch c [(58, st 131); (93, st 61)]
       (if c <? 65 then if (48 <=? c) && (c <=? 57) then st 145 else st 0
        else if c >? 70 then if (97 <=? c) && (c <=? 102) then st 129 else st 0
        else st 129))
  | _ => None
  end.

Definition http_cases_23 (relaxed : bool) (cs : Z) : option (Z -> label) :=
  match cs with
  | 148 => Some (fun c =>
      switch c [(48, st 145); (58, st 131); (93, st 61)]
       (if c <? 65 then if (49 <=? c) && (c <=? 57) then st 129 else st 0
        else if c >? 70 then if (97 <=? c) && (c <=? 102) then st 129 else st 0
        else st 129))
  | 149 => Some (fun c =>
      switch c [(58, st 131); (93, st 61)]
       (if c <? 65 then if (48 <=? c) && (c <=? 57) then st 128 else st 0
        else if c >? 70 then if (97 <=? c) && (c <=? 102) then st 128 else st 0
        else st 128))
  | 150 => Some (fun c =>
      switch c [(49, st 143); (50, st 146)]
       (if c <? 48 then if (2 <=? c) && (c <=? 3) then st 48 else st 0
        else if c >? 57 then (
          if c >? 70 then if (97 <=? c) && (c <=? 102) then st 149 else st 0
          else if c >=? 65 then st 149 else st 0)
        else st 127))
  | 151 => Some (fun c =>
      switch c [(49, st 156); (50, st 159)]
       (if c <? 48 then if (2 <=? c) && (c <=? 3) then st 48 else st 0
        else if c >? 57 then (
          if c >? 70 then if (97 <=? c) && (c <=? 102) then st 162 else st 0
          else if c >=? 65 then st 162 else st 0)
        else st 152))
  | 152 => Some (fun c =>
      switch c [(46, st 55); (58, st 131)]
       (if c <? 65 then if (48 <=? c) && (c <=? 57) then st 153 else st 0
        else if c >? 70 then if (97 <=? c) && (c <=? 102) then st 153 else st 0
        else st 153))
  | 153 => Some (fun c =>
      if c =? 58 then st 131
      else if c <? 65 then if (48 <=? c) && (c <=? 57) then st 154 else st 0
      else if c >? 70 then if (97 <=? c) && (c <=? 102) then st 154 else st 0
      else st 154)
  | 154 => Some (fun c =>
      if c =? 58 then st 131
      else if c <? 65 then if (48 <=? c) && (c <=? 57) then st 155 else st 0
      else if c >? 70 then if (97 <=? c) && (c <=? 102) then st 155 else st 0
      else st 155)
  | 155 => Some (fun c => if c =? 58 then st 131 else st 0)
  | 156 => Some (fun c =>
      switch c [(46, st 55); (58, st 131)]
       (if c <? 65 then if (48 <=? c) && (c <=? 57) then st 157 else st 0
        else if c >? 70 then if (97 <=? c) && (c <=? 102) then st 153 else st 0
        else st 153))
  | _ => None
  end.

Definition http_cases_24 (relaxed : bool) (cs : Z) : option (Z -> label) :=
  match cs with
  | 157 => Some (fun c =>
      switch c [(46, st 55); (58, st 131)]
       (if c <? 65 then if (48 <=? c) && (c <=? 57) then st 158 else st 0
        else if c >? 70 then if (97 <=? c) && (c <=? 102) then st 154 else st 0
        else st 154))
  | 158 => Some (fun c =>
      switch c [(46, st 55); (58, st 131)]
       (if c <? 65 then if (48 <=? c) && (c <=? 57) then st 155 else st 0
        else if c >? 70 then if (97 <=? c) && (c <=? 102) then st 155 else st 0
        else st 155))
  | 159 => Some (fun c =>
      switch c [(46, st 55); (48, st 160); (53, st 161); (58, st 131)]
       (if c <? 65 then if (49 <=? c) && (c <=? 57) then st 153 else st 0
        else if c >? 70 then if (97 <=? c) && (c <=? 102) then st 153 else st 0
        else st 153))
  | 160 => Some (fun c =>
      if c =? 58 then st 131
      else if c <? 65 then if (48 <=? c) && (c <=? 57) then st 158 else st 0
      else if c >? 70 then if (97 <=? c) && (c <=? 102) then st 154 else st 0
      else st 154)
  | 161 => Some (fun c =>
      switch c [(48, st 158); (58, st 131)]
       (if c <? 65 then if (49 <=? c) && (c <=? 57) then st 154 else st 0
        else if c >? 70 then if (97 <=? c) && (c <=? 102) then st 154 else st 0
        else st 154))
  | 162 => Some (fun c =>
      if c =? 58 then st 131
      else if c <? 65 then if (48 <=? c) && (c <=? 57) then st 153 else st 0
      else if c >? 70 then if (97 <=? c) && (c <=? 102) then st 153 else st 0
      else st 153)
  | 163 => Some (fun c =>
      if c <? 48 then if (2 <=? c) && (c <=? 3) then st 48 else st 0
      else if c >? 57 then (
        if c >? 70 then if (97 <=? c) && (c <=? 102) then st 49 else st 0
        else if c >=? 65 then st 49 else st 0)
      else st 49)
  | 164 => Some (fun c => if (2 <=? c) && (c <=? 3) then st 48 else st 0)
  | 165 => Some (fun c => if c =? 3 then st 48 else st 0)
  | 166 => Some (fun c => if c =? 4 then st 48 else st 0)
  | 167 => Some (fun c => if c =? 58 then st 168 else st 0)
  | _ => None
  end.

Definition http_cases_25 (relaxed : bool) (cs : Z) : option (Z -> label) :=
  match cs with
  | 168 => Some (fun c =>
      switch c [(49, st 143); (50, st 146); (93, st 61)]
       (if c <? 48 then if (2 <=? c) && (c <=? 5) then st 48 else st 0
        else if c >? 57 then (
          if c >? 70 then if (97 <=? c) && (c <=? 102) then st 149 else st 0
          else if c >=? 65 then st 149 else st 0)
        else st 127))
  | 169 => Some (fun c =>
      if c <? 65 then if (48 <=? c) && (c <=? 57) then st 170 else st 0
      else if c >? 70 then if (97 <=? c) && (c <=? 102) then st 170 else st 0
      else st 170)
  | 170 => Some (fun c =>
      if c =? 46 then st 171
      else if c <? 65 then if (48 <=? c) && (c <=? 57) then st 170 else st 0
      else if c >? 70 then if (97 <=? c) && (c <=? 102) then st 170 else st 0
      else st 170)
  | 171 => Some (fun c =>
      let _widec := widec relaxed c in
      switch _widec [(33, st 172); (36, st 172); (61, st 172); (95, st 172);
        (126, st 172); (606, st 172); (635, st 172); (637, st 172)]
       (if _widec <? 48 then if (38 <=? _widec) && (_widec <=? 46) then st 172 else st 0
        else if _widec >? 59 then (
          if _widec >? 90 then if (97 <=? _widec) && (_widec <=? 122) then st 172 else st 0
          else if _widec >=? 65 then st 172 else st 0)
        else st 172))
  | 172 => Some (fun c =>
      let _widec := widec relaxed c in
      switch _widec [(33, st 172); (36, st 172); (61, st 172); (93, st 61); (95, st 172);
        (126, st 172); (606, st 172); (635, st 172); (637, st 172)]
       (if _widec <? 48 then if (38 <=? _widec) && (_widec <=? 46) then st 172 else st 0
        else if _widec >? 59 then (
          if _widec >? 90 then if (97 <=? _widec) && (_widec <=? 122) then st 172 else st 0
          else if _widec >=? 65 then st 172 else st 0)
        else st 172))
  | _ => None
  end.

Definition http_cases_26 (relaxed : bool) (cs : Z) : option (Z -> label) :=
  match cs with
  | 173 => Some (fun c =>
      let _widec := widec relaxed c in
      switch _widec [(32, tr 37); (33, st 19); (35, tr 39); (37, st 24); (43, st 173);
        (47, st 26); (58, st 174); (59, st 19); (61, st 19); (63, tr 42); (64, st 19);
        (95, st 19); (126, st 19); (606, st 19); (635, st 19); (637, st 19)]
       (if _widec <? 45 then if (36 <=? _widec) && (_widec <=? 44) then st 19 else st 0
        else if _widec >? 57 then (
          if _widec >? 90 then if (97 <=? _widec) && (_widec <=? 122) then st 173 else st 0
          else if _widec >=? 65 then st 173 else st 0)
        else st 173))
  | 174 => Some (fun c =>
      let _widec := widec relaxed c in
      switch _widec [(32, tr 6); (33, tr 203); (35, tr 8); (37, tr 204); (47, tr 10);
        (61, tr 203); (63, tr 11); (95, tr 203); (126, tr 203); (606, tr 203);
        (635, tr 203); (637, tr 203)]
       (if _widec <? 36 then if _widec <=? -1 then tr 203 else st 0
        else if _widec >? 59 then (
          if _widec >? 90 then if (97 <=? _widec) && (_widec <=? 122) then tr 203 else st 0
          else if _widec >=? 64 then tr 203 else st 0)
        else tr 203))
  | 175 => Some (fun c =>
      if c =? 32 then tr 4
      else if c >? 57 then if (65 <=? c) && (c <=? 90) then st 176 else st 0
      else if c >=? 48 then st 176 else st 0)
  | 176 => Some (fun c =>
      if c =? 32 then tr 4
      else if c >? 57 then if (65 <=? c) && (c <=? 90) then st 177 else st 0
      else if c >=? 48 then st 177 else st 0)
  | 177 => Some (fun c =>
      if c =? 32 then tr 4
      else if c >? 57 then if (65 <=? c) && (c <=? 90) then st 178 else st 0
      else if c >=? 48 then st 178 else st 0)
  | _ => None
  end.

Definition http_cases_27 (relaxed : bool) (cs : Z) : option (Z -> label) :=
  match cs with
  | 178 => Some (fun c =>
      if c =? 32 then tr 4
      else if c >? 57 then if (65 <=? c) && (c <=? 90) then st 179 else st 0
      else if c >=? 48 then st 179 else st 0)
  | 179 => Some (fun c =>
      if c =? 32 then tr 4
      else if c >? 57 then if (65 <=? c) && (c <=? 90) then st 180 else st 0
      else if c >=? 48 then st 180 else st 0)
  | 180 => Some (fun c =>
      if c =? 32 then tr 4
      else if c >? 57 then if (65 <=? c) && (c <=? 90) then st 181 else st 0
      else if c >=? 48 then st 181 else st 0)
  | 181 => Some (fun c =>
      if c =? 32 then tr 4
      else if c >? 57 then if (65 <=? c) && (c <=? 90) then st 182 else st 0
      else if c >=? 48 then st 182 else st 0)
  | 182 => Some (fun c =>
      if c =? 32 then tr 4
      else if c >? 57 then if (65 <=? c) && (c <=? 90) then st 183 else st 0
      else if c >=? 48 then st 183 else st 0)
  | 183 => Some (fun c =>
      if c =? 32 then tr 4
      else if c >? 57 then if (65 <=? c) && (c <=? 90) then st 184 else st 0
      else if c >=? 48 then st 184 else st 0)
  | 184 => Some (fun c =>
      if c =? 32 then tr 4
      else if c >? 57 then if (65 <=? c) && (c <=? 90) then st 185 else st 0
      else if c >=? 48 then st 185 else st 0)
  | 185 => Some (fun c =>
      if c =? 32 then tr 4
      else if c >? 57 then if (65 <=? c) && (c <=? 90) then st 186 else st 0
      else if c >=? 48 then st 186 else st 0)
  | 186 => Some (fun c =>
      if c =? 32 then tr 4
      else if c >? 57 then if (65 <=? c) && (c <=? 90) then st 187 else st 0
      else if c >=? 48 then st 187 else st 0)
  | 187 => Some (fun c =>
      if c =? 32 then tr 4
      else if c >? 57 then if (65 <=? c) && (c <=? 90) then st 188 else st 0
      else if c >=? 48 then st 188 else st 0)
  | 188 => Some (fun c =>
      if c =? 32 then tr 4
      else if c >? 57 then if (65 <=? c) && (c <=? 90) then st 189 else st 0
      else if c >=? 48 then st 189 else st 0)
  | 189 => Some (fun c =>
      if c =? 32 then tr 4
      else if c >? 57 then if (65 <=? c) && (c <=? 90) then st 190 else st 0
      else if c >=? 48 then st 190 else st 0)
  | _ => None
  end.

Definition http_cases_28 (relaxed : bool) (cs : Z) : option (Z -> label) :=
  match cs with
  | 190 => Some (fun c =>
      if c =? 32 then tr 4
      else if c >? 57 then if (65 <=? c) && (c <=? 90) then st 191 else st 0
      else if c >=? 48 then st 191 else st 0)
  | 191 => Some (fun c =>
      if c =? 32 then tr 4
      else if c >? 57 then if (65 <=? c) && (c <=? 90) then st 192 else st 0
      else if c >=? 48 then st 192 else st 0)
  | 192 => Some (fun c =>
      if c =? 32 then tr 4
      else if c >? 57 then if (65 <=? c) && (c <=? 90) then st 193 else st 0
      else if c >=? 48 then st 193 else st 0)
  | 193 => Some (fun c => if c =? 32 then tr 4 else st 0)
  | 194 => Some (fun c =>
      if c <? 48 then if (45 <=? c) && (c <=? 46) then st 195 else st 0
      else if c >? 57 then (
        if c >? 90 then if (97 <=? c) && (c <=? 122) then st 195 else st 0
        else if c >=? 65 then st 195 else st 0)
      else st 195)
  | 195 => Some (fun c =>
      switch c [(32, tr 224); (47, tr 224); (62, tr 224)]
       (if c <? 45 then if (9 <=? c) && (c <=? 13) then tr 224 else st 0
        else if c >? 57 then (
          if c >? 90 then if (97 <=? c) && (c <=? 122) then st 195 else st 0
          else if c >=? 65 then st 195 else st 0)
        else st 195))
  | 196 => Some (fun c => if c =? 62 then st 197 else st 196)
  | 197 => Some (fun c => switch c [(0, tr 227); (62, st 197)] (st 196))
  | _ => None
  end.

Definition http_cases_29 (relaxed : bool) (cs : Z) : option (Z -> label) :=
  match cs with
  | 349 => Some (fun c => st 0)
  | 198 => Some (fun c =>
      let _widec := widec relaxed c in
      switch _widec [(32, tr 228); (33, st 202); (37, st 203); (47, st 208); (59, st 202);
        (61, st 202); (95, st 202); (126, st 202); (606, st 202); (635, st 202);
        (637, st 202)]
       (if _widec <? 64 then if (36 <=? _widec) && (_widec <=? 57) then st 202 else st 0
        else if _widec >? 90 then if (97 <=? _widec) && (_widec <=? 122) then st 202 else st 0
        else st 202))
  | 199 => Some (fun c => if c =? 123 then tr 232 else st 0)
  | 200 => Some (fun c => if c =? 125 then st 201 else st 200)
  | 201 => Some (fun c => switch c [(0, tr 235); (125, st 201)] (st 200))
  | _ => None
  end.

Definition http_cases_30 (relaxed : bool) (cs : Z) : option (Z -> label) :=
  match cs with
  | 202 => Some (fun c =>
      let _widec := widec relaxed c in
      switch _widec [(32, tr 228); (33, st 202); (37, st 203); (47, st 205); (59, st 202);
        (61, st 202); (95, st 202); (126, st 202); (606, st 202); (635, st 202);
        (637, st 202)]
       (if _widec <? 64 then if (36 <=? _widec) && (_widec <=? 57) then st 202 else st 0
        else if _widec >? 90 then if (97 <=? _widec) && (_widec <=? 122) then st 202 else st 0
        else st 202))
  | 203 => Some (fun c =>
      if c <? 65 then if (48 <=? c) && (c <=? 57) then st 204 else st 0
      else if c >? 70 then if (97 <=? c) && (c <=? 102) then st 204 else st 0
      else st 204)
  | 204 => Some (fun c =>
      if c <? 65 then if (48 <=? c) && (c <=? 57) then st 202 else st 0
      else if c >? 70 then if (97 <=? c) && (c <=? 102) then st 202 else st 0
      else st 202)
  | 205 => Some (fun c =>
      let _widec := widec relaxed c in
      switch _widec [(32, tr 228); (33, st 205); (37, st 206); (61, st 205); (95, st 205);
        (126, st 205); (606, st 205); (635, st 205); (637, st 205)]
       (if _widec <? 36 then if _widec <=? -1 then st 205 else st 0
        else if _widec >? 59 then (
          if _widec >? 90 then if (97 <=? _widec) && (_widec <=? 122) then st 205 else st 0
          else if _widec >=? 64 then st 205 else st 0)
        else st 205))
  | 206 => Some (fun c =>
      if c <? 65 then if (48 <=? c) && (c <=? 57) then st 207 else st 0
      else if c >? 70 then if (97 <=? c) && (c <=? 102) then st 207 else st 0
      else st 207)
  | 207 => Some (fun c =>
      if c <? 65 then if (48 <=? c) && (c <=? 57) then st 205 else st 0
      else if c >? 70 then if (97 <=? c) && (c <=? 102) then st 205 else st 0
      else st 205)
  | _ => None
  end.

Definition http_cases_31 (relaxed : bool) (cs : Z) : option (Z -> label) :=
  match cs with
  | 208 => Some (fun c =>
      let _widec := widec relaxed c in
      switch _widec [(32, tr 228); (33, st 205); (37, st 206); (47, st 209); (61, st 205);
        (95, st 205); (126, st 205); (606, st 205); (635, st 205); (637, st 205)]
       (if _widec <? 36 then if _widec <=? -1 then st 205 else st 0
        else if _widec >? 59 then (
          if _widec >? 90 then if (97 <=? _widec) && (_widec <=? 122) then st 205 else st 0
          else if _widec >=? 64 then st 205 else st 0)
        else st 205))
  | 209 => Some (fun c =>
      let _widec := widec relaxed c in
      switch _widec [(32, tr 228); (33, st 210); (37, st 211); (47, st 205); (58, st 213);
        (61, st 210); (64, st 217); (91, st 222); (95, st 210); (126, st 210);
        (606, st 210); (635, st 210); (637, st 210)]
       (if _widec <? 65 then if (36 <=? _widec) && (_widec <=? 59) then st 210 else st 0
        else if _widec >? 90 then if (97 <=? _widec) && (_widec <=? 122) then st 210 else st 0
        else st 210))
  | 210 => Some (fun c =>
      let _widec := widec relaxed c in
      switch _widec [(32, tr 228); (33, st 210); (37, st 211); (47, st 205); (58, st 213);
        (61, st 210); (64, st 217); (95, st 210); (126, st 210); (606, st 210);
        (635, st 210); (637, st 210)]
       (if _widec <? 65 then if (36 <=? _widec) && (_widec <=? 59) then st 210 else st 0
        else if _widec >? 90 then if (97 <=? _widec) && (_widec <=? 122) then st 210 else st 0
        else st 210))
  | _ => None
  end.

Definition http_cases_32 (relaxed : bool) (cs : Z) : option (Z -> label) :=
  match cs with
  | 211 => Some (fun c =>
      if c <? 65 then if (48 <=? c) && (c <=? 57) then st 212 else st 0
      else if c >? 70 then if (97 <=? c) && (c <=? 102) then st 212 else st 0
      else st 212)
  | 212 => Some (fun c =>
      if c <? 65 then if (48 <=? c) && (c <=? 57) then st 210 else st 0
      else if c >? 70 then if (97 <=? c) && (c <=? 102) then st 210 else st 0
      else st 210)
  | 213 => Some (fun c =>
      let _widec := widec relaxed c in
      switch _widec [(32, tr 228); (33, st 214); (37, st 215); (47, st 205); (61, st 214);
        (64, st 217); (95, st 214); (126, st 214); (606, st 214); (635, st 214);
        (637, st 214)]
       (if _widec <? 58 then (
          if _widec >? 46 then if (48 <=? _widec) && (_widec <=? 57) then st 213 else st 0
          else if _widec >=? 36 then st 214 else st 0)
        else if _widec >? 59 then (
          if _widec >? 90 then if (97 <=? _widec) && (_widec <=? 122) then st 214 else st 0
          else if _widec >=? 65 then st 214 else st 0)
        else st 214))
  | 214 => Some (fun c =>
      let _widec := widec relaxed c in
      switch _widec [(33, st 214); (37, st 215); (61, st 214); (64, st 217); (95, st 214);
        (126, st 214); (606, st 214); (635, st 214); (637, st 214)]
       (if _widec <? 48 then if (36 <=? _widec) && (_widec <=? 46) then st 214 else st 0
        else if _widec >? 59 then (
          if _widec >? 90 then if (97 <=? _widec) && (_widec <=? 122) then st 214 else st 0
          else if _widec >=? 65 then st 214 else st 0)
        else st 214))
  | 215 => Some (fun c =>
      if c <? 65 then if (48 <=? c) && (c <=? 57) then st 216 else st 0
      else if c >? 70 then if (97 <=? c) && (c <=? 102) then st 216 else st 0
      else st 216)
  | _ => None
  end.

Definition http_cases_33 (relaxed : bool) (cs : Z) : option (Z -> label) :=
  match cs with
  | 216 => Some (fun c =>
      if c <? 65 then if (48 <=? c) && (c <=? 57) then st 214 else st 0
      else if c >? 70 then if (97 <=? c) && (c <=? 102) then st 214 else st 0
      else st 214)
  | 217 => Some (fun c =>
      let _widec := widec relaxed c in
      switch _widec [(32, tr 228); (33, st 218); (37, st 219); (47, st 205); (58, st 221);
        (61, st 218); (91, st 222); (95, st 218); (126, st 218); (606, st 218);
        (635, st 218); (637, st 218)]
       (if _widec <? 65 then if (36 <=? _widec) && (_widec <=? 59) then st 218 else st 0
        else if _widec >? 90 then if (97 <=? _widec) && (_widec <=? 122) then st 218 else st 0
        else st 218))
  | 218 => Some (fun c =>
      let _widec := widec relaxed c in
      switch _widec [(32, tr 228); (33, st 218); (37, st 219); (47, st 205); (58, st 221);
        (61, st 218); (95, st 218); (126, st 218); (606, st 218); (635, st 218);
        (637, st 218)]
       (if _widec <? 65 then if (36 <=? _widec) && (_widec <=? 59) then st 218 else st 0
        else if _widec >? 90 then if (97 <=? _widec) && (_widec <=? 122) then st 218 else st 0
        else st 218))
  | 219 => Some (fun c =>
      if c <? 65 then if (48 <=? c) && (c <=? 57) then st 220 else st 0
      else if c >? 70 then if (97 <=? c) && (c <=? 102) then st 220 else st 0
      else st 220)
  | 220 => Some (fun c =>
      if c <? 65 then if (48 <=? c) && (c <=? 57) then st 218 else st 0
      else if c >? 70 then if (97 <=? c) && (c <=? 102) then st 218 else st 0
      else st 218)
  | 221 => Some (fun c =>
      switch c [(32, tr 228); (47, st 205)] (if (48 <=? c) && (c <=? 57) then st 221 else st 0))
  | _ => None
  end.

Definition http_cases_34 (relaxed : bool) (cs : Z) : option (Z -> label) :=
  match cs with
  | 222 => Some (fun c =>
      switch c [(6, st 223); (58, st 342); (118, st 344)]
       (if c <? 65 then if (48 <=? c) && (c <=? 57) then st 266 else st 0
        else if c >? 70 then if (97 <=? c) && (c <=? 102) then st 266 else st 0
        else st 266))
  | 223 => Some (fun c =>
      if c <? 65 then if (48 <=? c) && (c <=? 57) then st 224 else st 0
      else if c >? 70 then if (97 <=? c) && (c <=? 102) then st 224 else st 0
      else st 224)
  | 224 => Some (fun c =>
      if c =? 58 then st 228
      else if c <? 65 then if (48 <=? c) && (c <=? 57) then st 225 else st 0
      else if c >? 70 then if (97 <=? c) && (c <=? 102) then st 225 else st 0
      else st 225)
  | 225 => Some (fun c =>
      if c =? 58 then st 228
      else if c <? 65 then if (48 <=? c) && (c <=? 57) then st 226 else st 0
      else if c >? 70 then if (97 <=? c) && (c <=? 102) then st 226 else st 0
      else st 226)
  | 226 => Some (fun c =>
      if c =? 58 then st 228
      else if c <? 65 then if (48 <=? c) && (c <=? 57) then st 227 else st 0
      else if c >? 70 then if (97 <=? c) && (c <=? 102) then st 227 else st 0
      else st 227)
  | 227 => Some (fun c => if c =? 58 then st 228 else st 0)
  | 228 => Some (fun c =>
      switch c [(49, st 259); (50, st 262)]
       (if c <? 65 then if (48 <=? c) && (c <=? 57) then st 229 else st 0
        else if c >? 70 then if (97 <=? c) && (c <=? 102) then st 265 else st 0
        else st 265))
  | 229 => Some (fun c =>
      switch c [(46, st 230); (58, st 255)]
       (if c <? 65 then if (48 <=? c) && (c <=? 57) then st 252 else st 0
        else if c >? 70 then if (97 <=? c) && (c <=? 102) then st 252 else st 0
        else st 252))
  | 230 => Some (fun c =>
      switch c [(49, st 247); (50, st 249)] (if (48 <=? c) && (c <=? 57) then st 231 else st 0))
  | 231 => Some (fun c => if c =? 46 then st 232 else st 0)
  | 232 => Some (fun c =>
      switch c [(49, st 242); (50, st 244)] (if (48 <=? c) && (c <=? 57) then st 233 else st 0))
  | _ => None
  end.

Definition http_cases_35 (relaxed : bool) (cs : Z) : option (Z -> label) :=
  match cs with
  | 233 => Some (fun c => if c =? 46 then st 234 else st 0)
  | 234 => Some (fun c =>
      switch c [(49, st 237); (50, st 239)] (if (48 <=? c) && (c <=? 57) then st 235 else st 0))
  | 235 => Some (fun c => if c =? 93 then st 236 else st 0)
  | 236 => Some (fun c => switch c [(32, tr 228); (47, st 205); (58, st 221)] (st 0))
  | 237 => Some (fun c =>
      if c =? 93 then st 236
      else if (48 <=? c) && (c <=? 57) then st 238 else st 0)
  | 238 => Some (fun c =>
      if c =? 93 then st 236
      else if (48 <=? c) && (c <=? 57) then st 235 else st 0)
  | 239 => Some (fun c => switch c [(48, st 240); (53, st 241); (93, st 236)] (st 0))
  | 240 => Some (fun c => if (48 <=? c) && (c <=? 57) then st 235 else st 0)
  | 241 => Some (fun c => if c =? 48 then st 235 else st 0)
  | 242 => Some (fun c =>
      if c =? 46 then st 234
      else if (48 <=? c) && (c <=? 57) then st 243 else st 0)
  | 243 => Some (fun c =>
      if c =? 46 then st 234
      else if (48 <=? c) && (c <=? 57) then st 233 else st 0)
  | 244 => Some (fun c => switch c [(46, st 234); (48, st 245); (53, st 246)] (st 0))
  | 245 => Some (fun c => if (48 <=? c) && (c <=? 57) then st 233 else st 0)
  | 246 => Some (fun c => if c =? 48 then st 233 else st 0)
  | 247 => Some (fun c =>
      if c =? 46 then st 232
      else if (48 <=? c) && (c <=? 57) then st 248 else st 0)
  | 248 => Some (fun c =>
      if c =? 46 then st 232
      else if (48 <=? c) && (c <=? 57) then st 231 else st 0)
  | 249 => Some (fun c => switch c [(46, st 232); (48, st 250); (53, st 251)] (st 0))
  | _ => None
  end.

Definition http_cases_36 (relaxed : bool) (cs : Z) : option (Z -> label) :=
  match cs with
  | 250 => Some (fun c => if (48 <=? c) && (c <=? 57) then st 231 else st 0)
  | 251 => Some (fun c => if c =? 48 then st 231 else st 0)
  | 252 => Some (fun c =>
      if c =? 58 then st 255
      else if c <? 65 then if (48 <=? c) && (c <=? 57) then st 253 else st 0
      else if c >? 70 then if (97 <=? c) && (c <=? 102) then st 253 else st 0
      else st 253)
  | 253 => Some (fun c =>
      if c =? 58 then st 255
      else if c <? 65 then if (48 <=? c) && (c <=? 57) then st 254 else st 0
      else if c >? 70 then if (97 <=? c) && (c <=? 102) then st 254 else st 0
      else st 254)
  | 254 => Some (fun c => if c =? 58 then st 255 else st 0)
  | 255 => Some (fun c =>
      if c <? 65 then if (48 <=? c) && (c <=? 57) then st 256 else st 0
      else if c >? 70 then if (97 <=? c) && (c <=? 102) then st 256 else st 0
      else st 256)
  | 256 => Some (fun c =>
      if c =? 93 then st 236
      else if c <? 65 then if (48 <=? c) && (c <=? 57) then st 257 else st 0
      else if c >? 70 then if (97 <=? c) && (c <=? 102) then st 257 else st 0
      else st 257)
  | 257 => Some (fun c =>
      if c =? 93 then st 236
      else if c <? 65 then if (48 <=? c) && (c <=? 57) then st 258 else st 0
      else if c >? 70 then if (97 <=? c) && (c <=? 102) then st 258 else st 0
      else st 258)
  | 258 => Some (fun c =>
      if c =? 93 then st 236
      else if c <? 65 then if (48 <=? c) && (c <=? 57) then st 235 else st 0
      else if c >? 70 then if (97 <=? c) && (c <=? 102) then st 235 else st 0
      else st 235)
  | 259 => Some (fun c =>
      switch c [(46, st 230); (58, st 255)]
       (if c <? 65 then if (48 <=? c) && (c <=? 57) then st 260 else st 0
        else if c >? 70 then if (97 <=? c) && (c <=? 102) then st 252 else st 0
        else st 252))
  | 260 => Some (fun c =>
      switch c [(46, st 230); (58, st 255)]
       (if c <? 65 then if (48 <=? c) && (c <=? 57) then st 261 else st 0
        else if c >? 70 then if (97 <=? c) && (c <=? 102) then st 253 else st 0
        else st 253))
  | _ => None
  end.

Definition http_cases_37 (relaxed : bool) (cs : Z) : option (Z -> label) :=
  match cs with
  | 261 => Some (fun c =>
      switch c [(46, st 230); (58, st 255)]
       (if c <? 65 then if (48 <=? c) && (c <=? 57) then st 254 else st 0
        else if c >? 70 then if (97 <=? c) && (c <=? 102) then st 254 else st 0
        else st 254))
  | 262 => Some (fun c =>
      switch c [(46, st 230); (48, st 263); (53, st 264); (58, st 255)]
       (if c <? 65 then if (49 <=? c) && (c <=? 57) then st 252 else st 0
        else if c >? 70 then if (97 <=? c) && (c <=? 102) then st 252 else st 0
        else st 252))
  | 263 => Some (fun c =>
      if c =? 58 then st 255
      else if c <? 65 then if (48 <=? c) && (c <=? 57) then st 261 else st 0
      else if c >? 70 then if (97 <=? c) && (c <=? 102) then st 253 else st 0
      else st 253)
  | 264 => Some (fun c =>
      switch c [(48, st 261); (58, st 255)]
       (if c <? 65 then if (49 <=? c) && (c <=? 57) then st 253 else st 0
        else if c >? 70 then if (97 <=? c) && (c <=? 102) then st 253 else st 0
        else st 253))
  | 265 => Some (fun c =>
      if c =? 58 then st 255
      else if c <? 65 then if (48 <=? c) && (c <=? 57) then st 252 else st 0
      else if c >? 70 then if (97 <=? c) && (c <=? 102) then st 252 else st 0
      else st 252)
  | 266 => Some (fun c =>
      if c =? 58 then st 270
      else if c <? 65 then if (48 <=? c) && (c <=? 57) then st 267 else st 0
      else if c >? 70 then if (97 <=? c) && (c <=? 102) then st 267 else st 0
      else st 267)
  | 267 => Some (fun c =>
      if c =? 58 then st 270
      else if c <? 65 then if (48 <=? c) && (c <=? 57) then st 268 else st 0
      else if c >? 70 then if (97 <=? c) && (c <=? 102) then st 268 else st 0
      else st 268)
  | 268 => Some (fun c =>
      if c =? 58 then st 270
      else if c <? 65 then if (48 <=? c) && (c <=? 57) then st 269 else st 0
      else if c >? 70 then if (97 <=? c) && (c <=? 102) then st 269 else st 0
      else st 269)
  | 269 => Some (fun c => if c =? 58 then st 270 else st 0)
  | 270 => Some (fun c =>
      if c =? 58 then st 341
      else if c <? 65 then if (48 <=? c) && (c <=? 57) then st 271 else st 0
      else if c >? 70 then if (97 <=? c) && (c <=? 102) then st 271 else st 0
      else st 271)
  | _ => None
  end.

Definition http_cases_38 (relaxed : bool) (cs : Z) : option (Z -> label) :=
  match cs with
  | 271 => Some (fun c =>
      if c =? 58 then st 275
      else if c <? 65 then if (48 <=? c) && (c <=? 57) then st 272 else st 0
      else if c >? 70 then if (97 <=? c) && (c <=? 102) then st 272 else st 0
      else st 272)
  | 272 => Some (fun c =>
      if c =? 58 then st 275
      else if c <? 65 then if (48 <=? c) && (c <=? 57) then st 273 else st 0
      else if c >? 70 then if (97 <=? c) && (c <=? 102) then st 273 else st 0
      else st 273)
  | 273 => Some (fun c =>
      if c =? 58 then st 275
      else if c <? 65 then if (48 <=? c) && (c <=? 57) then st 274 else st 0
      else if c >? 70 then if (97 <=? c) && (c <=? 102) then st 274 else st 0
      else st 274)
  | 274 => Some (fun c => if c =? 58 then st 275 else st 0)
  | 275 => Some (fun c =>
      if c =? 58 then st 340
      else if c <? 65 then if (48 <=? c) && (c <=? 57) then st 276 else st 0
      else if c >? 70 then if (97 <=? c) && (c <=? 102) then st 276 else st 0
      else st 276)
  | 276 => Some (fun c =>
      if c =? 58 then st 280
      else if c <? 65 then if (48 <=? c) && (c <=? 57) then st 277 else st 0
      else if c >? 70 then if (97 <=? c) && (c <=? 102) then st 277 else st 0
      else st 277)
  | 277 => Some (fun c =>
      if c =? 58 then st 280
      else if c <? 65 then if (48 <=? c) && (c <=? 57) then st 278 else st 0
      else if c >? 70 then if (97 <=? c) && (c <=? 102) then st 278 else st 0
      else st 278)
  | 278 => Some (fun c =>
      if c =? 58 then st 280
      else if c <? 65 then if (48 <=? c) && (c <=? 57) then st 279 else st 0
      else if c >? 70 then if (97 <=? c) && (c <=? 102) then st 279 else st 0
      else st 279)
  | 279 => Some (fun c => if c =? 58 then st 280 else st 0)
  | 280 => Some (fun c =>
      if c =? 58 then st 339
      else if c <? 65 then if (48 <=? c) && (c <=? 57) then st 281 else st 0
      else if c >? 70 then if (97 <=? c) && (c <=? 102) then st 281 else st 0
      else st 281)
  | 281 => Some (fun c =>
      if c =? 58 then st 285
      else if c <? 65 then if (48 <=? c) && (c <=? 57) then st 282 else st 0
      else if c >? 70 then if (97 <=? c) && (c <=? 102) then st 282 else st 0
      else st 282)
  | _ => None
  end.

Definition http_cases_39 (relaxed : bool) (cs : Z) : option (Z -> label) :=
  match cs with
  | 282 => Some (fun c =>
      if c =? 58 then st 285
      else if c <? 65 then if (48 <=? c) && (c <=? 57) then st 283 else st 0
      else if c >? 70 then if (97 <=? c) && (c <=? 102) then st 283 else st 0
      else st 283)
  | 283 => Some (fun c =>
      if c =? 58 then st 285
      else if c <? 65 then if (48 <=? c) && (c <=? 57) then st 284 else st 0
      else if c >? 70 then if (97 <=? c) && (c <=? 102) then st 284 else st 0
      else st 284)
  | 284 => Some (fun c => if c =? 58 then st 285 else st 0)
  | 285 => Some (fun c =>
      if c =? 58 then st 338
      else if c <? 65 then if (48 <=? c) && (c <=? 57) then st 286 else st 0
      else if c >? 70 then if (97 <=? c) && (c <=? 102) then st 286 else st 0
      else st 286)
  | 286 => Some (fun c =>
      if c =? 58 then st 290
      else if c <? 65 then if (48 <=? c) && (c <=? 57) then st 287 else st 0
      else if c >? 70 then if (97 <=? c) && (c <=? 102) then st 287 else st 0
      else st 287)
  | 287 => Some (fun c =>
      if c =? 58 then st 290
      else if c <? 65 then if (48 <=? c) && (c <=? 57) then st 288 else st 0
      else if c >? 70 then if (97 <=? c) && (c <=? 102) then st 288 else st 0
      else st 288)
  | 288 => Some (fun c =>
      if c =? 58 then st 290
      else if c <? 65 then if (48 <=? c) && (c <=? 57) then st 289 else st 0
      else if c >? 70 then if (97 <=? c) && (c <=? 102) then st 289 else st 0
      else st 289)
  | 289 => Some (fun c => if c =? 58 then st 290 else st 0)
  | 290 => Some (fun c =>
      if c =? 58 then st 326
      else if c <? 65 then if (48 <=? c) && (c <=? 57) then st 291 else st 0
      else if c >? 70 then if (97 <=? c) && (c <=? 102) then st 291 else st 0
      else st 291)
  | 291 => Some (fun c =>
      if c =? 58 then st 295
      else if c <? 65 then if (48 <=? c) && (c <=? 57) then st 292 else st 0
      else if c >? 70 then if (97 <=? c) && (c <=? 102) then st 292 else st 0
      else st 292)
  | 292 => Some (fun c =>
      if c =? 58 then st 295
      else if c <? 65 then if (48 <=? c) && (c <=? 57) then st 293 else st 0
      else if c >? 70 then if (97 <=? c) && (c <=? 102) then st 293 else st 0
      else st 293)
  | _ => None
  end.

Definition http_cases_40 (relaxed : bool) (cs : Z) : option (Z -> label) :=
  match cs with
  | 293 => Some (fun c =>
      if c =? 58 then st 295
      else if c <? 65 then if (48 <=? c) && (c <=? 57) then st 294 else st 0
      else if c >? 70 then if (97 <=? c) && (c <=? 102) then st 294 else st 0
      else st 294)
  | 294 => Some (fun c => if c =? 58 then st 295 else st 0)
  | 295 => Some (fun c =>
      if c =? 58 then st 325
      else if c <? 65 then if (48 <=? c) && (c <=? 57) then st 296 else st 0
      else if c >? 70 then if (97 <=? c) && (c <=? 102) then st 296 else st 0
      else st 296)
  | 296 => Some (fun c =>
      if c =? 58 then st 300
      else if c <? 65 then if (48 <=? c) && (c <=? 57) then st 297 else st 0
      else if c >? 70 then if (97 <=? c) && (c <=? 102) then st 297 else st 0
      else st 297)
  | 297 => Some (fun c =>
      if c =? 58 then st 300
      else if c <? 65 then if (48 <=? c) && (c <=? 57) then st 298 else st 0
      else if c >? 70 then if (97 <=? c) && (c <=? 102) then st 298 else st 0
      else st 298)
  | 298 => Some (fun c =>
      if c =? 58 then st 300
      else if c <? 65 then if (48 <=? c) && (c <=? 57) then st 299 else st 0
      else if c >? 70 then if (97 <=? c) && (c <=? 102) then st 299 else st 0
      else st 299)
  | 299 => Some (fun c => if c =? 58 then st 300 else st 0)
  | 300 => Some (fun c =>
      if c =? 58 then st 301
      else if c <? 65 then if (48 <=? c) && (c <=? 57) then st 296 else st 0
      else if c >? 70 then if (97 <=? c) && (c <=? 102) then st 296 else st 0
      else st 296)
  | 301 => Some (fun c =>
      switch c [(49, st 318); (50, st 321); (93, st 236)]
       (if c <? 48 then if (2 <=? c) && (c <=? 3) then st 223 else st 0
        else if c >? 57 then (
          if c >? 70 then if (97 <=? c) && (c <=? 102) then st 324 else st 0
          else if c >=? 65 then st 324 else st 0)
        else st 302))
  | 302 => Some (fun c =>
      switch c [(46, st 230); (58, st 306); (93, st 236)]
       (if c <? 65 then if (48 <=? c) && (c <=? 57) then st 303 else st 0
        else if c >? 70 then if (97 <=? c) && (c <=? 102) then st 303 else st 0
        else st 303))
  | _ => None
  end.

Definition http_cases_41 (relaxed : bool) (cs : Z) : option (Z -> label) :=
  match cs with
  | 303 => Some (fun c =>
      switch c [(58, st 306); (93, st 236)]
       (if c <? 65 then if (48 <=? c) && (c <=? 57) then st 304 else st 0
        else if c >? 70 then if (97 <=? c) && (c <=? 102) then st 304 else st 0
        else st 304))
  | 304 => Some (fun c =>
      switch c [(58, st 306); (93, st 236)]
       (if c <? 65 then if (48 <=? c) && (c <=? 57) then st 305 else st 0
        else if c >? 70 then if (97 <=? c) && (c <=? 102) then st 305 else st 0
        else st 305))
  | 305 => Some (fun c => switch c [(58, st 306); (93, st 236)] (st 0))
  | 306 => Some (fun c =>
      switch c [(49, st 311); (50, st 314)]
       (if c <? 65 then if (48 <=? c) && (c <=? 57) then st 307 else st 0
        else if c >? 70 then if (97 <=? c) && (c <=? 102) then st 317 else st 0
        else st 317))
  | 307 => Some (fun c =>
      switch c [(46, st 230); (58, st 255); (93, st 236)]
       (if c <? 65 then if (48 <=? c) && (c <=? 57) then st 308 else st 0
        else if c >? 70 then if (97 <=? c) && (c <=? 102) then st 308 else st 0
        else st 308))
  | 308 => Some (fun c =>
      switch c [(58, st 255); (93, st 236)]
       (if c <? 65 then if (48 <=? c) && (c <=? 57) then st 309 else st 0
        else if c >? 70 then if (97 <=? c) && (c <=? 102) then st 309 else st 0
        else st 309))
  | 309 => Some (fun c =>
      switch c [(58, st 255); (93, st 236)]
       (if c <? 65 then if (48 <=? c) && (c <=? 57) then st 310 else st 0
        else if c >? 70 then if (97 <=? c) && (c <=? 102) then st 310 else st 0
        else st 310))
  | 310 => Some (fun c => switch c [(58, st 255); (93, st 236)] (st 0))
  | 311 => Some (fun c =>
      switch c [(46, st 230); (58, st 255); (93, st 236)]
       (if c <? 65 then if (48 <=? c) && (c <=? 57) then st 312 else st 0
        else if c >? 70 then if (97 <=? c) && (c <=? 102) then st 308 else st 0
        else st 308))
  | _ => None
  end.

Definition http_cases_42 (relaxed : bool) (cs : Z) : option (Z -> label) :=
  match cs with
  | 312 => Some (fun c =>
      switch c [(46, st 230); (58, st 255); (93, st 236)]
       (if c <? 65 then if (48 <=? c) && (c <=? 57) then st 313 else st 0
        else if c >? 70 then if (97 <=? c) && (c <=? 102) then st 309 else st 0
        else st 309))
  | 313 => Some (fun c =>
      switch c [(46, st 230); (58, st 255); (93, st 236)]
       (if c <? 65 then if (48 <=? c) && (c <=? 57) then st 310 else st 0
        else if c >? 70 then if (97 <=? c) && (c <=? 102) then st 310 else st 0
        else st 310))
  | 314 => Some (fun c =>
      switch c [(46, st 230); (48, st 315); (53, st 316); (58, st 255); (93, st 236)]
       (if c <? 65 then if (49 <=? c) && (c <=? 57) then st 308 else st 0
        else if c >? 70 then if (97 <=? c) && (c <=? 102) then st 308 else st 0
        else st 308))
  | 315 => Some (fun c =>
      switch c [(58, st 255); (93, st 236)]
       (if c <? 65 then if (48 <=? c) && (c <=? 57) then st 313 else st 0
        else if c >? 70 then if (97 <=? c) && (c <=? 102) then st 309 else st 0
        else st 309))
  | 316 => Some (fun c =>
      switch c [(48, st 313); (58, st 255); (93, st 236)]
       (if c <? 65 then if (49 <=? c) && (c <=? 57) then st 309 else st 0
        else if c >? 70 then if (97 <=? c) && (c <=? 102) then st 309 else st 0
        else st 309))
  | 317 => Some (fun c =>
      switch c [(58, st 255); (93, st 236)]
       (if c <? 65 then if (48 <=? c) && (c <=? 57) then st 308 else st 0
        else if c >? 70 then if (97 <=? c) && (c <=? 102) then st 308 else st 0
        else st 308))
  | 318 => Some (fun c =>
      switch c [(46, st 230); (58, st 306); (93, st 236)]
       (if c <? 65 then if (48 <=? c) && (c <=? 57) then st 319 else st 0
        else if c >? 70 then if (97 <=? c) && (c <=? 102) then st 303 else st 0
        else st 303))
  | 319 => Some (fun c =>
      switch c [(46, st 230); (58, st 306); (93, st 236)]
       (if c <? 65 then if (48 <=? c) && (c <=? 57) then st 320 else st 0
        else if c >? 70 then if (97 <=? c) && (c <=? 102) then st 304 else st 0
        else st 304))
  | _ => None
  end.

Definition http_cases_43 (relaxed : bool) (cs : Z) : option (Z -> label) :=
  match cs with
  | 320 => Some (fun c =>
      switch c [(46, st 230); (58, st 306); (93, st 236)]
       (if c <? 65 then if (48 <=? c) && (c <=? 57) then st 305 else st 0
        else if c >? 70 then if (97 <=? c) && (c <=? 102) then st 305 else st 0
        else st 305))
  | 321 => Some (fun c =>
      switch c [(46, st 230); (48, st 322); (53, st 323); (58, st 306); (93, st 236)]
       (if c <? 65 then if (49 <=? c) && (c <=? 57) then st 303 else st 0
        else if c >? 70 then if (97 <=? c) && (c <=? 102) then st 303 else st 0
        else st 303))
  | 322 => Some (fun c =>
      switch c [(58, st 306); (93, st 236)]
       (if c <? 65 then if (48 <=? c) && (c <=? 57) then st 320 else st 0
        else if c >? 70 then if (97 <=? c) && (c <=? 102) then st 304 else st 0
        else st 304))
  | 323 => Some (fun c =>
      switch c [(48, st 320); (58, st 306); (93, st 236)]
       (if c <? 65 then if (49 <=? c) && (c <=? 57) then st 304 else st 0
        else if c >? 70 then if (97 <=? c) && (c <=? 102) then st 304 else st 0
        else st 304))
  | 324 => Some (fun c =>
      switch c [(58, st 306); (93, st 236)]
       (if c <? 65 then if (48 <=? c) && (c <=? 57) then st 303 else st 0
        else if c >? 70 then if (97 <=? c) && (c <=? 102) then st 303 else st 0
        else st 303))
  | 325 => Some (fun c =>
      switch c [(49, st 318); (50, st 321)]
       (if c <? 48 then if (2 <=? c) && (c <=? 3) then st 223 else st 0
        else if c >? 57 then (
          if c >? 70 then if (97 <=? c) && (c <=? 102) then st 324 else st 0
          else if c >=? 65 then st 324 else st 0)
        else st 302))
  | 326 => Some (fun c =>
      switch c [(49, st 331); (50, st 334)]
       (if c <? 48 then if (2 <=? c) && (c <=? 3) then st 223 else st 0
        else if c >? 57 then (
          if c >? 70 then if (97 <=? c) && (c <=? 102) then st 337 else st 0
          else if c >=? 65 then st 337 else st 0)
        else st 327))
  | 327 => Some (fun c =>
      switch c [(46, st 230); (58, st 306)]
       (if c <? 65 then if (48 <=? c) && (c <=? 57) then st 328 else st 0
        else if c >? 70 then if (97 <=? c) && (c <=? 102) then st 328 else st 0
        else st 328))
  | _ => None
  end.

Definition http_cases_44 (relaxed : bool) (cs : Z) : option (Z -> label) :=
  match cs with
  | 328 => Some (fun c =>
      if c =? 58 then st 306
      else if c <? 65 then if (48 <=? c) && (c <=? 57) then st 329 else st 0
      else if c >? 70 then if (97 <=? c) && (c <=? 102) then st 329 else st 0
      else st 329)
  | 329 => Some (fun c =>
      if c =? 58 then st 306
      else if c <? 65 then if (48 <=? c) && (c <=? 57) then st 330 else st 0
      else if c >? 70 then if (97 <=? c) && (c <=? 102) then st 330 else st 0
      else st 330)
  | 330 => Some (fun c => if c =? 58 then st 306 else st 0)
  | 331 => Some (fun c =>
      switch c [(46, st 230); (58, st 306)]
       (if c <? 65 then if (48 <=? c) && (c <=? 57) then st 332 else st 0
        else if c >? 70 then if (97 <=? c) && (c <=? 102) then st 328 else st 0
        else st 328))
  | 332 => Some (fun c =>
      switch c [(46, st 230); (58, st 306)]
       (if c <? 65 then if (48 <=? c) && (c <=? 57) then st 333 else st 0
        else if c >? 70 then if (97 <=? c) && (c <=? 102) then st 329 else st 0
        else st 329))
  | 333 => Some (fun c =>
      switch c [(46, st 230); (58, st 306)]
       (if c <? 65 then if (48 <=? c) && (c <=? 57) then st 330 else st 0
        else if c >? 70 then if (97 <=? c) && (c <=? 102) then st 330 else st 0
        else st 330))
  | 334 => Some (fun c =>
      switch c [(46, st 230); (48, st 335); (53, st 336); (58, st 306)]
       (if c <? 65 then if (49 <=? c) && (c <=? 57) then st 328 else st 0
        else if c >? 70 then if (97 <=? c) && (c <=? 102) then st 328 else st 0
        else st 328))
  | 335 => Some (fun c =>
      if c =? 58 then st 306
      else if c <? 65 then if (48 <=? c) && (c <=? 57) then st 333 else st 0
      else if c >? 70 then if (97 <=? c) && (c <=? 102) then st 329 else st 0
      else st 329)
  | 336 => Some (fun c =>
      switch c [(48, st 333); (58, st 306)]
       (if c <? 65 then if (49 <=? c) && (c <=? 57) then st 329 else st 0
        else if c >? 70 then if (97 <=? c) && (c <=? 102) then st 329 else st 0
        else st 329))
  | _ => None
  end.

Definition http_cases_45 (relaxed : bool) (cs : Z) : option (Z -> label) :=
  match cs with
  | 337 => Some (fun c =>
      if c =? 58 then st 306
      else if c <? 65 then if (48 <=? c) && (c <=? 57) then st 328 else st 0
      else if c >? 70 then if (97 <=? c) && (c <=? 102) then st 328 else st 0
      else st 328)
  | 338 => Some (fun c =>
      if c <? 48 then if (2 <=? c) && (c <=? 3) then st 223 else st 0
      else if c >? 57 then (
        if c >? 70 then if (97 <=? c) && (c <=? 102) then st 224 else st 0
        else if c >=? 65 then st 224 else st 0)
      else st 224)
  | 339 => Some (fun c => if (2 <=? c) && (c <=? 3) then st 223 else st 0)
  | 340 => Some (fun c => if c =? 3 then st 223 else st 0)
  | 341 => Some (fun c => if c =? 4 then st 223 else st 0)
  | 342 => Some (fun c => if c =? 58 then st 343 else st 0)
  | 343 => Some (fun c =>
      switch c [(49, st 318); (50, st 321); (93, st 236)]
       (if c <? 48 then if (2 <=? c) && (c <=? 5) then st 223 else st 0
        else if c >? 57 then (
          if c >? 70 then if (97 <=? c) && (c <=? 102) then st 324 else st 0
          else if c >=? 65 then st 324 else st 0)
        else st 302))
  | 344 => Some (fun c =>
      if c <? 65 then if (48 <=? c) && (c <=? 57) then st 345 else st 0
      else if c >? 70 then if (97 <=? c) && (c <=? 102) then st 345 else st 0
      else st 345)
  | 345 => Some (fun c =>
      if c =? 46 then st 346
      else if c <? 65 then if (48 <=? c) && (c <=? 57) then st 345 else st 0
      else if c >? 70 then if (97 <=? c) && (c <=? 102) then st 345 else st 0
      else st 345)
  | _ => None
  end.

Definition http_cases_46 (relaxed : bool) (cs : Z) : option (Z -> label) :=
  match cs with
  | 346 => Some (fun c =>
      let _widec := widec relaxed c in
      switch _widec [(33, st 347); (36, st 347); (61, st 347); (95, st 347);
        (126, st 347); (606, st 347); (635, st 347); (637, st 347)]
       (if _widec <? 48 then if (38 <=? _widec) && (_widec <=? 46) then st 347 else st 0
        else if _widec >? 59 then (
          if _widec >? 90 then if (97 <=? _widec) && (_widec <=? 122) then st 347 else st 0
          else if _widec >=? 65 then st 347 else st 0)
        else st 347))
  | 347 => Some (fun c =>
      let _widec := widec relaxed c in
      switch _widec [(33, st 347); (36, st 347); (61, st 347); (93, st 236); (95, st 347);
        (126, st 347); (606, st 347); (635, st 347); (637, st 347)]
       (if _widec <? 48 then if (38 <=? _widec) && (_widec <=? 46) then st 347 else st 0
        else if _widec >? 59 then (
          if _widec >? 90 then if (97 <=? _widec) && (_widec <=? 122) then st 347 else st 0
          else if _widec >=? 65 then st 347 else st 0)
        else st 347))
  | _ => None
  end.

(** *** The transitions with actions: labels [trN] *)

Definition http_tr (n : Z) : list action * Z :=
  match n with
  | 0 => ([mark], 2)
  | 2 => ([mark], 194)
  | 3 => ([mark], 198)
  | 4 => ([request_method], 3)
  | 6 => ([mark; request_path; request_uri], 4)
  | 7 => ([mark], 19)
  | 8 => ([mark; request_path; request_uri], 20)
  | 9 => ([mark], 24)
  | 10 => ([mark], 33)
  | 11 => ([mark; request_path], 29)
  | 12 => ([mark], 173)
  | 13 => ([mark], 5)
  | 21 => ([http_version], 13)
  | 22 => ([http_version], 17)
  | 23 => ([start_field], 14)
  | 24 => ([start_field; done], 348)
  | 25 => ([start_field], 18)
  | 27 => ([write_field], 15)
  | 28 => ([start_value], 16)
  | 29 => ([start_value], 15)
  | 30 => ([start_value; write_value], 13)
  | 31 => ([start_value; write_value], 17)
  | 33 => ([write_value], 13)
  | 34 => ([write_value], 17)
  | 36 => ([done], 348)
  | 37 => ([request_path; request_uri], 4)
  | 39 => ([request_path; request_uri], 20)
  | 42 => ([request_path], 29)
  | 43 => ([mark], 21)
  | 44 => ([mark; fragment], 4)
  | 45 => ([mark], 22)
  | 47 => ([fragment], 4)
  | 53 => ([start_query], 30)
  | 54 => ([start_query; query_string; request_uri], 4)
  | 55 => ([start_query; query_string; request_uri], 20)
  | 56 => ([start_query], 31)
  | 58 => ([query_string; request_uri], 4)
  | 59 => ([query_string; request_uri], 20)
  | 203 => ([mark], 26)
  | 204 => ([mark], 27)
  | 224 => ([request_path], 196)
  | 227 => ([xml; done], 349)
  | 228 => ([request_path], 199)
  | 232 => ([mark], 200)
  | 235 => ([json; done], 349)
  | _ => ([], 0)
  end.

(** The case of a state, in the order of the source. *)
Definition http_case (relaxed : bool) (cs : Z) : option (Z -> label) :=
  first_case [http_cases_1 relaxed; http_cases_2 relaxed; http_cases_3 relaxed; http_cases_4 relaxed;
    http_cases_5 relaxed; http_cases_6 relaxed; http_cases_7 relaxed; http_cases_8 relaxed;
    http_cases_9 relaxed; http_cases_10 relaxed; http_cases_11 relaxed; http_cases_12 relaxed;
    http_cases_13 relaxed; http_cases_14 relaxed; http_cases_15 relaxed; http_cases_16 relaxed;
    http_cases_17 relaxed; http_cases_18 relaxed; http_cases_19 relaxed; http_cases_20 relaxed;
    http_cases_21 relaxed; http_cases_22 relaxed; http_cases_23 relaxed; http_cases_24 relaxed;
    http_cases_25 relaxed; http_cases_26 relaxed; http_cases_27 relaxed; http_cases_28 relaxed;
    http_cases_29 relaxed; http_cases_30 relaxed; http_cases_31 relaxed; http_cases_32 relaxed;
    http_cases_33 relaxed; http_cases_34 relaxed; http_cases_35 relaxed; http_cases_36 relaxed;
    http_cases_37 relaxed; http_cases_38 relaxed; http_cases_39 relaxed; http_cases_40 relaxed;
    http_cases_41 relaxed; http_cases_42 relaxed; http_cases_43 relaxed; http_cases_44 relaxed;
    http_cases_45 relaxed; http_cases_46 relaxed] cs.

Definition http_machine (relaxed : bool) : machine action :=
  Machine (http_case relaxed) http_tr 2
    (fun a => bool_decide (a = done)).

End Http11Machine.
