(* ===== verification/Httpclientmachine.v ===== *)
(** * Httpclientmachine: the response parser's machine

    The states and transitions of http/httpclient_parser.rl.cc, case by case and
    in its order; [c] is [*p].  http/httpclient_parser.cc is the same code with
    other #line directives. *)
From S2P Require Import Prelude Ragel.
Import Ragel.

Module HttpclientMachine.

(** The actions of the grammar, by name. *)
Inductive action :=
| mark
| start_field
| write_field
| start_value
| write_content_len
| write_connection_close
| write_value
| reason_phrase
| status_code
| http_version
| chunk_size
| trans_chunked
| done.

#[export] Instance action_eq_dec : EqDecision action.
Proof. solve_decision. Defined.


(** *** The cases of the switch on the state *)

Definition httpclient_cases_1 (cs : Z) : option (Z -> label) :=
  match cs with
  | 1 => Some (fun c =>
      if c =? 72 then tr 2
      else if c <? 65 then if (48 <=? c) && (c <=? 57) then tr 0 else st 0
      else if c >? 70 then if (97 <=? c) && (c <=? 102) then tr 0 else st 0
      else tr 0)
  | 2 => Some (fun c =>
      switch c [(10, tr 3); (13, tr 4); (59, tr 6)]
       (if c <? 65 then if (48 <=? c) && (c <=? 57) then st 2 else st 0
        else if c >? 70 then if (97 <=? c) && (c <=? 102) then st 2 else st 0
        else st 2))
  | 120 => Some (fun c => st 0)
  | _ => None
  end.

Definition httpclient_cases_2 (cs : Z) : option (Z -> label) :=
  match cs with
  | 3 => Some (fun c => if c =? 10 then tr 7 else st 0)
  | 4 => Some (fun c =>
      switch c [(33, tr 8); (124, tr 8); (126, tr 8)]
       (if c <? 45 then (
          if c >? 39 then if (42 <=? c) && (c <=? 43) then tr 8 else st 0
          else if c >=? 35 then tr 8 else st 0)
        else if c >? 46 then (
          if c <? 65 then if (48 <=? c) && (c <=? 57) then tr 8 else st 0
          else if c >? 90 then if (94 <=? c) && (c <=? 122) then tr 8 else st 0
          else tr 8)
        else tr 8))
  | 5 => Some (fun c =>
      switch c [(10, tr 9); (13, tr 10); (33, st 5); (59, tr 12); (61, tr 13);
        (124, st 5); (126, st 5)]
       (if c <? 45 then (
          if c >? 39 then if (42 <=? c) && (c <=? 43) then st 5 else st 0
          else if c >=? 35 then st 5 else st 0)
        else if c >? 46 then (
          if c <? 65 then if (48 <=? c) && (c <=? 57) then st 5 else st 0
          else if c >? 90 then if (94 <=? c) && (c <=? 122) then st 5 else st 0
          else st 5)
        else st 5))
  | _ => None
  end.

Definition httpclient_cases_3 (cs : Z) : option (Z -> label) :=
  match cs with
  | 6 => Some (fun c =>
      switch c [(33, tr 14); (124, tr 14); (126, tr 14)]
       (if c <? 45 then (
          if c >? 39 then if (42 <=? c) && (c <=? 43) then tr 14 else st 0
          else if c >=? 35 then tr 14 else st 0)
        else if c >? 46 then (
          if c <? 65 then if (48 <=? c) && (c <=? 57) then tr 14 else st 0
          else if c >? 90 then if (94 <=? c) && (c <=? 122) then tr 14 else st 0
          else tr 14)
        else tr 14))
  | 7 => Some (fun c =>
      switch c [(10, tr 15); (13, tr 16); (33, st 7); (59, tr 18); (124, st 7);
        (126, st 7)]
       (if c <? 45 then (
          if c >? 39 then if (42 <=? c) && (c <=? 43) then st 7 else st 0
          else if c >=? 35 then st 7 else st 0)
        else if c >? 46 then (
          if c <? 65 then if (48 <=? c) && (c <=? 57) then st 7 else st 0
          else if c >? 90 then if (94 <=? c) && (c <=? 122) then st 7 else st 0
          else st 7)
        else st 7))
  | 8 => Some (fun c => if c =? 84 then st 9 else st 0)
  | 9 => Some (fun c => if c =? 84 then st 10 else st 0)
  | 10 => Some (fun c => if c =? 80 then st 11 else st 0)
  | 11 => Some (fun c => if c =? 47 then st 12 else st 0)
  | 12 => Some (fun c => if (48 <=? c) && (c <=? 57) then st 13 else st 0)
  | 13 => Some (fun c =>
      if c =? 46 then st 14
      else if (48 <=? c) && (c <=? 57) then st 13 else st 0)
  | 14 => Some (fun c => if (48 <=? c) && (c <=? 57) then st 15 else st 0)
  | 15 => Some (fun c =>
      if c =? 32 then tr 26
      else if (48 <=? c) && (c <=? 57) then st 15 else st 0)
  | _ => None
  end.

Definition httpclient_cases_4 (cs : Z) : option (Z -> label) :=
  match cs with
  | 16 => Some (fun c => if (48 <=? c) && (c <=? 57) then tr 27 else st 0)
  | 17 => Some (fun c =>
      if c =? 32 then tr 28
      else if (48 <=? c) && (c <=? 57) then st 17 else st 0)
  | 18 => Some (fun c => if c =? 10 then st 0 else tr 30)
  | 19 => Some (fun c => switch c [(10, tr 32); (13, tr 33)] (st 19))
  | 20 => Some (fun c =>
      switch c [(10, tr 7); (13, st 3); (33, tr 35); (67, tr 36); (84, tr 37);
        (99, tr 36); (116, tr 37); (124, tr 35); (126, tr 35)]
       (if c <? 45 then (
          if c >? 39 then if (42 <=? c) && (c <=? 43) then tr 35 else st 0
          else if c >=? 35 then tr 35 else st 0)
        else if c >? 46 then (
          if c <? 65 then if (48 <=? c) && (c <=? 57) then tr 35 else st 0
          else if c >? 90 then if (94 <=? c) && (c <=? 122) then tr 35 else st 0
          else tr 35)
        else tr 35))
  | _ => None
  end.

Definition httpclient_cases_5 (cs : Z) : option (Z -> label) :=
  match cs with
  | 21 => Some (fun c =>
      switch c [(33, st 21); (58, tr 39); (124, st 21); (126, st 21)]
       (if c <? 45 then (
          if c >? 39 then if (42 <=? c) && (c <=? 43) then st 21 else st 0
          else if c >=? 35 then st 21 else st 0)
        else if c >? 46 then (
          if c <? 65 then if (48 <=? c) && (c <=? 57) then st 21 else st 0
          else if c >? 90 then if (94 <=? c) && (c <=? 122) then st 21 else st 0
          else st 21)
        else st 21))
  | 22 => Some (fun c =>
      switch c [(10, tr 42); (13, tr 43); (32, tr 41)] (if (9 <=? c) && (c <=? 12) then tr 41 else tr 40))
  | 23 => Some (fun c => switch c [(10, tr 45); (13, tr 46)] (st 23))
  | 24 => Some (fun c => if c =? 10 then st 20 else st 0)
  | _ => None
  end.

Definition httpclient_cases_6 (cs : Z) : option (Z -> label) :=
  match cs with
  | 25 => Some (fun c =>
      switch c [(33, st 21); (58, tr 39); (79, st 26); (111, st 26); (124, st 21);
        (126, st 21)]
       (if c <? 45 then (
          if c >? 39 then if (42 <=? c) && (c <=? 43) then st 21 else st 0
          else if c >=? 35 then st 21 else st 0)
        else if c >? 46 then (
          if c <? 65 then if (48 <=? c) && (c <=? 57) then st 21 else st 0
          else if c >? 90 then if (94 <=? c) && (c <=? 122) then st 21 else st 0
          else st 21)
        else st 21))
  | 26 => Some (fun c =>
      switch c [(33, st 21); (58, tr 39); (78, st 27); (110, st 27); (124, st 21);
        (126, st 21)]
       (if c <? 45 then (
          if c >? 39 then if (42 <=? c) && (c <=? 43) then st 21 else st 0
          else if c >=? 35 then st 21 else st 0)
        else if c >? 46 then (
          if c <? 65 then if (48 <=? c) && (c <=? 57) then st 21 else st 0
          else if c >? 90 then if (94 <=? c) && (c <=? 122) then st 21 else st 0
          else st 21)
        else st 21))
  | 27 => Some (fun c =>
      switch c [(33, st 21); (58, tr 39); (78, st 28); (84, st 101); (110, st 28);
        (116, st 101); (124, st 21); (126, st 21)]
       (if c <? 45 then (
          if c >? 39 then if (42 <=? c) && (c <=? 43) then st 21 else st 0
          else if c >=? 35 then st 21 else st 0)
        else if c >? 46 then (
          if c <? 65 then if (48 <=? c) && (c <=? 57) then st 21 else st 0
          else if c >? 90 then if (94 <=? c) && (c <=? 122) then st 21 else st 0
          else st 21)
        else st 21))
  | 28 => Some (fun c =>
      switch c [(33, st 21); (58, tr 39); (69, st 29); (101, st 29); (124, st 21);
        (126, st 21)]
       (if c <? 45 then (
          if c >? 39 then if (42 <=? c) && (c <=? 43) then st 21 else st 0
          else if c >=? 35 then st 21 else st 0)
        else if c >? 46 then (
          if c <? 65 then if (48 <=? c) && (c <=? 57) then st 21 else st 0
          else if c >? 90 then if (94 <=? c) && (c <=? 122) then st 21 else st 0
          else st 21)
        else st 21))
  | _ => None
  end.

Definition httpclient_cases_7 (cs : Z) : option (Z -> label) :=
  match cs with
  | 29 => Some (fun c =>
      switch c [(33, st 21); (58, tr 39); (67, st 30); (99, st 30); (124, st 21);
        (126, st 21)]
       (if c <? 45 then (
          if c >? 39 then if (42 <=? c) && (c <=? 43) then st 21 else st 0
          else if c >=? 35 then st 21 else st 0)
        else if c >? 46 then (
          if c <? 65 then if (48 <=? c) && (c <=? 57) then st 21 else st 0
          else if c >? 90 then if (94 <=? c) && (c <=? 122) then st 21 else st 0
          else st 21)
        else st 21))
  | 30 => Some (fun c =>
      switch c [(33, st 21); (58, tr 39); (84, st 31); (116, st 31); (124, st 21);
        (126, st 21)]
       (if c <? 45 then (
          if c >? 39 then if (42 <=? c) && (c <=? 43) then st 21 else st 0
          else if c >=? 35 then st 21 else st 0)
        else if c >? 46 then (
          if c <? 65 then if (48 <=? c) && (c <=? 57) then st 21 else st 0
          else if c >? 90 then if (94 <=? c) && (c <=? 122) then st 21 else st 0
          else st 21)
        else st 21))
  | 31 => Some (fun c =>
      switch c [(33, st 21); (58, tr 39); (73, st 32); (105, st 32); (124, st 21);
        (126, st 21)]
       (if c <? 45 then (
          if c >? 39 then if (42 <=? c) && (c <=? 43) then st 21 else st 0
          else if c >=? 35 then st 21 else st 0)
        else if c >? 46 then (
          if c <? 65 then if (48 <=? c) && (c <=? 57) then st 21 else st 0
          else if c >? 90 then if (94 <=? c) && (c <=? 122) then st 21 else st 0
          else st 21)
        else st 21))
  | 32 => Some (fun c =>
      switch c [(33, st 21); (58, tr 39); (79, st 33); (111, st 33); (124, st 21);
        (126, st 21)]
       (if c <? 45 then (
          if c >? 39 then if (42 <=? c) && (c <=? 43) then st 21 else st 0
          else if c >=? 35 then st 21 else st 0)
        else if c >? 46 then (
          if c <? 65 then if (48 <=? c) && (c <=? 57) then st 21 else st 0
          else if c >? 90 then if (94 <=? c) && (c <=? 122) then st 21 else st 0
          else st 21)
        else st 21))
  | 33 => Some (fun c =>
      switch c [(33, st 21); (58, tr 39); (78, st 34); (110, st 34); (124, st 21);
        (126, st 21)]
       (if c <? 45 then (
          if c >? 39 then if (42 <=? c) && (c <=? 43) then st 21 else st 0
          else if c >=? 35 then st 21 else st 0)
        else if c >? 46 then (
          if c <? 65 then if (48 <=? c) && (c <=? 57) then st 21 else st 0
          else if c >? 90 then if (94 <=? c) && (c <=? 122) then st 21 else st 0
          else st 21)
        else st 21))
  | _ => None
  end.

Definition httpclient_cases_8 (cs : Z) : option (Z -> label) :=
  match cs with
  | 34 => Some (fun c =>
      switch c [(33, st 21); (58, tr 58); (124, st 21); (126, st 21)]
       (if c <? 45 then (
          if c >? 39 then if (42 <=? c) && (c <=? 43) then st 21 else st 0
          else if c >=? 35 then st 21 else st 0)
        else if c >? 46 then (
          if c <? 65 then if (48 <=? c) && (c <=? 57) then st 21 else st 0
          else if c >? 90 then if (94 <=? c) && (c <=? 122) then st 21 else st 0
          else st 21)
        else st 21))
  | 35 => Some (fun c =>
      switch c [(10, tr 60); (13, tr 61); (32, tr 59); (67, tr 62); (99, tr 62)] (if (9 <=? c) && (c <=? 12) then tr 59 else tr 40))
  | 36 => Some (fun c =>
      switch c [(10, tr 64); (13, st 89); (32, st 37); (33, tr 35); (67, tr 66);
        (84, tr 37); (99, tr 66); (116, tr 37); (124, tr 35); (126, tr 35)]
       (if c <? 45 then (
          if c <? 35 then if (9 <=? c) && (c <=? 12) then st 37 else st 0
          else if c >? 39 then if (42 <=? c) && (c <=? 43) then tr 35 else st 0
          else tr 35)
        else if c >? 46 then (
          if c <? 65 then if (48 <=? c) && (c <=? 57) then tr 35 else st 0
          else if c >? 90 then if (94 <=? c) && (c <=? 122) then tr 35 else st 0
          else tr 35)
        else tr 35))
  | 37 => Some (fun c =>
      switch c [(32, st 37); (67, st 38); (99, st 38)] (if (9 <=? c) && (c <=? 13) then st 37 else st 0))
  | 38 => Some (fun c => switch c [(76, st 39); (108, st 39)] (st 0))
  | 39 => Some (fun c => switch c [(79, st 40); (111, st 40)] (st 0))
  | 40 => Some (fun c => switch c [(83, st 41); (115, st 41)] (st 0))
  | 41 => Some (fun c => switch c [(69, st 42); (101, st 42)] (st 0))
  | _ => None
  end.

Definition httpclient_cases_9 (cs : Z) : option (Z -> label) :=
  match cs with
  | 42 => Some (fun c => switch c [(10, st 43); (13, st 88)] (st 0))
  | 43 => Some (fun c =>
      switch c [(10, tr 74); (13, tr 75); (33, tr 76); (67, tr 77); (84, tr 78);
        (99, tr 77); (116, tr 78); (124, tr 76); (126, tr 76)]
       (if c <? 45 then (
          if c >? 39 then if (42 <=? c) && (c <=? 43) then tr 76 else st 0
          else if c >=? 35 then tr 76 else st 0)
        else if c >? 46 then (
          if c <? 65 then if (48 <=? c) && (c <=? 57) then tr 76 else st 0
          else if c >? 90 then if (94 <=? c) && (c <=? 122) then tr 76 else st 0
          else tr 76)
        else tr 76))
  | 44 => Some (fun c =>
      switch c [(33, st 21); (58, tr 39); (82, st 45); (114, st 45); (124, st 21);
        (126, st 21)]
       (if c <? 45 then (
          if c >? 39 then if (42 <=? c) && (c <=? 43) then st 21 else st 0
          else if c >=? 35 then st 21 else st 0)
        else if c >? 46 then (
          if c <? 65 then if (48 <=? c) && (c <=? 57) then st 21 else st 0
          else if c >? 90 then if (94 <=? c) && (c <=? 122) then st 21 else st 0
          else st 21)
        else st 21))
  | 45 => Some (fun c =>
      switch c [(33, st 21); (58, tr 39); (65, st 46); (97, st 46); (124, st 21);
        (126, st 21)]
       (if c <? 45 then (
          if c >? 39 then if (42 <=? c) && (c <=? 43) then st 21 else st 0
          else if c >=? 35 then st 21 else st 0)
        else if c >? 46 then (
          if c <? 66 then if (48 <=? c) && (c <=? 57) then st 21 else st 0
          else if c >? 90 then if (94 <=? c) && (c <=? 122) then st 21 else st 0
          else st 21)
        else st 21))
  | _ => None
  end.

Definition httpclient_cases_10 (cs : Z) : option (Z -> label) :=
  match cs with
  | 46 => Some (fun c =>
      switch c [(33, st 21); (58, tr 39); (78, st 47); (110, st 47); (124, st 21);
        (126, st 21)]
       (if c <? 45 then (
          if c >? 39 then if (42 <=? c) && (c <=? 43) then st 21 else st 0
          else if c >=? 35 then st 21 else st 0)
        else if c >? 46 then (
          if c <? 65 then if (48 <=? c) && (c <=? 57) then st 21 else st 0
          else if c >? 90 then if (94 <=? c) && (c <=? 122) then st 21 else st 0
          else st 21)
        else st 21))
  | 47 => Some (fun c =>
      switch c [(33, st 21); (58, tr 39); (83, st 48); (115, st 48); (124, st 21);
        (126, st 21)]
       (if c <? 45 then (
          if c >? 39 then if (42 <=? c) && (c <=? 43) then st 21 else st 0
          else if c >=? 35 then st 21 else st 0)
        else if c >? 46 then (
          if c <? 65 then if (48 <=? c) && (c <=? 57) then st 21 else st 0
          else if c >? 90 then if (94 <=? c) && (c <=? 122) then st 21 else st 0
          else st 21)
        else st 21))
  | 48 => Some (fun c =>
      switch c [(33, st 21); (58, tr 39); (70, st 49); (102, st 49); (124, st 21);
        (126, st 21)]
       (if c <? 45 then (
          if c >? 39 then if (42 <=? c) && (c <=? 43) then st 21 else st 0
          else if c >=? 35 then st 21 else st 0)
        else if c >? 46 then (
          if c <? 65 then if (48 <=? c) && (c <=? 57) then st 21 else st 0
          else if c >? 90 then if (94 <=? c) && (c <=? 122) then st 21 else st 0
          else st 21)
        else st 21))
  | 49 => Some (fun c =>
      switch c [(33, st 21); (58, tr 39); (69, st 50); (101, st 50); (124, st 21);
        (126, st 21)]
       (if c <? 45 then (
          if c >? 39 then if (42 <=? c) && (c <=? 43) then st 21 else st 0
          else if c >=? 35 then st 21 else st 0)
        else if c >? 46 then (
          if c <? 65 then if (48 <=? c) && (c <=? 57) then st 21 else st 0
          else if c >? 90 then if (94 <=? c) && (c <=? 122) then st 21 else st 0
          else st 21)
        else st 21))
  | 50 => Some (fun c =>
      switch c [(33, st 21); (58, tr 39); (82, st 51); (114, st 51); (124, st 21);
        (126, st 21)]
       (if c <? 45 then (
          if c >? 39 then if (42 <=? c) && (c <=? 43) then st 21 else st 0
          else if c >=? 35 then st 21 else st 0)
        else if c >? 46 then (
          if c <? 65 then if (48 <=? c) && (c <=? 57) then st 21 else st 0
          else if c >? 90 then if (94 <=? c) && (c <=? 122) then st 21 else st 0
          else st 21)
        else st 21))
  | _ => None
  end.

Definition httpclient_cases_11 (cs : Z) : option (Z -> label) :=
  match cs with
  | 51 => Some (fun c =>
      switch c [(33, st 21); (45, st 52); (46, st 21); (58, tr 39); (124, st 21);
        (126, st 21)]
       (if c <? 48 then (
          if c >? 39 then if (42 <=? c) && (c <=? 43) then st 21 else st 0
          else if c >=? 35 then st 21 else st 0)
        else if c >? 57 then (
          if c >? 90 then if (94 <=? c) && (c <=? 122) then st 21 else st 0
          else if c >=? 65 then st 21 else st 0)
        else st 21))
  | 52 => Some (fun c =>
      switch c [(33, st 21); (58, tr 39); (69, st 53); (101, st 53); (124, st 21);
        (126, st 21)]
       (if c <? 45 then (
          if c >? 39 then if (42 <=? c) && (c <=? 43) then st 21 else st 0
          else if c >=? 35 then st 21 else st 0)
        else if c >? 46 then (
          if c <? 65 then if (48 <=? c) && (c <=? 57) then st 21 else st 0
          else if c >? 90 then if (94 <=? c) && (c <=? 122) then st 21 else st 0
          else st 21)
        else st 21))
  | 53 => Some (fun c =>
      switch c [(33, st 21); (58, tr 39); (78, st 54); (110, st 54); (124, st 21);
        (126, st 21)]
       (if c <? 45 then (
          if c >? 39 then if (42 <=? c) && (c <=? 43) then st 21 else st 0
          else if c >=? 35 then st 21 else st 0)
        else if c >? 46 then (
          if c <? 65 then if (48 <=? c) && (c <=? 57) then st 21 else st 0
          else if c >? 90 then if (94 <=? c) && (c <=? 122) then st 21 else st 0
          else st 21)
        else st 21))
  | 54 => Some (fun c =>
      switch c [(33, st 21); (58, tr 39); (67, st 55); (99, st 55); (124, st 21);
        (126, st 21)]
       (if c <? 45 then (
          if c >? 39 then if (42 <=? c) && (c <=? 43) then st 21 else st 0
          else if c >=? 35 then st 21 else st 0)
        else if c >? 46 then (
          if c <? 65 then if (48 <=? c) && (c <=? 57) then st 21 else st 0
          else if c >? 90 then if (94 <=? c) && (c <=? 122) then st 21 else st 0
          else st 21)
        else st 21))
  | 55 => Some (fun c =>
      switch c [(33, st 21); (58, tr 39); (79, st 56); (111, st 56); (124, st 21);
        (126, st 21)]
       (if c <? 45 then (
          if c >? 39 then if (42 <=? c) && (c <=? 43) then st 21 else st 0
          else if c >=? 35 then st 21 else st 0)
        else if c >? 46 then (
          if c <? 65 then if (48 <=? c) && (c <=? 57) then st 21 else st 0
          else if c >? 90 then if (94 <=? c) && (c <=? 122) then st 21 else st 0
          else st 21)
        else st 21))
  | _ => None
  end.

Definition httpclient_cases_12 (cs : Z) : option (Z -> label) :=
  match cs with
  | 56 => Some (fun c =>
      switch c [(33, st 21); (58, tr 39); (68, st 57); (100, st 57); (124, st 21);
        (126, st 21)]
       (if c <? 45 then (
          if c >? 39 then if (42 <=? c) && (c <=? 43) then st 21 else st 0
          else if c >=? 35 then st 21 else st 0)
        else if c >? 46 then (
          if c <? 65 then if (48 <=? c) && (c <=? 57) then st 21 else st 0
          else if c >? 90 then if (94 <=? c) && (c <=? 122) then st 21 else st 0
          else st 21)
        else st 21))
  | 57 => Some (fun c =>
      switch c [(33, st 21); (58, tr 39); (73, st 58); (105, st 58); (124, st 21);
        (126, st 21)]
       (if c <? 45 then (
          if c >? 39 then if (42 <=? c) && (c <=? 43) then st 21 else st 0
          else if c >=? 35 then st 21 else st 0)
        else if c >? 46 then (
          if c <? 65 then if (48 <=? c) && (c <=? 57) then st 21 else st 0
          else if c >? 90 then if (94 <=? c) && (c <=? 122) then st 21 else st 0
          else st 21)
        else st 21))
  | 58 => Some (fun c =>
      switch c [(33, st 21); (58, tr 39); (78, st 59); (110, st 59); (124, st 21);
        (126, st 21)]
       (if c <? 45 then (
          if c >? 39 then if (42 <=? c) && (c <=? 43) then st 21 else st 0
          else if c >=? 35 then st 21 else st 0)
        else if c >? 46 then (
          if c <? 65 then if (48 <=? c) && (c <=? 57) then st 21 else st 0
          else if c >? 90 then if (94 <=? c) && (c <=? 122) then st 21 else st 0
          else st 21)
        else st 21))
  | 59 => Some (fun c =>
      switch c [(33, st 21); (58, tr 39); (71, st 60); (103, st 60); (124, st 21);
        (126, st 21)]
       (if c <? 45 then (
          if c >? 39 then if (42 <=? c) && (c <=? 43) then st 21 else st 0
          else if c >=? 35 then st 21 else st 0)
        else if c >? 46 then (
          if c <? 65 then if (48 <=? c) && (c <=? 57) then st 21 else st 0
          else if c >? 90 then if (94 <=? c) && (c <=? 122) then st 21 else st 0
          else st 21)
        else st 21))
  | 60 => Some (fun c =>
      switch c [(33, st 21); (58, tr 95); (124, st 21); (126, st 21)]
       (if c <? 45 then (
          if c >? 39 then if (42 <=? c) && (c <=? 43) then st 21 else st 0
          else if c >=? 35 then st 21 else st 0)
        else if c >? 46 then (
          if c <? 65 then if (48 <=? c) && (c <=? 57) then st 21 else st 0
          else if c >? 90 then if (94 <=? c) && (c <=? 122) then st 21 else st 0
          else st 21)
        else st 21))
  | _ => None
  end.

Definition httpclient_cases_13 (cs : Z) : option (Z -> label) :=
  match cs with
  | 61 => Some (fun c =>
      switch c [(10, tr 97); (13, tr 98); (32, tr 96); (67, tr 99); (99, tr 99)] (if (9 <=? c) && (c <=? 12) then tr 96 else tr 40))
  | 62 => Some (fun c =>
      switch c [(10, tr 101); (13, st 72); (32, st 63); (33, tr 35); (67, tr 103);
        (84, tr 37); (99, tr 103); (116, tr 37); (124, tr 35); (126, tr 35)]
       (if c <? 45 then (
          if c <? 35 then if (9 <=? c) && (c <=? 12) then st 63 else st 0
          else if c >? 39 then if (42 <=? c) && (c <=? 43) then tr 35 else st 0
          else tr 35)
        else if c >? 46 then (
          if c <? 65 then if (48 <=? c) && (c <=? 57) then tr 35 else st 0
          else if c >? 90 then if (94 <=? c) && (c <=? 122) then tr 35 else st 0
          else tr 35)
        else tr 35))
  | 63 => Some (fun c =>
      switch c [(32, st 63); (67, tr 104); (99, tr 104)] (if (9 <=? c) && (c <=? 13) then st 63 else st 0))
  | 64 => Some (fun c => switch c [(72, st 65); (104, st 65)] (st 0))
  | 65 => Some (fun c => switch c [(85, st 66); (117, st 66)] (st 0))
  | 66 => Some (fun c => switch c [(78, st 67); (110, st 67)] (st 0))
  | 67 => Some (fun c => switch c [(75, st 68); (107, st 68)] (st 0))
  | 68 => Some (fun c => switch c [(69, st 69); (101, st 69)] (st 0))
  | 69 => Some (fun c => switch c [(68, st 70); (100, st 70)] (st 0))
  | _ => None
  end.

Definition httpclient_cases_14 (cs : Z) : option (Z -> label) :=
  match cs with
  | 70 => Some (fun c => switch c [(10, tr 111); (13, tr 112)] (st 0))
  | 71 => Some (fun c => if c =? 10 then tr 113 else st 0)
  | 121 => Some (fun c =>
      switch c [(32, st 63); (67, tr 104); (99, tr 104)] (if (9 <=? c) && (c <=? 13) then st 63 else st 0))
  | 72 => Some (fun c =>
      switch c [(10, tr 101); (32, st 63); (67, tr 104); (99, tr 104)] (if (9 <=? c) && (c <=? 13) then st 63 else st 0))
  | 73 => Some (fun c =>
      switch c [(33, st 21); (58, tr 39); (72, st 74); (79, st 26); (104, st 74);
        (111, st 26); (124, st 21); (126, st 21)]
       (if c <? 45 then (
          if c >? 39 then if (42 <=? c) && (c <=? 43) then st 21 else st 0
          else if c >=? 35 then st 21 else st 0)
        else if c >? 46 then (
          if c <? 65 then if (48 <=? c) && (c <=? 57) then st 21 else st 0
          else if c >? 90 then if (94 <=? c) && (c <=? 122) then st 21 else st 0
          else st 21)
        else st 21))
  | 74 => Some (fun c =>
      switch c [(33, st 21); (58, tr 39); (85, st 75); (117, st 75); (124, st 21);
        (126, st 21)]
       (if c <? 45 then (
          if c >? 39 then if (42 <=? c) && (c <=? 43) then st 21 else st 0
          else if c >=? 35 then st 21 else st 0)
        else if c >? 46 then (
          if c <? 65 then if (48 <=? c) && (c <=? 57) then st 21 else st 0
          else if c >? 90 then if (94 <=? c) && (c <=? 122) then st 21 else st 0
          else st 21)
        else st 21))
  | _ => None
  end.

Definition httpclient_cases_15 (cs : Z) : option (Z -> label) :=
  match cs with
  | 75 => Some (fun c =>
      switch c [(33, st 21); (58, tr 39); (78, st 76); (110, st 76); (124, st 21);
        (126, st 21)]
       (if c <? 45 then (
          if c >? 39 then if (42 <=? c) && (c <=? 43) then st 21 else st 0
          else if c >=? 35 then st 21 else st 0)
        else if c >? 46 then (
          if c <? 65 then if (48 <=? c) && (c <=? 57) then st 21 else st 0
          else if c >? 90 then if (94 <=? c) && (c <=? 122) then st 21 else st 0
          else st 21)
        else st 21))
  | 76 => Some (fun c =>
      switch c [(33, st 21); (58, tr 39); (75, st 77); (107, st 77); (124, st 21);
        (126, st 21)]
       (if c <? 45 then (
          if c >? 39 then if (42 <=? c) && (c <=? 43) then st 21 else st 0
          else if c >=? 35 then st 21 else st 0)
        else if c >? 46 then (
          if c <? 65 then if (48 <=? c) && (c <=? 57) then st 21 else st 0
          else if c >? 90 then if (94 <=? c) && (c <=? 122) then st 21 else st 0
          else st 21)
        else st 21))
  | 77 => Some (fun c =>
      switch c [(33, st 21); (58, tr 39); (69, st 78); (101, st 78); (124, st 21);
        (126, st 21)]
       (if c <? 45 then (
          if c >? 39 then if (42 <=? c) && (c <=? 43) then st 21 else st 0
          else if c >=? 35 then st 21 else st 0)
        else if c >? 46 then (
          if c <? 65 then if (48 <=? c) && (c <=? 57) then st 21 else st 0
          else if c >? 90 then if (94 <=? c) && (c <=? 122) then st 21 else st 0
          else st 21)
        else st 21))
  | 78 => Some (fun c =>
      switch c [(33, st 21); (58, tr 39); (68, st 79); (100, st 79); (124, st 21);
        (126, st 21)]
       (if c <? 45 then (
          if c >? 39 then if (42 <=? c) && (c <=? 43) then st 21 else st 0
          else if c >=? 35 then st 21 else st 0)
        else if c >? 46 then (
          if c <? 65 then if (48 <=? c) && (c <=? 57) then st 21 else st 0
          else if c >? 90 then if (94 <=? c) && (c <=? 122) then st 21 else st 0
          else st 21)
        else st 21))
  | 79 => Some (fun c =>
      switch c [(10, tr 111); (13, tr 112); (33, st 21); (58, tr 39); (124, st 21);
        (126, st 21)]
       (if c <? 45 then (
          if c >? 39 then if (42 <=? c) && (c <=? 43) then st 21 else st 0
          else if c >=? 35 then st 21 else st 0)
        else if c >? 46 then (
          if c <? 65 then if (48 <=? c) && (c <=? 57) then st 21 else st 0
          else if c >? 90 then if (94 <=? c) && (c <=? 122) then st 21 else st 0
          else st 21)
        else st 21))
  | _ => None
  end.

Definition httpclient_cases_16 (cs : Z) : option (Z -> label) :=
  match cs with
  | 80 => Some (fun c =>
      switch c [(10, st 62); (32, st 63); (67, tr 104); (99, tr 104)] (if (9 <=? c) && (c <=? 13) then st 63 else st 0))
  | 81 => Some (fun c => switch c [(10, tr 45); (13, tr 46); (72, st 82); (104, st 82)] (st 23))
  | 82 => Some (fun c => switch c [(10, tr 45); (13, tr 46); (85, st 83); (117, st 83)] (st 23))
  | 83 => Some (fun c => switch c [(10, tr 45); (13, tr 46); (78, st 84); (110, st 84)] (st 23))
  | 84 => Some (fun c => switch c [(10, tr 45); (13, tr 46); (75, st 85); (107, st 85)] (st 23))
  | 85 => Some (fun c => switch c [(10, tr 45); (13, tr 46); (69, st 86); (101, st 86)] (st 23))
  | 86 => Some (fun c => switch c [(10, tr 45); (13, tr 46); (68, st 87); (100, st 87)] (st 23))
  | 87 => Some (fun c => switch c [(10, tr 111); (13, tr 112)] (st 23))
  | 88 => Some (fun c => if c =? 10 then st 43 else st 0)
  | 122 => Some (fun c =>
      switch c [(32, st 37); (67, st 38); (99, st 38)] (if (9 <=? c) && (c <=? 13) then st 37 else st 0))
  | _ => None
  end.

Definition httpclient_cases_17 (cs : Z) : option (Z -> label) :=
  match cs with
  | 89 => Some (fun c =>
      switch c [(10, tr 64); (32, st 37); (67, st 38); (99, st 38)] (if (9 <=? c) && (c <=? 13) then st 37 else st 0))
  | 90 => Some (fun c =>
      switch c [(33, st 21); (58, tr 39); (76, st 91); (79, st 26); (108, st 91);
        (111, st 26); (124, st 21); (126, st 21)]
       (if c <? 45 then (
          if c >? 39 then if (42 <=? c) && (c <=? 43) then st 21 else st 0
          else if c >=? 35 then st 21 else st 0)
        else if c >? 46 then (
          if c <? 65 then if (48 <=? c) && (c <=? 57) then st 21 else st 0
          else if c >? 90 then if (94 <=? c) && (c <=? 122) then st 21 else st 0
          else st 21)
        else st 21))
  | 91 => Some (fun c =>
      switch c [(33, st 21); (58, tr 39); (79, st 92); (111, st 92); (124, st 21);
        (126, st 21)]
       (if c <? 45 then (
          if c >? 39 then if (42 <=? c) && (c <=? 43) then st 21 else st 0
          else if c >=? 35 then st 21 else st 0)
        else if c >? 46 then (
          if c <? 65 then if (48 <=? c) && (c <=? 57) then st 21 else st 0
          else if c >? 90 then if (94 <=? c) && (c <=? 122) then st 21 else st 0
          else st 21)
        else st 21))
  | 92 => Some (fun c =>
      switch c [(33, st 21); (58, tr 39); (83, st 93); (115, st 93); (124, st 21);
        (126, st 21)]
       (if c <? 45 then (
          if c >? 39 then if (42 <=? c) && (c <=? 43) then st 21 else st 0
          else if c >=? 35 then st 21 else st 0)
        else if c >? 46 then (
          if c <? 65 then if (48 <=? c) && (c <=? 57) then st 21 else st 0
          else if c >? 90 then if (94 <=? c) && (c <=? 122) then st 21 else st 0
          else st 21)
        else st 21))
  | 93 => Some (fun c =>
      switch c [(33, st 21); (58, tr 39); (69, st 94); (101, st 94); (124, st 21);
        (126, st 21)]
       (if c <? 45 then (
          if c >? 39 then if (42 <=? c) && (c <=? 43) then st 21 else st 0
          else if c >=? 35 then st 21 else st 0)
        else if c >? 46 then (
          if c <? 65 then if (48 <=? c) && (c <=? 57) then st 21 else st 0
          else if c >? 90 then if (94 <=? c) && (c <=? 122) then st 21 else st 0
          else st 21)
        else st 21))
  | _ => None
  end.

Definition httpclient_cases_18 (cs : Z) : option (Z -> label) :=
  match cs with
  | 94 => Some (fun c =>
      switch c [(10, st 43); (13, st 88); (33, st 21); (58, tr 39); (124, st 21);
        (126, st 21)]
       (if c <? 45 then (
          if c >? 39 then if (42 <=? c) && (c <=? 43) then st 21 else st 0
          else if c >=? 35 then st 21 else st 0)
        else if c >? 46 then (
          if c <? 65 then if (48 <=? c) && (c <=? 57) then st 21 else st 0
          else if c >? 90 then if (94 <=? c) && (c <=? 122) then st 21 else st 0
          else st 21)
        else st 21))
  | 95 => Some (fun c =>
      switch c [(10, st 36); (32, st 37); (67, st 38); (99, st 38)] (if (9 <=? c) && (c <=? 13) then st 37 else st 0))
  | 96 => Some (fun c => switch c [(10, tr 45); (13, tr 46); (76, st 97); (108, st 97)] (st 23))
  | 97 => Some (fun c => switch c [(10, tr 45); (13, tr 46); (79, st 98); (111, st 98)] (st 23))
  | 98 => Some (fun c => switch c [(10, tr 45); (13, tr 46); (83, st 99); (115, st 99)] (st 23))
  | 99 => Some (fun c => switch c [(10, tr 45); (13, tr 46); (69, st 100); (101, st 100)] (st 23))
  | 100 => Some (fun c => switch c [(10, tr 136); (13, tr 137)] (st 23))
  | 101 => Some (fun c =>
      switch c [(33, st 21); (58, tr 39); (69, st 102); (101, st 102); (124, st 21);
        (126, st 21)]
       (if c <? 45 then (
          if c >? 39 then if (42 <=? c) && (c <=? 43) then st 21 else st 0
          else if c >=? 35 then st 21 else st 0)
        else if c >? 46 then (
          if c <? 65 then if (48 <=? c) && (c <=? 57) then st 21 else st 0
          else if c >? 90 then if (94 <=? c) && (c <=? 122) then st 21 else st 0
          else st 21)
        else st 21))
  | _ => None
  end.

Definition httpclient_cases_19 (cs : Z) : option (Z -> label) :=
  match cs with
  | 102 => Some (fun c =>
      switch c [(33, st 21); (58, tr 39); (78, st 103); (110, st 103); (124, st 21);
        (126, st 21)]
       (if c <? 45 then (
          if c >? 39 then if (42 <=? c) && (c <=? 43) then st 21 else st 0
          else if c >=? 35 then st 21 else st 0)
        else if c >? 46 then (
          if c <? 65 then if (48 <=? c) && (c <=? 57) then st 21 else st 0
          else if c >? 90 then if (94 <=? c) && (c <=? 122) then st 21 else st 0
          else st 21)
        else st 21))
  | 103 => Some (fun c =>
      switch c [(33, st 21); (58, tr 39); (84, st 104); (116, st 104); (124, st 21);
        (126, st 21)]
       (if c <? 45 then (
          if c >? 39 then if (42 <=? c) && (c <=? 43) then st 21 else st 0
          else if c >=? 35 then st 21 else st 0)
        else if c >? 46 then (
          if c <? 65 then if (48 <=? c) && (c <=? 57) then st 21 else st 0
          else if c >? 90 then if (94 <=? c) && (c <=? 122) then st 21 else st 0
          else st 21)
        else st 21))
  | 104 => Some (fun c =>
      switch c [(33, st 21); (45, st 105); (46, st 21); (58, tr 39); (124, st 21);
        (126, st 21)]
       (if c <? 48 then (
          if c >? 39 then if (42 <=? c) && (c <=? 43) then st 21 else st 0
          else if c >=? 35 then st 21 else st 0)
        else if c >? 57 then (
          if c >? 90 then if (94 <=? c) && (c <=? 122) then st 21 else st 0
          else if c >=? 65 then st 21 else st 0)
        else st 21))
  | 105 => Some (fun c =>
      switch c [(33, st 21); (58, tr 39); (76, st 106); (108, st 106); (124, st 21);
        (126, st 21)]
       (if c <? 45 then (
          if c >? 39 then if (42 <=? c) && (c <=? 43) then st 21 else st 0
          else if c >=? 35 then st 21 else st 0)
        else if c >? 46 then (
          if c <? 65 then if (48 <=? c) && (c <=? 57) then st 21 else st 0
          else if c >? 90 then if (94 <=? c) && (c <=? 122) then st 21 else st 0
          else st 21)
        else st 21))
  | 106 => Some (fun c =>
      switch c [(33, st 21); (58, tr 39); (69, st 107); (101, st 107); (124, st 21);
        (126, st 21)]
       (if c <? 45 then (
          if c >? 39 then if (42 <=? c) && (c <=? 43) then st 21 else st 0
          else if c >=? 35 then st 21 else st 0)
        else if c >? 46 then (
          if c <? 65 then if (48 <=? c) && (c <=? 57) then st 21 else st 0
          else if c >? 90 then if (94 <=? c) && (c <=? 122) then st 21 else st 0
          else st 21)
        else st 21))
  | _ => None
  end.

Definition httpclient_cases_20 (cs : Z) : option (Z -> label) :=
  match cs with
  | 107 => Some (fun c =>
      switch c [(33, st 21); (58, tr 39); (78, st 108); (110, st 108); (124, st 21);
        (126, st 21)]
       (if c <? 45 then (
          if c >? 39 then if (42 <=? c) && (c <=? 43) then st 21 else st 0
          else if c >=? 35 then st 21 else st 0)
        else if c >? 46 then (
          if c <? 65 then if (48 <=? c) && (c <=? 57) then st 21 else st 0
          else if c >? 90 then if (94 <=? c) && (c <=? 122) then st 21 else st 0
          else st 21)
        else st 21))
  | 108 => Some (fun c =>
      switch c [(33, st 21); (58, tr 39); (71, st 109); (103, st 109); (124, st 21);
        (126, st 21)]
       (if c <? 45 then (
          if c >? 39 then if (42 <=? c) && (c <=? 43) then st 21 else st 0
          else if c >=? 35 then st 21 else st 0)
        else if c >? 46 then (
          if c <? 65 then if (48 <=? c) && (c <=? 57) then st 21 else st 0
          else if c >? 90 then if (94 <=? c) && (c <=? 122) then st 21 else st 0
          else st 21)
        else st 21))
  | 109 => Some (fun c =>
      switch c [(33, st 21); (58, tr 39); (84, st 110); (116, st 110); (124, st 21);
        (126, st 21)]
       (if c <? 45 then (
          if c >? 39 then if (42 <=? c) && (c <=? 43) then st 21 else st 0
          else if c >=? 35 then st 21 else st 0)
        else if c >? 46 then (
          if c <? 65 then if (48 <=? c) && (c <=? 57) then st 21 else st 0
          else if c >? 90 then if (94 <=? c) && (c <=? 122) then st 21 else st 0
          else st 21)
        else st 21))
  | 110 => Some (fun c =>
      switch c [(33, st 21); (58, tr 39); (72, st 111); (104, st 111); (124, st 21);
        (126, st 21)]
       (if c <? 45 then (
          if c >? 39 then if (42 <=? c) && (c <=? 43) then st 21 else st 0
          else if c >=? 35 then st 21 else st 0)
        else if c >? 46 then (
          if c <? 65 then if (48 <=? c) && (c <=? 57) then st 21 else st 0
          else if c >? 90 then if (94 <=? c) && (c <=? 122) then st 21 else st 0
          else st 21)
        else st 21))
  | 111 => Some (fun c =>
      switch c [(33, st 21); (58, tr 148); (124, st 21); (126, st 21)]
       (if c <? 45 then (
          if c >? 39 then if (42 <=? c) && (c <=? 43) then st 21 else st 0
          else if c >=? 35 then st 21 else st 0)
        else if c >? 46 then (
          if c <? 65 then if (48 <=? c) && (c <=? 57) then st 21 else st 0
          else if c >? 90 then if (94 <=? c) && (c <=? 122) then st 21 else st 0
          else st 21)
        else st 21))
  | _ => None
  end.

Definition httpclient_cases_21 (cs : Z) : option (Z -> label) :=
  match cs with
  | 112 => Some (fun c =>
      switch c [(10, tr 150); (13, tr 151); (32, tr 149)]
       (if c >? 12 then if (48 <=? c) && (c <=? 57) then tr 152 else tr 40
        else if c >=? 9 then tr 149 else tr 40))
  | 113 => Some (fun c =>
      switch c [(10, tr 154); (13, st 116); (32, st 114); (33, tr 35); (67, tr 36);
        (84, tr 37); (99, tr 36); (116, tr 37); (124, tr 35); (126, tr 35)]
       (if c <? 45 then (
          if c <? 35 then if (9 <=? c) && (c <=? 12) then st 114 else st 0
          else if c >? 39 then if (42 <=? c) && (c <=? 43) then tr 35 else st 0
          else tr 35)
        else if c >? 46 then (
          if c <? 65 then if (48 <=? c) && (c <=? 57) then tr 156 else st 0
          else if c >? 90 then if (94 <=? c) && (c <=? 122) then tr 35 else st 0
          else tr 35)
        else tr 35))
  | 114 => Some (fun c =>
      if c =? 32 then st 114
      else if c >? 13 then if (48 <=? c) && (c <=? 57) then tr 157 else st 0
      else if c >=? 9 then st 114 else st 0)
  | 115 => Some (fun c =>
      switch c [(10, tr 158); (13, tr 159)] (if (48 <=? c) && (c <=? 57) then st 115 else st 0))
  | 123 => Some (fun c =>
      if c =? 32 then st 114
      else if c >? 13 then if (48 <=? c) && (c <=? 57) then tr 157 else st 0
      else if c >=? 9 then st 114 else st 0)
  | 116 => Some (fun c =>
      switch c [(10, tr 154); (32, st 114)]
       (if c >? 13 then if (48 <=? c) && (c <=? 57) then tr 157 else st 0
        else if c >=? 9 then st 114 else st 0))
  | _ => None
  end.

Definition httpclient_cases_22 (cs : Z) : option (Z -> label) :=
  match cs with
  | 117 => Some (fun c =>
      switch c [(10, tr 158); (13, tr 159); (33, st 21); (58, tr 39); (124, st 21);
        (126, st 21)]
       (if c <? 45 then (
          if c >? 39 then if (42 <=? c) && (c <=? 43) then st 21 else st 0
          else if c >=? 35 then st 21 else st 0)
        else if c >? 46 then (
          if c <? 65 then if (48 <=? c) && (c <=? 57) then st 117 else st 0
          else if c >? 90 then if (94 <=? c) && (c <=? 122) then st 21 else st 0
          else st 21)
        else st 21))
  | 118 => Some (fun c =>
      switch c [(10, st 113); (32, st 114)]
       (if c >? 13 then if (48 <=? c) && (c <=? 57) then tr 157 else st 0
        else if c >=? 9 then st 114 else st 0))
  | 119 => Some (fun c =>
      switch c [(10, tr 158); (13, tr 159)] (if (48 <=? c) && (c <=? 57) then st 119 else st 23))
  | _ => None
  end.

(** *** The transitions with actions: labels [trN] *)

Definition httpclient_tr (n : Z) : list action * Z :=
  match n with
  | 0 => ([mark], 2)
  | 2 => ([mark], 8)
  | 3 => ([chunk_size; done], 120)
  | 4 => ([chunk_size], 3)
  | 6 => ([chunk_size], 4)
  | 7 => ([done], 120)
  | 8 => ([start_field], 5)
  | 9 => ([write_field; start_value; write_value; done], 120)
  | 10 => ([write_field; start_value; write_value], 3)
  | 12 => ([write_field; start_value; write_value], 4)
  | 13 => ([write_field; start_value], 6)
  | 14 => ([start_value], 7)
  | 15 => ([write_value; done], 120)
  | 16 => ([write_value], 3)
  | 18 => ([write_value], 4)
  | 26 => ([http_version], 16)
  | 27 => ([mark], 17)
  | 28 => ([status_code], 18)
  | 30 => ([mark], 19)
  | 32 => ([reason_phrase], 20)
  | 33 => ([reason_phrase], 24)
  | 35 => ([start_field], 21)
  | 36 => ([start_field], 25)
  | 37 => ([start_field], 44)
  | 39 => ([write_field], 22)
  | 40 => ([start_value], 23)
  | 41 => ([start_value], 22)
  | 42 => ([start_value; write_value], 20)
  | 43 => ([start_value; write_value], 24)
  | 45 => ([write_value], 20)
  | 46 => ([write_value], 24)
  | 58 => ([write_field], 35)
  | 59 => ([start_value], 35)
  | 60 => ([start_value; write_value], 36)
  | 61 => ([start_value; write_value], 95)
  | 62 => ([start_value], 96)
  | 64 => ([done], 122)
  | 66 => ([start_field], 90)
  | 74 => ([write_connection_close; done], 120)
  | 75 => ([write_connection_close], 3)
  | 76 => ([write_connection_close; start_field], 21)
  | 77 => ([write_connection_close; start_field], 25)
  | 78 => ([write_connection_close; start_field], 44)
  | 95 => ([write_field], 61)
  | 96 => ([start_value], 61)
  | 97 => ([start_value; write_value], 62)
  | 98 => ([start_value; write_value], 80)
  | 99 => ([start_value], 81)
  | 101 => ([done], 121)
  | 103 => ([start_value; start_field], 73)
  | 104 => ([start_value], 64)
  | 111 => ([write_value; trans_chunked], 20)
  | 112 => ([write_value], 71)
  | 113 => ([trans_chunked], 20)
  | 136 => ([write_value], 43)
  | 137 => ([write_value], 88)
  | 148 => ([write_field], 112)
  | 149 => ([start_value], 112)
  | 150 => ([start_value; write_value], 113)
  | 151 => ([start_value; write_value], 118)
  | 152 => ([start_value], 119)
  | 154 => ([done], 123)
  | 156 => ([start_value; start_field], 117)
  | 157 => ([start_value], 115)
  | 158 => ([write_content_len; write_value], 20)
  | 159 => ([write_content_len; write_value], 24)
  | _ => ([], 0)
  end.

(** The case of a state, in the order of the source. *)
Definition httpclient_case (cs : Z) : option (Z -> label) :=
  first_case [httpclient_cases_1; httpclient_cases_2; httpclient_cases_3; httpclient_cases_4;
    httpclient_cases_5; httpclient_cases_6; httpclient_cases_7; httpclient_cases_8;
    httpclient_cases_9; httpclient_cases_10; httpclient_cases_11; httpclient_cases_12;
    httpclient_cases_13; httpclient_cases_14; httpclient_cases_15; httpclient_cases_16;
    httpclient_cases_17; httpclient_cases_18; httpclient_cases_19; httpclient_cases_20;
    httpclient_cases_21; httpclient_cases_22] cs.

Definition httpclient_machine : machine action :=
  Machine (httpclient_case) httpclient_tr 2
    (fun a => bool_decide (a = done)).

End HttpclientMachine.
