(* ===== verification/Urimachine.v ===== *)
(** * Urimachine: the URI parser's machine

    The states and transitions of uri.rl.cc, case by case and in its order; [c]
    is [*p]. *)
From S2P Require Import Prelude Ragel.
Import Ragel.

Module UriMachine.

(** The actions of the grammar, by name. *)
Inductive action :=
| marku
| markh
| save_scheme
| save_port
| save_userinfo
| save_host
| save_path
| save_query
| save_fragment.

#[export] Instance action_eq_dec : EqDecision action.
Proof. solve_decision. Defined.


(** *** The cases of the switch on the state *)

Definition uri_cases_1 (cs : Z) : option (Z -> label) :=
  match cs with
  | 451 => Some (fun c =>
      switch c [(34, st 0); (35, st 453); (37, st 3); (47, st 458); (58, st 0);
        (60, st 0); (62, st 0); (63, st 456); (96, st 0); (127, st 0)]
       (if c <? 91 then (
          if c >? 32 then if (65 <=? c) && (c <=? 90) then tr 461 else st 452
          else if c >=? 0 then st 0 else st 452)
        else if c >? 94 then (
          if c >? 122 then if (123 <=? c) && (c <=? 125) then st 0 else st 452
          else if c >=? 97 then tr 461 else st 452)
        else st 0))
  | 452 => Some (fun c =>
      switch c [(34, st 0); (35, st 453); (37, st 3); (47, st 455); (58, st 0);
        (60, st 0); (62, st 0); (63, st 456); (96, st 0); (127, st 0)]
       (if c <? 91 then if (0 <=? c) && (c <=? 32) then st 0 else st 452
        else if c >? 94 then if (123 <=? c) && (c <=? 125) then st 0 else st 452
        else st 0))
  | _ => None
  end.

Definition uri_cases_2 (cs : Z) : option (Z -> label) :=
  match cs with
  | 453 => Some (fun c =>
      switch c [(37, tr 463); (60, st 0); (62, st 0); (96, st 0); (127, st 0)]
       (if c <? 34 then if (0 <=? c) && (c <=? 32) then st 0 else tr 462
        else if c >? 35 then (
          if c >? 94 then if (123 <=? c) && (c <=? 125) then st 0 else tr 462
          else if c >=? 91 then st 0 else tr 462)
        else st 0))
  | _ => None
  end.

Definition uri_cases_3 (cs : Z) : option (Z -> label) :=
  match cs with
  | 454 => Some (fun c =>
      switch c [(37, st 1); (60, st 0); (62, st 0); (96, st 0); (127, st 0)]
       (if c <? 34 then if (0 <=? c) && (c <=? 32) then st 0 else st 454
        else if c >? 35 then (
          if c >? 94 then if (123 <=? c) && (c <=? 125) then st 0 else st 454
          else if c >=? 91 then st 0 else st 454)
        else st 0))
  | 1 => Some (fun c =>
      if c <? 65 then if (48 <=? c) && (c <=? 57) then st 2 else st 0
      else if c >? 70 then if (97 <=? c) && (c <=? 102) then st 2 else st 0
      else st 2)
  | 2 => Some (fun c =>
      if c <? 65 then if (48 <=? c) && (c <=? 57) then st 454 else st 0
      else if c >? 70 then if (97 <=? c) && (c <=? 102) then st 454 else st 0
      else st 454)
  | 3 => Some (fun c =>
      if c <? 65 then if (48 <=? c) && (c <=? 57) then st 4 else st 0
      else if c >? 70 then if (97 <=? c) && (c <=? 102) then st 4 else st 0
      else st 4)
  | 4 => Some (fun c =>
      if c <? 65 then if (48 <=? c) && (c <=? 57) then st 452 else st 0
      else if c >? 70 then if (97 <=? c) && (c <=? 102) then st 452 else st 0
      else st 452)
  | 455 => Some (fun c =>
      switch c [(34, st 0); (35, st 453); (37, st 5); (60, st 0); (62, st 0);
        (63, st 456); (96, st 0); (127, st 0)]
       (if c <? 91 then if (0 <=? c) && (c <=? 32) then st 0 else st 455
        else if c >? 94 then if (123 <=? c) && (c <=? 125) then st 0 else st 455
        else st 0))
  | _ => None
  end.

Definition uri_cases_4 (cs : Z) : option (Z -> label) :=
  match cs with
  | 5 => Some (fun c =>
      if c <? 65 then if (48 <=? c) && (c <=? 57) then st 6 else st 0
      else if c >? 70 then if (97 <=? c) && (c <=? 102) then st 6 else st 0
      else st 6)
  | 6 => Some (fun c =>
      if c <? 65 then if (48 <=? c) && (c <=? 57) then st 455 else st 0
      else if c >? 70 then if (97 <=? c) && (c <=? 102) then st 455 else st 0
      else st 455)
  | _ => None
  end.

Definition uri_cases_5 (cs : Z) : option (Z -> label) :=
  match cs with
  | 456 => Some (fun c =>
      switch c [(34, st 0); (35, tr 467); (37, tr 468); (60, st 0); (62, st 0);
        (96, st 0); (127, st 0)]
       (if c <? 91 then if (0 <=? c) && (c <=? 32) then st 0 else tr 466
        else if c >? 94 then if (123 <=? c) && (c <=? 125) then st 0 else tr 466
        else st 0))
  | _ => None
  end.

Definition uri_cases_6 (cs : Z) : option (Z -> label) :=
  match cs with
  | 457 => Some (fun c =>
      switch c [(34, st 0); (35, tr 469); (37, st 7); (60, st 0); (62, st 0); (96, st 0);
        (127, st 0)]
       (if c <? 91 then if (0 <=? c) && (c <=? 32) then st 0 else st 457
        else if c >? 94 then if (123 <=? c) && (c <=? 125) then st 0 else st 457
        else st 0))
  | 7 => Some (fun c =>
      if c <? 65 then if (48 <=? c) && (c <=? 57) then st 8 else st 0
      else if c >? 70 then if (97 <=? c) && (c <=? 102) then st 8 else st 0
      else st 8)
  | 8 => Some (fun c =>
      if c <? 65 then if (48 <=? c) && (c <=? 57) then st 457 else st 0
      else if c >? 70 then if (97 <=? c) && (c <=? 102) then st 457 else st 0
      else st 457)
  | 458 => Some (fun c =>
      switch c [(34, st 0); (35, st 453); (37, st 5); (47, st 459); (60, st 0);
        (62, st 0); (63, st 456); (96, st 0); (127, st 0)]
       (if c <? 91 then if (0 <=? c) && (c <=? 32) then st 0 else st 455
        else if c >? 94 then if (123 <=? c) && (c <=? 125) then st 0 else st 455
        else st 0))
  | 459 => Some (fun c =>
      switch c [(2, tr 472); (33, tr 473); (35, tr 474); (37, tr 475); (47, tr 476);
        (48, tr 477); (49, tr 478); (50, tr 479); (58, tr 481); (59, tr 473); (61, tr 473);
        (63, tr 482); (64, tr 483); (91, tr 484); (95, tr 473); (126, tr 473)]
       (if c <? 51 then if (36 <=? c) && (c <=? 46) then tr 473 else st 0
        else if c >? 57 then (
          if c >? 90 then if (97 <=? c) && (c <=? 122) then tr 473 else st 0
          else if c >=? 65 then tr 473 else st 0)
        else tr 480))
  | 9 => Some (fun c => if (48 <=? c) && (c <=? 52) then st 10 else st 0)
  | 10 => Some (fun c => if (48 <=? c) && (c <=? 57) then st 11 else st 0)
  | 11 => Some (fun c => if c =? 46 then st 12 else st 0)
  | _ => None
  end.

Definition uri_cases_7 (cs : Z) : option (Z -> label) :=
  match cs with
  | 12 => Some (fun c =>
      switch c [(2, st 13); (48, st 15); (49, st 27); (50, st 29)] (if (51 <=? c) && (c <=? 57) then st 28 else st 0))
  | 13 => Some (fun c => if (48 <=? c) && (c <=? 52) then st 14 else st 0)
  | 14 => Some (fun c => if (48 <=? c) && (c <=? 57) then st 15 else st 0)
  | 15 => Some (fun c => if c =? 46 then st 16 else st 0)
  | 16 => Some (fun c =>
      switch c [(2, st 17); (48, st 19); (49, st 23); (50, st 25)] (if (51 <=? c) && (c <=? 57) then st 24 else st 0))
  | 17 => Some (fun c => if (48 <=? c) && (c <=? 52) then st 18 else st 0)
  | 18 => Some (fun c => if (48 <=? c) && (c <=? 57) then st 19 else st 0)
  | 19 => Some (fun c => if c =? 46 then st 20 else st 0)
  | 20 => Some (fun c =>
      switch c [(2, st 21); (48, st 460); (49, st 463); (50, st 465)] (if (51 <=? c) && (c <=? 57) then st 464 else st 0))
  | 21 => Some (fun c => if (48 <=? c) && (c <=? 52) then st 22 else st 0)
  | 22 => Some (fun c => if (48 <=? c) && (c <=? 57) then st 460 else st 0)
  | 460 => Some (fun c => switch c [(35, tr 485); (47, tr 486); (58, tr 487); (63, tr 488)] (st 0))
  | 461 => Some (fun c =>
      switch c [(35, tr 489); (47, tr 490); (63, tr 492)] (if (48 <=? c) && (c <=? 57) then tr 491 else st 0))
  | _ => None
  end.

Definition uri_cases_8 (cs : Z) : option (Z -> label) :=
  match cs with
  | 462 => Some (fun c =>
      switch c [(35, tr 493); (47, tr 494); (63, tr 496)] (if (48 <=? c) && (c <=? 57) then st 462 else st 0))
  | 463 => Some (fun c =>
      switch c [(35, tr 485); (47, tr 486); (58, tr 487); (63, tr 488)] (if (48 <=? c) && (c <=? 57) then st 464 else st 0))
  | 464 => Some (fun c =>
      switch c [(35, tr 485); (47, tr 486); (58, tr 487); (63, tr 488)] (if (48 <=? c) && (c <=? 57) then st 460 else st 0))
  | 465 => Some (fun c =>
      switch c [(35, tr 485); (47, tr 486); (53, st 466); (58, tr 487); (63, tr 488)] (if (48 <=? c) && (c <=? 57) then st 460 else st 0))
  | 466 => Some (fun c =>
      switch c [(35, tr 485); (47, tr 486); (58, tr 487); (63, tr 488)] (if (48 <=? c) && (c <=? 53) then st 460 else st 0))
  | 23 => Some (fun c =>
      if c =? 46 then st 20
      else if (48 <=? c) && (c <=? 57) then st 24 else st 0)
  | 24 => Some (fun c =>
      if c =? 46 then st 20
      else if (48 <=? c) && (c <=? 57) then st 19 else st 0)
  | 25 => Some (fun c =>
      switch c [(46, st 20); (53, st 26)] (if (48 <=? c) && (c <=? 57) then st 19 else st 0))
  | 26 => Some (fun c =>
      if c =? 46 then st 20
      else if (48 <=? c) && (c <=? 53) then st 19 else st 0)
  | 27 => Some (fun c =>
      if c =? 46 then st 16
      else if (48 <=? c) && (c <=? 57) then st 28 else st 0)
  | 28 => Some (fun c =>
      if c =? 46 then st 16
      else if (48 <=? c) && (c <=? 57) then st 15 else st 0)
  | 29 => Some (fun c =>
      switch c [(46, st 16); (53, st 30)] (if (48 <=? c) && (c <=? 57) then st 15 else st 0))
  | 30 => Some (fun c =>
      if c =? 46 then st 16
      else if (48 <=? c) && (c <=? 53) then st 15 else st 0)
  | _ => None
  end.

Definition uri_cases_9 (cs : Z) : option (Z -> label) :=
  match cs with
  | 467 => Some (fun c =>
      switch c [(33, st 467); (35, tr 485); (37, st 31); (47, tr 486); (58, tr 499);
        (61, st 467); (63, tr 488); (64, tr 38); (95, st 467); (126, st 467)]
       (if c <? 65 then if (36 <=? c) && (c <=? 59) then st 467 else st 0
        else if c >? 90 then if (97 <=? c) && (c <=? 122) then st 467 else st 0
        else st 467))
  | 31 => Some (fun c =>
      if c <? 65 then if (48 <=? c) && (c <=? 57) then st 32 else st 0
      else if c >? 70 then if (97 <=? c) && (c <=? 102) then st 32 else st 0
      else st 32)
  | 32 => Some (fun c =>
      if c <? 65 then if (48 <=? c) && (c <=? 57) then st 467 else st 0
      else if c >? 70 then if (97 <=? c) && (c <=? 102) then st 467 else st 0
      else st 467)
  | 468 => Some (fun c =>
      switch c [(33, st 33); (35, tr 489); (37, st 34); (47, tr 490); (61, st 33);
        (63, tr 492); (64, tr 38); (95, st 33); (126, st 33)]
       (if c <? 58 then (
          if c >? 46 then if (48 <=? c) && (c <=? 57) then tr 500 else st 0
          else if c >=? 36 then st 33 else st 0)
        else if c >? 59 then (
          if c >? 90 then if (97 <=? c) && (c <=? 122) then st 33 else st 0
          else if c >=? 65 then st 33 else st 0)
        else st 33))
  | 33 => Some (fun c =>
      switch c [(33, st 33); (37, st 34); (61, st 33); (64, tr 38); (95, st 33);
        (126, st 33)]
       (if c <? 48 then if (36 <=? c) && (c <=? 46) then st 33 else st 0
        else if c >? 59 then (
          if c >? 90 then if (97 <=? c) && (c <=? 122) then st 33 else st 0
          else if c >=? 65 then st 33 else st 0)
        else st 33))
  | 34 => Some (fun c =>
      if c <? 65 then if (48 <=? c) && (c <=? 57) then st 35 else st 0
      else if c >? 70 then if (97 <=? c) && (c <=? 102) then st 35 else st 0
      else st 35)
  | _ => None
  end.

Definition uri_cases_10 (cs : Z) : option (Z -> label) :=
  match cs with
  | 35 => Some (fun c =>
      if c <? 65 then if (48 <=? c) && (c <=? 57) then st 33 else st 0
      else if c >? 70 then if (97 <=? c) && (c <=? 102) then st 33 else st 0
      else st 33)
  | 469 => Some (fun c =>
      switch c [(2, tr 472); (33, tr 501); (35, tr 474); (37, tr 502); (47, tr 476);
        (48, tr 503); (49, tr 504); (50, tr 505); (58, tr 507); (59, tr 501); (61, tr 501);
        (63, tr 482); (91, tr 484); (95, tr 501); (126, tr 501)]
       (if c <? 51 then if (36 <=? c) && (c <=? 46) then tr 501 else st 0
        else if c >? 57 then (
          if c >? 90 then if (97 <=? c) && (c <=? 122) then tr 501 else st 0
          else if c >=? 65 then tr 501 else st 0)
        else tr 506))
  | 470 => Some (fun c =>
      switch c [(33, st 470); (35, tr 485); (37, st 36); (47, tr 486); (58, tr 487);
        (61, st 470); (63, tr 488); (95, st 470); (126, st 470)]
       (if c <? 65 then if (36 <=? c) && (c <=? 59) then st 470 else st 0
        else if c >? 90 then if (97 <=? c) && (c <=? 122) then st 470 else st 0
        else st 470))
  | 36 => Some (fun c =>
      if c <? 65 then if (48 <=? c) && (c <=? 57) then st 37 else st 0
      else if c >? 70 then if (97 <=? c) && (c <=? 102) then st 37 else st 0
      else st 37)
  | 37 => Some (fun c =>
      if c <? 65 then if (48 <=? c) && (c <=? 57) then st 470 else st 0
      else if c >? 70 then if (97 <=? c) && (c <=? 102) then st 470 else st 0
      else st 470)
  | _ => None
  end.

Definition uri_cases_11 (cs : Z) : option (Z -> label) :=
  match cs with
  | 471 => Some (fun c =>
      switch c [(33, st 470); (35, tr 485); (37, st 36); (46, st 472); (47, tr 486);
        (58, tr 487); (61, st 470); (63, tr 488); (95, st 470); (126, st 470)]
       (if c <? 65 then if (36 <=? c) && (c <=? 59) then st 470 else st 0
        else if c >? 90 then if (97 <=? c) && (c <=? 122) then st 470 else st 0
        else st 470))
  | 472 => Some (fun c =>
      switch c [(2, st 13); (33, st 470); (35, tr 485); (37, st 36); (47, tr 486);
        (48, st 473); (49, st 481); (50, st 483); (58, tr 487); (59, st 470); (61, st 470);
        (63, tr 488); (95, st 470); (126, st 470)]
       (if c <? 51 then if (36 <=? c) && (c <=? 46) then st 470 else st 0
        else if c >? 57 then (
          if c >? 90 then if (97 <=? c) && (c <=? 122) then st 470 else st 0
          else if c >=? 65 then st 470 else st 0)
        else st 482))
  | 473 => Some (fun c =>
      switch c [(33, st 470); (35, tr 485); (37, st 36); (46, st 474); (47, tr 486);
        (58, tr 487); (61, st 470); (63, tr 488); (95, st 470); (126, st 470)]
       (if c <? 65 then if (36 <=? c) && (c <=? 59) then st 470 else st 0
        else if c >? 90 then if (97 <=? c) && (c <=? 122) then st 470 else st 0
        else st 470))
  | 474 => Some (fun c =>
      switch c [(2, st 17); (33, st 470); (35, tr 485); (37, st 36); (47, tr 486);
        (48, st 475); (49, st 477); (50, st 479); (58, tr 487); (59, st 470); (61, st 470);
        (63, tr 488); (95, st 470); (126, st 470)]
       (if c <? 51 then if (36 <=? c) && (c <=? 46) then st 470 else st 0
        else if c >? 57 then (
          if c >? 90 then if (97 <=? c) && (c <=? 122) then st 470 else st 0
          else if c >=? 65 then st 470 else st 0)
        else st 478))
  | 475 => Some (fun c =>
      switch c [(33, st 470); (35, tr 485); (37, st 36); (46, st 476); (47, tr 486);
        (58, tr 487); (61, st 470); (63, tr 488); (95, st 470); (126, st 470)]
       (if c <? 65 then if (36 <=? c) && (c <=? 59) then st 470 else st 0
        else if c >? 90 then if (97 <=? c) && (c <=? 122) then st 470 else st 0
        else st 470))
  | _ => None
  end.

Definition uri_cases_12 (cs : Z) : option (Z -> label) :=
  match cs with
  | 476 => Some (fun c =>
      switch c [(2, st 21); (33, st 470); (35, tr 485); (37, st 36); (47, tr 486);
        (58, tr 487); (61, st 470); (63, tr 488); (95, st 470); (126, st 470)]
       (if c <? 65 then if (36 <=? c) && (c <=? 59) then st 470 else st 0
        else if c >? 90 then if (97 <=? c) && (c <=? 122) then st 470 else st 0
        else st 470))
  | 477 => Some (fun c =>
      switch c [(33, st 470); (35, tr 485); (37, st 36); (46, st 476); (47, tr 486);
        (58, tr 487); (59, st 470); (61, st 470); (63, tr 488); (95, st 470); (126, st 470)]
       (if c <? 48 then if (36 <=? c) && (c <=? 45) then st 470 else st 0
        else if c >? 57 then (
          if c >? 90 then if (97 <=? c) && (c <=? 122) then st 470 else st 0
          else if c >=? 65 then st 470 else st 0)
        else st 478))
  | 478 => Some (fun c =>
      switch c [(33, st 470); (35, tr 485); (37, st 36); (46, st 476); (47, tr 486);
        (58, tr 487); (59, st 470); (61, st 470); (63, tr 488); (95, st 470); (126, st 470)]
       (if c <? 48 then if (36 <=? c) && (c <=? 45) then st 470 else st 0
        else if c >? 57 then (
          if c >? 90 then if (97 <=? c) && (c <=? 122) then st 470 else st 0
          else if c >=? 65 then st 470 else st 0)
        else st 475))
  | 479 => Some (fun c =>
      switch c [(33, st 470); (35, tr 485); (37, st 36); (46, st 476); (47, tr 486);
        (53, st 480); (58, tr 487); (59, st 470); (61, st 470); (63, tr 488); (95, st 470);
        (126, st 470)]
       (if c <? 48 then if (36 <=? c) && (c <=? 45) then st 470 else st 0
        else if c >? 57 then (
          if c >? 90 then if (97 <=? c) && (c <=? 122) then st 470 else st 0
          else if c >=? 65 then st 470 else st 0)
        else st 475))
  | 480 => Some (fun c =>
      switch c [(33, st 470); (35, tr 485); (37, st 36); (46, st 476); (47, tr 486);
        (58, tr 487); (61, st 470); (63, tr 488); (95, st 470); (126, st 470)]
       (if c <? 54 then (
          if c >? 45 then if (48 <=? c) && (c <=? 53) then st 475 else st 0
          else if c >=? 36 then st 470 else st 0)
        else if c >? 59 then (
          if c >? 90 then if (97 <=? c) && (c <=? 122) then st 470 else st 0
          else if c >=? 65 then st 470 else st 0)
        else st 470))
  | _ => None
  end.

Definition uri_cases_13 (cs : Z) : option (Z -> label) :=
  match cs with
  | 481 => Some (fun c =>
      switch c [(33, st 470); (35, tr 485); (37, st 36); (46, st 474); (47, tr 486);
        (58, tr 487); (59, st 470); (61, st 470); (63, tr 488); (95, st 470); (126, st 470)]
       (if c <? 48 then if (36 <=? c) && (c <=? 45) then st 470 else st 0
        else if c >? 57 then (
          if c >? 90 then if (97 <=? c) && (c <=? 122) then st 470 else st 0
          else if c >=? 65 then st 470 else st 0)
        else st 482))
  | 482 => Some (fun c =>
      switch c [(33, st 470); (35, tr 485); (37, st 36); (46, st 474); (47, tr 486);
        (58, tr 487); (59, st 470); (61, st 470); (63, tr 488); (95, st 470); (126, st 470)]
       (if c <? 48 then if (36 <=? c) && (c <=? 45) then st 470 else st 0
        else if c >? 57 then (
          if c >? 90 then if (97 <=? c) && (c <=? 122) then st 470 else st 0
          else if c >=? 65 then st 470 else st 0)
        else st 473))
  | 483 => Some (fun c =>
      switch c [(33, st 470); (35, tr 485); (37, st 36); (46, st 474); (47, tr 486);
        (53, st 484); (58, tr 487); (59, st 470); (61, st 470); (63, tr 488); (95, st 470);
        (126, st 470)]
       (if c <? 48 then if (36 <=? c) && (c <=? 45) then st 470 else st 0
        else if c >? 57 then (
          if c >? 90 then if (97 <=? c) && (c <=? 122) then st 470 else st 0
          else if c >=? 65 then st 470 else st 0)
        else st 473))
  | 484 => Some (fun c =>
      switch c [(33, st 470); (35, tr 485); (37, st 36); (46, st 474); (47, tr 486);
        (58, tr 487); (61, st 470); (63, tr 488); (95, st 470); (126, st 470)]
       (if c <? 54 then (
          if c >? 45 then if (48 <=? c) && (c <=? 53) then st 473 else st 0
          else if c >=? 36 then st 470 else st 0)
        else if c >? 59 then (
          if c >? 90 then if (97 <=? c) && (c <=? 122) then st 470 else st 0
          else if c >=? 65 then st 470 else st 0)
        else st 470))
  | _ => None
  end.

Definition uri_cases_14 (cs : Z) : option (Z -> label) :=
  match cs with
  | 485 => Some (fun c =>
      switch c [(33, st 470); (35, tr 485); (37, st 36); (46, st 472); (47, tr 486);
        (58, tr 487); (59, st 470); (61, st 470); (63, tr 488); (95, st 470); (126, st 470)]
       (if c <? 48 then if (36 <=? c) && (c <=? 45) then st 470 else st 0
        else if c >? 57 then (
          if c >? 90 then if (97 <=? c) && (c <=? 122) then st 470 else st 0
          else if c >=? 65 then st 470 else st 0)
        else st 486))
  | 486 => Some (fun c =>
      switch c [(33, st 470); (35, tr 485); (37, st 36); (46, st 472); (47, tr 486);
        (58, tr 487); (59, st 470); (61, st 470); (63, tr 488); (95, st 470); (126, st 470)]
       (if c <? 48 then if (36 <=? c) && (c <=? 45) then st 470 else st 0
        else if c >? 57 then (
          if c >? 90 then if (97 <=? c) && (c <=? 122) then st 470 else st 0
          else if c >=? 65 then st 470 else st 0)
        else st 471))
  | 487 => Some (fun c =>
      switch c [(33, st 470); (35, tr 485); (37, st 36); (46, st 472); (47, tr 486);
        (53, st 488); (58, tr 487); (59, st 470); (61, st 470); (63, tr 488); (95, st 470);
        (126, st 470)]
       (if c <? 48 then if (36 <=? c) && (c <=? 45) then st 470 else st 0
        else if c >? 57 then (
          if c >? 90 then if (97 <=? c) && (c <=? 122) then st 470 else st 0
          else if c >=? 65 then st 470 else st 0)
        else st 471))
  | 488 => Some (fun c =>
      switch c [(33, st 470); (35, tr 485); (37, st 36); (46, st 472); (47, tr 486);
        (58, tr 487); (61, st 470); (63, tr 488); (95, st 470); (126, st 470)]
       (if c <? 54 then (
          if c >? 45 then if (48 <=? c) && (c <=? 53) then st 471 else st 0
          else if c >=? 36 then st 470 else st 0)
        else if c >? 59 then (
          if c >? 90 then if (97 <=? c) && (c <=? 122) then st 470 else st 0
          else if c >=? 65 then st 470 else st 0)
        else st 470))
  | _ => None
  end.

Definition uri_cases_15 (cs : Z) : option (Z -> label) :=
  match cs with
  | 38 => Some (fun c =>
      switch c [(58, st 146); (118, st 225)]
       (if c <? 65 then if (48 <=? c) && (c <=? 57) then st 39 else st 0
        else if c >? 70 then if (97 <=? c) && (c <=? 102) then st 39 else st 0
        else st 39))
  | 39 => Some (fun c =>
      if c =? 58 then st 43
      else if c <? 65 then if (48 <=? c) && (c <=? 57) then st 40 else st 0
      else if c >? 70 then if (97 <=? c) && (c <=? 102) then st 40 else st 0
      else st 40)
  | 40 => Some (fun c =>
      if c =? 58 then st 43
      else if c <? 65 then if (48 <=? c) && (c <=? 57) then st 41 else st 0
      else if c >? 70 then if (97 <=? c) && (c <=? 102) then st 41 else st 0
      else st 41)
  | 41 => Some (fun c =>
      if c =? 58 then st 43
      else if c <? 65 then if (48 <=? c) && (c <=? 57) then st 42 else st 0
      else if c >? 70 then if (97 <=? c) && (c <=? 102) then st 42 else st 0
      else st 42)
  | 42 => Some (fun c => if c =? 58 then st 43 else st 0)
  | 43 => Some (fun c =>
      if c =? 58 then st 141
      else if c <? 65 then if (48 <=? c) && (c <=? 57) then st 44 else st 0
      else if c >? 70 then if (97 <=? c) && (c <=? 102) then st 44 else st 0
      else st 44)
  | 44 => Some (fun c =>
      if c =? 58 then st 48
      else if c <? 65 then if (48 <=? c) && (c <=? 57) then st 45 else st 0
      else if c >? 70 then if (97 <=? c) && (c <=? 102) then st 45 else st 0
      else st 45)
  | 45 => Some (fun c =>
      if c =? 58 then st 48
      else if c <? 65 then if (48 <=? c) && (c <=? 57) then st 46 else st 0
      else if c >? 70 then if (97 <=? c) && (c <=? 102) then st 46 else st 0
      else st 46)
  | 46 => Some (fun c =>
      if c =? 58 then st 48
      else if c <? 65 then if (48 <=? c) && (c <=? 57) then st 47 else st 0
      else if c >? 70 then if (97 <=? c) && (c <=? 102) then st 47 else st 0
      else st 47)
  | 47 => Some (fun c => if c =? 58 then st 48 else st 0)
  | _ => None
  end.

Definition uri_cases_16 (cs : Z) : option (Z -> label) :=
  match cs with
  | 48 => Some (fun c =>
      if c =? 58 then st 136
      else if c <? 65 then if (48 <=? c) && (c <=? 57) then st 49 else st 0
      else if c >? 70 then if (97 <=? c) && (c <=? 102) then st 49 else st 0
      else st 49)
  | 49 => Some (fun c =>
      if c =? 58 then st 53
      else if c <? 65 then if (48 <=? c) && (c <=? 57) then st 50 else st 0
      else if c >? 70 then if (97 <=? c) && (c <=? 102) then st 50 else st 0
      else st 50)
  | 50 => Some (fun c =>
      if c =? 58 then st 53
      else if c <? 65 then if (48 <=? c) && (c <=? 57) then st 51 else st 0
      else if c >? 70 then if (97 <=? c) && (c <=? 102) then st 51 else st 0
      else st 51)
  | 51 => Some (fun c =>
      if c =? 58 then st 53
      else if c <? 65 then if (48 <=? c) && (c <=? 57) then st 52 else st 0
      else if c >? 70 then if (97 <=? c) && (c <=? 102) then st 52 else st 0
      else st 52)
  | 52 => Some (fun c => if c =? 58 then st 53 else st 0)
  | 53 => Some (fun c =>
      if c =? 58 then st 131
      else if c <? 65 then if (48 <=? c) && (c <=? 57) then st 54 else st 0
      else if c >? 70 then if (97 <=? c) && (c <=? 102) then st 54 else st 0
      else st 54)
  | 54 => Some (fun c =>
      if c =? 58 then st 58
      else if c <? 65 then if (48 <=? c) && (c <=? 57) then st 55 else st 0
      else if c >? 70 then if (97 <=? c) && (c <=? 102) then st 55 else st 0
      else st 55)
  | 55 => Some (fun c =>
      if c =? 58 then st 58
      else if c <? 65 then if (48 <=? c) && (c <=? 57) then st 56 else st 0
      else if c >? 70 then if (97 <=? c) && (c <=? 102) then st 56 else st 0
      else st 56)
  | 56 => Some (fun c =>
      if c =? 58 then st 58
      else if c <? 65 then if (48 <=? c) && (c <=? 57) then st 57 else st 0
      else if c >? 70 then if (97 <=? c) && (c <=? 102) then st 57 else st 0
      else st 57)
  | 57 => Some (fun c => if c =? 58 then st 58 else st 0)
  | 58 => Some (fun c =>
      if c =? 58 then st 126
      else if c <? 65 then if (48 <=? c) && (c <=? 57) then st 59 else st 0
      else if c >? 70 then if (97 <=? c) && (c <=? 102) then st 59 else st 0
      else st 59)
  | _ => None
  end.

Definition uri_cases_17 (cs : Z) : option (Z -> label) :=
  match cs with
  | 59 => Some (fun c =>
      if c =? 58 then st 63
      else if c <? 65 then if (48 <=? c) && (c <=? 57) then st 60 else st 0
      else if c >? 70 then if (97 <=? c) && (c <=? 102) then st 60 else st 0
      else st 60)
  | 60 => Some (fun c =>
      if c =? 58 then st 63
      else if c <? 65 then if (48 <=? c) && (c <=? 57) then st 61 else st 0
      else if c >? 70 then if (97 <=? c) && (c <=? 102) then st 61 else st 0
      else st 61)
  | 61 => Some (fun c =>
      if c =? 58 then st 63
      else if c <? 65 then if (48 <=? c) && (c <=? 57) then st 62 else st 0
      else if c >? 70 then if (97 <=? c) && (c <=? 102) then st 62 else st 0
      else st 62)
  | 62 => Some (fun c => if c =? 58 then st 63 else st 0)
  | 63 => Some (fun c =>
      if c =? 58 then st 113
      else if c <? 65 then if (48 <=? c) && (c <=? 57) then st 64 else st 0
      else if c >? 70 then if (97 <=? c) && (c <=? 102) then st 64 else st 0
      else st 64)
  | 64 => Some (fun c =>
      if c =? 58 then st 68
      else if c <? 65 then if (48 <=? c) && (c <=? 57) then st 65 else st 0
      else if c >? 70 then if (97 <=? c) && (c <=? 102) then st 65 else st 0
      else st 65)
  | 65 => Some (fun c =>
      if c =? 58 then st 68
      else if c <? 65 then if (48 <=? c) && (c <=? 57) then st 66 else st 0
      else if c >? 70 then if (97 <=? c) && (c <=? 102) then st 66 else st 0
      else st 66)
  | 66 => Some (fun c =>
      if c =? 58 then st 68
      else if c <? 65 then if (48 <=? c) && (c <=? 57) then st 67 else st 0
      else if c >? 70 then if (97 <=? c) && (c <=? 102) then st 67 else st 0
      else st 67)
  | 67 => Some (fun c => if c =? 58 then st 68 else st 0)
  | 68 => Some (fun c =>
      switch c [(2, st 69); (48, st 96); (49, st 104); (50, st 107); (58, st 111)]
       (if c <? 65 then if (51 <=? c) && (c <=? 57) then st 110 else st 0
        else if c >? 70 then if (97 <=? c) && (c <=? 102) then st 112 else st 0
        else st 112))
  | 69 => Some (fun c => if (48 <=? c) && (c <=? 52) then st 70 else st 0)
  | _ => None
  end.

Definition uri_cases_18 (cs : Z) : option (Z -> label) :=
  match cs with
  | 70 => Some (fun c => if (48 <=? c) && (c <=? 57) then st 71 else st 0)
  | 71 => Some (fun c => if c =? 46 then st 72 else st 0)
  | 72 => Some (fun c =>
      switch c [(2, st 73); (48, st 75); (49, st 92); (50, st 94)] (if (51 <=? c) && (c <=? 57) then st 93 else st 0))
  | 73 => Some (fun c => if (48 <=? c) && (c <=? 52) then st 74 else st 0)
  | 74 => Some (fun c => if (48 <=? c) && (c <=? 57) then st 75 else st 0)
  | 75 => Some (fun c => if c =? 46 then st 76 else st 0)
  | 76 => Some (fun c =>
      switch c [(2, st 77); (48, st 79); (49, st 88); (50, st 90)] (if (51 <=? c) && (c <=? 57) then st 89 else st 0))
  | 77 => Some (fun c => if (48 <=? c) && (c <=? 52) then st 78 else st 0)
  | 78 => Some (fun c => if (48 <=? c) && (c <=? 57) then st 79 else st 0)
  | 79 => Some (fun c => if c =? 46 then st 80 else st 0)
  | 80 => Some (fun c =>
      switch c [(2, st 81); (48, st 83); (49, st 84); (50, st 86)] (if (51 <=? c) && (c <=? 57) then st 85 else st 0))
  | 81 => Some (fun c => if (48 <=? c) && (c <=? 52) then st 82 else st 0)
  | 82 => Some (fun c => if (48 <=? c) && (c <=? 57) then st 83 else st 0)
  | 83 => Some (fun c => if c =? 93 then st 460 else st 0)
  | 84 => Some (fun c =>
      if c =? 93 then st 460
      else if (48 <=? c) && (c <=? 57) then st 85 else st 0)
  | 85 => Some (fun c =>
      if c =? 93 then st 460
      else if (48 <=? c) && (c <=? 57) then st 83 else st 0)
  | 86 => Some (fun c =>
      switch c [(53, st 87); (93, st 460)] (if (48 <=? c) && (c <=? 57) then st 83 else st 0))
  | _ => None
  end.

Definition uri_cases_19 (cs : Z) : option (Z -> label) :=
  match cs with
  | 87 => Some (fun c =>
      if c =? 93 then st 460
      else if (48 <=? c) && (c <=? 53) then st 83 else st 0)
  | 88 => Some (fun c =>
      if c =? 46 then st 80
      else if (48 <=? c) && (c <=? 57) then st 89 else st 0)
  | 89 => Some (fun c =>
      if c =? 46 then st 80
      else if (48 <=? c) && (c <=? 57) then st 79 else st 0)
  | 90 => Some (fun c =>
      switch c [(46, st 80); (53, st 91)] (if (48 <=? c) && (c <=? 57) then st 79 else st 0))
  | 91 => Some (fun c =>
      if c =? 46 then st 80
      else if (48 <=? c) && (c <=? 53) then st 79 else st 0)
  | 92 => Some (fun c =>
      if c =? 46 then st 76
      else if (48 <=? c) && (c <=? 57) then st 93 else st 0)
  | 93 => Some (fun c =>
      if c =? 46 then st 76
      else if (48 <=? c) && (c <=? 57) then st 75 else st 0)
  | 94 => Some (fun c =>
      switch c [(46, st 76); (53, st 95)] (if (48 <=? c) && (c <=? 57) then st 75 else st 0))
  | 95 => Some (fun c =>
      if c =? 46 then st 76
      else if (48 <=? c) && (c <=? 53) then st 75 else st 0)
  | 96 => Some (fun c =>
      switch c [(46, st 72); (58, st 100)]
       (if c <? 65 then if (48 <=? c) && (c <=? 57) then st 97 else st 0
        else if c >? 70 then if (97 <=? c) && (c <=? 102) then st 97 else st 0
        else st 97))
  | 97 => Some (fun c =>
      if c =? 58 then st 100
      else if c <? 65 then if (48 <=? c) && (c <=? 57) then st 98 else st 0
      else if c >? 70 then if (97 <=? c) && (c <=? 102) then st 98 else st 0
      else st 98)
  | 98 => Some (fun c =>
      if c =? 58 then st 100
      else if c <? 65 then if (48 <=? c) && (c <=? 57) then st 99 else st 0
      else if c >? 70 then if (97 <=? c) && (c <=? 102) then st 99 else st 0
      else st 99)
  | 99 => Some (fun c => if c =? 58 then st 100 else st 0)
  | _ => None
  end.

Definition uri_cases_20 (cs : Z) : option (Z -> label) :=
  match cs with
  | 100 => Some (fun c =>
      if c =? 58 then st 83
      else if c <? 65 then if (48 <=? c) && (c <=? 57) then st 101 else st 0
      else if c >? 70 then if (97 <=? c) && (c <=? 102) then st 101 else st 0
      else st 101)
  | 101 => Some (fun c =>
      if c =? 93 then st 460
      else if c <? 65 then if (48 <=? c) && (c <=? 57) then st 102 else st 0
      else if c >? 70 then if (97 <=? c) && (c <=? 102) then st 102 else st 0
      else st 102)
  | 102 => Some (fun c =>
      if c =? 93 then st 460
      else if c <? 65 then if (48 <=? c) && (c <=? 57) then st 103 else st 0
      else if c >? 70 then if (97 <=? c) && (c <=? 102) then st 103 else st 0
      else st 103)
  | 103 => Some (fun c =>
      if c =? 93 then st 460
      else if c <? 65 then if (48 <=? c) && (c <=? 57) then st 83 else st 0
      else if c >? 70 then if (97 <=? c) && (c <=? 102) then st 83 else st 0
      else st 83)
  | 104 => Some (fun c =>
      switch c [(46, st 72); (58, st 100)]
       (if c <? 65 then if (48 <=? c) && (c <=? 57) then st 105 else st 0
        else if c >? 70 then if (97 <=? c) && (c <=? 102) then st 97 else st 0
        else st 97))
  | 105 => Some (fun c =>
      switch c [(46, st 72); (58, st 100)]
       (if c <? 65 then if (48 <=? c) && (c <=? 57) then st 106 else st 0
        else if c >? 70 then if (97 <=? c) && (c <=? 102) then st 98 else st 0
        else st 98))
  | 106 => Some (fun c =>
      switch c [(46, st 72); (58, st 100)]
       (if c <? 65 then if (48 <=? c) && (c <=? 57) then st 99 else st 0
        else if c >? 70 then if (97 <=? c) && (c <=? 102) then st 99 else st 0
        else st 99))
  | 107 => Some (fun c =>
      switch c [(46, st 72); (53, st 109); (58, st 100)]
       (if c <? 65 then if (48 <=? c) && (c <=? 57) then st 108 else st 0
        else if c >? 70 then if (97 <=? c) && (c <=? 102) then st 97 else st 0
        else st 97))
  | 108 => Some (fun c =>
      switch c [(46, st 72); (58, st 100)]
       (if c <? 65 then if (48 <=? c) && (c <=? 57) then st 98 else st 0
        else if c >? 70 then if (97 <=? c) && (c <=? 102) then st 98 else st 0
        else st 98))
  | _ => None
  end.

Definition uri_cases_21 (cs : Z) : option (Z -> label) :=
  match cs with
  | 109 => Some (fun c =>
      switch c [(46, st 72); (58, st 100)]
       (if c <? 54 then if (48 <=? c) && (c <=? 53) then st 106 else st 0
        else if c >? 57 then (
          if c >? 70 then if (97 <=? c) && (c <=? 102) then st 98 else st 0
          else if c >=? 65 then st 98 else st 0)
        else st 98))
  | 110 => Some (fun c =>
      switch c [(46, st 72); (58, st 100)]
       (if c <? 65 then if (48 <=? c) && (c <=? 57) then st 108 else st 0
        else if c >? 70 then if (97 <=? c) && (c <=? 102) then st 97 else st 0
        else st 97))
  | 111 => Some (fun c =>
      if c <? 65 then if (48 <=? c) && (c <=? 57) then st 101 else st 0
      else if c >? 70 then if (97 <=? c) && (c <=? 102) then st 101 else st 0
      else st 101)
  | 112 => Some (fun c =>
      if c =? 58 then st 100
      else if c <? 65 then if (48 <=? c) && (c <=? 57) then st 97 else st 0
      else if c >? 70 then if (97 <=? c) && (c <=? 102) then st 97 else st 0
      else st 97)
  | 113 => Some (fun c =>
      switch c [(2, st 69); (48, st 114); (49, st 118); (50, st 121)]
       (if c <? 65 then if (51 <=? c) && (c <=? 57) then st 124 else st 0
        else if c >? 70 then if (97 <=? c) && (c <=? 102) then st 125 else st 0
        else st 125))
  | 114 => Some (fun c =>
      switch c [(46, st 72); (58, st 111)]
       (if c <? 65 then if (48 <=? c) && (c <=? 57) then st 115 else st 0
        else if c >? 70 then if (97 <=? c) && (c <=? 102) then st 115 else st 0
        else st 115))
  | 115 => Some (fun c =>
      if c =? 58 then st 111
      else if c <? 65 then if (48 <=? c) && (c <=? 57) then st 116 else st 0
      else if c >? 70 then if (97 <=? c) && (c <=? 102) then st 116 else st 0
      else st 116)
  | 116 => Some (fun c =>
      if c =? 58 then st 111
      else if c <? 65 then if (48 <=? c) && (c <=? 57) then st 117 else st 0
      else if c >? 70 then if (97 <=? c) && (c <=? 102) then st 117 else st 0
      else st 117)
  | 117 => Some (fun c => if c =? 58 then st 111 else st 0)
  | _ => None
  end.

Definition uri_cases_22 (cs : Z) : option (Z -> label) :=
  match cs with
  | 118 => Some (fun c =>
      switch c [(46, st 72); (58, st 111)]
       (if c <? 65 then if (48 <=? c) && (c <=? 57) then st 119 else st 0
        else if c >? 70 then if (97 <=? c) && (c <=? 102) then st 115 else st 0
        else st 115))
  | 119 => Some (fun c =>
      switch c [(46, st 72); (58, st 111)]
       (if c <? 65 then if (48 <=? c) && (c <=? 57) then st 120 else st 0
        else if c >? 70 then if (97 <=? c) && (c <=? 102) then st 116 else st 0
        else st 116))
  | 120 => Some (fun c =>
      switch c [(46, st 72); (58, st 111)]
       (if c <? 65 then if (48 <=? c) && (c <=? 57) then st 117 else st 0
        else if c >? 70 then if (97 <=? c) && (c <=? 102) then st 117 else st 0
        else st 117))
  | 121 => Some (fun c =>
      switch c [(46, st 72); (53, st 123); (58, st 111)]
       (if c <? 65 then if (48 <=? c) && (c <=? 57) then st 122 else st 0
        else if c >? 70 then if (97 <=? c) && (c <=? 102) then st 115 else st 0
        else st 115))
  | 122 => Some (fun c =>
      switch c [(46, st 72); (58, st 111)]
       (if c <? 65 then if (48 <=? c) && (c <=? 57) then st 116 else st 0
        else if c >? 70 then if (97 <=? c) && (c <=? 102) then st 116 else st 0
        else st 116))
  | 123 => Some (fun c =>
      switch c [(46, st 72); (58, st 111)]
       (if c <? 54 then if (48 <=? c) && (c <=? 53) then st 120 else st 0
        else if c >? 57 then (
          if c >? 70 then if (97 <=? c) && (c <=? 102) then st 116 else st 0
          else if c >=? 65 then st 116 else st 0)
        else st 116))
  | 124 => Some (fun c =>
      switch c [(46, st 72); (58, st 111)]
       (if c <? 65 then if (48 <=? c) && (c <=? 57) then st 122 else st 0
        else if c >? 70 then if (97 <=? c) && (c <=? 102) then st 115 else st 0
        else st 115))
  | 125 => Some (fun c =>
      if c =? 58 then st 111
      else if c <? 65 then if (48 <=? c) && (c <=? 57) then st 115 else st 0
      else if c >? 70 then if (97 <=? c) && (c <=? 102) then st 115 else st 0
      else st 115)
  | _ => None
  end.

Definition uri_cases_23 (cs : Z) : option (Z -> label) :=
  match cs with
  | 126 => Some (fun c =>
      if c <? 65 then if (48 <=? c) && (c <=? 57) then st 127 else st 0
      else if c >? 70 then if (97 <=? c) && (c <=? 102) then st 127 else st 0
      else st 127)
  | 127 => Some (fun c =>
      if c =? 58 then st 113
      else if c <? 65 then if (48 <=? c) && (c <=? 57) then st 128 else st 0
      else if c >? 70 then if (97 <=? c) && (c <=? 102) then st 128 else st 0
      else st 128)
  | 128 => Some (fun c =>
      if c =? 58 then st 113
      else if c <? 65 then if (48 <=? c) && (c <=? 57) then st 129 else st 0
      else if c >? 70 then if (97 <=? c) && (c <=? 102) then st 129 else st 0
      else st 129)
  | 129 => Some (fun c =>
      if c =? 58 then st 113
      else if c <? 65 then if (48 <=? c) && (c <=? 57) then st 130 else st 0
      else if c >? 70 then if (97 <=? c) && (c <=? 102) then st 130 else st 0
      else st 130)
  | 130 => Some (fun c => if c =? 58 then st 113 else st 0)
  | 131 => Some (fun c =>
      if c <? 65 then if (48 <=? c) && (c <=? 57) then st 132 else st 0
      else if c >? 70 then if (97 <=? c) && (c <=? 102) then st 132 else st 0
      else st 132)
  | 132 => Some (fun c =>
      if c =? 58 then st 126
      else if c <? 65 then if (48 <=? c) && (c <=? 57) then st 133 else st 0
      else if c >? 70 then if (97 <=? c) && (c <=? 102) then st 133 else st 0
      else st 133)
  | 133 => Some (fun c =>
      if c =? 58 then st 126
      else if c <? 65 then if (48 <=? c) && (c <=? 57) then st 134 else st 0
      else if c >? 70 then if (97 <=? c) && (c <=? 102) then st 134 else st 0
      else st 134)
  | 134 => Some (fun c =>
      if c =? 58 then st 126
      else if c <? 65 then if (48 <=? c) && (c <=? 57) then st 135 else st 0
      else if c >? 70 then if (97 <=? c) && (c <=? 102) then st 135 else st 0
      else st 135)
  | 135 => Some (fun c => if c =? 58 then st 126 else st 0)
  | 136 => Some (fun c =>
      if c <? 65 then if (48 <=? c) && (c <=? 57) then st 137 else st 0
      else if c >? 70 then if (97 <=? c) && (c <=? 102) then st 137 else st 0
      else st 137)
  | _ => None
  end.

Definition uri_cases_24 (cs : Z) : option (Z -> label) :=
  match cs with
  | 137 => Some (fun c =>
      if c =? 58 then st 131
      else if c <? 65 then if (48 <=? c) && (c <=? 57) then st 138 else st 0
      else if c >? 70 then if (97 <=? c) && (c <=? 102) then st 138 else st 0
      else st 138)
  | 138 => Some (fun c =>
      if c =? 58 then st 131
      else if c <? 65 then if (48 <=? c) && (c <=? 57) then st 139 else st 0
      else if c >? 70 then if (97 <=? c) && (c <=? 102) then st 139 else st 0
      else st 139)
  | 139 => Some (fun c =>
      if c =? 58 then st 131
      else if c <? 65 then if (48 <=? c) && (c <=? 57) then st 140 else st 0
      else if c >? 70 then if (97 <=? c) && (c <=? 102) then st 140 else st 0
      else st 140)
  | 140 => Some (fun c => if c =? 58 then st 131 else st 0)
  | 141 => Some (fun c =>
      if c <? 65 then if (48 <=? c) && (c <=? 57) then st 142 else st 0
      else if c >? 70 then if (97 <=? c) && (c <=? 102) then st 142 else st 0
      else st 142)
  | 142 => Some (fun c =>
      if c =? 58 then st 136
      else if c <? 65 then if (48 <=? c) && (c <=? 57) then st 143 else st 0
      else if c >? 70 then if (97 <=? c) && (c <=? 102) then st 143 else st 0
      else st 143)
  | 143 => Some (fun c =>
      if c =? 58 then st 136
      else if c <? 65 then if (48 <=? c) && (c <=? 57) then st 144 else st 0
      else if c >? 70 then if (97 <=? c) && (c <=? 102) then st 144 else st 0
      else st 144)
  | 144 => Some (fun c =>
      if c =? 58 then st 136
      else if c <? 65 then if (48 <=? c) && (c <=? 57) then st 145 else st 0
      else if c >? 70 then if (97 <=? c) && (c <=? 102) then st 145 else st 0
      else st 145)
  | 145 => Some (fun c => if c =? 58 then st 136 else st 0)
  | 146 => Some (fun c => if c =? 58 then st 147 else st 0)
  | 147 => Some (fun c =>
      switch c [(2, st 69); (48, st 148); (49, st 217); (50, st 220); (93, st 460)]
       (if c <? 65 then if (51 <=? c) && (c <=? 57) then st 223 else st 0
        else if c >? 70 then if (97 <=? c) && (c <=? 102) then st 224 else st 0
        else st 224))
  | _ => None
  end.

Definition uri_cases_25 (cs : Z) : option (Z -> label) :=
  match cs with
  | 148 => Some (fun c =>
      switch c [(46, st 72); (58, st 152); (93, st 460)]
       (if c <? 65 then if (48 <=? c) && (c <=? 57) then st 149 else st 0
        else if c >? 70 then if (97 <=? c) && (c <=? 102) then st 149 else st 0
        else st 149))
  | 149 => Some (fun c =>
      switch c [(58, st 152); (93, st 460)]
       (if c <? 65 then if (48 <=? c) && (c <=? 57) then st 150 else st 0
        else if c >? 70 then if (97 <=? c) && (c <=? 102) then st 150 else st 0
        else st 150))
  | 150 => Some (fun c =>
      switch c [(58, st 152); (93, st 460)]
       (if c <? 65 then if (48 <=? c) && (c <=? 57) then st 151 else st 0
        else if c >? 70 then if (97 <=? c) && (c <=? 102) then st 151 else st 0
        else st 151))
  | 151 => Some (fun c => switch c [(58, st 152); (93, st 460)] (st 0))
  | 152 => Some (fun c =>
      switch c [(2, st 69); (48, st 153); (49, st 209); (50, st 212)]
       (if c <? 65 then if (51 <=? c) && (c <=? 57) then st 215 else st 0
        else if c >? 70 then if (97 <=? c) && (c <=? 102) then st 216 else st 0
        else st 216))
  | 153 => Some (fun c =>
      switch c [(46, st 72); (58, st 157); (93, st 460)]
       (if c <? 65 then if (48 <=? c) && (c <=? 57) then st 154 else st 0
        else if c >? 70 then if (97 <=? c) && (c <=? 102) then st 154 else st 0
        else st 154))
  | 154 => Some (fun c =>
      switch c [(58, st 157); (93, st 460)]
       (if c <? 65 then if (48 <=? c) && (c <=? 57) then st 155 else st 0
        else if c >? 70 then if (97 <=? c) && (c <=? 102) then st 155 else st 0
        else st 155))
  | 155 => Some (fun c =>
      switch c [(58, st 157); (93, st 460)]
       (if c <? 65 then if (48 <=? c) && (c <=? 57) then st 156 else st 0
        else if c >? 70 then if (97 <=? c) && (c <=? 102) then st 156 else st 0
        else st 156))
  | 156 => Some (fun c => switch c [(58, st 157); (93, st 460)] (st 0))
  | _ => None
  end.

Definition uri_cases_26 (cs : Z) : option (Z -> label) :=
  match cs with
  | 157 => Some (fun c =>
      switch c [(2, st 69); (48, st 158); (49, st 201); (50, st 204)]
       (if c <? 65 then if (51 <=? c) && (c <=? 57) then st 207 else st 0
        else if c >? 70 then if (97 <=? c) && (c <=? 102) then st 208 else st 0
        else st 208))
  | 158 => Some (fun c =>
      switch c [(46, st 72); (58, st 162); (93, st 460)]
       (if c <? 65 then if (48 <=? c) && (c <=? 57) then st 159 else st 0
        else if c >? 70 then if (97 <=? c) && (c <=? 102) then st 159 else st 0
        else st 159))
  | 159 => Some (fun c =>
      switch c [(58, st 162); (93, st 460)]
       (if c <? 65 then if (48 <=? c) && (c <=? 57) then st 160 else st 0
        else if c >? 70 then if (97 <=? c) && (c <=? 102) then st 160 else st 0
        else st 160))
  | 160 => Some (fun c =>
      switch c [(58, st 162); (93, st 460)]
       (if c <? 65 then if (48 <=? c) && (c <=? 57) then st 161 else st 0
        else if c >? 70 then if (97 <=? c) && (c <=? 102) then st 161 else st 0
        else st 161))
  | 161 => Some (fun c => switch c [(58, st 162); (93, st 460)] (st 0))
  | 162 => Some (fun c =>
      switch c [(2, st 69); (48, st 163); (49, st 193); (50, st 196)]
       (if c <? 65 then if (51 <=? c) && (c <=? 57) then st 199 else st 0
        else if c >? 70 then if (97 <=? c) && (c <=? 102) then st 200 else st 0
        else st 200))
  | 163 => Some (fun c =>
      switch c [(46, st 72); (58, st 167); (93, st 460)]
       (if c <? 65 then if (48 <=? c) && (c <=? 57) then st 164 else st 0
        else if c >? 70 then if (97 <=? c) && (c <=? 102) then st 164 else st 0
        else st 164))
  | 164 => Some (fun c =>
      switch c [(58, st 167); (93, st 460)]
       (if c <? 65 then if (48 <=? c) && (c <=? 57) then st 165 else st 0
        else if c >? 70 then if (97 <=? c) && (c <=? 102) then st 165 else st 0
        else st 165))
  | _ => None
  end.

Definition uri_cases_27 (cs : Z) : option (Z -> label) :=
  match cs with
  | 165 => Some (fun c =>
      switch c [(58, st 167); (93, st 460)]
       (if c <? 65 then if (48 <=? c) && (c <=? 57) then st 166 else st 0
        else if c >? 70 then if (97 <=? c) && (c <=? 102) then st 166 else st 0
        else st 166))
  | 166 => Some (fun c => switch c [(58, st 167); (93, st 460)] (st 0))
  | 167 => Some (fun c =>
      switch c [(2, st 69); (48, st 168); (49, st 185); (50, st 188)]
       (if c <? 65 then if (51 <=? c) && (c <=? 57) then st 191 else st 0
        else if c >? 70 then if (97 <=? c) && (c <=? 102) then st 192 else st 0
        else st 192))
  | 168 => Some (fun c =>
      switch c [(46, st 72); (58, st 172); (93, st 460)]
       (if c <? 65 then if (48 <=? c) && (c <=? 57) then st 169 else st 0
        else if c >? 70 then if (97 <=? c) && (c <=? 102) then st 169 else st 0
        else st 169))
  | 169 => Some (fun c =>
      switch c [(58, st 172); (93, st 460)]
       (if c <? 65 then if (48 <=? c) && (c <=? 57) then st 170 else st 0
        else if c >? 70 then if (97 <=? c) && (c <=? 102) then st 170 else st 0
        else st 170))
  | 170 => Some (fun c =>
      switch c [(58, st 172); (93, st 460)]
       (if c <? 65 then if (48 <=? c) && (c <=? 57) then st 171 else st 0
        else if c >? 70 then if (97 <=? c) && (c <=? 102) then st 171 else st 0
        else st 171))
  | 171 => Some (fun c => switch c [(58, st 172); (93, st 460)] (st 0))
  | 172 => Some (fun c =>
      switch c [(2, st 69); (48, st 173); (49, st 177); (50, st 180)]
       (if c <? 65 then if (51 <=? c) && (c <=? 57) then st 183 else st 0
        else if c >? 70 then if (97 <=? c) && (c <=? 102) then st 184 else st 0
        else st 184))
  | 173 => Some (fun c =>
      switch c [(46, st 72); (58, st 111); (93, st 460)]
       (if c <? 65 then if (48 <=? c) && (c <=? 57) then st 174 else st 0
        else if c >? 70 then if (97 <=? c) && (c <=? 102) then st 174 else st 0
        else st 174))
  | _ => None
  end.

Definition uri_cases_28 (cs : Z) : option (Z -> label) :=
  match cs with
  | 174 => Some (fun c =>
      switch c [(58, st 111); (93, st 460)]
       (if c <? 65 then if (48 <=? c) && (c <=? 57) then st 175 else st 0
        else if c >? 70 then if (97 <=? c) && (c <=? 102) then st 175 else st 0
        else st 175))
  | 175 => Some (fun c =>
      switch c [(58, st 111); (93, st 460)]
       (if c <? 65 then if (48 <=? c) && (c <=? 57) then st 176 else st 0
        else if c >? 70 then if (97 <=? c) && (c <=? 102) then st 176 else st 0
        else st 176))
  | 176 => Some (fun c => switch c [(58, st 111); (93, st 460)] (st 0))
  | 177 => Some (fun c =>
      switch c [(46, st 72); (58, st 111); (93, st 460)]
       (if c <? 65 then if (48 <=? c) && (c <=? 57) then st 178 else st 0
        else if c >? 70 then if (97 <=? c) && (c <=? 102) then st 174 else st 0
        else st 174))
  | 178 => Some (fun c =>
      switch c [(46, st 72); (58, st 111); (93, st 460)]
       (if c <? 65 then if (48 <=? c) && (c <=? 57) then st 179 else st 0
        else if c >? 70 then if (97 <=? c) && (c <=? 102) then st 175 else st 0
        else st 175))
  | 179 => Some (fun c =>
      switch c [(46, st 72); (58, st 111); (93, st 460)]
       (if c <? 65 then if (48 <=? c) && (c <=? 57) then st 176 else st 0
        else if c >? 70 then if (97 <=? c) && (c <=? 102) then st 176 else st 0
        else st 176))
  | 180 => Some (fun c =>
      switch c [(46, st 72); (53, st 182); (58, st 111); (93, st 460)]
       (if c <? 65 then if (48 <=? c) && (c <=? 57) then st 181 else st 0
        else if c >? 70 then if (97 <=? c) && (c <=? 102) then st 174 else st 0
        else st 174))
  | 181 => Some (fun c =>
      switch c [(46, st 72); (58, st 111); (93, st 460)]
       (if c <? 65 then if (48 <=? c) && (c <=? 57) then st 175 else st 0
        else if c >? 70 then if (97 <=? c) && (c <=? 102) then st 175 else st 0
        else st 175))
  | _ => None
  end.

Definition uri_cases_29 (cs : Z) : option (Z -> label) :=
  match cs with
  | 182 => Some (fun c =>
      switch c [(46, st 72); (58, st 111); (93, st 460)]
       (if c <? 54 then if (48 <=? c) && (c <=? 53) then st 179 else st 0
        else if c >? 57 then (
          if c >? 70 then if (97 <=? c) && (c <=? 102) then st 175 else st 0
          else if c >=? 65 then st 175 else st 0)
        else st 175))
  | 183 => Some (fun c =>
      switch c [(46, st 72); (58, st 111); (93, st 460)]
       (if c <? 65 then if (48 <=? c) && (c <=? 57) then st 181 else st 0
        else if c >? 70 then if (97 <=? c) && (c <=? 102) then st 174 else st 0
        else st 174))
  | 184 => Some (fun c =>
      switch c [(58, st 111); (93, st 460)]
       (if c <? 65 then if (48 <=? c) && (c <=? 57) then st 174 else st 0
        else if c >? 70 then if (97 <=? c) && (c <=? 102) then st 174 else st 0
        else st 174))
  | 185 => Some (fun c =>
      switch c [(46, st 72); (58, st 172); (93, st 460)]
       (if c <? 65 then if (48 <=? c) && (c <=? 57) then st 186 else st 0
        else if c >? 70 then if (97 <=? c) && (c <=? 102) then st 169 else st 0
        else st 169))
  | 186 => Some (fun c =>
      switch c [(46, st 72); (58, st 172); (93, st 460)]
       (if c <? 65 then if (48 <=? c) && (c <=? 57) then st 187 else st 0
        else if c >? 70 then if (97 <=? c) && (c <=? 102) then st 170 else st 0
        else st 170))
  | 187 => Some (fun c =>
      switch c [(46, st 72); (58, st 172); (93, st 460)]
       (if c <? 65 then if (48 <=? c) && (c <=? 57) then st 171 else st 0
        else if c >? 70 then if (97 <=? c) && (c <=? 102) then st 171 else st 0
        else st 171))
  | 188 => Some (fun c =>
      switch c [(46, st 72); (53, st 190); (58, st 172); (93, st 460)]
       (if c <? 65 then if (48 <=? c) && (c <=? 57) then st 189 else st 0
        else if c >? 70 then if (97 <=? c) && (c <=? 102) then st 169 else st 0
        else st 169))
  | 189 => Some (fun c =>
      switch c [(46, st 72); (58, st 172); (93, st 460)]
       (if c <? 65 then if (48 <=? c) && (c <=? 57) then st 170 else st 0
        else if c >? 70 then if (97 <=? c) && (c <=? 102) then st 170 else st 0
        else st 170))
  | _ => None
  end.

Definition uri_cases_30 (cs : Z) : option (Z -> label) :=
  match cs with
  | 190 => Some (fun c =>
      switch c [(46, st 72); (58, st 172); (93, st 460)]
       (if c <? 54 then if (48 <=? c) && (c <=? 53) then st 187 else st 0
        else if c >? 57 then (
          if c >? 70 then if (97 <=? c) && (c <=? 102) then st 170 else st 0
          else if c >=? 65 then st 170 else st 0)
        else st 170))
  | 191 => Some (fun c =>
      switch c [(46, st 72); (58, st 172); (93, st 460)]
       (if c <? 65 then if (48 <=? c) && (c <=? 57) then st 189 else st 0
        else if c >? 70 then if (97 <=? c) && (c <=? 102) then st 169 else st 0
        else st 169))
  | 192 => Some (fun c =>
      switch c [(58, st 172); (93, st 460)]
       (if c <? 65 then if (48 <=? c) && (c <=? 57) then st 169 else st 0
        else if c >? 70 then if (97 <=? c) && (c <=? 102) then st 169 else st 0
        else st 169))
  | 193 => Some (fun c =>
      switch c [(46, st 72); (58, st 167); (93, st 460)]
       (if c <? 65 then if (48 <=? c) && (c <=? 57) then st 194 else st 0
        else if c >? 70 then if (97 <=? c) && (c <=? 102) then st 164 else st 0
        else st 164))
  | 194 => Some (fun c =>
      switch c [(46, st 72); (58, st 167); (93, st 460)]
       (if c <? 65 then if (48 <=? c) && (c <=? 57) then st 195 else st 0
        else if c >? 70 then if (97 <=? c) && (c <=? 102) then st 165 else st 0
        else st 165))
  | 195 => Some (fun c =>
      switch c [(46, st 72); (58, st 167); (93, st 460)]
       (if c <? 65 then if (48 <=? c) && (c <=? 57) then st 166 else st 0
        else if c >? 70 then if (97 <=? c) && (c <=? 102) then st 166 else st 0
        else st 166))
  | 196 => Some (fun c =>
      switch c [(46, st 72); (53, st 198); (58, st 167); (93, st 460)]
       (if c <? 65 then if (48 <=? c) && (c <=? 57) then st 197 else st 0
        else if c >? 70 then if (97 <=? c) && (c <=? 102) then st 164 else st 0
        else st 164))
  | 197 => Some (fun c =>
      switch c [(46, st 72); (58, st 167); (93, st 460)]
       (if c <? 65 then if (48 <=? c) && (c <=? 57) then st 165 else st 0
        else if c >? 70 then if (97 <=? c) && (c <=? 102) then st 165 else st 0
        else st 165))
  | _ => None
  end.

Definition uri_cases_31 (cs : Z) : option (Z -> label) :=
  match cs with
  | 198 => Some (fun c =>
      switch c [(46, st 72); (58, st 167); (93, st 460)]
       (if c <? 54 then if (48 <=? c) && (c <=? 53) then st 195 else st 0
        else if c >? 57 then (
          if c >? 70 then if (97 <=? c) && (c <=? 102) then st 165 else st 0
          else if c >=? 65 then st 165 else st 0)
        else st 165))
  | 199 => Some (fun c =>
      switch c [(46, st 72); (58, st 167); (93, st 460)]
       (if c <? 65 then if (48 <=? c) && (c <=? 57) then st 197 else st 0
        else if c >? 70 then if (97 <=? c) && (c <=? 102) then st 164 else st 0
        else st 164))
  | 200 => Some (fun c =>
      switch c [(58, st 167); (93, st 460)]
       (if c <? 65 then if (48 <=? c) && (c <=? 57) then st 164 else st 0
        else if c >? 70 then if (97 <=? c) && (c <=? 102) then st 164 else st 0
        else st 164))
  | 201 => Some (fun c =>
      switch c [(46, st 72); (58, st 162); (93, st 460)]
       (if c <? 65 then if (48 <=? c) && (c <=? 57) then st 202 else st 0
        else if c >? 70 then if (97 <=? c) && (c <=? 102) then st 159 else st 0
        else st 159))
  | 202 => Some (fun c =>
      switch c [(46, st 72); (58, st 162); (93, st 460)]
       (if c <? 65 then if (48 <=? c) && (c <=? 57) then st 203 else st 0
        else if c >? 70 then if (97 <=? c) && (c <=? 102) then st 160 else st 0
        else st 160))
  | 203 => Some (fun c =>
      switch c [(46, st 72); (58, st 162); (93, st 460)]
       (if c <? 65 then if (48 <=? c) && (c <=? 57) then st 161 else st 0
        else if c >? 70 then if (97 <=? c) && (c <=? 102) then st 161 else st 0
        else st 161))
  | 204 => Some (fun c =>
      switch c [(46, st 72); (53, st 206); (58, st 162); (93, st 460)]
       (if c <? 65 then if (48 <=? c) && (c <=? 57) then st 205 else st 0
        else if c >? 70 then if (97 <=? c) && (c <=? 102) then st 159 else st 0
        else st 159))
  | 205 => Some (fun c =>
      switch c [(46, st 72); (58, st 162); (93, st 460)]
       (if c <? 65 then if (48 <=? c) && (c <=? 57) then st 160 else st 0
        else if c >? 70 then if (97 <=? c) && (c <=? 102) then st 160 else st 0
        else st 160))
  | _ => None
  end.

Definition uri_cases_32 (cs : Z) : option (Z -> label) :=
  match cs with
  | 206 => Some (fun c =>
      switch c [(46, st 72); (58, st 162); (93, st 460)]
       (if c <? 54 then if (48 <=? c) && (c <=? 53) then st 203 else st 0
        else if c >? 57 then (
          if c >? 70 then if (97 <=? c) && (c <=? 102) then st 160 else st 0
          else if c >=? 65 then st 160 else st 0)
        else st 160))
  | 207 => Some (fun c =>
      switch c [(46, st 72); (58, st 162); (93, st 460)]
       (if c <? 65 then if (48 <=? c) && (c <=? 57) then st 205 else st 0
        else if c >? 70 then if (97 <=? c) && (c <=? 102) then st 159 else st 0
        else st 159))
  | 208 => Some (fun c =>
      switch c [(58, st 162); (93, st 460)]
       (if c <? 65 then if (48 <=? c) && (c <=? 57) then st 159 else st 0
        else if c >? 70 then if (97 <=? c) && (c <=? 102) then st 159 else st 0
        else st 159))
  | 209 => Some (fun c =>
      switch c [(46, st 72); (58, st 157); (93, st 460)]
       (if c <? 65 then if (48 <=? c) && (c <=? 57) then st 210 else st 0
        else if c >? 70 then if (97 <=? c) && (c <=? 102) then st 154 else st 0
        else st 154))
  | 210 => Some (fun c =>
      switch c [(46, st 72); (58, st 157); (93, st 460)]
       (if c <? 65 then if (48 <=? c) && (c <=? 57) then st 211 else st 0
        else if c >? 70 then if (97 <=? c) && (c <=? 102) then st 155 else st 0
        else st 155))
  | 211 => Some (fun c =>
      switch c [(46, st 72); (58, st 157); (93, st 460)]
       (if c <? 65 then if (48 <=? c) && (c <=? 57) then st 156 else st 0
        else if c >? 70 then if (97 <=? c) && (c <=? 102) then st 156 else st 0
        else st 156))
  | 212 => Some (fun c =>
      switch c [(46, st 72); (53, st 214); (58, st 157); (93, st 460)]
       (if c <? 65 then if (48 <=? c) && (c <=? 57) then st 213 else st 0
        else if c >? 70 then if (97 <=? c) && (c <=? 102) then st 154 else st 0
        else st 154))
  | 213 => Some (fun c =>
      switch c [(46, st 72); (58, st 157); (93, st 460)]
       (if c <? 65 then if (48 <=? c) && (c <=? 57) then st 155 else st 0
        else if c >? 70 then if (97 <=? c) && (c <=? 102) then st 155 else st 0
        else st 155))
  | _ => None
  end.

Definition uri_cases_33 (cs : Z) : option (Z -> label) :=
  match cs with
  | 214 => Some (fun c =>
      switch c [(46, st 72); (58, st 157); (93, st 460)]
       (if c <? 54 then if (48 <=? c) && (c <=? 53) then st 211 else st 0
        else if c >? 57 then (
          if c >? 70 then if (97 <=? c) && (c <=? 102) then st 155 else st 0
          else if c >=? 65 then st 155 else st 0)
        else st 155))
  | 215 => Some (fun c =>
      switch c [(46, st 72); (58, st 157); (93, st 460)]
       (if c <? 65 then if (48 <=? c) && (c <=? 57) then st 213 else st 0
        else if c >? 70 then if (97 <=? c) && (c <=? 102) then st 154 else st 0
        else st 154))
  | 216 => Some (fun c =>
      switch c [(58, st 157); (93, st 460)]
       (if c <? 65 then if (48 <=? c) && (c <=? 57) then st 154 else st 0
        else if c >? 70 then if (97 <=? c) && (c <=? 102) then st 154 else st 0
        else st 154))
  | 217 => Some (fun c =>
      switch c [(46, st 72); (58, st 152); (93, st 460)]
       (if c <? 65 then if (48 <=? c) && (c <=? 57) then st 218 else st 0
        else if c >? 70 then if (97 <=? c) && (c <=? 102) then st 149 else st 0
        else st 149))
  | 218 => Some (fun c =>
      switch c [(46, st 72); (58, st 152); (93, st 460)]
       (if c <? 65 then if (48 <=? c) && (c <=? 57) then st 219 else st 0
        else if c >? 70 then if (97 <=? c) && (c <=? 102) then st 150 else st 0
        else st 150))
  | 219 => Some (fun c =>
      switch c [(46, st 72); (58, st 152); (93, st 460)]
       (if c <? 65 then if (48 <=? c) && (c <=? 57) then st 151 else st 0
        else if c >? 70 then if (97 <=? c) && (c <=? 102) then st 151 else st 0
        else st 151))
  | 220 => Some (fun c =>
      switch c [(46, st 72); (53, st 222); (58, st 152); (93, st 460)]
       (if c <? 65 then if (48 <=? c) && (c <=? 57) then st 221 else st 0
        else if c >? 70 then if (97 <=? c) && (c <=? 102) then st 149 else st 0
        else st 149))
  | 221 => Some (fun c =>
      switch c [(46, st 72); (58, st 152); (93, st 460)]
       (if c <? 65 then if (48 <=? c) && (c <=? 57) then st 150 else st 0
        else if c >? 70 then if (97 <=? c) && (c <=? 102) then st 150 else st 0
        else st 150))
  | _ => None
  end.

Definition uri_cases_34 (cs : Z) : option (Z -> label) :=
  match cs with
  | 222 => Some (fun c =>
      switch c [(46, st 72); (58, st 152); (93, st 460)]
       (if c <? 54 then if (48 <=? c) && (c <=? 53) then st 219 else st 0
        else if c >? 57 then (
          if c >? 70 then if (97 <=? c) && (c <=? 102) then st 150 else st 0
          else if c >=? 65 then st 150 else st 0)
        else st 150))
  | 223 => Some (fun c =>
      switch c [(46, st 72); (58, st 152); (93, st 460)]
       (if c <? 65 then if (48 <=? c) && (c <=? 57) then st 221 else st 0
        else if c >? 70 then if (97 <=? c) && (c <=? 102) then st 149 else st 0
        else st 149))
  | 224 => Some (fun c =>
      switch c [(58, st 152); (93, st 460)]
       (if c <? 65 then if (48 <=? c) && (c <=? 57) then st 149 else st 0
        else if c >? 70 then if (97 <=? c) && (c <=? 102) then st 149 else st 0
        else st 149))
  | 225 => Some (fun c =>
      if c <? 65 then if (48 <=? c) && (c <=? 57) then st 226 else st 0
      else if c >? 70 then if (97 <=? c) && (c <=? 102) then st 226 else st 0
      else st 226)
  | 226 => Some (fun c =>
      if c =? 46 then st 227
      else if c <? 65 then if (48 <=? c) && (c <=? 57) then st 226 else st 0
      else if c >? 70 then if (97 <=? c) && (c <=? 102) then st 226 else st 0
      else st 226)
  | 227 => Some (fun c =>
      switch c [(33, st 228); (36, st 228); (61, st 228); (95, st 228); (126, st 228)]
       (if c <? 48 then if (38 <=? c) && (c <=? 46) then st 228 else st 0
        else if c >? 59 then (
          if c >? 90 then if (97 <=? c) && (c <=? 122) then st 228 else st 0
          else if c >=? 65 then st 228 else st 0)
        else st 228))
  | 228 => Some (fun c =>
      switch c [(33, st 228); (36, st 228); (61, st 228); (93, st 460); (95, st 228);
        (126, st 228)]
       (if c <? 48 then if (38 <=? c) && (c <=? 46) then st 228 else st 0
        else if c >? 59 then (
          if c >? 90 then if (97 <=? c) && (c <=? 122) then st 228 else st 0
          else if c >=? 65 then st 228 else st 0)
        else st 228))
  | _ => None
  end.

Definition uri_cases_35 (cs : Z) : option (Z -> label) :=
  match cs with
  | 489 => Some (fun c =>
      switch c [(33, st 33); (35, tr 493); (37, st 34); (47, tr 494); (61, st 33);
        (63, tr 496); (64, tr 38); (95, st 33); (126, st 33)]
       (if c <? 58 then (
          if c >? 46 then if (48 <=? c) && (c <=? 57) then st 489 else st 0
          else if c >=? 36 then st 33 else st 0)
        else if c >? 59 then (
          if c >? 90 then if (97 <=? c) && (c <=? 122) then st 33 else st 0
          else if c >=? 65 then st 33 else st 0)
        else st 33))
  | 490 => Some (fun c =>
      switch c [(33, st 467); (35, tr 485); (37, st 31); (46, st 491); (47, tr 486);
        (58, tr 499); (61, st 467); (63, tr 488); (64, tr 38); (95, st 467); (126, st 467)]
       (if c <? 65 then if (36 <=? c) && (c <=? 59) then st 467 else st 0
        else if c >? 90 then if (97 <=? c) && (c <=? 122) then st 467 else st 0
        else st 467))
  | 491 => Some (fun c =>
      switch c [(2, st 13); (33, st 467); (35, tr 485); (37, st 31); (47, tr 486);
        (48, st 492); (49, st 500); (50, st 502); (58, tr 499); (59, st 467); (61, st 467);
        (63, tr 488); (64, tr 38); (95, st 467); (126, st 467)]
       (if c <? 51 then if (36 <=? c) && (c <=? 46) then st 467 else st 0
        else if c >? 57 then (
          if c >? 90 then if (97 <=? c) && (c <=? 122) then st 467 else st 0
          else if c >=? 65 then st 467 else st 0)
        else st 501))
  | 492 => Some (fun c =>
      switch c [(33, st 467); (35, tr 485); (37, st 31); (46, st 493); (47, tr 486);
        (58, tr 499); (61, st 467); (63, tr 488); (64, tr 38); (95, st 467); (126, st 467)]
       (if c <? 65 then if (36 <=? c) && (c <=? 59) then st 467 else st 0
        else if c >? 90 then if (97 <=? c) && (c <=? 122) then st 467 else st 0
        else st 467))
  | _ => None
  end.

Definition uri_cases_36 (cs : Z) : option (Z -> label) :=
  match cs with
  | 493 => Some (fun c =>
      switch c [(2, st 17); (33, st 467); (35, tr 485); (37, st 31); (47, tr 486);
        (48, st 494); (49, st 496); (50, st 498); (58, tr 499); (59, st 467); (61, st 467);
        (63, tr 488); (64, tr 38); (95, st 467); (126, st 467)]
       (if c <? 51 then if (36 <=? c) && (c <=? 46) then st 467 else st 0
        else if c >? 57 then (
          if c >? 90 then if (97 <=? c) && (c <=? 122) then st 467 else st 0
          else if c >=? 65 then st 467 else st 0)
        else st 497))
  | 494 => Some (fun c =>
      switch c [(33, st 467); (35, tr 485); (37, st 31); (46, st 495); (47, tr 486);
        (58, tr 499); (61, st 467); (63, tr 488); (64, tr 38); (95, st 467); (126, st 467)]
       (if c <? 65 then if (36 <=? c) && (c <=? 59) then st 467 else st 0
        else if c >? 90 then if (97 <=? c) && (c <=? 122) then st 467 else st 0
        else st 467))
  | 495 => Some (fun c =>
      switch c [(2, st 21); (33, st 467); (35, tr 485); (37, st 31); (47, tr 486);
        (58, tr 499); (61, st 467); (63, tr 488); (64, tr 38); (95, st 467); (126, st 467)]
       (if c <? 65 then if (36 <=? c) && (c <=? 59) then st 467 else st 0
        else if c >? 90 then if (97 <=? c) && (c <=? 122) then st 467 else st 0
        else st 467))
  | 496 => Some (fun c =>
      switch c [(33, st 467); (35, tr 485); (37, st 31); (46, st 495); (47, tr 486);
        (58, tr 499); (59, st 467); (61, st 467); (63, tr 488); (64, tr 38); (95, st 467);
        (126, st 467)]
       (if c <? 48 then if (36 <=? c) && (c <=? 45) then st 467 else st 0
        else if c >? 57 then (
          if c >? 90 then if (97 <=? c) && (c <=? 122) then st 467 else st 0
          else if c >=? 65 then st 467 else st 0)
        else st 497))
  | 497 => Some (fun c =>
      switch c [(33, st 467); (35, tr 485); (37, st 31); (46, st 495); (47, tr 486);
        (58, tr 499); (59, st 467); (61, st 467); (63, tr 488); (64, tr 38); (95, st 467);
        (126, st 467)]
       (if c <? 48 then if (36 <=? c) && (c <=? 45) then st 467 else st 0
        else if c >? 57 then (
          if c >? 90 then if (97 <=? c) && (c <=? 122) then st 467 else st 0
          else if c >=? 65 then st 467 else st 0)
        else st 494))
  | _ => None
  end.

Definition uri_cases_37 (cs : Z) : option (Z -> label) :=
  match cs with
  | 498 => Some (fun c =>
      switch c [(33, st 467); (35, tr 485); (37, st 31); (46, st 495); (47, tr 486);
        (53, st 499); (58, tr 499); (59, st 467); (61, st 467); (63, tr 488); (64, tr 38);
        (95, st 467); (126, st 467)]
       (if c <? 48 then if (36 <=? c) && (c <=? 45) then st 467 else st 0
        else if c >? 57 then (
          if c >? 90 then if (97 <=? c) && (c <=? 122) then st 467 else st 0
          else if c >=? 65 then st 467 else st 0)
        else st 494))
  | 499 => Some (fun c =>
      switch c [(33, st 467); (35, tr 485); (37, st 31); (46, st 495); (47, tr 486);
        (58, tr 499); (61, st 467); (63, tr 488); (64, tr 38); (95, st 467); (126, st 467)]
       (if c <? 54 then (
          if c >? 45 then if (48 <=? c) && (c <=? 53) then st 494 else st 0
          else if c >=? 36 then st 467 else st 0)
        else if c >? 59 then (
          if c >? 90 then if (97 <=? c) && (c <=? 122) then st 467 else st 0
          else if c >=? 65 then st 467 else st 0)
        else st 467))
  | 500 => Some (fun c =>
      switch c [(33, st 467); (35, tr 485); (37, st 31); (46, st 493); (47, tr 486);
        (58, tr 499); (59, st 467); (61, st 467); (63, tr 488); (64, tr 38); (95, st 467);
        (126, st 467)]
       (if c <? 48 then if (36 <=? c) && (c <=? 45) then st 467 else st 0
        else if c >? 57 then (
          if c >? 90 then if (97 <=? c) && (c <=? 122) then st 467 else st 0
          else if c >=? 65 then st 467 else st 0)
        else st 501))
  | 501 => Some (fun c =>
      switch c [(33, st 467); (35, tr 485); (37, st 31); (46, st 493); (47, tr 486);
        (58, tr 499); (59, st 467); (61, st 467); (63, tr 488); (64, tr 38); (95, st 467);
        (126, st 467)]
       (if c <? 48 then if (36 <=? c) && (c <=? 45) then st 467 else st 0
        else if c >? 57 then (
          if c >? 90 then if (97 <=? c) && (c <=? 122) then st 467 else st 0
          else if c >=? 65 then st 467 else st 0)
        else st 492))
  | _ => None
  end.

Definition uri_cases_38 (cs : Z) : option (Z -> label) :=
  match cs with
  | 502 => Some (fun c =>
      switch c [(33, st 467); (35, tr 485); (37, st 31); (46, st 493); (47, tr 486);
        (53, st 503); (58, tr 499); (59, st 467); (61, st 467); (63, tr 488); (64, tr 38);
        (95, st 467); (126, st 467)]
       (if c <? 48 then if (36 <=? c) && (c <=? 45) then st 467 else st 0
        else if c >? 57 then (
          if c >? 90 then if (97 <=? c) && (c <=? 122) then st 467 else st 0
          else if c >=? 65 then st 467 else st 0)
        else st 492))
  | 503 => Some (fun c =>
      switch c [(33, st 467); (35, tr 485); (37, st 31); (46, st 493); (47, tr 486);
        (58, tr 499); (61, st 467); (63, tr 488); (64, tr 38); (95, st 467); (126, st 467)]
       (if c <? 54 then (
          if c >? 45 then if (48 <=? c) && (c <=? 53) then st 492 else st 0
          else if c >=? 36 then st 467 else st 0)
        else if c >? 59 then (
          if c >? 90 then if (97 <=? c) && (c <=? 122) then st 467 else st 0
          else if c >=? 65 then st 467 else st 0)
        else st 467))
  | 504 => Some (fun c =>
      switch c [(33, st 467); (35, tr 485); (37, st 31); (46, st 491); (47, tr 486);
        (58, tr 499); (59, st 467); (61, st 467); (63, tr 488); (64, tr 38); (95, st 467);
        (126, st 467)]
       (if c <? 48 then if (36 <=? c) && (c <=? 45) then st 467 else st 0
        else if c >? 57 then (
          if c >? 90 then if (97 <=? c) && (c <=? 122) then st 467 else st 0
          else if c >=? 65 then st 467 else st 0)
        else st 505))
  | 505 => Some (fun c =>
      switch c [(33, st 467); (35, tr 485); (37, st 31); (46, st 491); (47, tr 486);
        (58, tr 499); (59, st 467); (61, st 467); (63, tr 488); (64, tr 38); (95, st 467);
        (126, st 467)]
       (if c <? 48 then if (36 <=? c) && (c <=? 45) then st 467 else st 0
        else if c >? 57 then (
          if c >? 90 then if (97 <=? c) && (c <=? 122) then st 467 else st 0
          else if c >=? 65 then st 467 else st 0)
        else st 490))
  | _ => None
  end.

Definition uri_cases_39 (cs : Z) : option (Z -> label) :=
  match cs with
  | 506 => Some (fun c =>
      switch c [(33, st 467); (35, tr 485); (37, st 31); (46, st 491); (47, tr 486);
        (53, st 507); (58, tr 499); (59, st 467); (61, st 467); (63, tr 488); (64, tr 38);
        (95, st 467); (126, st 467)]
       (if c <? 48 then if (36 <=? c) && (c <=? 45) then st 467 else st 0
        else if c >? 57 then (
          if c >? 90 then if (97 <=? c) && (c <=? 122) then st 467 else st 0
          else if c >=? 65 then st 467 else st 0)
        else st 490))
  | 507 => Some (fun c =>
      switch c [(33, st 467); (35, tr 485); (37, st 31); (46, st 491); (47, tr 486);
        (58, tr 499); (61, st 467); (63, tr 488); (64, tr 38); (95, st 467); (126, st 467)]
       (if c <? 54 then (
          if c >? 45 then if (48 <=? c) && (c <=? 53) then st 490 else st 0
          else if c >=? 36 then st 467 else st 0)
        else if c >? 59 then (
          if c >? 90 then if (97 <=? c) && (c <=? 122) then st 467 else st 0
          else if c >=? 65 then st 467 else st 0)
        else st 467))
  | 508 => Some (fun c =>
      switch c [(34, st 0); (35, st 453); (37, st 3); (43, st 508); (47, st 455);
        (58, tr 543); (60, st 0); (62, st 0); (63, st 456); (96, st 0); (127, st 0)]
       (if c <? 65 then (
          if c >? 32 then if (45 <=? c) && (c <=? 57) then st 508 else st 452
          else if c >=? 0 then st 0 else st 452)
        else if c >? 90 then (
          if c <? 97 then if (91 <=? c) && (c <=? 94) then st 0 else st 452
          else if c >? 122 then if (123 <=? c) && (c <=? 125) then st 0 else st 452
          else st 508)
        else st 508))
  | 509 => Some (fun c =>
      switch c [(34, st 0); (35, st 453); (37, st 5); (47, st 510); (60, st 0);
        (62, st 0); (63, st 456); (96, st 0); (127, st 0)]
       (if c <? 91 then if (0 <=? c) && (c <=? 32) then st 0 else st 455
        else if c >? 94 then if (123 <=? c) && (c <=? 125) then st 0 else st 455
        else st 0))
  | _ => None
  end.

Definition uri_cases_40 (cs : Z) : option (Z -> label) :=
  match cs with
  | 510 => Some (fun c =>
      switch c [(34, st 0); (35, st 453); (37, st 5); (47, st 511); (60, st 0);
        (62, st 0); (63, st 456); (96, st 0); (127, st 0)]
       (if c <? 91 then if (0 <=? c) && (c <=? 32) then st 0 else st 455
        else if c >? 94 then if (123 <=? c) && (c <=? 125) then st 0 else st 455
        else st 0))
  | 511 => Some (fun c =>
      switch c [(2, tr 546); (33, tr 547); (35, tr 548); (37, tr 549); (47, tr 550);
        (48, tr 551); (49, tr 552); (50, tr 553); (58, tr 555); (59, tr 547); (61, tr 547);
        (63, tr 556); (64, tr 557); (91, tr 558); (95, tr 547); (126, tr 547)]
       (if c <? 51 then if (36 <=? c) && (c <=? 46) then tr 547 else st 0
        else if c >? 57 then (
          if c >? 90 then if (97 <=? c) && (c <=? 122) then tr 547 else st 0
          else if c >=? 65 then tr 547 else st 0)
        else tr 554))
  | 229 => Some (fun c => if (48 <=? c) && (c <=? 52) then st 230 else st 0)
  | 230 => Some (fun c => if (48 <=? c) && (c <=? 57) then st 231 else st 0)
  | 231 => Some (fun c => if c =? 46 then st 232 else st 0)
  | 232 => Some (fun c =>
      switch c [(2, st 233); (48, st 235); (49, st 249); (50, st 251)] (if (51 <=? c) && (c <=? 57) then st 250 else st 0))
  | 233 => Some (fun c => if (48 <=? c) && (c <=? 52) then st 234 else st 0)
  | 234 => Some (fun c => if (48 <=? c) && (c <=? 57) then st 235 else st 0)
  | 235 => Some (fun c => if c =? 46 then st 236 else st 0)
  | 236 => Some (fun c =>
      switch c [(2, st 237); (48, st 239); (49, st 245); (50, st 247)] (if (51 <=? c) && (c <=? 57) then st 246 else st 0))
  | 237 => Some (fun c => if (48 <=? c) && (c <=? 52) then st 238 else st 0)
  | 238 => Some (fun c => if (48 <=? c) && (c <=? 57) then st 239 else st 0)
  | _ => None
  end.

Definition uri_cases_41 (cs : Z) : option (Z -> label) :=
  match cs with
  | 239 => Some (fun c => if c =? 46 then st 240 else st 0)
  | 240 => Some (fun c =>
      switch c [(2, st 241); (48, st 512); (49, st 516); (50, st 518)] (if (51 <=? c) && (c <=? 57) then st 517 else st 0))
  | 241 => Some (fun c => if (48 <=? c) && (c <=? 52) then st 242 else st 0)
  | 242 => Some (fun c => if (48 <=? c) && (c <=? 57) then st 512 else st 0)
  | 512 => Some (fun c => switch c [(35, tr 559); (47, tr 560); (58, tr 561); (63, tr 562)] (st 0))
  | 513 => Some (fun c =>
      switch c [(34, st 0); (35, tr 563); (37, st 243); (60, st 0); (62, st 0);
        (63, tr 565); (96, st 0); (127, st 0)]
       (if c <? 91 then if (0 <=? c) && (c <=? 32) then st 0 else st 513
        else if c >? 94 then if (123 <=? c) && (c <=? 125) then st 0 else st 513
        else st 0))
  | 243 => Some (fun c =>
      if c <? 65 then if (48 <=? c) && (c <=? 57) then st 244 else st 0
      else if c >? 70 then if (97 <=? c) && (c <=? 102) then st 244 else st 0
      else st 244)
  | 244 => Some (fun c =>
      if c <? 65 then if (48 <=? c) && (c <=? 57) then st 513 else st 0
      else if c >? 70 then if (97 <=? c) && (c <=? 102) then st 513 else st 0
      else st 513)
  | _ => None
  end.

Definition uri_cases_42 (cs : Z) : option (Z -> label) :=
  match cs with
  | 514 => Some (fun c =>
      switch c [(35, tr 566); (47, tr 567); (63, tr 569)] (if (48 <=? c) && (c <=? 57) then tr 568 else st 0))
  | 515 => Some (fun c =>
      switch c [(35, tr 570); (47, tr 571); (63, tr 573)] (if (48 <=? c) && (c <=? 57) then st 515 else st 0))
  | 516 => Some (fun c =>
      switch c [(35, tr 559); (47, tr 560); (58, tr 561); (63, tr 562)] (if (48 <=? c) && (c <=? 57) then st 517 else st 0))
  | 517 => Some (fun c =>
      switch c [(35, tr 559); (47, tr 560); (58, tr 561); (63, tr 562)] (if (48 <=? c) && (c <=? 57) then st 512 else st 0))
  | 518 => Some (fun c =>
      switch c [(35, tr 559); (47, tr 560); (53, st 519); (58, tr 561); (63, tr 562)] (if (48 <=? c) && (c <=? 57) then st 512 else st 0))
  | 519 => Some (fun c =>
      switch c [(35, tr 559); (47, tr 560); (58, tr 561); (63, tr 562)] (if (48 <=? c) && (c <=? 53) then st 512 else st 0))
  | 245 => Some (fun c =>
      if c =? 46 then st 240
      else if (48 <=? c) && (c <=? 57) then st 246 else st 0)
  | 246 => Some (fun c =>
      if c =? 46 then st 240
      else if (48 <=? c) && (c <=? 57) then st 239 else st 0)
  | 247 => Some (fun c =>
      switch c [(46, st 240); (53, st 248)] (if (48 <=? c) && (c <=? 57) then st 239 else st 0))
  | 248 => Some (fun c =>
      if c =? 46 then st 240
      else if (48 <=? c) && (c <=? 53) then st 239 else st 0)
  | 249 => Some (fun c =>
      if c =? 46 then st 236
      else if (48 <=? c) && (c <=? 57) then st 250 else st 0)
  | _ => None
  end.

Definition uri_cases_43 (cs : Z) : option (Z -> label) :=
  match cs with
  | 250 => Some (fun c =>
      if c =? 46 then st 236
      else if (48 <=? c) && (c <=? 57) then st 235 else st 0)
  | 251 => Some (fun c =>
      switch c [(46, st 236); (53, st 252)] (if (48 <=? c) && (c <=? 57) then st 235 else st 0))
  | 252 => Some (fun c =>
      if c =? 46 then st 236
      else if (48 <=? c) && (c <=? 53) then st 235 else st 0)
  | 520 => Some (fun c =>
      switch c [(33, st 520); (35, tr 559); (37, st 253); (47, tr 560); (58, tr 576);
        (61, st 520); (63, tr 562); (64, tr 263); (95, st 520); (126, st 520)]
       (if c <? 65 then if (36 <=? c) && (c <=? 59) then st 520 else st 0
        else if c >? 90 then if (97 <=? c) && (c <=? 122) then st 520 else st 0
        else st 520))
  | 253 => Some (fun c =>
      if c <? 65 then if (48 <=? c) && (c <=? 57) then st 254 else st 0
      else if c >? 70 then if (97 <=? c) && (c <=? 102) then st 254 else st 0
      else st 254)
  | 254 => Some (fun c =>
      if c <? 65 then if (48 <=? c) && (c <=? 57) then st 520 else st 0
      else if c >? 70 then if (97 <=? c) && (c <=? 102) then st 520 else st 0
      else st 520)
  | 521 => Some (fun c =>
      switch c [(33, st 255); (35, tr 566); (37, st 256); (47, tr 567); (61, st 255);
        (63, tr 569); (64, tr 263); (95, st 255); (126, st 255)]
       (if c <? 58 then (
          if c >? 46 then if (48 <=? c) && (c <=? 57) then tr 577 else st 0
          else if c >=? 36 then st 255 else st 0)
        else if c >? 59 then (
          if c >? 90 then if (97 <=? c) && (c <=? 122) then st 255 else st 0
          else if c >=? 65 then st 255 else st 0)
        else st 255))
  | _ => None
  end.

Definition uri_cases_44 (cs : Z) : option (Z -> label) :=
  match cs with
  | 255 => Some (fun c =>
      switch c [(33, st 255); (37, st 256); (61, st 255); (64, tr 263); (95, st 255);
        (126, st 255)]
       (if c <? 48 then if (36 <=? c) && (c <=? 46) then st 255 else st 0
        else if c >? 59 then (
          if c >? 90 then if (97 <=? c) && (c <=? 122) then st 255 else st 0
          else if c >=? 65 then st 255 else st 0)
        else st 255))
  | 256 => Some (fun c =>
      if c <? 65 then if (48 <=? c) && (c <=? 57) then st 257 else st 0
      else if c >? 70 then if (97 <=? c) && (c <=? 102) then st 257 else st 0
      else st 257)
  | 257 => Some (fun c =>
      if c <? 65 then if (48 <=? c) && (c <=? 57) then st 255 else st 0
      else if c >? 70 then if (97 <=? c) && (c <=? 102) then st 255 else st 0
      else st 255)
  | 522 => Some (fun c =>
      switch c [(2, tr 546); (33, tr 578); (35, tr 548); (37, tr 579); (47, tr 550);
        (48, tr 580); (49, tr 581); (50, tr 582); (58, tr 584); (59, tr 578); (61, tr 578);
        (63, tr 556); (91, tr 558); (95, tr 578); (126, tr 578)]
       (if c <? 51 then if (36 <=? c) && (c <=? 46) then tr 578 else st 0
        else if c >? 57 then (
          if c >? 90 then if (97 <=? c) && (c <=? 122) then tr 578 else st 0
          else if c >=? 65 then tr 578 else st 0)
        else tr 583))
  | 523 => Some (fun c =>
      switch c [(33, st 523); (35, tr 559); (37, st 258); (47, tr 560); (58, tr 561);
        (61, st 523); (63, tr 562); (95, st 523); (126, st 523)]
       (if c <? 65 then if (36 <=? c) && (c <=? 59) then st 523 else st 0
        else if c >? 90 then if (97 <=? c) && (c <=? 122) then st 523 else st 0
        else st 523))
  | _ => None
  end.

Definition uri_cases_45 (cs : Z) : option (Z -> label) :=
  match cs with
  | 258 => Some (fun c =>
      if c <? 65 then if (48 <=? c) && (c <=? 57) then st 259 else st 0
      else if c >? 70 then if (97 <=? c) && (c <=? 102) then st 259 else st 0
      else st 259)
  | 259 => Some (fun c =>
      if c <? 65 then if (48 <=? c) && (c <=? 57) then st 523 else st 0
      else if c >? 70 then if (97 <=? c) && (c <=? 102) then st 523 else st 0
      else st 523)
  | 524 => Some (fun c =>
      switch c [(33, st 523); (35, tr 559); (37, st 258); (46, st 525); (47, tr 560);
        (58, tr 561); (61, st 523); (63, tr 562); (95, st 523); (126, st 523)]
       (if c <? 65 then if (36 <=? c) && (c <=? 59) then st 523 else st 0
        else if c >? 90 then if (97 <=? c) && (c <=? 122) then st 523 else st 0
        else st 523))
  | 525 => Some (fun c =>
      switch c [(2, st 233); (33, st 523); (35, tr 559); (37, st 258); (47, tr 560);
        (48, st 526); (49, st 534); (50, st 536); (58, tr 561); (59, st 523); (61, st 523);
        (63, tr 562); (95, st 523); (126, st 523)]
       (if c <? 51 then if (36 <=? c) && (c <=? 46) then st 523 else st 0
        else if c >? 57 then (
          if c >? 90 then if (97 <=? c) && (c <=? 122) then st 523 else st 0
          else if c >=? 65 then st 523 else st 0)
        else st 535))
  | 526 => Some (fun c =>
      switch c [(33, st 523); (35, tr 559); (37, st 258); (46, st 527); (47, tr 560);
        (58, tr 561); (61, st 523); (63, tr 562); (95, st 523); (126, st 523)]
       (if c <? 65 then if (36 <=? c) && (c <=? 59) then st 523 else st 0
        else if c >? 90 then if (97 <=? c) && (c <=? 122) then st 523 else st 0
        else st 523))
  | 527 => Some (fun c =>
      switch c [(2, st 237); (33, st 523); (35, tr 559); (37, st 258); (47, tr 560);
        (48, st 528); (49, st 530); (50, st 532); (58, tr 561); (59, st 523); (61, st 523);
        (63, tr 562); (95, st 523); (126, st 523)]
       (if c <? 51 then if (36 <=? c) && (c <=? 46) then st 523 else st 0
        else if c >? 57 then (
          if c >? 90 then if (97 <=? c) && (c <=? 122) then st 523 else st 0
          else if c >=? 65 then st 523 else st 0)
        else st 531))
  | _ => None
  end.

Definition uri_cases_46 (cs : Z) : option (Z -> label) :=
  match cs with
  | 528 => Some (fun c =>
      switch c [(33, st 523); (35, tr 559); (37, st 258); (46, st 529); (47, tr 560);
        (58, tr 561); (61, st 523); (63, tr 562); (95, st 523); (126, st 523)]
       (if c <? 65 then if (36 <=? c) && (c <=? 59) then st 523 else st 0
        else if c >? 90 then if (97 <=? c) && (c <=? 122) then st 523 else st 0
        else st 523))
  | 529 => Some (fun c =>
      switch c [(2, st 241); (33, st 523); (35, tr 559); (37, st 258); (47, tr 560);
        (58, tr 561); (61, st 523); (63, tr 562); (95, st 523); (126, st 523)]
       (if c <? 65 then if (36 <=? c) && (c <=? 59) then st 523 else st 0
        else if c >? 90 then if (97 <=? c) && (c <=? 122) then st 523 else st 0
        else st 523))
  | 530 => Some (fun c =>
      switch c [(33, st 523); (35, tr 559); (37, st 258); (46, st 529); (47, tr 560);
        (58, tr 561); (59, st 523); (61, st 523); (63, tr 562); (95, st 523); (126, st 523)]
       (if c <? 48 then if (36 <=? c) && (c <=? 45) then st 523 else st 0
        else if c >? 57 then (
          if c >? 90 then if (97 <=? c) && (c <=? 122) then st 523 else st 0
          else if c >=? 65 then st 523 else st 0)
        else st 531))
  | 531 => Some (fun c =>
      switch c [(33, st 523); (35, tr 559); (37, st 258); (46, st 529); (47, tr 560);
        (58, tr 561); (59, st 523); (61, st 523); (63, tr 562); (95, st 523); (126, st 523)]
       (if c <? 48 then if (36 <=? c) && (c <=? 45) then st 523 else st 0
        else if c >? 57 then (
          if c >? 90 then if (97 <=? c) && (c <=? 122) then st 523 else st 0
          else if c >=? 65 then st 523 else st 0)
        else st 528))
  | 532 => Some (fun c =>
      switch c [(33, st 523); (35, tr 559); (37, st 258); (46, st 529); (47, tr 560);
        (53, st 533); (58, tr 561); (59, st 523); (61, st 523); (63, tr 562); (95, st 523);
        (126, st 523)]
       (if c <? 48 then if (36 <=? c) && (c <=? 45) then st 523 else st 0
        else if c >? 57 then (
          if c >? 90 then if (97 <=? c) && (c <=? 122) then st 523 else st 0
          else if c >=? 65 then st 523 else st 0)
        else st 528))
  | _ => None
  end.

Definition uri_cases_47 (cs : Z) : option (Z -> label) :=
  match cs with
  | 533 => Some (fun c =>
      switch c [(33, st 523); (35, tr 559); (37, st 258); (46, st 529); (47, tr 560);
        (58, tr 561); (61, st 523); (63, tr 562); (95, st 523); (126, st 523)]
       (if c <? 54 then (
          if c >? 45 then if (48 <=? c) && (c <=? 53) then st 528 else st 0
          else if c >=? 36 then st 523 else st 0)
        else if c >? 59 then (
          if c >? 90 then if (97 <=? c) && (c <=? 122) then st 523 else st 0
          else if c >=? 65 then st 523 else st 0)
        else st 523))
  | 534 => Some (fun c =>
      switch c [(33, st 523); (35, tr 559); (37, st 258); (46, st 527); (47, tr 560);
        (58, tr 561); (59, st 523); (61, st 523); (63, tr 562); (95, st 523); (126, st 523)]
       (if c <? 48 then if (36 <=? c) && (c <=? 45) then st 523 else st 0
        else if c >? 57 then (
          if c >? 90 then if (97 <=? c) && (c <=? 122) then st 523 else st 0
          else if c >=? 65 then st 523 else st 0)
        else st 535))
  | 535 => Some (fun c =>
      switch c [(33, st 523); (35, tr 559); (37, st 258); (46, st 527); (47, tr 560);
        (58, tr 561); (59, st 523); (61, st 523); (63, tr 562); (95, st 523); (126, st 523)]
       (if c <? 48 then if (36 <=? c) && (c <=? 45) then st 523 else st 0
        else if c >? 57 then (
          if c >? 90 then if (97 <=? c) && (c <=? 122) then st 523 else st 0
          else if c >=? 65 then st 523 else st 0)
        else st 526))
  | 536 => Some (fun c =>
      switch c [(33, st 523); (35, tr 559); (37, st 258); (46, st 527); (47, tr 560);
        (53, st 537); (58, tr 561); (59, st 523); (61, st 523); (63, tr 562); (95, st 523);
        (126, st 523)]
       (if c <? 48 then if (36 <=? c) && (c <=? 45) then st 523 else st 0
        else if c >? 57 then (
          if c >? 90 then if (97 <=? c) && (c <=? 122) then st 523 else st 0
          else if c >=? 65 then st 523 else st 0)
        else st 526))
  | 537 => Some (fun c =>
      switch c [(33, st 523); (35, tr 559); (37, st 258); (46, st 527); (47, tr 560);
        (58, tr 561); (61, st 523); (63, tr 562); (95, st 523); (126, st 523)]
       (if c <? 54 then (
          if c >? 45 then if (48 <=? c) && (c <=? 53) then st 526 else st 0
          else if c >=? 36 then st 523 else st 0)
        else if c >? 59 then (
          if c >? 90 then if (97 <=? c) && (c <=? 122) then st 523 else st 0
          else if c >=? 65 then st 523 else st 0)
        else st 523))
  | _ => None
  end.

Definition uri_cases_48 (cs : Z) : option (Z -> label) :=
  match cs with
  | 538 => Some (fun c =>
      switch c [(33, st 523); (35, tr 559); (37, st 258); (46, st 525); (47, tr 560);
        (58, tr 561); (59, st 523); (61, st 523); (63, tr 562); (95, st 523); (126, st 523)]
       (if c <? 48 then if (36 <=? c) && (c <=? 45) then st 523 else st 0
        else if c >? 57 then (
          if c >? 90 then if (97 <=? c) && (c <=? 122) then st 523 else st 0
          else if c >=? 65 then st 523 else st 0)
        else st 539))
  | 539 => Some (fun c =>
      switch c [(33, st 523); (35, tr 559); (37, st 258); (46, st 525); (47, tr 560);
        (58, tr 561); (59, st 523); (61, st 523); (63, tr 562); (95, st 523); (126, st 523)]
       (if c <? 48 then if (36 <=? c) && (c <=? 45) then st 523 else st 0
        else if c >? 57 then (
          if c >? 90 then if (97 <=? c) && (c <=? 122) then st 523 else st 0
          else if c >=? 65 then st 523 else st 0)
        else st 524))
  | 540 => Some (fun c =>
      switch c [(33, st 523); (35, tr 559); (37, st 258); (46, st 525); (47, tr 560);
        (53, st 541); (58, tr 561); (59, st 523); (61, st 523); (63, tr 562); (95, st 523);
        (126, st 523)]
       (if c <? 48 then if (36 <=? c) && (c <=? 45) then st 523 else st 0
        else if c >? 57 then (
          if c >? 90 then if (97 <=? c) && (c <=? 122) then st 523 else st 0
          else if c >=? 65 then st 523 else st 0)
        else st 524))
  | 541 => Some (fun c =>
      switch c [(33, st 523); (35, tr 559); (37, st 258); (46, st 525); (47, tr 560);
        (58, tr 561); (61, st 523); (63, tr 562); (95, st 523); (126, st 523)]
       (if c <? 54 then (
          if c >? 45 then if (48 <=? c) && (c <=? 53) then st 524 else st 0
          else if c >=? 36 then st 523 else st 0)
        else if c >? 59 then (
          if c >? 90 then if (97 <=? c) && (c <=? 122) then st 523 else st 0
          else if c >=? 65 then st 523 else st 0)
        else st 523))
  | _ => None
  end.

Definition uri_cases_49 (cs : Z) : option (Z -> label) :=
  match cs with
  | 260 => Some (fun c =>
      switch c [(58, st 368); (118, st 447)]
       (if c <? 65 then if (48 <=? c) && (c <=? 57) then st 261 else st 0
        else if c >? 70 then if (97 <=? c) && (c <=? 102) then st 261 else st 0
        else st 261))
  | 261 => Some (fun c =>
      if c =? 58 then st 265
      else if c <? 65 then if (48 <=? c) && (c <=? 57) then st 262 else st 0
      else if c >? 70 then if (97 <=? c) && (c <=? 102) then st 262 else st 0
      else st 262)
  | 262 => Some (fun c =>
      if c =? 58 then st 265
      else if c <? 65 then if (48 <=? c) && (c <=? 57) then st 263 else st 0
      else if c >? 70 then if (97 <=? c) && (c <=? 102) then st 263 else st 0
      else st 263)
  | 263 => Some (fun c =>
      if c =? 58 then st 265
      else if c <? 65 then if (48 <=? c) && (c <=? 57) then st 264 else st 0
      else if c >? 70 then if (97 <=? c) && (c <=? 102) then st 264 else st 0
      else st 264)
  | 264 => Some (fun c => if c =? 58 then st 265 else st 0)
  | 265 => Some (fun c =>
      if c =? 58 then st 363
      else if c <? 65 then if (48 <=? c) && (c <=? 57) then st 266 else st 0
      else if c >? 70 then if (97 <=? c) && (c <=? 102) then st 266 else st 0
      else st 266)
  | 266 => Some (fun c =>
      if c =? 58 then st 270
      else if c <? 65 then if (48 <=? c) && (c <=? 57) then st 267 else st 0
      else if c >? 70 then if (97 <=? c) && (c <=? 102) then st 267 else st 0
      else st 267)
  | 267 => Some (fun c =>
      if c =? 58 then st 270
      else if c <? 65 then if (48 <=? c) && (c <=? 57) then st 268 else st 0
      else if c >? 70 then if (97 <=? c) && (c <=? 102) then st 268 else st 0
      else st 268)
  | 268 => Some (fun c =>
      if c =? 58 then st 270
      else if c <? 65 then if (48 <=? c) && (c <=? 57) then st 269 else st 0
      else if c >? 70 then if (97 <=? c) && (c <=? 102) then st 269 else st 0
      else st 269)
  | 269 => Some (fun c => if c =? 58 then st 270 else st 0)
  | _ => None
  end.

Definition uri_cases_50 (cs : Z) : option (Z -> label) :=
  match cs with
  | 270 => Some (fun c =>
      if c =? 58 then st 358
      else if c <? 65 then if (48 <=? c) && (c <=? 57) then st 271 else st 0
      else if c >? 70 then if (97 <=? c) && (c <=? 102) then st 271 else st 0
      else st 271)
  | 271 => Some (fun c =>
      if c =? 58 then st 275
      else if c <? 65 then if (48 <=? c) && (c <=? 57) then st 272 else st 0
      else if c >? 70 then if (97 <=? c) && (c <=? 102) then st 272 else st 0
      else st 272)
  | 272 => Some (fun c =>
      if c =? 58 then st 275
      else if c <? 65 then if (48 <=? c) && (c <=? 57) then st 273 else st 0
      else if c >? 70 then if (97 <=? c) && (c <=? 102) then st 273 else st 0
      else st 273)
  | 273 => Some (fun c =>
      if c =? 58 then st 275
      else if c <? 65 then if (48 <=? c) && (c <=? 57) then st 274 else st 0
      else if c >? 70 then if (97 <=? c) && (c <=? 102) then st 274 else st 0
      else st 274)
  | 274 => Some (fun c => if c =? 58 then st 275 else st 0)
  | 275 => Some (fun c =>
      if c =? 58 then st 353
      else if c <? 65 then if (48 <=? c) && (c <=? 57) then st 276 else st 0
      else if c >? 70 then if (97 <=? c) && (c <=? 102) then st 276 else st 0
      else st 276)
  | 276 => Some (fun c =>
      if c =? 58 then st 280
      else if c <? 65 then if (48 <=? c) && (c <=? 57) then st 277 else st 0
      else if c >? 70 then if (97 <=? c) && (c <=? 102) then st 277 else st 0
      else st 277)
  | 277 => Some (fun c =>
      if c =? 58 then st 280
      else if c <? 65 then if (48 <=? c) && (c <=? 57) then st 278 else st 0
      else if c >? 70 then if (97 <=? c) && (c <=? 102) then st 278 else st 0
      else st 278)
  | 278 => Some (fun c =>
      if c =? 58 then st 280
      else if c <? 65 then if (48 <=? c) && (c <=? 57) then st 279 else st 0
      else if c >? 70 then if (97 <=? c) && (c <=? 102) then st 279 else st 0
      else st 279)
  | 279 => Some (fun c => if c =? 58 then st 280 else st 0)
  | 280 => Some (fun c =>
      if c =? 58 then st 348
      else if c <? 65 then if (48 <=? c) && (c <=? 57) then st 281 else st 0
      else if c >? 70 then if (97 <=? c) && (c <=? 102) then st 281 else st 0
      else st 281)
  | _ => None
  end.

Definition uri_cases_51 (cs : Z) : option (Z -> label) :=
  match cs with
  | 281 => Some (fun c =>
      if c =? 58 then st 285
      else if c <? 65 then if (48 <=? c) && (c <=? 57) then st 282 else st 0
      else if c >? 70 then if (97 <=? c) && (c <=? 102) then st 282 else st 0
      else st 282)
  | 282 => Some (fun c =>
      if c =? 58 then st 285
      else if c <? 65 then if (48 <=? c) && (c <=? 57) then st 283 else st 0
      else if c >? 70 then if (97 <=? c) && (c <=? 102) then st 283 else st 0
      else st 283)
  | 283 => Some (fun c =>
      if c =? 58 then st 285
      else if c <? 65 then if (48 <=? c) && (c <=? 57) then st 284 else st 0
      else if c >? 70 then if (97 <=? c) && (c <=? 102) then st 284 else st 0
      else st 284)
  | 284 => Some (fun c => if c =? 58 then st 285 else st 0)
  | 285 => Some (fun c =>
      if c =? 58 then st 335
      else if c <? 65 then if (48 <=? c) && (c <=? 57) then st 286 else st 0
      else if c >? 70 then if (97 <=? c) && (c <=? 102) then st 286 else st 0
      else st 286)
  | 286 => Some (fun c =>
      if c =? 58 then st 290
      else if c <? 65 then if (48 <=? c) && (c <=? 57) then st 287 else st 0
      else if c >? 70 then if (97 <=? c) && (c <=? 102) then st 287 else st 0
      else st 287)
  | 287 => Some (fun c =>
      if c =? 58 then st 290
      else if c <? 65 then if (48 <=? c) && (c <=? 57) then st 288 else st 0
      else if c >? 70 then if (97 <=? c) && (c <=? 102) then st 288 else st 0
      else st 288)
  | 288 => Some (fun c =>
      if c =? 58 then st 290
      else if c <? 65 then if (48 <=? c) && (c <=? 57) then st 289 else st 0
      else if c >? 70 then if (97 <=? c) && (c <=? 102) then st 289 else st 0
      else st 289)
  | 289 => Some (fun c => if c =? 58 then st 290 else st 0)
  | 290 => Some (fun c =>
      switch c [(2, st 291); (48, st 318); (49, st 326); (50, st 329); (58, st 333)]
       (if c <? 65 then if (51 <=? c) && (c <=? 57) then st 332 else st 0
        else if c >? 70 then if (97 <=? c) && (c <=? 102) then st 334 else st 0
        else st 334))
  | 291 => Some (fun c => if (48 <=? c) && (c <=? 52) then st 292 else st 0)
  | _ => None
  end.

Definition uri_cases_52 (cs : Z) : option (Z -> label) :=
  match cs with
  | 292 => Some (fun c => if (48 <=? c) && (c <=? 57) then st 293 else st 0)
  | 293 => Some (fun c => if c =? 46 then st 294 else st 0)
  | 294 => Some (fun c =>
      switch c [(2, st 295); (48, st 297); (49, st 314); (50, st 316)] (if (51 <=? c) && (c <=? 57) then st 315 else st 0))
  | 295 => Some (fun c => if (48 <=? c) && (c <=? 52) then st 296 else st 0)
  | 296 => Some (fun c => if (48 <=? c) && (c <=? 57) then st 297 else st 0)
  | 297 => Some (fun c => if c =? 46 then st 298 else st 0)
  | 298 => Some (fun c =>
      switch c [(2, st 299); (48, st 301); (49, st 310); (50, st 312)] (if (51 <=? c) && (c <=? 57) then st 311 else st 0))
  | 299 => Some (fun c => if (48 <=? c) && (c <=? 52) then st 300 else st 0)
  | 300 => Some (fun c => if (48 <=? c) && (c <=? 57) then st 301 else st 0)
  | 301 => Some (fun c => if c =? 46 then st 302 else st 0)
  | 302 => Some (fun c =>
      switch c [(2, st 303); (48, st 305); (49, st 306); (50, st 308)] (if (51 <=? c) && (c <=? 57) then st 307 else st 0))
  | 303 => Some (fun c => if (48 <=? c) && (c <=? 52) then st 304 else st 0)
  | 304 => Some (fun c => if (48 <=? c) && (c <=? 57) then st 305 else st 0)
  | 305 => Some (fun c => if c =? 93 then st 512 else st 0)
  | 306 => Some (fun c =>
      if c =? 93 then st 512
      else if (48 <=? c) && (c <=? 57) then st 307 else st 0)
  | 307 => Some (fun c =>
      if c =? 93 then st 512
      else if (48 <=? c) && (c <=? 57) then st 305 else st 0)
  | 308 => Some (fun c =>
      switch c [(53, st 309); (93, st 512)] (if (48 <=? c) && (c <=? 57) then st 305 else st 0))
  | _ => None
  end.

Definition uri_cases_53 (cs : Z) : option (Z -> label) :=
  match cs with
  | 309 => Some (fun c =>
      if c =? 93 then st 512
      else if (48 <=? c) && (c <=? 53) then st 305 else st 0)
  | 310 => Some (fun c =>
      if c =? 46 then st 302
      else if (48 <=? c) && (c <=? 57) then st 311 else st 0)
  | 311 => Some (fun c =>
      if c =? 46 then st 302
      else if (48 <=? c) && (c <=? 57) then st 301 else st 0)
  | 312 => Some (fun c =>
      switch c [(46, st 302); (53, st 313)] (if (48 <=? c) && (c <=? 57) then st 301 else st 0))
  | 313 => Some (fun c =>
      if c =? 46 then st 302
      else if (48 <=? c) && (c <=? 53) then st 301 else st 0)
  | 314 => Some (fun c =>
      if c =? 46 then st 298
      else if (48 <=? c) && (c <=? 57) then st 315 else st 0)
  | 315 => Some (fun c =>
      if c =? 46 then st 298
      else if (48 <=? c) && (c <=? 57) then st 297 else st 0)
  | 316 => Some (fun c =>
      switch c [(46, st 298); (53, st 317)] (if (48 <=? c) && (c <=? 57) then st 297 else st 0))
  | 317 => Some (fun c =>
      if c =? 46 then st 298
      else if (48 <=? c) && (c <=? 53) then st 297 else st 0)
  | 318 => Some (fun c =>
      switch c [(46, st 294); (58, st 322)]
       (if c <? 65 then if (48 <=? c) && (c <=? 57) then st 319 else st 0
        else if c >? 70 then if (97 <=? c) && (c <=? 102) then st 319 else st 0
        else st 319))
  | 319 => Some (fun c =>
      if c =? 58 then st 322
      else if c <? 65 then if (48 <=? c) && (c <=? 57) then st 320 else st 0
      else if c >? 70 then if (97 <=? c) && (c <=? 102) then st 320 else st 0
      else st 320)
  | 320 => Some (fun c =>
      if c =? 58 then st 322
      else if c <? 65 then if (48 <=? c) && (c <=? 57) then st 321 else st 0
      else if c >? 70 then if (97 <=? c) && (c <=? 102) then st 321 else st 0
      else st 321)
  | 321 => Some (fun c => if c =? 58 then st 322 else st 0)
  | _ => None
  end.

Definition uri_cases_54 (cs : Z) : option (Z -> label) :=
  match cs with
  | 322 => Some (fun c =>
      if c =? 58 then st 305
      else if c <? 65 then if (48 <=? c) && (c <=? 57) then st 323 else st 0
      else if c >? 70 then if (97 <=? c) && (c <=? 102) then st 323 else st 0
      else st 323)
  | 323 => Some (fun c =>
      if c =? 93 then st 512
      else if c <? 65 then if (48 <=? c) && (c <=? 57) then st 324 else st 0
      else if c >? 70 then if (97 <=? c) && (c <=? 102) then st 324 else st 0
      else st 324)
  | 324 => Some (fun c =>
      if c =? 93 then st 512
      else if c <? 65 then if (48 <=? c) && (c <=? 57) then st 325 else st 0
      else if c >? 70 then if (97 <=? c) && (c <=? 102) then st 325 else st 0
      else st 325)
  | 325 => Some (fun c =>
      if c =? 93 then st 512
      else if c <? 65 then if (48 <=? c) && (c <=? 57) then st 305 else st 0
      else if c >? 70 then if (97 <=? c) && (c <=? 102) then st 305 else st 0
      else st 305)
  | 326 => Some (fun c =>
      switch c [(46, st 294); (58, st 322)]
       (if c <? 65 then if (48 <=? c) && (c <=? 57) then st 327 else st 0
        else if c >? 70 then if (97 <=? c) && (c <=? 102) then st 319 else st 0
        else st 319))
  | 327 => Some (fun c =>
      switch c [(46, st 294); (58, st 322)]
       (if c <? 65 then if (48 <=? c) && (c <=? 57) then st 328 else st 0
        else if c >? 70 then if (97 <=? c) && (c <=? 102) then st 320 else st 0
        else st 320))
  | 328 => Some (fun c =>
      switch c [(46, st 294); (58, st 322)]
       (if c <? 65 then if (48 <=? c) && (c <=? 57) then st 321 else st 0
        else if c >? 70 then if (97 <=? c) && (c <=? 102) then st 321 else st 0
        else st 321))
  | 329 => Some (fun c =>
      switch c [(46, st 294); (53, st 331); (58, st 322)]
       (if c <? 65 then if (48 <=? c) && (c <=? 57) then st 330 else st 0
        else if c >? 70 then if (97 <=? c) && (c <=? 102) then st 319 else st 0
        else st 319))
  | 330 => Some (fun c =>
      switch c [(46, st 294); (58, st 322)]
       (if c <? 65 then if (48 <=? c) && (c <=? 57) then st 320 else st 0
        else if c >? 70 then if (97 <=? c) && (c <=? 102) then st 320 else st 0
        else st 320))
  | _ => None
  end.

Definition uri_cases_55 (cs : Z) : option (Z -> label) :=
  match cs with
  | 331 => Some (fun c =>
      switch c [(46, st 294); (58, st 322)]
       (if c <? 54 then if (48 <=? c) && (c <=? 53) then st 328 else st 0
        else if c >? 57 then (
          if c >? 70 then if (97 <=? c) && (c <=? 102) then st 320 else st 0
          else if c >=? 65 then st 320 else st 0)
        else st 320))
  | 332 => Some (fun c =>
      switch c [(46, st 294); (58, st 322)]
       (if c <? 65 then if (48 <=? c) && (c <=? 57) then st 330 else st 0
        else if c >? 70 then if (97 <=? c) && (c <=? 102) then st 319 else st 0
        else st 319))
  | 333 => Some (fun c =>
      if c <? 65 then if (48 <=? c) && (c <=? 57) then st 323 else st 0
      else if c >? 70 then if (97 <=? c) && (c <=? 102) then st 323 else st 0
      else st 323)
  | 334 => Some (fun c =>
      if c =? 58 then st 322
      else if c <? 65 then if (48 <=? c) && (c <=? 57) then st 319 else st 0
      else if c >? 70 then if (97 <=? c) && (c <=? 102) then st 319 else st 0
      else st 319)
  | 335 => Some (fun c =>
      switch c [(2, st 291); (48, st 336); (49, st 340); (50, st 343)]
       (if c <? 65 then if (51 <=? c) && (c <=? 57) then st 346 else st 0
        else if c >? 70 then if (97 <=? c) && (c <=? 102) then st 347 else st 0
        else st 347))
  | 336 => Some (fun c =>
      switch c [(46, st 294); (58, st 333)]
       (if c <? 65 then if (48 <=? c) && (c <=? 57) then st 337 else st 0
        else if c >? 70 then if (97 <=? c) && (c <=? 102) then st 337 else st 0
        else st 337))
  | 337 => Some (fun c =>
      if c =? 58 then st 333
      else if c <? 65 then if (48 <=? c) && (c <=? 57) then st 338 else st 0
      else if c >? 70 then if (97 <=? c) && (c <=? 102) then st 338 else st 0
      else st 338)
  | 338 => Some (fun c =>
      if c =? 58 then st 333
      else if c <? 65 then if (48 <=? c) && (c <=? 57) then st 339 else st 0
      else if c >? 70 then if (97 <=? c) && (c <=? 102) then st 339 else st 0
      else st 339)
  | 339 => Some (fun c => if c =? 58 then st 333 else st 0)
  | _ => None
  end.

Definition uri_cases_56 (cs : Z) : option (Z -> label) :=
  match cs with
  | 340 => Some (fun c =>
      switch c [(46, st 294); (58, st 333)]
       (if c <? 65 then if (48 <=? c) && (c <=? 57) then st 341 else st 0
        else if c >? 70 then if (97 <=? c) && (c <=? 102) then st 337 else st 0
        else st 337))
  | 341 => Some (fun c =>
      switch c [(46, st 294); (58, st 333)]
       (if c <? 65 then if (48 <=? c) && (c <=? 57) then st 342 else st 0
        else if c >? 70 then if (97 <=? c) && (c <=? 102) then st 338 else st 0
        else st 338))
  | 342 => Some (fun c =>
      switch c [(46, st 294); (58, st 333)]
       (if c <? 65 then if (48 <=? c) && (c <=? 57) then st 339 else st 0
        else if c >? 70 then if (97 <=? c) && (c <=? 102) then st 339 else st 0
        else st 339))
  | 343 => Some (fun c =>
      switch c [(46, st 294); (53, st 345); (58, st 333)]
       (if c <? 65 then if (48 <=? c) && (c <=? 57) then st 344 else st 0
        else if c >? 70 then if (97 <=? c) && (c <=? 102) then st 337 else st 0
        else st 337))
  | 344 => Some (fun c =>
      switch c [(46, st 294); (58, st 333)]
       (if c <? 65 then if (48 <=? c) && (c <=? 57) then st 338 else st 0
        else if c >? 70 then if (97 <=? c) && (c <=? 102) then st 338 else st 0
        else st 338))
  | 345 => Some (fun c =>
      switch c [(46, st 294); (58, st 333)]
       (if c <? 54 then if (48 <=? c) && (c <=? 53) then st 342 else st 0
        else if c >? 57 then (
          if c >? 70 then if (97 <=? c) && (c <=? 102) then st 338 else st 0
          else if c >=? 65 then st 338 else st 0)
        else st 338))
  | 346 => Some (fun c =>
      switch c [(46, st 294); (58, st 333)]
       (if c <? 65 then if (48 <=? c) && (c <=? 57) then st 344 else st 0
        else if c >? 70 then if (97 <=? c) && (c <=? 102) then st 337 else st 0
        else st 337))
  | 347 => Some (fun c =>
      if c =? 58 then st 333
      else if c <? 65 then if (48 <=? c) && (c <=? 57) then st 337 else st 0
      else if c >? 70 then if (97 <=? c) && (c <=? 102) then st 337 else st 0
      else st 337)
  | _ => None
  end.

Definition uri_cases_57 (cs : Z) : option (Z -> label) :=
  match cs with
  | 348 => Some (fun c =>
      if c <? 65 then if (48 <=? c) && (c <=? 57) then st 349 else st 0
      else if c >? 70 then if (97 <=? c) && (c <=? 102) then st 349 else st 0
      else st 349)
  | 349 => Some (fun c =>
      if c =? 58 then st 335
      else if c <? 65 then if (48 <=? c) && (c <=? 57) then st 350 else st 0
      else if c >? 70 then if (97 <=? c) && (c <=? 102) then st 350 else st 0
      else st 350)
  | 350 => Some (fun c =>
      if c =? 58 then st 335
      else if c <? 65 then if (48 <=? c) && (c <=? 57) then st 351 else st 0
      else if c >? 70 then if (97 <=? c) && (c <=? 102) then st 351 else st 0
      else st 351)
  | 351 => Some (fun c =>
      if c =? 58 then st 335
      else if c <? 65 then if (48 <=? c) && (c <=? 57) then st 352 else st 0
      else if c >? 70 then if (97 <=? c) && (c <=? 102) then st 352 else st 0
      else st 352)
  | 352 => Some (fun c => if c =? 58 then st 335 else st 0)
  | 353 => Some (fun c =>
      if c <? 65 then if (48 <=? c) && (c <=? 57) then st 354 else st 0
      else if c >? 70 then if (97 <=? c) && (c <=? 102) then st 354 else st 0
      else st 354)
  | 354 => Some (fun c =>
      if c =? 58 then st 348
      else if c <? 65 then if (48 <=? c) && (c <=? 57) then st 355 else st 0
      else if c >? 70 then if (97 <=? c) && (c <=? 102) then st 355 else st 0
      else st 355)
  | 355 => Some (fun c =>
      if c =? 58 then st 348
      else if c <? 65 then if (48 <=? c) && (c <=? 57) then st 356 else st 0
      else if c >? 70 then if (97 <=? c) && (c <=? 102) then st 356 else st 0
      else st 356)
  | 356 => Some (fun c =>
      if c =? 58 then st 348
      else if c <? 65 then if (48 <=? c) && (c <=? 57) then st 357 else st 0
      else if c >? 70 then if (97 <=? c) && (c <=? 102) then st 357 else st 0
      else st 357)
  | 357 => Some (fun c => if c =? 58 then st 348 else st 0)
  | 358 => Some (fun c =>
      if c <? 65 then if (48 <=? c) && (c <=? 57) then st 359 else st 0
      else if c >? 70 then if (97 <=? c) && (c <=? 102) then st 359 else st 0
      else st 359)
  | _ => None
  end.

Definition uri_cases_58 (cs : Z) : option (Z -> label) :=
  match cs with
  | 359 => Some (fun c =>
      if c =? 58 then st 353
      else if c <? 65 then if (48 <=? c) && (c <=? 57) then st 360 else st 0
      else if c >? 70 then if (97 <=? c) && (c <=? 102) then st 360 else st 0
      else st 360)
  | 360 => Some (fun c =>
      if c =? 58 then st 353
      else if c <? 65 then if (48 <=? c) && (c <=? 57) then st 361 else st 0
      else if c >? 70 then if (97 <=? c) && (c <=? 102) then st 361 else st 0
      else st 361)
  | 361 => Some (fun c =>
      if c =? 58 then st 353
      else if c <? 65 then if (48 <=? c) && (c <=? 57) then st 362 else st 0
      else if c >? 70 then if (97 <=? c) && (c <=? 102) then st 362 else st 0
      else st 362)
  | 362 => Some (fun c => if c =? 58 then st 353 else st 0)
  | 363 => Some (fun c =>
      if c <? 65 then if (48 <=? c) && (c <=? 57) then st 364 else st 0
      else if c >? 70 then if (97 <=? c) && (c <=? 102) then st 364 else st 0
      else st 364)
  | 364 => Some (fun c =>
      if c =? 58 then st 358
      else if c <? 65 then if (48 <=? c) && (c <=? 57) then st 365 else st 0
      else if c >? 70 then if (97 <=? c) && (c <=? 102) then st 365 else st 0
      else st 365)
  | 365 => Some (fun c =>
      if c =? 58 then st 358
      else if c <? 65 then if (48 <=? c) && (c <=? 57) then st 366 else st 0
      else if c >? 70 then if (97 <=? c) && (c <=? 102) then st 366 else st 0
      else st 366)
  | 366 => Some (fun c =>
      if c =? 58 then st 358
      else if c <? 65 then if (48 <=? c) && (c <=? 57) then st 367 else st 0
      else if c >? 70 then if (97 <=? c) && (c <=? 102) then st 367 else st 0
      else st 367)
  | 367 => Some (fun c => if c =? 58 then st 358 else st 0)
  | 368 => Some (fun c => if c =? 58 then st 369 else st 0)
  | 369 => Some (fun c =>
      switch c [(2, st 291); (48, st 370); (49, st 439); (50, st 442); (93, st 512)]
       (if c <? 65 then if (51 <=? c) && (c <=? 57) then st 445 else st 0
        else if c >? 70 then if (97 <=? c) && (c <=? 102) then st 446 else st 0
        else st 446))
  | _ => None
  end.

Definition uri_cases_59 (cs : Z) : option (Z -> label) :=
  match cs with
  | 370 => Some (fun c =>
      switch c [(46, st 294); (58, st 374); (93, st 512)]
       (if c <? 65 then if (48 <=? c) && (c <=? 57) then st 371 else st 0
        else if c >? 70 then if (97 <=? c) && (c <=? 102) then st 371 else st 0
        else st 371))
  | 371 => Some (fun c =>
      switch c [(58, st 374); (93, st 512)]
       (if c <? 65 then if (48 <=? c) && (c <=? 57) then st 372 else st 0
        else if c >? 70 then if (97 <=? c) && (c <=? 102) then st 372 else st 0
        else st 372))
  | 372 => Some (fun c =>
      switch c [(58, st 374); (93, st 512)]
       (if c <? 65 then if (48 <=? c) && (c <=? 57) then st 373 else st 0
        else if c >? 70 then if (97 <=? c) && (c <=? 102) then st 373 else st 0
        else st 373))
  | 373 => Some (fun c => switch c [(58, st 374); (93, st 512)] (st 0))
  | 374 => Some (fun c =>
      switch c [(2, st 291); (48, st 375); (49, st 431); (50, st 434)]
       (if c <? 65 then if (51 <=? c) && (c <=? 57) then st 437 else st 0
        else if c >? 70 then if (97 <=? c) && (c <=? 102) then st 438 else st 0
        else st 438))
  | 375 => Some (fun c =>
      switch c [(46, st 294); (58, st 379); (93, st 512)]
       (if c <? 65 then if (48 <=? c) && (c <=? 57) then st 376 else st 0
        else if c >? 70 then if (97 <=? c) && (c <=? 102) then st 376 else st 0
        else st 376))
  | 376 => Some (fun c =>
      switch c [(58, st 379); (93, st 512)]
       (if c <? 65 then if (48 <=? c) && (c <=? 57) then st 377 else st 0
        else if c >? 70 then if (97 <=? c) && (c <=? 102) then st 377 else st 0
        else st 377))
  | 377 => Some (fun c =>
      switch c [(58, st 379); (93, st 512)]
       (if c <? 65 then if (48 <=? c) && (c <=? 57) then st 378 else st 0
        else if c >? 70 then if (97 <=? c) && (c <=? 102) then st 378 else st 0
        else st 378))
  | 378 => Some (fun c => switch c [(58, st 379); (93, st 512)] (st 0))
  | _ => None
  end.

Definition uri_cases_60 (cs : Z) : option (Z -> label) :=
  match cs with
  | 379 => Some (fun c =>
      switch c [(2, st 291); (48, st 380); (49, st 423); (50, st 426)]
       (if c <? 65 then if (51 <=? c) && (c <=? 57) then st 429 else st 0
        else if c >? 70 then if (97 <=? c) && (c <=? 102) then st 430 else st 0
        else st 430))
  | 380 => Some (fun c =>
      switch c [(46, st 294); (58, st 384); (93, st 512)]
       (if c <? 65 then if (48 <=? c) && (c <=? 57) then st 381 else st 0
        else if c >? 70 then if (97 <=? c) && (c <=? 102) then st 381 else st 0
        else st 381))
  | 381 => Some (fun c =>
      switch c [(58, st 384); (93, st 512)]
       (if c <? 65 then if (48 <=? c) && (c <=? 57) then st 382 else st 0
        else if c >? 70 then if (97 <=? c) && (c <=? 102) then st 382 else st 0
        else st 382))
  | 382 => Some (fun c =>
      switch c [(58, st 384); (93, st 512)]
       (if c <? 65 then if (48 <=? c) && (c <=? 57) then st 383 else st 0
        else if c >? 70 then if (97 <=? c) && (c <=? 102) then st 383 else st 0
        else st 383))
  | 383 => Some (fun c => switch c [(58, st 384); (93, st 512)] (st 0))
  | 384 => Some (fun c =>
      switch c [(2, st 291); (48, st 385); (49, st 415); (50, st 418)]
       (if c <? 65 then if (51 <=? c) && (c <=? 57) then st 421 else st 0
        else if c >? 70 then if (97 <=? c) && (c <=? 102) then st 422 else st 0
        else st 422))
  | 385 => Some (fun c =>
      switch c [(46, st 294); (58, st 389); (93, st 512)]
       (if c <? 65 then if (48 <=? c) && (c <=? 57) then st 386 else st 0
        else if c >? 70 then if (97 <=? c) && (c <=? 102) then st 386 else st 0
        else st 386))
  | 386 => Some (fun c =>
      switch c [(58, st 389); (93, st 512)]
       (if c <? 65 then if (48 <=? c) && (c <=? 57) then st 387 else st 0
        else if c >? 70 then if (97 <=? c) && (c <=? 102) then st 387 else st 0
        else st 387))
  | _ => None
  end.

Definition uri_cases_61 (cs : Z) : option (Z -> label) :=
  match cs with
  | 387 => Some (fun c =>
      switch c [(58, st 389); (93, st 512)]
       (if c <? 65 then if (48 <=? c) && (c <=? 57) then st 388 else st 0
        else if c >? 70 then if (97 <=? c) && (c <=? 102) then st 388 else st 0
        else st 388))
  | 388 => Some (fun c => switch c [(58, st 389); (93, st 512)] (st 0))
  | 389 => Some (fun c =>
      switch c [(2, st 291); (48, st 390); (49, st 407); (50, st 410)]
       (if c <? 65 then if (51 <=? c) && (c <=? 57) then st 413 else st 0
        else if c >? 70 then if (97 <=? c) && (c <=? 102) then st 414 else st 0
        else st 414))
  | 390 => Some (fun c =>
      switch c [(46, st 294); (58, st 394); (93, st 512)]
       (if c <? 65 then if (48 <=? c) && (c <=? 57) then st 391 else st 0
        else if c >? 70 then if (97 <=? c) && (c <=? 102) then st 391 else st 0
        else st 391))
  | 391 => Some (fun c =>
      switch c [(58, st 394); (93, st 512)]
       (if c <? 65 then if (48 <=? c) && (c <=? 57) then st 392 else st 0
        else if c >? 70 then if (97 <=? c) && (c <=? 102) then st 392 else st 0
        else st 392))
  | 392 => Some (fun c =>
      switch c [(58, st 394); (93, st 512)]
       (if c <? 65 then if (48 <=? c) && (c <=? 57) then st 393 else st 0
        else if c >? 70 then if (97 <=? c) && (c <=? 102) then st 393 else st 0
        else st 393))
  | 393 => Some (fun c => switch c [(58, st 394); (93, st 512)] (st 0))
  | 394 => Some (fun c =>
      switch c [(2, st 291); (48, st 395); (49, st 399); (50, st 402)]
       (if c <? 65 then if (51 <=? c) && (c <=? 57) then st 405 else st 0
        else if c >? 70 then if (97 <=? c) && (c <=? 102) then st 406 else st 0
        else st 406))
  | 395 => Some (fun c =>
      switch c [(46, st 294); (58, st 333); (93, st 512)]
       (if c <? 65 then if (48 <=? c) && (c <=? 57) then st 396 else st 0
        else if c >? 70 then if (97 <=? c) && (c <=? 102) then st 396 else st 0
        else st 396))
  | _ => None
  end.

Definition uri_cases_62 (cs : Z) : option (Z -> label) :=
  match cs with
  | 396 => Some (fun c =>
      switch c [(58, st 333); (93, st 512)]
       (if c <? 65 then if (48 <=? c) && (c <=? 57) then st 397 else st 0
        else if c >? 70 then if (97 <=? c) && (c <=? 102) then st 397 else st 0
        else st 397))
  | 397 => Some (fun c =>
      switch c [(58, st 333); (93, st 512)]
       (if c <? 65 then if (48 <=? c) && (c <=? 57) then st 398 else st 0
        else if c >? 70 then if (97 <=? c) && (c <=? 102) then st 398 else st 0
        else st 398))
  | 398 => Some (fun c => switch c [(58, st 333); (93, st 512)] (st 0))
  | 399 => Some (fun c =>
      switch c [(46, st 294); (58, st 333); (93, st 512)]
       (if c <? 65 then if (48 <=? c) && (c <=? 57) then st 400 else st 0
        else if c >? 70 then if (97 <=? c) && (c <=? 102) then st 396 else st 0
        else st 396))
  | 400 => Some (fun c =>
      switch c [(46, st 294); (58, st 333); (93, st 512)]
       (if c <? 65 then if (48 <=? c) && (c <=? 57) then st 401 else st 0
        else if c >? 70 then if (97 <=? c) && (c <=? 102) then st 397 else st 0
        else st 397))
  | 401 => Some (fun c =>
      switch c [(46, st 294); (58, st 333); (93, st 512)]
       (if c <? 65 then if (48 <=? c) && (c <=? 57) then st 398 else st 0
        else if c >? 70 then if (97 <=? c) && (c <=? 102) then st 398 else st 0
        else st 398))
  | 402 => Some (fun c =>
      switch c [(46, st 294); (53, st 404); (58, st 333); (93, st 512)]
       (if c <? 65 then if (48 <=? c) && (c <=? 57) then st 403 else st 0
        else if c >? 70 then if (97 <=? c) && (c <=? 102) then st 396 else st 0
        else st 396))
  | 403 => Some (fun c =>
      switch c [(46, st 294); (58, st 333); (93, st 512)]
       (if c <? 65 then if (48 <=? c) && (c <=? 57) then st 397 else st 0
        else if c >? 70 then if (97 <=? c) && (c <=? 102) then st 397 else st 0
        else st 397))
  | _ => None
  end.

Definition uri_cases_63 (cs : Z) : option (Z -> label) :=
  match cs with
  | 404 => Some (fun c =>
      switch c [(46, st 294); (58, st 333); (93, st 512)]
       (if c <? 54 then if (48 <=? c) && (c <=? 53) then st 401 else st 0
        else if c >? 57 then (
          if c >? 70 then if (97 <=? c) && (c <=? 102) then st 397 else st 0
          else if c >=? 65 then st 397 else st 0)
        else st 397))
  | 405 => Some (fun c =>
      switch c [(46, st 294); (58, st 333); (93, st 512)]
       (if c <? 65 then if (48 <=? c) && (c <=? 57) then st 403 else st 0
        else if c >? 70 then if (97 <=? c) && (c <=? 102) then st 396 else st 0
        else st 396))
  | 406 => Some (fun c =>
      switch c [(58, st 333); (93, st 512)]
       (if c <? 65 then if (48 <=? c) && (c <=? 57) then st 396 else st 0
        else if c >? 70 then if (97 <=? c) && (c <=? 102) then st 396 else st 0
        else st 396))
  | 407 => Some (fun c =>
      switch c [(46, st 294); (58, st 394); (93, st 512)]
       (if c <? 65 then if (48 <=? c) && (c <=? 57) then st 408 else st 0
        else if c >? 70 then if (97 <=? c) && (c <=? 102) then st 391 else st 0
        else st 391))
  | 408 => Some (fun c =>
      switch c [(46, st 294); (58, st 394); (93, st 512)]
       (if c <? 65 then if (48 <=? c) && (c <=? 57) then st 409 else st 0
        else if c >? 70 then if (97 <=? c) && (c <=? 102) then st 392 else st 0
        else st 392))
  | 409 => Some (fun c =>
      switch c [(46, st 294); (58, st 394); (93, st 512)]
       (if c <? 65 then if (48 <=? c) && (c <=? 57) then st 393 else st 0
        else if c >? 70 then if (97 <=? c) && (c <=? 102) then st 393 else st 0
        else st 393))
  | 410 => Some (fun c =>
      switch c [(46, st 294); (53, st 412); (58, st 394); (93, st 512)]
       (if c <? 65 then if (48 <=? c) && (c <=? 57) then st 411 else st 0
        else if c >? 70 then if (97 <=? c) && (c <=? 102) then st 391 else st 0
        else st 391))
  | 411 => Some (fun c =>
      switch c [(46, st 294); (58, st 394); (93, st 512)]
       (if c <? 65 then if (48 <=? c) && (c <=? 57) then st 392 else st 0
        else if c >? 70 then if (97 <=? c) && (c <=? 102) then st 392 else st 0
        else st 392))
  | _ => None
  end.

Definition uri_cases_64 (cs : Z) : option (Z -> label) :=
  match cs with
  | 412 => Some (fun c =>
      switch c [(46, st 294); (58, st 394); (93, st 512)]
       (if c <? 54 then if (48 <=? c) && (c <=? 53) then st 409 else st 0
        else if c >? 57 then (
          if c >? 70 then if (97 <=? c) && (c <=? 102) then st 392 else st 0
          else if c >=? 65 then st 392 else st 0)
        else st 392))
  | 413 => Some (fun c =>
      switch c [(46, st 294); (58, st 394); (93, st 512)]
       (if c <? 65 then if (48 <=? c) && (c <=? 57) then st 411 else st 0
        else if c >? 70 then if (97 <=? c) && (c <=? 102) then st 391 else st 0
        else st 391))
  | 414 => Some (fun c =>
      switch c [(58, st 394); (93, st 512)]
       (if c <? 65 then if (48 <=? c) && (c <=? 57) then st 391 else st 0
        else if c >? 70 then if (97 <=? c) && (c <=? 102) then st 391 else st 0
        else st 391))
  | 415 => Some (fun c =>
      switch c [(46, st 294); (58, st 389); (93, st 512)]
       (if c <? 65 then if (48 <=? c) && (c <=? 57) then st 416 else st 0
        else if c >? 70 then if (97 <=? c) && (c <=? 102) then st 386 else st 0
        else st 386))
  | 416 => Some (fun c =>
      switch c [(46, st 294); (58, st 389); (93, st 512)]
       (if c <? 65 then if (48 <=? c) && (c <=? 57) then st 417 else st 0
        else if c >? 70 then if (97 <=? c) && (c <=? 102) then st 387 else st 0
        else st 387))
  | 417 => Some (fun c =>
      switch c [(46, st 294); (58, st 389); (93, st 512)]
       (if c <? 65 then if (48 <=? c) && (c <=? 57) then st 388 else st 0
        else if c >? 70 then if (97 <=? c) && (c <=? 102) then st 388 else st 0
        else st 388))
  | 418 => Some (fun c =>
      switch c [(46, st 294); (53, st 420); (58, st 389); (93, st 512)]
       (if c <? 65 then if (48 <=? c) && (c <=? 57) then st 419 else st 0
        else if c >? 70 then if (97 <=? c) && (c <=? 102) then st 386 else st 0
        else st 386))
  | 419 => Some (fun c =>
      switch c [(46, st 294); (58, st 389); (93, st 512)]
       (if c <? 65 then if (48 <=? c) && (c <=? 57) then st 387 else st 0
        else if c >? 70 then if (97 <=? c) && (c <=? 102) then st 387 else st 0
        else st 387))
  | _ => None
  end.

Definition uri_cases_65 (cs : Z) : option (Z -> label) :=
  match cs with
  | 420 => Some (fun c =>
      switch c [(46, st 294); (58, st 389); (93, st 512)]
       (if c <? 54 then if (48 <=? c) && (c <=? 53) then st 417 else st 0
        else if c >? 57 then (
          if c >? 70 then if (97 <=? c) && (c <=? 102) then st 387 else st 0
          else if c >=? 65 then st 387 else st 0)
        else st 387))
  | 421 => Some (fun c =>
      switch c [(46, st 294); (58, st 389); (93, st 512)]
       (if c <? 65 then if (48 <=? c) && (c <=? 57) then st 419 else st 0
        else if c >? 70 then if (97 <=? c) && (c <=? 102) then st 386 else st 0
        else st 386))
  | 422 => Some (fun c =>
      switch c [(58, st 389); (93, st 512)]
       (if c <? 65 then if (48 <=? c) && (c <=? 57) then st 386 else st 0
        else if c >? 70 then if (97 <=? c) && (c <=? 102) then st 386 else st 0
        else st 386))
  | 423 => Some (fun c =>
      switch c [(46, st 294); (58, st 384); (93, st 512)]
       (if c <? 65 then if (48 <=? c) && (c <=? 57) then st 424 else st 0
        else if c >? 70 then if (97 <=? c) && (c <=? 102) then st 381 else st 0
        else st 381))
  | 424 => Some (fun c =>
      switch c [(46, st 294); (58, st 384); (93, st 512)]
       (if c <? 65 then if (48 <=? c) && (c <=? 57) then st 425 else st 0
        else if c >? 70 then if (97 <=? c) && (c <=? 102) then st 382 else st 0
        else st 382))
  | 425 => Some (fun c =>
      switch c [(46, st 294); (58, st 384); (93, st 512)]
       (if c <? 65 then if (48 <=? c) && (c <=? 57) then st 383 else st 0
        else if c >? 70 then if (97 <=? c) && (c <=? 102) then st 383 else st 0
        else st 383))
  | 426 => Some (fun c =>
      switch c [(46, st 294); (53, st 428); (58, st 384); (93, st 512)]
       (if c <? 65 then if (48 <=? c) && (c <=? 57) then st 427 else st 0
        else if c >? 70 then if (97 <=? c) && (c <=? 102) then st 381 else st 0
        else st 381))
  | 427 => Some (fun c =>
      switch c [(46, st 294); (58, st 384); (93, st 512)]
       (if c <? 65 then if (48 <=? c) && (c <=? 57) then st 382 else st 0
        else if c >? 70 then if (97 <=? c) && (c <=? 102) then st 382 else st 0
        else st 382))
  | _ => None
  end.

Definition uri_cases_66 (cs : Z) : option (Z -> label) :=
  match cs with
  | 428 => Some (fun c =>
      switch c [(46, st 294); (58, st 384); (93, st 512)]
       (if c <? 54 then if (48 <=? c) && (c <=? 53) then st 425 else st 0
        else if c >? 57 then (
          if c >? 70 then if (97 <=? c) && (c <=? 102) then st 382 else st 0
          else if c >=? 65 then st 382 else st 0)
        else st 382))
  | 429 => Some (fun c =>
      switch c [(46, st 294); (58, st 384); (93, st 512)]
       (if c <? 65 then if (48 <=? c) && (c <=? 57) then st 427 else st 0
        else if c >? 70 then if (97 <=? c) && (c <=? 102) then st 381 else st 0
        else st 381))
  | 430 => Some (fun c =>
      switch c [(58, st 384); (93, st 512)]
       (if c <? 65 then if (48 <=? c) && (c <=? 57) then st 381 else st 0
        else if c >? 70 then if (97 <=? c) && (c <=? 102) then st 381 else st 0
        else st 381))
  | 431 => Some (fun c =>
      switch c [(46, st 294); (58, st 379); (93, st 512)]
       (if c <? 65 then if (48 <=? c) && (c <=? 57) then st 432 else st 0
        else if c >? 70 then if (97 <=? c) && (c <=? 102) then st 376 else st 0
        else st 376))
  | 432 => Some (fun c =>
      switch c [(46, st 294); (58, st 379); (93, st 512)]
       (if c <? 65 then if (48 <=? c) && (c <=? 57) then st 433 else st 0
        else if c >? 70 then if (97 <=? c) && (c <=? 102) then st 377 else st 0
        else st 377))
  | 433 => Some (fun c =>
      switch c [(46, st 294); (58, st 379); (93, st 512)]
       (if c <? 65 then if (48 <=? c) && (c <=? 57) then st 378 else st 0
        else if c >? 70 then if (97 <=? c) && (c <=? 102) then st 378 else st 0
        else st 378))
  | 434 => Some (fun c =>
      switch c [(46, st 294); (53, st 436); (58, st 379); (93, st 512)]
       (if c <? 65 then if (48 <=? c) && (c <=? 57) then st 435 else st 0
        else if c >? 70 then if (97 <=? c) && (c <=? 102) then st 376 else st 0
        else st 376))
  | 435 => Some (fun c =>
      switch c [(46, st 294); (58, st 379); (93, st 512)]
       (if c <? 65 then if (48 <=? c) && (c <=? 57) then st 377 else st 0
        else if c >? 70 then if (97 <=? c) && (c <=? 102) then st 377 else st 0
        else st 377))
  | _ => None
  end.

Definition uri_cases_67 (cs : Z) : option (Z -> label) :=
  match cs with
  | 436 => Some (fun c =>
      switch c [(46, st 294); (58, st 379); (93, st 512)]
       (if c <? 54 then if (48 <=? c) && (c <=? 53) then st 433 else st 0
        else if c >? 57 then (
          if c >? 70 then if (97 <=? c) && (c <=? 102) then st 377 else st 0
          else if c >=? 65 then st 377 else st 0)
        else st 377))
  | 437 => Some (fun c =>
      switch c [(46, st 294); (58, st 379); (93, st 512)]
       (if c <? 65 then if (48 <=? c) && (c <=? 57) then st 435 else st 0
        else if c >? 70 then if (97 <=? c) && (c <=? 102) then st 376 else st 0
        else st 376))
  | 438 => Some (fun c =>
      switch c [(58, st 379); (93, st 512)]
       (if c <? 65 then if (48 <=? c) && (c <=? 57) then st 376 else st 0
        else if c >? 70 then if (97 <=? c) && (c <=? 102) then st 376 else st 0
        else st 376))
  | 439 => Some (fun c =>
      switch c [(46, st 294); (58, st 374); (93, st 512)]
       (if c <? 65 then if (48 <=? c) && (c <=? 57) then st 440 else st 0
        else if c >? 70 then if (97 <=? c) && (c <=? 102) then st 371 else st 0
        else st 371))
  | 440 => Some (fun c =>
      switch c [(46, st 294); (58, st 374); (93, st 512)]
       (if c <? 65 then if (48 <=? c) && (c <=? 57) then st 441 else st 0
        else if c >? 70 then if (97 <=? c) && (c <=? 102) then st 372 else st 0
        else st 372))
  | 441 => Some (fun c =>
      switch c [(46, st 294); (58, st 374); (93, st 512)]
       (if c <? 65 then if (48 <=? c) && (c <=? 57) then st 373 else st 0
        else if c >? 70 then if (97 <=? c) && (c <=? 102) then st 373 else st 0
        else st 373))
  | 442 => Some (fun c =>
      switch c [(46, st 294); (53, st 444); (58, st 374); (93, st 512)]
       (if c <? 65 then if (48 <=? c) && (c <=? 57) then st 443 else st 0
        else if c >? 70 then if (97 <=? c) && (c <=? 102) then st 371 else st 0
        else st 371))
  | 443 => Some (fun c =>
      switch c [(46, st 294); (58, st 374); (93, st 512)]
       (if c <? 65 then if (48 <=? c) && (c <=? 57) then st 372 else st 0
        else if c >? 70 then if (97 <=? c) && (c <=? 102) then st 372 else st 0
        else st 372))
  | _ => None
  end.

Definition uri_cases_68 (cs : Z) : option (Z -> label) :=
  match cs with
  | 444 => Some (fun c =>
      switch c [(46, st 294); (58, st 374); (93, st 512)]
       (if c <? 54 then if (48 <=? c) && (c <=? 53) then st 441 else st 0
        else if c >? 57 then (
          if c >? 70 then if (97 <=? c) && (c <=? 102) then st 372 else st 0
          else if c >=? 65 then st 372 else st 0)
        else st 372))
  | 445 => Some (fun c =>
      switch c [(46, st 294); (58, st 374); (93, st 512)]
       (if c <? 65 then if (48 <=? c) && (c <=? 57) then st 443 else st 0
        else if c >? 70 then if (97 <=? c) && (c <=? 102) then st 371 else st 0
        else st 371))
  | 446 => Some (fun c =>
      switch c [(58, st 374); (93, st 512)]
       (if c <? 65 then if (48 <=? c) && (c <=? 57) then st 371 else st 0
        else if c >? 70 then if (97 <=? c) && (c <=? 102) then st 371 else st 0
        else st 371))
  | 447 => Some (fun c =>
      if c <? 65 then if (48 <=? c) && (c <=? 57) then st 448 else st 0
      else if c >? 70 then if (97 <=? c) && (c <=? 102) then st 448 else st 0
      else st 448)
  | 448 => Some (fun c =>
      if c =? 46 then st 449
      else if c <? 65 then if (48 <=? c) && (c <=? 57) then st 448 else st 0
      else if c >? 70 then if (97 <=? c) && (c <=? 102) then st 448 else st 0
      else st 448)
  | 449 => Some (fun c =>
      switch c [(33, st 450); (36, st 450); (61, st 450); (95, st 450); (126, st 450)]
       (if c <? 48 then if (38 <=? c) && (c <=? 46) then st 450 else st 0
        else if c >? 59 then (
          if c >? 90 then if (97 <=? c) && (c <=? 122) then st 450 else st 0
          else if c >=? 65 then st 450 else st 0)
        else st 450))
  | 450 => Some (fun c =>
      switch c [(33, st 450); (36, st 450); (61, st 450); (93, st 512); (95, st 450);
        (126, st 450)]
       (if c <? 48 then if (38 <=? c) && (c <=? 46) then st 450 else st 0
        else if c >? 59 then (
          if c >? 90 then if (97 <=? c) && (c <=? 122) then st 450 else st 0
          else if c >=? 65 then st 450 else st 0)
        else st 450))
  | _ => None
  end.

Definition uri_cases_69 (cs : Z) : option (Z -> label) :=
  match cs with
  | 542 => Some (fun c =>
      switch c [(33, st 255); (35, tr 570); (37, st 256); (47, tr 571); (61, st 255);
        (63, tr 573); (64, tr 263); (95, st 255); (126, st 255)]
       (if c <? 58 then (
          if c >? 46 then if (48 <=? c) && (c <=? 57) then st 542 else st 0
          else if c >=? 36 then st 255 else st 0)
        else if c >? 59 then (
          if c >? 90 then if (97 <=? c) && (c <=? 122) then st 255 else st 0
          else if c >=? 65 then st 255 else st 0)
        else st 255))
  | 543 => Some (fun c =>
      switch c [(33, st 520); (35, tr 559); (37, st 253); (46, st 544); (47, tr 560);
        (58, tr 576); (61, st 520); (63, tr 562); (64, tr 263); (95, st 520); (126, st 520)]
       (if c <? 65 then if (36 <=? c) && (c <=? 59) then st 520 else st 0
        else if c >? 90 then if (97 <=? c) && (c <=? 122) then st 520 else st 0
        else st 520))
  | 544 => Some (fun c =>
      switch c [(2, st 233); (33, st 520); (35, tr 559); (37, st 253); (47, tr 560);
        (48, st 545); (49, st 553); (50, st 555); (58, tr 576); (59, st 520); (61, st 520);
        (63, tr 562); (64, tr 263); (95, st 520); (126, st 520)]
       (if c <? 51 then if (36 <=? c) && (c <=? 46) then st 520 else st 0
        else if c >? 57 then (
          if c >? 90 then if (97 <=? c) && (c <=? 122) then st 520 else st 0
          else if c >=? 65 then st 520 else st 0)
        else st 554))
  | 545 => Some (fun c =>
      switch c [(33, st 520); (35, tr 559); (37, st 253); (46, st 546); (47, tr 560);
        (58, tr 576); (61, st 520); (63, tr 562); (64, tr 263); (95, st 520); (126, st 520)]
       (if c <? 65 then if (36 <=? c) && (c <=? 59) then st 520 else st 0
        else if c >? 90 then if (97 <=? c) && (c <=? 122) then st 520 else st 0
        else st 520))
  | _ => None
  end.

Definition uri_cases_70 (cs : Z) : option (Z -> label) :=
  match cs with
  | 546 => Some (fun c =>
      switch c [(2, st 237); (33, st 520); (35, tr 559); (37, st 253); (47, tr 560);
        (48, st 547); (49, st 549); (50, st 551); (58, tr 576); (59, st 520); (61, st 520);
        (63, tr 562); (64, tr 263); (95, st 520); (126, st 520)]
       (if c <? 51 then if (36 <=? c) && (c <=? 46) then st 520 else st 0
        else if c >? 57 then (
          if c >? 90 then if (97 <=? c) && (c <=? 122) then st 520 else st 0
          else if c >=? 65 then st 520 else st 0)
        else st 550))
  | 547 => Some (fun c =>
      switch c [(33, st 520); (35, tr 559); (37, st 253); (46, st 548); (47, tr 560);
        (58, tr 576); (61, st 520); (63, tr 562); (64, tr 263); (95, st 520); (126, st 520)]
       (if c <? 65 then if (36 <=? c) && (c <=? 59) then st 520 else st 0
        else if c >? 90 then if (97 <=? c) && (c <=? 122) then st 520 else st 0
        else st 520))
  | 548 => Some (fun c =>
      switch c [(2, st 241); (33, st 520); (35, tr 559); (37, st 253); (47, tr 560);
        (58, tr 576); (61, st 520); (63, tr 562); (64, tr 263); (95, st 520); (126, st 520)]
       (if c <? 65 then if (36 <=? c) && (c <=? 59) then st 520 else st 0
        else if c >? 90 then if (97 <=? c) && (c <=? 122) then st 520 else st 0
        else st 520))
  | 549 => Some (fun c =>
      switch c [(33, st 520); (35, tr 559); (37, st 253); (46, st 548); (47, tr 560);
        (58, tr 576); (59, st 520); (61, st 520); (63, tr 562); (64, tr 263); (95, st 520);
        (126, st 520)]
       (if c <? 48 then if (36 <=? c) && (c <=? 45) then st 520 else st 0
        else if c >? 57 then (
          if c >? 90 then if (97 <=? c) && (c <=? 122) then st 520 else st 0
          else if c >=? 65 then st 520 else st 0)
        else st 550))
  | 550 => Some (fun c =>
      switch c [(33, st 520); (35, tr 559); (37, st 253); (46, st 548); (47, tr 560);
        (58, tr 576); (59, st 520); (61, st 520); (63, tr 562); (64, tr 263); (95, st 520);
        (126, st 520)]
       (if c <? 48 then if (36 <=? c) && (c <=? 45) then st 520 else st 0
        else if c >? 57 then (
          if c >? 90 then if (97 <=? c) && (c <=? 122) then st 520 else st 0
          else if c >=? 65 then st 520 else st 0)
        else st 547))
  | _ => None
  end.

Definition uri_cases_71 (cs : Z) : option (Z -> label) :=
  match cs with
  | 551 => Some (fun c =>
      switch c [(33, st 520); (35, tr 559); (37, st 253); (46, st 548); (47, tr 560);
        (53, st 552); (58, tr 576); (59, st 520); (61, st 520); (63, tr 562); (64, tr 263);
        (95, st 520); (126, st 520)]
       (if c <? 48 then if (36 <=? c) && (c <=? 45) then st 520 else st 0
        else if c >? 57 then (
          if c >? 90 then if (97 <=? c) && (c <=? 122) then st 520 else st 0
          else if c >=? 65 then st 520 else st 0)
        else st 547))
  | 552 => Some (fun c =>
      switch c [(33, st 520); (35, tr 559); (37, st 253); (46, st 548); (47, tr 560);
        (58, tr 576); (61, st 520); (63, tr 562); (64, tr 263); (95, st 520); (126, st 520)]
       (if c <? 54 then (
          if c >? 45 then if (48 <=? c) && (c <=? 53) then st 547 else st 0
          else if c >=? 36 then st 520 else st 0)
        else if c >? 59 then (
          if c >? 90 then if (97 <=? c) && (c <=? 122) then st 520 else st 0
          else if c >=? 65 then st 520 else st 0)
        else st 520))
  | 553 => Some (fun c =>
      switch c [(33, st 520); (35, tr 559); (37, st 253); (46, st 546); (47, tr 560);
        (58, tr 576); (59, st 520); (61, st 520); (63, tr 562); (64, tr 263); (95, st 520);
        (126, st 520)]
       (if c <? 48 then if (36 <=? c) && (c <=? 45) then st 520 else st 0
        else if c >? 57 then (
          if c >? 90 then if (97 <=? c) && (c <=? 122) then st 520 else st 0
          else if c >=? 65 then st 520 else st 0)
        else st 554))
  | 554 => Some (fun c =>
      switch c [(33, st 520); (35, tr 559); (37, st 253); (46, st 546); (47, tr 560);
        (58, tr 576); (59, st 520); (61, st 520); (63, tr 562); (64, tr 263); (95, st 520);
        (126, st 520)]
       (if c <? 48 then if (36 <=? c) && (c <=? 45) then st 520 else st 0
        else if c >? 57 then (
          if c >? 90 then if (97 <=? c) && (c <=? 122) then st 520 else st 0
          else if c >=? 65 then st 520 else st 0)
        else st 545))
  | _ => None
  end.

Definition uri_cases_72 (cs : Z) : option (Z -> label) :=
  match cs with
  | 555 => Some (fun c =>
      switch c [(33, st 520); (35, tr 559); (37, st 253); (46, st 546); (47, tr 560);
        (53, st 556); (58, tr 576); (59, st 520); (61, st 520); (63, tr 562); (64, tr 263);
        (95, st 520); (126, st 520)]
       (if c <? 48 then if (36 <=? c) && (c <=? 45) then st 520 else st 0
        else if c >? 57 then (
          if c >? 90 then if (97 <=? c) && (c <=? 122) then st 520 else st 0
          else if c >=? 65 then st 520 else st 0)
        else st 545))
  | 556 => Some (fun c =>
      switch c [(33, st 520); (35, tr 559); (37, st 253); (46, st 546); (47, tr 560);
        (58, tr 576); (61, st 520); (63, tr 562); (64, tr 263); (95, st 520); (126, st 520)]
       (if c <? 54 then (
          if c >? 45 then if (48 <=? c) && (c <=? 53) then st 545 else st 0
          else if c >=? 36 then st 520 else st 0)
        else if c >? 59 then (
          if c >? 90 then if (97 <=? c) && (c <=? 122) then st 520 else st 0
          else if c >=? 65 then st 520 else st 0)
        else st 520))
  | 557 => Some (fun c =>
      switch c [(33, st 520); (35, tr 559); (37, st 253); (46, st 544); (47, tr 560);
        (58, tr 576); (59, st 520); (61, st 520); (63, tr 562); (64, tr 263); (95, st 520);
        (126, st 520)]
       (if c <? 48 then if (36 <=? c) && (c <=? 45) then st 520 else st 0
        else if c >? 57 then (
          if c >? 90 then if (97 <=? c) && (c <=? 122) then st 520 else st 0
          else if c >=? 65 then st 520 else st 0)
        else st 558))
  | 558 => Some (fun c =>
      switch c [(33, st 520); (35, tr 559); (37, st 253); (46, st 544); (47, tr 560);
        (58, tr 576); (59, st 520); (61, st 520); (63, tr 562); (64, tr 263); (95, st 520);
        (126, st 520)]
       (if c <? 48 then if (36 <=? c) && (c <=? 45) then st 520 else st 0
        else if c >? 57 then (
          if c >? 90 then if (97 <=? c) && (c <=? 122) then st 520 else st 0
          else if c >=? 65 then st 520 else st 0)
        else st 543))
  | _ => None
  end.

Definition uri_cases_73 (cs : Z) : option (Z -> label) :=
  match cs with
  | 559 => Some (fun c =>
      switch c [(33, st 520); (35, tr 559); (37, st 253); (46, st 544); (47, tr 560);
        (53, st 560); (58, tr 576); (59, st 520); (61, st 520); (63, tr 562); (64, tr 263);
        (95, st 520); (126, st 520)]
       (if c <? 48 then if (36 <=? c) && (c <=? 45) then st 520 else st 0
        else if c >? 57 then (
          if c >? 90 then if (97 <=? c) && (c <=? 122) then st 520 else st 0
          else if c >=? 65 then st 520 else st 0)
        else st 543))
  | 560 => Some (fun c =>
      switch c [(33, st 520); (35, tr 559); (37, st 253); (46, st 544); (47, tr 560);
        (58, tr 576); (61, st 520); (63, tr 562); (64, tr 263); (95, st 520); (126, st 520)]
       (if c <? 54 then (
          if c >? 45 then if (48 <=? c) && (c <=? 53) then st 543 else st 0
          else if c >=? 36 then st 520 else st 0)
        else if c >? 59 then (
          if c >? 90 then if (97 <=? c) && (c <=? 122) then st 520 else st 0
          else if c >=? 65 then st 520 else st 0)
        else st 520))
  | _ => None
  end.

(** *** The transitions with actions: labels [trN] *)

Definition uri_tr (n : Z) : list action * Z :=
  match n with
  | 38 => ([save_userinfo], 469)
  | 263 => ([save_userinfo], 522)
  | 461 => ([marku], 508)
  | 462 => ([marku], 454)
  | 463 => ([marku], 1)
  | 466 => ([marku], 457)
  | 467 => ([marku; save_query], 453)
  | 468 => ([marku], 7)
  | 469 => ([save_query], 453)
  | 472 => ([markh], 9)
  | 473 => ([markh], 467)
  | 474 => ([markh; save_host], 453)
  | 475 => ([markh], 31)
  | 476 => ([markh; save_host], 455)
  | 477 => ([markh], 490)
  | 478 => ([markh], 504)
  | 479 => ([markh], 506)
  | 480 => ([markh], 505)
  | 481 => ([markh; save_host], 468)
  | 482 => ([markh; save_host], 456)
  | 483 => ([markh; save_userinfo], 469)
  | 484 => ([markh], 38)
  | 485 => ([save_host], 453)
  | 486 => ([save_host], 455)
  | 487 => ([save_host], 461)
  | 488 => ([save_host], 456)
  | 489 => ([markh; save_port], 453)
  | 490 => ([markh; save_port], 455)
  | 491 => ([markh], 462)
  | 492 => ([markh; save_port], 456)
  | 493 => ([save_port], 453)
  | 494 => ([save_port], 455)
  | 496 => ([save_port], 456)
  | 499 => ([save_host], 468)
  | 500 => ([markh], 489)
  | 501 => ([markh], 470)
  | 502 => ([markh], 36)
  | 503 => ([markh], 471)
  | 504 => ([markh], 485)
  | 505 => ([markh], 487)
  | 506 => ([markh], 486)
  | 507 => ([markh; save_host], 461)
  | 543 => ([save_scheme], 509)
  | 546 => ([markh], 229)
  | 547 => ([markh], 520)
  | 548 => ([markh; save_host; save_path], 453)
  | 549 => ([markh], 253)
  | 550 => ([markh; save_host], 513)
  | 551 => ([markh], 543)
  | 552 => ([markh], 557)
  | 553 => ([markh], 559)
  | 554 => ([markh], 558)
  | 555 => ([markh; save_host], 521)
  | 556 => ([markh; save_host; save_path], 456)
  | 557 => ([markh; save_userinfo], 522)
  | 558 => ([markh], 260)
  | 559 => ([save_host; markh; save_path], 453)
  | 560 => ([save_host; markh], 513)
  | 561 => ([save_host], 514)
  | 562 => ([save_host; markh; save_path], 456)
  | 563 => ([save_path], 453)
  | 565 => ([save_path], 456)
  | 566 => ([markh; save_port; save_path], 453)
  | 567 => ([markh; save_port], 513)
  | 568 => ([markh], 515)
  | 569 => ([markh; save_port; save_path], 456)
  | 570 => ([save_port; markh; save_path], 453)
  | 571 => ([save_port; markh], 513)
  | 573 => ([save_port; markh; save_path], 456)
  | 576 => ([save_host], 521)
  | 577 => ([markh], 542)
  | 578 => ([markh], 523)
  | 579 => ([markh], 258)
  | 580 => ([markh], 524)
  | 581 => ([markh], 538)
  | 582 => ([markh], 540)
  | 583 => ([markh], 539)
  | 584 => ([markh; save_host], 514)
  | _ => ([], 0)
  end.

(** The case of a state, in the order of the source. *)
Definition uri_case (cs : Z) : option (Z -> label) :=
  first_case [uri_cases_1; uri_cases_2; uri_cases_3; uri_cases_4;
    uri_cases_5; uri_cases_6; uri_cases_7; uri_cases_8;
    uri_cases_9; uri_cases_10; uri_cases_11; uri_cases_12;
    uri_cases_13; uri_cases_14; uri_cases_15; uri_cases_16;
    uri_cases_17; uri_cases_18; uri_cases_19; uri_cases_20;
    uri_cases_21; uri_cases_22; uri_cases_23; uri_cases_24;
    uri_cases_25; uri_cases_26; uri_cases_27; uri_cases_28;
    uri_cases_29; uri_cases_30; uri_cases_31; uri_cases_32;
    uri_cases_33; uri_cases_34; uri_cases_35; uri_cases_36;
    uri_cases_37; uri_cases_38; uri_cases_39; uri_cases_40;
    uri_cases_41; uri_cases_42; uri_cases_43; uri_cases_44;
    uri_cases_45; uri_cases_46; uri_cases_47; uri_cases_48;
    uri_cases_49; uri_cases_50; uri_cases_51; uri_cases_52;
    uri_cases_53; uri_cases_54; uri_cases_55; uri_cases_56;
    uri_cases_57; uri_cases_58; uri_cases_59; uri_cases_60;
    uri_cases_61; uri_cases_62; uri_cases_63; uri_cases_64;
    uri_cases_65; uri_cases_66; uri_cases_67; uri_cases_68;
    uri_cases_69; uri_cases_70; uri_cases_71; uri_cases_72;
    uri_cases_73] cs.

Definition uri_machine : machine action :=
  Machine (uri_case) uri_tr 452
    (fun a => false).

End UriMachine.
