(* ===== verification/Httptext.v ===== *)
(** * Httptext: the pieces of text requests and responses share

    Character classes, header lines, and the [http_field] calls that a block of
    header lines stands for. *)
From S2P Require Import Prelude Util Cstring.
Import StdString.

Module HttpText.

Export CharClass.

(** A token of RFC 7230. *)
Definition token_char (b : ascii) : bool :=
  alpha b || digit b || one_of (of_lit "!#$%&'*+-.^_`|~") b.
Definition blank (b : ascii) : bool := one_of (of_lit " " ++ ["009"%char]) b.

Definition eol : list ascii := ["013"; "010"]%char.
Definition version_text (minor : ascii) : list ascii := of_lit "HTTP/1." ++ [minor].

(** A header line: name, blanks after the colon, value. *)
Definition header : Type := list ascii * list ascii * list ascii.
Definition header_line (h : header) : list ascii :=
  let '(name, bl, value) := h in name ++ ":"%char :: bl ++ value ++ eol.
Definition headers_text (hs : list header) : list ascii := concat (header_line <$> hs).

Lemma size_header_line name bl v :
  size (header_line (name, bl, v)) = size name + 1 + size bl + size v + 2.
Proof. cbn [header_line]. rewrite length_app. cbn [length]. rewrite !length_app. cbn. lia. Qed.

Lemma headers_text_cons h hs : headers_text (h :: hs) = header_line h ++ headers_text hs.
Proof. done. Qed.

Lemma headers_text_app hs hs' : headers_text (hs ++ hs') = headers_text hs ++ headers_text hs'.
Proof. unfold headers_text. by rewrite fmap_app, concat_app. Qed.

(** The [http_field] calls for header lines that begin at [p] of [buffer]. *)
Fixpoint header_calls {D} (fh : list ascii → Z → Z → Z → Z → M D unit) (buffer : list ascii)
    (p : Z) (hs : list header) : M D unit :=
  match hs with
  | [] => ret tt
  | (name, bl, value) :: hs =>
      fh buffer p (size name) (p + size name + 1 + size bl) (size value) ;!
      header_calls fh buffer (p + size name + 1 + size bl + size value + 2) hs
  end.

(** A callback that only looks at the name and the value it points to. *)
Lemma header_calls_fold {D} (fh : list ascii → Z → Z → Z → Z → M D unit) buffer
    (upd : list ascii → list ascii → D → D) hs pre post d :
  (∀ pre1 name post1 pre2 v post2 d,
     buffer = pre1 ++ name ++ post1 → buffer = pre2 ++ v ++ post2 → name ≠ [] →
     fh buffer (size pre1) (size name) (size pre2) (size v) d = Ret tt (upd name v d)) →
  buffer = pre ++ headers_text hs ++ post → Forall (λ h : header, h.1.1 ≠ []) hs →
  header_calls fh buffer (size pre) hs d = Ret tt (foldl (λ d h, upd h.1.1 h.2 d) d hs).
Proof.
  intros Hfh. revert pre d. induction hs as [|[[name bl] v] hs IH]; intros pre d Hbuf Hh; [done|].
  rewrite headers_text_cons in Hbuf. inversion_clear Hh as [|? ? Hne Hh']. cbn [header_line] in Hbuf.
  cbn [header_calls foldl fst snd]. unfold bind.
  replace (size pre + size name + 1 + size bl) with (size (pre ++ name ++ ":"%char :: bl))
    by (rewrite !length_app; cbn [length]; lia).
  rewrite (Hfh pre name (":"%char :: bl ++ v ++ eol ++ headers_text hs ++ post) _ v
    (eol ++ headers_text hs ++ post) d); [|rewrite Hbuf; by app_right..|done].
  replace (size (pre ++ name ++ ":"%char :: bl) + size v + 2)
    with (size (pre ++ header_line (name, bl, v)))
    by (rewrite !length_app; pose proof (size_header_line name bl v); cbn [length]; lia).
  apply IH; [|done]. rewrite Hbuf. cbn [header_line]. by app_right.
Qed.

End HttpText.
