(* ===== verification/Http11text.v ===== *)
(** * Http11text: requests as text, and what the parser makes of them

    A [Request] is what the text of a request says; [request_head] writes it
    down.  [execute_request] shows that [http_parser_execute] calls exactly the
    callbacks of the request's parts, in order, each with its place in the
    buffer, and stops behind the empty line. *)
From S2P Require Import Prelude Util Ragel Http11machine Http11 Httptext.
Import Ragel Http11.

Module Http11Text.

Import StdString.
Export HttpText.
#[local] Existing Instance A.action_eq_dec.

(** *** Character classes of the grammar *)

(** [pchar] without escapes, with the bytes above 127 the grammar adds. *)
Definition pchar (relaxed : bool) (b : ascii) : bool :=
  between 128 255 b || alpha b || digit b || one_of (of_lit "-._~!$&'()*+,;=:@") b ||
  relaxed && one_of (of_lit "{}^") b.
Definition pathc (relaxed : bool) (b : ascii) : bool := pchar relaxed b || Ascii.eqb b "/".
Definition queryc (relaxed : bool) (b : ascii) : bool := pathc relaxed b || Ascii.eqb b "?".

Definition method_char (b : ascii) : bool := upper b || digit b.
(** What a header's value may hold after the blanks before it. *)
Definition value_char (b : ascii) : bool := negb (one_of ["000"; "010"; "013"; "127"]%char b).
Definition value_text (v : list ascii) : bool :=
  forallb value_char v && match v with [] => true | b :: _ => negb (blank b) end.

(** *** Requests *)

Record Request := {
  rq_method : list ascii;
  rq_path : list ascii;
  rq_query : option (list ascii);
  rq_fragment : option (list ascii);
  rq_minor : ascii;
  (** name, blanks after the colon, value *)
  rq_headers : list header;
}.

Definition query_part (r : Request) : list ascii := from_option (cons "?"%char) [] (rq_query r).
Definition fragment_part (r : Request) : list ascii := from_option (cons "#"%char) [] (rq_fragment r).
Definition request_head (r : Request) : list ascii :=
  rq_method r ++ " "%char :: rq_path r ++ query_part r ++ fragment_part r ++ " "%char ::
  version_text (rq_minor r) ++ eol ++ headers_text (rq_headers r) ++ eol.

(** *** Requests the grammar's usual form accepts *)

Definition path_text (relaxed : bool) (p : list ascii) : bool :=
  match p with
  | b :: p => Ascii.eqb b "/" && pct_text (pathc relaxed) p &&
              match p with [] => true | b :: _ => negb (Ascii.eqb b "/") end
  | [] => false
  end.
Definition header_text (h : header) : bool :=
  let '(name, bl, value) := h in
  negb (bool_decide (name = [])) && forallb token_char name && forallb blank bl && value_text value.
Definition opt_all {X} (p : X → bool) (o : option X) : bool := from_option p true o.

Definition well_formed (relaxed : bool) (r : Request) : bool :=
  forallb method_char (rq_method r) &&
  (1 <=? Z.of_nat (length (rq_method r))) && (Z.of_nat (length (rq_method r)) <=? 20) &&
  path_text relaxed (rq_path r) &&
  opt_all (pct_text (queryc relaxed)) (rq_query r) &&
  opt_all (pct_text (queryc relaxed)) (rq_fragment r) &&
  one_of (of_lit "01") (rq_minor r) &&
  forallb header_text (rq_headers r).

Section execute.
Context {D : Type}.
Context (fh : field_cb D) (fm fu ff fp fq fv fd : element_cb D).
Context (buffer : list ascii) (len : Z).
Implicit Types s : http_parser D.

Definition cb : callbacks D :=
  Callbacks (Some fh) (Some fm) (Some fu) (Some ff) (Some fp) (Some fq) (Some fv) (Some fd).

Abbreviation run_from relaxed := (exec (machine relaxed) (act cb buffer len)).

(** *** The callbacks of a request, with their places in the buffer *)

Definition target_calls (p : Z) (r : Request) : M D unit :=
  fp buffer p (size (rq_path r)) ;!
  match rq_query r with
  | Some q =>
      fq buffer (p + size (rq_path r) + 1) (size q) ;!
      fu buffer p (size (rq_path r) + 1 + size q)
  | None => fu buffer p (size (rq_path r))
  end ;!
  match rq_fragment r with
  | Some f => ff buffer (p + size (rq_path r) + size (query_part r) + 1) (size f)
  | None => ret tt
  end.

(** Where the parts of a request begin. *)
Definition target_at (r : Request) : Z := size (rq_method r) + 1.
Definition version_at (r : Request) : Z :=
  target_at r + size (rq_path r) + size (query_part r) + size (fragment_part r) + 1.
Definition headers_at (r : Request) : Z := version_at r + 10.

Definition request_calls (r : Request) : M D unit :=
  fm buffer 0 (size (rq_method r)) ;!
  target_calls (target_at r) r ;!
  fv buffer (version_at r) 8 ;!
  header_calls fh buffer (headers_at r) (rq_headers r) ;!
  fd buffer (size (request_head r)) (len - size (request_head r)).

(** *** Bookkeeping: what the pieces leave alone *)

Definition kept s s' : Prop :=
  cs s' = cs s ∧ nread s' = nread s ∧ uri_relaxed s' = uri_relaxed s ∧
  xml_sent s' = xml_sent s ∧ json_sent s' = json_sent s ∧ body_start s' = body_start s.
Abbreviation tidy := (tidy len).

Lemma kept_trans s1 s2 s3 : kept s1 s2 → kept s2 s3 → kept s1 s3.
Proof. unfold kept. intros. destruct_and?. split_and!; congruence. Qed.

(** A callback on the text since the last mark. *)
Lemma call_marked_ret f p s d :
  0 ≤ mark s ≤ p → p < 2 ^ 64 →
  f buffer (mark s) (p - mark s) (data s) = Ret tt d →
  (let! _ := call_marked buffer (Some f) p in ret false) s = Ret false (set_data d s).
Proof.
  intros Hm Hp Hf. unfold bind, call_marked. rewrite bind_get. unfold LEN.
  rewrite wrap_small by (unfold in_u; lia). cbn [call]. unfold on_data. by rewrite Hf.
Qed.

(** *** The method *)

(** The states that count the characters of a method. *)
Definition method_states : list Z := [2; 175; 176; 177; 178; 179; 180; 181; 182; 183; 184;
  185; 186; 187; 188; 189; 190; 191; 192; 193].

Definition method_steps (relaxed : bool) (ns : list Z) : bool :=
  forallb (λ n, class_step (machine relaxed) (Ascii.eqb " ") n [A.request_method] 3) ns &&
  forallb (λ '(n, n'), class_step (machine relaxed) method_char n [] n') (zip ns (tail ns)).

Lemma method_chain relaxed ns n w p rest s :
  method_steps relaxed (n :: ns) = true → 0 ∉ n :: ns → forallb method_char w = true →
  (length w ≤ length ns)%nat →
  ∃ n', class_step (machine relaxed) (Ascii.eqb " ") n' [A.request_method] 3 = true ∧
    run_from relaxed n p (w ++ rest) s = run_from relaxed n' (p + size w) rest s.
Proof.
  revert n p w. induction ns as [|n1 ns IH]; intros n p w Hs H0 Hw Hl.
  - destruct w; [|cbn in Hl; lia]. exists n.
    apply andb_prop in Hs as [Hs _]. apply andb_prop in Hs as [Hs _].
    split; [done|]. cbn. by rewrite Z.add_0_r.
  - apply andb_prop in Hs as [Hsp Hst]. cbn [forallb tail zip] in Hsp, Hst.
    apply not_elem_of_cons in H0 as [_ H0].
    apply andb_prop in Hsp as [Hsp1 Hsp]. apply andb_prop in Hst as [Hst1 Hst].
    destruct w as [|b w].
    + exists n. split; [done|]. cbn. by rewrite Z.add_0_r.
    + cbn in Hw, Hl. apply andb_prop in Hw as [Hb Hw].
      destruct (IH n1 (p + 1) w) as (n' & Hn' & He); [|done|done|lia|].
      { unfold method_steps. by rewrite andb_true_iff. }
      exists n'. split; [done|]. cbn [app].
      rewrite (exec_cons _ _ n _ _ _ [] n1).
      * cbn [actions]. unfold bind, ret. rewrite He. f_equal. cbn [length]. lia.
      * by apply (class_step_spec _ _ _ _ _ _ Hst1).
      * apply not_elem_of_cons in H0 as [? _]. congruence.
Qed.

Lemma exec_method relaxed m p rest s d :
  forallb method_char m = true → 1 ≤ size m ≤ 20 → 0 ≤ p → p + size m < len → len < 2 ^ 31 →
  tidy s → fm buffer p (size m) (data s) = Ret tt d →
  ∃ s', run_from relaxed 1 p (m ++ " "%char :: rest) s = run_from relaxed 3 (p + size m + 1) rest s' ∧
    kept s s' ∧ tidy s' ∧ data s' = d.
Proof.
  intros Hm Hl Hp Hpl Hlen (Ht1 & Ht2 & Ht3) Hf. destruct m as [|b m]; [cbn in Hl; lia|].
  cbn in Hm. apply andb_prop in Hm as [Hb Hm]. cbn [app].
  rewrite (exec_step _ _ 1 p b _ [A.mark] 2 s (set_mark p s)); [|
    apply (class_step_spec _ method_char 1 [A.mark] 2); [destruct relaxed; by vm_compute|done]|done..].
  destruct (method_chain relaxed (tail method_states) 2 m (p + 1) (" "%char :: rest) (set_mark p s))
    as (n' & Hn' & ->); [destruct relaxed; by vm_compute|by apply (bool_decide_unpack _); vm_compute
      |done|cbn in Hl |- *; lia|].
  cbn [length] in *.
  rewrite (exec_step _ _ n' _ _ _ [A.request_method] 3 _ (set_data d (set_mark p s)));
    [|by apply (class_step_spec _ _ _ _ _ _ Hn')|done|].
  2:{ rewrite (actions_cons _ _ _ _ _ (set_data d (set_mark p s))); [done|].
      apply call_marked_ret; [cbn; lia|lia|]. cbn. rewrite <- Hf. f_equal. lia. }
  eexists. split; [f_equal; lia|]. split; [done|]. split; [unfold tidy; cbn; lia|done].
Qed.

(** *** The target *)

(** What ends a path, from the states that read one. *)
Definition path_end (relaxed : bool) (n : Z) : bool :=
  class_step (machine relaxed) (Ascii.eqb " ") n [A.request_path; A.request_uri] 4 &&
  class_step (machine relaxed) (Ascii.eqb "#") n [A.request_path; A.request_uri] 20 &&
  class_step (machine relaxed) (Ascii.eqb "?") n [A.request_path] 29.

Lemma exec_path relaxed w p rest s :
  path_text relaxed w = true →
  ∃ n, path_end relaxed n = true ∧
    run_from relaxed 3 p (w ++ rest) s = run_from relaxed n (p + size w) rest (set_mark p s).
Proof.
  destruct w as [|b w]; [done|]. cbn [path_text].
  rewrite !andb_true_iff. intros [[->%Ascii.eqb_eq Hw] Hs]. cbn [app].
  rewrite (exec_step _ _ 3 p _ _ [A.mark] 33 s (set_mark p s));
    [|destruct relaxed; by vm_compute|done..].
  destruct w as [|b' w].
  - exists 33. split; [destruct relaxed; by vm_compute|done].
  - exists 26. split; [destruct relaxed; by vm_compute|].
    rewrite (exec_pct_entry _ _ (pathc relaxed) (λ b, pathc relaxed b && negb (Ascii.eqb b "/"))
      33 [] 26 27 28 (p + 1) (b' :: w) rest _ (set_mark p s));
      [f_equal; cbn [length]; lia|destruct relaxed; by vm_compute..|done| |done].
    exists b', w. split; [done|]. intros ->. done.
Qed.

Lemma exec_query relaxed q t n p rest s d1 d :
  class_step (machine relaxed) (Ascii.eqb t) 29 [A.start_query; A.query_string; A.request_uri] n &&
  class_step (machine relaxed) (Ascii.eqb t) 30 [A.query_string; A.request_uri] n = true → n ≠ 0 →
  pct_text (queryc relaxed) q = true → 0 ≤ mark s ≤ p → p + size q < len → len < 2 ^ 31 →
  fq buffer p (size q) (data s) = Ret tt d1 →
  fu buffer (mark s) (p + size q - mark s) d1 = Ret tt d →
  run_from relaxed 29 p (q ++ t :: rest) s =
  run_from relaxed n (p + size q + 1) rest (set_data d (set_query_start p s)).
Proof.
  intros [Ht Ht']%andb_prop Hn Hq Hm Hp Hl Hfq Hfu.
  assert (∀ s', data s' = data s → mark s' = mark s → query_start s' = p →
    actions (act cb buffer len) [A.query_string; A.request_uri] (p + size q) s' =
    Ret false (set_data d s')) as Hend.
  { intros s' Hd Hm' Hs'.
    rewrite (actions_cons _ _ _ _ _ (set_data d1 s')).
    - rewrite (actions_cons _ _ _ _ _ (set_data d s')); [done|].
      change (set_data d s') with (set_data d (set_data d1 s')).
      rewrite <- Hm' in Hm, Hfu.
      by apply (call_marked_ret fu (p + size q) (set_data d1 s') d); [cbn [mark set_data]; lia|lia|].
    - cbn [act]. unfold bind at 1. rewrite bind_get. unfold LEN.
      rewrite Hs', wrap_small by (unfold in_u; lia). cbn [cb query_string call]. unfold on_data.
      replace (p + size q - p) with (size q) by lia. by rewrite Hd, Hfq. }
  destruct q as [|b q].
  - cbn [app length] in *. rewrite Z.add_0_r in *.
    rewrite (exec_step _ _ 29 p t _ [A.start_query; A.query_string; A.request_uri] n _ (set_data d (set_query_start p s)));
      [done|by apply (class_step_spec _ _ _ _ _ _ Ht), Ascii.eqb_refl|done|].
    rewrite (actions_cons _ _ _ _ _ (set_query_start p s)) by done. by apply Hend.
  - rewrite (exec_pct_entry _ _ (queryc relaxed) (queryc relaxed) 29 [A.start_query] 30 31 32 p
      (b :: q) _ s (set_query_start p s)); [|destruct relaxed; by vm_compute..|done|by eauto|done].
    rewrite (exec_step _ _ 30 _ t _ [A.query_string; A.request_uri] n _ (set_data d (set_query_start p s)));
      [done|by apply (class_step_spec _ _ _ _ _ _ Ht'), Ascii.eqb_refl|done|]. by apply Hend.
Qed.

Lemma exec_fragment relaxed w p rest s d :
  pct_text (queryc relaxed) w = true → 0 ≤ p → p + size w < len → len < 2 ^ 31 →
  ff buffer p (size w) (data s) = Ret tt d →
  run_from relaxed 20 p (w ++ " "%char :: rest) s =
  run_from relaxed 4 (p + size w + 1) rest (set_data d (set_mark p s)).
Proof.
  intros Hw Hp Hpl Hl Hf.
  assert (actions (act cb buffer len) [A.fragment] (p + size w) (set_mark p s) =
    Ret false (set_data d (set_mark p s))) as Hend.
  { rewrite (actions_cons _ _ _ _ _ (set_data d (set_mark p s))); [done|].
    apply (call_marked_ret ff); cbn; [lia|lia|]. by replace (p + size w - p) with (size w) by lia. }
  destruct w as [|b w].
  - cbn [app length] in *. rewrite Z.add_0_r in *.
    rewrite (exec_step _ _ 20 p _ _ [A.mark; A.fragment] 4 _ (set_data d (set_mark p s)));
      [done|destruct relaxed; by vm_compute|done|].
    by rewrite (actions_cons _ _ _ _ _ (set_mark p s)).
  - rewrite (exec_pct_entry _ _ (queryc relaxed) (queryc relaxed) 20 [A.mark] 21 22 23 p
      (b :: w) _ s (set_mark p s)); [|destruct relaxed; by vm_compute..|done|by eauto|done].
    rewrite (exec_step _ _ 21 _ _ _ [A.fragment] 4 _ (set_data d (set_mark p s)));
      [done|destruct relaxed; by vm_compute|done..].
Qed.

Lemma path_calls p e s d1 d :
  0 ≤ p ≤ e → e < 2 ^ 64 → mark s = p →
  fp buffer p (e - p) (data s) = Ret tt d1 → fu buffer p (e - p) d1 = Ret tt d →
  actions (act cb buffer len) [A.request_path; A.request_uri] e s = Ret false (set_data d s).
Proof.
  intros Hp He Hm Hfp Hfu. rewrite (actions_cons _ _ _ _ _ (set_data d1 s)).
  - rewrite (actions_cons _ _ _ _ _ (set_data d s)); [done|].
    change (set_data d s) with (set_data d (set_data d1 s)).
    apply (call_marked_ret fu e (set_data d1 s)); cbn [mark set_data data]; rewrite ?Hm; done.
  - apply (call_marked_ret fp e s); rewrite ?Hm; done.
Qed.

Lemma exec_target relaxed r p rest s d :
  path_text relaxed (rq_path r) = true → opt_all (pct_text (queryc relaxed)) (rq_query r) = true →
  opt_all (pct_text (queryc relaxed)) (rq_fragment r) = true → 0 ≤ p →
  p + size (rq_path r) + size (query_part r) + size (fragment_part r) < len → len < 2 ^ 31 →
  tidy s → target_calls p r (data s) = Ret tt d →
  ∃ s', run_from relaxed 3 p (rq_path r ++ query_part r ++ fragment_part r ++ " "%char :: rest) s =
    run_from relaxed 4 (p + size (rq_path r) + size (query_part r) + size (fragment_part r) + 1) rest s' ∧
    kept s s' ∧ tidy s' ∧ data s' = d.
Proof.
  intros Hpath Hq Hf Hp Hl Hlen (T1 & T2 & T3) Hc. set (e := p + size (rq_path r)) in *.
  destruct (exec_path relaxed (rq_path r) p (query_part r ++ fragment_part r ++ " "%char :: rest) s Hpath)
    as (n & Hn & ->).
  unfold path_end in Hn. rewrite !andb_true_iff in Hn. destruct Hn as [[Hn1 Hn2] Hn3].
  unfold target_calls, query_part, fragment_part in *.
  apply bind_inv in Hc as ([] & d1 & Hfp & Hc). apply bind_inv in Hc as ([] & d2 & Hfu & Hc).
  assert (size (rq_path r) = e - p) as He by (unfold e; lia).
  assert (p ≤ e) as Hpe by (unfold e; lia). clearbody e. rewrite He in *.
  replace (p + (e - p)) with e in * by lia.
  destruct (rq_query r) as [q|]; cbn [from_option opt_all app length] in *.
  - apply bind_inv in Hfu as ([] & d3 & Hfq & Hfu).
    rewrite (exec_step _ _ n e _ _ [A.request_path] 29 _ (set_data d1 (set_mark p s)));
      [|by apply (class_step_spec _ _ _ _ _ _ Hn3)|done|].
    2:{ rewrite (actions_cons _ _ _ _ _ (set_data d1 (set_mark p s))); [done|].
        by apply (call_marked_ret fp e (set_mark p s)); [cbn; lia|lia|]. }
    replace (e - p + 1 + size q) with (e + 1 + size q - p) in Hfu by lia.
    destruct (rq_fragment r) as [f|]; cbn [from_option opt_all app length] in *.
    + rewrite (exec_query relaxed q _ 20 (e + 1) _ _ d3 d2); [|destruct relaxed; by vm_compute
        |done|done|cbn; lia|lia|done|done|done].
      rewrite (exec_fragment relaxed f _ _ _ d); [|done|lia|lia|done|].
      2:{ cbn [data set_data]. rewrite <- Hc. f_equal. lia. }
      eexists. split; [f_equal; lia|]. split; [done|]. split; [unfold tidy; cbn; lia|done].
    + injection Hc as <-.
      rewrite (exec_query relaxed q _ 4 (e + 1) _ _ d3 d2); [|destruct relaxed; by vm_compute
        |done|done|cbn; lia|lia|done|done|done].
      eexists. split; [f_equal; lia|]. split; [done|]. split; [unfold tidy; cbn; lia|done].
  - destruct (rq_fragment r) as [f|]; cbn [from_option opt_all app length] in *.
    + rewrite (exec_step _ _ n e _ _ [A.request_path; A.request_uri] 20 _ (set_data d2 (set_mark p s)));
        [|by apply (class_step_spec _ _ _ _ _ _ Hn2)|done|by apply (path_calls p e _ d1 d2); [lia|lia|..]].
      rewrite (exec_fragment relaxed f _ _ _ d); [|done|lia|lia|done|].
      2:{ cbn [data set_data]. rewrite <- Hc. f_equal. lia. }
      eexists. split; [f_equal; lia|]. split; [done|]. split; [unfold tidy; cbn; lia|done].
    + injection Hc as <-.
      rewrite (exec_step _ _ n e _ _ [A.request_path; A.request_uri] 4 _ (set_data d2 (set_mark p s)));
        [|by apply (class_step_spec _ _ _ _ _ _ Hn1)|done|by apply (path_calls p e _ d1 d2); [lia|lia|..]].
      eexists. split; [f_equal; lia|]. split; [done|]. split; [unfold tidy; cbn; lia|done].
Qed.

(** *** The version *)

Lemma exec_version relaxed minor p rest s d :
  one_of (of_lit "01") minor = true → 0 ≤ p → p + 10 ≤ len → len < 2 ^ 31 → tidy s →
  fv buffer p 8 (data s) = Ret tt d →
  ∃ s', run_from relaxed 4 p (version_text minor ++ eol ++ rest) s =
    run_from relaxed 13 (p + 10) rest s' ∧ kept s s' ∧ tidy s' ∧ data s' = d.
Proof.
  intros Hm Hp Hl Hlen (T1 & T2 & T3) Hf.
  replace (version_text minor ++ eol ++ rest) with
    ("H"%char :: (of_lit "TTP/1." ++ [minor]) ++ "013"%char :: "010"%char :: rest) by done.
  rewrite (exec_step _ _ 4 p _ _ [A.mark] 5 s (set_mark p s)); [|destruct relaxed; by vm_compute|done..].
  rewrite (exec_quiet _ _ 5 12).
  2:{ pose proof (forall_bytes (λ b, implb (one_of (of_lit "01") b)
        (bool_decide (quiet (machine relaxed) 5 (of_lit "TTP/1." ++ [b]) = Some 12)))) as H.
      specialize (H ltac:(destruct relaxed; by vm_compute) minor). cbn beta in H. rewrite Hm in H.
      by apply bool_decide_eq_true in H. }
  rewrite (exec_step _ _ 12 _ _ _ [A.http_version] 17 _ (set_data d (set_mark p s)));
    [|destruct relaxed; by vm_compute|done|].
  2:{ rewrite (actions_cons _ _ _ _ _ (set_data d (set_mark p s))); [done|].
      rewrite length_app. apply (call_marked_ret fv _ (set_mark p s)); cbn; [lia|lia|].
      rewrite <- Hf. f_equal. lia. }
  rewrite (exec_step _ _ 17 _ _ _ [] 13 _ (set_data d (set_mark p s)));
    [|destruct relaxed; by vm_compute|done..].
  eexists. split; [f_equal; rewrite length_app; cbn; lia|].
  split; [done|]. split; [unfold tidy; cbn; lia|done].
Qed.

(** *** Headers *)

Lemma exec_blanks relaxed bl p rest s :
  forallb blank bl = true → 0 ≤ p → p + size bl < len → tidy s →
  ∃ s', run_from relaxed 15 p (bl ++ rest) s = run_from relaxed 15 (p + size bl) rest s' ∧
    kept s s' ∧ tidy s' ∧ data s' = data s ∧ field_start s' = field_start s ∧
    field_len s' = field_len s.
Proof.
  revert p s. induction bl as [|b bl IH]; intros p s Hb Hp Hl Ht.
  - exists s. split; [cbn; by rewrite Z.add_0_r|done].
  - cbn in Hb. apply andb_prop in Hb as [Hb Hbl]. cbn [length] in Hl. cbn [app].
    rewrite (exec_step _ _ 15 p b _ [A.start_value] 15 s (set_mark p s)); [|
      apply (class_step_spec _ blank 15 [A.start_value] 15); [destruct relaxed; by vm_compute|done]|done..].
    destruct (IH (p + 1) (set_mark p s)) as (s' & -> & Hk & Ht' & Hd & Hfs & Hfl);
      [done|lia|lia| |].
    { unfold tidy in *. cbn. lia. }
    exists s'. split; [f_equal; cbn [length]; lia|]. done.
Qed.

Lemma write_value_ret p s d :
  0 ≤ mark s ≤ p → p < 2 ^ 64 →
  fh buffer (field_start s) (field_len s) (mark s) (p - mark s) (data s) = Ret tt d →
  actions (act cb buffer len) [A.write_value] p s = Ret false (set_data d s).
Proof.
  intros Hm Hp Hf. rewrite (actions_cons _ _ _ _ _ (set_data d s)); [done|].
  cbn [act]. rewrite bind_get. cbn [cb http_field]. unfold bind, on_data, LEN.
  rewrite wrap_small by (unfold in_u; lia). by rewrite Hf.
Qed.

Lemma exec_value relaxed v p rest s d :
  value_text v = true → 0 ≤ p → p + size v + 2 ≤ len → len < 2 ^ 31 → tidy s →
  fh buffer (field_start s) (field_len s) p (size v) (data s) = Ret tt d →
  ∃ s', run_from relaxed 15 p (v ++ eol ++ rest) s = run_from relaxed 13 (p + size v + 2) rest s' ∧
    kept s s' ∧ tidy s' ∧ data s' = d.
Proof.
  intros [Hv Hb]%andb_prop Hp Hl Hlen (T1 & T2 & T3) Hf.
  exists (set_data d (set_mark p s)). split; [|split; [done|]; split; [unfold tidy; cbn; lia|done]].
  assert (actions (act cb buffer len) [A.write_value] (p + size v) (set_mark p s) =
    Ret false (set_data d (set_mark p s))) as Hw.
  { apply write_value_ret; cbn; [lia|lia|]. rewrite <- Hf. f_equal. lia. }
  assert (run_from relaxed 17 (p + size v + 1) ("010"%char :: rest) (set_data d (set_mark p s)) =
    run_from relaxed 13 (p + size v + 2) rest (set_data d (set_mark p s))) as Hlf.
  { rewrite (exec_step _ _ 17 _ _ _ [] 13 _ (set_data d (set_mark p s)));
      [f_equal; lia|destruct relaxed; by vm_compute|done..]. }
  destruct v as [|b v].
  - cbn [app eol length] in *. rewrite Z.add_0_r in *.
    rewrite (exec_step _ _ 15 p _ _ [A.start_value; A.write_value] 17 s (set_data d (set_mark p s)));
      [done|destruct relaxed; by vm_compute|done|].
    by rewrite (actions_cons _ _ _ _ _ (set_mark p s)).
  - cbn in Hv. apply andb_prop in Hv as [Hvb Hv]. cbn [app].
    rewrite (exec_step _ _ 15 p b _ [A.start_value] 16 s (set_mark p s)); [|
      apply (class_step_spec _ (λ b, value_char b && negb (blank b)) 15 [A.start_value] 16);
      [destruct relaxed; by vm_compute|by rewrite Hvb, Hb]|done..].
    rewrite (exec_quiet _ _ 16 16) by
      (apply (quiet_loop _ value_char); [destruct relaxed; by vm_compute|done..]).
    replace (p + 1 + size v) with (p + size (b :: v)) by (cbn [length]; lia). cbn [app eol].
    by rewrite (exec_step _ _ 16 _ _ _ [A.write_value] 17 _ (set_data d (set_mark p s)));
      [|destruct relaxed; by vm_compute|done..].
Qed.

Lemma exec_header relaxed name bl v p rest s d :
  header_text (name, bl, v) = true → 0 ≤ p →
  p + size name + 1 + size bl + size v + 2 ≤ len → len < 2 ^ 31 → tidy s →
  fh buffer p (size name) (p + size name + 1 + size bl) (size v) (data s) = Ret tt d →
  ∃ s', run_from relaxed 13 p (header_line (name, bl, v) ++ rest) s =
    run_from relaxed 13 (p + size name + 1 + size bl + size v + 2) rest s' ∧
    kept s s' ∧ tidy s' ∧ data s' = d.
Proof.
  cbn [header_text header_line]. rewrite !andb_true_iff. intros [[[Hne Hn] Hbl] Hv] Hp Hl Hlen Ht Hf.
  destruct name as [|b name]; [done|]. cbn in Hn. apply andb_prop in Hn as [Hb Hn].
  rewrite <- (assoc_L (++)). cbn [app].
  rewrite (exec_step _ _ 13 p b _ [A.start_field] 14 s (set_field_start p s)); [|
    apply (class_step_spec _ token_char 13 [A.start_field] 14); [destruct relaxed; by vm_compute|done]|done..].
  rewrite (exec_quiet _ _ 14 14) by
    (apply (quiet_loop _ token_char); [destruct relaxed; by vm_compute|done..]).
  replace (p + 1 + size name) with (p + size (b :: name)) by (cbn [length]; lia). cbn [app].
  set (n := size (b :: name)) in *. assert (0 ≤ n) by (unfold n; lia). clearbody n.
  rewrite (exec_step _ _ 14 _ _ _ [A.write_field] 15 _ (set_field_len n (set_field_start p s)));
    [|destruct relaxed; by vm_compute|done|].
  2:{ rewrite (actions_cons _ _ _ _ _ (set_field_len n (set_field_start p s))); [done|].
      cbn [act]. unfold modify, bind, ret. cbn [field_start set_field_start]. unfold LEN.
      rewrite wrap_small by (unfold in_u; lia). do 2 f_equal. lia. }
  rewrite <- !(assoc_L (++)).
  destruct (exec_blanks relaxed bl (p + n + 1) (v ++ eol ++ rest)
    (set_field_len n (set_field_start p s))) as (s1 & -> & Hk & Ht1 & Hd & Hfs & Hfl);
    [done|lia|lia|unfold tidy in *; cbn; lia|]. cbn in Hd, Hfs, Hfl.
  destruct (exec_value relaxed v (p + n + 1 + size bl) rest s1 d) as (s2 & -> & Hk2 & Ht2 & Hd2);
    [done|lia|lia|done|done| |].
  { by rewrite Hfs, Hfl, Hd. }
  exists s2. split; [done|]. split; [by eapply kept_trans|done].
Qed.

Lemma exec_headers relaxed hs p rest s d :
  forallb header_text hs = true → 0 ≤ p → p + size (headers_text hs) ≤ len → len < 2 ^ 31 → tidy s →
  header_calls fh buffer p hs (data s) = Ret tt d →
  ∃ s', run_from relaxed 13 p (headers_text hs ++ rest) s =
    run_from relaxed 13 (p + size (headers_text hs)) rest s' ∧ kept s s' ∧ tidy s' ∧ data s' = d.
Proof.
  revert p s. induction hs as [|[[name bl] v] hs IH]; intros p s Hh Hp Hl Hlen Ht Hc.
  - injection Hc as <-. exists s. split; [cbn; by rewrite Z.add_0_r|done].
  - cbn [forallb] in Hh. apply andb_prop in Hh as [Hh Hhs].
    rewrite headers_text_cons in *. pose proof (size_header_line name bl v) as Hsz.
    rewrite length_app in Hl |- *. cbn [header_calls] in Hc.
    apply bind_inv in Hc as ([] & d1 & Hf & Hc). rewrite <- (assoc_L (++)).
    destruct (exec_header relaxed name bl v p (headers_text hs ++ rest) s d1)
      as (s1 & -> & Hk & Ht1 & <-); [done|lia|lia|done|done|done|].
    destruct (IH (p + size name + 1 + size bl + size v + 2) s1) as (s2 & -> & Hk2 & Ht2 & Hd2);
      [done|lia|lia|done|done|done|].
    exists s2. split; [f_equal; lia|]. split; [by eapply kept_trans|done].
Qed.

(** *** The empty line *)

Lemma exec_done relaxed p rest s d :
  0 ≤ p → p + 2 ≤ len → len < 2 ^ 31 → tidy s → xml_sent s = 0 → json_sent s = 0 →
  fd buffer (p + 2) (len - p - 2) (data s) = Ret tt d →
  ∃ s', run_from relaxed 13 p (eol ++ rest) s = Ret (p + 2, 348) s' ∧ tidy s' ∧
    cs s' = cs s ∧ nread s' = nread s ∧ body_start s' = p + 2 ∧ data s' = d.
Proof.
  intros Hp Hl Hlen (T1 & T2 & T3) Hx Hj Hf. cbn [eol app].
  rewrite (exec_step _ _ 13 p _ _ [A.start_field] 18 s (set_field_start p s));
    [|destruct relaxed; by vm_compute|done..].
  exists (set_data d (set_body_start (p + 2) (set_field_start p s))).
  rewrite (exec_cons _ _ 18 _ _ _ [A.done] 348); [|destruct relaxed; by vm_compute|done].
  cbn [actions act]. unfold act_done, bind, get, modify, ret.
  cbn [xml_sent json_sent set_field_start]. rewrite Hx, Hj. cbn [Z.eqb negb orb call cb header_done].
  rewrite !wrap_small by (unfold in_u; lia). unfold on_data. cbn [data set_body_start set_field_start].
  replace (p + 1 + 1) with (p + 2) by lia. replace (len - (p + 1) - 1) with (len - p - 2) by lia.
  rewrite Hf. split; [done|]. split; [unfold tidy; cbn; lia|done].
Qed.

Lemma size_head r :
  size (request_head r) = headers_at r + size (headers_text (rq_headers r)) + 2.
Proof.
  unfold request_head, headers_at, version_at, target_at, version_text.
  repeat (rewrite length_app || cbn [length]). cbn [length of_lit String.list_ascii_of_string eol]. lia.
Qed.

Lemma exec_request relaxed r body s d :
  well_formed relaxed r = true → size (request_head r) ≤ len → len < 2 ^ 31 →
  tidy s → xml_sent s = 0 → json_sent s = 0 → request_calls r (data s) = Ret tt d →
  ∃ s', run_from relaxed 1 0 (request_head r ++ body) s = Ret (size (request_head r), 348) s' ∧
    tidy s' ∧ cs s' = cs s ∧ nread s' = nread s ∧ body_start s' = size (request_head r) ∧ data s' = d.
Proof.
  unfold well_formed. rewrite !andb_true_iff.
  intros [[[[[[[Hm Hm1] Hm2] Hpt] Hq] Hf] Hv] Hh] Hl Hlen Ht Hx Hj Hc. unfold request_calls in Hc.
  apply bind_inv in Hc as ([] & d1 & Hfm & Hc). apply bind_inv in Hc as ([] & d2 & Hft & Hc).
  apply bind_inv in Hc as ([] & d3 & Hfv & Hc). apply bind_inv in Hc as ([] & d4 & Hfh & Hfd).
  pose proof (size_head r) as Hsz. rewrite Hsz in Hl, Hfd |- *.
  unfold headers_at, version_at, target_at in *.
  unfold request_head. repeat (rewrite <- (assoc_L (++)); cbn [app]).
  destruct (exec_method relaxed (rq_method r) 0
    (rq_path r ++ query_part r ++ fragment_part r ++ " "%char :: version_text (rq_minor r) ++ eol ++
     headers_text (rq_headers r) ++ eol ++ body) s d1) as (s1 & -> & K1 & T1 & <-);
    [done|lia|lia|lia|lia|done|done|].
  destruct (exec_target relaxed r (0 + size (rq_method r) + 1)
    (version_text (rq_minor r) ++ eol ++ headers_text (rq_headers r) ++ eol ++ body) s1 d2)
    as (s2 & -> & K2 & T2 & <-); [done|done|done|lia|lia|lia|done|done|].
  destruct (exec_version relaxed (rq_minor r) (0 + size (rq_method r) + 1 + size (rq_path r) +
    size (query_part r) + size (fragment_part r) + 1) (headers_text (rq_headers r) ++ eol ++ body) s2 d3)
    as (s3 & -> & K3 & T3 & <-); [done|lia|lia|lia|done|done|].
  destruct (exec_headers relaxed (rq_headers r) (0 + size (rq_method r) + 1 + size (rq_path r) +
    size (query_part r) + size (fragment_part r) + 1 + 10) (eol ++ body) s3 d4)
    as (s4 & -> & K4 & T4 & <-); [done|lia|lia|lia|done|done|].
  destruct (kept_trans _ _ _ (kept_trans _ _ _ (kept_trans _ _ _ K1 K2) K3) K4)
    as (Hc & Hn & _ & Hx' & Hj' & _).
  edestruct (exec_done relaxed) as (s5 & -> & T5 & ? & ? & ? & ?);
    [..|exists s5; split; [reflexivity|split; [exact T5|split_and!; [congruence|congruence|done|done]]]];
    [lia|lia|lia|done|congruence|congruence|].
  rewrite <- Hfd. f_equal; lia.
Qed.

End execute.

(** A request is parsed into its parts.  For every well-formed request - any
    method of at most 20 capitals and digits, an absolute path, an optional query
    and fragment with percent escapes, HTTP/1.0 or 1.1, any headers - and any
    bytes behind it, a fresh parser calls back with the method, path, query,
    target, fragment, version, each header's name and value, and the rest of the
    buffer, in this order and with exactly their places in the buffer; it stops
    behind the empty line in a final state. *)
Lemma execute_request {D} (fh : field_cb D) (fm fu ff fp fq fv fd : element_cb D)
    r body extra (s : http_parser D) d :
  let len := Z.of_nat (length (request_head r ++ body)) in
  let buffer := request_head r ++ body ++ extra in
  well_formed (negb (uri_relaxed s =? 0)) r = true → len < 2 ^ 31 →
  cs s = http_parser_start → xml_sent s = 0 → json_sent s = 0 →
  request_calls fh fm fu ff fp fq fv fd buffer len r (data s) = Ret tt d →
  ∃ s', http_parser_execute (cb fh fm fu ff fp fq fv fd) buffer len 0 s =
      Ret (Z.of_nat (length (request_head r))) s' ∧
    http_parser_finish s' = 1 ∧ body_start s' = Z.of_nat (length (request_head r)) ∧ data s' = d.
Proof.
  intros len buffer Hw Hl Hcs Hx Hj Hc.
  assert (0 < Z.of_nat (length (request_head r)) ≤ len) as Hpos.
  { pose proof (size_head r) as Hsz. unfold headers_at, version_at, target_at in Hsz.
    unfold len. rewrite length_app. lia. }
  destruct (exec_request fh fm fu ff fp fq fv fd buffer len (negb (uri_relaxed s =? 0)) r body
    (cleared s) d) as (s' & He & Ht & Hcs' & Hn & Hbs & Hd);
    [done|lia|done|unfold Http11.tidy; cbn; lia|done|done|done|].
  cbn in Hcs', Hn. rewrite Hcs in Hcs'.
  rewrite (execute_exec _ buffer len 0 (Z.of_nat (length (request_head r))) 348 s s');
    [|lia|unfold len, buffer; rewrite !length_app; lia|lia|lia| |done|lia|done].
  2:{ rewrite Hcs. rewrite <- He. f_equal.
      unfold buffer, len. rewrite (assoc_L (++)). change (Z.to_nat 0) with 0%nat. rewrite drop_0.
      rewrite take_app_length'; [done|]. lia. }
  unfold http_parser_has_error. rewrite Hcs'. cbn.
  eexists. split; [f_equal; lia|]. done.
Qed.

End Http11Text.
