(* ===== verification/Httpclient.v ===== *)
(** * Httpclient: the HTTP response parser

    [httpclient_parser_init], [httpclient_parser_execute],
    [httpclient_parser_finish] and the actions of http/httpclient_parser.rl.cc over
    the machine of Httpclientmachine.v, in the manner of Http11.v.  The same
    parser reads the head of a response and the size line of a chunk. *)
From S2P Require Import Prelude Util Ragel Cstring Httpclientmachine.
Import Ragel CharBuffer.

Module Httpclient.

Module A := HttpclientMachine.
#[local] Existing Instance A.action_eq_dec.
Abbreviation machine := A.httpclient_machine.

Definition httpclient_parser_start : Z := 1.
Definition httpclient_parser_first_final : Z := 120.
Definition httpclient_parser_error : Z := 0.

Section parser.
Context {D : Type}.

Record httpclient_parser := Parser {
  cs : Z;
  body_start : Z;
  content_len : Z;
  status : Z;
  chunked : Z;
  chunks_done : Z;
  close : Z;
  nread : Z;
  mark : Z;
  field_start : Z;
  field_len : Z;
  data : D;
}.

Definition set_cs v (s : httpclient_parser) : httpclient_parser :=
  Parser v (body_start s) (content_len s) (status s) (chunked s) (chunks_done s) (close s) (nread s)
    (mark s) (field_start s) (field_len s) (data s).
Definition set_body_start v (s : httpclient_parser) : httpclient_parser :=
  Parser (cs s) v (content_len s) (status s) (chunked s) (chunks_done s) (close s) (nread s)
    (mark s) (field_start s) (field_len s) (data s).
Definition set_content_len v (s : httpclient_parser) : httpclient_parser :=
  Parser (cs s) (body_start s) v (status s) (chunked s) (chunks_done s) (close s) (nread s)
    (mark s) (field_start s) (field_len s) (data s).
Definition set_status v (s : httpclient_parser) : httpclient_parser :=
  Parser (cs s) (body_start s) (content_len s) v (chunked s) (chunks_done s) (close s) (nread s)
    (mark s) (field_start s) (field_len s) (data s).
Definition set_chunked v (s : httpclient_parser) : httpclient_parser :=
  Parser (cs s) (body_start s) (content_len s) (status s) v (chunks_done s) (close s) (nread s)
    (mark s) (field_start s) (field_len s) (data s).
Definition set_chunks_done v (s : httpclient_parser) : httpclient_parser :=
  Parser (cs s) (body_start s) (content_len s) (status s) (chunked s) v (close s) (nread s)
    (mark s) (field_start s) (field_len s) (data s).
Definition set_close v (s : httpclient_parser) : httpclient_parser :=
  Parser (cs s) (body_start s) (content_len s) (status s) (chunked s) (chunks_done s) v (nread s)
    (mark s) (field_start s) (field_len s) (data s).
Definition set_nread v (s : httpclient_parser) : httpclient_parser :=
  Parser (cs s) (body_start s) (content_len s) (status s) (chunked s) (chunks_done s) (close s) v
    (mark s) (field_start s) (field_len s) (data s).
Definition set_mark v (s : httpclient_parser) : httpclient_parser :=
  Parser (cs s) (body_start s) (content_len s) (status s) (chunked s) (chunks_done s) (close s) (nread s)
    v (field_start s) (field_len s) (data s).
Definition set_field_start v (s : httpclient_parser) : httpclient_parser :=
  Parser (cs s) (body_start s) (content_len s) (status s) (chunked s) (chunks_done s) (close s) (nread s)
    (mark s) v (field_len s) (data s).
Definition set_field_len v (s : httpclient_parser) : httpclient_parser :=
  Parser (cs s) (body_start s) (content_len s) (status s) (chunked s) (chunks_done s) (close s) (nread s)
    (mark s) (field_start s) v (data s).
Definition set_data v (s : httpclient_parser) : httpclient_parser :=
  Parser (cs s) (body_start s) (content_len s) (status s) (chunked s) (chunks_done s) (close s) (nread s)
    (mark s) (field_start s) (field_len s) v.

(** *** Callbacks *)

Definition element_cb : Type := list ascii → Z → Z → M D unit.
Definition field_cb : Type := list ascii → Z → Z → Z → Z → M D unit.

Record callbacks := Callbacks {
  http_field : option field_cb;
  reason_phrase : option element_cb;
  status_code : option element_cb;
  chunk_size : option element_cb;
  http_version : option element_cb;
  header_done : option element_cb;
  last_chunk : option element_cb;
}.

Definition modify (f : httpclient_parser → httpclient_parser) : M httpclient_parser unit :=
  λ s, Ret tt (f s).

Definition on_data (m : M D unit) : M httpclient_parser unit :=
  λ s, match m (data s) with
       | Ret _ d => Ret tt (set_data d s)
       | Throw e d => Throw e (set_data d s)
       | UB => UB
       end.

Definition assert (b : bool) : M httpclient_parser unit := if b then ret tt else ub.

Definition LEN (at_ fpc : Z) : Z := wrap 64 (fpc - at_).

Section act.
Context (cb : callbacks) (buffer : list ascii) (pe : Z).

Definition call (f : option element_cb) (at_ length : Z) : M httpclient_parser unit :=
  match f with Some f => on_data (f buffer at_ length) | None => ret tt end.
Definition call_marked (f : option element_cb) (p : Z) : M httpclient_parser unit :=
  let! s := get in call f (mark s) (LEN (mark s) p).

(** [strtol(PTR_TO(mark), NULL, base)] stored in an [int]. *)
Definition number_at_mark (base : Z) : M httpclient_parser Z :=
  let! s := get in
  let! v := lift (strtol base (drop (Z.to_nat (mark s)) buffer)) in
  ret (swrap 32 v).

Definition act_chunk_size (p : Z) : M httpclient_parser unit :=
  modify (set_chunked 1) ;!
  let! v := number_at_mark 16 in
  modify (set_content_len v) ;!
  modify (set_chunks_done (Z.b2z (v <=? 0))) ;!
  if (v <=? 0) && (match last_chunk cb with Some _ => true | None => false end)
  then call_marked (last_chunk cb) p
  else call_marked (chunk_size cb) p.

Definition act (a : A.action) (p : Z) : M httpclient_parser bool :=
  match a with
  | A.mark => modify (set_mark p) ;! ret false
  | A.start_field => modify (set_field_start p) ;! ret false
  | A.write_field => modify (λ s, set_field_len (LEN (field_start s) p) s) ;! ret false
  | A.start_value => modify (set_mark p) ;! ret false
  | A.write_content_len =>
      let! v := number_at_mark 10 in modify (set_content_len v) ;! ret false
  | A.write_connection_close => modify (set_close 1) ;! ret false
  | A.write_value =>
      let! s := get in
      match http_field cb with
      | Some f => on_data (f buffer (field_start s) (field_len s) (mark s) (LEN (mark s) p))
      | None => ret tt
      end ;! ret false
  | A.reason_phrase => call_marked (reason_phrase cb) p ;! ret false
  | A.status_code =>
      let! v := number_at_mark 10 in
      modify (set_status v) ;! call_marked (status_code cb) p ;! ret false
  | A.http_version => call_marked (http_version cb) p ;! ret false
  | A.chunk_size => act_chunk_size p ;! ret false
  | A.trans_chunked => modify (set_chunked 1) ;! ret false
  | A.done =>
      modify (set_body_start (wrap 64 (p + 1))) ;!
      call (header_done cb) (p + 1) (wrap 64 (pe - p - 1)) ;! ret true
  end.

End act.

(** *** The interface *)

Definition httpclient_parser_init : M httpclient_parser Z :=
  modify (set_cs httpclient_parser_start) ;!
  modify (set_body_start 0) ;! modify (set_content_len (-1)) ;! modify (set_chunked 0) ;!
  modify (set_chunks_done 0) ;! modify (set_mark 0) ;! modify (set_nread 0) ;!
  modify (set_field_len 0) ;! modify (set_field_start 0) ;! modify (set_close 0) ;! ret 1.

Definition httpclient_parser_has_error (s : httpclient_parser) : bool := cs s =? httpclient_parser_error.
Definition httpclient_parser_is_finished (s : httpclient_parser) : bool :=
  cs s =? httpclient_parser_first_final.

Definition httpclient_parser_finish (s : httpclient_parser) : Z :=
  if httpclient_parser_has_error s then -1 else if httpclient_parser_is_finished s then 1 else 0.

Definition same_distance (len off : Z) : bool :=
  let d := swrap 32 len - swrap 32 off in bool_decide (in_s 32 d) && (len - off =? d).

Section execute.
Context (cb : callbacks) (buffer : list ascii) (len : Z).

(** The code after [%% write exec]; the last three checks return -1. *)
Definition execute_end (off p cs' : Z) : M httpclient_parser Z :=
  modify (set_cs cs') ;!
  modify (λ s, set_nread (wrap 64 (nread s + (p - off))) s) ;!
  assert (p <=? len) ;!
  let! s := get in
  assert (nread s <=? len) ;!
  assert (body_start s <=? len) ;!
  if negb (mark s <? len) then ret (-1)
  else if negb (field_len s <=? len) then ret (-1)
  else if negb (field_start s <? len) then ret (-1)
  else ret (swrap 32 (nread s)).

Definition httpclient_parser_execute (off : Z) : M httpclient_parser Z :=
  modify (set_nread 0) ;! modify (set_mark 0) ;!
  modify (set_field_len 0) ;! modify (set_field_start 0) ;!
  let! s := get in
  assert (off <=? len) ;!
  assert (bool_decide (buffer !! Z.to_nat len = Some Ascii.zero)) ;!
  assert (same_distance len off) ;!
  let input := take (Z.to_nat (len - off)) (drop (Z.to_nat off) buffer) in
  let! r := exec machine (act cb buffer len) (cs s) off input in
  execute_end off r.1 r.2.

End execute.
End parser.
#[global] Arguments httpclient_parser : clear implicits.
#[global] Arguments callbacks : clear implicits.
#[global] Arguments element_cb : clear implicits.
#[global] Arguments field_cb : clear implicits.

End Httpclient.
