(* ===== verification/Httpclienttext.v ===== *)
(** * Httpclienttext: responses as text, and what the parser makes of them

    As Http11text.v does for requests.  The machine follows three header names
    while it reads any: the states that spell a prefix of one of them are known
    by that prefix ([spells]), and a state is never about a name that was not
    read. *)
From S2P Require Import Prelude Util Ragel Cstring Httpclientmachine Httpclient Httptext.
Import Ragel CharBuffer Httpclient.

Module HttpclientText.

Import StdString.
Export HttpText.
#[local] Existing Instance A.action_eq_dec.

(** *** Character classes *)

Definition text_char (b : ascii) : bool := negb (one_of ["010"; "013"]%char b).
Definition space (b : ascii) : bool := is_space b.

Record Response := {
  rs_minor : ascii;
  rs_code : list ascii;
  rs_phrase : list ascii;
  rs_lines : list header;
}.

Definition response_head (r : Response) : list ascii :=
  version_text (rs_minor r) ++ " "%char :: rs_code r ++ " "%char :: rs_phrase r ++ eol ++
  headers_text (rs_lines r) ++ eol.

(** Header lines with a value; the value does not begin with a blank. *)
Definition header_text (h : header) : bool :=
  let '(name, bl, value) := h in
  negb (bool_decide (name = [])) && forallb token_char name && forallb blank bl &&
  forallb text_char value && match value with [] => false | b :: _ => negb (space b) end.

Definition well_formed (r : Response) : bool :=
  digit (rs_minor r) &&
  forallb digit (rs_code r) && negb (bool_decide (rs_code r = [])) &&
  forallb text_char (rs_phrase r) && negb (bool_decide (rs_phrase r = [])) &&
  forallb header_text (rs_lines r).

(** *** The names the machine knows *)

Definition lower (b : ascii) : ascii := if between 65 90 b then z2b (b2z b + 32) else b.

Definition word_states (first : list Z) (word : list ascii) : list (list ascii * Z) :=
  imap (λ i n, (take (S i) word, n)) first.

(** The prefix of a header name that a state stands for. *)
Definition name_table : list (list ascii * Z) :=
  word_states [44; 45; 46; 47; 48; 49; 50; 51; 52; 53; 54; 55; 56; 57; 58; 59; 60]
    (of_lit "transfer-encoding") ++
  word_states [25; 26; 27; 28; 29; 30; 31; 32; 33; 34] (of_lit "connection") ++
  word_states [25; 26; 27; 101; 102; 103; 104; 105; 106; 107; 108; 109; 110; 111]
    (of_lit "content-length").
Definition value_table : list (list ascii * Z) :=
  word_states [81; 82; 83; 84; 85; 86; 87] (of_lit "chunked").

Definition state_of (table : list (list ascii * Z)) (u : list ascii) : option Z :=
  snd <$> List.find (λ e, bool_decide (e.1 = u)) table.
Definition spells (table : list (list ascii * Z)) (n : Z) : option (list ascii) :=
  fst <$> List.find (λ e, e.2 =? n) table.

(** The states inside a name, at the start of a line, before and inside a value. *)
Definition line_states : list Z := [20; 43].
Definition name_states : list Z := 21 :: (name_table.*2).
Definition before_value : list Z := [22; 35; 61; 112].
Definition value_states : list Z := [23; 81; 82; 83; 84; 85; 86; 87; 96; 97; 98; 99; 100; 119].

(** What is spelled after one more byte. *)
Definition spelled (table : list (list ascii * Z)) (o : option (list ascii)) (b : ascii) : option (list ascii) :=
  match o with
  | Some u => match state_of table (u ++ [lower b]) with Some _ => Some (u ++ [lower b]) | None => None end
  | None => None
  end.

Abbreviation all_moves := (Ragel.all_moves machine).

(** *** How the machine reads header lines, decided on the machine *)

Abbreviation same x y := (bool_decide (x = y)).

Lemma name_first : all_moves token_char line_states (λ _ b acts n',
  (same acts [A.start_field] || same acts [A.write_connection_close; A.start_field]) &&
  mem name_states n' && same (spells name_table n') (spelled name_table (Some []) b)) = true.
Proof. by vm_compute. Qed.

Lemma name_next : all_moves token_char name_states (λ n b acts n',
  same acts [] && mem name_states n' &&
  same (spells name_table n') (spelled name_table (spells name_table n) b)) = true.
Proof. by vm_compute. Qed.

Lemma name_colon : all_moves (Ascii.eqb ":") name_states (λ n b acts n',
  same acts [A.write_field] && mem before_value n' &&
  same (n' =? 61) (same (spells name_table n) (Some (of_lit "transfer-encoding")))) = true.
Proof. by vm_compute. Qed.

Lemma value_blank : all_moves blank before_value (λ n b acts n',
  same acts [A.start_value] && (n' =? n)) = true.
Proof. by vm_compute. Qed.

Lemma value_first : all_moves (λ b, text_char b && negb (space b)) before_value (λ n b acts n',
  same acts [A.start_value] && mem value_states n' &&
  same (spells value_table n') (if n =? 61 then spelled value_table (Some []) b else None)) = true.
Proof. by vm_compute. Qed.

Lemma value_next : all_moves text_char value_states (λ n b acts n',
  same acts [] && mem value_states n' &&
  same (spells value_table n') (spelled value_table (spells value_table n) b)) = true.
Proof. by vm_compute. Qed.

Lemma value_cr : all_moves (Ascii.eqb "013") value_states (λ n b acts n',
  (same acts [A.write_value] || same acts [A.write_content_len; A.write_value]) && mem [24; 71; 88] n' &&
  same (n' =? 71) (same (spells value_table n) (Some (of_lit "chunked")))) = true.
Proof. by vm_compute. Qed.

Lemma line_lf : all_moves (Ascii.eqb "010") [24; 71; 88] (λ n b acts n',
  same acts (if n =? 71 then [A.trans_chunked] else []) && mem line_states n') = true.
Proof. by vm_compute. Qed.

Lemma head_cr : all_moves (Ascii.eqb "013") line_states (λ n b acts n',
  (same acts [] || same acts [A.write_connection_close]) && (n' =? 3)) = true.
Proof. by vm_compute. Qed.

(** [spelled] over a word: its lower-case form while that is in the table. *)
Definition lowers (w : list ascii) : list ascii := lower <$> w.

Definition prefix_closed (table : list (list ascii * Z)) : Prop :=
  ∀ u b, state_of table (u ++ [b]) ≠ None → u = [] ∨ state_of table u ≠ None.

Lemma prefix_closed_check table :
  forallb (λ e, match e.1 with [] | [_] => true
    | u => bool_decide (state_of table (removelast u) ≠ None) end) table = true →
  prefix_closed table.
Proof.
  intros H u b Hu. unfold state_of in Hu. destruct (List.find _ table) as [[w n]|] eqn:Hf; [|done].
  apply find_some in Hf as [Hin Hw]. apply bool_decide_eq_true in Hw. cbn in Hw. subst w.
  rewrite forallb_forall in H. specialize (H _ Hin). cbn [fst] in H.
  destruct u as [|a u]; [by left|right]. cbn [app] in H. destruct (u ++ [b]) as [|b' u'] eqn:E.
  { by destruct u. }
  rewrite <- E in H. change (a :: u ++ [b]) with ((a :: u) ++ [b]) in H.
  rewrite removelast_last in H. by apply bool_decide_eq_true in H.
Qed.

Lemma tables_closed : prefix_closed name_table ∧ prefix_closed value_table.
Proof. split; apply prefix_closed_check; by vm_compute. Qed.

Lemma spelled_word table w u :
  prefix_closed table → (u = [] ∨ state_of table u ≠ None) → w ≠ [] →
  foldl (spelled table) (Some u) w =
  match state_of table (u ++ lowers w) with Some _ => Some (u ++ lowers w) | None => None end.
Proof.
  intros Hc Hu. induction w as [|b w IH] using rev_ind; intros Hne; [done|].
  rewrite foldl_snoc. unfold lowers. rewrite fmap_app. cbn [fmap list_fmap]. fold (lowers w).
  destruct w as [|b' w']; [done|]. set (w := b' :: w') in *. rewrite IH by done.
  rewrite (assoc_L (++)). destruct (state_of table (u ++ lowers w)) eqn:Hs; [done|].
  cbn [spelled]. destruct (state_of table ((u ++ lowers w) ++ [lower b])) eqn:Hs'; [|done].
  destruct (Hc (u ++ lowers w) (lower b)) as [Hnil|Hsome]; [by rewrite Hs'| |done].
  apply (f_equal length) in Hnil. rewrite length_app in Hnil. unfold lowers, w in Hnil. cbn in Hnil. lia.
Qed.

Section execute.
Context {D : Type}.
Context (fh : field_cb D) (fr fs fc fv fd fl : element_cb D).
Context (buffer : list ascii) (len : Z).
Implicit Types s : httpclient_parser D.

Definition cb : callbacks D :=
  Callbacks (Some fh) (Some fr) (Some fs) (Some fc) (Some fv) (Some fd) (Some fl).

Abbreviation run_from := (exec machine (act cb buffer len)).

Definition kept s s' : Prop :=
  cs s' = cs s ∧ nread s' = nread s ∧ body_start s' = body_start s ∧ status s' = status s ∧
  chunks_done s' = chunks_done s.
Definition tidy s : Prop :=
  0 ≤ mark s < len ∧ 0 ≤ field_start s < len ∧ 0 ≤ field_len s ≤ len.

Lemma client_kept_trans s1 s2 s3 : kept s1 s2 → kept s2 s3 → kept s1 s3.
Proof. unfold kept. intros. destruct_and?. split_and!; congruence. Qed.

Lemma client_call_marked_ret f p s d :
  0 ≤ mark s ≤ p → p < 2 ^ 64 →
  f buffer (mark s) (p - mark s) (data s) = Ret tt d →
  (let! _ := call_marked buffer (Some f) p in ret false) s = Ret false (set_data d s).
Proof.
  intros Hm Hp Hf. unfold bind, call_marked. rewrite bind_get. unfold LEN.
  rewrite wrap_small by (unfold in_u; lia). cbn [call]. unfold on_data. by rewrite Hf.
Qed.

(** The buffer ends in a NUL, so the numbers in it end. *)
Hypothesis terminated : buffer !! Z.to_nat len = Some Ascii.zero.

Lemma number_ret base s :
  base ≤ 36 → 0 ≤ mark s ≤ len → ∃ v, number_at_mark buffer base s = Ret v s.
Proof.
  intros Hb Hm. unfold number_at_mark. rewrite bind_get.
  destruct (strtol_end base (drop (Z.to_nat (mark s)) buffer) Hb) as [v Hv].
  { apply list_elem_of_lookup. exists (Z.to_nat len - Z.to_nat (mark s))%nat.
    rewrite lookup_drop. rewrite <- terminated. f_equal. lia. }
  rewrite Hv. by exists (swrap 32 v).
Qed.

(** *** Names *)

Lemma exec_name_rest w n p rest s :
  mem name_states n = true → forallb token_char w = true →
  ∃ n', mem name_states n' = true ∧
    spells name_table n' = foldl (spelled name_table) (spells name_table n) w ∧
    run_from n p (w ++ rest) s = run_from n' (p + size w) rest s.
Proof.
  revert n p. induction w as [|b w IH]; intros n p Hn Hw.
  - exists n. split; [done|]. split; [done|]. cbn. by rewrite Z.add_0_r.
  - cbn [forallb] in Hw. apply andb_prop in Hw as [Hb Hw].
    destruct (all_moves_spec machine _ _ _ n b name_next Hn Hb) as (acts & n1 & Hon & H0 & Hok).
    rewrite !andb_true_iff in Hok. destruct Hok as [[Ha Hn1] Hs].
    apply bool_decide_eq_true in Ha as ->. apply bool_decide_eq_true in Hs.
    destruct (IH n1 (p + 1) Hn1 Hw) as (n' & Hn' & Hs' & He).
    exists n'. split; [done|]. cbn [foldl]. rewrite <- Hs. split; [done|]. cbn [app].
    rewrite (exec_step _ _ n p b _ [] n1 s s) by done. rewrite He. f_equal. cbn [length]. lia.
Qed.

Lemma exec_name l name p rest s :
  mem line_states l = true → forallb token_char name = true → name ≠ [] → 0 ≤ p → p < len → tidy s →
  ∃ n s', mem name_states n = true ∧
    spells name_table n = (match state_of name_table (lowers name) with
                           | Some _ => Some (lowers name) | None => None end) ∧
    run_from l p (name ++ rest) s = run_from n (p + size name) rest s' ∧
    kept s s' ∧ tidy s' ∧ data s' = data s ∧ chunked s' = chunked s ∧ field_start s' = p.
Proof.
  intros Hl Hw Hne Hp Hpl (T1 & T2 & T3). destruct name as [|b w]; [done|].
  cbn [forallb] in Hw. apply andb_prop in Hw as [Hb Hw].
  destruct (all_moves_spec machine _ _ _ l b name_first Hl Hb) as (acts & n1 & Hon & H0 & Hok).
  rewrite !andb_true_iff, orb_true_iff, !bool_decide_eq_true in Hok.
  destruct Hok as [[Ha Hn1] Hs].
  assert (∃ s1, actions (act cb buffer len) acts p s = Ret false s1 ∧ kept s s1 ∧ tidy s1 ∧
    data s1 = data s ∧ chunked s1 = chunked s ∧ field_start s1 = p) as (s1 & Hact & Hk).
  { destruct Ha as [-> | ->]; eexists; (split; [done|]); (split; [done|]);
      (split; [unfold tidy; cbn; lia|done]). }
  destruct (exec_name_rest w n1 (p + 1) rest s1 Hn1 Hw) as (n & Hn & Hsp & He).
  exists n, s1. split; [done|]. split.
  - rewrite Hsp, Hs. change (foldl (spelled name_table) (spelled name_table (Some []) b) w)
      with (foldl (spelled name_table) (Some []) (b :: w)).
    apply spelled_word; [apply tables_closed|by left|done].
  - split; [|done]. cbn [app]. rewrite (exec_step _ _ l p b _ acts n1 s s1) by done.
    rewrite He. f_equal. cbn [length]. lia.
Qed.

(** *** Values *)

Lemma client_exec_blanks n bl p rest s :
  mem before_value n = true → forallb blank bl = true → 0 ≤ p → p + size bl < len → tidy s →
  ∃ s', run_from n p (bl ++ rest) s = run_from n (p + size bl) rest s' ∧
    kept s s' ∧ tidy s' ∧ data s' = data s ∧ chunked s' = chunked s ∧
    field_start s' = field_start s ∧ field_len s' = field_len s.
Proof.
  intros Hn. revert p s. induction bl as [|b bl IH]; intros p s Hb Hp Hl Ht.
  - exists s. split; [cbn; by rewrite Z.add_0_r|done].
  - cbn [forallb] in Hb. apply andb_prop in Hb as [Hb Hbl]. cbn [length] in Hl. cbn [app].
    destruct (all_moves_spec machine _ _ _ n b value_blank Hn Hb) as (acts & n1 & Hon & H0 & Hok).
    rewrite andb_true_iff, bool_decide_eq_true, Z.eqb_eq in Hok. destruct Hok as [-> ->].
    rewrite (exec_step _ _ n p b _ [A.start_value] n s (set_mark p s)) by done.
    destruct (IH (p + 1) (set_mark p s)) as (s' & -> & Hk); [done|lia|lia|unfold tidy in *; cbn; lia|].
    exists s'. split; [f_equal; cbn [length]; lia|done].
Qed.

Lemma exec_value_rest v n p rest s :
  mem value_states n = true → forallb text_char v = true →
  ∃ n', mem value_states n' = true ∧
    spells value_table n' = foldl (spelled value_table) (spells value_table n) v ∧
    run_from n p (v ++ rest) s = run_from n' (p + size v) rest s.
Proof.
  revert n p. induction v as [|b v IH]; intros n p Hn Hw.
  - exists n. split; [done|]. split; [done|]. cbn. by rewrite Z.add_0_r.
  - cbn [forallb] in Hw. apply andb_prop in Hw as [Hb Hw].
    destruct (all_moves_spec machine _ _ _ n b value_next Hn Hb) as (acts & n1 & Hon & H0 & Hok).
    rewrite !andb_true_iff, !bool_decide_eq_true in Hok. destruct Hok as [[-> Hn1] Hs].
    destruct (IH n1 (p + 1) Hn1 Hw) as (n' & Hn' & Hs' & He).
    exists n'. split; [done|]. cbn [foldl]. rewrite <- Hs. split; [done|]. cbn [app].
    rewrite (exec_step _ _ n p b _ [] n1 s s) by done. rewrite He. f_equal. cbn [length]. lia.
Qed.

Lemma spelled_none w table : foldl (spelled table) None w = None.
Proof. by induction w. Qed.

Lemma client_write_value_ret acts p s d :
  acts = [A.write_value] ∨ acts = [A.write_content_len; A.write_value] →
  0 ≤ mark s ≤ p → p ≤ len → len < 2 ^ 31 →
  fh buffer (field_start s) (field_len s) (mark s) (p - mark s) (data s) = Ret tt d →
  ∃ s', actions (act cb buffer len) acts p s = Ret false s' ∧ data s' = d ∧ kept s s' ∧
    chunked s' = chunked s ∧ mark s' = mark s ∧ field_start s' = field_start s ∧ field_len s' = field_len s.
Proof.
  intros Ha Hm Hp Hl Hf.
  assert (∀ s1, data s1 = data s → mark s1 = mark s → field_start s1 = field_start s →
    field_len s1 = field_len s →
    actions (act cb buffer len) [A.write_value] p s1 = Ret false (set_data d s1)) as Hw.
  { intros s1 E1 E2 E3 E4. rewrite (actions_cons _ _ _ _ _ (set_data d s1)); [done|].
    cbn [act]. rewrite bind_get. cbn [cb http_field]. unfold bind, on_data, LEN.
    rewrite E1, E2, E3, E4, wrap_small by (unfold in_u; lia). by rewrite Hf. }
  destruct Ha as [-> | ->]; [exists (set_data d s); split; [by apply Hw|done]|].
  destruct (number_ret 10 s ltac:(lia) ltac:(lia)) as [v Hv].
  exists (set_data d (set_content_len v s)). split; [|done].
  rewrite (actions_cons _ _ _ _ _ (set_content_len v s)); [by apply Hw|].
  cbn [act]. by rewrite (bind_Ret _ _ _ _ _ Hv).
Qed.

(** The two header values by which the head announces chunks. *)
Definition says_chunked (n : Z) (v : list ascii) : bool :=
  (n =? 61) && bool_decide (lowers v = of_lit "chunked").

Lemma client_exec_value n v p rest s d :
  mem before_value n = true → forallb text_char v = true →
  (∃ b v', v = b :: v' ∧ space b = false) → 0 ≤ p → p + size v + 2 ≤ len → len < 2 ^ 31 → tidy s →
  fh buffer (field_start s) (field_len s) p (size v) (data s) = Ret tt d →
  ∃ l s', mem line_states l = true ∧
    run_from n p (v ++ eol ++ rest) s = run_from l (p + size v + 2) rest s' ∧
    kept s s' ∧ tidy s' ∧ data s' = d ∧ chunked s' = if says_chunked n v then 1 else chunked s.
Proof.
  intros Hn Hv (b & v' & -> & Hsp) Hp Hl Hlen (T1 & T2 & T3) Hf.
  cbn [forallb] in Hv. apply andb_prop in Hv as [Hb Hv].
  destruct (all_moves_spec machine _ _ _ n b value_first Hn) as (acts & n1 & Hon & H0 & Hok);
    [by rewrite Hb, Hsp|].
  rewrite !andb_true_iff, !bool_decide_eq_true in Hok. destruct Hok as [[-> Hn1] Hs].
  cbn [app]. rewrite (exec_step _ _ n p b _ [A.start_value] n1 s (set_mark p s)) by done.
  destruct (exec_value_rest v' n1 (p + 1) (eol ++ rest) (set_mark p s) Hn1 Hv) as (n2 & Hn2 & Hs2 & ->).
  destruct (all_moves_spec machine _ _ _ n2 "013" value_cr Hn2 eq_refl) as (acts2 & n3 & Hon2 & H02 & Hok2).
  rewrite !andb_true_iff, orb_true_iff, !bool_decide_eq_true in Hok2.
  destruct Hok2 as [[Hacts2 Hn3] Hch]. cbn [length] in *.
  destruct (client_write_value_ret acts2 (p + 1 + size v') (set_mark p s) d Hacts2)
    as (s2 & Ha2 & Hd2 & K2 & Hc2 & Hm2 & Hfs2 & Hfl2); [cbn; lia|lia|done| |].
  { cbn. rewrite <- Hf. f_equal. lia. }
  cbn [eol app]. rewrite (exec_step _ _ n2 _ _ _ acts2 n3 _ s2) by done.
  destruct (all_moves_spec machine _ _ _ n3 "010" line_lf Hn3 eq_refl) as (acts3 & l & Hon3 & H03 & Hok3).
  rewrite andb_true_iff, bool_decide_eq_true in Hok3. destruct Hok3 as [-> Hline].
  set (s3 := if n3 =? 71 then set_chunked 1 s2 else s2).
  rewrite (exec_step _ _ n3 _ _ _ (if n3 =? 71 then [A.trans_chunked] else []) l s2 s3);
    [|done|done|unfold s3; by destruct (n3 =? 71)].
  exists l, s3. split; [done|]. split; [f_equal; lia|].
  assert (kept s2 s3 ∧ tidy s3 ∧ data s3 = d ∧ chunked s3 = if n3 =? 71 then 1 else chunked s) as (K3 & Ht3 & Hd3 & Hc3).
  { unfold s3, tidy. destruct (n3 =? 71); cbn; rewrite ?Hm2, ?Hfs2, ?Hfl2, ?Hc2; cbn;
      (split; [done|]); (split; [lia|]); done. }
  split; [eapply client_kept_trans; [|done]; done|]. split; [done|]. split; [done|]. rewrite Hc3, Hch.
  assert (spells value_table n2 =
    if n =? 61 then match state_of value_table (lowers (b :: v')) with
                    | Some _ => Some (lowers (b :: v')) | None => None end else None) as ->.
  { rewrite Hs2, Hs. destruct (n =? 61); [|apply spelled_none].
    change (foldl (spelled value_table) (spelled value_table (Some []) b) v')
      with (foldl (spelled value_table) (Some []) (b :: v')).
    apply spelled_word; [apply tables_closed|by left|done]. }
  unfold says_chunked. destruct (n =? 61); [|done]. cbn [andb].
  destruct (state_of value_table (lowers (b :: v'))) eqn:Est.
  - by repeat case_bool_decide; try congruence.
  - rewrite bool_decide_false by done. rewrite bool_decide_false; [done|].
    intros E. by rewrite E in Est.
Qed.

(** *** Header lines *)

(** A line that announces a chunked body. *)
Definition chunked_line (h : header) : bool :=
  let '(name, _, v) := h in
  bool_decide (lowers name = of_lit "transfer-encoding") && bool_decide (lowers v = of_lit "chunked").

Lemma client_exec_header l name bl v p rest s d :
  mem line_states l = true → header_text (name, bl, v) = true → 0 ≤ p →
  p + size name + 1 + size bl + size v + 2 ≤ len → len < 2 ^ 31 → tidy s →
  fh buffer p (size name) (p + size name + 1 + size bl) (size v) (data s) = Ret tt d →
  ∃ l' s', mem line_states l' = true ∧
    run_from l p (header_line (name, bl, v) ++ rest) s =
    run_from l' (p + size name + 1 + size bl + size v + 2) rest s' ∧
    kept s s' ∧ tidy s' ∧ data s' = d ∧
    chunked s' = if chunked_line (name, bl, v) then 1 else chunked s.
Proof.
  cbn [header_text header_line]. rewrite !andb_true_iff.
  intros Hl [[[[Hne Hn] Hbl] Hv] Hv1] Hp Hle Hlen Ht Hf.
  apply negb_true_iff, bool_decide_eq_false in Hne.
  destruct (exec_name l name p (":"%char :: bl ++ v ++ eol ++ rest) s Hl Hn Hne Hp ltac:(lia) Ht)
    as (n & s1 & Hn1 & Hsp & He1 & K1 & T1 & Hd1 & Hc1 & Hfs1).
  app_right. rewrite He1.
  destruct (all_moves_spec machine _ _ _ n ":" name_colon Hn1 eq_refl) as (acts & n2 & Hon & H0 & Hok).
  rewrite !andb_true_iff, !bool_decide_eq_true in Hok. destruct Hok as [[-> Hn2] Hte].
  set (s2 := set_field_len (size name) s1).
  rewrite (exec_step _ _ n _ _ _ [A.write_field] n2 s1 s2); [|done|done|].
  2:{ rewrite (actions_cons _ _ _ _ _ s2); [done|]. cbn [act]. unfold modify, bind, ret, s2, LEN.
      rewrite Hfs1, wrap_small by (unfold in_u; lia). do 2 f_equal. lia. }
  destruct (client_exec_blanks n2 bl (p + size name + 1) (v ++ eol ++ rest) s2 Hn2 Hbl)
    as (s3 & -> & K3 & T3 & Hd3 & Hc3 & Hfs3 & Hfl3); [lia|lia|unfold tidy in *; cbn; lia|].
  destruct (client_exec_value n2 v (p + size name + 1 + size bl) rest s3 d Hn2 Hv)
    as (l' & s4 & Hl' & -> & K4 & T4 & Hd4 & Hc4); [|lia|lia|done|done| |].
  { destruct v as [|b v]; [done|]. exists b, v. split; [done|]. by destruct (space b). }
  { rewrite Hfs3, Hfl3, Hd3. cbn. by rewrite Hfs1, Hd1. }
  exists l', s4. split; [done|]. split; [done|].
  split; [eapply client_kept_trans; [done|]; eapply client_kept_trans; [|done]; done|].
  split; [done|]. split; [done|]. rewrite Hc4, Hc3. cbn. rewrite Hc1.
  unfold says_chunked, chunked_line. rewrite Hte, Hsp.
  destruct (state_of name_table (lowers name)) eqn:Est.
  - rewrite (bool_decide_ext _ (lowers name = of_lit "transfer-encoding")); [done|].
    split; congruence.
  - rewrite bool_decide_false by done.
    rewrite (bool_decide_false (lowers name = _)); [done|]. intros E. by rewrite E in Est.
Qed.

Lemma client_exec_headers hs l p rest s d :
  mem line_states l = true → forallb header_text hs = true → 0 ≤ p →
  p + size (headers_text hs) ≤ len → len < 2 ^ 31 → tidy s →
  header_calls fh buffer p hs (data s) = Ret tt d →
  ∃ l' s', mem line_states l' = true ∧
    run_from l p (headers_text hs ++ rest) s = run_from l' (p + size (headers_text hs)) rest s' ∧
    kept s s' ∧ tidy s' ∧ data s' = d ∧
    chunked s' = if existsb chunked_line hs then 1 else chunked s.
Proof.
  revert l p s. induction hs as [|[[name bl] v] hs IH]; intros l p s Hl0 Hh Hp Hl Hlen Ht Hc.
  - injection Hc as <-. exists l, s. split; [done|]. split; [cbn; by rewrite Z.add_0_r|done].
  - cbn [forallb] in Hh. apply andb_prop in Hh as [Hh Hhs].
    rewrite headers_text_cons in *. pose proof (size_header_line name bl v) as Hsz.
    rewrite length_app in Hl |- *. cbn [header_calls] in Hc.
    apply bind_inv in Hc as ([] & d1 & Hf & Hc). rewrite <- (assoc_L (++)).
    destruct (client_exec_header l name bl v p (headers_text hs ++ rest) s d1)
      as (l1 & s1 & Hl1 & -> & Hk & Ht1 & <- & Hc1); [done|done|lia|lia|done|done|done|].
    destruct (IH l1 (p + size name + 1 + size bl + size v + 2) s1)
      as (l2 & s2 & Hl2 & -> & Hk2 & Ht2 & Hd2 & Hc2); [done|done|lia|lia|done|done|done|].
    exists l2, s2. split; [done|]. split; [f_equal; lia|]. split; [by eapply client_kept_trans|].
    split; [done|]. split; [done|]. rewrite Hc2, Hc1. cbn [existsb].
    destruct (chunked_line (name, bl, v)), (existsb chunked_line hs); done.
Qed.

(** *** The status line and the end *)

Lemma exec_status_line minor code phrase rest s d1 d2 d3 :
  digit minor = true → forallb digit code = true → code ≠ [] →
  forallb text_char phrase = true → phrase ≠ [] →
  size code + size phrase + 12 ≤ len → len < 2 ^ 31 → tidy s →
  fv buffer 0 8 (data s) = Ret tt d1 → fs buffer 9 (size code) d1 = Ret tt d2 →
  fr buffer (size code + 10) (size phrase) d2 = Ret tt d3 →
  ∃ s', run_from 1 0 (version_text minor ++ " "%char :: code ++ " "%char :: phrase ++ eol ++ rest) s =
      run_from 20 (size code + size phrase + 12) rest s' ∧
    cs s' = cs s ∧ nread s' = nread s ∧ body_start s' = body_start s ∧
    tidy s' ∧ data s' = d3 ∧ chunked s' = chunked s.
Proof.
  intros Hm Hc Hcne Hp Hpne Hl Hlen (T1 & T2 & T3) Hf1 Hf2 Hf3.
  change (version_text minor ++ ?x) with ("H"%char :: (of_lit "TTP/1." ++ [minor]) ++ x).
  rewrite (exec_step _ _ 1 0 _ _ [A.mark] 8 s (set_mark 0 s)) by done.
  rewrite (exec_quiet _ _ 8 15).
  2:{ pose proof (forall_bytes (λ b, implb (digit b)
        (bool_decide (quiet machine 8 (of_lit "TTP/1." ++ [b]) = Some 15)))) as H.
      specialize (H ltac:(by vm_compute) minor). cbn beta in H. rewrite Hm in H.
      by apply bool_decide_eq_true in H. }
  set (s1 := set_data d1 (set_mark 0 s)).
  rewrite (exec_step _ _ 15 _ _ _ [A.http_version] 16 _ s1); [|by vm_compute|done|].
  2:{ rewrite (actions_cons _ _ _ _ _ s1); [done|].
      by apply (client_call_marked_ret fv _ (set_mark 0 s)); [cbn; lia|cbn; lia|]. }
  change (0 + 1 + size (of_lit "TTP/1." ++ [minor]) + 1) with 9.
  destruct code as [|c code]; [done|]. cbn [forallb] in Hc. apply andb_prop in Hc as [Hcd Hc].
  cbn [app]. rewrite (exec_step _ _ 16 9 c _ [A.mark] 17 s1 (set_mark 9 s1));
    [|by apply (class_step_spec machine digit 16 [A.mark] 17); [vm_compute|]|done..].
  rewrite (exec_quiet _ _ 17 17) by (apply (quiet_loop _ digit); [by vm_compute|done..]).
  cbn [length] in *.
  destruct (number_ret 10 (set_mark 9 s1) ltac:(lia) ltac:(cbn; lia)) as [v Hv].
  set (s2 := set_data d2 (set_status v (set_mark 9 s1))).
  rewrite (exec_step _ _ 17 _ _ _ [A.status_code] 18 _ s2); [|by vm_compute|done|].
  2:{ rewrite (actions_cons _ _ _ _ _ s2); [done|]. cbn [act]. rewrite (bind_Ret _ _ _ _ _ Hv).
      apply (client_call_marked_ret fs _ (set_status v (set_mark 9 s1))); [cbn; lia|lia|].
      cbn. rewrite <- Hf2. f_equal. lia. }
  destruct phrase as [|b phrase]; [done|]. cbn [forallb] in Hp. apply andb_prop in Hp as [Hb Hp].
  cbn [app]. set (q := 9 + 1 + size code + 1).
  rewrite (exec_step _ _ 18 q b _ [A.mark] 19 s2 (set_mark q s2));
    [|by apply (class_step_spec machine text_char 18 [A.mark] 19); [vm_compute|]|done..].
  rewrite (exec_quiet _ _ 19 19) by (apply (quiet_loop _ text_char); [by vm_compute|done..]).
  cbn [length] in *. set (s3 := set_data d3 (set_mark q s2)). cbn [eol app].
  rewrite (exec_step _ _ 19 _ _ _ [A.reason_phrase] 24 _ s3); [|by vm_compute|done|].
  2:{ rewrite (actions_cons _ _ _ _ _ s3); [done|].
      apply (client_call_marked_ret fr _ (set_mark q s2)); [cbn; unfold q; lia|unfold q; lia|].
      cbn. rewrite <- Hf3. unfold q. f_equal; lia. }
  rewrite (exec_step _ _ 24 _ _ _ [] 20 s3 s3); [|by vm_compute|done..].
  exists s3. split; [f_equal; unfold q; lia|]. split; [done|]. split; [done|]. split; [done|].
  split; [|done]. unfold tidy. cbn. unfold q. lia.
Qed.

Lemma exec_end l p rest s d :
  mem line_states l = true → 0 ≤ p → p + 2 ≤ len → len < 2 ^ 31 → tidy s →
  fd buffer (p + 2) (len - p - 2) (data s) = Ret tt d →
  ∃ s', run_from l p (eol ++ rest) s = Ret (p + 2, 120) s' ∧ tidy s' ∧
    cs s' = cs s ∧ nread s' = nread s ∧ body_start s' = p + 2 ∧ data s' = d ∧ chunked s' = chunked s.
Proof.
  intros Hl Hp Hle Hlen (T1 & T2 & T3) Hf. cbn [eol app].
  destruct (all_moves_spec machine _ _ _ l "013" head_cr Hl eq_refl) as (acts & n & Hon & H0 & Hok).
  rewrite andb_true_iff, orb_true_iff, !bool_decide_eq_true, Z.eqb_eq in Hok. destruct Hok as [Ha ->].
  assert (∃ s1, actions (act cb buffer len) acts p s = Ret false s1 ∧ kept s s1 ∧ tidy s1 ∧
    data s1 = data s ∧ chunked s1 = chunked s) as (s1 & Hact & (K1 & K2 & _) & Ht1 & Hd1 & Hc1).
  { destruct Ha as [-> | ->]; eexists; (split; [done|]); done. }
  rewrite (exec_step _ _ l p _ _ acts 3 s s1) by done.
  rewrite (exec_cons _ _ 3 _ _ _ [A.done] 120); [|by vm_compute|done].
  exists (set_data d (set_body_start (p + 2) s1)).
  cbn [actions act]. unfold bind, modify, ret. cbn [call cb header_done].
  rewrite !wrap_small by (unfold in_u; lia). unfold on_data. cbn [data set_body_start].
  replace (p + 1 + 1) with (p + 2) by lia. replace (len - (p + 1) - 1) with (len - p - 2) by lia.
  rewrite Hd1, Hf. split; [done|]. split; [done|]. cbn. split_and!; done.
Qed.

(** *** The whole head *)

Definition headers_at (r : Response) : Z := size (rs_code r) + size (rs_phrase r) + 12.

(** The calls for the status line and the header lines, and what follows them. *)
Definition line_calls (r : Response) (k : M D unit) : M D unit :=
  fv buffer 0 8 ;! fs buffer 9 (size (rs_code r)) ;!
  fr buffer (size (rs_code r) + 10) (size (rs_phrase r)) ;!
  header_calls fh buffer (headers_at r) (rs_lines r) ;! k.

Definition response_calls (r : Response) : M D unit :=
  line_calls r (fd buffer (size (response_head r)) (len - size (response_head r))).

Lemma size_response r : size (response_head r) = headers_at r + size (headers_text (rs_lines r)) + 2.
Proof.
  unfold response_head, headers_at, version_text.
  repeat (rewrite length_app || cbn [length]). cbn [length of_lit String.list_ascii_of_string eol]. lia.
Qed.

Lemma exec_response r body s d :
  well_formed r = true → size (response_head r) ≤ len → len < 2 ^ 31 → tidy s →
  response_calls r (data s) = Ret tt d →
  ∃ s', run_from 1 0 (response_head r ++ body) s = Ret (size (response_head r), 120) s' ∧
    tidy s' ∧ cs s' = cs s ∧ nread s' = nread s ∧ body_start s' = size (response_head r) ∧ data s' = d ∧
    chunked s' = if existsb chunked_line (rs_lines r) then 1 else chunked s.
Proof.
  unfold well_formed. rewrite !andb_true_iff, !negb_true_iff, !bool_decide_eq_false.
  intros [[[[[Hm Hc] Hcne] Hp] Hpne] Hh] Hl Hlen Ht Hcalls. unfold response_calls, line_calls in Hcalls.
  apply bind_inv in Hcalls as ([] & d1 & H1 & Hcalls). apply bind_inv in Hcalls as ([] & d2 & H2 & Hcalls).
  apply bind_inv in Hcalls as ([] & d3 & H3 & Hcalls). apply bind_inv in Hcalls as ([] & d4 & H4 & H5).
  rewrite size_response in *. unfold headers_at in *. unfold response_head. app_right.
  destruct (exec_status_line (rs_minor r) (rs_code r) (rs_phrase r)
    (headers_text (rs_lines r) ++ eol ++ body) s d1 d2 d3)
    as (s1 & -> & K1 & K2 & K3 & Ht1 & Hd1 & Hc1); [done..|lia|lia|done|done|done|done|].
  destruct (client_exec_headers (rs_lines r) 20 (size (rs_code r) + size (rs_phrase r) + 12) (eol ++ body) s1 d4)
    as (l & s2 & Hl2 & -> & (C1 & C2 & C3 & _) & Ht2 & Hd2 & Hc2); [done|done|lia|lia|done|done|by rewrite Hd1|].
  edestruct (exec_end l) as (s3 & -> & Ht3 & E1 & E2 & E3 & E4 & E5);
    [..|exists s3; split; [reflexivity|split; [exact Ht3|]]];
    [done|lia|lia|lia|done| |].
  { rewrite Hd2, <- H5. f_equal; lia. }
  split_and!; [congruence|congruence|done|done|]. by rewrite E5, Hc2, Hc1.
Qed.

(** *** A last header without a value *)

Definition known_names : list (list ascii) :=
  [of_lit "connection"; of_lit "content-length"; of_lit "transfer-encoding"].

(** The states after the colon of a known name, through two line ends. *)
Lemma known_colon : all_moves (Ascii.eqb ":") (name_table.*2) (λ n b acts n',
  same acts [A.write_field] &&
  implb (existsb (λ w, same (spells name_table n) (Some w)) known_names) (mem [35; 61; 112] n')) = true.
Proof. by vm_compute. Qed.

Lemma empty_value : all_moves (Ascii.eqb "013") [35; 61; 112] (λ n b acts n',
  same acts [A.start_value; A.write_value] && mem [95; 80; 118] n') = true.
Proof. by vm_compute. Qed.
Lemma empty_line : all_moves (Ascii.eqb "010") [95; 80; 118] (λ n b acts n',
  same acts [] && mem [36; 62; 113] n') = true.
Proof. by vm_compute. Qed.
Lemma empty_cr : all_moves (Ascii.eqb "013") [36; 62; 113] (λ n b acts n',
  same acts [] && mem [89; 72; 116] n') = true.
Proof. by vm_compute. Qed.
Lemma empty_done : all_moves (Ascii.eqb "010") [89; 72; 116] (λ n b acts n',
  same acts [A.done] && mem [121; 122; 123] n') = true.
Proof. by vm_compute. Qed.

Lemma exec_empty_end n p rest s d d' :
  mem [35; 61; 112] n = true → 0 ≤ p → p + 4 ≤ len → len < 2 ^ 31 → tidy s →
  fh buffer (field_start s) (field_len s) p 0 (data s) = Ret tt d →
  fd buffer (p + 4) (len - p - 4) d = Ret tt d' →
  ∃ n' s', mem [121; 122; 123] n' = true ∧ run_from n p (eol ++ eol ++ rest) s = Ret (p + 4, n') s' ∧
    tidy s' ∧ cs s' = cs s ∧ nread s' = nread s ∧ body_start s' = p + 4 ∧ data s' = d'.
Proof.
  intros Hn Hp Hle Hlen (T1 & T2 & T3) Hf Hd. cbn [eol app].
  destruct (all_moves_spec machine _ _ _ n "013" empty_value Hn eq_refl) as (acts & n1 & Hon1 & H1 & Hok).
  rewrite andb_true_iff, bool_decide_eq_true in Hok. destruct Hok as [-> Hn1].
  set (s1 := set_data d (set_mark p s)).
  rewrite (exec_step _ _ n p _ _ [A.start_value; A.write_value] n1 s s1); [|done|done|].
  2:{ cbn [actions act]. unfold bind, modify, ret, get, on_data, LEN. cbn [cb http_field mark set_mark field_start field_len data].
      rewrite Z.sub_diag. change (wrap 64 0) with 0. by rewrite Hf. }
  destruct (all_moves_spec machine _ _ _ n1 "010" empty_line Hn1 eq_refl) as (acts & n2 & Hon2 & H2 & Hok).
  rewrite andb_true_iff, bool_decide_eq_true in Hok. destruct Hok as [-> Hn2].
  rewrite (exec_step _ _ n1 _ _ _ [] n2 s1 s1) by done.
  destruct (all_moves_spec machine _ _ _ n2 "013" empty_cr Hn2 eq_refl) as (acts & n3 & Hon3 & H3 & Hok).
  rewrite andb_true_iff, bool_decide_eq_true in Hok. destruct Hok as [-> Hn3].
  rewrite (exec_step _ _ n2 _ _ _ [] n3 s1 s1) by done.
  destruct (all_moves_spec machine _ _ _ n3 "010" empty_done Hn3 eq_refl) as (acts & n4 & Hon4 & H4 & Hok).
  rewrite andb_true_iff, bool_decide_eq_true in Hok. destruct Hok as [-> Hn4].
  rewrite (exec_cons _ _ n3 _ _ _ [A.done] n4) by done.
  exists n4, (set_data d' (set_body_start (p + 4) s1)). split; [done|].
  cbn [actions act]. unfold bind, modify, ret. cbn [call cb header_done].
  rewrite !wrap_small by (unfold in_u; lia). unfold on_data. cbn [data set_body_start set_data s1].
  replace (p + 1 + 1 + 1 + 1) with (p + 4) by lia.
  replace (len - (p + 1 + 1 + 1) - 1) with (len - p - 4) by lia. rewrite Hd.
  split; [done|]. split; [unfold tidy; cbn; lia|done].
Qed.

(** The status line and the header lines. *)
Definition head_lines (r : Response) : list ascii :=
  version_text (rs_minor r) ++ " "%char :: rs_code r ++ " "%char :: rs_phrase r ++ eol ++
  headers_text (rs_lines r).

Lemma size_head_lines r : size (head_lines r) = headers_at r + size (headers_text (rs_lines r)).
Proof.
  unfold head_lines, headers_at, version_text.
  repeat (rewrite length_app || cbn [length]). cbn [length of_lit String.list_ascii_of_string eol]. lia.
Qed.

Lemma exec_empty_header r name rest s d6 :
  let at_ := size (head_lines r) in
  well_formed r = true → forallb token_char name = true → lowers name ∈ known_names →
  at_ + size name + 5 ≤ len → len < 2 ^ 31 → tidy s →
  line_calls r (fh buffer at_ (size name) (at_ + size name + 1) 0 ;!
                fd buffer (at_ + size name + 5) (len - at_ - size name - 5)) (data s) = Ret tt d6 →
  ∃ n' s', mem [121; 122; 123] n' = true ∧
    run_from 1 0 (head_lines r ++ name ++ ":"%char :: eol ++ eol ++ rest) s = Ret (at_ + size name + 5, n') s' ∧
    tidy s' ∧ cs s' = cs s ∧ nread s' = nread s ∧ body_start s' = at_ + size name + 5 ∧ data s' = d6.
Proof.
  intros at_. unfold well_formed. rewrite !andb_true_iff, !negb_true_iff, !bool_decide_eq_false.
  intros [[[[[Hm Hc] Hcne] Hp] Hpne] Hh] Hname Hk Hl Hlen Ht F6. unfold line_calls in F6.
  apply bind_inv in F6 as ([] & d1 & F1 & F6). apply bind_inv in F6 as ([] & d2 & F2 & F6).
  apply bind_inv in F6 as ([] & d3 & F3 & F6). apply bind_inv in F6 as ([] & d4 & F4 & F6).
  apply bind_inv in F6 as ([] & d5 & F5 & F6).
  pose proof (size_head_lines r) as Hat. fold at_ in Hat. unfold headers_at in *.
  unfold head_lines. app_right.
  destruct (exec_status_line (rs_minor r) (rs_code r) (rs_phrase r)
    (headers_text (rs_lines r) ++ name ++ ":"%char :: eol ++ eol ++ rest) s d1 d2 d3)
    as (s1 & -> & K1 & K2 & K3 & Ht1 & Hd1 & Hc1); [done..|lia|lia|done|done|done|done|].
  destruct (client_exec_headers (rs_lines r) 20 (size (rs_code r) + size (rs_phrase r) + 12)
    (name ++ ":"%char :: eol ++ eol ++ rest) s1 d4)
    as (l & s2 & Hl2 & -> & (C1 & C2 & C3 & _) & Ht2 & Hd2 & _); [done|done|lia|lia|done|done|by rewrite Hd1|].
  rewrite <- Hat.
  assert (name ≠ []) as Hne.
  { intros ->. unfold known_names in Hk. rewrite !elem_of_cons, elem_of_nil in Hk. by destruct_or? Hk. }
  destruct (exec_name l name at_ (":"%char :: eol ++ eol ++ rest) s2 Hl2 Hname Hne ltac:(lia) ltac:(lia) Ht2)
    as (n & s3 & Hn & Hsp & -> & (E1 & E2 & _) & Ht3 & Hd3 & _ & Hfs3).
  assert (state_of name_table (lowers name) ≠ None) as Hst.
  { unfold known_names in Hk. rewrite !elem_of_cons in Hk. destruct Hk as [-> |[-> |[-> |Hk]]]; try done.
    by apply not_elem_of_nil in Hk. }
  destruct (state_of name_table (lowers name)); [|done].
  assert (mem (name_table.*2) n = true) as Hn'.
  { unfold name_states, mem in *. cbn [existsb] in Hn. apply orb_prop in Hn as [->%Z.eqb_eq|]; [|done].
    change (spells name_table 21) with (@None (list ascii)) in Hsp. done. }
  destruct (all_moves_spec machine _ _ _ n ":" known_colon Hn' eq_refl) as (acts & n2 & Hon & H0 & Hok).
  rewrite andb_true_iff, bool_decide_eq_true, Hsp in Hok. destruct Hok as [-> Hk2].
  assert (existsb (λ w, same (Some (lowers name)) (Some w)) known_names = true) as Hex.
  { apply existsb_exists. exists (lowers name). split; [by apply list_elem_of_In|by apply bool_decide_eq_true]. }
  rewrite Hex in Hk2. cbn [implb] in Hk2.
  set (s4 := set_field_len (size name) s3).
  rewrite (exec_step _ _ n _ _ _ [A.write_field] n2 s3 s4); [|done|done|].
  2:{ rewrite (actions_cons _ _ _ _ _ s4); [done|]. cbn [act]. unfold modify, bind, ret, s4, LEN.
      rewrite Hfs3, wrap_small by (unfold in_u; lia). do 2 f_equal. lia. }
  destruct (exec_empty_end n2 (at_ + size name + 1) rest s4 d5 d6 Hk2)
    as (n' & s' & Hn2 & -> & Ht' & X1 & X2 & X3 & X4); [lia|lia|done|unfold tidy in *; cbn; lia| | |].
  { cbn [s4 field_start field_len data set_field_len]. by rewrite Hfs3, Hd3, Hd2. }
  { rewrite <- F6. f_equal; lia. }
  change (cs s4) with (cs s3) in X1. change (nread s4) with (nread s3) in X2.
  exists n', s'. split; [done|]. replace (at_ + size name + 1 + 4) with (at_ + size name + 5) in * by lia.
  split_and!; [done|done|congruence..].
Qed.

End execute.

End HttpclientText.
