(* ===== verification/Httpparser.v ===== *)
(** * Httpparser: HttpRequestParser and the session that uses it

    [HttpRequestParser] (http/http_parser.{h,cc}): the callbacks that fill a
    request, the parser object, [execute] with its [memmove], [hasError],
    [isFinished], [getContentLength]; and [HttpSession] (http/http_session.cc)
    over any stream.

    [request_dump_parses]: what [HttpRequest::dump] prints is parsed back.
    [query_cut_throws]: a query that arrives in two reads makes [execute] throw. *)
From S2P Require Import Prelude Util Httpmap Http Ragel Http11machine Http11 Cstring Httptext Http11text.
Import Ragel Http11 StdString CharBuffer.
#[local] Open Scope list_scope.
#[local] Open Scope Z_scope.

Module HttpParser.

Import CharBuffer.
#[local] Existing Instance Http.HttpMethod_eq_dec.
#[local] Existing Instance Http11Machine.action_eq_dec.
Import Http11Text.

(** ** The request being filled *)

Record request_data := {
  m_data : Http.HttpRequest;
  m_error : Z;
}.

Definition setError (v : Z) : M request_data unit :=
  λ d, Ret tt {| m_data := m_data d; m_error := v |}.
Definition update (f : Http.HttpRequest → Http.HttpRequest) : M request_data unit :=
  λ d, Ret tt {| m_data := f (m_data d); m_error := m_error d |}.

(** *** Callbacks *)

Definition on_request_method : element_cb request_data := λ buffer at_ length,
  let m := Http.CharsToHttpMethod (drop (Z.to_nat at_) buffer) in
  if bool_decide (m = Http.INVALID_METHOD) then setError 1000
  else update (Http.setMethod m).

Definition on_request_uri : element_cb request_data := λ buffer at_ length, ret tt.

Definition on_request_fragment : element_cb request_data := λ buffer at_ length,
  let! s := std_string buffer at_ length in update (Http.setFragment s).
Definition on_request_path : element_cb request_data := λ buffer at_ length,
  let! s := std_string buffer at_ length in update (Http.setPath s).
Definition on_request_query : element_cb request_data := λ buffer at_ length,
  let! s := std_string buffer at_ length in update (Http.setQuery s).

Definition on_request_version : element_cb request_data := λ buffer at_ length,
  let mem := drop (Z.to_nat at_) buffer in
  let! v11 := lift (strncmp_eq (Z.to_nat length) mem (of_lit "HTTP/1.1")) in
  if v11 : bool then update (Http.setVersion 17)
  else
    let! v10 := lift (strncmp_eq (Z.to_nat length) mem (of_lit "HTTP/1.0")) in
    if v10 : bool then update (Http.setVersion 16) else setError 1001.

Definition on_request_header_done : element_cb request_data := λ buffer at_ length, ret tt.

Definition on_request_http_field : field_cb request_data := λ buffer field flen value vlen,
  if flen =? 0 then ret tt
  else
    let! k := std_string buffer field flen in
    let! v := std_string buffer value vlen in
    update (Http.setHeader k v).

Definition request_callbacks : callbacks request_data :=
  cb on_request_http_field on_request_method on_request_uri on_request_fragment
    on_request_path on_request_query on_request_version on_request_header_done.

(** ** HttpRequestParser *)

Definition HttpRequestParser : Type := http_parser request_data.

(** The constructor.  [uri_relaxed] and [query_start] are members that neither it
    nor [http_parser_init] sets: they hold what the memory held. *)
Definition new_HttpRequestParser (relaxed query : Z) : HttpRequestParser :=
  let d := {| m_data := Http.new_HttpRequest 17 true; m_error := 0 |} in
  match http_parser_init (Parser 0 0 0 0 0 0 0 query 0 0 relaxed d) with
  | Ret _ s | Throw _ s => s
  | UB => Parser 0 0 0 0 0 0 0 query 0 0 relaxed d
  end.

(** [execute(data, len)]: the bytes parsed, and the buffer afterwards. *)
Definition execute (buffer : list ascii) (len : Z) : M HttpRequestParser (Z * list ascii) :=
  let! offset := http_parser_execute request_callbacks buffer len 0 in
  ret (offset, memmove_front buffer (Z.to_nat offset) (Z.to_nat (len - offset))).

Definition isFinished (p : HttpRequestParser) : Z := http_parser_finish p.
Definition hasError (p : HttpRequestParser) : bool :=
  negb (m_error (data p) =? 0) || http_parser_has_error p.
Definition getData (p : HttpRequestParser) : Http.HttpRequest := m_data (data p).

(** [boost::lexical_cast<uint64_t>] is a parameter. *)
Definition getContentLength (lexical_cast : list ascii → option Z) (p : HttpRequestParser) : Z :=
  Http.getHeaderAs lexical_cast (of_lit "content-length") 0 (getData p).

(** ** The callbacks return on what lies inside the buffer *)

Lemma strncmp_eq_total n mem lit : (n ≤ length mem)%nat → ∃ b, strncmp_eq n mem lit = Some b.
Proof.
  revert mem lit. induction n as [|n IH]; intros mem lit Hn; [by exists true|].
  destruct mem as [|c mem]; [cbn in Hn; lia|]. cbn [strncmp_eq].
  destruct lit as [|x lit]; [by eexists|]. destruct (Ascii.eqb c x); [|by eexists].
  apply IH. cbn in Hn. lia.
Qed.

Lemma request_callbacks_total buffer len :
  len ≤ Z.of_nat (length buffer) → Z.of_nat (length buffer) < 2 ^ 63 →
  callbacks_total request_callbacks buffer len.
Proof.
  intros Hl Hb. split; cbn [request_callbacks cb http_field request_method request_uri fragment
    request_path query_string http_version header_done].
  - intros f [= <-] at_ n at' n' d ? ? ? ? ? ?. unfold on_request_http_field.
    destruct (n =? 0); [by eexists|]. unfold bind. rewrite !std_string_ret by lia. by eexists.
  - intros f [= <-] at_ n d ? ? ?. unfold on_request_method. case_bool_decide; by eexists.
  - intros f [= <-] at_ n d ? ? ?. by eexists.
  - intros f [= <-] at_ n d ? ? ?. unfold on_request_fragment, bind.
    rewrite std_string_ret by lia. by eexists.
  - intros f [= <-] at_ n d ? ? ?. unfold on_request_path, bind.
    rewrite std_string_ret by lia. by eexists.
  - intros f [= <-] at_ n d ? ? ?. unfold on_request_query, bind.
    rewrite std_string_ret by lia. by eexists.
  - intros f [= <-] at_ n d ? ? ?. unfold on_request_version, bind.
    assert (Z.to_nat n ≤ length (drop (Z.to_nat at_) buffer))%nat as Hn
      by (rewrite length_drop; lia).
    destruct (strncmp_eq_total _ _ (of_lit "HTTP/1.1") Hn) as [[] ->]; [by eexists|].
    destruct (strncmp_eq_total _ _ (of_lit "HTTP/1.0") Hn) as [[] ->]; by eexists.
  - intros f [= <-] at_ n d ? ? ?. by eexists.
Qed.



(** ** Requests in, requests out *)

(** What the headers of a request amount to. *)
Definition header_map (hs : list header) (m : HttpMap.MapType)
    : HttpMap.MapType := foldl (λ m h, HttpMap.assign h.1.1 h.2 m) m hs.

Lemma header_map_find hs acc k v :
  HttpMap.sorted acc →
  default v (HttpMap.find k (header_map hs acc)) =
  foldl (λ v h, if decide (HttpMap.ci_eq h.1.1 k) then h.2 else v) (default v (HttpMap.find k acc)) hs.
Proof.
  revert acc. induction hs as [|h hs IH]; intros acc Hs; [done|].
  change (header_map (h :: hs) acc) with (header_map hs (HttpMap.assign h.1.1 h.2 acc)).
  cbn [foldl].
  rewrite IH by (by apply HttpMap.assign_sorted). rewrite HttpMap.find_assign by done.
  by case_decide.
Qed.

Definition set_headers (m : HttpMap.MapType) (d : request_data) : request_data :=
  {| m_data := Http.setHeaders m (m_data d); m_error := m_error d |}.

Lemma header_calls_run buffer hs pre post d :
  buffer = pre ++ headers_text hs ++ post → size buffer < 2 ^ 31 →
  forallb header_text hs = true →
  header_calls on_request_http_field buffer (size pre) hs d =
  Ret tt (set_headers (header_map hs (Http.m_headers (m_data d))) d).
Proof.
  intros Hbuf Hb Hh.
  rewrite (header_calls_fold _ _ (λ k v d, set_headers (HttpMap.assign k v (Http.m_headers (m_data d))) d)
    hs pre post d); [| |done|].
  - f_equal. clear. revert d. induction hs as [|h hs IH]; intros d; [by destruct d as [[] e]|].
    cbn [foldl]. rewrite IH. done.
  - intros pre1 name post1 pre2 v post2 d' H1 H2 Hne. unfold on_request_http_field.
    rewrite (proj2 (Z.eqb_neq _ 0)) by (destruct name; [done|cbn [length]; lia]).
    unfold bind. rewrite (std_string_piece buffer pre1 name post1) by done.
    by rewrite (std_string_piece buffer pre2 v post2) by done.
  - apply Forall_forall. intros [[name bl] v] Hin. rewrite forallb_forall in Hh.
    specialize (Hh _ (proj1 (list_elem_of_In _ _) Hin)). unfold header_text in Hh.
    rewrite !andb_true_iff, negb_true_iff, bool_decide_eq_false in Hh. tauto.
Qed.

(** The request that text describes. *)
Definition version_of (minor : ascii) : Z := if Ascii.eqb minor "1" then 17 else 16.
Definition parsed (m : Http.HttpMethod) (r : Request) : Http.HttpRequest :=
  {| Http.m_method := m; Http.m_version := version_of (rq_minor r); Http.m_close := true;
     Http.m_websocket := false; Http.m_parserParamFlag := 0; Http.m_path := rq_path r;
     Http.m_query := default [] (rq_query r); Http.m_fragment := default [] (rq_fragment r);
     Http.m_body := []; Http.m_headers := header_map (rq_headers r) [];
     Http.m_params := []; Http.m_cookies := [] |}.

(** A method's name before a blank is read as that method. *)
Lemma method_chars m rest :
  m ≠ Http.INVALID_METHOD →
  Http.CharsToHttpMethod (Http.HttpMethodToString m ++ " "%char :: rest) = m.
Proof. by destruct m. Qed.

Lemma version_read buffer pre minor post :
  buffer = pre ++ version_text minor ++ post → one_of (of_lit "01") minor = true →
  strncmp_eq 8 (drop (Z.to_nat (size pre)) buffer) (of_lit "HTTP/1.1") = Some (Ascii.eqb minor "1") ∧
  strncmp_eq 8 (drop (Z.to_nat (size pre)) buffer) (of_lit "HTTP/1.0") = Some (Ascii.eqb minor "0").
Proof.
  intros -> Hm. rewrite Nat2Z.id, drop_app_length.
  cbn in Hm. rewrite orb_false_r in Hm. apply orb_prop in Hm as [Hm|Hm];
    apply Ascii.eqb_eq in Hm as ->; done.
Qed.

(** The pieces of a buffer that begins with a request. *)
Definition before_target (r : Request) : list ascii := rq_method r ++ [" "%char].
Definition before_version (r : Request) : list ascii :=
  before_target r ++ rq_path r ++ query_part r ++ fragment_part r ++ [" "%char].
Definition before_headers (r : Request) : list ascii :=
  before_version r ++ version_text (rq_minor r) ++ eol.

Lemma size_before r :
  target_at r = size (before_target r) ∧ version_at r = size (before_version r) ∧
  headers_at r = size (before_headers r).
Proof.
  unfold headers_at, version_at, target_at, before_headers, before_version, before_target, version_text.
  rewrite !length_app. cbn. lia.
Qed.

Lemma target_calls_run buffer r post d :
  buffer = before_target r ++ rq_path r ++ query_part r ++ fragment_part r ++ post →
  size buffer < 2 ^ 31 → Http.m_query (m_data d) = [] → Http.m_fragment (m_data d) = [] →
  target_calls on_request_uri on_request_fragment on_request_path on_request_query buffer
    (target_at r) r d =
  Ret tt {| m_data := Http.setFragment (default [] (rq_fragment r))
              (Http.setQuery (default [] (rq_query r)) (Http.setPath (rq_path r) (m_data d)));
            m_error := m_error d |}.
Proof.
  intros Hbuf Hb Hq0 Hf0. destruct (size_before r) as (Ht & _ & _).
  unfold target_calls. unfold bind at 1, on_request_path at 1. unfold bind at 1.
  rewrite (std_string_piece buffer (before_target r) (rq_path r)
    (query_part r ++ fragment_part r ++ post)) by done.
  unfold query_part, fragment_part, update, bind in *.
  destruct d as [[me ve cl ws fl pa qu fr bo he pr co] e]. cbn in Hq0, Hf0. subst qu fr.
  destruct (rq_query r) as [q|]; cbn [from_option] in *.
  - unfold on_request_query, bind.
    rewrite (std_string_piece buffer (before_target r ++ rq_path r ++ ["?"%char]) q
      (from_option (cons "#"%char) [] (rq_fragment r) ++ post));
      [|rewrite Hbuf; by app_right|rewrite !length_app; cbn; lia|done].
    destruct (rq_fragment r) as [f|]; [|done]. cbn [from_option] in *. unfold on_request_uri, on_request_fragment, update, ret, bind.
    rewrite (std_string_piece buffer (before_target r ++ rq_path r ++ "?"%char :: q ++ ["#"%char]) f post);
      [done|rewrite Hbuf; by app_right| |done].
    rewrite Ht. rewrite !length_app. cbn [length]. rewrite !length_app. cbn. lia.
  - destruct (rq_fragment r) as [f|]; [|done]. cbn [from_option] in *. unfold on_request_uri, on_request_fragment, update, ret, bind.
    rewrite (std_string_piece buffer (before_target r ++ rq_path r ++ ["#"%char]) f post);
      [done|rewrite Hbuf; by app_right|rewrite !length_app; cbn; lia|done].
Qed.

Lemma request_calls_run m r body extra :
  let buffer := request_head r ++ body ++ extra in
  size buffer < 2 ^ 31 → forallb header_text (rq_headers r) = true →
  one_of (of_lit "01") (rq_minor r) = true → rq_method r = Http.HttpMethodToString m →
  m ≠ Http.INVALID_METHOD →
  request_calls on_request_http_field on_request_method on_request_uri on_request_fragment
    on_request_path on_request_query on_request_version on_request_header_done
    buffer (size (request_head r ++ body)) r
    {| m_data := Http.new_HttpRequest 17 true; m_error := 0 |} =
  Ret tt {| m_data := parsed m r; m_error := 0 |}.
Proof.
  intros buffer Hb Hh Hv Hm Hne. destruct (size_before r) as (_ & Hsv & Hsh).
  assert (buffer = before_target r ++ rq_path r ++ query_part r ++ fragment_part r ++ " "%char ::
    version_text (rq_minor r) ++ eol ++ headers_text (rq_headers r) ++ eol ++ body ++ extra) as Hbuf.
  { unfold buffer, request_head, before_target. by app_right. }
  unfold request_calls. unfold bind at 1, on_request_method at 1.
  assert (Http.CharsToHttpMethod (drop (Z.to_nat 0) buffer) = m) as ->.
  { rewrite Hbuf. change (drop (Z.to_nat 0) ?l) with l. unfold before_target. rewrite Hm.
    app_right. by apply method_chars. }
  rewrite bool_decide_false by done. unfold update, bind at 1.
  rewrite (target_calls_run buffer r _ _ Hbuf Hb) by done.
  unfold bind at 1, on_request_version at 1.
  rewrite Hsv. change (Z.to_nat 8) with 8%nat.
  destruct (version_read buffer (before_version r) (rq_minor r)
    (eol ++ headers_text (rq_headers r) ++ eol ++ body ++ extra)) as [-> ->];
    [rewrite Hbuf; unfold before_version; by app_right|done|].
  assert ((let! v11 := lift (Some (Ascii.eqb (rq_minor r) "1")) in
    if v11 : bool then update (Http.setVersion 17) else
    let! v10 := lift (Some (Ascii.eqb (rq_minor r) "0")) in
    if v10 : bool then update (Http.setVersion 16) else setError 1001) =
    λ d, update (Http.setVersion (version_of (rq_minor r))) d) as ->.
  { cbn in Hv. rewrite orb_false_r in Hv. apply orb_prop in Hv as [Hv|Hv];
      apply Ascii.eqb_eq in Hv as ->; done. }
  unfold update, bind at 1. rewrite Hsh.
  rewrite (header_calls_run buffer (rq_headers r) (before_headers r) (eol ++ body ++ extra));
    [done|rewrite Hbuf; unfold before_headers, before_version; by app_right|done|done].
Qed.

Lemma parse_run m r body extra relaxed query :
  let len := size (request_head r ++ body) in
  let buffer := request_head r ++ body ++ extra in
  well_formed (negb (relaxed =? 0)) r = true → rq_method r = Http.HttpMethodToString m →
  m ≠ Http.INVALID_METHOD → size buffer < 2 ^ 31 →
  ∃ p', execute buffer len (new_HttpRequestParser relaxed query) =
      Ret (size (request_head r), splice 0 body buffer) p' ∧
    isFinished p' = 1 ∧ hasError p' = false ∧ getData p' = parsed m r.
Proof.
  intros len buffer Hw Hm Hne Hb.
  assert (len < 2 ^ 31) as Hl by (unfold len, buffer in *; rewrite !length_app in *; lia).
  pose proof Hw as Hw'. unfold well_formed in Hw'. rewrite !andb_true_iff in Hw'.
  destruct Hw' as [[_ Hv] Hh].
  destruct (execute_request on_request_http_field on_request_method on_request_uri
    on_request_fragment on_request_path on_request_query on_request_version on_request_header_done
    r body extra (new_HttpRequestParser relaxed query) {| m_data := parsed m r; m_error := 0 |})
    as (s' & He & Hf & _ & Hd); [done|done|done|done|done|by apply request_calls_run|].
  exists s'. split; [|split; [done|]].
  - unfold execute. rewrite (bind_Ret _ _ _ _ _ He). unfold ret, memmove_front. do 3 f_equal.
    unfold buffer, len. rewrite Nat2Z.id, drop_app_length, length_app.
    rewrite take_app_length'; [done|lia].
  - unfold hasError, getData. rewrite Hd. split; [|done]. cbn.
    unfold http_parser_finish in Hf. by destruct (http_parser_has_error s').
Qed.

(** What a client asks for is what the server sees.  The bytes of any
    well-formed request with a method the server knows, followed by any body,
    are parsed without error in one [execute]: the request has exactly the
    method, path, query, fragment and version of the text, each header name maps
    to the value of its last line, the bytes reported consumed are those of the
    head, and the body is moved to the front of the buffer. *)
Theorem parse_request m r body extra relaxed query :
  let buffer := request_head r ++ body ++ extra in
  well_formed (negb (relaxed =? 0)) r = true → rq_method r = Http.HttpMethodToString m →
  m ≠ Http.INVALID_METHOD → size buffer < 2 ^ 31 →
  ∃ p' buffer', execute buffer (size (request_head r ++ body)) (new_HttpRequestParser relaxed query) =
      Ret (size (request_head r), buffer') p' ∧
    take (length body) buffer' = body ∧
    isFinished p' = 1 ∧ hasError p' = false ∧ getData p' = parsed m r ∧
    ∀ k v, Http.getHeader k v (getData p') =
      foldl (λ v h, if decide (HttpMap.ci_eq h.1.1 k) then h.2 else v) v (rq_headers r).
Proof.
  intros buffer Hw Hm Hne Hb.
  destruct (parse_run m r body extra relaxed query Hw Hm Hne Hb) as (p' & He & Hf & Herr & Hd).
  exists p', (splice 0 body buffer). split; [done|]. split; [unfold splice; rewrite take_0; cbn [app]; by rewrite take_app_length|].
  split; [done|]. split; [done|]. split; [done|]. intros k v. rewrite Hd.
  unfold Http.getHeader, parsed. cbn [Http.m_headers]. by rewrite header_map_find by constructor.
Qed.

(** A request with two lines for one header. *)
Definition sample_request : Request :=
  {| rq_method := of_lit "GET"; rq_path := of_lit "/a%20b"; rq_query := Some (of_lit "x=1");
     rq_fragment := None; rq_minor := "1";
     rq_headers := [(of_lit "Host", of_lit " ", of_lit "a.b"); (of_lit "X-A", [], of_lit "1");
                    (of_lit "x-a", of_lit "  ", of_lit "2 3")] |}.

Lemma parse_request_witness :
  well_formed false sample_request = true ∧
  ∃ p' buffer', execute (request_head sample_request ++ of_lit "body" ++ of_lit "zz")
      (size (request_head sample_request ++ of_lit "body")) (new_HttpRequestParser 0 99) =
      Ret (size (request_head sample_request), buffer') p' ∧
    take 4 buffer' = of_lit "body" ∧
    isFinished p' = 1 ∧ hasError p' = false ∧ getData p' = parsed Http.GET sample_request ∧
    ∀ k v, Http.getHeader k v (getData p') =
      foldl (λ v h, if decide (HttpMap.ci_eq h.1.1 k) then h.2 else v) v (rq_headers sample_request).
Proof.
  split; [by vm_compute|].
  apply (parse_request Http.GET sample_request (of_lit "body") (of_lit "zz") 0 99);
    [by vm_compute|done|done|vm_compute; done].
Defined.

(** ** Printed requests are parsed back *)

(** The text [HttpRequest::dump] prints, as a request. *)
Definition skipped (ws : bool) (k : list ascii) : bool :=
  negb ws && (HttpMap.strcasecmp k (of_lit "connection") =? 0).
Definition own_headers (bl : list ascii) (ws : bool) (m : list (list ascii * list ascii))
    : list header :=
  (λ i, (i.1, bl, i.2)) <$> filter (λ i, skipped ws i.1 = false) m.
Definition text_of (s : list ascii) : option (list ascii) := match s with [] => None | _ => Some s end.

Definition request_of (r : Http.HttpRequest) : Request :=
  {| rq_method := Http.HttpMethodToString (Http.m_method r);
     rq_path := Http.m_path r; rq_query := text_of (Http.m_query r);
     rq_fragment := text_of (Http.m_fragment r);
     rq_minor := if Http.m_version r =? 17 then "1"%char else "0"%char;
     rq_headers :=
       (if negb (Http.m_websocket r) then
          [(of_lit "connection", [], of_lit (if Http.m_close r then "close" else "keep-alive"))]
        else []) ++
       own_headers [] (Http.m_websocket r) (Http.m_headers r) ++
       match Http.m_body r with
       | [] => []
       | b => [(of_lit "content-length", of_lit " ", Http.show (size b))]
       end |}.

Lemma print_own bl ws m :
  Http.print_headers ws m (":"%char :: bl) = headers_text (own_headers bl ws m).
Proof.
  unfold Http.print_headers, own_headers.
  induction m as [|[k v] m IH]; [done|]. cbn [flat_map fst snd].
  destruct (skipped ws k) eqn:Hk; pose proof Hk as Hk'; unfold skipped in Hk'; rewrite Hk'.
  - rewrite filter_cons_False by (cbn; congruence). done.
  - rewrite filter_cons_True by done. rewrite fmap_cons.
    change (headers_text (?h :: ?hs)) with (header_line h ++ headers_text hs).
    rewrite <- IH. cbn [header_line fst snd of_lit String.list_ascii_of_string]. by app_right.
Qed.

Lemma dump_request r :
  Http.m_version r = 16 ∨ Http.m_version r = 17 →
  Http.dump r = request_head (request_of r) ++ Http.m_body r.
Proof.
  intros Hv. unfold Http.dump, request_head.
  cbn [request_of rq_method rq_path rq_query rq_fragment rq_minor rq_headers].
  change (of_lit ":") with [":"%char]. rewrite !headers_text_app, print_own.
  assert (of_lit " HTTP/" ++ Http.show (Z.shiftr (Http.m_version r) 4) ++ of_lit "." ++
    Http.show (Z.land (Http.m_version r) 15) =
    " "%char :: version_text (if Http.m_version r =? 17 then "1"%char else "0"%char)) as Hver
    by (destruct Hv as [-> | ->]; by vm_compute).
  unfold query_part, fragment_part. cbn [request_of rq_query rq_fragment].
  set (vt := version_text _) in *. set (own := own_headers _ _ _). set (name := Http.HttpMethodToString _).
  assert (∀ x, of_lit " HTTP/" ++ Http.show (Z.shiftr (Http.m_version r) 4) ++ of_lit "." ++
    Http.show (Z.land (Http.m_version r) 15) ++ x = " "%char :: vt ++ x) as ->.
  { intros x. rewrite !(assoc_L (++)). rewrite <- (assoc_L (++) _ _ (Http.show _)).
    rewrite <- (assoc_L (++) (of_lit " HTTP/")), Hver. done. }
  destruct (Http.m_query r), (Http.m_fragment r), (Http.m_websocket r), (Http.m_body r) as [|b0 bs];
    cbn [text_of from_option negb headers_text fmap list_fmap concat header_line app]; app_right;
    try done.
Qed.

(** Looking a key up in the lines of a map. *)
Abbreviation last_line k := (λ (v : list ascii) (h : header),
  if decide (HttpMap.ci_eq h.1.1 k) then h.2 else v).

Lemma last_line_none k v hs :
  Forall (λ h, ¬ HttpMap.ci_eq h.1.1 k) hs → foldl (last_line k) v hs = v.
Proof. induction 1 as [|h hs Hh _ IH]; [done|]. cbn [foldl]. by rewrite decide_False. Qed.

Lemma last_line_own bl ws k v m :
  HttpMap.sorted m → skipped ws k = false →
  foldl (last_line k) v (own_headers bl ws m) = default v (HttpMap.find k m).
Proof.
  intros Hs Hk. revert v. induction Hs as [|[key val] m Hs IH Hf]; intros v; [done|].
  assert (skipped ws key = true → ¬ HttpMap.ci_eq key k) as Hskip.
  { intros H Heq. unfold skipped in H, Hk. by rewrite Heq, Hk in H. }
  assert (∀ v', (HttpMap.lt k key ∨ HttpMap.ci_eq key k) →
    foldl (last_line k) v' (own_headers bl ws m) = v') as Habove.
  { intros v' Hlt. apply last_line_none, Forall_forall.
    intros h ([k' v''] & -> & [_ Hi]%list_elem_of_filter)%list_elem_of_fmap Heq.
    rewrite Forall_forall in Hf. pose proof (Hf _ Hi) as Hk'. cbn in *. rewrite <- Heq in Hlt.
    destruct Hlt as [Hlt|Hlt]; [by apply (HttpMap.lt_asym key k')|by apply (HttpMap.lt_irrefl key k')]. }
  unfold own_headers. destruct (skipped ws key) eqn:Hsk.
  - rewrite filter_cons_False by (cbn; congruence). fold (own_headers bl ws m).
    destruct (HttpMap.compare_spec key k) as [Hlt _|Hlt _|Heq]; [| |by apply Hskip in Heq].
    + by rewrite IH, HttpMap.find_lt.
    + rewrite HttpMap.find_gt by done. apply Habove. by left.
  - rewrite filter_cons_True by done. rewrite fmap_cons. cbn [foldl fst snd]. fold (own_headers bl ws m).
    destruct (HttpMap.compare_spec key k) as [Hlt _|Hlt _|Heq].
    + rewrite decide_False by (intros Heq; by apply (HttpMap.lt_irrefl key k)).
      by rewrite IH, HttpMap.find_lt.
    + rewrite decide_False by (intros Heq; symmetry in Heq; by apply (HttpMap.lt_irrefl k key)).
      rewrite HttpMap.find_gt by done. apply Habove. by left.
    + rewrite decide_True by done. rewrite HttpMap.find_eq by done. apply Habove. by right.
Qed.

(** Parsing what [dump] prints. *)
Lemma dump_parses_run r extra relaxed query :
  well_formed (negb (relaxed =? 0)) (request_of r) = true →
  Http.m_version r = 16 ∨ Http.m_version r = 17 → Http.m_method r ≠ Http.INVALID_METHOD →
  HttpMap.sorted (Http.m_headers r) → Http.m_websocket r = false → size (Http.dump r ++ extra) < 2 ^ 31 →
  ∃ p' buffer', execute (Http.dump r ++ extra) (size (Http.dump r)) (new_HttpRequestParser relaxed query) =
      Ret (size (Http.dump r) - size (Http.m_body r), buffer') p' ∧
    take (length (Http.m_body r)) buffer' = Http.m_body r ∧ isFinished p' = 1 ∧ hasError p' = false ∧
    Http.m_method (getData p') = Http.m_method r ∧ Http.m_path (getData p') = Http.m_path r ∧
    Http.m_query (getData p') = Http.m_query r ∧ Http.m_fragment (getData p') = Http.m_fragment r ∧
    Http.m_version (getData p') = Http.m_version r ∧
    (∀ k v, ¬ HttpMap.ci_eq k (of_lit "connection") → ¬ HttpMap.ci_eq k (of_lit "content-length") →
       Http.getHeader k v (getData p') = Http.getHeader k v r) ∧
    Http.getHeader (of_lit "connection") [] (getData p') =
      of_lit (if Http.m_close r then "close" else "keep-alive") ∧
    (Http.m_body r ≠ [] →
       Http.getHeader (of_lit "content-length") [] (getData p') = Http.show (size (Http.m_body r))).
Proof.
  intros Hw Hv Hm Hs Hws Hb. rewrite (dump_request r Hv) in *. rewrite <- (assoc_L (++)) in *.
  destruct (parse_run (Http.m_method r) (request_of r) (Http.m_body r) extra relaxed query Hw eq_refl Hm Hb)
    as (p' & He & Hf & Herr & Hd).
  exists p', (splice 0 (Http.m_body r) (request_head (request_of r) ++ Http.m_body r ++ extra)).
  rewrite He. split; [do 2 f_equal; rewrite length_app; lia|].
  split; [unfold splice; rewrite take_0; cbn [app]; by rewrite take_app_length|].
  split; [done|]. split; [done|]. rewrite Hd. unfold parsed, request_of, Http.getHeader.
  cbn [rq_method rq_path rq_query rq_fragment rq_minor rq_headers Http.m_method Http.m_path
    Http.m_query Http.m_fragment Http.m_version Http.m_headers].
  split; [done|]. split; [done|]. split; [by destruct (Http.m_query r)|].
  split; [by destruct (Http.m_fragment r)|]. split; [by destruct Hv as [-> | ->]|].
  rewrite Hws. cbn [negb].
  split; [|split].
  - intros k v Hk1 Hk2. rewrite header_map_find by constructor. cbn [app foldl fst snd].
    rewrite decide_False by (intros Heq; by rewrite Heq in Hk1). rewrite foldl_app.
    rewrite last_line_own; [|done|].
    + destruct (Http.m_body r); [done|]. cbn [foldl fst snd].
      rewrite decide_False by (intros Heq; by rewrite Heq in Hk2). done.
    + unfold skipped. cbn. apply Z.eqb_neq. by rewrite HttpMap.strcasecmp_zero.
  - rewrite header_map_find by constructor. cbn [app foldl fst snd].
    rewrite decide_True by done. rewrite foldl_app, (last_line_none _ _ (own_headers _ _ _)).
    { destruct (Http.m_body r); [done|]. cbn [foldl fst snd].
      by rewrite decide_False by (intros Heq; by vm_compute in Heq). }
    apply Forall_forall. intros h ([k v] & -> & [Hi _]%list_elem_of_filter)%list_elem_of_fmap Heq.
    cbn in Hi, Heq. by apply Z.eqb_neq in Hi as []; apply HttpMap.strcasecmp_zero.
  - intros Hbody. rewrite header_map_find by constructor. cbn [app foldl fst snd].
    rewrite foldl_app. destruct (Http.m_body r) as [|b0 bs]; [done|]. cbn [foldl fst snd].
    by rewrite decide_True by done.
Qed.

(** C5. A request survives printing and parsing.  When the parts of a request are
    ones its text can carry, parsing what [HttpRequest::dump] prints gives back
    the method, path, query, fragment, version and body, and every header other
    than the two that [dump] writes itself, which come back as [connection] set
    from the close flag and [content-length] set from the body. *)
Theorem request_dump_parses r extra relaxed query :
  well_formed (negb (relaxed =? 0)) (request_of r) = true →
  Http.m_version r = 16 ∨ Http.m_version r = 17 → Http.m_method r ≠ Http.INVALID_METHOD →
  HttpMap.sorted (Http.m_headers r) → Http.m_websocket r = false → size (Http.dump r ++ extra) < 2 ^ 31 →
  ∃ p' buffer', execute (Http.dump r ++ extra) (size (Http.dump r)) (new_HttpRequestParser relaxed query) =
      Ret (size (Http.dump r) - size (Http.m_body r), buffer') p' ∧
    take (length (Http.m_body r)) buffer' = Http.m_body r ∧ isFinished p' = 1 ∧ hasError p' = false ∧
    Http.m_method (getData p') = Http.m_method r ∧ Http.m_path (getData p') = Http.m_path r ∧
    Http.m_query (getData p') = Http.m_query r ∧ Http.m_fragment (getData p') = Http.m_fragment r ∧
    Http.m_version (getData p') = Http.m_version r ∧
    (∀ k v, ¬ HttpMap.ci_eq k (of_lit "connection") → ¬ HttpMap.ci_eq k (of_lit "content-length") →
       Http.getHeader k v (getData p') = Http.getHeader k v r) ∧
    Http.getHeader (of_lit "connection") [] (getData p') =
      of_lit (if Http.m_close r then "close" else "keep-alive") ∧
    (Http.m_body r ≠ [] →
       Http.getHeader (of_lit "content-length") [] (getData p') = Http.show (size (Http.m_body r))).
Proof. apply dump_parses_run. Qed.

Definition sample_http : Http.HttpRequest :=
  Http.setBody (of_lit "hello")
    (Http.setHeader (of_lit "Host") (of_lit "a.b")
      (Http.setQuery (of_lit "q=1&r=%41") (Http.setPath (of_lit "/x/y")
        (Http.setMethod Http.POST (Http.new_HttpRequest 17 false))))).

Lemma request_dump_parses_witness :
  ∃ p' buffer', execute (Http.dump sample_http ++ of_lit "zz") (size (Http.dump sample_http))
      (new_HttpRequestParser 1 99) =
      Ret (size (Http.dump sample_http) - 5, buffer') p' ∧
    take 5 buffer' = of_lit "hello" ∧ Http.m_path (getData p') = of_lit "/x/y" ∧
    Http.getHeader (of_lit "HOST") [] (getData p') = of_lit "a.b".
Proof.
  destruct (request_dump_parses sample_http (of_lit "zz") 1 99)
    as (p' & buffer' & He & Ht & _ & _ & _ & Hp & _ & _ & _ & Hh & _);
    [by vm_compute|by right|done|repeat constructor|done|vm_compute; done|].
  exists p', buffer'. split; [exact He|]. split; [exact Ht|]. split; [exact Hp|].
  rewrite Hh; [by vm_compute|intros H; by vm_compute in H..].
Defined.

(** ** A query cut by the end of a read *)

(** The first bytes of a request, up to somewhere in its query. *)
Definition query_prefix (m : Http.HttpMethod) (path q1 : list ascii) : list ascii :=
  Http.HttpMethodToString m ++ " "%char :: path ++ "?"%char :: q1.

Lemma tidy_cleared len relaxed query :
  0 < len → tidy len (cleared (new_HttpRequestParser relaxed query)).
Proof. intros. unfold tidy. cbn. lia. Qed.

Lemma prefix_run m path q1 relaxed query :
  let text := query_prefix m path q1 in
  let b := negb (relaxed =? 0) in
  m ≠ Http.INVALID_METHOD → forallb method_char (Http.HttpMethodToString m) = true →
  path_text b path = true → pct_text (queryc b) q1 = true → q1 ≠ [] → size text < 2 ^ 31 →
  ∃ p, execute text (size text) (new_HttpRequestParser relaxed query) = Ret (size text, text) p ∧
    hasError p = false ∧ isFinished p = 0 ∧ cs p = 30 ∧ uri_relaxed p = relaxed ∧
    query_start p = size (Http.HttpMethodToString m) + size path + 2.
Proof.
  intros text b Hm Hmc Hp Hq Hne Hb. set (name := Http.HttpMethodToString m) in *.
  assert (size text = size name + 1 + size path + 1 + size q1) as Hsz.
  { unfold text, query_prefix. fold name. repeat (rewrite length_app || cbn [length]). lia. }
  assert (1 ≤ size name ≤ 20) as Hn.
  { assert (forallb (λ m, (1 <=? length (Http.HttpMethodToString m))%nat &&
      (length (Http.HttpMethodToString m) <=? 20)%nat) [m] = true) as H
      by (clear; destruct m; by vm_compute).
    cbn [forallb] in H. fold name in H. rewrite andb_true_r in H.
    apply andb_prop in H as [H1 H2]. apply Nat.leb_le in H1, H2. lia. }
  set (s0 := cleared (new_HttpRequestParser relaxed query)).
  set (len := size text) in *.
  set (d1 := {| m_data := Http.setMethod m (Http.new_HttpRequest 17 true); m_error := 0 |}).
  destruct (exec_method on_request_http_field on_request_method on_request_uri on_request_fragment
    on_request_path on_request_query on_request_version on_request_header_done text len b name 0
    (path ++ "?"%char :: q1) s0 d1) as (s1 & He1 & K1 & T1 & Hd1);
    [done|lia|lia|lia|lia|apply tidy_cleared; lia| |].
  { unfold on_request_method. change (drop (Z.to_nat 0) text) with text.
    unfold text, query_prefix. rewrite method_chars, bool_decide_false by done. done. }
  destruct (exec_path on_request_http_field on_request_method on_request_uri on_request_fragment
    on_request_path on_request_query on_request_version on_request_header_done text len b path
    (0 + size name + 1) ("?"%char :: q1) s1 Hp) as (n & Hn' & He2).
  unfold path_end in Hn'. rewrite !andb_true_iff in Hn'. destruct Hn' as [_ Hn'].
  set (e := 0 + size name + 1 + size path) in *.
  set (s2 := set_data {| m_data := Http.setPath path (m_data d1); m_error := 0 |}
    (set_mark (0 + size name + 1) s1)).
  assert (exec (machine b) (act request_callbacks text len) 1 0 text s0 =
    Ret (len, 30) (set_query_start (e + 1) s2)) as He.
  { unfold request_callbacks, text at 2, query_prefix. fold name. rewrite He1, He2.
    rewrite (exec_step _ _ n e _ _ [A.request_path] 29 _ s2);
      [|by apply (class_step_spec _ _ _ _ _ _ Hn')|done|].
    2:{ rewrite (actions_cons _ _ _ _ _ s2); [done|].
        apply (call_marked_ret text on_request_path e (set_mark (0 + size name + 1) s1));
          [cbn [mark set_mark]; unfold e; lia|unfold e; lia|].
        cbn [mark set_mark data]. unfold on_request_path.
        replace (e - (0 + size name + 1)) with (size path) by (unfold e; lia).
        unfold bind. rewrite (std_string_piece text (name ++ [" "%char]) path ("?"%char :: q1));
          [by rewrite Hd1|unfold text, query_prefix; by app_right|rewrite length_app; cbn; lia|done]. }
    replace q1 with (q1 ++ []) by apply app_nil_r.
    rewrite (exec_pct_entry _ _ (queryc b) (queryc b) 29 [A.start_query] 30 31 32 (e + 1)
      q1 [] s2 (set_query_start (e + 1) s2)); [|destruct b; by vm_compute..|done| |done].
    - cbn [exec]. unfold ret. do 2 f_equal. unfold e. lia.
    - destruct q1 as [|c q]; [done|]. by exists c, q. }
  destruct K1 as (Hc & Hr & Hu & _ & _ & Hbs). destruct T1 as (M1 & M2 & M3).
  assert (http_parser_has_error (set_query_start (e + 1) s2) = false) as Hne2
    by (unfold http_parser_has_error; cbn [cs set_query_start set_data set_mark s2]; by rewrite Hc).
  exists (set_nread (len - 0) (set_cs 30 (set_query_start (e + 1) s2))).
  unfold execute. unfold bind at 1.
  rewrite (execute_exec request_callbacks text len 0 len 30 _ (set_query_start (e + 1) s2));
    [rewrite Hne2| lia|lia|lia|lia| |unfold tidy; cbn; lia| |done].
  - split; [|split; [done|split; [done|split; [done|split; [by cbn; rewrite Hu|cbn; unfold e; lia]]]]].
    unfold ret. rewrite Z.sub_0_r. do 2 f_equal. unfold memmove_front, splice.
    replace (Z.to_nat (len - len)) with 0%nat by lia. by rewrite !take_0, drop_0.
  - rewrite <- He. f_equal. change (Z.to_nat 0) with 0%nat. rewrite drop_0.
    rewrite take_ge; [done|]. unfold len. lia.
  - cbn [body_start set_query_start set_data set_mark s2]. rewrite Hbs. cbn. lia.
Qed.

(** A query that arrives in two reads makes the server throw.  When the bytes
    of one read end inside the query string and the next read brings the rest of
    the query and the blank behind it, with less of the query than the text
    before it, the second [execute] throws [std::length_error]: [query_start]
    still counts from the first buffer, and the length computed from it wraps. *)
Theorem query_cut_throws m path q1 q2 rest extra relaxed query :
  let text := query_prefix m path q1 in
  let b := negb (relaxed =? 0) in
  m ≠ Http.INVALID_METHOD → forallb method_char (Http.HttpMethodToString m) = true →
  path_text b path = true → pct_text (queryc b) q1 = true → q1 ≠ [] →
  pct_text (queryc b) q2 = true →
  size q2 < size (Http.HttpMethodToString m) + size path + 2 →
  size text < 2 ^ 31 → size (q2 ++ " "%char :: rest ++ extra) < 2 ^ 31 →
  ∃ p, execute text (size text) (new_HttpRequestParser relaxed query) = Ret (size text, text) p ∧
    hasError p = false ∧ isFinished p = 0 ∧
    ∃ p', execute (q2 ++ " "%char :: rest ++ extra) (size (q2 ++ " "%char :: rest)) p = Throw logic_error p'.
Proof.
  intros text b Hm Hmc Hp Hq1 Hne Hq2 Hlt Hb1 Hb2.
  destruct (prefix_run m path q1 relaxed query Hm Hmc Hp Hq1 Hne Hb1)
    as (p & He & Herr & Hfin & Hcs & Hu & Hqs).
  exists p. split; [done|]. split; [done|]. split; [done|].
  set (text2 := q2 ++ " "%char :: rest ++ extra). set (len := size (q2 ++ " "%char :: rest)).
  assert (size q2 < len ∧ len ≤ size text2 ∧ len < 2 ^ 31) as (Hl1 & Hl2 & Hl3).
  { unfold len, text2 in *. rewrite !length_app in *. cbn [length] in *. rewrite length_app in *. lia. }
  exists (cleared p). unfold execute. apply bind_Throw. unfold http_parser_execute.
  rewrite (proj2 (Z.eqb_neq len 0)) by lia.
  unfold modify, bind at 1 2 3 4. rewrite bind_get. fold (cleared p).
  unfold bind at 1. rewrite assert_ok by lia. unfold bind at 1. rewrite assert_ok.
  2:{ unfold same_distance. rewrite !swrap_small by (unfold in_s; lia).
      rewrite bool_decide_true by (unfold in_s; lia). cbn. lia. }
  rewrite (proj2 (Z.ltb_ge _ _)) by lia. apply bind_Throw.
  change (Z.to_nat 0) with 0%nat. rewrite drop_0, Z.sub_0_r.
  replace (take (Z.to_nat len) text2) with (q2 ++ " "%char :: rest).
  2:{ unfold text2, len. rewrite Nat2Z.id.
      replace (q2 ++ " "%char :: rest ++ extra) with ((q2 ++ " "%char :: rest) ++ extra) by by app_right.
      by rewrite take_app_length. }
  cbn [cs uri_relaxed cleared set_field_start set_field_len set_mark set_nread]. rewrite Hcs, Hu. fold b.
  rewrite (exec_quiet _ _ 30 30) by
    (apply (quiet_pct _ (queryc b) 30 31 32); [destruct b; by vm_compute|done]).
  rewrite (exec_cons _ _ 30 _ _ _ [A.query_string; A.request_uri] 4); [|destruct b; by vm_compute|done].
  apply bind_Throw. cbn [actions act]. apply bind_Throw, bind_Throw. rewrite bind_get.
  cbn [call request_callbacks cb query_string query_start cleared set_field_start set_field_len set_mark set_nread].
  unfold on_data, on_request_query, bind, std_string, LEN. rewrite Hqs.
  assert (max_size < wrap 64 (0 + size q2 - (size (Http.HttpMethodToString m) + size path + 2))) as Hbig.
  { unfold wrap, max_size. assert (size (Http.HttpMethodToString m) + size path + 2 ≤ size text) as Hle.
    { unfold text, query_prefix. repeat (rewrite length_app || cbn [length]).
      destruct q1; [done|cbn [length]; lia]. }
    rewrite <- (Z.mod_add _ 1) by lia. rewrite Z.mod_small; lia. }
  by rewrite (proj2 (Z.ltb_lt _ _)) by done.
Qed.

Lemma query_cut_throws_witness :
  ∃ p, execute (of_lit "GET /a?x=1") 10 (new_HttpRequestParser 0 0) = Ret (10, of_lit "GET /a?x=1") p ∧
    hasError p = false ∧ isFinished p = 0 ∧
    ∃ p', execute (of_lit "23 HTTP/1.1") 11 p = Throw logic_error p'.
Proof.
  apply (query_cut_throws Http.GET (of_lit "/a") (of_lit "x=1") (of_lit "23") (of_lit "HTTP/1.1") [] 0 0);
    try done; by vm_compute.
Defined.

End HttpParser.
