(* ===== verification/Httpresponse.v ===== *)
(** * Httpresponse: HttpResponseParser

    [HttpResponseParser] (http/http_parser.{h,cc}): the callbacks that fill a
    response and the parser object with its chunk mode.

    [client_parse_run]: the head of a response is parsed into its parts.
    [response_dump_parses]: what [HttpResponse::dump] prints is parsed back.
    [empty_header_never_finishes]: heads that are read and never finished. *)
From S2P Require Import Prelude Util Httpmap Http Ragel Httpclientmachine Httpclient Cstring Httptext Httpclienttext Http11 Http11text Httpparser.
Import Ragel StdString CharBuffer.
Import Httpclient HttpclientText.
#[local] Open Scope list_scope.
#[local] Open Scope Z_scope.

Module HttpResponseParser.

#[local] Existing Instance HttpclientMachine.action_eq_dec.

Record response_data := {
  m_data : Http.HttpResponse;
  m_error : Z;
}.

Definition setError (v : Z) : M response_data unit :=
  λ d, Ret tt {| m_data := m_data d; m_error := v |}.
Definition update (f : Http.HttpResponse → Http.HttpResponse) : M response_data unit :=
  λ d, Ret tt {| m_data := f (m_data d); m_error := m_error d |}.

(** *** Callbacks *)

Definition on_response_reason : element_cb response_data := λ buffer at_ length,
  let! s := std_string buffer at_ length in update (Http.rs_setReason s).

(** [(HttpStatus)atoi(at)] *)
Definition on_response_status : element_cb response_data := λ buffer at_ length,
  let! v := lift (strtol 10 (drop (Z.to_nat at_) buffer)) in
  update (Http.rs_setStatus (swrap 32 v)).

Definition on_response_chunk : element_cb response_data := λ buffer at_ length, ret tt.

Definition on_response_version : element_cb response_data := λ buffer at_ length,
  let mem := drop (Z.to_nat at_) buffer in
  let! v11 := lift (strncmp_eq (Z.to_nat length) mem (of_lit "HTTP/1.1")) in
  if v11 : bool then update (Http.rs_setVersion 17)
  else
    let! v10 := lift (strncmp_eq (Z.to_nat length) mem (of_lit "HTTP/1.0")) in
    if v10 : bool then update (Http.rs_setVersion 16) else setError 1001.

Definition on_response_header_done : element_cb response_data := λ buffer at_ length, ret tt.
Definition on_response_last_chunk : element_cb response_data := λ buffer at_ length, ret tt.

Definition on_response_http_field : field_cb response_data := λ buffer field flen value vlen,
  if flen =? 0 then ret tt
  else
    let! k := std_string buffer field flen in
    let! v := std_string buffer value vlen in
    update (Http.rs_setHeader k v).

Definition response_callbacks : callbacks response_data :=
  cb on_response_http_field on_response_reason on_response_status on_response_chunk
    on_response_version on_response_header_done on_response_last_chunk.

(** *** The parser object *)

Definition HttpResponseParser : Type := httpclient_parser response_data.

Definition init_parser (p : HttpResponseParser) : HttpResponseParser :=
  match httpclient_parser_init p with Ret _ s | Throw _ s => s | UB => p end.

(** The constructor; [status] is a member nothing initialises. *)
Definition new_HttpResponseParser (garbage : Z) : HttpResponseParser :=
  init_parser (Parser 0 0 0 garbage 0 0 0 0 0 0 0
    {| m_data := Http.new_HttpResponse 17 true; m_error := 0 |}).

(** [execute(data, len, chunck)]: the [int] result becomes a [size_t]; moving
    from outside the buffer is undefined. *)
Definition execute (buffer : list ascii) (len : Z) (chunck : bool)
    : M HttpResponseParser (Z * list ascii) :=
  (if chunck then λ p, Ret tt (init_parser p) else ret tt) ;!
  let! rt := httpclient_parser_execute response_callbacks buffer len 0 in
  let offset := wrap 64 rt in
  if len <? offset then ub
  else ret (offset, memmove_front buffer (Z.to_nat offset) (Z.to_nat (len - offset))).

Definition isFinished (p : HttpResponseParser) : Z := httpclient_parser_finish p.
Definition hasError (p : HttpResponseParser) : bool :=
  negb (m_error (data p) =? 0) || httpclient_parser_has_error p.
Definition getData (p : HttpResponseParser) : Http.HttpResponse := m_data (data p).
Definition getContentLength (lexical_cast : list ascii → option Z) (p : HttpResponseParser) : Z :=
  Http.getAs lexical_cast (Http.rs_headers (getData p)) (of_lit "content-length") 0.

(** ** From the generated code to [execute] *)

Definition cleared (s : HttpResponseParser) : HttpResponseParser :=
  set_field_start 0 (set_field_len 0 (set_mark 0 (set_nread 0 s))).

Lemma client_assert_ok b (s : HttpResponseParser) : b = true → Httpclient.assert b s = Ret tt s.
Proof. by intros ->. Qed.

Lemma client_execute_exec buffer len p n (s s' : HttpResponseParser) :
  0 < len < 2 ^ 31 → buffer !! Z.to_nat len = Some Ascii.zero → 0 ≤ p ≤ len →
  exec machine (act response_callbacks buffer len) (cs s) 0 (take (Z.to_nat len) buffer) (cleared s) =
    Ret (p, n) s' →
  tidy len s' → 0 ≤ body_start s' ≤ len → nread s' = 0 →
  httpclient_parser_execute response_callbacks buffer len 0 s = Ret p (set_nread p (set_cs n s')).
Proof.
  intros Hl Hz Hp He (T1 & T2 & T3) Hbs Hn. unfold httpclient_parser_execute.
  unfold modify, bind at 1 2 3 4. rewrite bind_get. fold (cleared s).
  unfold bind at 1. rewrite client_assert_ok by lia.
  unfold bind at 1. rewrite client_assert_ok by (by apply bool_decide_eq_true).
  unfold bind at 1. rewrite client_assert_ok.
  2:{ unfold same_distance. rewrite !swrap_small by (unfold in_s; lia).
      rewrite bool_decide_true by (unfold in_s; lia). cbn. lia. }
  change (Z.to_nat 0) with 0%nat. rewrite drop_0, Z.sub_0_r. rewrite (bind_Ret _ _ _ _ _ He).
  cbn [fst snd]. unfold execute_end. unfold bind at 1, modify at 1. unfold bind at 1, modify at 1.
  cbn [nread set_cs]. rewrite Hn, Z.sub_0_r, Z.add_0_l, wrap_small by (unfold in_u; lia).
  unfold bind at 1. rewrite client_assert_ok by lia. rewrite bind_get.
  cbn [nread body_start mark field_len field_start set_nread set_cs].
  unfold bind at 1. rewrite client_assert_ok by lia. unfold bind at 1. rewrite client_assert_ok by lia.
  rewrite (proj2 (Z.ltb_lt (mark s') len)) by lia.
  rewrite (proj2 (Z.leb_le (field_len s') len)) by lia.
  rewrite (proj2 (Z.ltb_lt (field_start s') len)) by lia. cbn [negb].
  rewrite swrap_small by (unfold in_s; lia). done.
Qed.

(** ** Responses in, responses out *)

Definition version_of (minor : ascii) : Z := if Ascii.eqb minor "1" then 17 else 16.

Definition parsed (r : Response) : Http.HttpResponse :=
  {| Http.rs_status := code_value (rs_code r); Http.rs_version := version_of (rs_minor r);
     Http.rs_close := false; Http.rs_websocket := false; Http.rs_body := [];
     Http.rs_reason := rs_phrase r; Http.rs_headers := HttpParser.header_map (rs_lines r) [];
     Http.rs_cookies := [] |}.

Definition set_headers (m : HttpMap.MapType) (d : response_data) : response_data :=
  {| m_data := Http.rs_setHeaders m (m_data d); m_error := m_error d |}.

Lemma client_header_calls_run buffer hs pre post d :
  buffer = pre ++ headers_text hs ++ post → size buffer < 2 ^ 31 →
  forallb header_text hs = true →
  header_calls on_response_http_field buffer (size pre) hs d =
  Ret tt (set_headers (HttpParser.header_map hs (Http.rs_headers (m_data d))) d).
Proof.
  intros Hbuf Hb Hh.
  rewrite (header_calls_fold _ _ (λ k v d, set_headers (HttpMap.assign k v (Http.rs_headers (m_data d))) d)
    hs pre post d); [| |done|].
  - f_equal. clear. revert d. induction hs as [|h hs IH]; intros d; [by destruct d as [[] e]|].
    cbn [foldl]. rewrite IH. done.
  - intros pre1 name post1 pre2 v post2 d' H1 H2 Hne. unfold on_response_http_field.
    rewrite (proj2 (Z.eqb_neq _ 0)) by (destruct name; [done|cbn [length]; lia]).
    unfold bind. rewrite (std_string_piece buffer pre1 name post1) by done.
    by rewrite (std_string_piece buffer pre2 v post2) by done.
  - apply Forall_forall. intros [[name bl] v] Hin. rewrite forallb_forall in Hh.
    specialize (Hh _ (proj1 (list_elem_of_In _ _) Hin)). unfold header_text in Hh.
    rewrite !andb_true_iff, negb_true_iff, bool_decide_eq_false in Hh. tauto.
Qed.

Lemma line_calls_run buffer r rest k :
  buffer = head_lines r ++ rest → size buffer < 2 ^ 31 → well_formed r = true →
  one_of (of_lit "01") (rs_minor r) = true → size (rs_code r) ≤ 9 →
  line_calls on_response_http_field on_response_reason on_response_status on_response_version
    buffer r k {| m_data := Http.new_HttpResponse 17 true; m_error := 0 |} =
  k {| m_data := parsed r; m_error := 0 |}.
Proof.
  intros Hbuf Hb Hw Hv Hcl. unfold well_formed in Hw.
  rewrite !andb_true_iff, !negb_true_iff, !bool_decide_eq_false in Hw.
  destruct Hw as [[[[[Hm Hc] Hcne] Hp] Hpne] Hh].
  unfold head_lines in Hbuf. app_right_in Hbuf.
  set (tail1 := headers_text (rs_lines r) ++ rest) in *.
  unfold line_calls. unfold bind at 1, on_response_version at 1.
  destruct (HttpParser.version_read buffer [] (rs_minor r)
    (" "%char :: rs_code r ++ " "%char :: rs_phrase r ++ eol ++ tail1)) as [H11 H10];
    [rewrite Hbuf; by app_right|done|].
  change (Z.to_nat (size [])) with 0%nat in H11, H10. change (Z.to_nat 8) with 8%nat.
  change (Z.to_nat 0) with 0%nat. rewrite H11, H10.
  assert ((let! v11 := lift (Some (Ascii.eqb (rs_minor r) "1")) in
    if v11 : bool then update (Http.rs_setVersion 17) else
    let! v10 := lift (Some (Ascii.eqb (rs_minor r) "0")) in
    if v10 : bool then update (Http.rs_setVersion 16) else setError 1001) =
    λ d, update (Http.rs_setVersion (version_of (rs_minor r))) d) as ->.
  { cbn in Hv. rewrite orb_false_r in Hv. apply orb_prop in Hv as [Hv|Hv];
      apply Ascii.eqb_eq in Hv as ->; done. }
  unfold update, bind at 1, on_response_status.
  assert (drop (Z.to_nat 9) buffer = rs_code r ++ " "%char :: rs_phrase r ++ eol ++ tail1) as ->
    by (rewrite Hbuf; done).
  destruct (strtol_code (rs_code r) " " (rs_phrase r ++ eol ++ tail1) Hc Hcne Hcl eq_refl ltac:(done)) as [-> Hcv].
  cbn [lift]. unfold bind at 1, ret, update. rewrite swrap_small by (unfold in_s; lia).
  unfold bind at 1, on_response_reason, bind at 1.
  rewrite (std_string_piece buffer (version_text (rs_minor r) ++ " "%char :: rs_code r ++ [" "%char])
    (rs_phrase r) (eol ++ tail1));
    [|rewrite Hbuf; by app_right|unfold version_text; rewrite !length_app; cbn [length]; rewrite length_app; cbn; lia|done].
  unfold update, bind at 1.
  replace (headers_at r) with (size (version_text (rs_minor r) ++ " "%char :: rs_code r ++ " "%char ::
    rs_phrase r ++ eol)).
  2:{ unfold headers_at, version_text. repeat (rewrite length_app || cbn [length]).
      cbn [length of_lit String.list_ascii_of_string eol]. lia. }
  rewrite (client_header_calls_run buffer (rs_lines r) _ rest); [done| |done|done].
  rewrite Hbuf. unfold tail1. by app_right.
Qed.

(** [execute] after the parser: what was consumed is moved away. *)
Lemma consumed head body post (p : HttpResponseParser) :
  let buffer := head ++ body ++ post in
  let len := size (head ++ body) in
  size buffer < 2 ^ 31 →
  (let offset := wrap 64 (size head) in
   if len <? offset then ub
   else ret (offset, memmove_front buffer (Z.to_nat offset) (Z.to_nat (len - offset)))) p =
  Ret (size head, splice 0 body buffer) p.
Proof.
  intros buffer len Hb. cbn zeta. unfold buffer, len in *. rewrite !length_app in *.
  rewrite wrap_small by (unfold in_u; lia). rewrite (proj2 (Z.ltb_ge _ _)) by lia.
  unfold ret, memmove_front. do 3 f_equal.
  rewrite Nat2Z.id, drop_app_length, take_app_length'; [done|lia].
Qed.

(** The end of the head of a response in a buffer that ends in a NUL. *)
Lemma client_parse_run r body extra garbage :
  let len := size (response_head r ++ body) in
  let buffer := response_head r ++ body ++ Ascii.zero :: extra in
  well_formed r = true → one_of (of_lit "01") (rs_minor r) = true → size (rs_code r) ≤ 9 →
  size buffer < 2 ^ 31 →
  ∃ p', execute buffer len false (new_HttpResponseParser garbage) =
      Ret (size (response_head r), splice 0 body buffer) p' ∧
    isFinished p' = 1 ∧ hasError p' = false ∧ getData p' = parsed r ∧
    chunked p' = if existsb chunked_line (rs_lines r) then 1 else 0.
Proof.
  intros len buffer Hw Hv Hcl Hb. set (p0 := new_HttpResponseParser garbage).
  assert (0 < size (response_head r) ≤ len) as Hpos.
  { pose proof (size_response r) as Hsz. unfold headers_at in Hsz. unfold len. rewrite length_app. lia. }
  assert (len < 2 ^ 31) as Hl by (unfold len, buffer in *; rewrite !length_app in *; cbn [length] in *; lia).
  assert (buffer !! Z.to_nat len = Some Ascii.zero) as Hz.
  { unfold buffer, len. rewrite (assoc_L (++)), Nat2Z.id. rewrite lookup_app_r by lia.
    by rewrite Nat.sub_diag. }
  destruct (exec_response on_response_http_field on_response_reason on_response_status on_response_chunk
    on_response_version on_response_header_done on_response_last_chunk buffer len Hz r body (cleared p0)
    {| m_data := parsed r; m_error := 0 |})
    as (s' & He & Ht & Hcs & Hn & Hbs & Hd & Hch); [done|lia|lia|unfold tidy; cbn; lia| |].
  { unfold response_calls. rewrite (line_calls_run buffer r (eol ++ body ++ Ascii.zero :: extra)); [done| |done..].
    unfold buffer, response_head, head_lines. by app_right. }
  assert (httpclient_parser_execute response_callbacks buffer len 0 p0 =
    Ret (size (response_head r)) (set_nread (size (response_head r)) (set_cs 120 s'))) as Hx.
  { apply (client_execute_exec buffer len (size (response_head r)) 120 p0 s'); [lia|done|lia| |done|lia|done].
    unfold response_callbacks. change (cs p0) with 1. etrans; [|exact He]. f_equal.
    unfold buffer, len. rewrite (assoc_L (++)), Nat2Z.id. by rewrite take_app_length. }
  exists (set_nread (size (response_head r)) (set_cs 120 s')). split.
  - unfold execute, bind, ret. fold p0. rewrite Hx.
    by apply consumed.
  - unfold hasError, getData. cbn [data set_nread set_cs]. rewrite Hd. done.
Qed.

(** ** Printed responses are parsed back *)

Definition reason_of (r : Http.HttpResponse) : list ascii :=
  match Http.rs_reason r with [] => Http.HttpStatusToString (Http.rs_status r) | s => s end.

Definition response_of (r : Http.HttpResponse) : Response :=
  {| rs_minor := if Http.rs_version r =? 17 then "1"%char else "0"%char;
     rs_code := Http.show (wrap 32 (Http.rs_status r)); rs_phrase := reason_of r;
     rs_lines :=
       HttpParser.own_headers [" "%char] (Http.rs_websocket r) (Http.rs_headers r) ++
       ((λ i, (of_lit "Set_Cookie", [" "%char], i)) <$> Http.rs_cookies r) ++
       (if negb (Http.rs_websocket r) then
          [(of_lit "connection", [" "%char], of_lit (if Http.rs_close r then "close" else "keep-alive"))]
        else []) ++
       match Http.rs_body r with
       | [] => []
       | b => [(of_lit "content-length", [" "%char], Http.show (size b))]
       end |}.

Lemma cookies_text (cs : list (list ascii)) :
  flat_map (λ i, of_lit "Set_Cookie: " ++ i ++ Http.CRLF) cs =
  headers_text ((λ i, (of_lit "Set_Cookie", [" "%char], i)) <$> cs).
Proof.
  induction cs as [|i cs IH]; [done|]. cbn [flat_map]. rewrite fmap_cons, headers_text_cons, IH.
  cbn [header_line]. by app_right.
Qed.

Lemma dump_response r :
  Http.rs_version r = 16 ∨ Http.rs_version r = 17 →
  Http.rs_dump r = response_head (response_of r) ++ Http.rs_body r.
Proof.
  intros Hv. unfold Http.rs_dump, response_head.
  cbn [response_of rs_minor rs_code rs_phrase rs_lines]. rewrite !headers_text_app, cookies_text.
  change (of_lit ": ") with (":"%char :: [" "%char]). rewrite HttpParser.print_own.
  change (match Http.rs_reason r with [] => _ | s => s end) with (reason_of r).
  assert (∀ x, of_lit "HTTP/" ++ Http.show (Z.shiftr (Http.rs_version r) 4) ++ of_lit "." ++
    Http.show (Z.land (Http.rs_version r) 15) ++ x =
    version_text (if Http.rs_version r =? 17 then "1"%char else "0"%char) ++ x) as ->.
  { intros x. destruct Hv as [-> | ->]; by vm_compute. }
  set (vt := version_text _). set (own := HttpParser.own_headers _ _ _). set (code := Http.show _).
  destruct (Http.rs_websocket r), (Http.rs_body r) as [|b0 bs];
    cbn [negb headers_text fmap list_fmap concat header_line app]; by app_right.
Qed.

(** Status codes have three digits. *)
Lemma status_code_value s : 100 ≤ s ≤ 999 →
  code_value (Http.show (wrap 32 s)) = s ∧ size (Http.show (wrap 32 s)) ≤ 9.
Proof.
  intros Hs. assert (forallb (λ n : nat, let s := Z.of_nat n in
    (code_value (Http.show (wrap 32 s)) =? s) && (size (Http.show (wrap 32 s)) <=? 9)) (seq 100 900) = true)
    as H by by vm_compute.
  rewrite forallb_forall in H. specialize (H (Z.to_nat s)). cbn beta zeta in H.
  rewrite Z2Nat.id in H by lia.
  rewrite andb_true_iff, Z.eqb_eq, Z.leb_le in H. apply H, list_elem_of_In, elem_of_seq. lia.
Qed.

(** C6. A response survives printing and parsing.  When the parts of a response
    are ones its text can carry, the client's parser reads back from what
    [HttpResponse::dump] prints the status, reason, version and body, every header
    but the ones [dump] writes itself, [connection] from the close flag and
    [content-length] from the body; and it announces a chunked body exactly when
    a header line does. *)
Theorem response_dump_parses r extra garbage :
  well_formed (response_of r) = true → Http.rs_version r = 16 ∨ Http.rs_version r = 17 →
  100 ≤ Http.rs_status r ≤ 999 → HttpMap.sorted (Http.rs_headers r) → Http.rs_websocket r = false →
  size (Http.rs_dump r ++ Ascii.zero :: extra) < 2 ^ 31 →
  ∃ p' buffer', execute (Http.rs_dump r ++ Ascii.zero :: extra) (size (Http.rs_dump r)) false
      (new_HttpResponseParser garbage) =
      Ret (size (Http.rs_dump r) - size (Http.rs_body r), buffer') p' ∧
    take (length (Http.rs_body r)) buffer' = Http.rs_body r ∧ isFinished p' = 1 ∧ hasError p' = false ∧
    Http.rs_status (getData p') = Http.rs_status r ∧ Http.rs_reason (getData p') = reason_of r ∧
    Http.rs_version (getData p') = Http.rs_version r ∧
    chunked p' = (if existsb chunked_line (rs_lines (response_of r)) then 1 else 0) ∧
    (∀ k v, ¬ HttpMap.ci_eq k (of_lit "connection") → ¬ HttpMap.ci_eq k (of_lit "content-length") →
       ¬ HttpMap.ci_eq k (of_lit "Set_Cookie") →
       Http.rs_getHeader k v (getData p') = Http.rs_getHeader k v r) ∧
    Http.rs_getHeader (of_lit "connection") [] (getData p') =
      of_lit (if Http.rs_close r then "close" else "keep-alive") ∧
    (Http.rs_body r ≠ [] →
       Http.rs_getHeader (of_lit "content-length") [] (getData p') = Http.show (size (Http.rs_body r))).
Proof.
  intros Hw Hv Hst Hs Hws Hb. rewrite (dump_response r Hv) in *. rewrite <- (assoc_L (++)) in *.
  destruct (status_code_value _ Hst) as [Hcode Hcl].
  destruct (client_parse_run (response_of r) (Http.rs_body r) extra garbage Hw) as (p' & He & Hf & Herr & Hd & Hch);
    [by destruct Hv as [Hv|Hv]; cbn [response_of rs_minor]; rewrite Hv|done|done|].
  exists p', (splice 0 (Http.rs_body r) (response_head (response_of r) ++ Http.rs_body r ++ Ascii.zero :: extra)).
  rewrite He. split; [do 2 f_equal; rewrite length_app; lia|].
  split; [unfold splice; rewrite take_0; cbn [app]; by rewrite take_app_length|].
  split; [done|]. split; [done|]. rewrite Hd. unfold parsed, Http.rs_getHeader.
  cbn [Http.rs_status Http.rs_reason Http.rs_version Http.rs_headers].
  split; [exact Hcode|]. split; [done|]. split; [by destruct Hv as [Hv|Hv]; cbn [response_of rs_minor]; rewrite Hv|].
  split; [done|]. cbn [response_of rs_lines]. rewrite Hws. cbn [negb].
  assert (∀ k v, ¬ HttpMap.ci_eq k (of_lit "Set_Cookie") → foldl (HttpParser.last_line k) v
    ((λ i, (of_lit "Set_Cookie", [" "%char], i)) <$> Http.rs_cookies r) = v) as Hck.
  { intros k v Hk. apply HttpParser.last_line_none, Forall_forall.
    intros h (i & -> & _)%list_elem_of_fmap Heq. by apply Hk. }
  split; [|split].
  - intros k v Hk1 Hk2 Hk3. rewrite HttpParser.header_map_find by constructor.
    rewrite !foldl_app, Hck by done. rewrite HttpParser.last_line_own; [|done|].
    + cbn [foldl fst snd]. rewrite decide_False by (intros Heq; by rewrite Heq in Hk1).
      destruct (Http.rs_body r); [done|]. cbn [foldl fst snd].
      rewrite decide_False by (intros Heq; by rewrite Heq in Hk2). done.
    + unfold HttpParser.skipped. cbn. apply Z.eqb_neq. by rewrite HttpMap.strcasecmp_zero.
  - rewrite HttpParser.header_map_find by constructor. rewrite !foldl_app. cbn [foldl fst snd].
    rewrite decide_True by done. destruct (Http.rs_body r); [done|]. cbn [foldl fst snd].
    by rewrite decide_False by (intros Heq; by vm_compute in Heq).
  - intros Hbody. rewrite HttpParser.header_map_find by constructor. rewrite !foldl_app.
    destruct (Http.rs_body r) as [|b0 bs]; [done|]. cbn [foldl fst snd]. by rewrite decide_True by done.
Qed.

Definition sample_response : Http.HttpResponse :=
  Http.rs_setBody (of_lit "hello")
    (Http.rs_setHeader (of_lit "Server") (of_lit "bobliew/1.0") (Http.new_HttpResponse 17 false)).

Lemma response_dump_parses_witness :
  ∃ p' buffer', execute (Http.rs_dump sample_response ++ [Ascii.zero]) (size (Http.rs_dump sample_response)) false
      (new_HttpResponseParser 0) = Ret (size (Http.rs_dump sample_response) - 5, buffer') p' ∧
    take 5 buffer' = of_lit "hello" ∧ Http.rs_status (getData p') = 200 ∧ chunked p' = 0 ∧
    Http.rs_getHeader (of_lit "SERVER") [] (getData p') = of_lit "bobliew/1.0".
Proof.
  destruct (response_dump_parses sample_response [] 0)
    as (p' & buffer' & He & Ht & _ & _ & Hst & _ & _ & Hch & Hh & _);
    [by vm_compute|by right|by vm_compute|repeat constructor|done|vm_compute; done|].
  exists p', buffer'. split; [exact He|]. split; [exact Ht|]. split; [exact Hst|]. split; [exact Hch|].
  rewrite Hh; [by vm_compute|intros H; by vm_compute in H..].
Defined.

(** ** A header without a value at the end *)

(** C40. A response is never finished when its last header line is
    [Connection:], [Content-Length:] or [Transfer-Encoding:] without a value.
    The parser consumes the head, the blank line included, reports no error and
    has every header; but it stops in another final state than the one
    [httpclient_parser_is_finished] compares with, so that [isFinished] stays 0
    and the caller waits for more of the head. *)
Theorem empty_header_never_finishes r name body extra garbage :
  let head := head_lines r ++ name ++ ":"%char :: eol ++ eol in
  let buffer := head ++ body ++ Ascii.zero :: extra in
  well_formed r = true → one_of (of_lit "01") (rs_minor r) = true → size (rs_code r) ≤ 9 →
  forallb token_char name = true → lowers name ∈ known_names → size buffer < 2 ^ 31 →
  ∃ p', execute buffer (size (head ++ body)) false (new_HttpResponseParser garbage) =
      Ret (size head, splice 0 body buffer) p' ∧
    hasError p' = false ∧ isFinished p' = 0 ∧
    getData p' = Http.rs_setHeader name [] (parsed r).
Proof.
  intros head buffer Hw Hv Hcl Hname Hk Hb. set (p0 := new_HttpResponseParser garbage).
  set (len := size (head ++ body)).
  assert (size head = size (head_lines r) + size name + 5) as Hhead.
  { unfold head. rewrite !length_app. cbn [length]. rewrite !length_app. cbn [length eol]. lia. }
  assert (size head ≤ len) as Hle by (unfold len; rewrite length_app; lia).
  assert (len < 2 ^ 31) as Hl by (unfold len, buffer in *; rewrite !length_app in *; cbn [length] in *; lia).
  assert (buffer !! Z.to_nat len = Some Ascii.zero) as Hz.
  { unfold buffer, len. rewrite (assoc_L (++)), Nat2Z.id. rewrite lookup_app_r by lia.
    by rewrite Nat.sub_diag. }
  assert (buffer = head_lines r ++ name ++ ":"%char :: eol ++ eol ++ body ++ Ascii.zero :: extra) as Hbuf.
  { unfold buffer, head. by app_right. }
  destruct (exec_empty_header on_response_http_field on_response_reason on_response_status on_response_chunk
    on_response_version on_response_header_done on_response_last_chunk buffer len Hz r name body (cleared p0)
    {| m_data := Http.rs_setHeader name [] (parsed r); m_error := 0 |})
    as (n' & s' & Hn' & He & Ht & Hcs & Hn & Hbs & Hd); [done|done|done|lia|lia|unfold tidy; cbn; lia| |].
  { rewrite (line_calls_run buffer r _ _ Hbuf) by done. unfold on_response_http_field, on_response_header_done.
    assert (size name ≠ 0) by (intros E; destruct name; [|done]; unfold known_names in Hk;
      rewrite !elem_of_cons, elem_of_nil in Hk; by destruct_or? Hk).
    rewrite (proj2 (Z.eqb_neq _ 0)) by done. unfold bind.
    rewrite (std_string_piece buffer (head_lines r) name (":"%char :: eol ++ eol ++ body ++ Ascii.zero :: extra)) by done.
    rewrite (std_string_piece buffer (head_lines r ++ name ++ [":"%char]) []
      (eol ++ eol ++ body ++ Ascii.zero :: extra)); [done|rewrite Hbuf; by app_right| |done].
    rewrite !length_app. cbn [length]. lia. }
  assert (httpclient_parser_execute response_callbacks buffer len 0 p0 =
    Ret (size head) (set_nread (size head) (set_cs n' s'))) as Hx.
  { apply (client_execute_exec buffer len (size head) n' p0 s'); [lia|done|lia| |done|lia|done].
    rewrite Hhead. unfold response_callbacks. change (cs p0) with 1. etrans; [|exact He]. f_equal.
    unfold buffer, len. rewrite (assoc_L (++)), Nat2Z.id. rewrite take_app_length. unfold head. by app_right. }
  exists (set_nread (size head) (set_cs n' s')). split.
  - unfold execute, bind, ret. fold p0. rewrite Hx. by apply consumed.
  - unfold hasError, getData, isFinished, httpclient_parser_finish, httpclient_parser_has_error,
      httpclient_parser_is_finished. cbn [data cs set_nread set_cs]. rewrite Hd.
    unfold mem in Hn'. cbn [existsb] in Hn'. rewrite !orb_true_iff, !Z.eqb_eq in Hn'.
    by destruct Hn' as [-> |[-> |[-> |]]].
Qed.

Lemma empty_header_never_finishes_witness :
  let r := {| rs_minor := "1"%char; rs_code := of_lit "200"; rs_phrase := of_lit "OK"; rs_lines := [] |} in
  let head := head_lines r ++ of_lit "Connection" ++ ":"%char :: eol ++ eol in
  lowers (of_lit "Connection") ∈ known_names ∧
  ∃ p', execute (head ++ [] ++ [Ascii.zero]) (size (head ++ [])) false (new_HttpResponseParser 0) =
      Ret (size head, splice 0 [] (head ++ [] ++ [Ascii.zero])) p' ∧ hasError p' = false ∧ isFinished p' = 0.
Proof.
  intros r head. assert (lowers (of_lit "Connection") ∈ known_names) as Hk
    by (vm_compute; constructor).
  split; [exact Hk|].
  destruct (empty_header_never_finishes r (of_lit "Connection") [] [] 0)
    as (p' & He & Herr & Hf & _); [by vm_compute|done|by vm_compute|by vm_compute|exact Hk|by vm_compute|].
  exists p'. split; [exact He|]. split; [exact Herr|exact Hf].
Defined.

End HttpResponseParser.
