(* ===== verification/Httpsession.v ===== *)
(** * Httpsession: a server's end of an HTTP connection

    [HttpSession::recvRequest] and [HttpSession::sendResponse]
    (http/http_session.cc) over any [Stream]: the loop that reads and parses until
    the head is complete, then the body by its content length.  [memory] is what
    the freshly allocated buffer holds.  Each round of the loop takes bytes from
    the connection, so one unit of fuel per byte still to come is enough. *)
From S2P Require Import Prelude Util Endian Bytearray Iovec Stream Httpmap Http Ragel Http11machine Http11 Cstring Httptext Http11text Httpparser.
Import StdString Http11 Http11Text CharBuffer HttpParser StreamOps.
#[local] Open Scope list_scope.
#[local] Open Scope Z_scope.

Module HttpSession.

Section session.
Context {W : Type} `{Stream W}.
(** [boost::lexical_cast<uint64_t>] *)
Context (lexical_cast : list ascii → option Z).

(** A call on the local parser object. *)
Definition on_parser {X} (m : M HttpRequestParser X) (p : HttpRequestParser)
    : M W (X * HttpRequestParser) :=
  match m p with
  | Ret x p' => ret (x, p')
  | Throw e _ => throw e
  | UB => ub
  end.

(** The [do] loop; [None] is the early [return nullptr], after [close()]. *)
Fixpoint recv_loop (fuel : nat) (parser : HttpRequestParser) (data : list ascii) (offset : Z)
    : M W (option (HttpRequestParser * list ascii * Z)) :=
  match fuel with
  | O => ub
  | S fuel =>
      let buff_size := Z.of_nat (length data) in
      let! (len, bytes) := s_read (buff_size - offset) in
      if len <=? 0 then s_close ;! ret None
      else
        let data := splice (Z.to_nat offset) bytes data in
        let len := len + offset in
        let! r := on_parser (execute data len) parser in
        let '(nparse, data, parser) := r in
        if hasError parser then s_close ;! ret None
        else
          let offset := len - nparse in
          if offset =? swrap 32 buff_size then s_close ;! ret None
          else if negb (isFinished parser =? 0) then ret (Some (parser, data, offset))
          else recv_loop fuel parser data offset
  end.

(** The body: what the buffer already holds of it, and the rest from the stream. *)
Definition recv_body (parser : HttpRequestParser) (data : list ascii) (offset length : Z)
    : M W (option Http.HttpRequest) :=
  if 0 <? length then
    if max_size <? length then throw logic_error
    else
      let have := if length >=? offset then offset else length in
      let body := take (Z.to_nat have) data in
      let length := length - offset in
      if 0 <? length then
        let! (rt, bytes) := readFixSize length in
        if rt <=? 0 then s_close ;! ret None
        else ret (Some (Http.setBody (body ++ bytes) (getData parser)))
      else ret (Some (Http.setBody body (getData parser)))
  else ret (Some (getData parser)).

Definition recvRequest (fuel : nat) (memory : list ascii) (relaxed query : Z)
    : M W (option Http.HttpRequest) :=
  let! r := recv_loop fuel (new_HttpRequestParser relaxed query) memory 0 in
  match r with
  | None => ret None
  | Some (parser, data, offset) =>
      let! req := recv_body parser data offset (swrap 64 (getContentLength lexical_cast parser)) in
      ret (Http.init <$> req)
  end.

Definition sendResponse (rsp : Http.HttpResponse) : M W Z := writeFixSize (Http.rs_dump rsp).

End session.

Section laws.
Context {W : Type} `{StreamLaws W}.
Context (lexical_cast : list ascii → option Z).

(** One round when the first read brings the whole head. *)
Lemma recv_loop_head fuel m r b1 memory relaxed query w w1 :
  let bs := request_head r ++ b1 in
  s_read (size memory) w = Ret (size bs, bs) w1 →
  well_formed (negb (relaxed =? 0)) r = true → rq_method r = Http.HttpMethodToString m →
  m ≠ Http.INVALID_METHOD → (length bs ≤ length memory)%nat → size memory < 2 ^ 31 →
  ∃ p data, recv_loop (S fuel) (new_HttpRequestParser relaxed query) memory 0 w =
      Ret (Some (p, data, size b1)) w1 ∧
    take (length b1) data = b1 ∧ getData p = parsed m r.
Proof.
  intros bs Hread Hw Hm Hne Hlen Hmem. cbn [recv_loop]. rewrite Z.sub_0_r.
  assert (0 < size (request_head r)) as Hpos.
  { pose proof (size_head r) as Hsz. unfold headers_at, version_at, target_at in Hsz. lia. }
  assert (size bs = size (request_head r) + size b1) as Hbs
    by (unfold bs; rewrite length_app; lia).
  rewrite (bind_Ret _ _ _ _ _ Hread). rewrite (proj2 (Z.leb_gt _ _)) by lia.
  assert (splice (Z.to_nat 0) bs memory = request_head r ++ b1 ++ drop (length bs) memory) as ->.
  { unfold splice, bs. change (Z.to_nat 0) with 0%nat. rewrite take_0. cbn [app Nat.add]. by app_right. }
  rewrite Z.add_0_r.
  destruct (parse_run m r b1 (drop (length bs) memory) relaxed query) as (p & He & Hf & Herr & Hd);
    [done|done|done| |].
  { rewrite !length_app, length_drop. lia. }
  fold bs in He. unfold on_parser. rewrite He. unfold bind, ret. rewrite Herr, Hbs.
  replace (size (request_head r) + size b1 - size (request_head r)) with (size b1) by lia.
  rewrite swrap_small by (unfold in_s; lia). rewrite (proj2 (Z.eqb_neq _ _)) by lia. rewrite Hf.
  cbn [negb Z.eqb]. eexists p, _. split; [done|]. split; [|done].
  unfold splice. rewrite take_0. cbn [app]. by rewrite take_app_length.
Qed.

(** The bytes of a body of [n] that are not in the buffer yet. *)
Lemma body_rest b1 n w :
  size b1 < n < 2 ^ 31 →
  ∃ rt bs w', readFixSize (n - size b1) w = Ret (rt, bs) w' ∧ outgoing w' = outgoing w ∧
    (0 < rt ∧ b1 ++ bs = take (Z.to_nat n) (b1 ++ incoming w) ∧
       (Z.to_nat n ≤ length b1 + length (incoming w))%nat ∨
     rt ≤ 0 ∧ cut_short (n - size b1) w bs w' ∧ incoming w = bs ++ incoming w').
Proof.
  intros Hn.
  destruct (readFixSize_loop_spec (S (Z.to_nat (n - size b1))) (n - size b1) (n - size b1) [] w)
    as (rt & bs & w' & Hm & Hin & Hout & Hall); [cbn; lia|lia|lia|lia|].
  exists rt, bs, w'. unfold readFixSize. rewrite cast_int64_small by lia. split; [exact Hm|]. split; [done|].
  cbn [app] in *. destruct Hall as [[-> Hk]|[Hrt Hk]].
  - left. rewrite Hin, length_app, take_app_ge by lia. split_and!; [lia| |lia]. f_equal.
    rewrite take_app_length'; [done|lia].
  - right. destruct (readFixSize_loop_cut _ _ _ _ _ _ _ _ Hm) as (bs' & E & Hcut); [lia..|]. cbn in E. subst bs'. done.
Qed.

(** A body that is in the buffer already. *)
Lemma body_here (b1 data : list ascii) n rest :
  take (length b1) data = b1 → 0 < n ≤ size b1 →
  take (Z.to_nat (if n >=? size b1 then size b1 else n)) data = take (Z.to_nat n) (b1 ++ rest).
Proof.
  intros Hd Hn. rewrite take_app_le by lia. rewrite Z.geb_leb.
  destruct (Z.leb_spec (size b1) n) as [Hle|Hgt].
  - replace n with (size b1) by lia. rewrite Nat2Z.id, Hd. by rewrite take_ge.
  - rewrite <- Hd, take_take. f_equal. lia.
Qed.

(** What [recv_body] delivers of a body of [n] bytes of which [b1] are there. *)
Lemma recv_body_run p data b1 n w :
  take (length b1) data = b1 → 0 < n < 2 ^ 31 →
  (∃ w', recv_body p data (size b1) n w =
     Ret (Some (Http.setBody (take (Z.to_nat n) (b1 ++ incoming w)) (getData p))) w' ∧
     outgoing w' = outgoing w) ∨
  (∃ w' bs, cut_short (n - size b1) w bs w' ∧ incoming w = bs ++ incoming w' ∧ outgoing w' = outgoing w ∧
     recv_body p data (size b1) n w = (s_close ;! ret None) w').
Proof.
  intros Hd Hn. unfold recv_body. rewrite (proj2 (Z.ltb_lt 0 n)) by lia.
  rewrite (proj2 (Z.ltb_ge max_size n)) by (unfold max_size; lia).
  destruct (Z.ltb_spec 0 (n - size b1)) as [Hlt|Hge].
  - rewrite Z.geb_leb, (proj2 (Z.leb_le _ _)), Nat2Z.id, Hd by lia.
    destruct (body_rest b1 n w ltac:(lia)) as (rt & bs & w' & Hm & Hout & Hall).
    rewrite (bind_Ret _ _ _ _ _ Hm). destruct Hall as [(Hrt & Hb & _)|(Hrt & Hk & Hin)].
    + left. rewrite (proj2 (Z.leb_gt _ _)), Hb by lia. by exists w'.
    + right. rewrite (proj2 (Z.leb_le _ _)) by lia. exists w', bs. by split_and!.
  - left. exists w. rewrite (body_here b1 data n (incoming w)) by (done || lia). done.
Qed.

(** ** Every request takes bytes, and fuel for the bytes is enough *)

Lemma execute_bounds buffer len p n buffer' p' :
  0 ≤ len ≤ size buffer → execute buffer len p = Ret (n, buffer') p' → 0 ≤ n ≤ len ∧ length buffer' = length buffer.
Proof.
  intros Hl He. unfold execute in He. apply bind_inv in He as (off & s1 & He & Hr). injection Hr as <- <- <-.
  assert (0 ≤ off ≤ len) as Hoff.
  { unfold http_parser_execute in He. destruct (Z.eqb_spec len 0) as [->|Hne]; [injection He as <- <-; lia|].
    repeat (apply bind_inv in He as (? & ? & _ & He)). destruct (size buffer <? len); [done|].
    apply bind_inv in He as ([q c] & s2 & _ & He). unfold execute_end in He.
    do 2 apply bind_inv in He as (? & ? & _ & He). apply bind_inv in He as (? & s3 & Hm & He). injection Hm as _ <-.
    rewrite bind_get in He. apply bind_inv in He as (? & s4 & Ha & He).
    do 4 apply bind_inv in He as (? & ? & _ & He). injection He as <- _.
    unfold assert in Ha. destruct (_ <=? len) eqn:Hle; [|done]. cbn [nread set_nread] in *.
    unfold wrap in *. match type of Hle with (?e mod _ <=? _) = _ => pose proof (Z.mod_pos_bound e (2 ^ 64)) end. lia. }
  split; [done|]. unfold memmove_front. apply length_splice. rewrite length_take, length_drop. lia.
Qed.


(** The reads of [readFixSize] only take what comes. *)
Lemma readFixSize_loop_takes fuel n left acc w rt bs w' :
  readFixSize_loop fuel n left acc w = Ret (rt, bs) w' →
  outgoing w' = outgoing w ∧ (length (incoming w') ≤ length (incoming w))%nat.
Proof.
  revert left acc w. induction fuel as [|fuel IH]; intros left acc w Hr; [done|]. cbn [readFixSize_loop] in Hr.
  destruct (Z.ltb_spec 0 left) as [Hlt|]; cbn [negb] in Hr; [|by injection Hr as _ _ <-].
  destruct (read_law left w Hlt) as (rt1 & bs1 & w1 & Hm & _ & _ & Hin & Hout).
  rewrite (bind_Ret _ _ _ _ _ Hm) in Hr.
  assert (length (incoming w1) ≤ length (incoming w))%nat by (rewrite Hin, length_app; lia).
  destruct (rt1 <=? 0); [injection Hr as _ _ <-; by split|]. apply IH in Hr as [Ho Hi]. split; [congruence|lia].
Qed.

Lemma recv_body_takes p data offset n w req w' :
  recv_body p data offset n w = Ret (Some req) w' →
  outgoing w' = outgoing w ∧ (length (incoming w') ≤ length (incoming w))%nat.
Proof.
  unfold recv_body. intros Hr. destruct (0 <? n); [|by injection Hr as _ <-]. destruct (max_size <? n); [done|].
  destruct (0 <? n - offset); [|by injection Hr as _ <-].
  apply bind_inv in Hr as ([rt bs] & w1 & Hread & Hr). unfold readFixSize in Hread. apply readFixSize_loop_takes in Hread.
  destruct (rt <=? 0); [by apply bind_inv in Hr as ([] & ? & _ & ?)|]. by injection Hr as _ <-.
Qed.

(** A round of the loop, and where it leaves the next one. *)
Lemma recv_round data offset w :
  0 ≤ offset < size data →
  ∃ len bs w1, s_read (size data - offset) w = Ret (len, bs) w1 ∧ outgoing w1 = outgoing w ∧
    incoming w = bs ++ incoming w1 ∧ length bs = Z.to_nat len ∧
    length (splice (Z.to_nat offset) bs data) = length data ∧ 0 ≤ offset + Z.max 0 len ≤ size data.
Proof.
  intros Ho. destruct (read_law (size data - offset) w ltac:(lia)) as (len & bs & w1 & Hm & Hle & Hlen & Hin & Hout).
  exists len, bs, w1. split_and!; try done; [|lia|lia]. apply length_splice. lia.
Qed.

(** Enough fuel is one unit for every byte to come and one more; a request that is
    received has taken a byte. *)
Lemma recv_loop_takes fuel parser data offset w :
  0 ≤ offset < size data → size data < 2 ^ 31 → (length (incoming w) < fuel)%nat →
  (∀ fuel', (length (incoming w) < fuel')%nat → recv_loop fuel' parser data offset w = recv_loop fuel parser data offset w) ∧
  (∀ r w', recv_loop fuel parser data offset w = Ret (Some r) w' →
    outgoing w' = outgoing w ∧ (length (incoming w') < length (incoming w))%nat).
Proof.
  revert parser data offset w. induction fuel as [|fuel IH]; intros parser data offset w Ho Hd Hf; [lia|].
  destruct (recv_round data offset w Ho) as (len & bs & w1 & Hm & Hout & Hin & Hlen & Hspl & Hend).
  assert (0 < len → (length (incoming w1) < length (incoming w))%nat) as Hlt by (intros; rewrite Hin, length_app; lia).
  assert (∀ n, 0 < len → 0 ≤ n ≤ len + offset → (len + offset - n =? swrap 32 (size data)) = false →
    0 ≤ len + offset - n < size data) as Hoff.
  { intros n Hp Hn E. rewrite swrap_small in E by (unfold in_s; lia). lia. }
  split.
  - intros [|fuel'] Hf'; [lia|]. cbn [recv_loop]. rewrite !(bind_Ret _ _ _ _ _ Hm).
    destruct (Z.leb_spec len 0) as [Hle|Hpos]; [done|]. unfold on_parser.
    destruct (execute (splice (Z.to_nat offset) bs data) (len + offset) parser) as [[nparse data'] p'|e p'|] eqn:He; [|done..].
    apply execute_bounds in He as [Hn Hd']; [|lia]. unfold bind, ret. destruct (hasError p'); [done|].
    destruct (_ =? swrap 32 _) eqn:Hne; [done|]. destruct (negb _); [done|].
    specialize (Hoff nparse ltac:(lia) Hn Hne). specialize (Hlt ltac:(lia)).
    apply (IH p' data' (len + offset - nparse) w1); lia.
  - intros r w'. cbn [recv_loop]. rewrite (bind_Ret _ _ _ _ _ Hm).
    destruct (Z.leb_spec len 0) as [Hle|Hpos]; [by intros ([] & ? & _ & ?)%bind_inv|]. unfold on_parser.
    destruct (execute (splice (Z.to_nat offset) bs data) (len + offset) parser) as [[nparse data'] p'|e p'|] eqn:He; [|done..].
    apply execute_bounds in He as [Hn Hd']; [|lia]. unfold bind at 1, ret at 1.
    destruct (hasError p'); [by intros ([] & ? & _ & ?)%bind_inv|].
    destruct (_ =? swrap 32 _) eqn:Hne; [by intros ([] & ? & _ & ?)%bind_inv|].
    specialize (Hoff nparse ltac:(lia) Hn Hne). specialize (Hlt ltac:(lia)).
    destruct (negb _); [intros [= _ <-]; by split|]. intros Hr.
    destruct (IH p' data' (len + offset - nparse) w1) as [_ H2]; [lia..|]. destruct (H2 _ _ Hr) as [Ho' Hi'].
    split; [congruence|lia].
Qed.

(** [recvRequest] is the same for all fuel above the number of bytes to come, and a
    request it returns has taken at least one of them and written nothing. *)
Lemma recvRequest_takes fuel memory relaxed query w :
  0 < size memory < 2 ^ 31 → (length (incoming w) < fuel)%nat →
  (∀ fuel', (length (incoming w) < fuel')%nat →
    recvRequest lexical_cast fuel' memory relaxed query w = recvRequest lexical_cast fuel memory relaxed query w) ∧
  (∀ req w', recvRequest lexical_cast fuel memory relaxed query w = Ret (Some req) w' →
    outgoing w' = outgoing w ∧ (length (incoming w') < length (incoming w))%nat).
Proof.
  intros Hm Hf. destruct (recv_loop_takes fuel (new_HttpRequestParser relaxed query) memory 0 w) as [H1 H2]; [lia..|].
  split.
  - intros fuel' Hf'. unfold recvRequest. unfold bind at 1 3. by rewrite (H1 fuel' Hf').
  - intros req w' Hr. unfold recvRequest in Hr. apply bind_inv in Hr as ([[[p data] offset]|] & w1 & Hl & Hr); [|done].
    apply bind_inv in Hr as ([q|] & w2 & Hb & Hr); [|done]. injection Hr as _ <-.
    apply recv_body_takes in Hb as [Ho Hi]. destruct (H2 _ _ Hl). split; [congruence|lia].
Qed.

(** [sendResponse] returns, having sent a prefix of the printed response; all of it
    when it does not report an error (for responses below 2^31 bytes). *)
Lemma writeFixSize_loop_some fuel buffer offset left w :
  left ≤ Z.of_nat (length buffer) - Z.of_nat offset → (Z.to_nat left < fuel)%nat →
  ∃ rt k w', writeFixSize_loop fuel buffer offset left w = Ret rt w' ∧ incoming w' = incoming w ∧
    outgoing w' = outgoing w ++ take k (drop offset buffer).
Proof.
  revert offset left w. induction fuel as [|fuel IH]; intros offset left w Hl Hf; [lia|]. cbn [writeFixSize_loop].
  destruct (Z.ltb_spec 0 left) as [Hlt|Hge]; cbn [negb].
  2:{ eexists _, 0%nat, w. by rewrite take_0, app_nil_r. }
  assert (length (take (Z.to_nat left) (drop offset buffer)) = Z.to_nat left) as Hlen by (rewrite length_take, length_drop; lia).
  destruct (write_law (take (Z.to_nat left) (drop offset buffer)) w) as (rt & w1 & Hm & Hrt & Hin & Hout).
  { intros E. rewrite E in Hlen. cbn in Hlen. lia. }
  rewrite (bind_Ret _ _ _ _ _ Hm). rewrite take_take in Hout. destruct (Z.leb_spec rt 0) as [Hle|Hgt].
  { eexists _, _, w1. split_and!; [done|done|]. rewrite Hout. done. }
  destruct (IH (offset + Z.to_nat rt)%nat (left - rt) w1) as (rt' & k & w2 & Hm2 & Hin2 & Hout2); [lia..|].
  exists rt', (Z.to_nat rt + k)%nat, w2. split_and!; [done|congruence|].
  rewrite Hout2, Hout, <- (assoc_L (++)), Nat.min_l by lia. f_equal.
  rewrite (take_drop_split offset (Z.to_nat rt) (Z.to_nat rt + k)) by lia.
  do 2 f_equal. lia.
Qed.

Lemma sendResponse_takes rsp w :
  ∃ rt k w', sendResponse rsp w = Ret rt w' ∧ incoming w' = incoming w ∧
    outgoing w' = outgoing w ++ take k (Http.rs_dump rsp) ∧
    (size (Http.rs_dump rsp) < 2 ^ 31 → all_or_stopped (size (Http.rs_dump rsp)) k rt).
Proof.
  unfold sendResponse. set (text := Http.rs_dump rsp). destruct (Z.lt_decidable (size text) (2 ^ 31)) as [Hs|Hs].
  - unfold writeFixSize. rewrite cast_int64_small by lia.
    destruct (writeFixSize_loop_spec (S (length text)) text 0 (size text) w) as (rt & k & w' & Hm & Hin & Hout & _ & Hall); [lia..|].
    by exists rt, k, w'.
  - assert (cast int64_t (size text) ≤ size text) as Hc.
    { change (cast int64_t (size text)) with (swrap 64 (size text)). unfold swrap.
      pose proof (Z.mod_le (size text) (2 ^ 64)). destruct (_ <? _); lia. }
    unfold writeFixSize. destruct (writeFixSize_loop_some (S (length text)) text 0 (cast int64_t (size text)) w)
      as (rt & k & w' & Hm & Hin & Hout); [lia..|]. exists rt, k, w'. by split_and!.
Qed.

End laws.

(** C4. A request that arrives is delivered with its body.  When the first read
    brings the whole head of a well-formed request whose content length is [n],
    [recvRequest] returns the request parsed from it with exactly the next [n]
    bytes of the connection as body, however those are split over reads; it
    closes the stream and returns null only after reading what came of the body up
    to a read of the missing bytes that failed or met the end of the stream
    ([cut_short]). *)
Theorem recvRequest_correct {W} `{StreamLaws W} lexical_cast fuel m r b1 memory relaxed query v n (w w1 : W) :
  let bs := request_head r ++ b1 in
  s_read (size memory) w = Ret (size bs, bs) w1 → incoming w = bs ++ incoming w1 →
  well_formed (negb (relaxed =? 0)) r = true → rq_method r = Http.HttpMethodToString m →
  m ≠ Http.INVALID_METHOD → (length bs ≤ length memory)%nat → size memory < 2 ^ 31 →
  HttpMap.find (of_lit "content-length") (header_map (rq_headers r) []) = Some v →
  lexical_cast v = Some n → 0 < n < 2 ^ 31 → (0 < fuel)%nat →
  let body := take (Z.to_nat n) (drop (length (request_head r)) (incoming w)) in
  (∃ w', recvRequest lexical_cast fuel memory relaxed query w =
     Ret (Some (Http.init (Http.setBody body (parsed m r)))) w' ∧ outgoing w' = outgoing w1) ∨
  (∃ w' bs', cut_short (n - size b1) w1 bs' w' ∧ incoming w1 = bs' ++ incoming w' ∧
     recvRequest lexical_cast fuel memory relaxed query w = (s_close ;! ret None) w').
Proof.
  intros bs Hread Hin Hw Hm Hne Hl Hmem Hv Hn Hrange Hfuel body.
  destruct fuel as [|fuel]; [lia|].
  destruct (recv_loop_head fuel m r b1 memory relaxed query w w1 Hread Hw Hm Hne Hl Hmem)
    as (p & data & Hloop & Hdata & Hget).
  unfold recvRequest. rewrite (bind_Ret _ _ _ _ _ Hloop).
  unfold getContentLength, Http.getHeaderAs, Http.getAs. rewrite Hget. cbn [parsed Http.m_headers].
  rewrite Hv. cbn beta iota. rewrite Hn. cbn [default from_option]. unfold id.
  rewrite swrap_small by (unfold in_s; lia).
  destruct (recv_body_run p data b1 n w1 Hdata Hrange)
    as [(w' & Hb & Ho)|(w' & k & Hk & Hi & Ho & Hb)].
  - left. exists w'. split; [|done]. rewrite (bind_Ret _ _ _ _ _ Hb). unfold ret.
    cbn [fmap option_fmap option_map]. do 3 f_equal. rewrite Hget. f_equal.
    unfold body. rewrite Hin. unfold bs. rewrite <- (assoc_L (++)), drop_app_length. done.
  - right. exists w', k. split; [done|]. split; [done|]. unfold bind at 1. rewrite Hb.
    unfold bind. by destruct (s_close w').
Qed.

(** A post whose body arrives in two pieces. *)
Definition demo_post : Request :=
  {| rq_method := of_lit "POST"; rq_path := of_lit "/p"; rq_query := None; rq_fragment := None;
     rq_minor := "1"; rq_headers := [(of_lit "Content-Length", of_lit " ", of_lit "5")] |}.
Definition demo_conn : SocketStream.t Pipe.t :=
  SocketStream.mk (Some (Pipe.mk (request_head demo_post ++ of_lit "hello, more") []
    (length (request_head demo_post) + 2) true)) true.
(** The connection after the first read *)
Definition demo_rest : SocketStream.t Pipe.t :=
  SocketStream.mk (Some (Pipe.mk (of_lit "llo, more") [] (length (request_head demo_post) + 2) true)) true.
(** [lexical_cast] on one digit *)
Definition one_digit (s : list ascii) : option Z :=
  match s with [c] => if digit c then Some (b2z c - 48) else None | _ => None end.

#[local] Existing Instances ByteArray.zeroed SocketStream.socket_stream SocketStream.socket_stream_laws.

Lemma recvRequest_correct_witness :
  (∃ w', recvRequest one_digit 1 (replicate 64 Ascii.zero) 0 0 demo_conn =
     Ret (Some (Http.init (Http.setBody (of_lit "hello") (parsed Http.POST demo_post)))) w' ∧
     SocketStream.out_of w' = []) ∨
  (∃ w' bs, cut_short 3 demo_rest bs w' ∧ of_lit "llo, more" = bs ++ SocketStream.in_of w' ∧
     recvRequest one_digit 1 (replicate 64 Ascii.zero) 0 0 demo_conn = (s_close ;! ret None) w').
Proof.
  change (of_lit "hello") with
    (take (Z.to_nat 5) (drop (length (request_head demo_post)) (incoming demo_conn))).
  exact (recvRequest_correct one_digit 1 Http.POST demo_post (of_lit "he") (replicate 64 Ascii.zero) 0 0
    (of_lit "5") 5 demo_conn demo_rest
    ltac:(by vm_compute) ltac:(by vm_compute) ltac:(by vm_compute) ltac:(by vm_compute) ltac:(done)
    ltac:(vm_compute; lia) ltac:(by vm_compute) ltac:(by vm_compute) ltac:(by vm_compute)
    ltac:(lia) ltac:(lia)).
Defined.

End HttpSession.
