(* ===== verification/Httpconnection.v ===== *)
(** * Httpconnection: a client's end of an HTTP connection

    [HttpConnection::recvResponse] and [HttpConnection::sendRequest]
    (http/http_connection.cc) over any [Stream]: the loop that reads and parses until
    the head is complete, then the body by its content length or chunk by chunk, and
    its decompression.  [memory] is what the freshly allocated buffer holds, one byte
    more than the buffer size.  Each round of a loop takes bytes from the connection
    or ends a chunk, so one unit of fuel per byte still to come is enough.

    [recvResponse_correct]: a response with a content length is delivered with its
    body.  [chunked_split_throws]: chunked responses make the client throw. *)
From S2P Require Import Prelude Util Endian Bytearray Iovec Stream Zlib Httpmap Http Ragel Cstring Httptext Httpclientmachine Httpclient Httpclienttext Http11 Http11text Httpparser Httpresponse Httpsession.
Import Ragel StdString CharBuffer Httpclient HttpclientText HttpResponseParser StreamOps.
#[local] Open Scope list_scope.
#[local] Open Scope Z_scope.

Module HttpConnection.

#[local] Existing Instance HttpclientMachine.action_eq_dec.

Section connection.
Context {W : Type} `{Stream W}.
Context {Zs : Type} `{Codec Zs}.
(** [boost::lexical_cast<uint64_t>]; [inflateInit2] for gzip or raw deflate. *)
Context (lexical_cast : list ascii → option Z) (inflateInit : bool → option Zs) (zfuel : nat).

(** A call on the local parser object. *)
Definition on_parser {X} (m : M HttpResponseParser X) (p : HttpResponseParser)
    : M W (X * HttpResponseParser) :=
  match m p with
  | Ret x p' => ret (x, p')
  | Throw e _ => throw e
  | UB => ub
  end.

(** [data[len] = 0], inside the buffer. *)
Definition put_nul (data : list ascii) (len : Z) : option (list ascii) :=
  if (0 <=? len) && (len <? size data) then Some (<[Z.to_nat len := Ascii.zero]> data) else None.

Definition buff_size (data : list ascii) : Z := size data - 1.

(** The first [do] loop; [None] is the early [return nullptr], after [close()]. *)
Fixpoint head_loop (fuel : nat) (parser : HttpResponseParser) (data : list ascii) (offset : Z)
    : M W (option (HttpResponseParser * list ascii * Z)) :=
  match fuel with
  | O => ub
  | S fuel =>
      let! (len, bytes) := s_read (buff_size data - offset) in
      if len <=? 0 then s_close ;! ret None
      else
        let data := splice (Z.to_nat offset) bytes data in
        let len := len + offset in
        let! data := lift (put_nul data len) in
        let! r := on_parser (execute data len false) parser in
        let '(nparse, data, parser) := r in
        if hasError parser then s_close ;! ret None
        else
          let offset := swrap 32 (len - nparse) in
          if offset =? swrap 32 (buff_size data) then s_close ;! ret None
          else if negb (isFinished parser =? 0) then ret (Some (parser, data, offset))
          else head_loop fuel parser data offset
  end.

(** The size line of a chunk: the inner [do] loop. *)
Definition more_bytes (data : list ascii) (len : Z) : M W (option (list ascii * Z)) :=
  if len <? 0 then ub
  else
    let! (rt, bytes) := s_read (buff_size data - len) in
    if rt <=? 0 then ret None else ret (Some (splice (Z.to_nat len) bytes data, len + rt)).

Fixpoint chunk_head (fuel : nat) (parser : HttpResponseParser) (data : list ascii) (len : Z) (begin : bool)
    : M W (option (HttpResponseParser * list ascii * Z)) :=
  match fuel with
  | O => ub
  | S fuel =>
      let! r := if negb begin || (len =? 0) then more_bytes data len else ret (Some (data, len)) in
      match r with
      | None => s_close ;! ret None
      | Some (data, len) =>
          let! data := lift (put_nul data len) in
          let! r := on_parser (execute data len true) parser in
          let '(nparse, data, parser) := r in
          if hasError parser then s_close ;! ret None
          else
            let len := swrap 32 (len - nparse) in
            if len =? swrap 32 (buff_size data) then s_close ;! ret None
            else
              let len := swrap 32 (len - nparse) in
              if len =? swrap 32 (buff_size data) then s_close ;! ret None
              else if negb (isFinished parser =? 0) then ret (Some (parser, data, len))
              else chunk_head fuel parser data len false
      end
  end.

(** [body.append(data, n)]: a negative [n] is a length no string can have. *)
Definition append (body data : list ascii) (n : Z) : M W (list ascii) :=
  if n <? 0 then throw logic_error else ret (body ++ take (Z.to_nat n) data).

(** The rest of a chunk that is not in the buffer. *)
Fixpoint read_left (fuel : nat) (data : list ascii) (left : Z) (body : list ascii)
    : M W (option (list ascii * list ascii)) :=
  match fuel with
  | O => ub
  | S fuel =>
      if 0 <? left then
        let! (rt, bytes) := s_read (left `min` buff_size data) in
        if rt <=? 0 then ret None
        else
          let data := splice 0 bytes data in
          let! body := append body data rt in
          read_left fuel data (left - rt) body
      else ret (Some (data, body))
  end.

(** The body of a chunk and its line end: what is left of the buffer.  The sum is
    one of [int]s. *)
Definition chunk_data (fuel : nat) (content_len : Z) (data : list ascii) (len : Z) (body : list ascii)
    : M W (option (list ascii * Z * list ascii)) :=
  if 2 ^ 31 <=? content_len + 2 then ub
  else if content_len + 2 <=? len then
    let! body := append body data content_len in
    ret (Some (memmove_front data (Z.to_nat (content_len + 2)) (Z.to_nat (len - content_len - 2)),
               len - (content_len + 2), body))
  else
    let! body := append body data len in
    let! r := read_left fuel data (content_len - len + 2) body in
    match r with
    | None => ret None
    | Some (data, body) => ret (Some (data, 0, take (length body - 2) body))
    end.

Fixpoint chunk_loop (fuel : nat) (parser : HttpResponseParser) (data : list ascii) (len : Z) (body : list ascii)
    : M W (option (HttpResponseParser * list ascii)) :=
  match fuel with
  | O => ub
  | S fuel =>
      let! r := chunk_head fuel parser data len true in
      match r with
      | None => ret None
      | Some (parser, data, len) =>
          let! r := chunk_data fuel (content_len parser) data len body in
          match r with
          | None => s_close ;! ret None
          | Some (data, len, body) =>
              if chunks_done parser =? 0 then chunk_loop fuel parser data len body
              else ret (Some (parser, body))
          end
      end
  end.

(** A body of known length. *)
Definition read_body (data : list ascii) (offset length : Z) : M W (option (list ascii)) :=
  if 0 <? length then
    if max_size <? length then throw logic_error
    else
      let have := if length >=? offset then offset else length in
      let body := take (Z.to_nat have) data in
      let length := length - offset in
      if 0 <? length then
        let! (rt, bytes) := readFixSize length in
        if rt <=? 0 then s_close ;! ret None else ret (Some (body ++ bytes))
      else ret (Some body)
  else ret (Some []).

(** [CreateGzip(false)] or [CreateDeflate(false)], [write], [flush], [getResult]; a
    null stream is dereferenced. *)
Definition inflated (gzip : bool) (body : list ascii) : option (list ascii) :=
  z ← inflateInit gzip;
  '(_, zs) ← ZlibStream.write zfuel body (ZlibStream.new z false 4096);
  '(_, zs) ← ZlibStream.flush zfuel zs;
  Some (ZlibStream.getResult zs).

Definition decoded (content_encoding body : list ascii) : option (list ascii) :=
  if HttpMap.strcasecmp content_encoding (of_lit "gzip") =? 0 then inflated true body
  else if HttpMap.strcasecmp content_encoding (of_lit "deflate") =? 0 then inflated false body
  else Some body.

Definition finish_body (rsp : Http.HttpResponse) (body : list ascii) : M W Http.HttpResponse :=
  match body with
  | [] => ret rsp
  | _ =>
      let! body := lift (decoded (Http.rs_getHeader (of_lit "content-encoding") [] rsp) body) in
      ret (Http.rs_setBody body rsp)
  end.

Definition recvResponse (fuel : nat) (memory : list ascii) (garbage : Z) : M W (option Http.HttpResponse) :=
  let! r := head_loop fuel (new_HttpResponseParser garbage) memory 0 in
  match r with
  | None => ret None
  | Some (parser, data, offset) =>
      let! r :=
        if negb (chunked parser =? 0) then chunk_loop fuel parser data offset []
        else
          let! b := read_body data offset (swrap 64 (getContentLength lexical_cast parser)) in
          ret (b ← b; Some (parser, b)) in
      match r with
      | None => ret None
      | Some (parser, body) => let! rsp := finish_body (getData parser) body in ret (Some rsp)
      end
  end.

Definition sendRequest (req : Http.HttpRequest) : M W Z := writeFixSize (Http.dump req).

End connection.

(** ** The size line of a chunk *)

Definition xdigit (b : ascii) : bool := digit_value b <? 16.
Definition hex_value (hex : list ascii) : Z := foldl (λ v b, v * 16 + digit_value b) 0 hex.
Definition size_line (hex : list ascii) : list ascii := hex ++ eol.

Lemma digit_value_nonneg b : 0 ≤ digit_value b.
Proof. unfold digit_value. repeat case_match; lia. Qed.

Lemma digits_hex acc hex rest :
  forallb xdigit hex = true →
  digits 16 acc (hex ++ "013"%char :: rest) = Some (foldl (λ v b, v * 16 + digit_value b) acc hex).
Proof.
  revert acc. induction hex as [|b hex IH]; intros acc Hh; [done|].
  cbn [forallb] in Hh. apply andb_prop in Hh as [Hb Hh]. cbn [app digits foldl]. unfold xdigit in Hb.
  rewrite Hb. by apply IH.
Qed.

Lemma hex_bound acc hex :
  forallb xdigit hex = true → 0 ≤ acc →
  0 ≤ foldl (λ v b, v * 16 + digit_value b) acc hex < (acc + 1) * 16 ^ size hex.
Proof.
  revert acc. induction hex as [|b hex IH]; intros acc Hh Ha; [cbn; lia|].
  cbn [forallb] in Hh. apply andb_prop in Hh as [Hb Hh]. unfold xdigit in Hb. cbn [foldl length].
  pose proof (digit_value_nonneg b). specialize (IH (acc * 16 + digit_value b) Hh ltac:(lia)).
  rewrite Nat2Z.inj_succ, Z.pow_succ_r by lia. nia.
Qed.

Lemma strtol_hex hex rest :
  forallb xdigit hex = true → hex ≠ [] → size hex ≤ 7 →
  strtol 16 (hex ++ "013"%char :: rest) = Some (hex_value hex) ∧ 0 ≤ hex_value hex < 2 ^ 28.
Proof.
  intros Hh Hne Hl. pose proof (hex_bound 0 hex Hh ltac:(lia)) as Hb. fold (hex_value hex) in Hb.
  assert (16 ^ size hex ≤ 16 ^ 7) by (apply Z.pow_le_mono_r; lia). split; [|lia].
  pose proof (digits_hex 0 hex rest Hh) as Hd. fold (hex_value hex) in Hd. unfold strtol.
  destruct hex as [|b hex]; [done|]. cbn [forallb] in Hh. apply andb_prop in Hh as [Hb1 Hh].
  pose proof (forall_bytes (λ b, implb (xdigit b)
    (negb (is_space b) && negb (Ascii.eqb b "-") && negb (Ascii.eqb b "+") &&
     negb (Ascii.eqb b "x") && negb (Ascii.eqb b "X"))) ltac:(by vm_compute)) as Hx.
  pose proof (Hx b) as H'. cbn beta in H'. rewrite Hb1 in H'. cbn [implb] in H'.
  rewrite !andb_true_iff, !negb_true_iff in H'. destruct H' as [[[[Hs Hm] Hp] _] _].
  cbn [app skip_space]. rewrite Hs, Hm, Hp.
  assert (skip_0x 16 (b :: hex ++ "013"%char :: rest) = b :: hex ++ "013"%char :: rest) as ->.
  { unfold skip_0x. destruct hex as [|x hex]; cbn [app]; [by destruct rest; rewrite ?andb_false_r|].
    cbn [forallb] in Hh. apply andb_prop in Hh as [Hx1 _]. specialize (Hx x). cbn beta in Hx.
    rewrite Hx1 in Hx. cbn [implb] in Hx. rewrite !andb_true_iff, !negb_true_iff in Hx. destruct Hx as [[_ ->] ->].
    destruct (hex ++ _); [done|]. by rewrite !andb_false_r. }
  cbn [app] in Hd. rewrite Hd. cbn [fmap option_fmap option_map]. f_equal. lia.
Qed.

(** The actions of a size line. *)
Lemma exec_size_line buffer len hex rest v (s : HttpResponseParser) :
  forallb xdigit hex = true → hex ≠ [] → mark s = 0 → field_len s = 0 → field_start s = 0 →
  size hex + 2 ≤ len → len < 2 ^ 31 → strtol 16 buffer = Some v → - 2 ^ 31 ≤ v < 2 ^ 31 →
  ∃ s', exec machine (act response_callbacks buffer len) 1 0 (hex ++ eol ++ rest) s =
      Ret (size hex + 2, 120) s' ∧ tidy len s' ∧ body_start s' = size hex + 2 ∧ nread s' = nread s ∧
      data s' = data s ∧ content_len s' = v ∧ chunks_done s' = Z.b2z (v <=? 0).
Proof.
  intros Hh Hne Hm Hfl Hfs Hl Hlen Hv Hr. destruct hex as [|c hex]; [done|].
  cbn [forallb] in Hh. apply andb_prop in Hh as [Hc Hh]. cbn [app].
  rewrite (exec_step _ _ 1 0 c _ [A.mark] 2 s (set_mark 0 s));
    [|by apply (class_step_spec machine xdigit 1 [A.mark] 2); [vm_compute|]|done..].
  rewrite (exec_quiet _ _ 2 2) by (apply (quiet_loop _ xdigit); [by vm_compute|done..]).
  cbn [length] in *. set (q := 0 + 1 + size hex). cbn [eol app].
  set (s1 := set_chunks_done (Z.b2z (v <=? 0)) (set_content_len v (set_chunked 1 (set_mark 0 s)))).
  rewrite (exec_step _ _ 2 q _ _ [A.chunk_size] 3 (set_mark 0 s) s1); [|by vm_compute|done|].
  2:{ rewrite (actions_cons _ _ _ _ _ s1); [done|]. cbn [act]. unfold act_chunk_size, modify.
      unfold bind at 1 2. unfold number_at_mark. unfold bind at 1. rewrite bind_get.
      cbn [mark set_chunked set_mark]. change (Z.to_nat 0) with 0%nat. rewrite drop_0, Hv. cbn [lift].
      unfold bind at 1, ret at 1. rewrite swrap_small by (unfold in_s; lia).
      unfold bind at 1 2. cbn [response_callbacks cb last_chunk chunk_size].
      unfold ret at 1. unfold s1. destruct (v <=? 0); done. }
  rewrite (exec_cons _ _ 3 _ _ _ [A.done] 120); [|by vm_compute|done].
  exists (set_body_start (q + 2) s1). cbn [actions act]. unfold bind, modify, ret.
  cbn [call response_callbacks cb header_done]. unfold on_data, on_response_header_done, ret.
  rewrite !wrap_small by (unfold in_u, q; lia). replace (q + 1 + 1) with (q + 2) by lia.
  replace (Z.of_nat (S (length hex)) + 2) with (q + 2) by (unfold q; lia).
  split; [by destruct s|]. unfold tidy. cbn. split_and!; try done; lia.
Qed.

(** One [execute] in chunk mode on a size line that is there whole. *)
Lemma chunk_line_run hex rest extra (p : HttpResponseParser) :
  let buffer := size_line hex ++ rest ++ Ascii.zero :: extra in
  let len := size (size_line hex ++ rest) in
  forallb xdigit hex = true → hex ≠ [] → size hex ≤ 7 → size buffer < 2 ^ 31 →
  ∃ p', execute buffer len true p = Ret (size (size_line hex), splice 0 rest buffer) p' ∧
    isFinished p' = 1 ∧ content_len p' = hex_value hex ∧ chunks_done p' = Z.b2z (hex_value hex <=? 0) ∧
    data p' = data p ∧ hasError p' = negb (m_error (data p) =? 0).
Proof.
  intros buffer len Hh Hne Hl Hb.
  destruct (strtol_hex hex ("010"%char :: rest ++ Ascii.zero :: extra) Hh Hne Hl) as [Hv Hr].
  assert (size (size_line hex) = size hex + 2) as Hsl by (unfold size_line; rewrite length_app; cbn; lia).
  assert (len = size hex + 2 + size rest) as Hlen by (unfold len; rewrite length_app; lia).
  assert (len + 1 ≤ size buffer) as Hlb by (unfold buffer; rewrite !length_app; cbn [length]; lia).
  assert (buffer !! Z.to_nat len = Some Ascii.zero) as Hz.
  { unfold buffer, len. rewrite (assoc_L (++)), Nat2Z.id. rewrite lookup_app_r by lia. by rewrite Nat.sub_diag. }
  set (p0 := init_parser p).
  assert (∃ s', exec machine (act response_callbacks buffer len) (cs p0) 0 (take (Z.to_nat len) buffer) (cleared p0) =
      Ret (size hex + 2, 120) s' ∧ tidy len s' ∧ body_start s' = size hex + 2 ∧ nread s' = 0 ∧
      data s' = data p ∧ content_len s' = hex_value hex ∧ chunks_done s' = Z.b2z (hex_value hex <=? 0))
    as (s' & He & Ht & Hbs & Hn & Hd & Hcl & Hcd).
  { destruct (exec_size_line buffer len hex rest (hex_value hex) (cleared p0)) as (s' & He & Hs);
      [done..|lia|lia| |lia|].
    { unfold buffer, size_line. rewrite <- (assoc_L (++)). exact Hv. }
    exists s'. split; [|exact Hs]. rewrite <- He. f_equal. unfold buffer, len.
    rewrite (assoc_L (++)), Nat2Z.id, take_app_length. unfold size_line. by rewrite <- (assoc_L (++)). }
  assert (httpclient_parser_execute response_callbacks buffer len 0 p0 =
    Ret (size hex + 2) (set_nread (size hex + 2) (set_cs 120 s'))) as Hx.
  { apply (client_execute_exec buffer len (size hex + 2) 120 p0 s'); [lia|done|lia|done|done|lia|done]. }
  exists (set_nread (size hex + 2) (set_cs 120 s')). split; [|split_and!; try done].
  - unfold execute, bind, ret. fold p0. rewrite Hx, <- Hsl. by apply consumed.
  - unfold hasError. cbn [data set_nread set_cs]. rewrite Hd. by rewrite orb_false_r.
Qed.

(** ** Receiving *)

Lemma put_nul_at (bs memory : list ascii) :
  (length bs < length memory)%nat →
  put_nul (splice 0 bs memory) (size bs) = Some (bs ++ Ascii.zero :: drop (S (length bs)) memory).
Proof.
  intros Hl. unfold put_nul, splice. rewrite take_0. cbn [app Nat.add].
  rewrite length_app, length_drop. rewrite (proj2 (Z.leb_le _ _)), (proj2 (Z.ltb_lt _ _)) by lia.
  cbn [andb]. f_equal. rewrite Nat2Z.id, insert_app_r_alt, Nat.sub_diag by lia. f_equal.
  destruct (drop (length bs) memory) as [|x l] eqn:E.
  - apply (f_equal length) in E. rewrite length_drop in E. cbn in E. lia.
  - cbn. f_equal. rewrite <- Nat.add_1_r, <- drop_drop, E. done.
Qed.

Section laws.
Context {W : Type} `{StreamLaws W}.
Context {Zs : Type} `{Codec Zs}.
Context (lexical_cast : list ascii → option Z) (inflateInit : bool → option Zs) (zfuel : nat).

(** One round when the first read brings the whole head. *)
Lemma head_loop_head fuel r b1 memory garbage w w1 :
  let bs := response_head r ++ b1 in
  s_read (size memory - 1) w = Ret (size bs, bs) w1 →
  well_formed r = true → one_of (of_lit "01") (rs_minor r) = true → size (rs_code r) ≤ 9 →
  (length bs < length memory)%nat → size memory < 2 ^ 31 →
  ∃ p data, head_loop (S fuel) (new_HttpResponseParser garbage) memory 0 w =
      Ret (Some (p, data, size b1)) w1 ∧
    take (length b1) data = b1 ∧ length data = length memory ∧ getData p = parsed r ∧ hasError p = false ∧
    chunked p = if existsb chunked_line (rs_lines r) then 1 else 0.
Proof.
  intros bs Hread Hw Hv Hcl Hlen Hmem. cbn [head_loop]. unfold buff_size at 1. rewrite Z.sub_0_r.
  assert (0 < size (response_head r)) as Hpos.
  { pose proof (size_response r) as Hsz. unfold headers_at in Hsz. lia. }
  assert (size bs = size (response_head r) + size b1) as Hbs by (unfold bs; rewrite length_app; lia).
  rewrite (bind_Ret _ _ _ _ _ Hread). rewrite (proj2 (Z.leb_gt _ _)) by lia.
  change (Z.to_nat 0) with 0%nat. rewrite Z.add_0_r, put_nul_at by done. cbn [lift]. unfold bind at 1, ret at 1.
  set (extra := drop (S (length bs)) memory).
  assert (length (response_head r ++ b1 ++ Ascii.zero :: extra) = length memory) as Hsz.
  { unfold extra. rewrite !length_app in *. cbn [length]. rewrite length_drop. unfold bs in *. rewrite !length_app in *. lia. }
  destruct (client_parse_run r b1 extra garbage Hw Hv Hcl) as (p & He & Hf & Herr & Hd & Hch);
    [rewrite Hsz; lia|].
  replace (bs ++ Ascii.zero :: extra) with (response_head r ++ b1 ++ Ascii.zero :: extra)
    by (unfold bs; by rewrite <- (assoc_L (++))).
  fold bs in He. unfold on_parser. rewrite He.
  unfold bind, ret. rewrite Herr, Hbs.
  replace (size (response_head r) + size b1 - size (response_head r)) with (size b1) by lia.
  rewrite swrap_small by (unfold in_s; lia).
  assert (length (splice 0 b1 (response_head r ++ b1 ++ Ascii.zero :: extra)) = length memory) as Hsp.
  { rewrite length_splice; [done|]. rewrite !length_app. lia. }
  unfold buff_size. rewrite Hsp, swrap_small by (unfold in_s; lia).
  rewrite (proj2 (Z.eqb_neq _ _)) by lia. rewrite Hf. cbn [negb Z.eqb].
  eexists p, _. split; [done|]. split; [|done].
  unfold splice. rewrite take_0. cbn [app]. by rewrite take_app_length.
Qed.

(** A size line that is in the buffer: what [chunk_head] makes of it. *)
Lemma chunk_head_line fuel hex b1 (p : HttpResponseParser) data w :
  take (length (size_line hex ++ b1)) data = size_line hex ++ b1 →
  (length (size_line hex ++ b1) < length data)%nat → size data < 2 ^ 31 → hasError p = false →
  forallb xdigit hex = true → hex ≠ [] → size hex ≤ 7 →
  ∃ p' data', chunk_head (S fuel) p data (size (size_line hex ++ b1)) true w =
      Ret (Some (p', data', size b1 - size (size_line hex))) w ∧
    take (length b1) data' = b1 ∧ length data' = length data ∧
    content_len p' = hex_value hex ∧ chunks_done p' = Z.b2z (hex_value hex <=? 0).
Proof.
  intros Hd Hl Hsz Herr Hh Hne Hhl.
  assert (size (size_line hex) = size hex + 2) as Hsl by (unfold size_line; rewrite length_app; cbn; lia).
  assert (length (size_line hex ++ b1) = length (size_line hex) + length b1)%nat as Hlen by apply length_app.
  cbn [chunk_head negb orb]. rewrite (proj2 (Z.eqb_neq _ 0)) by lia. unfold bind at 1, ret at 1.
  assert (data = splice 0 (size_line hex ++ b1) data) as Esp.
  { unfold splice. rewrite take_0. cbn [app Nat.add]. rewrite <- Hd at 1. by rewrite take_drop. }
  pose proof (put_nul_at _ data Hl) as Hpn. rewrite <- Esp in Hpn. rewrite Hpn. cbn [lift]. unfold bind at 1, ret at 1.
  set (extra := drop (S (length (size_line hex ++ b1))) data). rewrite <- (assoc_L (++)).
  assert (length (size_line hex ++ b1 ++ Ascii.zero :: extra) = length data) as Htot.
  { unfold extra. rewrite !length_app in *. cbn [length]. rewrite length_drop, ?length_app. lia. }
  destruct (chunk_line_run hex b1 extra p Hh Hne Hhl) as (p' & He & Hf & Hc & Hdone & Hdp & Herr'); [rewrite Htot; lia|].
  unfold on_parser. rewrite He. unfold bind, ret. rewrite Herr'.
  unfold hasError in Herr. apply orb_false_iff in Herr as [-> _].
  assert (length (splice 0 b1 (size_line hex ++ b1 ++ Ascii.zero :: extra)) = length data) as Hsp.
  { rewrite length_splice; [done|]. rewrite !length_app. lia. }
  unfold buff_size. rewrite Hsp.
  replace (size (size_line hex ++ b1) - size (size_line hex)) with (size b1) by lia.
  rewrite !(swrap_small _ (size b1)), !(swrap_small _ (size data - 1)), !(swrap_small _ (size b1 - _))
    by (unfold in_s; lia).
  rewrite (proj2 (Z.eqb_neq (size b1) _)), (proj2 (Z.eqb_neq (size b1 - _) _)) by lia. rewrite Hf. cbn [negb Z.eqb].
  eexists p', _. split; [done|]. split; [|done]. unfold splice. rewrite take_0. cbn [app]. by rewrite take_app_length.
Qed.

(** What [read_body] delivers of a body of [n] bytes of which [b1] are there. *)
Lemma read_body_run data b1 n w :
  take (length b1) data = b1 → 0 < n < 2 ^ 31 →
  (∃ w', read_body data (size b1) n w = Ret (Some (take (Z.to_nat n) (b1 ++ incoming w))) w' ∧
     outgoing w' = outgoing w ∧ (Z.to_nat n ≤ length b1 + length (incoming w))%nat) ∨
  (∃ w' bs, cut_short (n - size b1) w bs w' ∧ incoming w = bs ++ incoming w' ∧ outgoing w' = outgoing w ∧
     read_body data (size b1) n w = (s_close ;! ret None) w').
Proof.
  intros Hd Hn. unfold read_body. rewrite (proj2 (Z.ltb_lt 0 n)) by lia.
  rewrite (proj2 (Z.ltb_ge max_size n)) by (unfold max_size; lia).
  destruct (Z.ltb_spec 0 (n - size b1)) as [Hlt|Hge].
  - rewrite Z.geb_leb, (proj2 (Z.leb_le _ _)), Nat2Z.id, Hd by lia.
    destruct (HttpSession.body_rest b1 n w ltac:(lia)) as (rt & bs & w' & Hm & Hout & Hall).
    rewrite (bind_Ret _ _ _ _ _ Hm). destruct Hall as [(Hrt & Hb & Hle)|(Hrt & Hk & Hin)].
    + left. rewrite (proj2 (Z.leb_gt _ _)), Hb by lia. by exists w'.
    + right. rewrite (proj2 (Z.leb_le _ _)) by lia. exists w', bs. by split_and!.
  - left. exists w. rewrite (HttpSession.body_here b1 data n (incoming w)) by (done || lia).
    split_and!; [done|done|lia].
Qed.

End laws.


(** Chunks that arrive apart from their size throw.  When what has arrived of a
    chunked response is the head, the size line of a chunk and fewer bytes than
    that line has, [recvResponse] does not read on: it subtracts the length of the
    line twice from what the buffer holds, appends a negative number of bytes to
    the body, and throws. *)
Theorem chunked_split_throws {W} `{StreamLaws W} {Zs} `{Codec Zs} lexical_cast inflateInit zfuel
    fuel r hex b1 memory garbage (w w1 : W) :
  let bs := response_head r ++ size_line hex ++ b1 in
  s_read (size memory - 1) w = Ret (size bs, bs) w1 →
  well_formed r = true → one_of (of_lit "01") (rs_minor r) = true → size (rs_code r) ≤ 9 →
  existsb chunked_line (rs_lines r) = true →
  (length bs < length memory)%nat → size memory < 2 ^ 31 →
  forallb xdigit hex = true → hex ≠ [] → size hex ≤ 7 → size b1 < size (size_line hex) →
  (2 < fuel)%nat →
  recvResponse lexical_cast inflateInit zfuel fuel memory garbage w = Throw logic_error w1.
Proof.
  intros bs Hread Hw Hv1 Hcl Hch Hl Hmem Hh Hne Hsz Hb1 Hfuel.
  destruct fuel as [|[|fuel]]; [lia|lia|]. destruct fuel as [|fuel]; [lia|].
  destruct (head_loop_head (S (S fuel)) r (size_line hex ++ b1) memory garbage w w1 Hread Hw Hv1 Hcl Hl Hmem)
    as (p & data & Hloop & Hdata & Hlen & Hget & Herr & Hpc).
  unfold recvResponse. rewrite (bind_Ret _ _ _ _ _ Hloop). rewrite Hch in Hpc. rewrite Hpc. cbn [negb Z.eqb].
  destruct (chunk_head_line (S fuel) hex b1 p data w1) as (p' & data' & Hc & _ & _ & Hcn & _);
    [done|rewrite Hlen; unfold bs in Hl; rewrite (length_app (response_head r)) in Hl; lia|lia|done..|].
  destruct (strtol_hex hex [] Hh Hne Hsz) as [_ Hr].
  remember (S (S fuel)) as f eqn:Ef. cbn [chunk_loop]. subst f. unfold bind at 1.
  rewrite (bind_Ret _ _ _ _ _ Hc). unfold chunk_data. rewrite Hcn.
  rewrite (proj2 (Z.leb_gt _ _)), (proj2 (Z.leb_gt _ _)) by lia.
  unfold append. rewrite (proj2 (Z.ltb_lt _ _)) by lia. done.
Qed.

(** A response with a body in two pieces, and a chunked one. *)
Definition demo_response : Response :=
  {| rs_minor := "1"; rs_code := of_lit "200"; rs_phrase := of_lit "OK";
     rs_lines := [(of_lit "Content-Length", of_lit " ", of_lit "5")] |}.
Definition demo_chunked : Response :=
  {| rs_minor := "1"; rs_code := of_lit "200"; rs_phrase := of_lit "OK";
     rs_lines := [(of_lit "Transfer-Encoding", of_lit " ", of_lit "chunked")] |}.
Definition connection_of (incoming : list ascii) (chunk : nat) : SocketStream.t Pipe.t :=
  SocketStream.mk (Some (Pipe.mk incoming [] chunk true)) true.
Definition no_zlib (gzip : bool) : option ZlibStream.stored := None.

#[local] Existing Instances ByteArray.zeroed SocketStream.socket_stream SocketStream.socket_stream_laws.

Definition demo_reply : SocketStream.t Pipe.t :=
  connection_of (response_head demo_response ++ of_lit "hello, more") (length (response_head demo_response) + 2).


(** A chunk, the bytes of which come in a packet of their own. *)
Definition demo_chunks : SocketStream.t Pipe.t :=
  connection_of (response_head demo_chunked ++ size_line (of_lit "5") ++ of_lit "hello")
    (length (response_head demo_chunked) + 3).

Lemma chunked_split_throws_witness :
  recvResponse HttpSession.one_digit no_zlib 1 3 (replicate 200 Ascii.zero) 0 demo_chunks =
  Throw logic_error (connection_of (of_lit "hello") (length (response_head demo_chunked) + 3)).
Proof.
  exact (chunked_split_throws HttpSession.one_digit no_zlib 1 3 demo_chunked (of_lit "5") [] (replicate 200 Ascii.zero) 0
    demo_chunks (connection_of (of_lit "hello") (length (response_head demo_chunked) + 3))
    ltac:(by vm_compute) ltac:(by vm_compute) ltac:(by vm_compute) ltac:(by vm_compute) ltac:(by vm_compute)
    ltac:(vm_compute; lia) ltac:(by vm_compute) ltac:(by vm_compute) ltac:(done) ltac:(by vm_compute)
    ltac:(by vm_compute) ltac:(lia)).
Defined.

(** A whole chunked response in one packet makes it write in front of its buffer. *)
Example chunked_one_packet :
  recvResponse HttpSession.one_digit no_zlib 1 20 (replicate 200 Ascii.zero) 0
    (connection_of (response_head demo_chunked ++ size_line (of_lit "5") ++ of_lit "hello" ++ eol
       ++ size_line (of_lit "0") ++ eol) 199) = UB.
Proof. by vm_compute. Qed.

End HttpConnection.
