(* ===== verification/Http11grammar.v ===== *)
(** * Http11grammar: the grammar of requests

    The grammar of http11_parser.rl, rule by rule, and [execute_grammar]:
    [HttpRequestParser::execute] finishes exactly when the bytes begin with a word
    of it, and consumes the first such word.  The theorem says that the 349 states
    of http11_parser.rl.cc are a correct compilation of the grammar, for both
    values of [uri_relaxed]; 10000 rounds of exploration are enough. *)
From S2P Require Import Prelude Util Httpmap Http Cstring Ragel Regex Http11machine Http11 Httptext Http11text Httpparser.
Import StdString Ragel Regex FirstMatch Rules.
#[local] Open Scope list_scope.
#[local] Open Scope Z_scope.

Module Http11Grammar.

Definition CRLF : regex := Alt (Lit ["013"; "010"]%char) (Lit ["010"%char]).

Section grammar.
Context (uri_relaxed : bool).

(** [more_delims when { parser->uri_relaxed }] *)
Definition sub_delims : list (Z * Z) :=
  chars "!$&'()*+,;=" ++ (if uri_relaxed then chars "{}^" else []).
Definition pchar : regex := Alt (Cls (non_ascii ++ unreserved ++ sub_delims ++ chars ":@")) pct_encoded.
Definition query : regex := Star (Alt pchar (Cls (chars "/?"))).
Definition fragment : regex := Star (Alt pchar (Cls (chars "/?"))).
Definition segment_nz_nc : regex := Plus (Alt (Cls (unreserved ++ sub_delims ++ chars "@")) pct_encoded).
Definition segment_nz : regex := Plus pchar.
Definition slash_segments : regex := Star (Cat (lit "/") (Star pchar)).
Definition path_empty : regex := Eps.
Definition path_rootless : regex := Cat segment_nz slash_segments.
Definition path_noscheme : regex := Cat segment_nz_nc slash_segments.
Definition path_absolute : regex := Cat (lit "/") (Opt (Cat segment_nz slash_segments)).
Definition path_abempty : regex := slash_segments.
Definition reg_name : regex := Star (Alt (Cls (unreserved ++ sub_delims)) pct_encoded).

(** A minus between two characters is a difference, which leaves the first. *)
Definition dec_octet : regex :=
  Alts [Cls digit; Cat (lit "1") (Cls digit); Cat (lit "1") (Times 2 (Cls digit));
    Cats [lit "2"; lit "0"; Cls digit]; Cat (lit "25") (lit "0")].
Definition IPv4address : regex :=
  Cats [dec_octet; lit "."; dec_octet; lit "."; dec_octet; lit "."; dec_octet].
Definition ls32 : regex := Alt (Cats [h16; lit ":"; h16]) IPv4address.
(** An unquoted number is the character with that code. *)
Definition counted (n : Z) : regex := Cat (Cls [(n, n)]) (Cat h16 (lit ":")).
(** [( ( h16 ":" ){n,} h16 )?] *)
Definition h16s_from (n : nat) : regex :=
  Opt (Cats [Times n (Cat h16 (lit ":")); Star (Cat h16 (lit ":")); h16]).
Definition IPv6address : regex :=
  Alts [Cat (counted 6) ls32;
    Cats [lit "::"; counted 5; ls32];
    Cats [Opt h16; lit "::"; counted 4; ls32];
    Cats [h16s_from 1; lit "::"; counted 3; ls32];
    Cats [h16s_from 2; lit "::"; counted 2; ls32];
    Cats [h16s_from 3; lit "::"; h16; lit ":"; ls32];
    Cats [h16s_from 4; lit "::"; ls32];
    Cats [h16s_from 5; lit "::"; h16];
    Cat (h16s_from 6) (lit "::")].
Definition IPvFuture : regex :=
  Cats [lit "v"; Plus xdigit; lit "."; Plus (Cls (unreserved ++ sub_delims ++ chars ":"))].
Definition IP_literal : regex := Cats [lit "["; Alt IPv6address IPvFuture; lit "]"].
Definition host : regex := Alts [IP_literal; IPv4address; reg_name].
Definition userinfo : regex := Star (Alt (Cls (unreserved ++ sub_delims ++ chars ":")) pct_encoded).
Definition authority : regex :=
  Cats [Opt (Cat userinfo (lit "@")); host; Opt (Cat (lit ":") port)].
Definition relative_part : regex :=
  Alts [Cats [lit "//"; authority; path_abempty]; path_absolute; path_noscheme; path_empty].
Definition hier_part : regex :=
  Alts [Cats [lit "//"; authority; path_abempty]; path_absolute; path_rootless; path_empty].
Definition tail : regex := Cat (Opt (Cat (lit "?") query)) (Opt (Cat (lit "#") fragment)).
Definition relative_ref : regex := Cat relative_part tail.
Definition URI : regex := Cats [scheme; lit ":"; hier_part; tail].
Definition URI_reference : regex := Alt URI relative_ref.

Definition Method : regex := UpTo 20 (Cls ([(65, 90)] ++ digit)).
Definition HTTP_Version : regex := Cat (lit "HTTP/1.") (Cls (chars "01")).
Definition Request_Line : regex := Cats [Method; lit " "; URI_reference; lit " "; HTTP_Version; CRLF].

(** [HTTP_CTL] is [(0 - 31) | 127]: the codes 0 and 127. *)
Definition token : regex :=
  Cls [(1, 8); (10, 31); (33, 33); (35, 39); (42, 43); (45, 46); (48, 57); (65, 90); (94, 122); (124, 124); (126, 126)].
(** [lws* field_value :> CRLF]: the guard ends the value at the first CR or LF. *)
Definition field_value : regex := Star (Cls [(1, 9); (11, 12); (14, 126); (128, 255)]).
Definition message_header : regex := Cats [Plus token; lit ":"; field_value; CRLF].
Definition Request : regex := Cats [Request_Line; Star message_header; CRLF].

Definition any : regex := Cls [(0, 255)].
Definition NUL : regex := Cls [(0, 0)].
Definition SocketJSON : regex :=
  Cats [lit "@"; relative_part; lit " "; lit "{"; Star any; lit "}"; NUL].
Definition SocketXML : regex :=
  Cats [lit "<"; Plus (Cls (alpha ++ digit ++ chars "-.")); Cls (chars "/>" ++ [(9, 13); (32, 32)]);
    Star any; lit ">"; NUL].
Definition main : regex := Alts [Request; SocketXML; SocketJSON].
End grammar.

(** ** The machine accepts the grammar *)

Module A := Http11Machine.
#[local] Existing Instance A.action_eq_dec.
Abbreviation machine := A.http_machine.

Definition cert (relaxed : bool) : certificate :=
  explore true (main relaxed) (next_first (machine relaxed) 348) 1 (Z.to_nat 10000).

Lemma http11_cert_checked relaxed :
  check true (main relaxed) (next_first (machine relaxed) 348) (Z.leb 348) 1
    (Z.of_nat <$> seq 1 349) (cert relaxed) = true.
Proof. destruct relaxed; by vm_compute. Qed.

Lemma http11_breaks_checked relaxed : breaks_ok (machine relaxed) 348 349 = true.
Proof. destruct relaxed; by vm_compute. Qed.

Lemma no_state_zero relaxed : states (machine relaxed) 0 = None.
Proof. by destruct relaxed. Qed.

Lemma http11_machine_accepts relaxed w :
  accepts_first (machine relaxed) 348 1 w = true ↔ words true (main relaxed) w.
Proof.
  apply (accepts_words true (main relaxed) _ (Z.leb 348) 1 _ (cert relaxed) (http11_cert_checked relaxed)); [|done].
  intros b. by apply next_first_dead, no_state_zero.
Qed.

Lemma http11_act_stops {D} (cb : Http11.callbacks D) buffer len relaxed a p s brk s' :
  Http11.act cb buffer len a p s = Ret brk s' → brk = stops (machine relaxed) a.
Proof.
  destruct a; cbn [Http11.act]; intros H; repeat (apply bind_inv in H as (? & ? & _ & H));
    by injection H as <- _.
Qed.

(** C2. The request parser recognises the grammar of http11_parser.rl.  A fresh
    [HttpRequestParser] given any bytes finishes exactly when they begin with a
    word of the grammar (a request head, or one of the two socket messages); it
    then has consumed the shortest such word, and what is left is what follows
    it. *)
Theorem execute_grammar buffer len relaxed query :
  0 ≤ len ≤ Z.of_nat (length buffer) → Z.of_nat (length buffer) < 2 ^ 31 →
  let g := main (negb (relaxed =? 0)) in
  let input := take (Z.to_nat len) buffer in
  ∃ n buffer' p', HttpParser.execute buffer len (HttpParser.new_HttpRequestParser relaxed query) =
      Ret (n, buffer') p' ∧
    if HttpParser.isFinished p' =? 1 then 0 ≤ n ≤ len ∧ words true g (take (Z.to_nat n) input)
    else ∀ u v, input = u ++ v → ¬ matches g u.
Proof.
  intros Hl Hb g input. set (p0 := HttpParser.new_HttpRequestParser relaxed query).
  destruct (Http11.execute_safe HttpParser.request_callbacks buffer len 0 p0)
    as (n & s' & He & Hn & _ & Hx); [apply HttpParser.request_callbacks_total; lia|lia|lia|lia|done|done|cbn; lia|].
  unfold HttpParser.execute. rewrite (bind_Ret _ _ _ _ _ He). eexists n, _, s'. split; [done|].
  unfold HttpParser.isFinished, Http11.http_parser_finish, Http11.http_parser_has_error,
    Http11.http_parser_is_finished, Http11.http_parser_error, Http11.http_parser_first_final.
  assert (if 348 <=? Http11.cs s' then accepts_first (machine (negb (relaxed =? 0))) 348 1 (take (Z.to_nat n) input) = true
    else ∀ u v, input = u ++ v → accepts_first (machine (negb (relaxed =? 0))) 348 1 u = false) as Hfirst.
  { destruct (Z.eqb_spec len 0) as [->|H0].
    - assert (s' = p0) as -> by (unfold Http11.http_parser_execute in He; cbn in He; by injection He).
      cbn. intros u v Hu. symmetry in Hu. unfold input in Hu. cbn in Hu. apply app_nil in Hu as [-> _]. done.
    - destruct (Hx ltac:(done) ltac:(lia)) as [s1 Hexec].
      pose proof (exec_first (machine (negb (relaxed =? 0))) _ 348 349 (http11_act_stops _ _ _ _)
        (http11_breaks_checked _) eq_refl (no_state_zero _) _ _ _ _ _ _ _ (conj eq_refl eq_refl : 0 < Http11.cs p0 < 348) Hexec) as H.
      rewrite Z.sub_0_r in H. change (Z.to_nat 0) with 0%nat in H. rewrite drop_0 in H. fold input in H.
      change (Http11.cs p0) with 1 in H. destruct (348 <=? Http11.cs s'); [|exact H].
      destruct H as [_ H]. by replace (Z.to_nat (0 + n - 0)) with (Z.to_nat n) in H by lia. }
  destruct (Z.leb_spec 348 (Http11.cs s')) as [Hc|Hc].
  - destruct (Z.eqb_spec (Http11.cs s') 0); [lia|].
    rewrite Z.geb_leb, (proj2 (Z.leb_le _ _)) by lia. cbn [Z.eqb Pos.eqb].
    split; [lia|]. by apply http11_machine_accepts.
  - rewrite Z.geb_leb, (proj2 (Z.leb_gt _ _)) by lia.
    assert (((if Http11.cs s' =? 0 then -1 else 0) =? 1) = false) as -> by (by destruct (Http11.cs s' =? 0)).
    intros u v Hu Hm. destruct (words_first g u Hm) as (u1 & u2 & -> & Hw). apply http11_machine_accepts in Hw.
    rewrite (Hfirst u1 (u2 ++ v)) in Hw; [done|]. by rewrite (assoc_L (++)).
Qed.

Lemma execute_grammar_witness :
  ∃ n buffer' p', HttpParser.execute (of_lit "GET / HTTP/1.1" ++ ["010"; "010"; "X"]%char) 17
      (HttpParser.new_HttpRequestParser 0 0) = Ret (n, buffer') p' ∧
    HttpParser.isFinished p' = 1 ∧
    words true (main false) (take (Z.to_nat n) (of_lit "GET / HTTP/1.1" ++ ["010"; "010"; "X"]%char)).
Proof.
  destruct (execute_grammar (of_lit "GET / HTTP/1.1" ++ ["010"; "010"; "X"]%char) 17 0 0)
    as (n & buffer' & p' & He & H); [by vm_compute|by vm_compute|].
  assert (HttpParser.isFinished p' = 1) as Hf by (vm_compute in He; injection He as _ _ <-; by vm_compute).
  rewrite Hf in H. exists n, buffer', p'. split; [exact He|]. split; [exact Hf|]. exact (proj2 H).
Defined.

End Http11Grammar.
