(* ===== verification/Clientgrammar.v ===== *)
(** * Clientgrammar: the grammar of responses and chunk headers

    The grammar of httpclient_parser.rl, rule by rule, and [response_grammar]: the
    123 states of httpclient_parser.rl.cc stop in a final state exactly behind the
    first word of it. *)
From S2P Require Import Prelude Util Cstring Ragel Regex Httpclientmachine Httpclient.
Import StdString Ragel Regex FirstMatch Rules.
#[local] Open Scope list_scope.
#[local] Open Scope Z_scope.

Module ClientGrammar.

Definition CRLF : regex := Alt (Lit ["013"; "010"]%char) (Lit ["010"%char]).
Definition space : regex := Cls [(9, 13); (32, 32)].

(** [/word/i] *)
Definition both_cases (c : ascii) : regex :=
  let n := b2z c in
  if (65 <=? n) && (n <=? 90) then Cls [(n, n); (n + 32, n + 32)]
  else if (97 <=? n) && (n <=? 122) then Cls [(n - 32, n - 32); (n, n)]
  else Chr c.
Definition ci (s : string) : regex := Cats (both_cases <$> of_lit s).

(** [ascii -- (CTL | tspecials)] *)
Definition token : regex :=
  Cls [(33, 33); (35, 39); (42, 43); (45, 46); (48, 57); (65, 90); (94, 122); (124, 124); (126, 126)].
(** Text that a following [:> CRLF] ends at the first CR or LF. *)
Definition text : list (Z * Z) := [(0, 9); (11, 12); (14, 255)].

(** [any -- CRLF] excludes LF alone; the first character may be a CR. *)
Definition Reason_Phrase : regex := Cat (Cls [(0, 9); (11, 255)]) (Star (Cls text)).
Definition Status_Code : regex := Plus (Cls digit).
Definition http_number : regex := Cats [Plus (Cls digit); lit "."; Plus (Cls digit)].
Definition HTTP_Version : regex := Cat (lit "HTTP/") http_number.
Definition Status_Line : regex :=
  Cats [HTTP_Version; lit " "; Status_Code; lit " "; Reason_Phrase; CRLF].

Definition fields : regex := Cats [Plus token; lit ":"; Star (Cls text); CRLF].
Definition content_length : regex :=
  Cats [ci "Content-Length"; lit ":"; Star space; Plus (Cls digit); CRLF].
Definition conn_close : regex := Cats [ci "Connection"; lit ":"; Star space; ci "close"; CRLF].
Definition transfer_encoding_chunked : regex :=
  Cats [ci "Transfer-Encoding"; lit ":"; Star space; ci "chunked"; CRLF].
Definition message_header : regex :=
  Alts [transfer_encoding_chunked; conn_close; content_length; fields].
Definition Response : regex := Cats [Status_Line; Star message_header; CRLF].

Definition chunk_extension : regex :=
  Star (Cats [lit ";"; Plus token; Opt (Cat (lit "=") (Plus token))]).
Definition Chunked_Header : regex := Cats [Plus xdigit; chunk_extension; CRLF].
Definition main : regex := Alt Response Chunked_Header.

Module A := HttpclientMachine.
Abbreviation machine := A.httpclient_machine.

Definition cert : certificate := explore true main (next_first machine 120) 1 (Z.to_nat 10000).

Lemma client_cert_checked :
  check true main (next_first machine 120) (Z.leb 120) 1 (Z.of_nat <$> seq 1 123) cert = true.
Proof. by vm_compute. Qed.

Lemma client_breaks_checked : breaks_ok machine 120 123 = true.
Proof. by vm_compute. Qed.

Lemma client_machine_accepts w : accepts_first machine 120 1 w = true ↔ words true main w.
Proof.
  apply (accepts_words true main _ (Z.leb 120) 1 _ cert client_cert_checked); [|done].
  intros b. by apply next_first_dead.
Qed.

Lemma client_act_stops {D} (cb : Httpclient.callbacks D) buffer len a p s brk s' :
  Httpclient.act cb buffer len a p s = Ret brk s' → brk = stops machine a.
Proof.
  destruct a; cbn [Httpclient.act]; intros H; repeat (apply bind_inv in H as (? & ? & _ & H));
    by injection H as <- _.
Qed.

(** C31. The response parser recognises the grammar of httpclient_parser.rl.  Its
    states, run from the start until they break, are final after a word exactly
    when the word is a response head or a chunk header and has no shorter one in
    front of it; and whatever the callbacks do, when the generated code returns it
    is in a final state exactly if the input begins with a word of the grammar,
    and stands behind the shortest one. *)
Theorem response_grammar :
  (∀ w, accepts_first machine 120 1 w = true ↔ words true main w) ∧
  ∀ D (cb : Httpclient.callbacks D) buffer len input s p n s',
    exec machine (Httpclient.act cb buffer len) 1 0 input s = Ret (p, n) s' →
    if 120 <=? n then 0 ≤ p ≤ Z.of_nat (length input) ∧ words true main (take (Z.to_nat p) input)
    else ∀ u v, input = u ++ v → ¬ matches main u.
Proof.
  split; [exact client_machine_accepts|]. intros D cb buffer len input s p n s' He.
  pose proof (exec_first machine _ 120 123 (client_act_stops cb buffer len) client_breaks_checked eq_refl eq_refl
    _ _ _ _ _ _ _ (conj eq_refl eq_refl : 0 < 1 < 120) He) as H.
  destruct (120 <=? n).
  - destruct H as [Hp H]. rewrite Z.sub_0_r in H. split; [lia|]. by apply client_machine_accepts.
  - intros u v -> Hm. destruct (words_first main u Hm) as (u1 & u2 & -> & Hw).
    apply client_machine_accepts in Hw. rewrite (H u1 (u2 ++ v)) in Hw; [done|]. by rewrite (assoc_L (++)).
Qed.

End ClientGrammar.
