(* ===== verification/Uri.v ===== *)
(** * Uri: the URI class and its parser

    [Uri] (uri.h, uri.rl.cc): the object, [Create] with the actions of the grammar
    over the machine of Urimachine.v, the getters, printing, and the address of
    the host.

    [Create_total]: [Create] returns on every text without an empty port.
    [empty_port_crashes]: with one it reads through a null pointer.
    [Create_text]: a URI with an authority is cut into its parts.
    [toString_roundtrip]: what [toString] prints is parsed back.
    [createAddress_port]: the port the address of a URI gets. *)
From stdpp Require Import pretty.
From S2P Require Import Prelude Util Endian Address Http Cstring Ragel Urimachine.
Import StdString CharClass CharBuffer Ragel.
#[local] Open Scope list_scope.
#[local] Open Scope Z_scope.

Module Uri.

Module A := UriMachine.
#[local] Existing Instance A.action_eq_dec.
Abbreviation machine := A.uri_machine.

Definition uri_parser_start : Z := 451.
Definition uri_parser_first_final : Z := 451.
Definition uri_parser_error : Z := 0.

(** ** The object *)

Record Uri := {
  m_scheme : list ascii;
  m_userinfo : list ascii;
  m_host : list ascii;
  m_path : list ascii;
  m_query : list ascii;
  m_fragment : list ascii;
  m_port : Z;
}.

Definition new_Uri : Uri :=
  {| m_scheme := []; m_userinfo := []; m_host := []; m_path := []; m_query := [];
     m_fragment := []; m_port := 0 |}.

Definition setScheme (v : list ascii) (u : Uri) : Uri :=
  {| m_scheme := v; m_userinfo := m_userinfo u; m_host := m_host u; m_path := m_path u;
     m_query := m_query u; m_fragment := m_fragment u; m_port := m_port u |}.
Definition setUserinfo (v : list ascii) (u : Uri) : Uri :=
  {| m_scheme := m_scheme u; m_userinfo := v; m_host := m_host u; m_path := m_path u;
     m_query := m_query u; m_fragment := m_fragment u; m_port := m_port u |}.
Definition setHost (v : list ascii) (u : Uri) : Uri :=
  {| m_scheme := m_scheme u; m_userinfo := m_userinfo u; m_host := v; m_path := m_path u;
     m_query := m_query u; m_fragment := m_fragment u; m_port := m_port u |}.
Definition setPath (v : list ascii) (u : Uri) : Uri :=
  {| m_scheme := m_scheme u; m_userinfo := m_userinfo u; m_host := m_host u; m_path := v;
     m_query := m_query u; m_fragment := m_fragment u; m_port := m_port u |}.
Definition setQuery (v : list ascii) (u : Uri) : Uri :=
  {| m_scheme := m_scheme u; m_userinfo := m_userinfo u; m_host := m_host u; m_path := m_path u;
     m_query := v; m_fragment := m_fragment u; m_port := m_port u |}.
Definition setFragment (v : list ascii) (u : Uri) : Uri :=
  {| m_scheme := m_scheme u; m_userinfo := m_userinfo u; m_host := m_host u; m_path := m_path u;
     m_query := m_query u; m_fragment := v; m_port := m_port u |}.
Definition setPort (v : Z) (u : Uri) : Uri :=
  {| m_scheme := m_scheme u; m_userinfo := m_userinfo u; m_host := m_host u; m_path := m_path u;
     m_query := m_query u; m_fragment := m_fragment u; m_port := v |}.

Definition scheme_is (u : Uri) (s : string) : bool := bool_decide (m_scheme u = of_lit s).

Definition isDefaultPort (u : Uri) : bool :=
  if m_port u =? 0 then true
  else if scheme_is u "http" || scheme_is u "ws" then m_port u =? 80
  else if scheme_is u "https" || scheme_is u "wss" then m_port u =? 443
  else false.

Definition getPath (u : Uri) : list ascii :=
  match m_path u with [] => of_lit "/" | p => p end.

Definition getPort (u : Uri) : Z :=
  if negb (m_port u =? 0) then m_port u
  else if scheme_is u "http" || scheme_is u "ws" then 80
  else if scheme_is u "https" || scheme_is u "wss" then 443
  else m_port u.

(** [std::to_string(int)] *)
Definition to_string (n : Z) : list ascii :=
  if n <? 0 then "-"%char :: Http.show (- n) else Http.show n.

Definition toString (u : Uri) : list ascii :=
  m_scheme u ++ of_lit "://" ++
  m_userinfo u ++ (match m_userinfo u with [] => [] | _ => of_lit "@" end) ++
  m_host u ++
  (if isDefaultPort u then [] else of_lit ":" ++ to_string (m_port u)) ++
  getPath u ++
  (match m_query u with [] => [] | _ => of_lit "?" end) ++ m_query u ++
  (match m_fragment u with [] => [] | _ => of_lit "#" end) ++ m_fragment u.

(** ** The parser *)

(** The object under construction and [mark], a pointer into the text or null. *)
Record parse := Parse { uri : Uri; mark : option Z }.

Definition modify (f : Uri → Uri) : M parse unit := λ s, Ret tt (Parse (f (uri s)) (mark s)).
Definition set_mark (v : option Z) : M parse unit := λ s, Ret tt (Parse (uri s) v).

Section create.
Context (uristr : list ascii).

(** [std::string(mark, p - mark)]: undefined for a null [mark]. *)
Definition marked (p : Z) : M parse (list ascii) :=
  let! s := get in
  match mark s with
  | None => ub
  | Some q => std_string uristr q (p - q)
  end.

(** [atoi(mark)]; [c_str()] ends in a NUL. *)
Definition atoi_mark : M parse Z :=
  let! s := get in
  match mark s with
  | None => ub
  | Some q =>
      let! v := lift (strtol 10 (drop (Z.to_nat q) (uristr ++ [Ascii.zero]))) in
      ret (swrap 32 v)
  end.

Definition act (a : A.action) (p : Z) : M parse bool :=
  match a with
  | A.marku | A.markh => set_mark (Some p) ;! ret false
  | A.save_scheme => (let! v := marked p in modify (setScheme v)) ;! set_mark None ;! ret false
  | A.save_port =>
      let! s := get in
      (if bool_decide (mark s = Some p) then ret tt
       else let! v := atoi_mark in modify (setPort v)) ;!
      set_mark None ;! ret false
  | A.save_userinfo =>
      let! s := get in
      (match mark s with
       | Some _ => let! v := marked p in modify (setUserinfo v)
       | None => ret tt
       end) ;!
      set_mark None ;! ret false
  | A.save_host =>
      let! s := get in
      (match mark s with
       | Some _ => let! v := marked p in modify (setHost v)
       | None => ret tt
       end) ;! ret false
  | A.save_path => (let! v := marked p in modify (setPath v)) ;! set_mark None ;! ret false
  | A.save_query => (let! v := marked p in modify (setQuery v)) ;! set_mark None ;! ret false
  | A.save_fragment => (let! v := marked p in modify (setFragment v)) ;! set_mark None ;! ret false
  end.

(** The [switch] after [_test_eof]. *)
Definition eof_actions (cs : Z) : list A.action :=
  if mem [462; 489] cs then [A.save_port]
  else if mem [460; 463; 464; 465; 466; 467; 470; 471; 472; 473; 474; 475; 476; 477; 478; 479; 480;
    481; 482; 483; 484; 485; 486; 487; 488; 490; 491; 492; 493; 494; 495; 496; 497; 498; 499; 500;
    501; 502; 503; 504; 505; 506; 507] cs then [A.save_host]
  else if mem [513] cs then [A.save_path]
  else if mem [457] cs then [A.save_query]
  else if mem [454] cs then [A.save_fragment]
  else if mem [456] cs then [A.marku; A.save_query]
  else if mem [453] cs then [A.marku; A.save_fragment]
  else if mem [461; 468] cs then [A.markh; A.save_port]
  else if mem [459; 469] cs then [A.markh; A.save_host]
  else if mem [514; 521] cs then [A.markh; A.save_port; A.save_path]
  else if mem [511; 522] cs then [A.markh; A.save_host; A.save_path]
  else if mem [515; 542] cs then [A.save_port; A.markh; A.save_path]
  else if mem [512; 516; 517; 518; 519; 520; 523; 524; 525; 526; 527; 528; 529; 530; 531; 532; 533;
    534; 535; 536; 537; 538; 539; 540; 541; 543; 544; 545; 546; 547; 548; 549; 550; 551; 552; 553;
    554; 555; 556; 557; 558; 559; 560] cs then [A.save_host; A.markh; A.save_path]
  else [].

(** The code after the machine has stopped at [p] in state [cs]. *)
Definition finish (p cs : Z) : M parse (option Uri) :=
  (if p =? Z.of_nat (length uristr) then actions act (eof_actions cs) p else ret false) ;!
  let! s := get in
  if cs =? uri_parser_error then ret None
  else if uri_parser_first_final <=? cs then ret (Some (uri s))
  else ret None.

(** The machine from state [cs] at [p], and what follows. *)
Definition parse_from (cs p : Z) (input : list ascii) : M parse (option Uri) :=
  let! r := exec machine act cs p input in finish r.1 r.2.

Definition Create : outcome parse (option Uri) :=
  parse_from uri_parser_start 0 uristr (Parse new_Uri None).

End create.

(** [createAddress]: the first address of the host; [family] is the default
    argument of [LookupAnyIPAddress]. *)
Definition createAddress
    (getaddrinfo : list ascii → option (list ascii) → Z → Z → Z → option (list (option (list ascii))))
    (u : Uri) : option Address.Address :=
  match Address.LookupAnyIPAddress getaddrinfo (m_host u) Address.AF_INET 0 0 with
  | Some (Address.IPV4Address m) => Some (Address.IPV4Address (Address.setPort4 (wrap 32 (getPort u)) m))
  | Some (Address.IPV6Address m) => Some (Address.IPV6Address (Address.setPort6 (wrap 32 (getPort u)) m))
  | o => o
  end.

(** ** No action reads through a null pointer

    Which states rely on [mark] is decided on the machine: every path to them sets
    it.  The one exception is an empty port, after which [save_path] runs on the
    [mark] that [save_port] has reset. *)

(** The states right after the colon of an authority. *)
Definition after_colon : list Z := [514; 521].
Definition ends_port (b : ascii) : bool := one_of (of_lit "/?#") b.

(** No authority of the text ends in a colon. *)
Fixpoint no_empty_port_from (cs : Z) (input : list ascii) : bool :=
  match input with
  | [] => negb (mem after_colon cs)
  | b :: input =>
      negb (mem after_colon cs && ends_port b) &&
      (let n := next machine cs b in (n =? 0) || no_empty_port_from n input)
  end.
Definition no_empty_port (uristr : list ascii) : bool := no_empty_port_from uri_parser_start uristr.

Definition needs_mark (cs : Z) : bool :=
  negb (mem [3; 4; 5; 6; 451; 452; 453; 455; 456; 458; 459; 469; 509; 510; 511; 522] cs).

(** Whether [mark] is set after actions that start with [v]; [None] when one of
    them needs it and does not have it. *)
Fixpoint flow (v : bool) (acts : list A.action) : option bool :=
  match acts with
  | [] => Some v
  | (A.marku | A.markh) :: acts => flow true acts
  | (A.save_scheme | A.save_port | A.save_path | A.save_query | A.save_fragment) :: acts =>
      if v then flow false acts else None
  | A.save_userinfo :: acts => flow false acts
  | A.save_host :: acts => flow v acts
  end.

Definition in_machine (n : Z) : bool := (0 <=? n) && (n <=? 560).

Definition move_ok (cs : Z) (b : ascii) : bool :=
  let '(acts, n) := on_byte machine cs b in
  (n =? 0) || (mem after_colon cs && ends_port b) ||
  (in_machine n &&
   match flow (needs_mark cs) acts with Some v => implb (needs_mark n) v | None => false end).

Definition state_ok (cs : Z) : bool :=
  forallb (move_ok cs) all_bytes &&
  (mem after_colon cs || match flow (needs_mark cs) (eof_actions cs) with Some _ => true | None => false end).

Lemma uri_states_ok n : in_machine n = true → state_ok n = true.
Proof.
  intros Hn. unfold in_machine in Hn.
  assert (forallb state_ok (Z.of_nat <$> seq 0 561) = true) as H by by vm_compute.
  rewrite forallb_forall in H. apply H, list_elem_of_In, list_elem_of_fmap.
  exists (Z.to_nat n). split; [lia|]. apply elem_of_seq. lia.
Qed.

Section total.
Context (uristr : list ascii).
Hypothesis fits : size uristr < 2 ^ 63.

(** [mark] points into the text before [p]; it is set when [v]. *)
Definition mark_ok (v : bool) (p : Z) (s : parse) : Prop :=
  (v = true → mark s ≠ None) ∧ ∀ q, mark s = Some q → 0 ≤ q ≤ p.

Lemma marked_ret p s q :
  mark s = Some q → 0 ≤ q ≤ p → p ≤ size uristr →
  marked uristr p s = Ret (take (Z.to_nat (p - q)) (drop (Z.to_nat q) uristr)) s.
Proof.
  intros Hm Hq Hp. unfold marked. rewrite bind_get, Hm. apply std_string_ret; lia.
Qed.

Lemma atoi_ret s q :
  mark s = Some q → 0 ≤ q ≤ size uristr → ∃ v, atoi_mark uristr s = Ret v s.
Proof.
  intros Hm Hq. unfold atoi_mark. rewrite bind_get, Hm.
  destruct (strtol_end 10 (drop (Z.to_nat q) (uristr ++ [Ascii.zero]))) as [v ->]; [lia| |by eexists].
  rewrite drop_app_le by lia. apply elem_of_app. right. by apply list_elem_of_singleton.
Qed.

(** One action: [flow] says what it needs and what it leaves. *)
Lemma act_ret a acts v v' p s :
  flow v (a :: acts) = Some v' → mark_ok v p s → 0 ≤ p ≤ size uristr →
  ∃ w s', act uristr a p s = Ret false s' ∧ mark_ok w p s' ∧ flow w acts = Some v'.
Proof.
  intros Hf [Hv Hq] Hp. destruct (mark s) as [q|] eqn:Hm.
  - specialize (Hq q eq_refl). pose proof (marked_ret p s q Hm Hq ltac:(lia)) as Hmk.
    destruct (atoi_ret s q Hm ltac:(lia)) as [n Hn].
    destruct a; cbn [flow] in Hf; try (destruct v; [|done]); cbn [act];
      try rewrite bind_get; rewrite ?Hm; unfold bind;
      try (rewrite Hmk); try case_bool_decide; try rewrite Hn;
      eexists _, _; (split; [reflexivity|]); (split; [|exact Hf]);
      (split; cbn; [done || congruence|intros ? ?; first [congruence|simplify_eq; lia]]).
  - destruct a; cbn [flow] in Hf; try (destruct v; [by destruct (Hv eq_refl)|]); try done;
      cbn [act]; try rewrite bind_get; rewrite ?Hm; unfold bind;
      eexists _, _; (split; [reflexivity|]); (split; [|exact Hf]);
      (split; cbn; [done || congruence|intros ? ?; first [congruence|simplify_eq; lia]]).
Qed.

Lemma actions_ret acts v v' p s :
  flow v acts = Some v' → mark_ok v p s → 0 ≤ p ≤ size uristr →
  ∃ s', actions (act uristr) acts p s = Ret false s' ∧ mark_ok v' p s'.
Proof.
  revert v s. induction acts as [|a acts IH]; intros v s Hf Hs Hp.
  - injection Hf as <-. by exists s.
  - destruct (act_ret a acts v v' p s Hf Hs Hp) as (w & s1 & Ha & Hs1 & Hf1).
    destruct (IH w s1 Hf1 Hs1 Hp) as (s' & Hs' & Hok). exists s'. split; [|done].
    by rewrite (actions_cons _ _ _ _ _ _ Ha).
Qed.

Lemma parse_from_ret cs p input s :
  in_machine cs = true → no_empty_port_from cs input = true → mark_ok (needs_mark cs) p s →
  0 ≤ p → p + size input = size uristr →
  ∃ r s', parse_from uristr cs p input s = Ret r s'.
Proof.
  revert cs p s. induction input as [|b input IH]; intros cs p s Hcs Hport Hs Hp Hlen;
    pose proof (uri_states_ok cs Hcs) as Hok; unfold state_ok in Hok; apply andb_prop in Hok as [Hmv Hend].
  - cbn [no_empty_port_from] in Hport. apply negb_true_iff in Hport. rewrite Hport in Hend. cbn [orb] in Hend.
    unfold parse_from. cbn [exec]. unfold bind at 1, ret. cbn [fst snd]. unfold finish.
    cbn [length] in Hlen. rewrite (proj2 (Z.eqb_eq _ _)) by lia.
    destruct (flow (needs_mark cs) (eof_actions cs)) as [v'|] eqn:Hf; [|done].
    destruct (actions_ret _ _ _ p s Hf Hs ltac:(lia)) as (s' & Ha & _).
    rewrite (bind_Ret _ _ _ _ _ Ha), bind_get. repeat case_match; by eexists _, _.
  - cbn [no_empty_port_from] in Hport. apply andb_prop in Hport as [Hnb Hport].
    pose proof (forall_bytes _ Hmv b) as Hb. unfold move_ok in Hb. cbn [length] in Hlen.
    unfold parse_from. unfold next in Hport. unfold on_byte in *. cbn [exec].
    destruct (states machine cs) as [f|].
    2:{ unfold bind at 1, ret. unfold finish. rewrite (proj2 (Z.eqb_neq _ _)) by (cbn [fst]; lia).
        unfold bind, ret, get. repeat case_match; by eexists _, _. }
    destruct (goto machine (f (schar b))) as [acts n]. cbn [snd] in Hport.
    destruct (Z.eqb_spec n 0) as [Hn|Hn].
    { unfold bind at 1, ret. unfold finish. rewrite (proj2 (Z.eqb_neq _ _)) by (cbn [fst]; lia).
      unfold bind, ret, get. repeat case_match; by eexists _, _. }
    apply negb_true_iff in Hnb. rewrite Hnb in Hb. cbn [orb] in Hb, Hport.
    apply andb_prop in Hb as [Hin Hb]. destruct (flow (needs_mark cs) acts) as [v'|] eqn:Hf; [|done].
    destruct (actions_ret _ _ _ p s Hf Hs ltac:(lia)) as (s' & Ha & Hs').
    destruct (IH n (p + 1) s' Hin Hport) as (r & s'' & Hr); [|lia|lia|].
    { destruct Hs' as [Hv Hq]. split; [|intros q Hq'; specialize (Hq q Hq'); lia].
      intros Hneed. apply Hv. rewrite Hneed in Hb. by destruct v'. }
    exists r, s''. rewrite <- Hr. unfold parse_from. unfold bind at 1 2 3. rewrite Ha. done.
Qed.

End total.

(** [Create] returns on every text in which no authority ends in a colon: no
    action reads through a null or stale [mark], every [std::string] lies inside
    the text and every number ends. *)
Theorem Create_total uristr :
  size uristr < 2 ^ 63 → no_empty_port uristr = true → ∃ r s, Create uristr = Ret r s.
Proof.
  intros Hl Hp. apply (parse_from_ret uristr Hl); [done|done|by split|lia|lia].
Qed.

Lemma Create_total_witness : ∃ r s, Create (of_lit "http://u:p@h:80/p?q#f") = Ret r s.
Proof. apply Create_total; [by vm_compute|by vm_compute]. Defined.

(** ** URIs as text *)

Definition unreserved (b : ascii) : bool := alpha b || digit b || one_of (of_lit "-._~") b.
Definition sub_delim (b : ascii) : bool := one_of (of_lit "!$&'()*+,;=") b.
Definition host_char (b : ascii) : bool := unreserved b || sub_delim b.
(** [any -- ascii] admits the bytes of other encodings. *)
Definition pchar (b : ascii) : bool := (128 <=? b2z b) || host_char b || one_of (of_lit ":@") b.
Definition path_char (b : ascii) : bool := pchar b || Ascii.eqb b "/".
Definition query_char (b : ascii) : bool := pchar b || one_of (of_lit "/?") b.
Definition scheme_char (b : ascii) : bool := alpha b || digit b || one_of (of_lit "+-.") b.

Record Text := {
  t_scheme : list ascii;
  t_user : option (list ascii);
  t_host : list ascii;
  t_port : option (list ascii);
  t_path : list ascii;
  t_query : option (list ascii);
  t_fragment : option (list ascii);
}.

Definition user_text (o : option (list ascii)) : list ascii :=
  match o with None => [] | Some u => u ++ of_lit "@" end.
Definition port_text (o : option (list ascii)) : list ascii :=
  match o with None => [] | Some d => ":"%char :: d end.
Definition query_text (o : option (list ascii)) : list ascii :=
  match o with None => [] | Some q => "?"%char :: q end.
Definition fragment_text (o : option (list ascii)) : list ascii :=
  match o with None => [] | Some f => "#"%char :: f end.

Definition text (t : Text) : list ascii :=
  t_scheme t ++ of_lit "://" ++ user_text (t_user t) ++ t_host t ++ port_text (t_port t) ++
  t_path t ++ query_text (t_query t) ++ fragment_text (t_fragment t).

Definition nonempty (l : list ascii) : bool := match l with [] => false | _ => true end.
Definition all_opt (f : list ascii → bool) (o : option (list ascii)) : bool :=
  match o with None => true | Some x => f x end.

Definition scheme_ok (w : list ascii) : bool :=
  match w with [] => false | b :: w => alpha b && forallb scheme_char w end.
Definition name_ok (w : list ascii) : bool := nonempty w && pct_text host_char w.
Definition port_ok (w : list ascii) : bool := nonempty w && forallb digit w && (size w <=? 9).
Definition path_ok (w : list ascii) : bool :=
  match w with [] => true | b :: w => Ascii.eqb b "/" && pct_text path_char w end.

Definition well_formed (t : Text) : bool :=
  scheme_ok (t_scheme t) && all_opt name_ok (t_user t) && name_ok (t_host t) &&
  all_opt port_ok (t_port t) && path_ok (t_path t) &&
  all_opt (pct_text query_char) (t_query t) && all_opt (pct_text query_char) (t_fragment t).

Definition with_opt {X} (f : X → Uri → Uri) (o : option X) (u : Uri) : Uri :=
  match o with None => u | Some x => f x u end.

(** The object for such a text. *)
Definition parts (t : Text) : Uri :=
  {| m_scheme := t_scheme t; m_userinfo := default [] (t_user t); m_host := t_host t;
     m_path := t_path t; m_query := default [] (t_query t); m_fragment := default [] (t_fragment t);
     m_port := match t_port t with None => 0 | Some d => code_value d end |}.

(** *** Reading the pieces *)

Section pieces.
Context (uristr : list ascii).
Hypothesis fits : size uristr < 2 ^ 31.

Definition yields (n p : Z) (input : list ascii) (s : parse) (u : Uri) : Prop :=
  ∃ s', parse_from uristr n p input s = Ret (Some u) s'.

Lemma yields_exec n p input s n' p' input' s' u :
  exec machine (act uristr) n p input s = exec machine (act uristr) n' p' input' s' →
  yields n' p' input' s' u → yields n p input s u.
Proof. intros He (s'' & Hy). exists s''. rewrite <- Hy. unfold parse_from, bind. by rewrite He. Qed.

Lemma yields_end n p s s' :
  p = size uristr → actions (act uristr) (eof_actions n) p s = Ret false s' → 451 ≤ n →
  yields n p [] s (uri s').
Proof.
  intros -> Ha Hn. exists s'. unfold parse_from. cbn [exec]. unfold bind at 1, ret. cbn [fst snd].
  unfold finish. rewrite Z.eqb_refl. rewrite (bind_Ret _ _ _ _ _ Ha), bind_get.
  unfold uri_parser_error, uri_parser_first_final.
  rewrite (proj2 (Z.eqb_neq _ _)) by lia. by rewrite (proj2 (Z.leb_le _ _)) by lia.
Qed.

(** The piece of text between [mark] and [p]. *)
Lemma marked_piece pre x post p s :
  uristr = pre ++ x ++ post → mark s = Some (size pre) → p = size pre + size x →
  marked uristr p s = Ret x s.
Proof.
  intros Ht Hm ->. unfold marked. rewrite bind_get, Hm.
  replace (size pre + size x - size pre) with (size x) by lia. by apply (std_string_piece uristr pre x post).
Qed.

Lemma mem_one x n : mem [x] n = true → n = x.
Proof. unfold mem. cbn [existsb]. rewrite orb_false_r. apply Z.eqb_eq. Qed.

(** *** Query and fragment *)

Lemma yields_fragment pre f s :
  uristr = pre ++ f → pct_text query_char f = true →
  yields 453 (size pre) f s (setFragment f (uri s)).
Proof.
  intros Ht Hf. destruct f as [|b f].
  - eapply (yields_end _ _ _ (Parse (setFragment [] (uri s)) None));
      [rewrite Ht, app_nil_r; done| |lia].
    change (eof_actions 453) with [A.marku; A.save_fragment]. cbn [actions act]. unfold bind, set_mark, ret.
    rewrite (marked_piece pre [] [] (size pre)); [done|done|done|cbn; lia].
  - destruct (exec_pct_enter machine (act uristr) query_char [453] [A.marku] [454] [1] [2] 453 (size pre) b f []
      s (Parse (uri s) (Some (size pre)))) as (n & ->%mem_one & He); [by vm_compute..|done|done|done|].
    rewrite app_nil_r in He. eapply yields_exec; [exact He|].
    eapply (yields_end _ _ _ (Parse (setFragment (b :: f) (uri s)) None)); [rewrite Ht, length_app; lia| |lia].
    change (eof_actions 454) with [A.save_fragment]. cbn [actions act]. unfold bind, set_mark, ret.
    rewrite (marked_piece pre (b :: f) []); [done|by rewrite app_nil_r|done|done].
Qed.

(** From states that end a piece by [acts], whatever follows it. *)
Definition ends (l : list Z) (acts : list A.action) : bool :=
  leads machine (Ascii.eqb "?") l acts [456] && leads machine (Ascii.eqb "#") l acts [453] &&
  forallb (λ n, bool_decide (eof_actions n = acts) && (451 <=? n)) l.

Lemma ends_fragment l acts n pre fo s s1 :
  leads machine (Ascii.eqb "#") l acts [453] = true →
  forallb (λ n, bool_decide (eof_actions n = acts) && (451 <=? n)) l = true → mem l n = true →
  uristr = pre ++ fragment_text fo → all_opt (pct_text query_char) fo = true →
  actions (act uristr) acts (size pre) s = Ret false s1 →
  yields n (size pre) (fragment_text fo) s (with_opt setFragment fo (uri s1)).
Proof.
  intros Hh He Hn Ht Hf Ha. destruct fo as [f|]; cbn [fragment_text with_opt all_opt] in *.
  - destruct (exec_leads machine (act uristr) _ _ _ _ n (size pre) "#" f s s1 Hh Hn eq_refl Ha)
      as (n' & ->%mem_one & Hx).
    eapply yields_exec; [exact Hx|].
    replace (size pre + 1) with (size (pre ++ ["#"%char])) by (rewrite length_app; cbn; lia).
    apply yields_fragment; [rewrite Ht; by app_right|done].
  - rewrite forallb_forall in He. unfold mem in Hn. apply existsb_exists in Hn as (n0 & Hin & ->%Z.eqb_eq).
    specialize (He _ Hin). rewrite andb_true_iff, bool_decide_eq_true, Z.leb_le in He. destruct He as [He Hle].
    apply yields_end; [by rewrite Ht, app_nil_r|by rewrite He|done].
Qed.

Lemma yields_query pre q fo s :
  uristr = pre ++ q ++ fragment_text fo → pct_text query_char q = true →
  all_opt (pct_text query_char) fo = true →
  yields 456 (size pre) (q ++ fragment_text fo) s (with_opt setFragment fo (setQuery q (uri s))).
Proof.
  intros Ht Hq Hf. destruct q as [|b q].
  - apply (ends_fragment [456] [A.marku; A.save_query] _ pre fo s (Parse (setQuery [] (uri s)) None));
      [by vm_compute|done|done|done|done|].
    cbn [actions act]. unfold bind, set_mark, ret.
    rewrite (marked_piece pre [] (fragment_text fo) (size pre)); [done|done|done|cbn; lia].
  - destruct (exec_pct_enter machine (act uristr) query_char [456] [A.marku] [457] [7] [8] 456 (size pre) b q
      (fragment_text fo) s (Parse (uri s) (Some (size pre)))) as (n & ->%mem_one & He); [by vm_compute..|done|done|done|].
    eapply yields_exec; [exact He|].
    replace (size pre + size (b :: q)) with (size (pre ++ b :: q)) by (rewrite length_app; lia).
    apply (ends_fragment [457] [A.save_query] _ _ fo _ (Parse (setQuery (b :: q) (uri s)) None));
      [by vm_compute|done|done|by rewrite Ht; app_right|done|].
    cbn [actions act]. unfold bind, set_mark, ret.
    rewrite (marked_piece pre (b :: q) (fragment_text fo)); [done|done|done|rewrite length_app; lia].
Qed.

Lemma yields_tail l acts n pre qo fo s s1 :
  ends l acts = true → mem l n = true →
  uristr = pre ++ query_text qo ++ fragment_text fo →
  all_opt (pct_text query_char) qo = true → all_opt (pct_text query_char) fo = true →
  actions (act uristr) acts (size pre) s = Ret false s1 →
  yields n (size pre) (query_text qo ++ fragment_text fo) s
    (with_opt setFragment fo (with_opt setQuery qo (uri s1))).
Proof.
  unfold ends. rewrite !andb_true_iff. intros [[Hq Hh] He] Hn Ht Hqo Hfo Ha.
  destruct qo as [q|]; cbn [query_text with_opt all_opt] in *; [|by apply (ends_fragment l acts)].
  destruct (exec_leads machine (act uristr) _ _ _ _ n (size pre) "?" (q ++ fragment_text fo) s s1 Hq Hn eq_refl Ha)
    as (n' & ->%mem_one & Hx).
  eapply yields_exec; [exact Hx|].
  replace (size pre + 1) with (size (pre ++ ["?"%char])) by (rewrite length_app; cbn; lia).
  apply yields_query; [rewrite Ht; by app_right|done|done].
Qed.

(** *** Path *)

Lemma yields_path l acts n pre path qo fo s s1 :
  leads machine (Ascii.eqb "/") l (acts ++ [A.markh]) [513] = true →
  ends l (acts ++ [A.markh; A.save_path]) = true → mem l n = true →
  uristr = pre ++ path ++ query_text qo ++ fragment_text fo → path_ok path = true →
  all_opt (pct_text query_char) qo = true → all_opt (pct_text query_char) fo = true →
  actions (act uristr) acts (size pre) s = Ret false s1 →
  yields n (size pre) (path ++ query_text qo ++ fragment_text fo) s
    (with_opt setFragment fo (with_opt setQuery qo (setPath path (uri s1)))).
Proof.
  intros Hsl He Hn Ht Hp Hq Hf Ha. destruct path as [|c path].
  - apply (yields_tail l _ n pre qo fo s (Parse (setPath [] (uri s1)) None) He); [done..|].
    rewrite (actions_app _ _ _ _ _ _ Ha). cbn [actions act]. unfold bind, set_mark, ret.
    rewrite (marked_piece pre [] (query_text qo ++ fragment_text fo) (size pre)); [done|done|done|cbn; lia].
  - cbn [path_ok] in Hp. apply andb_prop in Hp as [->%Ascii.eqb_eq Hp]. cbn [app].
    destruct (exec_leads machine (act uristr) _ _ _ _ n (size pre) "/" (path ++ query_text qo ++ fragment_text fo)
      s (Parse (uri s1) (Some (size pre))) Hsl Hn eq_refl) as (n' & ->%mem_one & Hx).
    { by rewrite (actions_app _ _ _ _ _ _ Ha). }
    eapply yields_exec; [exact Hx|].
    destruct (exec_pct_in machine (act uristr) path_char [513] [243] [244] 513 (size pre + 1) path
      (query_text qo ++ fragment_text fo) (Parse (uri s1) (Some (size pre)))) as (n' & ->%mem_one & Hx');
      [by vm_compute|done|done|].
    eapply yields_exec; [exact Hx'|].
    replace (size pre + 1 + size path) with (size (pre ++ "/"%char :: path))
      by (rewrite length_app; cbn [length]; lia).
    apply (yields_tail [513] [A.save_path] _ _ qo fo _ (Parse (setPath ("/"%char :: path) (uri s1)) None));
      [by vm_compute|done|rewrite Ht; by app_right|done|done|].
    cbn [actions act]. unfold bind, set_mark, ret.
    rewrite (marked_piece pre ("/"%char :: path) (query_text qo ++ fragment_text fo));
      [done|done|done|rewrite length_app; lia].
Qed.

(** *** Host and port *)

(** The states inside a name of an authority, before and after an [@]. *)
Definition name_states : list Z :=
  [520; 543; 544; 545; 546; 547; 548; 549; 550; 551; 552; 553; 554; 555; 556; 557; 558; 559; 560].
Definition host_states : list Z :=
  [523; 524; 525; 526; 527; 528; 529; 530; 531; 532; 533; 534; 535; 536; 537; 538; 539; 540; 541].

Lemma save_host_ret pre host post s :
  uristr = pre ++ host ++ post → mark s = Some (size pre) →
  actions (act uristr) [A.save_host] (size (pre ++ host)) s =
  Ret false (Parse (setHost host (uri s)) (mark s)).
Proof.
  intros Ht Hm. cbn [actions act]. unfold bind at 1. rewrite bind_get, Hm. unfold bind, ret.
  rewrite (marked_piece pre host post) by (done || (rewrite length_app; lia)). unfold modify. by rewrite Hm.
Qed.

Lemma save_port_ret pre d post s c rest :
  uristr = pre ++ d ++ post → mark s = Some (size pre) → port_ok d = true →
  post ++ [Ascii.zero] = c :: rest → digit c = false → 10 ≤ digit_value c →
  actions (act uristr) [A.save_port] (size (pre ++ d)) s =
  Ret false (Parse (setPort (code_value d) (uri s)) None).
Proof.
  unfold port_ok. rewrite !andb_true_iff. intros Ht Hm [[Hne Hd] Hl%Z.leb_le] Hpost Hc Hcv.
  cbn [actions act]. unfold bind at 1. rewrite bind_get, Hm.
  rewrite bool_decide_false by (intros [= E]; rewrite length_app in E; destruct d; [done|cbn [length] in E; lia]).
  unfold atoi_mark. unfold bind. unfold get. rewrite Hm, Nat2Z.id.
  assert (drop (length pre) (uristr ++ [Ascii.zero]) = d ++ c :: rest) as ->.
  { rewrite Ht. app_right. rewrite drop_app_length. by rewrite <- Hpost. }
  destruct (strtol_code d c rest) as [-> Hv]; [done|by destruct d|done|done|done|].
  cbn [lift ret]. rewrite swrap_small by (unfold in_s; lia). done.
Qed.

(** The states [n] before a host, [l] inside it (with [l1] and [l2] inside an
    escape), [colon] and [digits] for the port. *)
Definition reads_host (n : Z) (l l1 l2 : list Z) (colon digits : Z) : bool :=
  reads_pct_in machine host_char l l1 l2 &&
  leads machine host_char [n] [A.markh] l && leads machine (Ascii.eqb "%") [n] [A.markh] l1 &&
  leads machine (Ascii.eqb "/") l [A.save_host; A.markh] [513] &&
  ends l [A.save_host; A.markh; A.save_path] &&
  leads machine (Ascii.eqb ":") l [A.save_host] [colon] &&
  leads machine digit [colon] [A.markh] [digits] && leads machine digit [digits] [] [digits] &&
  leads machine (Ascii.eqb "/") [digits] [A.save_port; A.markh] [513] &&
  ends [digits] [A.save_port; A.markh; A.save_path].

Lemma exec_digits digits p d rest s :
  leads machine digit [digits] [] [digits] = true → forallb digit d = true →
  exec machine (act uristr) digits p (d ++ rest) s = exec machine (act uristr) digits (p + size d) rest s.
Proof.
  intros Hl. revert p. induction d as [|b d IH]; intros p Hd; [cbn; by rewrite Z.add_0_r|].
  cbn [forallb] in Hd. apply andb_prop in Hd as [Hb Hd]. cbn [app].
  destruct (exec_leads machine (act uristr) _ _ _ _ digits p b (d ++ rest) s s Hl) as (n & ->%mem_one & ->);
    [unfold mem; cbn; by rewrite Z.eqb_refl|done|done|].
  rewrite IH by done. f_equal. cbn [length]. lia.
Qed.

(** What follows an authority is no digit. *)
Lemma after_port path qo fo : path_ok path = true →
  ∃ c rest, (path ++ query_text qo ++ fragment_text fo) ++ [Ascii.zero] = c :: rest ∧
    digit c = false ∧ 10 ≤ digit_value c.
Proof.
  intros Hp. destruct path as [|c path]; cbn [path_ok] in Hp.
  - destruct qo as [q|]; [eexists _, _; split; [done|by vm_compute]|].
    destruct fo as [f|]; eexists _, _; (split; [done|by vm_compute]).
  - apply andb_prop in Hp as [->%Ascii.eqb_eq _]. eexists _, _. split; [done|by vm_compute].
Qed.

Lemma yields_host n l l1 l2 colon digits pre host po path qo fo s :
  reads_host n l l1 l2 colon digits = true →
  uristr = pre ++ host ++ port_text po ++ path ++ query_text qo ++ fragment_text fo →
  name_ok host = true → all_opt port_ok po = true → path_ok path = true →
  all_opt (pct_text query_char) qo = true → all_opt (pct_text query_char) fo = true →
  yields n (size pre) (host ++ port_text po ++ path ++ query_text qo ++ fragment_text fo) s
    (with_opt setFragment fo (with_opt setQuery qo (setPath path
      (with_opt setPort (code_value <$> po) (setHost host (uri s)))))).
Proof.
  unfold reads_host. rewrite !andb_true_iff.
  intros [[[[[[[[[Hr Hn] Hn1] Hsl] He] Hc] Hd] Hds] Hdsl] Hde] Ht Hh Hpo Hp Hq Hf.
  unfold name_ok in Hh. apply andb_prop in Hh as [Hne Hh]. destruct host as [|b host]; [done|].
  set (rest := port_text po ++ path ++ query_text qo ++ fragment_text fo) in *. cbn [app].
  destruct (exec_pct_enter machine (act uristr) host_char [n] [A.markh] l l1 l2 n (size pre) b host rest
    s (Parse (uri s) (Some (size pre)))) as (n1 & Hn1' & Hx); [done..| |done|done|].
  { unfold mem. cbn. by rewrite Z.eqb_refl. }
  eapply yields_exec; [exact Hx|]. set (s1 := Parse _ _).
  replace (size pre + size (b :: host)) with (size (pre ++ b :: host)) by (rewrite length_app; lia).
  pose proof (save_host_ret pre (b :: host) rest s1 Ht eq_refl) as Hsave. unfold rest in *. clear rest.
  destruct po as [d|]; cbn [port_text all_opt fmap option_fmap option_map with_opt] in *.
  2:{ cbn [app]. apply (yields_path l [A.save_host] n1 (pre ++ b :: host) path qo fo s1
        (Parse (setHost (b :: host) (uri s1)) (mark s1)) Hsl He Hn1'); [rewrite Ht; by app_right|done..]. }
  cbn [app]. destruct (exec_leads machine (act uristr) _ _ _ _ n1 (size (pre ++ b :: host)) ":"
    (d ++ path ++ query_text qo ++ fragment_text fo) _ _ Hc Hn1' eq_refl Hsave) as (n2 & ->%mem_one & Hx2).
  eapply yields_exec; [exact Hx2|]. set (s2 := Parse _ _).
  set (pre2 := pre ++ (b :: host) ++ [":"%char]).
  replace (size (pre ++ b :: host) + 1) with (size pre2)
    by (unfold pre2; rewrite !length_app; cbn [length]; rewrite ?length_app; cbn [length]; lia).
  pose proof Hpo as Hpo'. unfold port_ok in Hpo'. rewrite !andb_true_iff in Hpo'. destruct Hpo' as [[Hdne Hdd] _].
  destruct d as [|d0 d]; [done|]. cbn [forallb] in Hdd. apply andb_prop in Hdd as [Hd0 Hdd]. cbn [app].
  destruct (exec_leads machine (act uristr) _ _ _ _ colon (size pre2) d0
    (d ++ path ++ query_text qo ++ fragment_text fo) s2 (Parse (uri s2) (Some (size pre2))) Hd)
    as (n3 & ->%mem_one & Hx3); [unfold mem; cbn; by rewrite Z.eqb_refl|done|done|].
  eapply yields_exec; [exact Hx3|]. eapply yields_exec; [by apply exec_digits|].
  replace (size pre2 + 1 + size d) with (size (pre2 ++ d0 :: d)) by (rewrite length_app; cbn [length]; lia).
  destruct (after_port path qo fo Hp) as (c & rest & Hrest & Hc1 & Hc2).
  apply (yields_path [digits] [A.save_port] digits (pre2 ++ d0 :: d) path qo fo (Parse (uri s2) (Some (size pre2)))
    (Parse (setPort (code_value (d0 :: d)) (uri s2)) None) Hdsl Hde);
    [unfold mem; cbn; by rewrite Z.eqb_refl|rewrite Ht; unfold pre2; by app_right|done..|].
  apply (save_port_ret pre2 (d0 :: d) (path ++ query_text qo ++ fragment_text fo)
    (Parse (uri s2) (Some (size pre2))) c rest);
    [rewrite Ht; unfold pre2; by app_right|done..].
Qed.

Lemma name_reads : reads_host 511 name_states [253] [254] 521 542 = true.
Proof. by vm_compute. Qed.
Lemma host_reads : reads_host 522 host_states [258] [259] 514 515 = true.
Proof. by vm_compute. Qed.

(** *** The authority *)

Lemma yields_authority pre uo host po path qo fo s :
  uristr = pre ++ user_text uo ++ host ++ port_text po ++ path ++ query_text qo ++ fragment_text fo →
  all_opt name_ok uo = true → name_ok host = true → all_opt port_ok po = true → path_ok path = true →
  all_opt (pct_text query_char) qo = true → all_opt (pct_text query_char) fo = true →
  yields 511 (size pre) (user_text uo ++ host ++ port_text po ++ path ++ query_text qo ++ fragment_text fo) s
    (with_opt setFragment fo (with_opt setQuery qo (setPath path
      (with_opt setPort (code_value <$> po) (setHost host (with_opt setUserinfo uo (uri s))))))).
Proof.
  intros Ht Hu Hh Hpo Hp Hq Hf. destruct uo as [w|]; cbn [user_text with_opt all_opt] in *.
  2:{ by apply (yields_host 511 name_states [253] [254] 521 542 pre host po path qo fo s name_reads). }
  set (rest := host ++ port_text po ++ path ++ query_text qo ++ fragment_text fo) in *.
  unfold name_ok in Hu. apply andb_prop in Hu as [Hne Hu]. destruct w as [|b w]; [done|].
  pose proof name_reads as Hr. unfold reads_host in Hr. rewrite !andb_true_iff in Hr.
  destruct Hr as [[[[[[[[[Hr Hn] Hn1] _] _] _] _] _] _] _].
  destruct (exec_pct_enter machine (act uristr) host_char [511] [A.markh] name_states [253] [254] 511 (size pre)
    b w (of_lit "@" ++ rest) s (Parse (uri s) (Some (size pre)))) as (n & Hn' & Hx); [done..|].
  rewrite <- (assoc_L (++)). cbn [app]. eapply yields_exec; [exact Hx|].
  replace (size pre + size (b :: w)) with (size (pre ++ b :: w)) by (rewrite length_app; lia).
  destruct (exec_leads machine (act uristr) (Ascii.eqb "@") name_states [A.save_userinfo] [522] n (size (pre ++ b :: w)) "@"
    rest (Parse (uri s) (Some (size pre))) (Parse (setUserinfo (b :: w) (uri s)) None))
    as (n2 & ->%mem_one & Hx2); [by vm_compute|done|done| |].
  { cbn [actions act]. unfold bind at 1. rewrite bind_get. cbn [mark]. unfold bind, ret.
    rewrite (marked_piece pre (b :: w) (of_lit "@" ++ rest)); [done|rewrite Ht; by app_right|done|rewrite length_app; lia]. }
  eapply yields_exec; [exact Hx2|].
  replace (size (pre ++ b :: w) + 1) with (size (pre ++ b :: w ++ of_lit "@"))
    by (rewrite !length_app; cbn [length]; rewrite length_app; cbn [length of_lit String.list_ascii_of_string]; lia).
  apply (yields_host 522 host_states [258] [259] 514 515 (pre ++ b :: w ++ of_lit "@") host po path qo fo
    (Parse (setUserinfo (b :: w) (uri s)) None) host_reads);
    [rewrite Ht; unfold rest; by app_right|done..].
Qed.

(** *** The scheme *)

Lemma exec_scheme sch rest s :
  uristr = sch ++ of_lit "://" ++ rest → scheme_ok sch = true →
  exec machine (act uristr) 451 0 uristr s =
  exec machine (act uristr) 511 (size (sch ++ of_lit "://")) rest (Parse (setScheme sch (uri s)) None).
Proof.
  intros Ht Hs. destruct sch as [|b w]; [done|]. cbn [scheme_ok] in Hs. apply andb_prop in Hs as [Hb Hw].
  destruct (exec_leads machine (act uristr) alpha [451] [A.marku] [508] 451 0 b (w ++ of_lit "://" ++ rest) s
    (Parse (uri s) (Some 0))) as (n & ->%mem_one & Hx); [by vm_compute|done|done|done|].
  etrans; [etrans; [|exact Hx]; by rewrite Ht at 2|].
  rewrite (exec_quiet _ _ 508 508) by (apply (quiet_loop _ scheme_char); [by vm_compute|done|done]).
  destruct (exec_leads machine (act uristr) (Ascii.eqb ":") [508] [A.save_scheme] [509] 508 (0 + 1 + size w) ":"
    (of_lit "//" ++ rest) (Parse (uri s) (Some 0)) (Parse (setScheme (b :: w) (uri s)) None))
    as (n & ->%mem_one & Hx2); [by vm_compute|done|done| |].
  { cbn [actions act]. unfold bind, ret, set_mark.
    rewrite (marked_piece [] (b :: w) (of_lit "://" ++ rest)); [done|done|done|cbn [length]; lia]. }
  etrans; [exact Hx2|]. rewrite (exec_quiet _ _ 509 511) by by vm_compute. f_equal.
  rewrite length_app. cbn [length of_lit String.list_ascii_of_string]. lia.
Qed.

End pieces.

Lemma create_parts t :
  well_formed t = true → size (text t) < 2 ^ 31 → ∃ s, Create (text t) = Ret (Some (parts t)) s.
Proof.
  unfold well_formed. rewrite !andb_true_iff. intros [[[[[[Hs Hu] Hh] Hpo] Hp] Hq] Hf] Hl.
  unfold Create, uri_parser_start.
  eapply yields_exec; [by apply (exec_scheme (text t) Hl (t_scheme t) (user_text (t_user t) ++ t_host t ++
    port_text (t_port t) ++ t_path t ++ query_text (t_query t) ++ fragment_text (t_fragment t)))|].
  assert (parts t = with_opt setFragment (t_fragment t) (with_opt setQuery (t_query t) (setPath (t_path t)
    (with_opt setPort (code_value <$> t_port t) (setHost (t_host t)
      (with_opt setUserinfo (t_user t) (setScheme (t_scheme t) new_Uri))))))) as ->.
  { by destruct t as [? [?|] ? [?|] ? [?|] [?|]]. }
  apply yields_authority; [done| |done..]. unfold text. by app_right.
Qed.

(** [Create] cuts a URI into its parts.  A text made of a scheme, an optional
    user name, a host name (with dotted addresses among them), an optional port, a
    path, a query and a fragment is accepted, and the object has exactly those
    parts, the port as a number. *)
Theorem Create_text t :
  well_formed t = true → size (text t) < 2 ^ 31 → ∃ s, Create (text t) = Ret (Some (parts t)) s.
Proof. apply create_parts. Qed.

Definition sample_text : Text :=
  {| t_scheme := of_lit "https"; t_user := Some (of_lit "bob"); t_host := of_lit "www.example.com";
     t_port := Some (of_lit "8042"); t_path := of_lit "/over/there"; t_query := Some (of_lit "name=ferret");
     t_fragment := Some (of_lit "nose") |}.

Lemma Create_text_witness :
  ∃ s, Create (of_lit "https://bob@www.example.com:8042/over/there?name=ferret#nose") =
    Ret (Some (parts sample_text)) s.
Proof. apply (Create_text sample_text); by vm_compute. Defined.

(** ** Printing and parsing back *)

Lemma code_value_app acc w w' :
  foldl (λ v b, v * 10 + (b2z b - 48)) acc (w ++ w') =
  foldl (λ v b, v * 10 + (b2z b - 48)) (foldl (λ v b, v * 10 + (b2z b - 48)) acc w) w'.
Proof. apply foldl_app. Qed.

Lemma pretty_digit r : (r < 10)%N →
  digit (pretty_N_char r) = true ∧ b2z (pretty_N_char r) - 48 = Z.of_N r.
Proof.
  intros Hr. assert (forallb (λ n : nat, digit (pretty_N_char (N.of_nat n)) &&
    (b2z (pretty_N_char (N.of_nat n)) - 48 =? Z.of_nat n)) (seq 0 10) = true) as H by by vm_compute.
  rewrite forallb_forall in H. specialize (H (N.to_nat r)). rewrite N2Nat.id in H.
  rewrite andb_true_iff, Z.eqb_eq in H. destruct H as [H1 H2]; [|split; [done|lia]].
  apply list_elem_of_In, elem_of_seq. lia.
Qed.

Lemma pretty_go k x s : (x < 10 ^ N.of_nat k)%N →
  ∃ w, of_lit (pretty_N_go x s) = w ++ of_lit s ∧ (length w ≤ k)%nat ∧ forallb digit w = true ∧
    code_value w = Z.of_N x ∧ ((0 < x)%N → w ≠ []).
Proof.
  revert x s. induction k as [|k IH]; intros x s Hx.
  - exists []. assert (x = 0%N) as -> by (cbn in Hx; lia). done.
  - destruct (N.eq_dec x 0) as [->|Hne]; [exists []; split_and!; (done || (cbn; lia))|].
    rewrite pretty_N_go_step by lia. pose proof (N.mod_lt x 10 ltac:(lia)) as Hm.
    destruct (IH (x `div` 10)%N (String (pretty_N_char (x `mod` 10)) s)) as (w & Hw & Hl & Hd & Hv & _).
    { apply N.Div0.div_lt_upper_bound. rewrite Nat2N.inj_succ, N.pow_succ_r' in Hx. lia. }
    destruct (pretty_digit _ Hm) as [Hd1 Hd2].
    exists (w ++ [pretty_N_char (x `mod` 10)]). split; [rewrite Hw; by app_right|].
    split; [rewrite length_app; cbn; lia|]. split; [rewrite forallb_app, Hd; cbn; by rewrite Hd1|].
    split; [|intros _ E; by destruct w]. unfold code_value in *. rewrite code_value_app, Hv. cbn [foldl].
    rewrite Hd2. pose proof (N.div_mod x 10 ltac:(lia)). lia.
Qed.

Lemma show_port n : 0 < n < 10 ^ 9 → port_ok (to_string n) = true ∧ code_value (to_string n) = n.
Proof.
  intros Hn. unfold to_string. rewrite (proj2 (Z.ltb_ge _ _)) by lia.
  unfold Http.show, pretty, pretty_N. rewrite decide_False by lia.
  destruct (pretty_go 9 (Z.to_N n) "") as (w & -> & Hl & Hd & Hv & Hw); [cbn; lia|].
  rewrite app_nil_r. split; [|rewrite Hv; lia]. unfold port_ok. rewrite Hd.
  specialize (Hw ltac:(lia)). destruct w; [done|]. apply Z.leb_le. lia.
Qed.

Definition text_of (u : Uri) : Text :=
  {| t_scheme := m_scheme u; t_user := match m_userinfo u with [] => None | w => Some w end;
     t_host := m_host u; t_port := if isDefaultPort u then None else Some (to_string (m_port u));
     t_path := getPath u; t_query := match m_query u with [] => None | w => Some w end;
     t_fragment := match m_fragment u with [] => None | w => Some w end |}.

(** The parts a printed URI can carry. *)
Definition printable (u : Uri) : bool :=
  scheme_ok (m_scheme u) && (negb (nonempty (m_userinfo u)) || name_ok (m_userinfo u)) && name_ok (m_host u) &&
  path_ok (m_path u) && pct_text query_char (m_query u) && pct_text query_char (m_fragment u) &&
  (0 <=? m_port u) && (m_port u <? 10 ^ 9).

Lemma toString_text u : toString u = text (text_of u).
Proof.
  unfold toString, text, text_of. cbn [t_scheme t_user t_host t_port t_path t_query t_fragment].
  destruct (m_userinfo u), (isDefaultPort u), (m_query u), (m_fragment u);
    cbn [user_text port_text query_text fragment_text app]; by app_right.
Qed.

Lemma printable_text u : printable u = true → well_formed (text_of u) = true.
Proof.
  unfold printable, well_formed, text_of. cbn [t_scheme t_user t_host t_port t_path t_query t_fragment].
  rewrite !andb_true_iff. intros [[[[[[[Hs Hu] Hh] Hp] Hq] Hf] Hp0] Hp1].
  apply Z.leb_le in Hp0. apply Z.ltb_lt in Hp1.
  split_and!; [done| |done| | | |].
  - destruct (m_userinfo u); done.
  - destruct (isDefaultPort u) eqn:Hd; [done|]. cbn [all_opt]. apply show_port.
    unfold isDefaultPort in Hd. destruct (Z.eqb_spec (m_port u) 0); [done|lia].
  - unfold getPath. by destruct (m_path u).
  - by destruct (m_query u).
  - by destruct (m_fragment u).
Qed.

(** C9. A URI survives printing and parsing.  When its parts are ones a URI can
    carry, [Create] reads back from what [toString] prints an object with the
    same scheme, user, host, query and fragment, the same effective path and port,
    and the same printed form. *)
Theorem toString_roundtrip u :
  printable u = true → size (toString u) < 2 ^ 31 →
  ∃ v s, Create (toString u) = Ret (Some v) s ∧
    m_scheme v = m_scheme u ∧ m_userinfo v = m_userinfo u ∧ m_host v = m_host u ∧
    m_query v = m_query u ∧ m_fragment v = m_fragment u ∧
    getPath v = getPath u ∧ getPort v = getPort u ∧ toString v = toString u.
Proof.
  intros Hp Hl. rewrite toString_text in Hl |- *.
  destruct (create_parts (text_of u)) as [s Hc]; [by apply printable_text|done|].
  exists (parts (text_of u)), s. split; [done|]. rewrite <- toString_text. clear Hc Hl.
  unfold printable in Hp. rewrite !andb_true_iff, Z.leb_le, Z.ltb_lt in Hp. destruct Hp as [[_ Hp0] Hp1].
  assert (m_port (parts (text_of u)) = if isDefaultPort u then 0 else m_port u) as Hport.
  { cbn. destruct (isDefaultPort u) eqn:Hd; [done|]. apply show_port. unfold isDefaultPort in Hd.
    destruct (Z.eqb_spec (m_port u) 0); [done|lia]. }
  assert (m_userinfo (parts (text_of u)) = m_userinfo u) as Hu by (cbn; by destruct (m_userinfo u)).
  assert (m_query (parts (text_of u)) = m_query u) as Hq by (cbn; by destruct (m_query u)).
  assert (m_fragment (parts (text_of u)) = m_fragment u) as Hf by (cbn; by destruct (m_fragment u)).
  assert (getPath (parts (text_of u)) = getPath u) as Hpath by (unfold getPath; cbn; unfold getPath; by destruct (m_path u)).
  assert (∀ x, scheme_is (parts (text_of u)) x = scheme_is u x) as Hsch by done.
  assert (isDefaultPort (parts (text_of u)) = isDefaultPort u) as Hdef.
  { unfold isDefaultPort at 1. rewrite Hport, !Hsch. destruct (isDefaultPort u) eqn:Hd; [done|].
    unfold isDefaultPort in Hd. exact Hd. }
  split; [done|]. split; [done|]. split; [done|]. split; [done|]. split; [done|]. split; [done|]. split.
  - unfold getPort. rewrite Hport, !Hsch. destruct (isDefaultPort u) eqn:Hd; [|done].
    unfold isDefaultPort in Hd. cbn [negb Z.eqb].
    destruct (Z.eqb_spec (m_port u) 0) as [E|E]; cbn [negb]; [by rewrite E|].
    destruct (scheme_is u "http" || scheme_is u "ws"); [lia|].
    destruct (scheme_is u "https" || scheme_is u "wss"); [lia|done].
  - unfold toString. rewrite Hu, Hq, Hf, Hpath, Hdef, Hport. by destruct (isDefaultPort u).
Qed.

Definition sample_uri : Uri := setPort 8080 (setQuery (of_lit "a=%20b") (setHost (of_lit "10.0.0.7")
  (setScheme (of_lit "http") new_Uri))).

Lemma toString_roundtrip_witness :
  ∃ v s, Create (of_lit "http://10.0.0.7:8080/?a=%20b") = Ret (Some v) s ∧
    m_host v = of_lit "10.0.0.7" ∧ getPort v = 8080 ∧ getPath v = of_lit "/".
Proof.
  destruct (toString_roundtrip sample_uri) as (v & s & Hc & _ & _ & Hh & _ & _ & Hp & Hport & _);
    [by vm_compute|by vm_compute|].
  exists v, s. split; [exact Hc|]. split; [exact Hh|]. split; [exact Hport|exact Hp].
Defined.

(** ** An empty port *)

Section crash.
Context (uristr : list ascii).
Hypothesis fits : size uristr < 2 ^ 31.

Definition crashes (n p : Z) (input : list ascii) (s : parse) : Prop :=
  parse_from uristr n p input s = UB.

Lemma crashes_exec n p input s n' p' input' s' :
  exec machine (act uristr) n p input s = exec machine (act uristr) n' p' input' s' →
  crashes n' p' input' s' → crashes n p input s.
Proof. intros He Hc. unfold crashes, parse_from, bind in *. by rewrite He. Qed.

Lemma crashes_byte l cls acts l' n p b input s :
  leads machine cls l acts l' = true → mem l n = true → cls b = true →
  actions (act uristr) acts p s = UB → crashes n p (b :: input) s.
Proof.
  intros Hl Hn Hb Ha. destruct (all_moves_spec machine _ _ _ n b Hl Hn Hb) as (acts' & n' & Hon & H0 & Hok).
  rewrite andb_true_iff, bool_decide_eq_true in Hok. destruct Hok as [-> _].
  unfold crashes, parse_from, bind at 1. rewrite (exec_cons machine _ _ _ _ _ _ _ _ Hon H0).
  unfold bind. by rewrite Ha.
Qed.

Lemma crashes_tail l acts n p qo fo s :
  ends l acts = true → mem l n = true →
  p + size (query_text qo ++ fragment_text fo) = size uristr →
  actions (act uristr) acts p s = UB → crashes n p (query_text qo ++ fragment_text fo) s.
Proof.
  unfold ends. rewrite !andb_true_iff. intros [[Hq Hh] He] Hn Hp Ha.
  destruct qo as [q|]; [cbn [query_text app]; by apply (crashes_byte l (Ascii.eqb "?") acts [456])|].
  destruct fo as [f|]; [cbn [query_text fragment_text app]; by apply (crashes_byte l (Ascii.eqb "#") acts [453])|]. cbn [query_text fragment_text app length] in *.
  rewrite forallb_forall in He. unfold mem in Hn. apply existsb_exists in Hn as (n0 & Hin & ->%Z.eqb_eq).
  specialize (He _ Hin). rewrite andb_true_iff, bool_decide_eq_true in He. destruct He as [He _].
  unfold crashes, parse_from. cbn [exec]. unfold bind at 1, ret. cbn [fst snd]. unfold finish.
  rewrite (proj2 (Z.eqb_eq _ _)) by lia. rewrite He. unfold bind at 1. by rewrite Ha.
Qed.

Lemma crashes_colon n p path qo fo s :
  mem after_colon n = true → path_ok path = true →
  p + size (path ++ query_text qo ++ fragment_text fo) = size uristr →
  crashes n p (path ++ query_text qo ++ fragment_text fo) s.
Proof.
  intros Hn Hp Hl. destruct path as [|c path].
  - apply (crashes_tail after_colon [A.markh; A.save_port; A.save_path]); [by vm_compute|done|done|].
    cbn [actions act]. unfold bind, set_mark, ret, get. cbn [mark]. by rewrite bool_decide_true.
  - cbn [path_ok] in Hp. apply andb_prop in Hp as [->%Ascii.eqb_eq Hp]. cbn [app length] in *.
    destruct (exec_leads machine (act uristr) (Ascii.eqb "/") after_colon [A.markh; A.save_port] [513] n p "/"
      (path ++ query_text qo ++ fragment_text fo) s (Parse (uri s) None)) as (n' & ->%mem_one & Hx);
      [by vm_compute|done|done| |].
    { cbn [actions act]. unfold bind, set_mark, ret, get. cbn [mark]. by rewrite bool_decide_true. }
    eapply crashes_exec; [exact Hx|].
    destruct (exec_pct_in machine (act uristr) path_char [513] [243] [244] 513 (p + 1) path
      (query_text qo ++ fragment_text fo) (Parse (uri s) None)) as (n' & ->%mem_one & Hx'); [by vm_compute|done|done|].
    eapply crashes_exec; [exact Hx'|].
    apply (crashes_tail [513] [A.save_path]); [by vm_compute|done| |done].
    rewrite length_app in Hl. lia.
Qed.

Lemma crashes_host n l l1 l2 colon digits pre host rest s :
  reads_host n l l1 l2 colon digits = true → name_ok host = true →
  uristr = pre ++ host ++ ":"%char :: rest →
  (∀ s', crashes colon (size pre + size host + 1) rest s') →
  crashes n (size pre) (host ++ ":"%char :: rest) s.
Proof.
  unfold reads_host. rewrite !andb_true_iff.
  intros [[[[[[[[[Hr Hn] Hn1] Hsl] He] Hc] Hd] Hds] Hdsl] Hde] Hh Ht Hcr.
  unfold name_ok in Hh. apply andb_prop in Hh as [Hne Hh]. destruct host as [|b host]; [done|]. cbn [app].
  destruct (exec_pct_enter machine (act uristr) host_char [n] [A.markh] l l1 l2 n (size pre) b host
    (":"%char :: rest) s (Parse (uri s) (Some (size pre)))) as (n1 & Hn1' & Hx); [done..| |done|done|].
  { unfold mem. cbn. by rewrite Z.eqb_refl. }
  eapply crashes_exec; [exact Hx|]. set (s1 := Parse _ _).
  pose proof (save_host_ret uristr fits pre (b :: host) (":"%char :: rest) s1 Ht eq_refl) as Hsave.
  rewrite length_app, Nat2Z.inj_add in Hsave.
  destruct (exec_leads machine (act uristr) _ _ _ _ n1 (size pre + size (b :: host)) ":" rest _ _ Hc Hn1' eq_refl Hsave)
    as (n2 & ->%mem_one & Hx2).
  eapply crashes_exec; [exact Hx2|apply Hcr].
Qed.

End crash.

(** A URI with a colon and no port after its host crashes the parser:
    [save_port] resets [mark] and [save_path] then builds a string from the null
    pointer. *)
Theorem empty_port_crashes sch host path qo fo :
  let uristr := sch ++ of_lit "://" ++ host ++ of_lit ":" ++ path ++ query_text qo ++ fragment_text fo in
  scheme_ok sch = true → name_ok host = true → path_ok path = true → size uristr < 2 ^ 31 →
  Create uristr = UB.
Proof.
  intros uristr Hs Hh Hp Hl. unfold Create, uri_parser_start.
  eapply crashes_exec; [by apply (exec_scheme uristr Hl sch)|].
  apply (crashes_host uristr Hl 511 name_states [253] [254] 521 542 _ _ _ _ name_reads Hh).
  - unfold uristr. by app_right.
  - intros s'. apply crashes_colon; [done|done|]. unfold uristr. rewrite !length_app. cbn. lia.
Qed.

Lemma empty_port_crashes_witness : Create (of_lit "http://localhost:/index.html") = UB.
Proof. apply (empty_port_crashes (of_lit "http") (of_lit "localhost") (of_lit "/index.html") None None); by vm_compute. Defined.

(** ** The address of a URI *)

(** The address [createAddress] makes has port 0, whatever the URI says:
    [setPort] swaps the 32-bit port and keeps the low half. *)
Theorem createAddress_port getaddrinfo u :
  0 ≤ getPort u < 65536 →
  match createAddress getaddrinfo u with
  | Some (Address.IPV4Address m) => Address.getPort4 m = 0
  | Some (Address.IPV6Address m) => Address.getPort6 m = 0
  | _ => True
  end.
Proof.
  intros Hp. unfold createAddress. rewrite wrap_small by (unfold in_u; lia).
  destruct (Address.LookupAnyIPAddress _ _ _ _ _) as [[m|m|m|m]|]; try done;
    [unfold Address.getPort4|unfold Address.getPort6]; cbn;
    rewrite Address.setPort_value by (unfold in_u; lia); apply Z.div_small; lia.
Qed.

(** A resolver that answers with 127.0.0.1. *)
Definition loopback (_ : list ascii) (_ : option (list ascii)) (_ _ _ : Z) : option (list (option (list ascii))) :=
  Some [Some (z2b <$> [2; 0; 0; 0; 127; 0; 0; 1; 0; 0; 0; 0; 0; 0; 0; 0])].

Lemma createAddress_port_witness :
  match createAddress loopback (setScheme (of_lit "https") new_Uri) with
  | Some (Address.IPV4Address m) => Address.getPort4 m = 0 ∧ Address.s_addr m = 127 + 2 ^ 24
  | _ => False
  end.
Proof.
  pose proof (createAddress_port loopback (setScheme (of_lit "https") new_Uri) ltac:(by vm_compute)) as H.
  split; [exact H|by vm_compute].
Defined.

End Uri.
