(* ===== verification/Urigrammar.v ===== *)
(** * Urigrammar: the grammar of URIs

    The grammar of uri.rl (RFC 3986 with its exceptions), rule by rule, and
    [Create_grammar]: [Uri::Create] accepts exactly its words.  uri.rl.cc is the
    code generated from that grammar, so the theorem says that the 560 states are
    a correct compilation of it.  The certificate is found and checked by
    computation; 10000 rounds are enough for its 262 derivatives and 580 pairs. *)
From S2P Require Import Prelude Util Cstring Ragel Urimachine Regex Uri.
Import StdString Ragel Regex Rules.
#[local] Open Scope list_scope.
#[local] Open Scope Z_scope.

Module UriGrammar.

Definition sub_delims : list (Z * Z) := chars "!$&'()*+,;=".
Definition userinfo : regex := Star (Alt (Cls (unreserved ++ sub_delims ++ chars ":")) pct_encoded).
(** [2 [0-4] digit]: the unquoted 2 is the character with code 2. *)
Definition dec_octet : regex :=
  Alts [Cls digit; Cat (Cls [(49, 57)]) (Cls digit); Cat (lit "1") (Times 2 (Cls digit));
    Cats [Cls [(2, 2)]; Cls [(48, 52)]; Cls digit]; Cat (lit "25") (Cls [(48, 53)])].
Definition IPv4address : regex :=
  Cats [dec_octet; lit "."; dec_octet; lit "."; dec_octet; lit "."; dec_octet].
Definition ls32 : regex := Alt (Cats [h16; lit ":"; h16]) IPv4address.
Definition h16s (n : nat) : regex := Times n (Cat h16 (lit ":")).
Definition IPv6address : regex :=
  Alts [Cat (h16s 6) ls32;
    Cats [lit "::"; h16s 5; ls32];
    Cats [Opt h16; lit "::"; h16s 4; ls32];
    Cats [Opt (Cat (h16s 1) h16); lit "::"; h16s 3; ls32];
    Cats [Opt (Cat (h16s 2) h16); lit "::"; h16s 2; ls32];
    Cats [Opt (Cat (h16s 3) h16); lit "::"; h16s 1; ls32];
    Cats [Opt (Cat (h16s 4) h16); lit "::"; ls32];
    Cats [Opt (Cat (h16s 5) h16); lit "::"; h16];
    Cat (Opt (Cat (h16s 6) h16)) (lit "::")].
Definition IPvFuture : regex :=
  Cats [lit "v"; Plus xdigit; lit "."; Plus (Cls (unreserved ++ sub_delims ++ chars ":"))].
Definition IP_literal : regex := Cats [lit "["; Alt IPv6address IPvFuture; lit "]"].
Definition reg_name : regex := Star (Alt (Cls (unreserved ++ sub_delims)) pct_encoded).
Definition host : regex := Alts [IP_literal; IPv4address; reg_name].
Definition authority : regex :=
  Cats [Opt (Cat userinfo (lit "@")); host; Opt (Cat (lit ":") port)].

Definition pchar : regex := Alt (Cls (non_ascii ++ unreserved ++ sub_delims ++ chars ":@")) pct_encoded.
Definition pchar_nc : regex := Alt (Cls (non_ascii ++ unreserved ++ sub_delims ++ chars "@")) pct_encoded.
Definition segment : regex := Star pchar.
Definition segment_nz : regex := Plus pchar.
Definition segment_nz_nc : regex := Plus pchar_nc.
Definition slash_segment : regex := Cat (lit "/") segment.
Definition path_abempty : regex := Cat (Opt slash_segment) (Star slash_segment).
Definition path_absolute : regex := Cat (lit "/") (Opt (Cat segment_nz (Star slash_segment))).
Definition path_noscheme : regex := Cat segment_nz_nc (Star slash_segment).
Definition path_rootless : regex := Cat segment_nz (Star slash_segment).
Definition path_empty : regex := Eps.

Definition query : regex := Star (Alt pchar (Cls (chars "/?"))).
Definition fragment : regex := Star (Alt pchar (Cls (chars "/?"))).

Definition hier_part : regex :=
  Alts [Cats [lit "//"; authority; path_abempty]; path_absolute; path_rootless; path_empty].
Definition relative_part : regex :=
  Alts [Cats [lit "//"; authority; path_abempty]; path_absolute; path_noscheme; path_empty].
Definition tail : regex := Cat (Opt (Cat (lit "?") query)) (Opt (Cat (lit "#") fragment)).
Definition relative_ref : regex := Cat relative_part tail.
Definition URI : regex := Cats [scheme; lit ":"; hier_part; tail].
Definition URI_reference : regex := Alt URI relative_ref.

(** ** The machine accepts the grammar *)

Module A := UriMachine.
Abbreviation machine := A.uri_machine.

Definition cert : certificate := explore false URI_reference (next machine) 451 (Z.to_nat 10000).

Lemma uri_cert_checked :
  check false URI_reference (next machine) (Z.leb 451) 451 (Z.of_nat <$> seq 1 560) cert = true.
Proof. by vm_compute. Qed.

Lemma uri_machine_accepts w : (451 <=? run machine 451 w) = true ↔ matches URI_reference w.
Proof.
  pose proof (accepts_words false URI_reference (next machine) (Z.leb 451) 451 _ cert uri_cert_checked
    (λ _, eq_refl) eq_refl w) as H.
  unfold words, accepts in H. split; [by intros [? _]%H|]. intros Hm. by apply H.
Qed.

(** ** From the machine to [Create] *)

(** No action of the grammar breaks out of the machine. *)
Lemma act_goes_on uristr a p s brk s' : Uri.act uristr a p s = Ret brk s' → brk = false.
Proof.
  destruct a; cbn [Uri.act]; unfold bind, Uri.set_mark, get, ret; intros H;
    repeat (case_match; try done); by injection H.
Qed.

Lemma actions_go_on uristr acts p s brk s' : actions (Uri.act uristr) acts p s = Ret brk s' → brk = false.
Proof.
  revert s. induction acts as [|a acts IH]; intros s; cbn [actions]; [by intros [= <- _]|].
  intros (b & s1 & Ha & H)%bind_inv. rewrite (act_goes_on _ _ _ _ _ _ Ha) in H. by apply IH in H.
Qed.

Lemma has_case n : Uri.in_machine n = true → n ≠ 0 → states machine n ≠ None.
Proof.
  intros Hn H0. unfold Uri.in_machine in Hn.
  assert (forallb (λ n, match states machine n with Some _ => true | None => false end)
    (Z.of_nat <$> seq 1 560) = true) as H by by vm_compute.
  rewrite forallb_forall in H. specialize (H n). destruct (states machine n); [done|].
  discriminate H. apply list_elem_of_In, list_elem_of_fmap. exists (Z.to_nat n). split; [lia|].
  apply elem_of_seq. lia.
Qed.

Lemma next_in n b : Uri.in_machine n = true → Uri.in_machine (next machine n b) = true.
Proof.
  intros Hn. assert (forallb (λ n, forallb (λ b, Uri.in_machine (next machine n b)) all_bytes)
    (Z.of_nat <$> seq 0 561) = true) as H by by vm_compute.
  rewrite forallb_forall in H. unfold Uri.in_machine in Hn.
  apply (forall_bytes (λ b, Uri.in_machine (next machine n b))), H, list_elem_of_In, list_elem_of_fmap.
  exists (Z.to_nat n). split; [lia|]. apply elem_of_seq. lia.
Qed.

Lemma run_dead w : run machine 0 w = 0.
Proof. unfold run. induction w as [|b w IH]; [done|]. cbn [foldl]. exact IH. Qed.

(** The code ends in the state of the automaton. *)
Lemma exec_run uristr w cs p s p' n s' :
  Uri.in_machine cs = true → cs ≠ 0 →
  exec machine (Uri.act uristr) cs p w s = Ret (p', n) s' → n = run machine cs w.
Proof.
  revert cs p s. induction w as [|b w IH]; intros cs p s Hcs H0; cbn [exec]; [by intros [= _ <- _]|].
  change (run machine cs (b :: w)) with (run machine (next machine cs b) w).
  pose proof (next_in cs b Hcs) as Hin. unfold next in *. unfold on_byte in *.
  pose proof (has_case cs Hcs H0) as Hc. destruct (states machine cs) as [f|]; [|done].
  destruct (goto machine (f (schar b))) as [acts n']. cbn [snd] in *.
  destruct (Z.eqb_spec n' 0) as [->|Hn'].
  - intros [= _ <- _]. symmetry. apply run_dead.
  - intros (brk & s1 & Ha & H)%bind_inv. rewrite (actions_go_on _ _ _ _ _ _ Ha) in H. by eapply IH.
Qed.

(** C1. [Uri::Create] recognises the grammar of uri.rl: on a text in which no
    authority ends in a colon it returns an object exactly when the text is a
    [URI_reference], and null otherwise. *)
Theorem Create_grammar uristr :
  Z.of_nat (length uristr) < 2 ^ 63 → Uri.no_empty_port uristr = true →
  ∃ r s, Uri.Create uristr = Ret r s ∧ (is_Some r ↔ matches URI_reference uristr).
Proof.
  intros Hl Hp. destruct (Uri.parse_from_ret uristr Hl 451 0 uristr (Uri.Parse Uri.new_Uri None))
    as (r & s & Hr); [done|done|by split|lia|lia|].
  exists r, s. split; [exact Hr|]. rewrite <- uri_machine_accepts.
  unfold Uri.parse_from in Hr. apply bind_inv in Hr as ([p n] & s1 & He & Hf). cbn [fst snd] in Hf.
  rewrite <- (exec_run uristr uristr 451 0 _ p n s1 eq_refl ltac:(done) He).
  unfold Uri.finish in Hf. apply bind_inv in Hf as (b & s2 & _ & Hf). rewrite bind_get in Hf.
  unfold Uri.uri_parser_error, Uri.uri_parser_first_final in Hf.
  destruct (Z.eqb_spec n 0) as [->|Hn]; [injection Hf as <- _|destruct (451 <=? n); injection Hf as <- _].
  - split; [by intros []|done].
  - split; [done|by eexists].
  - split; [by intros []|done].
Qed.

Lemma Create_grammar_witness :
  ∃ r s, Uri.Create (of_lit "//[::1]:80/a") = Ret r s ∧ (is_Some r ↔ matches URI_reference (of_lit "//[::1]:80/a")).
Proof. apply (Create_grammar (of_lit "//[::1]:80/a")); by vm_compute. Defined.

End UriGrammar.
