(* ===== verification/Httppool.v ===== *)
(** * Httppool: HTTP requests and the connection pool (http/http_connection.{h,cc})

    [HttpConnection::DoRequest] and its variants, which build a request, connect,
    send and receive; and [HttpConnectionPool], which keeps idle connections.  A
    connection is an object in a heap with its stream; the pool and its clients hold
    pointers to it.  [Dialer] is what the two ask of sockets: creation, connection,
    the receive timeout, the remote address.

    [request_seen]: what the server reads of a request built from a URI and headers.
    [pool_accounting]: the pool's count and pointers under any use.
    [doRequest_returns_connection]: no request keeps a connection. *)
From S2P Require Import Prelude Endian Bytearray Iovec Stream Zlib Util Httpmap Http Address Uri Ragel Cstring Httptext Http11 Http11text Httpparser Httpresponse Httpsession Httpconnection Fdmanager Hook Sockets.
Import StdString.
#[local] Open Scope list_scope.
#[local] Open Scope Z_scope.
#[local] Set Warnings "-clear-no-such-hyp".

(** The sockets of a client.  [errno] is read after a call on the socket. *)
Class Dialer (N : Type) := {
  d_create : bool → Address.Address → option N;
  d_connect : Address.Address → N → bool * N;
  d_setRecvTimeout : Z → N → N;
  d_remote : N → Address.Address;
  d_errno : option N → Z;
  d_strerror : Z → list ascii;
}.

Module HttpClient.

#[local] Existing Instance SocketStream.socket_stream.

(** ** Results *)

Inductive Error :=
| OK | INVALID_URL | INVALID_HOST | CONNECT_FAIL | SEND_CLOSE_BY_PEER | SEND_SOCKET_ERROR
| TIMEOUT | CREATE_SOCKET_ERROR | POOL_GET_CONNECTION | POOL_INVALID_CONNECTION.
Definition error_value (e : Error) : Z :=
  match e with
  | OK => 0 | INVALID_URL => 1 | INVALID_HOST => 2 | CONNECT_FAIL => 3 | SEND_CLOSE_BY_PEER => 4
  | SEND_SOCKET_ERROR => 5 | TIMEOUT => 6 | CREATE_SOCKET_ERROR => 7 | POOL_GET_CONNECTION => 8
  | POOL_INVALID_CONNECTION => 9
  end.

Record HttpResult := Result { result : Z; response : option Http.HttpResponse; error : list ascii }.
Definition make_result (e : Error) (r : option Http.HttpResponse) (msg : list ascii) : HttpResult :=
  Result (error_value e) r msg.
Definition result_toString (r : HttpResult) : list ascii :=
  of_lit "[HttpResult result=" ++ Uri.to_string (result r) ++ of_lit " error=" ++ error r
  ++ of_lit " response=" ++ (match response r with Some x => Http.rs_dump x | None => of_lit "nullptr" end)
  ++ of_lit "]".

(** ** Building a request *)

Definition named (name : string) (i : list ascii * list ascii) : bool :=
  HttpMap.strcasecmp i.1 (of_lit name) =? 0.
Definition says (value : string) (i : list ascii * list ascii) : bool :=
  HttpMap.strcasecmp i.2 (of_lit value) =? 0.
Definition has_value (i : list ascii * list ascii) : bool := match i.2 with [] => false | _ => true end.

(** The loop over the headers: [has_host], [has_conn] and the request. *)
Definition add_header (st : bool * bool * Http.HttpRequest) (i : list ascii * list ascii)
    : bool * bool * Http.HttpRequest :=
  let '(has_host, has_conn, req) := st in
  if named "connection" i then
    let req := Http.setHeader i.1 i.2 req in
    (has_host, has_value i, if says "keep-alive" i then Http.setClose false req else req)
  else
    let has_host := if negb has_host && named "host" i then has_value i else has_host in
    (has_host, has_conn, Http.setHeader i.1 i.2 req).

Definition add_headers (req : Http.HttpRequest) (headers : list (list ascii * list ascii))
    (host body : list ascii) : Http.HttpRequest :=
  let '(has_host, has_conn, req) := foldl add_header (false, false, req) headers in
  let req := if has_conn : bool then req else Http.setHeader (of_lit "Connection") (of_lit "keep-alive") req in
  let req := if has_host : bool then req else Http.setHeader (of_lit "Host") host req in
  Http.setBody body req.

(** The request of [DoRequest(method, uri, timeout_ms, headers, body)]. *)
Definition build_request (method : Http.HttpMethod) (uri : Uri.Uri)
    (headers : list (list ascii * list ascii)) (body : list ascii) : Http.HttpRequest :=
  add_headers
    (Http.setMethod method (Http.setFragment (Uri.m_fragment uri) (Http.setQuery (Uri.m_query uri)
      (Http.setPath (Uri.getPath uri) (Http.new_HttpRequest 17 true)))))
    headers (Uri.m_host uri) body.

Section requests.
Context {N : Type} `{Net N} `{Alloc} `{Dialer N}.
Context {Zs : Type} `{Codec Zs}.
Context (lexical_cast : list ascii → option Z) (inflateInit : bool → option Zs) (zfuel : nat).
Context (getaddrinfo : list ascii → option (list ascii) → Z → Z → Z → option (list (option (list ascii)))).
(** The fuel of the loops, the memory of the buffer, the uninitialised status. *)
Context (fuel : nat) (memory : list ascii) (garbage : Z).

Definition errno_text (s : option N) : list ascii :=
  of_lit " errno=" ++ Uri.to_string (d_errno s) ++ of_lit " errstr=" ++ d_strerror (d_errno s).

(** [sendRequest], [recvResponse] and the results they lead to; [peer] is the
    address as text. *)
Definition exchange (peer : option (list ascii)) (req : Http.HttpRequest) (timeout_ms : Z)
    : M (SocketStream.t N) HttpResult :=
  let! rt := HttpConnection.sendRequest req in
  if rt =? 0 then
    let! peer := lift peer in
    ret (make_result SEND_CLOSE_BY_PEER None (of_lit "send request closed by peer: " ++ peer))
  else if rt <? 0 then
    let! s := get in
    ret (make_result SEND_SOCKET_ERROR None (of_lit "send request socket error" ++ errno_text (SocketStream.m_socket s)))
  else
    let! rsp := HttpConnection.recvResponse lexical_cast inflateInit zfuel fuel memory garbage in
    match rsp with
    | None =>
        let! peer := lift peer in
        ret (make_result TIMEOUT None (of_lit "recv response timeout: " ++ peer ++ of_lit " timeout_ms" ++ Http.show timeout_ms))
    | Some rsp => ret (make_result OK (Some rsp) (of_lit "ok"))
    end.

(** [DoRequest(req, uri, timeout_ms)]: its result, and the connection after it was
    destroyed.  Without an address its text is asked of a null pointer. *)
Definition DoRequest (req : Http.HttpRequest) (uri : Uri.Uri) (timeout_ms : Z) : outcome (option N) HttpResult :=
  let is_ssl := bool_decide (Uri.m_scheme uri = of_lit "https") in
  match Uri.createAddress getaddrinfo uri with
  | None => UB
  | Some addr =>
      match d_create is_ssl addr with
      | None =>
          match Address.toString addr with
          | None => UB
          | Some a => Ret (make_result CREATE_SOCKET_ERROR None (of_lit "create socket fail" ++ a ++ errno_text None)) None
          end
      | Some sock =>
          let '(ok, sock) := d_connect addr sock in
          if negb ok then
            match Address.toString addr with
            | None => UB
            | Some a => Ret (make_result CONNECT_FAIL None (of_lit "connect fail: " ++ a)) (Some (sys_close sock))
            end
          else
            let conn := SocketStream.mk (Some (d_setRecvTimeout (swrap 64 timeout_ms) sock)) true in
            match exchange (Address.toString addr) req timeout_ms conn with
            | Ret r conn => Ret r (SocketStream.m_socket (SocketStream.destroy conn))
            | Throw e conn => Throw e (SocketStream.m_socket (SocketStream.destroy conn))
            | UB => UB
            end
      end
  end.

Definition DoRequest_uri (method : Http.HttpMethod) (uri : Uri.Uri) (timeout_ms : Z)
    (headers : list (list ascii * list ascii)) (body : list ascii) : outcome (option N) HttpResult :=
  DoRequest (build_request method uri headers body) uri timeout_ms.

(** The overloads on text; [Uri::Create] may itself fail. *)
Definition on_url (url : list ascii) (k : Uri.Uri → outcome (option N) HttpResult) : outcome (option N) HttpResult :=
  match Uri.Create url with
  | Ret None _ => Ret (make_result INVALID_URL None (of_lit "invalid url: " ++ url)) None
  | Ret (Some uri) _ => k uri
  | Throw e _ => Throw e None
  | UB => UB
  end.
Definition DoRequest_url (method : Http.HttpMethod) (url : list ascii) (timeout_ms : Z)
    (headers : list (list ascii * list ascii)) (body : list ascii) : outcome (option N) HttpResult :=
  on_url url (λ uri, DoRequest_uri method uri timeout_ms headers body).
Definition DoGet (uri : Uri.Uri) (timeout_ms : Z) (headers : list (list ascii * list ascii)) (body : list ascii)
    : outcome (option N) HttpResult := DoRequest_uri Http.GET uri timeout_ms headers body.
Definition DoPost (uri : Uri.Uri) (timeout_ms : Z) (headers : list (list ascii * list ascii)) (body : list ascii)
    : outcome (option N) HttpResult := DoRequest_uri Http.GET uri timeout_ms headers body.
Definition DoGet_url (url : list ascii) (timeout_ms : Z) (headers : list (list ascii * list ascii)) (body : list ascii)
    : outcome (option N) HttpResult := on_url url (λ uri, DoGet uri timeout_ms headers body).
Definition DoPost_url (url : list ascii) (timeout_ms : Z) (headers : list (list ascii * list ascii)) (body : list ascii)
    : outcome (option N) HttpResult := on_url url (λ uri, DoPost uri timeout_ms headers body).

End requests.

(** ** What the server reads *)

(** The value of the last header of that name. *)
Definition last_value (name : list ascii) (v : list ascii) (headers : list (list ascii * list ascii)) : list ascii :=
  foldl (λ v i, if decide (HttpMap.ci_eq i.1 name) then i.2 else v) v headers.

Definition own_lines (headers : list (list ascii * list ascii)) : list HttpText.header := (λ i, (i.1, [], i.2)) <$> headers.

Lemma named_spec name i : named name i = true ↔ HttpMap.ci_eq i.1 (of_lit name).
Proof. unfold named. rewrite Z.eqb_eq. apply HttpMap.strcasecmp_zero. Qed.

(** The loop: every header is set, in order. *)
Lemma add_headers_loop headers hh hc (req : Http.HttpRequest) :
  foldl add_header (hh, hc, req) headers =
  (hh || existsb (λ i, named "host" i && has_value i) headers,
   foldl (λ c i, if named "connection" i then has_value i else c) hc headers,
   Http.setHeaders (HttpParser.header_map (own_lines headers) (Http.m_headers req))
     (Http.setClose (Http.m_close req && negb (existsb (λ i, named "connection" i && says "keep-alive" i) headers)) req)).
Proof.
  revert hh hc req. induction headers as [|i headers IH]; intros hh hc req.
  { cbn. rewrite orb_false_r, andb_true_r. by destruct req. }
  cbn [foldl]. unfold add_header at 2. destruct (named "connection" i) eqn:Hc.
  - assert (named "host" i = false) as Hh.
    { destruct (named "host" i) eqn:Hh; [|done]. apply named_spec in Hh, Hc. rewrite Hh in Hc. by vm_compute in Hc. }
    rewrite IH. cbn [existsb]. rewrite Hh, Hc. cbn [andb orb]. f_equal.
    destruct (says "keep-alive" i); cbn [negb andb orb];
      destruct req; cbn; by rewrite ?andb_false_r.
  - rewrite IH. cbn [existsb]. rewrite Hc. cbn [andb orb].
    destruct req, hh, (named "host" i), (has_value i); done.
Qed.

Lemma last_value_lines k v headers :
  foldl (λ v (h : HttpText.header), if decide (HttpMap.ci_eq h.1.1 k) then h.2 else v) v (own_lines headers) =
  last_value k v headers.
Proof. revert v. induction headers as [|i headers IH]; intros v; [done|]. apply IH. Qed.

(** The headers of a built request. *)
Definition host_given (headers : list (list ascii * list ascii)) : bool :=
  existsb (λ i, named "host" i && has_value i) headers.
Definition keep_alive (headers : list (list ascii * list ascii)) : bool :=
  existsb (λ i, named "connection" i && says "keep-alive" i) headers.

Definition built_headers (headers : list (list ascii * list ascii)) (host : list ascii) : HttpMap.MapType :=
  let m := HttpParser.header_map (own_lines headers) [] in
  let m := if foldl (λ c i, if named "connection" i then has_value i else c) false headers then m
           else HttpMap.assign (of_lit "Connection") (of_lit "keep-alive") m in
  if host_given headers then m else HttpMap.assign (of_lit "Host") host m.

Lemma build_request_parts method uri headers body :
  let req := build_request method uri headers body in
  Http.m_method req = method ∧ Http.m_path req = Uri.getPath uri ∧ Http.m_query req = Uri.m_query uri ∧
  Http.m_fragment req = Uri.m_fragment uri ∧ Http.m_body req = body ∧ Http.m_version req = 17 ∧
  Http.m_websocket req = false ∧ Http.m_close req = negb (keep_alive headers) ∧
  Http.m_headers req = built_headers headers (Uri.m_host uri).
Proof.
  unfold build_request, add_headers. rewrite add_headers_loop. cbn zeta.
  unfold built_headers, host_given, keep_alive. cbn [orb].
  destruct (foldl _ false headers), (existsb (λ i, named "host" i && has_value i) headers); done.
Qed.

Lemma header_map_sorted hs acc : HttpMap.sorted acc → HttpMap.sorted (HttpParser.header_map hs acc).
Proof. revert acc. induction hs as [|h hs IH]; intros acc Hs; [done|]. apply IH. by apply HttpMap.assign_sorted. Qed.

Lemma built_headers_sorted headers host : HttpMap.sorted (built_headers headers host).
Proof.
  unfold built_headers.
  assert (HttpMap.sorted (HttpParser.header_map (own_lines headers) [])) by (apply header_map_sorted; constructor).
  destruct (foldl _ false headers), (host_given headers); eauto using HttpMap.assign_sorted.
Qed.

(** Looking up any header but [connection]. *)
Lemma built_headers_find headers host k v :
  ¬ HttpMap.ci_eq k (of_lit "connection") →
  default v (HttpMap.find k (built_headers headers host)) =
  if negb (host_given headers) && bool_decide (HttpMap.ci_eq k (of_lit "host")) then host
  else last_value k v headers.
Proof.
  intros Hk. unfold built_headers. set (m := HttpParser.header_map _ _).
  assert (HttpMap.sorted m) as Hm by (apply header_map_sorted; constructor).
  set (m1 := if foldl _ false headers then m else _).
  assert (HttpMap.sorted m1) as Hm1 by (unfold m1; destruct (foldl _ false headers); [done|by apply HttpMap.assign_sorted]).
  assert (HttpMap.find k m1 = HttpMap.find k m) as E1.
  { unfold m1. destruct (foldl _ false headers); [done|]. rewrite HttpMap.find_assign by done.
    rewrite decide_False; [done|]. intros E. apply Hk. by rewrite <- E. }
  assert (default v (HttpMap.find k m) = last_value k v headers) as E2.
  { unfold m. rewrite HttpParser.header_map_find by constructor. by rewrite last_value_lines. }
  destruct (host_given headers); cbn [negb andb]; [by rewrite E1|].
  rewrite HttpMap.find_assign by done. case_bool_decide as Hh.
  - rewrite decide_True; [done|]. by rewrite Hh.
  - rewrite decide_False; [by rewrite E1|]. intros E. apply Hh. by rewrite <- E.
Qed.

(** C8. What a client asks for is what the server reads.  The bytes [DoRequest]
    sends for a method, a URI, headers and a body are parsed by the server, in one
    [execute] and without error, as a request with that method and body, the path
    (/ when there is none), query and fragment of the URI, the last value given for
    each header, the host of the URI as Host unless the caller gave one, and a
    connection header that says keep-alive exactly when the caller asked for it. *)
Theorem request_seen method uri headers body extra relaxed query :
  let req := build_request method uri headers body in
  Http11Text.well_formed (negb (relaxed =? 0)) (HttpParser.request_of req) = true →
  method ≠ Http.INVALID_METHOD → CharClass.size (Http.dump req ++ extra) < 2 ^ 31 →
  ∃ p' buffer', HttpParser.execute (Http.dump req ++ extra) (CharClass.size (Http.dump req))
        (HttpParser.new_HttpRequestParser relaxed query) =
      Ret (CharClass.size (Http.dump req) - CharClass.size body, buffer') p' ∧
    take (length body) buffer' = body ∧
    HttpParser.isFinished p' = 1 ∧ HttpParser.hasError p' = false ∧
    let seen := HttpParser.getData p' in
    Http.m_method seen = method ∧ Http.m_path seen = Uri.getPath uri ∧
    Http.m_query seen = Uri.m_query uri ∧ Http.m_fragment seen = Uri.m_fragment uri ∧
    (∀ k v, ¬ HttpMap.ci_eq k (of_lit "connection") → ¬ HttpMap.ci_eq k (of_lit "content-length") →
       ¬ HttpMap.ci_eq k (of_lit "host") → Http.getHeader k v seen = last_value k v headers) ∧
    Http.getHeader (of_lit "host") [] seen =
      (if host_given headers then last_value (of_lit "host") [] headers else Uri.m_host uri) ∧
    Http.getHeader (of_lit "connection") [] seen = of_lit (if keep_alive headers then "keep-alive" else "close").
Proof.
  intros req Hw Hm Hsz. destruct (build_request_parts method uri headers body)
    as (P1 & P2 & P3 & P4 & P5 & P6 & P7 & P8 & P9). fold req in P1, P2, P3, P4, P5, P6, P7, P8, P9.
  destruct (HttpParser.dump_parses_run req extra relaxed query) as
    (p' & buffer' & He & Hb & Hf & Herr & H1 & H2 & H3 & H4 & _ & Hh & Hc & _);
    [done|by right|by rewrite P1|rewrite P9; apply built_headers_sorted|done|done|].
  rewrite P5 in He, Hb. exists p', buffer'. cbn zeta. rewrite H1, H2, H3, H4, Hc, P8.
  assert (∀ k v, ¬ HttpMap.ci_eq k (of_lit "connection") → Http.getHeader k v req =
    if negb (host_given headers) && bool_decide (HttpMap.ci_eq k (of_lit "host")) then Uri.m_host uri
    else last_value k v headers) as Hget.
  { intros k v Hk. unfold Http.getHeader. rewrite P9. by apply built_headers_find. }
  split_and!; try done.
  - intros k v Hk1 Hk2 Hk3. rewrite Hh, Hget by done. rewrite bool_decide_false by done. by rewrite andb_false_r.
  - rewrite Hh, Hget by (intros E; by vm_compute in E). rewrite bool_decide_true by done. rewrite andb_true_r.
    by destruct (host_given headers).
  - by destruct (keep_alive headers).
Qed.

Definition demo_headers : list (list ascii * list ascii) :=
  [(of_lit "Accept", of_lit "text/html"); (of_lit "connection", of_lit "Keep-Alive")].

Lemma request_seen_witness :
  let req := build_request Http.GET Uri.sample_uri demo_headers [] in
  ∃ p' buffer', HttpParser.execute (Http.dump req ++ []) (CharClass.size (Http.dump req))
        (HttpParser.new_HttpRequestParser 0 0) = Ret (CharClass.size (Http.dump req) - 0, buffer') p' ∧
    Http.getHeader (of_lit "host") [] (HttpParser.getData p') = of_lit "10.0.0.7" ∧
    Http.getHeader (of_lit "connection") [] (HttpParser.getData p') = of_lit "keep-alive".
Proof.
  destruct (request_seen Http.GET Uri.sample_uri demo_headers [] [] 0 0)
    as (p' & buffer' & He & _ & _ & _ & _ & _ & _ & _ & _ & Hh & Hc); [by vm_compute|done|by vm_compute|].
  exists p', buffer'. split; [exact He|]. split; [exact Hh|exact Hc].
Defined.

End HttpClient.

Module HttpConnectionPool.
Import HttpClient.

#[local] Existing Instance SocketStream.socket_stream.

(** [m_createTime] and [m_request] of a connection; nothing sets the former. *)
Record conn (N : Type) := Conn { m_createTime : Z; m_request : Z; stream : SocketStream.t N }.
#[global] Arguments Conn {N}.
#[global] Arguments m_createTime {N}.
#[global] Arguments m_request {N}.
#[global] Arguments stream {N}.

(** The pool's members, and the connection objects that exist. *)
Record pool (N : Type) := Pool {
  m_host : list ascii;
  m_vhost : list ascii;
  m_port : Z;
  m_maxSize : Z;
  m_maxAliveTime : Z;
  m_maxRequest : Z;
  m_isHttps : bool;
  m_conns : list nat;
  m_total : Z;
  heap : gmap nat (conn N);
  next : nat;
}.
#[global] Arguments Pool {N}.
#[global] Arguments m_host {N}.
#[global] Arguments m_vhost {N}.
#[global] Arguments m_port {N}.
#[global] Arguments m_maxSize {N}.
#[global] Arguments m_maxAliveTime {N}.
#[global] Arguments m_maxRequest {N}.
#[global] Arguments m_isHttps {N}.
#[global] Arguments m_conns {N}.
#[global] Arguments m_total {N}.
#[global] Arguments heap {N}.
#[global] Arguments next {N}.

Section operations.
Context {N : Type} `{Net N} `{Alloc} `{Dialer N}.
Context {Zs : Type} `{Codec Zs}.
Context (lexical_cast : list ascii → option Z) (inflateInit : bool → option Zs) (zfuel : nat).
Context (getaddrinfo : list ascii → option (list ascii) → Z → Z → Z → option (list (option (list ascii)))).
Context (fuel : nat) (memory : list ascii) (garbage : Z).

Definition set_conns (v : list nat) (p : pool N) : pool N :=
  Pool (m_host p) (m_vhost p) (m_port p) (m_maxSize p) (m_maxAliveTime p) (m_maxRequest p) (m_isHttps p)
    v (m_total p) (heap p) (next p).
Definition set_total (v : Z) (p : pool N) : pool N :=
  Pool (m_host p) (m_vhost p) (m_port p) (m_maxSize p) (m_maxAliveTime p) (m_maxRequest p) (m_isHttps p)
    (m_conns p) v (heap p) (next p).
Definition set_heap (v : gmap nat (conn N)) (p : pool N) : pool N :=
  Pool (m_host p) (m_vhost p) (m_port p) (m_maxSize p) (m_maxAliveTime p) (m_maxRequest p) (m_isHttps p)
    (m_conns p) (m_total p) v (next p).
Definition set_next (v : nat) (p : pool N) : pool N :=
  Pool (m_host p) (m_vhost p) (m_port p) (m_maxSize p) (m_maxAliveTime p) (m_maxRequest p) (m_isHttps p)
    (m_conns p) (m_total p) (heap p) v.
Definition modify (f : pool N → pool N) : M (pool N) unit := λ p, Ret tt (f p).

Definition new_pool (host vhost : list ascii) (port : Z) (is_https : bool)
    (max_size max_alive_time max_request : Z) : pool N :=
  Pool host vhost (if negb (port =? 0) then port else if is_https then 443 else 80)
    max_size max_alive_time max_request is_https [] 0 ∅ 0.

(** [Create]: a URI that cannot be read is reported and then dereferenced. *)
Definition Create (uri vhost : list ascii) (max_size max_alive_time max_request : Z) : outcome unit (pool N) :=
  match Uri.Create uri with
  | Ret (Some turi) _ =>
      Ret (new_pool (Uri.m_host turi) vhost (wrap 32 (Uri.getPort turi))
        (bool_decide (Uri.m_scheme turi = of_lit "https")) max_size max_alive_time max_request) tt
  | Ret None _ => UB
  | Throw e _ => Throw e tt
  | UB => UB
  end.

Definition deref (i : nat) : M (pool N) (conn N) := λ p,
  match heap p !! i with Some c => Ret c p | None => UB end.
(** A call on the stream of a connection. *)
Definition on_conn {A} (i : nat) (m : M (SocketStream.t N) A) : M (pool N) A := λ p,
  match heap p !! i with
  | None => UB
  | Some c =>
      let back st := set_heap (<[i := Conn (m_createTime c) (m_request c) st]> (heap p)) p in
      match m (stream c) with
      | Ret a st => Ret a (back st)
      | Throw e st => Throw e (back st)
      | UB => UB
      end
  end.
(** [delete ptr]: the stream closes its socket. *)
Definition delete_conn (i : nat) : M (pool N) unit :=
  deref i ;! modify (λ p, set_heap (delete i (heap p)) p).
Fixpoint delete_all (ids : list nat) : M (pool N) unit :=
  match ids with [] => ret tt | i :: ids => delete_conn i ;! delete_all ids end.

Definition expires (c : conn N) (p : pool N) : Z := wrap 64 (m_createTime c + m_maxAliveTime p).

(** The [while] loop: the connection found, and the invalid ones. *)
Fixpoint pick (conns : list nat) (now_ms : Z) (invalid : list nat) : M (pool N) (option nat * list nat) :=
  match conns with
  | [] => ret (None, invalid)
  | i :: conns =>
      modify (set_conns conns) ;!
      let! c := deref i in
      let! p := get in
      if negb (SocketStream.connected (stream c)) then pick conns now_ms (invalid ++ [i])
      else if now_ms <? expires c p then pick conns now_ms (invalid ++ [i])
      else ret (Some i, invalid)
  end.

(** [LookupAnyIPAddress(m_host)] with [setPort]. *)
Definition resolve (p : pool N) : option Address.Address :=
  match Address.LookupAnyIPAddress getaddrinfo (m_host p) Address.AF_INET 0 0 with
  | Some (Address.IPV4Address a) => Some (Address.IPV4Address (Address.setPort4 (m_port p) a))
  | Some (Address.IPV6Address a) => Some (Address.IPV6Address (Address.setPort6 (m_port p) a))
  | o => o
  end.

(** A new connection, when the host can be reached. *)
Definition dial (p : pool N) : option N :=
  addr ← resolve p;
  sock ← d_create (m_isHttps p) addr;
  let '(ok, sock) := d_connect addr sock in
  if ok then Some sock else None.

(** [getConnection] and [ReleasePtr] are each one step, although only their work on
    [m_conns] is done under the mutex: what is stated of them holds between calls. *)
Definition getConnection (now_ms : Z) : M (pool N) (option nat) :=
  let! p := get in
  let! (ptr, invalid) := pick (m_conns p) now_ms [] in
  delete_all invalid ;!
  modify (λ p, set_total (swrap 32 (m_total p - Z.of_nat (length invalid))) p) ;!
  match ptr with
  | Some i => ret (Some i)
  | None =>
      let! p := get in
      match dial p with
      | None => ret None
      | Some sock =>
          let i := next p in
          modify (λ p, set_next (S i) (set_heap (<[i := Conn 0 0 (SocketStream.mk (Some sock) true)]> (heap p)) p)) ;!
          modify (λ p, set_total (swrap 32 (m_total p + 1)) p) ;!
          ret (Some i)
      end
  end.

Definition ReleasePtr (i : nat) (now_ms : Z) : M (pool N) unit :=
  let! c := deref i in
  let c := Conn (m_createTime c) (wrap 64 (m_request c + 1)) (stream c) in
  modify (λ p, set_heap (<[i := c]> (heap p)) p) ;!
  let! p := get in
  if negb (SocketStream.connected (stream c)) || (now_ms <=? expires c p) || (m_maxRequest p <=? m_request c) then
    delete_conn i ;! modify (λ p, set_total (swrap 32 (m_total p - 1)) p)
  else modify (λ p, set_conns (m_conns p ++ [i]) p).

(** [m] with the connection released when its scope is left, normally or not. *)
Definition releasing {A} (i : nat) (now_ms : Z) (m : M (pool N) A) : M (pool N) A := λ p,
  match m p with
  | Ret a p => (ReleasePtr i now_ms ;! ret a) p
  | Throw e p => (ReleasePtr i now_ms ;! throw e) p
  | UB => UB
  end.

(** [doRequest(req, timeout_ms)]; [now_ms] and [then_ms] are the clock when the
    connection is taken and when it is given back. *)
Definition doRequest (req : Http.HttpRequest) (timeout_ms now_ms then_ms : Z) : M (pool N) HttpResult :=
  let! c := getConnection now_ms in
  let! p := get in
  match c with
  | None =>
      ret (make_result POOL_GET_CONNECTION None
        (of_lit "pool host:" ++ m_host p ++ of_lit " port:" ++ Http.show (m_port p)))
  | Some i =>
      releasing i then_ms (
        let! c := deref i in
        match SocketStream.m_socket (stream c) with
        | None =>
            ret (make_result POOL_INVALID_CONNECTION None
              (of_lit "pool host:" ++ m_host p ++ of_lit "port:" ++ Http.show (m_port p)))
        | Some sock =>
            on_conn i (λ st, exchange lexical_cast inflateInit zfuel fuel memory garbage
                (Address.toString (d_remote sock)) req timeout_ms
              (SocketStream.mk (Some (d_setRecvTimeout (swrap 64 timeout_ms) sock)) (SocketStream.m_owner st)))
        end)
  end.

(** The request of [doRequest(method, url, ...)]. *)
Definition pool_request (p : pool N) (method : Http.HttpMethod) (url : list ascii)
    (headers : list (list ascii * list ascii)) (body : list ascii) : Http.HttpRequest :=
  add_headers (Http.setClose false (Http.setMethod method (Http.setPath url (Http.new_HttpRequest 17 true))))
    headers (match m_vhost p with [] => m_host p | v => v end) body.
Definition doRequest_url (method : Http.HttpMethod) (url : list ascii) (timeout_ms now_ms then_ms : Z)
    (headers : list (list ascii * list ascii)) (body : list ascii) : M (pool N) HttpResult :=
  let! p := get in doRequest (pool_request p method url headers body) timeout_ms now_ms then_ms.

(** The target of a URI as text. *)
Definition target (uri : Uri.Uri) : list ascii :=
  Uri.getPath uri ++ (match Uri.m_query uri with [] => [] | _ => of_lit "?" end) ++ Uri.m_query uri
  ++ (match Uri.m_fragment uri with [] => [] | _ => of_lit "#" end) ++ Uri.m_fragment uri.
Definition doRequest_uri (method : Http.HttpMethod) (uri : Uri.Uri) (timeout_ms now_ms then_ms : Z)
    (headers : list (list ascii * list ascii)) (body : list ascii) : M (pool N) HttpResult :=
  doRequest_url method (target uri) timeout_ms now_ms then_ms headers body.
Definition doGet (url : list ascii) (timeout_ms now_ms then_ms : Z)
    (headers : list (list ascii * list ascii)) (body : list ascii) : M (pool N) HttpResult :=
  doRequest_url Http.GET url timeout_ms now_ms then_ms headers body.
Definition doPost (url : list ascii) (timeout_ms now_ms then_ms : Z)
    (headers : list (list ascii * list ascii)) (body : list ascii) : M (pool N) HttpResult :=
  doRequest_url Http.POST url timeout_ms now_ms then_ms headers body.
Definition doGet_uri (uri : Uri.Uri) (timeout_ms now_ms then_ms : Z)
    (headers : list (list ascii * list ascii)) (body : list ascii) : M (pool N) HttpResult :=
  doGet (target uri) timeout_ms now_ms then_ms headers body.
Definition doPost_uri (uri : Uri.Uri) (timeout_ms now_ms then_ms : Z)
    (headers : list (list ascii * list ascii)) (body : list ascii) : M (pool N) HttpResult :=
  doPost (target uri) timeout_ms now_ms then_ms headers body.

End operations.

(** ** The pool's books *)

Section laws.
Context {N : Type} `{Net N} `{Alloc} `{Dialer N}.
Context (getaddrinfo : list ascii → option (list ascii) → Z → Z → Z → option (list (option (list ascii)))).

(** [m_total] is an [int32_t]; every idle pointer is to a connection of its own;
    creation times are never set. *)
Record ok (p : pool N) : Prop := Ok {
  ok_nodup : NoDup (m_conns p);
  ok_conns i : i ∈ m_conns p → is_Some (heap p !! i);
  ok_total : m_total p = swrap 32 (Z.of_nat (size (heap p)));
  ok_next i : is_Some (heap p !! i) → (i < next p)%nat;
  ok_created i c : heap p !! i = Some c → m_createTime c = 0;
  ok_alive : 0 ≤ m_maxAliveTime p < 2 ^ 32;
}.

(** The connections that clients hold. *)
Definition handed (p : pool N) : gset nat := dom (heap p) ∖ list_to_set (m_conns p).

Definition usable (now_ms : Z) (p : pool N) (c : conn N) : bool :=
  SocketStream.connected (stream c) && (expires c p <=? now_ms).

Lemma pick_spec conns now_ms inv p :
  m_conns p = conns → (∀ i, i ∈ conns → is_Some (heap p !! i)) →
  ∃ ptr before rest, pick conns now_ms inv p = Ret (ptr, inv ++ before) (set_conns rest p) ∧
    conns = before ++ (match ptr with Some i => [i] | None => [] end) ++ rest ∧ (ptr = None → rest = []) ∧
    (∀ i, i ∈ before → ∃ c, heap p !! i = Some c ∧ usable now_ms p c = false) ∧
    (∀ i, ptr = Some i → ∃ c, heap p !! i = Some c ∧ usable now_ms p c = true).
Proof.
  revert inv p. induction conns as [|i conns IH]; intros inv p Hp Hc.
  { exists None, [], []. rewrite app_nil_r. split_and!; try done; [by destruct p; cbn in *; subst|].
    by intros i ?%not_elem_of_nil. }
  destruct (Hc i) as [c Hi]; [apply elem_of_cons; by left|].
  cbn [pick]. unfold modify. unfold bind at 1. unfold bind at 1, deref. cbn [heap set_conns]. rewrite Hi.
  rewrite bind_get. change (expires c (set_conns conns p)) with (expires c p).
  destruct (usable now_ms p c) eqn:Hu; unfold usable in Hu.
  - apply andb_true_iff in Hu as [Hu1 Hu2]. rewrite Hu1, (proj2 (Z.ltb_ge _ _)) by lia. cbn [negb].
    exists (Some i), [], conns. rewrite app_nil_r. split_and!; try done; [by intros ? ?%not_elem_of_nil|].
    intros ? [= <-]. exists c. unfold usable. by rewrite Hu1, Hu2.
  - assert ((if negb (SocketStream.connected (stream c)) then pick conns now_ms (inv ++ [i])
      else if now_ms <? expires c p then pick conns now_ms (inv ++ [i]) else ret (Some i, inv)) (set_conns conns p) =
      pick conns now_ms (inv ++ [i]) (set_conns conns p)) as ->.
    { destruct (SocketStream.connected (stream c)); [|done]. cbn [andb negb] in *.
      by rewrite (proj2 (Z.ltb_lt _ _)) by lia. }
    destruct (IH (inv ++ [i]) (set_conns conns p) eq_refl) as (ptr & before & rest & Hr & -> & Hn & Hb & Hs).
    { intros j Hj. apply Hc, elem_of_cons. by right. }
    exists ptr, (i :: before), rest. rewrite <- (assoc_L (++)) in Hr. split; [exact Hr|]. split; [done|].
    split; [done|]. split; [|done]. intros j [-> |Hj]%elem_of_cons; [|by apply Hb]. by exists c.
Qed.

Lemma delete_all_spec ids (p : pool N) :
  NoDup ids → (∀ i, i ∈ ids → is_Some (heap p !! i)) →
  ∃ h', delete_all ids p = Ret tt (set_heap h' p) ∧
    (∀ j, h' !! j = if decide (j ∈ ids) then None else heap p !! j) ∧
    (size h' + length ids = size (heap p))%nat.
Proof.
  revert p. induction ids as [|i ids IH]; intros p Hnd Hin.
  { exists (heap p). split_and!; [by destruct p|done|cbn; lia]. }
  apply NoDup_cons in Hnd as [Hni Hnd]. destruct (Hin i) as [c Hi]; [apply elem_of_cons; by left|].
  cbn [delete_all]. unfold delete_conn. unfold bind at 1. unfold bind at 1, deref at 1. rewrite Hi. unfold modify.
  destruct (IH (set_heap (delete i (heap p)) p) Hnd) as (h' & -> & Hl & Hsz).
  { intros j Hj. cbn. rewrite lookup_delete_ne by congruence. apply Hin, elem_of_cons. by right. }
  exists h'. split; [done|]. cbn [heap set_heap] in *. split.
  - intros j. rewrite Hl. destruct (decide (j ∈ i :: ids)) as [[-> |Hj]%elem_of_cons|Hj].
    + by rewrite decide_False, lookup_delete_eq by done.
    + by rewrite decide_True by done.
    + apply not_elem_of_cons in Hj as [Hne Hj]. by rewrite decide_False, lookup_delete_ne by done.
  - rewrite map_size_delete, Hi in Hsz. cbn [length]. assert (0 < size (heap p))%nat; [|lia].
    apply Nat.neq_0_lt_0. rewrite map_size_ne_0_lookup. by exists i, c.
Qed.

(** Arithmetic on [m_total] is arithmetic on the number of connections. *)
Lemma swrap_add a b : swrap 32 (swrap 32 a + b) = swrap 32 (a + b).
Proof.
  rewrite <- (swrap_wrap 32 (swrap 32 a + b)), <- (swrap_wrap 32 (a + b)) by lia. f_equal. unfold wrap.
  rewrite <- Z.add_mod_idemp_l by lia. change (swrap 32 a mod 2 ^ 32) with (wrap 32 (swrap 32 a)).
  rewrite wrap_swrap by lia. unfold wrap. by rewrite Z.add_mod_idemp_l by lia.
Qed.

Lemma insert_heap_ok i c c' (p : pool N) :
  ok p → heap p !! i = Some c → m_createTime c' = 0 → ok (set_heap (<[i := c']> (heap p)) p).
Proof.
  intros [O1 O2 O3 O4 O5 O6] Hi Hc. split; cbn; try done.
  - intros j Hj. rewrite lookup_insert_is_Some'. auto.
  - by rewrite map_size_insert, Hi.
  - intros j [-> |Hj]%lookup_insert_is_Some'; [apply O4; by eexists|auto].
  - intros j d [[_ <-]|[_ Hj]]%lookup_insert_Some; [done|eauto].
Qed.
Lemma handed_insert i c c' (p : pool N) :
  heap p !! i = Some c → handed (set_heap (<[i := c']> (heap p)) p) = handed p.
Proof.
  intros Hi. unfold handed. cbn. rewrite dom_insert_lookup_L by (by eexists). done.
Qed.

(** After a connection is picked and the invalid ones are gone. *)
Lemma prune_ok before mid rest h' (p : pool N) :
  ok p → m_conns p = before ++ mid ++ rest →
  (∀ j, h' !! j = if decide (j ∈ before) then None else heap p !! j) →
  (size h' + length before = size (heap p))%nat →
  let p1 := set_total (swrap 32 (m_total p - Z.of_nat (length before))) (set_heap h' (set_conns rest p)) in
  ok p1 ∧ handed p1 = handed p ∪ list_to_set mid.
Proof.
  intros [O1 O2 O3 O4 O5 O6] Hm Hh Hsz p1. rewrite Hm in O1. apply NoDup_app in O1 as (Nb & Nd & Nr).
  apply NoDup_app in Nr as (Nm & Nd2 & Nr).
  assert (∀ i, i ∈ mid ++ rest → i ∉ before) as Hout by (intros i Hi Hb; by apply (Nd i)).
  split; [split; cbn; try done|].
  - intros i Hi. rewrite Hh, decide_False by (apply Hout, elem_of_app; by right). apply O2. rewrite Hm, !elem_of_app. auto.
  - rewrite O3, <- Z.add_opp_r, swrap_add. f_equal. lia.
  - intros i. rewrite Hh. case_decide; [by intros []|apply O4].
  - intros i c. rewrite Hh. case_decide; [done|apply O5].
  - unfold handed. cbn. apply set_eq. intros i. rewrite elem_of_union, !elem_of_difference, !elem_of_list_to_set, !elem_of_dom.
    rewrite Hh, Hm, !elem_of_app. destruct (decide (i ∈ before)) as [Hb|Hb].
    + split; [by intros [[? ?] ?]|]. intros [[_ Hn]|Hi]; [by destruct Hn; left|].
      destruct (Nd i Hb). apply elem_of_app. by left.
    + split.
      * intros [Hi Hn]. destruct (decide (i ∈ mid)); [by right|left]. tauto.
      * intros [[Hi Hn]|Hi]; [tauto|]. split; [|by apply Nd2]. apply O2. rewrite Hm, !elem_of_app. auto.
Qed.

Lemma getConnection_spec now_ms p :
  ok p → ∃ r p' before, getConnection getaddrinfo now_ms p = Ret r p' ∧ ok p' ∧
    (∀ i, i ∈ before → ∃ c, heap p !! i = Some c ∧ usable now_ms p c = false) ∧
    match r with
    | Some i =>
        handed p' = handed p ∪ {[i]} ∧ (i ∉ handed p) ∧
        ((m_conns p = before ++ i :: m_conns p' ∧ heap p' !! i = heap p !! i ∧
          ∃ c, heap p !! i = Some c ∧ usable now_ms p c = true) ∨
         (m_conns p = before ∧ m_conns p' = [] ∧ heap p !! i = None ∧
          ∃ sock, dial getaddrinfo p = Some sock ∧ heap p' !! i = Some (Conn 0 0 (SocketStream.mk (Some sock) true))))
    | None => handed p' = handed p ∧ m_conns p = before ∧ m_conns p' = [] ∧ dial getaddrinfo p = None
    end.
Proof.
  intros Hok. pose proof Hok as [O1 O2 O3 O4 O5 O6]. unfold getConnection. rewrite bind_get.
  destruct (pick_spec (m_conns p) now_ms [] p eq_refl O2) as (ptr & before & rest & Hr & Hm & Hn & Hb & Hs).
  rewrite (bind_Ret _ _ _ _ _ Hr). cbn [app].
  assert (NoDup before) as Nb by (rewrite Hm in O1; by apply NoDup_app in O1 as [? _]).
  destruct (delete_all_spec before (set_conns rest p) Nb) as (h' & Hd & Hh & Hsz).
  { intros i Hi. apply O2. rewrite Hm, elem_of_app. by left. }
  rewrite (bind_Ret _ _ _ _ _ Hd). unfold modify. unfold bind at 1. cbn [heap set_conns] in *.
  destruct (prune_ok before (match ptr with Some i => [i] | None => [] end) rest h' p Hok Hm Hh Hsz) as [Hok1 Hh1].
  cbn [m_total set_heap set_conns]. set (p1 := set_total _ _) in *. destruct ptr as [i|].
  - destruct (Hs i eq_refl) as (c & Hi & Hu).
    assert (i ∉ before) as Hib by (intros Hib; destruct (Hb i Hib) as (c' & Hc' & Hu'); congruence).
    exists (Some i), p1, before. split_and!; [done|done|done| | |].
    + rewrite Hh1. cbn. by rewrite union_empty_r_L.
    + unfold handed. rewrite elem_of_difference, elem_of_list_to_set, Hm, !elem_of_app, elem_of_cons. tauto.
    + left. split_and!; [done| |by exists c]. cbn. by rewrite Hh, decide_False.
  - rewrite bind_get. pose proof (Hn eq_refl) as ->. cbn [app] in Hm. rewrite app_nil_r in Hm.
    change (dial getaddrinfo p1) with (dial getaddrinfo p). cbn [list_to_set] in Hh1. rewrite union_empty_r_L in Hh1.
    destruct (dial getaddrinfo p) as [sock|].
    2:{ exists None, p1, before. split_and!; done. }
    assert (heap p1 !! next p = None) as Hnew.
    { apply eq_None_not_Some. intros Hx. pose proof (ok_next _ Hok1 _ Hx) as Hlt. cbn in Hlt. lia. }
    assert (heap p !! next p = None) as Hnew0.
    { apply eq_None_not_Some. intros Hx. apply O4 in Hx. lia. }
    eexists (Some (next p)), _, before. split; [done|]. destruct Hok1 as [Q1 Q2 Q3 Q4 Q5 Q6].
    split; [|split; [done|split; [|split]]].
    + split; cbn [m_conns heap m_total set_total set_next set_heap next m_maxAliveTime]; try done.
      * intros i Hi%Q2. by apply lookup_insert_is_Some'; right.
      * rewrite map_size_insert. change (next p1) with (next p). rewrite Hnew, Q3, swrap_add. f_equal. lia.
      * intros i [-> |Hi]%lookup_insert_is_Some'; [cbn; lia|]. apply Q4 in Hi. cbn in Hi |- *. lia.
      * intros i c [[_ <-]|[_ Hi]]%lookup_insert_Some; [done|eauto].
    + rewrite <- Hh1. unfold handed. cbn. rewrite dom_insert_L. set_solver.
    + rewrite <- Hh1. unfold handed. rewrite elem_of_difference, elem_of_dom, Hnew. by intros [[] _].
    + right. split_and!; [done|done|done|]. exists sock. split; [done|]. cbn. by rewrite lookup_insert_eq.
Qed.

Lemma handed_spec (p : pool N) i : i ∈ handed p ↔ is_Some (heap p !! i) ∧ i ∉ m_conns p.
Proof. unfold handed. by rewrite elem_of_difference, elem_of_dom, elem_of_list_to_set. Qed.

Lemma release_ok i now_ms (p : pool N) :
  ok p → i ∈ handed p →
  ∃ p', ReleasePtr i now_ms p = Ret tt p' ∧ ok p' ∧ handed p' = handed p ∖ {[i]}.
Proof.
  intros Hok [[c Hi] Hni]%handed_spec. unfold ReleasePtr. unfold bind at 1, deref at 1. rewrite Hi.
  unfold modify. unfold bind at 1. set (c' := Conn _ _ _). set (p1 := set_heap (<[i := c']> (heap p)) p).
  assert (ok p1) as Hok1 by (apply (insert_heap_ok i c); [done|done|exact (ok_created _ Hok i c Hi)]).
  assert (handed p1 = handed p) as Hh1 by (by apply (handed_insert i c)).
  assert (heap p1 !! i = Some c') as Hi1 by apply lookup_insert_eq.
  rewrite bind_get. destruct Hok1 as [Q1 Q2 Q3 Q4 Q5 Q6]. destruct (_ || _ || _).
  - unfold delete_conn. unfold bind at 1. unfold bind at 1, deref at 1. rewrite Hi1. unfold modify.
    eexists. split; [done|]. split; [split|]; cbn [heap m_conns m_total set_total set_heap next m_maxAliveTime]; try done.
    + intros j Hj. rewrite lookup_delete_ne by (intros ->; by apply Hni). by apply Q2.
    + rewrite Q3, map_size_delete, Hi1, <- Z.add_opp_r, swrap_add. f_equal.
      assert (size (heap p1) ≠ 0)%nat by (apply map_size_ne_0_lookup; by exists i, c'). lia.
    + intros j Hj. apply Q4. by apply lookup_delete_is_Some in Hj as [_ ?].
    + intros j d [_ Hj]%lookup_delete_Some. eauto.
    + rewrite <- Hh1. unfold handed. cbn. rewrite dom_delete_L. set_solver.
  - eexists. split; [done|]. split; [split|]; cbn [heap m_conns m_total set_conns next m_maxAliveTime]; try done.
    + apply NoDup_app. split_and!; [done| |apply NoDup_singleton]. by intros j Hj ->%list_elem_of_singleton.
    + intros j [Hj| ->%list_elem_of_singleton]%elem_of_app; [by apply Q2|by eexists].
    + rewrite <- Hh1. unfold handed. cbn. rewrite list_to_set_app_L. cbn. set_solver.
Qed.

Lemma on_conn_ok {A} i (m : M (SocketStream.t N) A) (p : pool N) :
  ok p → match on_conn i m p with Ret _ p' | Throw _ p' => ok p' ∧ handed p' = handed p | UB => True end.
Proof.
  intros Hok. unfold on_conn. destruct (heap p !! i) as [c|] eqn:Hi; [|done].
  pose proof (ok_created _ Hok i c Hi) as Hc.
  destruct (m (stream c)); [| |done]; (split; [by apply (insert_heap_ok i c)|by apply (handed_insert i c)]).
Qed.

(** *** Any use of a pool *)

Inductive step : pool N → pool N → Prop :=
| Step_get p now_ms r p' : getConnection getaddrinfo now_ms p = Ret r p' → step p p'
| Step_release p i now_ms p' : i ∈ handed p → ReleasePtr i now_ms p = Ret tt p' → step p p'
| Step_use p i A (m : M (SocketStream.t N) A) a p' : i ∈ handed p → on_conn i m p = Ret a p' → step p p'
| Step_throw p i A (m : M (SocketStream.t N) A) e p' : i ∈ handed p → on_conn i m p = Throw e p' → step p p'
| Step_peer p i c st : heap p !! i = Some c →
    step p (set_heap (<[i := Conn (m_createTime c) (m_request c) st]> (heap p)) p).

Lemma pool_step_ok p p' : ok p → step p p' → ok p'.
Proof.
  intros Hok Hs. destruct Hs as [p now_ms r p' Hr|p i now_ms p' Hi Hr|p i A m a p' Hi Hr|p i A m e p' Hi Hr|p i c st Hi].
  - destruct (getConnection_spec now_ms p Hok) as (r1 & p1 & b & Hr1 & Hok1 & _). congruence.
  - destruct (release_ok i now_ms p Hok Hi) as (p1 & Hr1 & Hok1 & _). congruence.
  - pose proof (on_conn_ok i m p Hok) as Hw. rewrite Hr in Hw. apply Hw.
  - pose proof (on_conn_ok i m p Hok) as Hw. rewrite Hr in Hw. apply Hw.
  - apply (insert_heap_ok i c); [done|done|by apply (ok_created _ Hok i c)].
Qed.

Lemma new_pool_ok host vhost port https ms ma mr :
  0 ≤ ma < 2 ^ 32 → ok (new_pool host vhost port https ms ma mr).
Proof.
  intros Hma. split; cbn; try done; [constructor|by intros i ?%not_elem_of_nil|by intros i []].
Qed.

(** [releasing] gives back exactly what it was given. *)
Lemma releasing_ok {A} i now_ms (m : M (pool N) A) (p : pool N) :
  i ∈ handed p → (match m p with Ret _ p' | Throw _ p' => ok p' ∧ handed p' = handed p | UB => True end) →
  match releasing i now_ms m p with
  | Ret _ p' | Throw _ p' => ok p' ∧ handed p' = handed p ∖ {[i]}
  | UB => True
  end.
Proof.
  intros Hi Hm. unfold releasing. destruct (m p) as [a p1|e p1|]; [| |done]; destruct Hm as [Hok1 Hh1];
    (destruct (release_ok i now_ms p1 Hok1) as (p2 & Hr & Hok2 & Hh2); [by rewrite Hh1|]);
    unfold bind; rewrite Hr; cbn; by rewrite Hh2, Hh1.
Qed.

End laws.

(** C15. The pool keeps its books.  However connections are taken, used, lost and
    given back, the idle list holds each connection once and only ones that exist,
    and the counter is the number of connections that exist, idle or in use. *)
Theorem pool_accounting {N} `{Net N} `{Alloc} `{Dialer N} getaddrinfo host vhost port https max_size max_alive max_request
    (p : pool N) :
  0 ≤ max_alive < 2 ^ 32 →
  rtc (step getaddrinfo) (new_pool host vhost port https max_size max_alive max_request) p →
  NoDup (m_conns p) ∧ (∀ i, i ∈ m_conns p → is_Some (heap p !! i)) ∧
  m_total p = swrap 32 (Z.of_nat (size (heap p))).
Proof.
  intros Hma Hr.
  assert (ok p) as [O1 O2 O3 _ _ _].
  { pose proof (new_pool_ok (N:=N) host vhost port https max_size max_alive max_request Hma) as Hok. revert Hok.
    induction Hr as [|p1 p2 p3 Hs _ IH]; [done|]. intros Hok. by apply IH, (pool_step_ok getaddrinfo p1). }
  by split_and!.
Qed.

(** Taking a connection.  [getConnection] always returns.  It gives the first
    idle connection that is still connected, after closing those before it that are
    not; when there is none it dials, and returns null only when that fails.  The
    connection it gives is in nobody else's hands.  Whatever alive time the pool was
    given plays no part: the creation time it is added to is never set, so no
    connection is ever too old. *)
Theorem getConnection_correct {N} `{Net N} `{Alloc} `{Dialer N} getaddrinfo now_ms (p : pool N) :
  ok p → 2 ^ 32 ≤ now_ms →
  ∃ r p' before, getConnection getaddrinfo now_ms p = Ret r p' ∧ ok p' ∧
    (∀ i, i ∈ before → ∃ c, heap p !! i = Some c ∧ SocketStream.connected (stream c) = false) ∧
    match r with
    | Some i =>
        handed p' = handed p ∪ {[i]} ∧ (i ∉ handed p) ∧
        ((m_conns p = before ++ i :: m_conns p' ∧
          ∃ c, heap p' !! i = Some c ∧ SocketStream.connected (stream c) = true) ∨
         (m_conns p = before ∧ m_conns p' = [] ∧
          ∃ sock, dial getaddrinfo p = Some sock ∧
            heap p' !! i = Some (Conn 0 0 (SocketStream.mk (Some sock) true))))
    | None => handed p' = handed p ∧ m_conns p = before ∧ m_conns p' = [] ∧ dial getaddrinfo p = None
    end.
Proof.
  intros Hok Hnow.
  destruct (getConnection_spec getaddrinfo now_ms p Hok) as (r & p' & before & Hr & Hok' & Hb & Hres).
  assert (∀ i c, heap p !! i = Some c → usable now_ms p c = SocketStream.connected (stream c)) as Hu.
  { intros i c Hi. unfold usable, expires. rewrite (ok_created _ Hok i c Hi). pose proof (ok_alive _ Hok).
    rewrite wrap_small by (unfold in_u; lia). rewrite (proj2 (Z.leb_le _ _)) by lia. apply andb_true_r. }
  exists r, p', before. split_and!; [done|done| |].
  - intros i Hi. destruct (Hb i Hi) as (c & Hc & Huc). exists c. split; [done|]. by rewrite <- (Hu i c Hc).
  - destruct r as [i|]; [|done]. destruct Hres as (H1' & H2' & Hor). split_and!; [done|done|].
    destruct Hor as [(Hm & Hi & c & Hc & Huc)|(Hm & Hm' & _ & Hs)]; [left|by right].
    split; [done|]. exists c. rewrite Hi. split; [done|]. by rewrite <- (Hu i c Hc).
Qed.

(** No request keeps a connection.  Whatever becomes of a request - an answer,
    a failure to send, a timeout, an exception - [doRequest] has given back or
    deleted the connection it took, and no other one: the clients hold the same
    connections before and after. *)
Theorem doRequest_returns_connection {N} `{Net N} `{Alloc} `{Dialer N} {Zs} `{Codec Zs} lexical_cast inflateInit zfuel
    getaddrinfo fuel memory garbage req timeout_ms now_ms then_ms (p : pool N) :
  ok p →
  match doRequest lexical_cast inflateInit zfuel getaddrinfo fuel memory garbage req timeout_ms now_ms then_ms p with
  | Ret _ p' | Throw _ p' => ok p' ∧ handed p' = handed p
  | UB => True
  end.
Proof.
  intros Hok. unfold doRequest.
  destruct (getConnection_spec getaddrinfo now_ms p Hok) as (r & p1 & before & Hr & Hok1 & _ & Hres).
  rewrite (bind_Ret _ _ _ _ _ Hr), bind_get. destruct r as [i|]; [|by destruct Hres].
  destruct Hres as (Hh1 & Hni & _). set (m := let! c := deref i in _).
  assert (match m p1 with Ret _ p' | Throw _ p' => ok p' ∧ handed p' = handed p1 | UB => True end) as Hm.
  { unfold m. unfold bind, deref. destruct (heap p1 !! i) as [c|]; [|done].
    destruct (SocketStream.m_socket (stream c)); [|done]. by apply on_conn_ok. }
  pose proof (releasing_ok i then_ms m p1 ltac:(rewrite Hh1; set_solver) Hm) as Hrel.
  assert (handed p1 ∖ {[i]} = handed p) as <- by (rewrite Hh1; set_solver). done.
Qed.

(** *** A pool over the sockets of Sockets.v *)

Definition sim_host (_ : list ascii) (_ : option (list ascii)) (_ _ _ : Z) : option (list (option (list ascii))) :=
  Some [Some Sockets.sim_name].
#[local] Instance sim_dialer : Dialer (Sockets.t * Sockets.sim) := {
  d_create ssl a := Some (if ssl then Sockets.SSL_CreateTCP a else Sockets.CreateTCP a, Sockets.boot);
  d_connect a n := match Sockets.connect a Sockets.max_timeout n with
                   | Ret b n => (b, n) | Throw _ n => (false, n) | UB => (false, n) end;
  d_setRecvTimeout v n := match Sockets.setRecvTimeout v n with Ret _ n => n | _ => n end;
  d_remote n := default (Address.UnknownAddress (Address.new_Unknown 0)) (Sockets.m_remoteAddress n.1);
  d_errno _ := 0;
  d_strerror _ := of_lit "Success";
}.
#[local] Existing Instance ByteArray.zeroed.

Definition demo_pool : pool (Sockets.t * Sockets.sim) := new_pool (of_lit "localhost") [] 8080 false 10 30000 5.
Definition demo_taken : pool (Sockets.t * Sockets.sim) :=
  match getConnection sim_host (2 ^ 40) demo_pool with Ret _ p => p | _ => demo_pool end.
Definition demo_back : pool (Sockets.t * Sockets.sim) :=
  match ReleasePtr 0 (2 ^ 40 + 5) demo_taken with Ret _ p => p | _ => demo_taken end.

Lemma demo_back_ok : ok demo_back.
Proof.
  assert (ok demo_pool) as H0 by (apply new_pool_ok; lia).
  destruct (getConnection_spec sim_host (2 ^ 40) demo_pool H0) as (r & p & b & Hr & H1 & _).
  assert (demo_taken = p) as E by (unfold demo_taken; by rewrite Hr). rewrite <- E in H1.
  destruct (release_ok 0 (2 ^ 40 + 5) demo_taken H1) as (p2 & Hr2 & H2 & _).
  { apply (bool_decide_eq_true (0%nat ∈ handed demo_taken)). by vm_compute. }
  unfold demo_back. by rewrite Hr2.
Qed.

Lemma pool_accounting_witness :
  m_conns demo_back = [0%nat] ∧ m_total demo_back = 1 ∧
  NoDup (m_conns demo_back) ∧ (∀ i, i ∈ m_conns demo_back → is_Some (heap demo_back !! i)) ∧
  m_total demo_back = swrap 32 (Z.of_nat (size (heap demo_back))).
Proof.
  split; [by vm_compute|]. split; [by vm_compute|].
  apply (pool_accounting sim_host (of_lit "localhost") [] 8080 false 10 30000 5); [lia|].
  apply (rtc_l _ _ demo_taken).
  - apply (Step_get sim_host demo_pool (2 ^ 40) (Some 0%nat)). by vm_compute.
  - apply rtc_once. apply (Step_release sim_host demo_taken 0%nat (2 ^ 40 + 5)); [|by vm_compute].
    apply (bool_decide_eq_true (0%nat ∈ handed demo_taken)). by vm_compute.
Defined.

Lemma getConnection_correct_witness :
  ∃ r p' before, getConnection sim_host (2 ^ 40 + 9) demo_back = Ret r p' ∧ ok p' ∧
    (∀ i, i ∈ before → ∃ c, heap demo_back !! i = Some c ∧ SocketStream.connected (stream c) = false) ∧
    match r with
    | Some i =>
        handed p' = handed demo_back ∪ {[i]} ∧ (i ∉ handed demo_back) ∧
        ((m_conns demo_back = before ++ i :: m_conns p' ∧
          ∃ c, heap p' !! i = Some c ∧ SocketStream.connected (stream c) = true) ∨
         (m_conns demo_back = before ∧ m_conns p' = [] ∧
          ∃ sock, dial sim_host demo_back = Some sock ∧
            heap p' !! i = Some (Conn 0 0 (SocketStream.mk (Some sock) true))))
    | None => handed p' = handed demo_back ∧ m_conns demo_back = before ∧ m_conns p' = [] ∧ dial sim_host demo_back = None
    end.
Proof. apply (getConnection_correct sim_host (2 ^ 40 + 9) demo_back); [apply demo_back_ok|lia]. Defined.

Lemma doRequest_returns_connection_witness :
  match doRequest HttpSession.one_digit HttpConnection.no_zlib 1 sim_host 3 (replicate 65 Ascii.zero) 0
      (pool_request demo_back Http.GET (of_lit "/") [] []) 100 (2 ^ 40 + 9) (2 ^ 40 + 9) demo_back with
  | Ret _ p' | Throw _ p' => ok p' ∧ handed p' = handed demo_back
  | UB => True
  end.
Proof.
  apply (doRequest_returns_connection HttpSession.one_digit HttpConnection.no_zlib 1 sim_host 3 (replicate 65 Ascii.zero) 0),
    demo_back_ok.
Defined.

End HttpConnectionPool.
