(* ===== verification/Logformat.v ===== *)
(** * Logformat: levels, events and the pattern formatter (src/bobliew/log.{h,cc})

    [LogLevel] and [LogEvent] are the data of a record; [LogFormatter] turns a
    pattern into a list of [FormatItem]s and prints records with it.  The time
    functions of the C library are the class [Libc].

    [LogFormatter_correct] says which patterns the formatter takes and what it
    prints for them: [pattern] is the grammar of the patterns accepted. *)
From stdpp Require Import pretty.
From S2P Require Import Prelude Util Cstring Http.
Import StdString.
#[local] Open Scope list_scope.
#[local] Open Scope Z_scope.

(** ** Levels *)
Module LogLevel.

Inductive Level := UNKNOW | DEBUG | INFO | WARN | ERROR | FATAL.

#[export] Instance Level_eq_dec : EqDecision Level.
Proof. solve_decision. Defined.

(** The value of the enumerator: levels are compared as integers. *)
Definition code (l : Level) : Z :=
  match l with
  | UNKNOW => 0 | DEBUG => 1 | INFO => 2 | WARN => 3 | ERROR => 4 | FATAL => 5
  end.

Definition ToString (level : Level) : list ascii :=
  of_lit match level with
  | DEBUG => "DEBUG"
  | INFO => "INFO"
  | WARN => "WARN"
  | ERROR => "ERROR"
  | FATAL => "FATAL"
  | UNKNOW => "UNKNOW"
  end.

(** The comparisons of [FromString], in their order. *)
Definition names : list (string * Level) :=
  [("debug", DEBUG); ("info", INFO); ("warn", WARN); ("error", ERROR); ("fatal", FATAL);
   ("DEBUG", DEBUG); ("INFO", INFO); ("WARN", WARN); ("ERROR", ERROR); ("FATAL", FATAL)]%string.

Definition FromString (str : list ascii) : Level :=
  match List.find (λ e, bool_decide (str = of_lit e.1)) names with
  | Some e => e.2
  | None => UNKNOW
  end.

Lemma FromString_ToString l : FromString (ToString l) = l.
Proof. by destruct l; vm_compute. Qed.

End LogLevel.

(** ** Events *)
Module LogEvent.

Record t := Event {
  m_file : list ascii;
  m_line : Z;
  m_elapse : Z;
  m_threadId : Z;
  m_fiberId : Z;
  m_time : Z;
  m_threadName : list ascii;
  m_ss : list ascii;
  m_logger : nat;
  m_level : LogLevel.Level;
}.

(** The constructor; the text comes later, through [getSS]. *)
Definition new (logger : nat) (level : LogLevel.Level) (file : list ascii) (line elapse thread_id fiber_id time : Z)
    (thread_name : list ascii) : t :=
  Event file line elapse thread_id fiber_id time thread_name [] logger level.

Definition getContent (e : t) : list ascii := m_ss e.

(** [getSS() << text] *)
Definition stream_in (text : list ascii) (e : t) : t :=
  Event (m_file e) (m_line e) (m_elapse e) (m_threadId e) (m_fiberId e) (m_time e) (m_threadName e)
    (m_ss e ++ text) (m_logger e) (m_level e).

End LogEvent.

(** ** The time functions of the C library and the printing of pointers

    [localtime_r] fails ([None]) when the year does not fit; [strftime] gives
    [None] when the text and its zero do not fit into the buffer, whose contents
    are then unspecified. *)
Class Libc := {
  tm : Type;
  localtime_r : Z → option tm;
  strftime : Z → list ascii → tm → option (list ascii);
  show_pointer : nat → list ascii;
}.

Class LibcLaws `{Libc} := {
  strftime_fits max fmt t s : strftime max fmt t = Some s → Z.of_nat (length s) < max;
}.

Module LogFormatter.
Import LogLevel.

(** ** Format items *)

Inductive FormatItem :=
| MessageFormatItem
| LevelFormatItem
| ElapseFormatItem
| NameFormatItem
| ThreadIdFormatItem
| FiberIdFormatItem
| ThreadNameFormatItem
| DateTimeFormatItem (m_format : list ascii)
| FilenameFormatItem
| LineFormatItem
| NewLineFormatItem
| StringFormatItem (m_string : list ascii)
| TabFormatItem.

Definition default_time : list ascii := of_lit "%Y-%m-%d %H:%M:%S".

(** The constructor of [DateTimeFormatItem]. *)
Definition newDateTimeFormatItem (format : list ascii) : FormatItem :=
  DateTimeFormatItem (if bool_decide (format = []) then default_time else format).

(** [os << n] for an integer *)
Definition show_int (n : Z) : list ascii := of_lit (pretty n).

Section items.
Context `{Libc}.

(** What an item writes; [None] where it reads an unspecified buffer. *)
Definition item_format (level : Level) (event : LogEvent.t) (i : FormatItem) : option (list ascii) :=
  match i with
  | MessageFormatItem => Some (LogEvent.getContent event)
  | LevelFormatItem => Some (ToString level)
  | ElapseFormatItem => Some (show_int (LogEvent.m_elapse event))
  | NameFormatItem => Some (show_pointer (LogEvent.m_logger event))
  | ThreadIdFormatItem => Some (show_int (LogEvent.m_threadId event))
  | FiberIdFormatItem => Some (show_int (LogEvent.m_fiberId event))
  | ThreadNameFormatItem => Some (LogEvent.m_threadName event)
  | DateTimeFormatItem m_format =>
      tm ← localtime_r (swrap 64 (LogEvent.m_time event));
      strftime 64 (Http.c_str m_format) tm
  | FilenameFormatItem => Some (LogEvent.m_file event)
  | LineFormatItem => Some (show_int (LogEvent.m_line event))
  | NewLineFormatItem => Some ["010"%char]
  | StringFormatItem m_string => Some m_string
  | TabFormatItem => Some ["009"%char]
  end.

End items.

(** ** The formatter and its pattern *)

Record t := Formatter {
  m_pattern : list ascii;
  m_items : list FormatItem;
  m_error : bool;
}.

(** [isalpha] in the C locale *)
Definition isalpha (c : ascii) : bool := CharClass.alpha c.

(** The variables the inner loop of [init] leaves. *)
Record scanned := Scanned {
  sc_n : nat;
  sc_status : Z;
  sc_str : list ascii;
  sc_fmt : list ascii;
}.

Definition sub (p : list ascii) (pos n : nat) : option (list ascii) :=
  substr p (Z.of_nat pos) (Z.of_nat n).

(** The loop [while(n < m_pattern.size())] of [init]; [None]: [substr] threw. *)
Fixpoint scan (fuel : nat) (p : list ascii) (i n : nat) (fmt_status : Z) (fmt_begin : nat)
    (str fmt : list ascii) : option scanned :=
  match fuel with
  | O => None
  | S fuel =>
      match p !! n with
      | None => Some (Scanned n fmt_status str fmt)
      | Some c =>
          if (fmt_status =? 0) && (negb (isalpha c) && negb (Ascii.eqb c "{") && negb (Ascii.eqb c "}"))
          then str ← sub p (i + 1) (n - i - 1); Some (Scanned n fmt_status str fmt)
          else if (fmt_status =? 0) && Ascii.eqb c "{"
          then str ← sub p (i + 1) (n - i - 1); scan fuel p i (S n) 1 n str fmt
          else if (fmt_status =? 1) && Ascii.eqb c "}"
          then fmt ← sub p (fmt_begin + 1) (n - fmt_begin - 1); Some (Scanned (S n) 0 str fmt)
          else
            str ← (if (S n =? length p)%nat && bool_decide (str = [])
                   then substr p (Z.of_nat (i + 1)) npos
                   else Some str);
            scan fuel p i (S n) fmt_status fmt_begin str fmt
      end
  end.

(** An entry of the vector [vec]: string, format, type. *)
Definition entry : Type := list ascii * list ascii * Z.

Definition flush (nstr : list ascii) : list entry :=
  if bool_decide (nstr = []) then [] else [(nstr, [], 0)].

Definition pattern_error : list ascii := of_lit "<<pattern_error>>".

(** The outer loop of [init]: the vector, the error flag and what is printed. *)
Fixpoint split_loop (fuel : nat) (p : list ascii) (i : nat) (nstr : list ascii) (vec : list entry)
    (error : bool) (cout : list ascii) : option (list entry * bool * list ascii) :=
  match fuel with
  | O => None
  | S fuel =>
      match p !! i with
      | None => Some (vec ++ flush nstr, error, cout)
      | Some c =>
          if negb (Ascii.eqb c "%") then split_loop fuel p (S i) (nstr ++ [c]) vec error cout
          else if bool_decide (p !! S i = Some "%"%char)
          then split_loop fuel p (S i) (nstr ++ ["%"%char]) vec error cout
          else
            r ← scan (S (length p)) p i (i + 1) 0 0 [] [];
            if sc_status r =? 0 then
              split_loop fuel p (sc_n r) [] (vec ++ flush nstr ++ [(sc_str r, sc_fmt r, 1)]) error cout
            else
              rest ← substr p (Z.of_nat i) npos;
              split_loop fuel p (S i) nstr (vec ++ [(pattern_error, sc_fmt r, 0)]) true
                (cout ++ of_lit "pattern parse error: " ++ p ++ of_lit " - " ++ rest ++ ["010"%char])
      end
  end.

(** The table [s_format_items]. *)
Definition s_format_items : list (list ascii * (list ascii → FormatItem)) :=
  [(of_lit "m", λ _, MessageFormatItem);
   (of_lit "p", λ _, LevelFormatItem);
   (of_lit "r", λ _, ElapseFormatItem);
   (of_lit "c", λ _, NameFormatItem);
   (of_lit "t", λ _, ThreadIdFormatItem);
   (of_lit "n", λ _, NewLineFormatItem);
   (of_lit "d", newDateTimeFormatItem);
   (of_lit "f", λ _, FilenameFormatItem);
   (of_lit "l", λ _, LineFormatItem);
   (of_lit "T", λ _, TabFormatItem);
   (of_lit "F", λ _, FiberIdFormatItem);
   (of_lit "N", λ _, ThreadNameFormatItem)].

Definition find_item (name : list ascii) : option (list ascii → FormatItem) :=
  snd <$> List.find (λ e, bool_decide (e.1 = name)) s_format_items.

Definition error_format (name : list ascii) : list ascii :=
  of_lit "<<error_format %" ++ name ++ of_lit ">>".

(** The item of an entry and whether it is in error. *)
Definition make_item (e : entry) : FormatItem * bool :=
  let '(str, fmt, type) := e in
  if type =? 0 then (StringFormatItem str, false)
  else match find_item str with
       | None => (StringFormatItem (error_format str), true)
       | Some make => (make fmt, false)
       end.

(** [init]: the items, the error flag and what is printed. *)
Definition init (m_pattern : list ascii) (m_error : bool) : option (list FormatItem * bool * list ascii) :=
  '(vec, error, cout) ← split_loop (S (length m_pattern)) m_pattern 0 [] [] m_error [];
  let made := make_item <$> vec in
  Some (made.*1, error || existsb snd made, cout).

(** The constructor, with what it prints. *)
Definition new (pattern : list ascii) : option (t * list ascii) :=
  '(items, error, cout) ← init pattern false;
  Some (Formatter pattern items error, cout).

Definition isError (f : t) : bool := m_error f.
Definition getPattern (f : t) : list ascii := m_pattern f.

Section format.
Context `{Libc}.

(** [format] to a stream, whose insertion is [write]. *)
Fixpoint format_to {S} (write : list ascii → S → S) (level : Level) (event : LogEvent.t)
    (items : list FormatItem) (os : S) : option S :=
  match items with
  | [] => Some os
  | i :: items =>
      text ← item_format level event i;
      format_to write level event items (write text os)
  end.

Definition format (f : t) (level : Level) (event : LogEvent.t) : option (list ascii) :=
  format_to (λ text ss, ss ++ text) level event (m_items f) [].

Definition format_os {S} (write : list ascii → S → S) (f : t) (level : Level) (event : LogEvent.t) (os : S)
    : option S :=
  format_to write level event (m_items f) os.

End format.

(** ** The patterns accepted

    A pattern is a sequence of plain bytes and items.  A percent sign is plain
    only when another one follows, and that one is not consumed. *)

Inductive token :=
| TChar (c : ascii)
| TItem (i : FormatItem).

(** A byte that the name of an item can go on with. *)
Definition name_char (c : ascii) : bool := isalpha c || Ascii.eqb c "}".

Definition ends_name (s : list ascii) : bool :=
  match s with
  | [] => true
  | c :: _ => negb (name_char c) && negb (Ascii.eqb c "{")
  end.

Inductive pattern : list ascii → list token → Prop :=
| pattern_nil : pattern [] []
| pattern_char c s ts : c ≠ "%"%char → pattern s ts → pattern (c :: s) (TChar c :: ts)
| pattern_percent s ts :
    pattern ("%"%char :: s) ts → pattern ("%"%char :: "%"%char :: s) (TChar "%" :: ts)
| pattern_item name make s ts :
    find_item name = Some make → ends_name s = true → pattern s ts →
    pattern ("%"%char :: name ++ s) (TItem (make []) :: ts)
| pattern_item_fmt name make f s ts :
    find_item name = Some make → "}"%char ∉ f → pattern s ts →
    pattern ("%"%char :: name ++ "{"%char :: f ++ "}"%char :: s) (TItem (make f) :: ts).

Section tokens.
Context `{Libc}.

Definition token_text (level : Level) (event : LogEvent.t) (t : token) : option (list ascii) :=
  match t with
  | TChar c => Some [c]
  | TItem i => item_format level event i
  end.

(** The text of a record: that of its tokens, one after the other. *)
Definition tokens_text (level : Level) (event : LogEvent.t) (ts : list token) : option (list ascii) :=
  mjoin <$> mapM (token_text level event) ts.

Definition items_text (level : Level) (event : LogEvent.t) (items : list FormatItem) : option (list ascii) :=
  mjoin <$> mapM (item_format level event) items.

End tokens.

(** *** The scanner on the text that follows a percent sign *)

Lemma name_char_not_brace c : name_char c = true → Ascii.eqb c "{" = false.
Proof. intros Hc. destruct (Ascii.eqb_spec c "{"); [by subst c|done]. Qed.

Lemma name_char_goes_on c :
  name_char c = true → negb (isalpha c) && negb (Ascii.eqb c "{") && negb (Ascii.eqb c "}") = false.
Proof. unfold name_char. by destruct (isalpha c), (Ascii.eqb c "{"), (Ascii.eqb c "}"). Qed.

Lemma ends_name_stops c s :
  ends_name (c :: s) = true → negb (isalpha c) && negb (Ascii.eqb c "{") && negb (Ascii.eqb c "}") = true.
Proof. unfold ends_name, name_char. by destruct (isalpha c), (Ascii.eqb c "{"), (Ascii.eqb c "}"). Qed.

Lemma sub_middle (pre mid post : list ascii) pos n :
  length pre = pos → length mid = n → sub (pre ++ mid ++ post) pos n = Some mid.
Proof. intros <- <-. by apply substr_app. Qed.

Section scan.
Context (pre : list ascii).

Lemma scan_name fuel m1 m2 after :
  let p := pre ++ "%"%char :: m1 ++ m2 ++ after in
  fits p → Forall (λ c, name_char c = true) m2 →
  scan (length m2 + fuel) p (length pre) (length pre + 1 + length m1) 0 0
    (if bool_decide (m2 ++ after = []) then m1 else []) [] =
  scan fuel p (length pre) (length pre + 1 + length m1 + length m2) 0 0
    (if bool_decide (after = []) then m1 ++ m2 else []) [].
Proof.
  revert m1. induction m2 as [|c m2 IH]; intros m1 p Hf Hm.
  { cbn [app length]. by rewrite app_nil_r, Nat.add_0_l, Nat.add_0_r. }
  apply Forall_cons in Hm as [Hc Hm]. cbn [length Nat.add].
  assert (p = pre ++ "%"%char :: (m1 ++ [c]) ++ m2 ++ after) as Hp by (unfold p; by rewrite <- (assoc_L (++) m1)).
  specialize (IH (m1 ++ [c])). cbv zeta in IH. rewrite <- Hp in IH. specialize (IH Hf Hm).
  rewrite bool_decide_eq_false_2 by done. cbn [scan].
  assert (p !! (length pre + 1 + length m1)%nat = Some c) as ->.
  { unfold p. replace (length pre + 1 + length m1)%nat with (length pre + S (length m1))%nat by lia.
    rewrite lookup_app_r by lia. replace (_ - _)%nat with (S (length m1)) by lia. cbn.
    by apply list_lookup_middle. }
  rewrite (name_char_goes_on c Hc), (name_char_not_brace c Hc), !Z.eqb_refl, !andb_false_r. cbn [andb Z.eqb].
  assert (length p = S (length pre + 1 + length m1) + length (m2 ++ after))%nat as Hl.
  { unfold p. rewrite length_app. cbn [length app]. rewrite length_app. cbn [length]. lia. }
  assert ((S (length pre + 1 + length m1) =? length p)%nat = bool_decide (m2 ++ after = [])) as ->.
  { destruct (m2 ++ after) as [|x l]; cbn [length] in Hl.
    - rewrite bool_decide_eq_true_2 by done. rewrite Hl. apply Nat.eqb_eq. lia.
    - rewrite bool_decide_eq_false_2 by done. rewrite Hl. apply Nat.eqb_neq. lia. }
  rewrite (bool_decide_eq_true_2 (@nil ascii = [])) by done. rewrite andb_true_r.
  assert ((if bool_decide (m2 ++ after = []) then substr p (Z.of_nat (length pre + 1)) npos else Some [])
    = Some (if bool_decide (m2 ++ after = []) then m1 ++ [c] else [])) as Hs.
  { case_bool_decide as He; [|done]. rewrite Hp, He, app_nil_r.
    replace (pre ++ "%"%char :: m1 ++ [c]) with ((pre ++ ["%"%char]) ++ m1 ++ [c]) by by rewrite <- app_assoc.
    apply substr_rest; [by rewrite length_app|].
    pose proof (fits_npos p Hf) as Hn. rewrite Hp, He, app_nil_r, !length_app in Hn. cbn in Hn. rewrite !length_app in *. cbn in *. lia. }
  rewrite Hs. cbn [mbind option_bind]. rewrite !length_app in IH. cbn [length] in IH.
  replace (S (length pre + 1 + length m1)) with (length pre + 1 + (length m1 + 1))%nat by lia.
  rewrite IH. rewrite <- (assoc_L (++)). cbn [app]. f_equal; lia.
Qed.

End scan.

(** Inside the braces everything but a closing one is passed over. *)
Lemma scan_fmt fuel p0 f after i b str :
  fits (p0 ++ f ++ after) → "}"%char ∉ f → (i + 1 ≤ length p0)%nat →
  ∃ str', (after ≠ [] → str' = str) ∧
    scan (length f + fuel) (p0 ++ f ++ after) i (length p0) 1 b str [] =
    scan fuel (p0 ++ f ++ after) i (length p0 + length f) 1 b str' [].
Proof.
  revert p0 str. induction f as [|c f IH]; intros p0 str Hf Hb Hi.
  { exists str. cbn [length]. by rewrite Nat.add_0_r. }
  apply not_elem_of_cons in Hb as [Hc Hb]. cbn [length Nat.add scan].
  assert ((p0 ++ (c :: f) ++ after) !! length p0 = Some c) as -> by by apply list_lookup_middle. rewrite (proj2 (Ascii.eqb_neq c "}")) by done. cbn [andb Z.eqb].
  replace (p0 ++ (c :: f) ++ after) with ((p0 ++ [c]) ++ f ++ after) in * by by rewrite <- (assoc_L (++)).
  assert (∃ str1, (after ≠ [] → str1 = str) ∧
    (if (S (length p0) =? length ((p0 ++ [c]) ++ f ++ after))%nat && bool_decide (str = [])
     then substr ((p0 ++ [c]) ++ f ++ after) (Z.of_nat (i + 1)) npos else Some str) = Some str1) as (str1 & H1 & ->).
  { case_match eqn:He; [|by exists str]. apply andb_prop in He as [He _]. apply Nat.eqb_eq in He.
    rewrite !length_app in He. cbn in He. unfold substr.
    rewrite (proj2 (Z.ltb_ge _ _)) by (rewrite !length_app; cbn; lia).
    eexists. split; [|done]. destruct after; [done|]. cbn in He. lia. }
  cbn [mbind option_bind]. destruct (IH (p0 ++ [c]) str1) as (str' & Hs & Hr); [done|done|rewrite length_app; cbn; lia|].
  exists str'. split; [intros Ha; by rewrite Hs, H1|]. rewrite length_app in Hr. cbn [length] in Hr.
  replace (S (length p0)) with (length p0 + 1)%nat by lia. rewrite Hr. f_equal. lia.
Qed.

(** What the inner loop finds: the name, and the format in braces if there is one. *)
Lemma scan_plain pre name after :
  let p := pre ++ "%"%char :: name ++ after in
  fits p → Forall (λ c, name_char c = true) name → ends_name after = true →
  scan (S (length p)) p (length pre) (length pre + 1) 0 0 [] [] =
    Some (Scanned (length pre + 1 + length name) 0 name []).
Proof.
  intros p Hf Hn Ha. pose proof (scan_name pre (S (length p) - length name) [] name after Hf Hn) as Hs.
  cbn [app length] in Hs. fold p in Hs.
  assert (length p = length pre + S (length name + length after))%nat as Hl
    by (unfold p; rewrite length_app; cbn [length]; by rewrite length_app).
  replace (length name + (S (length p) - length name))%nat with (S (length p)) in Hs by lia.
  rewrite Nat.add_0_r in Hs.
  replace (if bool_decide (name ++ after = []) then [] else @nil ascii) with (@nil ascii) in Hs by by case_match.
  rewrite Hs. destruct (S (length p) - length name)%nat as [|k] eqn:Hk; [lia|]. cbn [scan].
  destruct after as [|c after].
  - rewrite bool_decide_eq_true_2 by done. by rewrite lookup_ge_None_2 by (cbn in Hl; lia).
  - rewrite bool_decide_eq_false_2 by done.
    assert (p !! (length pre + 1 + length name)%nat = Some c) as ->.
    { unfold p. replace (pre ++ "%"%char :: name ++ c :: after) with ((pre ++ "%"%char :: name) ++ c :: after)
        by by rewrite <- (assoc_L (++)).
      apply list_lookup_middle. rewrite length_app. cbn. lia. }
    rewrite (ends_name_stops _ _ Ha), Z.eqb_refl. cbn [andb].
    unfold p. replace (pre ++ "%"%char :: name ++ c :: after) with ((pre ++ ["%"%char]) ++ name ++ c :: after)
      by by rewrite <- (assoc_L (++)).
    rewrite sub_middle; [done|by rewrite length_app|lia].
Qed.

Lemma scan_brace pre name f after :
  let p := pre ++ "%"%char :: name ++ "{"%char :: f ++ after in
  fits p → Forall (λ c, name_char c = true) name → "}"%char ∉ f →
  ∃ str' k, (after ≠ [] → str' = name) ∧
    scan (S (length p)) p (length pre) (length pre + 1) 0 0 [] [] =
    scan (S (length after + k)) p (length pre) (length pre + 1 + length name + 1 + length f) 1
      (length pre + 1 + length name) str' [].
Proof.
  intros p Hf Hn Hb.
  pose proof (scan_name pre (S (length p) - length name) [] name ("{"%char :: f ++ after) Hf Hn) as Hs.
  cbn [app length] in Hs. fold p in Hs.
  assert (length p = length pre + S (length name + S (length f + length after)))%nat as Hl
    by (unfold p; rewrite length_app; cbn [length]; rewrite length_app; cbn [length]; by rewrite length_app).
  replace (length name + (S (length p) - length name))%nat with (S (length p)) in Hs by lia.
  rewrite Nat.add_0_r in Hs.
  replace (if bool_decide (name ++ "{"%char :: f ++ after = []) then [] else @nil ascii) with (@nil ascii) in Hs by by case_match.
  rewrite Hs, bool_decide_eq_false_2 by done.
  replace (S (length p) - length name)%nat with (S (length f + S (length after + (length pre + 1))))%nat by lia.
  cbn [scan].
  assert (p = (pre ++ "%"%char :: name) ++ "{"%char :: f ++ after) as Hp by (unfold p; by rewrite <- (assoc_L (++))).
  assert (p !! (length pre + 1 + length name)%nat = Some "{"%char) as ->.
  { rewrite Hp. apply list_lookup_middle. rewrite length_app. cbn. lia. }
  assert (sub p (length pre + 1) (length pre + 1 + length name - length pre - 1) = Some name) as ->.
  { unfold p. replace (pre ++ "%"%char :: name ++ "{"%char :: f ++ after)
      with ((pre ++ ["%"%char]) ++ name ++ "{"%char :: f ++ after) by by rewrite <- (assoc_L (++)).
    rewrite sub_middle; [done|by rewrite length_app|lia]. }
  cbn [Ascii.eqb isalpha Bool.eqb andb negb Z.eqb mbind option_bind].
  assert (p = (pre ++ "%"%char :: name ++ ["{"%char]) ++ f ++ after) as Hp'.
  { unfold p. rewrite <- (assoc_L (++) pre). cbn. by rewrite <- (assoc_L (++) name). }
  destruct (scan_fmt (S (length after + (length pre + 1))) (pre ++ "%"%char :: name ++ ["{"%char]) f after (length pre)
    (length pre + 1 + length name) name) as (str' & Hstr & Hsc);
    [by rewrite <- Hp'|done|rewrite length_app; cbn; lia|].
  rewrite <- Hp' in Hsc.
  assert (length (pre ++ "%"%char :: name ++ ["{"%char]) = S (length pre + 1 + length name)) as Hpl
    by (rewrite length_app; cbn; rewrite length_app; cbn; lia).
  rewrite Hpl in Hsc. exists str', (length pre + 1)%nat. split; [done|].
  replace (length pre + 1 + length name + 1 + length f)%nat with (S (length pre + 1 + length name) + length f)%nat by lia.
  exact Hsc.
Qed.

Lemma scan_closed pre name f s :
  let p := pre ++ "%"%char :: name ++ "{"%char :: f ++ "}"%char :: s in
  fits p → Forall (λ c, name_char c = true) name → "}"%char ∉ f →
  scan (S (length p)) p (length pre) (length pre + 1) 0 0 [] [] =
    Some (Scanned (length pre + 1 + length name + 1 + length f + 1) 0 name f).
Proof.
  intros p Hf Hn Hb. destruct (scan_brace pre name f ("}"%char :: s) Hf Hn Hb) as (str' & k & Hstr & Hs).
  fold p in Hs. rewrite Hs, Hstr by done. cbn [scan].
  assert (p = (pre ++ "%"%char :: name ++ ["{"%char]) ++ f ++ "}"%char :: s) as Hp.
  { unfold p. rewrite <- (assoc_L (++) pre). cbn. by rewrite <- (assoc_L (++) name). }
  assert (length (pre ++ "%"%char :: name ++ ["{"%char]) = length pre + 1 + length name + 1)%nat as Hl
    by (rewrite length_app; cbn; rewrite length_app; cbn; lia).
  assert (p !! (length pre + 1 + length name + 1 + length f)%nat = Some "}"%char) as ->.
  { rewrite Hp, (assoc_L (++)). apply list_lookup_middle. rewrite length_app, Hl. lia. }
  cbn [andb negb Z.eqb].
  assert (sub p (length pre + 1 + length name + 1)
    (length pre + 1 + length name + 1 + length f - (length pre + 1 + length name) - 1) = Some f) as Hsub
    by (rewrite Hp; apply sub_middle; lia).
  rewrite Hsub. cbn. do 2 f_equal. lia.
Qed.

Lemma scan_open pre name f :
  let p := pre ++ "%"%char :: name ++ "{"%char :: f in
  fits p → Forall (λ c, name_char c = true) name → "}"%char ∉ f →
  ∃ str, scan (S (length p)) p (length pre) (length pre + 1) 0 0 [] [] = Some (Scanned (length p) 1 str []).
Proof.
  intros p Hf Hn Hb. pose proof (scan_brace pre name f []) as Hs. cbv zeta in Hs. rewrite !app_nil_r in Hs.
  fold p in Hs. destruct (Hs Hf Hn Hb) as (str' & k & _ & ->). exists str'. cbn [scan].
  assert (length p = length pre + 1 + length name + 1 + length f)%nat as Hl
    by (unfold p; rewrite length_app; cbn; rewrite length_app; cbn; lia).
  by rewrite <- Hl, lookup_ge_None_2.
Qed.

(** *** Every text after a percent sign is one of these *)

Lemma brace_cases s :
  (∃ f s', s = f ++ "}"%char :: s' ∧ "}"%char ∉ f) ∨ "}"%char ∉ s.
Proof.
  destruct (decide ("}"%char ∈ s)) as [Hin|]; [left|by right].
  destruct (list_elem_of_split_l _ _ Hin) as (f & s' & -> & ?). eauto.
Qed.

Lemma name_cases s :
  ∃ name after, s = name ++ after ∧ Forall (λ c, name_char c = true) name ∧
    (ends_name after = true ∨ (∃ f s', after = "{"%char :: f ++ "}"%char :: s' ∧ "}"%char ∉ f) ∨
     ∃ f, after = "{"%char :: f ∧ "}"%char ∉ f).
Proof.
  induction s as [|c s (name & after & -> & Hn & Ha)].
  { exists [], []. auto. }
  destruct (name_char c) eqn:Hc.
  { exists (c :: name), after. auto. }
  exists [], (c :: name ++ after). split; [done|]. split; [done|].
  destruct (Ascii.eqb_spec c "{") as [->|Hb].
  - right. destruct (brace_cases (name ++ after)) as [(f & s' & -> & ?)|?]; eauto.
  - left. unfold ends_name. rewrite Hc, (proj2 (Ascii.eqb_neq _ _)) by done. done.
Qed.

Lemma find_item_name name make :
  find_item name = Some make → ∃ c, name = [c] ∧ name_char c = true ∧ c ≠ "%"%char.
Proof.
  unfold find_item. destruct (List.find _ _) as [[n mk]|] eqn:Hf; [|done]. intros _.
  apply find_some in Hf as [Hin He%bool_decide_eq_true]. simpl in He. subst n.
  repeat (destruct Hin as [[= <- _]|Hin]; [eexists; by repeat split|]). done.
Qed.

(** Names and formats end in one place. *)
Definition stops (s : list ascii) : Prop := match s with [] => True | c :: _ => name_char c = false end.

Lemma name_unique n1 n2 a1 a2 :
  Forall (λ c, name_char c = true) n1 → Forall (λ c, name_char c = true) n2 →
  stops a1 → stops a2 → n1 ++ a1 = n2 ++ a2 → n1 = n2 ∧ a1 = a2.
Proof.
  revert n2. induction n1 as [|c n1 IH]; intros [|d n2] H1 H2 S1 S2 He; cbn in He.
  - done.
  - subst a1. apply Forall_cons in H2 as [? _]. cbn in S1. congruence.
  - subst a2. apply Forall_cons in H1 as [? _]. cbn in S2. congruence.
  - apply Forall_cons in H1 as [_ H1], H2 as [_ H2]. injection He as <- He.
    by destruct (IH n2 H1 H2 S1 S2 He) as [-> ->].
Qed.

Lemma fmt_unique (f1 f2 s1 s2 : list ascii) :
  "}"%char ∉ f1 → "}"%char ∉ f2 → f1 ++ "}"%char :: s1 = f2 ++ "}"%char :: s2 → f1 = f2 ∧ s1 = s2.
Proof.
  revert f2. induction f1 as [|c f1 IH]; intros [|d f2] H1 H2 He; cbn in He.
  - by injection He.
  - injection He as <- _. by apply not_elem_of_cons in H2 as [? _].
  - injection He as -> _. by apply not_elem_of_cons in H1 as [? _].
  - apply not_elem_of_cons in H1 as [_ H1], H2 as [_ H2]. injection He as <- He.
    by destruct (IH f2 H1 H2 He) as [-> ->].
Qed.

Lemma ends_name_stop s : ends_name s = true → stops s.
Proof. destruct s as [|c s]; [done|]. cbn. by destruct (name_char c). Qed.

(** *** Inversion of the grammar *)

Lemma pattern_nil_inv ts : pattern [] ts → ts = [].
Proof. by inversion 1. Qed.

Lemma pattern_char_inv c s ts :
  c ≠ "%"%char → pattern (c :: s) ts → ∃ ts', ts = TChar c :: ts' ∧ pattern s ts'.
Proof. intros Hc. inversion 1; subst; try done. eauto. Qed.

Lemma pattern_percent_inv s ts :
  pattern ("%"%char :: "%"%char :: s) ts → ∃ ts', ts = TChar "%" :: ts' ∧ pattern ("%"%char :: s) ts'.
Proof.
  inversion 1 as [|? ? ? Hc|? ? Hp|name make s' ts' Hm _ _ He|name make f s' ts' Hm _ _ He]; subst; [done|eauto|..];
    destruct (find_item_name _ _ Hm) as (c & -> & _ & ?); by injection He.
Qed.

Lemma pattern_inv name after ts :
  Forall (λ c, name_char c = true) name → stops after → head (name ++ after) ≠ Some "%"%char →
  pattern ("%"%char :: name ++ after) ts →
  ∃ make, find_item name = Some make ∧
    ((ends_name after = true ∧ ∃ ts', ts = TItem (make []) :: ts' ∧ pattern after ts') ∨
     (∃ f s ts', after = "{"%char :: f ++ "}"%char :: s ∧ ("}"%char ∉ f) ∧ ts = TItem (make f) :: ts' ∧ pattern s ts')).
Proof.
  intros Hn Hs Hne. inversion 1 as [|? ? ? Hc|s1 ? Hp He|n1 make s' ts' Hm Hend Hp He|n1 make f s' ts' Hm Hf Hp He]; subst.
  - done.
  - by rewrite <- He in Hne.
  - destruct (find_item_name _ _ Hm) as (c & -> & Hc & _).
    destruct (name_unique [c] name s' after) as [<- <-];
      [by apply Forall_singleton|done|by apply ends_name_stop|done|done|]. eauto 10.
  - destruct (find_item_name _ _ Hm) as (c & -> & Hc & _).
    destruct (name_unique [c] name ("{"%char :: f ++ "}"%char :: s') after) as [<- <-];
      [by apply Forall_singleton|done|done|done|done|]. eauto 15.
Qed.

(** *** The outer loop *)

Definition entries_ok (vec : list entry) (error : bool) : Prop :=
  error = false ∧ existsb snd (make_item <$> vec) = false.

Section loop.
Context `{Libc} (level : Level) (event : LogEvent.t).

Definition entries_text (vec : list entry) : option (list ascii) :=
  items_text level event (make_item <$> vec).*1.

Definition joined (a b : option (list ascii)) : option (list ascii) :=
  x ← a; y ← b; Some (x ++ y).

Lemma joined_assoc a b c : joined a (joined b c) = joined (joined a b) c.
Proof. unfold joined. destruct a, b, c; cbn; try done. by rewrite (assoc_L (++)). Qed.

Lemma joined_nil_r a : joined a (Some []) = a.
Proof. unfold joined. destruct a; cbn; [|done]. by rewrite app_nil_r. Qed.

Lemma mapM_joined {A} (g : A → option (list ascii)) l1 l2 :
  mjoin <$> mapM g (l1 ++ l2) = joined (mjoin <$> mapM g l1) (mjoin <$> mapM g l2).
Proof.
  induction l1 as [|x l1 IH]; cbn.
  { unfold joined. by destruct (mjoin <$> mapM g l2). }
  destruct (g x) as [y|]; [|done]. cbn. revert IH. unfold joined.
  destruct (mapM g l1) as [ys|], (mapM g l2) as [zs|], (mapM g (l1 ++ l2)) as [ws|]; cbn; try done.
  intros Hw. apply (inj Some) in Hw. f_equal. rewrite <- (assoc_L (++)). f_equal. exact Hw.
Qed.

Lemma entries_text_app v1 v2 : entries_text (v1 ++ v2) = joined (entries_text v1) (entries_text v2).
Proof. unfold entries_text, items_text. by rewrite fmap_app, fmap_app, mapM_joined. Qed.

Lemma entries_text_flush nstr : entries_text (flush nstr) = Some nstr.
Proof. unfold flush. case_bool_decide as He; [by rewrite He|]. cbn. by rewrite app_nil_r. Qed.

Lemma tokens_text_cons t ts :
  tokens_text level event (t :: ts) = joined (token_text level event t) (tokens_text level event ts).
Proof.
  unfold tokens_text. change (t :: ts) with ([t] ++ ts). rewrite mapM_joined. f_equal. cbn.
  destruct (token_text level event t); cbn; [|done]. by rewrite app_nil_r.
Qed.

Lemma entries_text_item name make fmt :
  find_item name = Some make → entries_text [(name, fmt, 1)] = item_format level event (make fmt).
Proof.
  intros Hm. unfold entries_text, items_text. cbn [fmap list_fmap make_item Z.eqb]. rewrite Hm. cbn.
  destruct (item_format level event (make fmt)); cbn; [|done]. by rewrite app_nil_r.
Qed.

End loop.

Lemma entries_ok_app v1 v2 error :
  entries_ok (v1 ++ v2) error ↔ entries_ok v1 error ∧ existsb snd (make_item <$> v2) = false.
Proof. unfold entries_ok. rewrite fmap_app, existsb_app, orb_false_iff. tauto. Qed.

Lemma flush_ok nstr : existsb snd (make_item <$> flush nstr) = false.
Proof. unfold flush. by case_bool_decide. Qed.

(** What the loop does on the rest [s] of the pattern. *)
Definition splits (p : list ascii) (i : nat) (s nstr : list ascii) : Prop :=
  ∀ fuel vec error cout, (length s < fuel)%nat →
  ∃ vec' error' cout', split_loop fuel p i nstr vec error cout = Some (vec', error', cout') ∧
    (entries_ok vec' error' ↔ entries_ok vec error ∧ ∃ ts, pattern s ts) ∧
    ∀ ts, pattern s ts → ∀ (L : Libc) level event,
      entries_text level event vec' =
      joined (entries_text level event vec) (joined (Some nstr) (tokens_text level event ts)).

(** A byte the loop moves to [nstr]. *)
Lemma splits_char p i c s nstr :
  (∀ fuel vec error cout, split_loop (S fuel) p i nstr vec error cout = split_loop fuel p (S i) (nstr ++ [c]) vec error cout) →
  (∀ ts, pattern s ts → ∃ s0 ts', ts = TChar c :: ts' ∧ s = c :: s0 ∧ pattern s0 ts') →
  (∀ ts', pattern (tail s) ts' → pattern s (TChar c :: ts')) →
  s ≠ [] → splits p (S i) (tail s) (nstr ++ [c]) → splits p i s nstr.
Proof.
  intros Hl Hinv Hin Hs Hsp [|fuel] vec error cout Hf; [lia|]. rewrite Hl.
  destruct s as [|c' s]; [done|]. cbn [tail] in *.
  destruct (Hsp fuel vec error cout) as (vec' & error' & cout' & Hr & Hok & Ht); [cbn in Hf; lia|].
  exists vec', error', cout'. split; [done|]. split.
  - rewrite Hok. apply and_iff_compat_l. split.
    + intros [ts Hts]. eauto.
    + intros [ts Hts]. destruct (Hinv ts Hts) as (s0 & ts' & -> & [= -> ->] & ?). eauto.
  - intros ts Hts L level event. destruct (Hinv ts Hts) as (s0 & ts' & -> & [= -> ->] & Hp).
    rewrite (Ht ts' Hp), tokens_text_cons. f_equal. unfold joined. cbn.
    destruct (tokens_text level event ts'); cbn; [|done]. by rewrite <- (assoc_L (++)).
Qed.

(** An item the scanner found. *)
Lemma splits_item p i s nstr r s' :
  (∀ fuel vec error cout, split_loop (S fuel) p i nstr vec error cout =
     split_loop fuel p (sc_n r) [] (vec ++ flush nstr ++ [(sc_str r, sc_fmt r, 1)]) error cout) →
  (∀ ts, pattern s ts ↔ ∃ make ts', find_item (sc_str r) = Some make ∧ ts = TItem (make (sc_fmt r)) :: ts' ∧ pattern s' ts') →
  (length s' < length s)%nat → splits p (sc_n r) s' [] → splits p i s nstr.
Proof.
  intros Hl Hp Hs Hsp [|fuel] vec error cout Hf; [lia|]. rewrite Hl.
  destruct (Hsp fuel (vec ++ flush nstr ++ [(sc_str r, sc_fmt r, 1)]) error cout)
    as (vec' & error' & cout' & Hr & Hok & Ht); [lia|].
  exists vec', error', cout'. split; [done|].
  assert (existsb snd (make_item <$> [(sc_str r, sc_fmt r, 1)]) = false ↔ is_Some (find_item (sc_str r))) as Hm.
  { cbn [fmap list_fmap make_item Z.eqb existsb]. destruct (find_item (sc_str r)); cbn; split; by try intros [? [=]]. }
  split.
  - rewrite Hok, entries_ok_app, fmap_app, existsb_app, flush_ok, orb_false_l, Hm. split.
    + intros [[? [make Hmk]] [ts Hts]]. split; [done|]. exists (TItem (make (sc_fmt r)) :: ts). apply Hp. eauto.
    + intros [? [ts (make & ts' & Hmk & -> & Hts)%Hp]]. eauto.
  - intros ts (make & ts' & Hmk & -> & Hts)%Hp L level event.
    rewrite (Ht ts' Hts), !entries_text_app, entries_text_flush, (entries_text_item _ _ _ _ _ Hmk), tokens_text_cons.
    rewrite !joined_assoc. cbn [token_text]. by rewrite joined_nil_r.
Qed.

(** A brace that is not closed: the flag stays set. *)
Lemma splits_broken p i s nstr vec1 cout1 s' :
  (∀ fuel vec error cout, split_loop (S fuel) p i nstr vec error cout =
     split_loop fuel p (S i) nstr (vec ++ vec1) true (cout ++ cout1)) →
  (∀ ts, ¬ pattern s ts) → (length s' < length s)%nat → splits p (S i) s' nstr → splits p i s nstr.
Proof.
  intros Hl Hp Hs Hsp [|fuel] vec error cout Hf; [lia|]. rewrite Hl.
  destruct (Hsp fuel (vec ++ vec1) true (cout ++ cout1)) as (vec' & error' & cout' & Hr & Hok & Ht); [lia|].
  exists vec', error', cout'. split; [done|]. split; [|by intros ts Hts%Hp].
  rewrite Hok. split; [by intros [[[=] _] _]|]. by intros [_ [ts Hts%Hp]].
Qed.

Lemma split_step_item pre rest nstr r fuel vec error cout :
  head rest ≠ Some "%"%char →
  scan (S (length (pre ++ "%"%char :: rest))) (pre ++ "%"%char :: rest) (length pre) (length pre + 1) 0 0 [] [] = Some r →
  split_loop (S fuel) (pre ++ "%"%char :: rest) (length pre) nstr vec error cout =
  if sc_status r =? 0
  then split_loop fuel (pre ++ "%"%char :: rest) (sc_n r) [] (vec ++ flush nstr ++ [(sc_str r, sc_fmt r, 1)]) error cout
  else split_loop fuel (pre ++ "%"%char :: rest) (S (length pre)) nstr (vec ++ [(pattern_error, sc_fmt r, 0)]) true
    (cout ++ of_lit "pattern parse error: " ++ (pre ++ "%"%char :: rest) ++ of_lit " - "
      ++ take (Z.to_nat (Z.min npos (Z.of_nat (length (pre ++ "%"%char :: rest))))) ("%"%char :: rest) ++ ["010"%char]).
Proof.
  intros Hh Hs. cbn [split_loop]. rewrite list_lookup_middle by done. cbn [Ascii.eqb Bool.eqb negb].
  rewrite bool_decide_eq_false_2.
  2:{ rewrite lookup_app_r by lia. replace (S (length pre) - length pre)%nat with 1%nat by lia. cbn.
      by destruct rest. }
  rewrite Hs. cbn [mbind option_bind]. case_match; [done|].
  unfold substr. rewrite (proj2 (Z.ltb_ge _ _)) by (rewrite length_app; lia).
  cbn [mbind option_bind]. by rewrite Nat2Z.id, drop_app_length.
Qed.

Lemma ends_name_head_not_fmt f s : ends_name ("{"%char :: f ++ s) = false.
Proof. done. Qed.

Lemma split_item pre rest nstr :
  fits (pre ++ "%"%char :: rest) → head rest ≠ Some "%"%char →
  (∀ pre' s' nstr', pre ++ "%"%char :: rest = pre' ++ s' → (length s' ≤ length rest)%nat →
     splits (pre ++ "%"%char :: rest) (length pre') s' nstr') →
  splits (pre ++ "%"%char :: rest) (length pre) ("%"%char :: rest) nstr.
Proof.
  intros Hf Hh IH. destruct (name_cases rest) as (name & after & -> & Hn & [Ha|[(f & s' & -> & Hb)|(f & -> & Hb)]]).
  - pose proof (scan_plain pre name after Hf Hn Ha) as Hs.
    eapply splits_item with (s' := after); [intros; by rewrite (split_step_item _ _ _ _ _ _ _ _ Hh Hs)|..|]; cbn [sc_n sc_str sc_fmt].
    + intros ts. split.
      * intros Hp. apply pattern_inv in Hp as (make & Hm & [[_ (ts' & -> & Hp)]|(f & s & ts' & -> & _)]);
          [eauto|done|done|by apply ends_name_stop|done].
      * intros (make & ts' & Hm & -> & Hp). by constructor.
    + cbn. rewrite length_app. lia.
    + replace (length pre + 1 + length name)%nat with (length (pre ++ "%"%char :: name)) by (rewrite length_app; cbn; lia).
      apply IH; [by rewrite <- (assoc_L (++))|rewrite length_app; lia].
  - pose proof (scan_closed pre name f s' Hf Hn Hb) as Hs.
    eapply splits_item with (s' := s'); [intros; by rewrite (split_step_item _ _ _ _ _ _ _ _ Hh Hs)|..|]; cbn [sc_n sc_str sc_fmt].
    + intros ts. split.
      * intros Hp. apply pattern_inv in Hp as (make & Hm & [[He _]|(f' & s & ts' & He & Hb' & -> & Hp)]);
          [done| |done|done|done].
        injection He as He. apply fmt_unique in He as [<- <-]; eauto.
      * intros (make & ts' & Hm & -> & Hp). by constructor.
    + cbn. rewrite length_app. cbn. rewrite length_app. cbn. lia.
    + replace (length pre + 1 + length name + 1 + length f + 1)%nat
        with (length (pre ++ "%"%char :: name ++ "{"%char :: f ++ ["}"%char]))
        by (rewrite length_app; cbn; rewrite length_app; cbn; rewrite length_app; cbn; lia).
      apply IH; [|rewrite length_app; cbn; rewrite length_app; cbn; lia].
      rewrite <- (assoc_L (++) pre). cbn. rewrite <- (assoc_L (++) name). cbn. by rewrite <- (assoc_L (++) f).
  - destruct (scan_open pre name f Hf Hn Hb) as [str Hs].
    eapply splits_broken with (s' := name ++ "{"%char :: f); [intros; by rewrite (split_step_item _ _ _ _ _ _ _ _ Hh Hs)|..].
    + intros ts Hp. apply pattern_inv in Hp as (make & Hm & [[He _]|(f' & s & ts' & He & Hb' & -> & Hp)]);
          [done| |done|done|done].
      injection He as ->. apply Hb, elem_of_app. right. by left.
    + cbn. lia.
    + replace (S (length pre)) with (length (pre ++ ["%"%char])) by (rewrite length_app; cbn; lia).
      apply IH; [by rewrite <- (assoc_L (++))|done].
Qed.

Lemma splits_nil p nstr : splits p (length p) [] nstr.
Proof.
  intros [|fuel] vec error cout Hl; [cbn in Hl; lia|]. cbn [split_loop].
  rewrite lookup_ge_None_2 by done. eexists _, _, _. split; [done|]. split.
  - rewrite entries_ok_app, flush_ok. split; [intros [? _]; eauto using pattern|tauto].
  - intros ts ->%pattern_nil_inv L level event. rewrite entries_text_app, entries_text_flush.
    change (tokens_text level event []) with (Some [] : option (list ascii)). by rewrite joined_nil_r.
Qed.

Lemma split_loop_splits n s pre nstr :
  (length s ≤ n)%nat → fits (pre ++ s) → splits (pre ++ s) (length pre) s nstr.
Proof.
  revert s pre nstr. induction n as [|n IH]; intros [|c s] pre nstr Hn Hf; cbn in Hn; try lia.
  1,2: rewrite app_nil_r; apply splits_nil.
  assert (∀ pre' s' nstr', pre ++ c :: s = pre' ++ s' → (length s' ≤ length s)%nat →
    splits (pre ++ c :: s) (length pre') s' nstr') as IH'.
  { intros pre' s' nstr' He Hs'. rewrite He in *. apply IH; [lia|done]. }
  assert (∀ nstr', splits (pre ++ c :: s) (S (length pre)) s nstr') as Hnext.
  { intros nstr'. replace (S (length pre)) with (length (pre ++ [c])) by (rewrite length_app; cbn; lia).
    apply IH'; [by rewrite <- (assoc_L (++))|done]. }
  destruct (decide (c = "%"%char)) as [->|Hc].
  - destruct (decide (head s = Some "%"%char)) as [Hh|Hh]; [|by apply split_item].
    destruct s as [|d s]; [done|]. injection Hh as ->.
    apply splits_char with (c := "%"%char); [| |by constructor|done|by apply Hnext].
    + intros. cbn [split_loop]. rewrite list_lookup_middle by done. cbn [Ascii.eqb Bool.eqb negb].
      rewrite bool_decide_eq_true_2; [done|]. by rewrite lookup_app_r, Nat.sub_succ_l, Nat.sub_diag by lia.
    + intros ts Hp. destruct (pattern_percent_inv _ _ Hp) as (ts' & -> & ?). eauto.
  - apply splits_char with (c := c); [| |by constructor|done|by apply Hnext].
    + intros. cbn [split_loop]. rewrite list_lookup_middle by done. by rewrite (proj2 (Ascii.eqb_neq _ _)).
    + intros ts Hp. destruct (pattern_char_inv _ _ _ Hc Hp) as (ts' & -> & ?). eauto.
Qed.

(** ** Printing *)

(** Insertions one after the other are the insertion of the whole text. *)
Lemma format_to_text `{Libc} {S} (write : list ascii → S → S) level event items os :
  (∀ s, write [] s = s) → (∀ a b s, write b (write a s) = write (a ++ b) s) →
  format_to write level event items os = (λ text, write text os) <$> items_text level event items.
Proof.
  intros H0 Hw. revert os. induction items as [|i items IH]; intros os; cbn; [by rewrite H0|].
  destruct (item_format level event i) as [x|]; cbn; [|done]. rewrite IH. unfold items_text.
  destruct (mapM (item_format level event) items); cbn; [|done]. by rewrite Hw.
Qed.

Lemma format_text `{Libc} f level event : format f level event = items_text level event (m_items f).
Proof.
  unfold format. rewrite format_to_text; [by destruct (items_text level event (m_items f))|..].
  - intros s. apply app_nil_r.
  - intros a b s. by rewrite (assoc_L (++)).
Qed.

(** What a record does to a stream, by a relation between the stream and the
    text written to it. *)
Lemma format_to_invariant `{Libc} {S} (write : list ascii → S → S) (P : S → list ascii → Prop) level event items text :
  (∀ s acc x, P s acc → P (write x s) (acc ++ x)) →
  items_text level event items = Some text →
  ∀ os acc, P os acc → ∃ os', format_to write level event items os = Some os' ∧ P os' (acc ++ text).
Proof.
  intros Hw. revert text. unfold items_text. induction items as [|i items IH]; intros text; cbn.
  { intros [= <-] os acc Hp. exists os. by rewrite app_nil_r. }
  destruct (item_format level event i) as [x|]; cbn; [|done].
  destruct (mapM (item_format level event) items) as [xs|]; cbn; [|done].
  intros He os acc Hp. apply (inj Some) in He. subst text.
  destruct (IH (mjoin xs) eq_refl (write x os) (acc ++ x)) as (os' & Hf & Hp'); [by apply Hw|].
  exists os'. split; [done|]. by rewrite (assoc_L (++)).
Qed.

Lemma new_spec p :
  fits p →
  ∃ f cout, new p = Some (f, cout) ∧ getPattern f = p ∧
    (isError f = false ↔ ∃ ts, pattern p ts) ∧
    ∀ ts, pattern p ts → ∀ (L : Libc) level event, format f level event = tokens_text level event ts.
Proof.
  intros Hf. destruct (split_loop_splits _ p [] [] (le_n _) Hf (S (length p)) [] false [])
    as (vec & error & cout & Hl & Hok & Ht); [lia|].
  cbn [app length] in Hl. unfold new, init. rewrite Hl. cbn [mbind option_bind].
  eexists _, cout. split; [done|]. split; [done|]. cbn [isError m_error]. split.
  - rewrite orb_false_iff. fold (entries_ok vec error). rewrite Hok. split; [by intros [_ ?]|]. by intros ?.
  - intros ts Hp L level event. rewrite format_text. cbn [m_items].
    change (entries_text level event vec = tokens_text level event ts). rewrite (Ht ts Hp). unfold joined. cbn.
    by destruct (tokens_text level event ts).
Qed.

(** C19. The pattern formatter, on every pattern.  The constructor always returns
    (neither of its loops runs on and no [substr] throws); it reports an error
    exactly when the pattern is not in the grammar [pattern] (plain bytes, the
    twelve one-letter items, items with a format in braces); and for a pattern of
    the grammar a record is printed as the texts of its tokens in order. *)
Theorem LogFormatter_correct p :
  fits p →
  ∃ f cout, new p = Some (f, cout) ∧ getPattern f = p ∧
    (isError f = false ↔ ∃ ts, pattern p ts) ∧
    ∀ ts, pattern p ts → ∀ (L : Libc) level event, format f level event = tokens_text level event ts.
Proof. apply new_spec. Qed.

Lemma LogFormatter_correct_witness :
  let p := of_lit "[%p] %d{%H:%M}%n" in
  fits p ∧ ∃ f cout, new p = Some (f, cout) ∧ getPattern f = p ∧
    (isError f = false ↔ ∃ ts, pattern p ts) ∧
    ∀ ts, pattern p ts → ∀ (L : Libc) level event, format f level event = tokens_text level event ts.
Proof. split; [by vm_compute|]. apply (LogFormatter_correct (of_lit "[%p] %d{%H:%M}%n")). by vm_compute. Defined.

(** A doubled percent sign is not an escape: the second one starts an item. *)
Lemma percent_is_no_escape :
  (λ r, (m_items r.1, m_error r.1)) <$> new (of_lit "%%m") =
    Some ([StringFormatItem (of_lit "%"); MessageFormatItem], false) ∧
  (λ r, (m_items r.1, m_error r.1)) <$> new (of_lit "100%%") =
    Some ([StringFormatItem (of_lit "100%"); StringFormatItem (of_lit "<<error_format %>>")], true).
Proof. by vm_compute. Qed.

(** After an unclosed brace the plain text that was before it comes after the
    error mark, and the rest of the pattern is read again. *)
Lemma unclosed_brace_reorders :
  (λ r, (m_items r.1, m_error r.1)) <$> new (of_lit "ab%d{x") =
    Some ([StringFormatItem pattern_error; StringFormatItem (of_lit "abd{x")], true).
Proof. by vm_compute. Qed.

End LogFormatter.
