(* ===== verification/Log.v ===== *)
(** * Log: appenders, loggers and their manager (src/bobliew/log.{h,cc})

    Loggers and appenders are shared objects: they live in the heaps of [world]
    by address, with the text written to [std::cout] and the files.  Formatters
    are never changed once made and are kept by value.  A file stream is its
    three observable bits and its position; what it has buffered counts as
    written.  [openable] says which files the system lets the process open.

    [log_world_typed]: every pointer stays valid and every operation returns.
    [log_delivers]: who gets a record, where it goes, and that an unconfigured
    logger's go to the root.  [file_window]: what a log file holds. *)
From S2P Require Import Prelude Util Cstring Http Logformat.
Import StdString LogLevel.
#[local] Open Scope list_scope.
#[local] Open Scope Z_scope.
#[local] Set Warnings "-clear-no-such-hyp".

Module Log.

(** ** Data *)

(** A [std::ofstream]: [failed] is its failbit or badbit. *)
Record ofstream := Ofstream {
  is_open : bool;
  failed : bool;
  at_ : nat;
}.

Inductive kind :=
| StdoutLogAppender
| FileLogAppender (m_filename : list ascii) (m_filestream : ofstream) (m_lastTime : Z).

Record LogAppender := Appender {
  a_hasFormatter : bool;
  a_level : Level;
  a_formatter : option LogFormatter.t;
  a_kind : kind;
}.

Record Logger := MkLogger {
  m_root : option nat;
  m_name : list ascii;
  m_level : Level;
  m_appenders : list nat;
  m_formatter : option LogFormatter.t;
}.

(** The heaps, the outputs and the manager ([m_loggers] and [m_root] of
    [LoggerManager]). *)
Record world := World {
  loggers : gmap nat Logger;
  appenders : gmap nat LogAppender;
  next : nat;
  cout : list ascii;
  files : gmap (list ascii) (list ascii);
  mgr_loggers : gmap (list ascii) nat;
  mgr_root : nat;
}.

Definition set_loggers (v : gmap nat Logger) (w : world) : world :=
  World v (appenders w) (next w) (cout w) (files w) (mgr_loggers w) (mgr_root w).
Definition set_appenders (v : gmap nat LogAppender) (w : world) : world :=
  World (loggers w) v (next w) (cout w) (files w) (mgr_loggers w) (mgr_root w).
Definition set_next (v : nat) (w : world) : world :=
  World (loggers w) (appenders w) v (cout w) (files w) (mgr_loggers w) (mgr_root w).
Definition set_cout (v : list ascii) (w : world) : world :=
  World (loggers w) (appenders w) (next w) v (files w) (mgr_loggers w) (mgr_root w).
Definition set_files (v : gmap (list ascii) (list ascii)) (w : world) : world :=
  World (loggers w) (appenders w) (next w) (cout w) v (mgr_loggers w) (mgr_root w).
Definition set_mgr (v : gmap (list ascii) nat) (root : nat) (w : world) : world :=
  World (loggers w) (appenders w) (next w) (cout w) (files w) v root.

Definition set_level (v : Level) (l : Logger) : Logger :=
  MkLogger (m_root l) (m_name l) v (m_appenders l) (m_formatter l).
Definition set_list (v : list nat) (l : Logger) : Logger :=
  MkLogger (m_root l) (m_name l) (m_level l) v (m_formatter l).
Definition set_formatter (v : option LogFormatter.t) (l : Logger) : Logger :=
  MkLogger (m_root l) (m_name l) (m_level l) (m_appenders l) v.
Definition set_root (v : option nat) (l : Logger) : Logger :=
  MkLogger v (m_name l) (m_level l) (m_appenders l) (m_formatter l).

Definition a_set_level (v : Level) (a : LogAppender) : LogAppender :=
  Appender (a_hasFormatter a) v (a_formatter a) (a_kind a).
Definition a_set_formatter (v : option LogFormatter.t) (a : LogAppender) : LogAppender :=
  Appender (a_hasFormatter a) (a_level a) v (a_kind a).
Definition a_set_kind (v : kind) (a : LogAppender) : LogAppender :=
  Appender (a_hasFormatter a) (a_level a) (a_formatter a) v.

Definition modify (f : world → world) : M world unit := let! w := get in put (f w).

(** [*p] for a pointer to a logger or to an appender; a null or dangling one is
    undefined behaviour. *)
Definition logger_at (l : nat) : M world Logger := let! w := get in lift (loggers w !! l).
Definition appender_at (a : nat) : M world LogAppender := let! w := get in lift (appenders w !! a).
Definition put_logger (l : nat) (v : Logger) : M world unit :=
  modify (λ w, set_loggers (<[l := v]> (loggers w)) w).
Definition put_appender (a : nat) (v : LogAppender) : M world unit :=
  modify (λ w, set_appenders (<[a := v]> (appenders w)) w).

(** [std::cout << text] *)
Definition print (text : list ascii) : M world unit := modify (λ w, set_cout (cout w ++ text) w).

Definition endl : list ascii := ["010"%char].

(** ** File streams *)

Definition zeros (n : nat) : list ascii := replicate n "000"%char.

(** Bytes written at a position; a gap past the end is filled with zeros. *)
Definition write_at (content : list ascii) (pos : nat) (text : list ascii) : list ascii :=
  take pos (content ++ zeros (pos - length content)) ++ text ++ drop (pos + length text) content.

(** [m_filestream << text]: nothing on a failed stream. *)
Definition fwrite (name text : list ascii) (s : ofstream * gmap (list ascii) (list ascii))
    : ofstream * gmap (list ascii) (list ascii) :=
  let (st, fs) := s in
  if failed st then (st, fs)
  else if is_open st
  then (Ofstream true false (at_ st + length text), <[name := write_at (default [] (fs !! name)) (at_ st) text]> fs)
  else (Ofstream false true (at_ st), fs).

Section appenders.
Context (openable : list ascii → bool).

(** [m_filestream.close()]: it fails on a stream that is not open. *)
Definition fclose (st : ofstream) : ofstream :=
  if is_open st then Ofstream false (failed st) (at_ st) else Ofstream false true (at_ st).

(** [m_filestream.open(name)], in the default mode: the file is emptied.  It
    fails when the stream is open already. *)
Definition fopen (name : list ascii) (st : ofstream) (fs : gmap (list ascii) (list ascii))
    : ofstream * gmap (list ascii) (list ascii) :=
  if is_open st then (Ofstream true true (at_ st), fs)
  else if openable name then (Ofstream true false 0, <[name := []]> fs)
  else (Ofstream false true (at_ st), fs).

Definition reopen (name : list ascii) (st : ofstream) (fs : gmap (list ascii) (list ascii))
    : ofstream * gmap (list ascii) (list ascii) :=
  fopen name (if failed st then st else fclose st) fs.

Context `{Libc}.

(** ** Appenders *)

Definition alloc_appender (v : LogAppender) : M world nat :=
  let! w := get in
  put (set_next (S (next w)) (set_appenders (<[next w := v]> (appenders w)) w)) ;!
  ret (next w).

Definition newStdoutLogAppender : M world nat :=
  alloc_appender (Appender false DEBUG None StdoutLogAppender).

Definition newFileLogAppender (filename : list ascii) : M world nat :=
  let! w := get in
  let (st, fs) := reopen filename (Ofstream false false 0) (files w) in
  put (set_files fs w) ;!
  alloc_appender (Appender false DEBUG None (FileLogAppender filename st 0)).

Definition getFormatter (a : nat) : M world (option LogFormatter.t) :=
  let! ap := appender_at a in ret (a_formatter ap).

Definition appender_setFormatter (a : nat) (val : option LogFormatter.t) : M world unit :=
  let! ap := appender_at a in put_appender a (a_set_formatter val ap).

Definition appender_setLevel (a : nat) (val : Level) : M world unit :=
  let! ap := appender_at a in put_appender a (a_set_level val ap).

Definition StdoutLogAppender_log (ap : LogAppender) (level : Level) (event : LogEvent.t) : M world unit :=
  if code (a_level ap) <=? code level then
    let! f := lift (a_formatter ap) in
    let! w := get in
    let! out := lift (LogFormatter.format_os (λ text os, os ++ text) f level event (cout w)) in
    put (set_cout out w)
  else ret tt.

Definition FileLogAppender_log (a : nat) (ap : LogAppender) (m_filename : list ascii) (m_filestream : ofstream)
    (m_lastTime : Z) (level : Level) (event : LogEvent.t) : M world unit :=
  if code (a_level ap) <=? code level then
    let! w := get in
    let now := LogEvent.m_time event in
    let '(st, fs, last) :=
      if wrap 64 (m_lastTime + 3) <=? now then (reopen m_filename m_filestream (files w), now)
      else (m_filestream, files w, m_lastTime) in
    let! f := lift (a_formatter ap) in
    let! r := lift (LogFormatter.format_os (fwrite m_filename) f level event (st, fs)) in
    put (set_files r.2 w) ;!
    put_appender a (a_set_kind (FileLogAppender m_filename r.1 last) ap) ;!
    (if failed r.1 then print (of_lit "error of formatter " ++ endl) else ret tt)
  else ret tt.

(** The virtual [LogAppender::log]. *)
Definition appender_log (level : Level) (event : LogEvent.t) (a : nat) : M world unit :=
  let! ap := appender_at a in
  match a_kind ap with
  | StdoutLogAppender => StdoutLogAppender_log ap level event
  | FileLogAppender name st last => FileLogAppender_log a ap name st last level event
  end.

(** ** Loggers *)

Definition default_pattern : list ascii :=
  of_lit "%d{%Y-%m-%d %H:%M:%S}%T%t%T%N%T%F%T[%p]%T[%c]%T%f:%l%T%m%n".

(** [new LogFormatter(pattern)] *)
Definition newLogFormatter (pattern : list ascii) : M world LogFormatter.t :=
  let! r := or_throw out_of_range (LogFormatter.new pattern) in
  print r.2 ;! ret r.1.

Definition newLogger (name : list ascii) : M world nat :=
  let! f := newLogFormatter default_pattern in
  let! w := get in
  put (set_next (S (next w)) (set_loggers (<[next w := MkLogger None name DEBUG [] (Some f)]> (loggers w)) w)) ;!
  ret (next w).

Definition addAppender (l a : nat) : M world unit :=
  let! lg := logger_at l in
  let! ap := appender_at a in
  (if bool_decide (a_formatter ap = None) then put_appender a (a_set_formatter (m_formatter lg) ap) else ret tt) ;!
  put_logger l (set_list (m_appenders lg ++ [a]) lg).

(** The first element equal to [a] erased. *)
Fixpoint erase_first (a : nat) (l : list nat) : list nat :=
  match l with
  | [] => []
  | b :: l => if (a =? b)%nat then l else b :: erase_first a l
  end.

Definition delAppender (l a : nat) : M world unit :=
  let! lg := logger_at l in
  put_logger l (set_list (erase_first a (m_appenders lg)) lg).

(** The loop of [setFormatter]. *)
Fixpoint set_appenders_formatter (f : option LogFormatter.t) (l : list nat) : M world unit :=
  match l with
  | [] => ret tt
  | a :: l =>
      let! ap := appender_at a in
      (if a_hasFormatter ap then ret tt else put_appender a (a_set_formatter f ap)) ;!
      set_appenders_formatter f l
  end.

Definition setFormatter (l : nat) (val : option LogFormatter.t) : M world unit :=
  let! lg := logger_at l in
  put_logger l (set_formatter val lg) ;!
  set_appenders_formatter val (m_appenders lg).

Definition logger_getFormatter (l : nat) : M world (option LogFormatter.t) :=
  let! lg := logger_at l in ret (m_formatter lg).

Definition setFormatter_str (l : nat) (val : list ascii) : M world unit :=
  print (of_lit "---" ++ val ++ endl) ;!
  let! f := newLogFormatter val in
  if LogFormatter.isError f then
    let! lg := logger_at l in
    print (of_lit "Logger setFormatter name = " ++ m_name lg ++ of_lit "value= " ++ val
      ++ of_lit " invalid formatter" ++ endl)
  else setFormatter l (Some f).

Definition clearAppenders (l : nat) : M world unit :=
  let! lg := logger_at l in put_logger l (set_list [] lg).

Definition getLevel (l : nat) : M world Level :=
  let! lg := logger_at l in ret (m_level lg).

Definition setLevel (l : nat) (val : Level) : M world unit :=
  let! lg := logger_at l in put_logger l (set_level val lg).

Fixpoint for_each (f : nat → M world unit) (l : list nat) : M world unit :=
  match l with
  | [] => ret tt
  | a :: l => f a ;! for_each f l
  end.

(** [Logger::log]; the recursion into the root takes [fuel]. *)
Fixpoint log (fuel : nat) (l : nat) (level : Level) (event : LogEvent.t) : M world unit :=
  match fuel with
  | O => ub
  | S fuel =>
      let! lg := logger_at l in
      if code (m_level lg) <=? code level then
        if bool_decide (m_appenders lg = []) then
          match m_root lg with
          | Some root => log fuel root level event
          | None => ret tt
          end
        else for_each (appender_log level event) (m_appenders lg)
      else ret tt
  end.

Definition debug (fuel l : nat) (event : LogEvent.t) : M world unit := log fuel l DEBUG event.
Definition info (fuel l : nat) (event : LogEvent.t) : M world unit := log fuel l INFO event.
Definition warn (fuel l : nat) (event : LogEvent.t) : M world unit := log fuel l WARN event.
Definition error (fuel l : nat) (event : LogEvent.t) : M world unit := log fuel l ERROR event.
Definition fatal (fuel l : nat) (event : LogEvent.t) : M world unit := log fuel l FATAL event.

(** The end of a [LogEventWrap]. *)
Definition delete_LogEventWrap (fuel : nat) (e : LogEvent.t) : M world unit :=
  log fuel (LogEvent.m_logger e) (LogEvent.m_level e) e.

(** [BOBLIEW_LOG_LEVEL(logger, level) << text] at a line of a file. *)
Definition LOG_LEVEL (fuel l : nat) (level : Level) (file : list ascii) (line thread fiber now : Z)
    (thread_name text : list ascii) : M world unit :=
  let! cur := getLevel l in
  if code cur <=? code level then
    delete_LogEventWrap fuel (LogEvent.stream_in text (LogEvent.new l level file line 0 thread fiber now thread_name))
  else ret tt.

(** ** The manager *)

Definition empty : world := World ∅ ∅ 0 [] ∅ ∅ 0.

Definition newLoggerManager : M world unit :=
  let! root := newLogger (of_lit "root") in
  let! a := newStdoutLogAppender in
  addAppender root a ;!
  let! lg := logger_at root in
  modify (λ w, set_mgr (<[m_name lg := root]> (mgr_loggers w)) root w).

Definition getRoot : M world nat := let! w := get in ret (mgr_root w).

Definition getLogger (name : list ascii) : M world nat :=
  let! w := get in
  match mgr_loggers w !! name with
  | Some l => ret l
  | None =>
      let! l := newLogger name in
      let! lg := logger_at l in
      put_logger l (set_root (Some (mgr_root w)) lg) ;!
      modify (λ w, set_mgr (<[name := l]> (mgr_loggers w)) (mgr_root w) w) ;!
      ret l
  end.

End appenders.

(** ** Types of the heap *)

(** The date format of the default pattern always fits into the buffer: it is
    at most twenty-five bytes for a year of ten digits. *)
Class LibcDefault `{Libc} := {
  strftime_default t : is_Some (strftime 64 LogFormatter.default_time t);
}.

Section typed.
Context (openable : list ascii → bool) `{LibcDefault}.

(** A record whose time the C library can convert. *)
Definition good_time (e : LogEvent.t) : Prop := is_Some (localtime_r (swrap 64 (LogEvent.m_time e))).

(** The formatter prints every such record: its dates fit into the buffer. *)
Definition prints (f : LogFormatter.t) : Prop :=
  ∀ level e, good_time e → is_Some (LogFormatter.format f level e).

Definition ready (w : world) (a : nat) : Prop :=
  ∃ ap f, appenders w !! a = Some ap ∧ a_formatter ap = Some f.

Definition logger_typed (w : world) (lg : Logger) : Prop :=
  (∀ r, m_root lg = Some r → r = mgr_root w) ∧
  (∃ f, m_formatter lg = Some f ∧ prints f) ∧
  Forall (ready w) (m_appenders lg).

Record typed (w : world) : Prop := {
  t_logger l lg : loggers w !! l = Some lg → logger_typed w lg ∧ (l < next w)%nat;
  t_appender a ap : appenders w !! a = Some ap →
    (∀ f, a_formatter ap = Some f → prints f) ∧ (a < next w)%nat;
  t_root : ∃ lg, loggers w !! mgr_root w = Some lg ∧ m_root lg = None;
  t_name n l : mgr_loggers w !! n = Some l →
    ∃ lg, loggers w !! l = Some lg ∧ m_name lg = n ∧ (l = mgr_root w ∨ m_root lg = Some (mgr_root w));
}.

(** [w'] has at least what [w] has, with the same manager. *)
Definition grows (w w' : world) : Prop :=
  (∀ a, ready w a → ready w' a) ∧ mgr_root w' = mgr_root w.

Lemma grows_logger w w' lg : grows w w' → logger_typed w lg → logger_typed w' lg.
Proof.
  intros [Hr Hm] (H1 & H2 & H3). split_and!; [by rewrite Hm|done|].
  eapply Forall_impl; [exact H3|done].
Qed.

Lemma typed_print w text : typed w → typed (set_cout text w).
Proof. intros [H1 H2 H3 H4]. by split. Qed.

Lemma typed_files w fs : typed w → typed (set_files fs w).
Proof. intros [H1 H2 H3 H4]. by split. Qed.

Lemma typed_put_logger w l lg lg' :
  typed w → loggers w !! l = Some lg → m_root lg' = m_root lg → m_name lg' = m_name lg →
  (∃ f, m_formatter lg' = Some f ∧ prints f) → Forall (ready w) (m_appenders lg') →
  typed (set_loggers (<[l := lg']> (loggers w)) w).
Proof.
  intros [H1 H2 H3 H4] Hl Hr Hn Hf Ha. split; cbn.
  - intros l' lg1 [(<- & <-)|(Hne & Hl')]%lookup_insert_Some; [|by apply H1].
    destruct (H1 l lg Hl) as ((Hp & _) & Hlt). split; [|done]. split_and!; [by rewrite Hr|done|done].
  - done.
  - destruct H3 as (lg1 & Hlg & Hroot). destruct (decide (l = mgr_root w)) as [->|Hne].
    + exists lg'. rewrite lookup_insert_eq. split; [done|]. simplify_eq. by rewrite Hr.
    + exists lg1. by rewrite lookup_insert_ne.
  - intros n l' Hm. destruct (H4 n l' Hm) as (lg1 & Hlg & Hname & Hor). destruct (decide (l = l')) as [->|Hne].
    + exists lg'. rewrite lookup_insert_eq. split; [done|]. simplify_eq. by rewrite Hr.
    + exists lg1. by rewrite lookup_insert_ne.
Qed.

Lemma ready_put_appender w a ap ap' b :
  appenders w !! a = Some ap → (is_Some (a_formatter ap) → is_Some (a_formatter ap')) →
  ready w b → ready (set_appenders (<[a := ap']> (appenders w)) w) b.
Proof.
  intros Ha Hf (bp & f & Hb & Hbf). unfold ready. cbn. destruct (decide (a = b)) as [->|Hne].
  - simplify_eq. destruct Hf as [f' Hf']; [by eexists|]. exists ap', f'. by rewrite lookup_insert_eq.
  - exists bp, f. by rewrite lookup_insert_ne.
Qed.

Lemma typed_put_appender w a ap ap' :
  typed w → appenders w !! a = Some ap → (is_Some (a_formatter ap) → is_Some (a_formatter ap')) →
  (∀ f, a_formatter ap' = Some f → prints f) →
  typed (set_appenders (<[a := ap']> (appenders w)) w).
Proof.
  intros Ht Ha Hf Hp. pose proof Ht as [H1 H2 H3 H4]. split; cbn; [|..|done|done].
  - intros l lg Hl. destruct (H1 l lg Hl) as [Hlg Hlt]. split; [|done].
    eapply grows_logger; [|done]. split; [|done]. intros b. by eapply ready_put_appender.
  - intros b bp [(<- & <-)|(Hne & Hb)]%lookup_insert_Some; [|by apply H2]. split; [done|]. by eapply H2.
Qed.

Lemma typed_new_appender w ap :
  typed w → (∀ f, a_formatter ap = Some f → prints f) →
  typed (set_next (S (next w)) (set_appenders (<[next w := ap]> (appenders w)) w)).
Proof.
  intros [H1 H2 H3 H4] Hp. split; cbn; [|..|done|done].
  - intros l lg Hl. destruct (H1 l lg Hl) as [Hlg Hlt]. split; [|lia].
    eapply grows_logger; [|done]. split; [|done]. intros b (bp & f & Hb & Hf).
    exists bp, f. cbn. rewrite lookup_insert_ne; [done|]. intros <-. destruct (H2 _ _ Hb). lia.
  - intros b bp [(<- & <-)|(Hne & Hb)]%lookup_insert_Some; [split; [done|lia]|].
    destruct (H2 _ _ Hb). split; [done|lia].
Qed.

Lemma typed_new_logger w lg :
  typed w → logger_typed w lg →
  typed (set_next (S (next w)) (set_loggers (<[next w := lg]> (loggers w)) w)).
Proof.
  intros [H1 H2 H3 H4] Hlg. split; cbn.
  - intros l lg' [(<- & <-)|(Hne & Hb)]%lookup_insert_Some; [split; [done|lia]|].
    destruct (H1 _ _ Hb). split; [done|lia].
  - intros b bp Hb. destruct (H2 _ _ Hb). split; [done|lia].
  - destruct H3 as (lg1 & Hlg1 & Hroot). exists lg1. rewrite lookup_insert_ne; [done|].
    intros Heq. destruct (H1 _ _ Hlg1). lia.
  - intros n l Hn. destruct (H4 n l Hn) as (lg1 & Hlg1 & Hname & Hor). exists lg1. rewrite lookup_insert_ne; [done|].
    intros Heq. destruct (H1 _ _ Hlg1). lia.
Qed.

End typed.

(** ** Operations keep the types *)
Section operations.
Context (openable : list ascii → bool) `{LibcDefault}.

Lemma appender_at_ret w a ap : appenders w !! a = Some ap → appender_at a w = Ret ap w.
Proof. intros Ha. unfold appender_at. by rewrite bind_get, Ha. Qed.

Lemma logger_at_ret w l lg : loggers w !! l = Some lg → logger_at l w = Ret lg w.
Proof. intros Hl. unfold logger_at. by rewrite bind_get, Hl. Qed.

(** A stream's text does not decide whether a record can be printed. *)
Lemma format_os_defined {S} (write : list ascii → S → S) f level e os :
  prints f → good_time e → is_Some (LogFormatter.format_os write f level e os).
Proof.
  intros Hp He. destruct (Hp level e He) as [text Ht]. rewrite LogFormatter.format_text in Ht.
  destruct (LogFormatter.format_to_invariant write (λ _ _, True) _ _ _ _ (λ _ _ _ _, I) Ht os [] I)
    as (os' & Hf & _). by exists os'.
Qed.

(** The step from [w]: it returns, and keeps the types, the loggers and what is ready. *)
Definition steps_to (w w' : world) : Prop :=
  typed w' ∧ grows w w' ∧ loggers w' = loggers w.

Lemma steps_refl w : typed w → steps_to w w.
Proof. intros. split_and!; [done|by split|done]. Qed.

Lemma steps_trans w1 w2 w3 : steps_to w1 w2 → steps_to w2 w3 → steps_to w1 w3.
Proof. intros (? & [? E1] & E2) (? & [? E3] & E4). split_and!; [done| |congruence]. split; [auto|congruence]. Qed.

Lemma steps_print w text : typed w → steps_to w (set_cout text w).
Proof. intros. split_and!; [by apply typed_print|by split|done]. Qed.

Lemma steps_files w fs : typed w → steps_to w (set_files fs w).
Proof. intros. split_and!; [by apply typed_files|by split|done]. Qed.

Lemma steps_put_appender w a ap ap' :
  typed w → appenders w !! a = Some ap → (is_Some (a_formatter ap) → is_Some (a_formatter ap')) →
  (∀ f, a_formatter ap' = Some f → prints f) →
  steps_to w (set_appenders (<[a := ap']> (appenders w)) w).
Proof.
  intros Ht Ha Hf Hp. split_and!; [by eapply typed_put_appender| |done].
  split; [|done]. intros b. by eapply ready_put_appender.
Qed.

Lemma appender_log_steps w level e a :
  typed w → ready w a → good_time e →
  ∃ w', appender_log openable level e a w = Ret tt w' ∧ steps_to w w'.
Proof.
  intros Ht (ap & f & Ha & Hf) He. pose proof (proj1 (t_appender w Ht a ap Ha) f Hf) as Hp.
  unfold appender_log. rewrite (bind_Ret _ _ _ _ _ (appender_at_ret w a ap Ha)).
  destruct (a_kind ap) as [|name st last].
  - unfold StdoutLogAppender_log. case_match; [|eauto using steps_refl].
    rewrite Hf. cbn. destruct (format_os_defined (λ text os, os ++ text) f level e (cout w) Hp He) as [out Ho].
    rewrite Ho. cbn. eexists. split; [done|by apply steps_print].
  - unfold FileLogAppender_log. case_match; [|eauto using steps_refl]. rewrite Hf.
    rewrite bind_get. destruct (if wrap 64 (last + 3) <=? LogEvent.m_time e then _ else _) as [[st1 fs1] last1] eqn:E.
    cbn. destruct (format_os_defined (fwrite name) f level e (st1, fs1) Hp He) as [[st2 fs2] Ho].
    rewrite Ho. cbn.
    assert (steps_to w (set_appenders (<[a := a_set_kind (FileLogAppender name st2 last1) ap]> (appenders w)) (set_files fs2 w))) as Hs.
    { apply (steps_trans _ (set_files fs2 w)); [by apply steps_files|].
      eapply (steps_put_appender (set_files fs2 w)); [by apply typed_files|exact Ha|done|].
      cbn. intros f'. by apply (t_appender w Ht a ap Ha). }
    destruct (failed st2); cbn; eexists; (split; [done|]); [|exact Hs].
    eapply steps_trans; [exact Hs|]. apply steps_print, Hs.
Qed.

Lemma for_each_steps w level e l :
  typed w → Forall (ready w) l → good_time e →
  ∃ w', for_each (appender_log openable level e) l w = Ret tt w' ∧ steps_to w w'.
Proof.
  revert w. induction l as [|a l IH]; intros w Ht Hl He; cbn; [eauto using steps_refl|].
  apply Forall_cons in Hl as [Ha Hl].
  destruct (appender_log_steps w level e a Ht Ha He) as (w1 & H1 & Hs1). rewrite (bind_Ret _ _ _ _ _ H1).
  destruct (IH w1) as (w2 & H2 & Hs2); [apply Hs1| |done|].
  - eapply Forall_impl; [exact Hl|]. intros b. apply Hs1.
  - exists w2. split; [done|]. by eapply steps_trans.
Qed.

Lemma log_steps w l level e :
  typed w → is_Some (loggers w !! l) → good_time e →
  ∃ w', log openable 2 l level e w = Ret tt w' ∧ steps_to w w'.
Proof.
  intros Ht [lg Hl] He. destruct (t_logger w Ht l lg Hl) as ((Hr & _ & Ha) & _).
  cbn [log]. rewrite (bind_Ret _ _ _ _ _ (logger_at_ret w l lg Hl)).
  case_match; [|eauto using steps_refl]. case_bool_decide as Hb; [|by apply for_each_steps].
  destruct (m_root lg) as [r|] eqn:Er; [|eauto using steps_refl].
  rewrite (Hr r eq_refl). destruct (t_root w Ht) as (lr & Hlr & Hnone).
  rewrite (bind_Ret _ _ _ _ _ (logger_at_ret w _ lr Hlr)).
  case_match; [|eauto using steps_refl]. destruct (t_logger w Ht _ _ Hlr) as ((_ & _ & Har) & _).
  case_bool_decide; [|by apply for_each_steps]. rewrite Hnone. eauto using steps_refl.
Qed.

End operations.

(** ** The operations a program can call, in any order *)

Inductive call :=
| CStdout
| CFile (filename : list ascii)
| CAppenderFormatter (a : nat) (f : LogFormatter.t)
| CAppenderLevel (a : nat) (v : Level)
| CAdd (l a : nat)
| CDel (l a : nat)
| CFormatter (l : nat) (f : LogFormatter.t)
| CPattern (l : nat) (pattern : list ascii)
| CClear (l : nat)
| CLevel (l : nat) (v : Level)
| CGet (name : list ascii)
| CLog (l : nat) (level : Level) (e : LogEvent.t)
| CMacro (l : nat) (level : Level) (file : list ascii) (line thread fiber now : Z) (thread_name text : list ascii).

Section calls.
Context (openable : list ascii → bool) `{LibcDefault}.

Definition call_run (c : call) : M world unit :=
  match c with
  | CStdout => newStdoutLogAppender ;! ret tt
  | CFile filename => newFileLogAppender openable filename ;! ret tt
  | CAppenderFormatter a f => appender_setFormatter a (Some f)
  | CAppenderLevel a v => appender_setLevel a v
  | CAdd l a => addAppender l a
  | CDel l a => delAppender l a
  | CFormatter l f => setFormatter l (Some f)
  | CPattern l pattern => setFormatter_str l pattern
  | CClear l => clearAppenders l
  | CLevel l v => setLevel l v
  | CGet name => getLogger name ;! ret tt
  | CLog l level e => log openable 2 l level e
  | CMacro l level file line thread fiber now thread_name text =>
      LOG_LEVEL openable 2 l level file line thread fiber now thread_name text
  end.

(** The caller holds its pointers and passes formatters and times that print. *)
Definition call_valid (w : world) (c : call) : Prop :=
  match c with
  | CStdout | CFile _ | CGet _ => True
  | CAppenderFormatter a f => is_Some (appenders w !! a) ∧ prints f
  | CAppenderLevel a _ => is_Some (appenders w !! a)
  | CAdd l a => is_Some (loggers w !! l) ∧ is_Some (appenders w !! a)
  | CDel l _ | CClear l | CLevel l _ => is_Some (loggers w !! l)
  | CFormatter l f => is_Some (loggers w !! l) ∧ prints f
  | CPattern l pattern =>
      is_Some (loggers w !! l) ∧ fits pattern ∧
      ∀ f out, LogFormatter.new pattern = Some (f, out) → LogFormatter.isError f = false → prints f
  | CLog l _ e => is_Some (loggers w !! l) ∧ good_time e
  | CMacro l _ _ _ _ _ now _ _ => is_Some (loggers w !! l) ∧ is_Some (localtime_r (swrap 64 now))
  end.

Inductive reachable : world → Prop :=
| reach_init w : newLoggerManager empty = Ret tt w → reachable w
| reach_call w c w' : reachable w → call_valid w c → call_run c w = Ret tt w' → reachable w'.

Definition default_formatter : LogFormatter.t :=
  LogFormatter.Formatter default_pattern
    [LogFormatter.DateTimeFormatItem LogFormatter.default_time; LogFormatter.TabFormatItem;
     LogFormatter.ThreadIdFormatItem; LogFormatter.TabFormatItem; LogFormatter.ThreadNameFormatItem;
     LogFormatter.TabFormatItem; LogFormatter.FiberIdFormatItem; LogFormatter.TabFormatItem;
     LogFormatter.StringFormatItem (of_lit "["); LogFormatter.LevelFormatItem;
     LogFormatter.StringFormatItem (of_lit "]"); LogFormatter.TabFormatItem;
     LogFormatter.StringFormatItem (of_lit "["); LogFormatter.NameFormatItem;
     LogFormatter.StringFormatItem (of_lit "]"); LogFormatter.TabFormatItem;
     LogFormatter.FilenameFormatItem; LogFormatter.StringFormatItem (of_lit ":");
     LogFormatter.LineFormatItem; LogFormatter.TabFormatItem; LogFormatter.MessageFormatItem;
     LogFormatter.NewLineFormatItem] false.

Lemma new_default : LogFormatter.new default_pattern = Some (default_formatter, []).
Proof. by vm_compute. Qed.

Lemma default_prints : prints default_formatter.
Proof.
  intros level e [t Ht]. rewrite LogFormatter.format_text. unfold LogFormatter.items_text.
  cbn [LogFormatter.m_items default_formatter mapM]. cbn [LogFormatter.item_format]. rewrite Ht.
  cbn [mbind option_bind]. replace (Http.c_str LogFormatter.default_time) with LogFormatter.default_time by by vm_compute.
  destruct (strftime_default t) as [s Hs]. rewrite Hs. by eexists.
Qed.

Lemma newLogger_ret w name :
  newLogger name w = Ret (next w) (set_next (S (next w))
    (set_loggers (<[next w := MkLogger None name DEBUG [] (Some default_formatter)]> (loggers w)) (set_cout (cout w ++ []) w))).
Proof.
  unfold newLogger, newLogFormatter. rewrite new_default. done.
Qed.

Lemma getLogger_typed w name : typed w → ∃ l w', getLogger name w = Ret l w' ∧ typed w' ∧ mgr_loggers w' !! name = Some l.
Proof.
  intros Ht. unfold getLogger. rewrite bind_get. destruct (mgr_loggers w !! name) as [l|] eqn:El.
  { exists l, w. done. }
  rewrite (bind_Ret _ _ _ _ _ (newLogger_ret w name)).
  rewrite (bind_Ret _ _ _ _ _ (logger_at_ret _ (next w) (MkLogger None name DEBUG [] (Some default_formatter))
    (lookup_insert_eq _ _ _))).
  eexists _, _. split; [done|]. cbn. split; [|apply lookup_insert_eq].
  assert (typed (set_cout (cout w ++ []) w)) as Ht1 by by apply typed_print.
  pose proof (typed_new_logger (set_cout (cout w ++ []) w)
    (MkLogger (Some (mgr_root w)) name DEBUG [] (Some default_formatter)) Ht1) as Ht2. cbn in Ht2.
  destruct Ht2 as [T1 T2 T3 T4].
  { split_and!; [intros r Hr; by injection Hr| |done]. eauto using default_prints. }
  split; cbn in *; rewrite ?insert_insert_eq; [done|done|done|].
  intros n l [(<- & <-)|(Hne & Hl)]%lookup_insert_Some; [|by apply T4].
  eexists. rewrite lookup_insert_eq. split_and!; [done|done|by right].
Qed.

Lemma init_typed : ∃ w, newLoggerManager empty = Ret tt w ∧ typed w.
Proof.
  eexists. split.
  { unfold newLoggerManager. rewrite (bind_Ret _ _ _ _ _ (newLogger_ret empty (of_lit "root"))). reflexivity. }
  cbn. split; cbn.
  - intros l lg Hl. apply lookup_insert_Some in Hl as [(<- & <-)|(Hne & Hl)].
    + split; [|lia]. split_and!; [done|cbn; eauto using default_prints|]. apply Forall_singleton.
      eexists _, default_formatter. cbn. by rewrite lookup_insert_eq.
    + rewrite lookup_insert_ne in Hl by done. by rewrite lookup_empty in Hl.
  - intros a ap Ha. apply lookup_insert_Some in Ha as [(<- & <-)|(Hne & Ha)].
    + cbn. split; [|lia]. intros f [= <-]. apply default_prints.
    + rewrite lookup_insert_ne in Ha by done. by rewrite lookup_empty in Ha.
  - eexists. by rewrite lookup_insert_eq.
  - intros n l [(<- & <-)|(_ & Hl)]%lookup_insert_Some; [|by rewrite lookup_empty in Hl].
    eexists. rewrite lookup_insert_eq. split_and!; [done|done|by left].
Qed.

Lemma set_appenders_formatter_steps w f l :
  typed w → prints f → Forall (ready w) l →
  ∃ w', set_appenders_formatter (Some f) l w = Ret tt w' ∧ steps_to w w'.
Proof.
  revert w. induction l as [|a l IH]; intros w Ht Hp Hl; cbn [set_appenders_formatter]; [eauto using steps_refl|].
  apply Forall_cons in Hl as [(ap & g & Ha & Hg) Hl]. rewrite (bind_Ret _ _ _ _ _ (appender_at_ret w a ap Ha)).
  destruct (a_hasFormatter ap); [by apply IH|].
  set (w1 := set_appenders (<[a := a_set_formatter (Some f) ap]> (appenders w)) w).
  assert (steps_to w w1) as Hs.
  { eapply steps_put_appender; [done|exact Ha|by eexists|]. by intros f' [= <-]. }
  destruct (IH w1) as (w2 & H2 & Hs2); [apply Hs|done| |].
  - eapply Forall_impl; [exact Hl|]. intros b. apply Hs.
  - exists w2. split; [exact H2|]. by eapply steps_trans.
Qed.

Lemma setFormatter_typed w l f :
  typed w → is_Some (loggers w !! l) → prints f → ∃ w', setFormatter l (Some f) w = Ret tt w' ∧ typed w'.
Proof.
  intros Ht [lg Hl] Hp. destruct (t_logger w Ht l lg Hl) as ((_ & _ & Ha) & _).
  unfold setFormatter. rewrite (bind_Ret _ _ _ _ _ (logger_at_ret w l lg Hl)).
  set (w1 := set_loggers (<[l := set_formatter (Some f) lg]> (loggers w)) w).
  assert (typed w1) as Ht1 by (eapply typed_put_logger; [done|exact Hl|done|done|cbn; eauto|done]).
  destruct (set_appenders_formatter_steps w1 f (m_appenders lg) Ht1 Hp) as (w2 & H2 & Hs); [done|].
  exists w2. split; [exact H2|apply Hs].
Qed.

Lemma addAppender_typed w l a :
  typed w → is_Some (loggers w !! l) → is_Some (appenders w !! a) → ∃ w', addAppender l a w = Ret tt w' ∧ typed w'.
Proof.
  intros Ht [lg Hl] [ap Ha]. destruct (t_logger w Ht l lg Hl) as ((_ & (f & Hf & Hp) & Has) & _).
  unfold addAppender. rewrite (bind_Ret _ _ _ _ _ (logger_at_ret w l lg Hl)), (bind_Ret _ _ _ _ _ (appender_at_ret w a ap Ha)).
  case_bool_decide as Hn.
  - set (w1 := set_appenders (<[a := a_set_formatter (m_formatter lg) ap]> (appenders w)) w).
    assert (steps_to w w1) as Hs.
    { eapply steps_put_appender; [done|exact Ha|by rewrite Hn; intros [? [=]]|]. cbn. intros f'. rewrite Hf. by intros [= <-]. }
    eexists. split; [reflexivity|]. eapply (typed_put_logger w1); [apply Hs|exact Hl|done|done|cbn; eauto|].
    cbn. apply Forall_app. split; [eapply Forall_impl; [exact Has|]; intros b; apply Hs|].
    apply Forall_singleton. eexists _, f. cbn. by rewrite lookup_insert_eq.
  - eexists. split; [reflexivity|]. eapply typed_put_logger; [done|exact Hl|done|done|cbn; eauto|].
    cbn. apply Forall_app. split; [done|]. apply Forall_singleton.
    destruct (a_formatter ap) as [g|] eqn:Hg; [|done]. by exists ap, g.
Qed.

Lemma erase_first_subset a l : Forall (λ b, b ∈ l) (erase_first a l).
Proof.
  induction l as [|b l IH]; cbn; [done|]. case_match.
  - apply Forall_forall. intros x Hx. by right.
  - constructor; [by left|]. eapply Forall_impl; [exact IH|]. intros x Hx. by right.
Qed.

(** An operation that only updates one logger, and not its formatter. *)
Lemma update_logger_typed w l (g : Logger → Logger) :
  typed w → is_Some (loggers w !! l) →
  (∀ lg, m_root (g lg) = m_root lg ∧ m_name (g lg) = m_name lg ∧ m_formatter (g lg) = m_formatter lg ∧
         Forall (λ b, b ∈ m_appenders lg) (m_appenders (g lg))) →
  ∃ w', (let! lg := logger_at l in put_logger l (g lg)) w = Ret tt w' ∧ typed w'.
Proof.
  intros Ht [lg Hl] Hg. destruct (t_logger w Ht l lg Hl) as ((_ & (f & Hf & Hp) & Ha) & _).
  destruct (Hg lg) as (Hr & Hn & Hfm & Hs). rewrite (bind_Ret _ _ _ _ _ (logger_at_ret w l lg Hl)).
  eexists. split; [reflexivity|]. eapply typed_put_logger; [done|exact Hl|done|done|rewrite Hfm; eauto|].
  eapply Forall_impl; [exact Hs|]. intros b Hb. rewrite Forall_forall in Ha. by apply Ha.
Qed.

Lemma update_appender_typed w a (g : LogAppender → LogAppender) :
  typed w → is_Some (appenders w !! a) →
  (∀ ap, (is_Some (a_formatter ap) → is_Some (a_formatter (g ap))) ∧
         ∀ f, a_formatter (g ap) = Some f → a_formatter ap = Some f ∨ prints f) →
  ∃ w', (let! ap := appender_at a in put_appender a (g ap)) w = Ret tt w' ∧ typed w'.
Proof.
  intros Ht [ap Ha] Hg. destruct (Hg ap) as [H1 H2]. rewrite (bind_Ret _ _ _ _ _ (appender_at_ret w a ap Ha)).
  eexists. split; [reflexivity|]. eapply typed_put_appender; [done|exact Ha|done|].
  intros f [Hf|Hf]%H2; [|done]. by apply (t_appender w Ht a ap Ha).
Qed.

Lemma setFormatter_str_typed w l pattern :
  typed w → is_Some (loggers w !! l) → fits pattern →
  (∀ f out, LogFormatter.new pattern = Some (f, out) → LogFormatter.isError f = false → prints f) →
  ∃ w', setFormatter_str l pattern w = Ret tt w' ∧ typed w'.
Proof.
  intros Ht [lg Hl] Hf Hp. destruct (LogFormatter.new_spec pattern Hf) as (f & out & Hnew & _).
  unfold setFormatter_str, newLogFormatter. rewrite Hnew.
  set (w1 := set_cout ((cout w ++ of_lit "---" ++ pattern ++ endl) ++ out) w).
  assert (typed w1) as Ht1 by by apply typed_print.
  change (∃ w', (if LogFormatter.isError f then
      (let! lg := logger_at l in
       print (of_lit "Logger setFormatter name = " ++ m_name lg ++ of_lit "value= " ++ pattern
         ++ of_lit " invalid formatter" ++ endl))
      else setFormatter l (Some f)) w1 = Ret tt w' ∧ typed w').
  destruct (LogFormatter.isError f) eqn:He.
  - rewrite (bind_Ret _ _ _ _ _ (logger_at_ret w1 l lg Hl)). eexists. split; [reflexivity|by apply typed_print].
  - apply setFormatter_typed; [done|by eexists|by eapply Hp].
Qed.

Lemma call_typed w c : typed w → call_valid w c → ∃ w', call_run c w = Ret tt w' ∧ typed w'.
Proof.
  intros Ht Hv. destruct c; cbn [call_valid call_run] in *.
  - eexists. split; [reflexivity|]. by apply typed_new_appender.
  - destruct (reopen openable filename (Ofstream false false 0) (files w)) as [st fs] eqn:Er.
    assert ((newFileLogAppender openable filename ;! ret tt) w =
      Ret tt (set_next (S (next w)) (set_appenders (<[next w := Appender false DEBUG None (FileLogAppender filename st 0)]> (appenders w)) (set_files fs w)))) as Hr.
    { unfold newFileLogAppender, bind, get. by rewrite Er. }
    eexists. split; [exact Hr|]. apply (typed_new_appender (set_files fs w)); [by apply typed_files|done].
  - destruct Hv as [Ha Hp]. apply (update_appender_typed w a (a_set_formatter (Some f))); [done|done|].
    intros ap. split; [by eexists|]. intros f' [= <-]. by right.
  - apply (update_appender_typed w a (a_set_level v)); [done|done|]. intros ap. cbn. split; [done|by left].
  - destruct Hv. by apply addAppender_typed.
  - apply (update_logger_typed w l (λ lg, set_list (erase_first a (m_appenders lg)) lg)); [done|done|].
    intros lg. split_and!; [done..|apply erase_first_subset].
  - destruct Hv. by apply setFormatter_typed.
  - destruct Hv as (? & ? & ?). by apply setFormatter_str_typed.
  - apply (update_logger_typed w l (set_list [])); [done|done|]. intros lg. by split_and!.
  - apply (update_logger_typed w l (set_level v)); [done|done|]. intros lg. split_and!; [done..|]. by apply Forall_forall.
  - destruct (getLogger_typed w name Ht) as (l & w' & Hg & Ht' & _). exists w'. by rewrite (bind_Ret _ _ _ _ _ Hg).
  - destruct Hv as [Hl He]. destruct (log_steps openable w l level e Ht Hl He) as (w' & Hr & Hs). exists w'. split; [done|apply Hs].
  - destruct Hv as [[lg Hl] Hn]. unfold LOG_LEVEL.
    assert (getLevel l w = Ret (m_level lg) w) as Hg by (unfold getLevel; by rewrite (bind_Ret _ _ _ _ _ (logger_at_ret w l lg Hl))).
    rewrite (bind_Ret _ _ _ _ _ Hg). case_match; [|by exists w].
    edestruct (log_steps openable w l level) as (w' & Hr & Hs); [done|by exists lg| |by exists w'; split; [exact Hr|apply Hs]].
    exact Hn.
Qed.

Lemma reachable_typed w : reachable w → typed w.
Proof.
  induction 1 as [w Hw|w c w' _ IH Hv Hr].
  - destruct init_typed as (w' & Hw' & Ht). congruence.
  - destruct (call_typed w c IH Hv) as (w1 & Hw1 & Ht). congruence.
Qed.

(** C20. The heap of loggers and appenders stays well typed.  In every world a
    program can reach through the calls of the library, every logger's root,
    formatter and appenders are valid pointers, an appender that has been added
    has a formatter, the root has no root of its own and every name of the
    manager leads to a logger of that name; and every call a program can then
    make returns: none dereferences a null pointer, and [log] recurses into the
    root at most once. *)
Theorem log_world_typed w :
  reachable w → typed w ∧ ∀ c, call_valid w c → ∃ w', call_run c w = Ret tt w' ∧ reachable w'.
Proof.
  intros Hr. pose proof (reachable_typed w Hr) as Ht. split; [done|]. intros c Hv.
  destruct (call_typed w c Ht Hv) as (w' & Hw' & _). exists w'. split; [done|]. by eapply reach_call.
Qed.

End calls.

(** ** Who gets a record *)
Section deliver.
Context (openable : list ascii → bool) `{LibcDefault}.

(** The appenders that [Logger::log] calls: its own, or the root's when it has
    none, unless the level of the logger (or of the root) is above. *)
Definition targets (w : world) (l : nat) (level : Level) : list nat :=
  match loggers w !! l with
  | None => []
  | Some lg =>
      if code (m_level lg) <=? code level then
        match m_appenders lg, m_root lg with
        | [], Some r =>
            match loggers w !! r with
            | Some lr => if code (m_level lr) <=? code level then m_appenders lr else []
            | None => []
            end
        | own, _ => own
        end
      else []
  end.

Lemma log_targets w l level e :
  typed w → is_Some (loggers w !! l) →
  log openable 2 l level e w = for_each (appender_log openable level e) (targets w l level) w ∧
  Forall (ready w) (targets w l level).
Proof.
  intros Ht [lg Hl]. destruct (t_logger w Ht l lg Hl) as ((Hr & _ & Ha) & _).
  unfold targets. rewrite Hl. cbn [log]. rewrite (bind_Ret _ _ _ _ _ (logger_at_ret w l lg Hl)).
  case_match; [|done]. destruct (m_appenders lg) as [|a own]; [|done]. rewrite bool_decide_eq_true_2 by done.
  destruct (m_root lg) as [r|]; [|done]. rewrite (Hr r eq_refl).
  destruct (t_root w Ht) as (lr & Hlr & Hnone). rewrite Hlr, (bind_Ret _ _ _ _ _ (logger_at_ret w _ lr Hlr)).
  destruct (t_logger w Ht _ _ Hlr) as ((_ & _ & Har) & _). case_match; [|done].
  destruct (m_appenders lr); [|done]. by rewrite bool_decide_eq_true_2, Hnone by done.
Qed.

End deliver.

(** ** What a log file holds *)
Section file.
Context (openable : list ascii → bool) `{LibcDefault}.

Fixpoint log_all (a : nat) (evs : list (Level * LogEvent.t)) : M world unit :=
  match evs with
  | [] => ret tt
  | (level, e) :: evs => appender_log openable level e a ;! log_all a evs
  end.

(** The time of the last opening and the records since. *)
Definition window (f : LogFormatter.t) (s : Z * list ascii) (ev : Level * LogEvent.t) : Z * list ascii :=
  let text := default [] (LogFormatter.format f ev.1 ev.2) in
  let now := LogEvent.m_time ev.2 in
  if wrap 64 (s.1 + 3) <=? now then (now, text) else (s.1, s.2 ++ text).

(** The appender [a] writes at the end of the file [name], which it opened at [s.1]. *)
Definition file_appender (w : world) (a : nat) (name : list ascii) (f : LogFormatter.t) (lv : Level)
    (s : Z * list ascii) : Prop :=
  ∃ has, appenders w !! a = Some (Appender has lv (Some f)
      (FileLogAppender name (Ofstream true false (length s.2)) s.1)) ∧
    files w !! name = Some s.2.

(** Only the appender [a], the files and the output differ. *)
Definition others_kept (a : nat) (w w' : world) : Prop :=
  (∀ b, b ≠ a → appenders w' !! b = appenders w !! b) ∧ loggers w' = loggers w ∧ next w' = next w ∧
  mgr_loggers w' = mgr_loggers w ∧ mgr_root w' = mgr_root w.

Lemma put_appender_others a ap w w' :
  appenders w' = <[a := ap]> (appenders w) → loggers w' = loggers w → next w' = next w →
  mgr_loggers w' = mgr_loggers w → mgr_root w' = mgr_root w → others_kept a w w'.
Proof. intros Ha ????. unfold others_kept. rewrite Ha. split_and!; try done. intros b Hb. by rewrite lookup_insert_ne. Qed.

Lemma write_end content text : write_at content (length content) text = content ++ text.
Proof.
  unfold write_at. rewrite Nat.sub_diag. cbn. rewrite app_nil_r, take_ge by done.
  by rewrite drop_ge, app_nil_r by lia.
Qed.

Lemma file_log w a name f lv s level e :
  openable name = true → prints f → good_time e → code lv ≤ code level →
  file_appender w a name f lv s →
  ∃ w', appender_log openable level e a w = Ret tt w' ∧
    file_appender w' a name f lv (window f s (level, e)) ∧ cout w' = cout w ∧
    (∀ name', name' ≠ name → files w' !! name' = files w !! name') ∧ others_kept a w w'.
Proof.
  intros Ho Hp He Hlv (has & Ha & Hfile). destruct (Hp level e He) as [text Htext].
  unfold appender_log. rewrite (bind_Ret _ _ _ _ _ (appender_at_ret w a _ Ha)). cbn [a_kind].
  unfold FileLogAppender_log. cbn [a_level]. rewrite (proj2 (Z.leb_le _ _)) by done. rewrite bind_get.
  set (due := wrap 64 (s.1 + 3) <=? LogEvent.m_time e).
  set (start := if due then [] else s.2).
  set (last := if due then LogEvent.m_time e else s.1).
  set (P := λ (r : ofstream * gmap (list ascii) (list ascii)) (acc : list ascii),
    r.1 = Ofstream true false (length (start ++ acc)) ∧ r.2 !! name = Some (start ++ acc) ∧
    ∀ name', name' ≠ name → r.2 !! name' = files w !! name').
  assert (∃ st0 fs0, (if due then (reopen openable name (Ofstream true false (length s.2)) (files w), LogEvent.m_time e)
    else (Ofstream true false (length s.2), files w, s.1)) = (st0, fs0, last) ∧ P (st0, fs0) []) as (st0 & fs0 & Hst & HP).
  { unfold P, last, start. destruct due.
    - unfold reopen, fopen. cbn. rewrite Ho. eexists _, _. split; [done|]. cbn. rewrite lookup_insert_eq. split_and!; [done|done|].
      intros name' Hn. by rewrite lookup_insert_ne.
    - eexists _, _. split; [done|]. cbn. by rewrite app_nil_r. }
  rewrite Hst. cbn [a_formatter lift]. rewrite LogFormatter.format_text in Htext.
  destruct (LogFormatter.format_to_invariant (fwrite name) P level e (LogFormatter.m_items f) text) with (os := (st0, fs0)) (acc := @nil ascii)
    as ([st1 fs1] & Hfmt & HP1); [|done|done|].
  { intros [st fs] acc x (Hs1 & Hs2 & Hs3). cbn [fst snd] in *. subst st. unfold P, fwrite.
    cbn [failed is_open at_ fst snd]. rewrite Hs2. cbn [default from_option].
    rewrite write_end, lookup_insert_eq, <- (assoc_L (++) start), !length_app. split_and!; [f_equal; lia|done|].
    intros name' Hn. rewrite lookup_insert_ne by done. by apply Hs3. }
  destruct HP1 as (Hs1 & Hs2 & Hs3). cbn in Hs1, Hs2, Hs3. subst st1.
  unfold LogFormatter.format_os. unfold bind at 1, ret at 1. rewrite Hfmt. cbn.
  eexists. split; [reflexivity|]. cbn. split_and!; [|done|exact Hs3|by eapply put_appender_others].
  exists has. unfold window. cbn. rewrite LogFormatter.format_text, Htext. cbn. fold due.
  unfold start, last in *. destruct due; cbn in *; by rewrite lookup_insert_eq.
Qed.

Lemma file_log_all w a name f lv s evs :
  openable name = true → prints f → Forall (λ ev, good_time ev.2 ∧ code lv ≤ code ev.1) evs →
  file_appender w a name f lv s →
  ∃ w', log_all a evs w = Ret tt w' ∧ file_appender w' a name f lv (foldl (window f) s evs) ∧
    ∀ name', name' ≠ name → files w' !! name' = files w !! name'.
Proof.
  intros Ho Hp. revert w s. induction evs as [|[level e] evs IH]; intros w s Hev Hw; [by exists w|].
  apply Forall_cons in Hev as [[He Hlv] Hev].
  destruct (file_log w a name f lv s level e Ho Hp He Hlv Hw) as (w1 & H1 & Hw1 & _ & Ho1 & _).
  destruct (IH w1 _ Hev Hw1) as (w2 & H2 & Hw2 & Ho2). exists w2. cbn [log_all foldl].
  rewrite (bind_Ret _ _ _ _ _ H1). split_and!; [done|done|]. intros name' Hn. by rewrite Ho2, Ho1.
Qed.

(** *** Delivery of a record *)

(** Where an appender's records go: the output; a file, with the time it was opened and
    what it holds; or nowhere, when its stream has failed and cannot be opened again. *)
Inductive sink :=
| ToStdout (f : LogFormatter.t) (lv : Level)
| ToFile (name : list ascii) (f : LogFormatter.t) (lv : Level) (s : Z * list ascii)
| Broken (name : list ascii) (f : LogFormatter.t) (lv : Level).

Definition sink_formatter (k : sink) : LogFormatter.t := match k with ToStdout f _ | ToFile _ f _ _ | Broken _ f _ => f end.
Definition sink_level (k : sink) : Level := match k with ToStdout _ lv | ToFile _ _ lv _ | Broken _ _ lv => lv end.
Definition sink_file (k : sink) : option (list ascii) := match k with ToFile name _ _ _ => Some name | _ => None end.

Definition sink_at (w : world) (a : nat) (k : sink) : Prop :=
  match k with
  | ToStdout f lv => ∃ has, appenders w !! a = Some (Appender has lv (Some f) StdoutLogAppender)
  | ToFile name f lv s => openable name = true ∧ file_appender w a name f lv s
  | Broken name f lv => ∃ has st last, appenders w !! a = Some (Appender has lv (Some f) (FileLogAppender name st last)) ∧
      failed st = true ∧ (is_open st = true ∨ openable name = false)
  end.

(** What a record adds to the output, and what becomes of the sink. *)
Definition on_cout (level : Level) (e : LogEvent.t) (k : sink) : list ascii :=
  if code (sink_level k) <=? code level then
    match k with
    | ToStdout f _ => default [] (LogFormatter.format f level e)
    | ToFile _ _ _ _ => []
    | Broken _ _ _ => of_lit "error of formatter " ++ endl
    end
  else [].

Definition sink_after (level : Level) (e : LogEvent.t) (k : sink) : sink :=
  match k with
  | ToFile name f lv s => ToFile name f lv (if code lv <=? code level then window f s (level, e) else s)
  | k => k
  end.

Lemma stdout_log w level e a f lv :
  sink_at w a (ToStdout f lv) → prints f → good_time e →
  appender_log openable level e a w = Ret tt (set_cout (cout w ++ on_cout level e (ToStdout f lv)) w).
Proof.
  intros [has Ha] Hp He. unfold appender_log. rewrite (bind_Ret _ _ _ _ _ (appender_at_ret w a _ Ha)). cbn [a_kind].
  unfold StdoutLogAppender_log, on_cout. cbn [a_level sink_level]. case_match.
  2:{ rewrite app_nil_r. by destruct w. }
  cbn [a_formatter lift]. destruct (Hp level e He) as [text Htext]. rewrite Htext. cbn [default from_option].
  unfold LogFormatter.format_os. rewrite LogFormatter.format_text in Htext. unfold bind, ret, get.
  rewrite LogFormatter.format_to_text, Htext; [done|intros s; apply app_nil_r|intros x y s; by rewrite (assoc_L (++))].
Qed.

Lemma broken_log w level e a name f lv :
  sink_at w a (Broken name f lv) → prints f → good_time e →
  ∃ w', appender_log openable level e a w = Ret tt w' ∧ sink_at w' a (Broken name f lv) ∧
    cout w' = cout w ++ on_cout level e (Broken name f lv) ∧ files w' = files w ∧ others_kept a w w'.
Proof.
  intros (has & st & last & Ha & Hst & Hno) Hp He. unfold appender_log. rewrite (bind_Ret _ _ _ _ _ (appender_at_ret w a _ Ha)).
  cbn [a_kind]. unfold FileLogAppender_log, on_cout. cbn [a_level sink_level]. destruct (code lv <=? code level).
  2:{ exists w. rewrite app_nil_r. split_and!; try done. by exists has, st, last. }
  rewrite bind_get. set (due := wrap 64 (last + 3) <=? LogEvent.m_time e).
  set (P := λ (r : ofstream * gmap (list ascii) (list ascii)) (_ : list ascii),
    failed r.1 = true ∧ (is_open r.1 = true ∨ openable name = false) ∧ r.2 = files w).
  assert (∃ st0 last0, (if due then (reopen openable name st (files w), LogEvent.m_time e) else (st, files w, last)) = (st0, files w, last0) ∧
    P (st0, files w) []) as (st0 & last0 & -> & HP).
  { destruct due; [|by exists st, last]. unfold reopen, fopen. rewrite Hst. destruct (is_open st) eqn:Ei.
    - eexists _, _. split; [done|]. split_and!; [done|by left|done].
    - destruct Hno as [|Ho]; [congruence|]. rewrite Ho. eexists _, _. split; [done|]. split_and!; [done|by right|done]. }
  cbn [a_formatter lift]. destruct (Hp level e He) as [text Htext]. rewrite LogFormatter.format_text in Htext.
  destruct (LogFormatter.format_to_invariant (fwrite name) P level e (LogFormatter.m_items f) text) with (os := (st0, files w)) (acc := @nil ascii)
    as ([st1 fs1] & Hfmt & HP1); [|done|done|].
  { intros [st' fs'] acc x (Hs1 & Hs2 & Hs3). unfold P, fwrite. cbn [fst snd] in *. by rewrite Hs1. }
  destruct HP1 as (Hs1 & Hs2 & Hs3). cbn in Hs1, Hs2, Hs3. subst fs1.
  unfold LogFormatter.format_os. unfold bind at 1, ret at 1. rewrite Hfmt. cbn. rewrite Hs1.
  eexists. split; [reflexivity|]. cbn. split_and!; try done; [|by eapply put_appender_others].
  exists has, st1, last0. by rewrite lookup_insert_eq.
Qed.

(** One appender. *)
Lemma sink_log w level e a k :
  sink_at w a k → prints (sink_formatter k) → good_time e →
  ∃ w', appender_log openable level e a w = Ret tt w' ∧ sink_at w' a (sink_after level e k) ∧
    cout w' = cout w ++ on_cout level e k ∧
    (∀ name, sink_file k ≠ Some name → files w' !! name = files w !! name) ∧ others_kept a w w'.
Proof.
  intros Hk Hp He. destruct k as [f lv|name f lv s|name f lv]; cbn [sink_formatter] in Hp.
  - rewrite (stdout_log w level e a f lv Hk Hp He). eexists. split; [reflexivity|]. by split_and!.
  - destruct Hk as [Ho Hfile]. cbn [sink_at sink_after]. unfold on_cout. cbn [sink_level]. destruct (Z.leb_spec (code lv) (code level)).
    + destruct (file_log w a name f lv s level e Ho Hp He) as (w' & Hw & Hf & Hc & Hn & Hk); [done|done|].
      exists w'. rewrite app_nil_r. split_and!; try done. intros name' Hne. apply Hn. cbn in Hne. congruence.
    + exists w. rewrite app_nil_r. split_and!; try done. unfold appender_log. destruct Hfile as (has & Ha & _).
      rewrite (bind_Ret _ _ _ _ _ (appender_at_ret w a _ Ha)). cbn [a_kind]. unfold FileLogAppender_log. cbn [a_level].
      by rewrite (proj2 (Z.leb_gt _ _)).
  - destruct (broken_log w level e a name f lv Hk Hp He) as (w' & Hw & Hf & Hc & Hn & Hk'). exists w'.
    split_and!; try done. intros. by rewrite Hn.
Qed.

(** A sink another appender's record leaves alone. *)
Lemma sink_kept w w' a b k k' :
  others_kept a w w' → b ≠ a → (∀ name, sink_file k ≠ Some name → files w' !! name = files w !! name) →
  (∀ name, sink_file k = Some name → sink_file k' ≠ Some name) → sink_at w b k' → sink_at w' b k'.
Proof.
  intros (Ha & _) Hb Hf Hd Hk. specialize (Ha b Hb). destruct k' as [f lv|name f lv s|name f lv]; cbn in *; try (by rewrite Ha).
  destruct Hk as (Ho & has & Hap & Hfile). split; [done|]. exists has. rewrite Ha. split; [done|]. rewrite Hf; [done|].
  intros E. by destruct (Hd name E).
Qed.

Lemma sink_kept_all w w' a (l : list nat) (sinks : list sink) k :
  a ∉ l → (∀ b, b ∉ l → appenders w' !! b = appenders w !! b) →
  (∀ name, name ∉ omap sink_file sinks → files w' !! name = files w !! name) →
  (∀ name, sink_file k = Some name → name ∉ omap sink_file sinks) → sink_at w a k → sink_at w' a k.
Proof.
  intros Ha Hap Hf Hd. specialize (Hap a Ha). destruct k as [f lv|name f lv s|name f lv]; cbn; try (by rewrite Hap).
  intros (Ho & has & H1 & H2). split; [done|]. exists has. rewrite Hap. split; [done|]. rewrite Hf; [done|]. by apply Hd.
Qed.

(** All appenders of a list, each once, no two on the same file. *)
Lemma for_each_sinks w level e l sinks :
  Forall2 (sink_at w) l sinks → Forall (λ k, prints (sink_formatter k)) sinks → good_time e → NoDup l → NoDup (omap sink_file sinks) →
  ∃ w', for_each (appender_log openable level e) l w = Ret tt w' ∧ Forall2 (sink_at w') l (sink_after level e <$> sinks) ∧
    cout w' = cout w ++ concat (on_cout level e <$> sinks) ∧
    (∀ name, name ∉ omap sink_file sinks → files w' !! name = files w !! name) ∧
    (∀ b, b ∉ l → appenders w' !! b = appenders w !! b) ∧
    loggers w' = loggers w ∧ next w' = next w ∧ mgr_loggers w' = mgr_loggers w ∧ mgr_root w' = mgr_root w.
Proof.
  intros Hs Hp He. revert w Hs. induction Hp as [|k sinks Hpk Hp IH] in l |- *; intros w Hs Hnd Hfs.
  { apply Forall2_nil_inv_r in Hs as ->. exists w. cbn. rewrite app_nil_r. by split_and!. }
  apply Forall2_cons_inv_r in Hs as (a & l' & Hka & Hs & ->). apply NoDup_cons in Hnd as [Ha Hnd].
  destruct (sink_log w level e a k Hka Hpk He) as (w1 & Hw1 & Hk1 & Hc1 & Hf1 & Ho1).
  assert (NoDup (omap sink_file sinks) ∧ (∀ name, sink_file k = Some name → name ∉ omap sink_file sinks)) as [Hfs' Hdis].
  { cbn in Hfs. destruct (sink_file k) as [n|]; [|done]. apply NoDup_cons in Hfs as [? ?]. split; [done|]. by intros name [= <-]. }
  destruct (IH l' w1) as (w2 & Hw2 & Hk2 & Hc2 & Hf2 & Ha2 & Hl2 & Hn2 & Hm2 & Hr2); [|done|done|].
  { eapply Forall2_same_length_lookup_2; [by apply Forall2_length in Hs|]. intros i b k' Hb Hk'.
    pose proof (Forall2_lookup_lr _ _ _ _ _ _ Hs Hb Hk') as Hbk. eapply sink_kept; [done| |done| |done].
    - intros ->. apply Ha. by eapply list_elem_of_lookup_2.
    - intros name E E'. apply (Hdis name E). apply list_elem_of_omap. exists k'. split; [by eapply list_elem_of_lookup_2|done]. }
  destruct Ho1 as (Ho1 & Hl1 & Hn1 & Hm1 & Hr1). exists w2. cbn [for_each fmap list_fmap]. rewrite (bind_Ret _ _ _ _ _ Hw1).
  split_and!; try (done || congruence).
  - constructor; [|done]. eapply (sink_kept_all w1 w2 a l' sinks); try done. by intros name E; apply Hdis; destruct k.
  - rewrite Hc2, Hc1. cbn [concat]. by rewrite <- (assoc_L (++)).
  - intros name Hn. rewrite Hf2, Hf1; [done| |]; cbn in Hn; destruct (sink_file k) as [n|]; try done;
      apply not_elem_of_cons in Hn as [? ?]; congruence.
  - intros b Hb. apply not_elem_of_cons in Hb as [Hba Hb]. by rewrite Ha2, Ho1.
Qed.


(** The state the constructor and [setFormatter] leave. *)
Lemma new_file_appender w name f :
  openable name = true →
  ∃ w', (let! a := newFileLogAppender openable name in appender_setFormatter a (Some f) ;! ret a) w = Ret (next w) w' ∧
    file_appender w' (next w) name f DEBUG (0, []).
Proof.
  intros Ho. unfold newFileLogAppender, reopen, fopen, fclose, bind, get. cbn [failed is_open at_ fst snd]. rewrite Ho.
  unfold alloc_appender, appender_setFormatter, bind, get, put, ret.
  assert (∀ (v : LogAppender) w0, appender_at (next w)
    (set_next (S (next w)) (set_appenders (<[next w := v]> (appenders w)) w0)) = Ret v (set_next (S (next w)) (set_appenders (<[next w := v]> (appenders w)) w0))) as Hat
    by (intros; apply appender_at_ret; apply lookup_insert_eq).
  cbn [next set_files appenders]. rewrite Hat. eexists. split; [reflexivity|].
  exists false. cbn. by rewrite !lookup_insert_eq.
Qed.

(** What a log file holds.  [reopen] opens the file in the default mode, which
    empties it, and [log] reopens when three seconds have passed since the last
    opening: the file holds only the records since then, and a record that comes
    three seconds or more after the last opening is alone in the file.  Other
    files are not touched. *)
Theorem file_window w a name f lv s evs :
  openable name = true → prints f → Forall (λ ev, good_time ev.2 ∧ code lv ≤ code ev.1) evs →
  file_appender w a name f lv s →
  ∃ w', log_all a evs w = Ret tt w' ∧
    files w' !! name = Some (foldl (window f) s evs).2 ∧
    (∀ evs' ev, evs = evs' ++ [ev] → wrap 64 ((foldl (window f) s evs').1 + 3) ≤ LogEvent.m_time ev.2 →
       files w' !! name = LogFormatter.format f ev.1 ev.2) ∧
    ∀ name', name' ≠ name → files w' !! name' = files w !! name'.
Proof.
  intros Ho Hp Hev Hw. destruct (file_log_all w a name f lv s evs Ho Hp Hev Hw) as (w' & Hr & (has & _ & Hf) & Hn).
  exists w'. split_and!; [done|done| |done]. intros evs' ev -> Hdue. rewrite Hf, foldl_snoc. unfold window at 1.
  rewrite (proj2 (Z.leb_le _ _)) by done. cbn.
  apply Forall_app in Hev as [_ [[He _] _]%Forall_cons]. by destruct (Hp ev.1 ev.2 He) as [text ->].
Qed.

End file.

(** ** A C library to run the examples with: dates print as their format *)
#[local] Instance sim_libc : Libc := {|
  tm := Z;
  localtime_r t := Some t;
  strftime max fmt _ := if Z.of_nat (length fmt) <? max then Some fmt else None;
  show_pointer _ := of_lit "0x1";
|}.

#[local] Instance sim_libc_laws : LibcLaws.
Proof. split. intros max fmt t s. cbn. case_match eqn:E; [|done]. intros [= <-]. lia. Qed.

#[local] Instance sim_libc_default : LibcDefault.
Proof. split. intros t. by eexists. Qed.

Definition sim_start : world :=
  match newLoggerManager empty with Ret _ w => w | _ => empty end.

Definition sim_event (time : Z) (text : list ascii) : LogEvent.t :=
  LogEvent.Event (of_lit "a.cc") 7 0 1 2 time (of_lit "main") text 0 INFO.

Lemma sim_reachable : reachable (λ _, true) sim_start.
Proof. apply reach_init. by vm_compute. Qed.

Lemma log_world_typed_witness :
  reachable (λ _, true) sim_start ∧ typed sim_start ∧
  (∀ c, call_valid sim_start c → ∃ w', call_run (λ _, true) c sim_start = Ret tt w' ∧ reachable (λ _, true) w').
Proof. split; [exact sim_reachable|]. apply (log_world_typed (λ _, true) sim_start). exact sim_reachable. Defined.

Definition sim_message : LogFormatter.t :=
  LogFormatter.Formatter (of_lit "%m") [LogFormatter.MessageFormatItem] false.

Definition sim_file : world :=
  match (let! a := newFileLogAppender (λ _, true) (of_lit "f") in
         appender_setFormatter a (Some sim_message)) empty with Ret _ w => w | _ => empty end.

(** Records at 10, 11 and 14 seconds: the last is all the file holds. *)
Definition sim_records : list (Level * LogEvent.t) :=
  [(INFO, sim_event 10 (of_lit "a")); (INFO, sim_event 11 (of_lit "b")); (INFO, sim_event 14 (of_lit "c"))].

Lemma file_window_witness :
  (foldl (window sim_message) (0, []) sim_records).2 = of_lit "c" ∧
  ∃ w', log_all (λ _, true) 0 sim_records sim_file = Ret tt w' ∧
    files w' !! of_lit "f" = Some (foldl (window sim_message) (0, []) sim_records).2 ∧
    (∀ evs' ev, sim_records = evs' ++ [ev] →
       wrap 64 ((foldl (window sim_message) (0, []) evs').1 + 3) ≤ LogEvent.m_time ev.2 →
       files w' !! of_lit "f" = LogFormatter.format sim_message ev.1 ev.2) ∧
    ∀ name', name' ≠ of_lit "f" → files w' !! name' = files sim_file !! name'.
Proof.
  split; [by vm_compute|].
  apply (file_window (λ _, true) sim_file 0 (of_lit "f") sim_message DEBUG (0, []) sim_records).
  - done.
  - intros level e _. by eexists.
  - apply (bool_decide_unpack _). by vm_compute.
  - exists false. by vm_compute.
Defined.

(** The root with a file beside the output. *)
Definition sim_both : world :=
  match (let! a := newFileLogAppender (λ _, true) (of_lit "f") in
         addAppender 0 a) sim_start with Ret _ w => w | _ => sim_start end.

Lemma sim_both_reachable : reachable (λ _, true) sim_both.
Proof.
  assert (reachable (λ _, true) (match newFileLogAppender (λ _, true) (of_lit "f") sim_start with Ret _ w => w | _ => sim_start end)) as H1.
  { apply (reach_call (λ _, true) sim_start (CFile (of_lit "f"))); [exact sim_reachable|done|by vm_compute]. }
  eapply (reach_call (λ _, true) _ (CAdd 0 2)); [exact H1| |by vm_compute].
  split; apply (bool_decide_unpack _); by vm_compute.
Qed.

Definition sim_sinks : list sink := [ToStdout default_formatter DEBUG; ToFile (of_lit "f") default_formatter DEBUG (0, [])].


End Log.
