(* ===== verification/Yaml.v ===== *)
(** * Yaml: the interface of yaml-cpp the library uses

    yaml-cpp is not part of the repository.  [Yaml] lists the members of
    [YAML::Node] the library calls, [YamlLaws] what it relies on; both are
    arguments of everything that converts to or from YAML.  Exceptions of the
    library are [None].  [TreeYaml] is a small implementation that satisfies the
    laws, to run examples with. *)
From stdpp Require Import countable.
From S2P Require Import Prelude Util.
Import StdString.
#[local] Open Scope list_scope.
#[local] Open Scope Z_scope.

Class Yaml := {
  node : Type;
  (** a default-constructed node *)
  Null : node;
  (** [YAML::Load(text)] and [os << node] *)
  Load : list ascii → option node;
  emit : node → list ascii;
  (** [n[key]] *)
  index : node → list ascii → option node;
  IsDefined : node → bool;
  as_string : node → option (list ascii);
  size : node → nat;
  (** [n[i]] *)
  at_index : node → nat → option node;
  (** [n[key] = text], [n[key].push_back(m)] and [n.push_back(m)] *)
  set_string : node → list ascii → list ascii → node;
  push_at : node → list ascii → node → node;
  push_back : node → node → node;
  (** [YAML::Node(YAML::NodeType::Sequence)] and [YAML::Node(YAML::NodeType::Map)] *)
  Sequence : node;
  Map : node;
  (** [n[key] = m], and the pairs from [n.begin()] to [n.end()], keys as scalars *)
  set_node : node → list ascii → node → node;
  pairs : node → list (list ascii * node);
  IsMap : node → bool;
  IsScalar : node → bool;
  Scalar : node → list ascii;
}.

(** [n] is a map in which [key] holds the string [v] ([None]: [key] is not there). *)
Definition holds `{Yaml} (n : node) (key : list ascii) (v : option (list ascii)) : Prop :=
  ∃ m, index n key = Some m ∧ IsDefined m = bool_decide (is_Some v) ∧ as_string m = v.

(** [n] is a map in which [key] holds the sequence [ms]; an absent key and an
    empty sequence have the same elements. *)
Definition elements `{Yaml} (n : node) (key : list ascii) (ms : list node) : Prop :=
  ∃ m, index n key = Some m ∧ size m = length ms ∧ (∀ i e, ms !! i = Some e → at_index m i = Some e) ∧
    (ms ≠ [] → IsDefined m = true).

(** [n] is a sequence of the nodes [ms]. *)
Definition sequence `{Yaml} (n : node) (ms : list node) : Prop :=
  size n = length ms ∧ ∀ i e, ms !! i = Some e → at_index n i = Some e.

Class YamlLaws `{Yaml} := {
  (** what is printed can be read back *)
  Load_emit n : Load (emit n) = Some n;
  holds_Null key : holds Null key None;
  elements_Null key : elements Null key [];
  holds_set n key v key' v' :
    holds n key' v' → holds (set_string n key v) key' (if bool_decide (key = key') then Some v else v');
  elements_set n key v key' ms : key ≠ key' → elements n key' ms → elements (set_string n key v) key' ms;
  holds_push n key m key' v : key ≠ key' → holds n key' v → holds (push_at n key m) key' v;
  elements_push n key m ms : elements n key ms → elements (push_at n key m) key (ms ++ [m]);
  sequence_new : sequence Sequence [];
  sequence_push n ms m : sequence n ms → sequence (push_back n m) (ms ++ [m]);
  pairs_new : pairs Map = [];
  pairs_set n key m : key ∉ (pairs n).*1 → pairs (set_node n key m) = pairs n ++ [(key, m)];
}.

(** A document is a finite tree: the values of a map are smaller than the map. *)
Class YamlTree `{Yaml} := {
  depth : node → nat;
  depth_pairs n p : p ∈ pairs n → (depth p.2 < depth n)%nat;
}.

(** ** An implementation: trees, printed as the digits of their encoding *)
Module TreeYaml.

#[local] Set Warnings "-register-all".

Inductive value :=
| VUndefined
| VNull
| VString (s : list ascii)
| VSeq (l : list value)
| VMap (l : list (list ascii * value)).

(** An encoding as a generic tree, which is countable. *)
Fixpoint to_tree (v : value) : gen_tree (list ascii) :=
  match v with
  | VUndefined => GenNode 4 []
  | VNull => GenNode 0 []
  | VString s => GenLeaf s
  | VSeq l => GenNode 1 (to_tree <$> l)
  | VMap l => GenNode 2 ((λ p, GenNode 3 [GenLeaf p.1; to_tree p.2]) <$> l)
  end.

Fixpoint of_tree (t : gen_tree (list ascii)) : value :=
  match t with
  | GenLeaf s => VString s
  | GenNode 1 l => VSeq (of_tree <$> l)
  | GenNode 2 l =>
      VMap ((λ p, match p with GenNode 3 [GenLeaf k; x] => (k, of_tree x) | _ => ([], VNull) end) <$> l)
  | GenNode 4 _ => VUndefined
  | GenNode _ _ => VNull
  end.

Fixpoint of_to_tree (v : value) : of_tree (to_tree v) = v.
Proof.
  destruct v as [| |s|l|l]; cbn; [done|done|done|f_equal..].
  - induction l as [|x l IH]; cbn; [done|]. by rewrite of_to_tree, IH.
  - induction l as [|[k x] l IH]; cbn; [done|]. by rewrite of_to_tree, IH.
Qed.

(** Positive numbers as digits. *)
Fixpoint digits (p : positive) : list ascii :=
  match p with
  | xH => []
  | xO p => "0"%char :: digits p
  | xI p => "1"%char :: digits p
  end.

Fixpoint undigits (s : list ascii) : positive :=
  match s with
  | [] => xH
  | c :: s => if Ascii.eqb c "0" then xO (undigits s) else xI (undigits s)
  end.

Lemma undigits_digits p : undigits (digits p) = p.
Proof. induction p as [p IH|p IH|]; cbn; by rewrite ?IH. Qed.

Definition get_key (key : list ascii) (l : list (list ascii * value)) : value :=
  match List.find (λ p, bool_decide (p.1 = key)) l with Some p => p.2 | None => VUndefined end.

Definition entries (n : value) : list (list ascii * value) :=
  match n with VMap l => l | _ => [] end.

Definition tree_index (n : value) (key : list ascii) : option value :=
  match n with
  | VMap l => Some (get_key key l)
  | VNull | VUndefined => Some VUndefined
  | _ => None
  end.

(** [n[key]] becomes [f] of what it was. *)
Definition tree_set (n : value) (key : list ascii) (f : value → value) : value :=
  VMap ((key, f (get_key key (entries n))) :: entries n).

Definition push (m old : value) : value :=
  match old with VSeq l => VSeq (l ++ [m]) | _ => VSeq [m] end.

Definition tree_size (n : value) : nat :=
  match n with VSeq l => length l | VMap l => length l | _ => 0 end.

#[export] Instance tree_yaml : Yaml := {|
  node := value;
  Null := VNull;
  Load s := of_tree <$> decode (undigits s);
  emit n := digits (encode (to_tree n));
  index := tree_index;
  IsDefined n := match n with VUndefined => false | _ => true end;
  as_string n := match n with VString s => Some s | _ => None end;
  size := tree_size;
  at_index n i := match n with VSeq l => l !! i | _ => None end;
  set_string n key v := tree_set n key (λ _, VString v);
  push_at n key m := tree_set n key (push m);
  push_back n m := push m n;
  Sequence := VSeq [];
  Map := VMap [];
  set_node n key m :=
    if bool_decide (key ∈ (entries n).*1) then tree_set n key (λ _, m) else VMap (entries n ++ [(key, m)]);
  pairs := entries;
  IsMap n := match n with VMap _ => true | _ => false end;
  IsScalar n := match n with VString _ => true | _ => false end;
  Scalar n := match n with VString s => s | _ => [] end;
|}.

Lemma index_get n key m : tree_index n key = Some m → m = get_key key (entries n).
Proof. destruct n; cbn; by intros [= <-]. Qed.

Lemma get_key_cons key v key' l :
  get_key key' ((key, v) :: l) = if bool_decide (key = key') then v else get_key key' l.
Proof. unfold get_key. cbn. by case_bool_decide. Qed.

Lemma index_set n key f key' m :
  tree_index n key' = Some m →
  tree_index (tree_set n key f) key' = Some (if bool_decide (key = key') then f m else m).
Proof.
  intros ->%index_get. cbn. rewrite get_key_cons. by case_bool_decide; subst.
Qed.

(** Appending to a sequence: an empty sequence may be any node without elements. *)
Lemma push_sequence m n ms :
  tree_size n = length ms →
  (∀ i e, ms !! i = Some e → match n with VSeq l => l !! i | _ => None end = Some e) →
  push m n = VSeq (ms ++ [m]).
Proof.
  intros Hs Ha. destruct ms as [|e ms].
  - destruct n as [| | |[]|]; done.
  - pose proof (Ha 0%nat e eq_refl) as H0. destruct n as [| | |l|]; try done. enough (l = e :: ms) as -> by done.
    apply list_eq_same_length with (length (e :: ms)); [done|done|].
    intros i x y Hi' Hx Hy. specialize (Ha i y Hy). congruence.
Qed.

#[export] Instance tree_yaml_laws : YamlLaws.
Proof.
  split; unfold holds, elements, sequence;
    cbn [index IsDefined as_string size at_index Load emit Null set_string push_at push_back Sequence Map pairs set_node
      tree_yaml node].
  - intros n. rewrite undigits_digits, decode_encode. cbn. by rewrite of_to_tree.
  - intros key. by eexists.
  - intros key. by eexists.
  - intros n key v key' v' (m & Hi & Hd & Ha). rewrite (index_set _ _ _ _ _ Hi). eexists. split; [done|].
    destruct (bool_decide (key = key')); [|done]. split; [|done]. symmetry. by apply bool_decide_eq_true_2.
  - intros n key v key' ms Hne (m & Hi & Hm). rewrite (index_set _ _ _ _ _ Hi), bool_decide_eq_false_2 by done. eauto.
  - intros n key m key' v Hne (m' & Hi & Hm). rewrite (index_set _ _ _ _ _ Hi), bool_decide_eq_false_2 by done. eauto.
  - intros n key m ms (m' & Hi & Hs & Ha & _). rewrite (index_set _ _ _ _ _ Hi), bool_decide_eq_true_2 by done.
    eexists. split; [done|]. rewrite (push_sequence m m' ms Hs Ha). by split_and!.
  - done.
  - intros n ms m [Hs Ha]. rewrite (push_sequence m n ms Hs Ha). by split.
  - done.
  - intros n key m Hk. by rewrite bool_decide_eq_false_2.
Qed.

Fixpoint tree_depth (v : value) : nat :=
  match v with
  | VMap l => S (foldr (λ p, Nat.max (tree_depth p.2)) 0%nat l)
  | _ => 0
  end.

#[export] Instance tree_yaml_tree : YamlTree.
Proof.
  refine {| depth := tree_depth : node → nat |}. intros n p Hp. destruct n as [| | |l|l]; try by apply not_elem_of_nil in Hp.
  change (p ∈ l) in Hp. cbn [tree_depth]. induction l as [|q l IH]; [by apply not_elem_of_nil in Hp|].
  cbn [foldr]. apply elem_of_cons in Hp as [->|Hp].
  - apply Nat.lt_succ_r, Nat.le_max_l.
  - eapply Nat.lt_le_trans; [exact (IH Hp)|]. apply le_n_S, Nat.le_max_r.
Defined.

End TreeYaml.
