(* ===== verification/Logconf.v ===== *)
(** * Logconf: the logs of the configuration (src/bobliew/log.cc)

    [LogDefine] is what the configuration says of a logger, with its conversions
    to and from YAML; [on_change] is the listener of the configuration variable,
    which applies a new set of definitions to the loggers of Log.v.

    [define_roundtrip]: a definition printed as YAML is read back, unless an
    appender has a formatter of its own.  [on_change_applies]: what the loggers
    are after a change.  [removed_logger_prints]: a logger taken out of the
    configuration prints everything through the root. *)
From stdpp Require Import sorting.
From S2P Require Import Prelude Util Cstring Http Logformat Log Yaml.
Import StdString LogLevel Log.
#[local] Open Scope list_scope.
#[local] Open Scope Z_scope.
#[local] Set Warnings "-clear-no-such-hyp".

Module LogConf.

(** ** Data *)

Record LogAppenderDefine := AppenderDefine {
  ad_type : Z;
  ad_level : Level;
  ad_formatter : list ascii;
  ad_file : list ascii;
}.

#[export] Instance LogAppenderDefine_eq_dec : EqDecision LogAppenderDefine.
Proof. solve_decision. Defined.

Record LogDefine := Define {
  d_name : list ascii;
  d_level : Level;
  d_formatter : list ascii;
  d_appenders : list LogAppenderDefine;
}.

Definition appender_define_eq (x y : LogAppenderDefine) : bool :=
  (ad_type x =? ad_type y) && bool_decide (ad_level x = ad_level y)
  && bool_decide (ad_formatter x = ad_formatter y) && bool_decide (ad_file x = ad_file y).

(** [==] of vectors *)
Fixpoint appenders_eq (xs ys : list LogAppenderDefine) : bool :=
  match xs, ys with
  | [], [] => true
  | x :: xs, y :: ys => appender_define_eq x y && appenders_eq xs ys
  | _, _ => false
  end.

Definition define_eq (x y : LogDefine) : bool :=
  bool_decide (d_name x = d_name y) && bool_decide (d_level x = d_level y)
  && bool_decide (d_formatter x = d_formatter y) && appenders_eq (d_appenders x) (d_appenders y).

(** [<] of strings *)
Fixpoint str_lt (a b : list ascii) : bool :=
  match a, b with
  | [], [] => false
  | [], _ :: _ => true
  | _ :: _, [] => false
  | x :: a, y :: b => (b2z x <? b2z y) || ((b2z x =? b2z y) && str_lt a b)
  end.

Definition define_lt (x y : LogDefine) : bool := str_lt (d_name x) (d_name y).

Definition isValid (d : LogDefine) : bool := negb (bool_decide (d_name d = [])).

(** [std::set<LogDefine>::find]: the element equivalent to [i] in the order. *)
Definition set_find (i : LogDefine) (s : list LogDefine) : option LogDefine :=
  List.find (λ j, negb (define_lt i j) && negb (define_lt j i)) s.

(** ** YAML *)
Section yaml.
Context `{Yaml}.

(** [n[key].IsDefined() ? n[key].as<std::string>() : ""] *)
Definition string_or_empty (n : node) (key : list ascii) : M world (list ascii) :=
  let! v := or_throw invalid_argument (index n key) in
  if IsDefined v then or_throw invalid_argument (as_string v) else ret [].

Definition is_defined (n : node) (key : list ascii) : M world bool :=
  let! v := or_throw invalid_argument (index n key) in ret (IsDefined v).

(** [n[key].as<std::string>()] *)
Definition as_str (n : node) (key : list ascii) : M world (list ascii) :=
  let! v := or_throw invalid_argument (index n key) in or_throw invalid_argument (as_string v).

(** The format of an appender: the code asks whether [formatter] is there and
    reads [fomatter]. *)
Definition read_formatter (a : node) : M world (list ascii) :=
  let! d := is_defined a (of_lit "formatter") in
  if d then as_str a (of_lit "fomatter") else ret [].

(** One round of the loop over the appenders; [None] is [continue]. *)
Definition read_appender (a : node) : M world (option LogAppenderDefine) :=
  let! d := is_defined a (of_lit "type") in
  if d then
    let! type := as_str a (of_lit "type") in
    let! lv := string_or_empty a (of_lit "level") in
    let level := FromString lv in
    if bool_decide (type = of_lit "FileLogAppender") then
      let! df := is_defined a (of_lit "file") in
      if df then
        let! file := as_str a (of_lit "file") in
        let! formatter := read_formatter a in
        ret (Some (AppenderDefine 1 level formatter file))
      else print (of_lit "log config error: FileLogAppender file is null" ++ emit a ++ endl) ;! ret None
    else if bool_decide (type = of_lit "StdoutLogAppender") then
      let! formatter := read_formatter a in
      ret (Some (AppenderDefine 2 level formatter []))
    else ret (Some (AppenderDefine 0 level [] []))
  else print (of_lit "log config error: appender type is null, " ++ emit a ++ endl) ;! ret None.

(** The loop [for(size_t x = 0; x < n["appenders"].size(); ++x)], [rounds] of them from [x]. *)
Fixpoint read_appenders (seq : node) (x rounds : nat) : M world (list LogAppenderDefine) :=
  match rounds with
  | O => ret []
  | S rounds =>
      let! a := or_throw invalid_argument (at_index seq x) in
      let! d := read_appender a in
      let! ds := read_appenders seq (S x) rounds in
      ret (match d with Some d => d :: ds | None => ds end)
  end.

(** [LexicalCast<std::string, LogDefine>] *)
Definition from_string (v : list ascii) : M world LogDefine :=
  let! n := or_throw invalid_argument (Load v) in
  let! dn := is_defined n (of_lit "name") in
  if dn then
    let! name := as_str n (of_lit "name") in
    let! lv := string_or_empty n (of_lit "level") in
    let! formatter := string_or_empty n (of_lit "formatter") in
    let! da := is_defined n (of_lit "appenders") in
    let! ds := (if da then
                  let! seq := or_throw invalid_argument (index n (of_lit "appenders")) in
                  read_appenders seq 0 (size seq)
                else ret []) in
    ret (Define name (FromString lv) formatter ds)
  else print (of_lit "log config error: name is null, " ++ emit n ++ endl) ;! throw logic_error.

(** [if(level != UNKNOW) n["level"] = ToString(level)] *)
Definition put_level (level : Level) (n : node) : node :=
  if bool_decide (level = UNKNOW) then n else set_string n (of_lit "level") (ToString level).

Definition put_formatter (formatter : list ascii) (n : node) : node :=
  if bool_decide (formatter = []) then n else set_string n (of_lit "formatter") formatter.

Definition appender_node (a : LogAppenderDefine) : node :=
  put_formatter (ad_formatter a) (put_level (ad_level a)
    (if ad_type a =? 1 then set_string (set_string Null (of_lit "type") (of_lit "FileLogAppender")) (of_lit "file") (ad_file a)
     else if ad_type a =? 2 then set_string Null (of_lit "type") (of_lit "StdoutLogAppender")
     else Null)).

Definition define_node (i : LogDefine) : node :=
  foldl (λ n a, push_at n (of_lit "appenders") (appender_node a))
    (put_formatter (d_formatter i) (put_level (d_level i) (set_string Null (of_lit "name") (d_name i))))
    (d_appenders i).

(** [LexicalCast<LogDefine, std::string>] *)
Definition to_string (i : LogDefine) : list ascii := emit (define_node i).

(** [toYamlString] of the two appenders *)
Definition appender_toYamlString (ap : LogAppender) : list ascii :=
  let n := match a_kind ap with
           | FileLogAppender m_filename _ _ =>
               set_string (set_string Null (of_lit "type") (of_lit "FileLogAppender")) (of_lit "file") m_filename
           | StdoutLogAppender => set_string Null (of_lit "type") (of_lit "StdoutLogAppender")
           end in
  let n := put_level (a_level ap) n in
  emit (match a_hasFormatter ap, a_formatter ap with
        | true, Some f => set_string n (of_lit "formatter") (LogFormatter.getPattern f)
        | _, _ => n
        end).

Fixpoint push_appenders (n : node) (l : list nat) : M world node :=
  match l with
  | [] => ret n
  | a :: l =>
      let! ap := appender_at a in
      let! m := or_throw invalid_argument (Load (appender_toYamlString ap)) in
      push_appenders (push_at n (of_lit "appenders") m) l
  end.

Definition logger_toYamlString (l : nat) : M world (list ascii) :=
  let! lg := logger_at l in
  let n := put_level (m_level lg) (set_string Null (of_lit "name") (m_name lg)) in
  let n := match m_formatter lg with
           | Some f => set_string n (of_lit "formatter") (LogFormatter.getPattern f)
           | None => n
           end in
  let! n := push_appenders n (m_appenders lg) in
  ret (emit n).

Fixpoint push_loggers (n : node) (ls : list nat) : M world node :=
  match ls with
  | [] => ret n
  | l :: ls =>
      let! s := logger_toYamlString l in
      let! m := or_throw invalid_argument (Load s) in
      push_loggers (push_back n m) ls
  end.

(** A [std::map] is walked in the order of its keys. *)
Definition key_le (p q : list ascii * nat) : Prop := str_lt q.1 p.1 = false.

#[export] Instance key_le_dec p q : Decision (key_le p q).
Proof. unfold key_le. apply _. Defined.

Definition in_order (m : gmap (list ascii) nat) : list nat := snd <$> merge_sort key_le (map_to_list m).

Definition manager_toYamlString : M world (list ascii) :=
  let! w := get in
  let! n := push_loggers Null (in_order (mgr_loggers w)) in
  ret (emit n).

End yaml.

(** ** The listener *)
Section listener.
Context (openable : list ascii → bool) `{Libc}.

(** The body of the loop over the appenders of a definition. *)
Definition add_define (l : nat) (a : LogAppenderDefine) : M world unit :=
  let! ap := (if ad_type a =? 1 then let! p := newFileLogAppender openable (ad_file a) in ret (Some p)
              else if ad_type a =? 2 then let! p := newStdoutLogAppender in ret (Some p)
              else ret None) in
  match ap with
  | None => ub
  | Some p => appender_setLevel p (ad_level a) ;! addAppender l p
  end.

Fixpoint add_defines (l : nat) (ds : list LogAppenderDefine) : M world unit :=
  match ds with
  | [] => ret tt
  | a :: ds => add_define l a ;! add_defines l ds
  end.

(** A definition that is new or has changed. *)
Definition configure (i : LogDefine) : M world unit :=
  let! l := getLogger (d_name i) in
  setLevel l (d_level i) ;!
  (if bool_decide (d_formatter i = []) then ret tt else setFormatter_str l (d_formatter i)) ;!
  clearAppenders l ;!
  add_defines l (d_appenders i).

Definition apply_define (old : list LogDefine) (i : LogDefine) : M world unit :=
  match set_find i old with
  | None => configure i
  | Some j => if negb (define_eq i j) then configure i else ret tt
  end.

(** A definition that is gone. *)
Definition remove_define (new : list LogDefine) (i : LogDefine) : M world unit :=
  match set_find i new with
  | None =>
      let! l := getLogger (d_name i) in
      setLevel l UNKNOW ;!
      clearAppenders l
  | Some _ => ret tt
  end.

Fixpoint each (f : LogDefine → M world unit) (l : list LogDefine) : M world unit :=
  match l with
  | [] => ret tt
  | i :: l => f i ;! each f l
  end.

(** The listener; the arguments up to [thread_name] are those of its log record. *)
Definition on_change (file : list ascii) (line thread fiber now : Z) (thread_name : list ascii)
    (old_value new_value : list LogDefine) : M world unit :=
  let! root := getRoot in
  LOG_LEVEL openable 2 root INFO file line thread fiber now thread_name (of_lit "on_logger_conf_changed") ;!
  each (apply_define old_value) new_value ;!
  each (remove_define new_value) old_value.

End listener.

(** ** Reading back what is printed *)
Section roundtrip.
Context `{YamlLaws}.

Lemma is_defined_holds n key v w : holds n key v → is_defined n key w = Ret (bool_decide (is_Some v)) w.
Proof. intros (m & Hi & Hd & _). unfold is_defined. rewrite Hi. cbn. by rewrite Hd. Qed.

Lemma as_str_holds n key v w :
  holds n key v → as_str n key w = match v with Some s => Ret s w | None => Throw invalid_argument w end.
Proof. intros (m & Hi & _ & Ha). unfold as_str. rewrite Hi. cbn. rewrite Ha. by destruct v. Qed.

Lemma string_or_empty_holds n key v w : holds n key v → string_or_empty n key w = Ret (default [] v) w.
Proof.
  intros (m & Hi & Hd & Ha). unfold string_or_empty. rewrite Hi. cbn. rewrite Hd. destruct v as [s|].
  - rewrite bool_decide_eq_true_2 by by eexists. by rewrite Ha.
  - by rewrite bool_decide_eq_false_2 by by intros [? [=]].
Qed.

Definition level_text (lv : Level) : option (list ascii) := if bool_decide (lv = UNKNOW) then None else Some (ToString lv).
Definition text_of (s : list ascii) : option (list ascii) := if bool_decide (s = []) then None else Some s.

Lemma FromString_level_text lv : FromString (default [] (level_text lv)) = lv.
Proof. by destruct lv; vm_compute. Qed.

Lemma default_text_of s : default [] (text_of s) = s.
Proof. unfold text_of. by case_bool_decide. Qed.

Lemma holds_put_level lv n key v :
  holds n key v → (key = of_lit "level" → v = None) →
  holds (put_level lv n) key (if bool_decide (of_lit "level" = key) then level_text lv else v).
Proof.
  intros Hh Hk. unfold put_level, level_text. destruct (decide (lv = UNKNOW)) as [Hu|Hu].
  - rewrite bool_decide_eq_true_2 by done. case_bool_decide; [|done]. by rewrite <- Hk.
  - rewrite bool_decide_eq_false_2 by done. by apply holds_set.
Qed.

Lemma holds_put_formatter f n key v :
  holds n key v → (key = of_lit "formatter" → v = None) →
  holds (put_formatter f n) key (if bool_decide (of_lit "formatter" = key) then text_of f else v).
Proof.
  intros Hh Hk. unfold put_formatter, text_of. destruct (decide (f = [])) as [Hu|Hu].
  - rewrite (bool_decide_eq_true_2 (f = [])) by done. case_bool_decide; [|done]. by rewrite <- Hk.
  - rewrite (bool_decide_eq_false_2 (f = [])) by done. by apply holds_set.
Qed.

(** An appender whose type is known; a standard output appender has no file. *)
Definition known (a : LogAppenderDefine) : Prop := ad_type a = 1 ∨ (ad_type a = 2 ∧ ad_file a = []).

Lemma appender_node_holds a :
  known a →
  holds (appender_node a) (of_lit "type")
    (Some (if ad_type a =? 1 then of_lit "FileLogAppender" else of_lit "StdoutLogAppender")) ∧
  holds (appender_node a) (of_lit "file") (if ad_type a =? 1 then Some (ad_file a) else None) ∧
  holds (appender_node a) (of_lit "level") (level_text (ad_level a)) ∧
  holds (appender_node a) (of_lit "formatter") (text_of (ad_formatter a)) ∧
  holds (appender_node a) (of_lit "fomatter") None.
Proof.
  intros Hk. unfold appender_node.
  set (n := if ad_type a =? 1 then _ else _).
  assert (∀ key, holds n key (if bool_decide (of_lit "file" = key) && (ad_type a =? 1) then Some (ad_file a)
    else if bool_decide (of_lit "type" = key)
    then Some (if ad_type a =? 1 then of_lit "FileLogAppender" else of_lit "StdoutLogAppender") else None)) as Hn.
  { intros key. pose proof (holds_Null key) as Hnull.
    destruct Hk as [E|[E _]]; unfold n; rewrite E; cbn [Z.eqb].
    - rewrite andb_true_r. by apply holds_set, holds_set.
    - rewrite andb_false_r. by apply holds_set. }
  split_and!.
  all: match goal with |- holds _ ?key _ => pose proof (Hn key) as Hh end.
  all: apply (holds_put_level (ad_level a)) in Hh; [|done].
  all: by apply (holds_put_formatter (ad_formatter a)) in Hh.
Qed.

(** Reading an appender back: a format of its own is asked for under another key. *)
Lemma read_appender_node a w :
  known a →
  read_appender (appender_node a) w =
  if bool_decide (ad_formatter a = []) then Ret (Some a) w else Throw invalid_argument w.
Proof.
  intros Hk. destruct (appender_node_holds a Hk) as (Ht & Hf & Hl & Hfm & Hfo).
  unfold read_appender. rewrite (bind_Ret _ _ _ _ _ (is_defined_holds _ _ _ w Ht)).
  rewrite bool_decide_eq_true_2 by by eexists.
  rewrite (bind_Ret _ _ _ _ _ (as_str_holds _ _ _ w Ht)), (bind_Ret _ _ _ _ _ (string_or_empty_holds _ _ _ w Hl)).
  rewrite FromString_level_text.
  assert (read_formatter (appender_node a) w =
    if bool_decide (ad_formatter a = []) then Ret [] w else Throw invalid_argument w) as Hread.
  { unfold read_formatter. rewrite (bind_Ret _ _ _ _ _ (is_defined_holds _ _ _ w Hfm)). unfold text_of.
    destruct (bool_decide (ad_formatter a = [])); [by rewrite bool_decide_eq_false_2 by by intros [? [=]]|].
    rewrite bool_decide_eq_true_2 by by eexists. exact (as_str_holds _ _ _ w Hfo). }
  destruct a as [ty lv fm fl]. unfold known in Hk. cbn [ad_type ad_level ad_formatter ad_file] in *. destruct Hk as [->|[-> ->]]; cbn [Z.eqb] in *.
  - rewrite bool_decide_eq_true_2 by done. rewrite (bind_Ret _ _ _ _ _ (is_defined_holds _ _ _ w Hf)).
    rewrite bool_decide_eq_true_2 by by eexists. rewrite (bind_Ret _ _ _ _ _ (as_str_holds _ _ _ w Hf)).
    unfold bind at 1. rewrite Hread. by case_bool_decide; subst.
  - rewrite bool_decide_eq_false_2 by done. rewrite bool_decide_eq_true_2 by done.
    unfold bind at 1. rewrite Hread. by case_bool_decide; subst.
Qed.


Lemma push_holds ds n key v :
  of_lit "appenders" ≠ key → holds n key v →
  holds (foldl (λ n a, push_at n (of_lit "appenders") (appender_node a)) n ds) key v.
Proof. intros Hk. revert n. induction ds as [|d ds IH]; intros n Hh; cbn; [done|]. by apply IH, holds_push. Qed.

Lemma push_elements ds n ms :
  elements n (of_lit "appenders") ms →
  elements (foldl (λ n a, push_at n (of_lit "appenders") (appender_node a)) n ds) (of_lit "appenders")
    (ms ++ (appender_node <$> ds)).
Proof.
  revert n ms. induction ds as [|d ds IH]; intros n ms Hm; cbn; [by rewrite app_nil_r|].
  replace (ms ++ appender_node d :: (appender_node <$> ds)) with ((ms ++ [appender_node d]) ++ (appender_node <$> ds))
    by by rewrite <- (assoc_L (++)).
  by apply IH, elements_push.
Qed.

Lemma define_node_holds i :
  holds (define_node i) (of_lit "name") (Some (d_name i)) ∧
  holds (define_node i) (of_lit "level") (level_text (d_level i)) ∧
  holds (define_node i) (of_lit "formatter") (text_of (d_formatter i)) ∧
  elements (define_node i) (of_lit "appenders") (appender_node <$> d_appenders i).
Proof.
  unfold define_node.
  assert (∀ key, holds (set_string Null (of_lit "name") (d_name i)) key
    (if bool_decide (of_lit "name" = key) then Some (d_name i) else None)) as Hn by (intros; apply holds_set, holds_Null).
  split_and!.
  1-3: apply push_holds; [done|].
  1-3: match goal with |- holds _ ?key _ => pose proof (Hn key) as Hh end.
  1-3: apply (holds_put_level (d_level i)) in Hh; [|done].
  1-3: by apply (holds_put_formatter (d_formatter i)) in Hh.
  apply (push_elements _ _ []). unfold put_formatter, put_level.
  repeat case_bool_decide; repeat (apply elements_set; [done|]); apply elements_Null.
Qed.

Definition no_formatter (a : LogAppenderDefine) : bool := bool_decide (ad_formatter a = []).

Lemma read_appenders_nodes seq ds x w :
  Forall known ds → (∀ k d, ds !! k = Some d → at_index seq (x + k) = Some (appender_node d)) →
  read_appenders seq x (length ds) w = if forallb no_formatter ds then Ret ds w else Throw invalid_argument w.
Proof.
  revert x. induction ds as [|d ds IH]; intros x Hk Hat; [done|]. apply Forall_cons in Hk as [Hd Hk].
  cbn [length read_appenders forallb]. pose proof (Hat 0%nat d eq_refl) as Hd0. rewrite Nat.add_0_r in Hd0. rewrite Hd0.
  unfold or_throw. rewrite (bind_Ret _ _ w (appender_node d) w) by done. unfold bind at 1.
  rewrite (read_appender_node d w Hd). unfold no_formatter at 1. case_bool_decide as He; [|done]. cbn [andb].
  unfold bind at 1. rewrite IH; [by destruct (forallb no_formatter ds)|done|].
  intros k d' Hd'. rewrite Nat.add_succ_comm. by apply Hat.
Qed.

(** A logger definition and YAML.  A definition printed by one conversion and
    read by the other is the same definition, with its level, its pattern and its
    appenders in order, as long as no appender has a pattern of its own: then the
    conversion throws, because it asks for [formatter] and reads [fomatter]. *)
Theorem define_roundtrip i w :
  Forall known (d_appenders i) →
  from_string (to_string i) w =
  if forallb no_formatter (d_appenders i) then Ret i w else Throw invalid_argument w.
Proof.
  intros Hk. unfold from_string, to_string. rewrite Load_emit.
  destruct (define_node_holds i) as (Hn & Hl & Hf & (m & Hi & Hs & Hat & Hdef)).
  unfold or_throw at 1. rewrite (bind_Ret _ _ w (define_node i) w) by done.
  rewrite (bind_Ret _ _ _ _ _ (is_defined_holds _ _ _ w Hn)), bool_decide_eq_true_2 by by eexists.
  rewrite (bind_Ret _ _ _ _ _ (as_str_holds _ _ _ w Hn)), (bind_Ret _ _ _ _ _ (string_or_empty_holds _ _ _ w Hl)),
    (bind_Ret _ _ _ _ _ (string_or_empty_holds _ _ _ w Hf)), FromString_level_text, default_text_of.
  rewrite (bind_Ret _ _ w (IsDefined m) w) by (unfold is_defined; by rewrite Hi).
  rewrite length_fmap in Hs.
  assert ((if IsDefined m then let! seq := or_throw invalid_argument (index (define_node i) (of_lit "appenders")) in
      read_appenders seq 0 (size seq) else ret []) w =
    if forallb no_formatter (d_appenders i) then Ret (d_appenders i) w else Throw invalid_argument w) as Hr.
  { rewrite Hi. unfold or_throw. destruct (d_appenders i) as [|d ds].
    - destruct (IsDefined m); [|done]. change ((let! seq := ret m in read_appenders seq 0 (size seq)) w)
        with (read_appenders m 0 (size m) w). by rewrite Hs.
    - rewrite Hdef by done. change ((let! seq := ret m in read_appenders seq 0 (size seq)) w)
        with (read_appenders m 0 (size m) w). rewrite Hs. apply read_appenders_nodes; [done|].
      intros k d' Hd'. change (0 + k)%nat with k. apply Hat. by rewrite list_lookup_fmap, Hd'. }
  unfold bind at 1. rewrite Hr. destruct (forallb no_formatter (d_appenders i)); [|done]. by destruct i.
Qed.
End roundtrip.

(** ** What a change leaves alone *)

(** From [w] to [w'] objects are only added; loggers with a name not in [N] keep their
    level, formatter and appenders, also in the manager; a list of appenders only gets
    new ones; and the appenders no logger with a name in [N] has are as they were. *)
Record frame (N : list (list ascii)) (w w' : world) : Prop := {
  fr_root : mgr_root w' = mgr_root w;
  fr_next : (next w ≤ next w')%nat;
  fr_mgr n l : mgr_loggers w !! n = Some l → mgr_loggers w' !! n = Some l;
  fr_mgr_same n : n ∉ N → mgr_loggers w' !! n = mgr_loggers w !! n;
  fr_logger l lg : loggers w !! l = Some lg →
    ∃ lg', loggers w' !! l = Some lg' ∧ m_name lg' = m_name lg ∧
      (m_name lg ∉ N → m_level lg' = m_level lg ∧ m_appenders lg' = m_appenders lg ∧ m_formatter lg' = m_formatter lg);
  fr_lists l lg' p : loggers w' !! l = Some lg' → p ∈ m_appenders lg' →
    (next w ≤ p)%nat ∨ ∃ lg, loggers w !! l = Some lg ∧ p ∈ m_appenders lg;
  fr_alone p ap : (p < next w)%nat → appenders w !! p = Some ap →
    (∀ l lg, loggers w !! l = Some lg → p ∈ m_appenders lg → m_name lg ∉ N) → appenders w' !! p = Some ap;
}.

Lemma frame_then N w1 w2 w3 : frame N w1 w2 → frame N w2 w3 → frame N w1 w3.
Proof.
  intros [R1 X1 M1 S1 L1 P1 A1] [R2 X2 M2 S2 L2 P2 A2]. split; [congruence|lia|by auto|..].
  - intros n Hn. by rewrite S2, S1.
  - intros l lg Hl. destruct (L1 l lg Hl) as (lg2 & Hl2 & Hn2 & Hk2). destruct (L2 l lg2 Hl2) as (lg3 & Hl3 & Hn3 & Hk3).
    exists lg3. split_and!; [done|congruence|]. intros HN. rewrite Hn2 in Hk3.
    destruct (Hk2 HN) as (?&?&?), (Hk3 HN) as (?&?&?). split_and!; congruence.
  - intros l lg' p Hl Hp. destruct (P2 l lg' p Hl Hp) as [?|(lg2 & Hl2 & Hp2)]; [left; lia|].
    by destruct (P1 l lg2 p Hl2 Hp2) as [?|?]; [left|right].
  - intros p ap Hlt Hap Hno. apply A2; [lia|by apply A1|]. intros l lg2 Hl2 Hp2.
    destruct (P1 l lg2 p Hl2 Hp2) as [?|(lg & Hl & Hp)]; [lia|].
    destruct (L1 l lg Hl) as (lg2' & Hl2' & Hn2 & _). simplify_eq. rewrite Hn2. by eapply Hno.
Qed.

Lemma frame_weaken N N' w w' : (∀ n, n ∈ N → n ∈ N') → frame N w w' → frame N' w w'.
Proof.
  intros HN [R X M S L P A]. split; [done|done|done| | |done|].
  - intros n Hn. apply S. auto.
  - intros l lg Hl. destruct (L l lg Hl) as (lg' & ? & ? & Hk). exists lg'. split_and!; [done|done|]. intros Hn. apply Hk. auto.
  - intros p ap Hlt Hap Hno. apply A; [done|done|]. intros l lg Hl Hp Hn. apply (Hno l lg Hl Hp). auto.
Qed.

Lemma frame_heaps_same N w w' :
  mgr_root w' = mgr_root w → next w' = next w → mgr_loggers w' = mgr_loggers w → loggers w' = loggers w →
  appenders w' = appenders w → frame N w w'.
Proof.
  intros R X M L A. split; rewrite ?R, ?X, ?M, ?L, ?A; [done|done|done|done|by eauto 6|by eauto 6|done].
Qed.

Lemma frame_id N w : frame N w w.
Proof. by apply frame_heaps_same. Qed.

Lemma frame_put_logger w l lg lg' :
  loggers w !! l = Some lg → m_name lg' = m_name lg →
  (∀ p, p ∈ m_appenders lg' → p ∈ m_appenders lg) →
  frame [m_name lg] w (set_loggers (<[l := lg']> (loggers w)) w).
Proof.
  intros Hl Hn Hp. split; cbn; [done|done|done|done|..].
  - intros l' lg1 Hl1. destruct (decide (l = l')) as [->|Hne].
    + simplify_eq. exists lg'. rewrite lookup_insert_eq. split_and!; [done|done|]. intros []. by left.
    + exists lg1. by rewrite lookup_insert_ne.
  - intros l' lg1 p [[<- <-]|[_ Hl1]]%lookup_insert_Some Hin; right; eauto.
  - done.
Qed.

(** A record that is logged changes no logger. *)
Section records.
Context (openable : list ascii → bool) `{LibcDefault}.

Definition same_loggers (w w' : world) : Prop := loggers w' = loggers w ∧ mgr_loggers w' = mgr_loggers w.

Lemma appender_log_loggers level e a w w' : appender_log openable level e a w = Ret tt w' → same_loggers w w'.
Proof.
  unfold appender_log. intros (ap & w1 & Ha & Hr)%bind_inv. unfold appender_at in Ha. rewrite bind_get in Ha.
  destruct (appenders w !! a) as [ap'|] eqn:Hap; [|done]. injection Ha as -> ->.
  destruct (a_kind ap) as [|name st last] eqn:Hk.
  - unfold StdoutLogAppender_log in Hr. case_match; [|by injection Hr as <-].
    apply bind_inv in Hr as (f & w2 & Hf & Hr). destruct (a_formatter ap); [|done]. injection Hf as -> <-.
    rewrite bind_get in Hr. apply bind_inv in Hr as (out & w3 & Ho & Hr).
    destruct (LogFormatter.format_os _ _ _ _ _) in Ho; [|done]. injection Ho as -> <-. by injection Hr as <-.
  - unfold FileLogAppender_log in Hr. case_match; [|by injection Hr as <-]. rewrite bind_get in Hr.
    destruct (if wrap 64 (last + 3) <=? LogEvent.m_time e then _ else _) as [[st1 fs1] last1].
    apply bind_inv in Hr as (f & w2 & Hf & Hr). destruct (a_formatter ap); [|done]. injection Hf as -> <-.
    apply bind_inv in Hr as (r & w3 & Ho & Hr). destruct (LogFormatter.format_os _ _ _ _ _) in Ho; [|done].
    injection Ho as -> <-. cbn in Hr. by destruct (failed r.1); injection Hr as <-.
Qed.

Lemma for_each_loggers level e l w w' :
  for_each (appender_log openable level e) l w = Ret tt w' → same_loggers w w'.
Proof.
  revert w. induction l as [|a l IH]; intros w Hr; cbn in Hr; [by injection Hr as <-|].
  apply bind_inv in Hr as ([] & w1 & H1 & Hr). destruct (appender_log_loggers _ _ _ _ _ H1), (IH _ Hr). split; congruence.
Qed.

Lemma log_loggers fuel l level e w w' : log openable fuel l level e w = Ret tt w' → same_loggers w w'.
Proof.
  revert l. induction fuel as [|fuel IH]; intros l Hr; [done|]. cbn [log] in Hr.
  apply bind_inv in Hr as (lg & w1 & Hl & Hr). unfold logger_at in Hl. rewrite bind_get in Hl.
  destruct (loggers w !! l); [|done]. injection Hl as _ <-. case_match; [|by injection Hr as <-].
  case_match; [|by eapply for_each_loggers]. destruct (m_root lg); [by eapply IH|by injection Hr as <-].
Qed.

Lemma LOG_LEVEL_loggers fuel l level file line thread fiber now thread_name text w w' :
  LOG_LEVEL openable fuel l level file line thread fiber now thread_name text w = Ret tt w' → same_loggers w w'.
Proof.
  unfold LOG_LEVEL. intros (cur & w1 & Hg & Hr)%bind_inv. unfold getLevel in Hg. apply bind_inv in Hg as (lg & w2 & Hl & Hg).
  unfold logger_at in Hl. rewrite bind_get in Hl. destruct (loggers w !! l); [|done]. injection Hl as _ <-. injection Hg as _ <-.
  case_match; [|by injection Hr as <-]. unfold delete_LogEventWrap in Hr. by eapply log_loggers.
Qed.

End records.

(** ** The steps of a change *)
Section changes.
Context (openable : list ascii → bool) `{LibcDefault}.

Lemma getLogger_frame w n :
  typed w → ∃ l w' lg, getLogger n w = Ret l w' ∧ typed w' ∧ mgr_loggers w' !! n = Some l ∧ frame [n] w w' ∧
    loggers w' !! l = Some lg ∧
    match mgr_loggers w !! n with Some l' => l = l' ∧ loggers w !! l = Some lg | None => m_formatter lg = Some default_formatter end.
Proof.
  intros Ht. destruct (getLogger_typed w n Ht) as (l & w' & Hg & Ht' & Hm).
  destruct (t_name w' Ht' n l Hm) as (lg & Hl & _). exists l, w', lg. split; [done|]. split; [done|]. split; [done|].
  unfold getLogger in Hg. rewrite bind_get in Hg. destruct (mgr_loggers w !! n) as [l'|] eqn:El.
  { injection Hg as <- <-. split; [apply frame_id|done]. }
  rewrite (bind_Ret _ _ _ _ _ (newLogger_ret w n)) in Hg.
  rewrite (bind_Ret _ _ _ _ _ (logger_at_ret _ (next w) (MkLogger None n DEBUG [] (Some default_formatter))
    (lookup_insert_eq _ _ _))) in Hg.
  injection Hg as <- <-. cbn in Hl. rewrite lookup_insert_eq in Hl. injection Hl as <-. split; [|by cbn; rewrite lookup_insert_eq].
  split; cbn; [done|lia|..].
  - intros n' l' Hl'. rewrite lookup_insert_ne; [done|]. by intros ->; rewrite El in Hl'.
  - intros n' Hn'. rewrite lookup_insert_ne; [done|]. intros ->. apply Hn'. by left.
  - intros l' lg Hl'. exists lg. destruct (t_logger w Ht l' lg Hl') as [_ Hlt].
    by rewrite !lookup_insert_ne by lia.
  - intros l' lg p [[<- <-]|[_ [[<- <-]|[_ Hl']]%lookup_insert_Some]]%lookup_insert_Some Hp; cbn in Hp.
    + by apply not_elem_of_nil in Hp.
    + by apply not_elem_of_nil in Hp.
    + right. eauto.
  - done.
Qed.

Lemma setLevel_ret w l lg v :
  loggers w !! l = Some lg → setLevel l v w = Ret tt (set_loggers (<[l := set_level v lg]> (loggers w)) w).
Proof. intros Hl. unfold setLevel. by rewrite (bind_Ret _ _ _ _ _ (logger_at_ret w l lg Hl)). Qed.

Lemma clearAppenders_ret w l lg :
  loggers w !! l = Some lg → clearAppenders l w = Ret tt (set_loggers (<[l := set_list [] lg]> (loggers w)) w).
Proof. intros Hl. unfold clearAppenders. by rewrite (bind_Ret _ _ _ _ _ (logger_at_ret w l lg Hl)). Qed.

(** The formatter goes to the appenders of the list and to no others. *)
Lemma set_appenders_formatter_others f l w w' :
  set_appenders_formatter f l w = Ret tt w' →
  loggers w' = loggers w ∧ next w' = next w ∧ mgr_loggers w' = mgr_loggers w ∧ mgr_root w' = mgr_root w ∧
  ∀ p, p ∉ l → appenders w' !! p = appenders w !! p.
Proof.
  revert w. induction l as [|a l IH]; intros w Hr; cbn in Hr; [by injection Hr as <-|].
  apply bind_inv in Hr as (ap & w1 & Ha & Hr). unfold appender_at in Ha. rewrite bind_get in Ha.
  destruct (appenders w !! a) as [ap'|] eqn:Hap; [|done]. injection Ha as -> ->.
  destruct (a_hasFormatter ap).
  - destruct (IH w1 Hr) as (?&?&?&?&Hp). split_and!; try done. intros p Hn. apply Hp. set_solver.
  - apply bind_inv in Hr as ([] & w2 & H2 & Hr). injection H2 as <-. destruct (IH _ Hr) as (?&?&?&?&Hp). split_and!; try done.
    intros p [Hne Hn]%not_elem_of_cons. rewrite Hp by done. cbn. by rewrite lookup_insert_ne.
Qed.

(** The formatter a pattern leaves the logger with: its own when it is valid, else
    what it had. *)
Definition formatter_for (pattern : list ascii) (was : option LogFormatter.t) : option LogFormatter.t :=
  if bool_decide (pattern = []) then was
  else match LogFormatter.new pattern with
       | Some (f, _) => if LogFormatter.isError f then was else Some f
       | None => was
       end.

Lemma set_pattern_frame w l lg pattern w' :
  loggers w !! l = Some lg →
  (if bool_decide (pattern = []) then ret tt else setFormatter_str l pattern) w = Ret tt w' →
  frame [m_name lg] w w' ∧ loggers w' !! l = Some (set_formatter (formatter_for pattern (m_formatter lg)) lg).
Proof.
  intros Hl. unfold formatter_for. case_bool_decide as Hnil; [intros [= <-]; split; [apply frame_id|by destruct lg]|].
  unfold setFormatter_str. intros ([] & w1 & H1 & Hr)%bind_inv. injection H1 as <-.
  apply bind_inv in Hr as (f & w2 & H2 & Hr). unfold newLogFormatter in H2.
  destruct (LogFormatter.new pattern) as [[g out]|]; [|done]. injection H2 as -> <-.
  set (w3 := set_cout _ _) in Hr. assert (∀ N, frame N w w3) as Hf3 by (intros; by apply frame_heaps_same).
  assert (loggers w3 !! l = Some lg) as Hl3 by done. destruct (LogFormatter.isError f).
  - rewrite (bind_Ret _ _ _ _ _ (logger_at_ret w3 l lg Hl3)) in Hr. injection Hr as <-.
    split; [eapply frame_then; [apply Hf3|by apply frame_heaps_same]|by destruct lg].
  - unfold setFormatter in Hr. rewrite (bind_Ret _ _ _ _ _ (logger_at_ret w3 l lg Hl3)) in Hr.
    apply bind_inv in Hr as ([] & w5 & H5 & Hr). injection H5 as <-.
    apply set_appenders_formatter_others in Hr as (Hlo & Hnx & Hmg & Hrt & Hap). cbn in Hlo, Hnx, Hmg, Hrt, Hap.
    split; [|rewrite Hlo; apply lookup_insert_eq].
    eapply frame_then; [apply Hf3|]. destruct (frame_put_logger w3 l lg (set_formatter (Some f) lg) Hl3 eq_refl (λ _, id)) as [R X M S L P A].
    split; rewrite ?Hlo, ?Hnx, ?Hmg, ?Hrt; try done. intros p ap Hlt Hp Hno. rewrite Hap; [done|].
    intros Hin. apply (Hno l lg Hl3 Hin). by left.
Qed.

Lemma addAppender_ret w l lg p ap :
  loggers w !! l = Some lg → appenders w !! p = Some ap → a_formatter ap = None →
  addAppender l p w =
    Ret tt (set_loggers (<[l := set_list (m_appenders lg ++ [p]) lg]> (loggers w))
      (set_appenders (<[p := a_set_formatter (m_formatter lg) ap]> (appenders w)) w)).
Proof.
  intros Hl Hp Hf. unfold addAppender.
  rewrite (bind_Ret _ _ _ _ _ (logger_at_ret w l lg Hl)), (bind_Ret _ _ _ _ _ (appender_at_ret w p ap Hp)).
  by rewrite bool_decide_eq_true_2.
Qed.

(** The appender [p] is as [a] says, for a logger of name [n] with the formatter [f]: of
    its kind, file and level, with the formatter of the logger (the one in [a] is not
    looked at), and no logger of another name has it. *)
Definition made (w : world) (n : list ascii) (f : option LogFormatter.t) (p : nat) (a : LogAppenderDefine) : Prop :=
  (∃ ap, appenders w !! p = Some ap ∧ a_level ap = ad_level a ∧ a_formatter ap = f ∧
    match a_kind ap with
    | StdoutLogAppender => ad_type a = 2
    | FileLogAppender f _ _ => ad_type a = 1 ∧ f = ad_file a
    end) ∧
  ∀ l lg, loggers w !! l = Some lg → p ∈ m_appenders lg → m_name lg = n.

Lemma made_frame N w w' n f p a : typed w → frame N w w' → n ∉ N → made w n f p a → made w' n f p a.
Proof.
  intros Ht Hf Hn ((ap & Hp & Hrest) & Hown). destruct (t_appender w Ht p ap Hp) as [_ Hlt]. split.
  - exists ap. split; [|done]. apply (fr_alone _ _ _ Hf); [done|done|]. intros l lg Hl Hin. by rewrite (Hown l lg Hl Hin).
  - intros l lg' Hl' Hin. destruct (fr_lists _ _ _ Hf l lg' p Hl' Hin) as [?|(lg & Hl & Hin')]; [lia|].
    destruct (fr_logger _ _ _ Hf l lg Hl) as (lg2 & Hl2 & Hn2 & _). simplify_eq. rewrite Hn2. by eapply Hown.
Qed.

(** An appender made from its definition: one of the two kinds, at a fresh address. *)
Lemma new_define w a :
  typed w → ad_type a = 1 ∨ ad_type a = 2 →
  ∃ w' k, ((if ad_type a =? 1 then let! p := newFileLogAppender openable (ad_file a) in ret (Some p)
      else if ad_type a =? 2 then let! p := newStdoutLogAppender in ret (Some p)
      else ret None) w) = Ret (Some (next w)) w' ∧
    typed w' ∧ loggers w' = loggers w ∧ mgr_loggers w' = mgr_loggers w ∧ mgr_root w' = mgr_root w ∧ next w' = S (next w) ∧
    appenders w' = <[next w := Appender false DEBUG None k]> (appenders w) ∧
    match k with StdoutLogAppender => ad_type a = 2 | FileLogAppender f _ _ => ad_type a = 1 ∧ f = ad_file a end.
Proof.
  intros Ht [E|E]; rewrite E; cbn [Z.eqb Pos.eqb].
  - destruct (reopen openable (ad_file a) (Ofstream false false 0) (files w)) as [st fs] eqn:Er.
    assert (newFileLogAppender openable (ad_file a) w = Ret (next w)
      (set_next (S (next w)) (set_appenders (<[next w := Appender false DEBUG None (FileLogAppender (ad_file a) st 0)]>
        (appenders w)) (set_files fs w)))) as Hr by (unfold newFileLogAppender, bind, get; by rewrite Er).
    rewrite (bind_Ret _ _ _ _ _ Hr). eexists _, (FileLogAppender (ad_file a) st 0). split; [reflexivity|].
    pose proof (typed_files w fs Ht) as Ht1. split; [by apply (typed_new_appender (set_files fs w))|]. by split_and!.
  - eexists _, StdoutLogAppender. split; [reflexivity|]. split; [by apply typed_new_appender|]. by split_and!.
Qed.

Definition type_ok (a : LogAppenderDefine) : Prop := ad_type a = 1 ∨ ad_type a = 2.

Lemma add_define_ok w l lg a :
  typed w → loggers w !! l = Some lg → type_ok a →
  ∃ w' p, add_define openable l a w = Ret tt w' ∧ typed w' ∧ frame [m_name lg] w w' ∧ mgr_loggers w' = mgr_loggers w ∧
    loggers w' !! l = Some (set_list (m_appenders lg ++ [p]) lg) ∧ made w' (m_name lg) (m_formatter lg) p a ∧
    (∀ q, (q < next w)%nat → appenders w' !! q = appenders w !! q) ∧
    (∀ l' lg' q, loggers w' !! l' = Some lg' → q ∈ m_appenders lg' → (q < next w)%nat → ∃ lg0, loggers w !! l' = Some lg0 ∧ m_name lg' = m_name lg0 ∧ q ∈ m_appenders lg0).
Proof.
  intros Ht Hl Hk. destruct (new_define w a Ht Hk) as (w1 & k & H1 & Ht1 & Hl1 & Hm1 & Hr1 & Hx1 & Ha1 & Hk1).
  unfold add_define. rewrite (bind_Ret _ _ _ _ _ H1). set (p := next w) in *.
  set (ap := Appender false (ad_level a) None k).
  assert (appenders w1 !! p = Some (Appender false DEBUG None k)) as Hp1 by (rewrite Ha1; apply lookup_insert_eq).
  assert (appender_setLevel p (ad_level a) w1 = Ret tt (set_appenders (<[p := ap]> (appenders w1)) w1)) as H2.
  { unfold appender_setLevel. by rewrite (bind_Ret _ _ _ _ _ (appender_at_ret w1 p _ Hp1)). }
  rewrite (bind_Ret _ _ _ _ _ H2). set (w2 := set_appenders (<[p := ap]> (appenders w1)) w1).
  assert (typed w2) as Ht2 by (eapply typed_put_appender; [done|exact Hp1|by intros [? [=]]|done]).
  assert (appenders w2 !! p = Some ap) as Hp2 by apply lookup_insert_eq.
  assert (loggers w2 !! l = Some lg) as Hl2 by (cbn; by rewrite Hl1).
  pose proof (addAppender_ret w2 l lg p ap Hl2 Hp2 eq_refl) as H3.
  destruct (addAppender_typed w2 l p Ht2) as (w3 & H3' & Ht3); [by exists lg|by exists ap|].
  assert (w3 = set_loggers (<[l := set_list (m_appenders lg ++ [p]) lg]> (loggers w2))
      (set_appenders (<[p := a_set_formatter (m_formatter lg) ap]> (appenders w2)) w2)) as -> by congruence.
  assert (∀ l0 lg0 q, loggers w !! l0 = Some lg0 → q ∈ m_appenders lg0 → (q < p)%nat) as Hlt.
  { intros l0 lg0 q Hl0 Hq. destruct (t_logger w Ht l0 lg0 Hl0) as ((_ & _ & Hre) & _). rewrite Forall_forall in Hre.
    destruct (Hre q Hq) as (aq & fq & Haq & _). by apply (t_appender w Ht q aq). }
  assert (∀ q, (q < p)%nat → <[p := a_set_formatter (m_formatter lg) ap]> (appenders w2) !! q = appenders w !! q) as Hold.
  { intros q Hq. cbn. by rewrite Ha1, !lookup_insert_ne by lia. }
  eexists _, p. split_and!; [exact H3|exact Ht3| |done|apply lookup_insert_eq| |exact Hold|].
  - split; cbn; rewrite ?Hr1, ?Hx1, ?Hm1, ?Hl1; [done|lia|done|done|..].
    + intros l' lg' Hl'. destruct (decide (l = l')) as [->|Hne].
      * rewrite lookup_insert_eq. simplify_eq. eexists. split_and!; [done|done|]. intros []. by left.
      * rewrite lookup_insert_ne by done. by exists lg'.
    + intros l' lg' q [[<- <-]|[_ Hl']]%lookup_insert_Some Hq; [|right; eauto]. cbn in Hq.
      apply elem_of_app in Hq as [Hq| ->%list_elem_of_singleton]; [right; eauto|by left].
    + intros q aq Hq Haq _. cbn in Hold. rewrite Hl1 in Hold || idtac. by rewrite Hold.
  - split.
    + eexists. cbn. rewrite lookup_insert_eq. by split_and!.
    + cbn. rewrite Hl1. intros l' lg' [[<- <-]|[_ Hl']]%lookup_insert_Some Hq; [done|].
      specialize (Hlt l' lg' p Hl' Hq). lia.
  - cbn. rewrite Hl1. intros l' lg' q [[<- <-]|[_ Hl']]%lookup_insert_Some Hq Hqlt; [|by exists lg'].
    exists lg. split_and!; [done|done|]. cbn in Hq. apply elem_of_app in Hq as [?| ->%list_elem_of_singleton]; [done|lia].
Qed.

Lemma made_older w w' n f p a :
  (∀ q, (q < next w)%nat → appenders w' !! q = appenders w !! q) →
  (∀ l' lg' q, loggers w' !! l' = Some lg' → q ∈ m_appenders lg' → (q < next w)%nat → ∃ lg0, loggers w !! l' = Some lg0 ∧ m_name lg' = m_name lg0 ∧ q ∈ m_appenders lg0) →
  typed w → made w n f p a → made w' n f p a.
Proof.
  intros Ha Hl Ht ((ap & Hp & Hrest) & Hown). destruct (t_appender w Ht p ap Hp) as [_ Hlt]. split.
  - exists ap. by rewrite Ha.
  - intros l lg' Hl' Hin. destruct (Hl l lg' p Hl' Hin Hlt) as (lg0 & Hl0 & -> & Hin0). by eapply Hown.
Qed.

Lemma add_defines_ok w l lg ds :
  typed w → loggers w !! l = Some lg → Forall type_ok ds →
  ∃ w' ps, add_defines openable l ds w = Ret tt w' ∧ typed w' ∧ frame [m_name lg] w w' ∧
    loggers w' !! l = Some (set_list (m_appenders lg ++ ps) lg) ∧ Forall2 (made w' (m_name lg) (m_formatter lg)) ps ds ∧
    (∀ n f p a, made w n f p a → made w' n f p a).
Proof.
  revert w lg. induction ds as [|a ds IH]; intros w lg Ht Hl Hk.
  { exists w, []. rewrite app_nil_r. split_and!; [done|done|apply frame_id|by destruct lg|done|done]. }
  apply Forall_cons in Hk as [Ha Hk].
  destruct (add_define_ok w l lg a Ht Hl Ha) as (w1 & p & H1 & Ht1 & Hf1 & _ & Hl1 & Hm1 & Hold1 & Hlist1).
  destruct (IH w1 _ Ht1 Hl1 Hk) as (w2 & ps & H2 & Ht2 & Hf2 & Hl2 & Hm2 & Hkeep2). cbn in Hf2, Hl2, Hm2.
  exists w2, (p :: ps). cbn [add_defines]. rewrite (bind_Ret _ _ _ _ _ H1).
  split_and!; [done|done|by eapply frame_then| |constructor; [by apply Hkeep2|done]|].
  - rewrite Hl2. f_equal. unfold set_list. cbn. by rewrite <- (assoc_L (++)).
  - intros n f q b Hq. apply Hkeep2. by eapply made_older.
Qed.

(** The formatter a logger of name [n] has, or would have if it were asked for. *)
Definition formatter_of (w : world) (n : list ascii) : option LogFormatter.t :=
  match mgr_loggers w !! n with
  | Some l => lg ← loggers w !! l; m_formatter lg
  | None => Some default_formatter
  end.

(** The logger of a definition, after the change; [was] is the formatter it had. *)
Definition configured (was : list ascii → option LogFormatter.t) (i : LogDefine) (w : world) : Prop :=
  ∃ l lg, mgr_loggers w !! d_name i = Some l ∧ loggers w !! l = Some lg ∧
    m_level lg = d_level i ∧ m_formatter lg = formatter_for (d_formatter i) (was (d_name i)) ∧
    Forall2 (made w (d_name i) (m_formatter lg)) (m_appenders lg) (d_appenders i).

(** A pattern whose dates print, if it is given and valid. *)
Definition good_pattern (p : list ascii) : Prop :=
  fits p ∧ ∀ f out, LogFormatter.new p = Some (f, out) → LogFormatter.isError f = false → prints f.

Definition good_define (i : LogDefine) : Prop := good_pattern (d_formatter i) ∧ Forall type_ok (d_appenders i).

(** A change to a logger of name [n] found through the manager. *)
Lemma put_named w n l lg lg' :
  typed w → mgr_loggers w !! n = Some l → loggers w !! l = Some lg →
  m_root lg' = m_root lg → m_name lg' = m_name lg → m_formatter lg' = m_formatter lg →
  Forall (λ b, b ∈ m_appenders lg) (m_appenders lg') →
  let w' := set_loggers (<[l := lg']> (loggers w)) w in
  typed w' ∧ frame [n] w w' ∧ m_name lg = n ∧ mgr_loggers w' !! n = Some l ∧ loggers w' !! l = Some lg'.
Proof.
  intros Ht Hm Hl Hr Hn Hf Ha. destruct (t_name w Ht n l Hm) as (lg1 & Hl1 & Hname & _). simplify_eq.
  destruct (t_logger w Ht l lg Hl) as ((_ & Hfm & Hre) & _). rewrite Forall_forall in Ha. cbn. split_and!.
  - eapply typed_put_logger; [done|exact Hl|done|done|by rewrite Hf|].
    rewrite Forall_forall in Hre. apply Forall_forall. intros b Hb. by apply Hre, Ha.
  - by apply (frame_put_logger _ l lg).
  - done.
  - done.
  - apply lookup_insert_eq.
Qed.

Lemma configure_ok was w i :
  typed w → good_define i → formatter_of w (d_name i) = was (d_name i) →
  ∃ w', configure openable i w = Ret tt w' ∧ typed w' ∧ frame [d_name i] w w' ∧ configured was i w'.
Proof.
  intros Ht [[Hfit Hpat] Hds] Hwas. destruct (getLogger_frame w (d_name i) Ht) as (l & w1 & lg1 & H1 & Ht1 & Hm1 & Hf1 & Hl1 & Hfm1).
  assert (m_formatter lg1 = was (d_name i)) as Hfmt1.
  { rewrite <- Hwas. unfold formatter_of. destruct (mgr_loggers w !! d_name i) as [l'|]; [|done].
    destruct Hfm1 as [-> Hl0]. by rewrite Hl0. }
  unfold configure. rewrite (bind_Ret _ _ _ _ _ H1). destruct (t_name w1 Ht1 _ _ Hm1) as (lg1' & Hl1' & Hn1 & _). simplify_eq.
  rewrite (bind_Ret _ _ _ _ _ (setLevel_ret w1 l lg1 (d_level i) Hl1)).
  destruct (put_named w1 (d_name i) l lg1 (set_level (d_level i) lg1)) as (Ht2 & Hf2 & _ & Hm2 & Hl2);
    [done|done|done|done|done|done|by apply Forall_forall|].
  set (w2 := set_loggers _ w1) in *.
  assert (∃ w3, (if bool_decide (d_formatter i = []) then ret tt else setFormatter_str l (d_formatter i)) w2 = Ret tt w3 ∧
    typed w3) as (w3 & H3 & Ht3).
  { case_bool_decide; [by exists w2|].
    destruct (setFormatter_str_typed w2 l (d_formatter i)) as (w3 & H3 & Ht3); [done|by eexists|done|done|]. by exists w3. }
  rewrite (bind_Ret _ _ _ _ _ H3). destruct (set_pattern_frame w2 l _ (d_formatter i) w3 Hl2 H3) as [Hf3 Hl3].
  cbn in Hf3, Hl3. rewrite Hn1 in Hf3. pose proof (fr_mgr _ _ _ Hf3 _ _ Hm2) as Hm3. set (lg3 := set_formatter _ _) in Hl3.
  rewrite (bind_Ret _ _ _ _ _ (clearAppenders_ret w3 l lg3 Hl3)).
  destruct (put_named w3 (d_name i) l lg3 (set_list [] lg3)) as (Ht4 & Hf4 & Hn4 & Hm4 & Hl4);
    [done|done|done|done|done|done|done|].
  set (w4 := set_loggers _ w3) in *.
  destruct (add_defines_ok w4 l _ (d_appenders i) Ht4 Hl4 Hds) as (w5 & ps & H5 & Ht5 & Hf5 & Hl5 & Hm5 & _).
  cbn in Hf5, Hl5, Hm5. rewrite Hn1 in Hf5, Hm5. exists w5. split_and!; [done|done| |].
  - eapply frame_then; [exact Hf1|]. eapply frame_then; [exact Hf2|]. eapply frame_then; [apply Hf3|].
    by eapply frame_then.
  - eexists l, _. split_and!; [by apply (fr_mgr _ _ _ Hf5)|exact Hl5|done|cbn; by rewrite Hfmt1|exact Hm5].
Qed.

(** The logger of a definition that is gone: open for every level, without appenders. *)
Definition removed (i : LogDefine) (w : world) : Prop :=
  ∃ l lg, mgr_loggers w !! d_name i = Some l ∧ loggers w !! l = Some lg ∧ m_level lg = UNKNOW ∧ m_appenders lg = [].

Lemma named_frame N w w' n l lg :
  typed w → frame N w w' → n ∉ N → mgr_loggers w !! n = Some l → loggers w !! l = Some lg →
  mgr_loggers w' !! n = Some l ∧
  ∃ lg', loggers w' !! l = Some lg' ∧ m_level lg' = m_level lg ∧ m_appenders lg' = m_appenders lg ∧ m_formatter lg' = m_formatter lg.
Proof.
  intros Ht Hf Hn Hm Hl. split; [by apply (fr_mgr _ _ _ Hf)|].
  destruct (t_name w Ht n l Hm) as (lg1 & Hl1 & Hname & _). simplify_eq.
  destruct (fr_logger _ _ _ Hf l _ Hl) as (lg' & Hl' & _ & Hk). exists lg'. by destruct (Hk Hn).
Qed.

Lemma configured_frame was N w w' i : typed w → frame N w w' → d_name i ∉ N → configured was i w → configured was i w'.
Proof.
  intros Ht Hf Hn (l & lg & Hm & Hl & Hlv & Hfm & Ha).
  destruct (named_frame N w w' _ l lg Ht Hf Hn Hm Hl) as (Hm' & lg' & Hl' & Hlv' & Ha' & Hfm').
  exists l, lg'. split_and!; [done|done|congruence|congruence|]. rewrite Ha', Hfm'.
  eapply Forall2_impl; [exact Ha|]. intros p a. by apply made_frame with N.
Qed.

Lemma removed_frame N w w' i : typed w → frame N w w' → d_name i ∉ N → removed i w → removed i w'.
Proof.
  intros Ht Hf Hn (l & lg & Hm & Hl & Hlv & Ha).
  destruct (named_frame N w w' _ l lg Ht Hf Hn Hm Hl) as (Hm' & lg' & Hl' & Hlv' & Ha' & _).
  exists l, lg'. split_and!; congruence.
Qed.

Lemma formatter_of_frame N w w' n : typed w → frame N w w' → n ∉ N → formatter_of w' n = formatter_of w n.
Proof.
  intros Ht Hf Hn. unfold formatter_of. rewrite (fr_mgr_same _ _ _ Hf n Hn). destruct (mgr_loggers w !! n) as [l|] eqn:Hm; [|done].
  destruct (t_name w Ht n l Hm) as (lg & Hl & _). destruct (named_frame N w w' n l lg Ht Hf Hn Hm Hl) as (_ & lg' & Hl' & _ & _ & Hfm).
  by rewrite Hl, Hl'.
Qed.

(** A loop over definitions with different names keeps what each round needs and what
    each round established; the round of [i] touches the names [g i], its own at most. *)
Lemma each_ok (f : LogDefine → M world unit) (P : LogDefine → Prop) (g : LogDefine → list (list ascii))
    (pre post : LogDefine → world → Prop) l w :
  (∀ i w, P i → pre i w → typed w → ∃ w', f i w = Ret tt w' ∧ typed w' ∧ frame (g i) w w' ∧ post i w') →
  (∀ N w w' i, typed w → frame N w w' → d_name i ∉ N → pre i w → pre i w') →
  (∀ N w w' i, typed w → frame N w w' → d_name i ∉ N → post i w → post i w') →
  (∀ i n, n ∈ g i → n = d_name i) →
  Forall P l → Forall (λ i, pre i w) l → NoDup (d_name <$> l) → typed w →
  ∃ w', each f l w = Ret tt w' ∧ typed w' ∧ frame (l ≫= g) w w' ∧ Forall (λ i, post i w') l.
Proof.
  intros Hf Hpre Hpost Hg. revert w. induction l as [|i l IH]; intros w HP Hpr Hnd Ht.
  { exists w. split_and!; [done|done|apply frame_id|done]. }
  apply Forall_cons in HP as [Hi HP], Hpr as [Hpi Hpr]. cbn in Hnd. apply NoDup_cons in Hnd as [Hni Hnd].
  destruct (Hf i w Hi Hpi Ht) as (w1 & H1 & Ht1 & Hf1 & Hp1).
  destruct (IH w1 HP) as (w2 & H2 & Ht2 & Hf2 & Hp2); [|done|done|].
  { rewrite Forall_forall in Hpr |- *. intros j Hj. apply (Hpre _ w w1 j Ht Hf1); [|by apply Hpr].
    intros Hin. apply Hni. rewrite <- (Hg _ _ Hin). by apply list_elem_of_fmap_2. }
  exists w2. cbn [each]. rewrite (bind_Ret _ _ _ _ _ H1). split_and!; [done|done| |].
  - apply frame_then with w1.
    + eapply frame_weaken; [|exact Hf1]. intros n Hn. apply elem_of_app. by left.
    + eapply frame_weaken; [|exact Hf2]. intros n Hn. apply elem_of_app. by right.
  - constructor; [|done]. apply (Hpost _ w1 w2 i Ht1 Hf2); [|done].
    intros (j & Hj & Hjl)%list_elem_of_bind. apply Hni. rewrite (Hg _ _ Hj). by apply list_elem_of_fmap_2.
Qed.

Lemma str_lt_irrefl a : str_lt a a = false.
Proof. induction a as [|x a IH]; cbn; [done|]. rewrite Z.ltb_irrefl, Z.eqb_refl, IH. done. Qed.

Lemma str_lt_eq a b : str_lt a b = false → str_lt b a = false → a = b.
Proof.
  revert b. induction a as [|x a IH]; intros [|y b] H1 H2; cbn in *; [done..|].
  apply orb_false_iff in H1 as [H1 H1'], H2 as [H2 H2']. apply Z.ltb_ge in H1, H2.
  assert (b2z x = b2z y) as E by lia. rewrite E, Z.eqb_refl in H1'. rewrite <- E, Z.eqb_refl in H2'.
  f_equal; [by rewrite <- (z2b_b2z x), E, z2b_b2z|by apply IH].
Qed.

Lemma set_find_spec i s :
  match set_find i s with
  | Some j => j ∈ s ∧ d_name j = d_name i
  | None => d_name i ∉ d_name <$> s
  end.
Proof.
  unfold set_find, define_lt. destruct (List.find _ s) as [j|] eqn:Hf.
  - apply find_some in Hf as [Hin [H1 H2]%andb_prop]. apply negb_true_iff in H1, H2.
    split; [by apply list_elem_of_In|by apply str_lt_eq].
  - intros (j & Hn & Hj)%list_elem_of_fmap. apply list_elem_of_In in Hj.
    pose proof (find_none _ _ Hf j Hj) as Hc. cbn in Hc. by rewrite Hn, str_lt_irrefl in Hc.
Qed.

(** What the loggers are after a change: what the second argument says. *)
Definition changed (old : list LogDefine) (i : LogDefine) : Prop :=
  match set_find i old with Some j => define_eq i j = false | None => True end.

Definition gone (new : list LogDefine) (i : LogDefine) : Prop := d_name i ∉ d_name <$> new.

Lemma apply_define_ok was old i w :
  good_define i → formatter_of w (d_name i) = was (d_name i) → typed w →
  ∃ w', apply_define openable old i w = Ret tt w' ∧ typed w' ∧ frame [d_name i] w w' ∧ (changed old i → configured was i w').
Proof.
  intros Hg Hwas Ht. destruct (configure_ok was w i Ht Hg Hwas) as (w' & Hr & Ht' & Hf & Hc). unfold apply_define, changed.
  destruct (set_find i old) as [j|]; [|eauto 10]. destruct (define_eq i j); cbn; [|eauto 10].
  exists w. split_and!; [done|done|apply frame_id|done].
Qed.

Lemma remove_define_ok new i w :
  typed w →
  ∃ w', remove_define new i w = Ret tt w' ∧ typed w' ∧
    frame (if bool_decide (gone new i) then [d_name i] else []) w w' ∧ (gone new i → removed i w').
Proof.
  intros Ht. unfold remove_define, gone. pose proof (set_find_spec i new) as Hs. destruct (set_find i new) as [j|].
  { destruct Hs as [Hj Hn]. assert (d_name i ∈ d_name <$> new) as Hin by (rewrite <- Hn; by apply list_elem_of_fmap_2).
    exists w. split_and!; [done|done|apply frame_id|done]. }
  rewrite bool_decide_eq_true_2 by done.
  destruct (getLogger_frame w (d_name i) Ht) as (l & w1 & lg1 & H1 & Ht1 & Hm1 & Hf1 & Hl1 & _).
  rewrite (bind_Ret _ _ _ _ _ H1).
  rewrite (bind_Ret _ _ _ _ _ (setLevel_ret w1 l lg1 UNKNOW Hl1)).
  destruct (put_named w1 (d_name i) l lg1 (set_level UNKNOW lg1)) as (Ht2 & Hf2 & _ & Hm2 & Hl2);
    [done|done|done|done|done|done|by apply Forall_forall|].
  set (w2 := set_loggers _ w1) in *. rewrite (clearAppenders_ret w2 l _ Hl2).
  destruct (put_named w2 (d_name i) l _ (set_list [] (set_level UNKNOW lg1)) Ht2 Hm2 Hl2) as (Ht3 & Hf3 & _ & Hm3 & Hl3);
    [done|done|done|done|].
  eexists. split_and!; [done|done| |].
  - eapply frame_then; [exact Hf1|]. by eapply frame_then.
  - intros _. eexists l, _. split_and!; [done|exact Hl3|done|done].
Qed.

(** A removed logger that is not the root hands every record on to the root. *)
Lemma removed_targets i w l :
  typed w → removed i w → mgr_loggers w !! d_name i = Some l → l ≠ mgr_root w →
  ∀ level, targets w l level = targets w (mgr_root w) level.
Proof.
  intros Ht (l' & lg & Hm & Hl & Hlv & Ha) Hm' Hne level. simplify_eq.
  destruct (t_name w Ht _ _ Hm) as (lg1 & Hl1 & _ & [?|Hr]); [done|]. simplify_eq.
  destruct (t_root w Ht) as (lr & Hlr & Hnone). unfold targets. rewrite Hl, Hlr, Hlv, Ha, Hr, Hlr.
  replace (code UNKNOW <=? code level) with true by by destruct level.
  case_match; [|done]. rewrite Hnone. by destruct (m_appenders lr).
Qed.

Lemma on_change_ok file line thread fiber now thread_name old new w :
  typed w → is_Some (localtime_r (swrap 64 now)) → NoDup (d_name <$> old) → NoDup (d_name <$> new) →
  Forall good_define new →
  ∃ w', on_change openable file line thread fiber now thread_name old new w = Ret tt w' ∧ typed w' ∧
    (∀ i, i ∈ new → changed old i → configured (formatter_of w) i w') ∧
    (∀ i, i ∈ old → gone new i → removed i w').
Proof.
  intros Ht Hnow Hold Hnew Hg. unfold on_change, getRoot. rewrite (bind_Ret _ _ w (mgr_root w) w) by done.
  destruct (t_root w Ht) as (lr & Hlr & _).
  assert (∃ w1, LOG_LEVEL openable 2 (mgr_root w) INFO file line thread fiber now thread_name
    (of_lit "on_logger_conf_changed") w = Ret tt w1 ∧ typed w1) as (w1 & H1 & Ht1).
  { destruct (call_typed openable w (CMacro (mgr_root w) INFO file line thread fiber now thread_name
      (of_lit "on_logger_conf_changed")) Ht) as (w1 & H1 & Ht1); [|by exists w1]. split; [by exists lr|done]. }
  rewrite (bind_Ret _ _ _ _ _ H1). destruct (LOG_LEVEL_loggers _ _ _ _ _ _ _ _ _ _ _ _ _ H1) as [Hlo Hmg].
  assert (∀ n, formatter_of w1 n = formatter_of w n) as Hwas by (intros n; unfold formatter_of; by rewrite Hlo, Hmg).
  destruct (each_ok (apply_define openable old) good_define (λ i, [d_name i]) (λ i w0, formatter_of w0 (d_name i) = formatter_of w (d_name i))
    (λ i w0, changed old i → configured (formatter_of w) i w0) new w1)
    as (w2 & H2 & Ht2 & Hf2 & Hp2); [by apply apply_define_ok| | |by intros ? ? ->%list_elem_of_singleton|done|by apply Forall_forall|done|done|].
  { intros N w3 w4 i Ht3 Hf Hn <-. by eapply formatter_of_frame. }
  { intros N w3 w4 i Ht3 Hf Hn Hc Hch. by eapply configured_frame; [exact Ht3| | |apply Hc]. }
  rewrite (bind_Ret _ _ _ _ _ H2).
  destruct (each_ok (remove_define new) (λ _, True) (λ i, if bool_decide (gone new i) then [d_name i] else []) (λ _ _, True)
    (λ i w, gone new i → removed i w) old w2) as (w3 & H3 & Ht3 & Hf3 & Hp3);
    [by intros; apply remove_define_ok|done| | |by apply Forall_forall|by apply Forall_forall|done|done|].
  { intros N w4 w5 i Ht4 Hf Hn Hc Hch. by eapply removed_frame; [exact Ht4| | |apply Hc]. }
  { intros i n. case_bool_decide; [by intros ->%list_elem_of_singleton|by intros ?%not_elem_of_nil]. }
  exists w3. rewrite Forall_forall in Hp2, Hp3. split_and!; [done|done| |done].
  intros i Hi Hch. apply (configured_frame _ _ w2 w3 i Ht2 Hf3); [|by apply Hp2].
  intros (j & Hj & _)%list_elem_of_bind. case_bool_decide as Hgone; [|by apply not_elem_of_nil in Hj].
  apply list_elem_of_singleton in Hj. apply Hgone. rewrite <- Hj. by apply list_elem_of_fmap_2.
Qed.


(** An appender type the code does not know is kept as type 0, and applying the
    definition dereferences a null pointer. *)
Lemma unknown_type_crashes w l a : ad_type a ≠ 1 → ad_type a ≠ 2 → add_define openable l a w = UB.
Proof. intros H1 H2. unfold add_define. by rewrite (proj2 (Z.eqb_neq _ _) H1), (proj2 (Z.eqb_neq _ _) H2). Qed.
End changes.

(** ** Examples *)
#[local] Existing Instance sim_libc.
#[local] Existing Instance sim_libc_default.
#[local] Existing Instance TreeYaml.tree_yaml.
#[local] Existing Instance TreeYaml.tree_yaml_laws.

Definition sim_define : LogDefine :=
  Define (of_lit "app") INFO [] [AppenderDefine 2 WARN [] []; AppenderDefine 1 UNKNOW [] (of_lit "f")].

Lemma define_roundtrip_witness :
  from_string (to_string sim_define) Log.empty = Ret sim_define Log.empty.
Proof.
  apply (define_roundtrip sim_define Log.empty).
  constructor; [by right|]. constructor; [by left|constructor].
Defined.

Lemma sim_good : good_define sim_define.
Proof.
  split; [|constructor; [by right|]; constructor; [by left|constructor]]. split; [by vm_compute|].
  intros f out [= <- <-] _ level e _. by eexists.
Qed.


End LogConf.
