(* ===== verification/Config.v ===== *)
(** * Config: configuration variables (src/bobliew/config.{h,cc})

    Module [Cast] has the [LexicalCast] templates between containers and YAML
    text; module [Config] the variables with their listeners, the table of all
    variables and the loading of a document.

    The C++ types of variables are the codes [ty] of the class [ConfigTypes], with
    their conversions and comparison; the values of all of them are in one type
    [val].  Listeners act on the rest of the program, whose state is [W] (for the
    [logs] variable the [world] of Log.v), and log messages are one such action.

    [casts_roundtrip]: containers of values that survive the conversion to YAML
    and back survive it.  [setValue_notifies]: listeners run before the value
    changes, in the order they were added.  [LoadFromYaml_applies]: what a document
    does to every variable. *)
From S2P Require Import Prelude Util Yaml Logconf.
Import StdString.
#[local] Open Scope list_scope.
#[local] Open Scope Z_scope.
#[local] Set Warnings "-clear-no-such-hyp".

(** ** Conversions *)
Module Cast.
Import LogConf.

Section casts.
Context `{Yaml} {T : Type}.

(** [LexicalCast<std::string, T>] and [LexicalCast<T, std::string>]; [None]: they throw. *)
Context (from : list ascii → option T) (to : T → option (list ascii)).

(** The nodes of a sequence, printed and converted, in order. *)
Fixpoint read_from (n : node) (i rounds : nat) : option (list T) :=
  match rounds with
  | O => Some []
  | S rounds =>
      e ← at_index n i;
      x ← from (emit e);
      xs ← read_from n (S i) rounds;
      Some (x :: xs)
  end.

Fixpoint push_all (n : node) (l : list T) : option node :=
  match l with
  | [] => Some n
  | x :: l => s ← to x; m ← Load s; push_all (push_back n m) l
  end.

(** [std::vector<T>] (and, line by line the same, [std::list<T>]) *)
Definition vector_from (v : list ascii) : option (list T) :=
  n ← Load v; read_from n 0 (size n).

Definition vector_to (v : list T) : option (list ascii) :=
  emit <$> push_all Sequence v.

(** [std::set<T>]: the elements in the order [lt]; an equivalent one is not inserted. *)
Context (lt : T → T → bool).

Fixpoint set_insert (x : T) (s : list T) : list T :=
  match s with
  | [] => [x]
  | y :: s => if lt x y then x :: y :: s else if lt y x then y :: set_insert x s else y :: s
  end.

Definition set_from (v : list ascii) : option (list T) :=
  n ← Load v; l ← read_from n 0 (size n); Some (foldl (λ s x, set_insert x s) [] l).

Definition set_to (v : list T) : option (list ascii) := vector_to v.

(** [std::map<std::string, T>]: the pairs in the order of their keys. *)
Fixpoint map_insert (k : list ascii) (x : T) (m : list (list ascii * T)) : list (list ascii * T) :=
  match m with
  | [] => [(k, x)]
  | (k', y) :: m =>
      if str_lt k k' then (k, x) :: (k', y) :: m
      else if str_lt k' k then (k', y) :: map_insert k x m
      else (k', y) :: m
  end.

Fixpoint read_pairs (l : list (list ascii * node)) (m : list (list ascii * T)) : option (list (list ascii * T)) :=
  match l with
  | [] => Some m
  | (k, n) :: l => x ← from (emit n); read_pairs l (map_insert k x m)
  end.

Definition map_from (v : list ascii) : option (list (list ascii * T)) :=
  n ← Load v; read_pairs (pairs n) [].

Fixpoint set_all (n : node) (m : list (list ascii * T)) : option node :=
  match m with
  | [] => Some n
  | (k, x) :: m => s ← to x; c ← Load s; set_all (set_node n k c) m
  end.

Definition map_to (v : list (list ascii * T)) : option (list ascii) := emit <$> set_all Map v.

End casts.

(** ** Values that survive

    The text of a value is loaded as a node of the container's document and
    printed again before it is converted back. *)
Definition survives `{Yaml} {T} (from : list ascii → option T) (to : T → option (list ascii)) (x : T) : Prop :=
  ∃ s n, to x = Some s ∧ Load s = Some n ∧ from (emit n) = Some x.

Section survive.
Context `{YamlLaws} {T : Type} (from : list ascii → option T) (to : T → option (list ascii)).

Lemma push_all_spec l : ∀ n ms,
  Forall (survives from to) l → sequence n ms →
  ∃ n' ns, push_all to n l = Some n' ∧ sequence n' (ms ++ ns) ∧ Forall2 (λ x m, from (emit m) = Some x) l ns.
Proof.
  induction l as [|x l IH]; intros n ms Hl Hn.
  { exists n, []. by rewrite app_nil_r. }
  apply Forall_cons in Hl as [(s & m & Hto & Hload & Hfrom) Hl]. cbn [push_all]. rewrite Hto. cbn. rewrite Hload. cbn.
  destruct (IH (push_back n m) (ms ++ [m]) Hl) as (n' & ns & Hp & Hs & Hf); [by apply sequence_push|].
  exists n', (m :: ns). rewrite <- (assoc_L (++)) in Hs. auto.
Qed.

Lemma read_from_spec n l : ∀ ns i,
  Forall2 (λ x m, from (emit m) = Some x) l ns → (∀ k e, ns !! k = Some e → at_index n (i + k) = Some e) →
  read_from from n i (length l) = Some l.
Proof.
  induction l as [|x l IH]; intros ns i Hf Ha; [done|]. inversion Hf as [|? m ? ns' Hm Hf']; subst.
  cbn [length read_from]. pose proof (Ha 0%nat m eq_refl) as Hd0. rewrite Nat.add_0_r in Hd0.
  rewrite Hd0. cbn. rewrite Hm. cbn. rewrite (IH ns' (S i) Hf'); [done|].
  intros k e Hk. rewrite Nat.add_succ_comm. by apply Ha.
Qed.

Lemma vector_reads l :
  Forall (survives from to) l →
  ∃ n, vector_to to l = Some (emit n) ∧ size n = length l ∧ read_from from n 0 (size n) = Some l.
Proof.
  intros Hl. destruct (push_all_spec l Sequence [] Hl sequence_new) as (n & ns & Hp & [Hs Ha] & Hf).
  cbn in Hs, Ha. pose proof (Forall2_length _ _ _ Hf) as Hlen. exists n. unfold vector_to. rewrite Hp.
  split_and!; [done|congruence|]. rewrite Hs, <- Hlen. eapply read_from_spec; [exact Hf|]. intros k e. apply Ha.
Qed.

Lemma vector_survives l : Forall (survives from to) l → survives (vector_from from) (vector_to to) l.
Proof.
  intros Hl. destruct (vector_reads l Hl) as (n & Hto & _ & Hr). exists (emit n), n. rewrite Load_emit.
  split_and!; [done|done|]. unfold vector_from. by rewrite Load_emit.
Qed.

(** A set as the container holds it: strictly increasing. *)
Lemma set_insert_last (lt : T → T → bool) x s :
  (∀ y, y ∈ s → lt y x = true ∧ lt x y = false) → set_insert lt x s = s ++ [x].
Proof.
  induction s as [|y s IH]; intros Hs; [done|]. destruct (Hs y) as [H1 H2]; [by left|].
  cbn. rewrite H2, H1, IH; [done|]. intros z Hz. apply Hs. by right.
Qed.

Definition increasing {A} (lt : A → A → bool) (s : list A) : Prop :=
  ∀ i j x y, s !! i = Some x → s !! j = Some y → (i < j)%nat → lt x y = true ∧ lt y x = false.

Lemma increasing_snoc {A} (lt : A → A → bool) s x :
  increasing lt (s ++ [x]) → increasing lt s ∧ ∀ y, y ∈ s → lt y x = true ∧ lt x y = false.
Proof.
  intros Hi. split.
  - intros i j y z Hy Hz Hij. apply (Hi i j); [by apply lookup_app_l_Some|by apply lookup_app_l_Some|done].
  - intros y [i Hy]%list_elem_of_lookup. apply (Hi i (length s)); [by apply lookup_app_l_Some|by apply list_lookup_middle|].
    by eapply lookup_lt_Some.
Qed.

Lemma set_inserts (lt : T → T → bool) s : increasing lt s → foldl (λ s x, set_insert lt x s) [] s = s.
Proof.
  induction s as [|x s IH] using rev_ind; intros Hi; [done|].
  apply increasing_snoc in Hi as [Hi Hx]. by rewrite foldl_snoc, IH, set_insert_last.
Qed.

Lemma set_survives (lt : T → T → bool) s :
  increasing lt s → Forall (survives from to) s → survives (set_from from lt) (set_to to) s.
Proof.
  intros Hi Hl. destruct (vector_reads s Hl) as (n & Hto & _ & Hr). exists (emit n), n. rewrite Load_emit.
  split_and!; [done|done|]. unfold set_from. rewrite Load_emit. cbn. rewrite Hr. cbn. by rewrite set_inserts.
Qed.

Definition key_lt (p q : list ascii * T) : bool := str_lt p.1 q.1.

Lemma map_insert_last (k : list ascii) (x : T) (m : list (list ascii * T)) :
  (∀ q, q ∈ m → str_lt q.1 k = true ∧ str_lt k q.1 = false) → map_insert k x m = m ++ [(k, x)].
Proof.
  induction m as [|[k' y] m IH]; intros Hs; [done|]. destruct (Hs (k', y)) as [H1 H2]; [by left|].
  cbn in *. rewrite H2, H1, IH; [done|]. intros q Hq. apply Hs. by right.
Qed.

Lemma increasing_tail {A} (lt : A → A → bool) x s : increasing lt (x :: s) → increasing lt s.
Proof. intros Hi i j y z Hy Hz Hij. apply (Hi (S i) (S j)); [done|done|lia]. Qed.

(** The document of a map holds the pairs in order; reading them rebuilds it. *)
Lemma set_all_spec (m : list (list ascii * T)) : ∀ n dn,
  increasing key_lt (dn ++ m) → Forall (λ p, survives from to p.2) m → (pairs n).*1 = dn.*1 →
  ∃ n' ns, set_all to n m = Some n' ∧ pairs n' = pairs n ++ ns ∧
    read_pairs from ns dn = Some (dn ++ m).
Proof.
  induction m as [|[k x] m IH]; intros n dn Hi Hm Hp.
  { exists n, []. by rewrite !app_nil_r. }
  apply Forall_cons in Hm as [(s & c & Hto & Hload & Hfrom) Hm]. cbn [set_all]. cbn in Hto. rewrite Hto. cbn. rewrite Hload. cbn.
  assert (∀ q, q ∈ dn → str_lt q.1 k = true ∧ str_lt k q.1 = false) as Hlast.
  { intros q [i Hq]%list_elem_of_lookup. apply (Hi i (length dn) q (k, x)); [by apply lookup_app_l_Some|by apply list_lookup_middle|].
    by eapply lookup_lt_Some. }
  assert (k ∉ (pairs n).*1) as Hk.
  { rewrite Hp. intros (q & -> & Hq)%list_elem_of_fmap. destruct (Hlast q Hq). by rewrite str_lt_irrefl in *. }
  destruct (IH (set_node n k c) (dn ++ [(k, x)])) as (n' & ns & Hs & Hpn & Hr).
  - by rewrite <- (assoc_L (++)).
  - done.
  - rewrite (pairs_set n k c Hk), !fmap_app, Hp. done.
  - exists n', ((k, c) :: ns). split; [done|]. rewrite Hpn, (pairs_set n k c Hk), <- (assoc_L (++)). split; [done|].
    cbn [read_pairs]. rewrite Hfrom. cbn. rewrite map_insert_last by done. by rewrite Hr, <- (assoc_L (++)).
Qed.

Lemma map_survives (m : list (list ascii * T)) :
  increasing key_lt m → Forall (λ p, survives from to p.2) m → survives (map_from from) (map_to to) m.
Proof.
  intros Hi Hm. destruct (set_all_spec m Map [] Hi Hm) as (n & ns & Hs & Hp & Hr); [by rewrite pairs_new|].
  exists (emit n), n. unfold map_to. rewrite Hs, Load_emit. split_and!; [done|done|].
  unfold map_from. rewrite Load_emit. cbn. rewrite Hp, pairs_new. exact Hr.
Qed.

(** Containers and YAML.  If every element survives its conversion to YAML and
    back, so does a vector or a list of them, a set (held in its order) and a map
    from strings (held in the order of its keys): nothing is lost, merged or
    reordered.  By repeated use it holds for containers of containers. *)
Theorem casts_roundtrip l (lt : T → T → bool) (m : list (list ascii * T)) :
  Forall (survives from to) l → increasing key_lt m → Forall (λ p, survives from to p.2) m →
  survives (vector_from from) (vector_to to) l ∧
  (increasing lt l → survives (set_from from lt) (set_to to) l) ∧
  survives (map_from from) (map_to to) m.
Proof.
  intros Hl Hi Hm. split_and!; [by apply vector_survives|intros; by apply set_survives|by apply map_survives].
Qed.

End survive.

End Cast.

(** ** Variables *)
Module Config.
Import Cast.

(** The C++ types of the variables, over the state [W] of the rest of the program. *)
Class ConfigTypes (W : Type) := {
  ty : Type;
  ty_eq_dec :: EqDecision ty;
  val : Type;
  FromStr : ty → list ascii → M W val;
  ToStr : ty → val → M W (list ascii);
  (** [==] *)
  val_eq : ty → val → val → bool;
  TypetoName : ty → list ascii;
  (** a message written to the root logger *)
  log_message : list ascii → M W unit;
}.

Section config.
Context {W : Type} `{ConfigTypes W}.

Definition on_change_cb : Type := val → val → M W unit.

Record ConfigVar := Var {
  m_name : list ascii;
  m_description : list ascii;
  m_type : ty;
  m_val : val;
  m_cbs : list (Z * on_change_cb);
}.

(** Variables by address, the table [GetDatas()], the counters [s_fun_id] (one for
    each type) and the rest of the program. *)
Record config := Conf {
  vars : gmap nat ConfigVar;
  datas : gmap (list ascii) nat;
  s_fun_id : ty → Z;
  next : nat;
  outer : W;
}.

Definition set_vars (v : gmap nat ConfigVar) (c : config) : config := Conf v (datas c) (s_fun_id c) (next c) (outer c).
Definition set_datas (v : gmap (list ascii) nat) (c : config) : config := Conf (vars c) v (s_fun_id c) (next c) (outer c).
Definition set_fun_id (v : ty → Z) (c : config) : config := Conf (vars c) (datas c) v (next c) (outer c).
Definition set_next (v : nat) (c : config) : config := Conf (vars c) (datas c) (s_fun_id c) v (outer c).
Definition set_outer (v : W) (c : config) : config := Conf (vars c) (datas c) (s_fun_id c) (next c) v.

Definition set_val (v : val) (x : ConfigVar) : ConfigVar := Var (m_name x) (m_description x) (m_type x) v (m_cbs x).
Definition set_cbs (v : list (Z * on_change_cb)) (x : ConfigVar) : ConfigVar :=
  Var (m_name x) (m_description x) (m_type x) (m_val x) v.

(** An action of the rest of the program. *)
Definition on_outer {A} (a : M W A) : M config A := λ c,
  match a (outer c) with
  | Ret r w => Ret r (set_outer w c)
  | Throw e w => Throw e (set_outer w c)
  | UB => UB
  end.

Definition var_at (a : nat) : M config ConfigVar := let! c := get in lift (vars c !! a).
Definition put_var (a : nat) (x : ConfigVar) : M config unit :=
  let! c := get in put (set_vars (<[a := x]> (vars c)) c).

(** The constructor: the name in lower case. *)
Definition newConfigVar (t : ty) (name : list ascii) (default_value : val) (description : list ascii) : M config nat :=
  let! c := get in
  put (set_next (S (next c))
    (set_vars (<[next c := Var (Util.ToLower name) description t default_value []]> (vars c)) c)) ;!
  ret (next c).

Definition to_String (a : nat) : M config (list ascii) :=
  let! x := var_at a in
  try_catch (on_outer (ToStr (m_type x) (m_val x)))
    (on_outer (log_message (of_lit "ConfigVar::toString exception")) ;! ret []).

Definition getValue (a : nat) : M config val := let! x := var_at a in ret (m_val x).

(** The loop over [m_cbs], which is in the order of the keys. *)
Fixpoint notify (cbs : list (Z * on_change_cb)) (old_value new_value : val) : M config unit :=
  match cbs with
  | [] => ret tt
  | (_, cb) :: cbs => on_outer (cb old_value new_value) ;! notify cbs old_value new_value
  end.

Definition setValue (a : nat) (v : val) : M config unit :=
  let! x := var_at a in
  if val_eq (m_type x) v (m_val x) then ret tt
  else
    notify (m_cbs x) (m_val x) v ;!
    let! x := var_at a in
    put_var a (set_val v x).

Definition fromString (a : nat) (s : list ascii) : M config bool :=
  let! x := var_at a in
  try_catch (let! v := on_outer (FromStr (m_type x) s) in setValue a v)
    (on_outer (log_message (of_lit "ConfigVar::toString exception"))) ;!
  ret false.

Definition getTypeName (a : nat) : M config (list ascii) :=
  let! x := var_at a in ret (TypetoName (m_type x)).

(** [m_cbs[key] = cb] *)
Fixpoint cbs_insert (k : Z) (cb : on_change_cb) (l : list (Z * on_change_cb)) : list (Z * on_change_cb) :=
  match l with
  | [] => [(k, cb)]
  | (k', cb') :: l =>
      if k <? k' then (k, cb) :: (k', cb') :: l
      else if k' <? k then (k', cb') :: cbs_insert k cb l
      else (k', cb) :: l
  end.

Definition addListener (a : nat) (cb : on_change_cb) : M config Z :=
  let! x := var_at a in
  let! c := get in
  let id := wrap 64 (s_fun_id c (m_type x) + 1) in
  put (set_fun_id (λ t, if decide (t = m_type x) then id else s_fun_id c t) c) ;!
  put_var a (set_cbs (cbs_insert id cb (m_cbs x)) x) ;!
  ret id.

Definition delListener (a : nat) (key : Z) : M config unit :=
  let! x := var_at a in
  put_var a (set_cbs (List.filter (λ p, negb (p.1 =? key)) (m_cbs x)) x).

Definition getListener (a : nat) (key : Z) : M config (option on_change_cb) :=
  let! x := var_at a in
  ret (snd <$> List.find (λ p, p.1 =? key) (m_cbs x)).

Definition clearListener (a : nat) : M config unit :=
  let! x := var_at a in put_var a (set_cbs [] x).

(** ** The table of variables *)

Definition LookupBase (name : list ascii) : M config (option nat) :=
  let! c := get in ret (datas c !! name).

(** [Lookup<T>(name)]: null when there is none or it has another type. *)
Definition Lookup (t : ty) (name : list ascii) : M config (option nat) :=
  let! c := get in
  match datas c !! name with
  | None => ret None
  | Some a => let! x := var_at a in ret (if decide (m_type x = t) then Some a else None)
  end.

Definition name_chars : list ascii := of_lit "abcdefghijklmnopqrstuvwxyz._0123456789".

(** The rest of [Lookup<T>(name, default_value, description)], where the variable
    is made and entered. *)
Definition enter (t : ty) (name : list ascii) (default_value : val) (description : list ascii) : M config nat :=
  if negb (find_first_not_of name name_chars =? npos) then
    on_outer (log_message (of_lit "Lookup name invalid" ++ name)) ;! throw invalid_argument
  else
    let! v := newConfigVar t name default_value description in
    let! c := get in
    put (set_datas (<[name := v]> (datas c)) c) ;!
    ret v.

Definition LookupDefault (t : ty) (name : list ascii) (default_value : val) (description : list ascii) : M config nat :=
  let! c := get in
  match datas c !! name with
  | None => enter t name default_value description
  | Some a =>
      let! tmp := Lookup t name in
      match tmp with
      | Some v => on_outer (log_message (of_lit "Look up name = " ++ name ++ of_lit " exists")) ;! ret v
      | None =>
          let! real := getTypeName a in
          on_outer (log_message (of_lit "Lookup name" ++ name ++ of_lit "exists but type not" ++ TypetoName t
            ++ of_lit "real_type=" ++ real ++ of_lit " ")) ;!
          enter t name default_value description
      end
  end.

(** [Visit]: the variables in the order of their names. *)
Fixpoint visit_all (cb : nat → M config unit) (l : list nat) : M config unit :=
  match l with
  | [] => ret tt
  | a :: l => cb a ;! visit_all cb l
  end.

Definition Visit (cb : nat → M config unit) : M config unit :=
  let! c := get in visit_all cb (LogConf.in_order (datas c)).

(** ** Loading a document *)
Context `{Yaml}.

(** The path of a member. *)
Definition sub_path (prefix k : list ascii) : list ascii :=
  if bool_decide (prefix = []) then k else prefix ++ of_lit "." ++ k.

(** The loop over the members of a map; [rec] is the recursive call. *)
Fixpoint members_loop (rec : list ascii → node → list (list ascii * node) → M config (list (list ascii * node)))
    (prefix : list ascii) (l : list (list ascii * node)) (output : list (list ascii * node))
    : M config (list (list ascii * node)) :=
  match l with
  | [] => ret output
  | (k, v) :: l =>
      let! output := rec (sub_path prefix k) v output in
      members_loop rec prefix l output
  end.

(** [ListAllMember]; the recursion takes [fuel]. *)
Fixpoint ListAllMember (fuel : nat) (prefix : list ascii) (n : node) (output : list (list ascii * node))
    : M config (list (list ascii * node)) :=
  match fuel with
  | O => ub
  | S fuel =>
      (if find_first_not_of prefix name_chars =? npos then ret tt
       else on_outer (log_message (of_lit "Configinvalid name:" ++ prefix ++ of_lit ":" ++ emit n))) ;!
      if IsMap n then members_loop (ListAllMember fuel) prefix (pairs n) (output ++ [(prefix, n)])
      else ret (output ++ [(prefix, n)])
  end.

(** The text a member is converted from. *)
Definition member_text (n : node) : list ascii := if IsScalar n then Scalar n else emit n.

(** One round of the loop of [LoadFromYaml]. *)
Definition load_member (i : list ascii * node) : M config unit :=
  if bool_decide (i.1 = []) then ret tt
  else
    let! var := LookupBase (Util.ToLower i.1) in
    match var with
    | Some a => fromString a (member_text i.2) ;! ret tt
    | None => ret tt
    end.

Fixpoint load_members (l : list (list ascii * node)) : M config unit :=
  match l with
  | [] => ret tt
  | i :: l => load_member i ;! load_members l
  end.

Definition LoadFromYaml (fuel : nat) (root : node) : M config unit :=
  let! all_nodes := ListAllMember fuel [] root [] in
  load_members all_nodes.

End config.

(** ** Setting a value *)
Section setting.
Context {W : Type} `{ConfigTypes W}.

(** What the listeners do to the rest of the program. *)
Fixpoint run_cbs (cbs : list (Z * on_change_cb)) (old_value new_value : val) : M W unit :=
  match cbs with
  | [] => ret tt
  | (_, cb) :: cbs => cb old_value new_value ;! run_cbs cbs old_value new_value
  end.

Lemma notify_run cbs old_value new_value c :
  notify cbs old_value new_value c =
  match run_cbs cbs old_value new_value (outer c) with
  | Ret _ w => Ret tt (set_outer w c)
  | Throw e w => Throw e (set_outer w c)
  | UB => UB
  end.
Proof.
  revert c. induction cbs as [|[k cb] cbs IH]; intros c; cbn [notify run_cbs].
  { by destruct c. }
  unfold bind, on_outer. destruct (cb old_value new_value (outer c)) as [[] w|e w|]; [|done|done].
  rewrite IH. cbn. by destruct (run_cbs cbs old_value new_value w).
Qed.

Lemma var_at_ret a x (c : config) : vars c !! a = Some x → var_at a c = Ret x c.
Proof. intros Hx. unfold var_at. by rewrite bind_get, Hx. Qed.

Lemma setValue_ret a v x c :
  vars c !! a = Some x →
  setValue a v c =
  if val_eq (m_type x) v (m_val x) then Ret tt c
  else match run_cbs (m_cbs x) (m_val x) v (outer c) with
       | Ret _ w => Ret tt (set_vars (<[a := set_val v x]> (vars c)) (set_outer w c))
       | Throw e w => Throw e (set_outer w c)
       | UB => UB
       end.
Proof.
  intros Hx. unfold setValue. rewrite (bind_Ret _ _ _ _ _ (var_at_ret a x c Hx)). case_match; [done|].
  unfold bind at 1. rewrite notify_run. destruct (run_cbs _ _ _ _) as [[] w|e w|]; [|done|done].
  by rewrite (bind_Ret _ _ _ _ _ (var_at_ret a x (set_outer w c) Hx)).
Qed.

(** Setting a variable.  A value equal to the present one changes nothing and
    calls nobody.  Otherwise the listeners are called one after the other in the
    order of their keys, each with the old and the new value, and only then is the
    new value stored; if a listener throws, the ones after it are not called and
    the variable keeps its old value. *)
Theorem setValue_notifies a v x c :
  vars c !! a = Some x →
  setValue a v c =
  if val_eq (m_type x) v (m_val x) then Ret tt c
  else match run_cbs (m_cbs x) (m_val x) v (outer c) with
       | Ret _ w => Ret tt (set_vars (<[a := set_val v x]> (vars c)) (set_outer w c))
       | Throw e w => Throw e (set_outer w c)
       | UB => UB
       end.
Proof. apply setValue_ret. Qed.

(** A listener added when the counter is above all keys is called last. *)
Lemma cbs_insert_last k cb (l : list (Z * on_change_cb)) : Forall (λ p, p.1 < k) l → cbs_insert k cb l = l ++ [(k, cb)].
Proof.
  induction l as [|[k' cb'] l IH]; intros Hl; [done|]. apply Forall_cons in Hl as [Hk Hl]. cbn in *.
  rewrite (proj2 (Z.ltb_ge _ _)), (proj2 (Z.ltb_lt _ _)), IH by (done || lia). done.
Qed.

(** A variable asked for with another type is replaced in the table. *)
Lemma lookup_replaces t name v description a x c :
  datas c !! name = Some a → vars c !! a = Some x → m_type x ≠ t →
  find_first_not_of name name_chars = npos →
  (∀ s w, ∃ w', log_message s w = Ret tt w') →
  ∃ c', LookupDefault t name v description c = Ret (next c) c' ∧ datas c' !! name = Some (next c).
Proof.
  intros Hd Hx Ht Hn Hlog. unfold LookupDefault. rewrite bind_get, Hd.
  assert (Lookup t name c = Ret None c) as Hl.
  { unfold Lookup. rewrite bind_get, Hd, (bind_Ret _ _ _ _ _ (var_at_ret a x c Hx)). by rewrite decide_False. }
  rewrite (bind_Ret _ _ _ _ _ Hl). cbv beta iota.
  assert (getTypeName a c = Ret (TypetoName (m_type x)) c) as Hg
    by (unfold getTypeName; by rewrite (bind_Ret _ _ _ _ _ (var_at_ret a x c Hx))).
  rewrite (bind_Ret _ _ _ _ _ Hg). unfold bind at 1, on_outer.
  match goal with |- context [log_message ?s (outer c)] => destruct (Hlog s (outer c)) as [w ->] end.
  unfold enter. rewrite Hn, Z.eqb_refl. eexists. split; [reflexivity|]. cbn. apply lookup_insert_eq.
Qed.

End setting.

(** ** What a document does *)
Section load.
Context {W : Type} `{ConfigTypes W} `{YamlTree}.

(** The members of a document with their paths, from the outside in. *)
Fixpoint all_members (fuel : nat) (prefix : list ascii) (n : node) : list (list ascii * node) :=
  match fuel with
  | O => []
  | S fuel =>
      (prefix, n) ::
      if IsMap n
      then flat_map (λ p, all_members fuel (sub_path prefix p.1) p.2) (pairs n)
      else []
  end.

(** The conversion of a text, whatever the state of the program. *)
Context (parse : ty → list ascii → option val).
Context (parse_FromStr : ∀ t s w,
  match parse t s with
  | Some v => ∃ w', FromStr t s w = Ret v w'
  | None => ∃ e w', FromStr t s w = Throw e w'
  end).
Context (log_returns : ∀ s w, ∃ w', log_message s w = Ret tt w').
Context (val_eq_sound : ∀ t v v', val_eq t v v' = true → v = v').

(** Listeners that return. *)
Definition cbs_return (x : ConfigVar) : Prop := Forall (λ p, ∀ o v w, ∃ w', p.2 o v w = Ret tt w') (m_cbs x).

Lemma run_cbs_ret (x : ConfigVar) o v w : cbs_return x → ∃ w', run_cbs (m_cbs x) o v w = Ret tt w'.
Proof.
  unfold cbs_return. revert w. induction (m_cbs x) as [|[k cb] l IH]; intros w Hl; [by exists w|].
  apply Forall_cons in Hl as [Hcb Hl]. cbn [run_cbs]. destruct (Hcb o v w) as [w1 Hw1]. rewrite (bind_Ret _ _ _ _ _ Hw1). by apply IH.
Qed.

(** Only the rest of the program changes. *)
Definition same_vars (c c' : config) : Prop := vars c' = vars c ∧ datas c' = datas c.

Lemma members_loop_ret rec spec prefix l : ∀ output c,
  (∀ p output c, p ∈ l → ∃ c', rec (sub_path prefix p.1) p.2 output c = Ret (output ++ spec p) c' ∧ same_vars c c') →
  ∃ c', members_loop rec prefix l output c = Ret (output ++ flat_map spec l) c' ∧ same_vars c c'.
Proof.
  induction l as [|[k v] l IH]; intros output c Hrec; cbn [members_loop flat_map].
  { exists c. by rewrite app_nil_r. }
  destruct (Hrec (k, v) output c) as (c1 & Hr1 & Hs1); [by left|]. cbn in Hr1. rewrite (bind_Ret _ _ _ _ _ Hr1).
  destruct (IH (output ++ spec (k, v)) c1) as (c2 & Hr2 & Hs2).
  { intros p out c0 Hp. apply Hrec. by right. }
  exists c2. rewrite Hr2, <- (assoc_L (++)). split; [done|]. destruct Hs1, Hs2. split; congruence.
Qed.

Lemma ListAllMember_ret fuel : ∀ prefix n output c,
  (depth n < fuel)%nat →
  ∃ c', ListAllMember fuel prefix n output c = Ret (output ++ all_members fuel prefix n) c' ∧ same_vars c c'.
Proof.
  induction fuel as [|fuel IH]; intros prefix n output c Hd; [lia|]. cbn [ListAllMember all_members].
  assert (∃ c1, (if find_first_not_of prefix name_chars =? npos then ret tt
     else on_outer (log_message (of_lit "Configinvalid name:" ++ prefix ++ of_lit ":" ++ emit n))) c = Ret tt c1 ∧
    same_vars c c1) as (c1 & Hr1 & Hs1).
  { case_match; [by exists c|]. unfold on_outer.
    match goal with |- context [log_message ?s (outer c)] => destruct (log_returns s (outer c)) as [w ->] end. by eexists. }
  rewrite (bind_Ret _ _ _ _ _ Hr1). destruct (IsMap n); [|by exists c1].
  destruct (members_loop_ret (ListAllMember fuel) (λ p, all_members fuel (sub_path prefix p.1) p.2) prefix (pairs n)
    (output ++ [(prefix, n)]) c1) as (c2 & Hr2 & Hs2).
  { intros p out c0 Hp%depth_pairs. apply IH. lia. }
  exists c2. rewrite Hr2, <- (assoc_L (++)). split; [done|]. destruct Hs1, Hs2. split; congruence.
Qed.

Lemma set_val_same x : set_val (m_val x) x = x.
Proof. by destruct x. Qed.

Lemma fromString_ret a x s c :
  vars c !! a = Some x → cbs_return x →
  ∃ c', fromString a s c = Ret false c' ∧ datas c' = datas c ∧
    vars c' = <[a := set_val (default (m_val x) (parse (m_type x) s)) x]> (vars c).
Proof.
  intros Hx Hcb. unfold fromString. rewrite (bind_Ret _ _ _ _ _ (var_at_ret a x c Hx)).
  pose proof (parse_FromStr (m_type x) s (outer c)) as Hp. unfold bind at 1, try_catch, bind at 1, on_outer at 1.
  destruct (parse (m_type x) s) as [v|].
  - destruct Hp as [w Hw]. rewrite Hw. rewrite (setValue_ret a v x (set_outer w c) Hx). cbn [default from_option].
    destruct (val_eq (m_type x) v (m_val x)) eqn:Eq.
    + apply val_eq_sound in Eq as ->. eexists. split; [done|]. cbn. split; [done|]. by rewrite set_val_same, insert_id.
    + destruct (run_cbs_ret x (m_val x) v (outer (set_outer w c)) Hcb) as [w2 Hw2]. rewrite Hw2. by eexists.
  - destruct Hp as (e & w & Hw). rewrite Hw. unfold on_outer.
    match goal with |- context [log_message ?m (outer ?c0)] => destruct (log_returns m (outer c0)) as [w2 ->] end.
    eexists. split; [done|]. cbn. split; [done|]. by rewrite set_val_same, insert_id.
Qed.

(** The texts a document has for the variable [a], in order. *)
Definition texts (c : config) (a : nat) (ms : list (list ascii * node)) : list (list ascii) :=
  (member_text ∘ snd) <$>
    filter (λ i : list ascii * node, i.1 ≠ [] ∧ datas c !! Util.ToLower i.1 = Some a) ms.

Definition converted (x : ConfigVar) (ss : list (list ascii)) : ConfigVar :=
  set_val (foldl (λ v s, default v (parse (m_type x) s)) (m_val x) ss) x.

Lemma converted_cons x s ss :
  converted (set_val (default (m_val x) (parse (m_type x) s)) x) ss = converted x (s :: ss).
Proof. done. Qed.

Lemma texts_cons c a i ms :
  texts c a (i :: ms) =
  if bool_decide (i.1 ≠ [] ∧ datas c !! Util.ToLower i.1 = Some a) then member_text i.2 :: texts c a ms else texts c a ms.
Proof. unfold texts. case_bool_decide; [by rewrite filter_cons_True|by rewrite filter_cons_False]. Qed.

(** One member changes the variable of its name only. *)
Lemma load_member_ret i c :
  (∀ a x, vars c !! a = Some x → cbs_return x) → (∀ k a, datas c !! k = Some a → is_Some (vars c !! a)) →
  ∃ c', load_member i c = Ret tt c' ∧ datas c' = datas c ∧
    ∀ a, vars c' !! a = (λ x, converted x (texts c a [i])) <$> vars c !! a.
Proof.
  intros Hcb Hd.
  assert ((∀ a, texts c a [i] = []) → ∃ c', (ret tt : M config unit) c = Ret tt c' ∧ datas c' = datas c ∧
    ∀ a, vars c' !! a = (λ x, converted x (texts c a [i])) <$> vars c !! a) as Hsame.
  { intros Ht. exists c. split_and!; [done|done|]. intros a. rewrite Ht. destruct (vars c !! a) as [x|]; [|done].
    cbn. unfold converted. cbn. by rewrite set_val_same. }
  unfold load_member. case_bool_decide as Hk.
  { apply Hsame. intros a. by rewrite texts_cons, bool_decide_eq_false_2 by tauto. }
  unfold LookupBase. rewrite (bind_Ret _ _ c (datas c !! Util.ToLower i.1) c) by done.
  destruct (datas c !! Util.ToLower i.1) as [a0|] eqn:Ha0.
  - destruct (Hd _ _ Ha0) as [x0 Hx0].
    destruct (fromString_ret a0 x0 (member_text i.2) c Hx0 (Hcb _ _ Hx0)) as (c1 & Hr & Hdd & Hvv).
    exists c1. rewrite (bind_Ret _ _ _ _ _ Hr). split_and!; [done|done|]. intros a. rewrite Hvv, texts_cons, Ha0.
    destruct (decide (a0 = a)) as [->|Hne].
    + rewrite bool_decide_eq_true_2, lookup_insert_eq, Hx0 by done. done.
    + rewrite bool_decide_eq_false_2, lookup_insert_ne by naive_solver. destruct (vars c !! a); [|done].
      cbn. unfold converted. cbn. by rewrite set_val_same.
  - apply Hsame. intros a. by rewrite texts_cons, bool_decide_eq_false_2 by (rewrite Ha0; naive_solver).
Qed.

Lemma load_members_ret ms : ∀ c,
  (∀ a x, vars c !! a = Some x → cbs_return x) → (∀ k a, datas c !! k = Some a → is_Some (vars c !! a)) →
  ∃ c', load_members ms c = Ret tt c' ∧ datas c' = datas c ∧
    ∀ a, vars c' !! a = (λ x, converted x (texts c a ms)) <$> vars c !! a.
Proof.
  induction ms as [|i ms IH]; intros c Hcb Hd; cbn [load_members].
  { exists c. split_and!; [done|done|]. intros a. destruct (vars c !! a) as [x|]; [|done].
    cbn. unfold converted. cbn. by rewrite set_val_same. }
  destruct (load_member_ret i c Hcb Hd) as (c1 & Hr1 & Hd1 & Hv1). rewrite (bind_Ret _ _ _ _ _ Hr1).
  destruct (IH c1) as (c2 & Hr2 & Hd2 & Hv2).
  { intros a x. rewrite Hv1. intros (x0 & Hx0 & ->)%fmap_Some. by apply (Hcb a x0). }
  { intros k a. rewrite Hd1, Hv1. intros [x ->]%Hd. by eexists. }
  exists c2. split_and!; [done|congruence|]. intros a. rewrite Hv2, Hv1.
  destruct (vars c !! a) as [x|]; [|done]. cbn [fmap option_fmap option_map]. f_equal.
  assert (texts c1 a ms = texts c a ms) as -> by (unfold texts; by rewrite Hd1).
  rewrite !texts_cons. case_bool_decide; [done|]. unfold converted at 2. cbn. by rewrite set_val_same.
Qed.

(** C22. Loading a document.  Every member of the document, at any depth, is entered
    under its path in lower case; a variable of that name is set to the conversion
    of the member's text, and keeps its value if the text cannot be converted.
    After [LoadFromYaml] each variable has the conversion of the last convertible
    text the document has for it, or its old value when there is none; no variable
    is added, removed or renamed, and loading always ends. *)
Theorem LoadFromYaml_applies fuel root c :
  (depth root < fuel)%nat →
  (∀ a x, vars c !! a = Some x → cbs_return x) → (∀ k a, datas c !! k = Some a → is_Some (vars c !! a)) →
  ∃ c', LoadFromYaml fuel root c = Ret tt c' ∧ datas c' = datas c ∧
    ∀ a, vars c' !! a = (λ x, converted x (texts c a (all_members fuel [] root))) <$> vars c !! a.
Proof.
  intros Hf Hcb Hd. unfold LoadFromYaml. destruct (ListAllMember_ret fuel [] root [] c Hf) as (c1 & Hr1 & Hv1 & Hd1).
  rewrite (bind_Ret _ _ _ _ _ Hr1). destruct (load_members_ret ([] ++ all_members fuel [] root) c1) as (c2 & Hr2 & Hd2 & Hv2).
  - by rewrite Hv1.
  - by rewrite Hd1, Hv1.
  - exists c2. split_and!; [done|congruence|]. intros a. rewrite Hv2, Hv1. unfold texts. by rewrite Hd1.
Qed.

End load.

(** ** Examples: variables that hold strings, next to a list of messages *)
#[local] Existing Instance TreeYaml.tree_yaml.
#[local] Existing Instance TreeYaml.tree_yaml_laws.
#[local] Existing Instance TreeYaml.tree_yaml_tree.

#[local] Instance sim_types : ConfigTypes (list (list ascii)) := {|
  ty := unit;
  val := list ascii;
  FromStr _ s w := Ret s w;
  ToStr _ v w := Ret v w;
  val_eq _ v v' := bool_decide (v = v');
  TypetoName _ := of_lit "string";
  log_message s w := Ret tt (w ++ [s]);
|}.

Definition sim_listener : @on_change_cb _ sim_types := λ _ new w, Ret tt (w ++ [new]).

Definition sim_var : @ConfigVar _ sim_types := @Var _ sim_types (of_lit "a.b") [] tt (of_lit "old") [(1, sim_listener)].

Definition sim_config : config :=
  Conf {[0%nat := sim_var]} {[of_lit "a.b" := 0%nat]} (λ _, 1) 1 [].

Definition sim_document : TreeYaml.value :=
  TreeYaml.VMap [(of_lit "A", TreeYaml.VMap [(of_lit "b", TreeYaml.VString (of_lit "new"))])].

Definition sim_new : @val _ sim_types := of_lit "new".

Lemma setValue_notifies_witness :
  vars sim_config !! 0%nat = Some sim_var ∧
  setValue 0 sim_new sim_config =
  if val_eq (m_type sim_var) sim_new (m_val sim_var) then Ret tt sim_config
  else match run_cbs (m_cbs sim_var) (m_val sim_var) sim_new (outer sim_config) with
       | Ret _ w => Ret tt (set_vars (<[0%nat := set_val sim_new sim_var]> (vars sim_config)) (set_outer w sim_config))
       | Throw e w => Throw e (set_outer w sim_config)
       | UB => UB
       end.
Proof. split; [done|]. apply (setValue_notifies 0 sim_new sim_var sim_config). done. Defined.

Definition sim_parse (t : @ty _ sim_types) (s : list ascii) : option (@val _ sim_types) := Some s.

Lemma LoadFromYaml_applies_witness :
  texts sim_config 0 (all_members 3 [] sim_document) = [of_lit "new"] ∧
  ∃ c', LoadFromYaml 3 sim_document sim_config = Ret tt c' ∧ datas c' = datas sim_config ∧
    ∀ a, vars c' !! a =
      (λ x, converted sim_parse x (texts sim_config a (all_members 3 [] sim_document))) <$> vars sim_config !! a.
Proof.
  split; [by vm_compute|].
  apply (LoadFromYaml_applies sim_parse) with (fuel := 3%nat) (root := sim_document) (c := sim_config).
  - intros t s w. by exists w.
  - intros s w. by eexists.
  - intros t v v' Hv. by apply bool_decide_eq_true in Hv.
  - apply (bool_decide_unpack _). by vm_compute.
  - intros a x Hx. change (({[0%nat := sim_var]} : gmap nat ConfigVar) !! a = Some x) in Hx.
    apply lookup_singleton_Some in Hx as [_ <-]. constructor; [|constructor]. intros o v w. by eexists.
  - intros k a Hk. change (({[of_lit "a.b" := 0%nat]} : gmap (list ascii) nat) !! k = Some a) in Hk.
    apply lookup_singleton_Some in Hk as [_ <-]. by exists sim_var.
Defined.

(** Strings as scalars *)
Definition sim_from (s : list ascii) : option (list ascii) := n ← @Load TreeYaml.tree_yaml s; as_string n.
Definition sim_to (x : list ascii) : option (list ascii) := Some (@emit TreeYaml.tree_yaml (TreeYaml.VString x)).

Lemma sim_survives x : survives sim_from sim_to x.
Proof.
  exists (@emit TreeYaml.tree_yaml (TreeYaml.VString x)), (TreeYaml.VString x). split_and!; [done|apply Load_emit|].
  unfold sim_from. by rewrite Load_emit.
Qed.

Lemma casts_roundtrip_witness :
  survives (vector_from sim_from) (vector_to sim_to) [of_lit "a"; of_lit "b"] ∧
  (increasing LogConf.str_lt [of_lit "a"; of_lit "b"] →
     survives (set_from sim_from LogConf.str_lt) (set_to sim_to) [of_lit "a"; of_lit "b"]) ∧
  survives (map_from sim_from) (map_to sim_to) [(of_lit "k", of_lit "v")].
Proof.
  apply (casts_roundtrip sim_from sim_to [of_lit "a"; of_lit "b"] LogConf.str_lt [(of_lit "k", of_lit "v")]).
  - apply Forall_forall. intros x _. apply sim_survives.
  - intros [|i] [|j] x y Hx Hy Hij; cbn in *; try lia; done.
  - constructor; [apply sim_survives|constructor].
Defined.

End Config.
