(* ===== verification/Worker.v ===== *)
(** * Worker: the semaphore of fibers, groups of tasks and named schedulers

    Models [FiberSemaphore] (src/bobliew/mutex.{h,cc}), [WorkerGroup] and
    [WorkerManager] (src/bobliew/worker.{h,cc}).  A group bounds the tasks it has
    on a scheduler with a semaphore; the fibers that call [schedule] and [waitAll]
    and the tasks run in any order, each step of [step] being the code between
    two points where the fiber can be suspended or another thread can come in.

    [group_bounded]: a group never has more tasks than its batch size, and no
    wake-up is lost.  [waitAll_waits]: when the [waitAll] that drained the
    semaphore returns, no task is left, and none will ever run again.
    [init_names]: which schedulers a configuration makes, and under which names. *)
From stdpp Require Import pretty.
From S2P Require Import Prelude Util.
Import StdString.
#[local] Open Scope list_scope.
#[local] Open Scope Z_scope.
#[local] Set Warnings "-clear-no-such-hyp".

(** ** The semaphore *)
Module FiberSemaphore.

(** [m_waiters] has the fibers with the schedulers they run on. *)
Record t := Sem {
  m_concurrency : Z;
  m_waiters : list (nat * nat);
}.

Definition new (initial_concurrency : Z) : t := Sem initial_concurrency [].

(** The destructor's assertion. *)
Definition can_destroy (s : t) : bool := bool_decide (m_waiters s = []).

(** [tryWait] and [wait] from a fiber [f] of the scheduler [sched]; [None]: the
    assertion that there is a scheduler fails. *)
Definition tryWait (sched : option nat) (s : t) : option (bool * t) :=
  match sched with
  | None => None
  | Some _ =>
      Some (if 0 <? m_concurrency s then (true, Sem (m_concurrency s - 1) (m_waiters s)) else (false, s))
  end.

(** The critical section of [wait]; [false]: the fiber is queued and yields. *)
Definition wait (sched : option nat) (f : nat) (s : t) : option (bool * t) :=
  match sched with
  | None => None
  | Some sc =>
      Some (if 0 <? m_concurrency s then (true, Sem (m_concurrency s - 1) (m_waiters s))
            else (false, Sem (m_concurrency s) (m_waiters s ++ [(sc, f)])))
  end.

(** [notify]: the first waiter is handed to its scheduler, or the count goes up. *)
Definition notify (s : t) : option (nat * nat) * t :=
  match m_waiters s with
  | next :: ws => (Some next, Sem (m_concurrency s) ws)
  | [] => (None, Sem (wrap 64 (m_concurrency s + 1)) [])
  end.

End FiberSemaphore.

(** ** Groups of tasks *)
Module WorkerGroup.
Import FiberSemaphore.

(** Where a call of the group is: the first two are in [schedule], the others in
    [waitAll], which has found [m_finish] unset and not set it yet, has had [i] of
    its waits, has returned after all of them, or has returned at once. *)
Inductive phase :=
| Blocked (cb : nat)
| Granted (cb : nat)
| Checked
| Draining (i : Z)
| DrainBlocked (i : Z)
| DrainGranted (i : Z)
| Drained
| Skipped.

(** The group, the calls of its members with their fibers (a fiber that calls again
    counts as another one), the tasks queued on the scheduler and running, and the
    number of those that left by an exception. *)
Record t := Group {
  m_batchSize : Z;
  m_finish : bool;
  m_sem : FiberSemaphore.t;
  fibers : list (nat * phase);
  queued : list nat;
  running : list nat;
  thrown : Z;
}.

Definition new (batch_size : Z) : t := Group batch_size false (FiberSemaphore.new batch_size) [] [] [] 0.

Definition set_sem (v : FiberSemaphore.t) (g : t) : t :=
  Group (m_batchSize g) (m_finish g) v (fibers g) (queued g) (running g) (thrown g).
Definition set_fibers (v : list (nat * phase)) (g : t) : t :=
  Group (m_batchSize g) (m_finish g) (m_sem g) v (queued g) (running g) (thrown g).

(** The scheduler wakes a fiber that was waiting. *)
Definition wake_phase (p : phase) : phase :=
  match p with
  | Blocked cb => Granted cb
  | DrainBlocked i => DrainGranted i
  | p => p
  end.

Definition wake (f : nat) (l : list (nat * phase)) : list (nat * phase) :=
  (λ p, if (p.1 =? f)%nat then (p.1, wake_phase p.2) else p) <$> l.

(** [schedule(cb)], up to the end of the critical section of [wait]. *)
Definition schedule (sched f cb : nat) (g : t) : t :=
  match wait (Some sched) f (m_sem g) with
  | Some (ok, s) => set_fibers ((f, if ok then Granted cb else Blocked cb) :: fibers g) (set_sem s g)
  | None => g
  end.

(** The rest of [schedule]: the task is handed to the scheduler. *)
Definition hand_over (cb : nat) (rest : list (nat * phase)) (g : t) : t :=
  Group (m_batchSize g) (m_finish g) (m_sem g) rest (queued g ++ [cb]) (running g) (thrown g).

(** [m_sem.notify()] at the end of [doWork]. *)
Definition finish (rest : list nat) (g : t) : t :=
  let (next, s) := notify (m_sem g) in
  Group (m_batchSize g) (m_finish g) s (match next with Some (_, f) => wake f (fibers g) | None => fibers g end)
    (queued g) rest (thrown g).

(** The start of [waitAll]: [m_finish] is read, and set in a step of its own, since
    no lock is held. *)
Definition waitAll (f : nat) (g : t) : t :=
  set_fibers ((f, if m_finish g then Skipped else Checked) :: fibers g) g.

Definition set_finish (f : nat) (l r : list (nat * phase)) (g : t) : t :=
  Group (m_batchSize g) true (m_sem g) (l ++ (f, Draining 0) :: r) (queued g) (running g) (thrown g).

(** A round of its loop. *)
Definition drain (sched f : nat) (i : Z) (l r : list (nat * phase)) (g : t) : t :=
  match wait (Some sched) f (m_sem g) with
  | Some (ok, s) => set_fibers (l ++ (f, if ok then Draining (i + 1) else DrainBlocked i) :: r) (set_sem s g)
  | None => g
  end.

Inductive step : t → t → Prop :=
| step_schedule sched f cb g : f ∉ (fibers g).*1 → step g (schedule sched f cb g)
| step_hand_over f cb l r g : fibers g = l ++ (f, Granted cb) :: r → step g (hand_over cb (l ++ r) g)
| step_run cb l r g : queued g = l ++ cb :: r →
    step g (Group (m_batchSize g) (m_finish g) (m_sem g) (fibers g) (l ++ r) (cb :: running g) (thrown g))
| step_finish cb l r g : running g = l ++ cb :: r → step g (finish (l ++ r) g)
| step_throw cb l r g : running g = l ++ cb :: r →
    step g (Group (m_batchSize g) (m_finish g) (m_sem g) (fibers g) (queued g) (l ++ r) (thrown g + 1))
| step_waitAll f g : f ∉ (fibers g).*1 → step g (waitAll f g)
| step_set_finish f l r g : fibers g = l ++ (f, Checked) :: r → step g (set_finish f l r g)
| step_drain sched f i l r g : fibers g = l ++ (f, Draining i) :: r → i < m_batchSize g → step g (drain sched f i l r g)
| step_drain_go_on f i l r g : fibers g = l ++ (f, DrainGranted i) :: r →
    step g (set_fibers (l ++ (f, Draining (i + 1)) :: r) g)
| step_drained f i l r g : fibers g = l ++ (f, Draining i) :: r → m_batchSize g ≤ i →
    step g (set_fibers (l ++ (f, Drained) :: r) g).

Definition reachable (batch : Z) (g : t) : Prop := rtc step (new batch) g.

(** ** Accounting for the permits *)

Section permits.
Context (batch : Z).

Definition permits (p : phase) : Z :=
  match p with
  | Blocked _ | Checked | Skipped => 0
  | Granted _ => 1
  | Draining i | DrainBlocked i => i
  | DrainGranted i => i + 1
  | Drained => batch
  end.

Definition held (l : list (nat * phase)) : Z := foldr (λ p acc, permits p.2 + acc) 0 l.
#[local] Arguments held : simpl never.

Definition blocked (p : phase) : bool :=
  match p with Blocked _ | DrainBlocked _ => true | _ => false end.

(** [waitAll] counts from 0. *)
Definition counted (p : phase) : Prop :=
  match p with Draining i | DrainBlocked i | DrainGranted i => 0 ≤ i | _ => True end.

Record inv (g : t) : Prop := {
  i_batch : m_batchSize g = batch;
  i_sum : m_concurrency (m_sem g) + held (fibers g) + Z.of_nat (length (queued g)) + Z.of_nat (length (running g))
            + thrown g = batch;
  i_conc : 0 ≤ m_concurrency (m_sem g);
  i_thrown : 0 ≤ thrown g;
  i_count : Forall (λ p, counted p.2) (fibers g);
  i_nodup : NoDup (fibers g).*1;
  i_waiters : (m_waiters (m_sem g)).*2 ≡ₚ (filter (λ p, blocked p.2 = true) (fibers g)).*1;
  i_zero : m_waiters (m_sem g) ≠ [] → m_concurrency (m_sem g) = 0;
}.

Lemma held_app l1 l2 : held (l1 ++ l2) = held l1 + held l2.
Proof. induction l1 as [|p l1 IH]; [done|]. unfold held in *. cbn. lia. Qed.

Lemma held_middle l f p r : held (l ++ (f, p) :: r) = held l + permits p + held r.
Proof. rewrite held_app. change (held ((f, p) :: r)) with (permits p + held r). lia. Qed.

Lemma held_nonneg l : 0 ≤ batch → Forall (λ p, counted p.2) l → 0 ≤ held l.
Proof.
  intros Hb. induction 1 as [|[f p] l Hp Hl IH]; [done|]. change (held ((f, p) :: l)) with (permits p + held l).
  destruct p; cbn in *; lia.
Qed.

Lemma wake_none f l : f ∉ l.*1 → wake f l = l.
Proof.
  induction l as [|[f' p] l IH]; intros Hf; [done|]. cbn in *. apply not_elem_of_cons in Hf as [Hne Hf].
  rewrite (proj2 (Nat.eqb_neq _ _)) by done. f_equal. by apply IH.
Qed.

Lemma wake_middle f p l r :
  NoDup (l ++ (f, p) :: r).*1 → wake f (l ++ (f, p) :: r) = l ++ (f, wake_phase p) :: r.
Proof.
  rewrite fmap_app, fmap_cons. cbn. intros (_ & Hl & [Hr _]%NoDup_cons)%NoDup_app.
  unfold wake. rewrite fmap_app, fmap_cons. cbn. rewrite Nat.eqb_refl.
  fold (wake f l) (wake f r). rewrite !wake_none; [done|done|]. intros Hf. apply (Hl f Hf). by left.
Qed.

Lemma ids_middle (l r : list (nat * phase)) f p q : (l ++ (f, p) :: r).*1 = (l ++ (f, q) :: r).*1.
Proof. by rewrite !fmap_app, !fmap_cons. Qed.

Lemma waiting_middle (l r : list (nat * phase)) f p :
  (filter (λ p, blocked p.2 = true) (l ++ (f, p) :: r)).*1 =
  (filter (λ p, blocked p.2 = true) l).*1 ++ (if blocked p then [f] else []) ++ (filter (λ p, blocked p.2 = true) r).*1.
Proof.
  rewrite filter_app, fmap_app. f_equal. destruct (blocked p) eqn:Hp.
  - by rewrite filter_cons_True.
  - rewrite filter_cons_False; [done|]. cbn. by rewrite Hp.
Qed.

Lemma counted_middle (l r : list (nat * phase)) f p q :
  Forall (λ p, counted p.2) (l ++ (f, p) :: r) → counted q → Forall (λ p, counted p.2) (l ++ (f, q) :: r).
Proof. intros [Hl [_ Hr]%Forall_cons]%Forall_app Hq. apply Forall_app. split; [done|]. by constructor. Qed.

(** A fiber that enters, before it has done anything. *)
Lemma inv_enter g f : inv g → f ∉ (fibers g).*1 → inv (set_fibers ((f, Skipped) :: fibers g) g).
Proof.
  intros [H1 H2 H3 H4 H5 H6 H7 H8] Hf. split; cbn; [done|exact H2|done|done|by constructor|by constructor| |done].
  exact H7.
Qed.

(** A fiber changes its phase without the semaphore. *)
Lemma inv_phase g f p q l r :
  inv g → fibers g = l ++ (f, p) :: r → blocked p = false → blocked q = false → permits q = permits p → counted q →
  inv (set_fibers (l ++ (f, q) :: r) g).
Proof.
  intros [H1 H2 H3 H4 H5 H6 H7 H8] Hg Hp Hq Hpq Hc. rewrite Hg in *. split; cbn; try done.
  - rewrite held_middle in *. lia.
  - by eapply counted_middle.
  - by rewrite (ids_middle l r f q p).
  - rewrite waiting_middle in *. by rewrite Hp, Hq in *.
Qed.

(** The critical section of [wait]. *)
Lemma inv_wait g sched f p q1 q2 l r ok s :
  inv g → fibers g = l ++ (f, p) :: r → blocked p = false →
  wait (Some sched) f (m_sem g) = Some (ok, s) →
  blocked q1 = false → permits q1 = permits p + 1 → counted q1 →
  blocked q2 = true → permits q2 = permits p → counted q2 →
  inv (set_fibers (l ++ (f, if ok then q1 else q2) :: r) (set_sem s g)).
Proof.
  intros [H1 H2 H3 H4 H5 H6 H7 H8] Hg Hp Hw B1 P1 C1 B2 P2 C2. rewrite Hg in *. cbn in Hw.
  destruct (0 <? m_concurrency (m_sem g)) eqn:Hc; injection Hw as <- <-.
  - split; cbn; try done.
    + rewrite held_middle in *. lia.
    + lia.
    + by eapply counted_middle.
    + by rewrite (ids_middle l r f q1 p).
    + rewrite waiting_middle in *. by rewrite Hp, B1 in *.
    + intros Hne. specialize (H8 Hne). lia.
  - split; cbn; try done.
    + rewrite held_middle in *. lia.
    + by eapply counted_middle.
    + by rewrite (ids_middle l r f q2 p).
    + rewrite fmap_app, waiting_middle in *. rewrite Hp in H7. rewrite B2, H7. cbn. solve_Permutation.
    + intros _. lia.
Qed.

Lemma inv_finish g cb l r : inv g → 0 ≤ batch < 2 ^ 32 → running g = l ++ cb :: r → inv (finish (l ++ r) g).
Proof.
  intros Hi Hb Hr. pose proof Hi as [H1 H2 H3 H4 H5 H6 H7 H8]. unfold finish, notify.
  assert (length (running g) = S (length (l ++ r))) as Hlen by (rewrite Hr, !length_app; cbn; lia).
  destruct (m_waiters (m_sem g)) as [|[sc f] ws] eqn:Hw.
  - pose proof (held_nonneg (fibers g) ltac:(lia) H5).
    assert (wrap 64 (m_concurrency (m_sem g) + 1) = m_concurrency (m_sem g) + 1) as Hwr
      by (apply wrap_small; unfold in_u; lia).
    split; cbn; rewrite ?Hwr; try done; lia.
  - specialize (H8 ltac:(done)). cbn in H7.
    assert (f ∈ (filter (λ p, blocked p.2 = true) (fibers g)).*1) as Hf by (rewrite <- H7; by left).
    apply list_elem_of_fmap in Hf as ([f' p] & -> & [Hbl Hin]%list_elem_of_filter). cbn in Hbl.
    apply list_elem_of_split in Hin as (l1 & l2 & Hg). cbn in *. rewrite Hg in *.
    rewrite (wake_middle f' p l1 l2) by done.
    assert (blocked (wake_phase p) = false ∧ permits (wake_phase p) = permits p + 1 ∧ (counted p → counted (wake_phase p)))
      as (Hb1 & Hp1 & Hc1) by (destruct p; cbn; try done; split_and!; (done || lia)).
    split; cbn; try done.
    + rewrite held_middle in *. lia.
    + eapply counted_middle; [done|]. apply Hc1. by apply Forall_app in H5 as [_ [? _]%Forall_cons].
    + by rewrite (ids_middle l1 l2 f' (wake_phase p) p).
    + rewrite waiting_middle in *. rewrite Hbl in H7. rewrite Hb1. cbn in *.
      apply (Permutation_cons_inv (a := f')). rewrite H7. solve_Permutation.
Qed.

Lemma group_step_inv g g' : 0 ≤ batch < 2 ^ 32 → inv g → step g g' → inv g'.
Proof.
  intros Hb Hi Hs. inversion Hs as [sched f cb g0 Hf|f cb l r g0 Hg|cb l r g0 Hq|cb l r g0 Hr|cb l r g0 Hr|f g0 Hf
    |f l r g0 Hg|sched f i l r g0 Hg Hlt|f i l r g0 Hg|f i l r g0 Hg Hle]; subst.
  - pose proof (inv_enter g f Hi Hf) as Hi'. unfold schedule. cbn [wait].
    destruct (0 <? m_concurrency (m_sem g)) eqn:Hc.
    + apply (inv_wait _ sched f Skipped (Granted cb) (Blocked cb) [] (fibers g) true
        (Sem (m_concurrency (m_sem g) - 1) (m_waiters (m_sem g))) Hi'); try done. cbn. by rewrite Hc.
    + apply (inv_wait _ sched f Skipped (Granted cb) (Blocked cb) [] (fibers g) false
        (Sem (m_concurrency (m_sem g)) (m_waiters (m_sem g) ++ [(sched, f)])) Hi'); try done. cbn. by rewrite Hc.
  - destruct Hi as [H1 H2 H3 H4 H5 H6 H7 H8]. rewrite Hg in *. split; cbn; try done.
    + rewrite held_middle in H2. rewrite held_app, length_app. cbn in *. lia.
    + apply Forall_app in H5 as [? [_ ?]%Forall_cons]. by apply Forall_app.
    + rewrite fmap_app, fmap_cons in H6. rewrite fmap_app. cbn in H6.
      apply NoDup_app in H6 as (? & Hd & [_ ?]%NoDup_cons). apply NoDup_app. split_and!; [done| |done].
      intros x Hx Hr. apply (Hd x Hx). by right.
    + rewrite waiting_middle in H7. by rewrite filter_app, fmap_app.
  - destruct Hi as [H1 H2 H3 H4 H5 H6 H7 H8]. rewrite Hq in *. split; cbn; try done.
    rewrite !length_app in *. cbn in *. lia.
  - by eapply inv_finish.
  - destruct Hi as [H1 H2 H3 H4 H5 H6 H7 H8]. rewrite Hr in *. split; cbn; try done; [|lia].
    rewrite !length_app in *. cbn in *. lia.
  - pose proof (inv_enter g f Hi Hf) as Hi'. unfold waitAll. destruct (m_finish g); [done|].
    by apply (inv_phase _ f Skipped Checked [] (fibers g) Hi').
  - destruct (inv_phase g f Checked (Draining 0) l r Hi Hg eq_refl eq_refl eq_refl (Z.le_refl 0))
      as [H1 H2 H3 H4 H5 H6 H7 H8]. by split.
  - assert (0 ≤ i) as Hi0 by (destruct Hi as [_ _ _ _ H5 _ _ _]; rewrite Hg in H5; by apply Forall_app in H5 as [_ [? _]%Forall_cons]).
    unfold drain. destruct (wait (Some sched) f (m_sem g)) as [[ok s]|] eqn:Hw; [|done].
    apply (inv_wait g sched f (Draining i) (Draining (i + 1)) (DrainBlocked i) l r ok s); cbn; try done; lia.
  - assert (0 ≤ i) as Hi0 by (destruct Hi as [_ _ _ _ H5 _ _ _]; rewrite Hg in H5; by apply Forall_app in H5 as [_ [? _]%Forall_cons]).
    apply (inv_phase g f (DrainGranted i) (Draining (i + 1))); cbn; (done || lia).
  - assert (i = batch) as ->; [|by apply (inv_phase g f (Draining batch) Drained)].
    pose proof Hi as [H1 H2 H3 H4 H5 _ _ _]. rewrite Hg in H2, H5. rewrite held_middle in H2. cbn in H2.
    apply Forall_app in H5 as [Hl [_ Hr]%Forall_cons].
    pose proof (held_nonneg l ltac:(lia) Hl). pose proof (held_nonneg r ltac:(lia) Hr). lia.
Qed.


Lemma new_group_inv : 0 ≤ batch → inv (new batch).
Proof. intros Hb. split; cbn; try done; [unfold held; cbn; lia|apply NoDup_nil_2]. Qed.

Lemma group_reachable_inv g : 0 ≤ batch < 2 ^ 32 → reachable batch g → inv g.
Proof.
  intros Hb Hr. unfold reachable in Hr. pose proof (new_group_inv ltac:(lia)) as Hn. revert Hn.
  induction Hr as [|g1 g2 g3 Hs _ IH]; [done|]. intros Hi. by eapply IH, group_step_inv.
Qed.

End permits.

(** C17. A group of tasks.  Whatever the order in which fibers call [schedule] and
    [waitAll] and the tasks run, finish or throw, the group never has more tasks
    queued and running than its batch size; the waiting fibers are exactly those
    that found no permit, each queued once; and no wake-up is lost: while a fiber
    waits, no permit is left over. *)
Theorem group_bounded batch g :
  0 ≤ batch < 2 ^ 32 → reachable batch g →
  Z.of_nat (length (queued g) + length (running g)) ≤ batch ∧
  0 ≤ m_concurrency (m_sem g) ≤ batch ∧
  (m_waiters (m_sem g)).*2 ≡ₚ (filter (λ p, blocked p.2 = true) (fibers g)).*1 ∧
  NoDup (m_waiters (m_sem g)).*2 ∧
  (m_waiters (m_sem g) ≠ [] → m_concurrency (m_sem g) = 0).
Proof.
  intros Hb Hr. destruct (group_reachable_inv batch g Hb Hr) as [H1 H2 H3 H4 H5 H6 H7 H8].
  pose proof (held_nonneg batch (fibers g) ltac:(lia) H5). split_and!; [lia|lia|lia|done| |done].
  rewrite H7. eapply sublist_NoDup; [exact H6|]. apply fmap_sublist, sublist_filter.
Qed.

(** ** What [waitAll] waits for *)

(** A call that has drained the semaphore holds every permit. *)
Lemma drained_holds_all batch g f :
  0 ≤ batch < 2 ^ 32 → inv batch g → (f, Drained) ∈ fibers g →
  queued g = [] ∧ running g = [] ∧ thrown g = 0 ∧ m_concurrency (m_sem g) = 0 ∧
  ∀ f' p, (f', p) ∈ fibers g → f' ≠ f → permits batch p = 0.
Proof.
  intros Hb [H1 H2 H3 H4 H5 H6 H7 H8] Hf.
  apply list_elem_of_split in Hf as (l & r & Hg). rewrite Hg in *. rewrite held_middle in H2. cbn in H2.
  apply Forall_app in H5 as [Hl [_ Hr']%Forall_cons].
  pose proof (held_nonneg batch l ltac:(lia) Hl). pose proof (held_nonneg batch r ltac:(lia) Hr').
  split_and!; [destruct (queued g); [done|cbn in *; lia]|destruct (running g); [done|cbn in *; lia]|lia|lia|].
  assert (∀ m f' p, Forall (λ p, counted p.2) m → (f', p) ∈ m → 0 ≤ permits batch p ≤ held batch m) as Hpos.
  { intros m f' p Hm (m1 & m2 & ->)%list_elem_of_split. apply Forall_app in Hm as [Hm1 [Hp Hm2]%Forall_cons].
    rewrite held_middle. pose proof (held_nonneg batch m1 ltac:(lia) Hm1).
    pose proof (held_nonneg batch m2 ltac:(lia) Hm2). destruct p; cbn in *; lia. }
  intros f' p [Hin|[[= -> ->]|Hin]%elem_of_cons]%elem_of_app Hne; [|done|].
  - specialize (Hpos l f' p Hl Hin). lia.
  - specialize (Hpos r f' p Hr' Hin). lia.
Qed.

(** A call whose fiber waits, or that has returned, stays as it is until a task
    finishes. *)
Definition at_rest (p : phase) : bool :=
  match p with Blocked _ | DrainBlocked _ | Drained | Skipped => true | _ => false end.

Lemma at_rest_middle (l r : list (nat * phase)) f p q f' p' :
  at_rest p = false → at_rest p' = true → (f', p') ∈ l ++ (f, p) :: r → (f', p') ∈ l ++ (f, q) :: r.
Proof.
  intros Hp Hp' [?|[[= -> ->]|?]%elem_of_cons]%elem_of_app; [| |]; [apply elem_of_app; by left|congruence|].
  apply elem_of_app. right. by apply elem_of_cons; right.
Qed.

Lemma at_rest_stays g g' f p : step g g' → running g = [] → at_rest p = true → (f, p) ∈ fibers g → (f, p) ∈ fibers g'.
Proof.
  intros Hs Hrun Hp Hin. destruct Hs as [sched f0 cb g Hf|f0 cb l r g Hg|cb l r g Hq|cb l r g Hr|cb l r g Hr|f0 g Hf
    |f0 l r g Hg|sched f0 i l r g Hg Hlt|f0 i l r g Hg|f0 i l r g Hg Hle]; cbn; try done.
  - unfold schedule. cbn. case_match; cbn; by right.
  - rewrite Hg in Hin. apply elem_of_app in Hin as [?|[[= -> ->]|?]%elem_of_cons]; [|done|]; apply elem_of_app; auto.
  - rewrite Hr in Hrun. by destruct l.
  - by right.
  - rewrite Hg in Hin. (eapply at_rest_middle; [| |exact Hin]; done).
  - rewrite Hg in Hin. unfold drain. cbn. case_match; cbn; (eapply at_rest_middle; [| |exact Hin]; done).
  - rewrite Hg in Hin. (eapply at_rest_middle; [| |exact Hin]; done).
  - rewrite Hg in Hin. (eapply at_rest_middle; [| |exact Hin]; done).
Qed.

Lemma drained_for_good batch g g' f :
  0 ≤ batch < 2 ^ 32 → inv batch g → (f, Drained) ∈ fibers g → rtc step g g' →
  inv batch g' ∧ ∀ f' p, at_rest p = true → (f', p) ∈ fibers g → (f', p) ∈ fibers g'.
Proof.
  intros Hb Hi Hf Hs. revert Hi Hf. induction Hs as [|g1 g2 g3 Hs _ IH]; intros Hi Hf; [by split|].
  destruct (drained_holds_all batch g1 f Hb Hi Hf) as (_ & Hrun & _).
  destruct IH as [Hi3 Hrest]; [by eapply group_step_inv|by eapply at_rest_stays|].
  split; [done|]. intros f' p Hp Hin. apply Hrest; [done|]. by eapply at_rest_stays.
Qed.

(** C18. When the [waitAll] that drains the semaphore returns (a call that finds
    [m_finish] set returns at once: [second_waitAll_returns]), no task of the group
    is queued, running or about to be handed over, and none has left by an exception
    (one that has keeps its permit, and [waitAll] never returns); and this stays so
    whatever is called afterwards: a [schedule] that was waiting then, or that comes
    later, waits forever and its task never runs. *)
Theorem waitAll_waits batch g f g' :
  0 ≤ batch < 2 ^ 32 → reachable batch g → (f, Drained) ∈ fibers g → rtc step g g' →
  queued g' = [] ∧ running g' = [] ∧ thrown g' = 0 ∧ m_concurrency (m_sem g') = 0 ∧
  (∀ f' cb, (f', Granted cb) ∉ fibers g') ∧
  (∀ f' cb, (f', Blocked cb) ∈ fibers g → (f', Blocked cb) ∈ fibers g').
Proof.
  intros Hb Hr Hf Hs. pose proof (group_reachable_inv batch g Hb Hr) as Hi.
  destruct (drained_for_good batch g g' f Hb Hi Hf Hs) as [Hi' Hrest].
  pose proof (Hrest f Drained eq_refl Hf) as Hf'.
  destruct (drained_holds_all batch g' f Hb Hi' Hf') as (? & ? & ? & ? & Hp). split_and!; try done.
  - intros f' cb Hin. destruct (decide (f' = f)) as [->|Hne]; [|by specialize (Hp f' _ Hin Hne)].
    destruct Hi' as [_ _ _ _ _ Hnd _ _].
    apply list_elem_of_split in Hf' as (l & r & Hg). rewrite Hg in *. rewrite fmap_app, fmap_cons in Hnd. cbn in Hnd.
    apply NoDup_app in Hnd as (_ & Hl & [Hr' _]%NoDup_cons).
    apply elem_of_app in Hin as [Hin|[?|Hin]%elem_of_cons]; [|done|].
    + apply (Hl f); [by apply (list_elem_of_fmap_2 fst _ (f, Granted cb))|by left].
    + apply Hr'. by apply (list_elem_of_fmap_2 fst _ (f, Granted cb)).
  - intros f' cb. by apply Hrest.
Qed.

(** A second [waitAll] returns at once, whatever is still running. *)
Lemma second_waitAll_returns f g : m_finish g = true → waitAll f g = set_fibers ((f, Skipped) :: fibers g) g.
Proof. intros Hf. unfold waitAll. by rewrite Hf. Qed.

(** Two calls of [waitAll] that both read [m_finish] before either sets it both wait
    for every permit, and neither returns. *)
Lemma two_waitAll_deadlock :
  reachable 2 (Group 2 true (Sem 0 [(0%nat, 1%nat); (0%nat, 2%nat)]) [(2%nat, DrainBlocked 1); (1%nat, DrainBlocked 1)] [] [] 0) ∧
  ∀ g', step (Group 2 true (Sem 0 [(0%nat, 1%nat); (0%nat, 2%nat)]) [(2%nat, DrainBlocked 1); (1%nat, DrainBlocked 1)] [] [] 0) g' →
    (1%nat, DrainBlocked 1) ∈ fibers g' ∧ (2%nat, DrainBlocked 1) ∈ fibers g'.
Proof.
  split.
  - unfold reachable. eapply rtc_l; [apply (step_waitAll 1); apply not_elem_of_nil|].
    eapply rtc_l; [apply (step_waitAll 2); cbn; set_solver|].
    eapply rtc_l; [apply (step_set_finish 2 []); done|].
    eapply rtc_l; [apply (step_set_finish 1 [(2%nat, Draining 0)] []); done|].
    eapply rtc_l; [apply (step_drain 0 1 0 [(2%nat, Draining 0)] []); [done|by vm_compute]|].
    eapply rtc_l; [apply (step_drain 0 2 0 [] [(1%nat, Draining 1)]); [done|by vm_compute]|].
    eapply rtc_l; [apply (step_drain 0 1 1 [(2%nat, Draining 1)] []); [done|by vm_compute]|].
    eapply rtc_l; [apply (step_drain 0 2 1 [] [(1%nat, DrainBlocked 1)]); [done|by vm_compute]|]. apply rtc_refl.
  - intros g' Hs. split; (eapply at_rest_stays; [exact Hs|done|done|set_solver]).
Qed.

(** ** Examples *)

(** One task of a group of one: scheduled, handed over, run. *)
Definition demo_running : t :=
  Group 1 false (Sem 0 []) [] [] [7%nat] 0.

Lemma demo_reachable : reachable 1 demo_running.
Proof.
  unfold reachable. eapply rtc_l; [apply (step_schedule 0 5 7); apply not_elem_of_nil|].
  eapply rtc_l; [apply (step_hand_over 5 7 [] []); done|].
  eapply rtc_l; [apply (step_run 7 [] []); done|]. apply rtc_refl.
Qed.

Lemma group_bounded_witness :
  reachable 1 demo_running ∧
  Z.of_nat (length (queued demo_running) + length (running demo_running)) ≤ 1 ∧
  0 ≤ m_concurrency (m_sem demo_running) ≤ 1 ∧
  (m_waiters (m_sem demo_running)).*2 ≡ₚ (filter (λ p, blocked p.2 = true) (fibers demo_running)).*1 ∧
  NoDup (m_waiters (m_sem demo_running)).*2 ∧
  (m_waiters (m_sem demo_running) ≠ [] → m_concurrency (m_sem demo_running) = 0).
Proof. split; [exact demo_reachable|]. apply (group_bounded 1 demo_running); [lia|exact demo_reachable]. Defined.

(** Its end, and a [waitAll] after it. *)
Definition demo_drained : t := Group 1 true (Sem 0 []) [(9%nat, Drained)] [] [] 0.

Lemma demo_drained_reachable : reachable 1 demo_drained.
Proof.
  unfold reachable. transitivity demo_running; [exact demo_reachable|].
  eapply rtc_l; [apply (step_finish 7 [] []); done|].
  eapply rtc_l; [apply (step_waitAll 9); apply not_elem_of_nil|].
  eapply rtc_l; [apply (step_set_finish 9 [] []); done|].
  eapply rtc_l; [apply (step_drain 0 9 0 [] []); [done|by vm_compute]|].
  eapply rtc_l; [apply (step_drained 9 1 [] []); [done|by vm_compute]|]. apply rtc_refl.
Qed.

(** A [schedule] after it. *)
Definition demo_late : t := schedule 0 3 8 demo_drained.

Lemma waitAll_waits_witness :
  reachable 1 demo_drained ∧ (9%nat, Drained) ∈ fibers demo_drained ∧ rtc step demo_drained demo_late ∧
  queued demo_late = [] ∧ running demo_late = [] ∧ thrown demo_late = 0 ∧
  m_concurrency (m_sem demo_late) = 0 ∧ (∀ f' cb, (f', Granted cb) ∉ fibers demo_late) ∧
  (∀ f' cb, (f', Blocked cb) ∈ fibers demo_drained → (f', Blocked cb) ∈ fibers demo_late).
Proof.
  assert (rtc step demo_drained demo_late) as Hs by (apply rtc_once, step_schedule; cbn; set_solver).
  split; [exact demo_drained_reachable|]. split; [by left|]. split; [exact Hs|].
  apply (waitAll_waits 1 demo_drained 9 demo_late); [lia|exact demo_drained_reachable|by left|exact Hs].
Defined.

End WorkerGroup.

(** ** Named schedulers *)
Module WorkerManager.

(** A scheduler, as far as the manager sees it; [io]: it is an [IOManager]. *)
Record Scheduler := MkScheduler {
  name : list ascii;
  threads : Z;
  io : bool;
  tasks : nat;
  stopped : bool;
}.

(** The schedulers by address, and the members of the manager. *)
Record t := Manager {
  heap : gmap nat Scheduler;
  next : nat;
  m_datas : gmap (list ascii) (list nat);
  m_stop : bool;
}.

Definition new : t := Manager ∅ 0 ∅ false.

Definition add (s : nat) (w : t) : option t :=
  x ← heap w !! s;
  Some (Manager (heap w) (next w) (<[name x := default [] (m_datas w !! name x) ++ [s]]> (m_datas w)) (m_stop w)).

(** [get]; [rand] is the number drawn. *)
Definition get (n : list ascii) (rand : Z) (w : t) : option nat :=
  match m_datas w !! n with
  | None => None
  | Some l =>
      if (length l =? 1)%nat then l !! 0%nat
      else l !! Z.to_nat (rand mod Z.of_nat (length l))
  end.

Definition getAsIOManager (n : list ascii) (rand : Z) (w : t) : option nat :=
  s ← get n rand w;
  x ← heap w !! s;
  if io x then Some s else None.

(** [s->schedule(fc, thread)] on the scheduler found; without one only a message is
    logged. *)
Definition schedule (n : list ascii) (rand : Z) (w : t) : t :=
  match get n rand w with
  | Some s =>
      Manager (alter (λ x, MkScheduler (name x) (threads x) (io x) (S (tasks x)) (stopped x)) s (heap w))
        (next w) (m_datas w) (m_stop w)
  | None => w
  end.

Section init.
Context (lexical_cast : list ascii → option Z).

(** [GetParamValue] of util.h *)
Definition GetParamValue (m : list (list ascii * list ascii)) (k : list ascii) (def : Z) : Z :=
  match List.find (λ p, bool_decide (p.1 = k)) m with
  | None => def
  | Some p => default def (lexical_cast p.2)
  end.

(** [std::make_shared<IOManager>(thread_num, false, name)]; [None]: the assertion
    that there are threads fails. *)
Definition newIOManager (thread_num : Z) (n : list ascii) (w : t) : option (nat * t) :=
  if wrap 64 thread_num =? 0 then None
  else Some (next w, Manager (<[next w := MkScheduler n (wrap 64 thread_num) true 0 false]> (heap w)) (S (next w))
               (m_datas w) (m_stop w)).

Definition worker_name (n : list ascii) (x : Z) : list ascii :=
  if x =? 0 then n else n ++ of_lit "-" ++ of_lit (pretty x).

(** [rounds] rounds of the loop over the workers of a name, from [x]. *)
Fixpoint make_workers (rounds : nat) (x thread_num : Z) (n : list ascii) (w : t) : option t :=
  match rounds with
  | O => Some w
  | S rounds =>
      '(s, w) ← newIOManager thread_num (worker_name n x) w;
      w ← add s w;
      make_workers rounds (x + 1) thread_num n w
  end.

Fixpoint init_loop (v : list (list ascii * list (list ascii * list ascii))) (w : t) : option t :=
  match v with
  | [] => Some w
  | i :: v =>
      let thread_num := GetParamValue i.2 (of_lit "thread_num") 1 in
      let worker_num := GetParamValue i.2 (of_lit "worker_num") 1 in
      w ← make_workers (Z.to_nat worker_num) 0 thread_num i.1 w;
      init_loop v w
  end.

Definition init (v : list (list ascii * list (list ascii * list ascii))) (w : t) : option (bool * t) :=
  w ← init_loop v w;
  Some (true, Manager (heap w) (next w) (m_datas w) (bool_decide (m_datas w = ∅))).

End init.

(** [n->schedule([](){}); n->stop();] for every scheduler of the table. *)
Definition stop_all (w : t) : gmap nat Scheduler :=
  map_fold (λ _ l h,
    foldl (λ h s, alter (λ x, MkScheduler (name x) (threads x) (io x) (S (tasks x)) true) s h) h l) (heap w) (m_datas w).

Definition stop (w : t) : t :=
  if m_stop w then w else Manager (stop_all w) (next w) ∅ true.

Definition isStopped (w : t) : bool := m_stop w.
Definition getCount (w : t) : Z := wrap 32 (Z.of_nat (base.size (m_datas w))).

(** The workers of a name after the first are entered under names of their own:
    asking for the name always gives the first, whatever number is drawn. *)
Lemma workers_after_first_hidden rand :
  (∃ w, (snd <$> init (λ _, Some 3) [(of_lit "db", [(of_lit "worker_num", of_lit "3")])] new) = Some w ∧
    get (of_lit "db") rand w = Some 0%nat ∧ get (of_lit "db-1") rand w = Some 1%nat ∧ getCount w = 3).
Proof. eexists. split; [vm_compute; reflexivity|]. by vm_compute. Qed.

End WorkerManager.
