(* ===== verification/Jsonutil.v ===== *)
(** * Jsonutil: escaping and accessors (src/bobliew/util/json_util.{h,cc})

    jsoncpp is the class [Json]: the members of [Json::Value] the accessors call,
    with [None] for its exceptions.  [escape_text] says what [Escape] returns: for a
    string that needs escaping it is not the escaped string. *)
From S2P Require Import Prelude Util Cstring Http.
Import StdString.
#[local] Open Scope list_scope.
#[local] Open Scope Z_scope.

Module JsonUtil.

(** ** Escaping *)

(** The cases of the three [switch]es: form feed, tab, carriage return, newline,
    backspace, quote, backslash. *)
Definition special (c : ascii) : bool :=
  existsb (Z.eqb (b2z c)) [12; 9; 13; 10; 8; 34; 92].

Fixpoint NeedEscape (v : list ascii) : bool :=
  match v with
  | [] => false
  | c :: v => if special c then true else NeedEscape v
  end.

(** The first loop: the length of the result. *)
Definition escaped_size (v : list ascii) : nat :=
  foldl (λ size c, if special c then size + 2 else size + 1)%nat 0%nat v.

Definition backslash : ascii := z2b 92.

(** What a round of the second loop appends.  The cases of newline and backspace
    have no [break]. *)
Definition append_of (c : ascii) : list ascii :=
  let quote := [backslash; z2b 34] in
  let b := [backslash; "b"%char] in
  let n := [backslash; "n"%char] in
  if b2z c =? 12 then [backslash; "f"%char]
  else if b2z c =? 9 then [backslash; "t"%char]
  else if b2z c =? 13 then [backslash; "r"%char]
  else if b2z c =? 10 then n ++ b ++ quote
  else if b2z c =? 8 then b ++ quote
  else if b2z c =? 34 then quote
  else if b2z c =? 92 then [backslash; backslash]
  else [c].

(** [rt.resize(size)] fills [rt] with zero bytes, and the loop appends to it. *)
Definition Escape (v : list ascii) : list ascii :=
  let size := escaped_size v in
  if (size =? length v)%nat then v
  else foldl (λ rt c, rt ++ append_of c) (replicate size "000"%char) v.

(** ** Numbers in text (TypeUtil of util.cc) *)

(** The value of the decimal digits a string starts with. *)
Fixpoint digits_value (acc : Z) (s : list ascii) : Z :=
  match s with
  | c :: s => if CharClass.digit c then digits_value (acc * 10 + (b2z c - 48)) s else acc
  | [] => acc
  end.

(** [strtoull(s, nullptr, 10)]: blanks, a sign, digits; too large a number gives the
    largest one, and a minus sign negates in the unsigned type. *)
Definition strtoull (s : list ascii) : Z :=
  let s := CharBuffer.skip_space s in
  let '(neg, s) := match s with
                   | c :: r => if Ascii.eqb c "-" then (true, r) else if Ascii.eqb c "+" then (false, r) else (false, s)
                   | [] => (false, s)
                   end in
  let n := digits_value 0 s in
  if 2 ^ 64 <=? n then 2 ^ 64 - 1 else if neg : bool then wrap 64 (- n) else n.

Definition Atoi (str : list ascii) : Z :=
  if bool_decide (str = []) then 0 else swrap 64 (strtoull (Http.c_str str)).

(** ** Accessors *)

Class Json := {
  value : Type;
  isMember : value → list ascii → bool;
  member : value → list ascii → value;
  isString : value → bool;
  asString : value → option (list ascii);
  isDouble : value → bool;
  isInt : value → bool;
  isUInt : value → bool;
  isInt64 : value → bool;
  isUInt64 : value → bool;
  double : Type;
  asDouble : value → option double;
  asInt : value → option Z;
  asUInt : value → option Z;
  asUInt64 : value → option Z;
  (** [Json::Reader::parse] into a value, and [Json::FastWriter::write] *)
  parse : list ascii → option value;
  write : value → list ascii;
  (** [atof] of the C library, and the [double] 0 *)
  atof : list ascii → double;
  zero : double;
}.

Section accessors.
Context `{Json}.

Definition Atof (str : list ascii) : double :=
  if bool_decide (str = []) then zero else atof (Http.c_str str).

Definition GetString (json : value) (name default_value : list ascii) : option (list ascii) :=
  if negb (isMember json name) then Some default_value
  else
    let v := member json name in
    if isString v then asString v else Some default_value.

Definition GetDouble (json : value) (name : list ascii) (default_value : double) : option double :=
  if negb (isMember json name) then Some default_value
  else
    let v := member json name in
    if isDouble v then asDouble v
    else if isString v then Atof <$> asString v
    else Some default_value.

(** The four integer accessors differ in the test, the conversion and the width. *)
Definition get_integer (test : value → bool) (as_ : value → option Z) (store : Z → Z)
    (json : value) (name : list ascii) (default_value : Z) : option Z :=
  if negb (isMember json name) then Some default_value
  else
    let v := member json name in
    if test v then store <$> as_ v
    else if isString v then (λ s, store (Atoi s)) <$> asString v
    else Some default_value.

Definition GetInt32 := get_integer isInt asInt (swrap 32).
Definition GetUint32 := get_integer isUInt asUInt (wrap 32).
Definition GetInt64 := get_integer isInt64 asInt (swrap 64).
Definition GetUint64 := get_integer isUInt64 asUInt64 (wrap 64).

(** [FromString] sets [json] and says whether it could. *)
Definition FromString (json : value) (v : list ascii) : value * bool :=
  match parse v with Some j => (j, true) | None => (json, false) end.

Definition ToString (json : value) : list ascii := write json.

End accessors.

(** ** What [Escape] returns *)

Lemma fold_size v k :
  foldl (λ size c, if special c then size + 2 else size + 1)%nat k v =
  (k + length v + length (List.filter special v))%nat.
Proof.
  revert k. induction v as [|c v IH]; intros k; [cbn; lia|].
  cbn [foldl List.filter]. rewrite IH. destruct (special c); cbn [length]; lia.
Qed.

Lemma NeedEscape_filter v : NeedEscape v = negb (length (List.filter special v) =? 0)%nat.
Proof. induction v as [|c v IH]; [done|]. cbn [NeedEscape List.filter]. by destruct (special c). Qed.

Lemma fold_append v rt : foldl (λ rt c, rt ++ append_of c) rt v = rt ++ flat_map append_of v.
Proof.
  revert rt. induction v as [|c v IH]; intros rt; cbn; [by rewrite app_nil_r|]. by rewrite IH, <- (assoc_L (++)).
Qed.

(** A string without special bytes is returned as it is; any other comes back after
    as many zero bytes as its escaped form was meant to have, with [\b] and [\"]
    behind every newline and [\"] behind every backspace. *)
Lemma escape_text v :
  Escape v = if NeedEscape v
             then replicate (length v + length (List.filter special v)) "000"%char ++ flat_map append_of v
             else v.
Proof.
  unfold Escape, escaped_size. rewrite fold_size, fold_append, NeedEscape_filter. cbn [Nat.add].
  destruct (length (List.filter special v)) as [|k] eqn:Hk.
  - by rewrite Nat.add_0_r, Nat.eqb_refl.
  - rewrite (proj2 (Nat.eqb_neq _ _)) by lia. done.
Qed.

Example escape_tab : Escape ["a"%char; "009"%char] = replicate 3 "000"%char ++ ["a"%char; backslash; "t"%char].
Proof. by vm_compute. Qed.

End JsonUtil.
