(* ===== verification/Fsutil.v ===== *)
(** * Fsutil: files and directories (FSUtil of src/bobliew/util.{h,cc})

    [FileSystem] is what FSUtil calls: the system calls on paths, directory
    streams and the opening of file streams, each a function on the state of the
    system.  [FileSystemLaws] says what the manual pages promise of them in terms
    of a map from locations (lists of names) to nodes: a call that succeeds has
    changed that map in its own place and nowhere else, one that fails has not
    changed it.  [FileSystemPermits] adds when calls must succeed.  The laws speak
    of paths in the form [spell]: names separated by single slashes, with no
    [.] or [..], that do not go through a symbolic link.

    [Rm_correct], [Rm_removes]: what [Rm] leaves, and when it succeeds.
    [Mkdir_correct]: the directories [Mkdir] makes.  [ListAllFile_correct]: the
    files found are the regular ones below with the suffix that the system
    reports.  [TreeFs] is the instance whose state is the map. *)
From S2P Require Import Prelude Util Cstring Http.
Import StdString.
#[local] Open Scope list_scope.
#[local] Open Scope Z_scope.
#[local] Set Warnings "-clear-no-such-hyp".

Abbreviation str := (list ascii).

(** The system calls; a path given to one is a C string.  [f_opendir] gives the
    type and name of each entry [readdir] will return, [f_content] what a file
    stream opened on the path reads. *)
Class FileSystem (F : Type) := {
  f_access : str → F → bool;
  f_lstat : str → F → option Z;
  f_mkdir : str → Z → F → bool * F;
  f_unlink : str → F → bool * F;
  f_rmdir : str → F → bool * F;
  f_rename : str → str → F → bool * F;
  f_symlink : str → str → F → bool * F;
  f_opendir : str → F → option (list (Z * str));
  f_realpath : str → F → option str;
  f_content : str → F → option str;
  f_open_write : str → Z → F → bool * F;
  f_kill : Z → Z → F → bool;
}.

Module FSUtil.

(** [st_mode]'s file type, and [dirent::d_type]. *)
Definition S_IFMT : Z := 61440.
Definition S_IFDIR : Z := 16384.
Definition DT_UNKNOWN : Z := 0.
Definition DT_DIR : Z := 4.
Definition DT_REG : Z := 8.

Definition dot : str := ["."%char].
Definition dotdot : str := ["."%char; "."%char].
Definition slash : str := ["/"%char].

Definition is_dots (d_name : str) : bool := bool_decide (d_name = dot) || bool_decide (d_name = dotdot).

(** [path + "/" + dp->d_name] *)
Definition below (path name : str) : str := path ++ slash ++ name.

Section Operations.
Context {F : Type} {FS : FileSystem F}.

(** The suffix test; [substr] of [length - size] cannot throw there. *)
Definition has_subfix (filename subfix : str) : bool :=
  if (length filename <? length subfix)%nat then false
  else bool_decide (drop (length filename - length subfix) filename = subfix).

(** One entry of the directory: [visit] is [ListAllFile] on a directory below. *)
Definition list_entry (visit : str → list str → option (list str)) (path subfix : str)
    (files : list str) (dp : Z * str) : option (list str) :=
  let '(d_type, d_name) := dp in
  if d_type =? DT_DIR then
    if is_dots d_name then Some files
    else visit (below path d_name) files
  else if d_type =? DT_REG then
    match subfix with
    | [] => Some (files ++ [below path d_name])
    | _ => if has_subfix d_name subfix then Some (files ++ [below path d_name]) else Some files
    end
  else Some files.

Fixpoint list_entries (visit : str → list str → option (list str)) (path subfix : str)
    (files : list str) (entries : list (Z * str)) : option (list str) :=
  match entries with
  | [] => Some files
  | dp :: entries =>
      match list_entry visit path subfix files dp with
      | Some files => list_entries visit path subfix files entries
      | None => None
      end
  end.

(** [FSUtil::ListAllFile]; the fuel bounds the depth of the recursion. *)
Fixpoint ListAllFile (fuel : nat) (subfix : str) (s : F) (path : str) (files : list str)
    : option (list str) :=
  match fuel with
  | O => None
  | S fuel =>
      if negb (f_access (Http.c_str path) s) then Some files
      else
        match f_opendir (Http.c_str path) s with
        | None => Some files
        | Some entries => list_entries (ListAllFile fuel subfix s) path subfix files entries
        end
  end.

Definition __lstat (file : str) (s : F) : option Z := f_lstat file s.

(** [S_IRWXU | S_IRWXG | S_IROTH | S_IXOTH] *)
Definition dir_mode : Z := 509.

Definition __mkdir (dirname : str) (s : F) : bool * F :=
  if f_access dirname s then (true, s) else f_mkdir dirname dir_mode s.

(** The [for] loop over the slashes of [path] from [ptr] on: [done] is the text
    before [ptr].  The result is whether [ptr] ran off the end. *)
Fixpoint mkdir_parents (done rest : str) (s : F) : bool * F :=
  match rest with
  | [] => (true, s)
  | c :: rest =>
      if Ascii.eqb c "/" then
        let '(ok, s) := __mkdir done s in
        if ok then mkdir_parents (done ++ [c]) rest s else (false, s)
      else mkdir_parents (done ++ [c]) rest s
  end.

(** [FSUtil::Mkdir]: [strchr(path + 1, '/')] of an empty path reads past its end. *)
Definition Mkdir (dirname : str) : M F bool := λ s,
  match __lstat (Http.c_str dirname) s with
  | Some _ => Ret true s
  | None =>
      match Http.c_str dirname with
      | [] => UB
      | c :: rest =>
          let '(ok, s) := mkdir_parents [c] rest s in
          if negb ok then Ret false s
          else let '(ok, s) := __mkdir (c :: rest) s in Ret ok s
      end
  end.

(** [std::getline]: up to the first newline; it fails at the end of the file. *)
Fixpoint line_of (text : str) : str :=
  match text with
  | [] => []
  | c :: text => if Ascii.eqb c "010" then [] else c :: line_of text
  end.
Definition getline (text : str) : option str :=
  match text with
  | [] => None
  | _ => Some (line_of text)
  end.

(** [atoi] of a C string: [strtol] in base 10, cut to an [int]. *)
Definition atoi (text : str) : Z :=
  match CharBuffer.strtol 10 (text ++ ["000"%char]) with
  | Some v => swrap 32 v
  | None => 0
  end.

Definition IsRunningPidfile (pidfile : str) (s : F) : bool :=
  match __lstat (Http.c_str pidfile) s with
  | None => false
  | Some _ =>
      match f_content (Http.c_str pidfile) s with
      | None => false
      | Some text =>
          match getline text with
          | None => false
          | Some line =>
              if bool_decide (line = []) then false
              else
                let pid := atoi (Http.c_str line) in
                if pid <=? 1 then false
                else f_kill pid 0 s
          end
      end
  end.

Definition Unlink (filename : str) (exist : bool) (s : F) : bool * F :=
  if negb exist && negb (bool_decide (is_Some (__lstat (Http.c_str filename) s))) then (true, s)
  else f_unlink (Http.c_str filename) s.

(** The [readdir] loop of [Rm]: [ret] is overwritten by each entry. *)
Fixpoint rm_entries (rm : str → F → option (bool * F)) (path : str) (entries : list (Z * str))
    (ret : bool) (s : F) : option (bool * F) :=
  match entries with
  | [] => Some (ret, s)
  | (_, d_name) :: entries =>
      if is_dots d_name then rm_entries rm path entries ret s
      else
        match rm (below path d_name) s with
        | Some (ret, s) => rm_entries rm path entries ret s
        | None => None
        end
  end.

(** [FSUtil::Rm]; the fuel bounds the depth of the recursion. *)
Fixpoint Rm (fuel : nat) (path : str) (s : F) : option (bool * F) :=
  match fuel with
  | O => None
  | S fuel =>
      match f_lstat (Http.c_str path) s with
      | None => Some (true, s)
      | Some st_mode =>
          if Z.land st_mode S_IFDIR =? 0 then Some (Unlink path false s)
          else
            match f_opendir (Http.c_str path) s with
            | None => Some (false, s)
            | Some entries =>
                match rm_entries (Rm fuel) path entries true s with
                | None => None
                | Some (ret, s) =>
                    let '(ok, s) := f_rmdir (Http.c_str path) s in
                    Some (if ok then ret else false, s)
                end
            end
      end
  end.

Definition Mv (fuel : nat) (from to : str) (s : F) : option (bool * F) :=
  match Rm fuel to s with
  | None => None
  | Some (false, s) => Some (false, s)
  | Some (true, s) => Some (f_rename (Http.c_str from) (Http.c_str to) s)
  end.

(** [FSUtil::Realpath]: the result and [rpath] after the call. *)
Definition Realpath (path rpath : str) (s : F) : bool * str :=
  match __lstat (Http.c_str path) s with
  | None => (false, rpath)
  | Some _ =>
      match f_realpath (Http.c_str path) s with
      | None => (false, rpath)
      | Some ptr => (true, ptr)
      end
  end.

Definition Symlink (fuel : nat) (from to : str) (s : F) : option (bool * F) :=
  match Rm fuel to s with
  | None => None
  | Some (false, s) => Some (false, s)
  | Some (true, s) => Some (f_symlink (Http.c_str from) (Http.c_str to) s)
  end.

(** A file stream: the file it is open on.  [open] of an open stream only sets its
    error flag. *)
Definition ifs_open (ifs : option str) (filename : str) (s : F) : option str :=
  match ifs with
  | Some _ => ifs
  | None => if bool_decide (is_Some (f_content filename s)) then Some filename else None
  end.
Definition ofs_open (ofs : option str) (filename : str) (mode : Z) (s : F) : option str * F :=
  match ofs with
  | Some _ => (ofs, s)
  | None => let '(ok, s) := f_open_write filename mode s in (if ok then Some filename else None, s)
  end.

Definition OpenForRead (ifs : option str) (filename : str) (s : F) : bool * option str :=
  let ifs := ifs_open ifs (Http.c_str filename) s in
  (bool_decide (is_Some ifs), ifs).

Definition OpenForWrite (ofs : option str) (filename : str) (mode : Z) : M F (bool * option str) := λ s,
  let '(ofs, s) := ofs_open ofs (Http.c_str filename) mode s in
  match ofs with
  | Some _ => Ret (true, ofs) s
  | None =>
      (let! dir := or_throw out_of_range (Util.Dirname filename) in
       let! _ := Mkdir dir in
       λ s, let '(ofs, s) := ofs_open ofs (Http.c_str filename) mode s in
            Ret (bool_decide (is_Some ofs), ofs) s) s
  end.

End Operations.

(** ** The map a file system is *)

Inductive node := Dir (searchable : bool) | Reg | Lnk | Sock | Blk | Chr | Fifo.

#[global] Instance node_eq_dec : EqDecision node.
Proof. solve_decision. Defined.

Abbreviation loc := (list (list ascii)).
Abbreviation fstree := (gmap loc node).

(** [S_IFDIR], [S_IFREG], [S_IFLNK], [S_IFSOCK], [S_IFBLK], [S_IFCHR], [S_IFIFO] *)
Definition file_type (n : node) : Z :=
  match n with
  | Dir _ => 16384 | Reg => 32768 | Lnk => 40960 | Sock => 49152
  | Blk => 24576 | Chr => 8192 | Fifo => 4096
  end.
(** [DT_DIR], [DT_REG], [DT_LNK], [DT_SOCK], [DT_BLK], [DT_CHR], [DT_FIFO] *)
Definition dirent_type (n : node) : Z :=
  match n with
  | Dir _ => 4 | Reg => 8 | Lnk => 10 | Sock => 12 | Blk => 6 | Chr => 2 | Fifo => 1
  end.

Definition is_dir (n : node) : bool := match n with Dir _ => true | _ => false end.

(** What can name an entry. *)
Definition name (c : str) : Prop := c ≠ [] ∧ ("/"%char ∉ c) ∧ ("000"%char ∉ c) ∧ c ≠ dot ∧ c ≠ dotdot.

#[global] Instance name_dec c : Decision (name c).
Proof. unfold name. apply _. Defined.

(** The text of a path: [c1/c2/.../cn], with a slash in front when absolute. *)
Fixpoint join (cs : list str) : str :=
  match cs with
  | [] => []
  | [c] => c
  | c :: cs => c ++ slash ++ join cs
  end.
Definition spell (absolute : bool) (cs : list str) : str :=
  (if absolute then slash else []) ++ join cs.

(** Entries lie in directories and have names. *)
Definition closed (t : fstree) : Prop := ∀ k c n,
  t !! (k ++ [c]) = Some n → name c ∧ ∃ x, t !! k = Some (Dir x).

(** The way to [k] goes through no link; and, through no directory that may not be
    searched. *)
Definition clear_way (t : fstree) (k : loc) : Prop := ∀ q d, k = q ++ d → d ≠ [] → t !! q ≠ Some Lnk.
Definition open_way (t : fstree) (k : loc) : Prop := ∀ q d, k = q ++ d → d ≠ [] → t !! q ≠ Some Lnk ∧ t !! q ≠ Some (Dir false).

(** [t] without the entry at [k] and everything below it. *)
Definition without (k : loc) (t : fstree) : fstree := filter (λ kn, ¬ (k `prefix_of` kn.1)) t.

(** A path of FSUtil's callers and the location it names. *)
Definition named (cwd : loc) (absolute : bool) (cs : list str) (k : loc) : Prop :=
  cs ≠ [] ∧ Forall name cs ∧ k = (if absolute then [] else cwd) ++ cs.

(** What readdir returns for the directory [k]. *)
Record entries_of (t : fstree) (k : loc) (l : list (Z * str)) : Prop := {
  eo_nodup : NoDup l.*2;
  eo_sound : ∀ ty c, (ty, c) ∈ l → is_dots c = false →
    name c ∧ ∃ n, t !! (k ++ [c]) = Some n ∧ (ty = dirent_type n ∨ ty = DT_UNKNOWN);
  eo_complete : ∀ c n, name c → t !! (k ++ [c]) = Some n → ∃ ty, (ty, c) ∈ l;
  eo_dots : ∀ ty c, (ty, c) ∈ l → is_dots c = true → ty = DT_DIR ∨ ty = DT_UNKNOWN;
}.

Class FileSystemLaws (F : Type) {FS : FileSystem F} := {
  tree : F → fstree;
  cwd : loc;
  (** stat(2), access(2): what their success says.  Their failure says nothing of
      the entry, for they also fail with [EACCES], [ENAMETOOLONG], [EIO] or
      [ENOMEM]. *)
  lstat_some : ∀ a cs k s m, named cwd a cs k → clear_way (tree s) k →
    f_lstat (spell a cs) s = Some m → ∃ n, tree s !! k = Some n ∧ Z.land m S_IFMT = file_type n;
  access_true : ∀ a cs k s, named cwd a cs k → clear_way (tree s) k →
    f_access (spell a cs) s = true → is_Some (tree s !! k);
  (** mkdir(2) *)
  mkdir_true : ∀ a cs k m s s', named cwd a cs k → clear_way (tree s) k →
    f_mkdir (spell a cs) m s = (true, s') →
    tree s !! k = None ∧ (∃ q c x, k = q ++ [c] ∧ tree s !! q = Some (Dir x)) ∧
    ∃ x, tree s' = <[k := Dir x]> (tree s);
  mkdir_false : ∀ p m s s', f_mkdir p m s = (false, s') → tree s' = tree s;
  (** unlink(2), rmdir(2) *)
  unlink_true : ∀ a cs k s s', named cwd a cs k → clear_way (tree s) k →
    f_unlink (spell a cs) s = (true, s') →
    (∃ n, tree s !! k = Some n ∧ is_dir n = false) ∧ tree s' = delete k (tree s);
  unlink_false : ∀ p s s', f_unlink p s = (false, s') → tree s' = tree s;
  rmdir_true : ∀ a cs k s s', named cwd a cs k → clear_way (tree s) k →
    f_rmdir (spell a cs) s = (true, s') →
    (∃ x, tree s !! k = Some (Dir x)) ∧ (∀ c, name c → tree s !! (k ++ [c]) = None) ∧
    tree s' = delete k (tree s);
  rmdir_false : ∀ p s s', f_rmdir p s = (false, s') → tree s' = tree s;
  (** opendir(3), readdir(3) *)
  opendir_dir : ∀ a cs k s x l, named cwd a cs k → clear_way (tree s) k →
    tree s !! k = Some (Dir x) → f_opendir (spell a cs) s = Some l → entries_of (tree s) k l;
  opendir_not_dir : ∀ a cs k s n, named cwd a cs k → clear_way (tree s) k →
    tree s !! k = Some n → is_dir n = false → n ≠ Lnk → f_opendir (spell a cs) s = None;
  (** rename(2) onto a name that is free, symlink(2) *)
  rename_true : ∀ a cs k a' cs' k' s s', named cwd a cs k → named cwd a' cs' k' →
    clear_way (tree s) k → clear_way (tree s) k' → tree s !! k' = None →
    f_rename (spell a cs) (spell a' cs') s = (true, s') →
    is_Some (tree s !! k) ∧ ¬ k `prefix_of` k' ∧
    (∀ r, tree s' !! (k' ++ r) = tree s !! (k ++ r)) ∧
    (∀ q, ¬ k' `prefix_of` q → tree s' !! q = without k (tree s) !! q);
  rename_false : ∀ p p' s s', f_rename p p' s = (false, s') → tree s' = tree s;
  rename_absent : ∀ a cs k p' s, named cwd a cs k → clear_way (tree s) k → tree s !! k = None →
    (f_rename (spell a cs) p' s).1 = false;
  symlink_true : ∀ p a cs k s s', named cwd a cs k → clear_way (tree s) k →
    f_symlink p (spell a cs) s = (true, s') →
    tree s !! k = None ∧ tree s' = <[k := Lnk]> (tree s);
  symlink_false : ∀ p p' s s', f_symlink p p' s = (false, s') → tree s' = tree s;
  (** open(2) for writing, creating the file *)
  open_write_true : ∀ a cs k m s s', named cwd a cs k → clear_way (tree s) k → tree s !! k ≠ Some Lnk →
    f_open_write (spell a cs) m s = (true, s') →
    (∀ x, tree s !! k ≠ Some (Dir x)) ∧
    (tree s' = tree s ∧ is_Some (tree s !! k) ∨ tree s !! k = None ∧ tree s' = <[k := Reg]> (tree s));
  open_write_false : ∀ p m s s', f_open_write p m s = (false, s') → tree s' = tree s;
}.

(** When calls succeed: [permits] is that the process may read, write and search
    every directory, that there is room, that [lstat] and [access] fail only for
    want of the entry, and that the file system reports the types of entries. *)
Class FileSystemPermits (F : Type) {FS : FileSystem F} {FL : FileSystemLaws F} := {
  permits : F → Prop;
  permits_lstat : ∀ a cs k s, named cwd a cs k → permits s → open_way (tree s) k →
    f_lstat (spell a cs) s = None → tree s !! k = None;
  permits_access : ∀ a cs k s, named cwd a cs k → permits s → open_way (tree s) k →
    f_access (spell a cs) s = false → tree s !! k = None ∨ tree s !! k = Some Lnk;
  permits_mkdir : ∀ a cs k q c x m s, named cwd a cs k → permits s → open_way (tree s) k →
    tree s !! k = None → k = q ++ [c] → tree s !! q = Some (Dir x) →
    ∃ s', f_mkdir (spell a cs) m s = (true, s') ∧ permits s' ∧ tree s' = <[k := Dir true]> (tree s);
  permits_unlink : ∀ a cs k n s, named cwd a cs k → permits s → open_way (tree s) k →
    tree s !! k = Some n → is_dir n = false →
    ∃ s', f_unlink (spell a cs) s = (true, s') ∧ permits s';
  permits_rmdir : ∀ a cs k x s, named cwd a cs k → permits s → open_way (tree s) k →
    tree s !! k = Some (Dir x) → (∀ c, tree s !! (k ++ [c]) = None) →
    ∃ s', f_rmdir (spell a cs) s = (true, s') ∧ permits s';
  permits_opendir : ∀ a cs k x s, named cwd a cs k → permits s → open_way (tree s) k →
    tree s !! k = Some (Dir x) →
    ∃ l, f_opendir (spell a cs) s = Some l ∧
      ∀ ty c n, (ty, c) ∈ l → is_dots c = false → tree s !! (k ++ [c]) = Some n → ty = dirent_type n;
  permits_open_write : ∀ a cs k q c x m s, named cwd a cs k → permits s → open_way (tree s) k →
    k = q ++ [c] → tree s !! q = Some (Dir x) → tree s !! k = None ∨ tree s !! k = Some Reg →
    ∃ s', f_open_write (spell a cs) m s = (true, s') ∧ permits s';
  permits_open_write_false : ∀ p m s s', permits s → f_open_write p m s = (false, s') → permits s';
}.

(** ** Paths and locations *)

Lemma c_str_clean p : "000"%char ∉ p → Http.c_str p = p.
Proof.
  induction p as [|c p IH]; intros Hz; [done|]. cbn [Http.c_str].
  destruct (Ascii.eqb_spec c zero) as [->|_]; [by destruct Hz; left|].
  rewrite IH; [done|]. intros H. apply Hz. by right.
Qed.

Lemma join_snoc cs c : cs ≠ [] → join (cs ++ [c]) = below (join cs) c.
Proof.
  unfold below. induction cs as [|d cs IH]; intros Hne; [done|]. destruct cs as [|e cs]; [done|].
  change ((d :: e :: cs) ++ [c]) with (d :: e :: (cs ++ [c])).
  change (join (d :: e :: cs ++ [c])) with (d ++ slash ++ join ((e :: cs) ++ [c])).
  rewrite IH by done. change (join (d :: e :: cs)) with (d ++ slash ++ join (e :: cs)).
  by rewrite <- !app_assoc.
Qed.

Lemma spell_snoc a cs c : cs ≠ [] → spell a (cs ++ [c]) = below (spell a cs) c.
Proof. intros. unfold spell. rewrite join_snoc by done. unfold below. by rewrite !app_assoc. Qed.

Lemma join_zero cs : Forall name cs → "000"%char ∉ join cs.
Proof.
  intros Hn. destruct cs as [|c cs]; [apply not_elem_of_nil|].
  induction cs as [|d cs IH] using rev_ind; [by apply Forall_cons in Hn as [(_&_&?&_) _]|].
  rewrite app_comm_cons in *. rewrite join_snoc by done. apply Forall_app in Hn as [Hn Hd].
  apply Forall_singleton in Hd as (_&_&Hd&_). unfold below. rewrite !not_elem_of_app.
  split; [by apply IH|]. split; [|done]. unfold slash. by rewrite list_elem_of_singleton.
Qed.

Lemma spell_c_str a cs : Forall name cs → Http.c_str (spell a cs) = spell a cs.
Proof.
  intros Hn. apply c_str_clean. unfold spell. rewrite not_elem_of_app. split; [|by apply join_zero].
  destruct a; [unfold slash; by rewrite list_elem_of_singleton|apply not_elem_of_nil].
Qed.

Lemma named_below w a cs k c : named w a cs k → name c → named w a (cs ++ [c]) (k ++ [c]).
Proof.
  intros (Hne&Hn&->) Hc. split; [by destruct cs|]. split; [by apply Forall_app; split; [|apply Forall_singleton]|].
  by rewrite app_assoc.
Qed.

Lemma spell_below w a cs k c : named w a cs k → below (spell a cs) c = spell a (cs ++ [c]).
Proof. intros (Hne&_&_). by rewrite spell_snoc. Qed.

Lemma named_c_str w a cs k : named w a cs k → Http.c_str (spell a cs) = spell a cs.
Proof. intros (_&Hn&_). by apply spell_c_str. Qed.

Lemma name_not_dots c : name c → is_dots c = false.
Proof. intros (_&_&_&?&?). unfold is_dots. by rewrite !bool_decide_eq_false_2. Qed.

Lemma snoc_split (k q d : loc) c : k ++ [c] = q ++ d → d ≠ [] → (q = k ∧ d = [c]) ∨ ∃ d', d' ≠ [] ∧ k = q ++ d' ∧ d = d' ++ [c].
Proof.
  intros H Hd. destruct (exists_last Hd) as (d'&e&->). rewrite app_assoc in H.
  apply app_inj_tail in H as [-> ->]. destruct d' as [|f d']; [left; by rewrite app_nil_r|right; by exists (f :: d')].
Qed.

Lemma clear_way_below t k c x : clear_way t k → t !! k = Some (Dir x) → clear_way t (k ++ [c]).
Proof. intros Hw Hk q d Hq Hd. destruct (snoc_split _ _ _ _ Hq Hd) as [[-> _]|(d'&?&?&_)]; [by rewrite Hk|by apply (Hw q d')]. Qed.

Lemma open_way_below t k c : open_way t k → t !! k = Some (Dir true) → open_way t (k ++ [c]).
Proof. intros Hw Hk q d Hq Hd. destruct (snoc_split _ _ _ _ Hq Hd) as [[-> _]|(d'&?&?&_)]; [by rewrite Hk|by apply (Hw q d')]. Qed.

Lemma open_clear t k : open_way t k → clear_way t k.
Proof. intros Hw q d Hq Hd. by apply (Hw q d). Qed.

Lemma clear_way_sub t t' k : t' ⊆ t → clear_way t k → clear_way t' k.
Proof. intros Hs Hw q d Hq Hd Hl. apply (Hw q d Hq Hd). by eapply lookup_weaken. Qed.

Lemma open_way_sub t t' k : t' ⊆ t → open_way t k → open_way t' k.
Proof. intros Hs Hw q d Hq Hd. destruct (Hw q d Hq Hd) as [H1 H2]. split; intros Hl; [apply H1|apply H2]; by eapply lookup_weaken. Qed.

Lemma closed_below t k d n : closed t → t !! (k ++ d) = Some n → d ≠ [] → ∃ x, t !! k = Some (Dir x).
Proof.
  intros Hc. revert n. induction d as [|c d IH] using rev_ind; intros n Hl Hd; [done|].
  rewrite app_assoc in Hl. destruct (Hc _ _ _ Hl) as [_ [x Hx]].
  destruct d as [|e d]; [rewrite app_nil_r in Hx; by eexists|by eapply IH].
Qed.

Lemma closed_child t k c d n : closed t → t !! (k ++ c :: d) = Some n → name c ∧ is_Some (t !! (k ++ [c])).
Proof.
  intros Hc Hl. assert (is_Some (t !! (k ++ [c]))) as [m Hm].
  { change (c :: d) with ([c] ++ d) in Hl. rewrite app_assoc in Hl. destruct d as [|e d].
    - rewrite app_nil_r in Hl. by eexists.
    - destruct (closed_below t (k ++ [c]) (e :: d) n Hc Hl) as [x Hx]; [done|by eexists]. }
  destruct (Hc _ _ _ Hm) as [? _]. split; [done|by eexists].
Qed.

Lemma without_lookup k t q : without k t !! q = if bool_decide (k `prefix_of` q) then None else t !! q.
Proof.
  unfold without. case_bool_decide as Hp.
  - apply map_lookup_filter_None_2. right. intros n _ Hn. by apply Hn.
  - destruct (t !! q) as [n|] eqn:E.
    + by apply map_lookup_filter_Some_2.
    + apply map_lookup_filter_None_2. by left.
Qed.

Lemma prefix_snoc_not (k : loc) c : ¬ ((k ++ [c]) `prefix_of` k).
Proof. intros [d Hd]. apply (f_equal length) in Hd. rewrite !length_app in Hd. cbn in Hd. lia. Qed.

Lemma prefix_below (k q : loc) c : (k ++ [c]) `prefix_of` q → k `prefix_of` q.
Proof. intros [d ->]. rewrite <- app_assoc. by eexists. Qed.

(** Removing a leaf. *)
Lemma closed_delete t k : closed t → (∀ c, t !! (k ++ [c]) = None) → closed (delete k t).
Proof.
  intros Hc Hl q c n Hq. apply lookup_delete_Some in Hq as [Hne Hq]. destruct (Hc _ _ _ Hq) as [? [x Hx]].
  split; [done|]. exists x. rewrite lookup_delete_ne; [done|]. intros ->. by rewrite Hl in Hq.
Qed.

Lemma closed_leaf t k n c : closed t → t !! k = Some n → is_dir n = false → t !! (k ++ [c]) = None.
Proof.
  intros Hc Hk Hn. destruct (t !! (k ++ [c])) as [m|] eqn:E; [|done].
  destruct (Hc _ _ _ E) as [_ [x Hx]]. rewrite Hk in Hx. by injection Hx as ->.
Qed.

Lemma without_leaf t k : closed t → (∀ c, name c → t !! (k ++ [c]) = None) → delete k t = without k t.
Proof.
  intros Hc Hl. apply map_eq. intros q. rewrite without_lookup. case_bool_decide as Hp.
  - destruct Hp as [[|c d] ->]; [rewrite app_nil_r; by rewrite lookup_delete_eq|].
    destruct (delete k t !! (k ++ c :: d)) as [n|] eqn:E; [|done].
    apply lookup_delete_Some in E as [_ E]. destruct (closed_child _ _ _ _ _ Hc E) as [Hn [m Hm]].
    by rewrite (Hl c Hn) in Hm.
  - rewrite lookup_delete_ne; [done|]. by intros ->.
Qed.

(** [t'] is [t] less some entries at or below [k]. *)
Definition shrunk (k : loc) (t t' : fstree) : Prop :=
  t' ⊆ t ∧ ∀ q, ¬ (k `prefix_of` q) → t' !! q = t !! q.

Lemma shrunk_refl k t : shrunk k t t.
Proof. done. Qed.

Lemma shrunk_trans k t t' t'' : shrunk k t t' → shrunk k t' t'' → shrunk k t t''.
Proof. intros [? H1] [? H2]. split; [by etrans|]. intros q Hq. by rewrite H2, H1. Qed.

Lemma shrunk_up k c t t' : shrunk (k ++ [c]) t t' → shrunk k t t'.
Proof. intros [? H]. split; [done|]. intros q Hq. apply H. intros Hp. by apply Hq, (prefix_below _ _ c). Qed.

Lemma shrunk_delete k t : shrunk k t (delete k t).
Proof. split; [apply delete_subseteq|]. intros q Hq. rewrite lookup_delete_ne; [done|]. by intros ->. Qed.

Lemma shrunk_without k t t' : shrunk k t t' → without k t' = without k t.
Proof. intros [_ H]. apply map_eq. intros q. rewrite !without_lookup. case_bool_decide; [done|by apply H]. Qed.

Lemma without_absent k t : closed t → t !! k = None → without k t = t.
Proof.
  intros Hc Hk. apply map_eq. intros q. rewrite without_lookup. case_bool_decide as Hp; [|done].
  destruct Hp as [d ->]. destruct (t !! (k ++ d)) as [n|] eqn:E; [|done].
  destruct d as [|c d]; [rewrite app_nil_r in E; congruence|].
  destruct (closed_below t k (c :: d) n Hc E) as [x Hx]; congruence.
Qed.

(** The test on [st_mode]: sockets and block devices pass it like directories. *)
Lemma mode_dir m n : Z.land m S_IFMT = file_type n →
  (Z.land m S_IFDIR =? 0) = negb (is_dir n || bool_decide (n = Sock) || bool_decide (n = Blk)).
Proof.
  intros H. assert (Z.land m S_IFDIR = Z.land (file_type n) S_IFDIR) as ->.
  { rewrite <- H, <- Z.land_assoc. by f_equal. }
  by destruct n.
Qed.

Section Laws.
Context {F : Type} {FS : FileSystem F} {FL : FileSystemLaws F}.

(** What one call of [Rm] does to the map; when [lstat] fails on the path itself it
    does nothing. *)
Definition rm_spec (p : str) (k : loc) (s : F) (r : option (bool * F)) : Prop :=
  ∃ b s', r = Some (b, s') ∧ shrunk k (tree s) (tree s') ∧ closed (tree s') ∧
  (f_lstat p s = None → b = true ∧ s' = s) ∧
  (b = true → is_Some (f_lstat p s) → tree s' = without k (tree s)).

Lemma Unlink_spec a cs k s :
  named cwd a cs k → clear_way (tree s) k → closed (tree s) →
  rm_spec (spell a cs) k s (Some (Unlink (spell a cs) false s)).
Proof.
  intros Hn Hw Hc. unfold Unlink, __lstat. rewrite (named_c_str _ _ _ _ Hn). cbn [negb andb].
  case_bool_decide as Hl; cbn [negb].
  2:{ exists true, s. split_and!; [done|apply shrunk_refl|done|done|]. intros _ Hs. by destruct Hl. }
  destruct (f_unlink (spell a cs) s) as [[] s'] eqn:E; eexists _, s'; split; [done| |done|].
  - destruct (unlink_true _ _ _ _ _ Hn Hw E) as [(n&Hk&Hd) ->].
    assert (∀ c, tree s !! (k ++ [c]) = None) as Hl' by (intros c; by eapply closed_leaf).
    split_and!; [apply shrunk_delete|by apply closed_delete|intros Hx; by rewrite Hx in Hl; destruct Hl|].
    intros _ _. by apply without_leaf.
  - rewrite (unlink_false _ _ _ E). split_and!; [apply shrunk_refl|done|intros Hx; by rewrite Hx in Hl; destruct Hl|done].
Qed.

Lemma rm_entries_spec rm a cs k x t l ret s :
  named cwd a cs k → tree s !! k = Some (Dir x) → clear_way (tree s) k → closed (tree s) → tree s ⊆ t →
  (∀ ty c, (ty, c) ∈ l → is_dots c = false → name c) →
  (∀ ty c s, (ty, c) ∈ l → name c → tree s ⊆ t → tree s !! k = Some (Dir x) → clear_way (tree s) k →
     closed (tree s) → rm_spec (spell a (cs ++ [c])) (k ++ [c]) s (rm (spell a (cs ++ [c])) s)) →
  ∃ b s', rm_entries rm (spell a cs) l ret s = Some (b, s') ∧ shrunk k (tree s) (tree s') ∧
    closed (tree s') ∧ tree s' !! k = Some (Dir x).
Proof.
  intros Hn. revert ret s. induction l as [|[ty c] l IH]; intros ret s Hk Hw Hc Hs Hnames Hrm.
  { exists ret, s. by split_and!. }
  cbn [rm_entries]. destruct (is_dots c) eqn:Hd.
  { apply IH; try done; intros; [eapply Hnames|eapply Hrm]; try done; by right. }
  rewrite (spell_below _ _ _ _ c Hn).
  destruct (Hrm ty c s) as (b&s1&->&Hsh&Hc1&_); try done; [by left|eapply Hnames; [by left|done]|].
  assert (tree s1 !! k = Some (Dir x)) as Hk1 by (destruct Hsh as [_ ->]; [done|apply prefix_snoc_not]).
  destruct (IH b s1) as (b2&s2&E2&Hsh2&?&?); try done.
  - by eapply clear_way_sub; [apply Hsh|].
  - etrans; [apply Hsh|done].
  - intros; eapply Hnames; [by right|done].
  - intros; eapply Hrm; try done. by right.
  - exists b2, s2. split_and!; [done| |done|done]. eapply shrunk_trans; [by eapply shrunk_up|done].
Qed.

Lemma Rm_spec fuel a cs k s :
  named cwd a cs k → clear_way (tree s) k → closed (tree s) → (0 < fuel)%nat →
  (∀ d n, tree s !! (k ++ d) = Some n → (length d < fuel)%nat) →
  rm_spec (spell a cs) k s (Rm fuel (spell a cs) s).
Proof.
  revert a cs k s. induction fuel as [|fuel IH]; intros a cs k s Hn Hw Hc Hf Hfuel; [lia|].
  cbn [Rm]. rewrite (named_c_str _ _ _ _ Hn).
  destruct (f_lstat (spell a cs) s) as [m|] eqn:El.
  2:{ exists true, s. split_and!; [done|apply shrunk_refl|done|done|]. rewrite El. by intros _ []. }
  destruct (lstat_some _ _ _ _ _ Hn Hw El) as (n&Hk&Hm). rewrite (mode_dir _ _ Hm).
  destruct (_ || _) eqn:Hdir; cbn [negb]; [|by apply Unlink_spec].
  destruct (f_opendir (spell a cs) s) as [l|] eqn:Eo.
  2:{ exists false, s. split_and!; [done|apply shrunk_refl|done|by rewrite El|done]. }
  destruct (is_dir n) eqn:Hd.
  2:{ rewrite (opendir_not_dir a cs k s n) in Eo; try done. intros ->. by vm_compute in Hdir. }
  destruct n as [x| | | | | |]; try done. pose proof (opendir_dir _ _ _ _ _ _ Hn Hw Hk Eo) as Hl.
  destruct (rm_entries_spec (Rm fuel) a cs k x (tree s) l true s) as (b&s1&->&Hsh&Hc1&Hk1); try done.
  { intros ty c Hin Hnd. by apply (eo_sound _ _ _ Hl ty c Hin Hnd). }
  { intros ty c s1 Hin Hnc Hs1 Hk1 Hw1 Hc1. apply IH; [by apply named_below|by eapply clear_way_below|done| |].
    - destruct (eo_sound _ _ _ Hl ty c Hin (name_not_dots c Hnc)) as (_&n&Hcn&_).
      specialize (Hfuel [c] n Hcn). cbn in Hfuel. lia.
    - intros d n Hd1. rewrite <- app_assoc in Hd1. specialize (Hfuel (c :: d) n).
      cbn in Hfuel. assert (S (length d) < S fuel)%nat; [|lia]. apply Hfuel. by eapply lookup_weaken. }
  destruct (f_rmdir (spell a cs) s1) as [ok s2] eqn:Er. eexists _, s2. split; [done|].
  assert (clear_way (tree s1) k) as Hw1 by (by eapply clear_way_sub; [apply Hsh|]).
  destruct ok.
  - destruct (rmdir_true _ _ _ _ _ Hn Hw1 Er) as (_&Hno&Ht). rewrite Ht.
    assert (∀ c, tree s1 !! (k ++ [c]) = None) as Hno'.
    { intros c. destruct (tree s1 !! (k ++ [c])) as [m'|] eqn:E; [|done].
      destruct (Hc1 _ _ _ E) as [Hc' _]. by rewrite Hno in E. }
    split_and!; [eapply shrunk_trans; [done|apply shrunk_delete]|by apply closed_delete|by rewrite El|].
    intros _ _. rewrite without_leaf by done. by apply shrunk_without.
  - rewrite (rmdir_false _ _ _ Er). split_and!; [done|done|by rewrite El|done].
Qed.

End Laws.

(** What [Rm] can remove: no directory it may not search, no socket and no block
    device. *)
Definition removable (k : loc) (t : fstree) : Prop := ∀ d n,
  t !! (k ++ d) = Some n → n ≠ Dir false ∧ n ≠ Sock ∧ n ≠ Blk.

Lemma removable_below k c t t' : t' ⊆ t → removable k t → removable (k ++ [c]) t'.
Proof. intros Hs H d n Hd. rewrite <- app_assoc in Hd. apply (H (c :: d)). by eapply lookup_weaken. Qed.

Section Permits.
Context {F : Type} {FS : FileSystem F} {FL : FileSystemLaws F} {FP : FileSystemPermits F}.

Lemma rm_entries_removes rm a cs k t l s :
  named cwd a cs k → tree s !! k = Some (Dir true) → open_way (tree s) k → closed (tree s) → permits s →
  tree s ⊆ t → (∀ ty c, (ty, c) ∈ l → is_dots c = false → name c) →
  (∀ ty c s, (ty, c) ∈ l → name c → tree s ⊆ t → tree s !! k = Some (Dir true) → open_way (tree s) k →
     closed (tree s) → permits s →
     ∃ s', rm (spell a (cs ++ [c])) s = Some (true, s') ∧ permits s' ∧ closed (tree s') ∧
       tree s' = without (k ++ [c]) (tree s)) →
  ∃ s', rm_entries rm (spell a cs) l true s = Some (true, s') ∧ permits s' ∧ closed (tree s') ∧
    shrunk k (tree s) (tree s') ∧ tree s' !! k = Some (Dir true) ∧
    (∀ ty c, (ty, c) ∈ l → is_dots c = false → tree s' !! (k ++ [c]) = None).
Proof.
  intros Hn. revert s. induction l as [|[ty c] l IH]; intros s Hk Hw Hc Hp Hs Hnames Hrm.
  { exists s. split_and!; try done. intros ty c H. by apply not_elem_of_nil in H. }
  assert (∀ ty' c', (ty', c') ∈ l → is_dots c' = false → name c') as Hnames' by (intros; eapply Hnames; [by right|done]).
  cbn [rm_entries]. destruct (is_dots c) eqn:Hd.
  { destruct (IH s) as (s'&E&?&?&?&?&Hgone); try done; [intros; eapply Hrm; try done; by right|].
    exists s'. split_and!; try done. intros ty' c' [Heq|Hin]%elem_of_cons Hd'; [|by eapply Hgone].
    injection Heq as -> ->. congruence. }
  rewrite (spell_below _ _ _ _ c Hn).
  destruct (Hrm ty c s) as (s1&->&Hp1&Hc1&Ht1); try done; [by left|eapply Hnames; [by left|done]|].
  assert (shrunk (k ++ [c]) (tree s) (tree s1)) as Hsh.
  { rewrite Ht1. split; [apply map_filter_subseteq|]. intros q Hq. by rewrite without_lookup, bool_decide_eq_false_2. }
  destruct (IH s1) as (s2&E2&?&?&Hsh2&?&Hgone); try done.
  - destruct Hsh as [_ ->]; [done|apply prefix_snoc_not].
  - by eapply open_way_sub; [apply Hsh|].
  - etrans; [apply Hsh|done].
  - intros; eapply Hrm; try done. by right.
  - exists s2. split_and!; try done.
    + eapply shrunk_trans; [by eapply shrunk_up|done].
    + intros ty' c' [Heq|Hin]%elem_of_cons Hd'; [|by eapply Hgone]. injection Heq as -> ->.
      eapply lookup_weaken_None; [|apply Hsh2]. by rewrite Ht1, without_lookup, bool_decide_eq_true_2.
Qed.

Lemma Rm_succeeds fuel a cs k s :
  named cwd a cs k → open_way (tree s) k → closed (tree s) → permits s → (0 < fuel)%nat →
  (∀ d n, tree s !! (k ++ d) = Some n → (length d < fuel)%nat) → removable k (tree s) →
  ∃ s', Rm fuel (spell a cs) s = Some (true, s') ∧ permits s' ∧ closed (tree s') ∧
    tree s' = without k (tree s).
Proof.
  revert a cs k s. induction fuel as [|fuel IH]; intros a cs k s Hn Ho Hc Hp Hf Hfuel Hrem; [lia|].
  pose proof (open_clear _ _ Ho) as Hw. cbn [Rm]. rewrite (named_c_str _ _ _ _ Hn).
  destruct (f_lstat (spell a cs) s) as [m|] eqn:El.
  2:{ exists s. rewrite without_absent; [done|done|]. by apply (permits_lstat _ _ _ _ Hn Hp Ho). }
  destruct (lstat_some _ _ _ _ _ Hn Hw El) as (n&Hk&Hm). rewrite (mode_dir _ _ Hm).
  destruct (Hrem [] n) as (Hnd&Hns&Hnb); [by rewrite app_nil_r|].
  rewrite (bool_decide_eq_false_2 (n = Sock)), (bool_decide_eq_false_2 (n = Blk)), !orb_false_r by done.
  destruct (is_dir n) eqn:Hd; cbn [negb].
  2:{ unfold Unlink, __lstat. rewrite (named_c_str _ _ _ _ Hn), El. cbn [negb andb].
      rewrite bool_decide_eq_true_2 by (by eexists). cbn [negb].
      destruct (permits_unlink _ _ _ _ _ Hn Hp Ho Hk Hd) as (s'&E&?). rewrite E. exists s'.
      destruct (unlink_true _ _ _ _ _ Hn Hw E) as [_ ->].
      assert (∀ c, tree s !! (k ++ [c]) = None) as Hl' by (intros c; by eapply closed_leaf).
      split_and!; [done|done|by apply closed_delete|by apply without_leaf]. }
  destruct n as [[]| | | | | |]; try done.
  destruct (permits_opendir _ _ _ _ _ Hn Hp Ho Hk) as (l&Eo&_). rewrite Eo.
  pose proof (opendir_dir _ _ _ _ _ _ Hn Hw Hk Eo) as Hl.
  destruct (rm_entries_removes (Rm fuel) a cs k (tree s) l s) as (s1&->&Hp1&Hc1&Hsh&Hk1&Hgone); try done.
  { intros ty c Hin Hnd'. by apply (eo_sound _ _ _ Hl ty c Hin Hnd'). }
  { intros ty c s1 Hin Hnc Hs1 Hk1 Hw1 Hc1 Hp1.
    apply IH; [by apply named_below|by eapply open_way_below|done|done| | |by eapply removable_below].
    - destruct (eo_sound _ _ _ Hl ty c Hin (name_not_dots c Hnc)) as (_&n&Hcn&_).
      specialize (Hfuel [c] n Hcn). cbn in Hfuel. lia.
    - intros d n Hd1. rewrite <- app_assoc in Hd1. specialize (Hfuel (c :: d) n).
      cbn in Hfuel. assert (S (length d) < S fuel)%nat; [|lia]. apply Hfuel. by eapply lookup_weaken. }
  assert (∀ c, tree s1 !! (k ++ [c]) = None) as Hno.
  { intros c. destruct (tree s1 !! (k ++ [c])) as [m'|] eqn:E; [|done]. exfalso.
    destruct (Hc1 _ _ _ E) as [Hc' _]. destruct (eo_complete _ _ _ Hl c m') as [ty Hty]; [done|by eapply lookup_weaken; [|apply Hsh]|].
    by rewrite (Hgone ty c Hty (name_not_dots c Hc')) in E. }
  assert (open_way (tree s1) k) as Ho1 by (by eapply open_way_sub; [apply Hsh|]).
  destruct (permits_rmdir _ _ _ _ _ Hn Hp1 Ho1 Hk1 Hno) as (s2&Er&?). rewrite Er. exists s2.
  destruct (rmdir_true _ _ _ _ _ Hn (open_clear _ _ Ho1) Er) as (_&_&Ht). rewrite Ht.
  split_and!; [done|done|by apply closed_delete|]. rewrite without_leaf by done. by apply shrunk_without.
Qed.

End Permits.

(** ** Mkdir *)

(** [t'] is [t] with some of the directories on the way to [k] added. *)
Definition made (k : loc) (t t' : fstree) : Prop :=
  t ⊆ t' ∧ ∀ q n, t' !! q = Some n → t !! q = None → q `prefix_of` k ∧ ∃ x, n = Dir x.

Lemma made_refl k t : made k t t.
Proof. split; [done|]. intros; congruence. Qed.

Lemma made_trans k t t' t'' : made k t t' → made k t' t'' → made k t t''.
Proof.
  intros [Hs H1] [Hs' H2]. split; [by etrans|]. intros q n Hq Hn.
  destruct (t' !! q) as [n'|] eqn:E; [|by apply (H2 q)].
  assert (n' = n) as -> by (assert (t'' !! q = Some n') by (by eapply lookup_weaken); congruence). by apply (H1 q).
Qed.

Lemma made_insert k d x t : t !! k = None → made (k ++ d) t (<[k := Dir x]> t).
Proof.
  intros Hk. split; [by apply insert_subseteq|]. intros q n Hq Hn.
  apply lookup_insert_Some in Hq as [[<- <-]|[_ Hq]]; [|congruence]. split; [by eexists|by eexists].
Qed.

Lemma made_clear k t t' : made k t t' → clear_way t k → clear_way t' k.
Proof.
  intros [Hs Hm] Hw q d Hq Hd Hl. destruct (t !! q) as [n|] eqn:E.
  - assert (t' !! q = Some n) by (by eapply lookup_weaken). apply (Hw q d Hq Hd). congruence.
  - destruct (Hm _ _ Hl E) as [_ [x ?]]. done.
Qed.

Lemma clear_way_up t k d : clear_way t (k ++ d) → clear_way t k.
Proof. intros Hw q e -> He. rewrite <- app_assoc in Hw. apply (Hw q (e ++ d)); [done|]. by destruct e. Qed.

Lemma open_way_up t k d : open_way t (k ++ d) → open_way t k.
Proof. intros Hw q e -> He. rewrite <- app_assoc in Hw. apply (Hw q (e ++ d)); [done|]. by destruct e. Qed.

Lemma closed_insert t q c x n : closed t → name c → t !! q = Some (Dir x) → t !! (q ++ [c]) = None →
  closed (<[q ++ [c] := n]> t).
Proof.
  intros Hc Hn Hq Hno k e m Hk. apply lookup_insert_Some in Hk as [[Heq _]|[Hne Hk]].
  - apply app_inj_tail in Heq as [<- <-]. split; [done|]. exists x. rewrite lookup_insert_ne; [done|].
    intros Hx. rewrite Hx in Hno. congruence.
  - destruct (Hc _ _ _ Hk) as [? [y Hy]]. split; [done|]. exists y.
    rewrite lookup_insert_ne; [done|]. intros Hx. rewrite Hx in Hno. congruence.
Qed.

Definition tail_text (ds : list str) : str := mjoin ((λ d, slash ++ d) <$> ds).

Lemma join_cons c ds : join (c :: ds) = c ++ tail_text ds.
Proof.
  revert c. induction ds as [|d ds IH]; intros c; [by rewrite app_nil_r|].
  change (join (c :: d :: ds)) with (c ++ slash ++ join (d :: ds)). by rewrite IH.
Qed.

Section MkdirLaws.
Context {F : Type} {FS : FileSystem F}.

(** The loop of [Mkdir] on the names of a path. *)
Fixpoint mkdirs (a : bool) (cs ds : list str) (s : F) : bool * F :=
  match ds with
  | [] => (true, s)
  | d :: ds =>
      let '(ok, s) := __mkdir (spell a cs) s in
      if ok then mkdirs a (cs ++ [d]) ds s else (false, s)
  end.

Lemma mkdir_parents_skip done w rest s :
  "/"%char ∉ w → mkdir_parents done (w ++ rest) s = mkdir_parents (done ++ w) rest s.
Proof.
  revert done. induction w as [|c w IH]; intros done Hw; [by rewrite app_nil_r|].
  apply not_elem_of_cons in Hw as [Hc Hw]. cbn [mkdir_parents app].
  destruct (Ascii.eqb_spec c "/"); [congruence|]. rewrite IH by done. by rewrite <- app_assoc.
Qed.

Lemma mkdir_parents_names a cs ds s :
  cs ≠ [] → Forall name ds → mkdir_parents (spell a cs) (tail_text ds) s = mkdirs a cs ds s.
Proof.
  intros Hcs Hn. revert cs s Hcs. induction Hn as [|d ds Hd Hn IH]; intros cs s Hcs; [done|].
  change (tail_text (d :: ds)) with ("/"%char :: d ++ tail_text ds).
  cbn [mkdir_parents mkdirs Ascii.eqb Bool.eqb]. destruct (__mkdir (spell a cs) s) as [[] s']; [|done].
  rewrite mkdir_parents_skip by apply Hd. rewrite <- IH by (by destruct cs).
  rewrite spell_snoc by done. unfold below. by rewrite <- app_assoc.
Qed.

Lemma Mkdir_unfold a c ds s :
  name c → Forall name ds →
  Mkdir (spell a (c :: ds)) s =
    match f_lstat (spell a (c :: ds)) s with
    | Some _ => Ret true s
    | None =>
        let '(ok, s) := mkdirs a [c] ds s in
        if negb ok then Ret false s
        else let '(ok, s) := __mkdir (spell a (c :: ds)) s in Ret ok s
    end.
Proof.
  intros Hc Hn. unfold Mkdir, __lstat. rewrite spell_c_str by (by constructor).
  destruct (f_lstat _ s); [done|].
  assert (∃ h w, spell a (c :: ds) = h :: w ++ tail_text ds ∧ ("/"%char ∉ w) ∧ h :: w = spell a [c]) as (h&w&E&Hw&Hs).
  { unfold spell. rewrite join_cons. destruct Hc as (Hne&Hnc&_). destruct a.
    - exists "/"%char, c. done.
    - destruct c as [|h w]; [done|]. exists h, w. split; [done|]. split; [|done]. by apply not_elem_of_cons in Hnc as [_ ?]. }
  rewrite E. rewrite mkdir_parents_skip by done. change ([h] ++ w) with (h :: w). rewrite Hs.
  by rewrite mkdir_parents_names.
Qed.

Context {FL : FileSystemLaws F}.

Lemma __mkdir_spec a cs k s d : named cwd a cs k → clear_way (tree s) k → closed (tree s) →
  ∃ b s', __mkdir (spell a cs) s = (b, s') ∧ made (k ++ d) (tree s) (tree s') ∧ closed (tree s') ∧
    (b = true → is_Some (tree s' !! k)).
Proof.
  intros Hn Hw Hc. unfold __mkdir. destruct (f_access (spell a cs) s) eqn:Ea.
  { exists true, s. split; [done|]. split; [apply made_refl|]. split; [done|]. intros _. by eapply access_true. }
  destruct (f_mkdir (spell a cs) dir_mode s) as [[] s'] eqn:Em; eexists _, s'; split; [done| |done|].
  - destruct (mkdir_true _ _ _ _ _ _ Hn Hw Em) as (Hk&(q&c&x&Hq&Hx)&y&Ht). rewrite Ht.
    split; [by apply made_insert|]. split; [|intros _; rewrite lookup_insert_eq; by eexists].
    destruct Hn as (Hne&Hnames&->). destruct (exists_last Hne) as (cs'&c'&->).
    rewrite app_assoc in Hq. apply app_inj_tail in Hq as [<- <-]. rewrite app_assoc. eapply closed_insert; [done| |done|].
    + apply Forall_app in Hnames as [_ Hnames]. exact (proj1 (Forall_singleton _ _) Hnames).
    + by rewrite <- app_assoc.
  - rewrite (mkdir_false _ _ _ _ Em). split; [apply made_refl|]. done.
Qed.

Lemma mkdirs_spec a cs ds k s : named cwd a cs k → Forall name ds → clear_way (tree s) (k ++ ds) → closed (tree s) →
  ∃ b s', mkdirs a cs ds s = (b, s') ∧ made (k ++ ds) (tree s) (tree s') ∧ closed (tree s').
Proof.
  intros Hn Hds. revert cs k s Hn. induction Hds as [|d ds Hd Hds IH]; intros cs k s Hn Hw Hc.
  { exists true, s. split; [done|]. split; [apply made_refl|done]. }
  cbn [mkdirs]. destruct (__mkdir_spec a cs k s (d :: ds) Hn) as (b&s1&->&Hm&Hc1&_); [by eapply clear_way_up|done|].
  destruct b; [|by exists false, s1].
  replace (k ++ d :: ds) with ((k ++ [d]) ++ ds) in * by (by rewrite <- app_assoc).
  destruct (IH (cs ++ [d]) (k ++ [d]) s1) as (b&s2&->&Hm2&Hc2); [by apply named_below|by eapply made_clear|done|].
  exists b, s2. split; [done|]. split; [by eapply made_trans|done].
Qed.

Lemma Mkdir_spec a cs k s :
  named cwd a cs k → clear_way (tree s) k → closed (tree s) →
  ∃ b s', Mkdir (spell a cs) s = Ret b s' ∧ made k (tree s) (tree s') ∧ closed (tree s') ∧
    (b = true → is_Some (tree s' !! k)).
Proof.
  intros Hn Hw Hc. pose proof Hn as (Hne&Hnames&Hk). destruct cs as [|c ds]; [done|].
  apply Forall_cons in Hnames as [Hnc Hnds]. rewrite Mkdir_unfold by done.
  destruct (f_lstat (spell a (c :: ds)) s) as [m|] eqn:El.
  { exists true, s. split; [done|]. split; [apply made_refl|]. split; [done|]. intros _.
    destruct (lstat_some _ _ _ _ _ Hn Hw El) as (n&?&_). by eexists. }
  set (b0 := if a then [] else cwd) in *.
  assert (k = (b0 ++ [c]) ++ ds) as Hk' by (rewrite <- app_assoc; done).
  destruct (mkdirs_spec a [c] ds (b0 ++ [c]) s) as (b&s1&->&Hm&Hc1).
  { split; [done|]. split; [by constructor|done]. } { done. } { by rewrite <- Hk'. } { done. }
  rewrite <- Hk' in Hm. destruct b; cbn [negb]; [|by exists false, s1].
  destruct (__mkdir_spec a (c :: ds) k s1 [] Hn) as (b&s2&->&Hm2&Hc2&Hb); [by eapply made_clear|done|].
  rewrite app_nil_r in Hm2. exists b, s2. split; [done|]. split; [by eapply made_trans|done].
Qed.

End MkdirLaws.

(** On the way to [k] there are only directories that may be searched, as far as
    there is anything. *)
Definition free_way (t : fstree) (k : loc) : Prop := ∀ q d, k = q ++ d → d ≠ [] →
  t !! q = None ∨ t !! q = Some (Dir true).
Definition free_all (t : fstree) (k : loc) : Prop := ∀ q d, k = q ++ d → t !! q = None ∨ t !! q = Some (Dir true).

Lemma free_open t k : free_way t k → open_way t k.
Proof. intros Hf q d Hq Hd. destruct (Hf q d Hq Hd) as [-> | ->]; done. Qed.

Lemma free_all_way t k : free_all t k → free_way t k.
Proof. intros Hf q d Hq _. by apply (Hf q d). Qed.

Lemma free_all_up t k d : free_all t (k ++ d) → free_all t k.
Proof. intros Hf q e ->. apply (Hf q (e ++ d)). by rewrite app_assoc. Qed.

Lemma free_all_insert t k q : free_all t k → free_all (<[q := Dir true]> t) k.
Proof.
  intros Hf r d Hr. destruct (decide (q = r)) as [<-|]; [rewrite lookup_insert_eq; by right|].
  rewrite lookup_insert_ne by done. by apply (Hf r d).
Qed.

Section MkdirPermits.
Context {F : Type} {FS : FileSystem F} {FL : FileSystemLaws F} {FP : FileSystemPermits F}.

Lemma __mkdir_ok a cs k s q c K d :
  named cwd a cs k → permits s → k = q ++ [c] → tree s !! q = Some (Dir true) →
  K = k ++ d → free_all (tree s) K →
  ∃ s', __mkdir (spell a cs) s = (true, s') ∧ permits s' ∧ free_all (tree s') K ∧ tree s' !! k = Some (Dir true).
Proof.
  intros Hn Hp Hk Hq -> Hf. pose proof (free_all_up _ _ _ Hf) as Hf'.
  pose proof (free_open _ _ (free_all_way _ _ Hf')) as Ho. unfold __mkdir.
  destruct (Hf' k []) as [Habs|Hdir]; [by rewrite app_nil_r| |].
  - destruct (f_access (spell a cs) s) eqn:Ea.
    { destruct (access_true _ _ _ _ Hn (open_clear _ _ Ho) Ea). congruence. }
    destruct (permits_mkdir _ _ _ _ _ _ dir_mode _ Hn Hp Ho Habs Hk Hq) as (s'&->&?&Ht).
    exists s'. rewrite Ht. split_and!; [done|done|by apply free_all_insert|by rewrite lookup_insert_eq].
  - destruct (f_access (spell a cs) s) eqn:Ea; [by exists s|].
    destruct (permits_access _ _ _ _ Hn Hp Ho Ea); congruence.
Qed.

Lemma mkdirs_ok a cs ds k s q c :
  named cwd a cs k → Forall name ds → permits s → k = q ++ [c] → tree s !! q = Some (Dir true) →
  free_all (tree s) (k ++ ds) →
  ∃ s' q' c', mkdirs a cs ds s = (true, s') ∧ permits s' ∧ free_all (tree s') (k ++ ds) ∧
    k ++ ds = q' ++ [c'] ∧ tree s' !! q' = Some (Dir true).
Proof.
  intros Hn Hds. revert cs k s q c Hn. induction Hds as [|d ds Hd Hds IH]; intros cs k s q c Hn Hp Hk Hq Hf.
  { exists s, q, c. rewrite app_nil_r in *. done. }
  cbn [mkdirs]. destruct (__mkdir_ok a cs k s q c (k ++ d :: ds) (d :: ds)) as (s1&->&Hp1&Hf1&Hk1); try done.
  replace (k ++ d :: ds) with ((k ++ [d]) ++ ds) in * by (by rewrite <- app_assoc).
  by apply (IH (cs ++ [d]) (k ++ [d]) s1 k d); [apply named_below| | | |].
Qed.

Lemma Mkdir_succeeds a cs k s :
  named cwd a cs k → permits s → closed (tree s) → free_way (tree s) k →
  tree s !! (if a then [] else cwd) = Some (Dir true) →
  ∃ s', Mkdir (spell a cs) s = Ret true s' ∧ permits s' ∧ closed (tree s') ∧ made k (tree s) (tree s') ∧
    free_way (tree s') k ∧ (tree s !! k = None → tree s' !! k = Some (Dir true)).
Proof.
  intros Hn Hp Hc Hf Hb. pose proof Hn as (Hne&Hnames&Hk). pose proof (free_open _ _ Hf) as Ho.
  destruct (Mkdir_spec a cs k s Hn (open_clear _ _ Ho) Hc) as (b&s'&E&Hm&Hc'&_).
  destruct cs as [|c ds]; [done|]. apply Forall_cons in Hnames as [Hnc Hnds].
  rewrite Mkdir_unfold in * by done.
  destruct (f_lstat (spell a (c :: ds)) s) as [m|] eqn:El.
  { injection E as <- <-. exists s. split_and!; try done.
    destruct (lstat_some _ _ _ _ _ Hn (open_clear _ _ Ho) El) as (n&?&_). congruence. }
  pose proof (permits_lstat _ _ _ _ Hn Hp Ho El) as Habs.
  set (b0 := if a then [] else cwd) in *.
  assert (k = (b0 ++ [c]) ++ ds) as Hk' by (rewrite <- app_assoc; done).
  destruct (mkdirs_ok a [c] ds (b0 ++ [c]) s b0 c) as (s1&q&e&E1&Hp1&Hf1&Hq1&Hd1); try done.
  { split; [done|]. split; [by constructor|done]. }
  { rewrite <- Hk'. intros q d Hq. destruct d as [|x d]; [rewrite app_nil_r in Hq; subst q; by left|].
    by apply (Hf q (x :: d)). }
  rewrite E1 in *. cbn [negb] in *. rewrite <- Hk' in *.
  destruct (__mkdir_ok a (c :: ds) k s1 q e k []) as (s2&E2&Hp2&Hf2&Hk2); try done; [by rewrite app_nil_r|].
  rewrite E2 in *. injection E as <- <-. exists s2. split_and!; try done. by apply free_all_way.
Qed.

(** [OpenForWrite] of a file whose directories may be missing. *)
Lemma OpenForWrite_opens a cs c k s mode :
  named cwd a cs k → name c → permits s → closed (tree s) → fits (spell a (cs ++ [c])) →
  free_way (tree s) (k ++ [c]) → tree s !! (if a then [] else cwd) = Some (Dir true) →
  tree s !! (k ++ [c]) = None ∨ tree s !! (k ++ [c]) = Some Reg →
  ∃ s', OpenForWrite None (spell a (cs ++ [c])) mode s = Ret (true, Some (spell a (cs ++ [c]))) s' ∧
    is_Some (tree s' !! (k ++ [c])) ∧ tree s ⊆ tree s'.
Proof.
  intros Hn Hc Hp Hcl Hfit Hf Hb Hk. pose proof (named_below _ _ _ _ _ Hn Hc) as Hn'.
  pose proof (free_open _ _ Hf) as Ho. unfold OpenForWrite, ofs_open. rewrite (named_c_str _ _ _ _ Hn').
  assert (∀ s s', open_way (tree s) (k ++ [c]) → tree s !! (k ++ [c]) ≠ Some Lnk →
    f_open_write (spell a (cs ++ [c])) mode s = (true, s') →
    is_Some (tree s' !! (k ++ [c])) ∧ tree s ⊆ tree s') as Hopen.
  { intros s0 s0' Ho0 Hl E. destruct (open_write_true _ _ _ _ _ _ Hn' (open_clear _ _ Ho0) Hl E) as [_ [[-> ?]|[? ->]]]; [done|].
    split; [rewrite lookup_insert_eq; by eexists|by apply insert_subseteq]. }
  destruct (f_open_write (spell a (cs ++ [c])) mode s) as [[] s1] eqn:E1.
  { exists s1. split; [done|]. apply (Hopen s s1); [done| |done]. by destruct Hk as [-> | ->]. }
  pose proof (open_write_false _ _ _ _ E1) as Ht1. pose proof (permits_open_write_false _ _ _ _ Hp E1) as Hp1.
  assert (Util.Dirname (spell a (cs ++ [c])) = Some (spell a cs)) as Hdir.
  { rewrite <- (spell_below _ _ _ _ c Hn) in *. apply Util.Dirname_Basename; [done|apply Hc|].
    destruct Hn as (Hne&Hnm&_). destruct cs as [|e cs]; [done|]. apply Forall_cons in Hnm as [(He&_) _].
    unfold spell. rewrite join_cons. destruct a; [done|]. by destruct e. }
  rewrite Hdir. cbn [or_throw].
  assert (free_way (tree s1) k) as Hf1.
  { rewrite Ht1. intros q d -> Hd. apply (Hf q (d ++ [c])); [by rewrite app_assoc|by destruct d]. }
  destruct (Mkdir_succeeds a cs k s1) as (s2&E2&Hp2&Hc2&Hm2&Hf2&Hk2); try done; [by rewrite Ht1..|].
  rewrite (bind_Ret _ _ _ _ _ (eq_refl : ret (spell a cs) s1 = Ret _ _)), (bind_Ret _ _ _ _ _ E2).
  cbv beta. rewrite Ht1 in *.
  assert (tree s2 !! k = Some (Dir true)) as Hkd.
  { destruct (Hf k [c]) as [Hx|Hx]; [done|done|by apply Hk2|]. eapply lookup_weaken; [done|apply Hm2]. }
  assert (tree s2 !! (k ++ [c]) = tree s !! (k ++ [c])) as Hsame.
  { destruct (tree s !! (k ++ [c])) as [n|] eqn:E; [eapply lookup_weaken; [done|apply Hm2]|].
    destruct (tree s2 !! (k ++ [c])) as [n|] eqn:E'; [|done].
    destruct Hm2 as [_ Hm2]. destruct (Hm2 _ _ E' E) as [Hpre _]. by apply prefix_snoc_not in Hpre. }
  assert (open_way (tree s2) (k ++ [c])) as Ho2.
  { apply open_way_below; [by apply free_open|done]. }
  rewrite <- Hsame in Hk.
  destruct (permits_open_write a (cs ++ [c]) (k ++ [c]) k c true mode s2) as (s3&E3&_); try done.
  rewrite E3. exists s3. split; [done|]. destruct (Hopen s2 s3 Ho2) as [? ?]; [by destruct Hk as [-> | ->]|done|].
  split; [done|]. etrans; [apply Hm2|done].
Qed.

End MkdirPermits.

(** ** Reading the names of a path back *)

Fixpoint pieces (p : str) : list str :=
  match p with
  | [] => [[]]
  | c :: p =>
      if Ascii.eqb c "/" then [] :: pieces p
      else match pieces p with
           | w :: ws => (c :: w) :: ws
           | [] => [[c]]
           end
  end.
Definition names_of (p : str) : list str := filter (λ w, w ≠ []) (pieces p).

Lemma pieces_word w : "/"%char ∉ w → pieces w = [w].
Proof.
  induction w as [|c w IH]; intros Hw; [done|]. apply not_elem_of_cons in Hw as [Hc Hw].
  cbn [pieces]. destruct (Ascii.eqb_spec c "/"); [congruence|]. by rewrite IH.
Qed.

Lemma pieces_app w p : "/"%char ∉ w → pieces (w ++ "/"%char :: p) = w :: pieces p.
Proof.
  induction w as [|c w IH]; intros Hw; [done|]. apply not_elem_of_cons in Hw as [Hc Hw].
  cbn [pieces app]. destruct (Ascii.eqb_spec c "/"); [congruence|]. by rewrite IH.
Qed.

Lemma pieces_join cs : cs ≠ [] → Forall name cs → pieces (join cs) = cs.
Proof.
  intros Hne Hn. induction Hn as [|c cs Hc Hn IH]; [done|]. destruct cs as [|d cs]; [apply pieces_word, Hc|].
  change (join (c :: d :: cs)) with (c ++ "/"%char :: join (d :: cs)).
  rewrite pieces_app by apply Hc. by rewrite IH.
Qed.

Lemma names_of_spell a cs : cs ≠ [] → Forall name cs → names_of (spell a cs) = cs.
Proof.
  intros Hne Hn. unfold names_of, spell.
  assert (filter (λ w, w ≠ []) cs = cs) as Hf.
  { clear Hne. induction Hn as [|c cs (Hc&_) Hn IH]; [done|]. by rewrite filter_cons_True, IH. }
  destruct a; cbn [app slash]; [cbn [pieces Ascii.eqb Bool.eqb]; rewrite filter_cons_False by naive_solver|]; by rewrite pieces_join.
Qed.

Lemma spell_inj a cs ds : cs ≠ [] → ds ≠ [] → Forall name cs → Forall name ds → spell a cs = spell a ds → cs = ds.
Proof. intros. rewrite <- (names_of_spell a cs), <- (names_of_spell a ds) by done. by f_equal. Qed.

(** ** ListAllFile *)

Lemma has_subfix_spec c subfix : has_subfix c subfix = true ↔ ∃ w, c = w ++ subfix.
Proof.
  unfold has_subfix. destruct (Nat.ltb_spec (length c) (length subfix)) as [Hl|Hl].
  { split; [done|]. intros [w ->]. rewrite length_app in Hl. lia. }
  rewrite bool_decide_eq_true. split.
  - intros H. exists (take (length c - length subfix) c). rewrite <- (take_drop (length c - length subfix) c) at 1. by rewrite H.
  - intros [w ->]. rewrite length_app, drop_app_le by lia. by rewrite Nat.add_sub, drop_all.
Qed.

Section Listing.
Context {F : Type} {FS : FileSystem F} {FL : FileSystemLaws F}.

(** What [ListAllFile] of [cs] can come to see of the entry [d] below it: every
    directory on the way may be accessed and read, and every entry on the way is
    reported with its type. *)
Definition reported (a : bool) (cs d : list str) (s : F) : Prop := ∀ q c r, d = q ++ c :: r →
  f_access (spell a (cs ++ q)) s = true ∧
  ∃ l ty, f_opendir (spell a (cs ++ q)) s = Some l ∧ (ty, c) ∈ l ∧ ty ≠ DT_UNKNOWN.

Lemma reported_nil a cs s : reported a cs [] s.
Proof. intros q c r Hq. by destruct q. Qed.

Lemma reported_cons a cs c d s : reported a cs (c :: d) s ↔
  f_access (spell a cs) s = true ∧ (∃ l ty, f_opendir (spell a cs) s = Some l ∧ (ty, c) ∈ l ∧ ty ≠ DT_UNKNOWN) ∧
  reported a (cs ++ [c]) d s.
Proof.
  split.
  - intros Hr. destruct (Hr [] c d eq_refl) as [? ?]. rewrite app_nil_r in *. split_and!; [done..|].
    intros q e r ->. rewrite <- app_assoc. by apply (Hr (c :: q) e r).
  - intros (?&?&Hr) q e r Hq. destruct q as [|b q]; injection Hq as -> ->; [by rewrite app_nil_r|].
    specialize (Hr q e r eq_refl). by rewrite <- app_assoc in Hr.
Qed.

(** The files [ListAllFile] finds at or below [k], by their texts. *)
Definition wanted (a : bool) (cs : list str) (k : loc) (subfix : str) (s : F) (f : str) : Prop :=
  ∃ d, d ≠ [] ∧ f = spell a (cs ++ d) ∧ tree s !! (k ++ d) = Some Reg ∧ (∃ w, last d = Some (w ++ subfix)) ∧
    reported a cs d s.

(** What one entry adds. *)
Definition adds (a : bool) (cs : list str) (k : loc) (subfix : str) (s : F) (ty : Z) (c : str) (new : list str) : Prop :=
  NoDup new ∧ ∀ f, f ∈ new ↔ ∃ d, f = spell a (cs ++ c :: d) ∧ tree s !! (k ++ c :: d) = Some Reg ∧
    (∃ w, last (c :: d) = Some (w ++ subfix)) ∧ ty ≠ DT_UNKNOWN ∧ reported a (cs ++ [c]) d s.

Lemma adds_none a cs k subfix s ty c : (∀ d, tree s !! (k ++ c :: d) = Some Reg → ty = DT_UNKNOWN) →
  adds a cs k subfix s ty c [].
Proof.
  intros H. split; [by constructor|]. intros f. split; [by intros ?%not_elem_of_nil|].
  intros (d&_&Hd&_&Hty&_). by apply H in Hd.
Qed.

Lemma adds_file a cs k subfix s c : closed (tree s) → tree s !! (k ++ [c]) = Some Reg →
  adds a cs k subfix s DT_REG c (if has_subfix c subfix then [spell a (cs ++ [c])] else []).
Proof.
  intros Hcl Hk. split; [destruct (has_subfix c subfix); [apply NoDup_singleton|constructor]|]. intros f. split.
  - destruct (has_subfix c subfix) eqn:E; [|by intros ?%not_elem_of_nil]. intros ->%list_elem_of_singleton.
    apply has_subfix_spec in E as [w ->]. exists []. split_and!; [done..| |done|apply reported_nil]. by exists w.
  - intros (d&->&Hx&(w&Hw)&_). destruct d as [|e d].
    + injection Hw as ->. rewrite (proj2 (has_subfix_spec _ _)) by (by eexists). by apply list_elem_of_singleton.
    + replace (k ++ c :: e :: d) with ((k ++ [c]) ++ e :: d) in Hx by (by rewrite <- app_assoc).
      destruct (closed_below _ _ _ _ Hcl Hx) as [x Hx']; [done|]. congruence.
Qed.

Lemma list_entry_adds visit a cs k s subfix files ty c n :
  named cwd a cs k → closed (tree s) → name c → tree s !! (k ++ [c]) = Some n → ty = dirent_type n ∨ ty = DT_UNKNOWN →
  (is_dir n = true → ∃ new, visit (spell a (cs ++ [c])) files = Some (files ++ new) ∧ NoDup new ∧
     ∀ f, f ∈ new ↔ wanted a (cs ++ [c]) (k ++ [c]) subfix s f) →
  ∃ new, list_entry visit (spell a cs) subfix files (ty, c) = Some (files ++ new) ∧
    adds a cs k subfix s ty c new.
Proof.
  intros Hn Hcl Hc Hk Hty Hv. unfold list_entry. rewrite (spell_below _ _ _ _ c Hn), (name_not_dots _ Hc).
  destruct Hty as [-> | ->]; [|exists []; rewrite app_nil_r; split; [done|by apply adds_none]].
  assert (is_dir n = false → n ≠ Reg → ∀ d, tree s !! (k ++ c :: d) = Some Reg → dirent_type n = DT_UNKNOWN) as Hother.
  { intros Hd Hr d Hx. destruct d as [|e d]; [congruence|].
    replace (k ++ c :: e :: d) with ((k ++ [c]) ++ e :: d) in Hx by (by rewrite <- app_assoc).
    destruct (closed_below _ _ _ _ Hcl Hx) as [x Hx']; [done|]. rewrite Hk in Hx'. by injection Hx' as ->. }
  destruct n as [x| | | | | |]; cbn [dirent_type DT_DIR DT_REG Z.eqb Pos.eqb];
    try (exists []; rewrite app_nil_r; split; [done|by apply adds_none, Hother]).
  - destruct (Hv eq_refl) as (new&->&Hnd&Hin). exists new. split; [done|]. split; [done|]. intros f. rewrite Hin.
    unfold wanted. split.
    + intros (d&Hd&->&Hx&(w&Hw)&Hr). rewrite <- app_assoc in Hx. exists d. rewrite <- app_assoc.
      split_and!; [done|done| |done|done]. exists w. by destruct d.
    + intros (d&->&Hx&(w&Hw)&_&Hr). assert (d ≠ []) as Hd by (intros ->; congruence). exists d. rewrite <- !app_assoc.
      split_and!; [done|done|done| |done]. exists w. by destruct d.
  - pose proof (adds_file a cs k subfix s c Hcl Hk) as Ha. destruct subfix as [|h subfix].
    + rewrite (proj2 (has_subfix_spec c [])) in Ha by (exists c; by rewrite app_nil_r). by eexists.
    + destruct (has_subfix c (h :: subfix)); eexists; (split; [|done]); [done|by rewrite app_nil_r].
Qed.

Lemma names_below k cs ds t n : closed t → Forall name cs → t !! (k ++ ds) = Some n → Forall name (cs ++ ds).
Proof.
  intros Hcl Hcs He. apply Forall_app. split; [done|]. clear Hcs.
  revert k He. induction ds as [|x l IH]; intros k He; [constructor|].
  constructor; [by destruct (closed_child _ _ _ _ _ Hcl He)|]. apply (IH (k ++ [x])). by rewrite <- app_assoc.
Qed.

Lemma list_entries_adds visit a cs k s subfix files l :
  named cwd a cs k → closed (tree s) → entries_of (tree s) k l →
  (∀ ty c x files, (ty, c) ∈ l → is_dots c = false → tree s !! (k ++ [c]) = Some (Dir x) →
     ∃ new, visit (spell a (cs ++ [c])) files = Some (files ++ new) ∧ NoDup new ∧
     ∀ f, f ∈ new ↔ wanted a (cs ++ [c]) (k ++ [c]) subfix s f) →
  ∃ new, list_entries visit (spell a cs) subfix files l = Some (files ++ new) ∧ NoDup new ∧
    ∀ f, f ∈ new ↔ ∃ ty c d, (ty, c) ∈ l ∧ is_dots c = false ∧ f = spell a (cs ++ c :: d) ∧
      tree s !! (k ++ c :: d) = Some Reg ∧ (∃ w, last (c :: d) = Some (w ++ subfix)) ∧ ty ≠ DT_UNKNOWN ∧
      reported a (cs ++ [c]) d s.
Proof.
  intros Hn Hcl [Hnd Hent _ Hdots]. revert files. induction l as [|[ty c] l IH]; intros files Hv.
  { exists []. rewrite app_nil_r. split; [done|]. split; [constructor|]. intros f. split; [by intros ?%not_elem_of_nil|].
    by intros (?&?&?&?%not_elem_of_nil&_). }
  cbn [fmap list_fmap snd] in Hnd. apply NoDup_cons in Hnd as [Hnotin Hnd].
  specialize (λ files, IH Hnd (λ ty c H, Hent ty c (list_elem_of_further _ _ _ H))
    (λ ty c H, Hdots ty c (list_elem_of_further _ _ _ H)) files (λ ty c x files H, Hv ty c x files (list_elem_of_further _ _ _ H))).
  cbn [list_entries]. destruct (is_dots c) eqn:Hd.
  - assert (list_entry visit (spell a cs) subfix files (ty, c) = Some files) as ->.
    { unfold list_entry. rewrite Hd. destruct (Hdots ty c) as [-> | ->]; [by left|done|done|done]. }
    destruct (IH files) as (new&->&Hn1&Hin). exists new. split; [done|]. split; [done|]. intros f. rewrite Hin. split.
    + intros (ty'&c'&d&H&?). exists ty', c', d. split; [by right|done].
    + intros (ty'&c'&d&[Heq|H]%elem_of_cons&?&?); [injection Heq as -> ->; congruence|]. by exists ty', c', d.
  - destruct (Hent ty c) as (Hc&n&Hk&Hty); [by left|done|].
    destruct (list_entry_adds visit a cs k s subfix files ty c n Hn Hcl Hc Hk Hty) as (new1&->&Hnd1&Hin1).
    { intros Hdir. destruct n as [x| | | | | |]; try done. apply (Hv ty c x files); [by left|done|done]. }
    destruct (IH (files ++ new1)) as (new2&->&Hnd2&Hin2). exists (new1 ++ new2). rewrite <- app_assoc. split; [done|]. split.
    + apply NoDup_app. split; [done|]. split; [|done]. intros f (d&->&Hx&_)%Hin1 (ty'&c'&d'&Hl&Hd'&Hf&Hx'&_)%Hin2.
      destruct Hn as (_&Hnm&_).
      assert (cs ++ c :: d = cs ++ c' :: d') as Heq.
      { apply (spell_inj a); [by destruct cs|by destruct cs|by eapply names_below|by eapply names_below|done]. }
      apply app_inv_head in Heq. injection Heq as <- <-. apply Hnotin. apply list_elem_of_fmap. by exists (ty', c).
    + intros f. rewrite elem_of_app, Hin1, Hin2. split.
      * intros [(d&?)|(ty'&c'&d&?&?)]; [by exists ty, c, d; split; [left|]|exists ty', c', d; split; [by right|done]].
      * intros (ty'&c'&d&[Heq|H]%elem_of_cons&Hd'&Hrest); [|right; by exists ty', c', d].
        injection Heq as -> ->. left. by exists d.
Qed.

Lemma ListAllFile_finds fuel a cs k s subfix files :
  named cwd a cs k → clear_way (tree s) k → closed (tree s) → (0 < fuel)%nat →
  (∀ d n, tree s !! (k ++ d) = Some n → (length d < fuel)%nat) → tree s !! k ≠ Some Lnk →
  ∃ new, ListAllFile fuel subfix s (spell a cs) files = Some (files ++ new) ∧ NoDup new ∧
  ∀ f, f ∈ new ↔ wanted a cs k subfix s f.
Proof.
  revert a cs k files. induction fuel as [|fuel IH]; intros a cs k files Hn Hw Hc Hf Hfuel Hlnk; [lia|].
  cbn [ListAllFile]. rewrite (named_c_str _ _ _ _ Hn).
  assert ((∀ f, ¬ wanted a cs k subfix s f) → ∃ new, Some files = Some (files ++ new) ∧ NoDup new ∧
    ∀ f, f ∈ new ↔ wanted a cs k subfix s f) as Hempty.
  { intros Hx. exists []. rewrite app_nil_r. split; [done|]. split; [constructor|]. intros f.
    split; [by intros ?%not_elem_of_nil|]. by intros ?%Hx. }
  destruct (f_access (spell a cs) s) eqn:Ea; cbn [negb].
  2:{ apply Hempty. intros f (d&Hd&_&_&_&Hr). destruct d as [|c d]; [done|]. apply reported_cons in Hr as [? _]. congruence. }
  destruct (access_true _ _ _ _ Hn Hw Ea) as [n Hk].
  destruct (f_opendir (spell a cs) s) as [l|] eqn:Eo.
  2:{ apply Hempty. intros f (d&Hd&_&_&_&Hr). destruct d as [|c d]; [done|].
      apply reported_cons in Hr as (_&(l&ty&?&_)&_). congruence. }
  destruct (is_dir n) eqn:Hd; [|rewrite (opendir_not_dir a cs k s n) in Eo; try done; congruence].
  destruct n as [x| | | | | |]; try done. pose proof (opendir_dir _ _ _ _ _ _ Hn Hw Hk Eo) as Hl.
  destruct (list_entries_adds (ListAllFile fuel subfix s) a cs k s subfix files l Hn Hc Hl) as (new&->&Hnd&Hin).
  { intros ty c y files' Hi Hdots Hkc. destruct (eo_sound _ _ _ Hl ty c Hi Hdots) as (Hnc&_).
    apply IH; [by apply named_below|by eapply clear_way_below|done| | |congruence].
    - specialize (Hfuel [c] _ Hkc). cbn in Hfuel. lia.
    - intros d n Hd'. rewrite <- app_assoc in Hd'. specialize (Hfuel (c :: d) n Hd'). cbn in Hfuel. lia. }
  exists new. split; [done|]. split; [done|]. intros f. rewrite Hin. split.
  - intros (ty&c&d&?&_&?&?&?&?&?). exists (c :: d). split_and!; try done. apply reported_cons. split_and!; try done.
    by exists l, ty.
  - intros (d&Hd'&->&Hreg&Hlast&Hr). destruct d as [|c d]; [done|].
    apply reported_cons in Hr as (_&(l'&ty&El&?&?)&?). rewrite Eo in El. injection El as <-.
    destruct (closed_child _ _ _ _ _ Hc Hreg) as [Hnc _]. exists ty, c, d. split_and!; try done. by apply name_not_dots.
Qed.

(** Where every call is permitted and every directory may be searched, all entries
    are reported. *)
Lemma permits_reported `{!FileSystemPermits F} a cs k d n s :
  named cwd a cs k → open_way (tree s) k → closed (tree s) → permits s →
  (∀ d, tree s !! (k ++ d) ≠ Some (Dir false)) → tree s !! (k ++ d) = Some n → reported a cs d s.
Proof.
  revert cs k. induction d as [|c d IH]; intros cs k Hn Ho Hc Hp Hvis Hd; [apply reported_nil|].
  destruct (closed_below _ _ _ _ Hc Hd) as [x Hk]; [done|].
  assert (x = true) as -> by (destruct x; [done|]; destruct (Hvis []); by rewrite app_nil_r).
  destruct (closed_child _ _ _ _ _ Hc Hd) as [Hnc [m Hm]]. apply reported_cons. split_and!.
  - destruct (f_access (spell a cs) s) eqn:Ea; [done|].
    destruct (permits_access _ _ _ _ Hn Hp Ho Ea); congruence.
  - destruct (permits_opendir _ _ _ _ _ Hn Hp Ho Hk) as (l&Eo&Hty).
    destruct (eo_complete _ _ _ (opendir_dir _ _ _ _ _ _ Hn (open_clear _ _ Ho) Hk Eo) c m Hnc Hm) as [ty Hin].
    exists l, ty. split_and!; [done..|]. rewrite (Hty ty c m Hin (name_not_dots c Hnc) Hm). by destruct m.
  - apply (IH (cs ++ [c]) (k ++ [c])); [by apply named_below|by apply open_way_below|done|done| |by rewrite <- app_assoc].
    intros e. rewrite <- app_assoc. apply Hvis.
Qed.

End Listing.

Section Results.
Context {F : Type} {FS : FileSystem F} {FL : FileSystemLaws F}.

(** C23. [Rm] of a path in spelled form that goes through no link, with fuel for
    the depth of the tree, returns and touches nothing but what lies at or below the
    path: entries there may be gone, the others are as they were.  When [lstat] sees
    the path, the result [true] means that everything at and below it is gone,
    although the result of one entry overwrites that of the one before it and
    entries [lstat] cannot see count as removed: a directory that still has an
    entry makes [rmdir] fail.  When [lstat] fails on the path, for whatever reason,
    [Rm] returns [true] and has done nothing: the entry may still be there. *)
Theorem Rm_correct fuel a cs k s :
  named cwd a cs k → clear_way (tree s) k → closed (tree s) → (0 < fuel)%nat →
  (∀ d n, tree s !! (k ++ d) = Some n → (length d < fuel)%nat) →
  ∃ b s', Rm fuel (spell a cs) s = Some (b, s') ∧ closed (tree s') ∧ tree s' ⊆ tree s ∧
  (∀ q, ¬ (k `prefix_of` q) → tree s' !! q = tree s !! q) ∧
  (is_Some (f_lstat (spell a cs) s) → b = true →
     ∀ q, tree s' !! q = if bool_decide (k `prefix_of` q) then None else tree s !! q) ∧
  (f_lstat (spell a cs) s = None → b = true ∧ s' = s).
Proof.
  intros Hn Hw Hc Hf Hfuel. destruct (Rm_spec fuel a cs k s Hn Hw Hc Hf Hfuel) as (b&s'&E&[??]&?&?&Hb).
  exists b, s'. split_and!; try done. intros Hl Hb' q. by rewrite (Hb Hb' Hl), without_lookup.
Qed.

(** [st_mode & S_IFDIR] holds of sockets and block devices, which [opendir]
    refuses: [Rm] leaves them and returns [false]. *)
Lemma Rm_socket fuel a cs k s n :
  named cwd a cs k → clear_way (tree s) k → is_Some (f_lstat (spell a cs) s) →
  tree s !! k = Some n → n = Sock ∨ n = Blk →
  Rm (S fuel) (spell a cs) s = Some (false, s).
Proof.
  intros Hn Hw [m El] Hk Hs. cbn [Rm]. rewrite (named_c_str _ _ _ _ Hn), El.
  destruct (lstat_some _ _ _ _ _ Hn Hw El) as (n'&Hk'&Hm). rewrite Hk in Hk'. injection Hk' as <-.
  rewrite (mode_dir _ _ Hm), (opendir_not_dir a cs k s n); by destruct Hs as [-> | ->].
Qed.

(** A path with a zero byte inside: the calls see the text before it, so [Rm] of
    each entry sees the directory again; it never returns. *)
Lemma Rm_embedded_zero fuel p w l m s :
  ("000"%char ∉ p) → f_lstat p s = Some m → Z.land m S_IFDIR ≠ 0 → f_opendir p s = Some l →
  existsb (λ dp, negb (is_dots dp.2)) l = true → Rm fuel (p ++ "000"%char :: w) s = None.
Proof.
  intros Hz Hl Hm Ho He. revert w. induction fuel as [|fuel IH]; intros w; [done|]. cbn [Rm].
  assert (Http.c_str (p ++ "000"%char :: w) = p) as ->.
  { clear -Hz. induction p as [|c p IH]; [done|]. apply not_elem_of_cons in Hz as [Hc Hz]. cbn [app Http.c_str].
    destruct (Ascii.eqb_spec c zero); [by subst|]. by rewrite IH. }
  rewrite Hl, Ho, (proj2 (Z.eqb_neq _ _) Hm).
  assert (∀ l ret, existsb (λ dp, negb (is_dots dp.2)) l = true → rm_entries (Rm fuel) (p ++ "000"%char :: w) l ret s = None) as ->; [|done|done].
  clear -IH. intros l. induction l as [|[ty c] l IHl]; intros ret He; [done|]. cbn [rm_entries]. cbn [existsb snd] in He.
  destruct (is_dots c); cbn [negb orb] in He; [by apply IHl|].
  unfold below. rewrite <- app_assoc. change (("000"%char :: w) ++ slash ++ c) with ("000"%char :: (w ++ slash ++ c)). by rewrite IH.
Qed.

(** [Mv] clears its target first: moving a file onto itself loses it. *)
Lemma Mv_itself fuel a cs k s b s' :
  named cwd a cs k → clear_way (tree s) k → closed (tree s) → (0 < fuel)%nat →
  is_Some (f_lstat (spell a cs) s) →
  (∀ d n, tree s !! (k ++ d) = Some n → (length d < fuel)%nat) →
  Mv fuel (spell a cs) (spell a cs) s = Some (b, s') →
  b = false ∧ (∀ s1, Rm fuel (spell a cs) s = Some (true, s1) → tree s' = without k (tree s)).
Proof.
  intros Hn Hw Hc Hf Hl Hfuel. destruct (Rm_spec fuel a cs k s Hn Hw Hc Hf Hfuel) as (b1&s1&E&[Hsub _]&_&_&Hb).
  unfold Mv. rewrite E. destruct b1; [|intros [= <- <-]; split; [done|]; intros; congruence].
  specialize (Hb eq_refl Hl). rewrite (named_c_str _ _ _ _ Hn). intros Er.
  assert (tree s1 !! k = None) as Habs by (by rewrite Hb, without_lookup, bool_decide_eq_true_2).
  pose proof (rename_absent a cs k (spell a cs) s1 Hn (clear_way_sub _ _ _ Hsub Hw) Habs) as Hfalse.
  destruct (f_rename (spell a cs) (spell a cs) s1) as [b2 s2] eqn:E2. cbn in Hfalse. subst b2. injection Er as <- <-.
  split; [done|]. intros s3 [= <-]. by rewrite (rename_false _ _ _ _ E2).
Qed.

(** [Mv] of a tree to a place outside it, when it succeeds: what was below [from]
    is below [to], in place of what was there ([lstat] must see [to] if it exists). *)
Lemma Mv_moves fuel a cs k a' cs' k' s s' :
  named cwd a cs k → named cwd a' cs' k' → clear_way (tree s) k → clear_way (tree s) k' → closed (tree s) →
  (f_lstat (spell a' cs') s = None → tree s !! k' = None) → ¬ (k' `prefix_of` k) → (0 < fuel)%nat →
  (∀ d n, tree s !! (k' ++ d) = Some n → (length d < fuel)%nat) →
  Mv fuel (spell a cs) (spell a' cs') s = Some (true, s') →
  is_Some (tree s !! k) ∧ (∀ r, ¬ (k' `prefix_of` (k ++ r)) → tree s' !! (k' ++ r) = tree s !! (k ++ r)) ∧
  ∀ q, ¬ (k' `prefix_of` q) → tree s' !! q = without k (tree s) !! q.
Proof.
  intros Hn Hn' Hw Hw' Hc Hl Hdis Hf Hfuel.
  destruct (Rm_spec fuel a' cs' k' s Hn' Hw' Hc Hf Hfuel) as (b1&s1&E&[Hsub Hout]&Hc1&Hno&Hb).
  unfold Mv. rewrite E. destruct b1; [|by intros [=]]. specialize (Hb eq_refl).
  rewrite (named_c_str _ _ _ _ Hn), (named_c_str _ _ _ _ Hn'). intros [= Er].
  assert (tree s1 !! k' = None) as Habs.
  { destruct (f_lstat (spell a' cs') s); [|by destruct (Hno eq_refl) as [_ ->]; apply Hl].
    by rewrite Hb, without_lookup, bool_decide_eq_true_2. }
  destruct (rename_true a cs k a' cs' k' s1 s' Hn Hn') as (Hsome&_&Hmoved&Hrest); try done.
  { by eapply clear_way_sub. } { by eapply clear_way_sub. }
  split; [by rewrite <- (Hout k)|]. split.
  - intros r Hr. rewrite Hmoved. by apply Hout.
  - intros q Hq. rewrite Hrest by done. rewrite !without_lookup. case_bool_decide; [done|]. by apply Hout.
Qed.

(** [Symlink], when it succeeds: a link in place of what was at [to]. *)
Lemma Symlink_links fuel from a cs k s s' :
  named cwd a cs k → clear_way (tree s) k → closed (tree s) → (0 < fuel)%nat →
  (∀ d n, tree s !! (k ++ d) = Some n → (length d < fuel)%nat) →
  Symlink fuel from (spell a cs) s = Some (true, s') → tree s' = <[k := Lnk]> (without k (tree s)).
Proof.
  intros Hn Hw Hc Hf Hfuel. destruct (Rm_spec fuel a cs k s Hn Hw Hc Hf Hfuel) as (b1&s1&E&[Hsub _]&_&Hno&Hb).
  unfold Symlink. rewrite E. destruct b1; [|by intros [=]]. specialize (Hb eq_refl).
  rewrite (named_c_str _ _ _ _ Hn). intros [= Es].
  destruct (symlink_true _ _ _ _ _ _ Hn (clear_way_sub _ _ _ Hsub Hw) Es) as [Habs ->].
  destruct (f_lstat (spell a cs) s); [by rewrite Hb|]. destruct (Hno eq_refl) as [_ ->]. by rewrite without_absent.
Qed.

(** [Mkdir] returns; the only entries it adds are directories on the way to its
    path, nothing is removed, and when it returns [true] the path exists. *)
Theorem Mkdir_correct a cs k s :
  named cwd a cs k → clear_way (tree s) k → closed (tree s) →
  ∃ b s', Mkdir (spell a cs) s = Ret b s' ∧ closed (tree s') ∧ tree s ⊆ tree s' ∧
  (∀ q n, tree s' !! q = Some n → tree s !! q = None → q `prefix_of` k ∧ ∃ x, n = Dir x) ∧
  (b = true → is_Some (tree s' !! k)).
Proof.
  intros Hn Hw Hc. destruct (Mkdir_spec a cs k s Hn Hw Hc) as (b&s'&?&[??]&?&?). exists b, s'. by split_and!.
Qed.

(** [Mkdir] is content with anything of that name, a regular file included; with no
    name at all it reads past the end of its copy of the path. *)
Lemma Mkdir_existing `{!FileSystemPermits F} a cs k s n :
  named cwd a cs k → permits s → open_way (tree s) k → tree s !! k = Some n → Mkdir (spell a cs) s = Ret true s.
Proof.
  intros Hn Hp Ho Hk. unfold Mkdir, __lstat. rewrite (named_c_str _ _ _ _ Hn).
  destruct (f_lstat (spell a cs) s) eqn:El; [done|]. pose proof (permits_lstat _ _ _ _ Hn Hp Ho El). congruence.
Qed.

Lemma Mkdir_empty s : f_lstat [] s = None → Mkdir [] s = UB.
Proof. intros El. unfold Mkdir, __lstat. cbn [Http.c_str]. by rewrite El. Qed.

Context {FP : FileSystemPermits F}.

(** Where every call is permitted and nothing at or below the path is a socket,
    a block device or an unsearchable directory, [Rm] returns [true]. *)
Theorem Rm_removes fuel a cs k s :
  named cwd a cs k → open_way (tree s) k → closed (tree s) → permits s → (0 < fuel)%nat →
  (∀ d n, tree s !! (k ++ d) = Some n → (length d < fuel)%nat) → removable k (tree s) →
  ∃ s', Rm fuel (spell a cs) s = Some (true, s') ∧ tree s' = without k (tree s).
Proof. intros. destruct (Rm_succeeds fuel a cs k s) as (s'&?&_&_&?); try done. by exists s'. Qed.

(** C24. The files [ListAllFile] finds below a path in spelled form that goes
    through no link, with fuel for the depth: it appends to [files], once each and
    with nothing else, the texts of the regular files below the path, at any depth,
    whose names end in [subfix] and which are [reported]: [access] and [opendir]
    succeed on every directory on the way, and [readdir] gives the type of every
    entry on the way ([DT_UNKNOWN] entries are passed over).  Where every call is
    permitted and every directory may be searched, these are all the regular files
    with the suffix. *)
Theorem ListAllFile_correct fuel a cs k s subfix files :
  named cwd a cs k → clear_way (tree s) k → closed (tree s) → (0 < fuel)%nat →
  (∀ d n, tree s !! (k ++ d) = Some n → (length d < fuel)%nat) → tree s !! k ≠ Some Lnk →
  ∃ new, ListAllFile fuel subfix s (spell a cs) files = Some (files ++ new) ∧ NoDup new ∧
  (∀ f, f ∈ new ↔ ∃ d, d ≠ [] ∧ f = spell a (cs ++ d) ∧ tree s !! (k ++ d) = Some Reg ∧
    (∃ w, last d = Some (w ++ subfix)) ∧ reported a cs d s) ∧
  (permits s → open_way (tree s) k → (∀ d, tree s !! (k ++ d) ≠ Some (Dir false)) →
   ∀ f, f ∈ new ↔ ∃ d, d ≠ [] ∧ f = spell a (cs ++ d) ∧ tree s !! (k ++ d) = Some Reg ∧
    ∃ w, last d = Some (w ++ subfix)).
Proof.
  intros Hn Hw Hc Hf Hfuel Hlnk.
  destruct (ListAllFile_finds fuel a cs k s subfix files Hn Hw Hc Hf Hfuel Hlnk) as (new&E&Hnd&Hin).
  exists new. split; [done|]. split; [done|]. split; [exact Hin|]. intros Hp Ho Hvis f. rewrite Hin. split.
  - intros (d&?&?&?&?&_). by exists d.
  - intros (d&?&?&Hreg&?). exists d. split_and!; try done. by eapply permits_reported.
Qed.

(** [OpenForWrite] opens a file for writing even where the directories that lead
    to it do not exist yet, and leaves everything that exists in place. *)
Theorem OpenForWrite_correct a cs c k s mode :
  named cwd a cs k → name c → permits s → closed (tree s) → fits (spell a (cs ++ [c])) →
  free_way (tree s) (k ++ [c]) → tree s !! (if a then [] else cwd) = Some (Dir true) →
  tree s !! (k ++ [c]) = None ∨ tree s !! (k ++ [c]) = Some Reg →
  ∃ s', OpenForWrite None (spell a (cs ++ [c])) mode s = Ret (true, Some (spell a (cs ++ [c]))) s' ∧
    is_Some (tree s' !! (k ++ [c])) ∧ tree s ⊆ tree s'.
Proof. apply OpenForWrite_opens. Qed.

End Results.

End FSUtil.

(** ** The file system that is a map

    An instance of the interface: the state is the map itself, the working
    directory its root, and every call is permitted. *)
Module TreeFs.
Import FSUtil.

Definition parent_is_dir (k : loc) (t : fstree) : bool :=
  match k with
  | [] => false
  | _ => match t !! (removelast k) with Some (Dir _) => true | _ => false end
  end.

Definition child_of (k : loc) (qn : loc * node) : option (str * node) :=
  match last qn.1 with
  | Some c => if bool_decide (qn.1 = k ++ [c]) then Some (c, qn.2) else None
  | None => None
  end.
Definition children (k : loc) (t : fstree) : list (str * node) := omap (child_of k) (map_to_list t).

Definition relocate (k k' : loc) (t : fstree) : fstree :=
  list_to_map ((λ qn, (k' ++ drop (length k) qn.1, qn.2)) <$> filter (λ qn, k `prefix_of` qn.1) (map_to_list t)).

Definition add_entry (k : loc) (n : node) (t : fstree) : bool * fstree :=
  if bool_decide (t !! k = None) && parent_is_dir k t then (true, <[k := n]> t) else (false, t).

#[export] Instance tree_fs : FileSystem fstree := {|
  f_access p t := bool_decide (is_Some (t !! names_of p));
  f_lstat p t := match p with [] => None | _ => file_type <$> t !! names_of p end;
  f_mkdir p _ t := add_entry (names_of p) (Dir true) t;
  f_unlink p t :=
    match t !! names_of p with
    | Some n => if is_dir n then (false, t) else (true, delete (names_of p) t)
    | None => (false, t)
    end;
  f_rmdir p t :=
    match t !! names_of p with
    | Some (Dir _) => if children (names_of p) t is [] then (true, delete (names_of p) t) else (false, t)
    | _ => (false, t)
    end;
  f_rename p p' t :=
    let k := names_of p in let k' := names_of p' in
    if bool_decide (is_Some (t !! k)) && bool_decide (t !! k' = None) && negb (bool_decide (k `prefix_of` k')) && parent_is_dir k' t
    then (true, relocate k k' t ∪ without k (without k' t)) else (false, t);
  f_symlink _ p' t := add_entry (names_of p') Lnk t;
  f_opendir p t :=
    match t !! names_of p with
    | Some (Dir _) =>
        Some ((DT_DIR, dot) :: (DT_DIR, dotdot) ::
          ((λ cn, (dirent_type cn.2, cn.1)) <$> filter (λ cn, name cn.1) (children (names_of p) t)))
    | _ => None
    end;
  f_realpath p t := Some p;
  f_content p t := if bool_decide (t !! names_of p = Some Reg) then Some [] else None;
  f_open_write p _ t :=
    match t !! names_of p with
    | None => add_entry (names_of p) Reg t
    | Some (Dir _) | Some Lnk => (false, t)
    | Some _ => (true, t)
    end;
  f_kill _ _ _ := false;
|}.

Lemma children_spec k t c n : (c, n) ∈ children k t ↔ t !! (k ++ [c]) = Some n.
Proof.
  unfold children. rewrite list_elem_of_omap. split.
  - intros ([q m]&Hq&Hc). apply elem_of_map_to_list in Hq. unfold child_of in Hc. cbn in Hc.
    destruct (last q) as [e|]; [|done]. case_bool_decide; [|done]. by simplify_eq.
  - intros Hl. exists (k ++ [c], n). split; [by apply elem_of_map_to_list|].
    unfold child_of. cbn [fst snd]. by rewrite last_snoc, bool_decide_eq_true_2.
Qed.

Lemma children_nodup k t : NoDup (children k t).*1.
Proof.
  unfold children. pose proof (NoDup_fst_map_to_list t) as Hnd. induction (map_to_list t) as [|[q n] l IH]; [constructor|].
  cbn [fmap list_fmap fst] in Hnd. apply NoDup_cons in Hnd as [Hnotin Hnd]. cbn [omap list_omap].
  destruct (child_of k (q, n)) as [[c m]|] eqn:E; [|by apply IH]. cbn [fmap list_fmap fst]. constructor; [|by apply IH].
  intros ([e m']&He&Hin)%list_elem_of_fmap. cbn in He. subst e. apply list_elem_of_omap in Hin as ([q' n']&Hin&E').
  apply Hnotin. apply list_elem_of_fmap. exists (q', n'). split; [|done].
  unfold child_of in E, E'. cbn in *. destruct (last q), (last q'); try done. repeat case_bool_decide; try done. by simplify_eq.
Qed.

Lemma names_of_named a cs k : named [] a cs k → names_of (spell a cs) = k ∧ spell a cs ≠ [].
Proof.
  intros (Hne&Hn&->). rewrite names_of_spell by done. split; [by destruct a|].
  intros Hs. pose proof (names_of_spell a cs Hne Hn) as H. rewrite Hs in H. by destruct cs.
Qed.

Lemma parent_is_dir_spec k t : parent_is_dir k t = true ↔ ∃ q c x, k = q ++ [c] ∧ t !! q = Some (Dir x).
Proof.
  unfold parent_is_dir. destruct k as [|e k]; [split; [done|by intros ([]&?&?&?&?)]|].
  destruct (exists_last (l := e :: k)) as (q&c&E); [done|]. rewrite E, removelast_last. split.
  - intros H. destruct (t !! q) as [[x| | | | | |]|] eqn:Et; try done. by exists q, c, x.
  - intros (q'&c'&x&Hq&Ht). apply app_inj_tail in Hq as [-> ->]. by rewrite Ht.
Qed.

Lemma add_entry_true k n t t' : add_entry k n t = (true, t') →
  t !! k = None ∧ (∃ q c x, k = q ++ [c] ∧ t !! q = Some (Dir x)) ∧ t' = <[k := n]> t.
Proof.
  unfold add_entry. case_bool_decide as Hk; cbn [andb]; [|done]. destruct (parent_is_dir k t) eqn:Hp; [|done].
  intros [= <-]. split; [done|]. split; [by apply parent_is_dir_spec|done].
Qed.

Lemma add_entry_false k n t t' : add_entry k n t = (false, t') → t' = t.
Proof. unfold add_entry. destruct (_ && _); intros [=]; done. Qed.

Lemma relocate_lookup k k' t r : relocate k k' t !! (k' ++ r) = t !! (k ++ r).
Proof.
  unfold relocate. set (l := (λ qn : loc * node, (k' ++ drop (length k) qn.1, qn.2)) <$> filter (λ qn, k `prefix_of` qn.1) (map_to_list t)).
  assert (∀ q n, (q, n) ∈ l ↔ ∃ d, q = k' ++ d ∧ t !! (k ++ d) = Some n) as Hl.
  { intros q n. unfold l. rewrite list_elem_of_fmap. split.
    - intros ([p m]&[= -> ->]&[[d Hp] Hin]%list_elem_of_filter). apply elem_of_map_to_list in Hin. cbn [fst snd] in *. subst p.
      exists d. by rewrite drop_app_length.
    - intros (d&->&Hd). exists (k ++ d, n). cbn [fst snd]. rewrite drop_app_length. split; [done|].
      apply list_elem_of_filter. split; [by eexists|]. by apply elem_of_map_to_list. }
  assert (NoDup l.*1) as Hnd.
  { unfold l. pose proof (NoDup_fst_map_to_list t) as H. clear Hl l. induction (map_to_list t) as [|[p m] l IH]; [constructor|].
    cbn [fmap list_fmap fst] in H. apply NoDup_cons in H as [Hnotin H]. rewrite filter_cons.
    case_decide as Hp; [|by apply IH]. cbn [fmap list_fmap fst snd]. constructor; [|by apply IH].
    intros ([p' m']&He&Hin)%list_elem_of_fmap. apply list_elem_of_fmap in Hin as ([p2 m2]&[= -> ->]&[[d2 Hp2] Hin]%list_elem_of_filter).
    cbn [fst snd] in *. destruct Hp as [d Hp]. subst p p2. rewrite !drop_app_length in He. apply app_inv_head in He. subst d2.
    apply Hnotin. apply list_elem_of_fmap. by exists (k ++ d, m2). }
  destruct (t !! (k ++ r)) as [n|] eqn:E.
  - apply elem_of_list_to_map_1; [done|]. apply Hl. by exists r.
  - apply not_elem_of_list_to_map_1. intros ([q m]&Hq&Hin)%list_elem_of_fmap. cbn in Hq. subst q.
    apply Hl in Hin as (d&Hd&Hin). apply app_inv_head in Hd. congruence.
Qed.

Lemma relocate_other k k' t q : ¬ (k' `prefix_of` q) → relocate k k' t !! q = None.
Proof.
  intros Hq. unfold relocate. apply not_elem_of_list_to_map_1. intros ([p m]&Hp&Hin)%list_elem_of_fmap. cbn in Hp. subst p.
  apply list_elem_of_fmap in Hin as ([p2 m2]&[= -> ->]&_). apply Hq. by eexists.
Qed.

Lemma opendir_entries k t x l :
  t !! k = Some (Dir x) →
  l = (DT_DIR, dot) :: (DT_DIR, dotdot) :: ((λ cn : str * node, (dirent_type cn.2, cn.1)) <$> filter (λ cn, name cn.1) (children k t)) →
  entries_of t k l ∧ ∀ ty c n, (ty, c) ∈ l → is_dots c = false → t !! (k ++ [c]) = Some n → ty = dirent_type n.
Proof.
  intros Hk Hl.
  assert (∀ ty c, is_dots c = false → (ty, c) ∈ l ↔ name c ∧ ∃ n, t !! (k ++ [c]) = Some n ∧ ty = dirent_type n) as Hin.
  { intros ty c Hd. rewrite Hl, !elem_of_cons, list_elem_of_fmap. split.
    - intros [[= -> ->]|[[= -> ->]|([e n]&[= -> ->]&[Hn Hc]%list_elem_of_filter)]]; [done|done|].
      split; [done|]. exists n. by rewrite <- children_spec.
    - intros (Hn&n&Hc&->). right; right. exists (c, n). split; [done|]. apply list_elem_of_filter.
      by rewrite children_spec. }
  split; [constructor|].
  - rewrite Hl. cbn [fmap list_fmap snd]. rewrite <- list_fmap_compose.
    assert (∀ c, c ∈ (snd ∘ (λ cn : str * node, (dirent_type cn.2, cn.1)) <$> filter (λ cn, name cn.1) (children k t)) → name c) as Hnm.
    { intros c ([e n]&->&[Hn _]%list_elem_of_filter)%list_elem_of_fmap. done. }
    repeat constructor.
    + intros [Heq|Hi]%elem_of_cons; [done|]. by destruct (Hnm _ Hi) as (_&_&_&?&_).
    + intros Hi. by destruct (Hnm _ Hi) as (_&_&_&_&?).
    + eapply sublist_NoDup; [apply (children_nodup k t)|].
      apply (fmap_sublist fst), sublist_filter.
  - intros ty c Hi Hd. destruct (proj1 (Hin ty c Hd) Hi) as (?&n&?&?). split; [done|]. exists n. auto.
  - intros c n Hn Hc. exists (dirent_type n). apply Hin; [by apply name_not_dots|]. split; [done|by exists n].
  - intros ty c Hi Hd. left. rewrite Hl, !elem_of_cons, list_elem_of_fmap in Hi.
    destruct Hi as [[= -> ->]|[[= -> ->]|([e n]&[= -> ->]&[Hn _]%list_elem_of_filter)]]; [done|done|].
    cbn in Hd, Hn. by rewrite (name_not_dots _ Hn) in Hd.
  - intros ty c n Hi Hd Hc. destruct (proj1 (Hin ty c Hd) Hi) as (_&m&?&->). congruence.
Qed.

#[export] Program Instance tree_fs_laws : FileSystemLaws fstree := {| tree t := t; cwd := [] |}.
Next Obligation.
  intros a cs k t m Hn _ Hl. destruct (names_of_named _ _ _ Hn) as [E Hne]. cbn in Hl. rewrite E in Hl.
  destruct (spell a cs); [done|]. apply fmap_Some in Hl as (n&Hk&->). exists n. split; [done|]. by destruct n.
Qed.
Next Obligation.
  intros a cs k t Hn _ Hl. destruct (names_of_named _ _ _ Hn) as [E _]. cbn in Hl. rewrite E in Hl. by apply bool_decide_eq_true in Hl.
Qed.
Next Obligation.
  intros a cs k m t t' Hn _ Hl. destruct (names_of_named _ _ _ Hn) as [E _]. cbn in Hl. rewrite E in Hl.
  destruct (add_entry_true _ _ _ _ Hl) as (?&?&?). split_and!; [done|done|by exists true].
Qed.
Next Obligation. intros p m t t' Hl. by apply add_entry_false in Hl. Qed.
Next Obligation.
  intros a cs k t t' Hn _ Hl. destruct (names_of_named _ _ _ Hn) as [E _]. cbn in Hl. rewrite E in Hl.
  destruct (t !! k) as [n|]; [|done]. destruct (is_dir n) eqn:Hd; [done|]. injection Hl as <-. split; [by exists n|done].
Qed.
Next Obligation. intros p t t' Hl. cbn in Hl. destruct (t !! names_of p) as [n|]; [destruct (is_dir n)|]; by simplify_eq. Qed.
Next Obligation.
  intros a cs k t t' Hn _ Hl. destruct (names_of_named _ _ _ Hn) as [E _]. cbn in Hl. rewrite E in Hl.
  destruct (t !! k) as [[x| | | | | |]|]; try done. destruct (children k t) eqn:Hch; [|done]. injection Hl as <-.
  split; [by exists x|]. split; [|done]. intros c _. apply eq_None_not_Some. intros [n Hc].
  apply children_spec in Hc. rewrite Hch in Hc. by apply not_elem_of_nil in Hc.
Qed.
Next Obligation.
  intros p t t' Hl. cbn in Hl. destruct (t !! names_of p) as [[x| | | | | |]|]; [destruct (children (names_of p) t)|..]; by simplify_eq.
Qed.
Next Obligation.
  intros a cs k t x l Hn _ Hk Hl. destruct (names_of_named _ _ _ Hn) as [E _]. cbn in Hl. rewrite E, Hk in Hl. injection Hl as <-.
  by apply (opendir_entries k t x _ Hk).
Qed.
Next Obligation.
  intros a cs k t n Hn _ Hk Hd _. destruct (names_of_named _ _ _ Hn) as [E _]. cbn. rewrite E, Hk. by destruct n.
Qed.
Next Obligation.
  intros a cs k a' cs' k' t t' Hn Hn' _ _ Hk' Hl. destruct (names_of_named _ _ _ Hn) as [E _].
  destruct (names_of_named _ _ _ Hn') as [E' _]. cbn in Hl. rewrite E, E' in Hl.
  case_bool_decide; [|done]. case_bool_decide; [|done]. case_bool_decide; [done|]. cbn in Hl.
  destruct (parent_is_dir k' t); [|done]. injection Hl as <-. split; [done|]. split; [done|]. split.
  - intros r. destruct (t !! (k ++ r)) as [n|] eqn:Er.
    + apply lookup_union_Some_l. by rewrite relocate_lookup.
    + apply lookup_union_None. rewrite relocate_lookup. split; [done|]. rewrite !without_lookup.
      case_bool_decide; [done|]. rewrite bool_decide_eq_true_2; [done|by eexists].
  - intros q Hq. rewrite lookup_union_r by (by apply relocate_other). rewrite !without_lookup.
    by rewrite (bool_decide_eq_false_2 (k' `prefix_of` q)).
Qed.
Next Obligation. intros p p' t t' Hl. cbn in Hl. destruct (_ && _); by simplify_eq. Qed.
Next Obligation.
  intros a cs k p' t Hn _ Hk. destruct (names_of_named _ _ _ Hn) as [E _]. cbn. rewrite E, Hk. by rewrite bool_decide_eq_false_2 by (by intros []).
Qed.
Next Obligation.
  intros p a cs k t t' Hn _ Hl. destruct (names_of_named _ _ _ Hn) as [E _]. cbn in Hl. rewrite E in Hl.
  by destruct (add_entry_true _ _ _ _ Hl) as (?&_&?).
Qed.
Next Obligation. intros p p' t t' Hl. by apply add_entry_false in Hl. Qed.
Next Obligation.
  intros a cs k m t t' Hn _ Hlnk Hl. destruct (names_of_named _ _ _ Hn) as [E _]. cbn in Hl. rewrite E in Hl.
  destruct (t !! k) as [n|] eqn:Hk.
  - assert (is_dir n = false ∧ t' = t) as [Hd ->] by (destruct n; by simplify_eq). split; [by intros x [= ->]|]. left. by split; [|eexists].
  - destruct (add_entry_true _ _ _ _ Hl) as (?&_&->). split; [done|by right].
Qed.
Next Obligation.
  intros p m t t' Hl. cbn in Hl. destruct (t !! names_of p) as [[]|]; try by simplify_eq. by apply add_entry_false in Hl.
Qed.

#[export] Program Instance tree_fs_permits : FileSystemPermits fstree := {| permits t := True |}.
Next Obligation.
  intros a cs k t Hn _ _ Hl. destruct (names_of_named _ _ _ Hn) as [E Hne]. cbn in Hl. rewrite E in Hl.
  destruct (spell a cs); [done|]. by apply fmap_None in Hl.
Qed.
Next Obligation.
  intros a cs k t Hn _ _ Hl. destruct (names_of_named _ _ _ Hn) as [E _]. cbn in Hl. rewrite E in Hl.
  apply bool_decide_eq_false in Hl. left. by apply eq_None_not_Some.
Qed.
Next Obligation.
  intros a cs k q c x m t Hn _ _ Hk Hq Hd. destruct (names_of_named _ _ _ Hn) as [E _]. cbn [tree tree_fs_laws] in *. exists (<[k := Dir true]> t).
  split; [|done]. cbn. rewrite E. unfold add_entry. rewrite bool_decide_eq_true_2 by done.
  by rewrite (proj2 (parent_is_dir_spec k t)) by (by exists q, c, x).
Qed.
Next Obligation.
  intros a cs k n t Hn _ _ Hk Hd. destruct (names_of_named _ _ _ Hn) as [E _]. cbn [tree tree_fs_laws] in *. exists (delete k t). split; [|done].
  cbn. by rewrite E, Hk, Hd.
Qed.
Next Obligation.
  intros a cs k x t Hn _ _ Hk Hno. destruct (names_of_named _ _ _ Hn) as [E _]. cbn [tree tree_fs_laws] in *. exists (delete k t). split; [|done].
  cbn. rewrite E, Hk. destruct (children k t) as [|[c n] l] eqn:Hch; [done|].
  assert (t !! (k ++ [c]) = Some n) as Hc by (apply children_spec; rewrite Hch; by left). by rewrite Hno in Hc.
Qed.
Next Obligation.
  intros a cs k x t Hn _ _ Hk. destruct (names_of_named _ _ _ Hn) as [E _]. cbn [tree tree_fs_laws] in *. cbn. rewrite E, Hk. eexists. split; [done|].
  by apply (opendir_entries k t x _ Hk).
Qed.
Next Obligation.
  intros a cs k q c x m t Hn _ _ Hq Hd Hk. destruct (names_of_named _ _ _ Hn) as [E _]. cbn [tree tree_fs_laws] in *. cbn. rewrite E.
  destruct Hk as [Hk|Hk]; rewrite Hk; [|by exists t]. exists (<[k := Reg]> t). split; [|done].
  unfold add_entry. rewrite bool_decide_eq_true_2 by done. by rewrite (proj2 (parent_is_dir_spec k t)) by (by exists q, c, x).
Qed.
Next Obligation. done. Qed.

(** ** A tree to try the operations on *)

Definition closedb (t : fstree) : bool :=
  forallb (λ qn : loc * node, match last qn.1 with
    | None => true
    | Some c => bool_decide (name c) && parent_is_dir qn.1 t
    end) (map_to_list t).

Lemma closedb_closed t : closedb t = true → closed t.
Proof.
  intros Hb k c n Hk. unfold closedb in Hb. rewrite forallb_forall in Hb.
  specialize (Hb (k ++ [c], n) (proj1 (list_elem_of_In _ _) (proj2 (elem_of_map_to_list _ _ _) Hk))).
  cbn [fst] in Hb. rewrite last_snoc in Hb. apply andb_prop in Hb as [Hn Hp]. apply bool_decide_eq_true in Hn.
  apply parent_is_dir_spec in Hp as (q&e&x&Hq&Hx). apply app_inj_tail in Hq as [-> ->]. split; [done|by exists x].
Qed.

Definition plain_node (n : node) : Prop := n ≠ Lnk ∧ n ≠ Dir false ∧ n ≠ Sock ∧ n ≠ Blk.
Definition plain_tree (t : fstree) : Prop := map_Forall (λ _ n, plain_node n) t.

Lemma plain_open t k : plain_tree t → open_way t k.
Proof. intros Hp q d _ _. split; intros Hq; by destruct (Hp _ _ Hq) as (?&?&_). Qed.

Lemma plain_removable t k : plain_tree t → removable k t.
Proof. intros Hp d n Hq. by destruct (Hp _ _ Hq) as (?&?&?&?). Qed.

Lemma depth_below (t : fstree) k b : map_Forall (λ q _, (length q < b)%nat) t → ∀ d n, t !! (k ++ d) = Some n → (length d < b)%nat.
Proof. intros H d n Hd. pose proof (H _ _ Hd) as H'. cbn in H'. rewrite length_app in H'. lia. Qed.

Definition disk : fstree := list_to_map [
  ([], Dir true); ([of_lit "etc"], Dir true); ([of_lit "tmp"], Dir true);
  ([of_lit "tmp"; of_lit "y.txt"], Reg); ([of_lit "tmp"; of_lit "a"], Dir true);
  ([of_lit "tmp"; of_lit "a"; of_lit "x.log"], Reg) ].

Lemma disk_plain : plain_tree disk.
Proof. apply (bool_decide_unpack _). by vm_compute. Qed.

Lemma disk_closed : closed disk.
Proof. apply closedb_closed. by vm_compute. Qed.

Lemma disk_depth : map_Forall (λ q _, (length q < 4)%nat) disk.
Proof. apply (bool_decide_unpack _). by vm_compute. Qed.

Lemma disk_named : named [] true [of_lit "tmp"] [of_lit "tmp"].
Proof. split; [done|]. split; [|done]. apply (bool_decide_unpack _). by vm_compute. Qed.

Lemma Rm_correct_witness : ∃ b s', Rm 4 (spell true [of_lit "tmp"]) disk = Some (b, s') ∧ closed (tree s') ∧ tree s' ⊆ tree disk ∧
  (∀ q, ¬ ([of_lit "tmp"] `prefix_of` q) → tree s' !! q = tree disk !! q) ∧
  (is_Some (f_lstat (spell true [of_lit "tmp"]) disk) → b = true →
     ∀ q, tree s' !! q = if bool_decide ([of_lit "tmp"] `prefix_of` q) then None else tree disk !! q) ∧
  (f_lstat (spell true [of_lit "tmp"]) disk = None → b = true ∧ s' = disk).
Proof.
  apply (Rm_correct 4 true [of_lit "tmp"] [of_lit "tmp"] disk).
  - exact disk_named.
  - apply open_clear, plain_open, disk_plain.
  - exact disk_closed.
  - lia.
  - apply depth_below, disk_depth.
Defined.

Lemma Rm_removes_witness : ∃ s', Rm 4 (spell true [of_lit "tmp"]) disk = Some (true, s') ∧ tree s' = without [of_lit "tmp"] (tree disk).
Proof.
  apply (Rm_removes 4 true [of_lit "tmp"] [of_lit "tmp"] disk).
  - exact disk_named.
  - apply plain_open, disk_plain.
  - exact disk_closed.
  - done.
  - lia.
  - apply depth_below, disk_depth.
  - apply plain_removable, disk_plain.
Defined.

Lemma ListAllFile_correct_witness : ∃ new, ListAllFile 4 (of_lit ".log") disk (spell true [of_lit "tmp"]) [] = Some ([] ++ new) ∧ NoDup new ∧
  (∀ f, f ∈ new ↔ ∃ d, d ≠ [] ∧ f = spell true ([of_lit "tmp"] ++ d) ∧ tree disk !! ([of_lit "tmp"] ++ d) = Some Reg ∧
    (∃ w, last d = Some (w ++ of_lit ".log")) ∧ reported true [of_lit "tmp"] d disk) ∧
  (permits disk → open_way (tree disk) [of_lit "tmp"] → (∀ d, tree disk !! ([of_lit "tmp"] ++ d) ≠ Some (Dir false)) →
   ∀ f, f ∈ new ↔ ∃ d, d ≠ [] ∧ f = spell true ([of_lit "tmp"] ++ d) ∧ tree disk !! ([of_lit "tmp"] ++ d) = Some Reg ∧
    ∃ w, last d = Some (w ++ of_lit ".log")).
Proof.
  apply (ListAllFile_correct 4 true [of_lit "tmp"] [of_lit "tmp"] disk (of_lit ".log") []).
  - exact disk_named.
  - apply open_clear, plain_open, disk_plain.
  - exact disk_closed.
  - lia.
  - apply depth_below, disk_depth.
  - intros Hd. by destruct (disk_plain _ _ Hd) as (?&_).
Defined.

(** What the last part of the theorem asks for holds of the disk. *)
Lemma disk_permits : permits disk ∧ open_way (tree disk) [of_lit "tmp"] ∧ ∀ d, tree disk !! ([of_lit "tmp"] ++ d) ≠ Some (Dir false).
Proof.
  split; [done|]. split; [apply plain_open, disk_plain|]. intros d Hd. by destruct (disk_plain _ _ Hd) as (_&?&_).
Qed.

Lemma Mkdir_correct_witness : ∃ b s', Mkdir (spell true [of_lit "etc"; of_lit "b"; of_lit "c"]) disk = Ret b s' ∧ closed (tree s') ∧ tree disk ⊆ tree s' ∧
  (∀ q n, tree s' !! q = Some n → tree disk !! q = None → q `prefix_of` [of_lit "etc"; of_lit "b"; of_lit "c"] ∧ ∃ x, n = Dir x) ∧
  (b = true → is_Some (tree s' !! [of_lit "etc"; of_lit "b"; of_lit "c"])).
Proof.
  apply (Mkdir_correct true [of_lit "etc"; of_lit "b"; of_lit "c"] [of_lit "etc"; of_lit "b"; of_lit "c"] disk).
  - split; [done|]. split; [|done]. apply (bool_decide_unpack _). by vm_compute.
  - apply open_clear, plain_open, disk_plain.
  - exact disk_closed.
Defined.

Lemma OpenForWrite_correct_witness : ∃ s', OpenForWrite None (spell true ([of_lit "etc"; of_lit "b"] ++ [of_lit "f"])) 2 disk =
    Ret (true, Some (spell true ([of_lit "etc"; of_lit "b"] ++ [of_lit "f"]))) s' ∧
  is_Some (tree s' !! ([of_lit "etc"; of_lit "b"] ++ [of_lit "f"])) ∧ tree disk ⊆ tree s'.
Proof.
  apply (OpenForWrite_correct true [of_lit "etc"; of_lit "b"] (of_lit "f") [of_lit "etc"; of_lit "b"] disk 2).
  - split; [done|]. split; [|done]. apply (bool_decide_unpack _). by vm_compute.
  - apply (bool_decide_unpack _). by vm_compute.
  - done.
  - exact disk_closed.
  - by vm_compute.
  - intros q d Hq Hd. cbn [tree tree_fs_laws]. destruct (disk !! q) as [n|] eqn:E; [|by left]. right.
    destruct (exists_last Hd) as (d'&e&->). rewrite app_assoc in Hq. apply app_inj_tail in Hq as [Hq _].
    destruct q as [|q0 [|q1 [|]]]; cbn in Hq; simplify_eq; vm_compute in E; congruence.
  - by vm_compute.
  - left. by vm_compute.
Defined.

(** The loss of [Mv_itself], run. *)
Example Mv_itself_run : (λ r, (r.1, r.2 !! [of_lit "etc"])) <$> Mv 4 (of_lit "/etc") (of_lit "/etc") disk = Some (false, None).
Proof. by vm_compute. Qed.

Example list_run : ListAllFile 4 (of_lit ".log") disk (of_lit "/tmp") [] = Some [of_lit "/tmp/a/x.log"].
Proof. by vm_compute. Qed.

End TreeFs.
