(* ===== verification/Yamljson.v ===== *)
(** * Yamljson: between YAML and JSON (YamlToJson, JsonToYaml of src/bobliew/util.cc)

    The two conversions, over the interfaces of yaml-cpp (Yaml.v) and jsoncpp
    (Jsonutil.v) with the members they build values with ([YamlBuild],
    [JsonBuild]).  What a node and a value are is their shape, a tree of text,
    sequences and maps; [YamlShape] and [JsonShape] say what each member does to
    shapes.  [YamlToJson_correct] and [JsonToYaml_correct]: the conversions
    terminate, succeed, and compute [to_json] and [to_yaml] on shapes.
    [json_yaml_roundtrip]: what is left of a JSON value that goes through YAML. *)
From Stdlib Require Import Sorted.
From S2P Require Import Prelude Util Yaml Jsonutil Logconf.
Import StdString JsonUtil.
#[local] Open Scope list_scope.
#[local] Open Scope Z_scope.
#[local] Set Warnings "-clear-no-such-hyp,-register-all".

(** What the conversions use of the libraries beyond Yaml.v and Jsonutil.v.
    [None] is an exception. *)
Class YamlBuild {Y : Yaml} := {
  IsSequence : node → bool;
  (** [n = text] *)
  of_text : list ascii → node;
}.

Class JsonBuild {J : Json} := {
  (** a default-constructed value, and [Json::Value v(text)] *)
  jnull : value;
  of_string : list ascii → value;
  (** [j.append(v)] and [j[name] = v] *)
  append : value → value → option value;
  set_member : value → list ascii → value → option value;
  isArray : value → bool;
  isObject : value → bool;
  jsize : value → nat;
  jat : value → nat → value;
  (** names and values from [j.begin()] to [j.end()] *)
  members : value → list (list ascii * value);
}.

Module YamlJson.

Abbreviation str := (list ascii).

Section Conversions.
Context {Y : Yaml} {YB : YamlBuild} {J : Json} {JB : JsonBuild}.

(** The loop over a sequence: [conv] converts an element into a fresh value.  An
    exception ([None] inside) is caught by the function and makes it [false]. *)
Fixpoint append_all (conv : node → option (bool * value)) (elements : list (option node)) (jnode : value)
    : option (bool * value) :=
  match elements with
  | [] => Some (true, jnode)
  | None :: _ => Some (false, jnode)
  | Some n :: elements =>
      match conv n with
      | None => None
      | Some (false, _) => Some (false, jnode)
      | Some (true, v) =>
          match append jnode v with
          | None => Some (false, jnode)
          | Some jnode => append_all conv elements jnode
          end
      end
  end.

Fixpoint set_all (conv : node → option (bool * value)) (entries : list (str * node)) (jnode : value)
    : option (bool * value) :=
  match entries with
  | [] => Some (true, jnode)
  | (name, n) :: entries =>
      match conv n with
      | None => None
      | Some (false, _) => Some (false, jnode)
      | Some (true, v) =>
          match set_member jnode name v with
          | None => Some (false, jnode)
          | Some jnode => set_all conv entries jnode
          end
      end
  end.

(** [YamlToJson(ynode, jnode)]: the result and [jnode] after it.  The fuel bounds
    the depth of the recursion. *)
Fixpoint YamlToJson (fuel : nat) (ynode : node) (jnode : value) : option (bool * value) :=
  match fuel with
  | O => None
  | S fuel =>
      if IsScalar ynode then Some (true, of_string (Scalar ynode))
      else if IsSequence ynode then
        append_all (λ n, YamlToJson fuel n jnull) (at_index ynode <$> seq 0 (size ynode)) jnode
      else if IsMap ynode then
        set_all (λ n, YamlToJson fuel n jnull) (pairs ynode) jnode
      else Some (true, jnode)
  end.

Fixpoint push_all (conv : value → option (bool * node)) (elements : list value) (ynode : node)
    : option (bool * node) :=
  match elements with
  | [] => Some (true, ynode)
  | v :: elements =>
      match conv v with
      | None => None
      | Some (false, _) => Some (false, ynode)
      | Some (true, n) => push_all conv elements (push_back ynode n)
      end
  end.

Fixpoint index_all (conv : value → option (bool * node)) (entries : list (str * value)) (ynode : node)
    : option (bool * node) :=
  match entries with
  | [] => Some (true, ynode)
  | (name, v) :: entries =>
      match conv v with
      | None => None
      | Some (false, _) => Some (false, ynode)
      | Some (true, n) => index_all conv entries (set_node ynode name n)
      end
  end.

(** [JsonToYaml(jnode, ynode)] *)
Fixpoint JsonToYaml (fuel : nat) (jnode : value) (ynode : node) : option (bool * node) :=
  match fuel with
  | O => None
  | S fuel =>
      if isArray jnode then
        push_all (λ v, JsonToYaml fuel v Null) (jat jnode <$> seq 0 (jsize jnode)) ynode
      else if isObject jnode then
        index_all (λ v, JsonToYaml fuel v Null) (members jnode) ynode
      else
        match asString jnode with
        | Some text => Some (true, of_text text)
        | None => Some (false, ynode)
        end
  end.

End Conversions.

(** ** Shapes *)

Inductive ytree :=
| YNull
| YScalar (text : str)
| YSeq (l : list ytree)
| YMap (l : list (str * ytree)).

(** Numbers and booleans of JSON count by their text. *)
Inductive jtree :=
| JNull
| JScalar (text : str)
| JArray (l : list jtree)
| JObject (l : list (str * jtree)).

Fixpoint yheight (t : ytree) : nat :=
  match t with
  | YSeq l => S (foldr (λ x, Nat.max (yheight x)) 0%nat l)
  | YMap l => S (foldr (λ p, Nat.max (yheight p.2)) 0%nat l)
  | _ => 0
  end.
Fixpoint jheight (t : jtree) : nat :=
  match t with
  | JArray l => S (foldr (λ x, Nat.max (jheight x)) 0%nat l)
  | JObject l => S (foldr (λ p, Nat.max (jheight p.2)) 0%nat l)
  | _ => 0
  end.

(** The members of an object are kept in the order of their names. *)
Fixpoint put_member {A} (name : str) (v : A) (l : list (str * A)) : list (str * A) :=
  match l with
  | [] => [(name, v)]
  | (k, w) :: l =>
      if bool_decide (name = k) then (name, v) :: l
      else if LogConf.str_lt name k then (name, v) :: (k, w) :: l
      else (k, w) :: put_member name v l
  end.

(** An empty sequence or map leaves the value it is converted into as it was. *)
Fixpoint to_json (t : ytree) : jtree :=
  match t with
  | YNull => JNull
  | YScalar s => JScalar s
  | YSeq [] => JNull
  | YSeq l => JArray (to_json <$> l)
  | YMap [] => JNull
  | YMap l => JObject (foldl (λ o p, put_member p.1 p.2 o) [] ((λ p, (p.1, to_json p.2)) <$> l))
  end.

Fixpoint to_yaml (t : jtree) : ytree :=
  match t with
  | JNull => YScalar []
  | JScalar s => YScalar s
  | JArray [] => YNull
  | JArray l => YSeq (to_yaml <$> l)
  | JObject [] => YNull
  | JObject l => YMap ((λ p, (p.1, to_yaml p.2)) <$> l)
  end.

(** Objects have their members in the order of their names, each name once. *)
Definition name_lt (p q : str * jtree) : Prop := LogConf.str_lt p.1 q.1 = true.
Inductive jwf : jtree → Prop :=
| jwf_null : jwf JNull
| jwf_scalar s : jwf (JScalar s)
| jwf_array l : Forall jwf l → jwf (JArray l)
| jwf_object l : StronglySorted name_lt l → Forall (λ p, jwf p.2) l → jwf (JObject l).

(** What the trip through YAML makes of a JSON value: text, with no empty
    containers. *)
Fixpoint normal (t : jtree) : jtree :=
  match t with
  | JNull => JScalar []
  | JScalar s => JScalar s
  | JArray [] => JNull
  | JArray l => JArray (normal <$> l)
  | JObject [] => JNull
  | JObject l => JObject ((λ p, (p.1, normal p.2)) <$> l)
  end.

(** What yaml-cpp's members do to shapes. *)
Class YamlShape {Y : Yaml} {YB : YamlBuild} := {
  yshape : node → ytree;
  yshape_Null : yshape Null = YNull;
  yshape_text s : yshape (of_text s) = YScalar s;
  IsScalar_shape n : IsScalar n = match yshape n with YScalar _ => true | _ => false end;
  IsSequence_shape n : IsSequence n = match yshape n with YSeq _ => true | _ => false end;
  IsMap_shape n : IsMap n = match yshape n with YMap _ => true | _ => false end;
  Scalar_shape n s : yshape n = YScalar s → Scalar n = s;
  seq_shape n l : yshape n = YSeq l → ∃ ns, at_index n <$> seq 0 (size n) = Some <$> ns ∧ yshape <$> ns = l;
  map_shape n l : yshape n = YMap l → (λ p, (p.1, yshape p.2)) <$> pairs n = l;
  push_null n m : yshape n = YNull → yshape (push_back n m) = YSeq [yshape m];
  push_seq n l m : yshape n = YSeq l → yshape (push_back n m) = YSeq (l ++ [yshape m]);
  set_null n key m : yshape n = YNull → yshape (set_node n key m) = YMap [(key, yshape m)];
  set_map n l key m : yshape n = YMap l → key ∉ l.*1 → yshape (set_node n key m) = YMap (l ++ [(key, yshape m)]);
}.

(** What jsoncpp's members do to shapes. *)
Class JsonShape {J : Json} {JB : JsonBuild} := {
  jshape : value → jtree;
  jshape_null : jshape jnull = JNull;
  jshape_string s : jshape (of_string s) = JScalar s;
  isArray_shape v : isArray v = match jshape v with JArray _ => true | _ => false end;
  isObject_shape v : isObject v = match jshape v with JObject _ => true | _ => false end;
  array_shape v l : jshape v = JArray l → jshape <$> (jat v <$> seq 0 (jsize v)) = l;
  object_shape v l : jshape v = JObject l → (λ p, (p.1, jshape p.2)) <$> members v = l;
  asString_null v : jshape v = JNull → asString v = Some [];
  asString_scalar v s : jshape v = JScalar s → asString v = Some s;
  append_null v w : jshape v = JNull → ∃ v', append v w = Some v' ∧ jshape v' = JArray [jshape w];
  append_array v l w : jshape v = JArray l → ∃ v', append v w = Some v' ∧ jshape v' = JArray (l ++ [jshape w]);
  append_other v w : (match jshape v with JNull | JArray _ => false | _ => true end) = true → append v w = None;
  member_null v k w : jshape v = JNull → ∃ v', set_member v k w = Some v' ∧ jshape v' = JObject [(k, jshape w)];
  member_object v l k w : jshape v = JObject l → ∃ v', set_member v k w = Some v' ∧ jshape v' = JObject (put_member k (jshape w) l);
  member_other v k w : (match jshape v with JNull | JObject _ => false | _ => true end) = true → set_member v k w = None;
}.

Lemma str_lt_trans a b c : LogConf.str_lt a b = true → LogConf.str_lt b c = true → LogConf.str_lt a c = true.
Proof.
  revert b c. induction a as [|x a IH]; intros [|y b] [|z c] H1 H2; cbn in *; try done.
  apply orb_true_iff in H1 as [H1|[H1 H1']%andb_prop], H2 as [H2|[H2 H2']%andb_prop];
    rewrite ?Z.ltb_lt, ?Z.eqb_eq in *; apply orb_true_iff; [left; apply Z.ltb_lt; lia..|].
  right. rewrite H1, H2, Z.eqb_refl. by apply (IH b).
Qed.

Lemma sorted_nodup l : StronglySorted name_lt l → NoDup l.*1.
Proof.
  induction 1 as [|p l Hs IH Hall]; [constructor|]. cbn. constructor; [|done].
  intros (q&Hq&Hin)%list_elem_of_fmap. pose proof (proj1 (Forall_forall _ _) Hall q Hin) as Hlt.
  unfold name_lt in Hlt. by rewrite Hq, LogConf.str_lt_irrefl in Hlt.
Qed.

Section Correct.
Context {Y : Yaml} {YB : YamlBuild} {YS : YamlShape} {J : Json} {JB : JsonBuild} {JS : JsonShape}.

Lemma append_all_array conv f ns j l :
  jshape j = JArray l → (∀ n, n ∈ ns → ∃ v, conv n = Some (true, v) ∧ jshape v = f (yshape n)) →
  ∃ j', append_all conv (Some <$> ns) j = Some (true, j') ∧ jshape j' = JArray (l ++ (f <$> (yshape <$> ns))).
Proof.
  revert j l. induction ns as [|n ns IH]; intros j l Hj Hconv; [exists j; by rewrite app_nil_r|].
  cbn [append_all fmap list_fmap]. destruct (Hconv n) as (v&->&Hv); [by left|].
  destruct (append_array j l v Hj) as (j1&->&Hj1).
  destruct (IH j1 _ Hj1) as (j'&->&Hj'); [intros; apply Hconv; by right|]. exists j'. split; [done|].
  rewrite Hj', Hv, <- app_assoc. done.
Qed.

Lemma append_all_null conv f ns j :
  jshape j = JNull → (∀ n, n ∈ ns → ∃ v, conv n = Some (true, v) ∧ jshape v = f (yshape n)) →
  ∃ j', append_all conv (Some <$> ns) j = Some (true, j') ∧
    jshape j' = match ns with [] => JNull | _ => JArray (f <$> (yshape <$> ns)) end.
Proof.
  intros Hj Hconv. destruct ns as [|n ns]; [by exists j|].
  cbn [append_all fmap list_fmap]. destruct (Hconv n) as (v&->&Hv); [by left|].
  destruct (append_null j v Hj) as (j1&->&Hj1).
  destruct (append_all_array conv f ns j1 _ Hj1) as (j'&->&Hj'); [intros; apply Hconv; by right|].
  exists j'. split; [done|]. by rewrite Hj', Hv.
Qed.

Lemma set_all_object conv f ps j l :
  jshape j = JObject l → (∀ p, p ∈ ps → ∃ v, conv p.2 = Some (true, v) ∧ jshape v = f (yshape p.2)) →
  ∃ j', set_all conv ps j = Some (true, j') ∧
    jshape j' = JObject (foldl (λ o p, put_member p.1 p.2 o) l ((λ p, (p.1, f (yshape p.2))) <$> ps)).
Proof.
  revert j l. induction ps as [|[k n] ps IH]; intros j l Hj Hconv; [by exists j|].
  cbn [set_all fmap list_fmap foldl fst snd]. destruct (Hconv (k, n)) as (v&E&Hv); [by left|]. cbn [snd] in E, Hv. rewrite E.
  destruct (member_object j l k v Hj) as (j1&->&Hj1).
  destruct (IH j1 _ Hj1) as (j'&->&Hj'); [intros; apply Hconv; by right|]. exists j'. split; [done|].
  by rewrite Hj', Hv.
Qed.

Lemma set_all_null conv f ps j :
  jshape j = JNull → (∀ p, p ∈ ps → ∃ v, conv p.2 = Some (true, v) ∧ jshape v = f (yshape p.2)) →
  ∃ j', set_all conv ps j = Some (true, j') ∧
    jshape j' = match ps with [] => JNull
      | _ => JObject (foldl (λ o p, put_member p.1 p.2 o) [] ((λ p, (p.1, f (yshape p.2))) <$> ps)) end.
Proof.
  intros Hj Hconv. destruct ps as [|[k n] ps]; [by exists j|].
  cbn [set_all fmap list_fmap foldl fst snd]. destruct (Hconv (k, n)) as (v&E&Hv); [by left|]. cbn [snd] in E, Hv. rewrite E.
  destruct (member_null j k v Hj) as (j1&->&Hj1).
  destruct (set_all_object conv f ps j1 _ Hj1) as (j'&->&Hj'); [intros; apply Hconv; by right|].
  exists j'. split; [done|]. by rewrite Hj', Hv.
Qed.

Lemma yheight_seq t l : t ∈ l → (yheight t < yheight (YSeq l))%nat.
Proof.
  intros Hin. cbn [yheight]. induction l as [|x l IH]; [by apply not_elem_of_nil in Hin|].
  cbn [foldr]. apply elem_of_cons in Hin as [->|Hin]; [|specialize (IH Hin)]; lia.
Qed.

Lemma yheight_map p l : p ∈ l → (yheight p.2 < yheight (YMap l))%nat.
Proof.
  intros Hin. cbn [yheight]. induction l as [|x l IH]; [by apply not_elem_of_nil in Hin|].
  cbn [foldr]. apply elem_of_cons in Hin as [->|Hin]; [|specialize (IH Hin)]; lia.
Qed.

Lemma jheight_array t l : t ∈ l → (jheight t < jheight (JArray l))%nat.
Proof.
  intros Hin. cbn [jheight]. induction l as [|x l IH]; [by apply not_elem_of_nil in Hin|].
  cbn [foldr]. apply elem_of_cons in Hin as [->|Hin]; [|specialize (IH Hin)]; lia.
Qed.

Lemma jheight_object p l : p ∈ l → (jheight p.2 < jheight (JObject l))%nat.
Proof.
  intros Hin. cbn [jheight]. induction l as [|x l IH]; [by apply not_elem_of_nil in Hin|].
  cbn [foldr]. apply elem_of_cons in Hin as [->|Hin]; [|specialize (IH Hin)]; lia.
Qed.

Lemma YamlToJson_shape fuel n j :
  (yheight (yshape n) < fuel)%nat → jshape j = JNull →
  ∃ j', YamlToJson fuel n j = Some (true, j') ∧ jshape j' = to_json (yshape n).
Proof.
  revert n j. induction fuel as [|fuel IH]; intros n j Hh Hj; [lia|].
  cbn [YamlToJson]. rewrite IsScalar_shape, IsSequence_shape, IsMap_shape.
  destruct (yshape n) as [|s|l|l] eqn:Hn.
  - by exists j.
  - rewrite (Scalar_shape n s Hn). eexists. split; [done|]. apply jshape_string.
  - destruct (seq_shape n l Hn) as (ns&->&Hl).
    destruct (append_all_null (λ n, YamlToJson fuel n jnull) to_json ns j Hj) as (j'&->&Hj').
    { intros m Hm. apply IH; [|apply jshape_null].
      assert (yheight (yshape m) < yheight (YSeq l))%nat; [|lia]. apply yheight_seq. rewrite <- Hl.
      apply list_elem_of_fmap. by exists m. }
    exists j'. split; [done|]. rewrite Hj', <- Hl. by destruct ns.
  - pose proof (map_shape n l Hn) as Hl.
    destruct (set_all_null (λ n, YamlToJson fuel n jnull) to_json (pairs n) j Hj) as (j'&->&Hj').
    { intros p Hp. apply IH; [|apply jshape_null].
      assert (yheight (yshape p.2) < yheight (YMap l))%nat; [|lia]. apply (yheight_map (p.1, yshape p.2)). rewrite <- Hl.
      apply list_elem_of_fmap. by exists p. }
    exists j'. split; [done|]. rewrite Hj', <- Hl. destruct (pairs n) as [|p ps]; [done|].
    cbn [to_json fmap list_fmap]. by rewrite <- list_fmap_compose.
Qed.

Lemma push_all_seq conv f vs n l :
  yshape n = YSeq l → (∀ v, v ∈ vs → ∃ m, conv v = Some (true, m) ∧ yshape m = f (jshape v)) →
  ∃ n', push_all conv vs n = Some (true, n') ∧ yshape n' = YSeq (l ++ (f <$> (jshape <$> vs))).
Proof.
  revert n l. induction vs as [|v vs IH]; intros n l Hn Hconv; [exists n; by rewrite app_nil_r|].
  cbn [push_all fmap list_fmap]. destruct (Hconv v) as (m&->&Hm); [by left|].
  destruct (IH (push_back n m) _ (push_seq n l m Hn)) as (n'&->&Hn'); [intros; apply Hconv; by right|].
  exists n'. split; [done|]. by rewrite Hn', Hm, <- app_assoc.
Qed.

Lemma index_all_map conv f ps n l :
  yshape n = YMap l → NoDup (l.*1 ++ ps.*1) →
  (∀ p, p ∈ ps → ∃ m, conv p.2 = Some (true, m) ∧ yshape m = f (jshape p.2)) →
  ∃ n', index_all conv ps n = Some (true, n') ∧ yshape n' = YMap (l ++ ((λ p, (p.1, f (jshape p.2))) <$> ps)).
Proof.
  revert n l. induction ps as [|[k v] ps IH]; intros n l Hn Hnd Hconv; [exists n; by rewrite app_nil_r|].
  cbn [index_all fmap list_fmap fst snd]. destruct (Hconv (k, v)) as (m&E&Hm); [by left|]. cbn [snd] in E, Hm. rewrite E.
  assert (k ∉ l.*1) as Hk.
  { apply NoDup_app in Hnd as (_&Hd&_). intros Hin. apply (Hd k Hin). by left. }
  destruct (IH (set_node n k m) _ (set_map n l k m Hn Hk)) as (n'&->&Hn').
  - rewrite fmap_app, <- app_assoc. done.
  - intros; apply Hconv; by right.
  - exists n'. split; [done|]. by rewrite Hn', Hm, <- app_assoc.
Qed.

Lemma JsonToYaml_shape fuel v n :
  (jheight (jshape v) < fuel)%nat → jwf (jshape v) → yshape n = YNull →
  ∃ n', JsonToYaml fuel v n = Some (true, n') ∧ yshape n' = to_yaml (jshape v).
Proof.
  revert v n. induction fuel as [|fuel IH]; intros v n Hh Hwf Hn; [lia|].
  cbn [JsonToYaml]. rewrite isArray_shape, isObject_shape. destruct (jshape v) as [|s|l|l] eqn:Hv.
  - rewrite (asString_null v Hv). eexists. split; [done|]. apply yshape_text.
  - rewrite (asString_scalar v s Hv). eexists. split; [done|]. apply yshape_text.
  - pose proof (array_shape v l Hv) as Hl. destruct (jat v <$> seq 0 (jsize v)) as [|w ws].
    { exists n. rewrite <- Hl. by rewrite Hn. }
    assert (∀ x, x ∈ w :: ws → ∃ m, JsonToYaml fuel x Null = Some (true, m) ∧ yshape m = to_yaml (jshape x)) as Hconv.
    { intros x Hx. assert (jshape x ∈ l) as Hxl by (rewrite <- Hl; apply list_elem_of_fmap; by exists x).
      apply IH; [|inversion Hwf as [| |? Hall|]; by apply (proj1 (Forall_forall _ _) Hall)|apply yshape_Null]. assert (jheight (jshape x) < jheight (JArray l))%nat; [|lia].
      by apply jheight_array. }
    cbn [push_all]. destruct (Hconv w) as (m&->&Hm); [by left|].
    destruct (push_all_seq (λ v, JsonToYaml fuel v Null) to_yaml ws (push_back n m) _ (push_null n m Hn)) as (n'&->&Hn');
      [intros; apply Hconv; by right|].
    exists n'. split; [done|]. by rewrite Hn', Hm, <- Hl.
  - pose proof (object_shape v l Hv) as Hl. inversion Hwf as [| | |? Hsort Hall]; subst l0.
    pose proof (sorted_nodup l Hsort) as Hnd. destruct (members v) as [|[k w] ps].
    { exists n. rewrite <- Hl. by rewrite Hn. }
    assert (∀ p, p ∈ (k, w) :: ps → ∃ m, JsonToYaml fuel p.2 Null = Some (true, m) ∧ yshape m = to_yaml (jshape p.2)) as Hconv.
    { intros p Hp. assert ((p.1, jshape p.2) ∈ l) as Hpl by (rewrite <- Hl; apply list_elem_of_fmap; by exists p).
      apply IH; [|exact (proj1 (Forall_forall _ _) Hall _ Hpl)|apply yshape_Null]. assert (jheight (jshape p.2) < jheight (JObject l))%nat; [|lia].
      by apply (jheight_object (p.1, jshape p.2)). }
    cbn [index_all]. destruct (Hconv (k, w)) as (m&E&Hm); [by left|]. cbn [snd] in E. rewrite E.
    destruct (index_all_map (λ v, JsonToYaml fuel v Null) to_yaml ps (set_node n k m) _ (set_null n k m Hn)) as (n'&->&Hn').
    { rewrite <- Hl in Hnd. cbn [fmap list_fmap fst] in *. by rewrite <- list_fmap_compose in Hnd. }
    { intros; apply Hconv; by right. }
    exists n'. split; [done|]. rewrite Hn', Hm, <- Hl. cbn [to_yaml fmap list_fmap fst snd].
    by rewrite <- list_fmap_compose.
Qed.

End Correct.

(** ** Round trips *)

Lemma put_member_last {A} name (v : A) l :
  Forall (λ p : str * A, LogConf.str_lt p.1 name = true) l → put_member name v l = l ++ [(name, v)].
Proof.
  induction 1 as [|[k w] l Hk Hall IH]; [done|]. cbn [put_member fst] in *.
  destruct (bool_decide_reflect (name = k)) as [->|_]; [by rewrite LogConf.str_lt_irrefl in Hk|].
  destruct (LogConf.str_lt name k) eqn:E.
  { pose proof (str_lt_trans _ _ _ E Hk) as H. by rewrite LogConf.str_lt_irrefl in H. }
  by rewrite IH.
Qed.

Lemma put_sorted_eq acc l :
  StronglySorted name_lt (acc ++ l) → foldl (λ o p, put_member p.1 p.2 o) acc l = acc ++ l.
Proof.
  revert acc. induction l as [|[k v] l IH]; intros acc Hs; [by rewrite app_nil_r|]. cbn [foldl fst snd].
  rewrite put_member_last.
  - rewrite IH; rewrite <- app_assoc; done.
  - clear IH. induction acc as [|p acc IH]; [constructor|]. cbn in Hs. apply StronglySorted_inv in Hs as [Hs Hall].
    constructor; [|by apply IH]. apply (proj1 (Forall_forall _ _) Hall (k, v)). apply elem_of_app. right. by left.
Qed.

Lemma put_member_wf name v l :
  StronglySorted name_lt l → StronglySorted name_lt (put_member name v l) ∧
  ∀ p : str * jtree, p ∈ put_member name v l → p = (name, v) ∨ p ∈ l.
Proof.
  induction 1 as [|[k w] l Hs [IH1 IH2] Hall].
  { cbn. split; [by repeat constructor|]. intros p [->|?%not_elem_of_nil]%elem_of_cons; [by left|done]. }
  cbn [put_member]. destruct (bool_decide_reflect (name = k)) as [->|Hne].
  { split; [by constructor|]. intros p [->|?]%elem_of_cons; [by left|right; by right]. }
  destruct (LogConf.str_lt name k) eqn:E.
  - split.
    + constructor; [by constructor|]. constructor; [done|]. eapply Forall_impl; [exact Hall|]. intros q Hq.
      exact (str_lt_trans _ _ _ E Hq).
    + intros p [->|?]%elem_of_cons; [by left|by right].
  - split.
    + constructor; [done|]. apply Forall_forall. intros q [->|Hq]%IH2; [|by apply (proj1 (Forall_forall _ _) Hall)].
      unfold name_lt. cbn. destruct (LogConf.str_lt k name) eqn:E'; [done|]. by destruct Hne, (LogConf.str_lt_eq name k).
    + intros p [->|[?|?]%IH2]%elem_of_cons; [right; by left|by left|right; by right].
Qed.

Lemma put_all_wf acc l :
  StronglySorted name_lt acc → Forall (λ p, jwf p.2) acc → Forall (λ p, jwf p.2) l →
  StronglySorted name_lt (foldl (λ o p, put_member p.1 p.2 o) acc l) ∧
  Forall (λ p, jwf p.2) (foldl (λ o p, put_member p.1 p.2 o) acc l).
Proof.
  revert acc. induction l as [|[k v] l IH]; intros acc Hs Hacc Hl; [done|]. cbn [foldl fst snd].
  apply Forall_cons in Hl as [Hv Hl]. destruct (put_member_wf k v acc Hs) as [Hs' Hin]. apply IH; [done| |done].
  apply Forall_forall. intros p [->|Hp]%Hin; [done|]. by apply (proj1 (Forall_forall _ _) Hacc).
Qed.

(** Every result of [YamlToJson] has its members in order. *)
Fixpoint to_json_wf t : jwf (to_json t).
Proof.
  destruct t as [|s|l|l]; cbn [to_json]; [constructor|constructor| |].
  - destruct l as [|x l]; [constructor|]. constructor. induction (x :: l) as [|y l' IH]; constructor; [apply to_json_wf|done].
  - destruct l as [|x l]; [constructor|].
    assert (Forall (λ p, jwf p.2) ((λ p, (p.1, to_json p.2)) <$> (x :: l))) as Hall.
    { induction (x :: l) as [|[k y] l' IH]; constructor; [apply to_json_wf|done]. }
    destruct (put_all_wf [] _ (SSorted_nil _) (Forall_nil_2 _) Hall) as [? ?]. by constructor.
Qed.

Fixpoint normal_spec t : jwf t → to_json (to_yaml t) = normal t.
Proof.
  intros Hwf. destruct t as [|s|l|l]; [done|done| |].
  - destruct l as [|x l]; [done|]. inversion Hwf as [| |? Hall|]; subst. cbn [to_yaml to_json normal fmap list_fmap].
    f_equal. change (to_json (to_yaml x) :: (to_json <$> (to_yaml <$> l))) with (to_json <$> (to_yaml <$> (x :: l))).
    change (normal x :: (normal <$> l)) with (normal <$> (x :: l)). clear Hwf.
    induction (x :: l) as [|y l' IH]; [done|]. apply Forall_cons in Hall as [Hy Hall]. cbn [fmap list_fmap].
    f_equal; [by apply normal_spec|by apply IH].
  - destruct l as [|x l]; [done|]. inversion Hwf as [| | |? Hs Hall]; subst.
    change (to_json (to_yaml (JObject (x :: l)))) with
      (JObject (foldl (λ o p, put_member p.1 p.2 o) [] ((λ p, (p.1, to_json p.2)) <$> ((λ p, (p.1, to_yaml p.2)) <$> (x :: l))))).
    change (normal (JObject (x :: l))) with (JObject ((λ p, (p.1, normal p.2)) <$> (x :: l))). f_equal.
    assert ((λ p : str * ytree, (p.1, to_json p.2)) <$> ((λ p : str * jtree, (p.1, to_yaml p.2)) <$> (x :: l))
      = (λ p, (p.1, normal p.2)) <$> (x :: l)) as ->.
    { clear Hwf Hs. induction (x :: l) as [|[k y] l' IH]; [done|]. apply Forall_cons in Hall as [Hy Hall]. cbn [fmap list_fmap fst snd].
      f_equal; [by rewrite (normal_spec y Hy)|by apply IH]. }
    apply (put_sorted_eq []). cbn [app]. clear Hwf Hall. induction Hs as [|p l' Hs IH Hall]; [constructor|].
    cbn [fmap list_fmap]. constructor; [done|]. clear -Hall. induction Hall; cbn [fmap list_fmap]; constructor; done.
Qed.

Lemma to_yaml_height t : (yheight (to_yaml t) ≤ jheight t)%nat.
Proof.
  revert t. fix IH 1. intros t. destruct t as [|s|l|l]; [done|done| |].
  - destruct l as [|x l]; [cbn; lia|]. cbn [to_yaml yheight jheight]. apply le_n_S.
    induction (x :: l) as [|y l' IHl]; [done|]. cbn [fmap list_fmap foldr]. specialize (IH y). lia.
  - destruct l as [|x l]; [cbn; lia|]. cbn [to_yaml yheight jheight]. apply le_n_S.
    induction (x :: l) as [|[k y] l' IHl]; [done|]. cbn [fmap list_fmap foldr fst snd]. specialize (IH y). lia.
Qed.

(** YAML trees of which nothing is lost: text at the leaves, no empty containers,
    map keys in order. *)
Inductive yplain : ytree → Prop :=
| yplain_scalar s : yplain (YScalar s)
| yplain_seq l : l ≠ [] → Forall yplain l → yplain (YSeq l)
| yplain_map l : l ≠ [] → StronglySorted (λ p q : str * ytree, LogConf.str_lt p.1 q.1 = true) l → Forall (λ p, yplain p.2) l → yplain (YMap l).

Fixpoint plain_spec t : yplain t → to_yaml (to_json t) = t.
Proof.
  intros Hp. destruct t as [|s|l|l]; [by inversion Hp|done| |].
  - inversion Hp as [|? Hne Hall|]; subst. destruct l as [|x l]; [done|].
    change (to_yaml (to_json (YSeq (x :: l)))) with (YSeq (to_yaml <$> (to_json <$> (x :: l)))). f_equal. clear Hp Hne.
    induction (x :: l) as [|y l' IH]; [done|]. apply Forall_cons in Hall as [Hy Hall]. cbn [fmap list_fmap].
    f_equal; [by apply plain_spec|by apply IH].
  - inversion Hp as [| |? Hne Hs Hall]; subst. destruct l as [|x l]; [done|].
    assert (to_json (YMap (x :: l)) = JObject ((λ p, (p.1, to_json p.2)) <$> (x :: l))) as ->.
    { change (to_json (YMap (x :: l))) with (JObject (foldl (λ o p, put_member p.1 p.2 o) [] ((λ p, (p.1, to_json p.2)) <$> (x :: l)))).
      f_equal. apply (put_sorted_eq []). cbn [app]. clear Hp Hall Hne. induction Hs as [|p l' Hs IH Hall]; [constructor|].
      cbn [fmap list_fmap]. constructor; [done|]. clear -Hall. induction Hall; cbn [fmap list_fmap]; constructor; done. }
    change (to_yaml (JObject ((λ p, (p.1, to_json p.2)) <$> (x :: l)))) with
      (YMap ((λ p, (p.1, to_yaml p.2)) <$> ((λ p, (p.1, to_json p.2)) <$> (x :: l)))). f_equal. clear Hp Hs Hne.
    induction (x :: l) as [|[k y] l' IH]; [done|]. apply Forall_cons in Hall as [Hy Hall]. cbn [fmap list_fmap fst snd].
    f_equal; [by rewrite (plain_spec y Hy)|by apply IH].
Qed.

Section Roundtrip.
Context {Y : Yaml} {YB : YamlBuild} {YS : YamlShape} {J : Json} {JB : JsonBuild} {JS : JsonShape}.

(** [YamlToJson] into a null value terminates and succeeds on every document,
    and builds its JSON counterpart: every scalar a string, a sequence an array, a
    map an object, an empty sequence or map and a null node a null value. *)
Theorem YamlToJson_correct fuel n j :
  (yheight (yshape n) < fuel)%nat → jshape j = JNull →
  ∃ j', YamlToJson fuel n j = Some (true, j') ∧ jshape j' = to_json (yshape n) ∧ jwf (jshape j').
Proof.
  intros Hf Hj. destruct (YamlToJson_shape fuel n j Hf Hj) as (j'&?&Hj'). exists j'. split_and!; [done|done|].
  rewrite Hj'. apply to_json_wf.
Qed.

(** C25. A JSON value taken to YAML and back: both conversions succeed, and the
    value that comes back is the first with its scalars as strings, its nulls as
    empty strings and its empty containers as nulls; a YAML document of text
    without empty containers, its keys in order, comes back from JSON as it was. *)
Theorem json_yaml_roundtrip fuel v n :
  (jheight (jshape v) < fuel)%nat → jwf (jshape v) → (yheight (yshape n) < fuel)%nat → yplain (yshape n) →
  (∃ m j, JsonToYaml fuel v Null = Some (true, m) ∧ YamlToJson fuel m jnull = Some (true, j) ∧
     jshape j = normal (jshape v)) ∧
  (∃ j, YamlToJson fuel n jnull = Some (true, j) ∧
     ∀ fuel', (jheight (jshape j) < fuel')%nat → ∃ m, JsonToYaml fuel' j Null = Some (true, m) ∧ yshape m = yshape n).
Proof.
  intros Hfv Hwf Hfn Hp. split.
  - destruct (JsonToYaml_shape fuel v Null Hfv Hwf yshape_Null) as (m&Em&Hm).
    destruct (YamlToJson_shape fuel m jnull) as (j&Ej&Hj); [|apply jshape_null|].
    { rewrite Hm. pose proof (to_yaml_height (jshape v)). lia. }
    exists m, j. split_and!; [done|done|]. rewrite Hj, Hm. by apply normal_spec.
  - destruct (YamlToJson_shape fuel n jnull Hfn jshape_null) as (j&Ej&Hj). exists j. split; [done|].
    intros fuel' Hf'. destruct (JsonToYaml_shape fuel' j Null Hf') as (m&Em&Hm); [rewrite Hj; apply to_json_wf|apply yshape_Null|].
    exists m. split; [done|]. rewrite Hm, Hj. by apply plain_spec.
Qed.

(** A value that already holds text or an object cannot take a sequence's elements:
    the exception of [append] makes the result [false]. *)
Lemma YamlToJson_refused fuel n j t l :
  yshape n = YSeq (t :: l) → (yheight (yshape n) < fuel)%nat →
  (match jshape j with JNull | JArray _ => false | _ => true end) = true → YamlToJson fuel n j = Some (false, j).
Proof.
  intros Hn Hf Hj. destruct fuel as [|fuel]; [lia|]. cbn [YamlToJson].
  rewrite IsScalar_shape, IsSequence_shape, Hn. destruct (seq_shape n _ Hn) as (ns&->&Hl).
  destruct ns as [|m ns]; [done|]. cbn [fmap list_fmap append_all].
  destruct (YamlToJson_shape fuel m jnull) as (v&->&_); [|apply jshape_null|by rewrite append_other].
  rewrite Hn in Hf. injection Hl as Hm Hl. assert (yheight (yshape m) < yheight (YSeq (t :: l)))%nat; [|lia].
  apply yheight_seq. rewrite Hm. by left.
Qed.

End Roundtrip.

End YamlJson.

(** ** Libraries that are trees

    An instance for each interface, to run the conversions with. *)
Module TreeJson.
Import YamlJson.
#[local] Existing Instance TreeYaml.tree_yaml.

#[export] Instance tree_json : Json := {|
  value := jtree;
  isMember v k := match v with JObject l => bool_decide (k ∈ l.*1) | _ => false end;
  member v k := match v with JObject l => from_option snd JNull (List.find (λ p, bool_decide (p.1 = k)) l) | _ => JNull end;
  isString v := match v with JScalar _ => true | _ => false end;
  asString v := match v with JNull => Some [] | JScalar s => Some s | _ => None end;
  isDouble _ := false; isInt _ := false; isUInt _ := false; isInt64 _ := false; isUInt64 _ := false;
  double := unit;
  asDouble _ := None; asInt _ := None; asUInt _ := None; asUInt64 _ := None;
  parse _ := None;
  write _ := [];
  atof _ := tt;
  zero := tt;
|}.

#[export] Instance tree_json_build : JsonBuild := {|
  jnull := JNull;
  of_string := JScalar;
  append v w := match v with JNull => Some (JArray [w]) | JArray l => Some (JArray (l ++ [w])) | _ => None end;
  set_member v k w := match v with JNull => Some (JObject [(k, w)]) | JObject l => Some (JObject (put_member k w l)) | _ => None end;
  isArray v := match v with JArray _ => true | _ => false end;
  isObject v := match v with JObject _ => true | _ => false end;
  jsize v := match v with JArray l => length l | JObject l => length l | _ => 0%nat end;
  jat v i := match v with JArray l => nth i l JNull | _ => JNull end;
  members v := match v with JObject l => l | _ => [] end;
|}.

Lemma nth_seq {A} (d : A) l : (λ i, nth i l d) <$> seq 0 (length l) = l.
Proof.
  induction l as [|x l IH]; [done|]. cbn [length seq fmap list_fmap nth]. f_equal.
  rewrite <- (fmap_S_seq 0), <- list_fmap_compose. exact IH.
Qed.

#[export] Instance tree_json_shape : JsonShape.
Proof.
  refine {| jshape := (λ v, v) : @value tree_json → jtree |}; try done.
  - intros v l ->. rewrite list_fmap_id. apply nth_seq.
  - intros v l ->. cbn. rewrite <- (list_fmap_id l) at 2. apply list_fmap_ext. by intros i [].
  - by intros v ->.
  - by intros v s ->.
  - intros v w ->. by eexists.
  - intros v l w ->. by eexists.
  - by intros [].
  - intros v k w ->. by eexists.
  - intros v l k w ->. by eexists.
  - by intros [].
Defined.

#[export] Instance tree_yaml_build : YamlBuild := {|
  IsSequence n := match n with TreeYaml.VSeq _ => true | _ => false end;
  of_text s := TreeYaml.VString s;
|}.

Fixpoint shape_of (v : TreeYaml.value) : ytree :=
  match v with
  | TreeYaml.VUndefined | TreeYaml.VNull => YNull
  | TreeYaml.VString s => YScalar s
  | TreeYaml.VSeq l => YSeq (shape_of <$> l)
  | TreeYaml.VMap l => YMap ((λ p, (p.1, shape_of p.2)) <$> l)
  end.

Lemma lookup_seq_map {A} (l : list A) : (λ i, l !! i) <$> seq 0 (length l) = Some <$> l.
Proof.
  induction l as [|x l IH]; [done|]. cbn [length seq fmap list_fmap lookup list_lookup]. f_equal.
  rewrite <- (fmap_S_seq 0), <- list_fmap_compose. exact IH.
Qed.

#[export] Instance tree_yaml_shape : YamlShape.
Proof.
  refine {| yshape := shape_of : @node TreeYaml.tree_yaml → ytree |}; try done.
  - by intros [].
  - by intros [].
  - by intros [].
  - intros [| |u| |] s; cbn; by intros [= ->].
  - intros [| |u|ns|ps] l; cbn [shape_of]; try done. intros [= <-]. exists ns. split; [|done]. apply lookup_seq_map.
  - intros [| |u|ns|ps] l; cbn [shape_of]; try done. by intros [= <-].
  - intros [] m; done.
  - intros [| |u|ns|ps] l m; cbn [shape_of]; try done. intros [= <-]. cbn. by rewrite fmap_app.
  - intros [] key m; done.
  - intros [| |u|ns|ps] l key m; cbn [shape_of]; try done. intros [= <-] Hk. cbn [set_node TreeYaml.tree_yaml TreeYaml.entries].
    rewrite bool_decide_eq_false_2.
    + cbn [shape_of]. by rewrite fmap_app.
    + rewrite <- list_fmap_compose in Hk. exact Hk.
Defined.

Definition sample_yaml : @node TreeYaml.tree_yaml :=
  TreeYaml.VMap [(of_lit "port", TreeYaml.VString (of_lit "80")); (of_lit "roots", TreeYaml.VSeq [TreeYaml.VString (of_lit "a"); TreeYaml.VMap [(of_lit "x", TreeYaml.VString [])]])].
Definition sample_json : @value tree_json :=
  JObject [(of_lit "a", JArray []); (of_lit "b", JNull); (of_lit "c", JArray [JScalar (of_lit "1")])].

Lemma YamlToJson_correct_witness : ∃ j', YamlToJson 4 sample_yaml jnull = Some (true, j') ∧
  jshape j' = to_json (yshape sample_yaml) ∧ jwf (jshape j').
Proof. apply (YamlToJson_correct 4 sample_yaml jnull); [vm_compute; lia|done]. Defined.

Lemma json_yaml_roundtrip_witness :
  (∃ m j, JsonToYaml 4 sample_json Null = Some (true, m) ∧ YamlToJson 4 m jnull = Some (true, j) ∧
     jshape j = normal (jshape sample_json)) ∧
  (∃ j, YamlToJson 4 sample_yaml jnull = Some (true, j) ∧
     ∀ fuel', (jheight (jshape j) < fuel')%nat → ∃ m, JsonToYaml fuel' j Null = Some (true, m) ∧ yshape m = yshape sample_yaml).
Proof.
  apply (json_yaml_roundtrip 4 sample_json sample_yaml).
  - vm_compute; lia.
  - repeat constructor.
  - vm_compute; lia.
  - repeat constructor; discriminate.
Defined.

Example null_becomes_empty : (λ r, YamlToJson 4 r.2 jnull) <$> JsonToYaml 4 sample_json Null =
  Some (Some (true, JObject [(of_lit "a", JNull); (of_lit "b", JScalar []); (of_lit "c", JArray [JScalar (of_lit "1")])])).
Proof. by vm_compute. Qed.

End TreeJson.
