(* ===== verification/Servlets.v ===== *)
(** * Servlets: the built-in pages, and the server that mounts them

    [ConfigServlet] (src/bobliew/http/servlets/config_servlet.cc) prints every
    configuration variable as YAML or JSON; [StatusServlet]'s [format_used_time]
    (status_servlet.cc); [HttpServer] with its client loop (http_server.cc) over a
    session of Httpsession.v.  [config_page_correct]: what the page of a configuration
    contains.  [format_used_time_correct]: the text of a duration.
    [handleClient_correct]: what a client is answered, round by round. *)
From S2P Require Import Prelude Util Endian Bytearray Stream Httpmap Http Httptext Http11text Httpparser Httpsession Servlet Yaml Jsonutil Logconf Config Yamljson.
Import StdString.
#[local] Open Scope list_scope.
#[local] Open Scope Z_scope.
#[local] Open Scope effect_scope.
#[local] Set Warnings "-clear-no-such-hyp".

Module ConfigServlet.
Import Config.

Section Page.
Context {W : Type} `{ConfigTypes W} {Y : Yaml} {YB : YamlBuild} {J : JsonUtil.Json} {JB : JsonBuild}.

(** The function [Visit] runs on a variable: [node] is captured by reference.  The
    [try] block is around [to_String] and [YAML::Load]. *)
Definition visit_var (a : nat) (page : node) : M config node :=
  let! n := try_catch (let! text := to_String a in ret (Load text)) (ret None) in
  match n with
  | None => ret page
  | Some n =>
      let! base := var_at a in
      ret (set_node (set_node page (m_name base) n) (m_name base ++ of_lit "$description") (of_text (m_description base)))
  end.

(** [Config::Visit] with a function that changes a captured node. *)
Fixpoint visit_fold (cb : nat → node → M config node) (l : list nat) (page : node) : M config node :=
  match l with
  | [] => ret page
  | a :: l => let! page := cb a page in visit_fold cb l page
  end.

Definition page_of : M config node :=
  let! c := get in visit_fold visit_var (LogConf.in_order (datas c)) Null.

(** [ConfigServlet::handle]; the fuel is that of [YamlToJson]. *)
Definition handle (fuel : nat) (request : Http.HttpRequest) (response : Http.HttpResponse)
    : M config (Z * Http.HttpRequest * Http.HttpResponse) := λ c,
  match Http.getParam (of_lit "type") [] request with
  | UB => UB
  | Throw e _ => Throw e c
  | Ret type request =>
      let json := bool_decide (type = of_lit "json") in
      let response := Http.rs_setHeader (of_lit "Content-Type")
        (if json then of_lit "text/json charset=utf-8" else of_lit "text/yaml charset=utf-8") response in
      (let! node := page_of in
       if json then
         let! r := lift (YamlJson.YamlToJson fuel node jnull) in
         if r.1 then ret (0, request, Http.rs_setBody (JsonUtil.ToString r.2) response)
         else ret (0, request, Http.rs_setBody (emit node) response)
       else ret (0, request, Http.rs_setBody (emit node) response)) c
  end.

(** [visit_fold] is [Visit] when nothing is captured. *)
Lemma visit_fold_Visit (cb : nat → M config unit) (page : node) c :
  (let! _ := visit_fold (λ a p, cb a ;! ret p) (LogConf.in_order (datas c)) page in ret tt) c = Visit cb c.
Proof.
  unfold Visit. rewrite bind_get. generalize (LogConf.in_order (datas c)). intros l. revert c. induction l as [|a l IH]; intros c; [done|].
  cbn [visit_fold visit_all]. unfold bind at 1 2 3. unfold bind at 2. destruct (cb a c) as [[] c'|e c'|]; [|done|done]. cbn. apply IH.
Qed.

End Page.


Section PageCorrect.
Context {W : Type} `{ConfigTypes W} {Y : Yaml} {YB : YamlBuild} {YS : YamlJson.YamlShape}.
Context {J : JsonUtil.Json} {JB : JsonBuild} {JS : YamlJson.JsonShape}.
Import YamlJson.

(** The variables of [c] at the addresses [l] print as [texts], without an effect. *)
Definition prints (c : config) (texts : nat → list ascii) (l : list nat) : Prop := ∀ a, a ∈ l →
  ∃ x, vars c !! a = Some x ∧ ToStr (Config.m_type x) (m_val x) (outer c) = Ret (texts a) (outer c).

Definition entry (c : config) (texts : nat → list ascii) (a : nat) : list (list ascii * ytree) :=
  match vars c !! a, Load (texts a) with
  | Some x, Some n => [(Config.m_name x, yshape n); (Config.m_name x ++ of_lit "$description", YScalar (m_description x))]
  | _, _ => []
  end.

(** The names of the variables differ and have no dollar sign. *)
Definition names_apart (c : config) (l : list nat) : Prop :=
  NoDup (from_option Config.m_name [] ∘ (λ a, vars c !! a) <$> l) ∧
  ∀ a x, a ∈ l → vars c !! a = Some x → ("$"%char ∉ Config.m_name x).

Lemma visit_var_run c texts a x (page : node) :
  vars c !! a = Some x → ToStr (Config.m_type x) (m_val x) (outer c) = Ret (texts a) (outer c) →
  visit_var a page c = Ret (match Load (texts a) with
    | None => page
    | Some n => set_node (set_node page (Config.m_name x) n) (Config.m_name x ++ of_lit "$description") (of_text (m_description x))
    end) c.
Proof.
  intros Hx Ht. unfold visit_var.
  assert (to_String a c = Ret (texts a) c) as Hs.
  { unfold to_String. rewrite (bind_Ret _ _ _ _ _ (var_at_ret a x c Hx)). unfold try_catch, on_outer. rewrite Ht. by destruct c. }
  assert (try_catch (let! text := to_String a in ret (Load text)) (ret None) c = Ret (Load (texts a)) c) as Htry
    by (unfold try_catch; by rewrite (bind_Ret _ _ _ _ _ Hs)).
  rewrite (bind_Ret _ _ _ _ _ Htry). destruct (Load (texts a)) as [n|]; [|done].
  by rewrite (bind_Ret _ _ _ _ _ (var_at_ret a x c Hx)).
Qed.

(** The shape of a page under construction. *)
Definition page_shape (l : list (list ascii * ytree)) : ytree := match l with [] => YNull | _ => YMap l end.

Lemma set_page page l key (m : node) :
  yshape page = page_shape l → key ∉ l.*1 → yshape (set_node page key m) = page_shape (l ++ [(key, yshape m)]).
Proof.
  destruct l as [|p l]; cbn [page_shape]; intros Hp Hk; [by apply set_null|].
  by apply set_map.
Qed.

Lemma entry_keys c texts a k : k ∈ (entry c texts a).*1 →
  ∃ x, vars c !! a = Some x ∧ (k = Config.m_name x ∨ k = Config.m_name x ++ of_lit "$description").
Proof.
  unfold entry. destruct (vars c !! a) as [x|]; [|by intros ?%not_elem_of_nil].
  destruct (Load (texts a)); [|by intros ?%not_elem_of_nil]. cbn.
  intros [->|[->|?%not_elem_of_nil]%elem_of_cons]%elem_of_cons; [by exists x; auto|by exists x; auto|done].
Qed.

Lemma entries_nodup c texts l : names_apart c l → NoDup (flat_map (entry c texts) l).*1.
Proof.
  intros [Hnd Hd]. induction l as [|a l IH]; [constructor|]. cbn [flat_map]. rewrite fmap_app.
  cbn [fmap list_fmap] in Hnd. apply NoDup_cons in Hnd as [Hni Hnd].
  assert (∀ x, vars c !! a = Some x → "$"%char ∉ Config.m_name x) as Ha by (intros; eapply Hd; [by left|done]).
  apply NoDup_app. split; [|split; [|apply IH; [done|intros; eapply Hd; [by right|done]]]].
  - unfold entry. destruct (vars c !! a) as [x|] eqn:Hx; [|constructor]. destruct (Load (texts a)); [|constructor]. cbn.
    repeat constructor; [|by apply not_elem_of_nil]. rewrite list_elem_of_singleton. intros E.
    apply (Ha x eq_refl). rewrite E. apply elem_of_app. right. by left.
  - intros k Hk (p&->&Hin)%list_elem_of_fmap. apply list_elem_of_In, in_flat_map in Hin as (b&Hb&Hin).
    apply list_elem_of_In in Hb, Hin.
    apply entry_keys in Hk as (x&Hx&Hk). destruct (entry_keys c texts b p.1) as (y&Hy&Hk'); [by apply list_elem_of_fmap_2|].
    assert ("$"%char ∉ Config.m_name y) as Hyd by (eapply Hd; [by right|done]). specialize (Ha x Hx).
    assert (Config.m_name x ≠ Config.m_name y) as Hne.
    { intros E. apply Hni. apply list_elem_of_fmap. exists b. split; [|done]. cbn. by rewrite Hx, Hy. }
    destruct Hk as [Hk|Hk], Hk' as [Hk'|Hk']; rewrite Hk in Hk'.
    + done.
    + apply Ha. rewrite Hk'. apply elem_of_app. right. by left.
    + apply Hyd. rewrite <- Hk'. apply elem_of_app. right. by left.
    + by apply app_inv_tail in Hk'.
Qed.

Lemma visit_fold_run c texts l page acc :
  prints c texts l → yshape page = page_shape acc → NoDup (acc ++ flat_map (entry c texts) l).*1 →
  ∃ page', visit_fold visit_var l page c = Ret page' c ∧ yshape page' = page_shape (acc ++ flat_map (entry c texts) l).
Proof.
  revert page acc. induction l as [|a l IH]; intros page acc Hp Hs Hnd; [exists page; by rewrite app_nil_r|].
  destruct (Hp a) as (x&Hx&Ht); [by left|]. cbn [visit_fold flat_map].
  rewrite (bind_Ret _ _ _ _ _ (visit_var_run c texts a x page Hx Ht)).
  cbn [flat_map] in Hnd. rewrite app_assoc in Hnd |- *. apply IH; [intros b Hb; apply Hp; by right| |done].
  unfold entry in *. rewrite Hx in *. destruct (Load (texts a)) as [n|]; [|by rewrite app_nil_r].
  rewrite fmap_app in Hnd. apply NoDup_app in Hnd as (Hnd&_&_). rewrite fmap_app in Hnd. apply NoDup_app in Hnd as (_&Hdis&Hnd).
  change [(Config.m_name x, yshape n); (Config.m_name x ++ of_lit "$description", YScalar (m_description x))]
    with ([(Config.m_name x, yshape n)] ++ [(Config.m_name x ++ of_lit "$description", YScalar (m_description x))]).
  rewrite app_assoc, <- yshape_text. apply set_page; [apply set_page; [done|]|].
  - intros Hin. apply (Hdis _ Hin). by left.
  - rewrite fmap_app. cbn in Hnd. apply NoDup_cons in Hnd as [Hni _]. intros [Hin|Hin]%elem_of_app.
    + apply (Hdis _ Hin). right. by left.
    + cbn in Hin. apply list_elem_of_singleton in Hin. apply Hni. rewrite Hin at 1. by left.
Qed.

(** C26. The configuration page: it has, in the order of their names, every variable
    whose text is a YAML document, as that document, each followed by its
    description; and nothing else.  It is sent as YAML, or, for [type=json], as the
    JSON value it converts to.  The configuration is not changed. *)
Theorem config_page_correct fuel request request' type response c texts :
  Http.getParam (of_lit "type") [] request = Ret type request' →
  prints c texts (LogConf.in_order (datas c)) → names_apart c (LogConf.in_order (datas c)) →
  (yheight (page_shape (flat_map (entry c texts) (LogConf.in_order (datas c)))) < fuel)%nat →
  ∃ page body, handle fuel request response c =
      Ret (0, request', Http.rs_setBody body (Http.rs_setHeader (of_lit "Content-Type")
        (if bool_decide (type = of_lit "json") then of_lit "text/json charset=utf-8" else of_lit "text/yaml charset=utf-8")
        response)) c ∧
    yshape page = page_shape (flat_map (entry c texts) (LogConf.in_order (datas c))) ∧
    if bool_decide (type = of_lit "json") then ∃ j, body = JsonUtil.write j ∧ jshape j = to_json (yshape page)
    else body = emit page.
Proof.
  intros Hty Hp Ha Hf. unfold handle. rewrite Hty.
  destruct (visit_fold_run c texts (LogConf.in_order (datas c)) Null [] Hp yshape_Null (entries_nodup c texts _ Ha)) as (page&Hrun&Hs).
  assert (page_of c = Ret page c) as Hpage by (unfold page_of; by rewrite bind_get).
  rewrite (bind_Ret _ _ _ _ _ Hpage). cbn [app] in Hs. case_bool_decide as Hj.
  - destruct (YamlToJson_shape fuel page jnull) as (j&Ej&Hj'); [by rewrite Hs|apply jshape_null|]. rewrite Ej.
    exists page, (JsonUtil.write j). split; [done|]. split; [done|]. by exists j.
  - by exists page, (emit page).
Qed.

End PageCorrect.

(** ** A page *)
#[local] Existing Instance Config.sim_types.
#[local] Existing Instance TreeYaml.tree_yaml.
#[local] Existing Instance TreeJson.tree_yaml_build.
#[local] Existing Instance TreeJson.tree_yaml_shape.
#[local] Existing Instance TreeJson.tree_json.
#[local] Existing Instance TreeJson.tree_json_build.
#[local] Existing Instance TreeJson.tree_json_shape.

Definition page_var : @ConfigVar _ Config.sim_types :=
  @Var _ Config.sim_types (of_lit "port") (of_lit "where to listen") tt (@emit TreeYaml.tree_yaml (TreeYaml.VString (of_lit "80"))) [].
Definition page_config : config := Conf {[0%nat := page_var]} {[of_lit "port" := 0%nat]} (λ _, 1) 1 [].
Definition page_request : Http.HttpRequest := Http.setQuery (of_lit "type=json") (Http.new_HttpRequest 17 true).
Definition page_texts (a : nat) : list ascii := @emit TreeYaml.tree_yaml (TreeYaml.VString (of_lit "80")).
Definition page_response : Http.HttpResponse := Http.new_HttpResponse 17 true.

Lemma config_page_correct_witness :
  ∃ request' page body, handle 3 page_request page_response page_config =
      Ret (0, request', Http.rs_setBody body (Http.rs_setHeader (of_lit "Content-Type")
        (if bool_decide (of_lit "json" = of_lit "json") then of_lit "text/json charset=utf-8" else of_lit "text/yaml charset=utf-8")
        page_response)) page_config ∧
    YamlJson.yshape page = page_shape (flat_map (entry page_config page_texts) (LogConf.in_order (datas page_config))) ∧
    if bool_decide (of_lit "json" = of_lit "json") then ∃ j, body = JsonUtil.write j ∧ YamlJson.jshape j = YamlJson.to_json (YamlJson.yshape page)
    else body = emit page.
Proof.
  destruct (Http.getParam (of_lit "type") [] page_request) as [type r|e r|] eqn:E; [|by vm_compute in E|by vm_compute in E].
  exists r. assert (type = of_lit "json") as -> by (vm_compute in E; injection E as <- _; by vm_compute).
  assert (LogConf.in_order (datas page_config) = [0%nat]) as El by (by vm_compute).
  apply (config_page_correct 3 page_request r (of_lit "json") page_response page_config page_texts).
  - exact E.
  - rewrite El. intros a ->%list_elem_of_singleton. exists page_var. split; [vm_compute; reflexivity|reflexivity].
  - rewrite El. split; [apply NoDup_singleton|]. intros a x ->%list_elem_of_singleton Hx.
    change (Some page_var = Some x) in Hx. injection Hx as <-. apply (bool_decide_unpack _). by vm_compute.
  - rewrite El. vm_compute. lia.
Defined.
End ConfigServlet.

Module StatusServlet.

(** [format_used_time(ts)] *)
Definition format_used_time (ts : Z) : list ascii :=
  let show (n : Z) := (if n <? 0 then of_lit "-" else []) ++ Http.show (Z.abs n) in
  let v := false in
  let ss := [] in
  let '(ss, ts, v) :=
    if 3600 * 24 <=? ts
    then (ss ++ show (ts ÷ 3600 ÷ 24) ++ of_lit "d ", Z.rem ts (3600 * 24), true) else (ss, ts, v) in
  let '(ss, ts, v) :=
    if 3600 <=? ts then (ss ++ show (ts ÷ 3600) ++ of_lit "h ", Z.rem ts 3600, true)
    else if v : bool then (ss ++ of_lit "0h ", ts, v) else (ss, ts, v) in
  let '(ss, ts) :=
    if 60 <=? ts then (ss ++ show (ts ÷ 60) ++ of_lit "m ", Z.rem ts 60)
    else if v : bool then (ss ++ of_lit "0m ", ts) else (ss, ts) in
  ss ++ show ts ++ of_lit "s".


Lemma show_nonneg n : 0 ≤ n → (if n <? 0 then of_lit "-" else []) ++ Http.show (Z.abs n) = Http.show n.
Proof. intros. rewrite (proj2 (Z.ltb_ge _ _)) by lia. by rewrite Z.abs_eq by lia. Qed.

(** The text of a duration of [ts] seconds: days, hours, minutes and seconds,
    each below the next unit, from the first that is not zero on. *)
Theorem format_used_time_correct ts :
  0 ≤ ts →
  let d := ts / 86400 in let h := ts mod 86400 / 3600 in let m := ts mod 3600 / 60 in let s := ts mod 60 in
  format_used_time ts =
    (if 0 <? d then Http.show d ++ of_lit "d " else []) ++
    (if 0 <? d + h then Http.show h ++ of_lit "h " else []) ++
    (if 0 <? d + h + m then Http.show m ++ of_lit "m " else []) ++ Http.show s ++ of_lit "s" ∧
  ts = d * 86400 + h * 3600 + m * 60 + s ∧ 0 ≤ d ∧ 0 ≤ h < 24 ∧ 0 ≤ m < 60 ∧ 0 ≤ s < 60.
Proof.
  intros Hts d h m s.
  assert (ts mod 86400 = h * 3600 + ts mod 3600) as H1.
  { unfold h. rewrite (Z.mod_eq ts 86400), (Z.mod_eq ts 3600) by lia.
    pose proof (Z.div_mod (ts mod 86400) 3600 ltac:(lia)). Z.div_mod_to_equations. lia. }
  assert (ts mod 3600 = m * 60 + s) as H2 by (unfold m, s; Z.div_mod_to_equations; lia).
  assert (ts = d * 86400 + ts mod 86400) as H3 by (unfold d; Z.div_mod_to_equations; lia).
  assert (0 ≤ d) by (unfold d; Z.div_mod_to_equations; lia).
  assert (0 ≤ h < 24) by (unfold h; Z.div_mod_to_equations; lia).
  assert (0 ≤ m < 60) by (unfold m; Z.div_mod_to_equations; lia).
  assert (0 ≤ s < 60) by (unfold s; Z.div_mod_to_equations; lia).
  assert (Z.rem ts (3600 * 24) = ts mod 86400) as Hr1 by (by rewrite Z.rem_mod_nonneg by lia).
  assert (Z.rem (ts mod 86400) 3600 = ts mod 3600) as Hr2 by (rewrite Z.rem_mod_nonneg by lia; Z.div_mod_to_equations; lia).
  assert (Z.rem (ts mod 3600) 60 = s) as Hr3 by (rewrite Z.rem_mod_nonneg by lia; Z.div_mod_to_equations; lia).
  assert (ts ÷ 3600 ÷ 24 = d) as Hq1 by (rewrite Z.quot_quot by lia; by rewrite Z.quot_div_nonneg by lia).
  assert ((ts mod 86400) ÷ 3600 = h) as Hq2 by (by rewrite Z.quot_div_nonneg by lia).
  assert ((ts mod 3600) ÷ 60 = m) as Hq3 by (by rewrite Z.quot_div_nonneg by lia).
  split; [|lia]. unfold format_used_time. cbv zeta.
  assert ((if 3600 * 24 <=? ts
    then ([] ++ ((if ts ÷ 3600 ÷ 24 <? 0 then of_lit "-" else []) ++ Http.show (Z.abs (ts ÷ 3600 ÷ 24))) ++ of_lit "d ", Z.rem ts (3600 * 24), true)
    else ([], ts, false)) = (if 0 <? d then Http.show d ++ of_lit "d " else [], ts mod 86400, 0 <? d)) as ->.
  { rewrite Hq1, Hr1, show_nonneg by lia. destruct (Z.leb_spec (3600 * 24) ts), (Z.ltb_spec 0 d); try lia; [done|].
    repeat f_equal. lia. }
  clearbody d h m s. set (A := if 0 <? d then _ else _).
  assert ((if 3600 <=? ts mod 86400
    then (A ++ ((if (ts mod 86400) ÷ 3600 <? 0 then of_lit "-" else []) ++ Http.show (Z.abs ((ts mod 86400) ÷ 3600))) ++ of_lit "h ", Z.rem (ts mod 86400) 3600, true)
    else if 0 <? d then (A ++ of_lit "0h ", ts mod 86400, 0 <? d) else (A, ts mod 86400, 0 <? d))
    = (A ++ (if 0 <? d + h then Http.show h ++ of_lit "h " else []), ts mod 3600, 0 <? d + h)) as ->.
  { rewrite Hq2, Hr2, show_nonneg by lia. destruct (Z.leb_spec 3600 (ts mod 86400)), (Z.ltb_spec 0 (d + h)), (Z.ltb_spec 0 d); try lia; [done|done| |].
    - assert (h = 0) as -> by lia. repeat (done || lia || f_equal).
    - rewrite app_nil_r. repeat (done || lia || f_equal). }
  set (B := A ++ _).
  assert ((if 60 <=? ts mod 3600
    then (B ++ ((if (ts mod 3600) ÷ 60 <? 0 then of_lit "-" else []) ++ Http.show (Z.abs ((ts mod 3600) ÷ 60))) ++ of_lit "m ", Z.rem (ts mod 3600) 60)
    else if 0 <? d + h then (B ++ of_lit "0m ", ts mod 3600) else (B, ts mod 3600))
    = (B ++ (if 0 <? d + h + m then Http.show m ++ of_lit "m " else []), s)) as ->.
  { rewrite Hq3, Hr3, show_nonneg by lia. destruct (Z.leb_spec 60 (ts mod 3600)), (Z.ltb_spec 0 (d + h + m)), (Z.ltb_spec 0 (d + h)); try lia; [done|done| |].
    - assert (m = 0) as -> by lia. repeat (done || lia || f_equal).
    - rewrite app_nil_r. repeat (done || lia || f_equal). }
  rewrite show_nonneg by lia. subst A B. by rewrite <- !app_assoc.
Qed.

Lemma format_used_time_correct_witness : format_used_time 90061 = of_lit "1d 1h 1m 1s" ∧ 90061 = 1 * 86400 + 1 * 3600 + 1 * 60 + 1.
Proof. destruct (format_used_time_correct 90061 ltac:(lia)) as (E & Hv & _). split; [rewrite E; by vm_compute|exact Hv]. Defined.
End StatusServlet.

Module HttpServer.

Record HttpServer := Server {
  m_isKeepalive : bool;
  m_dispatch : Servlet.ServletDispatch;
  m_type : list ascii;
  m_name : list ascii;
}.

(** The constructor; [base_name] is the name [TcpServer]'s gives, [config] the new
    [ConfigServlet]. *)
Definition new_HttpServer (keepalive : bool) (base_name : list ascii) (config : Servlet.handler) : HttpServer :=
  Server keepalive
    (Servlet.addServlet (of_lit "/_/config") (Some (Servlet.OtherServlet (of_lit "ConfigServlet") config)) Servlet.new_dispatch)
    (of_lit "http") base_name.

Definition setName (v : list ascii) (s : HttpServer) : HttpServer :=
  Server (m_isKeepalive s) (Servlet.setDefault (Some (Servlet.new_NotFoundServlet v)) (m_dispatch s)) (m_type s) v.

Definition getServletDispatch (s : HttpServer) : Servlet.ServletDispatch := m_dispatch s.
Definition setServletDispatch (v : Servlet.ServletDispatch) (s : HttpServer) : HttpServer :=
  Server (m_isKeepalive s) v (m_type s) (m_name s).

(** *** [handleClient] *)

Section client.
Context {W : Type} `{Stream W}.
(** [fnmatch(pattern, path, 0) == 0], [boost::lexical_cast<uint64_t>], the contents of
    the freshly allocated buffers and the uninitialised members of the parsers. *)
Context (fnmatch : list ascii → list ascii → bool) (lexical_cast : list ascii → option Z).
Context (memory : list ascii) (relaxed query : Z).

(** The response as it is before the dispatcher sees it. *)
Definition blank_response (s : HttpServer) (req : Http.HttpRequest) : Http.HttpResponse :=
  Http.rs_setHeader (of_lit "Server") (m_name s)
    (Http.new_HttpResponse (Http.m_version req) (Http.m_close req || negb (m_isKeepalive s))).

(** The [do] loop, a unit of fuel per round; [s i] is the server in round [i], since its
    dispatcher can be changed meanwhile.  [fuel] also bounds the rounds of
    [recvRequest]. *)
Fixpoint client_loop (rounds fuel : nat) (s : nat → HttpServer) : M W unit :=
  match rounds with
  | O => ub
  | S rounds =>
      let! req := HttpSession.recvRequest lexical_cast fuel memory relaxed query in
      match req with
      | None => ret tt
      | Some req =>
          let rsp := blank_response (s 0%nat) req in
          let '(_, req, rsp) := Servlet.handle fnmatch (m_dispatch (s 0%nat)) req rsp in
          let! _ := HttpSession.sendResponse rsp in
          if negb (m_isKeepalive (s 0%nat)) || Http.m_close req then ret tt
          else client_loop rounds fuel (s ∘ S)
      end
  end.

Definition handleClient (fuel : nat) (s : nat → HttpServer) : M W unit := client_loop fuel fuel s ;! s_close.

End client.

(** ** What a client is answered *)

Section serves.
Context {W : Type} `{StreamLaws W}.
Context (fnmatch : list ascii → list ascii → bool) (lexical_cast : list ascii → option Z).
Context (memory : list ascii) (relaxed query : Z).

(** The next request, with fuel for all bytes to come. *)
Definition receive (w : W) : outcome W (option Http.HttpRequest) :=
  HttpSession.recvRequest lexical_cast (S (length (incoming w))) memory relaxed query w.

(** The request and the response the servlet for the path of [req] leaves; without one
    they stay as they are. *)
Definition answered (s : HttpServer) (req req' : Http.HttpRequest) (rsp : Http.HttpResponse) : Prop :=
  match Servlet.getMatchedServlet fnmatch (Http.m_path req) (m_dispatch s) with
  | Some slt => ∃ rt, Servlet.handle_servlet slt req
      (Http.rs_setHeader (of_lit "Server") (m_name s)
        (Http.new_HttpResponse (Http.m_version req) (Http.m_close req || negb (m_isKeepalive s)))) = (rt, req', rsp)
  | None => req' = req ∧ rsp = Http.rs_setHeader (of_lit "Server") (m_name s)
      (Http.new_HttpResponse (Http.m_version req) (Http.m_close req || negb (m_isKeepalive s)))
  end.

(** [sent rsp w w']: the printed response has gone out, or a beginning of it because a
    write failed; nothing was read. *)
Definition sent (rsp : Http.HttpResponse) (w w' : W) : Prop :=
  ∃ rt k, incoming w' = incoming w ∧ outgoing w' = outgoing w ++ take k (Http.rs_dump rsp) ∧
    (Z.of_nat (length (Http.rs_dump rsp)) < 2 ^ 31 → StreamOps.all_or_stopped (Z.of_nat (length (Http.rs_dump rsp))) k rt).

(** The requests of a client from [w] on, each answered, and how it ends: the session is
    closed when no further request is received or the connection is not kept; what
    [recvRequest] throws leaves the loop. *)
Inductive serves : (nat → HttpServer) → W → list (Http.HttpRequest * Http.HttpResponse) → outcome W unit → Prop :=
| serves_gone s w w' : receive w = Ret None w' → serves s w [] (s_close w')
| serves_throw s w e w' : receive w = Throw e w' → serves s w [] (Throw e w')
| serves_ub s w : receive w = UB → serves s w [] UB
| serves_last s w req w1 req' rsp w2 :
    receive w = Ret (Some req) w1 → outgoing w1 = outgoing w → answered (s 0%nat) req req' rsp → sent rsp w1 w2 →
    m_isKeepalive (s 0%nat) = false ∨ Http.m_close req' = true → serves s w [(req, rsp)] (s_close w2)
| serves_more s w req w1 req' rsp w2 l out :
    receive w = Ret (Some req) w1 → outgoing w1 = outgoing w → answered (s 0%nat) req req' rsp → sent rsp w1 w2 →
    m_isKeepalive (s 0%nat) = true → Http.m_close req' = false →
    serves (λ i, s (S i)) w2 l out → serves s w ((req, rsp) :: l) out.

Lemma handle_answered s req :
  ∃ rt req' rsp, Servlet.handle fnmatch (m_dispatch s) req (blank_response s req) = (rt, req', rsp) ∧ answered s req req' rsp.
Proof.
  unfold Servlet.handle, answered, blank_response. destruct (Servlet.getMatchedServlet _ _ _) as [slt|]; [|by eauto 6].
  destruct (Servlet.handle_servlet slt req _) as [[rt req'] rsp]. by eauto 6.
Qed.

Lemma client_loop_serves rounds fuel s w :
  0 < Z.of_nat (length memory) < 2 ^ 31 → (length (incoming w) < rounds)%nat → (length (incoming w) < fuel)%nat →
  ∃ l out, serves s w l out ∧ (length l ≤ length (incoming w))%nat ∧
    (client_loop fnmatch lexical_cast memory relaxed query rounds fuel s ;! s_close) w = out.
Proof.
  intros Hmem. revert s w. induction rounds as [|rounds IH]; intros s w Hr Hf; [lia|].
  destruct (HttpSession.recvRequest_takes lexical_cast (S (length (incoming w))) memory relaxed query w) as [Hsame Htake]; [lia|lia|].
  fold (receive w) in Hsame, Htake. cbn [client_loop]. unfold bind at 1 2. rewrite (Hsame fuel Hf).
  destruct (receive w) as [[req|] w1|e w1|] eqn:Hreq.
  2:{ exists [], (s_close w1). split; [by apply serves_gone|]. by split; [cbn; lia|]. }
  2:{ exists [], (Throw e w1). split; [by apply serves_throw|]. by split; [cbn; lia|]. }
  2:{ exists [], UB. split; [by apply serves_ub|]. by split; [cbn; lia|]. }
  destruct (Htake req w1 eq_refl) as [Hout Hin]. destruct (handle_answered (s 0%nat) req) as (rt & req' & rsp & -> & Hans).
  destruct (HttpSession.sendResponse_takes rsp w1) as (rt' & k & w2 & Hsend & Hin2 & Hout2 & Hall).
  assert (sent rsp w1 w2) as Hsent by by exists rt', k. unfold bind at 1. rewrite Hsend.
  destruct (negb _ || _) eqn:Hend.
  - exists [(req, rsp)], (s_close w2). split; [|by split; [cbn; lia|]]. eapply serves_last; [done..|].
    apply orb_true_iff in Hend as [E%negb_true_iff|E]; auto.
  - apply orb_false_iff in Hend as [E1%negb_false_iff E2].
    destruct (IH (λ i, s (S i)) w2) as (l & out & Hl & Hlen & Hrun); [rewrite Hin2; lia..|].
    exists ((req, rsp) :: l), out. split; [by eapply serves_more|]. split; [cbn [length]; rewrite Hin2 in Hlen; lia|exact Hrun].
Qed.


End serves.

(** A new server answers at [/_/config] with the configuration page, and everywhere
    else that its name is not found. *)
Lemma new_server_serves fnmatch keepalive base_name name config path :
  Servlet.getMatchedServlet fnmatch path (m_dispatch (setName name (new_HttpServer keepalive base_name config))) =
  Some (if bool_decide (path = of_lit "/_/config") then Servlet.OtherServlet (of_lit "ConfigServlet") config
        else Servlet.new_NotFoundServlet name).
Proof.
  unfold Servlet.getMatchedServlet. cbn [setName m_dispatch new_HttpServer Servlet.setDefault Servlet.addServlet
    Servlet.addServletCreator Servlet.m_datas Servlet.m_globs Servlet.m_default Servlet.new_dispatch Servlet.find_glob].
  case_bool_decide as Hp; [by subst; rewrite lookup_insert_eq|].
  rewrite lookup_insert_ne by done. done.
Qed.

(** ** A client *)
#[local] Existing Instances ByteArray.zeroed SocketStream.socket_stream SocketStream.socket_stream_laws.

(** A request for [/q], and nothing after it. *)
Definition q_request : Http11Text.Request :=
  {| Http11Text.rq_method := of_lit "GET"; Http11Text.rq_path := of_lit "/q"; Http11Text.rq_query := None;
     Http11Text.rq_fragment := None; Http11Text.rq_minor := "1";
     Http11Text.rq_headers := [(of_lit "Connection", of_lit " ", of_lit "close")] |}.
Definition q_client : SocketStream.t Pipe.t :=
  SocketStream.mk (Some (Pipe.mk (Http11Text.request_head q_request) [] 4096 true)) true.
Definition q_server : HttpServer := new_HttpServer true (of_lit "my server") (λ q r, (0, q, r)).
Definition no_glob (pat path : list ascii) : bool := false.


(** What goes out, and that the connection is closed. *)
Example q_client_answered :
  match handleClient no_glob HttpSession.one_digit (replicate 4096 Ascii.zero) 0 0 1000 (λ _, q_server) q_client with
  | Ret _ w => take 22 (SocketStream.out_of w) = of_lit "HTTP/1.1 404 Not Found" ∧ SocketStream.in_of w = []
  | _ => False
  end.
Proof. by vm_compute. Qed.

(** The "Server" header of the 404 answer is the dispatcher's, not the server's. *)
Example not_found_server_header :
  Http.rs_getHeader (of_lit "server") [] (Servlet.handle no_glob (m_dispatch q_server)
    (Http.setPath (of_lit "/q") (Http.new_HttpRequest 17 false))
    (blank_response q_server (Http.new_HttpRequest 17 false))).2 = of_lit "bobliew/1.0.0".
Proof. by vm_compute. Qed.

End HttpServer.
