(* ===== verification/Utilmisc.v ===== *)
(** * Utilmisc: streams, speed limits, time, host and slices (src/bobliew/util.{h,cc})

    [StreamUtil]: fixed-size reads and writes on C++ streams, with and without a
    limit on their speed, [SpeedLimit], [Slice].  An input stream is what is left
    to read and whether it is still good; an output stream is a class.
    [ReadFix_correct]: the read with a speed limit gives the same bytes as the one
    without, whatever the speed.  [Slice_correct]: a vector cut in pieces.

    [SysUtil]: the clock, text of times, back traces, the host's name and address;
    what the system answers is a parameter of each. *)
From S2P Require Import Prelude Util Cstring Http Jsonutil Logformat.
Import StdString.
#[local] Open Scope list_scope.
#[local] Open Scope Z_scope.
#[local] Set Warnings "-clear-no-such-hyp".

Module StreamUtil.

Abbreviation str := (list ascii).

(** ** Input streams *)

Record istream := Is { rest : str; good : bool }.

(** [is.read(p, n)]: the bytes read; [gcount] is their number.  A stream that is not
    good reads nothing, one that ends early is no longer good. *)
Definition is_read (n : Z) (ist : istream) : str * istream :=
  if good ist then
    let got := take (Z.to_nat n) (rest ist) in
    (got, Is (drop (Z.to_nat n) (rest ist)) (n <=? Z.of_nat (length (rest ist))))
  else ([], ist).

(** [ReadFixFromStream]: what [data] receives from its front.  [None]: the loop has
    not ended. *)
Fixpoint ReadFixFromStream (fuel : nat) (size : Z) (data : str) (ist : istream) : option (bool * str * istream) :=
  match fuel with
  | O => None
  | S fuel =>
      let pos := Z.of_nat (length data) in
      if good ist && (pos <? size) then
        let '(got, ist) := is_read (size - pos) ist in
        ReadFixFromStream fuel size (data ++ got) ist
      else Some (pos =? size, data, ist)
  end.

(** ** SpeedLimit

    [m_countPerMS] is a float: the division of a count by it is a parameter. *)
Record SpeedLimit := Limit {
  m_speed : Z;
  m_curCount : Z;
  m_curSec : Z;
}.

Definition new_SpeedLimit (speed : Z) : SpeedLimit :=
  Limit (if wrap 32 speed =? 0 then 2 ^ 32 - 1 else wrap 32 speed) 0 0.

Section Limited.
(** [(int)(count / m_countPerMS)], [(uint64_t)ceil(speed / 100.0)] *)
Context (over_rate : Z → Z → Z) (ceil100 : Z → Z).

(** [add(v)] at the time [curms]: the limit after it and the milliseconds slept. *)
Definition add (curms v : Z) (l : SpeedLimit) : SpeedLimit * Z :=
  if negb (curms / 1000 =? m_curSec l) then (Limit (m_speed l) (wrap 32 v) (wrap 32 (curms / 1000)), 0)
  else
    let count := wrap 32 (m_curCount l + wrap 32 v) in
    let usedms := curms mod 1000 in
    let limitms := over_rate count (m_speed l) in
    (Limit (m_speed l) count (m_curSec l), if usedms <? limitms then limitms - usedms else 0).

(** The clock, in milliseconds, and a limit the stream may have. *)
Definition limited (n : Z) (clock : Z) (limit : option SpeedLimit) : Z * option SpeedLimit :=
  match limit with
  | None => (clock, None)
  | Some l => let '(l, slept) := add clock n l in (clock + slept, Some l)
  end.

Definition per_round (speed : Z) : Z := Z.max (ceil100 speed) (1024 * 64).

Fixpoint read_loop (fuel : nat) (per size : Z) (data : str) (ist : istream) (clock : Z) (limit : option SpeedLimit)
    : option (bool * str * istream * Z) :=
  match fuel with
  | O => None
  | S fuel =>
      let offset := Z.of_nat (length data) in
      if good ist && (offset <? size) then
        let s := if per <? size - offset then per else size - offset in
        let '(got, ist) := is_read s ist in
        let '(clock, limit) := limited (Z.of_nat (length got)) clock limit in
        read_loop fuel per size (data ++ got) ist clock limit
      else Some (offset =? size, data, ist, clock)
  end.

(** [ReadFixFromStreamWithSpeed]; [file] is whether the stream is an [ifstream]. *)
Definition ReadFixFromStreamWithSpeed (fuel : nat) (file : bool) (ist : istream) (size speed clock : Z)
    : option (bool * str * istream * Z) :=
  read_loop fuel (per_round speed) size [] ist clock (if file then Some (new_SpeedLimit speed) else None).

(** ** Output streams *)
Context {O : Type} (os_good : O → bool) (os_write : str → O → O).

Fixpoint write_loop (fuel : nat) (per : Z) (data : str) (offset : Z) (os : O) (clock : Z) (limit : option SpeedLimit)
    : option (bool * O * Z) :=
  match fuel with
  | 0%nat => None
  | S fuel =>
      let size := Z.of_nat (length data) in
      if os_good os && (offset <? size) then
        let s := if per <? size - offset then per else size - offset in
        let os := os_write (take (Z.to_nat s) (drop (Z.to_nat offset) data)) os in
        let '(clock, limit) := limited s clock limit in
        write_loop fuel per data (offset + s) os clock limit
      else Some (offset =? size, os, clock)
  end.

Definition WriteFixToStreamWithSpeed (fuel : nat) (file : bool) (os : O) (data : str) (speed clock : Z)
    : option (bool * O * Z) :=
  write_loop fuel (per_round speed) data 0 os clock (if file then Some (new_SpeedLimit speed) else None).

(** [WriteToStream] of the bytes of a value *)
Definition WriteToStream (os : O) (bytes : str) : bool * O :=
  if negb (os_good os) then (false, os) else (os_good (os_write bytes os), os_write bytes os).

(** [WriteToStreamWithSpeed] and [ReadFromStreamWithSpeed] *)
Definition WriteToStreamWithSpeed (fuel : nat) (file : bool) (os : O) (bytes : str) (speed clock : Z)
    : option (bool * O * Z) :=
  if os_good os then WriteFixToStreamWithSpeed fuel file os bytes speed clock else Some (false, os, clock).
Definition ReadFromStreamWithSpeed (fuel : nat) (file : bool) (ist : istream) (size speed clock : Z)
    : option (bool * str * istream * Z) :=
  if good ist then ReadFixFromStreamWithSpeed fuel file ist size speed clock else Some (false, [], ist, clock).

End Limited.

(** ** Slice *)
Section Slices.
Context {T : Type}.

(** The loop of [Slice]: the elements from [pos] on are [src].  [None]: it has not
    ended. *)
Fixpoint slice_loop (fuel : nat) (dst : list (list T)) (src : list T) (size : nat) : option (list (list T)) :=
  match fuel with
  | O => None
  | S fuel =>
      if (size <? length src)%nat then slice_loop fuel (dst ++ [take size src]) (drop size src) size
      else if (0 <? length src)%nat then Some (dst ++ [src])
      else Some dst
  end.

Definition Slice (fuel : nat) (dst : list (list T)) (src : list T) (size : nat) : option (list (list T)) :=
  slice_loop fuel dst src size.

End Slices.


(** ** Results *)

(** What a read of [n] bytes from a good stream gives. *)
Definition reads (n : nat) (r : str) : bool * str * istream :=
  ((n <=? length r)%nat, take n r, Is (drop n r) (n <=? length r)%nat).

Lemma leb_Z (n m : nat) : (Z.of_nat n <=? Z.of_nat m) = (n <=? m)%nat.
Proof. destruct (Nat.leb_spec n m), (Z.leb_spec (Z.of_nat n) (Z.of_nat m)); done || lia. Qed.

Lemma read_loop_reads over_rate fuel per n data r clock limit :
  0 < per → (n + 1 < fuel)%nat →
  ∃ clock', read_loop over_rate fuel per (Z.of_nat (length data + n)) data (Is r true) clock limit =
    Some ((n <=? length r)%nat, data ++ take n r, (reads n r).2, clock').
Proof.
  intros Hper. revert n data r clock limit. induction fuel as [|fuel IH]; intros n data r clock limit Hf; [lia|].
  cbn [read_loop good andb]. destruct n as [|n'].
  { rewrite Nat.add_0_r, Z.ltb_irrefl, Z.eqb_refl. exists clock. unfold reads. cbn [take drop snd fst]. by rewrite app_nil_r. }
  set (n := S n') in *. rewrite (proj2 (Z.ltb_lt _ _)) by lia.
  replace (Z.of_nat (length data + n) - Z.of_nat (length data)) with (Z.of_nat n) by lia.
  assert (∃ k, (if per <? Z.of_nat n then per else Z.of_nat n) = Z.of_nat k ∧ (1 ≤ k ≤ n)%nat) as (k&->&Hk).
  { destruct (Z.ltb_spec per (Z.of_nat n)); [exists (Z.to_nat per)|exists n]; lia. }
  unfold is_read. cbn [good rest]. rewrite Nat2Z.id, leb_Z.
  destruct (limited over_rate (Z.of_nat (length (take k r))) clock limit) as [clock1 limit1].
  destruct (Nat.leb_spec k (length r)) as [Hr|Hr].
  - destruct (IH (n - k)%nat (data ++ take k r) (drop k r) clock1 limit1) as [clock' E]; [lia|]. exists clock'.
    replace (length data + n)%nat with (length (data ++ take k r) + (n - k))%nat
      by (rewrite length_app, length_take; lia).
    rewrite E. unfold reads. cbn [snd]. rewrite length_drop.
    replace (n - k <=? length r - k)%nat with (n <=? length r)%nat
      by (destruct (Nat.leb_spec n (length r)), (Nat.leb_spec (n - k) (length r - k)); done || lia).
    rewrite drop_drop, <- app_assoc. replace (k + (n - k))%nat with n by lia.
    do 3 f_equal. f_equal. f_equal. rewrite <- (take_drop k (take n r)). rewrite take_take, Nat.min_l by lia.
    f_equal. by rewrite skipn_firstn_comm.
  - destruct fuel as [|fuel]; [lia|]. cbn [read_loop good andb]. exists clock1.
    rewrite take_ge by lia. rewrite drop_ge by lia. rewrite (proj2 (Z.eqb_neq _ _)) by (rewrite length_app; lia).
    unfold reads. cbn [snd]. rewrite (take_ge r n), (drop_ge r n) by lia. by rewrite (proj2 (Nat.leb_gt n _)) by lia.
Qed.

Lemma ReadFix_loop fuel n data r :
  (n + 1 < fuel)%nat →
  ReadFixFromStream fuel (Z.of_nat (length data + n)) data (Is r true) =
    Some ((n <=? length r)%nat, data ++ take n r, (reads n r).2).
Proof.
  intros Hf. destruct fuel as [|[|fuel]]; [lia|lia|]. cbn [ReadFixFromStream good andb]. destruct n as [|n'].
  { rewrite Nat.add_0_r, Z.ltb_irrefl, Z.eqb_refl. unfold reads. cbn [take drop snd fst]. by rewrite app_nil_r. }
  set (n := S n') in *. rewrite (proj2 (Z.ltb_lt _ _)) by lia.
  replace (Z.of_nat (length data + n) - Z.of_nat (length data)) with (Z.of_nat n) by lia.
  unfold is_read. cbn [good rest]. rewrite Nat2Z.id, leb_Z. cbn [good]. unfold reads. cbn [snd].
  destruct (Nat.leb_spec n (length r)) as [Hr|Hr]; cbn [andb].
  - rewrite (proj2 (Z.ltb_ge _ _)) by (rewrite length_app, length_take; lia).
    by rewrite (proj2 (Z.eqb_eq _ _)) by (rewrite length_app, length_take; lia).
  - by rewrite (proj2 (Z.eqb_neq _ _)) by (rewrite length_app, length_take; lia).
Qed.

(** Reading a fixed size: with enough rounds both loops end, the one that limits
    its speed with the same result as the plain one, whatever the speed, the clock
    and the arithmetic on floats: the next [n] bytes, and whether there were so
    many. *)
Theorem ReadFix_correct over_rate ceil100 fuel file n speed clock r :
  (n + 1 < fuel)%nat →
  ReadFixFromStream fuel (Z.of_nat n) [] (Is r true) = Some (reads n r) ∧
  ∃ clock', ReadFixFromStreamWithSpeed over_rate ceil100 fuel file (Is r true) (Z.of_nat n) speed clock =
    Some (reads n r, clock').
Proof.
  intros Hf. split; [apply (ReadFix_loop fuel n [] r Hf)|].
  destruct (read_loop_reads over_rate fuel (per_round ceil100 speed) n [] r clock
    (if file then Some (new_SpeedLimit speed) else None)) as [clock' E]; [unfold per_round; lia|done|].
  exists clock'. exact E.
Qed.

Lemma ReadFix_correct_witness :
  ReadFixFromStream 8 3 [] (Is (of_lit "abcd") true) = Some (reads 3 (of_lit "abcd")) ∧
  ∃ clock', ReadFixFromStreamWithSpeed (λ c s, c * 1000 / s) (λ s, s / 100) 8 true (Is (of_lit "abcd") true) 3 10 5000 =
    Some (reads 3 (of_lit "abcd"), clock').
Proof. apply (ReadFix_correct (λ c s, c * 1000 / s) (λ s, s / 100) 8 true 3 10 5000 (of_lit "abcd")). lia. Defined.

(** Writing: when the stream is good at the end all of [data] was written and the
    result is [true]; [false] means the stream went bad. *)
Section Writing.
Context (over_rate : Z → Z → Z) (ceil100 : Z → Z) {O : Type} (os_good : O → bool) (os_write : str → O → O).
(** A stream that is good after a write was good before it and took all of it. *)
Context (written : O → str).
Hypothesis write_good : ∀ b os, os_good (os_write b os) = true → os_good os = true ∧ written (os_write b os) = written os ++ b.

Lemma write_loop_writes fuel per data n os clock limit :
  0 < per → (n ≤ length data)%nat → (length data - n < fuel)%nat →
  ∃ b os' clock', write_loop over_rate os_good os_write fuel per data (Z.of_nat n) os clock limit = Some (b, os', clock') ∧
    (os_good os' = true → os_good os = true ∧ b = true ∧ written os' = written os ++ drop n data) ∧
    (b = false → os_good os' = false).
Proof.
  intros Hper. revert n os clock limit. induction fuel as [|fuel IH]; intros n os clock limit Hn Hf; [lia|].
  cbn [write_loop]. destruct (os_good os) eqn:Hg; cbn [andb].
  2:{ eexists _, os, clock. split; [done|]. split; [by rewrite Hg|done]. }
  destruct (Z.ltb_spec (Z.of_nat n) (Z.of_nat (length data))) as [Hlt|Hge].
  2:{ assert (n = length data) as -> by lia. eexists _, os, clock. split; [done|]. rewrite Z.eqb_refl. split; [|done].
      intros _. by rewrite drop_all, app_nil_r. }
  assert (∃ k, (if per <? Z.of_nat (length data) - Z.of_nat n then per else Z.of_nat (length data) - Z.of_nat n) = Z.of_nat k ∧
    (1 ≤ k ≤ length data - n)%nat) as (k&->&Hk).
  { destruct (Z.ltb_spec per (Z.of_nat (length data) - Z.of_nat n)); [exists (Z.to_nat per)|exists (length data - n)%nat]; lia. }
  destruct (limited over_rate (Z.of_nat k) clock limit) as [clock1 limit1]. rewrite !Nat2Z.id.
  replace (Z.of_nat n + Z.of_nat k) with (Z.of_nat (n + k)) by lia.
  destruct (IH (n + k)%nat (os_write (take k (drop n data)) os) clock1 limit1) as (b&os'&clock'&->&Hgood&Hbad); [lia|lia|].
  exists b, os', clock'. split; [done|]. split; [|done]. intros Hg'. destruct (Hgood Hg') as (Hg1&->&->).
  destruct (write_good _ _ Hg1) as [_ ->]. split; [done|]. split; [done|].
  rewrite <- app_assoc, <- drop_drop. by rewrite take_drop.
Qed.

Lemma WriteFix_writes fuel file os data speed clock :
  (length data < fuel)%nat →
  ∃ b os' clock', WriteFixToStreamWithSpeed over_rate ceil100 os_good os_write fuel file os data speed clock = Some (b, os', clock') ∧
    (os_good os' = true → b = true ∧ written os' = written os ++ data) ∧ (b = false → os_good os' = false).
Proof.
  intros Hf. destruct (write_loop_writes fuel (per_round ceil100 speed) data 0 os clock
    (if file then Some (new_SpeedLimit speed) else None)) as (b&os'&clock'&E&Hg&Hb); [unfold per_round; lia|lia|lia|].
  exists b, os', clock'. split; [exact E|]. split; [|done]. intros H. by destruct (Hg H) as (_&?&?).
Qed.

End Writing.

(** A stream on a full device: the last write fails and the result is [true] all
    the same. *)
Example write_to_full :
  (λ r, (r.1.1, r.1.2)) <$> WriteFixToStreamWithSpeed (λ _ _, 0) (λ _, 0) id (λ _ _, false) 9 false true (of_lit "data") 0 0 =
  Some (true, false).
Proof. by vm_compute. Qed.

(** What [add] keeps to, for exact arithmetic: in a second that has begun, the count
    never runs ahead of the rate by more than a millisecond once [add] has slept. *)
Lemma add_limits curms v l :
  0 < m_speed l → curms / 1000 = m_curSec l →
  let '(l', slept) := add (λ c s, c * 1000 / s) curms v l in
  m_curCount l' * 1000 < (curms mod 1000 + slept + 1) * m_speed l ∧ 0 ≤ slept.
Proof.
  intros Hs Hc. unfold add. rewrite (proj2 (Z.eqb_eq _ _) Hc). cbn [negb]. cbv zeta. cbn [m_curCount].
  set (c := wrap 32 (m_curCount l + wrap 32 v)).
  assert (c * 1000 < (c * 1000 / m_speed l + 1) * m_speed l) as Hd.
  { pose proof (Z.mul_succ_div_gt (c * 1000) (m_speed l) Hs). nia. }
  destruct (Z.ltb_spec (curms mod 1000) (c * 1000 / m_speed l)); [|nia].
  replace (curms mod 1000 + (c * 1000 / m_speed l - curms mod 1000) + 1) with (c * 1000 / m_speed l + 1) by lia. lia.
Qed.

(** [Slice] ends, and cuts [src] into consecutive pieces of [size] elements, the
    last one shorter if need be and never empty, appended to [dst]. *)
Theorem Slice_correct {T} fuel dst (src : list T) size :
  (0 < size)%nat → (length src < fuel)%nat →
  ∃ out, Slice fuel dst src size = Some (dst ++ out) ∧ concat out = src ∧
    Forall (λ p, (0 < length p ≤ size)%nat) out ∧ Forall (λ p, length p = size) (removelast out).
Proof.
  intros Hs. unfold Slice. revert dst src. induction fuel as [|fuel IH]; intros dst src Hf; [lia|].
  cbn [slice_loop]. destruct (Nat.ltb_spec size (length src)) as [Hlt|Hge].
  - destruct (IH (dst ++ [take size src]) (drop size src)) as (out&->&Hc&Hall&Hlast); [rewrite length_drop; lia|].
    exists (take size src :: out). rewrite <- app_assoc. split; [done|]. cbn [concat]. rewrite Hc, take_drop. split; [done|].
    assert (length (take size src) = size) as Hl by (rewrite length_take; lia).
    split; [constructor; [lia|done]|]. destruct out as [|p out]; [constructor|]. by constructor.
  - destruct (Nat.ltb_spec 0 (length src)) as [Hp|Hp].
    + exists [src]. cbn. rewrite app_nil_r. split_and!; [done|done|by repeat constructor|constructor].
    + destruct src; [|cbn in Hp; lia]. exists []. rewrite app_nil_r. by split_and!.
Qed.

Lemma Slice_correct_witness : ∃ out, Slice 9 [] [1; 2; 3; 4; 5] 2 = Some ([] ++ out) ∧ concat out = [1; 2; 3; 4; 5] ∧
  Forall (λ p, (0 < length p ≤ 2)%nat) out ∧ Forall (λ p, length p = 2%nat) (removelast out).
Proof. apply (Slice_correct 9 [] [1; 2; 3; 4; 5] 2); cbn; lia. Defined.

(** With a size of zero the loop never ends on a vector that has elements. *)
Lemma Slice_zero {T} fuel dst (src : list T) : src ≠ [] → Slice fuel dst src 0 = None.
Proof.
  intros Hs. unfold Slice. revert dst. induction fuel as [|fuel IH]; intros dst; [done|]. cbn [slice_loop].
  destruct src as [|x src]; [done|]. cbn [length Nat.ltb Nat.leb drop]. apply IH.
Qed.
End StreamUtil.

Module SysUtil.

Abbreviation str := (list ascii).

(** ** Time *)

(** [gettimeofday]'s [tv_sec] and [tv_usec] *)
Definition GetCurrentMS (tv_sec tv_usec : Z) : Z := wrap 64 (wrap 64 tv_sec * 1000 + Z.quot tv_usec 1000).
Definition GetCurrentUS (tv_sec tv_usec : Z) : Z := wrap 64 (wrap 64 (swrap 64 (tv_sec * 1000)) * 1000 + tv_usec).

Section Times.
Context `{Libc}.

(** [Time2Str]: [None] when [localtime_r] failed or the text does not fit in 64
    bytes, and the buffer that is returned was never written. *)
Definition Time2Str (ts : Z) (format : str) : option str :=
  match localtime_r ts with
  | None => None
  | Some tm => Http.c_str <$> strftime 64 (Http.c_str format) tm
  end.

(** [strptime] into a cleared [tm], and [mktime] *)
Context (strptime : str → str → option tm) (mktime : tm → Z).

Definition Str2Time (text format : str) : Z :=
  match strptime text format with
  | None => 0
  | Some t => mktime t
  end.

(** For functions that undo each other a time survives its text. *)
Lemma Str2Time_Time2Str ts format text :
  (∀ t s, localtime_r ts = Some t → strftime 64 (Http.c_str format) t = Some s →
     strptime (Http.c_str s) (Http.c_str format) = Some t ∧ mktime t = ts) →
  Time2Str ts format = Some text → Str2Time text (Http.c_str format) = ts.
Proof.
  intros Hinv. unfold Time2Str, Str2Time. destruct (localtime_r ts) as [t|] eqn:El; [|done].
  destruct (strftime 64 (Http.c_str format) t) as [s|] eqn:Es; [|done]. intros [= <-].
  destruct (Hinv t s eq_refl Es) as [-> ->]. done.
Qed.

End Times.

(** The two clocks agree. *)
Lemma current_agree tv_sec tv_usec :
  0 ≤ tv_sec < 2 ^ 40 → 0 ≤ tv_usec < 1000000 →
  GetCurrentMS tv_sec tv_usec = GetCurrentUS tv_sec tv_usec / 1000.
Proof.
  intros Hs Hu. unfold GetCurrentMS, GetCurrentUS.
  assert (0 ≤ tv_usec ÷ 1000 < 1000) by (rewrite Z.quot_div_nonneg by lia; Z.div_mod_to_equations; lia).
  rewrite (swrap_small 64) by (unfold in_s; lia). rewrite !wrap_small by (unfold in_u; rewrite ?wrap_small; unfold in_u; lia).
  rewrite Z.quot_div_nonneg by lia. rewrite Z.add_comm, (Z.add_comm (tv_sec * 1000 * 1000)). by rewrite Z.div_add by lia.
Qed.

(** ** Back traces

    [frames] is what [backtrace] and [backtrace_symbols] find: [None] when there is
    no memory for the texts. *)
Definition Backtrace (frames : option (list str)) (bt : list str) (skip : Z) : list str :=
  match frames with
  | None => bt
  | Some strings => bt ++ drop (Z.to_nat (wrap 64 skip)) strings
  end.

Definition BackTracetoString (frames : option (list str)) (skip : Z) (prefix : str) : str :=
  flat_map (λ s, prefix ++ s ++ ["010"%char]) (Backtrace frames [] skip).

(** ** The host *)

(** [gethostname] into 511 bytes of a cleared buffer of 512 *)
Definition GetHostName (name : str) : str := Http.c_str (take 511 (Http.c_str name)).

(** An interface: its name, and the family and IPv4 address of its address when it
    has one. *)
Record ifaddr := If { ifa_name : str; ifa_addr : option (Z * Z) }.

Definition AF_INET : Z := 2.
Definition localhost : Z := 16777343.

(** [!strncasecmp(ifa_name, "lo", 2)] *)
Definition is_lo (name : str) : bool :=
  match name with
  | a :: b :: _ => Ascii.eqb (Util.tolower a) "l" && Ascii.eqb (Util.tolower b) "o"
  | _ => false
  end.

(** The loop ends at the first interface without an address. *)
Fixpoint ipv4_loop (ifas : list ifaddr) (ipv4 : Z) : Z :=
  match ifas with
  | [] => ipv4
  | ifa :: ifas =>
      match ifa_addr ifa with
      | None => ipv4
      | Some (family, s_addr) =>
          if negb (family =? AF_INET) then ipv4_loop ifas ipv4
          else if is_lo (ifa_name ifa) then ipv4_loop ifas ipv4
          else ipv4_loop ifas s_addr
      end
  end.

(** [GetIPv4Inet]; [None] is a failure of [getifaddrs]. *)
Definition GetIPv4Inet (ifas : option (list ifaddr)) : Z :=
  match ifas with
  | None => localhost
  | Some ifas => ipv4_loop ifas localhost
  end.

(** The interfaces before the first one without an address. *)
Fixpoint with_address (ifas : list ifaddr) : list (str * Z * Z) :=
  match ifas with
  | If name (Some (family, a)) :: ifas => (name, family, a) :: with_address ifas
  | _ => []
  end.

Definition candidates (ifas : list ifaddr) : list Z :=
  omap (λ i, if (i.1.2 =? AF_INET) && negb (is_lo i.1.1) then Some i.2 else None) (with_address ifas).

(** The address of the host: the last IPv4 address of an interface not called
    [lo...], among those before the first interface without an address, and the
    local host's when there is none. *)
Theorem GetIPv4Inet_last ifas : GetIPv4Inet (Some ifas) = default localhost (last (candidates ifas)).
Proof.
  unfold GetIPv4Inet. generalize localhost as d. induction ifas as [|[name [[family a]|]] ifas IH]; intros d; [done| |done].
  cbn [ipv4_loop ifa_addr ifa_name]. unfold candidates. cbn [with_address omap list_omap fst snd].
  destruct (family =? AF_INET); cbn [negb andb]; [|apply IH]. destruct (is_lo name); cbn [negb]; [apply IH|].
  rewrite IH. change (omap _ (with_address ifas)) with (candidates ifas).
  destruct (candidates ifas) as [|x l]; [done|]. rewrite (last_cons_cons a x).
  destruct (last (x :: l)) eqn:El; [done|]. by apply last_None in El.
Qed.

(** A tunnel without an address, listed before the network card, hides it. *)
Example hidden_interface :
  GetIPv4Inet (Some [If (of_lit "lo") (Some (AF_INET, localhost)); If (of_lit "tun0") None;
    If (of_lit "eth0") (Some (AF_INET, 16820416))]) = localhost.
Proof. done. Qed.

(** [GetIPv4]: the text of the first call is kept. *)
Section Text.
Context (inet_ntop : Z → str).
Definition _GetIPv4 (ifas : option (list ifaddr)) : str := Http.c_str (inet_ntop (GetIPv4Inet ifas)).
Definition GetIPv4 (ip : option str) (ifas : option (list ifaddr)) : str * option str :=
  match ip with
  | Some s => (s, ip)
  | None => let s := _GetIPv4 ifas in (s, Some s)
  end.

Lemma GetIPv4_stable ip ifas ifas' : (GetIPv4 (GetIPv4 ip ifas).2 ifas').1 = (GetIPv4 ip ifas).1.
Proof. by destruct ip. Qed.
End Text.

(** ** Text *)

(** [StringUtil::Formatv]: [None] is a failure of [vasprintf]. *)
Definition Formatv (printed : option str) : str := default [] printed.
Definition Format (printed : option str) : str := Formatv printed.

(** [TypeUtil] on strings and on pointers ([None]: null) *)
Definition ToChar (text : str) : Z := match text with [] => 0 | c :: _ => swrap 8 (b2z c) end.
Definition ToChar_ptr (text : option str) : Z :=
  match text with None => 0 | Some [] => 0 | Some (c :: _) => swrap 8 (b2z c) end.
Definition Atoi_ptr (text : option str) : Z :=
  match text with None => 0 | Some s => swrap 64 (JsonUtil.strtoull s) end.

Lemma Atoi_agree text : ("000"%char ∉ text) → text ≠ [] → Atoi_ptr (Some text) = JsonUtil.Atoi text.
Proof.
  intros Hz Hne. unfold Atoi_ptr, JsonUtil.Atoi. rewrite bool_decide_eq_false_2 by done.
  do 2 f_equal. induction text as [|c t IH]; [done|]. apply not_elem_of_cons in Hz as [Hc Hz]. cbn [Http.c_str].
  destruct (Ascii.eqb_spec c zero) as [->|_]; [done|]. f_equal. destruct t; [done|]. by apply IH.
Qed.

(** ** Wide strings

    The locale of the process is the state; [env] is what [setlocale(LC_ALL, "")]
    sets it to ([None]: no such locale).  [convert] is [wcstombs] in a locale,
    [None] for a character that has no bytes there: the buffer then has no room
    even for the zero that ends it. *)
Section Wide.
Context {A B : Type} (env : option str) (convert : str → list A → option (list B)).

Definition through_locale (text : list A) : M str (list B) := λ locale,
  match env with
  | None => Throw logic_error locale
  | Some str_locale =>
      match convert str_locale text with
      | None => UB
      | Some r => Ret r str_locale
      end
  end.

(** The name that is put back is the one just set: the caller's locale is lost. *)
Lemma locale_lost text locale r locale' :
  through_locale text locale = Ret r locale' → env = Some locale'.
Proof. unfold through_locale. destruct env as [e|]; [|done]. destruct (convert e text); [|done]. by intros [= _ <-]. Qed.
End Wide.

Definition WStringToString {A} := @through_locale A ascii.
Definition StringToWString {A} := @through_locale ascii A.

End SysUtil.
