(* ===== verification/Pbjson.v ===== *)
(** * Pbjson: protobuf messages as JSON (serialize_message, PBToJsonString of src/bobliew/util.cc)

    A message is what reflection shows of it: the class [Protobuf] gives its fields
    in the order of the descriptor with their values, and its unknown fields.
    [PBToJson_correct]: the conversion terminates and builds the object [pb_tree],
    with a member for every field that is set and every number of an unknown one. *)
From Stdlib Require Import Sorted.
From stdpp Require Import pretty.
From S2P Require Import Prelude Util Http Yaml Jsonutil Logconf Yamljson.
Import StdString JsonUtil YamlJson.
#[local] Open Scope list_scope.
#[local] Open Scope Z_scope.
#[local] Set Warnings "-clear-no-such-hyp".

Module PbJson.

Abbreviation str := (list ascii).

(** [google::protobuf::UnknownField] *)
Inductive unknown_field :=
| Varint (v : Z)
| Fixed32 (v : Z)
| Fixed64 (v : Z)
| LengthDelimited (v : str)
| Group.

(** A field value by its [cpp_type]; [F] is what floats are. *)
Inductive field_value (F Msg : Type) :=
| VInt32 (z : Z) | VUInt32 (z : Z) | VFloat (f : F) | VDouble (f : F) | VBool (b : bool)
| VInt64 (z : Z) | VUInt64 (z : Z) | VEnum (number : Z) | VString (s : str) | VMessage (m : Msg).
Arguments VInt32 {F Msg}. Arguments VUInt32 {F Msg}. Arguments VFloat {F Msg}. Arguments VDouble {F Msg}.
Arguments VBool {F Msg}. Arguments VInt64 {F Msg}. Arguments VUInt64 {F Msg}. Arguments VEnum {F Msg}.
Arguments VString {F Msg}. Arguments VMessage {F Msg}.

(** A field of the descriptor with its values in a message: those of a repeated
    one, or the one a singular field has when it is set. *)
Record field (F Msg : Type) := Field { f_name : str; is_repeated : bool; f_values : list (field_value F Msg) }.
Arguments Field {F Msg}. Arguments f_name {F Msg}. Arguments is_repeated {F Msg}. Arguments f_values {F Msg}.

(** Reflection. *)
Class Protobuf (F : Type) := {
  message : Type;
  fields : message → list (field F message);
  GetUnknownFields : message → list (Z * unknown_field);
  (** [UnknownFieldSet::ParseFromString] *)
  ParseFromString : str → option (list (Z * unknown_field));
}.

(** JSON values of numbers. *)
Class JsonNumbers {J : Json} (F : Type) := {
  (** [Json::Int] and [Json::Int64]; [Json::UInt] and [Json::UInt64] *)
  of_Int : Z → value;
  of_UInt : Z → value;
  of_bool : bool → value;
  of_double : F → value;
}.

Section Serialize.
Context {F : Type} {P : Protobuf F} {J : Json} {JB : JsonBuild} {JN : JsonNumbers F}.

(** [kvs[n].push_back(v)] in a [std::map] *)
Fixpoint push_kv {A} (n : Z) (v : A) (kvs : list (Z * list A)) : list (Z * list A) :=
  match kvs with
  | [] => [(n, [v])]
  | (k, vs) :: kvs =>
      if n =? k then (k, vs ++ [v]) :: kvs
      else if n <? k then (n, [v]) :: (k, vs) :: kvs
      else (k, vs) :: push_kv n v kvs
  end.

(** [std::to_string(n)] *)
Definition to_string (n : Z) : str := (if n <? 0 then of_lit "-" else []) ++ Http.show (Z.abs n).

(** [jnode[name].append(v)] *)
Definition append_to (jnode : value) (name : str) (v : value) : option value :=
  a ← append (member jnode name) v; set_member jnode name a.

Fixpoint append_each (jnode : value) (name : str) (vs : list value) : option value :=
  match vs with
  | [] => Some jnode
  | v :: vs => j ← append_to jnode name v; append_each j name vs
  end.

(** The second loop of [serialize_unknowfieldset]. *)
Fixpoint write_kvs (jnode : value) (kvs : list (Z * list value)) : option value :=
  match kvs with
  | [] => Some jnode
  | (n, vs) :: kvs =>
      j ← (match vs with
           | [v] => set_member jnode (to_string n) v
           | _ => append_each jnode (to_string n) vs
           end);
      write_kvs j kvs
  end.

(** The first loop; [ser] serializes a nested set into a fresh value.  The inner
    [None] is an exception, the outer one the end of the fuel. *)
Fixpoint collect (ser : list (Z * unknown_field) → option (option value)) (ufs : list (Z * unknown_field))
    (kvs : list (Z * list value)) : option (option (list (Z * list value))) :=
  match ufs with
  | [] => Some (Some kvs)
  | (n, uf) :: ufs =>
      match uf with
      | Varint v => collect ser ufs (push_kv n (of_Int (swrap 64 v)) kvs)
      | Fixed32 v => collect ser ufs (push_kv n (of_UInt v) kvs)
      | Fixed64 v => collect ser ufs (push_kv n (of_UInt v) kvs)
      | LengthDelimited v =>
          match (if bool_decide (v = []) then None else ParseFromString v) with
          | Some tmp =>
              match ser tmp with
              | None => None
              | Some None => Some None
              | Some (Some vv) => collect ser ufs (push_kv n vv kvs)
              end
          | None => collect ser ufs (push_kv n (of_string v) kvs)
          end
      | Group => collect ser ufs kvs
      end
  end.

Fixpoint serialize_unknowfieldset (fuel : nat) (ufs : list (Z * unknown_field)) (jnode : value) : option (option value) :=
  match fuel with
  | O => None
  | S fuel =>
      match collect (λ tmp, serialize_unknowfieldset fuel tmp jnull) ufs [] with
      | None => None
      | Some None => Some None
      | Some (Some kvs) => Some (write_kvs jnode kvs)
      end
  end.

(** One value; [ser] serializes a message into the value it is given. *)
Definition value_of (ser : message → value → option (option value)) (target : value) (v : field_value F message)
    : option (option value) :=
  match v with
  | VInt32 z | VInt64 z | VEnum z => Some (Some (of_Int z))
  | VUInt32 z | VUInt64 z => Some (Some (of_UInt z))
  | VFloat f | VDouble f => Some (Some (of_double f))
  | VBool b => Some (Some (of_bool b))
  | VString s => Some (Some (of_string s))
  | VMessage m => ser m target
  end.

Fixpoint append_values (ser : message → value → option (option value)) (jnode : value) (name : str)
    (vs : list (field_value F message)) : option (option value) :=
  match vs with
  | [] => Some (Some jnode)
  | v :: vs =>
      match value_of ser jnull v with
      | None => None
      | Some None => Some None
      | Some (Some x) =>
          match append_to jnode name x with
          | None => Some None
          | Some j => append_values ser j name vs
          end
      end
  end.

Definition serialize_field (ser : message → value → option (option value)) (jnode : value) (fd : field F message)
    : option (option value) :=
  if is_repeated fd then append_values ser jnode (f_name fd) (f_values fd)
  else
    match f_values fd with
    | [] => Some (Some jnode)
    | v :: _ =>
        match value_of ser (member jnode (f_name fd)) v with
        | None => None
        | Some None => Some None
        | Some (Some x) => Some (set_member jnode (f_name fd) x)
        end
    end.

Fixpoint serialize_fields (ser : message → value → option (option value)) (jnode : value) (fds : list (field F message))
    : option (option value) :=
  match fds with
  | [] => Some (Some jnode)
  | fd :: fds =>
      match serialize_field ser jnode fd with
      | None => None
      | Some None => Some None
      | Some (Some j) => serialize_fields ser j fds
      end
  end.

Fixpoint serialize_message (fuel : nat) (m : message) (jnode : value) : option (option value) :=
  match fuel with
  | O => None
  | S fuel =>
      match serialize_fields (serialize_message fuel) jnode (fields m) with
      | None => None
      | Some None => Some None
      | Some (Some j) => serialize_unknowfieldset fuel (GetUnknownFields m) j
      end
  end.

Definition PBToJsonString (fuel : nat) (m : message) : option (option str) :=
  match serialize_message fuel m jnull with
  | None => None
  | Some None => Some None
  | Some (Some j) => Some (Some (ToString j))
  end.

End Serialize.

(** ** What the conversion builds *)

Definition assoc {A} (k : str) (l : list (str * A)) : option A :=
  snd <$> List.find (λ p, bool_decide (p.1 = k)) l.

Definition as_obj (o : list (str * jtree)) : jtree := match o with [] => JNull | _ => JObject o end.

Definition one_or_many (ts : list jtree) : jtree := match ts with [t] => t | _ => JArray ts end.

(** What the libraries promise: field names are identifiers, each once in a message;
    field numbers are positive; the parts of a message are smaller than it, and a
    length-delimited field shorter than the text it is parsed from. *)
Class ProtobufLaws {F : Type} {P : Protobuf F} := {
  mdepth : message → nat;
  depth_part m fd x : fd ∈ fields m → VMessage x ∈ f_values fd → (mdepth x < mdepth m)%nat;
  depth_unknown m n v : (n, LengthDelimited v) ∈ GetUnknownFields m → (length v < mdepth m)%nat;
  parse_shorter v l n w : ParseFromString v = Some l → (n, LengthDelimited w) ∈ l → (length w < length v)%nat;
  names_unique m : NoDup (f_name <$> fields m);
  names_identifiers m fd : fd ∈ fields m → ∀ n, 0 ≤ n → f_name fd ≠ to_string n;
  unknown_positive m n uf : (n, uf) ∈ GetUnknownFields m → 0 < n;
  parse_positive v l n uf : ParseFromString v = Some l → (n, uf) ∈ l → 0 < n;
  singular_once m fd : fd ∈ fields m → is_repeated fd = false → (length (f_values fd) ≤ 1)%nat;
}.

Class JsonNumbersShape {F : Type} {J : Json} {JB : JsonBuild} {JS : JsonShape} {JN : JsonNumbers F} := {
  int_text : Z → str;
  bool_text : bool → str;
  double_text : F → str;
  Int_shape z : jshape (of_Int z) = JScalar (int_text z);
  UInt_shape z : jshape (of_UInt z) = JScalar (int_text z);
  bool_shape b : jshape (of_bool b) = JScalar (bool_text b);
  double_shape f : jshape (of_double f) = JScalar (double_text f);
  member_shape v o k : jshape v = as_obj o → jshape (member v k) = default JNull (assoc k o);
}.

Section Trees.
Context {F : Type} {P : Protobuf F} {J : Json} {JB : JsonBuild} {JS : JsonShape} {JN : JsonNumbers F} {NS : JsonNumbersShape (F := F)}.

Fixpoint unknown_entries (fuel : nat) (ufs : list (Z * unknown_field)) : list (str * jtree) :=
  match fuel with
  | O => []
  | S fuel =>
      let tree_of (uf : Z * unknown_field) : option (Z * jtree) :=
        match uf.2 with
        | Varint v => Some (uf.1, JScalar (int_text (swrap 64 v)))
        | Fixed32 v | Fixed64 v => Some (uf.1, JScalar (int_text v))
        | LengthDelimited v =>
            match (if bool_decide (v = []) then None else ParseFromString v) with
            | Some tmp => Some (uf.1, as_obj (foldl (λ o p, put_member p.1 p.2 o) [] (unknown_entries fuel tmp)))
            | None => Some (uf.1, JScalar v)
            end
        | Group => None
        end in
      (λ kv, (to_string kv.1, one_or_many kv.2)) <$> foldl (λ kvs p, push_kv p.1 p.2 kvs) [] (omap tree_of ufs)
  end.

Definition value_tree (rec : message → jtree) (v : field_value F message) : jtree :=
  match v with
  | VInt32 z | VUInt32 z | VInt64 z | VUInt64 z | VEnum z => JScalar (int_text z)
  | VFloat f | VDouble f => JScalar (double_text f)
  | VBool b => JScalar (bool_text b)
  | VString s => JScalar s
  | VMessage m => rec m
  end.

(** The member of a field that has values. *)
Definition field_entry (rec : message → jtree) (fd : field F message) : option (str * jtree) :=
  match value_tree rec <$> f_values fd with
  | [] => None
  | t :: ts => Some (f_name fd, if is_repeated fd then JArray (t :: ts) else t)
  end.

Fixpoint pb_tree (fuel : nat) (m : message) : jtree :=
  match fuel with
  | O => JNull
  | S fuel =>
      as_obj (foldl (λ o p, put_member p.1 p.2 o) []
        (omap (field_entry (pb_tree fuel)) (fields m) ++ unknown_entries fuel (GetUnknownFields m)))
  end.

End Trees.

(** ** Members *)

Lemma assoc_put_eq {A} k (v : A) o : assoc k (put_member k v o) = Some v.
Proof.
  unfold assoc. induction o as [|[k' w] o IH]; cbn [put_member List.find fst]; [by rewrite bool_decide_eq_true_2|].
  destruct (bool_decide_reflect (k = k')) as [->|Hne]; cbn [List.find fst]; [by rewrite bool_decide_eq_true_2|].
  destruct (LogConf.str_lt k k'); cbn [List.find fst]; [by rewrite bool_decide_eq_true_2|].
  by rewrite bool_decide_eq_false_2 by congruence.
Qed.

Lemma put_put {A} k (v w : A) o : put_member k w (put_member k v o) = put_member k w o.
Proof.
  induction o as [|[k' x] o IH]; cbn [put_member]; [by rewrite bool_decide_eq_true_2|].
  destruct (bool_decide_reflect (k = k')) as [->|Hne]; cbn [put_member]; [by rewrite bool_decide_eq_true_2|].
  destruct (LogConf.str_lt k k') eqn:E; cbn [put_member]; [by rewrite bool_decide_eq_true_2|].
  rewrite bool_decide_eq_false_2 by done. by rewrite E, IH.
Qed.

Lemma put_keys {A} k (v : A) o x : x ∈ (put_member k v o).*1 → x = k ∨ x ∈ o.*1.
Proof.
  induction o as [|[k' w] o IH]; cbn [put_member]; [by intros [->|?%not_elem_of_nil]%elem_of_cons; [left|]|].
  destruct (bool_decide_reflect (k = k')) as [->|Hne]; [by intros [->|?]%elem_of_cons; [left|right; right]|].
  destruct (LogConf.str_lt k k'); [by intros [->|?]%elem_of_cons; [left|right]|].
  intros [->|[?|?]%IH]%elem_of_cons; [right; by left|by left|right; by right].
Qed.

Lemma assoc_fresh {A} k (o : list (str * A)) : k ∉ o.*1 → assoc k o = None.
Proof.
  unfold assoc. induction o as [|[k' w] o IH]; intros Hk; [done|]. cbn [fmap list_fmap fst] in Hk.
  apply not_elem_of_cons in Hk as [Hne Hk]. cbn [List.find fst]. rewrite bool_decide_eq_false_2 by congruence. by apply IH.
Qed.

Lemma as_obj_put k v o : as_obj (put_member k v o) = JObject (put_member k v o).
Proof. destruct o as [|[k' w] o]; [done|]. cbn [put_member]. by repeat case_match. Qed.

(** Entering members whose names are new. *)
Lemma put_all_keys (l : list (str * jtree)) o x :
  x ∈ (foldl (λ o p, put_member p.1 p.2 o) o l).*1 → x ∈ o.*1 ∨ x ∈ l.*1.
Proof.
  revert o. induction l as [|[k v] l IH]; intros o Hx; [by left|]. cbn [foldl fst snd] in Hx.
  destruct (IH _ Hx) as [[->|?]%put_keys|?]; [right; by left|by left|right; by right].
Qed.

Section Members.
Context {F : Type} {J : Json} {JB : JsonBuild} {JS : JsonShape} {JN : JsonNumbers F} {NS : JsonNumbersShape (F := F)}.

Lemma set_obj j o k v : jshape j = as_obj o →
  ∃ j', set_member j k v = Some j' ∧ jshape j' = as_obj (put_member k (jshape v) o).
Proof.
  intros Hj. rewrite as_obj_put. destruct o as [|p o]; [by apply member_null|]. by apply member_object.
Qed.

Lemma append_to_more j o k l v :
  jshape j = as_obj o → assoc k o = match l with [] => None | _ => Some (JArray l) end →
  ∃ j', append_to j k v = Some j' ∧ jshape j' = as_obj (put_member k (JArray (l ++ [jshape v])) o).
Proof.
  intros Hj Ha. unfold append_to. pose proof (member_shape j o k Hj) as Hm. rewrite Ha in Hm.
  assert (∃ a, append (member j k) v = Some a ∧ jshape a = JArray (l ++ [jshape v])) as (a&->&Hs).
  { destruct l as [|x l]; cbn in Hm; [by apply append_null|by apply append_array]. }
  cbn [mbind option_bind]. destruct (set_obj j o k a Hj) as (j'&->&Hj'). exists j'. by rewrite Hj', Hs.
Qed.

Lemma append_each_all j o k l vs :
  jshape j = as_obj o → assoc k o = match l with [] => None | _ => Some (JArray l) end → vs ≠ [] →
  ∃ j', append_each j k vs = Some j' ∧ jshape j' = as_obj (put_member k (JArray (l ++ (jshape <$> vs))) o).
Proof.
  revert j o l. induction vs as [|v vs IH]; intros j o l Hj Ha Hne; [done|]. cbn [append_each].
  destruct (append_to_more j o k l v Hj Ha) as (j1&->&Hj1). cbn [mbind option_bind].
  destruct vs as [|w vs]; [exists j1; by split|].
  destruct (IH j1 (put_member k (JArray (l ++ [jshape v])) o) (l ++ [jshape v])) as (j'&->&Hj'); [done| |done|].
  { rewrite assoc_put_eq. by destruct l. }
  exists j'. split; [done|]. by rewrite Hj', put_put, <- app_assoc.
Qed.

Lemma to_string_inj n m : 0 ≤ n → 0 ≤ m → to_string n = to_string m → n = m.
Proof.
  intros Hn Hm. unfold to_string. rewrite !(proj2 (Z.ltb_ge _ _)) by lia. cbn [app]. unfold Http.show, of_lit.
  intros H. apply (f_equal String.string_of_list_ascii) in H. rewrite !String.string_of_list_ascii_of_string in H.
  apply (inj pretty) in H. lia.
Qed.

Definition number_entries (kvs : list (Z * list jtree)) : list (str * jtree) := (λ kv, (to_string kv.1, one_or_many kv.2)) <$> kvs.

Lemma write_kvs_all j o kvs :
  jshape j = as_obj o → NoDup kvs.*1 → (∀ kv, kv ∈ kvs → 0 ≤ kv.1 ∧ kv.2 ≠ [] ∧ (to_string kv.1 ∉ o.*1)) →
  ∃ j', write_kvs j kvs = Some j' ∧
    jshape j' = as_obj (foldl (λ o p, put_member p.1 p.2 o) o (number_entries ((λ kv : Z * list value, (kv.1, jshape <$> kv.2)) <$> kvs))).
Proof.
  revert j o. induction kvs as [|[n vs] kvs IH]; intros j o Hj Hnd Hkv; [by exists j|].
  cbn [fmap list_fmap fst] in Hnd. apply NoDup_cons in Hnd as [Hn Hnd].
  destruct (Hkv (n, vs)) as (Hpos&Hne&Hfresh); [by left|]. cbn [fst snd] in *. cbn [write_kvs].
  assert (∃ j1, (match vs with [v] => set_member j (to_string n) v | _ => append_each j (to_string n) vs end) = Some j1 ∧
    jshape j1 = as_obj (put_member (to_string n) (one_or_many (jshape <$> vs)) o)) as (j1&->&Hj1).
  { destruct vs as [|v [|w vs]]; [done|by apply set_obj|].
    destruct (append_each_all j o (to_string n) [] (v :: w :: vs) Hj (assoc_fresh _ _ Hfresh)) as (j1&->&Hj1); [done|by exists j1]. }
  cbn [mbind option_bind]. apply IH; [done|done|]. intros kv Hin. destruct (Hkv kv) as (?&?&Hf); [by right|]. split_and!; [done|done|].
  intros [E|?]%put_keys; [|done]. apply Hn. rewrite <- (to_string_inj kv.1 n) by done. by apply list_elem_of_fmap_2.
Qed.

Lemma push_kv_fmap {A B} (f : A → B) n v kvs :
  (λ kv : Z * list A, (kv.1, f <$> kv.2)) <$> push_kv n v kvs = push_kv n (f v) ((λ kv : Z * list A, (kv.1, f <$> kv.2)) <$> kvs).
Proof.
  induction kvs as [|[k vs] kvs IH]; [done|]. cbn [push_kv fmap list_fmap fst snd].
  destruct (n =? k); [cbn [fmap list_fmap fst snd]; by rewrite fmap_app|].
  destruct (n <? k); [done|]. cbn [fmap list_fmap fst snd]. by rewrite IH.
Qed.

(** [kvs] as the first loop leaves it: numbers in order, each with its values. *)
Definition kvs_ok {A} (kvs : list (Z * list A)) : Prop :=
  StronglySorted (λ p q, p.1 < q.1) kvs ∧ ∀ kv, kv ∈ kvs → 0 < kv.1 ∧ kv.2 ≠ [].

Lemma push_kv_in {A} n (v : A) kvs kv : kv ∈ push_kv n v kvs → kv.1 = n ∧ kv.2 ≠ [] ∨ kv ∈ kvs.
Proof.
  induction kvs as [|[k vs] kvs IH]; cbn [push_kv]; [by intros [->|?%not_elem_of_nil]%elem_of_cons; [left|]|].
  destruct (Z.eqb_spec n k) as [->|]; [intros [->|?]%elem_of_cons; [left; split; [done|by destruct vs]|right; by right]|].
  destruct (n <? k); [by intros [->|?]%elem_of_cons; [left|right]|].
  intros [->|[?|?]%IH]%elem_of_cons; [right; by left|by left|right; by right].
Qed.

Lemma push_kv_ok {A} n (v : A) kvs : 0 < n → kvs_ok kvs → kvs_ok (push_kv n v kvs).
Proof.
  intros Hn [Hs Hall]. split.
  - clear Hall. induction Hs as [|[k vs] kvs Hs IH Hlt]; [by repeat constructor|]. cbn [push_kv].
    destruct (Z.eqb_spec n k) as [->|Hne]; [by constructor|]. destruct (Z.ltb_spec n k) as [Hk|Hk].
    + constructor; [by constructor|]. constructor; [done|]. eapply Forall_impl; [exact Hlt|]. intros q Hq. cbn in *. lia.
    + constructor; [done|]. apply Forall_forall. intros q [[Hq _]|Hq]%push_kv_in; cbn; [lia|].
      by apply (proj1 (Forall_forall _ _) Hlt q).
  - intros kv [[-> ?]|?]%push_kv_in; [done|by apply Hall].
Qed.

Lemma kvs_ok_nodup {A} (kvs : list (Z * list A)) : kvs_ok kvs → NoDup kvs.*1.
Proof.
  intros [Hs _]. induction Hs as [|p kvs Hs IH Hlt]; [constructor|]. cbn. constructor; [|done].
  intros (q&Hq&Hin)%list_elem_of_fmap. pose proof (proj1 (Forall_forall _ _) Hlt q Hin) as H'. cbn in H'. lia.
Qed.

End Members.

Section Correct.
Context {F : Type} {P : Protobuf F} {PL : ProtobufLaws} {J : Json} {JB : JsonBuild} {JS : JsonShape}.
Context {JN : JsonNumbers F} {NS : JsonNumbersShape (F := F)}.

(** What a nested set becomes. *)
Definition nested (fuel : nat) (tmp : list (Z * unknown_field)) : jtree :=
  as_obj (foldl (λ o p, put_member p.1 p.2 o) [] (unknown_entries fuel tmp)).

Definition uf_tree (fuel : nat) (uf : Z * unknown_field) : option (Z * jtree) :=
  match uf.2 with
  | Varint v => Some (uf.1, JScalar (int_text (swrap 64 v)))
  | Fixed32 v | Fixed64 v => Some (uf.1, JScalar (int_text v))
  | LengthDelimited v =>
      match (if bool_decide (v = []) then None else ParseFromString v) with
      | Some tmp => Some (uf.1, nested fuel tmp)
      | None => Some (uf.1, JScalar v)
      end
  | Group => None
  end.

Lemma collect_all ser fuel ufs kvs :
  (∀ n uf, (n, uf) ∈ ufs → 0 < n) →
  (∀ n v tmp, (n, LengthDelimited v) ∈ ufs → v ≠ [] → ParseFromString v = Some tmp →
     ∃ vv, ser tmp = Some (Some vv) ∧ jshape vv = nested fuel tmp) →
  kvs_ok kvs →
  ∃ kvs', collect ser ufs kvs = Some (Some kvs') ∧ kvs_ok kvs' ∧
    (λ kv : Z * list value, (kv.1, jshape <$> kv.2)) <$> kvs' =
    foldl (λ kvs p, push_kv p.1 p.2 kvs) ((λ kv : Z * list value, (kv.1, jshape <$> kv.2)) <$> kvs) (omap (uf_tree fuel) ufs).
Proof.
  revert kvs. induction ufs as [|[n uf] ufs IH]; intros kvs Hpos Hser Hok; [by exists kvs|].
  assert (∀ kvs, kvs_ok kvs → ∃ kvs', collect ser ufs kvs = Some (Some kvs') ∧ kvs_ok kvs' ∧
    (λ kv : Z * list value, (kv.1, jshape <$> kv.2)) <$> kvs' =
    foldl (λ kvs p, push_kv p.1 p.2 kvs) ((λ kv : Z * list value, (kv.1, jshape <$> kv.2)) <$> kvs) (omap (uf_tree fuel) ufs)) as Hrest.
  { intros kvs1 Hok1. apply IH; [intros; eapply Hpos; by right|intros; eapply Hser; [by right|done|done]|done]. }
  assert (0 < n) as Hn by (eapply Hpos; by left).
  assert (∀ x t, jshape x = t → ∃ kvs', collect ser ufs (push_kv n x kvs) = Some (Some kvs') ∧ kvs_ok kvs' ∧
    (λ kv : Z * list value, (kv.1, jshape <$> kv.2)) <$> kvs' =
    foldl (λ kvs p, push_kv p.1 p.2 kvs) ((λ kv : Z * list value, (kv.1, jshape <$> kv.2)) <$> kvs) ((n, t) :: omap (uf_tree fuel) ufs)) as Hpush.
  { intros x t <-. destruct (Hrest (push_kv n x kvs) (push_kv_ok n x kvs Hn Hok)) as (kvs'&E&Hok'&Hs). exists kvs'.
    split; [done|]. split; [done|]. by rewrite Hs, push_kv_fmap. }
  cbn [omap list_omap collect]. destruct uf as [v|v|v|v|]; cbn [uf_tree fst snd].
  - apply Hpush, Int_shape.
  - apply Hpush, UInt_shape.
  - apply Hpush, UInt_shape.
  - destruct (bool_decide_reflect (v = [])) as [|Hv]; [apply Hpush, jshape_string|].
    destruct (ParseFromString v) as [tmp|] eqn:Ep; [|apply Hpush, jshape_string].
    destruct (Hser n v tmp) as (vv&->&Hvv); [by left|done|done|]. by apply Hpush.
  - by apply Hrest.
Qed.

Lemma unknown_numbers fuel ufs k :
  k ∈ (unknown_entries fuel ufs).*1 → (∀ n uf, (n, uf) ∈ ufs → 0 < n) → ∃ n, 0 < n ∧ k = to_string n.
Proof.
  destruct fuel as [|fuel]; [by intros ?%not_elem_of_nil|]. cbn [unknown_entries]. rewrite <- list_fmap_compose.
  intros ([n ts]&->&Hin)%list_elem_of_fmap Hpos. exists n. split; [|done]. revert Hin.
  assert (∀ (l : list (Z * jtree)) kvs, (∀ p, p ∈ l → 0 < p.1) → (∀ kv, kv ∈ kvs → 0 < kv.1) →
    ∀ kv : Z * list jtree, kv ∈ foldl (λ kvs p, push_kv p.1 p.2 kvs) kvs l → 0 < kv.1) as Hall.
  { induction l as [|p l IH]; intros kvs Hl Hk kv; [by apply Hk|]. cbn [foldl]. apply IH; [intros; apply Hl; by right|].
    intros kv' [[-> _]|?]%push_kv_in; [apply Hl; by left|by apply Hk]. }
  intros Hin. apply (Hall _ [] ) in Hin; [done| |intros ? ?%not_elem_of_nil; done].
  intros p ([m uf]&Hm&E)%list_elem_of_omap. specialize (Hpos m uf Hm). cbn [snd fst] in E. destruct uf; repeat case_match; by simplify_eq.
Qed.

Lemma unknown_shape fuel ufs j o :
  (0 < fuel)%nat → (∀ n v, (n, LengthDelimited v) ∈ ufs → (length v < fuel)%nat) → (∀ n uf, (n, uf) ∈ ufs → 0 < n) →
  jshape j = as_obj o → (∀ n, 0 < n → to_string n ∉ o.*1) →
  ∃ j', serialize_unknowfieldset fuel ufs j = Some (Some j') ∧
    jshape j' = as_obj (foldl (λ o p, put_member p.1 p.2 o) o (unknown_entries fuel ufs)).
Proof.
  revert ufs j o. induction fuel as [|fuel IH]; intros ufs j o Hf Hlen Hpos Hj Hfresh; [lia|].
  cbn [serialize_unknowfieldset].
  destruct (collect_all (λ tmp, serialize_unknowfieldset fuel tmp jnull) fuel ufs []) as (kvs&->&Hok&Hs); [done| |split; [constructor|by intros ? ?%not_elem_of_nil]|].
  { intros n v tmp Hin Hv Hp. specialize (Hlen n v Hin). assert (0 < length v)%nat by (destruct v; [done|cbn; lia]).
    apply (IH tmp jnull []); [lia| | |by rewrite jshape_null|].
    - intros m w Hw. pose proof (parse_shorter v tmp m w Hp Hw). lia.
    - intros m uf Hm. by eapply parse_positive.
    - intros ? _ ?%not_elem_of_nil. done. }
  destruct (write_kvs_all j o kvs Hj (kvs_ok_nodup _ Hok)) as (j'&->&Hj').
  { intros kv Hin. destruct (proj2 Hok kv Hin). split_and!; [lia|done|by apply Hfresh]. }
  exists j'. split; [done|]. rewrite Hj', Hs. done.
Qed.

Lemma value_of_shape ser rec target v :
  jshape target = JNull → (∀ x, v = VMessage x → ∀ t, jshape t = JNull → ∃ j, ser x t = Some (Some j) ∧ jshape j = rec x) →
  ∃ j, value_of ser target v = Some (Some j) ∧ jshape j = value_tree rec v.
Proof.
  intros Ht Hser. destruct v; cbn [value_of value_tree];
    try (eexists; split; [done|]; by rewrite ?Int_shape, ?UInt_shape, ?double_shape, ?bool_shape, ?jshape_string).
  by apply Hser.
Qed.

Lemma append_values_shape ser rec j o k l vs :
  jshape j = as_obj o → assoc k o = match l with [] => None | _ => Some (JArray l) end → vs ≠ [] →
  (∀ x, VMessage x ∈ vs → ∀ t, jshape t = JNull → ∃ j, ser x t = Some (Some j) ∧ jshape j = rec x) →
  ∃ j', append_values ser j k vs = Some (Some j') ∧
    jshape j' = as_obj (put_member k (JArray (l ++ (value_tree rec <$> vs))) o).
Proof.
  revert j o l. induction vs as [|v vs IH]; intros j o l Hj Ha Hne Hser; [done|]. cbn [append_values].
  destruct (value_of_shape ser rec jnull v jshape_null) as (x&->&Hx); [intros y ->; apply Hser; by left|].
  destruct (append_to_more j o k l x Hj Ha) as (j1&->&Hj1).
  destruct vs as [|w vs]; [exists j1; split; [done|]; by rewrite Hj1, Hx|].
  destruct (IH j1 (put_member k (JArray (l ++ [jshape x])) o) (l ++ [jshape x])) as (j'&->&Hj'); [done| |done|intros; apply Hser; [by right|done]|].
  { rewrite assoc_put_eq. by destruct l. }
  exists j'. split; [done|]. by rewrite Hj', put_put, Hx, <- app_assoc.
Qed.

Lemma serialize_field_shape ser rec fd j o :
  jshape j = as_obj o → (f_name fd ∉ o.*1) → (is_repeated fd = false → (length (f_values fd) ≤ 1)%nat) →
  (∀ x, VMessage x ∈ f_values fd → ∀ t, jshape t = JNull → ∃ j, ser x t = Some (Some j) ∧ jshape j = rec x) →
  ∃ j', serialize_field ser j fd = Some (Some j') ∧
    jshape j' = as_obj (match field_entry rec fd with Some p => put_member p.1 p.2 o | None => o end).
Proof.
  intros Hj Hk Hone Hser. unfold serialize_field, field_entry. destruct (is_repeated fd) eqn:Hr.
  - destruct (f_values fd) as [|v vs] eqn:Ev; [by exists j|].
    destruct (append_values_shape ser rec j o (f_name fd) [] (v :: vs) Hj (assoc_fresh _ _ Hk)) as (j'&->&Hj'); [done|done|].
    by exists j'.
  - destruct (f_values fd) as [|v vs] eqn:Ev; [by exists j|].
    pose proof (member_shape j o (f_name fd) Hj) as Hm. rewrite (assoc_fresh _ _ Hk) in Hm.
    destruct (value_of_shape ser rec (member j (f_name fd)) v Hm) as (x&->&Hx); [intros y ->; apply Hser; by left|].
    destruct (set_obj j o (f_name fd) x Hj) as (j'&->&Hj'). exists j'. split; [done|]. by rewrite Hj', Hx.
Qed.

Lemma serialize_fields_shape ser rec fds j o :
  jshape j = as_obj o → NoDup (f_name <$> fds) → (∀ fd, fd ∈ fds → f_name fd ∉ o.*1) →
  (∀ fd, fd ∈ fds → is_repeated fd = false → (length (f_values fd) ≤ 1)%nat) →
  (∀ fd x, fd ∈ fds → VMessage x ∈ f_values fd → ∀ t, jshape t = JNull → ∃ j, ser x t = Some (Some j) ∧ jshape j = rec x) →
  ∃ j', serialize_fields ser j fds = Some (Some j') ∧
    jshape j' = as_obj (foldl (λ o p, put_member p.1 p.2 o) o (omap (field_entry rec) fds)).
Proof.
  revert j o. induction fds as [|fd fds IH]; intros j o Hj Hnd Hk Hone Hser; [by exists j|].
  cbn [serialize_fields omap list_omap fmap list_fmap] in *. apply NoDup_cons in Hnd as [Hni Hnd].
  destruct (serialize_field_shape ser rec fd j o Hj) as (j1&->&Hj1); [apply Hk; by left|apply Hone; by left|intros; eapply Hser; [by left|done|done]|].
  destruct (IH j1 _ Hj1 Hnd) as (j'&->&Hj').
  - intros fd' Hin. destruct (field_entry rec fd) as [p|] eqn:Ep; [|apply Hk; by right].
    intros [E|?]%put_keys; [|eapply Hk; [by right|done]]. apply Hni.
    assert (p.1 = f_name fd) as Hp by (unfold field_entry in Ep; destruct (value_tree rec <$> f_values fd); by simplify_eq).
    rewrite <- Hp, <- E. by apply list_elem_of_fmap_2.
  - intros; apply Hone; [by right|done].
  - intros; eapply Hser; [by right|done|done].
  - exists j'. split; [done|]. rewrite Hj'. by destruct (field_entry rec fd).
Qed.

Lemma serialize_message_shape fuel m j :
  (mdepth m + 1 < fuel)%nat → jshape j = JNull →
  ∃ j', serialize_message fuel m j = Some (Some j') ∧ jshape j' = pb_tree fuel m.
Proof.
  revert m j. induction fuel as [|fuel IH]; intros m j Hf Hj; [lia|]. cbn [serialize_message pb_tree].
  destruct (serialize_fields_shape (serialize_message fuel) (pb_tree fuel) (fields m) j [] Hj (names_unique m)) as (j1&->&Hj1).
  { intros fd _ ?%not_elem_of_nil. done. } { apply singular_once. }
  { intros fd x Hfd Hx t Ht. apply IH; [|done]. pose proof (depth_part m fd x Hfd Hx). lia. }
  edestruct (unknown_shape fuel (GetUnknownFields m) j1) as (j'&->&Hj'); [lia| | |exact Hj1| |].
  - intros n v Hin. pose proof (depth_unknown m n v Hin). lia.
  - apply unknown_positive.
  - intros n Hn [?%not_elem_of_nil|Hin]%put_all_keys; [done|].
    apply list_elem_of_fmap in Hin as (p&Hp&(fd&Hfd&Ep)%list_elem_of_omap).
    assert (p.1 = f_name fd) as Hpn by (unfold field_entry in Ep; destruct (value_tree (pb_tree fuel) <$> f_values fd); by simplify_eq).
    apply (names_identifiers m fd Hfd n); [lia|congruence].
  - exists j'. split; [done|]. by rewrite Hj', foldl_app.
Qed.

(** A protobuf message becomes a JSON object: the conversion terminates without
    an exception, and the object has a member for every field that is set (an array
    for a repeated one, an object for a message, text for the rest) and one for
    every number of an unknown field, nested sets included. *)
Theorem PBToJson_correct fuel m :
  (mdepth m + 1 < fuel)%nat →
  ∃ j, PBToJsonString fuel m = Some (Some (write j)) ∧ jshape j = pb_tree fuel m.
Proof.
  intros Hf. destruct (serialize_message_shape fuel m jnull Hf jshape_null) as (j&E&Hj). exists j. split; [|done].
  unfold PBToJsonString. by rewrite E.
Qed.

End Correct.

End PbJson.

(** ** Two messages

    An instance to run the conversion with: a message that holds two others and has
    unknown fields. *)
Module SamplePb.
Import PbJson TreeJson.

Inductive sample := Outer | Inner.

#[export] Instance sample_pb : Protobuf unit := {|
  message := sample;
  fields m := match m with
    | Outer => [Field (of_lit "id") false [VInt32 7]; Field (of_lit "subs") true [VMessage Inner; VMessage Inner];
                Field (of_lit "unset") false []]
    | Inner => [Field (of_lit "name") false [VString (of_lit "x")]]
    end;
  GetUnknownFields m := match m with
    | Outer => [(3, Varint 5); (4, LengthDelimited (of_lit "uab")); (3, Varint 6)]
    | Inner => []
    end;
  ParseFromString v := match v with
    | c :: v => if Ascii.eqb c "u" then Some [(1, LengthDelimited v)] else None
    | [] => None
    end;
|}.

Lemma letter_name c w n : c ∉ of_lit "0123456789-" → c :: w ≠ to_string n.
Proof.
  intros Hc E. assert (c ∈ to_string n) as Hin by (rewrite <- E; by left). unfold to_string in Hin.
  apply elem_of_app in Hin as [Hin|Hin%Http.show_digits]; apply Hc.
  - destruct (n <? 0); [|by apply not_elem_of_nil in Hin]. apply list_elem_of_singleton in Hin as ->.
    apply (bool_decide_unpack _). by vm_compute.
  - change (of_lit "0123456789-") with (of_lit "0123456789" ++ of_lit "-"). apply elem_of_app. by left.
Qed.

#[export] Instance sample_laws : ProtobufLaws.
Proof.
  refine {| mdepth := (λ m, match m with Outer => 4%nat | Inner => 0%nat end) : message → nat |}.
  - intros [] fd x Hfd%list_elem_of_In Hx%list_elem_of_In; cbn in Hfd; intuition (subst fd); cbn in Hx; intuition congruence || (destruct_or?; try done; simplify_eq; lia).
  - intros [] n v Hin; cbn [GetUnknownFields sample_pb] in Hin; [|by apply not_elem_of_nil in Hin].
    repeat setoid_rewrite elem_of_cons in Hin. destruct Hin as [|[[= -> ->]|[|Hin]]]; try done; [cbn; lia|by apply not_elem_of_nil in Hin].
  - intros [|c v] l n w Hp Hin; cbn in Hp; [done|]. destruct (Ascii.eqb c "u"); [|done]. injection Hp as <-.
    apply list_elem_of_singleton in Hin. injection Hin as -> ->. cbn. lia.
  - intros []; apply (bool_decide_unpack _); by vm_compute.
  - intros [] fd Hfd n _; cbn [fields sample_pb] in Hfd; repeat setoid_rewrite elem_of_cons in Hfd.
    + destruct Hfd as [->|[->|[->|Hfd]]]; [..|by apply not_elem_of_nil in Hfd];
        apply letter_name; apply (bool_decide_unpack _); by vm_compute.
    + destruct Hfd as [->|Hfd]; [|by apply not_elem_of_nil in Hfd]. apply letter_name; apply (bool_decide_unpack _); by vm_compute.
  - intros [] n uf Hin; cbn [GetUnknownFields sample_pb] in Hin; [|by apply not_elem_of_nil in Hin].
    repeat setoid_rewrite elem_of_cons in Hin. destruct Hin as [[= -> _]|[[= -> _]|[[= -> _]|Hin]]]; [lia..|by apply not_elem_of_nil in Hin].
  - intros [|c v] l n uf Hp Hin; cbn in Hp; [done|]. destruct (Ascii.eqb c "u"); [|done]. injection Hp as <-.
    apply list_elem_of_singleton in Hin. injection Hin as -> _. lia.
  - intros [] fd Hfd Hr; cbn [fields sample_pb] in Hfd; repeat setoid_rewrite elem_of_cons in Hfd.
    + destruct Hfd as [->|[->|[->|Hfd]]]; [..|by apply not_elem_of_nil in Hfd]; cbn in *; try done; lia.
    + destruct Hfd as [->|Hfd]; [|by apply not_elem_of_nil in Hfd]. cbn. lia.
Defined.

#[export] Instance sample_numbers : JsonNumbers unit := {|
  of_Int z := (JScalar (to_string z) : @value tree_json);
  of_UInt z := (JScalar (to_string z) : @value tree_json);
  of_bool b := (JScalar (of_lit (if b : bool then "true" else "false")) : @value tree_json);
  of_double _ := (JScalar (of_lit "0.0") : @value tree_json);
|}.

#[export] Instance sample_numbers_shape : JsonNumbersShape (F := unit).
Proof.
  refine {| int_text := to_string; bool_text := λ b, of_lit (if b : bool then "true" else "false"); double_text := λ _ : unit, of_lit "0.0" |}; try done.
  intros v o k Hv. cbn in Hv. change (@member tree_json v k = default JNull (assoc k o)). subst v.
  destruct o as [|p o]; [done|]. cbn [member tree_json as_obj]. unfold assoc. by destruct (List.find _ (p :: o)) as [[]|].
Defined.

Definition outer : @message unit sample_pb := Outer.

Lemma PBToJson_correct_witness : ∃ j, PBToJsonString 6 outer = Some (Some (write j)) ∧ jshape j = pb_tree 6 outer.
Proof. apply (PBToJson_correct 6 outer). cbn. lia. Defined.

Example sample_run : serialize_message 6 outer jnull = Some (Some (JObject
  [(of_lit "3", JArray [JScalar (of_lit "5"); JScalar (of_lit "6")]);
   (of_lit "4", JObject [(of_lit "1", JScalar (of_lit "ab"))]);
   (of_lit "id", JScalar (of_lit "7"));
   (of_lit "subs", JArray [JObject [(of_lit "name", JScalar (of_lit "x"))]; JObject [(of_lit "name", JScalar (of_lit "x"))]])])).
Proof. by vm_compute. Qed.

End SamplePb.
