(* ===== verification/Tcpconf.v ===== *)
(** * Tcpconf: the configuration of a server from YAML, and the text of a server

    [LexicalCast<std::string, TcpServerConf>] of src/bobliew/tcp_server.h and
    [TcpServer::toString] of tcp_server.cc, over the interface of yaml-cpp
    (Yaml.v); [as<int>] is one more member of it.  [conf_from_correct]: which
    documents are configurations, and of what. *)
From S2P Require Import Prelude Util Httpmap Http Yaml Logconf Config Sockets Tcpserver Servlets.
Import StdString.
#[local] Open Scope list_scope.
#[local] Open Scope Z_scope.
#[local] Set Warnings "-clear-no-such-hyp".

Module TcpConf.
Import TcpServer.

Abbreviation str := (list ascii).

Section Conf.
Context `{Yaml} (as_int : node → option Z).

(** [n[key].as<std::string>(fallback)], [n[key].as<int>(fallback)] and
    [n[key].as<std::string>()]; [None] is an exception. *)
Definition string_or (n : node) (key : string) (fallback : str) : option str :=
  m ← index n (of_lit key); Some (default fallback (as_string m)).
Definition int_or (n : node) (key : string) (fallback : Z) : option Z :=
  m ← index n (of_lit key); Some (default fallback (as_int m)).
Definition string_of (n : node) (key : string) : option str := m ← index n (of_lit key); as_string m.

(** The loop over the addresses. *)
Fixpoint addresses (m : node) (i rounds : nat) : option (list str) :=
  match rounds with
  | O => Some []
  | S rounds =>
      e ← at_index m i;
      s ← as_string e;
      l ← addresses m (S i) rounds;
      Some (s :: l)
  end.

Definition default_conf : TcpServerConf :=
  Conf [] 0 (1000 * 2 * 60) 0 [] (of_lit "http") [] [] [] [] [] [] [].

(** [LexicalCast<std::string, TcpServerConf>] *)
Definition conf_from (v : str) : option TcpServerConf :=
  node ← Load v;
  id' ← string_or node "id" (id default_conf);
  type' ← string_or node "type" (type default_conf);
  keepalive' ← int_or node "keepalive" (keepalive default_conf);
  timeout' ← int_or node "timeout" (timeout default_conf);
  name' ← string_or node "name" (name default_conf);
  ssl' ← int_or node "ssl" (conf_ssl default_conf);
  cert' ← string_or node "cert_file" (cert_file default_conf);
  key' ← string_or node "key_file" (key_file default_conf);
  accept' ← string_of node "accept_worker";
  io' ← string_of node "io_worker";
  process' ← string_of node "process_worker";
  text ← string_or node "args" [];
  args' ← Cast.map_from Some text;
  m ← index node (of_lit "address");
  address' ← (if IsDefined m then addresses m 0 (size m) else Some []);
  Some (Conf address' keepalive' timeout' ssl' id' type' name' cert' key' accept' io' process' args').

End Conf.

Section Correct.
Context `{Yaml} (as_int : node → option Z).

(** What a document says: a text for some keys, a number for some, and a sequence of
    addresses. *)
Record document (n : node) (texts : str → option str) (ints : str → option Z) (ads : list str) : Prop := {
  doc_text key : holds n key (texts key) ∨ key = of_lit "address";
  doc_int key m : index n key = Some m → as_int m = ints key;
  doc_address : ∃ m es, index n (of_lit "address") = Some m ∧ size m = length es ∧ (ads ≠ [] → IsDefined m = true) ∧
    Forall2 (λ e a, as_string e = Some a) es ads ∧ ∀ i e, es !! i = Some e → at_index m i = Some e;
}.

Lemma addresses_all m es ads k :
  (∀ i e, es !! i = Some e → at_index m (k + i) = Some e) → Forall2 (λ e a, as_string e = Some a) es ads →
  addresses m k (length es) = Some ads.
Proof.
  revert k ads. induction es as [|e es IH]; intros k ads Hat Hf; inversion Hf as [|? a ? ads' He Hf']; subst; [done|].
  cbn [addresses length]. pose proof (Hat 0%nat e eq_refl) as H0. rewrite Nat.add_0_r in H0. rewrite H0. cbn [mbind option_bind].
  rewrite He. cbn [mbind option_bind]. rewrite (IH (S k) ads'); [done| |done].
  intros i x Hx. specialize (Hat (S i) x Hx). by rewrite Nat.add_succ_r in Hat.
Qed.

Section Keys.
Context (n : node) (texts : str → option str) (ints : str → option Z) (ads : list str).
Hypothesis doc : document n texts ints ads.

Lemma string_or_doc key fb : of_lit key ≠ of_lit "address" → string_or n key fb = Some (default fb (texts (of_lit key))).
Proof.
  intros Hne. destruct (doc_text _ _ _ _ doc (of_lit key)) as [(m&Hm&_&Ha)|]; [|done]. unfold string_or. rewrite Hm. cbn. by rewrite Ha.
Qed.

Lemma int_or_doc key fb : of_lit key ≠ of_lit "address" → int_or as_int n key fb = Some (default fb (ints (of_lit key))).
Proof.
  intros Hne. destruct (doc_text _ _ _ _ doc (of_lit key)) as [(m&Hm&_)|]; [|done]. unfold int_or. rewrite Hm. cbn.
  by rewrite (doc_int _ _ _ _ doc _ _ Hm).
Qed.

Lemma string_of_doc key : of_lit key ≠ of_lit "address" → string_of n key = texts (of_lit key).
Proof.
  intros Hne. destruct (doc_text _ _ _ _ doc (of_lit key)) as [(m&Hm&_&Ha)|]; [|done]. unfold string_of. rewrite Hm. done.
Qed.
End Keys.

(** A document is a configuration exactly when it names all three workers; its
    other fields have their defaults where the document says nothing. *)
Lemma conf_from_correct v n texts ints ads args :
  Load v = Some n → document n texts ints ads → Cast.map_from Some (default [] (texts (of_lit "args"))) = Some args →
  conf_from as_int v =
    match texts (of_lit "accept_worker"), texts (of_lit "io_worker"), texts (of_lit "process_worker") with
    | Some a, Some i, Some p =>
        Some (Conf ads (default 0 (ints (of_lit "keepalive"))) (default 120000 (ints (of_lit "timeout")))
          (default 0 (ints (of_lit "ssl"))) (default [] (texts (of_lit "id"))) (default (of_lit "http") (texts (of_lit "type")))
          (default [] (texts (of_lit "name"))) (default [] (texts (of_lit "cert_file"))) (default [] (texts (of_lit "key_file"))) a i p args)
    | _, _, _ => None
    end.
Proof.
  intros Hl Hd Hargs. unfold conf_from. rewrite Hl. cbn [mbind option_bind].
  rewrite !(string_or_doc n texts ints ads Hd) by done. rewrite !(int_or_doc n texts ints ads Hd) by done.
  cbn [mbind option_bind]. rewrite !(string_of_doc n texts ints ads Hd) by done.
  destruct (texts (of_lit "accept_worker")) as [a|]; [|done]. cbn [mbind option_bind].
  destruct (texts (of_lit "io_worker")) as [i|]; [|done]. cbn [mbind option_bind].
  destruct (texts (of_lit "process_worker")) as [p|]; [|done]. cbn [mbind option_bind]. rewrite Hargs. cbn [mbind option_bind].
  destruct (doc_address _ _ _ _ Hd) as (m&es&Hm&Hs&Hdef&Hf&Hat). rewrite Hm. cbn [mbind option_bind].
  assert ((if IsDefined m then addresses m 0 (size m) else Some []) = Some ads) as ->; [|done].
  rewrite Hs, (addresses_all m es ads 0); [|done|done].
  destruct (IsDefined m) eqn:Hi; [done|]. destruct ads; [done|]. by specialize (Hdef ltac:(done)).
Qed.

(** Arguments given as a map have no text: the fallback is the empty string, which
    loads as a document without pairs, and the arguments are lost. *)
Lemma args_map_dropped v n texts ints ads empty conf :
  Load v = Some n → document n texts ints ads → texts (of_lit "args") = None →
  Load [] = Some empty → pairs empty = [] → conf_from as_int v = Some conf → args conf = [].
Proof.
  intros Hl Hd Ht He Hp. rewrite (conf_from_correct v n texts ints ads [] Hl Hd).
  - repeat case_match; by intros [= <-].
  - rewrite Ht. cbn [default]. unfold Cast.map_from. rewrite He. cbn [mbind option_bind]. by rewrite Hp.
Qed.

End Correct.

(** ** The text of a server *)

(** [TcpServer::toString]: [socks] are the texts of the sockets, [worker] and
    [accept] the names of the workers there are. *)
Definition toString (prefix type name : str) (ssl : bool) (worker accept : option str) (recvTimeout : Z) (socks : list str) : str :=
  let pfx := match prefix with [] => of_lit "    " | _ => prefix end in
  prefix ++ of_lit "[type=" ++ type ++ of_lit " name=" ++ name ++ of_lit " ssl=" ++ of_lit (if ssl then "1" else "0") ++
  of_lit " worker=" ++ default [] worker ++ of_lit " accept=" ++ default [] accept ++
  of_lit " recv_timeout=" ++ Http.show recvTimeout ++ of_lit "]" ++ ["010"%char] ++
  flat_map (λ i, pfx ++ pfx ++ i ++ ["010"%char]) socks.

End TcpConf.
