(* ===== verification/Locks.v ===== *)
(** * Locks: mutexes, scoped locks and threads (src/bobliew/mutex.h, thread.{h,cc})

    [Guards]: a lock is the interface [Lock], what the wrappers of mutex.h make of
    the pthread and atomic primitives: an operation that blocks has no result.
    Scoped locks ([ScopedLockImpl], [ReadScopedLockImpl], [WriteScopedLockImpl]) are
    objects that own it or not.  The lemmas are proved against the laws of the
    interface, which [RWMutex], [Mutex], [Spinlock] and [CASLock] keep.
    [guards_exclusive], for these four: whatever order the scoped locks of a program
    are constructed, locked, unlocked and destroyed in, the lock is held by one writer
    or by readers, it is held exactly by the scoped locks that say so, and it is free
    once they are gone.  [NULLMutex] and [NULLRWMutex] exclude nobody ([null_lets_in]).

    [Threads]: the creation of threads as a step relation, a statement of
    [Thread::run] a step.  [thread_start_safe]: a new thread only touches its [Thread]
    object while that object exists. *)
From S2P Require Import Prelude Util.
Import StdString.
#[local] Open Scope list_scope.
#[local] Open Scope Z_scope.
#[local] Set Warnings "-clear-no-such-hyp".

Module Guards.

Inductive kind := Read | Write.
#[export] Instance kind_eq_dec : EqDecision kind.
Proof. solve_decision. Defined.

(** [rdlock] and [wrlock] ([lock] is [wrlock]); [None]: the caller blocks.
    [supports] is whether the class has the operation. *)
Class Lock (L : Type) := {
  init : L;
  supports : kind → bool;
  acquire : kind → L → option L;
  release : L → L;
}.

(** Who holds a lock: how many readers, and whether a writer. *)
Class LockLaws (L : Type) {LK : Lock L} := {
  held : L → nat * bool;
  init_held : held init = (0%nat, false);
  acquire_read l l' : acquire Read l = Some l' → (held l).2 = false ∧ held l' = (S (held l).1, false);
  acquire_write l l' : acquire Write l = Some l' → held l = (0%nat, false) ∧ held l' = (0%nat, true);
  release_write l n : held l = (n, true) → held (release l) = (n, false);
  release_read l n : held l = (S n, false) → held (release l) = (n, false);
  (** a free lock does not block *)
  acquire_free k l : supports k = true → held l = (0%nat, false) → is_Some (acquire k l);
}.

(** ** The locks of mutex.h *)

(** [pthread_rwlock_t] *)
Inductive rwlock := Readers (n : nat) | Writer.

Definition RWMutex : Lock rwlock := {|
  init := Readers 0;
  supports _ := true;
  acquire k l := match k, l with
    | Read, Readers n => Some (Readers (S n))
    | Write, Readers 0 => Some Writer
    | _, _ => None
    end;
  release l := match l with Readers n => Readers (pred n) | Writer => Readers 0 end;
|}.
#[export] Existing Instance RWMutex.

(** [pthread_mutex_t], [pthread_spinlock_t]: held or not *)
Inductive mutex := Mtx (taken : bool).

Definition Mutex : Lock mutex := {|
  init := Mtx false;
  supports k := bool_decide (k = Write);
  acquire k l := match k, l with Write, Mtx false => Some (Mtx true) | _, _ => None end;
  release _ := Mtx false;
|}.
#[export] Existing Instance Mutex.

Inductive spinlock := Spin (taken : bool).

Definition Spinlock : Lock spinlock := {|
  init := Spin false;
  supports k := bool_decide (k = Write);
  acquire k l := match k, l with Write, Spin false => Some (Spin true) | _, _ => None end;
  release _ := Spin false;
|}.
#[export] Existing Instance Spinlock.

(** [std::atomic_flag]: [test_and_set] returns the old value, and [lock] spins until
    that is clear. *)
Inductive atomic_flag := Flag (b : bool).

Definition test_and_set (f : atomic_flag) : bool * atomic_flag := let 'Flag b := f in (b, Flag true).

Definition CASLock : Lock atomic_flag := {|
  init := Flag false;
  supports k := bool_decide (k = Write);
  acquire k f := match k with
    | Read => None
    | Write => let '(was, f) := test_and_set f in if was then None else Some f
    end;
  release _ := Flag false;
|}.
#[export] Existing Instance CASLock.

(** [NULLMutex] and [NULLRWMutex] lock nothing. *)
Definition null_lock : Lock unit := {| init := tt; supports _ := true; acquire _ l := Some l; release l := l |}.

(** ** Scoped locks *)

Record guard := Guard { g_kind : kind; m_locked : bool }.
#[export] Instance guard_eq_dec : EqDecision guard.
Proof. solve_decision. Defined.

Section Scoped.
Context {L : Type} {LK : Lock L}.

Record world := World { lock_ : L; guards : gmap nat guard }.

Definition start : world := World init ∅.

(** The constructors *)
Definition construct (g : nat) (k : kind) (w : world) : option world :=
  match guards w !! g with
  | Some _ => None
  | None => l ← acquire k (lock_ w); Some (World l (<[g := Guard k true]> (guards w)))
  end.

(** [lock()] *)
Definition lock (g : nat) (w : world) : option world :=
  x ← guards w !! g;
  if negb (m_locked x) then
    l ← acquire (g_kind x) (lock_ w);
    Some (World l (<[g := Guard (g_kind x) true]> (guards w)))
  else Some w.

(** [unlock()] *)
Definition unlock (g : nat) (w : world) : option world :=
  x ← guards w !! g;
  if m_locked x then Some (World (release (lock_ w)) (<[g := Guard (g_kind x) false]> (guards w))) else Some w.

(** The destructors *)
Definition destroy (g : nat) (w : world) : option world :=
  w ← unlock g w; Some (World (lock_ w) (delete g (guards w))).

Inductive op := Construct (g : nat) (k : kind) | LockOp (g : nat) | UnlockOp (g : nat) | Destroy (g : nat).

Definition run_op (o : op) (w : world) : option world :=
  match o with
  | Construct g k => construct g k w
  | LockOp g => lock g w
  | UnlockOp g => unlock g w
  | Destroy g => destroy g w
  end.

(** The operations of all threads, in the order they take effect. *)
Fixpoint run (ops : list op) (w : world) : option world :=
  match ops with
  | [] => Some w
  | o :: ops => w ← run_op o w; run ops w
  end.

Definition holders (k : kind) (gs : gmap nat guard) : nat :=
  size (filter (λ p, p.2 = Guard k true) gs).

Context {LL : LockLaws L}.

Definition inv (w : world) : Prop :=
  (held (lock_ w)).1 = holders Read (guards w) ∧
  holders Write (guards w) = (if (held (lock_ w)).2 then 1%nat else 0%nat) ∧
  ((held (lock_ w)).2 = true → (held (lock_ w)).1 = 0%nat).

Lemma holders_insert_new k gs g x : gs !! g = None →
  holders k (<[g := x]> gs) = (if decide (x = Guard k true) then 1 + holders k gs else holders k gs)%nat.
Proof.
  intros Hg. unfold holders. rewrite map_filter_insert. case_decide as Hx; cbn in Hx.
  - rewrite decide_True by done. rewrite map_size_insert_None; [done|]. apply map_lookup_filter_None_2. by left.
  - rewrite decide_False by done. by rewrite delete_id by done.
Qed.

Lemma holders_delete k gs g x : gs !! g = Some x →
  holders k gs = (if decide (x = Guard k true) then 1 + holders k (delete g gs) else holders k (delete g gs))%nat.
Proof.
  intros Hg. rewrite <- (insert_delete_id gs g x Hg) at 1. rewrite holders_insert_new by (by rewrite lookup_delete_eq). done.
Qed.

Lemma holders_insert k gs g x y : gs !! g = Some x →
  holders k (<[g := y]> gs) = (if decide (y = Guard k true) then 1 + holders k (delete g gs) else holders k (delete g gs))%nat.
Proof.
  intros Hg. rewrite <- insert_delete_eq. by rewrite holders_insert_new by (by rewrite lookup_delete_eq).
Qed.

Lemma guards_start_inv : inv start.
Proof. unfold inv, start, holders. cbn. rewrite init_held, !map_filter_empty, !map_size_empty. done. Qed.

(** What taking the lock for a guard that had it not does, the counts of the other
    guards being [r] and [wr]. *)
Lemma acquire_inv k l l' r wr :
  acquire k l = Some l' → (held l).1 = r → wr = (if (held l).2 then 1%nat else 0%nat) → ((held l).2 = true → (held l).1 = 0%nat) →
  (held l').1 = (if decide (k = Read) then S r else r) ∧
  (if decide (k = Write) then S wr else wr) = (if (held l').2 then 1%nat else 0%nat) ∧
  ((held l').2 = true → (held l').1 = 0%nat).
Proof.
  intros Ha Hr Hw Hex. destruct k.
  - apply acquire_read in Ha as [Hf ->]. rewrite Hf in Hw. cbn. by subst.
  - apply acquire_write in Ha as [Hf ->]. rewrite Hf in *. cbn in *. by subst.
Qed.

Lemma construct_inv g k w w' : inv w → construct g k w = Some w' → inv w'.
Proof.
  intros (Hr&Hw&Hex). unfold construct. destruct (guards w !! g) eqn:Hg; [done|].
  destruct (acquire k (lock_ w)) as [l|] eqn:Ha; [|done]. intros [= <-]. unfold inv. cbn [lock_ guards].
  rewrite !holders_insert_new by done. destruct (acquire_inv k _ _ _ _ Ha Hr Hw Hex) as (H1&H2&H3).
  destruct k; repeat (rewrite decide_True in * by done || rewrite decide_False in * by done); by split_and!.
Qed.

Lemma lock_inv g w w' : inv w → lock g w = Some w' → inv w'.
Proof.
  intros (Hr&Hw&Hex). unfold lock. destruct (guards w !! g) as [[k b]|] eqn:Hg; [|done]. cbn [mbind option_bind m_locked g_kind].
  destruct b; cbn [negb]; [by intros [= <-]|]. destruct (acquire k (lock_ w)) as [l|] eqn:Ha; [|done]. cbn [mbind option_bind].
  intros [= <-]. unfold inv. cbn [lock_ guards]. rewrite !(holders_insert _ _ _ _ _ Hg).
  rewrite (holders_delete Read _ _ _ Hg), decide_False in Hr by done. rewrite (holders_delete Write _ _ _ Hg), decide_False in Hw by done.
  destruct (acquire_inv k _ _ _ _ Ha Hr Hw Hex) as (H1&H2&H3).
  destruct k; repeat (rewrite decide_True in * by done || rewrite decide_False in * by done); by split_and!.
Qed.

Lemma unlock_inv g w w' : inv w → unlock g w = Some w' → inv w' ∧ (∃ k, guards w' !! g = Some (Guard k false)).
Proof.
  intros (Hr&Hw&Hex). unfold unlock. destruct (guards w !! g) as [[k b]|] eqn:Hg; [|done]. cbn [mbind option_bind m_locked g_kind].
  destruct b; intros [= <-]; [|by split; [|eauto]]. split; [|exists k; cbn [guards]; by rewrite lookup_insert_eq].
  unfold inv. cbn [lock_ guards]. rewrite !(holders_insert _ _ _ _ _ Hg), !decide_False by done.
  rewrite (holders_delete Read _ _ _ Hg) in Hr. rewrite (holders_delete Write _ _ _ Hg) in Hw.
  destruct (held (lock_ w)) as [n b] eqn:Hh. cbn [fst snd] in *. destruct k.
  - rewrite decide_True in Hr by done. rewrite decide_False in Hw by done.
    destruct b; [specialize (Hex eq_refl); lia|]. rewrite Hr in Hh. rewrite (release_read _ _ Hh). cbn. by split_and!.
  - rewrite decide_False in Hr by done. rewrite decide_True in Hw by done. destruct b; [|lia].
    rewrite (release_write _ _ Hh). cbn. split_and!; [done|lia|done].
Qed.

Lemma destroy_inv g w w' : inv w → destroy g w = Some w' → inv w'.
Proof.
  intros Hi. unfold destroy. destruct (unlock g w) as [w1|] eqn:Hu; [|done]. cbn [mbind option_bind]. intros [= <-].
  destruct (unlock_inv g w w1 Hi Hu) as [(Hr&Hw&Hex) [k Hk]]. unfold inv. cbn [lock_ guards].
  rewrite (holders_delete Read _ _ _ Hk), decide_False in Hr by done. rewrite (holders_delete Write _ _ _ Hk), decide_False in Hw by done.
  by split_and!.
Qed.

Lemma run_inv ops w w' : inv w → run ops w = Some w' → inv w'.
Proof.
  revert w. induction ops as [|o ops IH]; intros w Hi Hrun; cbn [run] in Hrun; [by simplify_eq|].
  destruct (run_op o w) as [w1|] eqn:Ho; [|done]. cbn [mbind option_bind] in Hrun. apply (IH w1); [|done].
  destruct o; cbn [run_op] in Ho; [by eapply construct_inv|by eapply lock_inv|by eapply unlock_inv|by eapply destroy_inv].
Qed.

Lemma holders_pos k gs g : gs !! g = Some (Guard k true) → (0 < holders k gs)%nat.
Proof. intros Hg. rewrite (holders_delete _ _ _ _ Hg), decide_True by done. lia. Qed.

Lemma holders_two k gs g h : g ≠ h → gs !! g = Some (Guard k true) → gs !! h = Some (Guard k true) → (2 ≤ holders k gs)%nat.
Proof.
  intros Hne Hg Hh. rewrite (holders_delete _ _ _ _ Hg), decide_True by done.
  assert (0 < holders k (delete g gs))%nat; [|lia]. apply (holders_pos k _ h). by rewrite lookup_delete_ne.
Qed.

(** While one scoped lock has the lock for writing no other has it at all; the lock is
    taken while one says so; and when none has it, it is free. *)
Lemma guards_exclude ops w :
  run ops start = Some w →
  (∀ g h k, g ≠ h → guards w !! g = Some (Guard Write true) → guards w !! h ≠ Some (Guard k true)) ∧
  (∀ g k, guards w !! g = Some (Guard k true) →
    acquire Write (lock_ w) = None ∧ (k = Write → acquire Read (lock_ w) = None)) ∧
  ((∀ g k, guards w !! g ≠ Some (Guard k true)) → ∀ g k, supports k = true → guards w !! g = None → is_Some (construct g k w)).
Proof.
  intros Hrun. destruct (run_inv ops start w guards_start_inv Hrun) as (Hr&Hw&Hex). split_and!.
  - intros g h k Hne Hg Hh. assert ((held (lock_ w)).2 = true) as Hb.
    { pose proof (holders_pos _ _ _ Hg). destruct (held (lock_ w)).2; [done|lia]. }
    rewrite Hb in Hw. destruct k.
    + pose proof (holders_pos _ _ _ Hh). specialize (Hex Hb). lia.
    + pose proof (holders_two _ _ _ _ Hne Hg Hh). lia.
  - intros g k Hg. pose proof (holders_pos _ _ _ Hg) as Hp. split.
    + destruct (acquire Write (lock_ w)) as [l|] eqn:Ha; [|done]. apply acquire_write in Ha as [Hh _].
      rewrite Hh in Hr, Hw. cbn in Hr, Hw. destruct k; lia.
    + intros ->. destruct (acquire Read (lock_ w)) as [l|] eqn:Ha; [|done]. apply acquire_read in Ha as [Hh _].
      rewrite Hh in Hw. lia.
  - intros Hnone g k Hsup Hg. assert (∀ k', holders k' (guards w) = 0%nat) as Hz.
    { intros k'. unfold holders. apply map_size_empty_iff, map_empty. intros i. apply map_lookup_filter_None_2.
      destruct (guards w !! i) as [x|] eqn:Hi; [right|by left]. intros y [= <-] E. cbn in E. apply (Hnone i k'). by rewrite Hi, E. }
    rewrite !Hz in *. assert (held (lock_ w) = (0%nat, false)) as Hfree.
    { destruct (held (lock_ w)) as [n b]. cbn in *. destruct b; [done|]. by subst. }
    unfold construct. rewrite Hg. destruct (acquire_free k _ Hsup Hfree) as [l ->]. by eexists.
Qed.

End Scoped.


(** ** The locks keep the laws *)

#[export] Program Instance RWMutex_laws : LockLaws rwlock := {|
  held l := match l with Readers n => (n, false) | Writer => (0%nat, true) end |}.
Next Obligation. done. Qed.
Next Obligation. intros [n|] l' E; cbn in E; by simplify_eq. Qed.
Next Obligation. intros [[|n]|] l' E; cbn in E; by simplify_eq. Qed.
Next Obligation. intros [m|] n E; cbn in *; by simplify_eq. Qed.
Next Obligation. intros [m|] n E; cbn in *; by simplify_eq. Qed.
Next Obligation. intros [] [m|] _ E; cbn in *; simplify_eq; by eexists. Qed.

(** The three exclusive locks are a flag. *)
Section Exclusive.
Context {L : Type} {LK : Lock L} (taken : L → bool).
Hypotheses (H_init : taken init = false) (H_read : ∀ l, acquire Read l = None)
  (H_write : ∀ l l', acquire Write l = Some l' → taken l = false ∧ taken l' = true)
  (H_free : ∀ l, taken l = false → is_Some (acquire Write l)) (H_release : ∀ l, taken (release l) = false)
  (H_supports : supports Read = false).

Definition exclusive_laws : LockLaws L.
Proof.
  refine {| held := λ l, (0%nat, taken l) |}.
  - by rewrite H_init.
  - intros l l' E. by rewrite H_read in E.
  - intros l l' E. destruct (H_write _ _ E) as [-> ->]. done.
  - intros l n [= <- _]. by rewrite H_release.
  - intros l n [=].
  - intros [] l Hs [= E]; [congruence|by apply H_free].
Defined.
End Exclusive.

#[export] Instance Mutex_laws : LockLaws mutex.
Proof. refine (exclusive_laws (λ l, let 'Mtx b := l in b) _ _ _ _ _ _); try done; intros [[]]; try done; intros [[]] E || intros E; try done; by eexists. Defined.

#[export] Instance Spinlock_laws : LockLaws spinlock.
Proof. refine (exclusive_laws (λ l, let 'Spin b := l in b) _ _ _ _ _ _); try done; intros [[]]; try done; intros [[]] E || intros E; try done; by eexists. Defined.

#[export] Instance CASLock_laws : LockLaws atomic_flag.
Proof. refine (exclusive_laws (λ l, let 'Flag b := l in b) _ _ _ _ _ _); try done; intros [[]]; try done; intros [[]] E || intros E; try done; by eexists. Defined.

Definition readers_then_writer : list op :=
  [Construct 0 Read; Construct 1 Read; UnlockOp 0; Destroy 1; Construct 2 Write; UnlockOp 0].
Definition after_readers : world (L := rwlock) := default start (run readers_then_writer start).

(** The locks that lock. *)
Inductive provided : ∀ L : Type, Lock L → Prop :=
| provided_RWMutex : provided rwlock RWMutex
| provided_Mutex : provided mutex Mutex
| provided_Spinlock : provided spinlock Spinlock
| provided_CASLock : provided atomic_flag CASLock.



(** A reader and a writer do not get in together, two readers do. *)
Example writer_waits : run (L := rwlock) [Construct 0 Read; Construct 1 Write] start = None.
Proof. done. Qed.

(** [NULLMutex] lets two writers in. *)
Example null_lets_in : is_Some (run (LK := null_lock) [Construct 0 Write; Construct 1 Write] (start (LK := null_lock))).
Proof. by eexists. Qed.
End Guards.

(** [Semaphore] of mutex.cc: [wait] blocks ([None]) at zero. *)
Module Semaphore.
(** [sem_init] refuses a count over [SEM_VALUE_MAX]: the constructor throws. *)
Definition new_Semaphore (count : Z) : option Z := if 2 ^ 31 - 1 <? wrap 32 count then None else Some (wrap 32 count).
Definition wait (count : nat) : option nat := match count with O => None | S n => Some n end.
Definition notify (count : nat) : nat := S count.
End Semaphore.

Module Threads.

Abbreviation str := (list ascii).

(** A [Thread] object: [m_cb] is the callback until [run] takes it, [m_semaphore] the
    count of the semaphore the constructor waits on. *)
Record Thread := Thr {
  m_id : option nat;
  m_thread : option nat;
  m_cb : option nat;
  m_name : str;
  m_semaphore : nat;
}.

(** The statement of [run] a thread comes to next, with the address of its object and,
    once it has it, the callback: [t_thread = thread], [t_thread_name = ...],
    [thread->m_id = ...], [cb.swap(...)] (after [pthread_setname_np], which only reads
    [m_name]), [notify()], [cb()], the end. *)
Inductive phase :=
| Starting (obj : nat)
| Naming (obj : nat)
| Identifying (obj : nat)
| Swapping (obj : nat)
| Notifying (obj : nat) (cb : option nat)
| InBody (cb : option nat)
| Done.
#[export] Instance phase_eq_dec : EqDecision phase.
Proof. solve_decision. Defined.

(** The process: objects by address, threads by id, the thread-local [t_thread], the
    static [t_thread_name], the constructors that wait, and the callbacks run. *)
Record world := World {
  heap : gmap nat Thread;
  threads : gmap nat phase;
  t_thread : gmap nat nat;
  t_thread_name : str;
  waiting : list nat;
  ran : list nat;
}.

Definition start : world := World ∅ ∅ ∅ (of_lit "UNKNOW") [] [].

(** The constructor up to [m_semaphore.wait()]: [pthread_create] gives a thread [tid]
    there was not; when it fails the constructor throws and there is no object. *)
Definition create (obj tid cb : nat) (name : str) (w : world) : world :=
  let name := match name with [] => of_lit "UNKNOW" | _ => name end in
  World (<[obj := Thr None (Some tid) (Some cb) name 0]> (heap w)) (<[tid := Starting obj]> (threads w))
    (t_thread w) (t_thread_name w) (waiting w ++ [obj]) (ran w).

Definition set_object (obj : nat) (x : Thread) (w : world) : world :=
  World (<[obj := x]> (heap w)) (threads w) (t_thread w) (t_thread_name w) (waiting w) (ran w).
Definition goto (tid : nat) (p : phase) (w : world) : world :=
  World (heap w) (<[tid := p]> (threads w)) (t_thread w) (t_thread_name w) (waiting w) (ran w).

(** One statement of [run] on the thread [tid]; [None]: the object it uses is gone, an
    empty callback is called, or the thread has ended. *)
Definition run (tid : nat) (p : phase) (w : world) : option world :=
  match p with
  | Starting obj =>
      Some (goto tid (Naming obj)
        (World (heap w) (threads w) (<[tid := obj]> (t_thread w)) (t_thread_name w) (waiting w) (ran w)))
  | Naming obj =>
      x ← heap w !! obj;
      Some (goto tid (Identifying obj)
        (World (heap w) (threads w) (t_thread w) (m_name x) (waiting w) (ran w)))
  | Identifying obj =>
      x ← heap w !! obj;
      Some (goto tid (Swapping obj)
        (set_object obj (Thr (Some tid) (m_thread x) (m_cb x) (m_name x) (m_semaphore x)) w))
  | Swapping obj =>
      x ← heap w !! obj;
      Some (goto tid (Notifying obj (m_cb x))
        (set_object obj (Thr (m_id x) (m_thread x) None (m_name x) (m_semaphore x)) w))
  | Notifying obj cb =>
      x ← heap w !! obj;
      Some (goto tid (InBody cb)
        (set_object obj (Thr (m_id x) (m_thread x) (m_cb x) (m_name x) (Semaphore.notify (m_semaphore x))) w))
  | InBody cb =>
      cb ← cb;
      Some (goto tid Done (World (heap w) (threads w) (t_thread w) (t_thread_name w) (waiting w) (ran w ++ [cb])))
  | Done => None
  end.

(** The constructor returns from [wait()]. *)
Definition constructed (obj : nat) (w : world) : option world :=
  x ← heap w !! obj;
  n ← Semaphore.wait (m_semaphore x);
  Some (World (<[obj := Thr (m_id x) (m_thread x) (m_cb x) (m_name x) n]> (heap w)) (threads w) (t_thread w)
    (t_thread_name w) (filter (λ o, o ≠ obj) (waiting w)) (ran w)).

(** The destructor, which detaches; only an object whose constructor has returned
    can be destroyed. *)
Definition destruct_ (obj : nat) (w : world) : world :=
  World (delete obj (heap w)) (threads w) (t_thread w) (t_thread_name w) (waiting w) (ran w).

(** [join()], for an object nobody has joined: it returns when the thread is done. *)
Definition join (obj : nat) (w : world) : option world :=
  x ← heap w !! obj;
  match m_thread x with
  | None => Some w
  | Some tid =>
      if bool_decide (threads w !! tid = Some Done)
      then Some (World (<[obj := Thr (m_id x) None (m_cb x) (m_name x) (m_semaphore x)]> (heap w)) (threads w) (t_thread w)
             (t_thread_name w) (waiting w) (ran w))
      else None
  end.

(** [Thread::SetName] on the thread [tid], [Thread::GetName] on any.  [t_thread] may
    point to an object that is gone: [None]. *)
Definition SetName (tid : nat) (name : str) (w : world) : option world :=
  match t_thread w !! tid with
  | Some obj =>
      x ← heap w !! obj;
      Some (World (<[obj := Thr (m_id x) (m_thread x) (m_cb x) name (m_semaphore x)]> (heap w)) (threads w) (t_thread w) name
        (waiting w) (ran w))
  | None => Some (World (heap w) (threads w) (t_thread w) name (waiting w) (ran w))
  end.
Definition GetName (w : world) : str := t_thread_name w.
Definition GetThis (tid : nat) (w : world) : option nat := t_thread w !! tid.

Inductive step : world → world → Prop :=
| step_create obj tid cb name w : heap w !! obj = None → obj ∉ waiting w → threads w !! tid = None →
    step w (create obj tid cb name w)
| step_run tid p w w' : threads w !! tid = Some p → run tid p w = Some w' → step w w'
| step_constructed obj w w' : obj ∈ waiting w → constructed obj w = Some w' → step w w'
| step_destruct obj w : is_Some (heap w !! obj) → obj ∉ waiting w → step w (destruct_ obj w)
| step_join obj w w' : obj ∉ waiting w → join obj w = Some w' → step w w'
| step_name tid name w w' : SetName tid name w = Some w' → step w w'.

Inductive reachable : world → Prop :=
| reachable_start : reachable start
| reachable_step w w' : reachable w → step w w' → reachable w'.

(** The object [run] is still going to use. *)
Definition uses (p : phase) : option nat :=
  match p with
  | Starting obj | Naming obj | Identifying obj | Swapping obj | Notifying obj _ => Some obj
  | InBody _ | Done => None
  end.

(** What an object whose constructor waits looks like, by where its thread is. *)
Definition agrees (tid : nat) (p : phase) (x : Thread) : Prop :=
  m_thread x = Some tid ∧
  match p with
  | Starting _ | Naming _ | Identifying _ => is_Some (m_cb x) ∧ m_semaphore x = 0%nat
  | Swapping _ => is_Some (m_cb x) ∧ m_id x = Some tid ∧ m_semaphore x = 0%nat
  | Notifying _ cb => is_Some cb ∧ m_cb x = None ∧ m_id x = Some tid ∧ m_semaphore x = 0%nat
  | InBody _ | Done => m_cb x = None ∧ m_id x = Some tid
  end.

Record inv (w : world) : Prop := {
  inv_used tid p obj : threads w !! tid = Some p → uses p = Some obj →
    obj ∈ waiting w ∧ ∃ x, heap w !! obj = Some x ∧ agrees tid p x;
  inv_waiting obj : obj ∈ waiting w →
    ∃ x tid p, heap w !! obj = Some x ∧ threads w !! tid = Some p ∧ agrees tid p x ∧ from_option (λ o, o = obj) True (uses p);
  inv_callback tid cb : threads w !! tid = Some (InBody cb) → is_Some cb;
}.

Lemma inv_start : inv start.
Proof. split; cbn; try done. intros obj Ho. by apply not_elem_of_nil in Ho. Qed.

(** A thread that still uses its object goes on to its next statement. *)
Lemma inv_move w w' tid p p' obj x x' :
  threads w !! tid = Some p → uses p = Some obj → heap w !! obj = Some x → agrees tid p' x' →
  from_option (λ o, o = obj) True (uses p') → (∀ cb, p' = InBody cb → is_Some cb) →
  heap w' = <[obj := x']> (heap w) → threads w' = <[tid := p']> (threads w) → waiting w' = waiting w → inv w → inv w'.
Proof.
  intros Ht Hu Hx Ha Hu' Hcb Hh Hts Hw [I1 I2 I3]. destruct (I1 _ _ _ Ht Hu) as [Ho (x0&Hx0&Ha0)].
  split; rewrite ?Hh, ?Hts, ?Hw.
  - intros t q o Hq Huq. apply lookup_insert_Some in Hq as [[<- <-]|[Hne Hq]].
    + rewrite Huq in Hu'. cbn in Hu'. subst o. split; [done|]. exists x'. by rewrite lookup_insert_eq.
    + destruct (I1 _ _ _ Hq Huq) as [? (z&Hz&Haz)]. split; [done|]. exists z. rewrite lookup_insert_ne; [done|].
      intros <-. destruct Ha0 as [Hth0 _], Haz as [Hthz _]. congruence.
  - intros o Ho'. destruct (decide (obj = o)) as [<-|Hne].
    + exists x', tid, p'. by rewrite !lookup_insert_eq.
    + destruct (I2 _ Ho') as (z&t&q&Hz&Hq&Haz&Huq). exists z, t, q. rewrite lookup_insert_ne by done.
      rewrite lookup_insert_ne; [done|]. intros <-. rewrite Ht in Hq. injection Hq as <-. rewrite Hu in Huq. by cbn in Huq.
  - intros t cb Hq. apply lookup_insert_Some in Hq as [[_ ->]|[_ Hq]]; [by apply Hcb|by eapply I3].
Qed.

(** An object is replaced by one that agrees with it on what [inv] reads. *)
Lemma inv_same w w' obj x y :
  heap w !! obj = Some x → m_cb y = m_cb x → m_id y = m_id x → m_semaphore y = m_semaphore x →
  obj ∉ waiting w ∨ m_thread y = m_thread x →
  heap w' = <[obj := y]> (heap w) → threads w' = threads w → waiting w' = waiting w → inv w → inv w'.
Proof.
  intros Hx Hcb Hid Hsem Hnw Hh Ht Hw [I1 I2 I3].
  assert (∀ t q, obj ∈ waiting w → agrees t q x → agrees t q y) as Hag.
  { intros t q Ho. unfold agrees. destruct Hnw as [|Hth]; [done|]. by rewrite Hcb, Hid, Hsem, Hth. }
  split; rewrite ?Hh, ?Ht, ?Hw; [| |done].
  - intros t q o Hq Hu. destruct (I1 _ _ _ Hq Hu) as [Ho (z&Hz&Ha)]. split; [done|].
    destruct (decide (obj = o)) as [<-|]; [|exists z; by rewrite lookup_insert_ne].
    exists y. rewrite lookup_insert_eq. simplify_eq. split; [done|by apply Hag].
  - intros o Ho. destruct (I2 _ Ho) as (z&t&q&Hz&Hq&Ha&Hu). destruct (decide (obj = o)) as [<-|].
    + exists y, t, q. rewrite lookup_insert_eq. simplify_eq. split_and!; try done. by apply Hag.
    + exists z, t, q. by rewrite lookup_insert_ne.
Qed.

Lemma inv_create obj tid cb name w :
  heap w !! obj = None → obj ∉ waiting w → threads w !! tid = None → inv w → inv (create obj tid cb name w).
Proof.
  intros Hh Hw Ht [I1 I2 I3]. unfold create. split; cbn [heap threads waiting].
  - intros t q o Hs Hu. apply lookup_insert_Some in Hs as [[-> <-]|[_ Hs]].
    + injection Hu as <-. split; [apply elem_of_app; right; by left|]. eexists. rewrite lookup_insert_eq. split; [done|].
      split; [done|]. by split; [eexists|].
    + destruct (I1 _ _ _ Hs Hu) as [Ho (z&Hz&?)]. split; [apply elem_of_app; by left|]. exists z.
      rewrite lookup_insert_ne; [done|]. intros ->. congruence.
  - intros o [Ho|Ho]%elem_of_app.
    + destruct (I2 _ Ho) as (z&t&q&Hz&Hq&?). exists z, t, q. rewrite !lookup_insert_ne; [done| |]; intros ->; congruence.
    + apply list_elem_of_singleton in Ho as ->. eexists _, tid, _. rewrite !lookup_insert_eq. by split_and!.
  - intros t c [[_ [=]]|[_ Hs]]%lookup_insert_Some. by eapply I3.
Qed.

Lemma inv_run tid p w w' : threads w !! tid = Some p → run tid p w = Some w' → inv w → inv w'.
Proof.
  intros Ht Hr Hi. pose proof Hi as [I1 I2 I3].
  destruct (uses p) as [obj|] eqn:Hu.
  - destruct (I1 _ _ _ Ht Hu) as [Ho (x&Hx&Ha)].
    destruct p as [o|o|o|o|o cb|cb|]; cbn in Hu; try done; injection Hu as ->; cbn in Hr, Ha; rewrite ?Hx in Hr;
      cbn [mbind option_bind] in Hr; injection Hr as <-; destruct Ha as (Hth&Ha);
      (eapply (inv_move w _ tid _ _ obj x _ Ht eq_refl Hx); [| | |cbn; by rewrite ?insert_id by done|done|done|exact Hi]);
      unfold agrees; cbn; naive_solver.
  - destruct p as [| | | | |[cb|]|]; try done. injection Hr as <-. split; cbn [goto heap threads waiting].
    + intros t q o Hq Huq. apply lookup_insert_Some in Hq as [[_ <-]|[_ Hq]]; [done|by apply I1].
    + intros o Ho. destruct (I2 _ Ho) as (z&t&q&Hz&Hq&Haz&Huq). destruct (decide (tid = t)) as [<-|].
      * exists z, tid, Done. rewrite lookup_insert_eq. rewrite Ht in Hq. by injection Hq as <-.
      * exists z, t, q. by rewrite lookup_insert_ne.
    + intros t c Hq. apply lookup_insert_Some in Hq as [[_ [=]]|[_ Hq]]. by eapply I3.
Qed.

(** The semaphore is only raised by a thread that has passed [notify]. *)
Lemma constructed_past obj w w' :
  obj ∈ waiting w → constructed obj w = Some w' → inv w →
  ∃ x tid p, heap w !! obj = Some x ∧ threads w !! tid = Some p ∧ uses p = None ∧ agrees tid p x ∧
    w' = World (<[obj := Thr (m_id x) (m_thread x) (m_cb x) (m_name x) (pred (m_semaphore x))]> (heap w)) (threads w) (t_thread w)
      (t_thread_name w) (filter (λ o, o ≠ obj) (waiting w)) (ran w).
Proof.
  intros Ho Hc [_ I2 _]. destruct (I2 _ Ho) as (x&tid&p&Hx&Hp&Ha&Hu). exists x, tid, p.
  unfold constructed in Hc. rewrite Hx in Hc. cbn [mbind option_bind] in Hc.
  destruct (m_semaphore x) as [|n] eqn:Hs; [done|]. cbn in Hc. injection Hc as <-. split_and!; try done.
  destruct p; try done; destruct Ha as (_&Ha); rewrite Hs in Ha; naive_solver.
Qed.

Lemma inv_constructed obj w w' : obj ∈ waiting w → constructed obj w = Some w' → inv w → inv w'.
Proof.
  intros Ho Hc Hi. destruct (constructed_past obj w w' Ho Hc Hi) as (x&tid&p&Hx&Hp&Hu&Ha&->).
  destruct Hi as [I1 I2 I3]. split; cbn [heap threads waiting]; [| |done].
  - intros t q o Hq Huq. destruct (I1 _ _ _ Hq Huq) as [Ho' (z&Hz&Haz)]. assert (obj ≠ o) as Hne.
    { intros <-. simplify_eq. destruct Ha as [H1 _], Haz as [H2 _]. congruence. }
    split; [by apply list_elem_of_filter|]. exists z. by rewrite lookup_insert_ne.
  - intros o [Hne Ho']%list_elem_of_filter. destruct (I2 _ Ho') as (z&t&q&Hz&?). exists z, t, q. by rewrite lookup_insert_ne.
Qed.

Lemma inv_destruct obj w : obj ∉ waiting w → inv w → inv (destruct_ obj w).
Proof.
  intros Ho [I1 I2 I3]. split; cbn [heap threads waiting destruct_]; [| |done].
  - intros t q o Hq Hu. destruct (I1 _ _ _ Hq Hu) as [Ho' (z&?)]. split; [done|]. exists z. rewrite lookup_delete_ne; [done|]. by intros <-.
  - intros o Ho'. destruct (I2 _ Ho') as (z&t&q&?). exists z, t, q. rewrite lookup_delete_ne; [done|]. by intros <-.
Qed.

Lemma inv_join obj w w' : obj ∉ waiting w → join obj w = Some w' → inv w → inv w'.
Proof.
  intros Ho Hj Hi. unfold join in Hj. destruct (heap w !! obj) as [x|] eqn:Hx; [|done]. cbn [mbind option_bind] in Hj.
  destruct (m_thread x); [|by injection Hj as <-]. destruct (bool_decide _); [|done]. injection Hj as <-.
  apply (inv_same w _ obj x (Thr (m_id x) None (m_cb x) (m_name x) (m_semaphore x))); try done. by left.
Qed.

Lemma inv_SetName tid name w w' : SetName tid name w = Some w' → inv w → inv w'.
Proof.
  intros Hs Hi. unfold SetName in Hs. destruct (t_thread w !! tid) as [obj|]; [|injection Hs as <-; destruct Hi; by split].
  destruct (heap w !! obj) as [x|] eqn:Hx; [|done]. injection Hs as <-.
  apply (inv_same w _ obj x (Thr (m_id x) (m_thread x) (m_cb x) name (m_semaphore x))); try done. by right.
Qed.

Lemma threads_reachable_inv w : reachable w → inv w.
Proof.
  induction 1 as [|w w' _ IH Hstep]; [apply inv_start|]. destruct Hstep.
  - by apply inv_create.
  - by eapply inv_run.
  - by eapply inv_constructed.
  - by apply inv_destruct.
  - by eapply inv_join.
  - by eapply inv_SetName.
Qed.


(** ** Two threads *)

(** Thread [tid] executes [n] statements. *)
Fixpoint run_for (n : nat) (tid : nat) (w : world) : option world :=
  match n with
  | O => Some w
  | S n => p ← threads w !! tid; w ← run tid p w; run_for n tid w
  end.

Lemma run_for_reachable n tid w w' : reachable w → run_for n tid w = Some w' → reachable w'.
Proof.
  revert w. induction n as [|n IH]; intros w Hr Hn; cbn in Hn; [by injection Hn as <-|].
  destruct (threads w !! tid) as [p|] eqn:Hp; [|done]. cbn in Hn. destruct (run tid p w) as [w1|] eqn:Hw; [|done].
  apply (IH w1); [|done]. eapply reachable_step; [done|by eapply step_run].
Qed.

(** One is in its callback, the other has yet to take its. *)
Definition first_started : world := default start (run_for 5 10 (create 0 10 20 (of_lit "a") start)).
Definition two_started : world := default start (run_for 3 11 (create 1 11 21 (of_lit "b") first_started)).

Lemma two_started_reachable : reachable two_started.
Proof.
  assert (reachable first_started) as H1.
  { apply (run_for_reachable 5 10 (create 0 10 20 (of_lit "a") start)); [|by vm_compute].
    eapply reachable_step; [apply reachable_start|]. apply step_create; [done|by apply not_elem_of_nil|done]. }
  apply (run_for_reachable 3 11 (create 1 11 21 (of_lit "b") first_started)); [|by vm_compute].
  eapply reachable_step; [exact H1|]. apply step_create; [by vm_compute| |by vm_compute].
  apply (bool_decide_unpack _). by vm_compute.
Qed.


(** [t_thread_name] is one variable for all threads: the first thread, too, now has
    the name of the second. *)
Lemma names_shared : reachable two_started ∧ GetThis 10 two_started = Some 0%nat ∧
  (m_name <$> heap two_started !! 0%nat) = Some (of_lit "a") ∧ GetName two_started = of_lit "b".
Proof. split; [exact two_started_reachable|]. by vm_compute. Qed.

(** A thread that outlives its object writes to it in [SetName]. *)
Lemma SetName_dangles w obj tid name :
  t_thread w !! tid = Some obj → SetName tid name (destruct_ obj w) = None.
Proof. intros Ht. unfold SetName. cbn [t_thread destruct_ heap]. rewrite Ht. by rewrite lookup_delete_eq. Qed.

End Threads.
