(* ===== verification/Lifecycle.v ===== *)
(** * Lifecycle: building and taking down schedulers and event managers

    The constructor (with [use_caller]) and destructor of [Scheduler] and its text
    (src/bobliew/scheduler.cc), the constructor and destructor of [IOManager] with
    the descriptors they open and close (iomanager.cc), and the address getters of
    [SocketStream] (streams/socket_stream.cc).  A failed assertion is undefined
    behaviour.  [iomanager_descriptors]: an event manager gives back the
    descriptors it took. *)
From S2P Require Import Prelude Util Http Iomanager Address Sockets.
Import StdString.
#[local] Open Scope list_scope.
#[local] Open Scope Z_scope.
#[local] Open Scope effect_scope.
#[local] Set Warnings "-clear-no-such-hyp".

Module SchedulerLife.

(** The members the constructor sets, and the thread-locals of its thread. *)
Record Scheduler := Sched {
  m_name : list ascii;
  m_threadCount : Z;
  m_threadIds : list Z;
  m_rootThread : Z;
  m_rootFiber : bool;
}.

Record thread := Thr { t_scheduler : option nat; t_thread_name : list ascii; t_scheduler_fiber_root : bool; id : Z }.

(** [Scheduler(threads, use_caller, name)] at the address [this]. *)
Definition new_Scheduler (this : nat) (threads : Z) (use_caller : bool) (name : list ascii) : M thread Scheduler := λ t,
  if negb (0 <? threads) then UB
  else if use_caller then
    match t_scheduler t with
    | Some _ => UB
    | None =>
        Ret (Sched name (threads - 1) [id t] (id t) true) (Thr (Some this) name true (id t))
    end
  else Ret (Sched name threads [] (-1) false) t.

(** The destructor *)
Definition destroy_Scheduler (this : nat) (m_stopping : bool) : M thread unit := λ t,
  if negb m_stopping then UB
  else Ret tt (if bool_decide (t_scheduler t = Some this) then Thr None (t_thread_name t) (t_scheduler_fiber_root t) (id t) else t).

(** With the caller's thread the scheduler has as many workers as it was asked for;
    it is listed among them, and only one scheduler can have it. *)
Lemma new_Scheduler_workers this threads use_caller name t s t' :
  new_Scheduler this threads use_caller name t = Ret s t' →
  m_threadCount s + Z.of_nat (length (m_threadIds s)) = threads ∧ 0 ≤ m_threadCount s ∧
  (use_caller = true → t_scheduler t = None ∧ t_scheduler t' = Some this ∧ m_threadIds s = [id t]).
Proof.
  unfold new_Scheduler. destruct (Z.ltb_spec 0 threads); [|done]. cbn [negb]. destruct use_caller.
  - destruct (t_scheduler t) eqn:E; [done|]. intros [= <- <-]. cbn. split; [lia|]. split; [lia|done].
  - intros [= <- <-]. cbn. split; [lia|]. split; [lia|done].
Qed.

(** After its destructor the thread can have another scheduler. *)
Lemma destroy_frees this threads name t s t' :
  new_Scheduler this threads true name t = Ret s t' →
  ∃ t'', destroy_Scheduler this true t' = Ret tt t'' ∧ t_scheduler t'' = None.
Proof.
  intros H. destruct (new_Scheduler_workers _ _ _ _ _ _ _ H) as (_&_&Hc). destruct (Hc eq_refl) as (_&Ht&_).
  unfold destroy_Scheduler. cbn [negb]. rewrite Ht, bool_decide_eq_true_2 by done. by eexists.
Qed.

(** [Scheduler::dump] *)
Definition dump (name : list ascii) (threadCount active idle : Z) (stopping : bool) (threadIds : list Z) : list ascii :=
  of_lit "[Scheduler name=" ++ name ++ of_lit " size=" ++ Http.show threadCount ++ of_lit " active_count=" ++ Http.show active ++
  of_lit " idle_count=" ++ Http.show idle ++ of_lit " stopping=" ++ of_lit (if stopping then "1" else "0") ++
  of_lit " ]" ++ ["010"%char] ++ of_lit "    " ++ Util.Join (Http.show <$> threadIds) (of_lit ", ").

End SchedulerLife.

Module IOManagerLife.

(** What the constructor and destructor call: each a function on the state of the
    kernel; [epoll_create] and [pipe] fail with no descriptors. *)
Class Epoll (K : Type) := {
  epoll_create : K → option Z * K;
  pipe : K → option (Z * Z) * K;
  set_nonblock : Z → K → bool * K;
  epoll_ctl_add : Z → Z → K → bool * K;
  close : Z → K → K;
}.

(** The open descriptors: new ones were not open, and the other calls open none. *)
Class EpollLaws (K : Type) {E : Epoll K} := {
  open_fds : K → gset Z;
  epoll_create_fd k fd k' : epoll_create k = (Some fd, k') → (fd ∉ open_fds k) ∧ open_fds k' = {[fd]} ∪ open_fds k ∧ 0 < fd;
  pipe_fds k r w k' : pipe k = (Some (r, w), k') → (r ∉ open_fds k) ∧ (w ∉ open_fds k) ∧ r ≠ w ∧ open_fds k' = {[r; w]} ∪ open_fds k;
  nonblock_fds fd k b k' : set_nonblock fd k = (b, k') → open_fds k' = open_fds k;
  add_fds ep fd k b k' : epoll_ctl_add ep fd k = (b, k') → open_fds k' = open_fds k;
  close_fds fd k : open_fds (close fd k) = open_fds k ∖ {[fd]};
}.

Record IOManager := Io { m_epfd : Z; m_tickleFds : Z * Z; table : Iomanager.IOManager.io unit }.

Section Life.
Context {K : Type} {E : Epoll K}.

(** The constructor, up to the [start()] of the scheduler. *)
Definition new_IOManager : M K IOManager := λ k,
  match epoll_create k with
  | (None, _) => UB
  | (Some epfd, k) =>
      if negb (0 <? epfd) then UB
      else
        match pipe k with
        | (None, _) => UB
        | (Some (r, w), k) =>
            let '(ok, k) := set_nonblock r k in
            if negb ok then UB
            else
              let '(ok, k) := epoll_ctl_add epfd r k in
              if negb ok then UB else Ret (Io epfd (r, w) Iomanager.IOManager.new_io) k
        end
  end.

(** The destructor, after [stop()]. *)
Definition destroy_IOManager (io : IOManager) : M K unit := λ k,
  Ret tt (close (m_tickleFds io).2 (close (m_tickleFds io).1 (close (m_epfd io) k))).

Context {EL : EpollLaws K}.

(** An event manager takes three descriptors and gives them back: they are
    distinct and were not open, and after its destructor the open descriptors are
    those from before its constructor. *)
Theorem iomanager_descriptors k io k' :
  new_IOManager k = Ret io k' →
  open_fds k' = {[m_epfd io; (m_tickleFds io).1; (m_tickleFds io).2]} ∪ open_fds k ∧
  NoDup [m_epfd io; (m_tickleFds io).1; (m_tickleFds io).2] ∧
  (∀ fd, fd ∈ [m_epfd io; (m_tickleFds io).1; (m_tickleFds io).2] → fd ∉ open_fds k) ∧
  ∃ k'', destroy_IOManager io k' = Ret tt k'' ∧ open_fds k'' = open_fds k.
Proof.
  unfold new_IOManager. destruct (epoll_create k) as [[ep|] k1] eqn:E1; [|done].
  destruct (epoll_create_fd _ _ _ E1) as (H1&O1&P1). destruct (Z.ltb_spec 0 ep); [|done]. cbn [negb].
  destruct (pipe k1) as [[[r w]|] k2] eqn:E2; [|done]. destruct (pipe_fds _ _ _ _ E2) as (H2&H3&H4&O2).
  destruct (set_nonblock r k2) as [[] k3] eqn:E3; [|done]. cbn [negb]. pose proof (nonblock_fds _ _ _ _ E3) as O3.
  destruct (epoll_ctl_add ep r k3) as [[] k4] eqn:E4; [|done]. cbn [negb]. pose proof (add_fds _ _ _ _ _ E4) as O4.
  intros [= <- <-]. cbn [m_epfd m_tickleFds fst snd]. rewrite O1 in H2, H3.
  assert (open_fds k4 = {[ep; r; w]} ∪ open_fds k) as O by (rewrite O4, O3, O2, O1; set_solver).
  split; [done|]. split; [|split].
  - apply NoDup_cons. split; [set_solver|]. apply NoDup_cons. split; [set_solver|]. apply NoDup_singleton.
  - intros fd Hfd. rewrite !elem_of_cons in Hfd. destruct Hfd as [->|[->|[->|Hfd]]]; [done|set_solver..|by apply not_elem_of_nil in Hfd].
  - eexists. split; [done|]. rewrite !close_fds. cbn [m_epfd m_tickleFds fst snd]. rewrite O. set_solver.
Qed.

End Life.

(** ** Descriptors as a set *)
#[export] Instance set_epoll : Epoll (gset Z) := {|
  epoll_create k := let fd := 1 + foldr Z.max 2 (elements k) in (Some fd, {[fd]} ∪ k);
  pipe k := let fd := 1 + foldr Z.max 2 (elements k) in (Some (fd, fd + 1), {[fd; fd + 1]} ∪ k);
  set_nonblock _ k := (true, k);
  epoll_ctl_add _ _ k := (true, k);
  close fd k := k ∖ {[fd]};
|}.

Lemma above_all (l : list Z) x : x ∈ l → x ≤ foldr Z.max 2 l.
Proof. induction l as [|y l IH]; [by intros ?%not_elem_of_nil|]. intros [->|Hx]%elem_of_cons; cbn [foldr]; [|specialize (IH Hx)]; lia. Qed.

Lemma above_two (l : list Z) : 2 ≤ foldr Z.max 2 l.
Proof. induction l; cbn [foldr]; lia. Qed.

Lemma fresh_above (k : gset Z) d : 0 < d → foldr Z.max 2 (elements k) + d ∉ k.
Proof. intros Hd Hin. apply elem_of_elements, above_all in Hin. lia. Qed.

#[export] Instance set_epoll_laws : EpollLaws (gset Z).
Proof.
  refine {| open_fds := id : gset Z → gset Z |}; cbn.
  - intros k fd k' [= <- <-]. rewrite (Z.add_comm 1). split; [by apply fresh_above|]. split; [done|]. pose proof (above_two (elements k)). lia.
  - intros k r w k' [= <- <- <-]. rewrite (Z.add_comm 1). split; [by apply fresh_above|]. split; [rewrite <- Z.add_assoc; by apply fresh_above|].
    split; [lia|done].
  - by intros fd k b k' [= <- <-].
  - by intros ep fd k b k' [= <- <-].
  - done.
Defined.

Definition first_io : IOManager := Io 6 (7, 8) Iomanager.IOManager.new_io.

Lemma iomanager_descriptors_witness :
  open_fds (K := gset Z) {[5; 6; 7; 8]} = {[m_epfd first_io; (m_tickleFds first_io).1; (m_tickleFds first_io).2]} ∪ open_fds (K := gset Z) {[5]} ∧
  NoDup [m_epfd first_io; (m_tickleFds first_io).1; (m_tickleFds first_io).2] ∧
  (∀ fd, fd ∈ [m_epfd first_io; (m_tickleFds first_io).1; (m_tickleFds first_io).2] → fd ∉ open_fds (K := gset Z) {[5]}) ∧
  ∃ k'', destroy_IOManager first_io ({[5; 6; 7; 8]} : gset Z) = Ret tt k'' ∧ open_fds k'' = open_fds (K := gset Z) {[5]}.
Proof. apply (iomanager_descriptors (K := gset Z) {[5]} first_io {[5; 6; 7; 8]}). by vm_compute. Defined.

End IOManagerLife.

(** The address getters of a stream: the socket is [None] when there is none. *)
Module StreamAddress.
Import Address Sockets.

Section Getters.
Context {K : Type} `{Sys K}.

Definition on_socket (get_address : M (t * K) Address) : M (option t * K) (option Address) := λ sk,
  match sk.1 with
  | None => Ret None sk
  | Some s =>
      match get_address (s, sk.2) with
      | Ret a (s, k) => Ret (Some a) (Some s, k)
      | Throw e (s, k) => Throw e (Some s, k)
      | UB => UB
      end
  end.

Definition getRemoteAddress : M (option t * K) (option Address) := on_socket Sockets.getRemoteAddress.
Definition getLocalAddress : M (option t * K) (option Address) := on_socket Sockets.getLocalAddress.

(** The text of an address; [lift] is a read outside the object. *)
Definition text_of (get_address : M (option t * K) (option Address)) : M (option t * K) (list ascii) :=
  let! addr := get_address in
  match addr with
  | Some a => lift (Address.toString a)
  | None => ret []
  end.

Definition getRemoteAddressString : M (option t * K) (list ascii) := text_of getRemoteAddress.
Definition getLocalAddressString : M (option t * K) (list ascii) := text_of getLocalAddress.

(** The second call gives what the first one gave, without asking the system,
    unless the system knew no address. *)
Lemma getRemoteAddress_cached s k a s' k' :
  getRemoteAddress (Some s, k) = Ret (Some a) (Some s', k') → m_remoteAddress s' = Some a →
  getRemoteAddress (Some s', k') = Ret (Some a) (Some s', k').
Proof.
  intros _ Ha. unfold getRemoteAddress, on_socket. cbn [fst snd]. unfold Sockets.getRemoteAddress.
  unfold this, bind, ret. cbn. by rewrite Ha.
Qed.

Lemma no_socket_no_text k : getRemoteAddressString (None, k) = Ret [] (None, k) ∧ getLocalAddressString (None, k) = Ret [] (None, k).
Proof. done. Qed.

End Getters.

End StreamAddress.
