(* ===== verification/Rockstream.v ===== *)
(** * Rockstream: sessions over the Rock protocol (src/bobliew/rock/rock_stream.{h,cc})

    [RockStream] sends requests and notifications and hands what it receives to the
    waiting request or to its handlers.  Its base class [AsyncSocketStream] is
    declared in streams/async_socket_stream.h and has no implementation in the
    sources: its queue, its table of contexts and its closing are the parameters of
    the class [AsyncStream].  The contexts are shared objects, held in a heap.  A
    request is cut at [YieldToHold].

    [doRecv_never_answers]: no bytes of a peer ever end the wait of a request other
    than by its timeout, since [RockResponse::parserFromByteArray] never returns
    [true]. *)
From S2P Require Import Prelude Endian Util Http Bytearray Serial Iovec Stream Zlib Protocol Address Sockets Pbjson.
Import StdString.
Import Protocol.
#[local] Open Scope list_scope.
#[local] Open Scope Z_scope.
#[local] Open Scope effect_scope.

(** What [RockStream] puts in the send queue: a message or the request of a context. *)
Inductive send_ctx := SendMessage (msg : message) | SendRequest (ctx : nat).

(** The members of [AsyncSocketStream] without a body; [A] is its own state, and
    [new_result] the result a new context has. *)
Class AsyncStream (N A : Type) := {
  new_result : Z;
  addCtx : Z → nat → A → bool * A;
  getAndDelCtx : Z → A → option nat * A;
  enqueue : send_ctx → A → bool * A;
  innerClose : SocketStream.t N * A → bool * (SocketStream.t N * A);
  close : SocketStream.t N * A → SocketStream.t N * A;
}.

Module RockStream.

(** ** Texts *)

Definition RockRequest_toString (r : RockRequest) : list ascii :=
  of_lit "[RockRequest sn=" ++ Http.show (rq_sn r) ++ of_lit " cmd=" ++ Http.show (rq_cmd r) ++
  of_lit " body.length=" ++ Http.show (Z.of_nat (length (rq_body r))) ++ of_lit "]".

Definition RockResponse_toString (r : RockResponse) : list ascii :=
  of_lit "[RockResponse sn=" ++ Http.show (rs_sn r) ++ of_lit " cmd=" ++ Http.show (rs_cmd r) ++
  of_lit " result=" ++ Http.show (rs_result r) ++ of_lit " result_msg=" ++ rs_resultStr r ++
  of_lit " body.length=" ++ Http.show (Z.of_nat (length (rs_body r))) ++ of_lit "]".

Definition RockNotify_toString (r : RockNotify) : list ascii :=
  of_lit "[RockNotify notify=" ++ Http.show (nt_notify r) ++ of_lit " boby.length=" ++
  Http.show (Z.of_nat (length (nt_body r))) ++ of_lit "]".

Definition getName (msg : message) : list ascii :=
  match msg with
  | MRequest _ => of_lit "RockRequest"
  | MResponse _ => of_lit "RockResponse"
  | MNotify _ => of_lit "RockNotify"
  end.

(** [RockResult]; a null pointer is [None]. *)
Record RockResult := Result { result : Z; used : Z; response : option RockResponse; request_ : option RockRequest }.

(** The parameters of the constructor are [int32_t]. *)
Definition new_RockResult (r u : Z) (rsp : option RockResponse) (req : option RockRequest) : RockResult :=
  Result (swrap 32 r) (swrap 32 u) rsp req.

Definition RockResult_toString (r : RockResult) : list ascii :=
  of_lit "[RockResult result=" ++ PbJson.to_string (result r) ++ of_lit " used=" ++ PbJson.to_string (used r) ++
  of_lit " response=" ++ match response r with Some x => RockResponse_toString x | None => of_lit "null" end ++
  of_lit " request=" ++ match request_ r with Some x => RockRequest_toString x | None => of_lit "null" end ++
  of_lit "]".

(** ** State *)

(** [AsyncSocketStream::Error] *)
Definition NOT_CONNECT : Z := -3.

(** [RockCtx]: [result] is a [uint32_t]; [fiber] is the fiber that waits. *)
Record RockCtx := Ctx {
  c_sn : Z;
  c_timeout : Z;
  c_result : Z;
  c_fiber : nat;
  c_request : RockRequest;
  c_response : option RockResponse;
}.

(** What [m_worker] is given to run. *)
Inductive task := HandleRequest (req : RockRequest) | HandleNotify (nty : RockNotify).

(** A stream with the contexts its requests have made: [m_worker] is null or the
    tasks it was given, [timers] the timers set for contexts, and the handlers are
    named by numbers. *)
Record t (N A : Type) := Rock {
  stream : SocketStream.t N;
  async : A;
  ctxs : gmap nat RockCtx;
  timers : list (Z * nat);
  m_worker : option (list task);
  m_requestHandler : option nat;
  m_notifyHandler : option nat;
  m_autoConnect : bool;
}.
#[global] Arguments Rock {N A} stream async ctxs timers m_worker m_requestHandler m_notifyHandler m_autoConnect.
#[global] Arguments stream {N A}.
#[global] Arguments async {N A}.
#[global] Arguments ctxs {N A}.
#[global] Arguments timers {N A}.
#[global] Arguments m_worker {N A}.
#[global] Arguments m_requestHandler {N A}.
#[global] Arguments m_notifyHandler {N A}.
#[global] Arguments m_autoConnect {N A}.

#[local] Existing Instance SocketStream.socket_stream.

Section Operations.
Context {N : Type} {NT : Net N} {AL : Alloc} {Zs : Type} {CZ : Codec Zs} {A : Type} {AS : AsyncStream N A}.
Context (gzip_init : bool → option Zs) (zfuel : nat) (RockRequest_parse : M (RockRequest * ByteArray.t) bool).
Context (max_length gzip_min_length : Z).
(** What the handlers do. *)
Context (run_request : nat → RockRequest → RockResponse → M (t N A) (bool * RockResponse)).
Context (run_notify : nat → RockNotify → M (t N A) bool).

Definition set_async (a : A) (w : t N A) : t N A :=
  Rock (stream w) a (ctxs w) (timers w) (m_worker w) (m_requestHandler w) (m_notifyHandler w) (m_autoConnect w).
Definition set_stream (s : SocketStream.t N) (w : t N A) : t N A :=
  Rock s (async w) (ctxs w) (timers w) (m_worker w) (m_requestHandler w) (m_notifyHandler w) (m_autoConnect w).
Definition set_ctxs (c : gmap nat RockCtx) (w : t N A) : t N A :=
  Rock (stream w) (async w) c (timers w) (m_worker w) (m_requestHandler w) (m_notifyHandler w) (m_autoConnect w).
Definition add_timer (ms : Z) (ctx : nat) (w : t N A) : t N A :=
  Rock (stream w) (async w) (ctxs w) (timers w ++ [(ms, ctx)]) (m_worker w) (m_requestHandler w) (m_notifyHandler w)
    (m_autoConnect w).
Definition setRequestHandler (v : option nat) (w : t N A) : t N A :=
  Rock (stream w) (async w) (ctxs w) (timers w) (m_worker w) v (m_notifyHandler w) (m_autoConnect w).
Definition setNotifyHandler (v : option nat) (w : t N A) : t N A :=
  Rock (stream w) (async w) (ctxs w) (timers w) (m_worker w) (m_requestHandler w) v (m_autoConnect w).
Definition setAutoConnect (v : bool) (w : t N A) : t N A :=
  Rock (stream w) (async w) (ctxs w) (timers w) (m_worker w) (m_requestHandler w) (m_notifyHandler w) v.

(** [m_worker->schedule(...)] *)
Definition schedule (x : task) : M (t N A) unit := λ w,
  match m_worker w with
  | None => UB
  | Some q =>
      Ret tt (Rock (stream w) (async w) (ctxs w) (timers w) (Some (q ++ [x])) (m_requestHandler w) (m_notifyHandler w)
        (m_autoConnect w))
  end.

(** [RockSession] and [RockConnection], once the base class is built. *)
Definition new_RockSession (w : t N A) : t N A := setAutoConnect false w.
Definition new_RockConnection (w : t N A) : t N A := setAutoConnect true w.

Definition sendMessage (msg : message) : M (t N A) Z := λ w,
  if SocketStream.connected (stream w) then Ret 1 (set_async (enqueue (SendMessage msg) (async w)).2 w)
  else Ret (-1) w.

(** [request] up to [YieldToHold]: [ctx] is the address of the new context, [fiber]
    the fiber that calls.  The result is that of [request] when it does not wait. *)
Definition request_start (ctx fiber : nat) (req : RockRequest) (timeout_ms : Z) : M (t N A) (option RockResult) := λ w,
  if SocketStream.connected (stream w) then
    let w := set_ctxs (<[ctx := Ctx (rq_sn req) timeout_ms (new_result (N := N) (A := A)) fiber req None]> (ctxs w)) w in
    let w := set_async (addCtx (rq_sn req) ctx (async w)).2 w in
    let w := add_timer timeout_ms ctx w in
    Ret None (set_async (enqueue (SendRequest ctx) (async w)).2 w)
  else Ret (Some (new_RockResult NOT_CONNECT 0 None (Some req))) w.

(** [request] from there on; [ts] and [now] are the readings of the clock. *)
Definition request_end (ctx : nat) (req : RockRequest) (ts now : Z) : M (t N A) RockResult := λ w,
  match ctxs w !! ctx with
  | Some c => Ret (new_RockResult (c_result c) (wrap 64 (now - ts)) (c_response c) (Some req)) w
  | None => UB
  end.

(** [RockSendCtx::doSend] and [RockCtx::doSend] *)
Definition doSend (x : send_ctx) : M (t N A) bool := λ w,
  match (match x with
         | SendMessage msg => Some msg
         | SendRequest ctx => (λ c, MRequest (c_request c)) <$> ctxs w !! ctx
         end) with
  | None => UB
  | Some msg =>
      match serializeTo gzip_init zfuel gzip_min_length msg (stream w) with
      | Ret n s => Ret (0 <? n) (set_stream s w)
      | Throw e s => Throw e (set_stream s w)
      | UB => UB
      end
  end.

(** What [doRecv] does with a message: the result is the context to resume. *)
Definition received (msg : message) : M (t N A) (option nat) := λ w,
  match msg with
  | MResponse rsp =>
      let '(found, a) := getAndDelCtx (rs_sn rsp) (async w) in
      let w := set_async a w in
      match found with
      | None => Ret None w
      | Some ctx =>
          match ctxs w !! ctx with
          | None => UB
          | Some c =>
              Ret (Some ctx) (set_ctxs (<[ctx := Ctx (c_sn c) (c_timeout c) (wrap 32 (rs_result rsp)) (c_fiber c) (c_request c)
                (Some rsp)]> (ctxs w)) w)
          end
      end
  | MRequest req =>
      match m_requestHandler w with
      | Some _ => (schedule (HandleRequest req) ;! ret None) w
      | None => Ret None w
      end
  | MNotify nty =>
      match m_notifyHandler w with
      | Some _ => (schedule (HandleNotify nty) ;! ret None) w
      | None => Ret None w
      end
  end.

Definition doRecv : M (t N A) (option nat) := λ w,
  match parserFrom gzip_init zfuel RockRequest_parse max_length (stream w) with
  | UB => UB
  | Throw e s => Throw e (set_stream s w)
  | Ret None s =>
      let '(s, a) := (innerClose (s, async w)).2 in Ret None (set_async a (set_stream s w))
  | Ret (Some msg) s => received msg (set_stream s w)
  end.

Definition closed : M (t N A) unit := λ w,
  let '(s, a) := close (stream w, async w) in Ret tt (set_async a (set_stream s w)).

(** An empty [std::function] throws when it is called. *)
Definition handleRequest (req : RockRequest) : M (t N A) unit := λ w,
  match m_requestHandler w with
  | None => Throw bad_function_call w
  | Some h =>
      (let! r := run_request h req (createResponse req) in
       if negb r.1 then sendMessage (MResponse r.2) ;! closed
       else sendMessage (MResponse r.2) ;! ret tt) w
  end.

Definition handleNotify (nty : RockNotify) : M (t N A) unit := λ w,
  match m_notifyHandler w with
  | None => Throw bad_function_call w
  | Some h => (let! ok := run_notify h nty in if negb ok then closed else ret tt) w
  end.

End Operations.

(** [RockConnection::connect]: the socket it makes, connected without a timeout. *)
Definition connect {K : Type} {SY : Sockets.Sys K} (addr : Address.Address) (k : K) : outcome (Sockets.t * K) bool :=
  Sockets.connect_plain addr (2 ^ 64 - 1) (Sockets.CreateTCP addr, k).

(** ** No request is answered *)

Section Answers.
Context {N : Type} {NT : Net N} {AL : Alloc} {Zs : Type} {CZ : Codec Zs} {A : Type} {AS : AsyncStream N A}.
Context (gzip_init : bool → option Zs) (zfuel : nat) (RockRequest_parse : M (RockRequest * ByteArray.t) bool).
Context (max_length gzip_min_length : Z).

Lemma parse_body_no_response ba rsp ba' : parse_body RockRequest_parse ba ≠ Ret (Some (MResponse rsp)) ba'.
Proof.
  unfold parse_body, bind. destruct (Serial.readFuint8 ba) as [ty ba1| |]; [|done..]. unfold ret, parse_as.
  destruct (ty =? REQUEST). { by destruct (RockRequest_parse _) as [[] []|? []|]. }
  destruct (ty =? RESPONSE).
  - destruct (RockResponse_parse _) as [b []|? []|] eqn:E; [|done..].
    by rewrite (response_parse_never_true _ _ _ _ E).
  - destruct (ty =? NOTIFY); [|done]. by destruct (RockNotify_parse _) as [[] []|? []|].
Qed.

(** No bytes are decoded to a response. *)
Lemma parserFrom_no_response w rsp w' :
  parserFrom gzip_init zfuel RockRequest_parse max_length w ≠ Ret (Some (MResponse rsp)) w'.
Proof.
  unfold parserFrom, try_catch. destruct (decode _ _ _ _ w) as [m w1|e w1|] eqn:E; [|done..]. intros [= -> <-].
  revert E. unfold decode, bind at 1. destruct (StreamOps.readFixSize 8 w) as [[rt bs] w2| |]; [|done..].
  destruct (rt <=? 0); [done|]. destruct (negb _); [done|]. destruct (negb _); [done|].
  unfold bind, lift. destruct (byteswapOnLittleEndian _ _); [|done]. unfold ret. destruct (max_length <=? _); [done|].
  destruct (StreamOps.readFixSize_ba _ _) as [rt' [w3 ba]|? []|]; [|done..]. destruct (rt' <=? 0); [done|].
  destruct (ByteArray.setPosition 0 ba) as [[] ba1| |]; [|done..].
  assert (∀ ba2, match parse_body RockRequest_parse ba2 with
    | Ret msg _ => Ret msg w3 | Throw e _ => Throw e w3 | UB => UB end ≠ Ret (Some (MResponse rsp)) w1) as Hno.
  { intros ba2. destruct (parse_body _ ba2) as [m ba3| |] eqn:Eb; [|done..]. intros [= -> <-]. by apply parse_body_no_response in Eb. }
  destruct (Z.land _ 1 =? 1); [|apply Hno]. destruct (through_zlib _ _ _ _) as [[|ba2] []| |]; [done|apply Hno|done..].
Qed.

(** The stream resumes no request, whatever a peer sends: [doRecv] returns no
    context, and the contexts stay as they are. *)
Theorem doRecv_never_answers w r w' :
  doRecv gzip_init zfuel RockRequest_parse max_length w = Ret r w' →
  r = None ∧ ctxs w' = ctxs w ∧ timers w' = timers w.
Proof.
  unfold doRecv. destruct (parserFrom _ _ _ _ _) as [[[req|rsp|nty]|] s| |] eqn:E; [..|done|done].
  - unfold received. cbn [m_requestHandler set_stream]. destruct (m_requestHandler w); [|by intros [= <- <-]].
    unfold bind, schedule, ret. cbn [m_worker set_stream]. destruct (m_worker w); [|done]. by intros [= <- <-].
  - by apply parserFrom_no_response in E.
  - unfold received. cbn [m_notifyHandler set_stream]. destruct (m_notifyHandler w); [|by intros [= <- <-]].
    unfold bind, schedule, ret. cbn [m_worker set_stream]. destruct (m_worker w); [|done]. by intros [= <- <-].
  - destruct (innerClose _) as [b [s' a]]. by intros [= <- <-].
Qed.

(** What the fibers of a stream do, in any order. *)
Inductive op :=
| Recv
| Send (x : send_ctx)
| Message_ (msg : message)
| Request_ (ctx fiber : nat) (req : RockRequest) (timeout_ms : Z).

Definition run_op (o : op) : M (t N A) unit :=
  match o with
  | Recv => doRecv gzip_init zfuel RockRequest_parse max_length ;! ret tt
  | Send x => doSend gzip_init zfuel gzip_min_length x ;! ret tt
  | Message_ msg => sendMessage msg ;! ret tt
  | Request_ ctx fiber req ms => request_start ctx fiber req ms ;! ret tt
  end.

Fixpoint run_ops (os : list op) : M (t N A) unit :=
  match os with
  | [] => ret tt
  | o :: os => run_op o ;! run_ops os
  end.

Definition unanswered (w : t N A) : Prop := map_Forall (λ _ c, c_response c = None) (ctxs w).

Lemma run_op_unanswered o w w' : unanswered w → run_op o w = Ret tt w' → unanswered w'.
Proof.
  intros Hw. destruct o as [|x|msg|ctx fiber req ms]; unfold run_op, bind, ret.
  - destruct (doRecv _ _ _ _ w) as [r w1| |] eqn:E; [|done..]. intros [= <-].
    destruct (doRecv_never_answers _ _ _ E) as (_&Hc&_). unfold unanswered. by rewrite Hc.
  - unfold doSend. destruct (match x with SendMessage _ => _ | SendRequest _ => _ end) as [msg|]; [|done].
    destruct (serializeTo _ _ _ _ _); [|done..]. by intros [= <-].
  - unfold sendMessage. destruct (SocketStream.connected _); by intros [= <-].
  - unfold request_start. destruct (SocketStream.connected _); [|by intros [= <-]]. intros [= <-].
    unfold unanswered. cbn. by apply map_Forall_insert_2.
Qed.

(** A request never has a response in its result. *)
Theorem requests_unanswered os w w' ctx req ts now r :
  unanswered w → run_ops os w = Ret tt w' → request_end ctx req ts now w' = Ret r w' → response r = None.
Proof.
  intros Hw Hrun Hend. assert (unanswered w') as Hw'.
  { revert w Hw Hrun. induction os as [|o os IH]; intros w Hw; cbn [run_ops]; [by intros [= <-]|].
    unfold bind at 1. destruct (run_op o w) as [[] w1| |] eqn:E; [|done..]. apply IH. by eapply run_op_unanswered. }
  unfold request_end in Hend. destruct (ctxs w' !! ctx) as [c|] eqn:Hc; [|done]. injection Hend as <-. cbn.
  by eapply (Hw' ctx).
Qed.

End Answers.

(** ** A session on a simple base class *)

(** Contexts in a map, the queue in a list, closing closes the socket. *)
#[export] Instance simple_async {N} `{Net N} : AsyncStream N (gmap Z nat * list send_ctx) := {|
  new_result := 0;
  addCtx sn ctx a := (true, (<[sn := ctx]> a.1, a.2));
  getAndDelCtx sn a := (a.1 !! sn, (delete sn a.1, a.2));
  enqueue x a := (true, (a.1, a.2 ++ [x]));
  innerClose sa := (true, (SocketStream.mk (sys_close <$> SocketStream.m_socket sa.1) (SocketStream.m_owner sa.1), sa.2));
  close sa := (SocketStream.mk (sys_close <$> SocketStream.m_socket sa.1) (SocketStream.m_owner sa.1), sa.2);
|}.

(** A peer that sends one frame of the given type with four bytes behind it. *)
Definition peer (type : Z) : SocketStream.t Pipe.t :=
  SocketStream.mk (Some (Pipe.mk (header_bytes (mkHeader s_rock_magic 1 0 0x05000000)
    ++ [z2b type; z2b 7; z2b 0; z2b 1; z2b 65]) [] 3 true)) true.

Definition session (type : Z) : t Pipe.t (gmap Z nat * list send_ctx) :=
  new_RockSession (Rock (peer type) (∅, []) ∅ [] (Some []) (Some 0%nat) None true).

(** A request goes to the worker; the response to the session's own request [7]
    finds its context and is lost all the same. *)
Example session_receives :
  (match doRecv (AL := ByteArray.zeroed) (λ _, Some ([] : ZlibStream.stored)) 10 (ret true) (64 * 1024) (session REQUEST) with
   | Ret None w => m_worker w | _ => None end) = Some [HandleRequest new_RockRequest].
Proof. by vm_compute. Qed.

Definition asked : M (t Pipe.t (gmap Z nat * list send_ctx)) unit :=
  run_ops (AL := ByteArray.zeroed) (λ _, Some ([] : ZlibStream.stored)) 10 (ret true) (64 * 1024) 4096
    [Request_ 0 1 (mkRequest 7 1 []) 1000; Recv].
Definition asked_end : t Pipe.t (gmap Z nat * list send_ctx) :=
  match asked (session RESPONSE) with Ret _ w => w | _ => session RESPONSE end.

Lemma requests_unanswered_witness : response (Result 0 5 None (Some (mkRequest 7 1 []))) = None.
Proof.
  apply (requests_unanswered (AL := ByteArray.zeroed) (λ _, Some ([] : ZlibStream.stored)) 10 (ret true) (64 * 1024) 4096
    [Request_ 0 1 (mkRequest 7 1 []) 1000; Recv] (session RESPONSE) asked_end 0 (mkRequest 7 1 []) 100 105).
  - apply map_Forall_empty.
  - by vm_compute.
  - by vm_compute.
Defined.

End RockStream.
