(* ===== verification/Schedstop.v ===== *)
(** * Schedstop: the end of a scheduler (src/bobliew/scheduler.cc)

    The part of [Scheduler::stop] after its flags are set (Scheduler.v): the loop on
    the thread that built the scheduler with [use_caller], entered through
    [m_rootFiber->call()], and the joins of the worker threads.  The steps of the
    other threads come between.  [stop_leaves_pinned_only]: when [stop] returns, every
    task that was scheduled for any thread has been entered, or its fiber was over; what
    may be left is pinned to one thread.  [pinned_left_behind] is an execution that
    does leave such a task: a thread gives up its count before it re-schedules its
    fiber, so another one can see nothing left to do in between. *)
From S2P Require Import Prelude Fiber Scheduler.
Import Fiber Scheduler.
#[local] Open Scope list_scope.
#[local] Open Scope Z_scope.

Module SchedStop.

Section Stop.
Context {C : Type}.
Implicit Types (s : sched C) (w : worker C).

(** [m_rootFiber->call()]: [run] starts on the thread [t] of the caller. *)
Definition call_root (t : Z) (s : sched C) : sched C := set_worker t (Worker Top None INIT) s.

(** [thrs.swap(m_threads)] and the joins; [None]: a thread still runs. *)
Definition exited (w : worker C) : bool := match w_phase w with Exited => true | _ => false end.
Definition joins (s : sched C) : option (sched C) :=
  if forallb (λ tw, exited tw.2) (map_to_list (workers s))
  then Some (Sched (m_fibers s) (states s) (next_fiber s) (m_activeThreadCount s) (m_idleThreadCount s) (m_stopping s)
    (m_autoStop s) ∅ (tickles s) (scheduled s) (started s) (dropped s))
  else None.

(** A call of [stop] in the state [s] that returns in [s']: [root] is the thread of
    the caller and the state of [m_rootFiber] under [use_caller]. *)
Definition stops (root : option (Z * State)) (s s' : sched C) : Prop :=
  ∃ b s1 s2 s3,
    stop (snd <$> root) (bool_decide (is_Some root)) s = Ret b s1 ∧
    (if b then ∃ t st, root = Some (t, st) ∧ workers s1 !! t = None ∧ s2 = call_root t s1 else s2 = s1) ∧
    rtc step s2 s3 ∧ joins s3 = Some s'.

(** ** Who is still going to look at the queue *)

Definition runs (f : nat) (w : worker C) : Prop := w_phase w = InFiber f ∨ w_phase w = InCb f.

(** The thread scans the queue again before it leaves its loop. *)
Definition scans_again (w : worker C) : bool :=
  match w_phase w with
  | Exited => false
  | NoTask => negb (bool_decide (idle_state w = TERM))
  | _ => true
  end.

(** A fiber that executes is on a thread; a queued task that any thread may take finds
    a thread that looks at the queue again, if there are threads at all. *)
Record going s : Prop := {
  g_exec f : states s !! f = Some EXEC → ∃ t w, workers s !! t = Some w ∧ runs f w;
  g_scan ft : workers s ≠ ∅ → ft ∈ m_fibers s → ft_thread ft = -1 →
    ∃ t w, workers s !! t = Some w ∧ scans_again w = true;
}.

Lemma runs_scans f w : runs f w → scans_again w = true.
Proof. unfold scans_again. by intros [-> | ->]. Qed.

(** The thread [t], which was not in a task, goes on to a phase in which it will look
    at the queue again. *)
Lemma going_move s s' t w w' :
  going s → workers s !! t = Some w → workers s' = <[t := w']> (workers s) → scans_again w' = true →
  (∀ f, states s' !! f = Some EXEC → runs f w' ∨ states s !! f = Some EXEC ∧ ¬ runs f w) → going s'.
Proof.
  intros [Hx Hs] Hw Hw' Hl Hst. split; rewrite Hw'.
  - intros f Hf. destruct (Hst f Hf) as [Hr|[Hf' Hn]]; [exists t, w'; by rewrite lookup_insert_eq|].
    destruct (Hx f Hf') as (t0&w0&H0&Hr). exists t0, w0. rewrite lookup_insert_ne; [done|]. intros <-. by simplify_eq.
  - intros ft _ _ _. exists t, w'. by rewrite lookup_insert_eq.
Qed.

(** The same with the queue and the fibers as they were, when the thread did not count
    before. *)
Lemma going_leave s s' t w w' :
  going s → workers s !! t = Some w → workers s' = <[t := w']> (workers s) →
  scans_again w = false → states s' = states s → m_fibers s' = m_fibers s → going s'.
Proof.
  intros [Hx Hs] Hw Hw' Hl Est Eq. split; rewrite Hw', ?Est, ?Eq.
  - intros f Hf. destruct (Hx f Hf) as (t0&w0&H0&Hr). exists t0, w0. rewrite lookup_insert_ne; [done|]. intros <-.
    simplify_eq. by rewrite (runs_scans f w Hr) in Hl.
  - intros ft _ Hft Hpin. destruct (Hs ft) as (t0&w0&H0&Hr); [|done|done|].
    { intros E. by rewrite E, lookup_empty in Hw. }
    exists t0, w0. rewrite lookup_insert_ne; [done|]. intros <-. simplify_eq. congruence.
Qed.

(** The threads stay as they are; a task is only added when one of them runs, or none
    has been told to stop. *)
Lemma going_keep s s' :
  going s → workers s' = workers s → (∀ f, states s' !! f = Some EXEC → states s !! f = Some EXEC) →
  (m_fibers s' = m_fibers s ∨ workers s = ∅ ∨ ∃ t w, workers s !! t = Some w ∧ scans_again w = true) → going s'.
Proof.
  intros [Hx Hs] Ew Est Hq. split; rewrite Ew; [by auto|].
  intros ft Hne Hft Hpin. destruct Hq as [Eq|[E|Hex]]; [rewrite Eq in Hft; by eapply Hs|done|done].
Qed.

Lemma schedule_keeps ft s :
  workers (schedule ft s) = workers s ∧ states (schedule ft s) = states s.
Proof. unfold schedule, scheduleNoLock. by destruct (nonempty ft), (bool_decide _). Qed.

Lemma tickle_if_keeps b s :
  workers (tickle_if b s) = workers s ∧ states (tickle_if b s) = states s ∧ m_fibers (tickle_if b s) = m_fibers s.
Proof. by destruct b. Qed.

Lemma stop_first_none b s s' : stop None false s = Ret b s' → ∃ n, s' = Nat.iter n tickle (set_flags true true s).
Proof. intros [= _ <-]. by exists (size (workers s) + 0)%nat. Qed.

Lemma tickles_keep n s :
  workers (Nat.iter n tickle s) = workers s ∧ states (Nat.iter n tickle s) = states s ∧
  m_fibers (Nat.iter n tickle s) = m_fibers s ∧ stopping (Nat.iter n tickle s) = stopping s ∧
  m_autoStop (Nat.iter n tickle s) = m_autoStop s ∧ m_stopping (Nat.iter n tickle s) = m_stopping s.
Proof. induction n as [|n IH]; [done|]. cbn [Nat.iter]. exact IH. Qed.

(** ** The steps keep it *)

(** A scan that finds nothing leaves only tasks of other threads and of fibers that
    execute. *)
Lemma going_pick s t w s' :
  inv s → going s → workers s !! t = Some w → w_phase w = Top → run_pick t w s = Ret tt s' → going s'.
Proof.
  intros Hinv Hg Hw Hph. unfold run_pick.
  destruct (scan_gen t (states s) (m_fibers s) false [] (i_queue s Hinv)) as (r & q' & tk & Hs & Hr).
  rewrite Hs. cbn [app orb].
  assert (∀ f, ¬ runs f w) as Hn by (intros f [E|E]; congruence).
  destruct r as [ft|]; intros [= <-]; rewrite phase_tickle.
  - eapply (going_move s _ t w (Worker (Picked ft) (cb_fiber w) (idle_state w))); try done; by destruct tk; auto.
  - cbn [scanned] in Hr. destruct Hr as (Hall & -> & _).
    split.
    + intros f Hf. destruct (g_exec s Hg f) as (t0&w0&H0&Hr); [by destruct tk|]. exists t0, w0.
      split; [|done]. assert (t ≠ t0) by (intros <-; simplify_eq; by destruct (Hn f)).
      destruct tk; cbn; by rewrite lookup_insert_ne.
    + intros ft _ Hft Hpin. assert (ft ∈ m_fibers s) as Hft' by by destruct tk.
      rewrite Forall_forall in Hall. specialize (Hall ft Hft').
      unfold eligible in Hall. apply andb_false_iff in Hall as [He|He]; apply negb_false_iff in He.
      { unfold elsewhere in He. by rewrite Hpin in He. }
      unfold executing in He. destruct (ft_fiber ft) as [f|]; [|done]. apply bool_decide_eq_true in He.
      destruct (g_exec s Hg f He) as (t0&w0&H0&Hr). exists t0, w0.
      assert (t ≠ t0) by (intros <-; simplify_eq; by destruct (Hn f)).
      split; [destruct tk; cbn; by rewrite lookup_insert_ne|by eapply runs_scans].
Qed.

(** The other steps of a thread. *)
Lemma going_run_step s t w s' :
  inv s → going s → workers s !! t = Some w → run_step t w s = Ret tt s' → going s'.
Proof.
  intros Hinv Hg Hw Hrun. unfold run_step in Hrun.
  destruct (decide (scans_again w = false)) as [Hl|Hl].
  { unfold scans_again in Hl. destruct (w_phase w) eqn:Hph; try done. unfold run_idle in Hrun.
    apply negb_false_iff, bool_decide_eq_true in Hl. rewrite Hl in Hrun. injection Hrun as <-.
    eapply (going_leave s _ t w); try done. unfold scans_again. by rewrite Hph, Hl. }
  destruct (w_phase w) eqn:Hph; try done; [by eapply going_pick|..].
  all: assert (∀ f, ¬ runs f w) as Hn by (intros ? [E|E]; congruence).
  all: unfold run_start, run_after_fiber, run_after_cb, run_left_fiber, run_left_cb, run_idle, idle, run_after_idle,
    bind, get, ub, upd, swap_in, reset_fiber, new_cb_fiber, ret, schedule, scheduleNoLock in Hrun.
  all: repeat (case_match; try discriminate Hrun); simplify_eq; cbn [nonempty ft_fiber ft_cb].
  all: unfold tickle_if; repeat case_match.
  all: try (eapply (going_move s _ t w); [exact Hg|exact Hw|reflexivity|reflexivity|]; cbn; intros g Hg';
    repeat (apply lookup_insert_Some in Hg' as [[<- ?]|[_ Hg']]; [by (left; constructor) || discriminate|]); by right).
  destruct Hl. unfold scans_again. rewrite Hph. by case_bool_decide.
Qed.

Lemma going_schedule s ft :
  going s → workers s = ∅ ∨ (∃ t w, workers s !! t = Some w ∧ scans_again w = true) → going (schedule ft s).
Proof. intros Hg Hq. destruct (schedule_keeps ft s) as [E1 E2]. eapply (going_keep s); [done|done|by rewrite E2|by right]. Qed.

(** As long as the scheduler has not been told to stop, every thread goes on. *)
Lemma untold_scans s t w : inv s → ¬ told s → workers s !! t = Some w → scans_again w = true.
Proof.
  intros Hinv Ht Hw. unfold scans_again. destruct (w_phase w) eqn:Hph; try done.
  - case_bool_decide as Hi; [|done]. by destruct Ht; eapply (i_term s Hinv).
  - by destruct Ht; eapply (i_term s Hinv), (i_exit s Hinv).
Qed.

Lemma going_slice s t w f how p s' :
  going s → workers s !! t = Some w → runs f w → outcome_of_slice how → p = AfterFiber f ∨ p = AfterCb f →
  slice_end t w f how p s = Ret tt s' → going s'.
Proof.
  intros Hg Hw Hr Hh Hp [= <-]. eapply (going_move s _ t w _ Hg Hw); [done|by destruct Hp as [-> | ->]|].
  cbn. intros g [[<- ->]|[Hne Hx]]%lookup_insert_Some; [by destruct Hh as [|[|[]]]|].
  right. split; [done|]. intros Hr'. unfold runs in *. destruct Hr, Hr'; congruence.
Qed.

Lemma going_step s s' : inv s → going s → step s s' → going s'.
Proof.
  intros Hinv Hg Hstep. destruct Hstep as [t w s' Hw Hrun|t w f how s' Hw Hph Hh Hrun|t w f how s' Hw Hph Hh Hrun
    |t w f ft Hw Hph Hl|ft Hfl Hl|f s' Hrun|b s' Hrun].
  - by eapply going_run_step.
  - eapply (going_slice s t w f how); [done|done|by left|done|by left|done].
  - eapply (going_slice s t w f how); [done|done|by right|done|by right|done].
  - apply going_schedule; [done|]. right. exists t, w. split; [done|]. by eapply runs_scans.
  - apply going_schedule; [done|]. destruct (decide (workers s = ∅)) as [|Hne]; [by left|right].
    destruct (map_choose _ Hne) as (t&w&Hw). exists t, w. split; [done|]. eapply untold_scans; [done| |done].
    intros [H1 H2]. by rewrite H1, H2 in Hfl.
  - injection Hrun as <- <-. eapply (going_keep s); [done|done| |by left]. cbn.
    by intros g [[_ [=]]|[_ ?]]%lookup_insert_Some.
  - destruct (stop_first_none _ _ _ Hrun) as [n ->]. destruct (tickles_keep n (set_flags true true s)) as (E1&E2&E3&_).
    eapply (going_keep s); [done|done|by rewrite E2|by left].
Qed.

Lemma steps_going s s' : rtc step s s' → inv s → going s → inv s' ∧ going s'.
Proof. induction 1; [done|]. intros. by eauto using sched_step_inv, going_step. Qed.

(** ** The first part of [stop] *)

Lemma set_flags_inv b s : inv s → inv (set_flags (m_stopping s || b) true s).
Proof.
  intros [?????? Hterm ??]. split; try done. intros t w Hw Hi. destruct (Hterm t w Hw Hi) as [_ E]. split; [done|].
  cbn. by rewrite E.
Qed.

Lemma set_flags_told s : inv s → inv (set_flags true true s).
Proof. intros [?????? Hterm ??]. by split. Qed.

Lemma tickles_inv n s : inv s → inv (Nat.iter n tickle s).
Proof. intros Hs. induction n as [|n IH]; [done|]. by apply (tickle_if_inv true). Qed.

(** It only sets the flags and tickles; when it neither runs the loop on the caller's
    thread nor has other threads to wait for, the queue is empty. *)
Lemma stop_first root own s b s1 :
  inv s → stop root own s = Ret b s1 →
  inv s1 ∧ told s1 ∧ workers s1 = workers s ∧ states s1 = states s ∧ m_fibers s1 = m_fibers s ∧
  (b = true ∨ root = None ∨ m_fibers s1 = []).
Proof.
  intros Hinv. unfold stop. set (s0 := set_flags (m_stopping s) true s).
  assert (inv s0) as H0 by (pose proof (set_flags_inv false s Hinv) as H; by rewrite orb_false_r in H).
  assert (∀ x, stopping (C := C) x = true → m_fibers x = []) as Hempty.
  { intros x Hx. unfold stopping in Hx. apply andb_true_iff in Hx as [[_ Hq]%andb_true_iff _]. by apply bool_decide_eq_true in Hq. }
  set (idle_root := match root with Some _ => _ | None => _ end). set (s2 := if idle_root then _ else _).
  assert (inv s2 ∧ workers s2 = workers s ∧ states s2 = states s ∧ m_fibers s2 = m_fibers s) as (H2&Hw2&Hs2&Hq2)
    by (unfold s2; destruct idle_root; split_and!; by (done || apply set_flags_told)).
  destruct (idle_root && stopping s2) eqn:Eir.
  { intros [= <- <-]. apply andb_true_iff in Eir as [Ei Est]. split_and!; try done; [by unfold s2; rewrite Ei|].
    right; right. by apply Hempty. }
  destruct (negb _); [done|]. set (n := (size (workers s2) + _)%nat). intros [= <- <-].
  destruct (tickles_keep n (set_flags true true s2)) as (E1&E2&E3&E4&E5&E6). split_and!.
  - by apply tickles_inv, set_flags_told.
  - by split; rewrite ?E5, ?E6.
  - by rewrite E1.
  - by rewrite E2.
  - by rewrite E3.
  - destruct (stopping (Nat.iter _ _ _)) eqn:Est; [right; right; by apply Hempty|].
    destruct root; [left; by rewrite bool_decide_eq_true_2|by right; left].
Qed.

(** A thread more at the head of its loop. *)
Lemma gather_new {A} (f : worker C → list A) (m : gmap Z (worker C)) t w :
  m !! t = None → f w = [] → gather f (<[t := w]> m) ≡ₚ gather f m.
Proof. intros Ht Hf. unfold gather. rewrite map_to_list_insert by done. cbn [flat_map snd]. by rewrite Hf. Qed.

Lemma call_root_inv t s : inv s → workers s !! t = None → Z.of_nat (size (workers s)) + 1 < 2 ^ 64 → inv (call_root t s).
Proof.
  intros [Ha Hi Ht Hs Hp Hq Hterm Hex Hsz] Hn Hroom. unfold call_root, set_worker. split; cbn.
  - by rewrite Ha, (gather_new active_of _ _ (Worker Top None INIT) Hn eq_refl).
  - by rewrite Hi, (gather_new idle_of _ _ (Worker Top None INIT) Hn eq_refl).
  - by rewrite (gather_new picked_of _ _ (Worker Top None INIT) Hn eq_refl).
  - done.
  - intros t' w' ft [[_ <-]|[_ Hw]]%lookup_insert_Some; [done|by eapply Hp].
  - done.
  - intros t' w' [[_ <-]|[_ Hw]]%lookup_insert_Some; [done|]. intros Hid. by apply (Hterm _ _ Hw Hid).
  - intros t' w' [[_ <-]|[_ Hw]]%lookup_insert_Some; [done|by eapply Hex].
  - rewrite map_size_insert_None by done. lia.
Qed.

Lemma call_root_going t s : going s → workers s !! t = None → going (call_root t s).
Proof.
  intros [Hx Hs] Hn. unfold call_root, set_worker. split; cbn.
  - intros f Hf. destruct (Hx f Hf) as (t0&w0&H0&Hr). exists t0, w0. rewrite lookup_insert_ne; [done|]. intros <-. congruence.
  - intros ft _ _ _. exists t, (Worker Top None INIT). by rewrite lookup_insert_eq.
Qed.

(** ** To the end *)

(** Once told to stop a scheduler stays so; one without threads then takes no task. *)
Lemma tell_step s s' : step s s' → told s → told s' ∧ (workers s = ∅ → workers s' = ∅ ∧ m_fibers s' = m_fibers s).
Proof.
  intros Hstep Ht. assert (∀ ft, told (schedule ft s)) as Hsch.
  { intros ft. unfold schedule, scheduleNoLock, tickle_if. by destruct (nonempty ft), (bool_decide _). }
  assert (∀ t w, workers s !! t = Some w → workers s = ∅ → False) as Hno. { intros t w Hw E. by rewrite E, lookup_empty in Hw. }
  destruct Hstep as [t w s' Hw Hrun|t w f how s' Hw Hph Hh Hrun|t w f how s' Hw Hph Hh Hrun
    |t w f ft Hw Hph Hl|ft Hfl Hl|f s' Hrun|b s' Hrun].
  - split; [|intros E; by destruct (Hno t w)].
    unfold run_step, run_pick, run_start, run_after_fiber, run_after_cb, run_left_fiber, run_left_cb, run_idle, idle,
      run_after_idle, bind, get, ub, upd, swap_in, reset_fiber, new_cb_fiber, ret, schedule, scheduleNoLock, tickle_if in Hrun.
    repeat (case_match; try discriminate Hrun); simplify_eq; exact Ht.
  - injection Hrun as <-. split; [done|intros E; by destruct (Hno t w)].
  - injection Hrun as <-. split; [done|intros E; by destruct (Hno t w)].
  - split; [done|intros E; by destruct (Hno t w)].
  - destruct Ht as [H1 H2]. by rewrite H1, H2 in Hfl.
  - injection Hrun as <- <-. done.
  - destruct (stop_first_none _ _ _ Hrun) as [n ->].
    destruct (tickles_keep n (set_flags true true s)) as (E1&E2&E3&E4&E5&E6). split; [split; by rewrite ?E5, ?E6|].
    by rewrite E1, E3.
Qed.

Lemma tell_steps s s' :
  rtc step s s' → told s → told s' ∧ (workers s = ∅ → workers s' = ∅ ∧ m_fibers s' = m_fibers s).
Proof.
  induction 1 as [|x y z Hxy _ IH]; [done|]. intros Ht. destruct (tell_step _ _ Hxy Ht) as [Hty Hy].
  destruct (IH Hty) as [Htz Hz]. split; [done|]. intros E. destruct (Hy E) as [Ey <-]. by apply Hz.
Qed.

(** When all threads have left their loops, what is queued is pinned, and no task is
    held by a thread. *)
Lemma exited_pinned s :
  inv s → going s → forallb (λ tw, exited tw.2) (map_to_list (workers s)) = true →
  (workers s = ∅ → m_fibers s = []) →
  Forall (λ ft, ft_thread ft ≠ -1) (m_fibers s) ∧ gather picked_of (workers s) = [].
Proof.
  intros Hinv Hg Hall Hnone. assert (∀ t w, workers s !! t = Some w → w_phase w = Exited) as Hex.
  { intros t w Hw. rewrite forallb_forall in Hall.
    assert (exited w = true) as Hx by (apply (Hall (t, w)), list_elem_of_In; by apply elem_of_map_to_list).
    unfold exited in Hx. by destruct (w_phase w). }
  split.
  - apply Forall_forall. intros ft Hft Hpin. destruct (decide (workers s = ∅)) as [E|Hne].
    { rewrite (Hnone E) in Hft. by apply not_elem_of_nil in Hft. }
    destruct (g_scan s Hg ft Hne Hft Hpin) as (t&w&Hw&Hl). unfold scans_again in Hl. by rewrite (Hex t w Hw) in Hl.
  - unfold gather. assert (∀ kv, kv ∈ map_to_list (workers s) → picked_of kv.2 = []) as Hp.
    { intros [t w] Hin%elem_of_map_to_list. unfold picked_of. cbn. by rewrite (Hex t w Hin). }
    clear Hall. revert Hp. induction (map_to_list (workers s)) as [|kv l IH]; intros Hp; [done|]. cbn [flat_map].
    rewrite Hp by by left. apply IH. intros kv' Hin. apply Hp. by right.
Qed.

Lemma start_going ids s0 : start ids new_sched = Ret tt s0 → going s0.
Proof.
  destruct (start_state (C := C) ids) as (m&Hs&_). rewrite Hs. intros [= <-]. split; cbn.
  - intros f Hf. by rewrite lookup_empty in Hf.
  - intros ft _ Hft. by apply not_elem_of_nil in Hft.
Qed.

(** A step of a thread leaves it among the threads. *)
Lemma run_step_keeps t w s s' : run_step t w s = Ret tt s' → is_Some (workers s' !! t).
Proof.
  assert (∀ (b : bool) x, workers (tickle_if b x) = workers (C := C) x) as Htk by by intros [].
  unfold run_step, run_pick, run_start, run_after_fiber, run_after_cb, run_left_fiber, run_left_cb, run_idle, idle, run_after_idle, bind, get, ub, upd,
    swap_in, reset_fiber, new_cb_fiber, ret, schedule, scheduleNoLock.
  intros H. repeat (case_match; try discriminate H); simplify_eq; cbn; rewrite ?Htk; cbn; rewrite lookup_insert_eq; by eexists.
Qed.

Lemma step_keeps s s' : step s s' → workers s ≠ ∅ → workers s' ≠ ∅.
Proof.
  assert (∀ t x, is_Some (workers (C := C) x !! t) → workers x ≠ ∅) as Hne. { intros t x [w Hw] E. by rewrite E, lookup_empty in Hw. }
  destruct 1 as [t w s' _ Hrun|t w f how s' _ _ _ Hrun|t w f how s' _ _ _ Hrun|t w f ft _ _ _|ft _ _|f s' Hrun|b s' Hrun]; intros Hw.
  - eapply Hne, run_step_keeps, Hrun.
  - injection Hrun as <-. eapply (Hne t). cbn. rewrite lookup_insert_eq. by eexists.
  - injection Hrun as <-. eapply (Hne t). cbn. rewrite lookup_insert_eq. by eexists.
  - unfold schedule, scheduleNoLock. by destruct (nonempty ft), (bool_decide _).
  - unfold schedule, scheduleNoLock. by destruct (nonempty ft), (bool_decide _).
  - by injection Hrun as _ <-.
  - destruct (stop_first_none _ _ _ Hrun) as [n ->]. by rewrite (proj1 (tickles_keep _ _)).
Qed.

Lemma steps_keep s s' : rtc step s s' → workers s ≠ ∅ → workers s' ≠ ∅.
Proof. induction 1; eauto using step_keeps. Qed.

(** ** What [stop] promises *)

(** C33. When [stop] returns, in every interleaving of the threads in which nothing but
    running tasks schedules after the flags are set: all threads have left their
    loops, every task ever scheduled has been entered, or its fiber was over, or is
    still queued, and then it is pinned to a thread (so nothing is left if no task is
    pinned). *)
Theorem stop_leaves_pinned_only ids root s s' :
  Z.of_nat (length ids) < 2 ^ 64 → reachable ids s → Z.of_nat (size (workers s)) + 1 < 2 ^ 64 →
  workers s ≠ ∅ ∨ root ≠ None → stops root s s' →
  m_stopping s' = true ∧ workers s' = ∅ ∧
  scheduled s' ≡ₚ m_fibers s' ++ (started s').*2 ++ dropped s' ∧
  Forall (λ ft, ft_thread ft ≠ -1) (m_fibers s').
Proof.
  intros Hlen Hr Hroom Hsome (b&s1&s2&s3&Hstop&Hroot&Hsteps&Hj). pose proof (reachable_inv ids s Hlen Hr) as Hinv.
  assert (going s) as Hg.
  { destruct Hr as (s0&Hs0&Hst). eapply (steps_going s0 s Hst); [|by eapply start_going].
    apply (reachable_inv ids s0 Hlen). exists s0. by split; [|apply rtc_refl]. }
  destruct (stop_first _ _ _ _ _ Hinv Hstop) as (Hinv1&Ht1&Hw1&Hst1&Hq1&Hcase).
  assert (going s1) as Hg1 by (eapply (going_keep s); [done|done|by rewrite Hst1|by left]).
  assert (inv s2 ∧ going s2 ∧ told s2 ∧ (workers s2 = ∅ → m_fibers s2 = [])) as (Hinv2&Hg2&Ht2&Hz2).
  { destruct b.
    - destruct Hroot as (t&st&->&Hn&->). split_and!; [apply call_root_inv; [done|done|by rewrite Hw1]|by apply call_root_going|done|].
      intros E. cbn in E. by apply insert_non_empty in E.
    - subst s2. split_and!; try done. intros E. rewrite Hw1 in E.
      destruct Hcase as [|[Hnone|]]; [done| |done]. destruct Hsome; [done|]. by destruct root. }
  destruct (steps_going _ _ Hsteps Hinv2 Hg2) as [Hinv3 Hg3]. destruct (tell_steps _ _ Hsteps Ht2) as [Ht3 Hz3].
  unfold joins in Hj. destruct (forallb _ _) eqn:Hall; [|done]. injection Hj as <-. cbn.
  destruct (exited_pinned s3 Hinv3 Hg3 Hall) as [Hpin Hpick].
  { intros E. destruct (decide (workers s2 = ∅)) as [E2|Hne2]; [by destruct (Hz3 E2) as [_ ->]; apply Hz2|].
    exfalso. eapply steps_keep; eauto. }
  pose proof (i_tasks s3 Hinv3) as Htasks. rewrite Hpick in Htasks. destruct Ht3. by split_and!.
Qed.

End Stop.

(** ** A scheduler that has only the caller's thread *)

Definition before_stop : sched Z := play_or [ESchedule (a_cb 10 (-1)); ESchedule (a_cb 20 5)] [].
Definition after_first : sched Z :=
  match stop (Some INIT) true before_stop with Ret _ s => s | _ => before_stop end.
Definition root_loop : list (event (C := Z)) :=
  [ERun 5; ERun 5; EEnd 5 TERM; ERun 5; ERun 5; ERun 5; ERun 5; EEnd 5 TERM; ERun 5; ERun 5; ERun 5; ERun 5; ERun 5; ERun 5; ERun 5; ERun 5].
Definition at_joins : sched Z := default before_stop (play root_loop (call_root 5 after_first)).
Definition after_stop : sched Z := default before_stop (joins at_joins).

(** Both callbacks run on that thread, inside [stop]. *)
Lemma stop_leaves_pinned_only_witness :
  started after_stop = [(5, a_cb 10 (-1)); (5, a_cb 20 5)] ∧ m_fibers after_stop = [] ∧
  m_stopping after_stop = true ∧ workers after_stop = ∅ ∧
  scheduled after_stop ≡ₚ m_fibers after_stop ++ (started after_stop).*2 ++ dropped after_stop ∧
  Forall (λ ft, ft_thread ft ≠ -1) (m_fibers after_stop).
Proof.
  split; [by vm_compute|]. split; [by vm_compute|].
  apply (stop_leaves_pinned_only [] (Some (5, INIT)) before_stop after_stop).
  - done.
  - apply (play_reachable [ESchedule (a_cb 10 (-1)); ESchedule (a_cb 20 5)]); by vm_compute.
  - by vm_compute.
  - by right.
  - exists true, after_first, (call_root 5 after_first), at_joins. split; [by vm_compute|]. split; [|split].
    + exists 5, INIT. split; [done|]. split; [by vm_compute|done].
    + apply (play_steps root_loop). by vm_compute.
    + by vm_compute.
Defined.

(** ** A task that is left behind *)

(** A fiber runs on thread 1 when [stop] is called, and yields with READY.  Between the
    decrement and the re-scheduling on one thread the other finds nothing left to do and
    its idle fiber ends, twice, so that both have; then the fiber schedules a task for
    thread 2, which has left. *)
Definition before_race : list (event (C := Z)) := [ENew; ESchedule (a_fiber 0); ERun 1; ERun 1].
Definition race : list (event (C := Z)) :=
  [EEnd 1 READY; ERun 1; ERun 2; ERun 2; ERun 2; ERun 2; ERun 1; ERun 2; ERun 2; ERun 1; ERun 1;
   EEnd 2 READY; ERun 2; ERun 1; ERun 1; ERun 2; ERun 1; ERun 1; ERun 2; ERun 2;
   ESpawn 1 (a_cb 30 2); EEnd 1 TERM; ERun 1; ERun 1; ERun 1; ERun 1].

Theorem pinned_left_behind :
  ∃ s s' : sched Z, reachable [1; 2] s ∧ stops None s s' ∧ m_fibers s' = [a_cb 30 2].
Proof.
  set (s := play_or before_race [1; 2]).
  set (s1 := match stop None false s with Ret _ s1 => s1 | _ => s end).
  set (s3 := default s (play race s1)).
  exists s, (default s (joins s3)). split; [apply (play_reachable before_race); by vm_compute|]. split; [|by vm_compute].
  exists false, s1, s1, s3. split; [by vm_compute|]. split; [done|]. split; [|by vm_compute].
  apply (play_steps race). by vm_compute.
Qed.

End SchedStop.
